(* ===== verification/_CoqProject ===== *)
-Q . S2P
Prelude.v
Text.v
Process.v
Policy.v
TestEngine.v
Review.v
Evidence.v
Risk.v
AuditTrail.v
Vcs.v
Merge.v
PostMerge.v
Repair.v
Pipeline.v
Driver.v
Agent.v
Shell.v
Failover.v
WorkGraph.v
WorkStore.v
Quota.v
Budget.v
Router.v
RepoInfo.v
Quality.v
Memory.v
Specification.v
Compiler.v
Projects.v
Backlog.v
WorkspaceRows.v
Workspace.v
Finalize.v
Runner.v
Decompose.v
Handlers.v
PipelineService.v
Reconcile.v
Scheduler.v
Enggate.v
Artifacts.v
Images.v
Design.v
Visual.v
Json.v
ReviewAgent.v
Regex.v
Protocol.v
Live.v
Claude.v
Declarative.v
OpenCode.v
Trace.v
LocalGit.v
Forges.v
GitHub.v
GitLab.v
Bootstrap.v
Lifecycle.v
