(* ===== verification/Prelude.v ===== *)
(** * NeuroForge: a verified model of its control core

    NeuroForge is a daemon that hands programming tasks to external coding
    agents and decides, deterministically, what may happen to their work.  The
    agents, Git, the test runners and the network are outside; inside is a set
    of small engines over one SQLite database.  This library models these
    engines and the daemon code that composes them, from the Go sources under
    [src/internal], and proves what they promise.

    ** How the parts interact

    A task enters the backlog of a project, is compiled into a specification,
    decomposed into a work graph and run through the stages of the pipeline: a
    worktree is created, an agent runs in it under supervision, its work is
    verified, reviewed, repaired within a budget and finalized into a result
    ref, which the merge authority may deliver.  The policy says at every point
    what is allowed; the quota, budget and router choose the agent; at startup
    the daemon settles what a crash left behind.

    ** The files (each in a Module of its own) and the code they model

    - [Prelude]: results, byte strings with the functions of Go's [strings]
      the code calls, sorting, generic lemmas.
    - [Process]: programs as sequences of atomic steps on a shared state, with
      [run] (alone), pools of programs (interleaved with each other, with an
      environment and with crashes), and the [wp] and [total] calculi.
    - [Policy] (policy/): toggles, profiles, rules R1-R7, resolution of
      project policy and task override, gates, stage report, test scope.
    - [TestEngine], [Review], [Evidence], [Risk], [Repair], [PostMerge]
      (testengine/engine.go and scope.go, review/engine.go, evidence/, risk/,
      repair/, postmerge/): the judging engines over their runner interfaces.
    - [AuditTrail], [Vcs], [Merge] (audit/, adapter/vcs/provider.go, merge/):
      the governor's decision, the authority every delivery passes, the queue.
    - [Pipeline], [Driver] (pipeline/): the durable state machine of a run and
      the loop that drives it; [Driver] also restart recovery's order.
    - [Agent], [Failover] (adapter/codingagent/protocol, supervisor/): the
      environment and the supervised run of an agent; recovery actions,
      continuation packs and the failover controller.
    - [WorkGraph], [WorkStore], [Decompose] (workgraph/, storage/workgraph.go,
      the leases of storage/checkpoints.go): graphs, validation, readiness,
      the durable store, leases, claims, decomposition.
    - [Quota], [Budget], [Router] (quota/, budget/, router/): account
      availability, spending, route selection.
    - [Specification], [Compiler] (task/specification.go, task/compiler.go,
      storage/specifications.go); [Projects], [Backlog] (project/, task/state.go
      and backlog.go, storage/projects.go and tasks.go).
    - [WorkspaceRows], [Workspace] (storage/workspaces.go, finalize_intent.go,
      checkpoints.go; workspace/): worktrees and what Git is asked to do.
    - [Finalize], [Runner] (runapp/, daemon/runapp_service.go): the outcome of
      a run, its finalization protocol, and the direct run of one agent.
    - [Handlers], [PipelineService], [Reconcile] (daemon/pipeline_handlers.go,
      pipeline_service.go, the reconcilers): the composition of all the above.
    - [Text], [Json], [Regex]: what the code uses of Go's text, JSON and regular
      expression packages.
    - [Shell], [ReviewAgent] (testengine/shell.go, review/agent.go): the runner
      and the reviewer that stand behind two of the interfaces above.
    - [RepoInfo], [Quality], [Memory], [Scheduler] (repoinfo/, quality/, memory/,
      their tables in storage/, scheduler/, daemon/scheduler_service.go): index
      and context packs, accounting, learned rules, and the dispatch path and
      post-merge sentinel that compose them.
    - [Enggate], [Artifacts] (enggate/, artifacts/store.go): the engineering gate
      and the content-addressed store.
    - [Images], [Design], [Visual] (adapter/imageprovider, design/, visual/):
      providers, the choice of a design, the verification of a screen.
    - [Protocol], [Live], [Claude], [Declarative], [OpenCode] (adapter/codingagent:
      protocol/, failure.go, eventsink.go; claude/; declarative/; opencode/): the
      events of an agent and their decoding; runs as concurrent programs; three
      adapters, one of which a manifest describes.
    - [Trace], [LocalGit], [Forges], [GitHub], [GitLab] (adapter/vcs/localgit,
      github, gitlab): the log of what a process did and a logic of such logs;
      the three providers behind [Vcs].
    - [Bootstrap] (bootstrap/, cli/init_cmd.go): the installation plan, the
      executor behind the confirmation gate, the toolchain lock.
    - [Lifecycle] (daemon/runtime.go, lifecycle.go, autostart_lock.go, daemon.go):
      the runtime files and the lock by which one process is the daemon of a
      home.

    ** How state and operations correspond

    A struct is a Record with the field names of the source (prefixed where two
    records of a file share one), an enumeration an Inductive with its
    constructors, a Go method a Definition of its name.  Code that a mutex or a
    database transaction makes atomic is a function of its state.  Code that
    runs several statements is a [proc] (or, in [Driver] and [WorkStore], a
    state passing function over a [World] with a schedule of what other
    connections do between the statements).  A call that may fail returns
    [result]; a sentinel or typed error is a constructor, with the fields its
    text shows.  Code reached through an interface is a parameter: a record or
    class of functions on a state of the outside world ([vcs.Provider],
    [External], [Agents], [Stages], the runners and reviewers), of which
    nothing is assumed unless a theorem says so by name.

    ** What the theorems show

    - Authority: an override only restricts, a network lock cannot be lifted,
      every delivery passes the governor, a merge permission implies verified
      work, Git is only asked confined commands, an agent only gets the
      allowlisted environment.
    - The life of a run: the store keeps every run well formed, the driver
      always returns, a completed run was verified, reviewed and finalized,
      stage handlers report exactly what the runners and reviewers said, a
      finished run is settled.
    - The adapters: under every interleaving of a supervisor with its process,
      reader, timer and callers a run ends with one terminal event, made of what
      it read of its own agent or of how it ended; every place it waits in, those
      nothing but the agent ends and those nothing ends included.
    - What goes out: in every life of a local merge nothing is written before a
      clean checkout was seen and a backup made; a forge is only sent requests
      of its repository with the token just resolved; nothing is installed
      that was not planned and approved.
    - Crash and interleaving: an outcome is decided once, recovery completes
      what was decided, the startup settles workspaces before it fails them,
      claims are exclusive, specifications are saved once; however the claims
      of daemon processes interleave, at most one of them listens, as long as no
      health check of a listening one times out.
    - The engines one by one: validity, exactness, canonical forms, bounds.
    - Lemmas under a heading that says so show where the code does less than
      its comments promise, each on a concrete state.

    ** Fuel and bounds

    The driver loop runs on nine iterations per allowed repair plus nine, the
    failover loop on six attempts per route, both proved enough
    ([Drive_terminates], [Run_bounded_failover]); the merge queue on the items
    there are and will arrive ([Process_fifo_authorised]); the repair loop on its
    iteration limit; searches in graphs on the number of packages
    ([Validate_sound]); the YAML parser on two steps per line
    ([ParseManifest_answers]); identifier probing on the number of existing
    identifiers plus one.

    ** What is not modelled, and where the model is narrower

    - Texts of errors are values; [strings.ToLower] is on ASCII; descriptions
      are valid UTF-8.
    - SQLite: a statement or a transaction is atomic and fails only by its
      constraints (or where a parameter says it may); columns the code keeps as
      JSON are structured; a timestamp is an instant, compared as text where
      the code compares text ([textLe]).  The stage records of a run are a list in
      the order of their ids; the ids themselves, which have gaps, are left out.
    - Git, the file system, agents, runners, SHA-256 and the clock are
      parameters.
    - The stage handlers run alone on the shared state; what others do
      meanwhile is inside the parameters.
    - A read, a channel operation, a signal and a callback of the sink are one
      step each in [Live]; the reader hands over whole lines, and of the first
      bytes it is known whether there are three.
    - Slices that share a backing array are modelled as such in [Bootstrap];
      elsewhere a slice is a list.
    - The rest of the command line, the terminal UI, the HTTP transport and the
      adapters of the other vendors are input, output and process control; the
      manifest lists them.
 *)
From stdpp Require Export base gmap strings list sorting relations pretty.
From Stdlib Require Export Ascii ZArith Lia.

#[global] Open Scope stdpp_scope.
Set Default Proof Using "Type".

(** ** Fallible computations: Go's [(T, error)] *)

(** A Go call that returns [(value, nil)] or [(_, err)]. *)
Inductive result (E A : Type) : Type :=
| Ok (a : A)
| Err (e : E).
Arguments Ok {E A} a.
Arguments Err {E A} e.

#[export] Instance result_ret E : MRet (result E) := λ A a, Ok a.
#[export] Instance result_bind E : MBind (result E) := λ A B f m,
  match m with Ok a => f a | Err e => Err e end.

Definition is_ok {E A} (r : result E A) : bool :=
  match r with Ok _ => true | Err _ => false end.

Lemma bind_ok {E A B} (m : result E A) (f : A → result E B) b :
  (m ≫= f) = Ok b ↔ ∃ a, m = Ok a ∧ f a = Ok b.
Proof. destruct m; simpl; naive_solver. Qed.

#[export] Instance result_eq_dec E A `{EqDecision E, EqDecision A} :
  EqDecision (result E A).
Proof. intros x y; unfold Decision; decide equality; apply decide, _. Defined.

(** ** Time: nanoseconds since Go's zero [time.Time], so that the zero value
    is [0] and [IsZero] is a comparison with it.  A [time.Duration] is a
    number of nanoseconds. *)
Abbreviation Time := Z (only parsing).
Abbreviation Duration := Z (only parsing).

Module time.
Definition IsZero (t : Time) : bool := (t =? 0)%Z.
Definition Before (t u : Time) : bool := (t <? u)%Z.
Definition After (t u : Time) : bool := (u <? t)%Z.
Definition Nanosecond : Duration := 1%Z.
Definition Second : Duration := 1000000000%Z.
End time.

(** ** Go strings: byte strings *)

(** The functions of Go's [strings] package the modelled code calls.  A Go
    string is a byte string, as [string] is.  [ToLower]/[ToUpper] are Go's
    mapping on ASCII bytes; a byte above 127 is left alone, so on text with
    non-ASCII letters they are narrower than Go's. *)
Module strs.
Definition lower_ascii (c : ascii) : ascii :=
  let n := nat_of_ascii c in
  if (65 <=? n) && (n <=? 90) then ascii_of_nat (n + 32) else c.
Definition upper_ascii (c : ascii) : ascii :=
  let n := nat_of_ascii c in
  if (97 <=? n) && (n <=? 122) then ascii_of_nat (n - 32) else c.

Fixpoint map_bytes (f : ascii → ascii) (s : string) : string :=
  match s with
  | EmptyString => EmptyString
  | String c s => String (f c) (map_bytes f s)
  end.
Definition ToLower : string → string := map_bytes lower_ascii.
Definition ToUpper : string → string := map_bytes upper_ascii.

Fixpoint HasPrefix (s p : string) : bool :=
  match p, s with
  | EmptyString, _ => true
  | String a p, String b s => bool_decide (a = b) && HasPrefix s p
  | _, _ => false
  end.
Fixpoint HasSuffix (s p : string) : bool :=
  bool_decide (s = p) ||
  match s with EmptyString => false | String _ s => HasSuffix s p end.
Fixpoint Contains (s sub : string) : bool :=
  HasPrefix s sub ||
  match s with EmptyString => false | String _ s => Contains s sub end.

(** [strings.Cut(s, sep)] for a one-byte separator, its first component. *)
Fixpoint CutBefore (s : string) (sep : ascii) : string :=
  match s with
  | EmptyString => EmptyString
  | String c s => if bool_decide (c = sep) then EmptyString
                  else String c (CutBefore s sep)
  end.

Fixpoint drop_bytes (n : nat) (s : string) : string :=
  match n, s with
  | S n, String _ s => drop_bytes n s
  | _, _ => s
  end.
Fixpoint take_bytes (n : nat) (s : string) : string :=
  match n, s with
  | S n, String c s => String c (take_bytes n s)
  | _, _ => EmptyString
  end.

Fixpoint rev_acc (s acc : string) : string :=
  match s with
  | EmptyString => acc
  | String c s => rev_acc s (String c acc)
  end.
Definition rev (s : string) : string := rev_acc s EmptyString.

(** The UTF-8 encodings of the runes [unicode.IsSpace] accepts. *)
Definition bytes (l : list nat) : string :=
  foldr (λ n s, String (ascii_of_nat n) s) EmptyString l.
Definition space_runes : list string :=
  (bytes <$> ([[9]; [10]; [11]; [12]; [13]; [32]; [194; 133]; [194; 160];
              [225; 154; 128]; [226; 128; 168]; [226; 128; 169];
              [226; 128; 175]; [226; 129; 159]; [227; 128; 128]]
   ++ ((λ k, [226; 128; k]) <$> seq 128 11)))%nat.

Fixpoint strip_once (runes : list string) (s : string) : option string :=
  match runes with
  | [] => None
  | r :: rs => if HasPrefix s r then Some (drop_bytes (String.length r) s)
               else strip_once rs s
  end.
Fixpoint trim_left (fuel : nat) (runes : list string) (s : string) : string :=
  match fuel with
  | O => s
  | S fuel => match strip_once runes s with
              | Some s' => trim_left fuel runes s'
              | None => s
              end
  end.
(** [strings.TrimSpace]: white space off the left, then (on the reversed
    bytes, with the reversed encodings) off the right.  Every step removes
    at least one byte, so the length is enough fuel. *)
Definition TrimSpace (s : string) : string :=
  let l := trim_left (String.length s) space_runes s in
  rev (trim_left (String.length l) (rev <$> space_runes) (rev l)).

Definition nl : ascii := ascii_of_nat 10.
Definition cr : ascii := ascii_of_nat 13.
Definition tab : ascii := ascii_of_nat 9.

(** [strings.TrimLeft(s, cutset)] and [strings.TrimRight] on one-byte cutsets. *)
Fixpoint TrimLeft (cut : list ascii) (s : string) : string :=
  match s with
  | EmptyString => EmptyString
  | String c s' => if bool_decide (c ∈ cut) then TrimLeft cut s' else s
  end.
Fixpoint TrimRight (cut : list ascii) (s : string) : string :=
  match s with
  | EmptyString => EmptyString
  | String c s' =>
      match TrimRight cut s' with
      | EmptyString => if bool_decide (c ∈ cut) then EmptyString else String c EmptyString
      | r => String c r
      end
  end.

(** [strings.Split(s, "\n")]. *)
Fixpoint SplitLines (s : string) : list string :=
  match s with
  | EmptyString => [EmptyString]
  | String c s' =>
      if bool_decide (c = nl) then EmptyString :: SplitLines s'
      else match SplitLines s' with
           | l :: ls => String c l :: ls
           | [] => [String c EmptyString]
           end
  end.

(** [strings.Trim(s, cutset)]. *)
Definition Trim (cut : list ascii) (s : string) : string := TrimRight cut (TrimLeft cut s).

(** [strings.Cut(s, sep)] when [sep] occurs: what is before and after it. *)
Fixpoint Cut (s sep : string) : option (string * string) :=
  if HasPrefix s sep then Some (EmptyString, drop_bytes (String.length sep) s)
  else match s with
       | EmptyString => None
       | String c s => match Cut s sep with Some (a, b) => Some (String c a, b) | None => None end
       end.

Fixpoint Join (l : list string) (sep : string) : string :=
  match l with
  | [] => EmptyString
  | [s] => s
  | s :: l => s +:+ sep +:+ Join l sep
  end.

(** [fmt.Sprintf("%q", s)] on printable ASCII without quotes or
    backslashes: the identifiers it is used for. *)
Definition dquote : string := String (ascii_of_nat 34) EmptyString.
Definition q (s : string) : string := dquote +:+ s +:+ dquote.
End strs.


(** ** Bytes of a string *)

Fixpoint everyByte (p : ascii → bool) (s : string) : bool :=
  match s with EmptyString => true | String c s => p c && everyByte p s end.

Lemma everyByte_app p s s' : everyByte p (s +:+ s') = everyByte p s && everyByte p s'.
Proof. induction s as [|c s IH]; simpl; [done|]. rewrite IH. by rewrite andb_assoc. Qed.

Lemma everyByte_impl (p p' : ascii → bool) s :
  (∀ c, p c = true → p' c = true) → everyByte p s = true → everyByte p' s = true.
Proof.
  intros H. induction s as [|c s IH]; simpl; [done|]. rewrite !andb_true_iff. intros [H1 H2]. auto.
Qed.

Lemma append_assoc (a b c : string) : (a +:+ b) +:+ c = a +:+ (b +:+ c).
Proof.
  induction a as [|x a IH]; [done|]. change (String x ((a +:+ b) +:+ c) = String x (a +:+ (b +:+ c))). by rewrite IH.
Qed.

Lemma rev_acc_app s acc : strs.rev_acc s acc = strs.rev s +:+ acc.
Proof.
  unfold strs.rev. revert acc. induction s as [|c s IH]; intros acc; simpl; [done|].
  by rewrite IH, (IH (String c "")), append_assoc.
Qed.

Lemma rev_cons c s : strs.rev (String c s) = strs.rev s +:+ String c "".
Proof. unfold strs.rev at 1. simpl. by rewrite rev_acc_app. Qed.

Lemma rev_snoc c s : strs.rev (s +:+ String c "") = String c (strs.rev s).
Proof.
  induction s as [|a s IH]; [done|]. change (String a s +:+ String c "") with (String a (s +:+ String c "")).
  by rewrite !rev_cons, IH.
Qed.

Lemma HasPrefix_snoc c u r :
  everyByte (λ b, negb (bool_decide (b = c))) r = true → strs.HasPrefix (u +:+ String c "") r = true →
  strs.drop_bytes (String.length r) (u +:+ String c "") = strs.drop_bytes (String.length r) u +:+ String c "".
Proof.
  revert u; induction r as [|b r IH]; intros u; [by destruct u|]. cbn [everyByte]. rewrite andb_true_iff.
  intros [Hb Hr]. destruct u as [|a u]; simpl.
  - rewrite andb_true_iff, bool_decide_eq_true. intros [-> _]. by rewrite bool_decide_true in Hb.
  - rewrite andb_true_iff. intros [_ Hp]. by apply IH.
Qed.

Lemma strip_once_snoc c rs u s' :
  forallb (everyByte (λ b, negb (bool_decide (b = c)))) rs = true →
  strs.strip_once rs (u +:+ String c "") = Some s' → ∃ u', s' = u' +:+ String c "".
Proof.
  induction rs as [|r rs IH]; [done|]. cbn [forallb strs.strip_once]. rewrite andb_true_iff. intros [Hr Hrs].
  destruct (strs.HasPrefix _ r) eqn:E; [|by apply IH]. intros [= <-]. rewrite HasPrefix_snoc by done. eauto.
Qed.

Lemma trim_left_snoc c k rs u :
  forallb (everyByte (λ b, negb (bool_decide (b = c)))) rs = true →
  ∃ u', strs.trim_left k rs (u +:+ String c "") = u' +:+ String c "".
Proof.
  intros Hrs. revert u; induction k as [|k IH]; intros u; simpl; [eauto|].
  destruct (strs.strip_once rs _) as [s'|] eqn:E; [|eauto].
  apply strip_once_snoc in E as [u' ->]; [|done]. apply IH.
Qed.

(** A byte of no white-space rune stays in front. *)
Lemma strip_once_None c rs s :
  forallb (λ r, negb (bool_decide (r = "")) && everyByte (λ b, negb (bool_decide (b = c))) r) rs = true →
  strs.strip_once rs (String c s) = None.
Proof.
  induction rs as [|r rs IH]; [done|]. cbn [forallb strs.strip_once]. rewrite !andb_true_iff. intros [[Hr Hb] Hrs].
  destruct r as [|a r]; [done|]. cbn [everyByte] in Hb. apply andb_true_iff in Hb as [Hb _].
  apply negb_true_iff, bool_decide_eq_false in Hb.
  assert (strs.HasPrefix (String c s) (String a r) = false) as -> by (cbn; by rewrite bool_decide_false).
  by apply IH.
Qed.

Lemma TrimSpace_keeps c s :
  forallb (λ r, negb (bool_decide (r = "")) && everyByte (λ b, negb (bool_decide (b = c))) r) strs.space_runes = true →
  forallb (everyByte (λ b, negb (bool_decide (b = c)))) (strs.rev <$> strs.space_runes) = true →
  ∃ r, strs.TrimSpace (String c s) = String c r.
Proof.
  intros H1 H2. unfold strs.TrimSpace.
  assert (strs.trim_left (String.length (String c s)) strs.space_runes (String c s) = String c s) as ->.
  { cbn [String.length strs.trim_left]. by rewrite strip_once_None. }
  rewrite rev_cons. destruct (trim_left_snoc c (String.length (String c s)) (strs.rev <$> strs.space_runes) (strs.rev s) H2)
    as [u' ->]. rewrite rev_snoc. eauto.
Qed.

Definition digits : list ascii := ["0"; "1"; "2"; "3"; "4"; "5"; "6"; "7"; "8"; "9"]%char.

Lemma pretty_N_go_bytes p x s :
  forallb p digits = true → everyByte p s = true → everyByte p (pretty_N_go x s) = true.
Proof.
  intros Hd. revert s. induction (N.lt_wf_0 x) as [x _ IH]; intros s Hs.
  destruct (decide (x = 0%N)) as [->|Hx]; [by rewrite pretty_N_go_0|].
  rewrite pretty_N_go_step by lia. apply IH; [apply N.div_lt; lia|]. cbn [everyByte]. rewrite Hs, andb_true_r.
  cbn in Hd. rewrite !andb_true_iff in Hd. unfold pretty_N_char. repeat case_match; tauto.
Qed.

(** [%d] of a positive number writes digits only. *)
Lemma pretty_Z_bytes p n : forallb p digits = true → (0 < n)%Z → everyByte p (pretty n) = true.
Proof.
  intros Hd Hn. destruct n as [|n|n]; [lia| |lia]. change (pretty (Zpos n)) with (pretty (Npos n)).
  unfold pretty, pretty_N. case_decide; [done|]. by apply pretty_N_go_bytes.
Qed.

(** ** Generic list lemmas *)

Lemma NoDup_fmap_filter {A B} (f : A → B) (P : A → Prop) `{∀ x, Decision (P x)} l :
  NoDup (f <$> l) → NoDup (f <$> filter P l).
Proof.
  induction l as [|x l IH]; simpl; [done|]. rewrite NoDup_cons, filter_cons.
  intros [Hx Hl]. case_decide; simpl; [|by apply IH].
  apply NoDup_cons. split; [|by apply IH].
  intros Hin. apply Hx. apply list_elem_of_fmap in Hin as (y & -> & Hy).
  apply list_elem_of_filter in Hy as [_ Hy]. by apply list_elem_of_fmap_2.
Qed.

Lemma Forall2_compose {A} (R : relation A) l1 l2 l3 :
  (∀ x y z, R x y → R y z → R x z) → Forall2 R l1 l2 → Forall2 R l2 l3 → Forall2 R l1 l3.
Proof.
  intros HR H. revert l3. induction H as [|x y l1 l2 Hxy H IH]; intros l3 H'.
  - by inversion H'.
  - inversion H'; subst. constructor; eauto.
Qed.

Lemma existsb_elem {A} (p : A → bool) l :
  existsb p l = true ↔ ∃ x, x ∈ l ∧ p x = true.
Proof. rewrite existsb_exists. by setoid_rewrite <-list_elem_of_In. Qed.

Lemma existsb_elem_false {A} (p : A → bool) l :
  existsb p l = false ↔ ∀ x, x ∈ l → p x = false.
Proof.
  rewrite <-not_true_iff_false, existsb_elem. split.
  - intros H x Hx. apply not_true_iff_false. naive_solver.
  - intros H (x & Hx & Hp). rewrite (H x Hx) in Hp. done.
Qed.

Lemma forallb_elem {A} (p : A → bool) l :
  forallb p l = true ↔ ∀ x, x ∈ l → p x = true.
Proof. rewrite forallb_forall. by setoid_rewrite <-list_elem_of_In. Qed.

Lemma filter_ext_elem {A} (P Q : A → Prop) `{∀ x, Decision (P x)} `{∀ x, Decision (Q x)} (l : list A) :
  (∀ x, x ∈ l → P x ↔ Q x) → filter P l = filter Q l.
Proof.
  induction l as [|x l IH]; intros Hl; [done|]. rewrite !filter_cons, IH.
  - assert (P x ↔ Q x) as Hx by (apply Hl; by constructor). do 2 case_decide; naive_solver.
  - intros y Hy. apply Hl. by constructor.
Qed.

Lemma mjoin_Permutation {A} (l l' : list (list A)) : l ≡ₚ l' → mjoin l ≡ₚ mjoin l'.
Proof.
  induction 1 as [|x l l' _ IH|x y l|l1 l2 l3 _ IH1 _ IH2]; simpl; [done|by rewrite IH| |by rewrite IH1].
  rewrite !app_assoc. f_equiv. apply Permutation_app_comm.
Qed.

Lemma size_list_to_set_le (l : list string) : size (list_to_set l : gset string) ≤ length l.
Proof.
  induction l as [|x l IH]; [done|]. rewrite list_to_set_cons. cbn [length].
  pose proof (size_union_alt {[x]} (list_to_set l : gset string)) as H.
  rewrite size_singleton in H.
  assert (size (list_to_set l ∖ {[x]} : gset string) ≤ size (list_to_set l : gset string)).
  { apply subseteq_size. set_solver. }
  lia.
Qed.

Lemma StronglySorted_impl {A} (R S : A → A → Prop) l :
  (∀ x y, R x y → S x y) → StronglySorted R l → StronglySorted S l.
Proof.
  intros H. induction 1 as [|x l _ IH Hall]; constructor; [done|].
  eapply Forall_impl; [exact Hall|]. auto.
Qed.

(** ** [sort.Strings] and [sort.SliceStable] *)

(** [sort.Strings]: the byte-lexicographic order. *)
Definition sortStrings : list string → list string := merge_sort String.le.

Lemma sortStrings_Permutation l : sortStrings l ≡ₚ l.
Proof. apply merge_sort_Permutation. Qed.

Lemma sortStrings_sorted l : StronglySorted String.le (sortStrings l).
Proof. apply (StronglySorted_merge_sort String.le). Qed.

Lemma elem_of_sortStrings x l : x ∈ sortStrings l ↔ x ∈ l.
Proof. by rewrite sortStrings_Permutation. Qed.

(** Two permuted lists sort to the same list: the order in which a Go map is
    walked does not show after a sort. *)
Lemma sortStrings_proper l l' : l ≡ₚ l' → sortStrings l = sortStrings l'.
Proof.
  intros H. apply (StronglySorted_unique String.le); [apply sortStrings_sorted..|].
  by rewrite !sortStrings_Permutation.
Qed.

(** [sort.SliceStable(l, less)]: insertion before the first strictly greater
    element keeps equal elements in order. *)
Section stable_sort.
  Context {A : Type} (less : A → A → bool).

Fixpoint insertStable (x : A) (l : list A) : list A :=
  match l with
  | [] => [x]
  | y :: l' => if less x y then x :: l else y :: insertStable x l'
  end.

(** Inserting from the left end keeps the source order of ties. *)
Definition sortStable (l : list A) : list A :=
  foldl (λ acc x, insertStable x acc) [] l.

Lemma insertStable_Permutation x l : insertStable x l ≡ₚ x :: l.
Proof.
  induction l as [|y l IH]; simpl; [done|]. destruct (less x y); [done|].
  rewrite IH. apply Permutation_swap.
Qed.

Lemma foldl_insertStable_Permutation l acc :
  foldl (λ acc x, insertStable x acc) acc l ≡ₚ acc ++ l.
Proof.
  revert acc; induction l as [|x l IH]; intros acc; simpl; [by rewrite app_nil_r|].
  rewrite IH, insertStable_Permutation. simpl. by rewrite Permutation_middle.
Qed.

Lemma sortStable_Permutation l : sortStable l ≡ₚ l.
Proof. unfold sortStable. by rewrite foldl_insertStable_Permutation. Qed.

Lemma insertStable_last x l : (∀ y, y ∈ l → less x y = false) → insertStable x l = l ++ [x].
Proof.
  induction l as [|y l IH]; intros H; simpl; [done|]. rewrite (H y) by constructor.
  f_equal. apply IH. intros z Hz. apply H. by constructor.
Qed.

Lemma foldl_insertStable_id l acc :
  StronglySorted (λ x y, less y x = false) (acc ++ l) → foldl (λ acc x, insertStable x acc) acc l = acc ++ l.
Proof.
  revert acc; induction l as [|x l IH]; intros acc Hs; simpl; [by rewrite app_nil_r|].
  rewrite insertStable_last, IH; rewrite <-?app_assoc; [done|done|].
  intros y Hy. clear IH. induction acc as [|z acc IH]; [by apply elem_of_nil in Hy|].
  inversion Hs as [|? ? Hs' Hall]; subst. apply elem_of_cons in Hy as [->|Hy]; [|by apply IH].
  rewrite Forall_app, Forall_cons in Hall. tauto.
Qed.

(** Sorting a sorted list changes nothing. *)
Lemma sortStable_id l : StronglySorted (λ x y, less y x = false) l → sortStable l = l.
Proof. apply (foldl_insertStable_id l []). Qed.

(** With a strict weak order the result is sorted: no later element is less. *)
Definition notLess (x y : A) : Prop := less y x = false.

Hypothesis less_asym : ∀ x y, less x y = true → less y x = false.
Hypothesis less_cotrans : ∀ x y z, less x z = true → less x y = true ∨ less y z = true.

Lemma insertStable_sorted x l :
  StronglySorted notLess l → StronglySorted notLess (insertStable x l).
Proof using less_asym less_cotrans.
  induction 1 as [|y l Hs IH Hall]; simpl; [by repeat constructor|].
  destruct (less x y) eqn:E.
  - constructor; [by constructor|]. constructor; [by apply less_asym|].
    eapply Forall_impl; [exact Hall|]. intros z Hz; unfold notLess in *.
    destruct (less z x) eqn:E'; [|done].
    apply less_asym in E. destruct (less_cotrans z y x E'); congruence.
  - constructor; [done|]. rewrite insertStable_Permutation. by constructor.
Qed.

Lemma sortStable_sorted l : StronglySorted notLess (sortStable l).
Proof using less_asym less_cotrans.
  unfold sortStable. assert (StronglySorted notLess []) as H by constructor.
  revert H. generalize (@nil A) as acc.
  induction l as [|x l IH]; intros acc H; simpl; [done|].
  by apply IH, insertStable_sorted.
Qed.
End stable_sort.
