(* ===== verification/Text.v ===== *)
(** * Text: UTF-8, paths and line scanning

    What the modelled code uses of Go's [unicode/utf8], [unicode], [bufio],
    [path/filepath] and [strings] beyond [Prelude.v], on byte strings. *)
From S2P Require Import Prelude.

(** ** Strings *)

Module text.

Definition TrimPrefix (s p : string) : string :=
  if strs.HasPrefix s p then strs.drop_bytes (String.length p) s else s.
Definition TrimSuffix (s p : string) : string :=
  if strs.HasSuffix s p then strs.take_bytes (String.length s - String.length p) s else s.

(** [strings.IndexByte(s, c)]: the bytes before the first [c], and after it. *)
Fixpoint cutByte (s : string) (c : ascii) : option (string * string) :=
  match s with
  | EmptyString => None
  | String b s => if bool_decide (b = c) then Some (EmptyString, s)
                  else '(x, y) ← cutByte s c; Some (String b x, y)
  end.
(** [strings.LastIndexByte(s, c)], likewise. *)
Definition cutLast (s : string) (c : ascii) : option (string * string) :=
  '(y, x) ← cutByte (strs.rev s) c; Some (strs.rev x, strs.rev y).

(** [strings.Replace(s, old, new)] of every occurrence from the left, for a
    nonempty [old]; [skip] counts the bytes of an occurrence still to drop. *)
Fixpoint replaceFrom (skip : nat) (s old new : string) : string :=
  match s with
  | EmptyString => EmptyString
  | String c s' =>
      match skip with
      | S skip => replaceFrom skip s' old new
      | O => if strs.HasPrefix s old then new +:+ replaceFrom (String.length old - 1) s' old new
             else String c (replaceFrom 0 s' old new)
      end
  end.
Definition ReplaceAll (s old new : string) : string := replaceFrom 0 s old new.

(** [strings.Fields]: the words between runs of white space.  The result keeps
    the word that is still open at the left apart. *)
Definition close (w : string) (l : list string) : list string := if bool_decide (w = "") then l else w :: l.
Fixpoint fieldsFrom (skip : nat) (s : string) : string * list string :=
  match s with
  | EmptyString => (EmptyString, [])
  | String c s' =>
      match skip with
      | S skip => fieldsFrom skip s'
      | O => match strs.strip_once strs.space_runes s with
             | Some rest => let '(w, l) := fieldsFrom (String.length s - String.length rest - 1) s' in ("", close w l)
             | None => let '(w, l) := fieldsFrom 0 s' in (String c w, l)
             end
      end
  end.
Definition Fields (s : string) : list string := let '(w, l) := fieldsFrom 0 s in close w l.

(** A line with every "\n"-terminated line before it, as [strings.Builder]
    code writes them. *)
Definition line (s : string) : string := s +:+ String strs.nl "".

(** [strings.Split(s, sep)] for a one-byte separator. *)
Fixpoint SplitByte (c : ascii) (s : string) : list string :=
  match s with
  | EmptyString => [EmptyString]
  | String b s' =>
      if bool_decide (b = c) then EmptyString :: SplitByte c s'
      else match SplitByte c s' with l :: ls => String b l :: ls | [] => [String b EmptyString] end
  end.

(** The longest prefix of bytes with a property, and the rest. *)
Fixpoint span (p : ascii → bool) (s : string) : string * string :=
  match s with
  | EmptyString => (EmptyString, EmptyString)
  | String c s' => if p c then let '(a, b) := span p s' in (String c a, b) else (EmptyString, s)
  end.

(** Arithmetic of a 64-bit [int]. *)
Definition wrap64 (n : Z) : Z := ((n + 2 ^ 63) mod 2 ^ 64 - 2 ^ 63)%Z.

(** A decimal digit. *)
Definition isDigit (c : ascii) : bool := let n := nat_of_ascii c in (48 <=? n) && (n <=? 57).
End text.

(** *** Lemmas on byte strings *)

Lemma append_nil_r a : a +:+ "" = a.
Proof. induction a as [|c a IH]; [done|]. change (String c (a +:+ "") = String c a). by rewrite IH. Qed.
Lemma rev_app a b : strs.rev (a +:+ b) = strs.rev b +:+ strs.rev a.
Proof.
  induction a as [|c a IH]; [change (strs.rev "") with ""; by rewrite append_nil_r|].
  change (String c a +:+ b) with (String c (a +:+ b)). by rewrite !rev_cons, IH, append_assoc.
Qed.
Lemma rev_involutive a : strs.rev (strs.rev a) = a.
Proof. induction a as [|c a IH]; [done|]. by rewrite rev_cons, rev_app, IH. Qed.
Lemma take_drop_bytes n s : strs.take_bytes n s +:+ strs.drop_bytes n s = s.
Proof.
  revert s. induction n as [|n IH]; intros [|c s]; cbn [strs.take_bytes strs.drop_bytes]; [done..|].
  change (String c ?x +:+ ?y) with (String c (x +:+ y)). by rewrite IH.
Qed.
Lemma append_cancel a b c : a +:+ b = a +:+ c → b = c.
Proof.
  induction a as [|x a IH]; [done|]. change (String x a +:+ ?y) with (String x (a +:+ y)). intros [=]. by apply IH.
Qed.
Lemma append_inj a a' b b' : String.length a = String.length a' → a +:+ b = a' +:+ b' → a = a' ∧ b = b'.
Proof.
  revert a'. induction a as [|x a IH]; intros [|x' a']; [done..|]. change (String ?y ?z +:+ ?t) with (String y (z +:+ t)).
  intros [= Hl] [= -> Heq]. by destruct (IH a' Hl Heq) as [-> ->].
Qed.
Lemma length_drop_bytes n s : String.length (strs.drop_bytes n s) = String.length s - n.
Proof. revert s. induction n as [|n IH]; intros [|c s]; simpl; [done..|apply IH]. Qed.
Lemma get_app_l i p q c : String.get i p = Some c → String.get i (p +:+ q) = Some c.
Proof.
  revert i. induction p as [|b p IH]; intros i; [done|]. change (String b p +:+ q) with (String b (p +:+ q)).
  destruct i as [|i]; [done|]. apply IH.
Qed.
Lemma get_snoc p c q : String.get (String.length p) (p +:+ String c q) = Some c.
Proof. induction p as [|b p IH]; [done|]. change (String b p +:+ ?x) with (String b (p +:+ x)). exact IH. Qed.
Lemma length_snoc p c : String.length (p +:+ String c "") = S (String.length p).
Proof.
  induction p as [|b p IH]; [done|]. change (String b p +:+ ?x) with (String b (p +:+ x)). cbn [String.length]. by rewrite IH.
Qed.
Lemma get_drop_bytes a s i : String.get i (strs.drop_bytes a s) = String.get (a + i) s.
Proof. revert s. induction a as [|a IH]; intros [|c s]; cbn; [done..|by destruct i|apply IH]. Qed.
Lemma get_take_bytes n s i : i < n → String.get i (strs.take_bytes n s) = String.get i s.
Proof. revert n i. induction s as [|c s IH]; intros [|n] [|i] Hi; cbn; [lia|lia|done|done|lia|lia|done|]. apply IH. lia. Qed.

(** ** [path/filepath] on slash-separated paths *)

Module filepath.

(** [filepath.Base]. *)
Fixpoint dropSlashes (s : string) : string :=
  match s with String "/" s' => dropSlashes s' | _ => s end.
Fixpoint untilSlash (s : string) : string :=
  match s with
  | EmptyString => EmptyString
  | String c s' => if bool_decide (c = "/"%char) then EmptyString else String c (untilSlash s')
  end.
Definition Base (path : string) : string :=
  if bool_decide (path = "") then "."
  else
    let r := dropSlashes (strs.rev path) in
    if bool_decide (r = "") then "/" else strs.rev (untilSlash r).

(** [filepath.Ext]: from the last dot of the last element. *)
Fixpoint untilDot (s : string) : option string :=
  match s with
  | EmptyString => None
  | String c s' => if bool_decide (c = "."%char) then Some (String c EmptyString)
                   else r ← untilDot s'; Some (String c r)
  end.
Definition Ext (path : string) : string :=
  match untilDot (untilSlash (strs.rev path)) with Some r => strs.rev r | None => "" end.

Definition IsAbs (path : string) : bool := strs.HasPrefix path "/".

(** The elements [filepath.Clean] keeps, last one first: ".." drops the element
    before it, at the root it is dropped itself. *)
Definition cleanStep (rooted : bool) (stack : list string) (e : string) : list string :=
  if bool_decide (e = "") || bool_decide (e = ".") then stack
  else if bool_decide (e = "..") then
    match stack with
    | [] => if rooted then [] else [".."]
    | top :: rest => if bool_decide (top = "..") then ".." :: stack else rest
    end
  else e :: stack.
Definition elements (path : string) : list string :=
  reverse (foldl (cleanStep (IsAbs path)) [] (text.SplitByte "/" path)).
Definition joined (rooted : bool) (l : list string) : string :=
  if rooted then "/" +:+ strs.Join l "/" else if bool_decide (length l = 0) then "." else strs.Join l "/".
Definition Clean (path : string) : string := joined (IsAbs path) (elements path).
Definition Dir (path : string) : string :=
  match text.cutLast path "/" with Some (d, _) => Clean (d +:+ "/") | None => "." end.

(** [filepath.Rel]: up from the base, then down; an error when it would have to
    go up from an unknown directory. *)
Fixpoint dropCommon (a b : list string) : list string * list string :=
  match a, b with
  | x :: a', y :: b' => if bool_decide (x = y) then dropCommon a' b' else (a, b)
  | _, _ => (a, b)
  end.
Definition Rel (base target : string) : option string :=
  if negb (bool_decide (IsAbs base = IsAbs target)) then None
  else
    let '(up, down) := dropCommon (elements base) (elements target) in
    if bool_decide (".." ∈ up) then None else Some (joined false (repeat ".." (length up) ++ down)).
End filepath.

(** ** Runes *)

Module utf8.

Definition RuneError : Z := 65533.

(** The tail bytes of a sequence: the first one within a range, the others
    continuation bytes. *)
Definition byteAt (s : string) : option (Z * string) :=
  match s with EmptyString => None | String c s => Some (Z.of_nat (nat_of_ascii c), s) end.
Definition within (lo hi b : Z) : bool := ((lo <=? b) && (b <=? hi))%Z.
Fixpoint tail (n : nat) (lo hi acc : Z) (s : string) : option Z :=
  match n with
  | O => Some acc
  | S n => '(b, s) ← byteAt s;
           if within lo hi b then tail n 128 191 (acc * 64 + Z.land b 63)%Z s else None
  end.

(** [utf8.DecodeRuneInString] of a nonempty string: an invalid byte is a
    [RuneError] of width one. *)
Definition DecodeRune (s : string) : Z * nat :=
  match byteAt s with
  | None => (RuneError, 0)
  | Some (b, s) =>
      let multi n lo hi := match tail n lo hi (Z.land b (63 / 2 ^ Z.of_nat n))%Z s with
                           | Some r => (r, S n) | None => (RuneError, 1) end in
      (if b <? 128 then (b, 1%nat)
       else if within 194 223 b then multi 1%nat 128 191
       else if b =? 224 then multi 2%nat 160 191
       else if b =? 237 then multi 2%nat 128 159
       else if within 225 239 b then multi 2%nat 128 191
       else if b =? 240 then multi 3%nat 144 191
       else if within 241 243 b then multi 3%nat 128 191
       else if b =? 244 then multi 3%nat 128 143
       else (RuneError, 1%nat))%Z
  end.

(** [for _, r := range s]. *)
Fixpoint runesFrom (skip : nat) (s : string) : list Z :=
  match s with
  | EmptyString => []
  | String _ s' =>
      match skip with
      | S skip => runesFrom skip s'
      | O => let '(r, w) := DecodeRune s in r :: runesFrom (w - 1) s'
      end
  end.
Definition runes (s : string) : list Z := runesFrom 0 s.

Definition inRanges (l : list (Z * Z)) (r : Z) : bool := existsb (λ '(lo, hi), within lo hi r) l.

(** [unicode.IsSpace]. *)
Definition IsSpace : Z → bool := inRanges
  [(9, 13); (32, 32); (133, 133); (160, 160); (5760, 5760); (8192, 8202); (8232, 8233); (8239, 8239); (8287, 8287);
   (12288, 12288)]%Z.

(** The range tables of package [unicode] (version 15.0.0). *)
Definition Han : list (Z * Z) :=
  [(0x2e80, 0x2e99); (0x2e9b, 0x2ef3); (0x2f00, 0x2fd5); (0x3005, 0x3005); (0x3007, 0x3007); (0x3021, 0x3029);
   (0x3038, 0x303b); (0x3400, 0x4dbf); (0x4e00, 0x9fff); (0xf900, 0xfa6d); (0xfa70, 0xfad9); (0x16fe2, 0x16fe3);
   (0x16ff0, 0x16ff1); (0x20000, 0x2a6df); (0x2a700, 0x2b739); (0x2b740, 0x2b81d); (0x2b820, 0x2cea1);
   (0x2ceb0, 0x2ebe0); (0x2f800, 0x2fa1d); (0x30000, 0x3134a); (0x31350, 0x323af)]%Z.
Definition Hiragana : list (Z * Z) :=
  [(0x3041, 0x3096); (0x309d, 0x309f); (0x1b001, 0x1b11f); (0x1b132, 0x1b132); (0x1b150, 0x1b152); (0x1f200, 0x1f200)]%Z.
Definition Katakana : list (Z * Z) :=
  [(0x30a1, 0x30fa); (0x30fd, 0x30ff); (0x31f0, 0x31ff); (0x32d0, 0x32fe); (0x3300, 0x3357); (0xff66, 0xff6f);
   (0xff71, 0xff9d); (0x1aff0, 0x1aff3); (0x1aff5, 0x1affb); (0x1affd, 0x1affe); (0x1b000, 0x1b000);
   (0x1b120, 0x1b122); (0x1b155, 0x1b155); (0x1b164, 0x1b167)]%Z.
Definition Hangul : list (Z * Z) :=
  [(0x1100, 0x11ff); (0x302e, 0x302f); (0x3131, 0x318e); (0x3200, 0x321e); (0x3260, 0x327e); (0xa960, 0xa97c);
   (0xac00, 0xd7a3); (0xd7b0, 0xd7c6); (0xd7cb, 0xd7fb); (0xffa0, 0xffbe); (0xffc2, 0xffc7); (0xffca, 0xffcf);
   (0xffd2, 0xffd7); (0xffda, 0xffdc)]%Z.

(** Valid UTF-8 is what decodes without a replacement of width one; the sample
    is "é中😀" and a truncated sequence. *)
Example runes_decode :
  runes (strs.bytes [195; 169; 228; 184; 173; 240; 159; 152; 128; 228; 184]%nat) = [0xe9; 0x4e2d; 0x1f600; RuneError; RuneError]%Z.
Proof. vm_compute. reflexivity. Qed.
End utf8.

(** ** [bufio.Scanner] over lines *)

Module bufio.

(** [bufio.ScanLines] drops one trailing "\r". *)
Definition dropCR (s : string) : string := text.TrimSuffix s (String strs.cr "").

(** The lines a scanner with a buffer of at most [max] bytes yields: it stops
    at the first line that does not fit with its newline, and has no empty line
    after the last newline. *)
Fixpoint fitting (max : Z) (l : list string) : list string :=
  match l with
  | [] => []
  | [s] => if bool_decide (s = "") then [] else if (max <=? Z.of_nat (String.length s))%Z then [] else [dropCR s]
  | s :: l => if (max <=? Z.of_nat (String.length s))%Z then [] else dropCR s :: fitting max l
  end.
Definition ScanLines (max : Z) (s : string) : list string := fitting max (strs.SplitLines s).
End bufio.
