(* ===== verification/Process.v ===== *)
(** * Process: programs as sequences of atomic steps

    The daemon's code runs in goroutines that share one database and one Git
    repository, and its process can die at any point.  A program is the free
    monad over atomic steps on the shared state: what one statement (an SQL
    statement or transaction, a Git command, a clock reading) does is a
    function, what happens between two statements is not fixed.  [run] executes
    a program alone; a [pool] interleaves any number of them with each other,
    with the environment and with crashes.  [wp] is rely/guarantee reasoning
    over one program, [pool_sound] lifts it to pools. *)
From S2P Require Import Prelude.

Module process.

(** A program over shared states [W] that returns an [A] or a Go error [E]. *)
Inductive proc (W E A : Type) : Type :=
| Ret (a : A)
| Throw (e : E)
| Call {B : Type} (f : W → B * W) (k : B → proc W E A).
Arguments Ret {W E A} a.
Arguments Throw {W E A} e.
Arguments Call {W E A B} f k.

Fixpoint bind {W E A B} (f : A → proc W E B) (p : proc W E A) : proc W E B :=
  match p with
  | Ret a => f a
  | Throw e => Throw e
  | Call g k => Call g (λ b, bind f (k b))
  end.
#[export] Instance proc_ret W E : MRet (proc W E) := λ A, Ret.
#[export] Instance proc_bind W E : MBind (proc W E) := λ A B, bind.

(** One atomic step: it cannot fail, it can, or it only reads. *)
Definition atomic {W E A} (f : W → A * W) : proc W E A := Call f Ret.
Definition attempt_ {W E A} (f : W → result E A * W) : proc W E A :=
  Call f (λ r, match r with Ok a => Ret a | Err e => Throw e end).
Definition read {W E A} (f : W → A) : proc W E A := atomic (λ w, (f w, w)).
Definition query {W E A} (f : W → result E A) : proc W E A := attempt_ (λ w, (f w, w)).

(** [res, err := p()]: the caller looks at the error itself. *)
Fixpoint catch {W E E' A} (p : proc W E A) : proc W E' (result E A) :=
  match p with
  | Ret a => Ret (Ok a)
  | Throw e => Ret (Err e)
  | Call f k => Call f (λ b, catch (k b))
  end.
(** [_ = p()]. *)
Definition ignore {W E E' A} (p : proc W E A) : proc W E' () := _ ← catch p; mret ().

(** [fmt.Errorf("...: %w", err)]. *)
Fixpoint mapErr {W E E' A} (g : E → E') (p : proc W E A) : proc W E' A :=
  match p with
  | Ret a => Ret a
  | Throw e => Throw (g e)
  | Call f k => Call f (λ b, mapErr g (k b))
  end.

(** The program alone. *)
Fixpoint run {W E A} (p : proc W E A) (w : W) : result E A * W :=
  match p with
  | Ret a => (Ok a, w)
  | Throw e => (Err e, w)
  | Call f k => let '(b, w') := f w in run (k b) w'
  end.

Lemma run_bind {W E A B} (f : A → proc W E B) (p : proc W E A) w :
  run (p ≫= f) w = match run p w with (Ok a, w') => run (f a) w' | (Err e, w') => (Err e, w') end.
Proof.
  revert w. unfold mbind, proc_bind. induction p as [a|e|B' g k IH]; intros w; simpl; [done|done|].
  destruct (g w). apply IH.
Qed.

Lemma run_catch {W E E' A} (p : proc W E A) w :
  run (catch (E' := E') p) w = (Ok (run p w).1, (run p w).2).
Proof. revert w; induction p as [a|e|B g k IH]; intros w; simpl; [done|done|]. destruct (g w). apply IH. Qed.

Lemma run_ignore {W E E' A} (p : proc W E A) w : run (ignore (E' := E') p) w = (Ok (), (run p w).2).
Proof. unfold ignore. by rewrite run_bind, run_catch. Qed.

Lemma run_mapErr {W E E' A} (g : E → E') (p : proc W E A) w :
  run (mapErr g p) w = (match (run p w).1 with Ok a => Ok a | Err e => Err (g e) end, (run p w).2).
Proof. revert w; induction p as [a|e|B f k IH]; intros w; simpl; [done|done|]. destruct (f w). apply IH. Qed.

Lemma run_attempt {W E A} (f : W → result E A * W) w : run (attempt_ f) w = f w.
Proof. simpl. by destruct (f w) as [[a|e] w']. Qed.

Lemma run_query {W E A} (f : W → result E A) w : run (query f) w = (f w, w).
Proof. simpl. by destruct (f w). Qed.

(** Alone, the program returns without error and leaves [Q]. *)
Definition total {W E A} (p : proc W E A) (Q : A → W → Prop) (w : W) : Prop :=
  ∃ a w', run p w = (Ok a, w') ∧ Q a w'.

Lemma total_mono {W E A} (p : proc W E A) (Q Q' : A → W → Prop) w :
  (∀ a w', Q a w' → Q' a w') → total p Q w → total p Q' w.
Proof. intros HQ (a & w' & Hr & H). exists a, w'. auto. Qed.
Lemma total_bind {W E A B} (f : A → proc W E B) (p : proc W E A) (Q : B → W → Prop) w :
  total p (λ a w', total (f a) Q w') w → total (p ≫= f) Q w.
Proof. intros (a & w' & Hr & H). unfold total. rewrite run_bind, Hr. exact H. Qed.
Lemma total_ret {W E A} (a : A) (Q : A → W → Prop) w : Q a w → total (mret a : proc W E A) Q w.
Proof. intros H. exists a, w. done. Qed.
Lemma total_attempt {W E A} (f : W → result E A * W) (Q : A → W → Prop) w a w' :
  f w = (Ok a, w') → Q a w' → total (attempt_ f) Q w.
Proof. intros Hf H. exists a, w'. by rewrite run_attempt. Qed.
Lemma total_query {W E A} (f : W → result E A) (Q : A → W → Prop) w a : f w = Ok a → Q a w → total (query f) Q w.
Proof. intros Hf H. exists a, w. by rewrite run_query, Hf. Qed.
Lemma total_catch {W E E' A} (p : proc W E A) (Q : result E A → W → Prop) w :
  Q (run p w).1 (run p w).2 → total (catch (E' := E') p) Q w.
Proof. intros H. exists (run p w).1, (run p w).2. by rewrite run_catch. Qed.
Lemma total_ignore {W E E' A} (p : proc W E A) (Q : () → W → Prop) w : Q () (run p w).2 → total (ignore (E' := E') p) Q w.
Proof. intros H. exists (), (run p w).2. by rewrite run_ignore. Qed.
Lemma total_mapErr {W E E' A} (g : E → E') (p : proc W E A) (Q : A → W → Prop) w : total p Q w → total (mapErr g p) Q w.
Proof. intros (a & w' & Hr & H). exists a, w'. by rewrite run_mapErr, Hr. Qed.

(** A program over a part of a larger state. *)
Fixpoint zoom {V W E A} (get : V → W) (put : W → V → V) (p : proc W E A) : proc V E A :=
  match p with
  | Ret a => Ret a
  | Throw e => Throw e
  | Call f k => Call (λ v, let '(b, w) := f (get v) in (b, put w v)) (λ b, zoom get put (k b))
  end.

Lemma run_zoom {V W E A} (get : V → W) (put : W → V → V) (p : proc W E A) v :
  (∀ w v, get (put w v) = w) → (∀ w w' v, put w (put w' v) = put w v) → (∀ v, put (get v) v = v) →
  run (zoom get put p) v = ((run p (get v)).1, put (run p (get v)).2 v).
Proof.
  intros H1 H2 H3. revert v. induction p as [a|e|B f k IH]; intros v; simpl; [by rewrite H3..|].
  destruct (f (get v)) as [b w]. by rewrite IH, H1, H2.
Qed.

(** ** Rely and guarantee *)

Section rely_guarantee.
  Context {W : Type}.
  (** The invariant of the shared state, what the others may do between two
      steps, and what a step does. *)
  Context (I : W → Prop) (R G : W → W → Prop).

(** Whatever the others do, each step of [p] keeps the invariant and is a
    [G]-step, and when [p] is done [Q] holds. *)
Fixpoint wp {E A} (p : proc W E A) (Q : result E A → W → Prop) (w : W) : Prop :=
  match p with
  | Ret a => ∀ w', R w w' → I w' → Q (Ok a) w'
  | Throw e => ∀ w', R w w' → I w' → Q (Err e) w'
  | Call f k => ∀ w', R w w' → I w' → I (f w').2 ∧ G w' (f w').2 ∧ wp (k (f w').1) Q (f w').2
  end.

  Context `{!PreOrder R}.

Lemma wp_rely {E A} (p : proc W E A) Q w w' : R w w' → wp p Q w → wp p Q w'.
Proof. intros HR. destruct p; simpl; intros H w'' HR'; apply H; by etrans. Qed.

Lemma wp_mono {E A} (p : proc W E A) (Q Q' : result E A → W → Prop) w :
  (∀ r w', I w' → Q r w' → Q' r w') → wp p Q w → wp p Q' w.
Proof.
  intros HQ. revert w. induction p as [a|e|B f k IH]; simpl; intros w H; [auto|auto|].
  intros w' HR Hi. destruct (H w' HR Hi) as (Hi' & Hg & Hk). split; [done|]. split; [done|]. by apply IH.
Qed.

Lemma wp_bind {E A B} (f : A → proc W E B) (p : proc W E A) Q w :
  I w → wp p (λ r w', match r with Ok a => wp (f a) Q w' | Err e => Q (Err e) w' end) w → wp (p ≫= f) Q w.
Proof.
  unfold mbind, proc_bind. revert w. induction p as [a|e|B' g k IH]; simpl; intros w Hi H; [|done|].
  - by apply H.
  - intros w' HR Hi'. destruct (H w' HR Hi') as (Hi'' & Hg & Hk). split; [done|]. split; [done|]. by apply IH.
Qed.

Lemma wp_catch {E E' A} (p : proc W E A) (Q : result E' (result E A) → W → Prop) w :
  wp p (λ r w', Q (Ok r) w') w → wp (catch p) Q w.
Proof.
  revert w. induction p as [a|e|B f k IH]; simpl; intros w H; [done|done|].
  intros w' HR Hi. destruct (H w' HR Hi) as (Hi' & Hg & Hk). split; [done|]. split; [done|]. by apply IH.
Qed.

Lemma wp_mapErr {E E' A} (g : E → E') (p : proc W E A) (Q : result E' A → W → Prop) w :
  wp p (λ r w', Q (match r with Ok a => Ok a | Err e => Err (g e) end) w') w → wp (mapErr g p) Q w.
Proof.
  revert w. induction p as [a|e|B f k IH]; simpl; intros w H; [done|done|].
  intros w' HR Hi. destruct (H w' HR Hi) as (Hi' & Hg & Hk). split; [done|]. split; [done|]. by apply IH.
Qed.

(** A postcondition has to survive the others' steps. *)
Definition stable {A} (Q : A → W → Prop) : Prop := ∀ a w w', R w w' → I w' → Q a w → Q a w'.

Lemma wp_ret {E A} (a : A) (Q : result E A → W → Prop) w : stable Q → Q (Ok a) w → wp (mret a) Q w.
Proof. intros HQ H w' HR Hi. by apply (HQ _ w). Qed.

Lemma wp_throw {E A} (e : E) (Q : result E A → W → Prop) w : stable Q → Q (Err e) w → wp (Throw e) Q w.
Proof. intros HQ H w' HR Hi. by apply (HQ _ w). Qed.

Lemma wp_attempt {E A} (f : W → result E A * W) (Q : result E A → W → Prop) w :
  stable Q → (∀ w', R w w' → I w' → I (f w').2 ∧ G w' (f w').2 ∧ Q (f w').1 (f w').2) → wp (attempt_ f) Q w.
Proof.
  intros HQ H w' HR Hi. destruct (H w' HR Hi) as (Hi' & HG & Hq). split; [done|]. split; [done|].
  destruct (f w').1; intros w'' HR' Hi''; by apply (HQ _ (f w').2).
Qed.

Lemma wp_ignore {E E' A} (p : proc W E A) (Q : result E' () → W → Prop) w :
  I w → stable Q → wp p (λ _ w', Q (Ok ()) w') w → wp (ignore p) Q w.
Proof.
  intros Hi HQ H. unfold ignore. apply wp_bind, wp_catch; [done|]. eapply wp_mono; [|exact H].
  intros r w' Hi' Hq. by apply wp_ret.
Qed.

  Context `{!Reflexive G}.

Lemma wp_query {E A} (f : W → result E A) (Q : result E A → W → Prop) w :
  stable Q → (∀ w', R w w' → I w' → Q (f w') w') → wp (query f) Q w.
Proof. intros HQ H. apply wp_attempt; [done|]. intros w' HR Hi. simpl. auto. Qed.

Lemma wp_read {E A} (f : W → A) (Q : result E A → W → Prop) w :
  stable Q → (∀ w', R w w' → I w' → Q (Ok (f w')) w') → wp (read f) Q w.
Proof.
  intros HQ H w' HR Hi. split; [done|]. split; [done|]. intros w'' HR' Hi'. simpl. apply (HQ _ w'); [done|done|]. auto.
Qed.

  Context (HGR : ∀ w w', G w w' → R w w').

(** A program starts from somewhere and only takes allowed steps. *)
Lemma wp_since {E A} (p : proc W E A) (Q : result E A → W → Prop) w0 w :
  R w0 w → wp p Q w → wp p (λ r w', R w0 w' ∧ Q r w') w.
Proof.
  revert w. induction p as [a|e|B f k IH]; simpl; intros w H0 H.
  - intros w' HR Hi. split; [by etrans|by apply H].
  - intros w' HR Hi. split; [by etrans|by apply H].
  - intros w' HR Hi. destruct (H w' HR Hi) as (Hi' & Hg & Hk). split; [done|]. split; [done|].
    apply IH; [|done]. etrans; [exact H0|]. etrans; [exact HR|]. by apply HGR.
Qed.

(** Sequencing: what the first program established holds when the second starts. *)
Lemma wp_seq {E A B} (f : A → proc W E B) (p : proc W E A) (P : result E A → W → Prop) (Q : result E B → W → Prop) w :
  I w → wp p P w → (∀ a w', I w' → R w w' → P (Ok a) w' → wp (f a) Q w') →
  (∀ e w', I w' → R w w' → P (Err e) w' → Q (Err e) w') → wp (p ≫= f) Q w.
Proof.
  intros Hi Hp Hf He. apply wp_bind; [done|]. eapply wp_mono; [|exact (wp_since p P w w ltac:(done) Hp)].
  intros [a|e] w' Hi' [HR HP]; auto.
Qed.

(** [res, err := p()] followed by a look at both. *)
Lemma wp_try {E E' A B} (f : result E A → proc W E' B) (p : proc W E A) (P : result E A → W → Prop)
    (Q : result E' B → W → Prop) w :
  I w → wp p P w → (∀ r w', I w' → R w w' → P r w' → wp (f r) Q w') → wp (catch p ≫= f) Q w.
Proof.
  intros Hi Hp Hf. apply (wp_seq _ _ (λ r w', match r with Ok r => P r w' | Err _ => False end)); [done| | |done].
  - by apply wp_catch.
  - intros r w' Hi' HR HP. by apply Hf.
Qed.

(** Run alone, a program keeps what its specification promises. *)
Lemma wp_run {E A} (p : proc W E A) (Q : result E A → W → Prop) w :
  I w → wp p Q w → I (run p w).2 ∧ Q (run p w).1 (run p w).2.
Proof.
  revert w. induction p as [a|e|B f k IH]; intros w Hi H; [by split; [|apply H]..|].
  assert (I (f w).2 ∧ G w (f w).2 ∧ wp (k (f w).1) Q (f w).2) as (Hi' & _ & H') by (by apply H).
  cbn [run]. destruct (f w) as [b w']. by apply IH.
Qed.

End rely_guarantee.

(** ** Pools *)

Section pools.
  Context {W E A : Type}.
  (** The programs that may be started, and the environment's steps. *)
  Context (job : proc W E A → Prop) (env : W → W → Prop).

(** The running programs (finished ones keep their answer) and the state. *)
Record Config := mkConfig { threads : list (proc W E A); state : W }.

Inductive pstep : Config → Config → Prop :=
| p_start p ts w : job p → pstep (mkConfig ts w) (mkConfig (ts ++ [p]) w)
| p_step i B (f : W → B * W) k ts w :
    ts !! i = Some (Call f k) → pstep (mkConfig ts w) (mkConfig (<[i := k (f w).1]> ts) (f w).2)
| p_env ts w w' : env w w' → pstep (mkConfig ts w) (mkConfig ts w')
(** A program stops for a reason the model does not show: its context is
    cancelled, a statement fails. *)
| p_stop i ts w : pstep (mkConfig ts w) (mkConfig (delete i ts) w)
(** The process dies; the state is on disk. *)
| p_crash ts w : pstep (mkConfig ts w) (mkConfig [] w).

(** A schedule: which program moves next. *)
Definition stepAt (c : Config) (i : nat) : Config :=
  match threads c !! i with
  | Some (Call f k) => let '(b, w) := f (state c) in mkConfig (<[i := k b]> (threads c)) w
  | _ => c
  end.
Definition schedule (l : list nat) (c : Config) : Config := foldl stepAt c l.

Lemma schedule_steps l c : rtc pstep c (schedule l c).
Proof.
  revert c. induction l as [|i l IH]; intros [ts w]; [done|]. simpl. etrans; [|apply IH].
  unfold stepAt. simpl. destruct (ts !! i) as [[a|e|B f k]|] eqn:Hi; [done..| |done].
  apply rtc_once. pose proof (p_step i B f k ts w Hi) as Hs. by destruct (f w).
Qed.

Lemma pool_sound (I : W → Prop) (R G : W → W → Prop) (Q : result E A → W → Prop) c c' :
  PreOrder R → (∀ w w', G w w' → R w w') → (∀ w w', env w w' → I w → R w w' ∧ I w') →
  (∀ p w, I w → job p → wp I R G p Q w) →
  I (state c) → Forall (λ p, wp I R G p Q (state c)) (threads c) → rtc pstep c c' →
  R (state c) (state c') ∧ I (state c') ∧ Forall (λ p, wp I R G p Q (state c')) (threads c').
Proof.
  intros HR HG Henv Hjob Hi H Hs. revert Hi H. induction Hs as [c|c c1 c2 Hstep _ IH]; intros Hi H; [done|].
  assert (R (state c) (state c1) ∧ I (state c1) ∧ Forall (λ p, wp I R G p Q (state c1)) (threads c1)) as (HR1 & Hi1 & H1).
  { destruct Hstep as [p ts w Hp|i B f k ts w Hth|ts w w' He|i ts w|ts w]; simpl in *.
    - split; [done|]. split; [done|]. apply Forall_app. split; [done|]. constructor; auto.
    - pose proof (Forall_lookup_1 _ _ _ _ H Hth) as Hp. destruct (Hp w) as (Hi' & Hg & Hk); [done|done|].
      split; [auto|]. split; [done|]. apply Forall_insert; [|done]. eapply Forall_impl; [exact H|].
      intros p. apply wp_rely; auto.
    - destruct (Henv w w') as [HRw Hiw]; [done|done|]. split; [done|]. split; [done|].
      eapply Forall_impl; [exact H|]. intros p. apply wp_rely; auto.
    - split; [done|]. split; [done|]. by apply Forall_delete.
    - split; [done|]. split; [done|]. constructor. }
  destruct (IH Hi1 H1) as (HR2 & Hi2 & H2). split; [by etrans|done].
Qed.

End pools.

Arguments Config : clear implicits.

End process.
