(* ===== verification/Policy.v ===== *)
(** * Policy: pipeline toggles, dependency rules, AC-29 resolution

    Models [internal/policy]: the toggle records (toggles.go), the profile
    defaults (profiles.go), [Normalize] and violations (rules.go), [Resolve]
    and [Allows] (policy.go), the stage report (stages.go), the injection
    order (injection.go) and the test-scope check (scope.go).  Field
    [p.Tests.Generate] is [Tests_Generate (Tests p)]. *)
From S2P Require Import Prelude.

Module policy.

(** ** toggles.go *)

Inductive TriState := TriAuto | TriOn | TriOff.
#[global] Instance TriState_eq_dec : EqDecision TriState.
Proof. solve_decision. Defined.

Definition TriState_String (t : TriState) : string :=
  match t with TriOn => "on" | TriOff => "off" | TriAuto => "auto" end.

Record DesignConfig := mkDesign {
  Design_Generate : bool;
  Design_HumanSelection : bool;
  Design_VisualVerification : bool }.

Record TestsConfig := mkTests {
  Tests_Generate : bool;
  Tests_ModifyExisting : bool;
  Tests_RunExisting : bool;
  Tests_RunGenerated : bool;
  Tests_RequiredForCompletion : bool;
  Tests_RequireForLocalResult : bool;
  Tests_RequireForRemoteMerge : bool }.

Record ReviewConfig := mkReview {
  Review_AIReview : bool;
  Review_SecurityReview : TriState;
  Review_ArchitectureReview : TriState }.

Record GitConfig := mkGit {
  Git_LocalCheckpointCommits : bool;
  Git_FinalLocalCommit : bool;
  Git_Push : bool }.

Record ChangeRequestConfig := mkChangeRequest {
  ChangeRequest_Create : bool;
  ChangeRequest_UpdateExisting : bool }.

Record PostMergeConfig := mkPostMerge {
  PostMerge_Enabled : bool;
  PostMerge_AutoRevert : bool }.

Record Pipeline := mkPipeline {
  Specification : bool;
  Planning : bool;
  Design : DesignConfig;
  Implementation : bool;
  Tests : TestsConfig;
  Review : ReviewConfig;
  Git : GitConfig;
  ChangeRequest : ChangeRequestConfig;
  Merge : bool;
  PostMerge : PostMergeConfig }.

(** Assignments to one field of a [Pipeline] value. *)
Definition set_Design (d : DesignConfig) (p : Pipeline) : Pipeline :=
  mkPipeline (Specification p) (Planning p) d (Implementation p) (Tests p)
    (Review p) (Git p) (ChangeRequest p) (Merge p) (PostMerge p).
Definition set_Tests (t : TestsConfig) (p : Pipeline) : Pipeline :=
  mkPipeline (Specification p) (Planning p) (Design p) (Implementation p) t
    (Review p) (Git p) (ChangeRequest p) (Merge p) (PostMerge p).
Definition set_Review (r : ReviewConfig) (p : Pipeline) : Pipeline :=
  mkPipeline (Specification p) (Planning p) (Design p) (Implementation p)
    (Tests p) r (Git p) (ChangeRequest p) (Merge p) (PostMerge p).
Definition set_Git (g : GitConfig) (p : Pipeline) : Pipeline :=
  mkPipeline (Specification p) (Planning p) (Design p) (Implementation p)
    (Tests p) (Review p) g (ChangeRequest p) (Merge p) (PostMerge p).
Definition set_ChangeRequest (c : ChangeRequestConfig) (p : Pipeline) : Pipeline :=
  mkPipeline (Specification p) (Planning p) (Design p) (Implementation p)
    (Tests p) (Review p) (Git p) c (Merge p) (PostMerge p).
Definition set_Merge (b : bool) (p : Pipeline) : Pipeline :=
  mkPipeline (Specification p) (Planning p) (Design p) (Implementation p)
    (Tests p) (Review p) (Git p) (ChangeRequest p) b (PostMerge p).
Definition set_PostMerge (m : PostMergeConfig) (p : Pipeline) : Pipeline :=
  mkPipeline (Specification p) (Planning p) (Design p) (Implementation p)
    (Tests p) (Review p) (Git p) (ChangeRequest p) (Merge p) m.

Definition set_Git_Push (b : bool) (p : Pipeline) : Pipeline :=
  set_Git (mkGit (Git_LocalCheckpointCommits (Git p)) (Git_FinalLocalCommit (Git p)) b) p.
Definition set_ChangeRequest_Create (b : bool) (p : Pipeline) : Pipeline :=
  set_ChangeRequest (mkChangeRequest b (ChangeRequest_UpdateExisting (ChangeRequest p))) p.
Definition set_ChangeRequest_UpdateExisting (b : bool) (p : Pipeline) : Pipeline :=
  set_ChangeRequest (mkChangeRequest (ChangeRequest_Create (ChangeRequest p)) b) p.
Definition set_PostMerge_Enabled (b : bool) (p : Pipeline) : Pipeline :=
  set_PostMerge (mkPostMerge b (PostMerge_AutoRevert (PostMerge p))) p.
Definition set_Tests_ModifyExisting (b : bool) (p : Pipeline) : Pipeline :=
  let t := Tests p in
  set_Tests (mkTests (Tests_Generate t) b (Tests_RunExisting t) (Tests_RunGenerated t)
    (Tests_RequiredForCompletion t) (Tests_RequireForLocalResult t)
    (Tests_RequireForRemoteMerge t)) p.
Definition set_Tests_RunGenerated (b : bool) (p : Pipeline) : Pipeline :=
  let t := Tests p in
  set_Tests (mkTests (Tests_Generate t) (Tests_ModifyExisting t) (Tests_RunExisting t) b
    (Tests_RequiredForCompletion t) (Tests_RequireForLocalResult t)
    (Tests_RequireForRemoteMerge t)) p.
Definition set_Review_AIReview (b : bool) (p : Pipeline) : Pipeline :=
  set_Review (mkReview b (Review_SecurityReview (Review p))
    (Review_ArchitectureReview (Review p))) p.
Definition set_Review_SecurityReview (t : TriState) (p : Pipeline) : Pipeline :=
  set_Review (mkReview (Review_AIReview (Review p)) t
    (Review_ArchitectureReview (Review p))) p.
Definition set_Review_ArchitectureReview (t : TriState) (p : Pipeline) : Pipeline :=
  set_Review (mkReview (Review_AIReview (Review p)) (Review_SecurityReview (Review p)) t) p.

(** ** rules.go: violations *)

Inductive Severity := SeverityInfo | SeverityWarn | SeverityBlock.
#[global] Instance Severity_eq_dec : EqDecision Severity.
Proof. solve_decision. Defined.

Definition Severity_String (s : Severity) : string :=
  match s with
  | SeverityBlock => "block"
  | SeverityWarn => "warn"
  | SeverityInfo => "info"
  end.

Record Violation := mkViolation {
  Rule : string;
  Violation_Severity : Severity;
  Violation_Detail : string }.

Definition Violation_Error (v : Violation) : string :=
  "policy violation [" +:+ Severity_String (Violation_Severity v) +:+ "] " +:+
  Rule v +:+ ": " +:+ Violation_Detail v.

Definition IsBlock (v : Violation) : bool :=
  bool_decide (Violation_Severity v = SeverityBlock).

Fixpoint Blocks (vs : list Violation) : bool :=
  match vs with
  | [] => false
  | v :: vs => if IsBlock v then true else Blocks vs
  end.

(** ** rules.go: [Normalize] *)

Record Adjustment := mkAdjustment {
  Adjustment_Field : string;
  Adjustment_From : string;
  Adjustment_To : string;
  Adjustment_Reason : string }.

(** One forced [true -> false] adjustment: rule R fires when [fire] holds. *)
Definition forceOff (fire : bool) (field reason : string)
    (set : Pipeline → Pipeline) (st : Pipeline * list Adjustment) :
    Pipeline * list Adjustment :=
  if fire then (set st.1, st.2 ++ [mkAdjustment field "true" "false" reason]) else st.

Definition Normalize (p : Pipeline) : Pipeline * list Adjustment :=
  let out := (p, []) in
  (* R1-R3: push=false cascades to change_request/merge/post_merge. *)
  let out :=
    if negb (Git_Push (Git p)) then
      let out := forceOff (ChangeRequest_Create (ChangeRequest p))
        "change_request.create" "git.push=false (§5.1 R1)"
        (set_ChangeRequest_Create false) out in
      let out := forceOff (Merge p)
        "merge.enabled" "git.push=false (§5.1 R2)" (set_Merge false) out in
      forceOff (PostMerge_Enabled (PostMerge p))
        "post_merge.enabled" "git.push=false (§5.1 R3)"
        (set_PostMerge_Enabled false) out
    else out in
  (* R4: merge=false forces post_merge off. *)
  let out := forceOff (negb (Merge out.1) && PostMerge_Enabled (PostMerge out.1))
    "post_merge.enabled" "merge=false (§5.1 R4)" (set_PostMerge_Enabled false) out in
  (* R5: local-merge mode, recorded only. *)
  let out :=
    if negb (ChangeRequest_Create (ChangeRequest out.1)) && Merge out.1
    then (out.1, out.2 ++ [mkAdjustment "merge.mode" "remote" "local-only"
           "change_request.create=false (§5.1 R5: local merge mode)"])
    else out in
  (* R6, R7: tests.generate=false. *)
  let out := forceOff (negb (Tests_Generate (Tests out.1)) && Tests_ModifyExisting (Tests out.1))
    "tests.modify_existing" "tests.generate=false (§24.2 R6: test paths forbidden)"
    (set_Tests_ModifyExisting false) out in
  forceOff (negb (Tests_Generate (Tests out.1)) && Tests_RunGenerated (Tests out.1))
    "tests.run_generated" "tests.generate=false (§24.2 R7: no generated tests to run)"
    (set_Tests_RunGenerated false) out.

(** ** profiles.go *)

(** [Profile] is a Go string type: [ProfileOther s] is any other string, which
    [ProfileDefaults] treats as CUSTOM. *)
Inductive Profile :=
| ProfilePlanOnly | ProfileLocalReview | ProfileRemoteReview
| ProfileAutonomous | ProfileCustom | ProfileOther (s : string).
#[global] Instance Profile_eq_dec : EqDecision Profile.
Proof. solve_decision. Defined.

Definition Profile_String (p : Profile) : string :=
  match p with
  | ProfilePlanOnly => "PLAN_ONLY"
  | ProfileLocalReview => "LOCAL_REVIEW"
  | ProfileRemoteReview => "REMOTE_REVIEW"
  | ProfileAutonomous => "AUTONOMOUS"
  | ProfileCustom => "CUSTOM"
  | ProfileOther s => s
  end.

Definition Profile_IsValid (p : Profile) : bool :=
  match p with
  | ProfilePlanOnly | ProfileLocalReview | ProfileRemoteReview
  | ProfileAutonomous | ProfileCustom => true
  | ProfileOther _ => false
  end.

Definition IsNetworkLocked (p : Profile) : bool :=
  match p with
  | ProfilePlanOnly | ProfileLocalReview => true
  | _ => false
  end.

Definition planOnlyDefaults : Pipeline := {|
  Specification := true; Planning := true;
  Design := mkDesign false false true;
  Implementation := false;
  Tests := {| Tests_Generate := false; Tests_ModifyExisting := false;
              Tests_RunExisting := true; Tests_RunGenerated := false;
              Tests_RequiredForCompletion := true;
              Tests_RequireForLocalResult := false;
              Tests_RequireForRemoteMerge := true |};
  Review := mkReview true TriAuto TriAuto;
  Git := mkGit false false false;
  ChangeRequest := mkChangeRequest false false;
  Merge := false;
  PostMerge := mkPostMerge false false |}.

Definition localReviewDefaults : Pipeline := {|
  Specification := true; Planning := true;
  Design := mkDesign false false true;
  Implementation := true;
  Tests := {| Tests_Generate := true; Tests_ModifyExisting := true;
              Tests_RunExisting := true; Tests_RunGenerated := true;
              Tests_RequiredForCompletion := true;
              Tests_RequireForLocalResult := false;
              Tests_RequireForRemoteMerge := true |};
  Review := mkReview true TriAuto TriAuto;
  Git := mkGit true true false;
  ChangeRequest := mkChangeRequest false false;
  Merge := false;
  PostMerge := mkPostMerge false false |}.

Definition remoteReviewDefaults : Pipeline :=
  set_ChangeRequest (mkChangeRequest true true) (set_Git_Push true localReviewDefaults).

Definition autonomousDefaults : Pipeline :=
  set_PostMerge (mkPostMerge true true) (set_Merge true remoteReviewDefaults).

(** The CUSTOM branch of the source spells out the same literal as
    LOCAL_REVIEW. *)
Definition ProfileDefaults (p : Profile) : Pipeline :=
  match p with
  | ProfilePlanOnly => planOnlyDefaults
  | ProfileLocalReview => localReviewDefaults
  | ProfileRemoteReview => remoteReviewDefaults
  | ProfileAutonomous => autonomousDefaults
  | ProfileCustom | ProfileOther _ => localReviewDefaults
  end.

(** ** policy.go *)

Record MandatoryChecks := mkMandatory {
  Mandatory_AIReview : bool;
  Mandatory_SecurityReview : bool;
  Mandatory_ArchitectureReview : bool }.

Record Security := mkSecurity {
  Mandatory : MandatoryChecks;
  NetworkLocked : bool;
  AllowVisualVerificationBypass : bool }.

Record Project := mkProject {
  Project_Profile : Profile;
  Project_Pipeline : Pipeline;
  Project_Security : Security }.

(** [Override] is a pointer: [None] is nil. *)
Record TaskContext := mkTaskContext {
  Override : option Pipeline;
  IsUI : bool }.

Record Resolved := mkResolved {
  Resolved_Profile : Profile;
  Resolved_Pipeline : Pipeline }.

Definition NewProject (p : Profile) : Project := {|
  Project_Profile := p;
  Project_Pipeline := ProfileDefaults p;
  Project_Security := mkSecurity (mkMandatory false false false) (IsNetworkLocked p) false |}.

(** [rank] of [moreRestrictive]: Off > Auto > On. *)
Definition triRank (t : TriState) : nat :=
  match t with TriOff => 2 | TriAuto => 1 | TriOn => 0 end.
Definition moreRestrictive (a b : TriState) : bool := triRank b <? triRank a.

Definition mergeTri (base over : TriState) (name : string) (vs : list Violation) :
    TriState * list Violation :=
  if bool_decide (over = TriAuto) || bool_decide (over = base) then (base, vs)
  else if moreRestrictive over base then (over, vs)
  else (base, vs ++ [mkViolation "ac29.override-clamp" SeverityWarn
          ("task override tried to relax " +:+ name +:+ " (" +:+ TriState_String base
           +:+ " -> " +:+ TriState_String over +:+ "); kept " +:+ TriState_String base)]).

(** The [caps] table of [mergeRestrict]: name, base value, override value. *)
Definition caps (b o : Pipeline) : list (string * (bool * bool)) :=
  [ ("specification.enabled", (Specification b, Specification o));
    ("planning.enabled", (Planning b, Planning o));
    ("implementation.enabled", (Implementation b, Implementation o));
    ("design.generate", (Design_Generate (Design b), Design_Generate (Design o)));
    ("design.human_selection", (Design_HumanSelection (Design b), Design_HumanSelection (Design o)));
    ("design.visual_verification", (Design_VisualVerification (Design b), Design_VisualVerification (Design o)));
    ("tests.generate", (Tests_Generate (Tests b), Tests_Generate (Tests o)));
    ("tests.modify_existing", (Tests_ModifyExisting (Tests b), Tests_ModifyExisting (Tests o)));
    ("tests.run_existing", (Tests_RunExisting (Tests b), Tests_RunExisting (Tests o)));
    ("tests.run_generated", (Tests_RunGenerated (Tests b), Tests_RunGenerated (Tests o)));
    ("tests.required_for_completion", (Tests_RequiredForCompletion (Tests b), Tests_RequiredForCompletion (Tests o)));
    ("tests.require_for_local_result", (Tests_RequireForLocalResult (Tests b), Tests_RequireForLocalResult (Tests o)));
    ("tests.require_for_remote_merge", (Tests_RequireForRemoteMerge (Tests b), Tests_RequireForRemoteMerge (Tests o)));
    ("review.ai_review", (Review_AIReview (Review b), Review_AIReview (Review o)));
    ("git.local_checkpoint_commits", (Git_LocalCheckpointCommits (Git b), Git_LocalCheckpointCommits (Git o)));
    ("git.final_local_commit", (Git_FinalLocalCommit (Git b), Git_FinalLocalCommit (Git o)));
    ("git.push", (Git_Push (Git b), Git_Push (Git o)));
    ("change_request.create", (ChangeRequest_Create (ChangeRequest b), ChangeRequest_Create (ChangeRequest o)));
    ("change_request.update_existing", (ChangeRequest_UpdateExisting (ChangeRequest b), ChangeRequest_UpdateExisting (ChangeRequest o)));
    ("merge.enabled", (Merge b, Merge o));
    ("post_merge.enabled", (PostMerge_Enabled (PostMerge b), PostMerge_Enabled (PostMerge o)));
    ("post_merge.auto_revert", (PostMerge_AutoRevert (PostMerge b), PostMerge_AutoRevert (PostMerge o))) ].

(** The closure [set] of [mergeRestrict]: assigns the named field. *)
Definition setNamed (name : string) (on : bool) (p : Pipeline) : Pipeline :=
  let d := Design p in let t := Tests p in let g := Git p in
  if bool_decide (name = "specification.enabled") then
    mkPipeline on (Planning p) d (Implementation p) t (Review p) g (ChangeRequest p) (Merge p) (PostMerge p)
  else if bool_decide (name = "planning.enabled") then
    mkPipeline (Specification p) on d (Implementation p) t (Review p) g (ChangeRequest p) (Merge p) (PostMerge p)
  else if bool_decide (name = "implementation.enabled") then
    mkPipeline (Specification p) (Planning p) d on t (Review p) g (ChangeRequest p) (Merge p) (PostMerge p)
  else if bool_decide (name = "design.generate") then
    set_Design (mkDesign on (Design_HumanSelection d) (Design_VisualVerification d)) p
  else if bool_decide (name = "design.human_selection") then
    set_Design (mkDesign (Design_Generate d) on (Design_VisualVerification d)) p
  else if bool_decide (name = "design.visual_verification") then
    set_Design (mkDesign (Design_Generate d) (Design_HumanSelection d) on) p
  else if bool_decide (name = "tests.generate") then
    set_Tests (mkTests on (Tests_ModifyExisting t) (Tests_RunExisting t) (Tests_RunGenerated t)
      (Tests_RequiredForCompletion t) (Tests_RequireForLocalResult t) (Tests_RequireForRemoteMerge t)) p
  else if bool_decide (name = "tests.modify_existing") then set_Tests_ModifyExisting on p
  else if bool_decide (name = "tests.run_existing") then
    set_Tests (mkTests (Tests_Generate t) (Tests_ModifyExisting t) on (Tests_RunGenerated t)
      (Tests_RequiredForCompletion t) (Tests_RequireForLocalResult t) (Tests_RequireForRemoteMerge t)) p
  else if bool_decide (name = "tests.run_generated") then set_Tests_RunGenerated on p
  else if bool_decide (name = "tests.required_for_completion") then
    set_Tests (mkTests (Tests_Generate t) (Tests_ModifyExisting t) (Tests_RunExisting t) (Tests_RunGenerated t)
      on (Tests_RequireForLocalResult t) (Tests_RequireForRemoteMerge t)) p
  else if bool_decide (name = "tests.require_for_local_result") then
    set_Tests (mkTests (Tests_Generate t) (Tests_ModifyExisting t) (Tests_RunExisting t) (Tests_RunGenerated t)
      (Tests_RequiredForCompletion t) on (Tests_RequireForRemoteMerge t)) p
  else if bool_decide (name = "tests.require_for_remote_merge") then
    set_Tests (mkTests (Tests_Generate t) (Tests_ModifyExisting t) (Tests_RunExisting t) (Tests_RunGenerated t)
      (Tests_RequiredForCompletion t) (Tests_RequireForLocalResult t) on) p
  else if bool_decide (name = "review.ai_review") then set_Review_AIReview on p
  else if bool_decide (name = "git.local_checkpoint_commits") then
    set_Git (mkGit on (Git_FinalLocalCommit g) (Git_Push g)) p
  else if bool_decide (name = "git.final_local_commit") then
    set_Git (mkGit (Git_LocalCheckpointCommits g) on (Git_Push g)) p
  else if bool_decide (name = "git.push") then set_Git_Push on p
  else if bool_decide (name = "change_request.create") then set_ChangeRequest_Create on p
  else if bool_decide (name = "change_request.update_existing") then
    set_ChangeRequest_UpdateExisting on p
  else if bool_decide (name = "merge.enabled") then set_Merge on p
  else if bool_decide (name = "post_merge.enabled") then set_PostMerge_Enabled on p
  else if bool_decide (name = "post_merge.auto_revert") then
    set_PostMerge (mkPostMerge (PostMerge_Enabled (PostMerge p)) on) p
  else p.

(** One iteration of [for _, c := range caps]. *)
Definition restrictOne (st : Pipeline * list Violation) (c : string * (bool * bool)) :
    Pipeline * list Violation :=
  let '(name, (baseVal, overVal)) := c in
  (setNamed name (baseVal && overVal) st.1,
   if overVal && negb baseVal
   then st.2 ++ [mkViolation "ac29.override-clamp" SeverityWarn
          ("task override tried to enable " +:+ name
           +:+ " which the project disables; kept disabled")]
   else st.2).

Definition mergeRestrict (base over : Pipeline) (vs : list Violation) :
    Pipeline * list Violation :=
  let '(out, vs) := foldl restrictOne (base, vs) (caps base over) in
  let '(s, vs) := mergeTri (Review_SecurityReview (Review base))
    (Review_SecurityReview (Review over)) "review.security_review" vs in
  let out := set_Review_SecurityReview s out in
  let '(a, vs) := mergeTri (Review_ArchitectureReview (Review base))
    (Review_ArchitectureReview (Review over)) "review.architecture_review" vs in
  (set_Review_ArchitectureReview a out, vs).

Definition enforceMandatory (p : Pipeline) (sec : Security) (vs : list Violation) :
    Pipeline * list Violation :=
  let m := Mandatory sec in
  let '(out, vs) :=
    if Mandatory_AIReview m && negb (Review_AIReview (Review p))
    then (set_Review_AIReview true p,
          vs ++ [mkViolation "ac29.mandatory.ai_review" SeverityWarn
            "task override cannot disable the mandatory AI review; restored"])
    else (p, vs) in
  let '(out, vs) :=
    if Mandatory_SecurityReview m && bool_decide (Review_SecurityReview (Review out) = TriOff)
    then (set_Review_SecurityReview TriOn out,
          vs ++ [mkViolation "ac29.mandatory.security_review" SeverityWarn
            "task override cannot disable the mandatory security review; restored"])
    else (out, vs) in
  if Mandatory_ArchitectureReview m && bool_decide (Review_ArchitectureReview (Review out) = TriOff)
  then (set_Review_ArchitectureReview TriOn out,
        vs ++ [mkViolation "ac29.mandatory.architecture_review" SeverityWarn
          "task override cannot disable the mandatory architecture review; restored"])
  else (out, vs).

Definition applyNetworkLock (p : Pipeline) (vs : list Violation) :
    Pipeline * list Violation :=
  let '(out, vs) :=
    if Git_Push (Git p)
    then (set_Git_Push false p, vs ++ [mkViolation "ac7.network-locked" SeverityBlock
      "git.push is structurally disabled in a network-locked profile (LOCAL_REVIEW/PLAN_ONLY)"])
    else (p, vs) in
  let '(out, vs) :=
    if ChangeRequest_Create (ChangeRequest p)
    then (set_ChangeRequest_Create false out, vs ++ [mkViolation "ac7.network-locked" SeverityBlock
      "change_request.create is structurally disabled in a network-locked profile"])
    else (out, vs) in
  let out := if ChangeRequest_UpdateExisting (ChangeRequest p)
             then set_ChangeRequest_UpdateExisting false out else out in
  let '(out, vs) :=
    if Merge p
    then (set_Merge false out, vs ++ [mkViolation "ac7.network-locked" SeverityBlock
      "merge is structurally disabled in a network-locked profile"])
    else (out, vs) in
  (if PostMerge_Enabled (PostMerge p) then set_PostMerge_Enabled false out else out, vs).

Definition adjustmentViolation (a : Adjustment) : Violation :=
  mkViolation "§5.1.normalize" SeverityInfo
    (Adjustment_Field a +:+ ": " +:+ Adjustment_From a +:+ " -> " +:+
     Adjustment_To a +:+ " (" +:+ Adjustment_Reason a +:+ ")").

Definition Resolve (project : Project) (task : TaskContext) : Resolved * list Violation :=
  let eff := Project_Pipeline project in
  let sec := Project_Security project in
  (* 1. task override, only-restrict *)
  let '(eff, vs) :=
    match Override task with
    | Some o => mergeRestrict eff o []
    | None => (eff, [])
    end in
  (* 2. mandatory checks *)
  let '(eff, vs) := enforceMandatory eff sec vs in
  (* 3. dependency normalisation *)
  let '(eff, adj) := Normalize eff in
  let vs := vs ++ (adjustmentViolation <$> adj) in
  (* 4. structural network lock *)
  let '(eff, vs) :=
    if NetworkLocked sec || IsNetworkLocked (Project_Profile project)
    then applyNetworkLock eff vs else (eff, vs) in
  (* 5. visual verification for auto-merged UI tasks *)
  let vs :=
    if IsUI task && Merge eff && negb (Design_VisualVerification (Design eff))
       && negb (AllowVisualVerificationBypass sec)
    then vs ++ [mkViolation "§5.1.vv-required-for-ui-merge" SeverityBlock
      "auto-merging a UI task requires visual verification enabled (or an explicit project exemption)"]
    else vs in
  (mkResolved (Project_Profile project) eff, vs).

(** [Action] is a Go string type; any other string is denied by [Allows]. *)
Inductive Action :=
| ActPush | ActCreateChangeRequest | ActUpdateChangeRequest | ActMerge
| ActPostMerge | ActPostMergeAutoRevert | ActImplement | ActGenerateTests
| ActModifyExistingTests | ActRunExistingTests | ActRunGeneratedTests
| ActGenerateDesign | ActAIReview | ActSecurityReview | ActArchReview
| ActLocalCheckpoint | ActOther (s : string).
#[global] Instance Action_eq_dec : EqDecision Action.
Proof. solve_decision. Defined.

Definition Action_String (a : Action) : string :=
  match a with
  | ActPush => "git.push"
  | ActCreateChangeRequest => "change_request.create"
  | ActUpdateChangeRequest => "change_request.update"
  | ActMerge => "merge"
  | ActPostMerge => "post_merge"
  | ActPostMergeAutoRevert => "post_merge.auto_revert"
  | ActImplement => "implementation"
  | ActGenerateTests => "tests.generate"
  | ActModifyExistingTests => "tests.modify_existing"
  | ActRunExistingTests => "tests.run_existing"
  | ActRunGeneratedTests => "tests.run_generated"
  | ActGenerateDesign => "design.generate"
  | ActAIReview => "review.ai_review"
  | ActSecurityReview => "review.security_review"
  | ActArchReview => "review.architecture_review"
  | ActLocalCheckpoint => "git.local_checkpoint"
  | ActOther s => s
  end.

Record Decision := mkDecision {
  Decision_Action : Action;
  Allow : bool;
  Decision_Reason : string }.

Definition Decision_String (d : Decision) : string :=
  (if Allow d then "allow" else "deny") +:+ " " +:+ Action_String (Decision_Action d)
  +:+ ": " +:+ Decision_Reason d.

Definition b (v : bool) : string := if v then "true" else "false".

Definition triToBool (t : TriState) : bool := bool_decide (t ≠ TriOff).

Definition Allows (r : Resolved) (a : Action) : Decision :=
  let p := Resolved_Pipeline r in
  match a with
  | ActPush => mkDecision a (Git_Push (Git p)) ("git.push=" +:+ b (Git_Push (Git p)))
  | ActCreateChangeRequest =>
      mkDecision a (Git_Push (Git p) && ChangeRequest_Create (ChangeRequest p))
        ("git.push=" +:+ b (Git_Push (Git p)) +:+ " and change_request.create="
         +:+ b (ChangeRequest_Create (ChangeRequest p)))
  | ActUpdateChangeRequest =>
      mkDecision a (Git_Push (Git p) && ChangeRequest_UpdateExisting (ChangeRequest p))
        ("git.push=" +:+ b (Git_Push (Git p)) +:+ " and change_request.update_existing="
         +:+ b (ChangeRequest_UpdateExisting (ChangeRequest p)))
  | ActMerge => mkDecision a (Merge p) ("merge=" +:+ b (Merge p))
  | ActPostMerge =>
      mkDecision a (Merge p && PostMerge_Enabled (PostMerge p))
        ("merge=" +:+ b (Merge p) +:+ " and post_merge.enabled="
         +:+ b (PostMerge_Enabled (PostMerge p)))
  | ActPostMergeAutoRevert =>
      mkDecision a (Merge p && PostMerge_Enabled (PostMerge p) && PostMerge_AutoRevert (PostMerge p))
        ("post_merge.auto_revert=" +:+ b (PostMerge_AutoRevert (PostMerge p)))
  | ActImplement => mkDecision a (Implementation p) ("implementation=" +:+ b (Implementation p))
  | ActGenerateTests =>
      mkDecision a (Tests_Generate (Tests p)) ("tests.generate=" +:+ b (Tests_Generate (Tests p)))
  | ActModifyExistingTests =>
      mkDecision a (Tests_Generate (Tests p) && Tests_ModifyExisting (Tests p))
        ("tests.generate=" +:+ b (Tests_Generate (Tests p)) +:+ " and tests.modify_existing="
         +:+ b (Tests_ModifyExisting (Tests p)))
  | ActRunExistingTests =>
      mkDecision a (Tests_RunExisting (Tests p)) ("tests.run_existing=" +:+ b (Tests_RunExisting (Tests p)))
  | ActRunGeneratedTests =>
      mkDecision a (Tests_RunGenerated (Tests p) && Tests_Generate (Tests p))
        ("tests.run_generated=" +:+ b (Tests_RunGenerated (Tests p)) +:+ " and tests.generate="
         +:+ b (Tests_Generate (Tests p)))
  | ActGenerateDesign =>
      mkDecision a (Design_Generate (Design p)) ("design.generate=" +:+ b (Design_Generate (Design p)))
  | ActAIReview =>
      mkDecision a (Review_AIReview (Review p)) ("review.ai_review=" +:+ b (Review_AIReview (Review p)))
  | ActSecurityReview =>
      mkDecision a (triToBool (Review_SecurityReview (Review p)))
        ("review.security_review=" +:+ TriState_String (Review_SecurityReview (Review p)))
  | ActArchReview =>
      mkDecision a (triToBool (Review_ArchitectureReview (Review p)))
        ("review.architecture_review=" +:+ TriState_String (Review_ArchitectureReview (Review p)))
  | ActLocalCheckpoint =>
      mkDecision a (Git_LocalCheckpointCommits (Git p))
        ("git.local_checkpoint_commits=" +:+ b (Git_LocalCheckpointCommits (Git p)))
  | ActOther _ => mkDecision a false "unknown action"
  end.

(** ** stages.go *)

Inductive StageID :=
| StageSpecification | StagePlanning | StageDesign | StageImplementation
| StageTestGenerate | StageRunTests | StageAIReview | StageArchReview
| StageSecurityReview | StagePush | StageChangeRequest | StageMerge
| StagePostMerge | StageOther (s : string).
#[global] Instance StageID_eq_dec : EqDecision StageID.
Proof. solve_decision. Defined.

Inductive StageStatus := StageActive | StageSkipped | StageLocked.
#[global] Instance StageStatus_eq_dec : EqDecision StageStatus.
Proof. solve_decision. Defined.

Record StageReport := mkStageReport {
  Report_Stage : StageID;
  Report_Status : StageStatus;
  Report_Reason : string;
  Report_Actions : list Action }.

Record PipelineStatus := mkPipelineStatus {
  Status_Profile : Profile;
  Stages : list StageReport }.

Definition stageBool (on : bool) : StageStatus :=
  if on then StageActive else StageSkipped.

Definition triLabel (t : TriState) : string :=
  if bool_decide (t = TriAuto) then "auto" else "".

Definition testGenReport (p : Pipeline) : StageReport :=
  let mk := λ s r, mkStageReport StageTestGenerate s r [ActGenerateTests; ActModifyExistingTests] in
  if Tests_Generate (Tests p) then mk StageActive ""
  else mk StageSkipped "tests.generate=false (test paths forbidden, §24.2)".

Definition runTestsReport (p : Pipeline) : StageReport :=
  let mk := λ s r, mkStageReport StageRunTests s r [ActRunExistingTests; ActRunGeneratedTests] in
  if negb (Tests_Generate (Tests p))
  then mk StageSkipped "tests.generate=false: no tests run (§24.2)"
  else match Tests_RunExisting (Tests p), Tests_RunGenerated (Tests p) with
       | true, true => mk StageActive ""
       | true, false => mk StageActive "run_generated disabled; only existing tests run"
       | false, true => mk StageActive "run_existing disabled; only generated tests run"
       | false, false => mk StageSkipped "tests.run_existing=false and run_generated=false"
       end.

Definition aiReviewReport (p : Pipeline) : StageReport :=
  if Review_AIReview (Review p)
  then mkStageReport StageAIReview StageActive "" [ActAIReview]
  else mkStageReport StageAIReview StageSkipped "review.ai_review=false" [ActAIReview].

(** The architecture- and security-review blocks. *)
Definition triReport (st : StageID) (act : Action) (t : TriState) (off : string) : StageReport :=
  if triToBool t then mkStageReport st StageActive (triLabel t) [act]
  else mkStageReport st StageSkipped off [act].

(** The four delivery blocks: active, else locked under a network-locked
    profile, else skipped. *)
Definition deliveryReport (st : StageID) (acts : list Action)
    (on networkLocked : bool) (lockedReason off : string) : StageReport :=
  if on then mkStageReport st StageActive "" acts
  else if networkLocked then mkStageReport st StageLocked lockedReason acts
  else mkStageReport st StageSkipped off acts.

(** [func (r Resolved) StageStatus() PipelineStatus]. *)
Definition Resolved_StageStatus (r : Resolved) : PipelineStatus :=
  let p := Resolved_Pipeline r in
  let networkLocked := IsNetworkLocked (Resolved_Profile r) in
  mkPipelineStatus (Resolved_Profile r)
    [ mkStageReport StageSpecification (stageBool (Specification p)) "" [];
      mkStageReport StagePlanning (stageBool (Planning p)) "" [];
      mkStageReport StageDesign
        (stageBool (Design_Generate (Design p) || Design_VisualVerification (Design p)))
        "" [ActGenerateDesign];
      mkStageReport StageImplementation (stageBool (Implementation p)) "" [ActImplement];
      testGenReport p;
      runTestsReport p;
      aiReviewReport p;
      triReport StageArchReview ActArchReview (Review_ArchitectureReview (Review p))
        "review.architecture_review=off";
      triReport StageSecurityReview ActSecurityReview (Review_SecurityReview (Review p))
        "review.security_review=off";
      deliveryReport StagePush [ActPush] (Git_Push (Git p)) networkLocked
        "network-locked profile (LOCAL_REVIEW/PLAN_ONLY)" "git.push=false";
      deliveryReport StageChangeRequest [ActCreateChangeRequest; ActUpdateChangeRequest]
        (ChangeRequest_Create (ChangeRequest p)) networkLocked
        "network-locked profile" "change_request.create=false";
      deliveryReport StageMerge [ActMerge] (Merge p) networkLocked
        "network-locked profile" "merge=false";
      deliveryReport StagePostMerge [ActPostMerge; ActPostMergeAutoRevert]
        (PostMerge_Enabled (PostMerge p)) networkLocked
        "network-locked profile" "post_merge.enabled=false" ].

Fixpoint isSkippedIn (l : list StageReport) (stage : StageID) : bool :=
  match l with
  | [] => true
  | r :: l => if bool_decide (Report_Stage r = stage)
              then bool_decide (Report_Status r ≠ StageActive)
              else isSkippedIn l stage
  end.
Definition IsSkipped (s : PipelineStatus) (stage : StageID) : bool :=
  isSkippedIn (Stages s) stage.

Definition LocalResultLabels (s : PipelineStatus) : list string :=
  ["IMPLEMENTED"]
  ++ [if IsSkipped s StageRunTests then "NOT TESTED" else "TESTED"]
  ++ [if IsSkipped s StageAIReview && IsSkipped s StageArchReview
         && IsSkipped s StageSecurityReview
      then "NOT REVIEWED" else "REVIEWED"]
  ++ ["LOCAL BRANCH ONLY"].

(** ** injection.go: [InjectionLayer] is an [int], lower is stronger. *)

Definition LayerFactoryPolicy : Z := 0.
Definition LayerConstitution : Z := 1.
Definition LayerTaskSpec : Z := 2.
Definition LayerRepoDocs : Z := 3.
Definition LayerSourceComments : Z := 4.
Definition LayerExternalAttachments : Z := 5.

Definition InjectionOrder : list Z :=
  [LayerFactoryPolicy; LayerConstitution; LayerTaskSpec; LayerRepoDocs;
   LayerSourceComments; LayerExternalAttachments].

Definition InjectionLayer_String (l : Z) : string :=
  if (l =? LayerFactoryPolicy)%Z then "Factory Security Policy"
  else if (l =? LayerConstitution)%Z then "Project Constitution"
  else if (l =? LayerTaskSpec)%Z then "Task Specification"
  else if (l =? LayerRepoDocs)%Z then "Repository Documentation"
  else if (l =? LayerSourceComments)%Z then "Source Comments"
  else if (l =? LayerExternalAttachments)%Z then "External Attachments"
  else "InjectionLayer(" +:+ pretty l +:+ ")".

Definition HigherPriority (a b : Z) : bool := (a <? b)%Z.
Definition ComparePriority (a b : Z) : Z :=
  if (a <? b)%Z then (-1)%Z else if (b <? a)%Z then 1%Z else 0%Z.
Definition Wins (higher lower : Z) : bool := (higher <? lower)%Z.

(** ** scope.go *)

Record TestPathConvention := mkConvention {
  Suffixes : list string;
  Substrings : list string }.

Definition DefaultTestConventions : list TestPathConvention :=
  [ mkConvention ["_test.go"] [];
    mkConvention [".test.js"; ".test.ts"; ".test.tsx"] [];
    mkConvention [".spec.js"; ".spec.ts"; ".spec.tsx"] [];
    mkConvention [] ["/test/"; "/tests/"; "/__tests__/"];
    mkConvention [] ["/src/test/"];
    mkConvention ["test.py"; "_test.py"] [];
    mkConvention ["Test.java"; "Tests.java"; "IT.java"] [];
    mkConvention ["_spec.rb"] ["/spec/"] ].

Definition matchesConvention (lower : string) (c : TestPathConvention) : bool :=
  existsb (λ sfx, strs.HasSuffix lower (strs.ToLower sfx)) (Suffixes c) ||
  existsb (λ sub, strs.Contains lower (strs.ToLower sub)) (Substrings c).

(** [filepath.ToSlash] is the identity on the supported (Unix) hosts. *)
Definition IsTestPath (path : string) (convs : list TestPathConvention) : bool :=
  let convs := match convs with [] => DefaultTestConventions | _ => convs end in
  let matchPath := if strs.HasPrefix path "/" then path else "/" +:+ path in
  existsb (matchesConvention (strs.ToLower matchPath)) convs.

Record ScopeCheckResult := mkScopeCheck {
  ScopeCheck_Path : string;
  IsTest : bool;
  Allowed : bool;
  DenialCode : string;
  ScopeCheck_Reason : string }.

Definition CheckTestScope (p : Pipeline) (path : string) (isNew : bool)
    (convs : list TestPathConvention) : ScopeCheckResult :=
  if negb (IsTestPath path convs) then mkScopeCheck path false true "" ""
  else if negb (Tests_Generate (Tests p)) then
    mkScopeCheck path true false "test_generation_disabled"
      "tests.generate is disabled: creating or modifying test files is forbidden (§24.2)"
  else if negb isNew && negb (Tests_ModifyExisting (Tests p)) then
    mkScopeCheck path true false "modify_existing_disabled"
      "tests.modify_existing is disabled: modifying existing test files is forbidden"
  else mkScopeCheck path true true "" "".

Record FileChange := mkFileChange {
  FileChange_Path : string;
  IsNew : bool }.

(** The zero [ScopeCheckResult]. *)
Definition noDenial : ScopeCheckResult := mkScopeCheck "" false false "" "".

Definition checkOneChange (p : Pipeline) (convs : list TestPathConvention)
    (st : ScopeCheckResult * Z) (c : FileChange) : ScopeCheckResult * Z :=
  let r := CheckTestScope p (FileChange_Path c) (IsNew c) convs in
  if IsTest r && negb (Allowed r)
  then (if bool_decide (ScopeCheck_Path st.1 = "") then r else st.1, (st.2 + 1)%Z)
  else st.

Definition CheckFileChanges (p : Pipeline) (changes : list FileChange)
    (convs : list TestPathConvention) : ScopeCheckResult * Z :=
  foldl (checkOneChange p convs) (noDenial, 0%Z) changes.

(** ** Lemmas *)

(** [mergeRestrict] as a field-wise conjunction. *)
Definition restricted (b o : Pipeline) : Pipeline := {|
  Specification := Specification b && Specification o;
  Planning := Planning b && Planning o;
  Design := mkDesign (Design_Generate (Design b) && Design_Generate (Design o))
    (Design_HumanSelection (Design b) && Design_HumanSelection (Design o))
    (Design_VisualVerification (Design b) && Design_VisualVerification (Design o));
  Implementation := Implementation b && Implementation o;
  Tests := mkTests (Tests_Generate (Tests b) && Tests_Generate (Tests o))
    (Tests_ModifyExisting (Tests b) && Tests_ModifyExisting (Tests o))
    (Tests_RunExisting (Tests b) && Tests_RunExisting (Tests o))
    (Tests_RunGenerated (Tests b) && Tests_RunGenerated (Tests o))
    (Tests_RequiredForCompletion (Tests b) && Tests_RequiredForCompletion (Tests o))
    (Tests_RequireForLocalResult (Tests b) && Tests_RequireForLocalResult (Tests o))
    (Tests_RequireForRemoteMerge (Tests b) && Tests_RequireForRemoteMerge (Tests o));
  Review := mkReview (Review_AIReview (Review b) && Review_AIReview (Review o))
    (mergeTri (Review_SecurityReview (Review b)) (Review_SecurityReview (Review o)) "" []).1
    (mergeTri (Review_ArchitectureReview (Review b)) (Review_ArchitectureReview (Review o)) "" []).1;
  Git := mkGit (Git_LocalCheckpointCommits (Git b) && Git_LocalCheckpointCommits (Git o))
    (Git_FinalLocalCommit (Git b) && Git_FinalLocalCommit (Git o))
    (Git_Push (Git b) && Git_Push (Git o));
  ChangeRequest := mkChangeRequest
    (ChangeRequest_Create (ChangeRequest b) && ChangeRequest_Create (ChangeRequest o))
    (ChangeRequest_UpdateExisting (ChangeRequest b) && ChangeRequest_UpdateExisting (ChangeRequest o));
  Merge := Merge b && Merge o;
  PostMerge := mkPostMerge (PostMerge_Enabled (PostMerge b) && PostMerge_Enabled (PostMerge o))
    (PostMerge_AutoRevert (PostMerge b) && PostMerge_AutoRevert (PostMerge o)) |}.

Lemma mergeTri_fst base over name vs name' vs' :
  (mergeTri base over name vs).1 = (mergeTri base over name' vs').1.
Proof. by destruct base, over. Qed.

Lemma foldl_restrictOne_fst l p vs vs' :
  (foldl restrictOne (p, vs) l).1 = (foldl restrictOne (p, vs') l).1.
Proof.
  revert p vs vs'. induction l as [|[n [x y]] l IH]; intros p vs vs'; [done|].
  apply IH.
Qed.

Lemma mergeRestrict_fst b o vs : (mergeRestrict b o vs).1 = restricted b o.
Proof.
  unfold mergeRestrict.
  destruct (foldl restrictOne (b, vs) (caps b o)) as [out vs1] eqn:Hf.
  assert (out = (foldl restrictOne (b, []) (caps b o)).1) as ->.
  { rewrite (foldl_restrictOne_fst _ _ [] vs). by rewrite Hf. }
  clear Hf.
  destruct (mergeTri (Review_SecurityReview _) _ _ vs1) as [s vs2] eqn:Hs.
  destruct (mergeTri (Review_ArchitectureReview _) _ _ vs2) as [a vs3] eqn:Ha.
  assert (s = (s, vs2).1) as -> by done. rewrite <-Hs.
  assert (a = (a, vs3).1) as -> by done. rewrite <-Ha. clear.
  unfold restricted.
  rewrite (mergeTri_fst _ _ "review.security_review" vs1 "" []),
    (mergeTri_fst _ _ "review.architecture_review" vs2 "" []).
  cbv. reflexivity.
Qed.

(** [Normalize], [enforceMandatory] and [applyNetworkLock] as field-wise
    functions of the pipeline alone. *)
Definition normalized (p : Pipeline) : Pipeline :=
  set_ChangeRequest_Create (ChangeRequest_Create (ChangeRequest p) && Git_Push (Git p))
  (set_Merge (Merge p && Git_Push (Git p))
  (set_PostMerge_Enabled (PostMerge_Enabled (PostMerge p) && Merge p && Git_Push (Git p))
  (set_Tests_ModifyExisting (Tests_ModifyExisting (Tests p) && Tests_Generate (Tests p))
  (set_Tests_RunGenerated (Tests_RunGenerated (Tests p) && Tests_Generate (Tests p)) p)))).

Definition restoreTri (mandatory : bool) (t : TriState) : TriState :=
  if mandatory && bool_decide (t = TriOff) then TriOn else t.

Definition mandated (m : MandatoryChecks) (p : Pipeline) : Pipeline :=
  set_Review (mkReview (Review_AIReview (Review p) || Mandatory_AIReview m)
    (restoreTri (Mandatory_SecurityReview m) (Review_SecurityReview (Review p)))
    (restoreTri (Mandatory_ArchitectureReview m) (Review_ArchitectureReview (Review p)))) p.

Definition locked (p : Pipeline) : Pipeline :=
  set_Git_Push false (set_ChangeRequest (mkChangeRequest false false)
  (set_Merge false (set_PostMerge_Enabled false p))).

Lemma Normalize_fst p : (Normalize p).1 = normalized p.
Proof.
  destruct p as [? ? ? ? [gen modi ? rg ? ? ?] ? [? ? push] [create ?] merge [post ?]].
  destruct push, create, merge, post, gen, modi, rg; reflexivity.
Qed.

Lemma enforceMandatory_fst p sec vs :
  (enforceMandatory p sec vs).1 = mandated (Mandatory sec) p.
Proof.
  destruct sec as [[ai s a] ? ?], p as [? ? ? ? ? [air st at_] ? ? ? ?].
  destruct ai, air, s, st, a, at_; reflexivity.
Qed.

Lemma applyNetworkLock_fst p vs : (applyNetworkLock p vs).1 = locked p.
Proof.
  destruct p as [? ? ? ? ? ? [? ? push] [create upd] merge [post ?]].
  destruct push, create, upd, merge, post; reflexivity.
Qed.

(** The pipeline [Resolve] returns. *)
Definition effective (project : Project) (over : option Pipeline) : Pipeline :=
  let sec := Project_Security project in
  let eff := match over with
             | Some o => restricted (Project_Pipeline project) o
             | None => Project_Pipeline project
             end in
  let eff := normalized (mandated (Mandatory sec) eff) in
  if NetworkLocked sec || IsNetworkLocked (Project_Profile project)
  then locked eff else eff.

Lemma Resolve_fst project task :
  (Resolve project task).1 =
    mkResolved (Project_Profile project) (effective project (Override task)).
Proof.
  unfold Resolve, effective.
  destruct (match Override task with Some _ => _ | None => _ end) as [eff vs] eqn:Ho.
  assert (eff = match Override task with
                | Some o => restricted (Project_Pipeline project) o
                | None => Project_Pipeline project end) as <-.
  { destruct (Override task); [|congruence]. by rewrite <-(mergeRestrict_fst _ _ []), Ho. }
  pose proof (enforceMandatory_fst eff (Project_Security project) vs) as Hm.
  destruct (enforceMandatory _ _ _) as [eff1 vs1]; simpl in Hm; subst eff1.
  pose proof (Normalize_fst (mandated (Mandatory (Project_Security project)) eff)) as Hn.
  destruct (Normalize _) as [eff2 adj]; simpl in Hn; subst eff2.
  destruct (_ || _); [|done].
  match goal with |- context [applyNetworkLock ?p ?v] =>
    pose proof (applyNetworkLock_fst p v) as Hl; destruct (applyNetworkLock p v) end.
  simpl in Hl. by subst.
Qed.

Lemma effective_allows project task a :
  Allow (Allows (Resolve project task).1 a) =
  Allow (Allows (mkResolved (Project_Profile project)
                   (effective project (Override task))) a).
Proof. by rewrite Resolve_fst. Qed.

(** Field-wise "enables no more": every capability [q] grants, [p] grants. *)
Definition grants_le (q p : Pipeline) : Prop :=
  ∀ prof prof' a,
    Allow (Allows (mkResolved prof q) a) = true →
    Allow (Allows (mkResolved prof' p) a) = true.

(** The boolean fields [Allows] reads, as a conjunction of implications. *)
Definition caps_le (q p : Pipeline) : Prop :=
  (Git_Push (Git q) → Git_Push (Git p)) ∧
  (ChangeRequest_Create (ChangeRequest q) → ChangeRequest_Create (ChangeRequest p)) ∧
  (ChangeRequest_UpdateExisting (ChangeRequest q) → ChangeRequest_UpdateExisting (ChangeRequest p)) ∧
  (Merge q → Merge p) ∧
  (PostMerge_Enabled (PostMerge q) → PostMerge_Enabled (PostMerge p)) ∧
  (PostMerge_AutoRevert (PostMerge q) → PostMerge_AutoRevert (PostMerge p)) ∧
  (Implementation q → Implementation p) ∧
  (Tests_Generate (Tests q) → Tests_Generate (Tests p)) ∧
  (Tests_ModifyExisting (Tests q) → Tests_ModifyExisting (Tests p)) ∧
  (Tests_RunExisting (Tests q) → Tests_RunExisting (Tests p)) ∧
  (Tests_RunGenerated (Tests q) → Tests_RunGenerated (Tests p)) ∧
  (Design_Generate (Design q) → Design_Generate (Design p)) ∧
  (Review_AIReview (Review q) → Review_AIReview (Review p)) ∧
  (triToBool (Review_SecurityReview (Review q)) → triToBool (Review_SecurityReview (Review p))) ∧
  (triToBool (Review_ArchitectureReview (Review q)) → triToBool (Review_ArchitectureReview (Review p))) ∧
  (Git_LocalCheckpointCommits (Git q) → Git_LocalCheckpointCommits (Git p)).

Lemma caps_le_grants_le q p : caps_le q p → grants_le q p.
Proof.
  intros (?&?&?&?&?&?&?&?&?&?&?&?&?&?&?&?) prof prof' a; destruct a; cbn -[triToBool];
    rewrite <-?Is_true_true, ?andb_True; tauto.
Qed.

Lemma mergeTri_le base over name vs :
  triToBool (mergeTri base over name vs).1 → triToBool base.
Proof. by destruct base, over. Qed.

Lemma restricted_le b o : caps_le (restricted b o) b.
Proof.
  unfold caps_le, restricted; cbn; rewrite ?andb_True.
  split_and!; (tauto || apply mergeTri_le).
Qed.

Lemma restoreTri_le m t t' :
  (triToBool t → triToBool t') → triToBool (restoreTri m t) → triToBool (restoreTri m t').
Proof. destruct m, t, t'; cbv; tauto. Qed.

Lemma restoreTri_on (m : bool) t : m → triToBool (restoreTri m t).
Proof. destruct m, t; cbv; tauto. Qed.

Lemma mandated_mono m q p : caps_le q p → caps_le (mandated m q) (mandated m p).
Proof.
  unfold caps_le, mandated; cbn; rewrite ?orb_True.
  intros H; split_and!; (tauto || apply restoreTri_le; tauto).
Qed.

Lemma normalized_mono q p : caps_le q p → caps_le (normalized q) (normalized p).
Proof.
  unfold caps_le, normalized; cbn; rewrite ?andb_True. tauto.
Qed.

Lemma locked_mono q p : caps_le q p → caps_le (locked q) (locked p).
Proof. unfold caps_le, locked; cbn. tauto. Qed.

#[local] Hint Resolve mandated_mono normalized_mono locked_mono restricted_le
  caps_le_grants_le : policy.

Lemma effective_restricts project over :
  caps_le (effective project (Some over)) (effective project None).
Proof. unfold effective; destruct (_ || _); auto with policy. Qed.

Lemma normalized_idem p : normalized (normalized p) = normalized p.
Proof.
  destruct p as [? ? ? ? [gen modi ? rg ? ? ?] ? [? ? push] [create ?] merge [post ?]].
  destruct push, create, merge, post, gen, modi, rg; reflexivity.
Qed.

Lemma effective_mandatory project over :
  let m := Mandatory (Project_Security project) in
  let r := Review (effective project over) in
  (Mandatory_AIReview m → Review_AIReview r) ∧
  (Mandatory_SecurityReview m → triToBool (Review_SecurityReview r)) ∧
  (Mandatory_ArchitectureReview m → triToBool (Review_ArchitectureReview r)).
Proof.
  unfold effective; destruct (NetworkLocked _ || _); cbn;
    destruct (Mandatory (Project_Security project)) as [ai s a]; cbn;
    (split_and!; [intros H; apply orb_True; tauto | apply restoreTri_on..]).
Qed.

(** The Git network actions (ADR-0008, AC-7). *)
Definition network_actions : list Action :=
  [ActPush; ActCreateChangeRequest; ActUpdateChangeRequest; ActMerge;
   ActPostMerge; ActPostMergeAutoRevert].

Lemma locked_denies prof p a :
  a ∈ network_actions → Allow (Allows (mkResolved prof (locked p)) a) = false.
Proof.
  unfold network_actions. rewrite !elem_of_cons, elem_of_nil.
  by intros [->|[->|[->|[->|[->|[->|[]]]]]]].
Qed.

Lemma effective_locked project over :
  NetworkLocked (Project_Security project) || IsNetworkLocked (Project_Profile project) = true →
  ∃ p, effective project over = locked p.
Proof. intros H. unfold effective. rewrite H. eauto. Qed.

Lemma Blocks_app vs ws : Blocks (vs ++ ws) = Blocks vs || Blocks ws.
Proof. induction vs as [|v vs IH]; simpl; [done|]. by destruct (IsBlock v). Qed.

(** [Resolve]'s blocking violations: the warnings and the normalisation notes
    never block. *)
Lemma foldl_restrictOne_Blocks l st :
  Blocks (foldl restrictOne st l).2 = Blocks st.2.
Proof.
  revert st; induction l as [|[n [x y]] l IH]; intros [p vs]; [done|].
  cbn [foldl]. rewrite IH; simpl.
  destruct (_ && _); [|done]. by rewrite Blocks_app, orb_false_r.
Qed.

Lemma mergeTri_Blocks base over name vs :
  Blocks (mergeTri base over name vs).2 = Blocks vs.
Proof.
  unfold mergeTri; repeat case_match; simpl; rewrite ?Blocks_app; simpl;
    by rewrite ?orb_false_r.
Qed.

Lemma mergeRestrict_Blocks b o vs : Blocks (mergeRestrict b o vs).2 = Blocks vs.
Proof.
  unfold mergeRestrict.
  pose proof (foldl_restrictOne_Blocks (caps b o) (b, vs)) as H1.
  destruct (foldl _ _ _) as [out vs1]; simpl in H1.
  match goal with |- context [mergeTri ?x ?y ?n vs1] =>
    pose proof (mergeTri_Blocks x y n vs1) as H2; destruct (mergeTri x y n vs1) as [s vs2] end.
  match goal with |- context [mergeTri ?x ?y ?n vs2] =>
    pose proof (mergeTri_Blocks x y n vs2) as H3; destruct (mergeTri x y n vs2) as [a vs3] end.
  simpl in *. congruence.
Qed.

Lemma enforceMandatory_Blocks p sec vs :
  Blocks (enforceMandatory p sec vs).2 = Blocks vs.
Proof.
  unfold enforceMandatory; repeat case_match; simplify_eq; simpl;
    rewrite ?Blocks_app; simpl; by rewrite ?orb_false_r.
Qed.

Lemma adjustments_Blocks adj : Blocks (adjustmentViolation <$> adj) = false.
Proof. by induction adj. Qed.

Lemma applyNetworkLock_Blocks p vs :
  Blocks (applyNetworkLock p vs).2 =
    Blocks vs || (Git_Push (Git p) || ChangeRequest_Create (ChangeRequest p) || Merge p).
Proof.
  unfold applyNetworkLock.
  destruct (Git_Push (Git p)), (ChangeRequest_Create (ChangeRequest p)), (Merge p),
    (ChangeRequest_UpdateExisting (ChangeRequest p)); cbn;
    rewrite ?Blocks_app; cbn; by rewrite ?orb_true_r, ?orb_false_r.
Qed.

(** The pipeline the network lock is applied to. *)
Definition unlocked (project : Project) (over : option Pipeline) : Pipeline :=
  normalized (mandated (Mandatory (Project_Security project))
    (match over with
     | Some o => restricted (Project_Pipeline project) o
     | None => Project_Pipeline project
     end)).

Definition isLocked (project : Project) : bool :=
  NetworkLocked (Project_Security project) || IsNetworkLocked (Project_Profile project).

(** A project "satisfies R1-R7" (§5.1, §24.2). *)
Definition wellNormalized (p : Pipeline) : Prop :=
  (¬ Git_Push (Git p) → ¬ ChangeRequest_Create (ChangeRequest p) ∧ ¬ Merge p
     ∧ ¬ PostMerge_Enabled (PostMerge p)) ∧
  (¬ Merge p → ¬ PostMerge_Enabled (PostMerge p)) ∧
  (¬ Tests_Generate (Tests p) →
     ¬ Tests_ModifyExisting (Tests p) ∧ ¬ Tests_RunGenerated (Tests p)).

Lemma normalized_well p : wellNormalized (normalized p).
Proof. unfold wellNormalized, normalized; cbn. rewrite !andb_True. tauto. Qed.

(** One adjustment per toggle forced off, in rule order. *)
Lemma Normalize_snd p :
  (Normalize p).2 = [] ↔
    normalized p = p ∧ (Merge p → ChangeRequest_Create (ChangeRequest p)).
Proof.
  destruct p as [? ? ? ? [gen modi ? rg ? ? ?] ? [? ? push] [create ?] merge [post ?]].
  destruct push, create, merge, post, gen, modi, rg; cbn; clear;
    (split; [intros H|intros [H H']]); try discriminate; try done; exfalso; by apply H'.
Qed.

(** ** Properties *)

(** C2: AC-29, restrict only.  Whatever pipeline a task override asks for, the
    policy resolved with it allows no action that the policy resolved without
    any override denies. *)
Theorem Resolve_override_only_restricts project over ui a :
  Allow (Allows (Resolve project (mkTaskContext (Some over) ui)).1 a) = true →
  Allow (Allows (Resolve project (mkTaskContext None ui)).1 a) = true.
Proof.
  rewrite !effective_allows. apply caps_le_grants_le, effective_restricts.
Qed.

Lemma Resolve_override_only_restricts_witness :
  Allow (Allows (Resolve (NewProject ProfileAutonomous)
    (mkTaskContext (Some remoteReviewDefaults) false)).1 ActPush) = true ∧
  Allow (Allows (Resolve (NewProject ProfileAutonomous)
    (mkTaskContext None false)).1 ActPush) = true.
Proof.
  split; [vm_compute; reflexivity|].
  apply (Resolve_override_only_restricts _ remoteReviewDefaults). vm_compute; reflexivity.
Defined.

(** C5: AC-7, the structural network lock.  In a project that is locked (by
    its security settings or by a LOCAL_REVIEW/PLAN_ONLY profile) no pipeline
    and no override makes any of push, change-request create or update, merge,
    post-merge or auto-revert allowed. *)
Theorem Resolve_network_lock project task a :
  isLocked project = true → a ∈ network_actions →
  Allow (Allows (Resolve project task).1 a) = false.
Proof.
  intros Hl Ha. rewrite effective_allows.
  destruct (effective_locked project (Override task) Hl) as [p ->].
  by apply locked_denies.
Qed.

Lemma Resolve_network_lock_witness :
  Allow (Allows (Resolve
    (mkProject ProfileLocalReview autonomousDefaults (mkSecurity (mkMandatory false false false) false false))
    (mkTaskContext (Some autonomousDefaults) true)).1 ActMerge) = false.
Proof.
  apply Resolve_network_lock; [reflexivity|].
  apply (bool_decide_unpack _). vm_compute; exact I.
Defined.

(** AC-29, mandatory reviews.  A review the project marks mandatory is
    allowed by the resolved policy, whatever the project's own pipeline and the
    task override say. *)
Theorem Resolve_mandatory_survives project task :
  let m := Mandatory (Project_Security project) in
  let r := (Resolve project task).1 in
  (Mandatory_AIReview m → Allow (Allows r ActAIReview)) ∧
  (Mandatory_SecurityReview m → Allow (Allows r ActSecurityReview)) ∧
  (Mandatory_ArchitectureReview m → Allow (Allows r ActArchReview)).
Proof. cbv zeta. rewrite Resolve_fst. apply effective_mandatory. Qed.

(** [Normalize] establishes rules R1-R7 (§5.1), reaches a fixed point in
    one pass (its output is its own normal form) and reports an adjustment
    exactly when it changed something or noted local-merge mode (R5). *)
Theorem Normalize_fixpoint p :
  let out := (Normalize p).1 in
  wellNormalized out ∧ (Normalize out).1 = out ∧
  ((Normalize p).2 = [] ↔ out = p ∧ (Merge p → ChangeRequest_Create (ChangeRequest p))).
Proof.
  cbv zeta. rewrite !Normalize_fst. split_and!.
  - apply normalized_well.
  - apply normalized_idem.
  - apply Normalize_snd.
Qed.

(** [Resolve] reports a blocking violation exactly when (a) the project is
    network-locked and the restricted, mandated, normalised pipeline still
    wants to push, open a change request or merge, or (b) it is not locked and
    a UI task would be auto-merged without visual verification and without the
    project's bypass. *)
Theorem Resolve_blocks_iff project task :
  let p := unlocked project (Override task) in
  Blocks (Resolve project task).2 =
    if isLocked project
    then Git_Push (Git p) || ChangeRequest_Create (ChangeRequest p) || Merge p
    else IsUI task && Merge p && negb (Design_VisualVerification (Design p))
         && negb (AllowVisualVerificationBypass (Project_Security project)).
Proof.
  cbv zeta. unfold Resolve, unlocked, isLocked.
  destruct (match Override task with Some _ => _ | None => _ end) as [eff vs] eqn:Ho.
  assert (eff = match Override task with
                | Some o => restricted (Project_Pipeline project) o
                | None => Project_Pipeline project end ∧ Blocks vs = false) as [<- Hvs].
  { destruct (Override task) as [o|]; [|by simplify_eq].
    split; [by rewrite <-(mergeRestrict_fst _ _ []), Ho|].
    pose proof (mergeRestrict_Blocks (Project_Pipeline project) o []) as H.
    by rewrite Ho in H. }
  pose proof (enforceMandatory_fst eff (Project_Security project) vs) as Hm.
  pose proof (enforceMandatory_Blocks eff (Project_Security project) vs) as Hb.
  destruct (enforceMandatory _ _ _) as [eff1 vs1]; simpl in Hm, Hb; subst eff1.
  pose proof (Normalize_fst (mandated (Mandatory (Project_Security project)) eff)) as Hn.
  destruct (Normalize _) as [eff2 adj]; simpl in Hn; subst eff2.
  set (p := normalized _).
  assert (Blocks (vs1 ++ (adjustmentViolation <$> adj)) = false) as Hvs1.
  { by rewrite Blocks_app, adjustments_Blocks, Hb, Hvs. }
  destruct (_ || _).
  - pose proof (applyNetworkLock_fst p (vs1 ++ (adjustmentViolation <$> adj))) as Hl.
    pose proof (applyNetworkLock_Blocks p (vs1 ++ (adjustmentViolation <$> adj))) as Hlb.
    destruct (applyNetworkLock _ _) as [eff3 vs3]; simpl in Hl, Hlb; subst eff3.
    rewrite Hvs1 in Hlb. replace (Merge (locked p)) with false by done.
    by rewrite andb_false_r.
  - cbn [snd fst]. destruct (_ && _); [|done]. by rewrite Blocks_app, Hvs1.
Qed.

(** [IsSkipped] reads the report of its stage, whatever the other toggles. *)
Lemma isSkippedIn_cons r l st :
  isSkippedIn (r :: l) st =
    if decide (Report_Stage r = st) then bool_decide (Report_Status r ≠ StageActive)
    else isSkippedIn l st.
Proof. simpl. by case_bool_decide; case_decide. Qed.

Lemma runTestsReport_stage p : Report_Stage (runTestsReport p) = StageRunTests.
Proof. unfold runTestsReport. by repeat case_match. Qed.
Lemma testGenReport_stage p : Report_Stage (testGenReport p) = StageTestGenerate.
Proof. unfold testGenReport. by case_match. Qed.
Lemma aiReviewReport_stage p : Report_Stage (aiReviewReport p) = StageAIReview.
Proof. unfold aiReviewReport. by case_match. Qed.
Lemma triReport_stage st act t off : Report_Stage (triReport st act t off) = st.
Proof. unfold triReport. by case_match. Qed.
Lemma deliveryReport_stage st acts on lk x y : Report_Stage (deliveryReport st acts on lk x y) = st.
Proof. unfold deliveryReport. by repeat case_match. Qed.
Lemma triReport_status st act t off :
  bool_decide (Report_Status (triReport st act t off) ≠ StageActive) = negb (triToBool t).
Proof. unfold triReport. by destruct (triToBool t). Qed.
Lemma deliveryReport_status st acts on lk x y :
  bool_decide (Report_Status (deliveryReport st acts on lk x y) ≠ StageActive) = negb on.
Proof. unfold deliveryReport. by destruct on, lk. Qed.

#[local] Hint Rewrite isSkippedIn_cons runTestsReport_stage testGenReport_stage
  aiReviewReport_stage triReport_stage deliveryReport_stage triReport_status
  deliveryReport_status : stages.

(** the stage report of a normalised policy agrees with its gates: the
    implementation, test-generation, AI-, architecture-, security-review, push,
    change-request, merge and post-merge stages are reported active exactly
    when [Allows] allows their first action.  (The run-tests stage is left out:
    it is reported skipped under tests.generate=false although existing tests
    may be run, see [StageStatus_run_tests_diverges].) *)
Theorem StageStatus_agrees_with_Allows project task st act :
  (st, act) ∈ [(StageImplementation, ActImplement); (StageTestGenerate, ActGenerateTests);
     (StageAIReview, ActAIReview); (StageArchReview, ActArchReview);
     (StageSecurityReview, ActSecurityReview); (StagePush, ActPush);
     (StageChangeRequest, ActCreateChangeRequest); (StageMerge, ActMerge);
     (StagePostMerge, ActPostMerge)] →
  let r := (Resolve project task).1 in
  IsSkipped (Resolved_StageStatus r) st = negb (Allow (Allows r act)).
Proof.
  intros H. cbv zeta. rewrite Resolve_fst.
  assert (wellNormalized (effective project (Override task))) as (HR1 & HR4 & _).
  { unfold effective. destruct (_ || _); [|apply normalized_well].
    unfold wellNormalized, locked; cbn. rewrite !andb_True. tauto. }
  set (p := effective _ _) in *.
  unfold IsSkipped, Resolved_StageStatus; cbn [Stages Resolved_Pipeline].
  rewrite !elem_of_cons, elem_of_nil in H.
  destruct H as [[= -> ->]|[[= -> ->]|[[= -> ->]|[[= -> ->]|[[= -> ->]|[[= -> ->]|
    [[= -> ->]|[[= -> ->]|[[= -> ->]|[]]]]]]]]]];
    autorewrite with stages; cbn [Report_Stage Allows Allow Resolved_Pipeline];
    repeat (rewrite decide_False by done); rewrite decide_True by done;
    autorewrite with stages; try done.
  - unfold stageBool; by destruct (Implementation p).
  - unfold testGenReport; by destruct (Tests_Generate _).
  - unfold aiReviewReport; by destruct (Review_AIReview _).
  - by destruct (Git_Push _), (ChangeRequest_Create _); cbn in HR1; try tauto.
  - by destruct (Merge _), (PostMerge_Enabled _); cbn in HR4; try tauto.
Qed.

Lemma StageStatus_agrees_with_Allows_witness :
  IsSkipped (Resolved_StageStatus
    (Resolve (NewProject ProfileRemoteReview) (mkTaskContext None false)).1) StageMerge = true.
Proof.
  rewrite (StageStatus_agrees_with_Allows _ _ StageMerge ActMerge); [vm_compute; reflexivity|].
  apply (bool_decide_unpack _). vm_compute; exact I.
Defined.

(** The run-tests stage of PLAN_ONLY: reported skipped, its action allowed. *)
Lemma StageStatus_run_tests_diverges :
  let r := (Resolve (NewProject ProfilePlanOnly) (mkTaskContext None false)).1 in
  IsSkipped (Resolved_StageStatus r) StageRunTests = true ∧
  Allow (Allows r ActRunExistingTests) = true.
Proof. vm_compute. done. Qed.

(** [IsTestPath] lower-cases the path and the convention, so the Java suffix
    [IT.java] also catches ordinary sources. *)
Lemma IsTestPath_overmatches : IsTestPath "src/main/java/Audit.java" [] = true.
Proof. vm_compute. done. Qed.

(** The changes [CheckFileChanges] must refuse. *)
Definition deniedChange (p : Pipeline) (convs : list TestPathConvention) (c : FileChange) : bool :=
  IsTestPath (FileChange_Path c) convs &&
  (negb (Tests_Generate (Tests p)) || (negb (IsNew c) && negb (Tests_ModifyExisting (Tests p)))).

Lemma CheckTestScope_denied p convs c :
  let r := CheckTestScope p (FileChange_Path c) (IsNew c) convs in
  IsTest r && negb (Allowed r) = deniedChange p convs c ∧
  ScopeCheck_Path r = FileChange_Path c.
Proof.
  unfold CheckTestScope, deniedChange.
  destruct (IsTestPath _ _), (Tests_Generate _), (IsNew c), (Tests_ModifyExisting _); done.
Qed.

Lemma checkOneChange_denied p convs st c :
  checkOneChange p convs st c =
    if deniedChange p convs c
    then (if bool_decide (ScopeCheck_Path st.1 = "")
          then CheckTestScope p (FileChange_Path c) (IsNew c) convs else st.1, (st.2 + 1)%Z)
    else st.
Proof.
  unfold checkOneChange. destruct (CheckTestScope_denied p convs c) as [Hd _].
  cbv zeta in Hd. by rewrite Hd.
Qed.

(** Once a denial is recorded, the rest of the changes are only counted. *)
Lemma CheckFileChanges_from p convs l r n :
  ScopeCheck_Path r ≠ "" →
  foldl (checkOneChange p convs) (r, n) l =
    (r, (n + Z.of_nat (length (filter (λ c, deniedChange p convs c) l)))%Z).
Proof.
  intros Hr. revert n; induction l as [|c l IH]; intros n; cbn [foldl].
  { simpl. f_equal. lia. }
  rewrite checkOneChange_denied, filter_cons; cbn [fst snd].
  rewrite bool_decide_false by done.
  destruct (deniedChange p convs c); simpl; rewrite IH; f_equal; simpl; lia.
Qed.

(** §24.2 over a change set.  [CheckFileChanges] counts exactly the denied
    test-file changes (any test path when test generation is off, an existing
    one when modification is off), reports as its first denial the verdict on
    the first of them, and reports none when there is none. *)
Theorem CheckFileChanges_exact p convs changes :
  Forall (λ c, FileChange_Path c ≠ "") changes →
  let denied := filter (λ c, deniedChange p convs c) changes in
  CheckFileChanges p changes convs =
    (match denied with
     | [] => noDenial
     | c :: _ => CheckTestScope p (FileChange_Path c) (IsNew c) convs
     end, Z.of_nat (length denied)).
Proof.
  unfold CheckFileChanges.
  induction 1 as [|c l Hne Hl IH]; cbn [foldl]; [done|]. cbv zeta in *.
  destruct (CheckTestScope_denied p convs c) as [_ Hp]; cbv zeta in Hp.
  rewrite checkOneChange_denied, filter_cons; cbn [fst snd noDenial ScopeCheck_Path].
  rewrite bool_decide_true by done.
  destruct (deniedChange p convs c); simpl; [|done].
  rewrite CheckFileChanges_from by congruence. f_equal. lia.
Qed.

Lemma CheckFileChanges_exact_witness :
  let p := planOnlyDefaults in
  let ch := [mkFileChange "a.go" true; mkFileChange "a_test.go" true;
             mkFileChange "src/test/X.java" false] in
  (CheckFileChanges p ch []).2 = 2%Z.
Proof.
  cbv zeta. rewrite CheckFileChanges_exact; [vm_compute; reflexivity|].
  repeat constructor; done.
Defined.

End policy.
