(* ===== verification/TestEngine.v ===== *)
(** * TestEngine: progressive verification (spec §24)

    Models [internal/testengine/engine.go] and [scope.go].  The [Runner] is an
    interface: a function of the request and of a state [W] of the outside
    world, which every theorem quantifies over. *)
From S2P Require Import Prelude Policy.

Module testengine.

(** [VerificationLevel] is an [int]. *)
Definition LevelSyntax : Z := 0.
Definition LevelCompile : Z := 1.
Definition LevelTargeted : Z := 2.
Definition LevelModule : Z := 3.
Definition LevelFull : Z := 4.

Definition VerificationLevel_String (l : Z) : string :=
  if (l =? LevelSyntax)%Z then "syntax"
  else if (l =? LevelCompile)%Z then "compile"
  else if (l =? LevelTargeted)%Z then "targeted"
  else if (l =? LevelModule)%Z then "module"
  else if (l =? LevelFull)%Z then "full"
  else "unknown".

(** A Go string type: [StatusEmpty] is the zero value [""], which a runner may
    leave, [StatusOther] any other string. *)
Inductive VerificationStatus :=
| StatusPassed | StatusFailed | StatusSkipped | StatusNotRun
| StatusEmpty | StatusOther (s : string).
#[global] Instance VerificationStatus_eq_dec : EqDecision VerificationStatus.
Proof. solve_decision. Defined.

Record TestFailure := mkTestFailure {
  TestName : string;
  Package : string;
  Message : string;
  File : string;
  Line : Z }.

Record Result := mkResult {
  Level : Z;
  Status : VerificationStatus;
  Passed : Z;
  Failed : Z;
  Skipped : Z;
  Result_Duration : Duration;
  Failures : list TestFailure;
  SlicedOutput : string;
  LogPath : string }.

(** [Result{Level: lvl, Status: st}]. *)
Definition bareResult (lvl : Z) (st : VerificationStatus) : Result :=
  mkResult lvl st 0 0 0 0 [] "" "".

(** [HighestCompletedLevel] starts at the zero value [LevelSyntax]. *)
Record Summary := mkSummary {
  Results : list Result;
  HighestCompletedLevel : Z;
  TestsWereRun : bool }.

Definition zeroSummary : Summary := mkSummary [] 0 false.

Definition OverallStatus (s : Summary) : VerificationStatus :=
  match Results s with
  | [] => StatusSkipped
  | rs =>
      if existsb (λ r, bool_decide (Status r = StatusFailed)) rs then StatusFailed
      else if forallb (λ r, bool_decide (Status r = StatusSkipped)
                            || bool_decide (Status r = StatusNotRun)) rs
           then StatusSkipped else StatusPassed
  end.

Definition HasTestFailures (s : Summary) : bool :=
  existsb (λ r, (0 <? Failed r)%Z) (Results s).

Record RunRequest := mkRunRequest {
  RunRequest_Level : Z;
  WorkspacePath : string;
  ChangedFiles : list string;
  RunRequest_Module : string;
  RetryPackages : list string }.

Record VerifyInput := mkVerifyInput {
  VerifyInput_Policy : policy.Resolved;
  VerifyInput_ChangedFiles : list policy.FileChange;
  MaxLevel : Z }.

Definition pathsOnly (changes : list policy.FileChange) : list string :=
  policy.FileChange_Path <$> changes.

(** [in.ChangedFilesPath()] is the empty string whatever the changes. *)
Definition ChangedFilesPath (i : VerifyInput) : string := "".

Definition shouldRunLevel (lvl : Z) (p : policy.Pipeline) : bool :=
  let t := policy.Tests p in
  if (lvl =? LevelSyntax)%Z || (lvl =? LevelCompile)%Z then true
  else if (lvl =? LevelTargeted)%Z || (lvl =? LevelModule)%Z || (lvl =? LevelFull)%Z
  then policy.Tests_RunExisting t
       || (policy.Tests_RunGenerated t && policy.Tests_Generate t)
  else false.

(** The levels [lvl := LevelSyntax; lvl <= maxLevel; lvl++] visits. *)
Definition levelsUpTo (maxLevel : Z) : list Z :=
  Z.of_nat <$> seq 0 (Z.to_nat (maxLevel + 1)).

Definition notRun (deeper : list Z) : list Result :=
  (λ l, bareResult l StatusNotRun) <$> deeper.

Definition setLevelStatus (r : Result) (lvl : Z) : Result :=
  let st := if bool_decide (Status r = StatusEmpty) then StatusPassed else Status r in
  mkResult lvl st (Passed r) (Failed r) (Skipped r) (Result_Duration r)
    (Failures r) (SlicedOutput r) (LogPath r).

Section engine.
  Context {W : Type}.

  (** [Runner.Run]: a result or an error, and the world after the call. *)
  Variable Run : RunRequest → W → result string Result * W.

Definition request (i : VerifyInput) (lvl : Z) : RunRequest :=
    mkRunRequest lvl (ChangedFilesPath i) (pathsOnly (VerifyInput_ChangedFiles i)) "" [].

(** The level loop of [Verify] over the levels still to visit. *)
Fixpoint verifyLevels (i : VerifyInput) (lvls : list Z) (s : Summary) (w : W) :
    (Summary * option string) * W :=
  match lvls with
  | [] => ((s, None), w)
  | lvl :: deeper =>
      if negb (shouldRunLevel lvl (policy.Resolved_Pipeline (VerifyInput_Policy i))) then
        verifyLevels i deeper
          (mkSummary (Results s ++ [bareResult lvl StatusSkipped])
             (HighestCompletedLevel s) (TestsWereRun s)) w
      else
        let '(out, w) := Run (request i lvl) w in
        match out with
        | Err e => ((s, Some ("testengine: level " +:+ VerificationLevel_String lvl
                              +:+ ": " +:+ e)), w)
        | Ok r =>
            let r := setLevelStatus r lvl in
            let rs := Results s ++ [r] in
            if bool_decide (Status r = StatusPassed) then
              verifyLevels i deeper
                (mkSummary rs lvl (TestsWereRun s || (LevelTargeted <=? lvl)%Z)) w
            else if bool_decide (Status r = StatusFailed) then
              ((mkSummary (rs ++ notRun deeper) (HighestCompletedLevel s)
                  (TestsWereRun s || (LevelTargeted <=? lvl)%Z), None), w)
            else
              verifyLevels i deeper
                (mkSummary rs (HighestCompletedLevel s) (TestsWereRun s)) w
        end
  end.

(** The loop of [runNoTestLevels]: syntax and compile only. *)
Fixpoint noTestLevels (i : VerifyInput) (lvls : list Z) (s : Summary) (w : W) : Summary * W :=
  match lvls with
  | [] => (s, w)
  | lvl :: deeper =>
      if (LevelTargeted <=? lvl)%Z then
        noTestLevels i deeper
          (mkSummary (Results s ++ [bareResult lvl StatusSkipped])
             (HighestCompletedLevel s) (TestsWereRun s)) w
      else
        let '(out, w) := Run (request i lvl) w in
        let r := match out with
                 | Ok r => r
                 | Err e => mkResult lvl StatusFailed 0 0 0 0 [] e ""
                 end in
        let r := setLevelStatus r lvl in
        let rs := Results s ++ [r] in
        if bool_decide (Status r = StatusPassed)
        then noTestLevels i deeper (mkSummary rs lvl (TestsWereRun s)) w
        else (mkSummary (rs ++ notRun deeper) (HighestCompletedLevel s) (TestsWereRun s), w)
  end.

Definition runNoTestLevels (i : VerifyInput) (maxLevel : Z) (w : W) : Summary * W :=
  noTestLevels i (levelsUpTo maxLevel) zeroSummary w.

Definition testsEnabled (p : policy.Pipeline) : bool :=
  policy.Tests_RunExisting (policy.Tests p)
  || (policy.Tests_RunGenerated (policy.Tests p) && policy.Tests_Generate (policy.Tests p)).

Definition maxLevelOf (i : VerifyInput) : Z :=
  if (MaxLevel i =? 0)%Z then LevelFull else MaxLevel i.

Definition Verify (i : VerifyInput) (w : W) : (Summary * option string) * W :=
  if negb (testsEnabled (policy.Resolved_Pipeline (VerifyInput_Policy i))) then
    let '(s, w) := runNoTestLevels i (maxLevelOf i) w in ((s, None), w)
  else verifyLevels i (levelsUpTo (maxLevelOf i)) zeroSummary w.

End engine.

(** ** scope.go *)

Record ScopeViolation := mkScopeViolation {
  Path : string;
  Code : string;
  Reason : string;
  Changes : Z }.

Definition ScopeViolation_Error (v : ScopeViolation) : string :=
  "scope violation: " +:+ Path v +:+ " (" +:+ Code v +:+ "): " +:+ Reason v.

(** [ScopeValidator.Validate]: [None] is the nil error. *)
Definition Validate (p : policy.Pipeline) (convs : list policy.TestPathConvention)
    (changes : list policy.FileChange) : option ScopeViolation :=
  let '(r, denied) := policy.CheckFileChanges p changes convs in
  if (denied =? 0)%Z then None
  else Some (mkScopeViolation (policy.ScopeCheck_Path r) (policy.DenialCode r)
               (policy.ScopeCheck_Reason r) denied).

(** ** Lemmas *)

(** Level [l]'s result is a test that ran: targeted or deeper, passed or failed. *)
Definition testRan (r : Result) : bool :=
  (LevelTargeted <=? Level r)%Z
  && (bool_decide (Status r = StatusPassed) || bool_decide (Status r = StatusFailed)).

(** Nothing follows a failed level but levels marked not run. *)
Fixpoint cutAtFailure (rs : list Result) : Prop :=
  match rs with
  | [] => True
  | r :: rs =>
      if bool_decide (Status r = StatusFailed)
      then Forall (λ r, Status r = StatusNotRun) rs
      else cutAtFailure rs
  end.

(** The part of a run's result the gates rely on, from summary [s] on. *)
Record well_run (lvls : list Z) (s : Summary) : Prop := {
  wr_levels : Level <$> Results s = lvls;
  wr_tests : TestsWereRun s = existsb testRan (Results s);
  wr_cut : cutAtFailure (Results s) }.

Definition no_failure (rs : list Result) : Prop :=
  Forall (λ r, Status r ≠ StatusFailed) rs.

Lemma cutAtFailure_app rs rs' :
  no_failure rs → cutAtFailure (rs ++ rs') ↔ cutAtFailure rs'.
Proof. induction 1; simpl; [done|]. by rewrite bool_decide_false. Qed.

Lemma cutAtFailure_no_failure rs : no_failure rs → cutAtFailure rs.
Proof. intros H. rewrite <-(app_nil_r rs). by rewrite cutAtFailure_app. Qed.

Lemma existsb_testRan_snoc rs r :
  existsb testRan (rs ++ [r]) = existsb testRan rs || testRan r.
Proof. by rewrite existsb_app; simpl; rewrite orb_false_r. Qed.

Lemma notRun_no_tests ls : existsb testRan (notRun ls) = false.
Proof.
  induction ls as [|l ls IH]; [done|]. simpl. rewrite IH, orb_false_r.
  unfold testRan, bareResult; simpl. by rewrite andb_false_r.
Qed.

Lemma notRun_levels ls : Level <$> notRun ls = ls.
Proof. induction ls; simpl; by f_equal. Qed.

Lemma notRun_status ls : Forall (λ r, Status r = StatusNotRun) (notRun ls).
Proof. induction ls; constructor; done. Qed.

(** A new result [r] at level [l] that is not a failure keeps the run well. *)
Lemma well_run_snoc done_ s l r h t :
  well_run done_ s → no_failure (Results s) → Level r = l → Status r ≠ StatusFailed →
  t = TestsWereRun s || testRan r →
  well_run (done_ ++ [l]) (mkSummary (Results s ++ [r]) h t) ∧
  no_failure (Results s ++ [r]).
Proof.
  intros [Hl Ht Hc] Hnf Hr Hst ->.
  assert (no_failure (Results s ++ [r])) as Hnf'.
  { apply Forall_app; split; [done|]. by constructor. }
  split; [|done]. split; simpl.
  - by rewrite fmap_app, Hl; simpl; rewrite Hr.
  - by rewrite existsb_testRan_snoc, Ht.
  - by apply cutAtFailure_no_failure.
Qed.

(** A failed result [r] followed by the levels not run. *)
Lemma well_run_fail done_ s l r ls h t :
  well_run done_ s → no_failure (Results s) → Level r = l → Status r = StatusFailed →
  t = TestsWereRun s || testRan r →
  well_run (done_ ++ l :: ls) (mkSummary ((Results s ++ [r]) ++ notRun ls) h t).
Proof.
  intros [Hl Ht Hc] Hnf Hr Hst ->. split; simpl.
  - by rewrite !fmap_app, Hl, notRun_levels, <-app_assoc; simpl; rewrite Hr.
  - by rewrite existsb_app, notRun_no_tests, orb_false_r, existsb_testRan_snoc, Ht.
  - rewrite <-app_assoc, cutAtFailure_app by done. simpl.
    rewrite bool_decide_true by done. apply notRun_status.
Qed.

Lemma testRan_skipped l : testRan (bareResult l StatusSkipped) = false.
Proof. unfold testRan; simpl. by rewrite andb_false_r. Qed.

Lemma testRan_status r l st :
  Status (setLevelStatus r l) = st →
  testRan (setLevelStatus r l) =
    (LevelTargeted <=? l)%Z && (bool_decide (st = StatusPassed) || bool_decide (st = StatusFailed)).
Proof. intros <-. done. Qed.

Section runs.
  Context {W : Type} (Run : RunRequest → W → result string Result * W).

Lemma verifyLevels_well i lvls done_ s w s' w' :
  well_run done_ s → no_failure (Results s) →
  verifyLevels Run i lvls s w = ((s', None), w') →
  well_run (done_ ++ lvls) s'.
Proof.
  revert done_ s w. induction lvls as [|l ls IH]; intros done_ s w Hwr Hnf H; cbn [verifyLevels] in H.
  { simplify_eq. by rewrite app_nil_r. }
  rewrite cons_middle, app_assoc.
  destruct (negb _).
  - destruct (well_run_snoc done_ s l (bareResult l StatusSkipped)
      (HighestCompletedLevel s) (TestsWereRun s)) as [Hw Hn]; try done.
    { by rewrite testRan_skipped, orb_false_r. }
    by apply (IH _ _ _ Hw Hn) in H.
  - destruct (Run _ w) as [[r|e] w1]; [|done].
    case_bool_decide as Hp; [|case_bool_decide as Hf].
    + destruct (well_run_snoc done_ s l (setLevelStatus r l) l
        (TestsWereRun s || (LevelTargeted <=? l)%Z)) as [Hw Hn]; try done.
      { congruence. }
      { rewrite (testRan_status _ _ _ Hp). simpl. by rewrite andb_true_r. }
      by apply (IH _ _ _ Hw Hn) in H.
    + simplify_eq. rewrite <-app_assoc. simpl. eapply well_run_fail; try done.
      rewrite (testRan_status _ _ _ Hf). simpl. by rewrite andb_true_r.
    + destruct (well_run_snoc done_ s l (setLevelStatus r l)
        (HighestCompletedLevel s) (TestsWereRun s)) as [Hw Hn]; try done.
      { rewrite (testRan_status r l _ eq_refl), bool_decide_false, bool_decide_false by done.
        by rewrite andb_false_r, orb_false_r. }
      by apply (IH _ _ _ Hw Hn) in H.
Qed.
End runs.

(** What an overall "passed" with tests run tells: some targeted-or-deeper level
    passed and no level failed. *)
Lemma OverallStatus_passed s :
  OverallStatus s = StatusPassed → no_failure (Results s).
Proof.
  unfold OverallStatus, no_failure. destruct (Results s) as [|r rs]; [done|].
  destruct (existsb _ _) eqn:E; [done|]. intros _.
  apply Forall_forall. intros x Hx Hst. apply not_true_iff_false in E. apply E.
  apply existsb_exists. exists x. split; [by apply list_elem_of_In|].
  by apply bool_decide_eq_true.
Qed.

Lemma OverallStatus_tests_passed s :
  TestsWereRun s = existsb testRan (Results s) → TestsWereRun s = true →
  OverallStatus s = StatusPassed →
  ∃ r, r ∈ Results s ∧ (LevelTargeted ≤ Level r)%Z ∧ Status r = StatusPassed.
Proof.
  intros Hrun Ht Hov. apply OverallStatus_passed in Hov.
  rewrite Hrun in Ht. apply existsb_exists in Ht as (r & Hin & Hr).
  apply list_elem_of_In in Hin. exists r. split; [done|].
  unfold testRan in Hr. apply andb_true_iff in Hr as [Hl Hst].
  split; [by apply Z.leb_le|].
  apply orb_true_iff in Hst as [Hst|Hst]; apply bool_decide_eq_true in Hst; [done|].
  unfold no_failure in Hov. rewrite Forall_forall in Hov. by destruct (Hov r Hin).
Qed.

Lemma noTestLevels_no_tests {W} (Run : RunRequest → W → result string Result * W) i lvls s w :
  TestsWereRun (noTestLevels Run i lvls s w).1 = TestsWereRun s.
Proof.
  revert s w; induction lvls as [|l ls IH]; intros s w; cbn [noTestLevels]; [done|].
  destruct (_ <=? l)%Z; [by rewrite IH|].
  destruct (Run _ w) as [out w1]. case_bool_decide; [by rewrite IH|done].
Qed.

(** Whatever the runner answers, no test counts as run when the toggles are off. *)
Lemma Verify_disabled_no_tests {W} (Run : RunRequest → W → result string Result * W) i w :
  testsEnabled (policy.Resolved_Pipeline (VerifyInput_Policy i)) = false →
  TestsWereRun (Verify Run i w).1.1 = false ∧ (Verify Run i w).1.2 = None.
Proof.
  intros H. unfold Verify. rewrite H. simpl.
  destruct (runNoTestLevels Run i (maxLevelOf i) w) as [s w'] eqn:E. simpl.
  split; [|done]. unfold runNoTestLevels in E.
  pose proof (noTestLevels_no_tests Run i (levelsUpTo (maxLevelOf i)) zeroSummary w) as Hn.
  by rewrite E in Hn.
Qed.

(** In every error-free run [TestsWereRun] reflects the results. *)
Lemma Verify_tests_run {W} (Run : RunRequest → W → result string Result * W) i w s w' :
  Verify Run i w = ((s, None), w') → TestsWereRun s = true →
  TestsWereRun s = existsb testRan (Results s).
Proof.
  intros H Ht. destruct (testsEnabled (policy.Resolved_Pipeline (VerifyInput_Policy i))) eqn:E.
  - unfold Verify in H. rewrite E in H. simpl in H.
    apply (verifyLevels_well Run i _ [] zeroSummary w) in H as [? ? ?]; done || by constructor.
  - destruct (Verify_disabled_no_tests Run i w E) as [Hn _]. rewrite H in Hn. simpl in Hn.
    congruence.
Qed.

(** ** Properties *)

(** C16: progressive verification (§24.3), for every runner.  When [Verify]
    returns without error under enabled tests, the summary has one result per
    level from syntax to the cap, in order; every level after a failed one is
    marked not run; and [TestsWereRun] says exactly whether a targeted-or-deeper
    level was executed to a pass or a failure. *)
Theorem Verify_progressive {W} (Run : RunRequest → W → result string Result * W) i w s w' :
  testsEnabled (policy.Resolved_Pipeline (VerifyInput_Policy i)) = true →
  Verify Run i w = ((s, None), w') →
  Level <$> Results s = levelsUpTo (maxLevelOf i) ∧
  cutAtFailure (Results s) ∧
  TestsWereRun s = existsb testRan (Results s).
Proof.
  unfold Verify. intros -> H. simpl in H.
  apply (verifyLevels_well Run i _ [] zeroSummary w) in H as [? ? ?]; done || by constructor.
Qed.

(** A runner that counts its calls and fails at the targeted level. *)
Definition failingRunner (r : RunRequest) (n : nat) : result string Result * nat :=
  (Ok (bareResult 0 (if (RunRequest_Level r =? LevelTargeted)%Z
                     then StatusFailed else StatusEmpty)), S n).

Definition localInput : VerifyInput :=
  mkVerifyInput (policy.mkResolved policy.ProfileLocalReview policy.localReviewDefaults) [] 0.

Lemma Verify_progressive_witness :
  let s := (Verify failingRunner localInput 0).1.1 in
  Status <$> Results s =
    [StatusPassed; StatusPassed; StatusFailed; StatusNotRun; StatusNotRun] ∧
  (Verify failingRunner localInput 0).2 = 3 ∧
  Level <$> Results s = [0; 1; 2; 3; 4]%Z ∧ cutAtFailure (Results s) ∧
  TestsWereRun s = existsb testRan (Results s).
Proof.
  cbv zeta. split; [vm_compute; reflexivity|]. split; [vm_compute; reflexivity|].
  apply (Verify_progressive failingRunner localInput 0 _ 3); vm_compute; reflexivity.
Defined.

(** [HighestCompletedLevel] is documented as -1 when no level passed; the code
    leaves the zero value, [LevelSyntax]. *)
Lemma HighestCompletedLevel_never_minus_one :
  let s := (Verify (λ _ (_ : unit), (Ok (bareResult 0 StatusFailed), ())) localInput ()).1.1 in
  Status <$> head (Results s) = Some StatusFailed ∧ HighestCompletedLevel s = LevelSyntax.
Proof. vm_compute. done. Qed.

(** With tests switched off the overall status is "passed" (syntax and compile
    passed), where the comment of [Verify] promises [StatusSkipped]. *)
Lemma Verify_disabled_reports_passed :
  let off := policy.set_Tests (policy.mkTests false false false false true false true)
               policy.localReviewDefaults in
  let s := (Verify (λ _ (_ : unit), (Ok (bareResult 0 StatusEmpty), ()))
              (mkVerifyInput (policy.mkResolved policy.ProfileLocalReview off) [] 0) ()).1.1 in
  OverallStatus s = StatusPassed ∧ TestsWereRun s = false.
Proof. vm_compute. done. Qed.

End testengine.
