(* ===== verification/Review.v ===== *)
(** * Review: the review roles and their verdict (spec §25)

    Models [internal/review/engine.go].  The [Reviewer] is an interface: a
    function of the role, the request and a state [W] of the outside world. *)
From S2P Require Import Prelude Policy.

Module review.

Inductive Role := RoleCorrectness | RoleArchitecture | RoleSecurity | RoleOther (s : string).
#[global] Instance Role_eq_dec : EqDecision Role.
Proof. solve_decision. Defined.

Definition Role_String (r : Role) : string :=
  match r with
  | RoleCorrectness => "correctness"
  | RoleArchitecture => "architecture"
  | RoleSecurity => "security"
  | RoleOther s => s
  end.

Inductive Severity :=
| SeverityInfo | SeverityMinor | SeverityMajor | SeverityBlocker | SeverityOther (s : string).
#[global] Instance Severity_eq_dec : EqDecision Severity.
Proof. solve_decision. Defined.

Definition Severity_String (s : Severity) : string :=
  match s with
  | SeverityInfo => "info"
  | SeverityMinor => "minor"
  | SeverityMajor => "major"
  | SeverityBlocker => "blocker"
  | SeverityOther s => s
  end.

Record Finding := mkFinding {
  Finding_Role : Role;
  Finding_Severity : Severity;
  Title : string;
  Description : string;
  File : string;
  Line : Z;
  Remediation : string }.

Definition IsBlocker (f : Finding) : bool :=
  bool_decide (Finding_Severity f = SeverityBlocker).
Definition IsMajorOrWorse (f : Finding) : bool :=
  bool_decide (Finding_Severity f = SeverityMajor)
  || bool_decide (Finding_Severity f = SeverityBlocker).

Record ReviewRequest := mkReviewRequest {
  Diff : string;
  ChangedFiles : list string;
  Context : string }.

Record Result := mkResult {
  Findings : list Finding;
  RolesRun : list Role;
  RolesSkipped : list Role }.

Inductive Status := StatusApproved | StatusChangesRequested | StatusSkipped.
#[global] Instance Status_eq_dec : EqDecision Status.
Proof. solve_decision. Defined.

Definition OverallStatus (r : Result) : Status :=
  match RolesRun r with
  | [] => StatusSkipped
  | _ => if existsb IsMajorOrWorse (Findings r) then StatusChangesRequested
         else StatusApproved
  end.

Fixpoint countIf {A} (p : A → bool) (l : list A) : Z :=
  match l with
  | [] => 0
  | x :: l => ((if p x then 1 else 0) + countIf p l)%Z
  end.

Definition BlockerCount (r : Result) : Z := countIf IsBlocker (Findings r).
Definition MajorCount (r : Result) : Z :=
  countIf (λ f, bool_decide (Finding_Severity f = SeverityMajor)) (Findings r).
Definition HasFindings (r : Result) : bool :=
  match Findings r with [] => false | _ => true end.
Definition IsReviewed (r : Result) : bool :=
  match RolesRun r with [] => false | _ => true end.
Definition Label (r : Result) : string :=
  if IsReviewed r then "REVIEWED" else "NOT AI-REVIEWED".

Definition triEnabled (t : policy.TriState) : bool := bool_decide (t ≠ policy.TriOff).

(** The [roles] table of [Engine.Run]. *)
Definition roles (p : policy.Pipeline) : list (Role * bool) :=
  let r := policy.Review p in
  [ (RoleCorrectness, policy.Review_AIReview r);
    (RoleArchitecture, triEnabled (policy.Review_ArchitectureReview r));
    (RoleSecurity, triEnabled (policy.Review_SecurityReview r)) ].

Section engine.
  Context {W Er : Type}.
  (** [Reviewer.Review], with the errors of the implementation. *)
  Variable Review : Role → ReviewRequest → W → result Er (list Finding) * W.

(** The error of a role is [fmt.Errorf("review: role %s: %w", role, err)]. *)
Fixpoint runRoles (req : ReviewRequest) (rs : list (Role * bool)) (res : Result) (w : W) :
    (Result * option (Role * Er)) * W :=
  match rs with
  | [] => ((res, None), w)
  | (role, on) :: rs =>
      if negb on then
        runRoles req rs
          (mkResult (Findings res) (RolesRun res) (RolesSkipped res ++ [role])) w
      else
        let '(out, w) := Review role req w in
        match out with
        | Err e => ((res, Some (role, e)), w)
        | Ok findings =>
            runRoles req rs
              (mkResult (Findings res ++ findings) (RolesRun res ++ [role]) (RolesSkipped res)) w
        end
  end.

Definition Run (resolved : policy.Resolved) (req : ReviewRequest) (w : W) :
    (Result * option (Role * Er)) * W :=
  runRoles req (roles (policy.Resolved_Pipeline resolved)) (mkResult [] [] []) w.

End engine.

(** ** Lemmas *)

Lemma countIf_zero {A} (p : A → bool) l :
  countIf p l = 0%Z ↔ Forall (λ x, p x = false) l.
Proof.
  assert (∀ l, (0 ≤ countIf p l)%Z) as Hpos.
  { induction l0; simpl; [done|]. destruct (p a); lia. }
  induction l as [|x l IH]; simpl; [by split|].
  rewrite Forall_cons, <-IH. specialize (Hpos l). destruct (p x); split; try lia.
  all: intros [? ?]; try done; lia.
Qed.

Lemma runRoles_ok {W Er} (Review : Role → ReviewRequest → W → result Er (list Finding) * W)
    req rs res w res' w' :
  runRoles Review req rs res w = ((res', None), w') →
  RolesRun res' = RolesRun res ++ (filter (λ r, r.2 = true) rs).*1 ∧
  RolesSkipped res' = RolesSkipped res ++ (filter (λ r, r.2 = false) rs).*1.
Proof.
  revert res w; induction rs as [|[role on] rs IH]; intros res w H; cbn [runRoles] in H.
  { simplify_eq. by rewrite !app_nil_r. }
  rewrite !filter_cons. destruct on; simpl in *.
  - destruct (Review role req w) as [[fs|e] w1]; [|done].
    apply IH in H as [-> ->]. simpl. by rewrite <-app_assoc.
  - apply IH in H as [-> ->]. simpl. by rewrite <-app_assoc.
Qed.

Lemma role_on_runs role (rs : list (Role * bool)) :
  (role, true) ∈ rs → role ∈ (filter (λ r, r.2 = true) rs).*1.
Proof.
  intros H. apply list_elem_of_fmap. exists (role, true). split; [done|].
  by apply list_elem_of_filter.
Qed.

(** The roles whose review is mandatory for the project are on, whatever the override. *)
Lemma mandatory_on project task :
  let m := policy.Mandatory (policy.Project_Security project) in
  let rs := roles (policy.Resolved_Pipeline (policy.Resolve project task).1) in
  (policy.Mandatory_AIReview m → (RoleCorrectness, true) ∈ rs) ∧
  (policy.Mandatory_ArchitectureReview m → (RoleArchitecture, true) ∈ rs) ∧
  (policy.Mandatory_SecurityReview m → (RoleSecurity, true) ∈ rs).
Proof.
  cbv zeta. rewrite policy.Resolve_fst; cbn [policy.Resolved_Pipeline].
  destruct (policy.effective_mandatory project (policy.Override task)) as (H1 & H2 & H3).
  split_and!; intros Hm; unfold roles.
  - apply H1 in Hm. rewrite (Is_true_true_1 _ Hm). left.
  - apply H3 in Hm. rewrite (Is_true_true_1 _ Hm : triEnabled _ = true). right; left.
  - apply H2 in Hm. rewrite (Is_true_true_1 _ Hm : triEnabled _ = true). right; right; left.
Qed.

(** ** Properties *)

(** C9: the review pass (§25, AC-29), for every reviewer.  A pass that ends
    without error ran exactly the roles the resolved policy allows, in the order
    correctness, architecture, security, and recorded every other as skipped;
    so a role whose review is mandatory for the project always ran, whatever
    the task override. *)
Theorem Run_mandatory_roles {W Er}
    (Review : Role → ReviewRequest → W → result Er (list Finding) * W)
    project task req w res w' :
  let resolved := (policy.Resolve project task).1 in
  let m := policy.Mandatory (policy.Project_Security project) in
  Run Review resolved req w = ((res, None), w') →
  RolesRun res = (filter (λ r, r.2 = true) (roles (policy.Resolved_Pipeline resolved))).*1 ∧
  RolesSkipped res = (filter (λ r, r.2 = false) (roles (policy.Resolved_Pipeline resolved))).*1 ∧
  (policy.Mandatory_AIReview m → RoleCorrectness ∈ RolesRun res) ∧
  (policy.Mandatory_ArchitectureReview m → RoleArchitecture ∈ RolesRun res) ∧
  (policy.Mandatory_SecurityReview m → RoleSecurity ∈ RolesRun res).
Proof.
  cbv zeta. unfold Run. intros H. apply runRoles_ok in H as [-> ->].
  destruct (mandatory_on project task) as (H1 & H2 & H3).
  split_and!; [done..| | |]; intros Hm; apply role_on_runs; auto.
Qed.

(** A project whose security review is mandatory, and an override that turns
    every review off. *)
Definition secureProject : policy.Project :=
  policy.mkProject policy.ProfileAutonomous policy.autonomousDefaults
    (policy.mkSecurity (policy.mkMandatory false true false) false false).
Definition reviewsOff : policy.TaskContext :=
  policy.mkTaskContext (Some (policy.set_Review
    (policy.mkReview false policy.TriOff policy.TriOff) policy.autonomousDefaults)) false.
Definition countingReviewer (_ : Role) (_ : ReviewRequest) (n : nat) :
    result string (list Finding) * nat := (Ok [], S n).

Lemma Run_mandatory_roles_witness :
  let out := Run countingReviewer (policy.Resolve secureProject reviewsOff).1
    (mkReviewRequest "" [] "") 0 in
  out.2 = 1 ∧ RoleSecurity ∈ RolesRun out.1.1.
Proof.
  cbv zeta. split; [vm_compute; reflexivity|].
  destruct (Run_mandatory_roles countingReviewer secureProject reviewsOff
    (mkReviewRequest "" [] "") 0
    (Run countingReviewer (policy.Resolve secureProject reviewsOff).1
       (mkReviewRequest "" [] "") 0).1.1 1) as (_ & _ & _ & _ & H).
  - vm_compute; reflexivity.
  - exact (H I).
Defined.

End review.
