(* ===== verification/Evidence.v ===== *)
(** * Evidence: acceptance evidence and its confidence (spec §27)

    Models [internal/evidence/evidence.go].  The Go map of [byCriterion] is a
    [gmap]; its walk order is the one of [map_to_list], and the results do not
    depend on it. *)
From S2P Require Import Prelude.

Module evidence.

Inductive EvidenceType :=
| EvidenceTest | EvidenceVisual | EvidenceStatic | EvidenceManual | EvidenceReview
| EvidenceOther (s : string).
#[global] Instance EvidenceType_eq_dec : EqDecision EvidenceType.
Proof. solve_decision. Defined.

Definition EvidenceType_String (t : EvidenceType) : string :=
  match t with
  | EvidenceTest => "test"
  | EvidenceVisual => "visual"
  | EvidenceStatic => "static"
  | EvidenceManual => "manual"
  | EvidenceReview => "review"
  | EvidenceOther s => s
  end.

Inductive Confidence :=
| ConfidenceHigh | ConfidenceMedium | ConfidenceLow | ConfidenceNone
| ConfidenceOther (s : string).
#[global] Instance Confidence_eq_dec : EqDecision Confidence.
Proof. solve_decision. Defined.

Definition Confidence_String (c : Confidence) : string :=
  match c with
  | ConfidenceHigh => "high"
  | ConfidenceMedium => "medium"
  | ConfidenceLow => "low"
  | ConfidenceNone => "none"
  | ConfidenceOther s => s
  end.

Record Evidence := mkEvidence {
  CriterionID : string;
  Type_ : EvidenceType;
  Reference : string;
  Status : string;
  Confidence_ : Confidence;
  TestsWereRun : bool }.

(** [type Set struct]. *)
Record EvidenceSet := mkSet { Items : list Evidence }.

Definition Add (s : EvidenceSet) (e : Evidence) : EvidenceSet := mkSet (Items s ++ [e]).

Definition passed (e : Evidence) : bool := bool_decide (Status e = "passed").

Definition addToCriterion (m : gmap string (list Evidence)) (e : Evidence) :
    gmap string (list Evidence) :=
  <[CriterionID e := default [] (m !! CriterionID e) ++ [e]]> m.

Definition byCriterion (s : EvidenceSet) : gmap string (list Evidence) :=
  foldl addToCriterion ∅ (Items s).

Definition IsComplete (s : EvidenceSet) : bool :=
  match Items s with
  | [] => false
  | _ => forallb (λ kv, existsb passed kv.2) (map_to_list (byCriterion s))
  end.

Definition MissingCriteria (s : EvidenceSet) : list string :=
  sortStrings ((filter (λ kv, existsb passed kv.2 = false)
                  (map_to_list (byCriterion s))).*1).

Definition rankConfidence (c : Confidence) : Z :=
  match c with
  | ConfidenceHigh => 4
  | ConfidenceMedium => 3
  | ConfidenceLow => 2
  | ConfidenceNone => 1
  | ConfidenceOther _ => 0
  end.

Definition lowerOf (lowest : Confidence) (e : Evidence) : Confidence :=
  if (rankConfidence (Confidence_ e) <? rankConfidence lowest)%Z
  then Confidence_ e else lowest.

Definition AggregateConfidence (s : EvidenceSet) : Confidence :=
  match Items s with
  | [] => ConfidenceNone
  | es => foldl lowerOf ConfidenceHigh es
  end.

Definition HasTestEvidence (s : EvidenceSet) : bool :=
  existsb (λ e, bool_decide (Type_ e = EvidenceTest) && passed e) (Items s).

(** The clone of one item: high confidence without a test run becomes low. *)
Definition lowerOne (e : Evidence) : Evidence :=
  if negb (TestsWereRun e) && bool_decide (Confidence_ e = ConfidenceHigh)
  then mkEvidence (CriterionID e) (Type_ e) (Reference e) (Status e)
         ConfidenceLow (TestsWereRun e)
  else e.

Definition LowerForDisabledTests (s : EvidenceSet) : EvidenceSet :=
  foldl (λ out e, Add out (lowerOne e)) (mkSet []) (Items s).

(** ** Lemmas *)

Lemma byCriterion_from es m id :
  foldl addToCriterion m es !! id =
    match filter (λ e, CriterionID e = id) es with
    | [] => m !! id
    | l => Some (default [] (m !! id) ++ l)
    end.
Proof.
  revert m; induction es as [|e es IH]; intros m; simpl; [done|].
  rewrite IH, filter_cons. unfold addToCriterion. case_decide as Hid.
  - subst id. rewrite lookup_insert_eq. simpl.
    destruct (filter _ es); [done|]. by rewrite <-app_assoc.
  - by rewrite lookup_insert_ne.
Qed.

Lemma byCriterion_lookup s id l :
  byCriterion s !! id = Some l ↔ l ≠ [] ∧ l = filter (λ e, CriterionID e = id) (Items s).
Proof.
  unfold byCriterion. rewrite byCriterion_from, lookup_empty; simpl.
  destruct (filter _ _) eqn:E; split; intros H; naive_solver.
Qed.

Lemma byCriterion_passed s id l :
  byCriterion s !! id = Some l →
  existsb passed l = true ↔ ∃ e, e ∈ Items s ∧ CriterionID e = id ∧ Status e = "passed".
Proof.
  rewrite byCriterion_lookup. intros [_ ->]. rewrite existsb_exists.
  setoid_rewrite <-list_elem_of_In. setoid_rewrite list_elem_of_filter.
  unfold passed. setoid_rewrite bool_decide_eq_true. naive_solver.
Qed.

Lemma byCriterion_key s e :
  e ∈ Items s → is_Some (byCriterion s !! CriterionID e).
Proof.
  intros He. exists (filter (λ e', CriterionID e' = CriterionID e) (Items s)).
  apply byCriterion_lookup. split; [|done].
  intros Hn. assert (e ∈ filter (λ e', CriterionID e' = CriterionID e) (Items s)) as H
    by (by apply list_elem_of_filter).
  rewrite Hn in H. by apply elem_of_nil in H.
Qed.

Lemma elem_of_MissingCriteria s id :
  id ∈ MissingCriteria s ↔
    (∃ e, e ∈ Items s ∧ CriterionID e = id) ∧
    ¬ ∃ e, e ∈ Items s ∧ CriterionID e = id ∧ Status e = "passed".
Proof.
  unfold MissingCriteria. rewrite elem_of_sortStrings, list_elem_of_fmap.
  setoid_rewrite list_elem_of_filter. split.
  - intros ([id' l] & -> & Hp & Hin). apply elem_of_map_to_list in Hin. simpl in *.
    pose proof (byCriterion_passed s id' l Hin) as Hiff. split.
    + apply byCriterion_lookup in Hin as [Hne Hl].
      destruct l as [|e l]; [done|]. exists e.
      assert (e ∈ filter (λ e', CriterionID e' = id') (Items s)) as H
        by (rewrite <-Hl; left).
      apply list_elem_of_filter in H. tauto.
    + rewrite <-Hiff. congruence.
  - intros [(e & He & <-) Hno]. destruct (byCriterion_key s e He) as [l Hl].
    exists (CriterionID e, l). simpl. split; [done|]. split; [|by apply elem_of_map_to_list].
    apply not_true_iff_false. by rewrite (byCriterion_passed s _ l Hl).
Qed.

Lemma foldl_lowerOf_rank es c :
  (rankConfidence (foldl lowerOf c es) ≤ rankConfidence c)%Z ∧
  Forall (λ e, rankConfidence (foldl lowerOf c es) ≤ rankConfidence (Confidence_ e))%Z es.
Proof.
  revert c; induction es as [|e es IH]; intros c; simpl; [by split|].
  destruct (IH (lowerOf c e)) as [H1 H2].
  assert (rankConfidence (lowerOf c e) ≤ rankConfidence c ∧
          rankConfidence (lowerOf c e) ≤ rankConfidence (Confidence_ e))%Z as [? ?].
  { unfold lowerOf. destruct (Z.ltb_spec (rankConfidence (Confidence_ e)) (rankConfidence c)); lia. }
  split; [lia|]. constructor; [lia|done].
Qed.

Lemma LowerForDisabledTests_items s :
  Items (LowerForDisabledTests s) = lowerOne <$> Items s.
Proof.
  unfold LowerForDisabledTests.
  assert (∀ es acc, Items (foldl (λ out e, Add out (lowerOne e)) acc es) =
                    Items acc ++ (lowerOne <$> es)) as H.
  { induction es as [|e es IH]; intros acc; simpl; [by rewrite app_nil_r|].
    rewrite IH. simpl. by rewrite <-app_assoc. }
  by rewrite H.
Qed.

Lemma lowerOne_spec e :
  CriterionID (lowerOne e) = CriterionID e ∧ Status (lowerOne e) = Status e ∧
  (rankConfidence (Confidence_ (lowerOne e)) ≤ rankConfidence (Confidence_ e))%Z ∧
  (Confidence_ (lowerOne e) = ConfidenceHigh → TestsWereRun (lowerOne e) = true).
Proof. destruct e as [id ty rf st c []]; destruct c; simpl; split_and!; done. Qed.

Lemma IsComplete_true s :
  IsComplete s = true ↔
    Items s ≠ [] ∧ ∀ e, e ∈ Items s →
      ∃ e', e' ∈ Items s ∧ CriterionID e' = CriterionID e ∧ Status e' = "passed".
Proof.
  unfold IsComplete. destruct (Items s) as [|e0 es] eqn:Hi; [naive_solver|].
  rewrite <-Hi, forallb_forall. setoid_rewrite <-list_elem_of_In. split.
  - intros H. split; [by rewrite Hi|]. intros e' He.
    destruct (byCriterion_key s e' He) as [l' Hl].
    apply (byCriterion_passed s _ l' Hl).
    apply (H (CriterionID e', l')). by apply elem_of_map_to_list.
  - intros [_ H] [id l'] Hin. apply elem_of_map_to_list in Hin. simpl.
    apply (byCriterion_passed s _ l' Hin).
    apply byCriterion_lookup in Hin as [Hne Hl]. destruct l' as [|e' l']; [done|].
    assert (e' ∈ filter (λ e, CriterionID e = id) (Items s)) as He by (rewrite <-Hl; left).
    apply list_elem_of_filter in He as [<- He]. by apply H.
Qed.

(** Completeness depends on the criteria and statuses only. *)
Lemma IsComplete_fmap f s s' :
  (∀ e, CriterionID (f e) = CriterionID e ∧ Status (f e) = Status e) →
  Items s' = f <$> Items s → IsComplete s' = IsComplete s.
Proof.
  intros Hf Hi. apply eq_true_iff_eq. rewrite !IsComplete_true, Hi.
  split; intros [Hne H]; (split; [by destruct (Items s)|]).
  - intros e He. destruct (H (f e)) as (e' & He' & Hid & Hst).
    { by apply list_elem_of_fmap_2. }
    apply list_elem_of_fmap in He' as (e'' & -> & He'').
    exists e''. destruct (Hf e), (Hf e''). naive_solver congruence.
  - intros e He. apply list_elem_of_fmap in He as (e0 & -> & He0).
    destruct (H e0 He0) as (e' & He' & Hid & Hst). exists (f e').
    destruct (Hf e0), (Hf e'). split_and!; [by apply list_elem_of_fmap_2|congruence..].
Qed.

(** ** Properties *)

(** evidence completeness (§27, §28).  A set is complete exactly when it is
    not empty and every criterion that has evidence has a passing one;
    [MissingCriteria] is the sorted, duplicate-free list of the criteria that
    lack one, so a non-empty set is complete exactly when nothing is missing. *)
Theorem IsComplete_iff_nothing_missing s :
  (IsComplete s = true ↔
     Items s ≠ [] ∧ ∀ e, e ∈ Items s →
       ∃ e', e' ∈ Items s ∧ CriterionID e' = CriterionID e ∧ Status e' = "passed") ∧
  (∀ id, id ∈ MissingCriteria s ↔
     (∃ e, e ∈ Items s ∧ CriterionID e = id) ∧
     ¬ ∃ e, e ∈ Items s ∧ CriterionID e = id ∧ Status e = "passed") ∧
  StronglySorted String.le (MissingCriteria s) ∧ NoDup (MissingCriteria s) ∧
  (IsComplete s = true ↔ Items s ≠ [] ∧ MissingCriteria s = []).
Proof.
  split_and!; [apply IsComplete_true|apply elem_of_MissingCriteria|apply sortStrings_sorted| |].
  - unfold MissingCriteria. rewrite sortStrings_Permutation.
    apply NoDup_fmap_filter, NoDup_fst_map_to_list.
  - rewrite IsComplete_true. split; intros [Hne H]; split; try done.
    + destruct (MissingCriteria s) as [|id l] eqn:E; [done|].
      assert (id ∈ MissingCriteria s) as Hid by (rewrite E; left).
      apply elem_of_MissingCriteria in Hid as [(e & He & <-) Hno].
      destruct Hno. by apply H.
    + intros e He. destruct (decide (CriterionID e ∈ MissingCriteria s)) as [Hm|Hm].
      { rewrite H in Hm. by apply elem_of_nil in Hm. }
      rewrite elem_of_MissingCriteria in Hm.
      destruct (existsb (λ e', bool_decide (CriterionID e' = CriterionID e) && passed e')
        (Items s)) eqn:Ex.
      * apply existsb_elem in Ex as (e' & He' & Hp). exists e'.
        apply andb_true_iff in Hp as [Hi Hp].
        by apply bool_decide_eq_true in Hi, Hp.
      * destruct Hm. split; [by exists e|]. intros (e' & He' & Hi & Hp).
        rewrite existsb_elem_false in Ex. specialize (Ex e' He').
        by rewrite Hi, bool_decide_true in Ex; [unfold passed in Ex; rewrite Hp in Ex|].
Qed.

(** evidence confidence (§27).  The aggregate is a lower bound of every
    item's confidence and (for defined confidences) one of them; lowering for
    disabled tests keeps every item's criterion and status, never raises a
    confidence, and leaves no high confidence without an automated test run. *)
Theorem LowerForDisabledTests_sound s :
  let s' := LowerForDisabledTests s in
  Forall (λ e, rankConfidence (AggregateConfidence s) ≤ rankConfidence (Confidence_ e))%Z (Items s) ∧
  CriterionID <$> Items s' = CriterionID <$> Items s ∧
  Status <$> Items s' = Status <$> Items s ∧
  IsComplete s' = IsComplete s ∧
  Forall2 (λ e' e, rankConfidence (Confidence_ e') ≤ rankConfidence (Confidence_ e))%Z
    (Items s') (Items s) ∧
  Forall (λ e, Confidence_ e = ConfidenceHigh → TestsWereRun e = true) (Items s').
Proof.
  cbv zeta.
  rewrite LowerForDisabledTests_items. split_and!.
  - unfold AggregateConfidence. destruct (Items s) eqn:E; [constructor|].
    rewrite <-E. apply foldl_lowerOf_rank.
  - rewrite <-list_fmap_compose. apply list_fmap_ext. intros ? e _. apply lowerOne_spec.
  - rewrite <-list_fmap_compose. apply list_fmap_ext. intros ? e _. apply lowerOne_spec.
  - apply (IsComplete_fmap lowerOne); [|apply LowerForDisabledTests_items].
    intros e. split; apply lowerOne_spec.
  - apply Forall2_fmap_l, Forall_Forall2_diag, Forall_true. intros e. apply lowerOne_spec.
  - apply Forall_fmap, Forall_true. intros e. by destruct (lowerOne_spec e) as (_ & _ & _ & H).
Qed.

End evidence.
