(* ===== verification/Risk.v ===== *)
(** * Risk: deterministic risk classification (spec §26)

    Models [internal/risk/classify.go]. *)
From S2P Require Import Prelude.

Module risk.

(** [Level] is an [int]. *)
Definition R0 : Z := 0.
Definition R1 : Z := 1.
Definition R2 : Z := 2.
Definition R3 : Z := 3.
Definition R4 : Z := 4.
Definition MaxLevel : Z := R4.

Definition Level_String (l : Z) : string :=
  if (l =? R0)%Z then "R0" else if (l =? R1)%Z then "R1" else if (l =? R2)%Z then "R2"
  else if (l =? R3)%Z then "R3" else if (l =? R4)%Z then "R4" else "R?".

Definition IsValid (l : Z) : bool := (R0 <=? l)%Z && (l <=? R4)%Z.
Definition AtLeast (l threshold : Z) : bool := (threshold <=? l)%Z.
Definition Levels : list Z := [R0; R1; R2; R3; R4].

Record Signals := mkSignals {
  Description : string;
  Paths : list string;
  TouchesAuth : bool;
  TouchesPayments : bool;
  TouchesPermissions : bool;
  DestructiveCommands : bool;
  HasMigrations : bool;
  ConcurrencyChange : bool;
  SubscriptionChange : bool;
  PublicAPIChange : bool;
  TouchesInfra : bool }.

Record Result := mkResult { Level : Z; Reasons : list string }.

Definition maxLevel (a b : Z) : Z := if (b <? a)%Z then a else b.

Definition containsAny (s : string) (subs : list string) : bool :=
  existsb (strs.Contains s) subs.

Fixpoint firstTerm (low : string) (terms : list string) : option string :=
  match terms with
  | [] => None
  | t :: ts => if strs.Contains low t then Some t else firstTerm low ts
  end.

Definition termsR4 : list string :=
  ["password"; "secret"; "api key"; "api_key"; "oauth"; "session token"; "2fa"; "mfa";
   "refund"; "charge"; "stripe"; "payment"; "delete user"; "drop table"; "force push"].
Definition termsR3 : list string :=
  ["migration"; "migrate"; "transaction"; "lock"; "mutex"; "subscribe"; "subscription";
   "billing plan"; "cron"; "scheduler"].
Definition termsR2 : list string :=
  ["public api"; "webhook"; "integration"; "background job"; "queue"; "provider"].
Definition termsR1 : list string :=
  ["analytics"; "dashboard"; "ui "; "button"; "component"; "chart"; "report"].

Definition keywordHint (desc : string) : string * Z :=
  let low := strs.ToLower desc in
  if bool_decide (low = "") then ("", R0)
  else match firstTerm low termsR4 with
  | Some t => (t, R4)
  | None => match firstTerm low termsR3 with
  | Some t => (t, R3)
  | None => match firstTerm low termsR2 with
  | Some t => (t, R2)
  | None => match firstTerm low termsR1 with
  | Some t => (t, R1)
  | None => ("", R0)
  end end end end.

(** The [switch] of [pathHint] on one path. *)
Definition pathBand (p : string) : option Z :=
  let low := strs.ToLower p in
  if containsAny low ["auth"; "/auth"; "permission"; "acl"; "payment"; "billing"; "secret";
                      "credential"; "token"] then Some R4
  else if containsAny low ["migration"; "migrations"; "schema"; "lock"; "subscription"] then Some R3
  else if containsAny low ["api/"; "handler"; "webhook"; "integration"; "queue"; "worker"] then Some R2
  else if containsAny low ["ui/"; "component"; "screen"; "analytics"; "dashboard"] then Some R1
  else None.

Fixpoint pathHint (paths : list string) : string * Z :=
  match paths with
  | [] => ("", R0)
  | p :: ps => match pathBand p with Some band => (p, band) | None => pathHint ps end
  end.

(** One [if flag { level = maxLevel(level, band); reasons = append(...) }]. *)
Definition signal (st : Z * list string) (s : bool * (Z * string)) : Z * list string :=
  let '(on, (band, reason)) := s in
  if on then (maxLevel st.1 band, st.2 ++ [reason]) else st.

(** The structural flags in source order. *)
Definition flagSignals (s : Signals) : list (bool * (Z * string)) :=
  [ (TouchesAuth s, (R4, "touches authentication"));
    (TouchesPayments s, (R4, "touches payments/billing"));
    (TouchesPermissions s, (R4, "touches permissions/authorization"));
    (DestructiveCommands s, (R4, "uses destructive commands"));
    (HasMigrations s, (R3, "includes database migrations"));
    (ConcurrencyChange s, (R3, "changes concurrency/locking"));
    (SubscriptionChange s, (R3, "changes subscription contracts"));
    (PublicAPIChange s, (R2, "changes public API/contracts"));
    (TouchesInfra s, (R2, "changes CI/infrastructure/runtime config")) ].

(** The two lexical hints, which count when their term is not empty. *)
Definition hintSignals (s : Signals) : list (bool * (Z * string)) :=
  let '(kw, kband) := keywordHint (Description s) in
  let '(pk, pband) := pathHint (Paths s) in
  [ (bool_decide (kw ≠ ""), (kband, "keyword hint: " +:+ kw));
    (bool_decide (pk ≠ ""), (pband, "path hint: " +:+ pk)) ].

Definition Classify (s : Signals) : Result :=
  let '(level, reasons) := foldl signal (R0, []) (flagSignals s ++ hintSignals s) in
  mkResult level
    (match reasons with
     | [] => ["documentation/mechanical change (no elevated-risk signal)"]
     | _ => reasons
     end).

(** ** Lemmas *)

(** The band a signal list implies: the maximum of the active bands. *)
Definition bandOf (l : list (bool * (Z * string))) : Z :=
  foldr (λ (s : bool * (Z * string)) m, if s.1 then Z.max s.2.1 m else m) 0%Z l.

Lemma maxLevel_max a b : maxLevel a b = Z.max a b.
Proof. unfold maxLevel. destruct (Z.ltb_spec b a); lia. Qed.

Lemma foldl_signal l lv rs :
  (0 ≤ lv)%Z →
  foldl signal (lv, rs) l =
    (Z.max lv (bandOf l), rs ++ ((λ s : bool * (Z * string), s.2.2) <$> filter (λ s : bool * (Z * string), s.1 = true) l)).
Proof.
  revert lv rs; induction l as [|[on [band r]] l IH]; intros lv rs Hlv; simpl.
  { rewrite app_nil_r. f_equal. lia. }
  rewrite filter_cons. destruct on; simpl.
  - rewrite IH by (rewrite maxLevel_max; lia). rewrite maxLevel_max, <-app_assoc. f_equal. lia.
  - by apply IH.
Qed.

Lemma bandOf_app l l' : bandOf (l ++ l') = Z.max (bandOf l) (bandOf l').
Proof.
  assert (∀ l, 0 ≤ bandOf l)%Z as Hpos.
  { induction l0 as [|[[] [b r]] l0 IH]; simpl; lia. }
  induction l as [|[[] [b r]] l IH]; simpl; [specialize (Hpos l'); lia|lia|done].
Qed.

Lemma Classify_Level s : Level (Classify s) = Z.max (bandOf (flagSignals s)) (bandOf (hintSignals s)).
Proof.
  unfold Classify. rewrite foldl_signal by done. unfold R0. cbn [Level]. rewrite bandOf_app.
  assert (∀ l, 0 ≤ bandOf l)%Z as Hpos.
  { induction l as [|[[] [b r]] l IH]; simpl; lia. }
  pose proof (Hpos (flagSignals s)). lia.
Qed.

Lemma keywordHint_bounds d : (0 ≤ (keywordHint d).2 ≤ 4)%Z.
Proof. unfold keywordHint. repeat case_match; cbv; split; discriminate. Qed.

Lemma pathHint_bounds ps : (0 ≤ (pathHint ps).2 ≤ 4)%Z.
Proof.
  induction ps as [|p ps IH]; [done|]. simpl. destruct (pathBand p) eqn:E; [|done].
  unfold pathBand in E. repeat case_match; simplify_eq; cbv; split; discriminate.
Qed.

Lemma hint_bounds s : (0 ≤ bandOf (hintSignals s) ≤ 4)%Z.
Proof.
  unfold hintSignals.
  pose proof (keywordHint_bounds (Description s)). pose proof (pathHint_bounds (Paths s)).
  destruct (keywordHint _), (pathHint _). simpl in *. repeat case_bool_decide; lia.
Qed.

(** The structural floor of §26. *)
Definition floorOf (s : Signals) : Z :=
  if TouchesAuth s || TouchesPayments s || TouchesPermissions s || DestructiveCommands s then R4
  else if HasMigrations s || ConcurrencyChange s || SubscriptionChange s then R3
  else if PublicAPIChange s || TouchesInfra s then R2 else R0.

Lemma flags_floor s : bandOf (flagSignals s) = floorOf s.
Proof.
  destruct s as [d ps a b c e f g h i j]. unfold flagSignals, floorOf; cbn.
  destruct a; cbn; [destruct b, c, e, f, g, h, i, j; reflexivity|].
  destruct b; cbn; [destruct c, e, f, g, h, i, j; reflexivity|].
  destruct c; cbn; [destruct e, f, g, h, i, j; reflexivity|].
  destruct e, f, g, h, i, j; reflexivity.
Qed.

(** ** Properties *)

(** risk classification (§26).  The level is the higher of the structural
    floor (R4 for auth, payments, permissions or destructive commands, else R3
    for migrations, concurrency or subscriptions, else R2 for public API or
    infrastructure, else R0) and of the lexical hints; text and paths can never
    lower a structural floor; the level is a defined band and there is always
    a reason. *)
Theorem Classify_floor s :
  let lv := Level (Classify s) in
  lv = Z.max (floorOf s) (bandOf (hintSignals s)) ∧
  AtLeast lv (floorOf s) = true ∧ IsValid lv = true ∧ Reasons (Classify s) ≠ [].
Proof.
  cbv zeta. rewrite Classify_Level, flags_floor. pose proof (hint_bounds s).
  assert (0 ≤ floorOf s ≤ 4)%Z by (unfold floorOf; repeat case_match; cbv; split; discriminate).
  split_and!; [done| | |].
  - unfold AtLeast. apply Z.leb_le. lia.
  - unfold IsValid, R0, R4. apply andb_true_iff. rewrite !Z.leb_le. lia.
  - unfold Classify. destruct (foldl _ _ _) as [lv [|r rs]]; done.
Qed.

(** [pathHint] stops at the first path that matches any band: an R1 path hides
    an R4 one behind it, against "the highest band implied by any signal wins". *)
Lemma pathHint_order_dependent :
  let s ps := mkSignals "" ps false false false false false false false false false in
  Level (Classify (s ["web/ui/button.go"; "internal/auth/login.go"])) = R1 ∧
  Level (Classify (s ["internal/auth/login.go"; "web/ui/button.go"])) = R4.
Proof. vm_compute. done. Qed.

End risk.
