(* ===== verification/AuditTrail.v ===== *)
(** * AuditTrail: the append-only audit trail

    Models [internal/audit/audit.go] over its storage interface.  The durable
    log is a list in sequence order; [store_ok] says which appends the storage
    accepts, so that every client theorem also covers a failing store. *)
From S2P Require Import Prelude.

Module audit.

Definition ScopeSystem : string := "system".
Definition ScopeProject : string := "project".
Definition ScopeTask : string := "task".
Definition ScopeGlobal : string := "global".
Definition ActorUser : string := "user".
Definition ActorDaemon : string := "daemon".
Definition ActorSystem : string := "system".

(** The values the code puts in a payload ([map[string]any]). *)
Inductive Val := VString (s : string) | VInt (z : Z) | VBool (b : bool).
#[global] Instance Val_eq_dec : EqDecision Val.
Proof. solve_decision. Defined.

Record Event := mkEvent {
  Type_ : string;
  Scope : string;
  ScopeID : string;
  Actor : string;
  Payload_ : option (gmap string Val);
  Timestamp : Time }.

(** The row handed to storage; the payload is kept structured where the code
    keeps its JSON text. *)
Record AuditEvent := mkAuditEvent {
  AuditEvent_Timestamp : Time;
  AuditEvent_Scope : string;
  AuditEvent_ScopeID : string;
  AuditEvent_Type : string;
  AuditEvent_Actor : string;
  AuditEvent_Payload : gmap string Val }.

Definition Trail := list AuditEvent.

(** The recorder: which rows its store accepts, and its wall clock. *)
Record Recorder := mkRecorder {
  store_ok : AuditEvent → bool;
  clock : Time }.

Definition orDefault (s d : string) : string := if bool_decide (s = "") then d else s.

(** The row [recordInto] builds from an event. *)
Definition fillDefaults (r : Recorder) (e : Event) : AuditEvent :=
  mkAuditEvent (if time.IsZero (Timestamp e) then clock r else Timestamp e)
    (orDefault (Scope e) ScopeSystem) (orDefault (ScopeID e) ScopeGlobal)
    (Type_ e) (orDefault (Actor e) ActorDaemon) (default ∅ (Payload_ e)).

Definition recordInto (r : Recorder) (e : Event) (t : Trail) : result string Z * Trail :=
  if bool_decide (Type_ e = "") then (Err "audit: event type is required", t)
  else
    let row := fillDefaults r e in
    if store_ok r row then (Ok (Z.of_nat (S (length t))), t ++ [row])
    else (Err "storage: append failed", t).

Definition Record_ (r : Recorder) (e : Event) (t : Trail) : result string Z * Trail :=
  recordInto r e t.

(** [History]: the rows of a scope id, oldest first ([limit <= 0]). *)
Definition History (t : Trail) (scopeID : string) : Trail :=
  filter (λ e, AuditEvent_ScopeID e = scopeID) t.

Definition Payload (kvs : list (string * Val)) : gmap string Val :=
  foldl (λ m kv, <[kv.1 := kv.2]> m) ∅ kvs.

(** ** Lemmas *)

(** The trail is append-only. *)
Lemma Record_prefix r e t : t `prefix_of` (Record_ r e t).2.
Proof.
  unfold Record_, recordInto. case_bool_decide; simpl; [done|].
  destruct (store_ok r _); simpl; [|done]. by eexists.
Qed.

Lemma Record_stored r e t :
  Type_ e ≠ "" → store_ok r (fillDefaults r e) = true →
  (Record_ r e t).2 = t ++ [fillDefaults r e].
Proof. intros He Hs. unfold Record_, recordInto. by rewrite bool_decide_false, Hs. Qed.

End audit.
