(* ===== verification/Vcs.v ===== *)
(** * Vcs: the change-request provider interface (spec §17.6)

    Models [internal/adapter/vcs/provider.go]: the requests and results, the
    sentinel errors with Go's [%w] wrapping, the [ChangeRequestProvider]
    interface and the registry.  A provider is a record of operations over a
    state [W] of the outside world; nothing is assumed of what they do. *)
From S2P Require Import Prelude.

Module vcs.

Definition ProviderID := string.
Definition ProviderLocalGit : ProviderID := "local-git".
Definition ProviderGitHub : ProviderID := "github".
Definition ProviderGitLab : ProviderID := "gitlab".

(** A Go string type; [MergeMethodOther ""] is the zero value. *)
Inductive MergeMethod :=
| MergeMethodMerge | MergeMethodSquash | MergeMethodRebase
| MergeMethodCherryPick | MergeMethodPatch | MergeMethodOther (s : string).
#[global] Instance MergeMethod_eq_dec : EqDecision MergeMethod.
Proof. solve_decision. Defined.

Definition MergeMethod_String (m : MergeMethod) : string :=
  match m with
  | MergeMethodMerge => "merge"
  | MergeMethodSquash => "squash"
  | MergeMethodRebase => "rebase"
  | MergeMethodCherryPick => "cherry-pick"
  | MergeMethodPatch => "patch"
  | MergeMethodOther s => s
  end.

Record Capabilities := mkCapabilities {
  Cap_PushBranch : bool;
  Cap_CreateChangeRequest : bool;
  Cap_UpdateChangeRequest : bool;
  Cap_GetChecks : bool;
  Cap_EnableAutoMerge : bool;
  Cap_Merge : bool;
  Cap_Revert : bool;
  IsNetwork : bool }.

Record PushBranchRequest := mkPushBranchRequest {
  Push_TaskID : string; LocalBranch : string; RemoteBranch : string;
  Push_HeadSHA : string; Force : bool }.
Record PushResult := mkPushResult {
  PushResult_RemoteBranch : string; PushResult_HeadSHA : string; PushedAt : string }.
Record CreateChangeRequestRequest := mkCreateChangeRequestRequest {
  Create_TaskID : string; Create_Title : string; Create_Body : string;
  Create_HeadBranch : string; Create_BaseBranch : string; Draft : bool;
  ReviewerIDs : list string }.
Record UpdateChangeRequestRequest := mkUpdateChangeRequestRequest {
  Update_TaskID : string; Update_Number : Z; Update_Title : string;
  Update_Body : string; Update_State : string }.
Record ChangeRequest := mkChangeRequest {
  Provider_ : ProviderID; Number : Z; Title : string; Body : string;
  HeadBranch : string; BaseBranch : string; State : string; WebURL : string;
  Mergeable : option bool }.
Record GetChecksRequest := mkGetChecksRequest {
  Checks_TaskID : string; Checks_Number : Z; Checks_HeadBranch : string;
  Checks_HeadSHA : string }.
Record CheckRun := mkCheckRun {
  Name : string; Status : string; Conclusion : string; Mandatory : bool }.
Record CheckStatus := mkCheckStatus {
  AllPassed : bool; RequiredPassed : bool; Pending : bool; Checks : list CheckRun }.
Record EnableAutoMergeRequest := mkEnableAutoMergeRequest {
  Auto_TaskID : string; Auto_Number : Z; Auto_Method : MergeMethod }.
Record MergeRequest := mkMergeRequest {
  Merge_TaskID : string; Merge_Number : Z; Merge_HeadBranch : string;
  Merge_BaseBranch : string; Merge_HeadSHA : string; Merge_Method : MergeMethod;
  CommitMessage : string }.
Record MergeResult := mkMergeResult {
  Merged : bool; Method : MergeMethod; CommitSHA : string;
  MergeResult_BaseBranch : string }.
Record RevertRequest := mkRevertRequest {
  Revert_TaskID : string; Revert_Number : Z; Revert_CommitSHA : string;
  Revert_BaseBranch : string }.
Record RevertResult := mkRevertResult { Reverted : bool; RevertSHA : string }.

(** ** Errors *)

Inductive Sentinel :=
| ErrUnsupported | ErrPolicyDenied | ErrBranchNotCurrent | ErrChecksFailed
| ErrAuthFailed | ErrNetworkLocked.
#[global] Instance Sentinel_eq_dec : EqDecision Sentinel.
Proof. solve_decision. Defined.

Definition Sentinel_Error (s : Sentinel) : string :=
  match s with
  | ErrUnsupported => "vcs: operation not supported by this provider"
  | ErrPolicyDenied => "vcs: action denied by policy / merge governor"
  | ErrBranchNotCurrent => "vcs: branch is not current with the target"
  | ErrChecksFailed => "vcs: required checks did not pass"
  | ErrAuthFailed => "vcs: authentication failed"
  | ErrNetworkLocked => "vcs: network operation attempted in a network-locked profile (AC-7)"
  end.

(** A Go error: the sentinels of its [%w] chain and its text. *)
Record error := mkError { chain : list Sentinel; Error : string }.

(** [errors.Is(err, s)]. *)
Definition Is (e : error) (s : Sentinel) : bool := bool_decide (s ∈ chain e).

(** [fmt.Errorf("%w: detail", s)]. *)
Definition wrap (s : Sentinel) (detail : string) : error :=
  mkError [s] (Sentinel_Error s +:+ ": " +:+ detail).

Definition Unsupported (id : ProviderID) (op : string) : error :=
  wrap ErrUnsupported (id +:+ " does not implement " +:+ op).

(** ** The provider interface *)

Record ChangeRequestProvider (W : Type) := mkProvider {
  ID : ProviderID;
  Capabilities_ : Capabilities;
  PushBranch : PushBranchRequest → W → (PushResult * option error) * W;
  CreateChangeRequest : CreateChangeRequestRequest → W → (ChangeRequest * option error) * W;
  UpdateChangeRequest : UpdateChangeRequestRequest → W → (ChangeRequest * option error) * W;
  GetChecks : GetChecksRequest → W → (CheckStatus * option error) * W;
  EnableAutoMerge : EnableAutoMergeRequest → W → option error * W;
  Merge : MergeRequest → W → (MergeResult * option error) * W;
  Revert : RevertRequest → W → (RevertResult * option error) * W }.
Arguments ID {W}.
Arguments Capabilities_ {W}.
Arguments PushBranch {W}.
Arguments CreateChangeRequest {W}.
Arguments UpdateChangeRequest {W}.
Arguments GetChecks {W}.
Arguments EnableAutoMerge {W}.
Arguments Merge {W}.
Arguments Revert {W}.

(** ** The registry *)

Section registry.
  Context {W : Type}.

Definition Registry := gmap string (ChangeRequestProvider W).

Definition NewRegistry : Registry := ∅.

Definition Register (p : option (ChangeRequestProvider W)) (r : Registry) :
    result string Registry :=
  match p with
  | None => Err "vcs: cannot register a nil provider"
  | Some p =>
      if bool_decide (ID p = "") then Err "vcs: provider has empty ID"
      else match r !! ID p with
           | Some _ => Err ("vcs: provider " +:+ strs.q (ID p) +:+ " already registered")
           | None => Ok (<[ID p := p]> r)
           end
  end.

Definition Lookup (id : ProviderID) (r : Registry) : option (ChangeRequestProvider W) := r !! id.

Definition IDs (r : Registry) : list ProviderID := sortStrings (map_to_list r).*1.

Definition Len (r : Registry) : Z := Z.of_nat (size r).

(** Registering never overrides: what was found stays found, and the new
    provider is found under its own id. *)
Lemma Register_Lookup p r r' id :
  Register (Some p) r = Ok r' →
  Lookup id r' = (if decide (id = ID p) then Some p else Lookup id r) ∧
  Lookup (ID p) r = None.
Proof.
  unfold Register, Lookup. case_bool_decide; [done|]. destruct (r !! ID p) eqn:E; [done|].
  intros [= <-]. split; [|done]. unfold Registry in *. case_decide as Hd; [subst; by rewrite lookup_insert_eq|].
  by rewrite lookup_insert_ne.
Qed.

End registry.
End vcs.
