(* ===== verification/Merge.v ===== *)
(** * Merge: the Merge Governor, the delivery Authority and the merge queue

    Models [internal/merge]: [Decide] and its gates (governor.go), the single
    delivery chokepoint (authority.go) and the serial queue (queue.go).  The
    Authority's state is the outside world [W] the providers act on and the
    audit trail; its recorder may be absent or refuse rows. *)
From S2P Require Import Prelude Policy TestEngine Review Evidence AuditTrail Vcs.

Module merge.

(** ** governor.go *)

Inductive Decision :=
| DecisionAllowLocalResult | DecisionAllowPush | DecisionAllowChangeRequest
| DecisionAllowMerge | DecisionRequireRebase | DecisionRequireRepair
| DecisionPolicyBlocked | DecisionQuarantine | DecisionOther (s : string).
#[global] Instance Decision_eq_dec : EqDecision Decision.
Proof. solve_decision. Defined.

Definition Decision_String (d : Decision) : string :=
  match d with
  | DecisionAllowLocalResult => "ALLOW_LOCAL_RESULT"
  | DecisionAllowPush => "ALLOW_PUSH"
  | DecisionAllowChangeRequest => "ALLOW_CHANGE_REQUEST"
  | DecisionAllowMerge => "ALLOW_MERGE"
  | DecisionRequireRebase => "REQUIRE_REBASE"
  | DecisionRequireRepair => "REQUIRE_REPAIR"
  | DecisionPolicyBlocked => "POLICY_BLOCKED"
  | DecisionQuarantine => "QUARANTINE"
  | DecisionOther s => s
  end.

Definition IsAllow (d : Decision) : bool :=
  match d with
  | DecisionAllowLocalResult | DecisionAllowPush
  | DecisionAllowChangeRequest | DecisionAllowMerge => true
  | _ => false
  end.

Record Input := mkInput {
  Policy : policy.Resolved;
  SpecificationLocked : bool;
  ScopeValid : bool;
  RequiredChecksPassed : bool;
  AcceptanceEvidenceComplete : bool;
  BlockerFindings : Z;
  MajorFindings : Z;
  TargetAllowed : bool;
  BranchCurrent : bool;
  BudgetPolicySatisfied : bool;
  VisualPolicySatisfied : bool;
  Evidence : evidence.EvidenceSet;
  TestSummary : testengine.Summary;
  ReviewResult : review.Result }.

Record Gate := mkGate {
  Name : string;
  Passed : bool;
  Detail : string }.

Record Result := mkResult {
  Decision_ : Decision;
  Gates : list Gate;
  Reason : string }.

(** The ten §28 gates every input is checked against. *)
Definition baseGates (i : Input) : list Gate :=
  [ mkGate "specification_locked" (SpecificationLocked i)
      "specification must be locked before delivery";
    mkGate "scope_valid" (ScopeValid i) "all changes must be within the allowed scope";
    mkGate "required_checks_passed" (RequiredChecksPassed i)
      "required CI/build checks must pass";
    mkGate "acceptance_evidence_complete"
      (AcceptanceEvidenceComplete i && evidence.IsComplete (Evidence i))
      "every acceptance criterion must have passing evidence (§27)";
    mkGate "blocker_findings" (BlockerFindings i =? 0)%Z
      (pretty (BlockerFindings i) +:+ " blocker findings (must be 0)");
    mkGate "major_findings" (MajorFindings i =? 0)%Z
      (pretty (MajorFindings i) +:+ " major findings (must be 0)");
    mkGate "target_allowed" (TargetAllowed i) "the merge target must be an allowed branch";
    mkGate "branch_current" (BranchCurrent i)
      "the branch must be current with the target (no rebase needed)";
    mkGate "budget_policy_satisfied" (BudgetPolicySatisfied i)
      "budget policy must be satisfied";
    mkGate "visual_policy_satisfied" (VisualPolicySatisfied i)
      "visual verification policy must be satisfied for UI tasks" ].

Definition testsPassed (i : Input) : bool :=
  testengine.TestsWereRun (TestSummary i)
  && bool_decide (testengine.OverallStatus (TestSummary i) = testengine.StatusPassed).

(** The §24.5 gates: only when the resolved pipeline merges and requires tests. *)
Definition testGates (i : Input) : list Gate :=
  let p := policy.Resolved_Pipeline (Policy i) in
  if policy.Merge p && policy.Tests_RequireForRemoteMerge (policy.Tests p) then
    [ mkGate "tests_required_for_merge" (testsPassed i)
        "tests are mandatory for merge (§24.5); disabling tests via override does not bypass this" ]
    ++ (if negb (testengine.TestsWereRun (TestSummary i)) then
          [ mkGate "tests_disabled_blocked_merge" false
              "tests were not run; a task override disabling tests cannot bypass mandatory merge rules (§24.5/AC-29)" ]
        else if negb (testsPassed i) then
          [ mkGate "tests_failed_repair" false
              "tests ran but failed; repair required before merge" ]
        else [])
  else [].

(** The AC-29 gate: one failed gate when a review produced a blocker. *)
Definition reviewGates (i : Input) : list Gate :=
  if policy.Merge (policy.Resolved_Pipeline (Policy i))
     && existsb review.IsBlocker (review.Findings (ReviewResult i))
  then [ mkGate "mandatory_review" false
           "a mandatory review produced a blocker finding (AC-29)" ]
  else [].

Definition buildGates (i : Input) : list Gate :=
  baseGates i ++ testGates i ++ reviewGates i.

(** The loop over mandatory check failures: the first failed gate with one of
    the three names decides. *)
Fixpoint mandatoryReason (failed : list Gate) : option string :=
  match failed with
  | [] => None
  | g :: gs =>
      if bool_decide (Name g = "tests_disabled_blocked_merge") then
        Some "tests were disabled and are mandatory for merge (§24.5): task override cannot bypass this"
      else if bool_decide (Name g = "tests_required_for_merge") then
        Some "tests are mandatory for merge (§24.5): task override cannot bypass this"
      else if bool_decide (Name g = "mandatory_review") then
        Some "a mandatory project review did not pass (AC-29): task override cannot disable it"
      else mandatoryReason gs
  end.

Definition needsRepair (g : Gate) : bool :=
  bool_decide (Name g = "blocker_findings") || bool_decide (Name g = "major_findings")
  || bool_decide (Name g = "tests_failed_repair").

Definition failedGates (gates : list Gate) : list Gate :=
  filter (λ g, Passed g = false) gates.

Definition Decide (i : Input) : Result :=
  let gates := buildGates i in
  let failed := failedGates gates in
  if existsb (λ g, bool_decide (Name g = "branch_current")) failed then
    mkResult DecisionRequireRebase gates "branch is not current; rebase required"
  else if existsb needsRepair failed then
    mkResult DecisionRequireRepair gates
      "findings or test failures require repair before delivery"
  else match mandatoryReason failed with
  | Some reason => mkResult DecisionPolicyBlocked gates reason
  | None =>
      match failed with
      | _ :: _ =>
          mkResult DecisionPolicyBlocked gates
            ("blocked by gates: [" +:+ strs.Join (Name <$> failed) " " +:+ "]")
      | [] =>
          let p := policy.Resolved_Pipeline (Policy i) in
          if policy.Merge p then
            mkResult DecisionAllowMerge gates "all gates passed; merge permitted"
          else if policy.ChangeRequest_Create (policy.ChangeRequest p)
                  && policy.Git_Push (policy.Git p) then
            mkResult DecisionAllowChangeRequest gates "all gates passed; PR/MR permitted"
          else if policy.Git_Push (policy.Git p) then
            mkResult DecisionAllowPush gates "all gates passed; push permitted"
          else
            mkResult DecisionAllowLocalResult gates "all gates passed; local result permitted"
      end
  end.

Definition LocalResultLabels (i : Input) : list string :=
  ["IMPLEMENTED"]
  ++ [if testsPassed i then "TESTED" else "NOT TESTED"]
  ++ [if review.IsReviewed (ReviewResult i)
         && bool_decide (review.OverallStatus (ReviewResult i) = review.StatusApproved)
      then "REVIEWED" else "NOT REVIEWED"]
  ++ ["LOCAL BRANCH ONLY"].

(** ** authority.go *)

Definition decisionRank (d : Decision) : Z :=
  match d with
  | DecisionAllowLocalResult => 0
  | DecisionAllowPush => 1
  | DecisionAllowChangeRequest => 2
  | DecisionAllowMerge => 3
  | _ => -1
  end.

Definition requiresDecision (min d : Decision) : bool :=
  (decisionRank min <=? decisionRank d)%Z.

Definition gateName (g : Gate) : string :=
  Name g +:+ "=" +:+ (if Passed g then "pass" else "FAIL").

Definition gateNames (gates : list Gate) : string :=
  match gates with
  | [] => "none"
  | _ => strs.Join (gateName <$> gates) ","
  end.

(** [Authority]: an optional audit recorder and the clock [now]. *)
Record Authority := mkAuthority {
  audit_ : option audit.Recorder;
  now : Time }.

Section authority.
  Context {W : Type}.

(** What an Authority call acts on: the world behind the providers and the
    audit trail. *)
Record St := mkSt { world : W; trail : audit.Trail }.

Definition authorise (dec : Result) (resolved : policy.Resolved)
    (p : vcs.ChangeRequestProvider W) (act : policy.Action) (label : string)
    (levelOK : Decision → bool) : option vcs.error :=
  if negb (levelOK (Decision_ dec)) then
    Some (vcs.wrap vcs.ErrPolicyDenied
      ("governor decision " +:+ strs.q (Decision_String (Decision_ dec))
       +:+ " does not permit " +:+ label +:+ " (gates: " +:+ gateNames (Gates dec) +:+ ")"))
  else
    let d := policy.Allows resolved act in
    if negb (policy.Allow d) then
      Some (vcs.wrap vcs.ErrPolicyDenied (policy.Decision_String d))
    else if vcs.IsNetwork (vcs.Capabilities_ p)
            && policy.IsNetworkLocked (policy.Resolved_Profile resolved) then
      Some (vcs.wrap vcs.ErrNetworkLocked
        (label +:+ " on " +:+ vcs.ID p +:+ " (LOCAL_REVIEW/PLAN_ONLY)"))
    else None.

Definition record (a : Authority) (taskID eventType : string) (callErr : option vcs.error)
    (payload : gmap string audit.Val) (t : audit.Trail) : audit.Trail :=
  match audit_ a with
  | None => t
  | Some rec =>
      let payload := match callErr with
        | Some e => <["error" := audit.VString (vcs.Error e)]> payload
        | None => payload
        end in
      let payload := <["outcome" := audit.VString
        (match callErr with Some _ => "error" | None => "ok" end)]> payload in
      (audit.Record_ rec
        (audit.mkEvent eventType
           (if bool_decide (taskID = "") then audit.ScopeGlobal else audit.ScopeTask)
           taskID audit.ActorDaemon (Some payload) (now a)) t).2
  end.

Definition auditDeny (a : Authority) (taskID action : string) (denyErr : vcs.error)
    (t : audit.Trail) : audit.Trail :=
  match audit_ a with
  | None => t
  | Some rec =>
      if vcs.Is denyErr vcs.ErrUnsupported then t
      else (audit.Record_ rec
        (audit.mkEvent "vcs.delivery.denied"
           (if bool_decide (taskID = "") then audit.ScopeGlobal else audit.ScopeTask)
           taskID audit.ActorDaemon
           (Some (audit.Payload [("action", audit.VString action);
                                 ("reason", audit.VString (vcs.Error denyErr));
                                 ("outcome", audit.VString "denied")])) 0) t).2
  end.

(** The common shape of the gated operations: refuse and audit the denial, or
    call the provider and audit its outcome. *)
Definition gated {R} (a : Authority) (dec : Result) (resolved : policy.Resolved)
    (p : vcs.ChangeRequestProvider W) (act : policy.Action) (label : string)
    (min : Decision) (taskID denied eventType : string) (zero : R)
    (call : W → (R * option vcs.error) * W) (payload : R → list (string * audit.Val))
    (st : St) : (R * option vcs.error) * St :=
  match authorise dec resolved p act label (requiresDecision min) with
  | Some err => ((zero, Some err), mkSt (world st) (auditDeny a taskID denied err (trail st)))
  | None =>
      let '((res, err), w) := call (world st) in
      ((res, err), mkSt w (record a taskID eventType err (audit.Payload (payload res)) (trail st)))
  end.

Definition vid (p : vcs.ChangeRequestProvider W) : string * audit.Val :=
  ("provider", audit.VString (vcs.ID p)).

Definition Push (a : Authority) (dec : Result) (resolved : policy.Resolved)
    (p : vcs.ChangeRequestProvider W) (req : vcs.PushBranchRequest) :
    St → (vcs.PushResult * option vcs.error) * St :=
  gated a dec resolved p policy.ActPush "push" DecisionAllowPush (vcs.Push_TaskID req)
    "push" "vcs.push" (vcs.mkPushResult "" "" "") (vcs.PushBranch p req)
    (λ _, [vid p; ("remote_branch", audit.VString (vcs.RemoteBranch req));
           ("sha", audit.VString (vcs.Push_HeadSHA req)); ("force", audit.VBool (vcs.Force req))]).

Definition CreateChangeRequest (a : Authority) (dec : Result) (resolved : policy.Resolved)
    (p : vcs.ChangeRequestProvider W) (req : vcs.CreateChangeRequestRequest) :
    St → (vcs.ChangeRequest * option vcs.error) * St :=
  gated a dec resolved p policy.ActCreateChangeRequest "change_request.create"
    DecisionAllowChangeRequest (vcs.Create_TaskID req) "change_request.create"
    "vcs.change_request.create" (vcs.mkChangeRequest "" 0 "" "" "" "" "" "" None)
    (vcs.CreateChangeRequest p req)
    (λ cr, [vid p; ("number", audit.VInt (vcs.Number cr));
            ("head", audit.VString (vcs.Create_HeadBranch req));
            ("base", audit.VString (vcs.Create_BaseBranch req));
            ("url", audit.VString (vcs.WebURL cr))]).

Definition UpdateChangeRequest (a : Authority) (dec : Result) (resolved : policy.Resolved)
    (p : vcs.ChangeRequestProvider W) (req : vcs.UpdateChangeRequestRequest) :
    St → (vcs.ChangeRequest * option vcs.error) * St :=
  gated a dec resolved p policy.ActUpdateChangeRequest "change_request.update"
    DecisionAllowChangeRequest (vcs.Update_TaskID req) "change_request.update"
    "vcs.change_request.update" (vcs.mkChangeRequest "" 0 "" "" "" "" "" "" None)
    (vcs.UpdateChangeRequest p req)
    (λ _, [vid p; ("number", audit.VInt (vcs.Update_Number req));
           ("state", audit.VString (vcs.Update_State req))]).

(** Read-only, so not gated by a Governor decision; refusals are not audited. *)
Definition GetChecks (a : Authority) (resolved : policy.Resolved)
    (p : vcs.ChangeRequestProvider W) (req : vcs.GetChecksRequest) (st : St) :
    (vcs.CheckStatus * option vcs.error) * St :=
  let zero := vcs.mkCheckStatus false false false [] in
  if negb (vcs.Cap_GetChecks (vcs.Capabilities_ p)) then
    ((zero, Some (vcs.Unsupported (vcs.ID p) "GetChecks")), st)
  else if vcs.IsNetwork (vcs.Capabilities_ p)
          && policy.IsNetworkLocked (policy.Resolved_Profile resolved) then
    ((zero, Some (vcs.wrap vcs.ErrNetworkLocked ("GetChecks on " +:+ vcs.ID p))), st)
  else
    let d := policy.Allows resolved policy.ActPush in
    if negb (policy.Allow d) then
      ((zero, Some (vcs.wrap vcs.ErrPolicyDenied (policy.Decision_String d))), st)
    else
      let '((cs, err), w) := vcs.GetChecks p req (world st) in
      ((cs, err), mkSt w (record a (vcs.Checks_TaskID req) "vcs.checks.read" err
         (audit.Payload [vid p; ("number", audit.VInt (vcs.Checks_Number req));
                         ("all_passed", audit.VBool (vcs.AllPassed cs))]) (trail st))).

Definition EnableAutoMerge (a : Authority) (dec : Result) (resolved : policy.Resolved)
    (p : vcs.ChangeRequestProvider W) (req : vcs.EnableAutoMergeRequest) (st : St) :
    option vcs.error * St :=
  let '((_, err), st) :=
    gated a dec resolved p policy.ActMerge "merge" DecisionAllowMerge (vcs.Auto_TaskID req)
      "enable_auto_merge" "vcs.auto_merge.enable" ()
      (λ w, let '(err, w) := vcs.EnableAutoMerge p req w in (((), err), w))
      (λ _, [vid p; ("number", audit.VInt (vcs.Auto_Number req));
             ("method", audit.VString (vcs.MergeMethod_String (vcs.Auto_Method req)))]) st in
  (err, st).

Definition zeroMerge : vcs.MergeResult :=
  vcs.mkMergeResult false (vcs.MergeMethodOther "") "" "".

Definition Merge (a : Authority) (dec : Result) (resolved : policy.Resolved)
    (p : vcs.ChangeRequestProvider W) (req : vcs.MergeRequest) :
    St → (vcs.MergeResult * option vcs.error) * St :=
  gated a dec resolved p policy.ActMerge "merge" DecisionAllowMerge (vcs.Merge_TaskID req)
    "merge" "vcs.merge" zeroMerge (vcs.Merge p req)
    (λ res, [vid p; ("number", audit.VInt (vcs.Merge_Number req));
             ("method", audit.VString (vcs.MergeMethod_String (vcs.Merge_Method req)));
             ("merged", audit.VBool (vcs.Merged res));
             ("commit_sha", audit.VString (vcs.CommitSHA res));
             ("base", audit.VString (vcs.MergeResult_BaseBranch res))]).

Definition Revert (a : Authority) (dec : Result) (resolved : policy.Resolved)
    (p : vcs.ChangeRequestProvider W) (req : vcs.RevertRequest) :
    St → (vcs.RevertResult * option vcs.error) * St :=
  gated a dec resolved p policy.ActMerge "merge" DecisionAllowMerge (vcs.Revert_TaskID req)
    "revert" "vcs.revert" (vcs.mkRevertResult false "") (vcs.Revert p req)
    (λ res, [vid p; ("number", audit.VInt (vcs.Revert_Number req));
             ("commit", audit.VString (vcs.Revert_CommitSHA req));
             ("reverted", audit.VBool (vcs.Reverted res))]).

(** ** queue.go *)

Record QueueItem := mkQueueItem {
  TaskID : string;
  Item_Decision : Result;
  Item_Policy : policy.Resolved;
  Provider : option (vcs.ChangeRequestProvider W);
  Request : vcs.MergeRequest;
  AllowLocalFallback : bool }.

Record QueueOutcome := mkQueueOutcome {
  Item : QueueItem;
  Merged : bool;
  Method : vcs.MergeMethod;
  CommitSHA : string;
  FellBack : bool;
  Err_ : option vcs.error }.

(** [Queue]: its authority, its local provider, and the state under [mu]. *)
Record Queue := mkQueue {
  auth : option Authority;
  local : option (vcs.ChangeRequestProvider W);
  items : list QueueItem;
  closed : bool }.

Definition NewQueue (a : option Authority) (localProvider : option (vcs.ChangeRequestProvider W)) :
    Queue := mkQueue a localProvider [] false.

Definition Enqueue (item : QueueItem) (q : Queue) : result string Queue :=
  match auth q with
  | None => Err "merge: queue has no authority"
  | Some _ =>
      if bool_decide (Decision_ (Item_Decision item) ≠ DecisionAllowMerge) then
        Err ("merge: cannot enqueue decision "
             +:+ strs.q (Decision_String (Decision_ (Item_Decision item)))
             +:+ "; only ALLOW_MERGE is queueable")
      else match Provider item with
      | None => Err "merge: queue item has no provider"
      | Some _ =>
          if closed q then Err "merge: queue is closed"
          else Ok (mkQueue (auth q) (local q) (items q ++ [item]) false)
      end
  end.

Definition Queue_Len (q : Queue) : Z := Z.of_nat (length (items q)).

Definition dequeue (q : Queue) : option (QueueItem * Queue) :=
  match items q with
  | [] => None
  | item :: rest => Some (item, mkQueue (auth q) (local q) rest (closed q))
  end.

Definition Close (q : Queue) : Queue := mkQueue (auth q) (local q) (items q) true.

Definition CanLocalMergeMode (res : policy.Resolved) : bool :=
  let p := policy.Resolved_Pipeline res in
  policy.Merge p && negb (policy.ChangeRequest_Create (policy.ChangeRequest p)).

(** The local retry of a request has no change-request number. *)
Definition localRequest (r : vcs.MergeRequest) : vcs.MergeRequest :=
  vcs.mkMergeRequest (vcs.Merge_TaskID r) 0 (vcs.Merge_HeadBranch r)
    (vcs.Merge_BaseBranch r) (vcs.Merge_HeadSHA r) (vcs.Merge_Method r)
    (vcs.CommitMessage r).

(** [processOne] of an item that passed [Enqueue]: authority [a], provider
    [p].  The Go method's second result is always nil. *)
Definition processOne (a : Authority) (lp : option (vcs.ChangeRequestProvider W))
    (item : QueueItem) (p : vcs.ChangeRequestProvider W) (st : St) : QueueOutcome * St :=
  let '((res, err), st) := Merge a (Item_Decision item) (Item_Policy item) p (Request item) st in
  match err with
  | None => (mkQueueOutcome item (vcs.Merged res) (vcs.Method res) (vcs.CommitSHA res) false None, st)
  | Some e =>
      let failed e := mkQueueOutcome item false (vcs.MergeMethodOther "") "" false (Some e) in
      if vcs.Is e vcs.ErrBranchNotCurrent then (failed e, st)
      else match lp with
      | Some l =>
          if AllowLocalFallback item && vcs.IsNetwork (vcs.Capabilities_ p)
             && CanLocalMergeMode (Item_Policy item) then
            let '((lres, lerr), st) :=
              Merge a (Item_Decision item) (Item_Policy item) l (localRequest (Request item)) st in
            match lerr with
            | None => (mkQueueOutcome item (vcs.Merged lres) (vcs.Method lres)
                         (vcs.CommitSHA lres) true None, st)
            | Some le =>
                (failed (vcs.mkError [] ("remote merge: " +:+ vcs.Error e +:+
                   "; local fallback: " +:+ vcs.Error le)), st)
            end
          else (failed e, st)
      | None => (failed e, st)
      end
  end.

(** What other goroutines do to the queue: [Enqueue] (its error is theirs) and
    [Close]. *)
Definition arrive (cmds : list (option QueueItem)) (q : Queue) : Queue :=
  foldl (λ q cmd, match cmd with
                  | Some item => match Enqueue item q with Ok q => q | Err _ => q end
                  | None => Close q
                  end) q cmds.

(** [Process]: drains the queue in FIFO order.  The mutex is only held by
    [dequeue]: what arrives while an item is processed is seen by the next one;
    [arrivals] has one batch per item.  [cancelled] is [ctx.Err() != nil] as the
    world stands after an item.  [None] is no fuel left, or the nil-pointer panic
    of an item without a provider or of a queue without an authority, which
    [Enqueue] keeps out. *)
Fixpoint Process (fuel : nat) (cancelled : W → bool) (arrivals : list (list (option QueueItem))) (q : Queue) (st : St) :
    option (list QueueOutcome * bool * Queue * St) :=
  match fuel with
  | 0 => None
  | S fuel =>
      match dequeue q with
      | None => Some ([], false, q, st)
      | Some (item, q) =>
          match auth q, Provider item with
          | Some a, Some p =>
              let '(oc, st) := processOne a (local q) item p st in
              let q := arrive (default [] (head arrivals)) q in
              if cancelled (world st) then Some ([oc], true, q, st)
              else match Process fuel cancelled (tail arrivals) q st with
                   | Some (ocs, c, q', st') => Some (oc :: ocs, c, q', st')
                   | None => None
                   end
          | _, _ => None
          end
      end
  end.

(** [ProcessOne]: the first item only. *)
Definition ProcessOne (q : Queue) (st : St) : option (option QueueOutcome * Queue * St) :=
  match dequeue q with
  | None => Some (None, q, st)
  | Some (item, q) =>
      match auth q, Provider item with
      | Some a, Some p => let '(oc, st) := processOne a (local q) item p st in Some (Some oc, q, st)
      | _, _ => None
      end
  end.

End authority.
Arguments St : clear implicits.
Arguments QueueItem : clear implicits.
Arguments QueueOutcome : clear implicits.
Arguments Queue : clear implicits.

(** ** Governor lemmas *)

(** What the gates of [buildGates] ask of an input. *)
Record gatesHold (i : Input) : Prop := {
  gh_spec : SpecificationLocked i = true;
  gh_scope : ScopeValid i = true;
  gh_checks : RequiredChecksPassed i = true;
  gh_evidence : AcceptanceEvidenceComplete i = true ∧ evidence.IsComplete (Evidence i) = true;
  gh_blocker : BlockerFindings i = 0%Z;
  gh_major : MajorFindings i = 0%Z;
  gh_target : TargetAllowed i = true;
  gh_current : BranchCurrent i = true;
  gh_budget : BudgetPolicySatisfied i = true;
  gh_visual : VisualPolicySatisfied i = true;
  gh_tests : policy.Merge (policy.Resolved_Pipeline (Policy i)) = true →
    policy.Tests_RequireForRemoteMerge (policy.Tests (policy.Resolved_Pipeline (Policy i))) = true →
    testsPassed i = true;
  gh_review : policy.Merge (policy.Resolved_Pipeline (Policy i)) = true →
    ∀ f, f ∈ review.Findings (ReviewResult i) → review.IsBlocker f = false }.

(** The tests were required, ran, and did not pass. *)
Definition testsFailed (i : Input) : bool :=
  let p := policy.Resolved_Pipeline (Policy i) in
  policy.Merge p && policy.Tests_RequireForRemoteMerge (policy.Tests p)
  && testengine.TestsWereRun (TestSummary i) && negb (testsPassed i).

Definition permitted (p : policy.Pipeline) : Decision :=
  if policy.Merge p then DecisionAllowMerge
  else if policy.ChangeRequest_Create (policy.ChangeRequest p) && policy.Git_Push (policy.Git p)
  then DecisionAllowChangeRequest
  else if policy.Git_Push (policy.Git p) then DecisionAllowPush
  else DecisionAllowLocalResult.

Lemma existsb_failed p l :
  existsb p (failedGates l) = existsb (λ g, negb (Passed g) && p g) l.
Proof.
  induction l as [|g l IH]; [done|]. unfold failedGates in *. rewrite filter_cons.
  destruct (Passed g) eqn:E; [rewrite decide_False by done|rewrite decide_True by done];
    simpl; by rewrite E, IH.
Qed.

Lemma failedGates_nil l : failedGates l = [] ↔ Forall (λ g, Passed g = true) l.
Proof.
  unfold failedGates. rewrite Forall_forall. split.
  - intros H g Hg. destruct (Passed g) eqn:E; [done|].
    assert (g ∈ filter (λ g, Passed g = false) l) as Hin by (by apply list_elem_of_filter).
    rewrite H in Hin. by apply elem_of_nil in Hin.
  - intros H. destruct (filter _ l) as [|g l'] eqn:E; [done|].
    assert (g ∈ filter (λ g, Passed g = false) l) as Hin by (rewrite E; left).
    apply list_elem_of_filter in Hin as [Hp Hg]. rewrite (H g Hg) in Hp. done.
Qed.

Lemma testGates_passed i :
  Forall (λ g, Passed g = true) (testGates i) ↔
    (policy.Merge (policy.Resolved_Pipeline (Policy i)) = true →
     policy.Tests_RequireForRemoteMerge (policy.Tests (policy.Resolved_Pipeline (Policy i))) = true →
     testsPassed i = true).
Proof.
  unfold testGates.
  destruct (policy.Merge _), (policy.Tests_RequireForRemoteMerge _); cbn [andb negb];
    try (split; [intros _ ??; discriminate|intros _; apply Forall_nil_2]).
  rewrite Forall_app, Forall_singleton; cbn [Passed]. split; [tauto|].
  intros H; specialize (H eq_refl eq_refl). split; [done|]. rewrite H.
  unfold testsPassed in H. apply andb_true_iff in H as [-> _]. constructor.
Qed.

Lemma reviewGates_passed i :
  Forall (λ g, Passed g = true) (reviewGates i) ↔
    (policy.Merge (policy.Resolved_Pipeline (Policy i)) = true →
     ∀ f, f ∈ review.Findings (ReviewResult i) → review.IsBlocker f = false).
Proof.
  unfold reviewGates. destruct (policy.Merge _); cbn [andb].
  2: { split; [done|constructor]. }
  rewrite <-existsb_elem_false. destruct (existsb _ _); cbn; split; try done.
  - rewrite Forall_singleton. done.
  - intros H. by specialize (H eq_refl).
Qed.

Lemma failedGates_buildGates i : failedGates (buildGates i) = [] ↔ gatesHold i.
Proof.
  rewrite failedGates_nil. unfold buildGates.
  rewrite !Forall_app, testGates_passed, reviewGates_passed.
  unfold baseGates. rewrite !Forall_cons, Forall_nil; cbn [Passed].
  rewrite andb_true_iff, !Z.eqb_eq. split.
  - intros ((? & ? & ? & [? ?] & ? & ? & ? & ? & ? & ? & _) & ? & ?). by constructor.
  - intros []. tauto.
Qed.

(** Neither a rebase nor a repair gate is among the §24.5/AC-29 gates, but for
    the failed-tests one. *)
Lemma rebase_gate i :
  existsb (λ g, bool_decide (Name g = "branch_current")) (failedGates (buildGates i))
  = negb (BranchCurrent i).
Proof.
  rewrite existsb_failed. unfold buildGates. rewrite !existsb_app.
  assert (existsb (λ g, negb (Passed g) && bool_decide (Name g = "branch_current")) (testGates i)
    = false) as ->.
  { unfold testGates. repeat case_match; cbn; by rewrite ?andb_false_r. }
  assert (existsb (λ g, negb (Passed g) && bool_decide (Name g = "branch_current")) (reviewGates i)
    = false) as -> by (unfold reviewGates; by case_match).
  cbn. by rewrite !andb_false_r, andb_true_r, !orb_false_r.
Qed.

Lemma repair_gate i :
  existsb needsRepair (failedGates (buildGates i))
  = negb (BlockerFindings i =? 0)%Z || negb (MajorFindings i =? 0)%Z || testsFailed i.
Proof.
  rewrite existsb_failed. unfold buildGates. rewrite !existsb_app.
  assert (existsb (λ g, negb (Passed g) && needsRepair g) (testGates i) = testsFailed i) as ->.
  { unfold testGates, testsFailed.
    destruct (policy.Merge _ && _); [|done].
    destruct (testengine.TestsWereRun _), (testsPassed i); done. }
  assert (existsb (λ g, negb (Passed g) && needsRepair g) (reviewGates i) = false) as ->
    by (unfold reviewGates; by case_match).
  cbn. rewrite !andb_false_r, !andb_true_r, !orb_false_r; cbn.
  by destruct (_ =? 0)%Z.
Qed.

(** The decision as a function of the input alone. *)
Lemma Decide_cases i :
  Decision_ (Decide i) =
    if negb (BranchCurrent i) then DecisionRequireRebase
    else if negb (BlockerFindings i =? 0)%Z || negb (MajorFindings i =? 0)%Z || testsFailed i
    then DecisionRequireRepair
    else match failedGates (buildGates i) with
         | [] => permitted (policy.Resolved_Pipeline (Policy i))
         | _ => DecisionPolicyBlocked
         end.
Proof.
  unfold Decide. rewrite rebase_gate, repair_gate.
  destruct (negb (BranchCurrent i)); [done|]. destruct (_ || testsFailed i); [done|].
  destruct (failedGates (buildGates i)) as [|g gs]; cbn [mandatoryReason].
  - unfold permitted. by repeat case_match.
  - by repeat case_match.
Qed.

Lemma gatesHold_not_repair i : gatesHold i →
  BranchCurrent i = true ∧
  negb (BlockerFindings i =? 0)%Z || negb (MajorFindings i =? 0)%Z || testsFailed i = false.
Proof.
  intros []. split; [done|]. rewrite gh_blocker0, gh_major0. cbn.
  unfold testsFailed. destruct (policy.Merge _) eqn:E1; [|done].
  destruct (policy.Tests_RequireForRemoteMerge _) eqn:E2; [|done].
  rewrite gh_tests0 by done. by rewrite andb_false_r.
Qed.

Lemma Decide_gatesHold i :
  gatesHold i → Decision_ (Decide i) = permitted (policy.Resolved_Pipeline (Policy i)).
Proof.
  intros H. rewrite Decide_cases. destruct (gatesHold_not_repair i H) as [-> ->]. simpl.
  by apply failedGates_buildGates in H as ->.
Qed.

Lemma permitted_IsAllow p : IsAllow (permitted p) = true.
Proof. unfold permitted. by repeat case_match. Qed.

Lemma Decide_IsAllow i : IsAllow (Decision_ (Decide i)) = true ↔ gatesHold i.
Proof.
  split.
  - rewrite Decide_cases, <-failedGates_buildGates.
    destruct (negb _); [done|]. destruct (_ || testsFailed i); [done|].
    by destruct (failedGates _).
  - intros H. rewrite (Decide_gatesHold i H). apply permitted_IsAllow.
Qed.

Lemma Decide_merge i :
  Decision_ (Decide i) = DecisionAllowMerge ↔
    gatesHold i ∧ policy.Merge (policy.Resolved_Pipeline (Policy i)) = true.
Proof.
  split.
  - intros H. assert (gatesHold i) as Hg by (apply Decide_IsAllow; by rewrite H).
    split; [done|]. rewrite (Decide_gatesHold i Hg) in H. unfold permitted in H.
    by repeat case_match.
  - intros [Hg Hm]. rewrite (Decide_gatesHold i Hg). unfold permitted. by rewrite Hm.
Qed.

(** ** Governor properties *)

(** C10: the Merge Governor (§28).  The decision is an ALLOW exactly when every
    gate holds, and is then the strongest delivery action the resolved policy
    permits; a stale branch always gives REQUIRE_REBASE, a current one with
    findings or failed required tests REQUIRE_REPAIR, anything else that fails
    POLICY_BLOCKED.  No input gives QUARANTINE. *)
Theorem Decide_spec i :
  let d := Decision_ (Decide i) in
  let repair := negb (BlockerFindings i =? 0)%Z || negb (MajorFindings i =? 0)%Z
                || testsFailed i in
  (IsAllow d = true ↔ gatesHold i) ∧
  (gatesHold i → d = permitted (policy.Resolved_Pipeline (Policy i))) ∧
  (d = DecisionRequireRebase ↔ BranchCurrent i = false) ∧
  (d = DecisionRequireRepair ↔ BranchCurrent i = true ∧ repair = true) ∧
  (d = DecisionPolicyBlocked ↔ BranchCurrent i = true ∧ repair = false ∧ ¬ gatesHold i).
Proof.
  cbv zeta. pose proof (Decide_IsAllow i) as Ha. pose proof (Decide_gatesHold i) as Hg.
  pose proof (permitted_IsAllow (policy.Resolved_Pipeline (Policy i))) as Hp.
  pose proof (failedGates_buildGates i) as Hf.
  split; [done|]. split; [done|]. clear Hg Ha. rewrite <-Hf, Decide_cases. clear Hf.
  generalize dependent (permitted (policy.Resolved_Pipeline (Policy i))).
  generalize (negb (BlockerFindings i =? 0)%Z || negb (MajorFindings i =? 0)%Z || testsFailed i)
    as rep.
  intros rep d Hd. destruct (BranchCurrent i), rep, (failedGates _), d;
    cbn in *; try discriminate Hd; intuition congruence.
Qed.

(** C4: from verification to merge.  When the summary is what the test engine
    returned for some runner, an ALLOW_MERGE means that no blocker finding is
    open and that every criterion with evidence has a passing one; and, as long
    as the resolved policy, which a task's override may have changed, requires
    tests for a merge ([require_for_remote_merge]), that a targeted-or-deeper
    level ran and passed and that no level failed.  Without that requirement
    tests do not count: [Decide_override_bypasses_tests]. *)
Theorem Decide_merge_is_verified {W}
    (Run : testengine.RunRequest → W → result string testengine.Result * W) vi w w' i :
  testengine.Verify Run vi w = ((TestSummary i, None), w') →
  Decision_ (Decide i) = DecisionAllowMerge →
  (policy.Tests_RequireForRemoteMerge (policy.Tests (policy.Resolved_Pipeline (Policy i))) = true →
    (∃ r, r ∈ testengine.Results (TestSummary i) ∧
          (testengine.LevelTargeted ≤ testengine.Level r)%Z ∧
          testengine.Status r = testengine.StatusPassed) ∧
    Forall (λ r, testengine.Status r ≠ testengine.StatusFailed)
      (testengine.Results (TestSummary i))) ∧
  Forall (λ f, review.IsBlocker f = false) (review.Findings (ReviewResult i)) ∧
  ∀ e, e ∈ evidence.Items (Evidence i) → ∃ e', e' ∈ evidence.Items (Evidence i) ∧
    evidence.CriterionID e' = evidence.CriterionID e ∧ evidence.Status e' = "passed".
Proof.
  intros HV Hd. apply Decide_merge in Hd as [Hg Hm]. split_and!.
  - intros Hreq. pose proof (gh_tests i Hg Hm Hreq) as Ht. unfold testsPassed in Ht.
    apply andb_true_iff in Ht as [Hran Hst]. apply bool_decide_eq_true in Hst.
    split; [|by apply testengine.OverallStatus_passed].
    apply testengine.OverallStatus_tests_passed; [|done..].
    by apply (testengine.Verify_tests_run Run vi w _ w').
  - apply Forall_forall. by apply (gh_review i Hg Hm).
  - destruct (gh_evidence i Hg) as [_ He]. by apply evidence.IsComplete_true in He as [_ He].
Qed.

(** An input in which every gate but the tests holds. *)
Definition readyInput (resolved : policy.Resolved) (s : testengine.Summary) : Input := {|
  Policy := resolved;
  SpecificationLocked := true; ScopeValid := true; RequiredChecksPassed := true;
  AcceptanceEvidenceComplete := true; BlockerFindings := 0; MajorFindings := 0;
  TargetAllowed := true; BranchCurrent := true; BudgetPolicySatisfied := true;
  VisualPolicySatisfied := true;
  Evidence := evidence.mkSet [evidence.mkEvidence "AC-1" evidence.EvidenceTest "t" "passed"
                                evidence.ConfidenceHigh true];
  TestSummary := s;
  ReviewResult := review.mkResult [] [review.RoleCorrectness] [] |}.

Definition autonomous : policy.Resolved :=
  (policy.Resolve (policy.NewProject policy.ProfileAutonomous) (policy.mkTaskContext None false)).1.

Definition passingRunner (_ : testengine.RunRequest) (n : nat) :
    result string testengine.Result * nat :=
  (Ok (testengine.bareResult 0 testengine.StatusEmpty), S n).

Definition autonomousRun : testengine.Summary :=
  (testengine.Verify passingRunner (testengine.mkVerifyInput autonomous [] 0) 0).1.1.

Lemma Decide_merge_is_verified_witness :
  ∃ r, r ∈ testengine.Results autonomousRun ∧
       (testengine.LevelTargeted ≤ testengine.Level r)%Z ∧
       testengine.Status r = testengine.StatusPassed.
Proof.
  destruct (Decide_merge_is_verified passingRunner (testengine.mkVerifyInput autonomous [] 0) 0 5
    (readyInput autonomous autonomousRun)) as [H _]; [vm_compute; reflexivity..|].
  exact (proj1 (H eq_refl)).
Defined.

(** The task override of §24.5: the same project, the same input with no test
    run.  Without an override the Governor blocks; an override that clears the
    toggle [tests.require_for_remote_merge] makes it allow the merge, against
    the comments of [Decide] and [buildGates]. *)
Lemma Decide_override_bypasses_tests :
  let t := policy.Tests policy.autonomousDefaults in
  let over := policy.set_Tests
    (policy.mkTests false false false false true false false) policy.autonomousDefaults in
  let resolved := (policy.Resolve (policy.NewProject policy.ProfileAutonomous)
                     (policy.mkTaskContext (Some over) false)).1 in
  Decision_ (Decide (readyInput autonomous testengine.zeroSummary)) = DecisionPolicyBlocked ∧
  Decision_ (Decide (readyInput resolved testengine.zeroSummary)) = DecisionAllowMerge.
Proof. vm_compute. done. Qed.

(** A mandatory review that never ran does not stop the merge. *)
Lemma Decide_ignores_missing_mandatory_review :
  let project := policy.mkProject policy.ProfileAutonomous policy.autonomousDefaults
    (policy.mkSecurity (policy.mkMandatory true true true) false false) in
  let resolved := (policy.Resolve project (policy.mkTaskContext None false)).1 in
  let i := readyInput resolved autonomousRun in
  let i' := mkInput (Policy i) true true true true 0 0 true true true true (Evidence i)
    autonomousRun (review.mkResult [] [] []) in
  Decision_ (Decide i') = DecisionAllowMerge.
Proof. vm_compute. done. Qed.

(** ** Authority *)

Section delivery.
  Context {W : Type}.

(** The seven delivery operations, each with the arguments the Authority gets
    beyond the resolved policy. *)
Inductive Op :=
| OpPush (dec : Result) (p : vcs.ChangeRequestProvider W) (req : vcs.PushBranchRequest)
| OpCreate (dec : Result) (p : vcs.ChangeRequestProvider W) (req : vcs.CreateChangeRequestRequest)
| OpUpdate (dec : Result) (p : vcs.ChangeRequestProvider W) (req : vcs.UpdateChangeRequestRequest)
| OpChecks (p : vcs.ChangeRequestProvider W) (req : vcs.GetChecksRequest)
| OpAutoMerge (dec : Result) (p : vcs.ChangeRequestProvider W) (req : vcs.EnableAutoMergeRequest)
| OpMerge (dec : Result) (p : vcs.ChangeRequestProvider W) (req : vcs.MergeRequest)
| OpRevert (dec : Result) (p : vcs.ChangeRequestProvider W) (req : vcs.RevertRequest).

(** Run one operation; its error is what the caller sees. *)
Definition deliver (a : Authority) (resolved : policy.Resolved) (op : Op) (st : St W) :
    option vcs.error * St W :=
  match op with
  | OpPush dec p req => let '((_, e), st) := Push a dec resolved p req st in (e, st)
  | OpCreate dec p req => let '((_, e), st) := CreateChangeRequest a dec resolved p req st in (e, st)
  | OpUpdate dec p req => let '((_, e), st) := UpdateChangeRequest a dec resolved p req st in (e, st)
  | OpChecks p req => let '((_, e), st) := GetChecks a resolved p req st in (e, st)
  | OpAutoMerge dec p req => EnableAutoMerge a dec resolved p req st
  | OpMerge dec p req => let '((_, e), st) := Merge a dec resolved p req st in (e, st)
  | OpRevert dec p req => let '((_, e), st) := Revert a dec resolved p req st in (e, st)
  end.

(** What the provider itself would do. *)
Definition providerCall (op : Op) (w : W) : option vcs.error * W :=
  match op with
  | OpPush _ p req => let '((_, e), w) := vcs.PushBranch p req w in (e, w)
  | OpCreate _ p req => let '((_, e), w) := vcs.CreateChangeRequest p req w in (e, w)
  | OpUpdate _ p req => let '((_, e), w) := vcs.UpdateChangeRequest p req w in (e, w)
  | OpChecks p req => let '((_, e), w) := vcs.GetChecks p req w in (e, w)
  | OpAutoMerge _ p req => vcs.EnableAutoMerge p req w
  | OpMerge _ p req => let '((_, e), w) := vcs.Merge p req w in (e, w)
  | OpRevert _ p req => let '((_, e), w) := vcs.Revert p req w in (e, w)
  end.

Definition opProvider (op : Op) : vcs.ChangeRequestProvider W :=
  match op with
  | OpPush _ p _ | OpCreate _ p _ | OpUpdate _ p _ | OpChecks p _
  | OpAutoMerge _ p _ | OpMerge _ p _ | OpRevert _ p _ => p
  end.

Definition opAction (op : Op) : policy.Action :=
  match op with
  | OpPush _ _ _ | OpChecks _ _ => policy.ActPush
  | OpCreate _ _ _ => policy.ActCreateChangeRequest
  | OpUpdate _ _ _ => policy.ActUpdateChangeRequest
  | OpAutoMerge _ _ _ | OpMerge _ _ _ | OpRevert _ _ _ => policy.ActMerge
  end.

(** The decision level an operation needs; reading checks needs none, only a
    provider that can. *)
Definition opLevel (op : Op) : bool :=
  match op with
  | OpPush dec _ _ => requiresDecision DecisionAllowPush (Decision_ dec)
  | OpCreate dec _ _ | OpUpdate dec _ _ =>
      requiresDecision DecisionAllowChangeRequest (Decision_ dec)
  | OpChecks p _ => vcs.Cap_GetChecks (vcs.Capabilities_ p)
  | OpAutoMerge dec _ _ | OpMerge dec _ _ | OpRevert dec _ _ =>
      requiresDecision DecisionAllowMerge (Decision_ dec)
  end.

Definition mayDeliver (resolved : policy.Resolved) (op : Op) : bool :=
  opLevel op && policy.Allow (policy.Allows resolved (opAction op))
  && negb (vcs.IsNetwork (vcs.Capabilities_ (opProvider op))
           && policy.IsNetworkLocked (policy.Resolved_Profile resolved)).

Lemma authorise_None dec resolved (p : vcs.ChangeRequestProvider W) act label lv :
  authorise dec resolved p act label lv = None ↔
    lv (Decision_ dec) && policy.Allow (policy.Allows resolved act)
    && negb (vcs.IsNetwork (vcs.Capabilities_ p)
             && policy.IsNetworkLocked (policy.Resolved_Profile resolved)) = true.
Proof.
  unfold authorise. destruct (lv _), (policy.Allow _), (_ && _); cbn; naive_solver.
Qed.

Lemma record_prefix a taskID ty err payload t :
  t `prefix_of` record a taskID ty err payload t.
Proof. unfold record. destruct (audit_ a); [apply audit.Record_prefix|done]. Qed.

Lemma auditDeny_prefix a taskID act err t : t `prefix_of` auditDeny a taskID act err t.
Proof.
  unfold auditDeny. destruct (audit_ a); [|done]. destruct (vcs.Is _ _); [done|].
  apply audit.Record_prefix.
Qed.

(** One gated call, by whether it is authorised. *)
Lemma gated_spec {R} a dec resolved (p : vcs.ChangeRequestProvider W) act label min taskID
    denied ty (zero : R) call payload st res e st' :
  gated a dec resolved p act label min taskID denied ty zero call payload st = ((res, e), st') →
  trail st `prefix_of` trail st' ∧
  if requiresDecision min (Decision_ dec) && policy.Allow (policy.Allows resolved act)
     && negb (vcs.IsNetwork (vcs.Capabilities_ p)
              && policy.IsNetworkLocked (policy.Resolved_Profile resolved))
  then call (world st) = ((res, e), world st')
  else is_Some e ∧ world st' = world st.
Proof.
  unfold gated. pose proof (authorise_None dec resolved p act label (requiresDecision min)) as Ha.
  destruct (authorise _ _ _ _ _ _) as [err|].
  - intros [= <- <- <-]. split; [apply auditDeny_prefix|].
    destruct (_ && _) eqn:E; [by destruct Ha as [_ Ha]; specialize (Ha eq_refl)|by eauto].
  - destruct Ha as [Ha _]. rewrite Ha by done.
    destruct (call (world st)) as [[r e'] w'] eqn:Ec. intros [= <- <- <-].
    split; [apply record_prefix|done].
Qed.

Lemma deliver_spec a resolved op st e st' :
  deliver a resolved op st = (e, st') →
  trail st `prefix_of` trail st' ∧
  if mayDeliver resolved op
  then providerCall op (world st) = (e, world st')
  else is_Some e ∧ world st' = world st.
Proof.
  destruct op; cbn [deliver];
    unfold Push, CreateChangeRequest, UpdateChangeRequest, EnableAutoMerge, Merge, Revert;
    unfold mayDeliver; cbn [opLevel opAction opProvider providerCall].
  4: { unfold GetChecks. destruct (vcs.Cap_GetChecks _); cbn [negb andb].
    2: { intros [= <- <-]. by eauto. }
    destruct (_ && policy.IsNetworkLocked _); cbn [negb].
    { rewrite andb_false_r. intros [= <- <-]. by eauto. }
    rewrite andb_true_r.
    destruct (policy.Allow _); cbn [negb].
    2: { intros [= <- <-]. by eauto. }
    destruct (vcs.GetChecks _ _ _) as [[cs err] w] eqn:E. intros [= <- <-].
    split; [apply record_prefix|done]. }
  all: match goal with |- context [gated ?a ?d ?r ?p ?ac ?l ?m ?t ?de ?ty ?z ?c ?pl ?st] =>
      destruct (gated a d r p ac l m t de ty z c pl st) as [[res err] st1] eqn:E end;
    intros [= <- <-]; apply gated_spec in E as [Hpre E]; (split; [done|]);
    destruct (requiresDecision _ _ && _ && _); try done.
  all: try (by rewrite E).
  destruct (vcs.EnableAutoMerge _ _ _) as [e' w']. by simplify_eq.
Qed.

(** With a recorder whose store accepts rows, every gated call leaves exactly
    one row: its event when authorised, a denial when refused. *)
Definition audits (a : Authority) : Prop :=
  ∃ rec, audit_ a = Some rec ∧ ∀ row, audit.store_ok rec row = true.

Lemma record_row a taskID ty err payload t :
  audits a → ty ≠ "" →
  ∃ row, record a taskID ty err payload t = t ++ [row] ∧ audit.AuditEvent_Type row = ty.
Proof.
  intros (rec & Ha & Hs) Hty. unfold record. rewrite Ha. eexists. split.
  - by apply audit.Record_stored.
  - done.
Qed.

Lemma auditDeny_row a taskID act err t :
  audits a → vcs.Is err vcs.ErrUnsupported = false →
  ∃ row, auditDeny a taskID act err t = t ++ [row] ∧
         audit.AuditEvent_Type row = "vcs.delivery.denied".
Proof.
  intros (rec & Ha & Hs) He. unfold auditDeny. rewrite Ha, He. eexists. split.
  - by apply audit.Record_stored.
  - done.
Qed.

Lemma authorise_supported dec resolved (p : vcs.ChangeRequestProvider W) act label lv err :
  authorise dec resolved p act label lv = Some err → vcs.Is err vcs.ErrUnsupported = false.
Proof. unfold authorise. repeat case_match; intros [= <-]; reflexivity. Qed.

Lemma gated_row {R} a dec resolved (p : vcs.ChangeRequestProvider W) act label min taskID
    denied ty (zero : R) call payload st out st' :
  audits a → ty ≠ "" →
  gated a dec resolved p act label min taskID denied ty zero call payload st = (out, st') →
  ∃ row, trail st' = trail st ++ [row].
Proof.
  intros Ha Hty. unfold gated.
  destruct (authorise _ _ _ _ _ _) as [err|] eqn:E.
  - intros [= <- <-]. apply authorise_supported in E.
    destruct (auditDeny_row a taskID denied err (trail st) Ha E) as (row & Hr & _). by exists row.
  - destruct (call (world st)) as [[r e'] w']. intros [= <- <-].
    destruct (record_row a taskID ty e' (audit.Payload (payload r)) (trail st) Ha Hty)
      as (row & Hr & _). by exists row.
Qed.

Definition opGated (op : Op) : bool := match op with OpChecks _ _ => false | _ => true end.

Lemma deliver_row a resolved op st e st' :
  audits a → opGated op = true → deliver a resolved op st = (e, st') →
  ∃ row, trail st' = trail st ++ [row].
Proof.
  intros Ha Hop. destruct op; cbn [deliver]; try done;
    unfold Push, CreateChangeRequest, UpdateChangeRequest, EnableAutoMerge, Merge, Revert.
  all: match goal with |- context [gated ?a ?d ?r ?p ?ac ?l ?m ?t ?de ?ty ?z ?c ?pl ?st] =>
      destruct (gated a d r p ac l m t de ty z c pl st) as [[res err] st1] eqn:E end;
    intros [= <- <-]; by apply gated_row in E.
Qed.

(** A sequence of operations, with the errors each returned. *)
Fixpoint deliverAll (a : Authority) (resolved : policy.Resolved) (ops : list Op) (st : St W) :
    list (option vcs.error) * St W :=
  match ops with
  | [] => ([], st)
  | op :: ops =>
      let '(e, st) := deliver a resolved op st in
      let '(es, st) := deliverAll a resolved ops st in (e :: es, st)
  end.

Lemma mayDeliver_locked project task op :
  policy.isLocked project = true → mayDeliver (policy.Resolve project task).1 op = false.
Proof.
  intros Hl. unfold mayDeliver. rewrite policy.effective_allows.
  destruct (policy.effective_locked project (policy.Override task) Hl) as [p ->].
  rewrite policy.locked_denies; [by rewrite andb_false_r|].
  destruct op; cbn; unfold policy.network_actions; set_solver.
Qed.

Definition opDecision (op : Op) : option Result :=
  match op with
  | OpPush dec _ _ | OpCreate dec _ _ | OpUpdate dec _ _
  | OpAutoMerge dec _ _ | OpMerge dec _ _ | OpRevert dec _ _ => Some dec
  | OpChecks _ _ => None
  end.

Lemma requiresDecision_IsAllow min d :
  (0 ≤ decisionRank min)%Z → requiresDecision min d = true → IsAllow d = true.
Proof. unfold requiresDecision. intros Hm H%Z.leb_le. by destruct d; simpl in H; try lia. Qed.

Lemma opLevel_IsAllow op dec :
  opDecision op = Some dec → opLevel op = true → IsAllow (Decision_ dec) = true.
Proof.
  destruct op; cbn; intros [=]; subst; intros H;
    by apply requiresDecision_IsAllow in H.
Qed.
End delivery.
Arguments Op : clear implicits.

(** ** Authority properties *)

(** C3: the single delivery chokepoint (§28, ADR-0009), for every provider.  A
    delivery operation acts on the world exactly as the provider does when the
    decision is strong enough, the resolved policy allows the action and no
    network provider runs under a network-locked profile; otherwise it returns
    an error and the provider is not called.  An operation under a decision of
    the Governor that changes the world had every gate hold.  The audit trail
    only grows, and a gated call leaves exactly one row. *)
Theorem deliver_chokepoint {W} a resolved (op : Op W) st e st' :
  deliver a resolved op st = (e, st') →
  (mayDeliver resolved op = true → providerCall op (world st) = (e, world st')) ∧
  (mayDeliver resolved op = false → is_Some e ∧ world st' = world st) ∧
  (∀ i, opDecision op = Some (Decide i) → world st' ≠ world st → gatesHold i) ∧
  trail st `prefix_of` trail st' ∧
  (audits a → opGated op = true → ∃ row, trail st' = trail st ++ [row]).
Proof.
  intros H. destruct (deliver_spec a resolved op st e st' H) as [Hpre Hs].
  split_and!.
  - intros Hm. by rewrite Hm in Hs.
  - intros Hm. by rewrite Hm in Hs.
  - intros i Hi Hw. apply Decide_IsAllow.
    destruct (mayDeliver resolved op) eqn:Hm; [|by destruct Hs].
    unfold mayDeliver in Hm. apply andb_true_iff in Hm as [Hm _].
    apply andb_true_iff in Hm as [Hm _]. by apply (opLevel_IsAllow op).
  - done.
  - intros Ha Hg. by apply (deliver_row a resolved op st e st').
Qed.

(** A provider that counts its calls, and an Authority that audits. *)
Definition countingProvider (network : bool) : vcs.ChangeRequestProvider nat :=
  vcs.mkProvider nat "github" (vcs.mkCapabilities true true true true true true true network)
    (λ _ n, ((vcs.mkPushResult "" "" "", None), S n))
    (λ _ n, ((vcs.mkChangeRequest "" 1 "" "" "" "" "" "" None, None), S n))
    (λ _ n, ((vcs.mkChangeRequest "" 1 "" "" "" "" "" "" None, None), S n))
    (λ _ n, ((vcs.mkCheckStatus true true false [], None), S n))
    (λ _ n, (None, S n))
    (λ _ n, ((vcs.mkMergeResult true vcs.MergeMethodSquash "abc" "main", None), S n))
    (λ _ n, ((vcs.mkRevertResult true "def", None), S n)).

Definition auditingAuthority : Authority :=
  mkAuthority (Some (audit.mkRecorder (λ _, true) 1)) 1.

Definition mergeReq : vcs.MergeRequest :=
  vcs.mkMergeRequest "T-1" 7 "forge/T-1" "main" "sha" vcs.MergeMethodSquash "msg".

Lemma deliver_chokepoint_witness :
  let i := readyInput autonomous autonomousRun in
  let op := OpMerge (Decide i) (countingProvider true) mergeReq in
  let out := deliver auditingAuthority autonomous op (mkSt 0 []) in
  world out.2 = 1 ∧ gatesHold i ∧ ∃ row, trail out.2 = [row].
Proof.
  cbv zeta.
  destruct (deliver_chokepoint auditingAuthority autonomous
    (OpMerge (Decide (readyInput autonomous autonomousRun)) (countingProvider true) mergeReq)
    (mkSt 0 []) None
    (deliver auditingAuthority autonomous
       (OpMerge (Decide (readyInput autonomous autonomousRun)) (countingProvider true) mergeReq)
       (mkSt 0 [])).2) as (_ & _ & H & _ & Hrow); [vm_compute; reflexivity|].
  split; [vm_compute; reflexivity|]. split.
  - apply (H _ eq_refl). vm_compute. discriminate.
  - apply Hrow; [|reflexivity]. exists (audit.mkRecorder (λ _, true) 1). by split.
Defined.

(** AC-7 end to end.  In a network-locked project, no sequence of delivery
    requests, with whatever decisions (forged or stale), providers and task
    override, reaches a provider: every request errors and the world stays as
    it was; each refusal of a gated operation is in the audit trail. *)
Theorem deliverAll_locked {W} project task a (ops : list (Op W)) st :
  policy.isLocked project = true →
  let out := deliverAll a (policy.Resolve project task).1 ops st in
  world out.2 = world st ∧ Forall is_Some out.1 ∧
  (audits a → Forall (λ op, opGated op = true) ops →
   length (trail out.2) = length (trail st) + length ops).
Proof.
  intros Hl. cbv zeta. revert st; induction ops as [|op ops IH]; intros st; cbn [deliverAll].
  { split_and!; [done|constructor|]. simpl. lia. }
  destruct (deliver a _ op st) as [e st1] eqn:E.
  destruct (deliver_spec _ _ _ _ _ _ E) as [_ Hs].
  rewrite (mayDeliver_locked project task op Hl) in Hs. destruct Hs as [He Hw].
  specialize (IH st1). destruct (deliverAll _ _ ops st1) as [es st2]. simpl in *.
  destruct IH as (IHw & IHe & IHt). split_and!.
  - congruence.
  - by constructor.
  - intros Ha [Hg Hgs]%Forall_cons. rewrite (IHt Ha Hgs).
    destruct (deliver_row _ _ _ _ _ _ Ha Hg E) as [row Hrow].
    rewrite Hrow, length_app. simpl. lia.
Qed.

Lemma deliverAll_locked_witness :
  let ops := [OpMerge (mkResult DecisionAllowMerge [] "forged") (countingProvider true) mergeReq;
              OpPush (mkResult DecisionAllowMerge [] "") (countingProvider false)
                (vcs.mkPushBranchRequest "T-1" "b" "b" "sha" true)] in
  let out := deliverAll auditingAuthority
    (policy.Resolve (policy.NewProject policy.ProfileLocalReview)
       (policy.mkTaskContext (Some policy.autonomousDefaults) false)).1 ops (mkSt 0 []) in
  world out.2 = 0 ∧ length (trail out.2) = 2.
Proof.
  cbv zeta.
  destruct (deliverAll_locked (policy.NewProject policy.ProfileLocalReview)
    (policy.mkTaskContext (Some policy.autonomousDefaults) false) auditingAuthority
    [OpMerge (mkResult DecisionAllowMerge [] "forged") (countingProvider true) mergeReq;
     OpPush (mkResult DecisionAllowMerge [] "") (countingProvider false)
       (vcs.mkPushBranchRequest "T-1" "b" "b" "sha" true)] (mkSt 0 []) eq_refl) as (H1 & _ & H3).
  split; [exact H1|]. apply H3; [|by repeat constructor].
  exists (audit.mkRecorder (λ _, true) 1). by split.
Defined.

(** ** Queue *)

Section queue_lemmas.
  Context {W : Type}.

(** What [Enqueue] keeps true of the queue under its mutex. *)
Definition queueable (item : QueueItem W) : Prop :=
  Decision_ (Item_Decision item) = DecisionAllowMerge ∧ is_Some (Provider item).

Definition queue_inv (q : Queue W) : Prop :=
  Forall queueable (items q) ∧ (items q ≠ [] → is_Some (auth q)).

Lemma NewQueue_inv a (lp : option (vcs.ChangeRequestProvider W)) : queue_inv (NewQueue a lp).
Proof. by split; [constructor|]. Qed.

Lemma Enqueue_inv item (q q' : Queue W) :
  queue_inv q → Enqueue item q = Ok q' →
  queue_inv q' ∧ items q' = items q ++ [item] ∧ closed q = false.
Proof.
  intros [Hq Ha]. unfold Enqueue. destruct (auth q) as [a|] eqn:Ea; [|done].
  case_bool_decide as Hd; [done|]. destruct (Provider item) as [p|] eqn:Ep; [|done].
  destruct (closed q); [done|]. intros [= <-]. split; [|done]. split; simpl.
  - apply Forall_app. split; [done|]. constructor; [|done]. split; [|by eexists].
    by destruct (decide (Decision_ (Item_Decision item) = DecisionAllowMerge)).
  - intros _. by eexists.
Qed.

Lemma dequeue_inv item (q q' : Queue W) :
  queue_inv q → dequeue q = Some (item, q') →
  queue_inv q' ∧ queueable item ∧ items q = item :: items q'.
Proof.
  intros [Hq Ha]. unfold dequeue. destruct (items q) as [|x l] eqn:E; [done|].
  intros [= <- <-]. apply Forall_cons in Hq as [Hx Hl].
  split_and!; try done. split; [done|]. intros _. by apply Ha.
Qed.

Lemma Close_inv (q : Queue W) : queue_inv q → queue_inv (Close q).
Proof. done. Qed.

(** What one item's outcome says about how its merge was done. *)
Definition outcome_sound (oc : QueueOutcome W) : Prop :=
  (Merged oc = true ∨ Err_ oc = None →
     Decision_ (Item_Decision (Item oc)) = DecisionAllowMerge ∧
     policy.Allow (policy.Allows (Item_Policy (Item oc)) policy.ActMerge) = true) ∧
  (Merged oc = true → Err_ oc = None) ∧
  (FellBack oc = true →
     Err_ oc = None ∧ AllowLocalFallback (Item oc) = true ∧
     CanLocalMergeMode (Item_Policy (Item oc)) = true).

Lemma Merge_ok a dec resolved (p : vcs.ChangeRequestProvider W) req st res st' :
  Merge a dec resolved p req st = ((res, None), st') →
  requiresDecision DecisionAllowMerge (Decision_ dec) = true ∧
  policy.Allow (policy.Allows resolved policy.ActMerge) = true.
Proof.
  intros H. apply gated_spec in H as [_ H].
  destruct (requiresDecision _ _), (policy.Allow _); cbn in H; try done;
    by destruct H as [[? [=]] _].
Qed.

Lemma processOne_sound a lp (item : QueueItem W) p st oc st' :
  processOne a lp item p st = (oc, st') →
  Item oc = item ∧ (queueable item → outcome_sound oc).
Proof.
  unfold processOne.
  destruct (Merge a _ _ p _ st) as [[res [e|]] st1] eqn:E1.
  - destruct (vcs.Is e _).
    { intros [= <- <-]. split; [done|]. intros _. unfold outcome_sound; naive_solver. }
    destruct lp as [l|].
    2: { intros [= <- <-]. split; [done|]. intros _. unfold outcome_sound; naive_solver. }
    destruct (AllowLocalFallback item && _ && _) eqn:Ef.
    2: { intros [= <- <-]. split; [done|]. intros _. unfold outcome_sound; naive_solver. }
    apply andb_true_iff in Ef as [[Hf _]%andb_true_iff Hc].
    destruct (Merge a _ _ l _ st1) as [[lres [le|]] st2] eqn:E2; intros [= <- <-];
      (split; [done|]); intros [Hd _].
    + unfold outcome_sound; naive_solver.
    + apply Merge_ok in E2 as [_ Ha]. unfold outcome_sound; naive_solver.
  - intros [= <- <-]. split; [done|]. intros [Hd _]. apply Merge_ok in E1 as [_ Ha].
    unfold outcome_sound; naive_solver.
Qed.

Lemma arrive_inv cmds (q : Queue W) : queue_inv q → queue_inv (arrive cmds q).
Proof.
  revert q. induction cmds as [|cmd cmds IH]; intros q Hq; [done|]. cbn [arrive foldl]. apply IH.
  destruct cmd as [item|]; [|by apply Close_inv].
  destruct (Enqueue item q) as [q1|] eqn:E; [|done]. by apply Enqueue_inv in E as [? _].
Qed.

(** What arrives is appended, whatever is in the queue. *)
Lemma arrive_appends cmds (q q' : Queue W) : auth q = auth q' → closed q = closed q' →
  ∃ l, length l ≤ length cmds ∧ items (arrive cmds q) = items q ++ l ∧ items (arrive cmds q') = items q' ++ l ∧
    auth (arrive cmds q) = auth (arrive cmds q') ∧ closed (arrive cmds q) = closed (arrive cmds q').
Proof.
  revert q q'. induction cmds as [|cmd cmds IH]; intros q q' Ha Hc; [by exists []; rewrite !app_nil_r|]. cbn [arrive foldl].
  assert (∃ l, length l ≤ 1 ∧ ∀ x, x = q ∨ x = q' →
    let y := match cmd with Some item => match Enqueue item x with Ok y => y | Err _ => x end | None => Close x end in
    items y = items x ++ l ∧ auth y = auth x ∧ (closed y = match cmd with Some _ => closed x | None => true end)) as (l1 & Hl & Hs).
  { destruct cmd as [item|]; [|exists []; split; [simpl; lia|]; by intros x _; simpl; rewrite app_nil_r].
    assert (∀ x, x = q ∨ x = q' → auth x = auth q ∧ closed x = closed q) as Hx by (by intros x [->| ->]).
    exists (if is_ok (Enqueue item q) then [item] else []). split; [by case_match; simpl; lia|]. intros x Hxq. destruct (Hx x Hxq) as [E1 E2].
    unfold Enqueue. rewrite E1, E2. destruct (auth q) as [a|] eqn:Ea, (bool_decide (Decision_ (Item_Decision item) ≠ DecisionAllowMerge)), (Provider item) as [p|], (closed q) eqn:Ec;
      simpl; by rewrite ?app_nil_r. }
  destruct (Hs q) as (H1 & H2 & H3); [by left|]. destruct (Hs q') as (H1' & H2' & H3'); [by right|].
  match goal with |- ∃ _, _ ∧ items (foldl ?f ?x _) = _ ∧ items (foldl _ ?y _) = _ ∧ _ =>
    destruct (IH x y) as (l2 & Hl2 & E1 & E2 & E3 & E4); [by rewrite H2, H2'|by rewrite H3, H3', Hc|] end.
  unfold arrive in *. exists (l1 ++ l2). rewrite E1, E2, H1, H1', <- !app_assoc, length_app. split; [simpl; lia|]. by split_and!.
Qed.

Lemma arrive_app cmds cmds' (q : Queue W) : arrive (cmds ++ cmds') q = arrive cmds' (arrive cmds q).
Proof. apply foldl_app. Qed.

(** The queue as everything that arrived meanwhile would have left it: what is
    done and what remains, in order. *)
Lemma Process_spec cancelled fuel arrivals (q : Queue W) st :
  queue_inv q → length (items q) + length (concat arrivals) < fuel →
  ∃ ocs c q' st', Process fuel cancelled arrivals q st = Some (ocs, c, q', st') ∧
    (Item <$> ocs) ++ items q' = items (arrive (concat (take (length ocs) arrivals)) q) ∧ (c = false → items q' = []) ∧
    Forall outcome_sound ocs ∧ queue_inv q'.
Proof.
  revert arrivals q st; induction fuel as [|fuel IH]; intros arrivals q st Hq Hf; [lia|]. cbn [Process].
  destruct (dequeue q) as [[item q1]|] eqn:Eq.
  2: { unfold dequeue in Eq. destruct (items q) eqn:Ei; [|done]. eexists [], false, q, st. split; [done|].
       rewrite take_0. by rewrite Ei. }
  pose proof Eq as Eq'. unfold dequeue in Eq'. destruct (items q) as [|x l] eqn:Ei; [done|]. injection Eq' as -> Hq1.
  destruct (dequeue_inv _ _ _ Hq Eq) as (Hinv1 & Hqu & Hit).
  assert (auth q1 = auth q ∧ closed q1 = closed q ∧ items q1 = l) as (Ha1 & Hc1 & Hi1) by (by rewrite <- Hq1).
  destruct Hq as [_ Ha]. destruct Ha as [a Ha]; [by rewrite Ei|].
  destruct Hqu as [Hd [p Hp]]. rewrite Ha1, Ha, Hp. destruct (processOne a (local q1) item p st) as [oc st1] eqn:E.
  apply processOne_sound in E as [Hi Hs]. specialize (Hs (conj Hd (mk_is_Some _ _ Hp))).
  set (batch := default [] (head arrivals)).
  assert (concat arrivals = batch ++ concat (tail arrivals)) as Hcat by (by destruct arrivals).
  assert (∀ n, concat (take (S n) arrivals) = batch ++ concat (take n (tail arrivals))) as Htake.
  { intros n. unfold batch. destruct arrivals as [|b bs]; [by destruct n|done]. }
  assert (∀ cmds, items (arrive cmds q) = item :: items (arrive cmds q1)) as Hhead.
  { intros cmds. destruct (arrive_appends cmds q q1) as (l' & _ & E1 & E2 & _); [done|done|]. by rewrite E1, E2, Hi1, Ei. }
  pose proof (arrive_inv batch q1 Hinv1) as Hinv2.
  destruct (cancelled (world st1)).
  - eexists [oc], true, _, st1. split; [done|]. cbn [length fmap list_fmap app]. rewrite Hi, Htake, take_0, app_nil_r, Hhead.
    split_and!; [done..|by constructor|done].
  - destruct (IH (tail arrivals) (arrive batch q1) st1 Hinv2) as (ocs & c & q' & st' & Hdr & Hit' & Hc & Hocs & Hq').
    { destruct (arrive_appends batch q1 q1) as (l' & Hl' & E1 & _); [done|done|]. rewrite E1, Hi1, length_app. rewrite Hcat, length_app in Hf.
      simpl in Hf. lia. }
    rewrite Hdr. eexists (oc :: ocs), c, q', st'. split; [done|]. cbn [length fmap list_fmap app]. rewrite Hi, Htake, Hhead, arrive_app, <- Hit'.
    split_and!; [done|done|by constructor|done].
Qed.
End queue_lemmas.

(** ** Queue properties *)

(** C8: the merge queue (§28), for every provider.  A queue built by
    [NewQueue] and any sequence of [Enqueue] and [Close] never panics in
    [Process], whatever is enqueued or closed while it runs: it returns one
    outcome per item in FIFO order, those that arrived meanwhile after those that
    were there, stopping early only on cancellation with the rest still queued; a
    merged outcome had a Governor decision ALLOW_MERGE and a policy that allows
    merging, and a local fallback only happens when the item permits it and the
    policy is in local-merge mode. *)
Theorem Process_fifo_authorised {W} a lp (cmds : list (option (QueueItem W))) arrivals cancelled st fuel :
  let q := arrive cmds (NewQueue a lp) in
  length cmds + length (concat arrivals) < fuel →
  ∃ ocs c q' st', Process fuel cancelled arrivals q st = Some (ocs, c, q', st') ∧
    (Item <$> ocs) ++ items q' = items (arrive (concat (take (length ocs) arrivals)) q) ∧ (c = false → items q' = []) ∧
    Forall outcome_sound ocs.
Proof.
  cbv zeta. intros Hf. pose proof (arrive_inv cmds _ (NewQueue_inv a lp)) as Hq.
  assert (length (items (arrive cmds (NewQueue a lp))) ≤ length cmds) as Hlen.
  { destruct (arrive_appends cmds (NewQueue a lp) (NewQueue a lp)) as (l & Hl & -> & _); [done|done|]. simpl. lia. }
  destruct (Process_spec cancelled fuel arrivals _ st Hq) as (ocs & c & q' & st' & H & Hit & Hc & Ho & _); [lia|].
  by exists ocs, c, q', st'.
Qed.

(** One item is there, another arrives while it is merged. *)
Definition queuedItem (t : string) : QueueItem nat :=
  let resolved := policy.mkResolved policy.ProfileAutonomous policy.autonomousDefaults in
  mkQueueItem t (Decide (readyInput resolved autonomousRun)) resolved (Some (countingProvider false)) mergeReq false.

Lemma Process_fifo_authorised_witness :
  ∃ ocs q' st',
    Process 3 (λ _, false) [[Some (queuedItem "T-2")]] (arrive [Some (queuedItem "T-1")] (NewQueue (Some auditingAuthority) None)) (mkSt 0 [])
      = Some (ocs, false, q', st') ∧
    (λ oc, TaskID (Item oc)) <$> ocs = ["T-1"; "T-2"] ∧ Forall outcome_sound ocs.
Proof.
  destruct (Process_fifo_authorised (Some auditingAuthority) None [Some (queuedItem "T-1")] [[Some (queuedItem "T-2")]] (λ _, false) (mkSt 0 []) 3)
    as (ocs & c & q' & st' & H & _ & _ & Ho); [vm_compute; lia|].
  exists ocs, q', st'. vm_compute in H. injection H as <- <- <- <-. split; [vm_compute; reflexivity|]. split; [reflexivity|exact Ho].
Defined.

(** A remote merge that fails falls back to the local provider. *)
Example Process_fallback :
  let failing := vcs.mkProvider nat "github"
    (vcs.mkCapabilities true true true true true true true true)
    (vcs.PushBranch (countingProvider true)) (vcs.CreateChangeRequest (countingProvider true))
    (vcs.UpdateChangeRequest (countingProvider true)) (vcs.GetChecks (countingProvider true))
    (vcs.EnableAutoMerge (countingProvider true))
    (λ _ n, ((zeroMerge, Some (vcs.wrap vcs.ErrChecksFailed "red")), S n))
    (vcs.Revert (countingProvider true)) in
  let localMode := policy.mkResolved policy.ProfileAutonomous
    (policy.set_ChangeRequest_Create false policy.autonomousDefaults) in
  let item := mkQueueItem "T-1" (Decide (readyInput localMode autonomousRun)) localMode
    (Some failing) mergeReq true in
  let q := NewQueue (Some auditingAuthority) (Some (countingProvider false)) in
  match Enqueue item q with
  | Ok q => match Process 2 (λ _, false) [] q (mkSt 0 []) with
            | Some ([oc], false, _, st) => Merged oc && FellBack oc && (length (trail st) =? 2)
            | _ => false
            end
  | Err _ => false
  end = true.
Proof. vm_compute. done. Qed.

End merge.
