(* ===== verification/PostMerge.v ===== *)
(** * PostMerge: the post-merge sentinel (spec §4.4, §37)

    Models [internal/postmerge/sentinel.go].  Smoke checks, the reverter and
    the task reopener are interfaces: functions on a state [W] of the outside
    world; the reverter and the reopener may be nil. *)
From S2P Require Import Prelude Policy.

Module postmerge.

(** A Go string type; [SmokeOther ""] is the zero value. *)
Inductive SmokeStatus :=
| SmokePassed | SmokeFailed | SmokeSkipped | SmokeError | SmokeOther (s : string).
#[global] Instance SmokeStatus_eq_dec : EqDecision SmokeStatus.
Proof. solve_decision. Defined.

Record CheckResult := mkCheckResult {
  Name : string;
  Status : SmokeStatus;
  Detail : string;
  CheckResult_Duration : Duration }.

Definition Passed (c : CheckResult) : bool := bool_decide (Status c = SmokePassed).

Record MergeOutcome := mkMergeOutcome {
  TaskID : string;
  CommitSHA : string;
  BaseBranch : string;
  Number : Z;
  MergedAt : Time }.

Inductive SentinelDecision :=
| DecisionHealthy | DecisionRevert | DecisionAlertOnly | DecisionSkipped | DecisionUnset.
#[global] Instance SentinelDecision_eq_dec : EqDecision SentinelDecision.
Proof. solve_decision. Defined.

Record PostMergeCheckResult := mkPostMergeCheckResult {
  Result_TaskID : string;
  Result_CommitSHA : string;
  Result_BaseBranch : string;
  Decision : SentinelDecision;
  Checks : list CheckResult;
  AllPassed : bool;
  Reverted : bool;
  RevertSHA : string;
  OccurredAt : Time }.

Section sentinel.
  Context {W : Type}.

(** [Sentinel]: the smoke checks and the two collaborators. *)
Record Sentinel := mkSentinel {
  checks : list (W → CheckResult * W);
  reverter : option (string → string → string → Z → W → result string string * W);
  reopener : option (string → string → W → W);
  now : Time }.

Definition decide_ (resolved : policy.Resolved) (errored : bool) : SentinelDecision :=
  let pm := policy.PostMerge (policy.Resolved_Pipeline resolved) in
  if errored then DecisionAlertOnly
  else if policy.PostMerge_Enabled pm && policy.PostMerge_AutoRevert pm then DecisionRevert
  else DecisionAlertOnly.

Definition reopen (s : Sentinel) (taskID reason : string) (w : W) : W :=
  match reopener s with
  | None => w
  | Some Reopen => if bool_decide (taskID = "") then w else Reopen taskID reason w
  end.

Definition withDecision (d : SentinelDecision) (res : PostMergeCheckResult) : PostMergeCheckResult :=
  mkPostMergeCheckResult (Result_TaskID res) (Result_CommitSHA res) (Result_BaseBranch res) d
    (Checks res) (AllPassed res) (Reverted res) (RevertSHA res) (OccurredAt res).

Definition finalise (s : Sentinel) (res : PostMergeCheckResult) (out : MergeOutcome) (w : W) :
    (PostMergeCheckResult * option string) * W :=
  match Decision res with
  | DecisionRevert =>
      match reverter s with
      | None =>
          ((withDecision DecisionAlertOnly res,
            Some "postmerge: auto-revert enabled but no reverter wired"),
           reopen s (Result_TaskID res)
             "auto-revert requested but no reverter configured; smoke check failed" w)
      | Some Revert =>
          let '(r, w) := Revert (TaskID out) (CommitSHA out) (BaseBranch out) (Number out) w in
          match r with
          | Err e =>
              ((withDecision DecisionAlertOnly res,
                Some ("postmerge: revert of " +:+ CommitSHA out +:+ " failed: " +:+ e)),
               reopen s (Result_TaskID res) ("auto-revert failed: " +:+ e) w)
          | Ok sha =>
              ((mkPostMergeCheckResult (Result_TaskID res) (Result_CommitSHA res)
                  (Result_BaseBranch res) DecisionRevert (Checks res) (AllPassed res) true sha
                  (OccurredAt res), None),
               reopen s (Result_TaskID res)
                 "merged change regressed smoke checks; reverted and reopened for repair" w)
          end
      end
  | DecisionAlertOnly =>
      ((res, None), reopen s (Result_TaskID res)
         "post-merge smoke check failed; task reopened for human review" w)
  | _ => ((res, None), w)
  end.

(** The check loop: the results so far, whether all passed, and whether it
    stopped at an errored check. *)
Fixpoint runChecks (cs : list (W → CheckResult * W)) (done_ : list CheckResult)
    (allPassed : bool) (w : W) : (list CheckResult * bool * bool) * W :=
  match cs with
  | [] => ((done_, allPassed, false), w)
  | c :: cs =>
      let '(r, w) := c w in
      let done_ := done_ ++ [r] in
      if bool_decide (Status r = SmokeError) then ((done_, false, true), w)
      else runChecks cs done_ (allPassed && Passed r) w
  end.

Definition Run (s : Sentinel) (resolved : policy.Resolved) (out : MergeOutcome) (w : W) :
    (PostMergeCheckResult * option string) * W :=
  let res d cs all := mkPostMergeCheckResult (TaskID out) (CommitSHA out) (BaseBranch out)
    d cs all false "" (now s) in
  if negb (policy.PostMerge_Enabled (policy.PostMerge (policy.Resolved_Pipeline resolved)))
  then ((res DecisionSkipped [] true, None), w)
  else
    let '((cs, all, errored), w) := runChecks (checks s) [] true w in
    if errored then finalise s (res (decide_ resolved true) cs false) out w
    else if all then ((res DecisionHealthy cs true, None), w)
    else finalise s (res (decide_ resolved false) cs false) out w.

End sentinel.
Arguments Sentinel : clear implicits.

Inductive TaskReopenState := TaskReopenReopened | TaskReopenKeepClosed.

Definition ReopenState (r : PostMergeCheckResult) : TaskReopenState :=
  if bool_decide (Decision r = DecisionHealthy) || bool_decide (Decision r = DecisionSkipped)
  then TaskReopenKeepClosed else TaskReopenReopened.

(** ** Lemmas *)

Lemma runChecks_spec {W} (cs : list (W → CheckResult * W)) done_ all w cs' all' errored w' :
  runChecks cs done_ all w = ((cs', all', errored), w') →
  ∃ new, cs' = done_ ++ new ∧ all' = all && forallb Passed new ∧
    errored = existsb (λ r, bool_decide (Status r = SmokeError)) new ∧
    (errored = false → length new = length cs).
Proof.
  revert done_ all w; induction cs as [|c cs IH]; intros done_ all w H; cbn [runChecks] in H.
  { simplify_eq. exists []. by rewrite app_nil_r, andb_true_r. }
  destruct (c w) as [r w1]. case_bool_decide as Hr.
  - simplify_eq. exists [r]. simpl. unfold Passed. rewrite Hr. simpl.
    by rewrite andb_false_r.
  - apply IH in H as (new & -> & -> & -> & Hlen). exists (r :: new). simpl.
    rewrite (bool_decide_false _ Hr). rewrite <-app_assoc, andb_assoc. simpl.
    split_and!; try done. intros He. by rewrite Hlen.
Qed.

(** How [finalise] closes a failed run. *)
Lemma finalise_spec {W} (s : Sentinel W) res out w res' err w' :
  finalise s res out w = ((res', err), w') →
  Decision res = DecisionRevert ∨ Decision res = DecisionAlertOnly →
  Reverted res = false →
  (Reverted res' = true ↔ Decision res' = DecisionRevert) ∧
  (Reverted res' = true → Decision res = DecisionRevert ∧ err = None) ∧
  (Decision res' = DecisionRevert ∨ Decision res' = DecisionAlertOnly) ∧
  (is_Some err → Decision res = DecisionRevert ∧ Decision res' = DecisionAlertOnly) ∧
  Checks res' = Checks res ∧ AllPassed res' = AllPassed res ∧
  (reverter s = None → w' = reopen s (Result_TaskID res)
     (if bool_decide (Decision res = DecisionRevert)
      then "auto-revert requested but no reverter configured; smoke check failed"
      else "post-merge smoke check failed; task reopened for human review") w).
Proof.
  unfold finalise. intros H [Hd|Hd] Hr; rewrite Hd in H.
  - rewrite Hd. destruct (reverter s) as [Revert|] eqn:Es.
    + destruct (Revert _ _ _ _ w) as [[sha|e] w1]; simplify_eq; cbn;
        rewrite ?Hr; split_and!; try done; try naive_solver.
    + simplify_eq; cbn. rewrite Hr. split_and!; try done; naive_solver.
  - simplify_eq. rewrite Hd, Hr. split_and!; try done; naive_solver.
Qed.

(** ** Properties *)

(** the post-merge sentinel (§4.4, §37), for all smoke checks, reverters and
    reopeners.  With post-merge disabled it is a no-op; otherwise the run is
    healthy exactly when every check passed; a merge is reverted only when some
    check did not pass, none errored, and the policy enables auto-revert; a
    revert that is missing or fails is reported as ALERT_ONLY with an error,
    never silently; and every result that is neither healthy nor skipped
    reopens the task. *)
Theorem Run_revert_discipline {W} (s : Sentinel W) resolved out w res err w' :
  let pm := policy.PostMerge (policy.Resolved_Pipeline resolved) in
  let errored := existsb (λ r, bool_decide (Status r = SmokeError)) (Checks res) in
  Run s resolved out w = ((res, err), w') →
  (policy.PostMerge_Enabled pm = false →
     Decision res = DecisionSkipped ∧ Checks res = [] ∧ err = None ∧ w' = w) ∧
  (policy.PostMerge_Enabled pm = true →
     (Decision res = DecisionHealthy ↔ forallb Passed (Checks res) = true) ∧
     (errored = false → length (Checks res) = length (checks s)) ∧
     Decision res ≠ DecisionSkipped) ∧
  (Reverted res = true ↔ Decision res = DecisionRevert) ∧
  (Reverted res = true → policy.PostMerge_AutoRevert pm = true ∧ errored = false ∧
     forallb Passed (Checks res) = false ∧ err = None) ∧
  (is_Some err → Decision res = DecisionAlertOnly) ∧
  (ReopenState res = TaskReopenKeepClosed ↔
     Decision res = DecisionHealthy ∨ Decision res = DecisionSkipped).
Proof.
  cbv zeta. intros H.
  assert (ReopenState res = TaskReopenKeepClosed ↔
    Decision res = DecisionHealthy ∨ Decision res = DecisionSkipped) as Hro.
  { unfold ReopenState. repeat case_bool_decide; naive_solver. }
  unfold Run in H. destruct (policy.PostMerge_Enabled _) eqn:Een; cbn [negb] in H.
  2: { simplify_eq; cbn in *. split_and!; try done; naive_solver. }
  destruct (runChecks (checks s) [] true w) as [[[cs all] errored] w1] eqn:Ec.
  apply runChecks_spec in Ec as (new & Hcs & Hall & Herr & Hlen).
  rewrite app_nil_l in Hcs. rewrite andb_true_l in Hall. subst cs.
  assert (∀ b, decide_ resolved b = DecisionRevert ∨ decide_ resolved b = DecisionAlertOnly) as Hdec.
  { intros b. unfold decide_. repeat case_match; naive_solver. }
  destruct errored.
  - apply finalise_spec in H as (H1 & H2 & H3 & H4 & H5 & H6 & _); [|first [by right|apply Hdec]|done].
    cbn in *. rewrite H5. rewrite <-Herr.
    assert (forallb Passed new = false) as Hf.
    { symmetry in Herr. apply existsb_elem in Herr as (r & Hin & Hr).
      apply bool_decide_eq_true in Hr. apply not_true_iff_false. rewrite forallb_elem.
      intros Hp. specialize (Hp r Hin). unfold Passed in Hp. by rewrite Hr in Hp. }
    rewrite Hf. split; [done|]. split.
    { intros _. split; [|split; [done|destruct H3; congruence]].
      split; [destruct H3; congruence|done]. }
    split; [done|]. split; [intros Hr; by destruct (H2 Hr)|].
    split; [intros He; by apply H4|done].
  - destruct all.
    + simplify_eq; cbn in *. rewrite <-Hall. split_and!; try done; naive_solver.
    + apply finalise_spec in H as (H1 & H2 & H3 & H4 & H5 & H6 & _); [|first [by right|apply Hdec]|done].
      cbn in *. rewrite H5, <-Hall, <-Herr.
      split; [done|]. split.
      { intros _. split; [|split; [by intros _; apply Hlen|destruct H3; congruence]].
        split; [destruct H3; congruence|discriminate]. }
      split; [done|]. split; [|split; [intros He; by apply H4|done]].
      intros Hr. destruct (H2 Hr) as [Hd He]. unfold decide_ in Hd. rewrite Een in Hd.
      by destruct (policy.PostMerge_AutoRevert _).
Qed.

Definition okCheck (n : nat) : CheckResult * nat := (mkCheckResult "build" SmokePassed "" 0, n).
Definition redCheck (n : nat) : CheckResult * nat := (mkCheckResult "smoke" SmokeFailed "" 0, n).
Definition revertingSentinel : Sentinel nat :=
  mkSentinel [okCheck; redCheck] (Some (λ _ _ _ _ n, (Ok "rev", S n))) (Some (λ _ _ n, n)) 0.
Definition autonomousPolicy : policy.Resolved :=
  policy.mkResolved policy.ProfileAutonomous policy.autonomousDefaults.
Definition mergedOutcome : MergeOutcome := mkMergeOutcome "T-1" "abc" "main" 7 0.

Lemma Run_revert_discipline_witness :
  let out := Run revertingSentinel autonomousPolicy mergedOutcome 0 in
  Reverted out.1.1 = true ∧ out.2 = 1 ∧
  existsb (λ r, bool_decide (Status r = SmokeError)) (Checks out.1.1) = false.
Proof.
  cbv zeta. split; [vm_compute; reflexivity|]. split; [vm_compute; reflexivity|].
  destruct (Run_revert_discipline revertingSentinel autonomousPolicy mergedOutcome 0
    (Run revertingSentinel autonomousPolicy mergedOutcome 0).1.1 None 1)
    as (_ & _ & _ & H & _); [vm_compute; reflexivity|].
  apply H. vm_compute; reflexivity.
Defined.

(** A smoke check that reports "skipped" counts as a regression: with
    auto-revert on, it reverts the merge. *)
Lemma Run_reverts_on_skipped :
  let s := mkSentinel [λ n, (mkCheckResult "e2e" SmokeSkipped "not configured" 0, n)]
             (Some (λ _ _ _ _ n, (Ok "rev", S n))) None 0 in
  let out := Run s autonomousPolicy mergedOutcome 0 in
  Decision out.1.1 = DecisionRevert ∧ out.2 = 1.
Proof. vm_compute. done. Qed.

End postmerge.
