(* ===== verification/Repair.v ===== *)
(** * Repair: the bounded repair loop (spec §22.5, §25, rule §32)

    Models [internal/repair/loop.go].  The repair and verify functions are the
    injected [RepairFunc] and [VerifyFunc], functions on a state [W] of the
    outside world. *)
From S2P Require Import Prelude Policy TestEngine Review.

Module repair.

Record Finding := mkFinding {
  Source : string;
  Severity : string;
  Title : string;
  Description : string;
  File : string;
  Line : Z }.

Definition fromFailure (f : testengine.TestFailure) : Finding :=
  mkFinding "test" "fail" (testengine.TestName f) (testengine.Message f)
    (testengine.File f) (testengine.Line f).

Definition FromTestFailures (results : list testengine.Result) : list Finding :=
  results ≫= λ r, fromFailure <$> testengine.Failures r.

Definition fromReview (f : review.Finding) : Finding :=
  mkFinding "review" (review.Severity_String (review.Finding_Severity f))
    (review.Title f) (review.Description f) (review.File f) (review.Line f).

Definition FromReviewFindings (findings : list review.Finding) : list Finding :=
  fromReview <$> findings.

Definition IsActionable (f : Finding) : bool :=
  if bool_decide (Source f = "test") then true
  else bool_decide (Severity f = review.Severity_String review.SeverityMajor)
       || bool_decide (Severity f = review.Severity_String review.SeverityBlocker).

Definition filterActionable (findings : list Finding) : list Finding :=
  filter (λ f, IsActionable f = true) findings.

Record RepairContext := mkRepairContext {
  Findings : list Finding;
  Diff : string;
  ChangedFiles : list string;
  Iteration : Z }.

Definition nl : string := String (ascii_of_nat 10) "".

Definition promptFinding (i : nat) (f : Finding) : string :=
  pretty (i + 1)%nat +:+ ". [" +:+ Source f +:+ "] " +:+ Title f +:+ nl
  +:+ (if bool_decide (Description f ≠ "") then "   " +:+ Description f +:+ nl else "")
  +:+ (if bool_decide (File f ≠ "") then
         "   at " +:+ File f
         +:+ (if (0 <? Line f)%Z then ":" +:+ pretty (Line f) else "") +:+ nl
       else "").

(** [Prompt]: the findings and their places, nothing of the failed run. *)
Definition Prompt (c : RepairContext) : string :=
  match Findings c with
  | [] => "No actionable findings."
  | fs => "Repair the following issues (iteration " +:+ pretty (Iteration c) +:+ "):"
          +:+ nl +:+ nl +:+ foldr String.append "" (imap promptFinding fs)
  end.

Record Outcome := mkOutcome {
  Resolved : bool;
  IterationsRun : Z;
  RemainingFindings : list Finding;
  History : list (list Finding) }.

Section loop.
  Context {W : Type}.
  (** [RepairFunc] and [VerifyFunc]. *)
  Variable repair_ : RepairContext → W → option string * W.
  Variable verify_ : W → result string (list Finding) * W.

(** [New]: [None] is its panic on a bound that is not positive. *)
Definition New (maxIterations : Z) : option nat :=
  if (maxIterations <=? 0)%Z then None else Some (Z.to_nat maxIterations).

(** The loop with [n] iterations left, [iter] the next one (1-based). *)
Fixpoint iterate (diff : string) (files : list string) (n : nat) (iter : Z)
    (current : list Finding) (ran : Z) (history : list (list Finding)) (w : W) :
    (Outcome * option string) * W :=
  match n with
  | O => ((mkOutcome false ran current history, None), w)
  | S n =>
      let '(err, w) := repair_ (mkRepairContext current diff files iter) w in
      match err with
      | Some e => ((mkOutcome false iter current history,
                    Some ("repair: iteration " +:+ pretty iter +:+ ": " +:+ e)), w)
      | None =>
          let '(out, w) := verify_ w in
          match out with
          | Err e => ((mkOutcome false iter current history,
                       Some ("repair: verify iteration " +:+ pretty iter +:+ ": " +:+ e)), w)
          | Ok remaining =>
              let remaining := filterActionable remaining in
              let history := history ++ [remaining] in
              match remaining with
              | [] => ((mkOutcome true iter [] history, None), w)
              | _ => iterate diff files n (iter + 1) remaining iter history w
              end
          end
      end
  end.

(** [Loop.Run] of a loop made by [New]. *)
Definition Run (maxIterations : nat) (initial : list Finding) (diff : string)
    (files : list string) (w : W) : (Outcome * option string) * W :=
  let current := filterActionable initial in
  match current with
  | [] => ((mkOutcome true 0 [] [current], None), w)
  | _ => iterate diff files maxIterations 1 current 0 [current] w
  end.

(** ** Lemmas *)

Lemma iterate_spec diff files n iter current ran history w out err w' :
  iterate diff files n iter current ran history w = ((out, err), w') →
  current ≠ [] → ran = (iter - 1)%Z → last history = Some current →
  Forall (λ f, IsActionable f = true) current →
  (IterationsRun out ≤ ran + Z.of_nat n)%Z ∧ (ran ≤ IterationsRun out)%Z ∧
  (Resolved out = true ↔ last (History out) = Some [] ∧ err = None) ∧
  (Resolved out = false → RemainingFindings out ≠ [] ∧
     last (History out) = Some (RemainingFindings out) ∧
     Forall (λ f, IsActionable f = true) (RemainingFindings out)) ∧
  (Resolved out = false → err = None → IterationsRun out = (ran + Z.of_nat n)%Z) ∧
  (err = None → Z.of_nat (length (History out)) = (Z.of_nat (length history) + (IterationsRun out - ran))%Z).
Proof using Type.
  revert iter current ran history w.
  induction n as [|n IH]; intros iter current ran history w H Hne -> Hlast Hact; cbn [iterate] in H.
  { simplify_eq; cbn. split_and!; try lia; try done. rewrite Hlast. naive_solver. }
  destruct (repair_ _ w) as [[e|] w1].
  { simplify_eq; cbn. split_and!; try lia; try done; naive_solver. }
  destruct (verify_ w1) as [[rem|e] w2].
  2: { simplify_eq; cbn. split_and!; try lia; try done; naive_solver. }
  destruct (filterActionable rem) as [|f fs] eqn:Ef.
  - simplify_eq; cbn. rewrite last_snoc, length_app; simpl. split_and!; try lia; naive_solver lia.
  - apply IH in H; [|done|lia|by rewrite last_snoc|].
    + destruct H as (H1 & H2 & H3 & H4 & H5 & H6). rewrite length_app in H6; simpl in H6.
      split_and!; try lia; try done.
      * intros Hr He. rewrite (H5 Hr He). lia.
      * intros He. specialize (H6 He). lia.
    + rewrite <-Ef. apply Forall_forall. intros x Hx. by apply list_elem_of_filter in Hx as [? _].
Qed.

End loop.

(** A review finding triggers repair exactly when the Governor counts it. *)
Lemma IsActionable_review f :
  review.Finding_Severity f ≠ review.SeverityOther "major" →
  review.Finding_Severity f ≠ review.SeverityOther "blocker" →
  IsActionable (fromReview f) = review.IsMajorOrWorse f.
Proof.
  intros H1 H2. unfold IsActionable, review.IsMajorOrWorse, fromReview; cbn.
  destruct (review.Finding_Severity f) as [| | | |s]; try reflexivity. cbn in *.
  rewrite !bool_decide_false; congruence.
Qed.

(** ** Properties *)

(** bounded repair (rule §32), whatever the repair agent and the verifier
    do.  [New] refuses a bound that is not positive.  A run does at most
    [maxIterations] repair iterations and always returns; it reports the
    findings resolved exactly when it ended without error with nothing
    actionable left in its last verification; unresolved, it returns the
    actionable findings of its last round, and without an error only after the
    whole budget was used. *)
Theorem Run_bounded {W} (repair_ : RepairContext → W → option string * W)
    (verify_ : W → result string (list Finding) * W) max n initial diff files w :
  New max = Some n →
  ∃ out err w', Run repair_ verify_ n initial diff files w = ((out, err), w') ∧
    (0 ≤ IterationsRun out ≤ max)%Z ∧
    (Resolved out = true ↔ last (History out) = Some [] ∧ err = None) ∧
    (Resolved out = false → RemainingFindings out ≠ [] ∧
       Forall (λ f, IsActionable f = true) (RemainingFindings out)) ∧
    (Resolved out = false → err = None → IterationsRun out = max) ∧
    (err = None → Z.of_nat (length (History out)) = (1 + IterationsRun out)%Z).
Proof.
  unfold New. destruct (Z.leb_spec max 0) as [|Hm]; [done|]. intros [= <-].
  destruct (Run repair_ verify_ (Z.to_nat max) initial diff files w) as [[out err] w'] eqn:E.
  exists out, err, w'. split; [done|]. unfold Run in E.
  destruct (filterActionable initial) as [|f fs] eqn:Ef.
  { simplify_eq; cbn. split_and!; try lia; naive_solver. }
  apply iterate_spec in E as (H1 & H2 & H3 & H4 & H5 & H6); try done.
  - rewrite Z2Nat.id in * by lia. split_and!; [lia|lia|done|..].
    + intros Hr. destruct (H4 Hr) as (? & _ & ?). done.
    + intros Hr He. specialize (H5 Hr He). lia.
    + intros He. specialize (H6 He). simpl in H6. lia.
  - rewrite <-Ef. apply Forall_forall. intros x Hx. by apply list_elem_of_filter in Hx as [? _].
Qed.

(** A repair agent that fixes nothing, a verifier that keeps finding. *)
Definition stuckFinding : Finding := mkFinding "test" "fail" "TestX" "boom" "x_test.go" 3.

Lemma Run_bounded_witness :
  ∃ out err n, Run (λ _ n, (None, S n)) (λ n, (Ok [stuckFinding], n)) 3 [stuckFinding] "" [] 0 =
    ((out, err), n) ∧ (0 ≤ IterationsRun out ≤ 3)%Z ∧ Resolved out = false ∧ n = 3.
Proof.
  destruct (Run_bounded (λ _ n, (None, S n)) (λ n, (Ok [stuckFinding], n)) 3 3 [stuckFinding]
    "" [] 0 eq_refl) as (out & err & w' & H & Hb & _).
  exists out, err, w'. split; [exact H|]. split; [exact Hb|].
  vm_compute in H. injection H as <- <- <-. split; reflexivity.
Defined.

End repair.
