(* ===== verification/Pipeline.v ===== *)
(** * Pipeline: the durable stage state machine of a task's run

    Models [internal/pipeline/stage.go] (the transition tables), [store.go] and
    [store_records.go] (the durable store).  The three SQLite tables are the
    fields of [DB]; every store method takes the write lock before it reads, so
    it is one atomic function of [DB], and an error rolls the transaction back.
    Errors keep their sentinel or type, not their text. *)
From S2P Require Import Prelude.

Module pipeline.

(** ** stage.go *)

Inductive Stage :=
| StageCompile | StagePlan | StageReady | StageExecute | StageVerify
| StageReview | StageFinalize | StageRepair | StageOther (s : string).
#[global] Instance Stage_eq_dec : EqDecision Stage.
Proof. solve_decision. Defined.

Inductive RunState :=
| RunActive | RunCompleted | RunFailed | RunCancelled | RunRepairExhausted
| RunWaitingQuota | RunBlocked | RunOther (s : string).
#[global] Instance RunState_eq_dec : EqDecision RunState.
Proof. solve_decision. Defined.

(** [FailureNone] is the empty string of a run without a failure. *)
Inductive FailureCategory :=
| FailureNone | FailureCompile | FailureTest | FailureStaticAnalysis
| FailureReviewRejection | FailureAgentUnavailable | FailureAgentAuthUnavailable
| FailureProviderTimeout | FailureQuotaExceeded | FailureRateLimited
| FailureInvalidAgentOutput | FailureNoCodeChanges | FailureWorktree | FailureGit
| FailureDatabase | FailureLeaseLost | FailureCancelled | FailurePolicyRejection
| FailureInvariantViolation | FailureInterrupted | FailureOther (s : string).
#[global] Instance FailureCategory_eq_dec : EqDecision FailureCategory.
Proof. solve_decision. Defined.

(** The map [stageTransitions]; [None] is a missing key. *)
Definition stageTransitions (s : Stage) : option (list Stage) :=
  match s with
  | StageCompile => Some [StagePlan]
  | StagePlan => Some [StageReady]
  | StageReady => Some [StageExecute]
  | StageExecute => Some [StageVerify; StageRepair]
  | StageVerify => Some [StageReview; StageRepair]
  | StageReview => Some [StageFinalize; StageRepair]
  | StageRepair => Some [StageVerify; StageExecute]
  | StageFinalize => Some []
  | StageOther _ => None
  end.

Definition IsValidStage (s : Stage) : bool :=
  match stageTransitions s with Some _ => true | None => false end.

Definition IsValidRunState (s : RunState) : bool :=
  match s with RunOther _ => false | _ => true end.

Definition IsValidFailureCategory (c : FailureCategory) : bool :=
  match c with FailureNone | FailureOther _ => false | _ => true end.

Definition IsTerminalRunState (s : RunState) : bool :=
  match s with
  | RunCompleted | RunFailed | RunCancelled | RunRepairExhausted => true
  | _ => false
  end.

Definition IsWaitState (s : RunState) : bool :=
  match s with RunWaitingQuota | RunBlocked => true | _ => false end.

Definition CanTransitionStage (runState : RunState) (from to : Stage) : bool :=
  if IsTerminalRunState runState then false
  else if IsWaitState runState then bool_decide (to = StageReady)
  else bool_decide (to ∈ default [] (stageTransitions from)).

Definition CanTransitionRunState (from to : RunState) : bool :=
  match from with
  | RunActive =>
      match to with
      | RunWaitingQuota | RunBlocked | RunFailed | RunCancelled
      | RunRepairExhausted | RunCompleted => true
      | _ => false
      end
  | RunWaitingQuota | RunBlocked =>
      match to with RunActive | RunFailed | RunCancelled => true | _ => false end
  | _ => false
  end.

(** ** store.go: rows and tables *)

Definition DefaultMaxRepairAttempts : Z := 3.

Inductive RecordStatus := RecordEntered | RecordCompleted | RecordFailed | RecordSkipped.
#[global] Instance RecordStatus_eq_dec : EqDecision RecordStatus.
Proof. solve_decision. Defined.

Record Run := mkRun {
  TaskID : string;
  ProjectID : string;
  CurrentStage : Stage;
  State : RunState;
  StageAttempt : Z;
  RepairAttempt : Z;
  MaxRepairAttempts : Z;
  Run_FailureCategory : FailureCategory;
  FailureReason : string;
  ResultRef : string;
  CreatedAt : Time;
  UpdatedAt : Time }.

(** [FinishedAt] is 0 while the record is open.  The row id is left out: SQLite
    gives each row a larger one than any before, with gaps, and the code only
    orders by it; it is the order of the list of records. *)
Record StageRecord := mkStageRecord {
  Record_TaskID : string;
  Record_Stage : Stage;
  Attempt : Z;
  Status : RecordStatus;
  Record_FailureCategory : FailureCategory;
  Reason : string;
  EvidenceRef : string;
  EnteredAt : Time;
  FinishedAt : Time }.

Record RunStateChange := mkRunStateChange {
  To : RunState;
  Change_Reason : string;
  Change_ResultRef : string }.

(** [pipeline_runs] by task id, [pipeline_stage_records] in id order, and
    [control_flags]. *)
Record DB := mkDB {
  runs : gmap string Run;
  records : list StageRecord;
  flags : gmap string string }.

Inductive Error :=
| ErrRunNotFound
| ErrConcurrentModification
| ErrRunTerminal
| ErrInvalidTransition (taskID : string) (st : RunState) (from to : Stage)
| ErrInvalidRunStateTransition (taskID : string) (from to : RunState)
| ErrEmergencyStopped (reason : string)
| ErrContext
| ErrPanic
| ErrArgument (what : string).
#[global] Instance Error_eq_dec : EqDecision Error.
Proof. solve_decision. Defined.

(** Column assignments of the UPDATE statements. *)
Definition setCursor (st : Stage) (s : RunState) (now : Time) (r : Run) : Run :=
  mkRun (TaskID r) (ProjectID r) st s (StageAttempt r) (RepairAttempt r)
    (MaxRepairAttempts r) (Run_FailureCategory r) (FailureReason r) (ResultRef r)
    (CreatedAt r) now.
Definition setFailure (c : FailureCategory) (reason : string) (now : Time) (r : Run) : Run :=
  mkRun (TaskID r) (ProjectID r) (CurrentStage r) (State r) (StageAttempt r) (RepairAttempt r)
    (MaxRepairAttempts r) c reason (ResultRef r) (CreatedAt r) now.
Definition setAttempts (sa ra : Z) (now : Time) (r : Run) : Run :=
  mkRun (TaskID r) (ProjectID r) (CurrentStage r) (State r) sa ra
    (MaxRepairAttempts r) (Run_FailureCategory r) (FailureReason r) (ResultRef r)
    (CreatedAt r) now.
Definition setResultRef (ref : string) (r : Run) : Run :=
  mkRun (TaskID r) (ProjectID r) (CurrentStage r) (State r) (StageAttempt r) (RepairAttempt r)
    (MaxRepairAttempts r) (Run_FailureCategory r) (FailureReason r) ref
    (CreatedAt r) (UpdatedAt r).

(** [UPDATE pipeline_runs SET .. WHERE task_id = ? AND ..]: the rows affected. *)
Definition updateRun (taskID : string) (whr : Run → bool) (f : Run → Run) (db : DB) : Z * DB :=
  match runs db !! taskID with
  | Some r => if whr r then (1%Z, mkDB (<[taskID := f r]> (runs db)) (records db) (flags db))
              else (0%Z, db)
  | None => (0%Z, db)
  end.

(** The UNIQUE key (task_id, stage, attempt, status). *)
Definition keyMatches (taskID : string) (st : Stage) (attempt : Z) (status : RecordStatus)
    (r : StageRecord) : bool :=
  bool_decide (Record_TaskID r = taskID) && bool_decide (Record_Stage r = st)
  && (Attempt r =? attempt)%Z && bool_decide (Status r = status).

(** [INSERT .. ON CONFLICT (..) DO NOTHING]. *)
Definition insertRecord (taskID : string) (st : Stage) (attempt : Z) (status : RecordStatus)
    (category : FailureCategory) (reason evidenceRef : string) (entered finished : Time)
    (db : DB) : DB :=
  if existsb (keyMatches taskID st attempt status) (records db) then db
  else mkDB (runs db)
         (records db ++ [mkStageRecord taskID st attempt status
                           category reason evidenceRef entered finished]) (flags db).

(** [UPDATE pipeline_stage_records SET finished_at = now WHERE .. status =
    'entered' AND finished_at IS NULL]. *)
Definition closeEntry (taskID : string) (st : Stage) (attempt : Z) (now : Time) (db : DB) : DB :=
  mkDB (runs db)
    ((λ r, if keyMatches taskID st attempt RecordEntered r && time.IsZero (FinishedAt r)
           then mkStageRecord (Record_TaskID r) (Record_Stage r) (Attempt r) (Status r)
                  (Record_FailureCategory r) (Reason r) (EvidenceRef r) (EnteredAt r) now
           else r) <$> records db) (flags db).

Definition recordExistsTx (taskID : string) (st : Stage) (attempt : Z) (status : RecordStatus)
    (db : DB) : bool :=
  existsb (keyMatches taskID st attempt status) (records db).

Definition getRecordTx (taskID : string) (st : Stage) (attempt : Z) (status : RecordStatus)
    (db : DB) : option StageRecord :=
  snd <$> list_find (λ r, keyMatches taskID st attempt status r = true) (records db).

Definition getRunTx (taskID : string) (db : DB) : result Error Run :=
  match runs db !! taskID with Some r => Ok r | None => Err ErrRunNotFound end.

(** [ensureEnteredTx]: insert if absent, then load.  The load finds the row. *)
Definition ensureEnteredTx (taskID : string) (st : Stage) (attempt : Z)
    (reason evidenceRef : string) (now : Time) (db : DB) : result Error (StageRecord * DB) :=
  let db := insertRecord taskID st attempt RecordEntered FailureNone reason evidenceRef now 0 db in
  match getRecordTx taskID st attempt RecordEntered db with
  | Some rec => Ok (rec, db)
  | None => Err (ErrArgument "load stage record")
  end.

(** ** store.go: the operations

    Each takes the clock [now] and the database; [Ok] carries the new
    database, [Err] leaves it as it was. *)

Definition CurrentRun (taskID : string) (db : DB) : result Error Run := getRunTx taskID db.

Definition CreateRun (taskID projectID : string) (maxRepairAttempts : Z) (now : Time) (db : DB) :
    result Error (Run * DB) :=
  if bool_decide (taskID = "") || bool_decide (projectID = "")
  then Err (ErrArgument "task_id and project_id are required")
  else
    let max := if (maxRepairAttempts <=? 0)%Z then DefaultMaxRepairAttempts
               else maxRepairAttempts in
    let db := match runs db !! taskID with
      | Some _ => db
      | None => mkDB (<[taskID := mkRun taskID projectID StageCompile RunActive 1 0 max
                          FailureNone "" "" now now]> (runs db)) (records db) (flags db)
      end in
    let db := insertRecord taskID StageCompile 1 RecordEntered FailureNone "" "" now 0 db in
    run ← CurrentRun taskID db; Ok (run, db).

(** [ORDER BY created_at, task_id]: [textLess] is the order of the text
    column [created_at] holds the time in. *)
Definition createdBefore (textLess : Time → Time → bool) (a b : Run) : bool :=
  textLess (CreatedAt a) (CreatedAt b)
  || (negb (textLess (CreatedAt b) (CreatedAt a))
      && negb (bool_decide (String.le (TaskID b) (TaskID a)))).

Definition listedAsActive (r : Run) : bool :=
  match State r with RunActive | RunWaitingQuota | RunBlocked => true | _ => false end.

Definition ListActiveRuns (textLess : Time → Time → bool) (db : DB) : list Run :=
  sortStable (createdBefore textLess) (filter (λ r, listedAsActive r = true) (map_to_list (runs db)).*2).

(** [recoverLostRace]. *)
Definition recoverLostRace (taskID : string) (toStage : Stage) (reason evidenceRef : string)
    (now : Time) (db : DB) : result Error (StageRecord * DB) :=
  cur ← CurrentRun taskID db;
  if bool_decide (CurrentStage cur ≠ toStage) then Err ErrConcurrentModification
  else ensureEnteredTx taskID toStage (StageAttempt cur) reason evidenceRef now db.

Definition Transition (taskID : string) (toStage : Stage) (reason evidenceRef : string)
    (now : Time) (db : DB) : result Error (StageRecord * DB) :=
  if negb (IsValidStage toStage) then Err (ErrArgument "unknown stage")
  else
    run ← getRunTx taskID db;
    if bool_decide (CurrentStage run = toStage) then
      ensureEnteredTx taskID toStage (StageAttempt run) reason evidenceRef now db
    else if negb (CanTransitionStage (State run) (CurrentStage run) toStage) then
      Err (ErrInvalidTransition taskID (State run) (CurrentStage run) toStage)
    else
      let newState := if IsWaitState (State run) then RunActive else State run in
      let '(n, db') := updateRun taskID
        (λ r, bool_decide (CurrentStage r = CurrentStage run) && bool_decide (State r = State run))
        (setCursor toStage newState now) db in
      if (n =? 0)%Z then recoverLostRace taskID toStage reason evidenceRef now db
      else ensureEnteredTx taskID toStage (StageAttempt run) reason evidenceRef now db'.

Definition finishStage (taskID : string) (stage : Stage) (status : RecordStatus)
    (category : FailureCategory) (reason evidenceRef : string) (now : Time) (db : DB) :
    result Error DB :=
  if negb (IsValidStage stage) then Err (ErrArgument "unknown stage")
  else
    run ← getRunTx taskID db;
    if bool_decide (CurrentStage run ≠ stage) then
      if recordExistsTx taskID stage (StageAttempt run) status db then Ok db
      else Err (ErrInvalidTransition taskID (State run) (CurrentStage run) stage)
    else if recordExistsTx taskID stage (StageAttempt run) status db then Ok db
    else if IsTerminalRunState (State run) then Err ErrRunTerminal
    else
      let db := closeEntry taskID stage (StageAttempt run) now db in
      let db := insertRecord taskID stage (StageAttempt run) status category reason evidenceRef
                  now now db in
      if bool_decide (status = RecordFailed) then
        let '(n, db) := updateRun taskID (λ r, bool_decide (CurrentStage r = stage))
                          (setFailure category reason now) db in
        if (n =? 0)%Z then Err ErrConcurrentModification else Ok db
      else Ok db.

Definition CompleteStage (taskID : string) (stage : Stage) (evidenceRef : string)
    (now : Time) (db : DB) : result Error DB :=
  finishStage taskID stage RecordCompleted FailureNone "" evidenceRef now db.

Definition FailStage (taskID : string) (stage : Stage) (category : FailureCategory)
    (reason evidenceRef : string) (now : Time) (db : DB) : result Error DB :=
  if negb (IsValidFailureCategory category) then Err (ErrArgument "unknown failure category")
  else finishStage taskID stage RecordFailed category reason evidenceRef now db.

Definition IncrementStageAttempt (taskID : string) (now : Time) (db : DB) :
    result Error (Z * DB) :=
  run ← getRunTx taskID db;
  if IsTerminalRunState (State run) then Err ErrRunTerminal
  else Ok ((StageAttempt run + 1)%Z,
           (updateRun taskID (λ _, true)
              (λ r, setAttempts (StageAttempt r + 1) (RepairAttempt r) now r) db).2).

Definition IncrementRepairAttempt (taskID : string) (now : Time) (db : DB) :
    result Error (bool * Z * DB) :=
  run ← getRunTx taskID db;
  if IsTerminalRunState (State run) then Err ErrRunTerminal
  else if (MaxRepairAttempts run <=? RepairAttempt run)%Z
  then Ok (false, RepairAttempt run, db)
  else
    let '(n, db) := updateRun taskID (λ r, (RepairAttempt r =? RepairAttempt run)%Z)
      (λ r, setAttempts (StageAttempt r) (RepairAttempt r + 1) now r) db in
    if (n =? 0)%Z then Err ErrConcurrentModification
    else Ok (true, (RepairAttempt run + 1)%Z, db).

Definition orReason (reason d : string) : string := if bool_decide (reason = "") then d else reason.

(** The in-flight stage of a run is closed with a failed record. *)
Definition closeInFlight (taskID : string) (run : Run) (category : FailureCategory) (reason : string) (now : Time)
    (db : DB) : DB :=
  insertRecord taskID (CurrentStage run) (StageAttempt run) RecordFailed category reason ""
    now now (closeEntry taskID (CurrentStage run) (StageAttempt run) now db).

Definition MarkInterrupted (taskID reason : string) (now : Time) (db : DB) : result Error DB :=
  run ← getRunTx taskID db;
  if IsTerminalRunState (State run) then Ok db
  else Ok (closeInFlight taskID run FailureInterrupted (orReason reason "run interrupted") now db).

(** The detail columns [SetRunState] writes after the state. *)
Definition stateDetails (taskID : string) (run : Run) (change : RunStateChange) (db : DB) : DB :=
  match To change with
  | RunFailed | RunCancelled | RunRepairExhausted =>
      if bool_decide (Change_Reason change = "") then db
      else
        let cat := if bool_decide (To change = RunCancelled) then FailureCancelled
                   else Run_FailureCategory run in
        (updateRun taskID (λ _, true)
           (λ r, setFailure cat (Change_Reason change) (UpdatedAt r) r) db).2
  | RunCompleted =>
      if bool_decide (Change_ResultRef change = "") then db
      else (updateRun taskID (λ _, true) (setResultRef (Change_ResultRef change)) db).2
  | _ => db
  end.

Definition SetRunState (taskID : string) (change : RunStateChange) (now : Time) (db : DB) :
    result Error DB :=
  if negb (IsValidRunState (To change)) then Err (ErrArgument "unknown state")
  else
    run ← getRunTx taskID db;
    if bool_decide (State run = To change) then Ok db
    else if negb (CanTransitionRunState (State run) (To change)) then
      Err (ErrInvalidRunStateTransition taskID (State run) (To change))
    else if bool_decide (To change = RunWaitingQuota)
            && bool_decide (CurrentStage run ≠ StageExecute)
            && bool_decide (CurrentStage run ≠ StageVerify) then
      Err (ErrArgument "waiting_quota is only reachable from execute/verify")
    else if bool_decide (To change = RunCompleted)
            && bool_decide (CurrentStage run ≠ StageFinalize) then
      Err (ErrArgument "completed is only reachable from finalize")
    else
      let '(n, db) := updateRun taskID (λ r, bool_decide (State r = State run))
        (λ r, setCursor (CurrentStage r) (To change) now r) db in
      if (n =? 0)%Z then Err ErrConcurrentModification
      else Ok (stateDetails taskID run change db).

Definition Cancel (taskID reason : string) (now : Time) (db : DB) : result Error DB :=
  let reason := orReason reason "cancelled" in
  run ← getRunTx taskID db;
  if IsTerminalRunState (State run) then Ok db
  else
    let db := closeInFlight taskID run FailureCancelled reason now db in
    let '(n, db) := updateRun taskID (λ r, bool_decide (State r = State run))
      (λ r, setFailure FailureCancelled reason now (setCursor (CurrentStage r) RunCancelled now r)) db in
    if (n =? 0)%Z then Err ErrConcurrentModification else Ok db.

Definition emergencyStopFlagKey : string := "emergency_stop".
Definition emergencyStopReasonKey : string := "emergency_stop_reason".

Definition SetEmergencyStop (on : bool) (reason : string) (db : DB) : DB :=
  mkDB (runs db) (records db)
    (<[emergencyStopReasonKey := if on then reason else ""]>
     (<[emergencyStopFlagKey := if on then "on" else "off"]> (flags db))).

Definition controlFlag (key : string) (db : DB) : string := default "" (flags db !! key).

Definition EmergencyStop (db : DB) : bool * string :=
  if bool_decide (controlFlag emergencyStopFlagKey db ≠ "on") then (false, "")
  else (true, controlFlag emergencyStopReasonKey db).

(** ** store_records.go *)

Definition StageRecords (taskID : string) (db : DB) : list StageRecord :=
  filter (λ r, Record_TaskID r = taskID) (records db).

(** ** The store's mutations as one step function *)

Inductive Op :=
| OpCreateRun (taskID projectID : string) (max : Z)
| OpTransition (taskID : string) (to : Stage) (reason evidenceRef : string)
| OpCompleteStage (taskID : string) (stage : Stage) (evidenceRef : string)
| OpFailStage (taskID : string) (stage : Stage) (c : FailureCategory) (reason evidenceRef : string)
| OpIncrementStageAttempt (taskID : string)
| OpIncrementRepairAttempt (taskID : string)
| OpMarkInterrupted (taskID reason : string)
| OpSetRunState (taskID : string) (change : RunStateChange)
| OpCancel (taskID reason : string)
| OpSetEmergencyStop (on : bool) (reason : string).

(** A method call: its error, and the database after commit or rollback. *)
Definition commit {A} (db : DB) (r : result Error (A * DB)) : option Error * DB :=
  match r with Ok (_, db') => (None, db') | Err e => (Some e, db) end.
Definition commit_ (db : DB) (r : result Error DB) : option Error * DB :=
  match r with Ok db' => (None, db') | Err e => (Some e, db) end.

Definition exec (op : Op) (now : Time) (db : DB) : option Error * DB :=
  match op with
  | OpCreateRun t p max => commit db (CreateRun t p max now db)
  | OpTransition t to reason ev => commit db (Transition t to reason ev now db)
  | OpCompleteStage t st ev => commit_ db (CompleteStage t st ev now db)
  | OpFailStage t st c reason ev => commit_ db (FailStage t st c reason ev now db)
  | OpIncrementStageAttempt t => commit db (IncrementStageAttempt t now db)
  | OpIncrementRepairAttempt t => commit db (IncrementRepairAttempt t now db)
  | OpMarkInterrupted t reason => commit_ db (MarkInterrupted t reason now db)
  | OpSetRunState t change => commit_ db (SetRunState t change now db)
  | OpCancel t reason => commit_ db (Cancel t reason now db)
  | OpSetEmergencyStop on reason => (None, SetEmergencyStop on reason db)
  end.

(** ** Invariants *)

Definition recKey (r : StageRecord) : string * Stage * Z * RecordStatus :=
  (Record_TaskID r, Record_Stage r, Attempt r, Status r).

Record run_ok (id : string) (r : Run) : Prop := {
  ok_id : TaskID r = id;
  ok_stage : IsValidStage (CurrentStage r) = true;
  ok_state : IsValidRunState (State r) = true;
  ok_attempt : (1 ≤ StageAttempt r)%Z;
  ok_repair : (0 ≤ RepairAttempt r ≤ MaxRepairAttempts r)%Z;
  ok_quota : State r = RunWaitingQuota → CurrentStage r = StageExecute ∨ CurrentStage r = StageVerify;
  ok_completed : State r = RunCompleted → CurrentStage r = StageFinalize }.

(** The history: unique keys, valid stages. *)
Record records_ok (rs : list StageRecord) : Prop := {
  ok_unique : NoDup (recKey <$> rs);
  ok_stages : Forall (λ r, IsValidStage (Record_Stage r) = true) rs }.

Definition store_inv (db : DB) : Prop :=
  map_Forall run_ok (runs db) ∧ records_ok (records db).

(** One legal move of a run: its stage and state change only along the two
    tables, its counters only grow, a terminal run does not change at all. *)
Record moves (r r' : Run) : Prop := {
  mv_terminal : IsTerminalRunState (State r) = true → r' = r;
  mv_stage : CurrentStage r' = CurrentStage r ∨
             CanTransitionStage (State r) (CurrentStage r) (CurrentStage r') = true;
  mv_state : State r' = State r ∨ CanTransitionRunState (State r) (State r') = true;
  mv_attempt : (StageAttempt r ≤ StageAttempt r')%Z;
  mv_repair : (RepairAttempt r ≤ RepairAttempt r')%Z;
  mv_max : MaxRepairAttempts r' = MaxRepairAttempts r }.

(** A record may only be closed; nothing else of it changes. *)
Definition rec_same (a b : StageRecord) : Prop :=
  b = a ∨ (FinishedAt a = 0%Z ∧ recKey b = recKey a ∧
           Record_FailureCategory b = Record_FailureCategory a ∧ Reason b = Reason a ∧
           EvidenceRef b = EvidenceRef a ∧ EnteredAt b = EnteredAt a).

(** The history only grows: old records stay where they are, new ones come
    after them. *)
Definition rec_grows (rs rs' : list StageRecord) : Prop :=
  ∃ rs1 new, rs' = rs1 ++ new ∧ Forall2 rec_same rs rs1.

Lemma moves_refl r : moves r r.
Proof. constructor; auto; lia. Qed.

Lemma rec_same_refl r : rec_same r r.
Proof. by left. Qed.

Lemma rec_same_trans a b c : rec_same a b → rec_same b c → rec_same a c.
Proof.
  intros [->|(Ha & Hab)] Hbc; [done|]. right. split; [done|].
  destruct Hbc as [->|(_ & Hbc)]; [done|].
  destruct Hab as (?&?&?&?&?), Hbc as (?&?&?&?&?). split_and!; congruence.
Qed.

Lemma rec_grows_refl rs : rec_grows rs rs.
Proof.
  exists rs, []. rewrite app_nil_r. split; [done|].
  apply Forall_Forall2_diag, Forall_true, rec_same_refl.
Qed.

Lemma rec_grows_trans rs1 rs2 rs3 : rec_grows rs1 rs2 → rec_grows rs2 rs3 → rec_grows rs1 rs3.
Proof.
  intros (a & na & -> & Ha) (b & nb & -> & Hb).
  apply Forall2_app_inv_l in Hb as (b1 & b2 & Hb1 & Hb2 & ->).
  exists b1, (b2 ++ nb). rewrite <-app_assoc. split; [done|].
  eapply Forall2_compose; [|done|done]. intros x y z; apply rec_same_trans.
Qed.

Lemma keyMatches_true t st a s r :
  keyMatches t st a s r = true ↔ recKey r = (t, st, a, s).
Proof.
  unfold keyMatches, recKey. rewrite !andb_true_iff, !bool_decide_eq_true, Z.eqb_eq.
  naive_solver.
Qed.

Lemma insertRecord_runs t st a s c rs ev e f db :
  runs (insertRecord t st a s c rs ev e f db) = runs db.
Proof. unfold insertRecord. by case_match. Qed.

Lemma insertRecord_flags t st a s c rs ev e f db :
  flags (insertRecord t st a s c rs ev e f db) = flags db.
Proof. unfold insertRecord. by case_match. Qed.

Lemma insertRecord_ok t st a s c rs ev e f db :
  records_ok (records db) → IsValidStage st = true →
  records_ok (records (insertRecord t st a s c rs ev e f db)).
Proof.
  intros [Hu Hs] Hst. unfold insertRecord.
  destruct (existsb _ _) eqn:E; [done|]. simpl. constructor.
  - rewrite fmap_app. apply NoDup_app. split_and!; [done| |apply NoDup_singleton].
    intros k Hk Hk'. simpl in Hk'. apply list_elem_of_singleton in Hk' as ->.
    apply list_elem_of_fmap in Hk as (r & Hr & Hin).
    rewrite existsb_elem_false in E. specialize (E r Hin).
    apply not_true_iff_false in E. apply E. by apply keyMatches_true.
  - apply Forall_app. by repeat constructor.
Qed.

Lemma insertRecord_grows t st a s c rs ev e f db :
  rec_grows (records db) (records (insertRecord t st a s c rs ev e f db)).
Proof.
  unfold insertRecord. case_match; [apply rec_grows_refl|]. simpl.
  eexists _, _. split; [done|]. apply Forall_Forall2_diag, Forall_true, rec_same_refl.
Qed.

(** After an insert the key is there. *)
Lemma insertRecord_exists t st a s c rs ev e f db :
  recordExistsTx t st a s (insertRecord t st a s c rs ev e f db) = true.
Proof.
  unfold recordExistsTx, insertRecord.
  destruct (existsb (keyMatches t st a s) (records db)) eqn:E; [done|]. simpl.
  rewrite existsb_app. simpl. apply orb_true_iff. right. apply orb_true_iff. left.
  by apply keyMatches_true.
Qed.

Lemma closeEntry_keys t st a now db :
  recKey <$> records (closeEntry t st a now db) = recKey <$> records db.
Proof.
  simpl. rewrite <-list_fmap_compose. apply list_fmap_ext. intros _ r _.
  simpl. by case_match.
Qed.

Lemma closeEntry_ok t st a now db :
  records_ok (records db) → records_ok (records (closeEntry t st a now db)).
Proof.
  intros [Hu Hs]. constructor.
  - by rewrite closeEntry_keys.
  - simpl. apply Forall_fmap. eapply Forall_impl; [exact Hs|]. intros r Hr. simpl. by case_match.
Qed.

Lemma closeEntry_grows t st a now db :
  rec_grows (records db) (records (closeEntry t st a now db)).
Proof.
  eexists _, []. rewrite app_nil_r. split; [done|]. simpl.
  apply Forall2_fmap_r, Forall_Forall2_diag, Forall_true. intros r. simpl.
  destruct (keyMatches t st a RecordEntered r && time.IsZero (FinishedAt r)) eqn:E; [|by left].
  apply andb_true_iff in E as [_ E]. apply Z.eqb_eq in E. by right.
Qed.

Lemma recordExists_grows t st a s rs rs' fl fl' rn rn' :
  rec_grows rs rs' → recordExistsTx t st a s (mkDB rn rs fl) = true →
  recordExistsTx t st a s (mkDB rn' rs' fl') = true.
Proof.
  unfold recordExistsTx; simpl. intros (rs1 & new & -> & H2) He.
  rewrite existsb_app. apply orb_true_iff. left.
  apply existsb_elem in He as (r & Hin & Hk).
  apply list_elem_of_lookup in Hin as [i Hi].
  destruct (Forall2_lookup_l _ _ _ _ _ H2 Hi) as (r' & Hi' & Hs).
  apply existsb_elem. exists r'. split; [by eapply list_elem_of_lookup_2|].
  apply keyMatches_true in Hk. apply keyMatches_true.
  destruct Hs as [->|(_ & Hs & _)]; congruence.
Qed.

Lemma getRecordTx_exists t st a s db :
  recordExistsTx t st a s db = true → ∃ rec, getRecordTx t st a s db = Some rec ∧
    rec ∈ records db ∧ recKey rec = (t, st, a, s).
Proof.
  unfold recordExistsTx, getRecordTx. intros He. apply existsb_elem in He as (r & Hin & Hk).
  destruct (list_find (λ r, keyMatches t st a s r = true) (records db)) as [[i x]|] eqn:E.
  - apply list_find_Some in E as (Hi & Hx & _). exists x. split; [done|].
    split; [by eapply list_elem_of_lookup_2|by apply keyMatches_true].
  - exfalso. rewrite list_find_None in E. rewrite Forall_forall in E. by apply (E r).
Qed.

(** ** The operations on a run that is there

    Inside its transaction an operation finds the row it read, so the guarded
    UPDATE always hits and the lost-race branches are never taken. *)

Definition withRun (t : string) (r : Run) (db : DB) : DB :=
  mkDB (<[t := r]> (runs db)) (records db) (flags db).

Lemma updateRun_hit t whr f db r :
  runs db !! t = Some r → whr r = true → updateRun t whr f db = (1%Z, withRun t (f r) db).
Proof. intros Hr Hw. unfold updateRun. by rewrite Hr, Hw. Qed.

Lemma ensureEnteredTx_ok t st a reason ev now db :
  ∃ rec, ensureEnteredTx t st a reason ev now db =
           Ok (rec, insertRecord t st a RecordEntered FailureNone reason ev now 0 db) ∧
         recKey rec = (t, st, a, RecordEntered).
Proof.
  unfold ensureEnteredTx.
  destruct (getRecordTx_exists t st a RecordEntered _
    (insertRecord_exists t st a RecordEntered FailureNone reason ev now 0 db)) as (rec & -> & _ & Hk).
  by exists rec.
Qed.

Definition resumed (s : RunState) : RunState := if IsWaitState s then RunActive else s.

Lemma Transition_run t to reason ev now db r :
  runs db !! t = Some r → IsValidStage to = true →
  Transition t to reason ev now db =
    if decide (CurrentStage r = to)
    then ensureEnteredTx t to (StageAttempt r) reason ev now db
    else if CanTransitionStage (State r) (CurrentStage r) to
    then ensureEnteredTx t to (StageAttempt r) reason ev now
           (withRun t (setCursor to (resumed (State r)) now r) db)
    else Err (ErrInvalidTransition t (State r) (CurrentStage r) to).
Proof.
  intros Hr Hv. unfold Transition, getRunTx. rewrite Hv, Hr. simpl.
  rewrite decide_bool_decide. destruct (bool_decide _); [done|].
  destruct (CanTransitionStage _ _ _); [|done]. simpl.
  by rewrite (updateRun_hit _ _ _ _ r) by (done || by rewrite !bool_decide_true).
Qed.

Lemma finishStage_run t stage status c reason ev now db r :
  runs db !! t = Some r → IsValidStage stage = true →
  finishStage t stage status c reason ev now db =
    if recordExistsTx t stage (StageAttempt r) status db then Ok db
    else if decide (CurrentStage r = stage) then
      if IsTerminalRunState (State r) then Err ErrRunTerminal
      else
        let db := insertRecord t stage (StageAttempt r) status c reason ev now now
                    (closeEntry t stage (StageAttempt r) now db) in
        Ok (if decide (status = RecordFailed) then withRun t (setFailure c reason now r) db else db)
    else Err (ErrInvalidTransition t (State r) (CurrentStage r) stage).
Proof.
  intros Hr Hv. unfold finishStage, getRunTx. rewrite Hv, Hr. simpl.
  destruct (decide (CurrentStage r = stage)) as [Hs|Hs].
  - rewrite (bool_decide_false (CurrentStage r ≠ stage)) by naive_solver.
    destruct (recordExistsTx _ _ _ _ _); [done|]. destruct (IsTerminalRunState _); [done|].
    destruct (decide (status = RecordFailed)) as [Hf|Hf];
      [rewrite (bool_decide_true _ Hf)|by rewrite (bool_decide_false _ Hf)].
    by rewrite (updateRun_hit _ _ _ _ r)
      by (by rewrite ?insertRecord_runs || by rewrite bool_decide_true).
  - rewrite (bool_decide_true (CurrentStage r ≠ stage)) by done.
    by destruct (recordExistsTx _ _ _ _ _).
Qed.

Lemma IncrementRepairAttempt_run t now db r :
  runs db !! t = Some r →
  IncrementRepairAttempt t now db =
    if IsTerminalRunState (State r) then Err ErrRunTerminal
    else if decide (RepairAttempt r < MaxRepairAttempts r)%Z
    then Ok (true, (RepairAttempt r + 1)%Z,
             withRun t (setAttempts (StageAttempt r) (RepairAttempt r + 1) now r) db)
    else Ok (false, RepairAttempt r, db).
Proof.
  intros Hr. unfold IncrementRepairAttempt, getRunTx. rewrite Hr. simpl.
  destruct (IsTerminalRunState _); [done|].
  destruct (Z.leb_spec (MaxRepairAttempts r) (RepairAttempt r)), (decide _); try lia; [done|].
  by rewrite (updateRun_hit _ _ _ _ r) by (done || apply Z.eqb_refl).
Qed.

Lemma IncrementStageAttempt_run t now db r :
  runs db !! t = Some r →
  IncrementStageAttempt t now db =
    if IsTerminalRunState (State r) then Err ErrRunTerminal
    else Ok ((StageAttempt r + 1)%Z,
             withRun t (setAttempts (StageAttempt r + 1) (RepairAttempt r) now r) db).
Proof.
  intros Hr. unfold IncrementStageAttempt, getRunTx. rewrite Hr. simpl.
  destruct (IsTerminalRunState _); [done|]. by rewrite (updateRun_hit _ _ _ _ r).
Qed.

(** The row [SetRunState] leaves. *)
Definition changedRun (change : RunStateChange) (now : Time) (r : Run) : Run :=
  let r' := setCursor (CurrentStage r) (To change) now r in
  match To change with
  | RunFailed | RunCancelled | RunRepairExhausted =>
      if bool_decide (Change_Reason change = "") then r'
      else setFailure (if bool_decide (To change = RunCancelled) then FailureCancelled
                       else Run_FailureCategory r) (Change_Reason change) now r'
  | RunCompleted =>
      if bool_decide (Change_ResultRef change = "") then r'
      else setResultRef (Change_ResultRef change) r'
  | _ => r'
  end.

Definition stageAllows (to : RunState) (st : Stage) : bool :=
  match to with
  | RunWaitingQuota => bool_decide (st = StageExecute) || bool_decide (st = StageVerify)
  | RunCompleted => bool_decide (st = StageFinalize)
  | _ => true
  end.

Lemma SetRunState_run t change now db r :
  runs db !! t = Some r → IsValidRunState (To change) = true →
  SetRunState t change now db =
    if decide (State r = To change) then Ok db
    else if CanTransitionRunState (State r) (To change) then
      if stageAllows (To change) (CurrentStage r) then Ok (withRun t (changedRun change now r) db)
      else Err (ErrArgument (if bool_decide (To change = RunWaitingQuota)
        then "waiting_quota is only reachable from execute/verify"
        else "completed is only reachable from finalize"))
    else Err (ErrInvalidRunStateTransition t (State r) (To change)).
Proof.
  intros Hr Hv. unfold SetRunState, getRunTx. rewrite Hv, Hr. simpl.
  rewrite decide_bool_decide. destruct (bool_decide (State r = To change)); [done|].
  destruct (CanTransitionRunState _ _); [|done]. simpl.
  rewrite (updateRun_hit _ _ _ _ r) by (done || by rewrite bool_decide_true). simpl.
  unfold stateDetails, changedRun, stageAllows, withRun.
  destruct change as [to reason ref]; simpl in *.
  destruct to; try done; simpl;
    try (destruct (bool_decide (_ = "")); [done|]; unfold updateRun; simpl;
         rewrite lookup_insert_eq; simpl; by rewrite insert_insert_eq).
  - destruct (CurrentStage r); simpl; try done;
      (destruct (bool_decide (_ = "")); [done|]; unfold updateRun; simpl;
         rewrite lookup_insert_eq; simpl; by rewrite insert_insert_eq).
  - by destruct (CurrentStage r).
Qed.

Lemma closeInFlight_runs t r c reason now db :
  runs (closeInFlight t r c reason now db) = runs db.
Proof. unfold closeInFlight. by rewrite insertRecord_runs. Qed.

Lemma Cancel_run t reason now db r :
  runs db !! t = Some r →
  Cancel t reason now db =
    if IsTerminalRunState (State r) then Ok db
    else Ok (withRun t (setFailure FailureCancelled (orReason reason "cancelled") now
                          (setCursor (CurrentStage r) RunCancelled now r))
               (closeInFlight t r FailureCancelled (orReason reason "cancelled") now db)).
Proof.
  intros Hr. unfold Cancel, getRunTx. rewrite Hr. simpl.
  destruct (IsTerminalRunState _); [done|].
  by rewrite (updateRun_hit _ _ _ _ r)
    by (by rewrite ?closeInFlight_runs || by rewrite bool_decide_true).
Qed.

(** ** Every operation preserves the invariant *)

(** What a committed operation on task [t] did to the database. *)
Record effect (t : string) (db db' : DB) : Prop := {
  ef_records : records_ok (records db) → records_ok (records db');
  ef_grows : rec_grows (records db) (records db');
  ef_runs : runs db' = runs db ∨
    (∃ r r', runs db !! t = Some r ∧ runs db' = <[t := r']> (runs db) ∧
       moves r r' ∧ (run_ok t r → run_ok t r')) ∨
    (∃ r', runs db !! t = None ∧ runs db' = <[t := r']> (runs db) ∧ run_ok t r') }.

Lemma effect_inv t db db' : store_inv db → effect t db db' → store_inv db'.
Proof.
  intros [Hr Hrec] [H1 _ H2]. split; [|by apply H1].
  destruct H2 as [->|[(r & r' & Hl & -> & _ & Hok)|(r' & _ & -> & Hok)]]; [done| |].
  - apply map_Forall_insert_2; [|done]. apply Hok. by apply Hr.
  - by apply map_Forall_insert_2.
Qed.

Lemma effect_moves t db db' id r :
  effect t db db' → runs db !! id = Some r →
  ∃ r', runs db' !! id = Some r' ∧ moves r r' ∧ (id ≠ t → r' = r).
Proof.
  intros [_ _ H] Hr.
  destruct H as [->|[(r0 & r' & Hl & -> & Hm & _)|(r' & Hl & -> & _)]].
  - exists r. split_and!; [done|apply moves_refl|done].
  - destruct (decide (id = t)) as [->|Hne].
    + rewrite lookup_insert_eq. exists r'. simplify_eq. split_and!; done.
    + rewrite lookup_insert_ne by done. exists r. split_and!; [done|apply moves_refl|done].
  - destruct (decide (id = t)) as [->|Hne]; [congruence|].
    rewrite lookup_insert_ne by done. exists r. split_and!; [done|apply moves_refl|done].
Qed.

Lemma effect_refl t db : effect t db db.
Proof. constructor; [done|apply rec_grows_refl|by left]. Qed.

(** The history part of an effect, then one update of the run. *)
Definition history (db db' : DB) : Prop :=
  (records_ok (records db) → records_ok (records db')) ∧
  rec_grows (records db) (records db') ∧ runs db' = runs db.

Lemma history_effect t db db' : history db db' → effect t db db'.
Proof. intros (? & ? & ?). constructor; auto. Qed.

Lemma history_insert t st a s c rs ev e f db :
  IsValidStage st = true → history db (insertRecord t st a s c rs ev e f db).
Proof.
  intros Hst. split_and!; [intros; by apply insertRecord_ok|apply insertRecord_grows|
    apply insertRecord_runs].
Qed.

Lemma history_close t st a now db : history db (closeEntry t st a now db).
Proof. split_and!; [apply closeEntry_ok|apply closeEntry_grows|done]. Qed.

Lemma history_trans db1 db2 db3 : history db1 db2 → history db2 db3 → history db1 db3.
Proof.
  intros (? & ? & ?) (? & ? & ?). split_and!; [auto|by eapply rec_grows_trans|congruence].
Qed.

Lemma history_update t r r' db db' :
  history db db' → runs db !! t = Some r → moves r r' → (run_ok t r → run_ok t r') →
  effect t db (withRun t r' db').
Proof.
  intros (H1 & H2 & H3) Hr Hm Hok. constructor; [done|done|].
  right; left. exists r, r'. simpl. rewrite H3. done.
Qed.

Lemma update_history t r r' db db' :
  history (withRun t r' db) db' → runs db !! t = Some r → moves r r' →
  (run_ok t r → run_ok t r') → effect t db db'.
Proof.
  intros (H1 & H2 & H3) Hr Hm Hok. constructor; [done|done|].
  right; left. exists r, r'. simpl in H3. done.
Qed.

#[local] Hint Resolve history_insert history_close history_trans history_effect effect_refl : pipeline.

Lemma moves_cursor r to now :
  CanTransitionStage (State r) (CurrentStage r) to = true →
  moves r (setCursor to (resumed (State r)) now r).
Proof.
  intros Hc. constructor; simpl; try lia.
  - intros Ht. unfold CanTransitionStage in Hc. by rewrite Ht in Hc.
  - by right.
  - unfold resumed. destruct (State r); simpl; auto.
Qed.

Lemma CanTransitionStage_ready r to :
  CanTransitionStage (State r) (CurrentStage r) to = true →
  IsWaitState (State r) = true → to = StageReady.
Proof.
  unfold CanTransitionStage. destruct (State r); try done; simpl; intros H _;
    by apply bool_decide_eq_true in H.
Qed.

Lemma run_ok_cursor t r to now :
  IsValidStage to = true → CanTransitionStage (State r) (CurrentStage r) to = true →
  run_ok t r → run_ok t (setCursor to (resumed (State r)) now r).
Proof.
  intros Hv Hc []. constructor; simpl; try done.
  - unfold resumed. by case_match.
  - unfold resumed. by destruct (State r).
  - unfold resumed. by destruct (State r).
Qed.

Lemma moves_failure r c reason now :
  IsTerminalRunState (State r) = false → moves r (setFailure c reason now r).
Proof. intros Ht. constructor; simpl; try lia; auto. by rewrite Ht. Qed.

Lemma run_ok_failure t r c reason now : run_ok t r → run_ok t (setFailure c reason now r).
Proof. intros []. by constructor. Qed.

Lemma moves_attempts r sa ra now :
  IsTerminalRunState (State r) = false → (StageAttempt r ≤ sa)%Z → (RepairAttempt r ≤ ra)%Z →
  moves r (setAttempts sa ra now r).
Proof. intros Ht ??. constructor; simpl; auto. by rewrite Ht. Qed.

Lemma run_ok_attempts t r sa ra now :
  (1 ≤ sa)%Z → (0 ≤ ra ≤ MaxRepairAttempts r)%Z → run_ok t r → run_ok t (setAttempts sa ra now r).
Proof. intros ?? []. by constructor. Qed.

Lemma changedRun_fields change now r :
  TaskID (changedRun change now r) = TaskID r ∧
  CurrentStage (changedRun change now r) = CurrentStage r ∧
  State (changedRun change now r) = To change ∧
  StageAttempt (changedRun change now r) = StageAttempt r ∧
  RepairAttempt (changedRun change now r) = RepairAttempt r ∧
  MaxRepairAttempts (changedRun change now r) = MaxRepairAttempts r.
Proof.
  unfold changedRun. destruct change as [to reason ref]; simpl.
  destruct to; simpl; try case_bool_decide; done.
Qed.

Lemma moves_state change now r :
  CanTransitionRunState (State r) (To change) = true → moves r (changedRun change now r).
Proof.
  destruct (changedRun_fields change now r) as (? & Hst & Hs & Ha & Hra & Hm).
  intros Hc. constructor.
  - intros Ht. by destruct (State r).
  - by left.
  - right. by rewrite Hs.
  - by rewrite Ha.
  - by rewrite Hra.
  - done.
Qed.

Lemma run_ok_state t change now r :
  IsValidRunState (To change) = true → stageAllows (To change) (CurrentStage r) = true →
  run_ok t r → run_ok t (changedRun change now r).
Proof.
  destruct (changedRun_fields change now r) as (Hid & Hst & Hs & Ha & Hra & Hm).
  intros Hv Hsa []. constructor; rewrite ?Hid, ?Hst, ?Hs, ?Ha, ?Hra, ?Hm; try done.
  - intros E. rewrite E in Hsa. simpl in Hsa.
    apply orb_true_iff in Hsa. by rewrite !bool_decide_eq_true in Hsa.
  - intros E. rewrite E in Hsa. simpl in Hsa. by apply bool_decide_eq_true in Hsa.
Qed.

Lemma moves_cancel r reason now :
  IsTerminalRunState (State r) = false → IsValidRunState (State r) = true →
  moves r (setFailure FailureCancelled reason now (setCursor (CurrentStage r) RunCancelled now r)).
Proof.
  intros Ht Hv. constructor; simpl; try lia; auto; [by rewrite Ht|].
  right. by destruct (State r).
Qed.

Lemma run_ok_cancel t r reason now :
  run_ok t r →
  run_ok t (setFailure FailureCancelled reason now (setCursor (CurrentStage r) RunCancelled now r)).
Proof. intros []. by constructor. Qed.

Lemma history_closeInFlight t r c reason now db :
  IsValidStage (CurrentStage r) = true → history db (closeInFlight t r c reason now db).
Proof. intros H. unfold closeInFlight. eauto using history_trans, history_close, history_insert. Qed.

(** ** The effect of each operation *)

Lemma ensureEnteredTx_effect t st a reason ev now db rec db' :
  IsValidStage st = true →
  ensureEnteredTx t st a reason ev now db = Ok (rec, db') → history db db'.
Proof.
  intros Hv H. destruct (ensureEnteredTx_ok t st a reason ev now db) as (rec' & Heq & _).
  rewrite Heq in H. simplify_eq. by apply history_insert.
Qed.

Lemma CreateRun_effect t p max now db run db' :
  CreateRun t p max now db = Ok (run, db') → effect t db db'.
Proof.
  unfold CreateRun. destruct (bool_decide (t = "") || _); [done|]. intros H.
  apply bind_ok in H as (run' & _ & H). simplify_eq.
  destruct (runs db !! t) as [r|] eqn:Hr; [by apply history_effect, history_insert|].
  set (r' := mkRun t p StageCompile RunActive 1 0 _ FailureNone "" "" now now).
  destruct (history_insert t StageCompile 1 RecordEntered FailureNone "" "" now 0
    (withRun t r' db) eq_refl) as (H1 & H2 & H3).
  constructor; [done|done|]. right; right. exists r'. split_and!; [done|done|].
  constructor; simpl; try done. destruct (Z.leb_spec max 0); unfold DefaultMaxRepairAttempts; lia.
Qed.

Lemma Transition_effect t to reason ev now db rec db' :
  Transition t to reason ev now db = Ok (rec, db') → effect t db db'.
Proof.
  destruct (IsValidStage to) eqn:Hv; [|unfold Transition; by rewrite Hv].
  destruct (runs db !! t) as [r|] eqn:Hr;
    [|unfold Transition, getRunTx; by rewrite Hv, Hr].
  rewrite (Transition_run _ _ _ _ _ _ r) by done.
  destruct (decide _); [intros H; by eapply history_effect, ensureEnteredTx_effect|].
  destruct (CanTransitionStage _ _ _) eqn:Hc; [|done]. intros H.
  apply ensureEnteredTx_effect in H; [|done].
  by eapply update_history; [done..|apply moves_cursor|apply run_ok_cursor].
Qed.

Lemma finishStage_effect t stage status c reason ev now db db' :
  finishStage t stage status c reason ev now db = Ok db' → effect t db db'.
Proof.
  destruct (IsValidStage stage) eqn:Hv; [|unfold finishStage; by rewrite Hv].
  destruct (runs db !! t) as [r|] eqn:Hr;
    [|unfold finishStage, getRunTx; by rewrite Hv, Hr].
  rewrite (finishStage_run _ _ _ _ _ _ _ _ r) by done.
  destruct (recordExistsTx _ _ _ _ _); [intros [= <-]; apply effect_refl|].
  destruct (decide _); [|done]. destruct (IsTerminalRunState _) eqn:Ht; [done|].
  intros [= <-].
  assert (history db (insertRecord t stage (StageAttempt r) status c reason ev now now
    (closeEntry t stage (StageAttempt r) now db))) as Hh by eauto with pipeline.
  case_match; [|by apply history_effect].
  eapply history_update; [done..|by apply moves_failure|apply run_ok_failure].
Qed.

Lemma history_refl db : history db db.
Proof. split_and!; [done|apply rec_grows_refl|done]. Qed.

Lemma IncrementStageAttempt_effect t now db n db' :
  store_inv db → IncrementStageAttempt t now db = Ok (n, db') → effect t db db'.
Proof.
  intros [Hr0 _] H. destruct (runs db !! t) as [r|] eqn:Hr;
    [|unfold IncrementStageAttempt, getRunTx in H; by rewrite Hr in H].
  rewrite (IncrementStageAttempt_run _ _ _ r) in H by done.
  destruct (IsTerminalRunState _) eqn:Ht; [done|]. simplify_eq.
  destruct (Hr0 _ _ Hr). eapply history_update; [apply history_refl|done|..].
  - apply moves_attempts; [done|lia..].
  - apply run_ok_attempts; lia.
Qed.

Lemma IncrementRepairAttempt_effect t now db out db' :
  store_inv db → IncrementRepairAttempt t now db = Ok (out, db') → effect t db db'.
Proof.
  intros [Hr0 _] H. destruct (runs db !! t) as [r|] eqn:Hr;
    [|unfold IncrementRepairAttempt, getRunTx in H; by rewrite Hr in H].
  rewrite (IncrementRepairAttempt_run _ _ _ r) in H by done.
  destruct (IsTerminalRunState _) eqn:Ht; [done|].
  destruct (decide _); simplify_eq; [|apply effect_refl].
  destruct (Hr0 _ _ Hr). eapply history_update; [apply history_refl|done|..].
  - apply moves_attempts; [done|lia..].
  - apply run_ok_attempts; lia.
Qed.

Lemma MarkInterrupted_effect t reason now db db' :
  store_inv db → MarkInterrupted t reason now db = Ok db' → effect t db db'.
Proof.
  intros [Hr0 _]. unfold MarkInterrupted, getRunTx.
  destruct (runs db !! t) as [r|] eqn:Hr; simpl; [|done].
  destruct (IsTerminalRunState _); intros [= <-]; [apply effect_refl|].
  apply history_effect, history_closeInFlight. by destruct (Hr0 _ _ Hr).
Qed.

Lemma SetRunState_effect t change now db db' :
  SetRunState t change now db = Ok db' → effect t db db'.
Proof.
  destruct (IsValidRunState (To change)) eqn:Hv; [|unfold SetRunState; by rewrite Hv].
  destruct (runs db !! t) as [r|] eqn:Hr;
    [|unfold SetRunState, getRunTx; by rewrite Hv, Hr].
  rewrite (SetRunState_run _ _ _ _ r) by done.
  destruct (decide _); [intros [= <-]; apply effect_refl|].
  destruct (CanTransitionRunState _ _) eqn:Hc; [|done].
  destruct (stageAllows _ _) eqn:Hs; [|done]. intros [= <-].
  eapply history_update; [apply history_refl|done|by apply moves_state|by apply run_ok_state].
Qed.

Lemma Cancel_effect t reason now db db' :
  store_inv db → Cancel t reason now db = Ok db' → effect t db db'.
Proof.
  intros [Hr0 _] H. destruct (runs db !! t) as [r|] eqn:Hr;
    [|unfold Cancel, getRunTx in H; by rewrite Hr in H].
  rewrite (Cancel_run _ _ _ _ r) in H by done.
  destruct (IsTerminalRunState _) eqn:Ht; simplify_eq; [apply effect_refl|].
  destruct (Hr0 _ _ Hr). eapply history_update; [by apply history_closeInFlight|done|..].
  - by apply moves_cancel.
  - apply run_ok_cancel.
Qed.

Definition opTask (op : Op) : string :=
  match op with
  | OpCreateRun t _ _ | OpTransition t _ _ _ | OpCompleteStage t _ _ | OpFailStage t _ _ _ _
  | OpIncrementStageAttempt t | OpIncrementRepairAttempt t | OpMarkInterrupted t _
  | OpSetRunState t _ | OpCancel t _ => t
  | OpSetEmergencyStop _ _ => ""
  end.

Lemma exec_effect op now db :
  store_inv db → effect (opTask op) db (exec op now db).2.
Proof.
  intros Hinv. destruct op; cbn [exec opTask];
    try match goal with |- effect _ _ (commit _ ?x).2 => destruct x as [[? ?]|?] eqn:H end;
    try match goal with |- effect _ _ (commit_ _ ?x).2 => destruct x as [?|?] eqn:H end;
    cbn [commit commit_ snd]; try apply effect_refl;
    eauto using CreateRun_effect, Transition_effect, finishStage_effect,
      IncrementStageAttempt_effect, IncrementRepairAttempt_effect, MarkInterrupted_effect,
      SetRunState_effect, Cancel_effect.
  - unfold FailStage in H. destruct (IsValidFailureCategory c); [|done]. simpl in H.
    eauto using finishStage_effect.
  - apply history_effect. split_and!; [done|apply rec_grows_refl|done].
Qed.

(** No operation loses the race inside its own transaction. *)
Lemma exec_no_lost_race op now db : (exec op now db).1 ≠ Some ErrConcurrentModification.
Proof.
  destruct (runs db !! opTask op) as [r|] eqn:Hr.
  - destruct op as [t p max|t to reason ev|t st ev|t st c reason ev|t|t|t reason|t ch|t reason|on reason];
      cbn [exec opTask] in *; try done.
    + unfold CreateRun. destruct (_ || _); [done|]. rewrite Hr. unfold CurrentRun, getRunTx.
      rewrite insertRecord_runs, Hr. done.
    + destruct (IsValidStage to) eqn:Hv; [|unfold Transition; by rewrite Hv].
      rewrite (Transition_run _ _ _ _ _ _ r) by done.
      destruct (decide _); [|destruct (CanTransitionStage _ _ _); [|done]].
      all: match goal with |- context [ensureEnteredTx ?a ?b ?c ?d ?e ?f ?g] =>
        destruct (ensureEnteredTx_ok a b c d e f g) as (? & -> & _) end; done.
    + unfold CompleteStage. destruct (IsValidStage st) eqn:Hv; [|unfold finishStage; by rewrite Hv].
      rewrite (finishStage_run _ _ _ _ _ _ _ _ r) by done. by repeat case_match.
    + unfold FailStage. destruct (IsValidFailureCategory c); [|done]. simpl.
      destruct (IsValidStage st) eqn:Hv; [|unfold finishStage; by rewrite Hv].
      rewrite (finishStage_run _ _ _ _ _ _ _ _ r) by done. by repeat case_match.
    + rewrite (IncrementStageAttempt_run _ _ _ r) by done. by case_match.
    + rewrite (IncrementRepairAttempt_run _ _ _ r) by done. by repeat case_match.
    + unfold MarkInterrupted, getRunTx. rewrite Hr. simpl. by case_match.
    + destruct (IsValidRunState (To ch)) eqn:Hv; [|unfold SetRunState; by rewrite Hv].
      rewrite (SetRunState_run _ _ _ _ r) by done. by repeat case_match.
    + rewrite (Cancel_run _ _ _ _ r) by done. by case_match.
  - destruct op; cbn [exec opTask] in *; try done;
      unfold CreateRun, Transition, CompleteStage, FailStage, finishStage, IncrementStageAttempt,
        IncrementRepairAttempt, MarkInterrupted, SetRunState, Cancel, CurrentRun, getRunTx;
      rewrite ?Hr, ?insertRecord_runs; simpl; rewrite ?lookup_insert_eq; by repeat case_match.
Qed.

(** A retry of an operation that does not count is a no-op. *)
Definition retryable (op : Op) : bool :=
  match op with OpIncrementStageAttempt _ | OpIncrementRepairAttempt _ => false | _ => true end.

Definition emptyDB : DB := mkDB ∅ [] ∅.

(** A sequence of store operations, each at its own time. *)
Definition execAll (ops : list (Op * Time)) (db : DB) : DB :=
  foldl (λ db o, (exec o.1 o.2 db).2) db ops.

Lemma emptyDB_inv : store_inv emptyDB.
Proof. split; [apply map_Forall_empty|]. by constructor; [constructor|]. Qed.

Lemma execAll_inv ops db : store_inv db → store_inv (execAll ops db).
Proof.
  revert db; induction ops as [|[op now] ops IH]; intros db Hinv; [done|].
  apply IH. eapply effect_inv; [done|]. by apply exec_effect.
Qed.

Lemma execAll_terminal ops db t r :
  store_inv db → runs db !! t = Some r → IsTerminalRunState (State r) = true →
  runs (execAll ops db) !! t = Some r.
Proof.
  revert db; induction ops as [|[op now] ops IH]; intros db Hinv Hr Ht; [done|].
  pose proof (exec_effect op now db Hinv) as He. apply IH; [by eapply effect_inv| |done].
  destruct (effect_moves _ _ _ _ _ He Hr) as (r' & Hr' & Hm & _).
  by rewrite (mv_terminal _ _ Hm Ht) in Hr'.
Qed.

Lemma execAll_grows ops db : store_inv db → rec_grows (records db) (records (execAll ops db)).
Proof.
  revert db; induction ops as [|[op now] ops IH]; intros db Hinv; [apply rec_grows_refl|].
  pose proof (exec_effect op now db Hinv) as He.
  eapply rec_grows_trans; [apply (ef_grows _ _ _ He)|]. apply IH. by eapply effect_inv.
Qed.

(** ** Retries *)

Lemma insertRecord_present t st a s c rs ev e f db :
  recordExistsTx t st a s db = true → insertRecord t st a s c rs ev e f db = db.
Proof. unfold insertRecord, recordExistsTx. by intros ->. Qed.

Lemma ensureEnteredTx_again t st a reason ev now db rec db1 reason' ev' now' :
  ensureEnteredTx t st a reason ev now db = Ok (rec, db1) →
  ∃ rec', ensureEnteredTx t st a reason' ev' now' db1 = Ok (rec', db1).
Proof.
  intros H. destruct (ensureEnteredTx_ok t st a reason ev now db) as (r0 & E & _).
  rewrite E in H. simplify_eq.
  destruct (ensureEnteredTx_ok t st a reason' ev' now'
    (insertRecord t st a RecordEntered FailureNone reason ev now 0 db)) as (r1 & E1 & _).
  exists r1. rewrite E1. by rewrite insertRecord_present by apply insertRecord_exists.
Qed.

(** No open entry is left after a close at a proper time, nor after the outcome
    record that follows it. *)
Lemma closeEntry_closed t st a now db :
  (∀ r, r ∈ records db → keyMatches t st a RecordEntered r = true → FinishedAt r ≠ 0%Z) →
  closeEntry t st a now db = db.
Proof.
  intros H. destruct db as [rn rs fl]. unfold closeEntry; simpl in *. f_equal.
  rewrite <-(list_fmap_id rs) at 2. apply list_fmap_ext. intros i r Hi. simpl.
  destruct (keyMatches t st a RecordEntered r) eqn:E; [|done]. simpl.
  unfold time.IsZero. destruct (Z.eqb_spec (FinishedAt r) 0) as [Hz|]; [|done].
  by destruct (H r (list_elem_of_lookup_2 _ _ _ Hi) E).
Qed.

Lemma closeInFlight_again t r c reason now db c' reason' now' :
  now ≠ 0%Z →
  closeInFlight t r c' reason' now' (closeInFlight t r c reason now db) =
  closeInFlight t r c reason now db.
Proof.
  intros Hnow. unfold closeInFlight.
  set (db1 := insertRecord t (CurrentStage r) (StageAttempt r) RecordFailed c reason "" now now
    (closeEntry t (CurrentStage r) (StageAttempt r) now db)).
  assert (closeEntry t (CurrentStage r) (StageAttempt r) now' db1 = db1) as ->.
  { apply closeEntry_closed. intros x Hx Hk.
    assert (x ∈ records (closeEntry t (CurrentStage r) (StageAttempt r) now db)) as Hin.
    { unfold db1, insertRecord in Hx. destruct (existsb _ _); [done|].
      cbn [records] in Hx. apply elem_of_app in Hx as [Hx|Hx]; [done|].
      apply list_elem_of_singleton in Hx as ->. by apply keyMatches_true in Hk. }
    simpl in Hin. apply list_elem_of_fmap in Hin as (y & -> & Hy).
    destruct (keyMatches _ _ _ _ y && time.IsZero (FinishedAt y)) eqn:E; [done|].
    rewrite Hk in E. simpl in E. by apply Z.eqb_neq. }
  apply insertRecord_present. apply insertRecord_exists.
Qed.

Lemma finishStage_again t stage status c reason ev now db db1 c' reason' ev' now' :
  finishStage t stage status c reason ev now db = Ok db1 →
  finishStage t stage status c' reason' ev' now' db1 = Ok db1.
Proof.
  destruct (IsValidStage stage) eqn:Hv; [|unfold finishStage; by rewrite Hv].
  destruct (runs db !! t) as [r|] eqn:Hr;
    [|unfold finishStage, getRunTx; by rewrite Hv, Hr].
  rewrite (finishStage_run _ _ _ _ _ _ _ _ r) by done.
  destruct (recordExistsTx t stage (StageAttempt r) status db) eqn:He.
  { intros [= <-]. rewrite (finishStage_run _ _ _ _ _ _ _ _ r) by done. by rewrite He. }
  destruct (decide _); [|done]. destruct (IsTerminalRunState _); [done|].
  intros [= <-]. set (db2 := insertRecord _ _ _ _ _ _ _ _ _ _).
  assert (recordExistsTx t stage (StageAttempt r) status db2 = true) as Hex
    by apply insertRecord_exists.
  destruct (decide _).
  - rewrite (finishStage_run _ _ _ _ _ _ _ _ (setFailure c reason now r));
      [|by simpl; rewrite lookup_insert_eq|done].
    simpl. unfold recordExistsTx in *. simpl. by rewrite Hex.
  - rewrite (finishStage_run _ _ _ _ _ _ _ _ r);
      [|unfold db2; by rewrite insertRecord_runs|done].
    by rewrite Hex.
Qed.

Lemma Transition_again t to reason ev now db rec db1 now' :
  Transition t to reason ev now db = Ok (rec, db1) →
  ∃ rec', Transition t to reason ev now' db1 = Ok (rec', db1).
Proof.
  destruct (IsValidStage to) eqn:Hv; [|unfold Transition; by rewrite Hv].
  destruct (runs db !! t) as [r|] eqn:Hr; [|unfold Transition, getRunTx; by rewrite Hv, Hr].
  rewrite (Transition_run _ _ _ _ _ _ r) by done.
  assert (∀ r1 db0, runs db0 !! t = Some r1 → CurrentStage r1 = to →
    ensureEnteredTx t to (StageAttempt r1) reason ev now db0 = Ok (rec, db1) →
    ∃ rec', Transition t to reason ev now' db1 = Ok (rec', db1)) as Hag.
  { intros r1 db0 Hr1 Hc He. pose proof (ensureEnteredTx_effect _ _ _ _ _ _ _ _ _ Hv He) as (_ & _ & Hrn).
    rewrite (Transition_run _ _ _ _ _ _ r1) by (done || by rewrite Hrn).
    rewrite decide_True by done. by eapply ensureEnteredTx_again. }
  destruct (decide _) as [Hc|]; [by apply Hag|].
  destruct (CanTransitionStage _ _ _); [|done]. intros H.
  apply (Hag _ _ (lookup_insert_eq _ _ (setCursor to (resumed (State r)) now r)) eq_refl H).
Qed.

Lemma CreateRun_again t p max now now' db r db1 :
  CreateRun t p max now db = Ok (r, db1) → CreateRun t p max now' db1 = Ok (r, db1).
Proof.
  unfold CreateRun. destruct (_ || _); [done|]. intros H.
  apply bind_ok in H as (r' & Hr & [= -> <-]).
  set (db0 := match runs db !! t with Some _ => _ | None => _ end) in *.
  set (db2 := insertRecord t StageCompile 1 RecordEntered FailureNone "" "" now 0 db0) in *.
  assert (recordExistsTx t StageCompile 1 RecordEntered db2 = true) as Hex
    by apply insertRecord_exists.
  unfold CurrentRun, getRunTx in *. destruct (runs db2 !! t) as [r'|] eqn:E; [|done].
  simpl in Hr. injection Hr as ->. cbv zeta.
  rewrite (insertRecord_present t StageCompile 1 RecordEntered _ _ _ _ _ db2 Hex).
  rewrite E. done.
Qed.

(** ** Store properties *)

(** C7: the durable store's state machine.  After any sequence of operations
    from the empty database every run has a known stage and state, a repair
    count within its budget, waits for quota only in execute or verify and is
    completed only at finalize, and the stage history has unique keys.  From
    there no operation loses a race inside its own transaction, an operation
    moves its own run only along the stage and state tables with growing
    counters, and leaves every other run alone; and it leaves every record of the
    history where it is, open ones closed at most, and adds new ones after
    them. *)
Theorem store_reachable ops op now :
  let db := execAll ops emptyDB in
  store_inv db ∧
  (exec op now db).1 ≠ Some ErrConcurrentModification ∧
  rec_grows (records db) (records (exec op now db).2) ∧
  ∀ id r, runs db !! id = Some r →
    ∃ r', runs (exec op now db).2 !! id = Some r' ∧ moves r r' ∧ (id ≠ opTask op → r' = r).
Proof.
  cbv zeta. pose proof (execAll_inv ops emptyDB emptyDB_inv) as Hinv.
  split; [done|]. split; [apply exec_no_lost_race|]. split; [apply (ef_grows _ _ _ (exec_effect op now _ Hinv))|].
  intros id r Hr. by apply (effect_moves _ _ _ _ _ (exec_effect op now _ Hinv)).
Qed.

(** terminal states are absorbing and history is append-only.  Once a run
    is completed, failed, cancelled or repair-exhausted, no further sequence of
    store operations, on any task, changes its row in any column; and no
    sequence ever removes or rewrites a stage record, except to close it. *)
Theorem store_terminal_absorbing before after_ t r :
  let db := execAll before emptyDB in
  runs db !! t = Some r → IsTerminalRunState (State r) = true →
  runs (execAll after_ db) !! t = Some r ∧
  rec_grows (records db) (records (execAll after_ db)).
Proof.
  cbv zeta. intros Hr Ht. pose proof (execAll_inv before emptyDB emptyDB_inv) as Hinv.
  split; [by apply execAll_terminal|by apply execAll_grows].
Qed.

Definition cancelledHistory : list (Op * Time) :=
  [(OpCreateRun "T" "P" 2, 10%Z); (OpTransition "T" StagePlan "" "", 11%Z); (OpCancel "T" "user", 12%Z)].
Definition lateWrites : list (Op * Time) :=
  [(OpTransition "T" StageReady "" "", 13%Z); (OpIncrementRepairAttempt "T", 14%Z);
   (OpSetRunState "T" (mkRunStateChange RunActive "" ""), 15%Z); (OpCreateRun "U" "P" 1, 16%Z)].

Lemma store_terminal_absorbing_witness :
  State <$> runs (execAll lateWrites (execAll cancelledHistory emptyDB)) !! "T" = Some RunCancelled
  ∧ size (runs (execAll lateWrites (execAll cancelledHistory emptyDB))) = 2.
Proof.
  split; [|vm_compute; reflexivity].
  destruct (store_terminal_absorbing cancelledHistory lateWrites "T"
    (setFailure FailureCancelled "user" 12 (setCursor StagePlan RunCancelled 12
       (mkRun "T" "P" StagePlan RunActive 1 0 2 FailureNone "" "" 10 11)))) as [-> _];
    vm_compute; reflexivity.
Defined.

(** crash-safe retries.  An operation that committed and is retried, as
    after a crash, commits again and changes nothing: creating a run, a
    transition, completing, failing or interrupting a stage, a state change, a
    cancel, the emergency stop.  (The two counters are the operations that
    count.) *)
Theorem exec_idempotent op now now' db db1 :
  retryable op = true → now ≠ 0%Z →
  exec op now db = (None, db1) → exec op now' db1 = (None, db1).
Proof.
  intros Hop Hnow.
  destruct op as [t p max|t to reason ev|t st ev|t st c reason ev|t|t|t reason|t ch|t reason|on reason];
    cbn [exec] in *; try done.
  - destruct (CreateRun t p max now db) as [[r db2]|] eqn:E; [|done].
    intros [= ->]. by rewrite (CreateRun_again _ _ _ _ now' _ _ _ E).
  - destruct (Transition t to reason ev now db) as [[rec db2]|] eqn:E; [|done].
    intros [= ->]. destruct (Transition_again _ _ _ _ _ _ _ _ now' E) as [rec' ->]. done.
  - unfold CompleteStage. destruct (finishStage _ _ _ _ _ _ now db) eqn:E; [|done].
    intros [= ->]. by rewrite (finishStage_again _ _ _ _ _ _ _ _ _ FailureNone "" ev now' E).
  - unfold FailStage. destruct (IsValidFailureCategory c); [|done]. simpl.
    destruct (finishStage _ _ _ _ _ _ now db) eqn:E; [|done].
    intros [= ->]. by rewrite (finishStage_again _ _ _ _ _ _ _ _ _ c reason ev now' E).
  - unfold MarkInterrupted, getRunTx. destruct (runs db !! t) as [r|] eqn:Hr; [|done]. simpl.
    destruct (IsTerminalRunState (State r)) eqn:Ht; intros [= <-].
    + rewrite Hr. simpl. by rewrite Ht.
    + rewrite closeInFlight_runs, Hr. simpl. rewrite Ht. by rewrite closeInFlight_again.
  - destruct (IsValidRunState (To ch)) eqn:Hv; [|unfold SetRunState; by rewrite Hv].
    destruct (runs db !! t) as [r|] eqn:Hr; [|unfold SetRunState, getRunTx; by rewrite Hv, Hr].
    rewrite (SetRunState_run _ _ _ _ r) by done.
    assert (∀ r1 db2, runs db2 !! t = Some r1 → State r1 = To ch →
      commit_ db2 (SetRunState t ch now' db2) = (None, db2)) as Hag.
    { intros r1 db2 Hr1 Hs. rewrite (SetRunState_run _ _ _ _ r1) by done.
      by rewrite decide_True. }
    destruct (decide _); [intros [= <-]; by eapply Hag|].
    destruct (CanTransitionRunState _ _); [|done]. destruct (stageAllows _ _); [|done].
    intros [= <-]. eapply Hag; [simpl; apply lookup_insert_eq|].
    by destruct (changedRun_fields ch now r) as (_ & _ & ? & _).
  - destruct (runs db !! t) as [r|] eqn:Hr; [|unfold Cancel, getRunTx; by rewrite Hr].
    rewrite (Cancel_run _ _ _ _ r) by done. destruct (IsTerminalRunState (State r)) eqn:Ht.
    + intros [= <-]. rewrite (Cancel_run _ _ _ _ r) by done. by rewrite Ht.
    + intros [= <-]. erewrite Cancel_run by (simpl; apply lookup_insert_eq). done.
  - intros [= <-]. unfold SetEmergencyStop; simpl. do 2 f_equal.
    apply map_eq. intros k. rewrite !lookup_insert. by repeat case_decide.
Qed.

Lemma exec_idempotent_witness :
  let db := execAll cancelledHistory emptyDB in
  let op := OpCreateRun "U" "P" 0 in
  exec op 21 (exec op 20 db).2 = (None, (exec op 20 db).2).
Proof.
  cbv zeta. apply (exec_idempotent _ 20 21 (execAll cancelledHistory emptyDB));
    [reflexivity|discriminate|vm_compute; reflexivity].
Defined.
End pipeline.
