(* ===== verification/Driver.v ===== *)
(** * Driver: the loop that drives a run through its stages

    Models [internal/pipeline/driver.go] and the restart recovery of
    [internal/daemon/pipeline_service.go] over the store of Pipeline.v.

    The driver shares the database with the rest of the daemon.  A [World]
    carries a schedule: before every access to the store, what other goroutines
    did in the meantime (cancelling a run, setting the emergency stop, cancelling
    the driver's context, the passing of time) is played first.  Stage handlers
    are functions of their [RunContext] and of a state [E] of their own; they
    may return, fail or panic, and may themselves interfere in the same ways.
    Every theorem holds for all handlers and all schedules. *)
From S2P Require Import Prelude Pipeline.
Import pipeline.

Module driver.

(** [string(category)] in messages. *)
Definition FailureCategory_String (c : FailureCategory) : string :=
  match c with
  | FailureNone => ""
  | FailureCompile => "compile_failure"
  | FailureTest => "test_failure"
  | FailureStaticAnalysis => "static_analysis_failure"
  | FailureReviewRejection => "review_rejection"
  | FailureAgentUnavailable => "agent_unavailable"
  | FailureAgentAuthUnavailable => "agent_auth_unavailable"
  | FailureProviderTimeout => "provider_timeout"
  | FailureQuotaExceeded => "quota_exceeded"
  | FailureRateLimited => "rate_limited"
  | FailureInvalidAgentOutput => "invalid_agent_output"
  | FailureNoCodeChanges => "no_code_changes"
  | FailureWorktree => "worktree_failure"
  | FailureGit => "git_failure"
  | FailureDatabase => "database_failure"
  | FailureLeaseLost => "lease_lost"
  | FailureCancelled => "cancelled"
  | FailurePolicyRejection => "policy_rejection"
  | FailureInvariantViolation => "invariant_violation"
  | FailureInterrupted => "interrupted"
  | FailureOther s => s
  end.

(** A handler's error: a [*StageError] (possibly wrapped), or any other. *)
Inductive HandlerError :=
| StageError (Category : FailureCategory) (Reason : string) (Err_ : option string)
| OtherError (text : string).

Definition StageError_Error (c : FailureCategory) (reason : string) (err : option string) : string :=
  if bool_decide (reason ≠ "") then
    "pipeline: stage failed (" +:+ FailureCategory_String c +:+ "): " +:+ reason
  else match err with
  | Some e => e
  | None => "pipeline: stage failed (" +:+ FailureCategory_String c +:+ ")"
  end.

Definition categorizeError (e : HandlerError) : FailureCategory * string :=
  match e with
  | StageError c reason err =>
      let reason := if bool_decide (reason = "") then StageError_Error c reason err else reason in
      (if IsValidFailureCategory c then c else FailureInvariantViolation, reason)
  | OtherError text => (FailureInvariantViolation, text)
  end.

Record RunContext := mkRunContext {
  rc_TaskID : string;
  rc_ProjectID : string;
  rc_Stage : Stage;
  rc_Attempt : Z;
  rc_RepairAttempt : Z }.

(** What the rest of the daemon does to the shared state. *)
Inductive Interference :=
| ICancel (taskID reason : string)
| IEmergencyStop (on : bool) (reason : string)
| IContextCancel
| IClock (t : Time).

Inductive Outcome (A : Type) := Returns (a : A) | Fails (e : HandlerError) | Panics.
Arguments Returns {A} a.
Arguments Fails {A} e.
Arguments Panics {A}.

Section driver.
  Context {E : Type}.

Definition Handler (A : Type) := RunContext → E → Outcome A * list Interference * E.

Record Handlers := mkHandlers {
  Compile : Handler string;
  Plan : Handler string;
  Ready : Handler string;
  Finalize : Handler string;
  Execute : Handler (string * Z);
  Verify : Handler (bool * string * FailureCategory);
  Review : Handler (bool * string);
  Repair : Handler string }.

Record World := mkWorld {
  db : DB;
  cancelled : bool;
  now : Time;
  sched : list (list Interference);
  ext : E }.

Definition withDB (d : DB) (w : World) : World :=
  mkWorld d (cancelled w) (now w) (sched w) (ext w).

Definition interfere1 (w : World) (i : Interference) : World :=
  match i with
  | ICancel t reason => withDB (exec (OpCancel t reason) (now w) (db w)).2 w
  | IEmergencyStop on reason => withDB (SetEmergencyStop on reason (db w)) w
  | IContextCancel => mkWorld (db w) true (now w) (sched w) (ext w)
  | IClock t => mkWorld (db w) (cancelled w) t (sched w) (ext w)
  end.

Definition interfere (is_ : list Interference) (w : World) : World := foldl interfere1 w is_.

(** Other goroutines take their turn. *)
Definition turn (w : World) : World :=
  match sched w with
  | [] => w
  | is_ :: rest => interfere is_ (mkWorld (db w) (cancelled w) (now w) rest (ext w))
  end.

(** ** The driver's effects *)

Definition D (A : Type) := World → result Error A * World.

#[global] Instance D_ret : MRet D := λ A a w, (Ok a, w).
#[global] Instance D_bind : MBind D := λ A B f m w,
  let '(r, w) := m w in
  match r with Ok a => f a w | Err e => (Err e, w) end.

Definition throw {A} (e : Error) : D A := λ w, (Err e, w).

(** One store transaction; on the caller's context unless detached
    ([context.WithoutCancel]). *)
Definition call {A} (detached : bool) (op : Time → DB → result Error (A * DB)) : D A := λ w,
  let w := turn w in
  if cancelled w && negb detached then (Err ErrContext, w)
  else match op (now w) (db w) with
       | Ok (a, d) => (Ok a, withDB d w)
       | Err e => (Err e, w)
       end.

Definition call_ (detached : bool) (op : Time → DB → result Error DB) : D () :=
  call detached (λ n d, d' ← op n d; Ok ((), d')).

(** A read. *)
Definition query {A} (detached : bool) (op : DB → result Error A) : D A :=
  call detached (λ _ d, a ← op d; Ok (a, d)).

(** Call a handler; its panic unwinds to the [recover] of [iterate]. *)
Definition invoke {A} (h : Handler A) (rc : RunContext) : D (A + HandlerError) := λ w,
  let '(out, is_, e) := h rc (ext w) in
  let w := interfere is_ (mkWorld (db w) (cancelled w) (now w) (sched w) e) in
  match out with
  | Returns a => (Ok (inl a), w)
  | Fails e => (Ok (inr e), w)
  | Panics => (Err ErrPanic, w)
  end.

(** ** Routing *)

Definition failStage (rc : RunContext) (herr : HandlerError) : D () :=
  let '(category, reason) := categorizeError herr in
  _ ← call_ true (FailStage (rc_TaskID rc) (rc_Stage rc) category reason "");
  terminal ← (λ w, let '(r, w) := query true (CurrentRun (rc_TaskID rc)) w in
                   (Ok (match r with Ok run => IsTerminalRunState (State run) | Err _ => false end), w));
  if terminal : bool then throw ErrRunTerminal
  else if bool_decide (category = FailureInterrupted) then throw (ErrEmergencyStopped reason)
  else
    let to :=
      if bool_decide (category = FailureLeaseLost) && bool_decide (rc_Stage rc = StageReady)
      then RunBlocked
      else if (bool_decide (category = FailureQuotaExceeded)
               || bool_decide (category = FailureRateLimited))
              && (bool_decide (rc_Stage rc = StageExecute)
                  || bool_decide (rc_Stage rc = StageVerify))
      then RunWaitingQuota else RunFailed in
    call_ true (SetRunState (rc_TaskID rc) (mkRunStateChange to reason "")).

Definition enterRepair (rc : RunContext) (reason : string) : D () :=
  r ← call false (λ n d, '(ok, attempt, d) ← IncrementRepairAttempt (rc_TaskID rc) n d;
                         Ok ((ok, attempt), d));
  let '(ok, attempt) := r : bool * Z in
  if negb ok then
    call_ false (SetRunState (rc_TaskID rc) (mkRunStateChange RunRepairExhausted
      ("repair budget exhausted after " +:+ pretty attempt +:+ " attempts: " +:+ reason) ""))
  else
    _ ← call false (Transition (rc_TaskID rc) StageRepair reason "");
    mret ().

(** Complete the stage and move on. *)
Definition advance (rc : RunContext) (evidenceRef : string) (next : Stage) (reason : string) : D () :=
  _ ← call_ false (CompleteStage (rc_TaskID rc) (rc_Stage rc) evidenceRef);
  _ ← call false (Transition (rc_TaskID rc) next reason "");
  mret ().

Definition runSimple (rc : RunContext) (h : Handler string) (next : Stage) : D () :=
  out ← invoke h rc;
  match out with
  | inr e => failStage rc e
  | inl evidenceRef => advance rc evidenceRef next ""
  end.

Definition runFinalize (hs : Handlers) (rc : RunContext) : D () :=
  out ← invoke (Finalize hs) rc;
  match out with
  | inr e => failStage rc e
  | inl evidenceRef =>
      _ ← call_ false (CompleteStage (rc_TaskID rc) (rc_Stage rc) evidenceRef);
      call_ false (SetRunState (rc_TaskID rc) (mkRunStateChange RunCompleted "" evidenceRef))
  end.

Definition runExecute (hs : Handlers) (rc : RunContext) : D () :=
  out ← invoke (Execute hs) rc;
  match out with
  | inr e => failStage rc e
  | inl (evidenceRef, changedFiles) =>
      if (changedFiles <? 0)%Z then
        failStage rc (StageError FailureInvariantViolation
          ("execute handler returned negative changedFiles " +:+ pretty changedFiles) None)
      else if (changedFiles =? 0)%Z then
        let reason := "execute produced no code changes" in
        _ ← call_ false (FailStage (rc_TaskID rc) (rc_Stage rc) FailureNoCodeChanges reason evidenceRef);
        enterRepair rc reason
      else advance rc evidenceRef StageVerify ""
  end.

Definition runVerify (hs : Handlers) (rc : RunContext) : D () :=
  out ← invoke (Verify hs) rc;
  match out with
  | inr e => failStage rc e
  | inl (passed, evidenceRef, category) =>
      if passed : bool then advance rc evidenceRef StageReview ""
      else
        let category := if IsValidFailureCategory category then category
                        else FailureInvariantViolation in
        let reason := "verification failed: " +:+ FailureCategory_String category in
        _ ← call_ false (FailStage (rc_TaskID rc) (rc_Stage rc) category reason evidenceRef);
        enterRepair rc reason
  end.

Definition runReview (hs : Handlers) (rc : RunContext) : D () :=
  out ← invoke (Review hs) rc;
  match out with
  | inr e => failStage rc e
  | inl (approved, evidenceRef) =>
      if approved : bool then advance rc evidenceRef StageFinalize ""
      else
        let reason := "review rejected the changes" in
        _ ← call_ false (FailStage (rc_TaskID rc) (rc_Stage rc) FailureReviewRejection reason evidenceRef);
        enterRepair rc reason
  end.

Definition runRepair (hs : Handlers) (rc : RunContext) : D () :=
  out ← invoke (Repair hs) rc;
  match out with
  | inr e => failStage rc e
  | inl evidenceRef =>
      _ ← call_ false (CompleteStage (rc_TaskID rc) (rc_Stage rc) evidenceRef);
      _ ← call false (IncrementStageAttempt (rc_TaskID rc));
      _ ← call false (Transition (rc_TaskID rc) StageVerify "repair applied; re-verify" "");
      mret ()
  end.

Definition contextOf (run : Run) : RunContext :=
  mkRunContext (TaskID run) (ProjectID run) (CurrentStage run) (StageAttempt run)
    (RepairAttempt run).

(** The dispatch on the stage of [iterate]. *)
Definition dispatch (hs : Handlers) (run : Run) : D bool :=
  let rc := contextOf run in
  match CurrentStage run with
  | StageCompile => _ ← runSimple rc (Compile hs) StagePlan; mret false
  | StagePlan => _ ← runSimple rc (Plan hs) StageReady; mret false
  | StageReady => _ ← runSimple rc (Ready hs) StageExecute; mret false
  | StageExecute => _ ← runExecute hs rc; mret false
  | StageVerify => _ ← runVerify hs rc; mret false
  | StageReview => _ ← runReview hs rc; mret false
  | StageRepair => _ ← runRepair hs rc; mret false
  | StageFinalize => _ ← runFinalize hs rc; mret false
  | StageOther _ => throw (ErrArgument "no handler routing for stage")
  end.

(** One loop step; [Ok true] is [done]. *)
Definition iterate (hs : Handlers) (taskID : string) : D bool :=
  run ← query false (CurrentRun taskID);
  if IsTerminalRunState (State run) || IsWaitState (State run) then mret true
  else
    estop ← query false (λ d, Ok (EmergencyStop d));
    let '(on, reason) := estop : bool * string in
    if on then throw (ErrEmergencyStopped (orReason reason "no reason recorded"))
    else dispatch hs run.

(** The loop of [Drive], with fuel; [None] is fuel exhausted. *)
Fixpoint driveLoop (fuel : nat) (hs : Handlers) (taskID : string) (retried : bool) (w : World) :
    option (option Error * World) :=
  match fuel with
  | O => None
  | S fuel =>
      let '(r, w) := iterate hs taskID w in
      match r with
      | Ok true => Some (None, w)
      | Ok false => driveLoop fuel hs taskID retried w
      | Err ErrConcurrentModification =>
          if retried then Some (Some ErrConcurrentModification, w)
          else driveLoop fuel hs taskID true w
      | Err ErrRunTerminal =>
          let '(r, w) := query true (CurrentRun taskID) w in
          match r with
          | Ok run => if IsTerminalRunState (State run) then Some (None, w)
                      else Some (Some ErrRunTerminal, w)
          | Err _ => Some (Some ErrRunTerminal, w)
          end
      | Err e => Some (Some e, w)
      end
  end.

Definition Drive (fuel : nat) (hs : Handlers) (taskID : string) (w : World) :
    option (option Error * World) :=
  if bool_decide (taskID = "") then Some (Some (ErrArgument "task_id is required"), w)
  else driveLoop fuel hs taskID false w.

(** ** Restart recovery (daemon/pipeline_service.go, [ResumeActiveRuns])

    The store operations the recovery applies to one listed run; an error skips
    the run ([continue]). *)
Definition resumeRun (run : Run) : D () :=
  if IsWaitState (State run) then
    if bool_decide (CurrentStage run = StageReady) then
      call_ false (SetRunState (TaskID run) (mkRunStateChange RunActive "" ""))
    else
      _ ← call false (Transition (TaskID run) StageReady "resume after restart" "");
      mret ()
  else
    _ ← call_ false (MarkInterrupted (TaskID run) "daemon restarted mid-stage");
    _ ← call false (IncrementStageAttempt (TaskID run));
    _ ← call false (Transition (TaskID run) (CurrentStage run) "re-drive after restart" "");
    mret ().

(** One listed run after the other; the tasks re-driven. *)
Fixpoint resumeListed (rs : list Run) (w : World) : list string * World :=
  match rs with
  | [] => ([], w)
  | run :: rs =>
      let '(r, w) := resumeRun run w in
      let '(ts, w) := resumeListed rs w in
      (match r with Ok _ => TaskID run :: ts | Err _ => ts end, w)
  end.

Definition ResumeActiveRuns (textLess : Time → Time → bool) (w : World) : list string * World :=
  match query false (λ d, Ok (EmergencyStop d)) w with
  | (Err _, w) | (Ok (true, _), w) => ([], w)
  | (Ok (false, _), w) =>
      match query false (λ d, Ok (ListActiveRuns textLess d)) w with
      | (Err _, w) => ([], w)
      | (Ok rs, w) => resumeListed rs w
      end
  end.

End driver.
Arguments Handlers : clear implicits.
Arguments World : clear implicits.

(** ** What a driver step keeps *)

Section proofs.
  Context {E : Type} (t : string).
  Implicit Types (w : World E) (d : DB) (r : Run).

(** The stage was completed at some attempt. *)
Definition has (st : Stage) (d : DB) : Prop := ∃ a, recordExistsTx t st a RecordCompleted d = true.

(** What reaching a stage owes to the stages before it. *)
Definition owes (r : Run) (d : DB) : Prop :=
  (CurrentStage r = StageReview → has StageVerify d) ∧
  (CurrentStage r = StageFinalize → has StageVerify d ∧ has StageReview d) ∧
  (State r = RunCompleted → has StageVerify d ∧ has StageReview d ∧ has StageFinalize d).

(** The invariant of the run of task [t] under the driver. *)
Definition good (d : DB) : Prop :=
  store_inv d ∧ ∀ r, runs d !! t = Some r → owes r d.

(** The run as the loop read it, unless someone made it terminal since. *)
Definition track (r : Run) (d : DB) : Prop :=
  ∃ r', runs d !! t = Some r' ∧ CurrentStage r' = CurrentStage r ∧
    MaxRepairAttempts r' = MaxRepairAttempts r ∧
    (IsTerminalRunState (State r') = true ∨
     State r' = State r ∧ RepairAttempt r' = RepairAttempt r).

(** The measure of the loop: 9 per repair left, and the place in the round. *)
Definition rank (st : Stage) : Z :=
  match st with
  | StageCompile => 8
  | StagePlan => 7
  | StageReady => 6
  | StageExecute => 5
  | StageRepair => 5
  | StageVerify => 4
  | StageReview => 3
  | StageFinalize => 2
  | StageOther _ => 1
  end.

Definition budgetOf (r : Run) : nat :=
  if IsTerminalRunState (State r) || IsWaitState (State r) then 0
  else Z.to_nat (9 * (MaxRepairAttempts r - RepairAttempt r) + rank (CurrentStage r)).

Definition budget (d : DB) : nat :=
  match runs d !! t with Some r => budgetOf r | None => 0 end.

Lemma has_grows st d d' : rec_grows (records d) (records d') → has st d → has st d'.
Proof.
  intros Hg [a Ha]. exists a. destruct d, d'.
  by eapply recordExists_grows.
Qed.

Lemma owes_grows r d d' : rec_grows (records d) (records d') → owes r d → owes r d'.
Proof.
  intros Hg (H1 & H2 & H3). split_and!.
  - intros Hs. by eapply has_grows; [|apply H1].
  - intros Hs. destruct (H2 Hs). split; by eapply has_grows.
  - intros Hs. destruct (H3 Hs) as (? & ? & ?). split_and!; by eapply has_grows.
Qed.

(** An update that keeps the stage, and does not complete the run, keeps
    [good]. *)
Lemma good_effect d d' r r' :
  good d → effect t d d' → runs d !! t = Some r → runs d' !! t = Some r' →
  CurrentStage r' = CurrentStage r → (State r' = RunCompleted → State r = RunCompleted) →
  good d'.
Proof.
  intros [Hinv Hj] He Hr Hr' Hs Hst. split; [by eapply effect_inv|].
  intros r0 Hr0. simplify_eq. pose proof (Hj r Hr) as Ho.
  apply (owes_grows _ _ _ (ef_grows _ _ _ He)) in Ho. destruct Ho as (H1 & H2 & H3).
  unfold owes. rewrite Hs. split_and!; auto.
Qed.

Lemma good_other d d' t' :
  good d → effect t' d d' → runs d' !! t = runs d !! t → good d'.
Proof.
  intros [Hinv Hj] He Hsame. split; [by eapply effect_inv|].
  intros r Hr. rewrite Hsame in Hr. eapply owes_grows; [apply (ef_grows _ _ _ He)|auto].
Qed.

(** Interference keeps [good], keeps the run tracked and its history. *)
Lemma interfere1_spec w i r :
  good (db w) → track r (db w) →
  good (db (interfere1 w i)) ∧ track r (db (interfere1 w i)) ∧
  rec_grows (records (db w)) (records (db (interfere1 w i))).
Proof.
  intros Hg (r' & Hr' & Hst & Hmax & Hor). destruct i as [t' reason|on reason| |tm]; simpl.
  - pose proof (exec_effect (OpCancel t' reason) (now w) (db w) (proj1 Hg)) as He. simpl in He.
    split; [|split; [|apply (ef_grows _ _ _ He)]].
    + destruct (decide (t' = t)) as [->|Hne].
      * rewrite (Cancel_run _ _ _ _ r') in * by done.
        destruct (IsTerminalRunState (State r')) eqn:Ht; [done|].
        eapply good_effect; [done|done|done|simpl; apply lookup_insert_eq|done|done].
      * eapply good_other; [done|done|].
        destruct (effect_moves _ _ _ _ _ He Hr') as (r'' & Hr'' & _ & Heq).
        rewrite Hr'', Hr'. f_equal. auto.
    + destruct (decide (t' = t)) as [->|Hne].
      * rewrite (Cancel_run _ _ _ _ r') by done.
        destruct (IsTerminalRunState (State r')) eqn:Ht; [by exists r'; eauto|].
        eexists. simpl. rewrite lookup_insert_eq. split; [done|]. simpl. auto.
      * destruct (effect_moves _ _ _ _ _ He Hr') as (r'' & Hr'' & _ & Heq).
        rewrite Heq in Hr'' by auto. by exists r'.
  - split; [|split; [by exists r'|apply rec_grows_refl]].
    by destruct Hg.
  - split_and!; [done|by exists r'|apply rec_grows_refl].
  - split_and!; [done|by exists r'|apply rec_grows_refl].
Qed.

Lemma interfere_spec is_ w r :
  good (db w) → track r (db w) →
  good (db (interfere is_ w)) ∧ track r (db (interfere is_ w)) ∧
  rec_grows (records (db w)) (records (db (interfere is_ w))).
Proof.
  revert w; induction is_ as [|i is_ IH]; intros w Hg Ht; simpl.
  { split_and!; [done|done|apply rec_grows_refl]. }
  destruct (interfere1_spec w i r Hg Ht) as (Hg1 & Ht1 & Hr1).
  destruct (IH _ Hg1 Ht1) as (Hg2 & Ht2 & Hr2).
  split_and!; [done|done|by eapply rec_grows_trans].
Qed.

Lemma turn_spec w r :
  good (db w) → track r (db w) →
  good (db (turn w)) ∧ track r (db (turn w)) ∧ rec_grows (records (db w)) (records (db (turn w))).
Proof.
  intros Hg Ht. unfold turn. destruct (sched w) as [|is_ rest].
  { split_and!; [done|done|apply rec_grows_refl]. }
  apply (interfere_spec is_ (mkWorld (db w) (cancelled w) (now w) rest (ext w)) r Hg Ht).
Qed.

(** [good] also survives when the task has no run. *)
Lemma interfere_norun is_ w :
  good (db w) → runs (db w) !! t = None →
  good (db (interfere is_ w)) ∧ runs (db (interfere is_ w)) !! t = None.
Proof.
  revert w; induction is_ as [|i is_ IH]; intros w Hg Hn; [done|]. simpl. apply IH.
  - destruct i as [t' reason|on reason| |tm]; simpl; try done.
    pose proof (exec_effect (OpCancel t' reason) (now w) (db w) (proj1 Hg)) as He. simpl in He.
    split; [apply (effect_inv t' (db w)); [apply Hg|done]|].
    intros r Hr. exfalso. unfold Cancel, getRunTx in Hr. destruct (runs (db w) !! t') as [r1|] eqn:Er.
    + assert (t' ≠ t) by congruence.
      assert (runs (commit_ (db w) (Cancel t' reason (now w) (db w))).2 !! t = None) as Hx.
      { rewrite (Cancel_run _ _ _ _ r1) by done. case_match; simpl; [done|].
        rewrite lookup_insert_ne by done. by rewrite closeInFlight_runs. }
      unfold Cancel, getRunTx in Hx. rewrite Er in Hx. congruence.
    + simpl in Hr. congruence.
  - destruct i as [t' reason|on reason| |tm]; simpl; try done.
    destruct (runs (db w) !! t') as [r1|] eqn:Er.
    + rewrite (Cancel_run _ _ _ _ r1) by done. case_match; simpl; [done|].
      rewrite lookup_insert_ne by congruence. by rewrite closeInFlight_runs.
    + unfold Cancel, getRunTx. by rewrite Er.
Qed.

(** A call by cases: the context is gone, the transaction failed, or it
    committed. *)
Lemma call_cases {A} det (op : Time → DB → result Error (A * DB)) w res w' :
  call (E:=E) det op w = (res, w') →
  (res = Err ErrContext ∧ w' = turn w) ∨
  (∃ e, res = Err e ∧ op (now (turn w)) (db (turn w)) = Err e ∧ w' = turn w) ∨
  (∃ a d, res = Ok a ∧ op (now (turn w)) (db (turn w)) = Ok (a, d) ∧ w' = withDB d (turn w)).
Proof.
  unfold call. destruct (cancelled (turn w) && negb det); [intros [= <- <-]; by left|].
  destruct (op _ _) as [[a d]|e] eqn:He; intros [= <- <-]; right; [right|left]; eauto.
Qed.

Lemma track_good_refl d r : runs d !! t = Some r → track r d.
Proof. intros Hr. exists r. split_and!; auto. Qed.

(** ** The driver's calls on a tracked, active run *)

(** A routine keeps [good]; no lost race escapes it; and when it returns
    normally its result satisfies [Q]. *)
Definition keeps {A} (P : DB → Prop) (m : D (E:=E) A) (Q : A → DB → Prop) : Prop :=
  ∀ w res w', good (db w) → P (db w) → m w = (res, w') →
    good (db w') ∧ res ≠ Err ErrConcurrentModification ∧
    (∀ a, res = Ok a → Q a (db w')).

Lemma keeps_bind {A B} P Q R (m : D A) (f : A → D B) :
  keeps P m Q → (∀ a, keeps (Q a) (f a) R) → keeps P (m ≫= f) R.
Proof.
  intros Hm Hf w res w' Hg Hp. unfold mbind, D_bind. destruct (m w) as [[a|e] w1] eqn:E1.
  - destruct (Hm _ _ _ Hg Hp E1) as (Hg1 & _ & Hq). intros H.
    exact (Hf a w1 res w' Hg1 (Hq a eq_refl) H).
  - destruct (Hm _ _ _ Hg Hp E1) as (Hg1 & Hne & _). intros [= <- <-].
    split_and!; [done|congruence|done].
Qed.

Lemma keeps_ret {A} (P : DB → Prop) (a : A) (Q : A → DB → Prop) :
  (∀ d, P d → Q a d) → keeps P (mret a) Q.
Proof. intros HQ w res w' Hg Hp [= <- <-]. split_and!; [done|done|]. intros ? [= <-]. auto. Qed.

Lemma keeps_throw {A} (P : DB → Prop) e (Q : A → DB → Prop) :
  e ≠ ErrConcurrentModification → keeps P (throw e) Q.
Proof. intros He w res w' Hg Hp [= <- <-]. split_and!; [done|congruence|done]. Qed.

Lemma keeps_weaken {A} (P P' : DB → Prop) (m : D A) (Q Q' : A → DB → Prop) :
  keeps P m Q → (∀ d, P' d → P d) → (∀ a d, Q a d → Q' a d) → keeps P' m Q'.
Proof.
  intros Hm HP HQ w res w' Hg Hp H. destruct (Hm w res w' Hg (HP _ Hp) H) as (? & ? & ?).
  split_and!; eauto.
Qed.

(** A transaction on the tracked run: [H] is a fact about the history that the
    calls in between cannot undo. *)
Lemma keeps_call {A} det (op : Time → DB → result Error (A * DB)) r (H : DB → Prop)
    (Q : A → DB → Prop) :
  (∀ d d', rec_grows (records d) (records d') → H d → H d') →
  (∀ n d, op n d ≠ Err ErrConcurrentModification) →
  (∀ n d a d', good d → track r d → H d → op n d = Ok (a, d') → good d' ∧ Q a d') →
  keeps (λ d, track r d ∧ H d) (call det op) Q.
Proof.
  intros HH Hne Hop w res w' Hg [Ht Hh] Hc.
  destruct (turn_spec w r Hg Ht) as (Hg1 & Ht1 & Hgr).
  destruct (call_cases _ _ _ _ _ Hc) as [[-> ->]|[(e & -> & He & ->)|(a & d & -> & Ho & ->)]].
  - split_and!; done.
  - split_and!; [done| |done]. intros [= ->]. by apply (Hne _ _ He).
  - destruct (Hop _ _ _ _ Hg1 Ht1 (HH _ _ Hgr Hh) Ho) as [Hg2 HQ].
    split_and!; [done|done|]. by intros ? [= <-].
Qed.

Lemma keeps_call_ det (op : Time → DB → result Error DB) r (H : DB → Prop) (Q : DB → Prop) :
  (∀ d d', rec_grows (records d) (records d') → H d → H d') →
  (∀ n d, op n d ≠ Err ErrConcurrentModification) →
  (∀ n d d', good d → track r d → H d → op n d = Ok d' → good d' ∧ Q d') →
  keeps (λ d, track r d ∧ H d) (call_ det op) (λ _ d, Q d).
Proof.
  intros HH Hne Hop. unfold call_. apply keeps_call; [done| |].
  - intros n d He. apply (Hne n d). destruct (op n d) as [|e]; [done|].
    by injection He as ->.
  - intros n d a d' Hg Ht Hh Ho. apply bind_ok in Ho as (d1 & Ho & Heq).
    simplify_eq. by apply (Hop n d).
Qed.

Definition anything (d : DB) : Prop := True.
Lemma anything_grows d d' : rec_grows (records d) (records d') → anything d → anything d'.
Proof. done. Qed.
Lemma has_mono st d d' : rec_grows (records d) (records d') → has st d → has st d'.
Proof. apply has_grows. Qed.
#[local] Hint Resolve anything_grows has_mono : driver.

(** The errors of the single operations are never the lost race. *)
Lemma no_race_ op n (x : result Error DB) d :
  commit_ d x = exec op n d → x ≠ Err ErrConcurrentModification.
Proof. intros H ->. apply (exec_no_lost_race op n d). by rewrite <-H. Qed.
Lemma no_race {A} op n (x : result Error (A * DB)) d :
  commit d x = exec op n d → x ≠ Err ErrConcurrentModification.
Proof. intros H ->. apply (exec_no_lost_race op n d). by rewrite <-H. Qed.

(** Completing or failing the current stage keeps the run tracked; completing
    it also records it. *)
Lemma finishStage_keeps stage status c reason ev n d d' r :
  good d → track r d → CurrentStage r = stage →
  finishStage t stage status c reason ev n d = Ok d' →
  good d' ∧ track r d' ∧ (status = RecordCompleted → has stage d').
Proof.
  intros Hg (r' & Hr' & Hst & Hmax & Hor) Hs H.
  pose proof (finishStage_effect _ _ _ _ _ _ _ _ _ H) as He.
  assert (IsValidStage stage = true) as Hv.
  { destruct Hg as [[Hok _] _]. destruct (Hok _ _ Hr'). congruence. }
  rewrite (finishStage_run _ _ _ _ _ _ _ _ r') in H by done.
  destruct (recordExistsTx t stage (StageAttempt r') status d) eqn:Hex.
  { simplify_eq. split_and!; [done|by exists r'|]. intros ->. by exists (StageAttempt r'). }
  rewrite decide_True in H by congruence.
  destruct (IsTerminalRunState (State r')) eqn:Hterm; [done|].
  cbv zeta in H. set (d1 := insertRecord _ _ _ _ _ _ _ _ _ _) in H.
  assert (recordExistsTx t stage (StageAttempt r') status d1 = true) as Hex1
    by apply insertRecord_exists.
  assert (runs d1 !! t = Some r') as Hr1 by (unfold d1; by rewrite insertRecord_runs).
  destruct (decide (status = RecordFailed)) as [Hf|Hf]; simplify_eq.
  - split; [|split; [|intros; congruence]].
    + eapply good_effect; [done|done|done|simpl; apply lookup_insert_eq|done|done].
    + exists (setFailure c reason n r'). split; [simpl; apply lookup_insert_eq|]. simpl. rewrite Hterm. auto.
  - split; [|split; [exists r'; rewrite Hterm; auto|intros ->; exists (StageAttempt r'); done]].
    eapply good_effect; [done|done|done|done|done|done].
Qed.

(** A transition to another stage only succeeds on the run as it was read. *)
Lemma Transition_keeps to reason ev n d rec d' r :
  good d → track r d → CurrentStage r ≠ to →
  State r = RunActive →
  (to = StageReview → has StageVerify d) →
  (to = StageFinalize → has StageVerify d ∧ has StageReview d) →
  Transition t to reason ev n d = Ok (rec, d') →
  good d' ∧ ∃ r', runs d' !! t = Some r' ∧ CurrentStage r' = to ∧ State r' = RunActive ∧
    RepairAttempt r' = RepairAttempt r ∧ MaxRepairAttempts r' = MaxRepairAttempts r.
Proof.
  intros Hg (r' & Hr' & Hst & Hmax & Hor) Hne Hact Hrev Hfin H.
  pose proof (Transition_effect _ _ _ _ _ _ _ _ H) as He.
  destruct (IsValidStage to) eqn:Hv; [|unfold Transition in H; by rewrite Hv in H].
  rewrite (Transition_run _ _ _ _ _ _ r') in H by done.
  rewrite decide_False in H by congruence.
  destruct (CanTransitionStage _ _ _) eqn:Hc; [|done].
  assert (IsTerminalRunState (State r') = false) as Hnt.
  { unfold CanTransitionStage in Hc. by destruct (IsTerminalRunState (State r')). }
  destruct Hor as [?|[Hs Hra]]; [congruence|].
  destruct (ensureEnteredTx_effect _ _ _ _ _ _ _ _ _ Hv H) as (_ & _ & Hrn).
  assert (runs d' !! t = Some (setCursor to (resumed (State r')) n r')) as Hr2.
  { rewrite Hrn. simpl. apply lookup_insert_eq. }
  assert (resumed (State r') = RunActive) as Hres by (unfold resumed; by rewrite Hs, Hact).
  split.
  - split; [eapply effect_inv; [apply Hg|done]|]. intros r0 Hr0. simplify_eq.
    assert (∀ st, has st d → has st d') as Hgrow
      by (intros st; apply has_grows, (ef_grows _ _ _ He)).
    unfold owes; simpl. rewrite Hres. split_and!; [auto| |done].
    intros Hf. destruct (Hfin Hf). auto.
  - eexists. split; [done|]. simpl. by rewrite Hres.
Qed.

Lemma CanTransition_terminal s to : IsTerminalRunState s = true → CanTransitionRunState s to = false.
Proof. by destruct s. Qed.

Lemma SetRunState_keeps change n d d' r :
  good d → track r d → To change ≠ RunActive →
  (To change = RunCompleted → has StageVerify d ∧ has StageReview d ∧ has StageFinalize d) →
  SetRunState t change n d = Ok d' →
  good d' ∧ ∃ r', runs d' !! t = Some r' ∧ State r' = To change.
Proof.
  intros Hg (r' & Hr' & Hst & Hmax & Hor) Hne Hcomp H.
  pose proof (SetRunState_effect _ _ _ _ _ H) as He.
  destruct (IsValidRunState (To change)) eqn:Hv; [|unfold SetRunState in H; by rewrite Hv in H].
  rewrite (SetRunState_run _ _ _ _ r') in H by done.
  destruct (decide (State r' = To change)); [simplify_eq; by eauto|].
  destruct (CanTransitionRunState _ _); [|done]. destruct (stageAllows _ _); [|done].
  simplify_eq. destruct (changedRun_fields change n r') as (_ & Hcs & Hs & _).
  assert (runs (withRun t (changedRun change n r') d) !! t = Some (changedRun change n r')) as Hr2
    by apply lookup_insert_eq.
  split; [|by eauto].
  split; [eapply effect_inv; [apply Hg|done]|]. intros r0 Hr0. simplify_eq.
  destruct (proj2 Hg _ Hr') as (H1 & H2 & H3). unfold owes. rewrite Hcs, Hs. by split_and!.
Qed.

(** The run ended its step closer to the end. *)
Definition less (r : Run) (d : DB) : Prop :=
  ∃ r', runs d !! t = Some r' ∧ budgetOf r' < budgetOf r.

(** The run of a dispatch: active, and of this task. *)
Record driven (r : Run) : Prop := {
  dr_id : TaskID r = t;
  dr_active : State r = RunActive;
  dr_stage : IsValidStage (CurrentStage r) = true;
  dr_repair : (0 ≤ RepairAttempt r ≤ MaxRepairAttempts r)%Z }.

Lemma budgetOf_active r :
  State r = RunActive →
  budgetOf r = Z.to_nat (9 * (MaxRepairAttempts r - RepairAttempt r) + rank (CurrentStage r)).
Proof. intros H. unfold budgetOf. by rewrite H. Qed.

Lemma rank_bounds st : (1 ≤ rank st ≤ 8)%Z.
Proof. destruct st; simpl; lia. Qed.

Lemma budgetOf_stopped r :
  IsTerminalRunState (State r) || IsWaitState (State r) = true → budgetOf r = 0.
Proof. intros H. unfold budgetOf. by rewrite H. Qed.

Lemma budgetOf_pos r : driven r → 0 < budgetOf r.
Proof.
  intros []. rewrite budgetOf_active by done. pose proof (rank_bounds (CurrentStage r)). lia.
Qed.

Lemma keeps_complete r ev :
  driven r →
  keeps (track r) (call_ false (CompleteStage t (CurrentStage r) ev))
    (λ _ d, track r d ∧ has (CurrentStage r) d).
Proof.
  intros Hd. eapply keeps_weaken; [apply (keeps_call_ _ _ r anything
    (λ d, track r d ∧ has (CurrentStage r) d)); [done| |]|by split|done].
  - intros n d. apply (no_race_ (OpCompleteStage t (CurrentStage r) ev) n _ d). done.
  - intros n d d' Hg Ht _ Ho. destruct (finishStage_keeps _ _ _ _ _ _ _ _ r Hg Ht eq_refl Ho)
      as (? & ? & ?). split; [done|]. split; auto.
Qed.

Lemma keeps_fail r det c reason ev :
  driven r →
  keeps (track r) (call_ det (FailStage t (CurrentStage r) c reason ev)) (λ _, track r).
Proof.
  intros Hd. eapply keeps_weaken; [apply (keeps_call_ _ _ r anything (track r));
    [done| |]|by split|done].
  - intros n d. apply (no_race_ (OpFailStage t (CurrentStage r) c reason ev) n _ d). done.
  - intros n d d' Hg Ht _ Ho. unfold FailStage in Ho. destruct (IsValidFailureCategory c); [|done].
    by destruct (finishStage_keeps _ _ _ _ _ _ _ _ r Hg Ht eq_refl Ho) as (? & ? & ?).
Qed.

(** A state change to a terminal or wait state ends the step. *)
Lemma keeps_set r det (H : DB → Prop) change :
  driven r →
  (∀ d d', rec_grows (records d) (records d') → H d → H d') →
  IsTerminalRunState (To change) || IsWaitState (To change) = true →
  (To change = RunCompleted → CurrentStage r = StageFinalize ∧ ∀ d, H d → has StageFinalize d) →
  keeps (λ d, track r d ∧ H d) (call_ det (SetRunState t change)) (λ _, less r).
Proof.
  intros Hd HH Hto Hcomp. apply keeps_call_; [done| |].
  - intros n d. apply (no_race_ (OpSetRunState t change) n _ d). done.
  - intros n d d' Hg Ht Hh Ho.
    destruct (SetRunState_keeps change n d d' r) as (Hg' & r' & Hr' & Hs); try done.
    + intros Hx. by rewrite Hx in Hto.
    + intros Hx. destruct (Hcomp Hx) as [Hfin HhF].
      destruct Ht as (r0 & Hr0 & Hst & _). destruct (proj2 Hg _ Hr0) as (_ & Ho2 & _).
      destruct Ho2; [congruence|]. auto.
    + split; [done|]. exists r'. split; [done|]. rewrite <-Hs in Hto.
      rewrite (budgetOf_stopped r' Hto). by apply budgetOf_pos.
Qed.

(** A transition that lowers the measure of the tracked run. *)
Lemma keeps_transition r (H : DB → Prop) to reason ev :
  State r = RunActive → CurrentStage r ≠ to →
  (∀ d d', rec_grows (records d) (records d') → H d → H d') →
  (to = StageReview → ∀ d, H d → has StageVerify d) →
  (to = StageFinalize → CurrentStage r = StageReview ∧ ∀ d, H d → has StageReview d) →
  keeps (λ d, track r d ∧ H d) (call false (Transition t to reason ev))
    (λ _ d, ∃ r', runs d !! t = Some r' ∧ CurrentStage r' = to ∧ State r' = RunActive ∧
       RepairAttempt r' = RepairAttempt r ∧ MaxRepairAttempts r' = MaxRepairAttempts r).
Proof.
  intros Ha Hne HH Hrev Hfin. apply keeps_call; [done| |].
  - intros n d. apply (no_race (OpTransition t to reason ev) n _ d). done.
  - intros n d rec d' Hg Ht Hh Ho. eapply Transition_keeps; [done|done|done|done| | |done].
    + auto.
    + intros Hx. destruct (Hfin Hx) as [Hst HhR]. split; [|auto].
      destruct Ht as (r0 & Hr0 & Hst0 & _). destruct (proj2 Hg _ Hr0) as (Ho1 & _ & _).
      apply Ho1. congruence.
Qed.

Lemma less_moved r r' d :
  driven r → runs d !! t = Some r' → State r' = RunActive →
  MaxRepairAttempts r' = MaxRepairAttempts r →
  (9 * (MaxRepairAttempts r' - RepairAttempt r') + rank (CurrentStage r')
   < 9 * (MaxRepairAttempts r - RepairAttempt r) + rank (CurrentStage r))%Z →
  less r d.
Proof.
  intros [] Hr' Ha Hm Hlt. exists r'. split; [done|].
  rewrite !budgetOf_active by done. pose proof (rank_bounds (CurrentStage r)). lia.
Qed.

(** Complete the stage and move to one of lower rank. *)
Lemma keeps_advance r next ev reason :
  driven r → CurrentStage r ≠ next → (rank next < rank (CurrentStage r))%Z →
  (next = StageReview → CurrentStage r = StageVerify) →
  (next = StageFinalize → CurrentStage r = StageReview) →
  keeps (track r) (advance (contextOf r) ev next reason) (λ _, less r).
Proof.
  intros Hd Hne Hrk Hrev Hfin. unfold advance; cbn [rc_TaskID rc_Stage contextOf].
  rewrite (dr_id r Hd). eapply keeps_bind; [by apply keeps_complete|]. intros [].
  eapply keeps_bind.
  - apply (keeps_transition r (has (CurrentStage r))); [apply Hd|done|by apply has_mono|..].
    + intros Hx d. by rewrite (Hrev Hx).
    + intros Hx. split; [auto|]. intros d. by rewrite (Hfin Hx).
  - intros rec. apply keeps_ret. intros d (r' & Hr' & Hs' & Ha' & Hra & Hm).
    eapply less_moved; [done|done|done|done|]. rewrite Hra, Hm, Hs'. lia.
Qed.

Lemma keeps_failStage r e : driven r →
  keeps (track r) (failStage (contextOf r) e) (λ _, less r).
Proof.
  intros Hd. unfold failStage. destruct (categorizeError e) as [c reason].
  cbn [rc_TaskID rc_Stage contextOf]. rewrite (dr_id r Hd).
  eapply keeps_bind; [by apply keeps_fail|]. intros [].
  eapply (keeps_bind _ (λ _, track r)).
  - intros w res w' Hg Ht.
    destruct (query true (CurrentRun t) w) as [q w1] eqn:Eq. intros [= <- <-].
    destruct (turn_spec w r Hg Ht) as (Hg1 & Ht1 & _).
    assert (db w1 = db (turn w)) as Hdb.
    { unfold query in Eq.
      destruct (call_cases _ _ _ _ _ Eq) as [[_ ->]|[(? & _ & _ & ->)|(a & d & _ & Ho & ->)]]; try done.
      apply bind_ok in Ho as (a0 & _ & Heq). simplify_eq. done. }
    rewrite Hdb. split_and!; [done|done|]. by intros ? _.
  - intros terminal. destruct terminal; [by apply keeps_throw|].
    case_bool_decide; [by apply keeps_throw|].
    eapply keeps_weaken; [apply (keeps_set r true anything)|by split|done]; [done|done|..].
    + simpl. by repeat case_match.
    + simpl. intros Hx. exfalso. by repeat case_match.
Qed.

Lemma keeps_enterRepair r reason :
  driven r → CurrentStage r = StageExecute ∨ CurrentStage r = StageVerify ∨ CurrentStage r = StageReview →
  keeps (track r) (enterRepair (contextOf r) reason) (λ _, less r).
Proof.
  intros Hd Hst. unfold enterRepair; cbn [rc_TaskID contextOf]. rewrite (dr_id r Hd).
  set (r2 n := setAttempts (StageAttempt r) (RepairAttempt r + 1) n r).
  eapply (keeps_bind _ (λ out d, if (out : bool * Z).1
    then (RepairAttempt r < MaxRepairAttempts r)%Z ∧ track (r2 0%Z) d else track r d)).
  - eapply keeps_weaken; [apply (keeps_call _ _ r anything (λ out d, if (out : bool * Z).1
      then (RepairAttempt r < MaxRepairAttempts r)%Z ∧ track (r2 0%Z) d else track r d));
      [done| |]|by split|done].
    + intros n d He. apply (no_race (OpIncrementRepairAttempt t) n (IncrementRepairAttempt t n d) d);
        [done|]. destruct (IncrementRepairAttempt t n d) as [[[ok a] d1]|e']; [done|].
      by injection He as ->.
    + intros n d out d' Hg Ht _ Ho. apply bind_ok in Ho as ([[ok a] d1] & Hinc & Heq).
      injection Heq as <- <-.
      pose proof (IncrementRepairAttempt_effect _ _ _ _ _ (proj1 Hg) Hinc) as He.
      pose proof Ht as (r' & Hr' & Hs & Hm & Hor).
      rewrite (IncrementRepairAttempt_run _ _ _ r') in Hinc by done.
      destruct (IsTerminalRunState (State r')) eqn:Hterm; [done|].
      destruct Hor as [?|[Hs' Hra]]; [done|].
      destruct (decide _) as [Hlt|Hge]; simplify_eq; simpl.
      * split.
        { eapply good_effect; [done|done|done|simpl; apply lookup_insert_eq|done|done]. }
        split; [lia|]. eexists. split; [simpl; apply lookup_insert_eq|]. simpl.
        split_and!; [done|done|]. right. split; [done|]. lia.
      * done.
  - intros [ok attempt]. destruct ok; simpl.
    + intros w res w' Hg [Hlt Ht2]. revert w res w' Hg Ht2.
      change (keeps (track (r2 0%Z)) (_ ← call false (Transition t StageRepair reason ""); mret ())
        (λ _, less r)).
      apply (keeps_weaken (λ d, track (r2 0%Z) d ∧ anything d) _ _ (λ _, less r) _);
        [|intros d Hx; exact (conj Hx I)|done].
      eapply keeps_bind; [apply (keeps_transition (r2 0%Z) anything)|].
      * apply Hd.
      * simpl. by destruct Hst as [E1|[E1|E1]]; rewrite E1.
      * done.
      * done.
      * done.
      * intros rec. apply keeps_ret. intros d (r' & Hr' & Hs' & Ha' & Hra & Hm).
        eapply less_moved; [done|done|done|done|]. simpl in Hra, Hm. rewrite Hra, Hm, Hs'.
        destruct Hst as [E1|[E1|E1]]; rewrite E1; simpl; lia.
    + eapply keeps_weaken; [apply (keeps_set r false anything)|intros d Hx; exact (conj Hx I)|];
        try done.
Qed.

Lemma keeps_invoke {A} (h : Handler A) rc r :
  keeps (track r) (invoke h rc) (λ _, track r).
Proof.
  intros w res w' Hg Ht. unfold invoke. destruct (h rc (ext w)) as [[out is_] e].
  destruct (interfere_spec is_ (mkWorld (db w) (cancelled w) (now w) (sched w) e) r Hg Ht)
    as (Hg1 & Ht1 & _).
  destruct out; intros [= <- <-]; split_and!; try done; by intros ? _.
Qed.

(** ** Every stage routine ends closer to the end *)

Lemma keeps_runSimple r h next :
  driven r → CurrentStage r ≠ next → (rank next < rank (CurrentStage r))%Z →
  next ≠ StageReview → next ≠ StageFinalize →
  keeps (track r) (runSimple (contextOf r) h next) (λ _, less r).
Proof.
  intros Hd Hne Hrk ??. eapply keeps_bind; [apply keeps_invoke|].
  intros [ev|e]; [by apply keeps_advance|by apply keeps_failStage].
Qed.

Lemma keeps_runExecute r hs :
  driven r → CurrentStage r = StageExecute →
  keeps (track r) (runExecute hs (contextOf r)) (λ _, less r).
Proof.
  intros Hd Hs. eapply keeps_bind; [apply keeps_invoke|].
  intros [[ev n]|e]; [|by apply keeps_failStage].
  destruct (n <? 0)%Z; [by apply keeps_failStage|]. destruct (n =? 0)%Z.
  - eapply keeps_bind; [unfold contextOf at 1 2; cbn; rewrite (dr_id r Hd); by apply keeps_fail|].
    intros []. apply keeps_enterRepair; auto.
  - apply keeps_advance; rewrite ?Hs; done.
Qed.

Lemma keeps_runVerify r hs :
  driven r → CurrentStage r = StageVerify →
  keeps (track r) (runVerify hs (contextOf r)) (λ _, less r).
Proof.
  intros Hd Hs. eapply keeps_bind; [apply keeps_invoke|].
  intros [[[passed ev] c]|e]; [|by apply keeps_failStage]. destruct passed.
  - apply keeps_advance; rewrite ?Hs; done.
  - eapply keeps_bind; [unfold contextOf at 1 2; cbn; rewrite (dr_id r Hd); by apply keeps_fail|].
    intros []. apply keeps_enterRepair; auto.
Qed.

Lemma keeps_runReview r hs :
  driven r → CurrentStage r = StageReview →
  keeps (track r) (runReview hs (contextOf r)) (λ _, less r).
Proof.
  intros Hd Hs. eapply keeps_bind; [apply keeps_invoke|].
  intros [[approved ev]|e]; [|by apply keeps_failStage]. destruct approved.
  - apply keeps_advance; rewrite ?Hs; done.
  - eapply keeps_bind; [unfold contextOf at 1 2; cbn; rewrite (dr_id r Hd); by apply keeps_fail|].
    intros []. apply keeps_enterRepair; auto.
Qed.

Lemma keeps_runFinalize r hs :
  driven r → CurrentStage r = StageFinalize →
  keeps (track r) (runFinalize hs (contextOf r)) (λ _, less r).
Proof.
  intros Hd Hs. eapply keeps_bind; [apply keeps_invoke|].
  intros [ev|e]; [|by apply keeps_failStage].
  cbn [rc_TaskID rc_Stage contextOf]. rewrite (dr_id r Hd).
  eapply keeps_bind; [by apply keeps_complete|]. intros [].
  apply (keeps_set r false (has (CurrentStage r))); [done|by apply has_mono|done|].
  intros _. split; [done|]. intros d. by rewrite Hs.
Qed.

(** [IncrementStageAttempt] keeps the run tracked. *)
Lemma keeps_attempt r : 
  keeps (track r) (call false (IncrementStageAttempt t)) (λ _, track r).
Proof.
  eapply keeps_weaken; [apply (keeps_call _ _ r anything (λ _, track r)); [done| |]|by split|done].
  - intros n d. apply (no_race (OpIncrementStageAttempt t) n _ d). done.
  - intros n d a d' Hg Ht _ Ho.
    pose proof (IncrementStageAttempt_effect _ _ _ _ _ (proj1 Hg) Ho) as He.
    pose proof Ht as (r' & Hr' & Hs & Hm & Hor).
    rewrite (IncrementStageAttempt_run _ _ _ r') in Ho by done.
    destruct (IsTerminalRunState (State r')) eqn:Hterm; [done|]. simplify_eq. split.
    + eapply good_effect; [done|done|done|simpl; apply lookup_insert_eq|done|done].
    + eexists. split; [simpl; apply lookup_insert_eq|]. simpl. rewrite Hterm. auto.
Qed.

Lemma keeps_runRepair r hs :
  driven r → CurrentStage r = StageRepair →
  keeps (track r) (runRepair hs (contextOf r)) (λ _, less r).
Proof.
  intros Hd Hs. eapply keeps_bind; [apply keeps_invoke|].
  intros [ev|e]; [|by apply keeps_failStage].
  cbn [rc_TaskID rc_Stage contextOf]. rewrite (dr_id r Hd).
  eapply (keeps_bind _ (λ _, track r)).
  { eapply keeps_weaken; [by apply keeps_complete|done|]. intros [] d [? _]. done. }
  intros []. eapply keeps_bind; [apply keeps_attempt|]. intros n.
  apply (keeps_weaken (λ d, track r d ∧ anything d) _ _ (λ _, less r) _);
    [|intros d Hx; exact (conj Hx I)|done].
  eapply keeps_bind; [apply (keeps_transition r anything)|].
  - apply Hd.
  - by rewrite Hs.
  - done.
  - done.
  - done.
  - intros rec. apply keeps_ret. intros d (r' & Hr' & Hs' & Ha' & Hra & Hm).
    eapply less_moved; [done|done|done|done|]. rewrite Hra, Hm, Hs', Hs. simpl. lia.
Qed.

Lemma keeps_step {A} P (m : D A) Q (b : bool) :
  keeps P m (λ _, Q) → keeps P (_ ← m; mret b) (λ b' d, b' = b ∧ Q d).
Proof.
  intros Hm. eapply keeps_bind; [exact Hm|]. intros a. by apply keeps_ret.
Qed.

Lemma keeps_dispatch r hs :
  driven r → keeps (track r) (dispatch hs r) (λ b d, b = false ∧ less r d).
Proof.
  intros Hd. unfold dispatch. destruct (CurrentStage r) eqn:Hs.
  1-3: by apply keeps_step, keeps_runSimple; rewrite ?Hs.
  - by apply keeps_step, keeps_runExecute.
  - by apply keeps_step, keeps_runVerify.
  - by apply keeps_step, keeps_runReview.
  - by apply keeps_step, keeps_runFinalize.
  - by apply keeps_step, keeps_runRepair.
  - by apply keeps_throw.
Qed.

(** ** The loop *)

(** The run of the task is at rest. *)
Definition atRest (d : DB) : Prop :=
  ∃ r, runs d !! t = Some r ∧ (IsTerminalRunState (State r) || IsWaitState (State r) = true).

Lemma turn_norun (w : World E) :
  good (db w) → runs (db w) !! t = None →
  good (db (turn w)) ∧ runs (db (turn w)) !! t = None.
Proof.
  intros Hg Hn. unfold turn. destruct (sched w) as [|is_ rest]; [done|].
  by apply (interfere_norun is_ (mkWorld (db w) (cancelled w) (now w) rest (ext w))).
Qed.

Lemma turn_good (w : World E) : good (db w) → good (db (turn w)).
Proof.
  intros Hg. destruct (runs (db w) !! t) as [r|] eqn:Hr.
  - by apply (turn_spec w r Hg (track_good_refl _ _ Hr)).
  - by apply turn_norun.
Qed.

(** Other goroutines never raise the measure. *)
Lemma budget_track r d : track r d → State r = RunActive → budget d ≤ budgetOf r.
Proof.
  intros (r' & Hr' & Hs & Hm & Hor) Ha. unfold budget. rewrite Hr'.
  destruct Hor as [Ht|[Hst Hra]].
  - rewrite budgetOf_stopped by (by rewrite Ht). lia.
  - rewrite !budgetOf_active by congruence. by rewrite Hs, Hm, Hra.
Qed.

Lemma turn_budget (w : World E) r :
  good (db w) → runs (db (turn w)) !! t = Some r → budgetOf r ≤ budget (db w).
Proof.
  intros Hg Hr. destruct (runs (db w) !! t) as [r0|] eqn:Hr0.
  - destruct (turn_spec w r0 Hg (track_good_refl _ _ Hr0)) as (_ & (r' & Hr' & Hs & Hm & Hor) & _).
    simplify_eq. unfold budget. rewrite Hr0. destruct Hor as [Ht|[Hst Hra]].
    + rewrite budgetOf_stopped by (by rewrite Ht). lia.
    + unfold budgetOf. rewrite Hs, Hm, Hst, Hra. lia.
  - destruct (turn_norun w Hg Hr0) as [_ Hn]. congruence.
Qed.

Lemma query_state {A} det (op : DB → result Error A) (w : World E) res w' :
  query det op w = (res, w') → w' = turn w ∧ (∀ a, res = Ok a → op (db w') = Ok a).
Proof.
  unfold query. intros H. destruct (call_cases _ _ _ _ _ H) as [[-> ->]|[(e & -> & _ & ->)|(a & d & -> & Ho & ->)]];
    [done|done|].
  apply bind_ok in Ho as (a0 & Ho & Heq). simplify_eq. split; [by destruct (turn w)|].
  intros ? [= <-]. done.
Qed.

(** One iteration: the invariant stays, no lost race escapes, [done] only at
    rest, and otherwise the measure drops. *)
Lemma iterate_good hs (w : World E) res w' :
  good (db w) → iterate hs t w = (res, w') →
  good (db w') ∧ res ≠ Err ErrConcurrentModification ∧
  (res = Ok true → atRest (db w')) ∧
  (res = Ok false → budget (db w') < budget (db w)).
Proof.
  intros Hg. unfold iterate, mbind, D_bind.
  destruct (query false (CurrentRun t) w) as [q w1] eqn:Eq.
  pose proof (query_state _ _ _ _ _ Eq) as [-> Hq].
  pose proof (turn_good w Hg) as Hg1.
  destruct q as [r|e].
  2: { intros [= <- <-]. split_and!; [done| |done|done]. intros [= ->].
       unfold query, call in Eq. destruct (cancelled (turn w) && negb false); [done|].
       unfold CurrentRun, getRunTx in Eq. destruct (runs (db (turn w)) !! t); simpl in Eq; simplify_eq. }
  specialize (Hq r eq_refl). unfold CurrentRun, getRunTx in Hq.
  destruct (runs (db (turn w)) !! t) as [r1|] eqn:Hr; [|done]. simplify_eq.
  destruct (IsTerminalRunState (State r) || IsWaitState (State r)) eqn:Hrest.
  { intros [= <- <-]. split_and!; [done|done| |done]. intros _. by exists r. }
  destruct (query false _ (turn w)) as [q2 w2] eqn:Eq2.
  pose proof (query_state _ _ _ _ _ Eq2) as [-> Hq2].
  destruct (turn_spec (turn w) r Hg1 (track_good_refl _ _ Hr)) as (Hg2 & Ht2 & _).
  destruct q2 as [[on reason]|e].
  2: { intros [= <- <-]. split_and!; [done| |done|done]. intros [= ->].
       unfold query, call in Eq2. destruct (cancelled (turn (turn w)) && negb false); done. }
  destruct on; [intros [= <- <-]; by split_and!|].
  intros H. destruct (proj1 Hg1) as [Hok _]. destruct (Hok _ _ Hr) as [Hid Hst Hva Hat Hrep _ _].
  assert (State r = RunActive) as Hact by (by destruct (State r)).
  assert (driven r) as Hd by (by constructor).
  destruct (keeps_dispatch r hs Hd _ _ _ Hg2 Ht2 H) as (Hg3 & Hne & HQ).
  split_and!; [done|done| |].
  - intros Hx. by destruct (HQ _ Hx).
  - intros Hx. destruct (HQ _ Hx) as (_ & r' & Hr' & Hlt).
    pose proof (turn_budget w r Hg Hr). unfold budget at 1. rewrite Hr'. lia.
Qed.

Lemma driveLoop_spec hs fuel retried (w : World E) :
  good (db w) → budget (db w) < fuel →
  ∃ err w', driveLoop fuel hs t retried w = Some (err, w') ∧ good (db w') ∧
    (err = None → atRest (db w')) ∧ err ≠ Some ErrConcurrentModification.
Proof.
  revert w; induction fuel as [|fuel IH]; intros w Hg Hf; [lia|]. cbn [driveLoop].
  destruct (iterate hs t w) as [res w1] eqn:Ei.
  destruct (iterate_good hs w res w1 Hg Ei) as (Hg1 & Hne & Hdone & Hless).
  destruct res as [[]|e].
  - exists None, w1. split_and!; auto.
  - apply IH; [done|]. specialize (Hless eq_refl). lia.
  - destruct e; try congruence; try (by eexists _, w1; split_and!).
    destruct (query true (CurrentRun t) w1) as [q w2] eqn:Eq.
    pose proof (query_state _ _ _ _ _ Eq) as [-> Hq]. pose proof (turn_good w1 Hg1) as Hg2.
    destruct q as [r|e].
    + specialize (Hq r eq_refl). unfold CurrentRun, getRunTx in Hq.
      destruct (runs (db (turn w1)) !! t) as [r1|] eqn:Hr; [|done]. simplify_eq.
      destruct (IsTerminalRunState (State r)) eqn:Hterm.
      * exists None, (turn w1). split_and!; [done|done| |done]. intros _. exists r. by rewrite Hterm.
      * by eexists _, (turn w1).
    + by eexists _, (turn w1).
Qed.
End proofs.

(** ** Recovery *)

Section recovery.
  Context {E : Type} (t : string).
  Implicit Types (w : World E) (d : DB) (r : Run).

Lemma good_create p max n d run d' :
  good t d → CreateRun t p max n d = Ok (run, d') → good t d'.
Proof.
  intros Hg H. pose proof (CreateRun_effect _ _ _ _ _ _ _ H) as He.
  split; [eapply effect_inv; [apply Hg|done]|]. intros r Hr.
  unfold CreateRun in H. destruct (_ || _); [done|]. apply bind_ok in H as (x & _ & Hx).
  simplify_eq. rewrite insertRecord_runs in Hr.
  destruct (runs d !! t) as [r0|] eqn:Hr0.
  - eapply owes_grows; [apply insertRecord_grows|]. by apply (proj2 Hg).
  - simpl in Hr. rewrite lookup_insert_eq in Hr. simplify_eq. by split_and!.
Qed.

Lemma good_mark reason n d d' :
  good t d → MarkInterrupted t reason n d = Ok d' → good t d'.
Proof.
  intros Hg H. pose proof (MarkInterrupted_effect _ _ _ _ _ (proj1 Hg) H) as He.
  eapply good_other; [done|exact He|]. unfold MarkInterrupted, getRunTx in H.
  destruct (runs d !! t) eqn:Hr; simpl in H; [|done].
  case_match; simplify_eq; [done|]. by rewrite closeInFlight_runs.
Qed.

Lemma good_active reason ref n d d' :
  good t d → SetRunState t (mkRunStateChange RunActive reason ref) n d = Ok d' → good t d'.
Proof.
  intros Hg H. pose proof (SetRunState_effect _ _ _ _ _ H) as He.
  destruct (runs d !! t) as [r|] eqn:Hr; [|unfold SetRunState, getRunTx in H; by rewrite Hr in H].
  rewrite (SetRunState_run _ _ _ _ r) in H by done.
  destruct (decide _); [by simplify_eq|]. destruct (CanTransitionRunState _ _); [|done].
  simpl in H. simplify_eq.
  eapply good_effect; [done|done|done|simpl; apply lookup_insert_eq|done|done].
Qed.

(** Re-entering ready owes nothing; re-entering the current stage moves
    nothing. *)
Lemma good_reenter to reason ev n d rec d' r :
  good t d → track t r d → to = StageReady ∨ to = CurrentStage r →
  Transition t to reason ev n d = Ok (rec, d') → good t d'.
Proof.
  intros Hg (r' & Hr' & Hs & _) Hto H. pose proof (Transition_effect _ _ _ _ _ _ _ _ H) as He.
  destruct (IsValidStage to) eqn:Hv; [|unfold Transition in H; by rewrite Hv in H].
  rewrite (Transition_run _ _ _ _ _ _ r') in H by done.
  destruct (decide (CurrentStage r' = to)) as [Hsame|Hdiff].
  { destruct (ensureEnteredTx_effect _ _ _ _ _ _ _ _ _ Hv H) as (_ & _ & Hrn).
    eapply good_other; [done|exact He|]. by rewrite Hrn. }
  destruct Hto as [Hto|Hto]; subst to; [|congruence].
  destruct (CanTransitionStage _ _ _) eqn:Hc; [|done].
  destruct (ensureEnteredTx_effect _ _ _ _ _ _ _ _ _ Hv H) as (_ & _ & Hrn).
  split; [eapply effect_inv; [apply Hg|done]|]. intros r0 Hr0. rewrite Hrn in Hr0. simpl in Hr0.
  rewrite lookup_insert_eq in Hr0. simplify_eq. split_and!; try done. simpl.
  unfold resumed, CanTransitionStage in *. destruct (State r'); try done.
Qed.

Lemma keeps_resumeRun r : TaskID r = t →
  keeps (E:=E) t (track t r) (resumeRun r) (λ _ _, True).
Proof.
  intros Hid. unfold resumeRun. rewrite Hid. destruct (IsWaitState (State r)).
  - case_bool_decide.
    + eapply keeps_weaken; [apply (keeps_call_ t _ _ r anything (λ _, True)); [done| |]|by split|done].
      * intros n d. apply (no_race_ (OpSetRunState t (mkRunStateChange RunActive "" "")) n _ d). done.
      * intros n d d' Hg _ _ Ho. split; [by eapply good_active|done].
    + eapply (keeps_bind t _ (λ _ _, True)); [|intros a; by apply keeps_ret].
      eapply keeps_weaken; [apply (keeps_call t _ _ r anything (λ _ _, True)); [done| |]|by split|done].
      * intros n d. apply (no_race (OpTransition t StageReady "resume after restart" "") n _ d). done.
      * intros n d a d' Hg Ht _ Ho. split; [|done]. eapply good_reenter; [done|done|by left|done].
  - eapply (keeps_bind t _ (λ _, track t r)).
    { eapply keeps_weaken; [apply (keeps_call_ t _ _ r anything (track t r)); [done| |]|by split|done].
      * intros n d. apply (no_race_ (OpMarkInterrupted t "daemon restarted mid-stage") n _ d). done.
      * intros n d d' Hg Ht _ Ho. split; [by eapply good_mark|].
        destruct Ht as (r' & Hr' & Hx). exists r'. split; [|done].
        unfold MarkInterrupted, getRunTx in Ho. rewrite Hr' in Ho. simpl in Ho.
        case_match; simplify_eq; [done|]. by rewrite closeInFlight_runs. }
    intros _. eapply keeps_bind; [apply keeps_attempt|]. intros n.
    eapply (keeps_bind t _ (λ _ _, True)); [|intros a; by apply keeps_ret].
    eapply keeps_weaken; [apply (keeps_call t _ _ r anything (λ _ _, True)); [done| |]|by split|done].
    + intros m d. apply (no_race (OpTransition t (CurrentStage r) "re-drive after restart" "") m _ d). done.
    + intros m d a d' Hg Ht _ Ho. split; [|done]. eapply good_reenter; [done|done|by right|done].
Qed.

(** A routine that works on other runs leaves the tracked one alone. *)
Definition frames {A} (m : D (E:=E) A) : Prop :=
  ∀ w res w', good t (db w) → m w = (res, w') →
    good t (db w') ∧ ∀ r, track t r (db w) → track t r (db w').

Lemma frames_bind {A B} (m : D A) (f : A → D B) :
  frames m → (∀ a, frames (f a)) → frames (m ≫= f).
Proof.
  intros Hm Hf w res w' Hg. unfold mbind, D_bind. destruct (m w) as [[a|e] w1] eqn:E1.
  - destruct (Hm _ _ _ Hg E1) as (Hg1 & Ht1). intros H.
    destruct (Hf a w1 res w' Hg1 H) as (Hg2 & Ht2). split; [done|]. auto.
  - intros [= <- <-]. by apply (Hm _ _ _ Hg E1).
Qed.

Lemma frames_ret {A} (a : A) : frames (mret a).
Proof. intros w res w' Hg [= <- <-]. by split. Qed.

Lemma turn_track w r : good t (db w) → track t r (db w) → track t r (db (turn w)).
Proof. intros Hg Ht. by destruct (turn_spec t w r Hg Ht) as (_ & ? & _). Qed.

(** A transaction on another task is framed. *)
Lemma frames_call {A} (op : Time → DB → result Error (A * DB)) t' :
  t' ≠ t →
  (∀ n d a d', store_inv d → op n d = Ok (a, d') → effect t' d d') →
  frames (call false op).
Proof.
  intros Hne Hop w res w' Hg Hc. pose proof (turn_good t w Hg) as Hg1.
  destruct (call_cases _ _ _ _ _ Hc) as [[-> ->]|[(e & -> & He & ->)|(a & d & -> & Ho & ->)]];
    [by eauto using turn_track| by eauto using turn_track|].
  pose proof (Hop _ _ _ _ (proj1 Hg1) Ho) as He. simpl.
  assert (runs d !! t = runs (db (turn w)) !! t) as Hsame.
  { destruct (ef_runs _ _ _ He) as [->|[(? & ? & _ & -> & _)|(? & _ & -> & _)]]; [done| |];
      by rewrite lookup_insert_ne. }
  split; [by eapply good_other|]. intros r Ht.
  destruct (turn_track w r Hg Ht) as (r' & Hr' & Hx). exists r'. by rewrite Hsame.
Qed.

Lemma frames_call_ (op : Time → DB → result Error DB) t' :
  t' ≠ t →
  (∀ n d d', store_inv d → op n d = Ok d' → effect t' d d') →
  frames (call_ false op).
Proof.
  intros Hne Hop. apply (frames_call _ t'); [done|]. intros n d a d' Hi Ho.
  apply bind_ok in Ho as (d1 & Ho & Heq). simplify_eq. by eapply Hop.
Qed.

Lemma frames_resumeRun r : TaskID r ≠ t → frames (resumeRun r).
Proof.
  intros Hne. unfold resumeRun. destruct (IsWaitState _); [case_bool_decide|];
    repeat (apply frames_bind; [|intros ?]);
    first [apply frames_ret | apply (frames_call_ _ (TaskID r)); [done|]
          | apply (frames_call _ (TaskID r)); [done|]];
    eauto using SetRunState_effect, Transition_effect, MarkInterrupted_effect, IncrementStageAttempt_effect.
Qed.

Lemma resumeListed_good rs w :
  good t (db w) → NoDup (TaskID <$> rs) →
  Forall (λ r, TaskID r = t → track t r (db w)) rs →
  good t (db (resumeListed rs w).2).
Proof.
  revert w; induction rs as [|r rs IH]; intros w Hg Hnd Hall; [done|]. simpl.
  apply NoDup_cons in Hnd as [Hni Hnd]. inversion_clear Hall as [|? ? Hr Hrs].
  destruct (resumeRun r w) as [res w1] eqn:Er.
  destruct (resumeListed rs w1) as [ts w2] eqn:El.
  change w2 with (ts, w2).2. rewrite <-El.
  destruct (decide (TaskID r = t)) as [Ht|Ht].
  - destruct (keeps_resumeRun r Ht w res w1 Hg (Hr Ht) Er) as (Hg1 & _).
    apply IH; [done|done|]. apply Forall_forall. intros r' Hin Ht'. destruct Hni.
    rewrite Ht, <-Ht'. by apply list_elem_of_fmap_2.
  - destruct (frames_resumeRun r Ht w res w1 Hg Er) as (Hg1 & Htr).
    apply IH; [done|done|]. eapply Forall_impl; [exact Hrs|]. simpl. auto.
Qed.

Lemma listed_NoDup textLess d : store_inv d → NoDup (TaskID <$> ListActiveRuns textLess d).
Proof.
  intros [Hok _]. unfold ListActiveRuns. rewrite sortStable_Permutation.
  assert ((map_to_list (runs d)).*1 = TaskID <$> (map_to_list (runs d)).*2) as Heq.
  { assert (Forall (λ kv, run_ok kv.1 kv.2) (map_to_list (runs d))) as Hf.
    { apply Forall_forall. intros [k r] Hin. apply elem_of_map_to_list in Hin. by apply Hok. }
    induction Hf as [|[k r] l Hx Hf IH]; simpl; [done|]. f_equal; [symmetry; apply Hx|done]. }
  pose proof (NoDup_fst_map_to_list (runs d)) as Hnd. rewrite Heq in Hnd.
  by apply NoDup_fmap_filter.
Qed.

Lemma listed_run textLess d r :
  store_inv d → r ∈ ListActiveRuns textLess d → runs d !! TaskID r = Some r ∧ listedAsActive r = true.
Proof.
  intros [Hok _]. unfold ListActiveRuns. rewrite sortStable_Permutation, list_elem_of_filter.
  intros [Hl Hin]. split; [|done]. apply list_elem_of_fmap in Hin as ([k r'] & -> & Hin).
  apply elem_of_map_to_list in Hin. simpl. by rewrite (ok_id _ _ (Hok _ _ Hin)).
Qed.

Lemma run_listed textLess d id r :
  runs d !! id = Some r → listedAsActive r = true → r ∈ ListActiveRuns textLess d.
Proof.
  intros Hr Hl. unfold ListActiveRuns. rewrite sortStable_Permutation, list_elem_of_filter.
  split; [done|]. apply list_elem_of_fmap. exists (id, r). by rewrite elem_of_map_to_list.
Qed.

Lemma ResumeActiveRuns_good textLess w :
  good t (db w) → good t (db (ResumeActiveRuns textLess w).2).
Proof.
  intros Hg. unfold ResumeActiveRuns.
  destruct (query false _ w) as [q w1] eqn:Eq.
  pose proof (query_state _ _ _ _ _ Eq) as [-> _]. pose proof (turn_good t w Hg) as Hg1.
  destruct q as [[[] ?]|e]; [done| |done].
  destruct (query false (λ d, Ok (ListActiveRuns textLess d)) (turn w)) as [q w2] eqn:Eq2.
  pose proof (query_state _ _ _ _ _ Eq2) as [-> Hq]. pose proof (turn_good t _ Hg1) as Hg2.
  destruct q as [rs|e]; [|done]. specialize (Hq rs eq_refl). simplify_eq.
  apply resumeListed_good; [done|apply listed_NoDup, Hg2|].
  apply Forall_forall. intros r Hin Ht. destruct (listed_run _ _ _ (proj1 Hg2) Hin) as [Hr _].
  rewrite Ht in Hr. by apply track_good_refl.
Qed.

(** ** The life of a run in the daemon *)

(** What happens to the run of the task: it is created, driven (with some fuel
    and an arbitrary schedule for the turns of others), driven for one iteration
    of the loop by a daemon that then dies, resumed after a restart, or others
    act. *)
Inductive Act :=
| ActCreate (projectID : string) (max : Z)
| ActDrive (fuel : nat) (sched_ : list (list Interference))
| ActIterate (sched_ : list (list Interference))
| ActResume (textLess : Time → Time → bool) (sched_ : list (list Interference))
| ActOthers (is_ : list Interference).

(** A drive starts with a context of its own. *)
Definition withSched (s : list (list Interference)) (w : World E) : World E :=
  mkWorld (db w) false (now w) s (ext w).

(** A drive given too little fuel is no act; [Drive_terminates] says how much
    is enough. *)
Definition act (hs : Handlers E) (w : World E) (a : Act) : World E :=
  match a with
  | ActCreate p max => withDB (exec (OpCreateRun t p max) (now w) (db w)).2 w
  | ActDrive fuel s =>
      match Drive fuel hs t (withSched s w) with Some (_, w) => w | None => w end
  | ActIterate s => (iterate hs t (withSched s w)).2
  | ActResume textLess s => (ResumeActiveRuns textLess (withSched s w)).2
  | ActOthers is_ => interfere is_ w
  end.

Lemma driveLoop_good hs fuel retried w err w' :
  good t (db w) → driveLoop fuel hs t retried w = Some (err, w') → good t (db w').
Proof.
  revert retried w; induction fuel as [|fuel IH]; intros retried w Hg; cbn [driveLoop]; [done|].
  destruct (iterate hs t w) as [res w1] eqn:Ei.
  destruct (iterate_good t hs w res w1 Hg Ei) as (Hg1 & Hne & _ & _).
  destruct res as [[]|e]; [by intros [= <- <-]|by apply IH|].
  destruct e; try (by intros [= <- <-]); [congruence|].
  destruct (query true (CurrentRun t) w1) as [q w2] eqn:Eq.
  pose proof (query_state _ _ _ _ _ Eq) as [-> _]. pose proof (turn_good t w1 Hg1).
  destruct q as [r|]; [case_match|]; by intros [= <- <-].
Qed.

Lemma act_good hs w a : good t (db w) → good t (db (act hs w a)).
Proof.
  intros Hg. destruct a as [p max|fuel s|s|textLess s|is_]; simpl.
  - destruct (CreateRun t p max (now w) (db w)) as [[r d]|] eqn:Ec; [|done].
    by eapply good_create.
  - destruct (Drive fuel hs t (withSched s w)) as [[err w']|] eqn:Ed; [|done].
    unfold Drive in Ed. case_bool_decide; [by simplify_eq|].
    eapply driveLoop_good; [|exact Ed]. done.
  - destruct (iterate hs t (withSched s w)) as [res w1] eqn:Ei.
    by destruct (iterate_good t hs (withSched s w) _ _ Hg Ei).
  - by apply ResumeActiveRuns_good.
  - destruct (runs (db w) !! t) as [r|] eqn:Hr.
    + by apply (interfere_spec t is_ w r Hg (track_good_refl t _ _ Hr)).
    + by apply interfere_norun.
Qed.

Lemma acts_good hs acts w : good t (db w) → good t (db (foldl (act hs) w acts)).
Proof.
  revert w; induction acts as [|a acts IH]; intros w Hg; [done|]. simpl. apply IH.
  by apply act_good.
Qed.

Lemma good_empty : good t emptyDB.
Proof. split; [apply emptyDB_inv|]. intros r Hr. discriminate Hr. Qed.

Definition freshWorld (e : E) : World E := mkWorld emptyDB false 1 [] e.

(** ** Recovery without interference *)

Definition quiet (w : World E) : Prop := sched w = [] ∧ cancelled w = false.

Lemma call_quiet {A} det (op : Time → DB → result Error (A * DB)) w a d :
  quiet w → op (now w) (db w) = Ok (a, d) → call (E:=E) det op w = (Ok a, withDB d w).
Proof.
  intros [Hs Hc] Ho. unfold call. assert (turn w = w) as -> by (unfold turn; by rewrite Hs).
  rewrite Hc. simpl. by rewrite Ho.
Qed.

Lemma call_quiet_ det (op : Time → DB → result Error DB) w d :
  quiet w → op (now w) (db w) = Ok d → call_ (E:=E) det op w = (Ok (), withDB d w).
Proof. intros Hq Ho. apply call_quiet; [done|]. by rewrite Ho. Qed.

Lemma query_quiet {A} det (op : DB → result Error A) w a :
  quiet w → op (db w) = Ok a → query (E:=E) det op w = (Ok a, w).
Proof.
  intros Hq Ho. destruct w as [d c n s x]. unfold query. erewrite call_quiet; [done|done|].
  simpl in *. by rewrite Ho.
Qed.

(** What recovery leaves of a listed run: it is active, at ready when it was
    waiting and at its stage otherwise, and an interrupted attempt is not
    reused. *)
Definition redriven (r r' : Run) : Prop :=
  State r' = RunActive ∧
  CurrentStage r' = (if IsWaitState (State r) then StageReady else CurrentStage r) ∧
  StageAttempt r' = (if IsWaitState (State r) then StageAttempt r else StageAttempt r + 1)%Z ∧
  RepairAttempt r' = RepairAttempt r.

Lemma resumeRun_quiet r w :
  quiet w → runs (db w) !! TaskID r = Some r → listedAsActive r = true →
  IsValidStage (CurrentStage r) = true →
  ∃ d' r', resumeRun r w = (Ok (), withDB d' w) ∧
    runs d' = <[TaskID r := r']> (runs (db w)) ∧ redriven r r'.
Proof.
  intros Hq Hr Hl Hv. unfold resumeRun, mbind, D_bind. destruct (IsWaitState (State r)) eqn:Hw.
  - assert (IsTerminalRunState (State r) = false) as Hnt by (by destruct (State r)).
    case_bool_decide as Hready.
    + rewrite (call_quiet_ false _ w (withRun (TaskID r)
        (changedRun (mkRunStateChange RunActive "" "") (now w) r) (db w))); [|done|].
      2: { rewrite (SetRunState_run _ _ _ _ r) by done. by destruct (State r). }
      eexists _, _. split_and!; [done|done|]. unfold redriven. rewrite Hw. by split_and!.
    + destruct (ensureEnteredTx_ok (TaskID r) StageReady (StageAttempt r) "resume after restart" ""
        (now w) (withRun (TaskID r) (setCursor StageReady (resumed (State r)) (now w) r) (db w)))
        as (rec & He & _).
      erewrite call_quiet; [|done|rewrite (Transition_run _ _ _ _ _ _ r) by done].
      2: { rewrite decide_False by done. unfold CanTransitionStage. rewrite Hnt, Hw.
           rewrite bool_decide_true by done. exact He. }
      eexists _, _. split_and!; [done|simpl; by rewrite insertRecord_runs|].
      unfold redriven, resumed. simpl. rewrite Hw. by split_and!.
  - assert (State r = RunActive) as Ha by (unfold listedAsActive in Hl; by destruct (State r)).
    assert (IsTerminalRunState (State r) = false) as Hnt by (by rewrite Ha).
    erewrite call_quiet_; [|done|unfold MarkInterrupted, getRunTx; rewrite Hr; simpl; by rewrite Hnt].
    set (d1 := closeInFlight _ _ _ _ _ _).
    assert (runs d1 = runs (db w)) as H1 by apply closeInFlight_runs.
    assert (quiet (withDB d1 w)) as Hq1 by exact Hq.
    erewrite call_quiet; [|done|rewrite (IncrementStageAttempt_run _ _ _ r), Hnt by (simpl; by rewrite H1); done].
    set (r' := setAttempts _ _ _ _). simpl.
    destruct (ensureEnteredTx_ok (TaskID r) (CurrentStage r) (StageAttempt r') "re-drive after restart" ""
        (now w) (withRun (TaskID r) r' d1)) as (rec & He & _).
    erewrite call_quiet; [|exact Hq1|rewrite (Transition_run _ _ _ _ _ _ r') by
      (done || apply lookup_insert_eq)].
    2: { rewrite decide_True by done. exact He. }
    eexists _, r'. split_and!; [done|simpl; rewrite insertRecord_runs; simpl; by rewrite H1|].
    unfold redriven. rewrite Hw. by split_and!.
Qed.

Lemma resumeListed_quiet rs w :
  quiet w → NoDup (TaskID <$> rs) →
  Forall (λ r, runs (db w) !! TaskID r = Some r ∧ listedAsActive r = true ∧
               IsValidStage (CurrentStage r) = true) rs →
  ∃ d', resumeListed rs w = (TaskID <$> rs, withDB d' w) ∧
    (∀ id, id ∉ TaskID <$> rs → runs d' !! id = runs (db w) !! id) ∧
    Forall (λ r, ∃ r', runs d' !! TaskID r = Some r' ∧ redriven r r') rs.
Proof.
  revert w; induction rs as [|r rs IH]; intros w Hq Hnd Hall.
  { exists (db w). by destruct w. }
  apply NoDup_cons in Hnd as [Hni Hnd]. inversion_clear Hall as [|? ? (Hr & Hl & Hv) Hrs].
  destruct (resumeRun_quiet r w Hq Hr Hl Hv) as (d1 & r1 & He & Hd1 & Hre).
  destruct (IH (withDB d1 w) Hq Hnd) as (d2 & He2 & Hother & Hin).
  { apply Forall_forall. intros r' Hr'. rewrite Forall_forall in Hrs. simpl. rewrite Hd1.
    rewrite lookup_insert_ne; [by apply Hrs|]. intros Heq. apply Hni. rewrite Heq.
    by apply list_elem_of_fmap_2. }
  exists d2. simpl. rewrite He. rewrite He2. split_and!; [done| |].
  - intros id Hid. apply not_elem_of_cons in Hid as [Hne Hid]. rewrite Hother by done. simpl.
    by rewrite Hd1, lookup_insert_ne.
  - constructor; [|done]. exists r1. split; [|done]. rewrite Hother by done. simpl. rewrite Hd1.
    apply lookup_insert_eq.
Qed.

End recovery.

(** ** Properties *)

(** C6: the driver loop terminates.  For all handlers (returning, failing or
    panicking at will), every schedule of cancels, emergency stops and context
    cancellations by others, and whatever happened to the run before, [Drive]
    returns within 9 iterations per repair allowed plus 9, so no run is driven
    for ever; it returns nil only when the run is terminal or waiting, and never
    reports a lost race. *)
Theorem Drive_terminates {E} t (hs : Handlers E) e acts s fuel :
  let w := foldl (act t hs) (freshWorld e) acts in
  (∀ r, runs (db w) !! t = Some r → 9 * MaxRepairAttempts r + 9 ≤ Z.of_nat fuel)%Z →
  0 < fuel → t ≠ "" →
  ∃ err w', Drive fuel hs t (withSched s w) = Some (err, w') ∧
    (err = None → atRest t (db w')) ∧ err ≠ Some ErrConcurrentModification.
Proof.
  cbv zeta. set (w := foldl _ _ _). intros Hfuel Hpos Ht.
  pose proof (acts_good t hs acts (freshWorld e) (good_empty t)) as Hg. fold w in Hg.
  unfold Drive. rewrite bool_decide_false by done.
  destruct (driveLoop_spec t hs fuel false (withSched s w) Hg) as (err & w' & H & _ & Hn & Hc).
  - unfold budget. simpl. destruct (runs (db w) !! t) as [r|] eqn:Hr; [|done].
    specialize (Hfuel r eq_refl). destruct (proj1 (proj1 Hg) _ _ Hr) as [_ _ _ _ Hrep _ _].
    unfold budgetOf. destruct (_ || _); [done|]. pose proof (rank_bounds (CurrentStage r)). lia.
  - by exists err, w'.
Qed.

(** Handlers that never succeed in verifying. *)
Definition stubborn : Handlers nat :=
  mkHandlers
    (λ _ n, (Returns "c", [], n)) (λ _ n, (Returns "p", [], n)) (λ _ n, (Returns "r", [], n))
    (λ _ n, (Returns "f", [], n)) (λ _ n, (Returns ("e", 1%Z), [], S n))
    (λ _ n, (Returns (false, "v", FailureTest), [], n)) (λ _ n, (Returns (true, "v"), [], n))
    (λ _ n, (Returns "fix", [IClock 5], S n)).

Lemma Drive_terminates_witness :
  ∃ err w', Drive 27 stubborn "T" (withSched [] (foldl (act "T" stubborn) (freshWorld 0) [ActCreate "P" 2])) =
      Some (err, w') ∧
    (err = None → atRest "T" (db w')) ∧ err ≠ Some ErrConcurrentModification.
Proof.
  apply (Drive_terminates "T" stubborn 0 [ActCreate "P" 2] [] 27).
  - vm_compute. intros r [= <-]. discriminate.
  - lia.
  - discriminate.
Defined.

Example stubborn_exhausts :
  match Drive 27 stubborn "T" (withSched [] (foldl (act "T" stubborn) (freshWorld 0) [ActCreate "P" 2])) with
  | Some (None, w) => (State <$> runs (db w) !! "T", ext w)
  | _ => (None, 0)
  end = (Some RunRepairExhausted, 3).
Proof. vm_compute. done. Qed.

(** C1: nothing is delivered unverified.  In every life of a run (created,
    driven any number of times under any schedule and any handlers, killed,
    resumed after restarts, cancelled), a run that is completed has a completed
    record of verify, of review and of finalize; a run in review has a completed
    verify, one in finalize both; and the repairs never exceed the budget. *)
Theorem completed_is_verified {E} t (hs : Handlers E) e acts r :
  let d := db (foldl (act t hs) (freshWorld e) acts) in
  runs d !! t = Some r →
  (CurrentStage r = StageReview → has t StageVerify d) ∧
  (CurrentStage r = StageFinalize → has t StageVerify d ∧ has t StageReview d) ∧
  (State r = RunCompleted → has t StageVerify d ∧ has t StageReview d ∧ has t StageFinalize d) ∧
  (0 ≤ RepairAttempt r ≤ MaxRepairAttempts r)%Z.
Proof.
  cbv zeta. intros Hr.
  destruct (acts_good t hs acts (freshWorld e) (good_empty t)) as [[Hok _] Ho].
  destruct (Ho _ Hr) as (H1 & H2 & H3). destruct (Hok _ _ Hr). split_and!; try done; lia.
Qed.

(** C11: the restart recovery.  With the emergency stop off and nobody
    interfering, [ResumeActiveRuns] hands exactly the active and waiting runs to
    the driver, each of them first made active again: a waiting run re-enters
    ready, an interrupted one keeps its stage with a fresh attempt number, and
    no repair is consumed.  Every other run, in particular every cancelled or
    otherwise terminal one, is untouched. *)
Theorem ResumeActiveRuns_redrives {E} textLess (w : World E) :
  store_inv (db w) → quiet w → (EmergencyStop (db w)).1 = false →
  ∃ ts d', ResumeActiveRuns textLess w = (ts, withDB d' w) ∧ NoDup ts ∧
    (∀ id, id ∈ ts ↔ ∃ r, runs (db w) !! id = Some r ∧ listedAsActive r = true) ∧
    (∀ id, id ∉ ts → runs d' !! id = runs (db w) !! id) ∧
    (∀ id r, id ∈ ts → runs (db w) !! id = Some r →
       ∃ r', runs d' !! id = Some r' ∧ redriven r r').
Proof.
  intros Hinv Hq Hoff. unfold ResumeActiveRuns.
  rewrite (query_quiet false (λ d, Ok (EmergencyStop d)) w _ Hq eq_refl).
  destruct (EmergencyStop (db w)) as [on reason]. simpl in Hoff. subst on.
  rewrite (query_quiet false (λ d, Ok (ListActiveRuns textLess d)) w _ Hq eq_refl).
  pose proof (listed_NoDup textLess (db w) Hinv) as Hnd.
  destruct (resumeListed_quiet (ListActiveRuns textLess (db w)) w Hq Hnd) as (d' & He & Ho & Hin).
  { apply Forall_forall. intros r Hr. destruct (listed_run _ _ _ Hinv Hr) as [Hx Hl].
    split_and!; [done|done|]. by apply (ok_stage _ _ (proj1 Hinv _ _ Hx)). }
  assert (∀ id r, runs (db w) !! id = Some r → TaskID r = id) as Hids.
  { intros id r Hr. apply (ok_id _ _ (proj1 Hinv _ _ Hr)). }
  eexists _, d'. split_and!; [exact He|done| |done|].
  - intros id. rewrite list_elem_of_fmap. split.
    + intros (r & -> & Hr). exists r. by apply (listed_run textLess).
    + intros (r & Hr & Hl). exists r. split; [symmetry; by apply Hids|].
      by eapply run_listed.
  - intros id r Hi Hr. apply list_elem_of_fmap in Hi as (r0 & -> & Hr0).
    destruct (listed_run _ _ _ Hinv Hr0) as [Hx _]. simplify_eq.
    rewrite Forall_forall in Hin. by apply Hin.
Qed.

Definition diligent : Handlers nat :=
  mkHandlers
    (λ _ n, (Returns "c", [], n)) (λ _ n, (Returns "p", [], n)) (λ _ n, (Returns "r", [], n))
    (λ _ n, (Returns "f", [], n)) (λ _ n, (Returns ("e", 1%Z), [], S n))
    (λ rc n, (Returns (0 <? rc_RepairAttempt rc, "v", FailureTest)%Z, [], n))
    (λ _ n, (Returns (true, "v"), [], n)) (λ _ n, (Returns "fix", [], S n)).

Definition fullLife : list Act :=
  [ActCreate "P" 2; ActIterate []; ActIterate []; ActResume Z.ltb []; ActDrive 30 []].

Lemma completed_is_verified_witness :
  has "T" StageVerify (db (foldl (act "T" diligent) (freshWorld 0) fullLife)).
Proof.
  destruct (runs (db (foldl (act "T" diligent) (freshWorld 0) fullLife)) !! "T") as [r|] eqn:Hr.
  - destruct (completed_is_verified "T" diligent 0 fullLife r Hr) as (_ & _ & H & _).
    apply H. assert (State <$> runs (db (foldl (act "T" diligent) (freshWorld 0) fullLife)) !! "T"
      = Some RunCompleted) as Hs by (vm_compute; reflexivity).
    rewrite Hr in Hs. injection Hs as Hs. exact Hs.
  - exfalso. assert (State <$> runs (db (foldl (act "T" diligent) (freshWorld 0) fullLife)) !! "T"
      = Some RunCompleted) as Hs by (vm_compute; reflexivity).
    rewrite Hr in Hs. discriminate Hs.
Defined.

(** the emergency stop.  While the persisted flag is on, driving an active
    run refuses with [ErrEmergencyStopped], calls no handler and writes nothing;
    the run stays where it was. *)
Theorem Drive_emergency_stopped {E} t (hs : Handlers E) (w : World E) fuel r :
  runs (db w) !! t = Some r → State r = RunActive → t ≠ "" →
  (EmergencyStop (db w)).1 = true → sched w = [] → cancelled w = false →
  ∃ reason, Drive (S fuel) hs t w = Some (Some (ErrEmergencyStopped reason), w).
Proof.
  intros Hr Ha Ht Hon Hs Hc. unfold Drive. rewrite bool_decide_false by done. cbn [driveLoop].
  assert (turn w = w) as Hturn by (unfold turn; by rewrite Hs).
  assert (withDB (db w) w = w) as Hwd by (by destruct w).
  assert (∀ A (op : DB → result Error A) a, op (db w) = Ok a → query (E:=E) false op w = (Ok a, w)) as Hq.
  { intros A op a Ho. unfold query, call. rewrite Hturn, Hc. simpl. rewrite Ho. simpl. by rewrite Hwd. }
  unfold iterate, mbind, D_bind. rewrite (Hq _ _ r) by (unfold CurrentRun, getRunTx; by rewrite Hr).
  rewrite Ha. simpl. rewrite (Hq _ _ (EmergencyStop (db w)) eq_refl).
  destruct (EmergencyStop (db w)) as [on reason]. simpl in Hon. subst on. by eexists.
Qed.

Definition stoppedWorld : World nat :=
  withDB (SetEmergencyStop true "operator" (db (foldl (act "T" diligent) (freshWorld 7) [ActCreate "P" 2])))
    (freshWorld 7).

Lemma Drive_emergency_stopped_witness :
  ∃ reason, Drive 10 diligent "T" stoppedWorld =
    Some (Some (ErrEmergencyStopped reason), stoppedWorld).
Proof.
  apply (Drive_emergency_stopped "T" diligent stoppedWorld 9
    (mkRun "T" "P" StageCompile RunActive 1 0 2 FailureNone "" "" 1 1));
    vm_compute; try reflexivity; discriminate.
Defined.

Definition restarted : World nat :=
  mkWorld (execAll [(OpCreateRun "A" "P" 2, 1%Z); (OpCreateRun "B" "P" 2, 2%Z); (OpCancel "B" "", 3%Z);
                    (OpSetRunState "A" (mkRunStateChange RunBlocked "no lease" ""), 4%Z)] emptyDB)
    false 9 [] 0.

Lemma ResumeActiveRuns_redrives_witness :
  ∃ ts d', ResumeActiveRuns Z.ltb restarted = (ts, withDB d' restarted) ∧ NoDup ts.
Proof.
  destruct (ResumeActiveRuns_redrives Z.ltb restarted) as (ts & d' & H1 & H2 & _).
  - apply execAll_inv, emptyDB_inv.
  - split; reflexivity.
  - vm_compute. reflexivity.
  - exists ts, d'. split; [exact H1|exact H2].
Defined.

Example restarted_resumes :
  let '(ts, w) := ResumeActiveRuns Z.ltb restarted in
  (ts, State <$> runs (db w) !! "A", CurrentStage <$> runs (db w) !! "A", State <$> runs (db w) !! "B") =
  (["A"], Some RunActive, Some StageReady, Some RunCancelled).
Proof. vm_compute. done. Qed.
End driver.
