(* ===== verification/Agent.v ===== *)
(** * Agent: the coding-agent protocol and the supervised run

    Models [internal/adapter/codingagent/protocol] (the failure taxonomy and the
    events), [internal/supervisor/env.go] (the environment an agent process
    sees) and [internal/supervisor/supervisor.go] (one supervised run).

    An adapter is an interface: what it does is a function of the request and of
    a state [W] of its own, and what the supervisor observes of it while it
    polls is a list of polls.  Payloads of events that no modelled code reads
    (tools, commands, approvals, warnings, raw text; the confidence of a usage report) are left out. *)
From Stdlib Require PrimFloat.
From S2P Require Import Prelude AuditTrail.

Module agent.

(** ** protocol/failure.go *)

Inductive FailureClass :=
| FailureProviderQuota | FailureProviderRateLimit | FailureProviderCapacity
| FailureProviderAuth | FailureEngineNotInstalled | FailureEngineCrash
| FailureEngineProtocol | FailureModelNotAvailable | FailureImageProvider
| FailureTimeout | FailureCancelled | FailureBuildFailure | FailureTestFailure
| FailureVisualFailure | FailureScopeViolation | FailurePolicyViolation
| FailureMalformedOutput | FailureMergeConflict | FailureBudgetExceeded
| FailureInternalError
| FailureClassOther (s : string).
#[global] Instance FailureClass_eq_dec : EqDecision FailureClass.
Proof. solve_decision. Defined.

(** [string(class)]. *)
Definition FailureClass_String (c : FailureClass) : string :=
  match c with
  | FailureProviderQuota => "PROVIDER_QUOTA"
  | FailureProviderRateLimit => "PROVIDER_RATE_LIMIT"
  | FailureProviderCapacity => "PROVIDER_CAPACITY"
  | FailureProviderAuth => "PROVIDER_AUTH"
  | FailureEngineNotInstalled => "ENGINE_NOT_INSTALLED"
  | FailureEngineCrash => "ENGINE_CRASH"
  | FailureEngineProtocol => "ENGINE_PROTOCOL_ERROR"
  | FailureModelNotAvailable => "MODEL_NOT_AVAILABLE"
  | FailureImageProvider => "IMAGE_PROVIDER_FAILURE"
  | FailureTimeout => "TIMEOUT"
  | FailureCancelled => "CANCELLED"
  | FailureBuildFailure => "BUILD_FAILURE"
  | FailureTestFailure => "TEST_FAILURE"
  | FailureVisualFailure => "VISUAL_FAILURE"
  | FailureScopeViolation => "SCOPE_VIOLATION"
  | FailurePolicyViolation => "POLICY_VIOLATION"
  | FailureMalformedOutput => "MALFORMED_OUTPUT"
  | FailureMergeConflict => "MERGE_CONFLICT"
  | FailureBudgetExceeded => "BUDGET_EXCEEDED"
  | FailureInternalError => "INTERNAL_ERROR"
  | FailureClassOther s => s
  end.

Definition FailureClass_IsValid (c : FailureClass) : bool :=
  match c with FailureClassOther _ => false | _ => true end.

Inductive FailurePolicy :=
| PolicyRetry | PolicyCooldown | PolicyFailover | PolicyEscalation | PolicyPause
| PolicyQuarantine | PolicyTerminal
| PolicyOther (s : string).
#[global] Instance FailurePolicy_eq_dec : EqDecision FailurePolicy.
Proof. solve_decision. Defined.

Record FailureClassification := mkFailureClassification {
  Class_ : FailureClass;
  Policy : FailurePolicy;
  Retryable : bool;
  Failover : bool;
  MaxRetries : Z;
  CooldownSeconds : Z;
  Reason : string;
  ExitCode : Z }.

Definition DefaultPolicy (c : FailureClass) : FailureClassification :=
  match c with
  | FailureProviderQuota =>
      mkFailureClassification c PolicyFailover false true 3 0 "provider quota exhausted; failover to another route" 0
  | FailureProviderRateLimit =>
      mkFailureClassification c PolicyCooldown true false 5 30 "provider rate limited; cooldown then retry" 0
  | FailureProviderCapacity =>
      mkFailureClassification c PolicyCooldown true true 3 15 "provider capacity; retry or failover" 0
  | FailureProviderAuth =>
      mkFailureClassification c PolicyFailover false true 1 0 "auth failed; stop auto-retry, failover possible" 0
  | FailureEngineNotInstalled =>
      mkFailureClassification c PolicyPause false false 0 0 "engine not installed; pause for onboarding" 0
  | FailureEngineCrash =>
      mkFailureClassification c PolicyRetry true false 2 0 "engine process crashed; bounded retry" 0
  | FailureEngineProtocol =>
      mkFailureClassification c PolicyQuarantine false false 1 0 "protocol error; quarantine adapter" 0
  | FailureModelNotAvailable =>
      mkFailureClassification c PolicyFailover false true 2 0 "model unavailable; failover route" 0
  | FailureImageProvider =>
      mkFailureClassification c PolicyCooldown true false 3 20 "image provider failure; cooldown" 0
  | FailureTimeout =>
      mkFailureClassification c PolicyRetry true false 2 0 "timeout; bounded retry" 0
  | FailureCancelled =>
      mkFailureClassification c PolicyTerminal false false 0 0 "run cancelled by caller" 0
  | FailureBuildFailure | FailureTestFailure | FailureVisualFailure =>
      mkFailureClassification c PolicyTerminal false false 0 0 "verification failure; surface for repair loop" 0
  | FailureScopeViolation =>
      mkFailureClassification c PolicyTerminal false false 0 0 "agent modified files outside its allowed scope" 0
  | FailurePolicyViolation =>
      mkFailureClassification c PolicyTerminal false false 0 0 "run violated project security policy" 0
  | FailureMalformedOutput =>
      mkFailureClassification c PolicyRetry true false 2 0 "malformed agent output; bounded retry" 0
  | FailureMergeConflict =>
      mkFailureClassification c PolicyTerminal false false 0 0 "merge conflict; surface for resolution" 0
  | FailureBudgetExceeded =>
      mkFailureClassification c PolicyPause false false 0 0 "budget exhausted; pause spending" 0
  | FailureInternalError =>
      mkFailureClassification c PolicyRetry true false 1 0 "internal error; bounded retry" 0
  | FailureClassOther _ =>
      mkFailureClassification FailureInternalError PolicyTerminal false false 0 0
        "unclassified failure; treated as terminal for safety" 0
  end.

(** ** protocol/events.go *)

Inductive EventType :=
| EventRunStarted | EventRunResumed | EventMessageStarted | EventMessageDelta
| EventMessageCompleted | EventToolStarted | EventToolCompleted | EventCommandStarted
| EventCommandCompleted | EventFileChanged | EventUsageUpdated | EventCheckpointCreated
| EventApprovalRequested | EventWarning | EventRunCompleted | EventRunFailed
| EventRunCancelled
| EventOther (s : string).
#[global] Instance EventType_eq_dec : EqDecision EventType.
Proof. solve_decision. Defined.

Definition EventType_String (t : EventType) : string :=
  match t with
  | EventRunStarted => "run.started"
  | EventRunResumed => "run.resumed"
  | EventMessageStarted => "message.started"
  | EventMessageDelta => "message.delta"
  | EventMessageCompleted => "message.completed"
  | EventToolStarted => "tool.started"
  | EventToolCompleted => "tool.completed"
  | EventCommandStarted => "command.started"
  | EventCommandCompleted => "command.completed"
  | EventFileChanged => "file.changed"
  | EventUsageUpdated => "usage.updated"
  | EventCheckpointCreated => "checkpoint.created"
  | EventApprovalRequested => "approval.requested"
  | EventWarning => "warning"
  | EventRunCompleted => "run.completed"
  | EventRunFailed => "run.failed"
  | EventRunCancelled => "run.cancelled"
  | EventOther s => s
  end.

Definition IsTerminal (t : EventType) : bool :=
  match t with EventRunCompleted | EventRunFailed | EventRunCancelled => true | _ => false end.

Record MessagePayload := mkMessagePayload {
  MessageID : string; Delta : string; Text : string; Role : string }.
Record FileChangePayload := mkFileChangePayload {
  FileChange_Path : string; FileChange_Action : string; InScope : bool }.
Record CheckpointPayload := mkCheckpointPayload {
  CheckpointID : string; Checkpoint_Path : string; Checkpoint_Reason : string }.
Record FailurePayload := mkFailurePayload {
  Failure_Class : FailureClass; Failure_Reason : string; Failure_ExitCode : Z }.

(** Costs are binary64. *)
Record UsagePayload := mkUsagePayload {
  InputTokens : Z; OutputTokens : Z; CacheReadTokens : Z; CacheWriteTokens : Z;
  Cost : PrimFloat.float; Currency : string }.

Record NormalizedEvent := mkNormalizedEvent {
  Type_ : EventType;
  Message : option MessagePayload;
  FileChange : option FileChangePayload;
  Usage : option UsagePayload;
  Checkpoint : option CheckpointPayload;
  Failure : option FailurePayload }.

(** ** supervisor/env.go *)

Definition ForbiddenEnvPrefixes : list string :=
  ["GITHUB_TOKEN"; "GH_TOKEN"; "GH_ENTERPRISE_TOKEN"; "GITLAB_TOKEN";
   "GIT_TOKEN"; "GIT_PASSWORD"; "GIT_AUTHOR"; "GIT_COMMITTER";
   "BITBUCKET"; "AWS_SECRET"; "AZURE_CLIENT_SECRET"; "GOOGLE_APPLICATION";
   "NEUROFORGE_DAEMON"; "NEUROFORGE_HOME";
   "DOCKER_PASSWORD"; "KUBECONFIG"; "SSH_AUTH_SOCK";
   "PG_PASSWORD"; "POSTGRES_PASSWORD"; "DATABASE_URL";
   "STRIPE"; "TWILIO"; "SENDGRID"].

Definition AllowedEnvNames : list string :=
  ["PATH"; "HOME"; "USER"; "LOGNAME"; "LANG"; "LC_ALL"; "LC_CTYPE";
   "TERM"; "SHELL"; "TMPDIR"; "TEMP"; "TMP"; "TZ"; "GIT_CONFIG_NOSYSTEM"].

Definition isForbidden (name : string) : bool :=
  existsb (strs.HasPrefix (strs.ToUpper name)) ForbiddenEnvPrefixes.

(** [strings.Cut(kv, "=")], the name. *)
Definition envName (kv : string) : string := strs.CutBefore kv "="%char.

(** The loop of [EnvAllowlist]: what was kept, and the names seen. *)
Definition allowOne (acc : list string * list string) (kv : string) : list string * list string :=
  let '(out, seen) := acc in
  let name := envName kv in
  if bool_decide (name = "") || bool_decide (name ∈ seen) then acc
  else if negb (bool_decide (name ∈ AllowedEnvNames)) then acc
  else if isForbidden name then acc
  else (out ++ [kv], name :: seen).

Definition EnvAllowlist (fullEnv : list string) : list string :=
  sortStrings (foldl allowOne ([], []) fullEnv).1.

Definition AssertEnvSafe (env : list string) : option string :=
  match list_find (λ kv, isForbidden (envName kv) = true) env with
  | Some (_, kv) => Some ("supervisor: forbidden env var " +:+ strs.q (envName kv)
                          +:+ " would leak to agent (AC-28)")
  | None => None
  end.

(** ** supervisor/supervisor.go *)

Record AgentRunRequest := mkAgentRunRequest {
  RunID : string;
  Engine : string;
  Model : string;
  Workspace : string;
  Prompt : string;
  Scope : list string;
  AllowlistEnv : list string;
  TurnLimit : Z;
  Timeout : Duration }.

Record RunHandle := mkRunHandle {
  Handle_RunID : string;
  Handle_Engine : string;
  Handle_Model : string;
  Handle_SessionID : string }.

Record RunRequest := mkRunRequest {
  Req_WorkspaceID : string;
  Req_Engine : string;
  Req_Model : string;
  Req_Prompt : string;
  Req_Scope : list string;
  Req_TurnLimit : Z;
  Req_Timeout : Duration }.

Record RunResult := mkRunResult {
  Handle : RunHandle;
  Outcome : NormalizedEvent;
  Events : list NormalizedEvent;
  Failed : bool;
  Cancelled : bool }.

Inductive CtxErr := DeadlineExceeded | Canceled.
#[global] Instance CtxErr_eq_dec : EqDecision CtxErr.
Proof. solve_decision. Defined.

(** What one poll of [waitForTerminal] sees: the run context, the sink, and
    whether the supervisor's own deadline has passed. *)
Record Poll := mkPoll {
  ctxErr : option CtxErr;
  sinkEvents : list NormalizedEvent;
  pastDeadline : bool }.

(** A started run as the supervisor observes it.  The run context has a
    timeout, so after the listed polls comes one that finds it expired. *)
Record Session := mkSession {
  handle : RunHandle;
  polls : list Poll;
  atTimeout : list NormalizedEvent;
  collected : list NormalizedEvent }.

Definition failedEvent (reason : string) : NormalizedEvent :=
  mkNormalizedEvent EventRunFailed None None None None
    (Some (mkFailurePayload FailureTimeout reason 0)).
Definition cancelledEvent : NormalizedEvent :=
  mkNormalizedEvent EventRunCancelled None None None None None.

Definition firstTerminal (evs : list NormalizedEvent) : option NormalizedEvent :=
  snd <$> list_find (λ ev, IsTerminal (Type_ ev) = true) evs.

(** One iteration of [waitForTerminal]; [None] sleeps and polls again. *)
Definition pollOnce (p : Poll) : option NormalizedEvent :=
  match ctxErr p with
  | Some e =>
      Some match firstTerminal (sinkEvents p) with
           | Some ev => if bool_decide (e = DeadlineExceeded) && bool_decide (Type_ ev ≠ EventRunFailed)
                        then failedEvent "run timed out" else ev
           | None => if bool_decide (e = DeadlineExceeded) then failedEvent "run timed out"
                     else cancelledEvent
           end
  | None =>
      match firstTerminal (sinkEvents p) with
      | Some ev => Some ev
      | None => if pastDeadline p then Some (failedEvent "supervisor deadline exceeded") else None
      end
  end.

Fixpoint waitForTerminal (ps : list Poll) (expired : list NormalizedEvent) : NormalizedEvent :=
  match ps with
  | [] => default (failedEvent "run timed out") (pollOnce (mkPoll (Some DeadlineExceeded) expired false))
  | p :: ps => match pollOnce p with Some ev => ev | None => waitForTerminal ps expired end
  end.

Section supervisor.
  Context {W : Type}.

(** [CodingAgentAdapter], the operations the supervisor calls. *)
Record Adapter := mkAdapter {
  ID : string;
  Start : AgentRunRequest → W → result string Session * W }.

Definition Registry := string → option Adapter.

Record Supervisor := mkSupervisor {
  adapters : Registry;
  recorder : option audit.Recorder;
  fullEnv : list string;
  nanos : Z }.

Record St := mkSt { world : W; trail : audit.Trail }.

Definition auditRun (s : Supervisor) (type_ workspaceID : string) (payload : list (string * audit.Val))
    (t : audit.Trail) : audit.Trail :=
  match recorder s with
  | None => t
  | Some r => (audit.Record_ r (audit.mkEvent type_ audit.ScopeTask workspaceID audit.ActorDaemon
                 (Some (audit.Payload payload)) 0) t).2
  end.

Definition startRequest (s : Supervisor) (a : Adapter) (req : RunRequest) (workspacePath : string) :
    AgentRunRequest :=
  mkAgentRunRequest ("run-" +:+ pretty (nanos s))
    (if bool_decide (Req_Engine req = "") then ID a else Req_Engine req)
    (Req_Model req) workspacePath (Req_Prompt req) (Req_Scope req)
    (EnvAllowlist (fullEnv s)) (Req_TurnLimit req)
    (if (Req_Timeout req <=? 0)%Z then 600 * time.Second else Req_Timeout req)%Z.

(** [Supervisor.Run]. *)
Definition Run (s : Supervisor) (req : RunRequest) (workspacePath : string) (st : St) :
    result string RunResult * St :=
  if bool_decide (workspacePath = "") then (Err "supervisor: workspace path is required", st)
  else match adapters s (Req_Engine req) with
  | None => (Err ("supervisor: unknown engine " +:+ strs.q (Req_Engine req)), st)
  | Some a =>
      let rq := startRequest s a req workspacePath in
      match AssertEnvSafe (AllowlistEnv rq) with
      | Some e => (Err ("supervisor: environment leak detected: " +:+ e), st)
      | None =>
          let '(started, w) := Start a rq (world st) in
          match started with
          | Err e => (Err ("supervisor: start adapter: " +:+ e), mkSt w (trail st))
          | Ok sess =>
              let t := auditRun s "agent.run_started" (Req_WorkspaceID req)
                [("engine", audit.VString (Engine rq)); ("model", audit.VString (Req_Model req));
                 ("run_id", audit.VString (RunID rq));
                 ("session_id", audit.VString (Handle_SessionID (handle sess)));
                 ("workspace", audit.VString workspacePath)] (trail st) in
              let terminal := waitForTerminal (polls sess) (atTimeout sess) in
              let failed := bool_decide (Type_ terminal = EventRunFailed) in
              let cancelled := negb failed && bool_decide (Type_ terminal = EventRunCancelled) in
              let t := auditRun s
                (if failed then "agent.run_failed"
                 else if cancelled then "agent.run_cancelled" else "agent.run_completed")
                (Req_WorkspaceID req)
                ([("engine", audit.VString (Engine rq)); ("run_id", audit.VString (RunID rq));
                  ("terminal", audit.VString (EventType_String (Type_ terminal)))]
                 ++ match Failure terminal with
                    | Some f => if failed then
                        [("failure_class", audit.VString (FailureClass_String (Failure_Class f)));
                         ("failure_reason", audit.VString (Failure_Reason f))] else []
                    | None => []
                    end) t in
              (Ok (mkRunResult (handle sess) terminal (collected sess) failed cancelled), mkSt w t)
          end
      end
  end.

End supervisor.
Arguments Adapter : clear implicits.
Arguments Registry : clear implicits.
Arguments Supervisor : clear implicits.
Arguments St : clear implicits.

(** ** The environment *)

Lemma allowed_ok name :
  name ∈ AllowedEnvNames → name ≠ "" ∧ isForbidden name = false.
Proof.
  assert (Forall (λ n, n ≠ "" ∧ isForbidden n = false) AllowedEnvNames) as H
    by (repeat constructor; done).
  rewrite Forall_forall in H. apply H.
Qed.

(** The first variable of its name. *)
Definition firstIn (env : list string) (kv : string) : Prop :=
  ∃ pre post, env = pre ++ kv :: post ∧ envName kv ∉ envName <$> pre.

Lemma firstIn_snoc env x kv :
  firstIn (env ++ [x]) kv ↔ firstIn env kv ∨ (kv = x ∧ envName x ∉ envName <$> env).
Proof.
  split.
  - intros (pre & post & He & Hn). destruct post as [|y post _] using rev_ind.
    + apply app_inj_tail in He as [-> ->]. by right.
    + rewrite app_comm_cons, app_assoc in He. apply app_inj_tail in He as [-> ->].
      left. by exists pre, post.
  - intros [(pre & post & -> & Hn)|[-> Hn]].
    + exists pre, (post ++ [x]). split; [|done]. by rewrite <-app_assoc.
    + by exists env, [].
Qed.

Lemma firstIn_name env n :
  n ∈ envName <$> env → ∃ kv, firstIn env kv ∧ envName kv = n.
Proof.
  induction env as [|x env IH] using rev_ind; [by intros Hn%not_elem_of_nil|].
  rewrite fmap_app, elem_of_app. intros [Hn|Hn].
  - destruct (IH Hn) as (kv & Hf & <-). exists kv. rewrite firstIn_snoc. by split; [left|].
  - apply list_elem_of_singleton in Hn as ->.
    destruct (decide (envName x ∈ envName <$> env)) as [Hin|Hni].
    + destruct (IH Hin) as (kv & Hf & Heq). exists kv. rewrite firstIn_snoc. by split; [left|].
    + exists x. rewrite firstIn_snoc. split; [by right|done].
Qed.

Lemma allow_spec env :
  let '(out, seen) := foldl allowOne ([], []) env in
  NoDup (envName <$> out) ∧
  (∀ n, n ∈ seen ↔ n ∈ AllowedEnvNames ∧ n ∈ envName <$> env) ∧
  (∀ kv, kv ∈ out ↔ envName kv ∈ AllowedEnvNames ∧ firstIn env kv).
Proof.
  induction env as [|x env IH] using rev_ind.
  { simpl. split_and!; [constructor|set_solver|]. intros kv. split; [by intros ?%not_elem_of_nil|].
    intros (_ & pre & post & H & _). by destruct pre. }
  rewrite foldl_app. destruct (foldl allowOne ([], []) env) as [out seen].
  destruct IH as (Hnd & Hseen & Hout). cbn [foldl]. unfold allowOne.
  assert (∀ n, n ∈ envName <$> (env ++ [x]) ↔ n ∈ envName <$> env ∨ n = envName x) as Hsnoc
    by (intros n; rewrite fmap_app; set_solver).
  assert (envName x ∉ AllowedEnvNames ∨ envName x ∈ seen →
    NoDup (envName <$> out) ∧
    (∀ n, n ∈ seen ↔ n ∈ AllowedEnvNames ∧ n ∈ envName <$> (env ++ [x])) ∧
    (∀ kv, kv ∈ out ↔ envName kv ∈ AllowedEnvNames ∧ firstIn (env ++ [x]) kv)) as Hskip.
  { intros Hx. split_and!; [done| |].
    - intros n. rewrite Hseen, Hsnoc. split; [naive_solver|].
      intros [Ha [Hn| ->]]; [done|]. destruct Hx as [?|Hx]; [done|by apply Hseen].
    - intros kv. rewrite Hout, firstIn_snoc. split; [naive_solver|].
      intros [Ha [Hn|[-> Hn]]]; [done|]. destruct Hx as [?|Hx]; [done|].
      apply Hseen in Hx as [_ ?]. done. }
  case_bool_decide as He.
  { apply Hskip. left. rewrite He. by intros []%allowed_ok. }
  case_bool_decide as Hs; [apply Hskip; by right|]. cbn [orb].
  case_bool_decide as Ha; [|apply Hskip; by left]. cbn [negb].
  destruct (allowed_ok _ Ha) as [_ ->].
  assert (envName x ∉ envName <$> env) as Hni by (intros Hin; apply Hs, Hseen; done).
  split_and!.
  - rewrite fmap_app. apply NoDup_app. split_and!; [done| |apply NoDup_singleton].
    intros n Hn ->%list_elem_of_singleton. apply list_elem_of_fmap in Hn as (kv & Heq & Hkv).
    apply Hout in Hkv as (_ & pre & post & -> & _). apply Hni. rewrite Heq, fmap_app. set_solver.
  - intros n. rewrite elem_of_cons, Hseen, Hsnoc. naive_solver.
  - intros kv. rewrite elem_of_app, list_elem_of_singleton, Hout, firstIn_snoc. naive_solver.
Qed.

Lemma AssertEnvSafe_None env :
  AssertEnvSafe env = None ↔ ∀ kv, kv ∈ env → isForbidden (envName kv) = false.
Proof.
  unfold AssertEnvSafe. destruct (list_find _ env) as [[i kv]|] eqn:Hf.
  - apply list_find_Some in Hf as (Hl & Hkv & _). split; [done|]. intros H.
    rewrite H in Hkv; [done|]. by eapply list_elem_of_lookup_2.
  - rewrite list_find_None, Forall_forall in Hf. split; [|done].
    intros _ kv Hin. apply not_true_is_false. by apply Hf.
Qed.

Lemma elem_of_EnvAllowlist env kv :
  kv ∈ EnvAllowlist env ↔ envName kv ∈ AllowedEnvNames ∧ firstIn env kv.
Proof.
  unfold EnvAllowlist. rewrite elem_of_sortStrings. pose proof (allow_spec env) as H.
  destruct (foldl _ _ env) as [out seen]. apply H.
Qed.

Lemma EnvAllowlist_safe env : AssertEnvSafe (EnvAllowlist env) = None.
Proof.
  apply AssertEnvSafe_None. intros kv [H _]%elem_of_EnvAllowlist. by apply allowed_ok.
Qed.

(** A variable off the allowlist does not show. *)
Lemma EnvAllowlist_filter env :
  EnvAllowlist (filter (λ kv, envName kv ∈ AllowedEnvNames) env) = EnvAllowlist env.
Proof.
  unfold EnvAllowlist. f_equal. f_equal.
  generalize (@nil string, @nil string) as acc.
  induction env as [|x env IH]; intros [out seen]; [done|].
  rewrite filter_cons. case_decide as Ha; cbn [foldl]; [apply IH|].
  rewrite IH. f_equal. unfold allowOne.
  destruct (_ || _); [done|]. by rewrite (bool_decide_false (_ ∈ _)).
Qed.

(** the environment of an agent process.  [EnvAllowlist] yields, sorted and
    once per name, exactly the first occurrence of each variable of the
    daemon's environment whose name is on the allowlist; it passes the leak
    check; and no other variable of the daemon, a secret among them, influences
    it. *)
Theorem EnvAllowlist_exact env :
  let out := EnvAllowlist env in
  StronglySorted String.le out ∧ NoDup (envName <$> out) ∧
  (∀ kv, kv ∈ out ↔ envName kv ∈ AllowedEnvNames ∧
     ∃ pre post, env = pre ++ kv :: post ∧ envName kv ∉ envName <$> pre) ∧
  AssertEnvSafe out = None ∧
  EnvAllowlist (filter (λ kv, envName kv ∈ AllowedEnvNames) env) = out.
Proof.
  cbv zeta. split_and!.
  - apply sortStrings_sorted.
  - unfold EnvAllowlist. pose proof (allow_spec env) as H. destruct (foldl _ _ env) as [out seen].
    simpl. rewrite sortStrings_Permutation. apply H.
  - intros kv. apply elem_of_EnvAllowlist.
  - apply EnvAllowlist_safe.
  - apply EnvAllowlist_filter.
Qed.

(** ** A supervised run *)

Lemma firstTerminal_Some evs ev : firstTerminal evs = Some ev → IsTerminal (Type_ ev) = true.
Proof.
  unfold firstTerminal. intros ([i e] & Hf & Heq)%fmap_Some. simpl in Heq. subst ev.
  by apply list_find_Some in Hf as (_ & ? & _).
Qed.

(** A deadline that fired is a failure, whatever the adapter reported. *)
Lemma pollOnce_terminal p ev :
  pollOnce p = Some ev →
  IsTerminal (Type_ ev) = true ∧ (ctxErr p = Some DeadlineExceeded → Type_ ev = EventRunFailed).
Proof.
  unfold pollOnce. destruct (ctxErr p) as [e|].
  - intros [= <-]. destruct (firstTerminal _) as [ev'|] eqn:Hf.
    + apply firstTerminal_Some in Hf. destruct e; simpl.
      * case_bool_decide as Ht; [done|]. split; [done|]. by destruct (Type_ ev').
      * done.
    + by destruct e.
  - destruct (firstTerminal _) as [ev'|] eqn:Hf.
    + intros [= <-]. by split; [eapply firstTerminal_Some|].
    + by destruct (pastDeadline p); intros [= <-].
Qed.

Lemma waitForTerminal_terminal ps expired : IsTerminal (Type_ (waitForTerminal ps expired)) = true.
Proof.
  induction ps as [|p ps IH]; cbn [waitForTerminal].
  - destruct (pollOnce _) as [ev|] eqn:Hp; [|done]. simpl. by apply (pollOnce_terminal _ _ Hp).
  - destruct (pollOnce p) as [ev|] eqn:Hp; [|done]. by apply (pollOnce_terminal _ _ Hp).
Qed.

(** What an adapter may be started with. *)
Definition confined (rq : AgentRunRequest) : bool :=
  forallb (λ kv, bool_decide (envName kv ∈ AllowedEnvNames) && negb (isForbidden (envName kv)))
    (AllowlistEnv rq)
  && negb (bool_decide (Workspace rq = "")) && (0 <? Timeout rq)%Z.

(** An adapter that refuses anything else. *)
Definition guard {W} (a : Adapter W) : Adapter W :=
  mkAdapter (ID a) (λ rq w, if confined rq then Start a rq w else (Err "refused", w)).
Definition guarded {W} (s : Supervisor W) : Supervisor W :=
  mkSupervisor (λ e, guard <$> adapters s e) (recorder s) (fullEnv s) (nanos s).
Definition withEnv {W} (env : list string) (s : Supervisor W) : Supervisor W :=
  mkSupervisor (adapters s) (recorder s) env (nanos s).

Lemma startRequest_confined {W} (s : Supervisor W) a req path :
  path ≠ "" → confined (startRequest s a req path) = true.
Proof.
  intros Hp. unfold confined. simpl. rewrite (bool_decide_false _ Hp). simpl. rewrite andb_true_r.
  apply andb_true_intro. split.
  - apply forallb_elem. intros kv [Ha _]%elem_of_EnvAllowlist.
    rewrite bool_decide_true by done. by destruct (allowed_ok _ Ha) as [_ ->].
  - apply Z.ltb_lt. destruct (Z.leb_spec (Req_Timeout req) 0); [done|lia].
Qed.

(** C13: an agent is only ever started confined.  A run never finds an
    environment leak; replacing every adapter by one that refuses a start with
    a variable off the allowlist, without a workspace or without a hard timeout
    changes nothing; a variable of the daemon that is off the allowlist
    influences neither the agent, the outcome nor the audit trail; and a run
    that started ends in a terminal event, failed and cancelled exactly as that
    event says. *)
Theorem Run_confined {W} (s : Supervisor W) req path st :
  Run (guarded s) req path st = Run s req path st ∧
  (∀ env, filter (λ kv, envName kv ∈ AllowedEnvNames) env =
          filter (λ kv, envName kv ∈ AllowedEnvNames) (fullEnv s) →
     Run (withEnv env s) req path st = Run s req path st) ∧
  (∀ r, (Run s req path st).1 = Ok r →
     IsTerminal (Type_ (Outcome r)) = true ∧
     (Failed r = true ↔ Type_ (Outcome r) = EventRunFailed) ∧
     (Cancelled r = true ↔ Type_ (Outcome r) = EventRunCancelled)).
Proof.
  split_and!.
  - unfold Run. case_bool_decide as Hp; [done|]. simpl.
    destruct (adapters s (Req_Engine req)) as [a|]; [|done]. simpl.
    pose proof (startRequest_confined s a req path Hp) as Hc.
    change (startRequest (guarded s) (guard a) req path) with (startRequest s a req path).
    by rewrite Hc.
  - intros env He. assert (EnvAllowlist env = EnvAllowlist (fullEnv s)) as Hsame.
    { by rewrite <-(EnvAllowlist_filter env), He, EnvAllowlist_filter. }
    unfold Run, startRequest. simpl. by rewrite Hsame.
  - intros r. unfold Run. case_bool_decide; [done|]. destruct (adapters s _) as [a|]; [|done].
    destruct (AssertEnvSafe _); [done|]. destruct (Start _ _ _) as [[sess|] w]; [|done].
    intros [= <-]. simpl.
    pose proof (waitForTerminal_terminal (polls sess) (atTimeout sess)) as Ht.
    split; [done|]. by destruct (Type_ (waitForTerminal _ _)).
Qed.

(** An agent that reports success in the poll that finds the run context expired
    has still timed out. *)
Example timeout_beats_completed :
  Type_ (waitForTerminal [mkPoll None [] false;
    mkPoll (Some DeadlineExceeded) [mkNormalizedEvent EventRunCompleted None None None None None] false] [])
  = EventRunFailed.
Proof. done. Qed.

End agent.
