(* ===== verification/Shell.v ===== *)
(** * Shell: the verification commands (spec §24)

    Models [internal/testengine/shell.go], the runner that executes gofmt, go
    build, go vet and go test in a worktree and reads what they print.  The
    processes, the search path, the temporary directories, the environment and
    the clock are an interface [Exec]; the regular expressions are written out
    as scanners of a line. *)
From S2P Require Import Prelude Text Policy TestEngine Agent.
Import testengine.

Module shell.

(** One command: [exec.Cmd] with the timeout [runCmd] puts on it. *)
Record Cmd := mkCmd {
  Dir : string;
  Name : string;
  Args : list string;
  Env : list string;
  CmdTimeout : Duration }.

(** What the runner uses of the machine.  [RunCmd] starts the command, waits, and
    kills its process group when it is cancelled or late: it answers the
    combined output, the text of the error if there was one, and the machine
    afterwards. *)
Class Exec (X : Type) := {
  LookPath : string → X → result string string;
  RunCmd : Cmd → X → (string * option string) * X;
  MkdirTemp : X → result string string * X;
  RemoveAll : string → X → X;
  Environ : X → list string;
  Now : X → Time }.

Definition DefaultShellCmdTimeout : Duration := (600 * time.Second)%Z.
Definition slicedOutputCap : nat := 8 * 1024.

Record ShellRunner := mkShellRunner { timeout : Duration; goBin : string; race : bool }.
Record ShellRunnerOptions := mkShellRunnerOptions { Opt_CmdTimeout : Duration; GoBin : string; Race : bool }.
Definition NewShellRunner (o : ShellRunnerOptions) : ShellRunner :=
  mkShellRunner (if (Opt_CmdTimeout o <=? 0)%Z then DefaultShellCmdTimeout else Opt_CmdTimeout o)
    (if bool_decide (GoBin o = "") then "go" else GoBin o) (Race o).

(** ** Reading the output *)

(** The class [\s] of a regular expression. *)
Definition isBlank (c : ascii) : bool :=
  bool_decide (c ∈ [strs.tab; strs.nl; ascii_of_nat 12; strs.cr; " "%char]).
Definition nonBlank (c : ascii) : bool := negb (isBlank c).

(** [\s*(.+)$]: what follows the blanks, or the last blank when nothing does. *)
Fixpoint lastOf (s : string) : option string :=
  match s with
  | EmptyString => None
  | String c EmptyString => Some (String c "")
  | String _ s => lastOf s
  end.
Definition message (s : string) : option string :=
  let rest := (text.span isBlank s).2 in if bool_decide (rest = "") then lastOf s else Some rest.

(** [(\d+):]: the digits, and what follows the colon. *)
Definition number (s : string) : option (string * string) :=
  match text.span text.isDigit s with
  | (EmptyString, _) => None
  | (d, String ":" rest) => Some (d, rest)
  | _ => None
  end.

(** [([^\s:]+\.go):]: everything before the first colon. *)
Definition goFile (s : string) : option (string * string) :=
  '(f, rest) ← text.cutByte s ":";
  if everyByte nonBlank f && strs.HasSuffix f ".go" && (3 <? String.length f) then Some (f, rest) else None.

(** [buildErrRe]: file, line, column, message. *)
Definition buildErrRe (line : string) : option (string * string * string * string) :=
  '(f, s) ← goFile line; '(l, s) ← number s; '(c, s) ← number s; m ← message s; Some (f, l, c, m).
(** [testLocRe]: file, line, message. *)
Definition testLocRe (line : string) : option (string * string * string) :=
  let '(blanks, s) := text.span isBlank line in
  if bool_decide (blanks = "") then None
  else '(f, s) ← goFile s; '(l, s) ← number s; m ← message s; Some (f, l, m).

(** The word that a marker is followed by. *)
Definition word (s : string) : option string :=
  let w := (text.span nonBlank s).1 in if bool_decide (w = "") then None else Some w.
Definition after (marker s : string) : option string :=
  if strs.HasPrefix s marker then Some (text.TrimPrefix s marker) else None.
Definition spaced (s : string) : option string :=
  let '(blanks, rest) := text.span isBlank s in if bool_decide (blanks = "") then None else Some rest.
Definition failTestRe (line : string) : option string := s ← after "--- FAIL: " line; word s.
Definition skipTestRe (line : string) : option string := s ← after "--- SKIP: " line; word s.
Definition failPkgRe (line : string) : option string := s ← after "FAIL" line; s ← spaced s; word s.
Definition okPkgRe (line : string) : option string := s ← after "ok" line; s ← spaced s; word s.
Definition passTestStr : string := "--- PASS: ".

(** The number of a digit string in a 64-bit [int]. *)
Fixpoint atoiFrom (n : Z) (s : string) : Z :=
  match s with
  | EmptyString => n
  | String c s => if text.isDigit c then atoiFrom (text.wrap64 (n * 10 + (Z.of_nat (nat_of_ascii c) - 48))) s else 0%Z
  end.
Definition atoi (s : string) : Z := atoiFrom 0 s.

Record testCounts := mkTestCounts { passed : Z; failed : Z; skipped : Z }.

(** [TestFailure{Message: m}] and the other literals. *)
Definition messageOnly (m : string) : TestFailure := mkTestFailure "" "" m "" 0.
Definition located (f : TestFailure) (file line msg : string) : TestFailure :=
  if bool_decide (File f = "")
  then mkTestFailure (TestName f) (Package f) (if bool_decide (Message f = "") then msg else Message f) file (atoi line)
  else f.
Definition withPackage (p : string) (f : TestFailure) : TestFailure :=
  mkTestFailure (TestName f) p (Message f) (File f) (Line f).

(** The list with a function applied to its last element. *)
Fixpoint onLast {A} (f : A → A) (l : list A) : list A :=
  match l with [] => [] | [x] => [f x] | x :: l => x :: onLast f l end.

Record scan := mkScan { counts : testCounts; failures : list TestFailure; failPkgs : list string }.
Definition zeroScan : scan := mkScan (mkTestCounts 0 0 0) [] [].

(** One line of the first loop of [parseTestOutput]. *)
Definition scanLine (st : scan) (line : string) : scan :=
  let '(mkTestCounts p f s) := counts st in
  if strs.HasPrefix line passTestStr then mkScan (mkTestCounts (p + 1) f s) (failures st) (failPkgs st)
  else match failTestRe line with
  | Some name => mkScan (mkTestCounts p (f + 1) s) (failures st ++ [mkTestFailure name "" "" "" 0]) (failPkgs st)
  | None =>
      match skipTestRe line with
      | Some _ => mkScan (mkTestCounts p f (s + 1)) (failures st) (failPkgs st)
      | None =>
          match failPkgRe line with
          | Some pkg => mkScan (counts st) (failures st) (failPkgs st ++ [pkg])
          | None =>
              match testLocRe line with
              | Some (file, l, msg) => mkScan (counts st) (onLast (λ f, located f file l msg) (failures st)) (failPkgs st)
              | None => st
              end
          end
      end
  end.

(** One line of the fallback, which counts packages. *)
Definition countPackage (c : testCounts) (line : string) : testCounts :=
  let '(mkTestCounts p f s) := c in
  match okPkgRe line, failPkgRe line with
  | Some _, _ => mkTestCounts (p + 1) f s
  | None, Some _ => if bool_decide (line = "FAIL") then c else mkTestCounts p (f + 1) s
  | None, None => c
  end.

Definition attach (pkgs : list string) (l : list TestFailure) : list TestFailure :=
  match pkgs with
  | [p] => (λ f, if bool_decide (Package f = "") then withPackage p f else f) <$> l
  | _ => l
  end.
Definition parseTestOutput (out : string) : testCounts * list TestFailure :=
  let lines := strs.SplitLines out in
  let st := foldl scanLine zeroScan lines in
  let c := counts st in
  (if (passed c =? 0)%Z && (failed c =? 0)%Z && (skipped c =? 0)%Z then foldl countPackage c lines else c,
   attach (failPkgs st) (failures st)).

Definition parseCompileFailures (out : string) : list TestFailure :=
  omap (λ line, '(f, l, _, m) ← buildErrRe line; Some (mkTestFailure "" "" m f (atoi l))) (strs.SplitLines out).

Definition sliceTail (out : string) : string :=
  if slicedOutputCap <? String.length out then strs.drop_bytes (String.length out - slicedOutputCap) out else out.

Definition nonEmptyLines (s : string) : list string :=
  List.filter (λ t, negb (bool_decide (t = ""))) (strs.TrimSpace <$> strs.SplitLines s).

(** The first list that is not empty. *)
Definition orMessage (l : list TestFailure) (m : string) : list TestFailure :=
  if bool_decide (length l = 0) then [messageOnly m] else l.

Definition isPackageResolutionError (out : string) : bool :=
  strs.Contains out "pattern " && strs.Contains out "no such file or directory"
  || existsb (strs.Contains out)
       ["matched no packages"; "no Go files in"; "no required module provides"; "cannot find package"; "is not in std"].

(** ** What to test *)

Definition patternOf (dir : string) : string := if bool_decide (dir = ".") then "./..." else "./" +:+ dir +:+ "/...".
Definition relativeTo (workspace f : string) : option string :=
  if filepath.IsAbs f
  then r ← filepath.Rel workspace f; if strs.HasPrefix r ".." then None else Some r
  else Some f.
Definition packagePatterns (workspace : string) (changed : list string) : list string :=
  sortStrings (remove_dups (omap (λ f, if strs.HasSuffix f ".go"
                                       then rel ← relativeTo workspace f; Some (patternOf (filepath.Dir rel))
                                       else None) changed)).

(** ** The environment of a command *)

Definition goEssentialEnvKeys : list string := ["GOPATH"; "GOMODCACHE"; "GOCACHE"; "GOPROXY"].

(** [os.LookupEnv]: the value of the first entry of the name. *)
Definition LookupEnv (env : list string) (k : string) : option string :=
  kv ← List.find (λ kv, strs.HasPrefix kv (k +:+ "=")) env; Some (text.TrimPrefix kv (k +:+ "=")).
Definition verifyEnv (environ : list string) : list string :=
  agent.EnvAllowlist environ
  ++ omap (λ k, v ← LookupEnv environ k; Some (k +:+ "=" +:+ v)) goEssentialEnvKeys
  ++ ["GOFLAGS=-mod=readonly"].

(** ** The levels *)

Section runner.
  Context `{Exec X}.
  Variable r : ShellRunner.

(** [runCmd]. *)
Definition command (dir name : string) (args : list string) (x : X) : Cmd :=
    mkCmd dir name args (verifyEnv (Environ x)) (timeout r).
Definition runCmd (dir name : string) (args : list string) (x : X) : (string * option string) * X :=
    RunCmd (command dir name args x) x.

Definition mainProbe : string := "{{if eq .Name " +:+ strs.q "main" +:+ "}}x{{end}}".
Definition hasMainPackages (workspace : string) (x : X) : bool * X :=
    let '((out, err), x) := runCmd workspace (goBin r) ["list"; "-e"; "-f"; mainProbe; "./..."] x in
    (match err with
     | Some _ => false
     | None => existsb (λ line, bool_decide (strs.TrimSpace line = "x")) (strs.SplitLines out)
     end, x).

(** A [Result] without a duration. *)
Definition verdict (req : RunRequest) (st : VerificationStatus) (c : testCounts) (fs : list TestFailure) (out : string) : Result :=
    mkResult (RunRequest_Level req) st (passed c) (failed c) (skipped c) 0 fs out "".
Definition noCounts : testCounts := mkTestCounts 0 0 0.
Definition statusOf (err : option string) : VerificationStatus := match err with Some _ => StatusFailed | None => StatusPassed end.

Definition runSyntax (req : RunRequest) (x : X) : Result * X :=
    match LookPath "gofmt" x with
    | Err e => (verdict req StatusFailed noCounts [messageOnly "gofmt binary not found in PATH"] ("gofmt: executable not found: " +:+ e), x)
    | Ok gofmt =>
        let '((out, err), x) := runCmd (WorkspacePath req) gofmt ["-l"; "."] x in
        (match err with
         | Some e => verdict req StatusFailed noCounts [messageOnly ("gofmt failed: " +:+ e)] (sliceTail out)
         | None =>
             match nonEmptyLines out with
             | [] => verdict req StatusPassed noCounts [] (sliceTail out)
             | files => verdict req StatusFailed noCounts
                          ((λ f, mkTestFailure "" "" "gofmt: file is not formatted" f 0) <$> files) (sliceTail out)
             end
         end, x)
    end.

(** [go build], with the output redirected when there is something to write. *)
Definition build (req : RunRequest) (args : list string) (x : X) : Result * X :=
    let '((out, err), x) := runCmd (WorkspacePath req) (goBin r) args x in
    (match err with
     | Some e => verdict req StatusFailed (mkTestCounts 0 1 0)
                   (orMessage (parseCompileFailures out) ("go build failed: " +:+ e)) (sliceTail out)
     | None => verdict req StatusPassed noCounts [] (sliceTail out)
     end, x).
Definition runCompile (req : RunRequest) (x : X) : Result * X :=
    let '(hasMain, x) := hasMainPackages (WorkspacePath req) x in
    if hasMain then
      let '(dir, x) := MkdirTemp x in
      match dir with
      | Err e => (verdict req StatusFailed (mkTestCounts 0 1 0) [messageOnly ("cannot create temp build dir: " +:+ e)]
                    "go build requires a temp output dir for main packages; refusing to build into the workspace", x)
      | Ok d => let '(res, x) := build req ["build"; "-o"; d +:+ "/"; "./..."] x in (res, RemoveAll d x)
      end
    else build req ["build"; "./..."] x.

Definition runModule (req : RunRequest) (full : bool) (x : X) : Result * X :=
    let '((vetOut, vetErr), x) := runCmd (WorkspacePath req) (goBin r) ["vet"; "./..."] x in
    let '((testOut, testErr), x) :=
      runCmd (WorkspacePath req) (goBin r)
        (["test"; "-count=1"] ++ (if full && race r then ["-race"] else []) ++ ["./..."]) x in
    let out := vetOut +:+ testOut in
    let '(c, fs) := parseTestOutput out in
    let vetFailures :=
      match vetErr with
      | None => []
      | Some e => (λ f, mkTestFailure (TestName f) "go vet" ("static analysis: " +:+ Message f) (File f) (Line f))
                    <$> orMessage (parseCompileFailures vetOut) ("go vet failed: " +:+ e)
      end in
    (match vetErr, testErr with
     | None, None => verdict req StatusPassed c fs (sliceTail out)
     | _, _ => verdict req StatusFailed (if (failed c =? 0)%Z then mkTestCounts (passed c) 1 (skipped c) else c)
                 (orMessage (vetFailures ++ fs) "module verification failed") (sliceTail out)
     end, x).

(** The failures of a test command that failed. *)
Definition testFailures (err : option string) (fs diagnostics : list TestFailure) (m : string) : list TestFailure :=
    match err, fs with
    | Some e, [] => orMessage diagnostics (m +:+ e)
    | _, _ => fs
    end.
Definition runTargeted (req : RunRequest) (x : X) : Result * X :=
    match packagePatterns (WorkspacePath req) (ChangedFiles req) with
    | [] => (verdict req StatusSkipped noCounts [] "", x)
    | patterns =>
        let '((out, err), x) := runCmd (WorkspacePath req) (goBin r) (["test"; "-count=1"] ++ patterns) x in
        if negb (bool_decide (err = None)) && isPackageResolutionError out then runModule req false x
        else
          let '(c, fs) := parseTestOutput out in
          (verdict req (statusOf err) c (testFailures err fs (parseCompileFailures out) "go test failed: ") (sliceTail out), x)
    end.
Definition runPackageRetry (req : RunRequest) (x : X) : Result * X :=
    let '((out, err), x) :=
      runCmd (WorkspacePath req) (goBin r) (["test"; "-count=1"] ++ ((λ p, p +:+ "/...") <$> RetryPackages req)) x in
    let '(c, fs) := parseTestOutput out in
    (verdict req (statusOf err) c (testFailures err fs [] "go test (package retry) failed: ") (sliceTail out), x).

Definition withDuration (d : Duration) (res : Result) : Result :=
    mkResult (Level res) (Status res) (Passed res) (Failed res) (Skipped res) d (Failures res) (SlicedOutput res) (LogPath res).

(** [ShellRunner.Run]: the runner of the levels up to [LevelFull]. *)
Definition levelRunner (req : RunRequest) : option (X → Result * X) :=
    let l := RunRequest_Level req in
    if negb (bool_decide (RetryPackages req = [])) then Some (runPackageRetry req)
    else if (l =? LevelSyntax)%Z then Some (runSyntax req)
    else if (l =? LevelCompile)%Z then Some (runCompile req)
    else if (l =? LevelTargeted)%Z then Some (runTargeted req)
    else if (l =? LevelModule)%Z || (l =? LevelFull)%Z then Some (runModule req (l =? LevelFull)%Z)
    else None.
Definition Run (req : RunRequest) (x : X) : result string Result * X :=
    if bool_decide (WorkspacePath req = "") then (Err "testengine: shell runner requires WorkspacePath", x)
    else
      match levelRunner req with
      | None => (Err ("testengine: unknown verification level " +:+ pretty (RunRequest_Level req)), x)
      | Some run => let start := Now x in let '(res, x) := run x in (Ok (withDuration (Now x - start)%Z res), x)
      end.
End runner.
(** ** What a run is *)

Section trace.
  Context `{Exec X}.
  Variable r : ShellRunner.

(** The commands of a run, each with the machine it was started on.  A temporary
    directory is removed by the run that made it, and nothing else is removed. *)
Inductive traced : X → list (X * Cmd) → X → Prop :=
| traced_nil x : traced x [] x
| traced_cmd x c l y : traced (RunCmd c x).2 l y → traced x ((x, c) :: l) y
| traced_temp x d x1 l y : MkdirTemp x = (Ok d, x1) → traced x1 l y → traced x l (RemoveAll d y)
| traced_no_temp x e x1 l y : MkdirTemp x = (Err e, x1) → traced x1 l y → traced x l y.

Definition output (e : X * Cmd) : string := (RunCmd e.2 e.1).1.1.
Definition succeeded (e : X * Cmd) : Prop := (RunCmd e.2 e.1).1.2 = None.

(** A command of the runner: in the workspace, in time, with an environment that
    leaks nothing. *)
Definition commanded (req : RunRequest) (e : X * Cmd) : Prop :=
    Dir e.2 = WorkspacePath req ∧ CmdTimeout e.2 = timeout r ∧ Env e.2 = verifyEnv (Environ e.1) ∧
    agent.AssertEnvSafe (Env e.2) = None ∧
    (if bool_decide (Args e.2 = ["-l"; "."]) then LookPath "gofmt" e.1 = Ok (Name e.2) else Name e.2 = goBin r).

(** A command that does not decide: the search for main packages, and a test of
    changed packages that are none. *)
Definition preliminary (req : RunRequest) (e : X * Cmd) : Prop :=
    Args e.2 = ["list"; "-e"; "-f"; mainProbe; "./..."]
    ∨ Args e.2 = ["test"; "-count=1"] ++ packagePatterns (WorkspacePath req) (ChangedFiles req)
      ∧ ¬ succeeded e ∧ isPackageResolutionError (output e) = true.

Definition moduleCommands (full : bool) : list (list string) :=
    [["vet"; "./..."]; ["test"; "-count=1"] ++ (if full && race r then ["-race"] else []) ++ ["./..."]].

(** The commands that decide a request. *)
Inductive decides (req : RunRequest) : list (list string) → Prop :=
| decides_retry : RetryPackages req ≠ [] →
    decides req [["test"; "-count=1"] ++ ((λ p, p +:+ "/...") <$> RetryPackages req)]
| decides_syntax : RetryPackages req = [] → RunRequest_Level req = LevelSyntax → decides req [["-l"; "."]]
| decides_compile (out : list string) : RetryPackages req = [] → RunRequest_Level req = LevelCompile →
    out = [] ∨ (∃ d, out = ["-o"; d +:+ "/"]) → decides req [["build"] ++ out ++ ["./..."]]
| decides_targeted : RetryPackages req = [] → RunRequest_Level req = LevelTargeted →
    packagePatterns (WorkspacePath req) (ChangedFiles req) ≠ [] →
    decides req [["test"; "-count=1"] ++ packagePatterns (WorkspacePath req) (ChangedFiles req)]
| decides_module (full : bool) : RetryPackages req = [] →
    RunRequest_Level req = (if full then LevelFull else LevelModule) ∨ full = false ∧ RunRequest_Level req = LevelTargeted →
    decides req (moduleCommands full).

(** A deciding command is content: it succeeded, and gofmt listed no file. *)
Definition content (e : X * Cmd) : Prop :=
    succeeded e ∧ (Args e.2 = ["-l"; "."] → nonEmptyLines (output e) = []).

(** What a result says of the commands of its run: [pre] do not decide, [dec]
    do.  Without a deciding command the tool is missing, or nothing is to test. *)
Definition accounts (req : RunRequest) (x : X) (res : Result) (y : X) : Prop :=
    ∃ pre dec, traced x (pre ++ dec) y ∧ Forall (commanded req) (pre ++ dec) ∧ Forall (preliminary req) pre ∧
      Level res = RunRequest_Level req ∧
      ((dec = [] ∧ (Status res = StatusSkipped ∧ pre = [] ∧ RunRequest_Level req = LevelTargeted ∧
                      packagePatterns (WorkspacePath req) (ChangedFiles req) = []
                    ∨ Status res = StatusFailed ∧ Failures res ≠ []
                      ∧ (RunRequest_Level req = LevelSyntax ∨ RunRequest_Level req = LevelCompile)))
       ∨ (decides req ((λ e, Args e.2) <$> dec) ∧ String.length (SlicedOutput res) ≤ slicedOutputCap ∧
          ((Status res = StatusPassed ∧ Forall content dec)
           ∨ (Status res = StatusFailed ∧ Failures res ≠ [] ∧ ¬ Forall content dec)))).

Lemma verifyEnv_safe env : agent.AssertEnvSafe (verifyEnv env) = None.
Proof.
  apply agent.AssertEnvSafe_None. intros kv. unfold verifyEnv. rewrite !elem_of_app.
  intros [Hin|[Hin|Hin]].
  - revert kv Hin. apply agent.AssertEnvSafe_None, agent.EnvAllowlist_safe.
  - apply list_elem_of_omap in Hin as (k & Hk & Hkv). destruct (LookupEnv env k) as [v|]; [|done]. injection Hkv as <-.
    repeat (apply elem_of_cons in Hk as [->|Hk]; [done|]). by apply not_elem_of_nil in Hk.
  - apply list_elem_of_singleton in Hin as ->. done.
Qed.

Lemma sliceTail_capped out : String.length (sliceTail out) ≤ slicedOutputCap.
Proof.
  unfold sliceTail. destruct (slicedOutputCap <? _) eqn:Hc; [|apply Nat.ltb_ge in Hc; lia].
  apply Nat.ltb_lt in Hc. rewrite length_drop_bytes. lia.
Qed.

Lemma orMessage_nonempty l m : orMessage l m ≠ [].
Proof. unfold orMessage. destruct l; by case_bool_decide. Qed.

Lemma testFailures_nonempty e fs l m : testFailures (Some e) fs l m ≠ [].
Proof. destruct fs; [apply orMessage_nonempty|done]. Qed.

Lemma commanded_intro req name args x :
  (if bool_decide (args = ["-l"; "."]) then LookPath "gofmt" x = Ok name else name = goBin r) →
  commanded req (x, command r (WorkspacePath req) name args x).
Proof. intros Hn. split_and!; [done..|apply verifyEnv_safe|exact Hn]. Qed.

(** A result that one last command decides. *)
Lemma accounts_one req x pre x1 name args res y :
  let e := (x1, command r (WorkspacePath req) name args x1) in
  traced x (pre ++ [e]) y → Forall (commanded req) pre → Forall (preliminary req) pre →
  (if bool_decide (args = ["-l"; "."]) then LookPath "gofmt" x1 = Ok name else name = goBin r) →
  decides req [args] → Level res = RunRequest_Level req → String.length (SlicedOutput res) ≤ slicedOutputCap →
  Status res = StatusPassed ∧ content e ∨ Status res = StatusFailed ∧ Failures res ≠ [] ∧ ¬ content e →
  accounts req x res y.
Proof.
  intros e Htr Hcmd Hpre Hname Hd Hl Hcap Hst. exists pre, [e]. split; [done|].
  split; [apply Forall_app; split; [done|]; constructor; [by apply commanded_intro|constructor]|].
  do 2 (split; [done|]). right. do 2 (split; [done|]).
  destruct Hst as [[Hst Hc]|(Hst & Hf & Hc)]; [left|right]; (split; [done|]).
  - by constructor.
  - split; [done|]. intros Hall. by inversion Hall.
Qed.

(** What a command answered, as a fact about its trace entry. *)
Lemma content_plain x c out err x1 :
  RunCmd c x = ((out, err), x1) → Args c ≠ ["-l"; "."] → content (x, c) ↔ err = None.
Proof. intros Hr Ha. unfold content, succeeded, output. cbn [fst snd]. rewrite Hr. naive_solver. Qed.

Lemma traced_one x c out err x1 : RunCmd c x = ((out, err), x1) → traced x [(x, c)] x1.
Proof. intros Hr. constructor. rewrite Hr. constructor. Qed.

Lemma runSyntax_accounts req x :
  RetryPackages req = [] → RunRequest_Level req = LevelSyntax →
  accounts req x (runSyntax r req x).1 (runSyntax r req x).2.
Proof.
  intros Hr Hl. unfold runSyntax. destruct (LookPath "gofmt" x) as [gofmt|e] eqn:Hg; cbn [fst snd].
  2:{ exists [], []. split; [constructor|]. do 3 (split; [done|]). left. split; [done|]. right. cbn. naive_solver. }
  unfold runCmd. destruct (RunCmd _ x) as [[out err] x1] eqn:Hrun. cbn [fst snd].
  assert (content (x, command r (WorkspacePath req) gofmt ["-l"; "."] x) ↔ err = None ∧ nonEmptyLines out = []) as Hc.
  { unfold content, succeeded, output. cbn [fst snd]. rewrite Hrun. cbn. naive_solver. }
  eapply (accounts_one req x [] x gofmt ["-l"; "."]);
    [by eapply traced_one|constructor|constructor|done|by constructor|by (destruct err; [|destruct (nonEmptyLines out)])
    |(destruct err; [|destruct (nonEmptyLines out)]); apply sliceTail_capped|].
  rewrite Hc. destruct err; [right|destruct (nonEmptyLines out); [left|right]]; cbn; naive_solver.
Qed.

(** A command whose error alone decides. *)
Lemma accounts_error req x pre x1 args res y out err z :
  RunCmd (command r (WorkspacePath req) (goBin r) args x1) x1 = ((out, err), z) →
  traced x (pre ++ [(x1, command r (WorkspacePath req) (goBin r) args x1)]) y →
  Forall (commanded req) pre → Forall (preliminary req) pre → args ≠ ["-l"; "."] →
  decides req [args] → Level res = RunRequest_Level req → String.length (SlicedOutput res) ≤ slicedOutputCap →
  Status res = statusOf err → (err ≠ None → Failures res ≠ []) →
  accounts req x res y.
Proof.
  intros Hrun Htr Hcmd Hpre Hargs Hd Hl Hcap Hst Hf.
  eapply accounts_one; [exact Htr|exact Hcmd|exact Hpre|by rewrite bool_decide_false|exact Hd|exact Hl|exact Hcap|].
  rewrite (content_plain _ _ _ _ _ Hrun) by done. rewrite Hst. destruct err; cbn; naive_solver.
Qed.

Lemma build_accounts req x pre x1 args (k : X → X) :
  RetryPackages req = [] → RunRequest_Level req = LevelCompile →
  (∀ l z, traced x1 l z → traced x (pre ++ l) (k z)) →
  Forall (commanded req) pre → Forall (preliminary req) pre → args = [] ∨ (∃ d, args = ["-o"; d +:+ "/"]) →
  accounts req x (build r req (["build"] ++ args ++ ["./..."]) x1).1 (k (build r req (["build"] ++ args ++ ["./..."]) x1).2).
Proof.
  intros Hr Hl Htr Hcmd Hpre Hargs. unfold build, runCmd. destruct (RunCmd _ x1) as [[out err] z] eqn:Hrun. cbn [fst snd].
  eapply accounts_error; [exact Hrun|apply Htr; by eapply traced_one|done|done|done|by constructor|..].
  - by destruct err.
  - destruct err; apply sliceTail_capped.
  - by destruct err.
  - destruct err; [intros _; apply orMessage_nonempty|done].
Qed.

Lemma runCompile_accounts req x :
  RetryPackages req = [] → RunRequest_Level req = LevelCompile →
  accounts req x (runCompile r req x).1 (runCompile r req x).2.
Proof.
  intros Hr Hl. unfold runCompile, hasMainPackages, runCmd. destruct (RunCmd _ x) as [[out err] x1] eqn:Hrun.
  set (c := command r (WorkspacePath req) (goBin r) ["list"; "-e"; "-f"; mainProbe; "./..."] x) in *.
  assert (∀ l z, traced x1 l z → traced x ([(x, c)] ++ l) z) as Htr by (intros l z Hz; constructor; by rewrite Hrun).
  assert (Forall (commanded req) [(x, c)]) as Hcmd by (constructor; [by apply commanded_intro|constructor]).
  assert (Forall (preliminary req) [(x, c)]) as Hpre by (constructor; [by left|constructor]).
  destruct (match err with Some _ => _ | None => _ end).
  - destruct (MkdirTemp x1) as [[d|e] x2] eqn:Ht.
    + destruct (build r req _ x2) as [res z] eqn:Hb.
      pose proof (build_accounts req x [(x, c)] x2 ["-o"; d +:+ "/"] (RemoveAll d) Hr Hl) as Hacc.
      change (["build"] ++ ["-o"; d +:+ "/"] ++ ["./..."]) with ["build"; "-o"; d +:+ "/"; "./..."] in Hacc.
      rewrite Hb in Hacc. apply Hacc; [|done|done|right; by eexists].
      intros l w Hw. apply Htr. by eapply traced_temp.
    + exists [(x, c)], []. split; [apply Htr; eapply traced_no_temp; [done|constructor]|].
      rewrite app_nil_r. do 3 (split; [done|]). left. split; [done|]. right. cbn. naive_solver.
  - apply (build_accounts req x [(x, c)] x1 [] id Hr Hl); [done..|by left].
Qed.

Lemma runModule_accounts req x pre x1 full :
  (∀ l z, traced x1 l z → traced x (pre ++ l) z) → Forall (commanded req) pre → Forall (preliminary req) pre →
  decides req (moduleCommands full) →
  accounts req x (runModule r req full x1).1 (runModule r req full x1).2.
Proof.
  intros Htr Hcmd Hpre Hd. unfold runModule, runCmd.
  set (vet := command r (WorkspacePath req) (goBin r) ["vet"; "./..."] x1).
  destruct (RunCmd vet x1) as [[vetOut vetErr] x2] eqn:Hvet.
  set (args := ["test"; "-count=1"] ++ _).
  set (test := command r (WorkspacePath req) (goBin r) args x2).
  destruct (RunCmd test x2) as [[testOut testErr] x3] eqn:Htest.
  destruct (parseTestOutput (vetOut +:+ testOut)) as [c fs]. cbn [fst snd].
  exists pre, [(x1, vet); (x2, test)].
  split; [apply Htr; constructor; rewrite Hvet; by eapply traced_one|].
  split; [apply Forall_app; split; [done|]; repeat (constructor; [by apply commanded_intro|]); constructor|].
  split; [done|]. split; [by destruct vetErr, testErr|]. right.
  split; [exact Hd|]. split; [destruct vetErr, testErr; apply sliceTail_capped|].
  assert (Forall content [(x1, vet); (x2, test)] ↔ vetErr = None ∧ testErr = None) as ->.
  { rewrite !Forall_cons, Forall_nil, (content_plain _ _ _ _ _ Hvet), (content_plain _ _ _ _ _ Htest) by done. naive_solver. }
  destruct vetErr, testErr; [right|right|right|left]; cbn; (split; [done|]); [..|done];
    (split; [apply orMessage_nonempty|naive_solver]).
Qed.

Lemma runTargeted_accounts req x :
  RetryPackages req = [] → RunRequest_Level req = LevelTargeted →
  accounts req x (runTargeted r req x).1 (runTargeted r req x).2.
Proof.
  intros Hr Hl. unfold runTargeted.
  destruct (packagePatterns (WorkspacePath req) (ChangedFiles req)) as [|p ps] eqn:Hp.
  { exists [], []. split; [constructor|]. do 3 (split; [done|]). left. split; [done|]. by left. }
  rewrite <-Hp. unfold runCmd. set (args := ["test"; "-count=1"] ++ _).
  destruct (RunCmd _ x) as [[out err] x1] eqn:Hrun.
  assert (commanded req (x, command r (WorkspacePath req) (goBin r) args x)) as Hcmd by by apply commanded_intro.
  destruct (negb (bool_decide (err = None)) && isPackageResolutionError out) eqn:Hres.
  - apply andb_true_iff in Hres as [He Hres]. apply negb_true_iff, bool_decide_eq_false in He.
    apply (runModule_accounts req x [(x, command r (WorkspacePath req) (goBin r) args x)] x1 false).
    + intros l z Hz. constructor. by rewrite Hrun.
    + constructor; [done|constructor].
    + constructor; [|constructor]. right. split; [done|]. unfold succeeded, output. cbn [fst snd]. by rewrite Hrun.
    + constructor; [done|by right].
  - destruct (parseTestOutput out) as [c fs]. cbn [fst snd].
    eapply (accounts_error req x [] x args); [exact Hrun|by eapply traced_one|constructor|constructor|done
      |constructor; [done|done|by rewrite Hp]|done|apply sliceTail_capped|done|].
    destruct err; [intros _; apply testFailures_nonempty|done].
Qed.

Lemma runPackageRetry_accounts req x :
  RetryPackages req ≠ [] → accounts req x (runPackageRetry r req x).1 (runPackageRetry r req x).2.
Proof.
  intros Hr. unfold runPackageRetry, runCmd. set (args := ["test"; "-count=1"] ++ _).
  destruct (RunCmd _ x) as [[out err] x1] eqn:Hrun. destruct (parseTestOutput out) as [c fs]. cbn [fst snd].
  eapply (accounts_error req x [] x args); [exact Hrun|by eapply traced_one|constructor|constructor|done
    |by constructor|done|apply sliceTail_capped|done|].
  destruct err; [intros _; apply testFailures_nonempty|done].
Qed.

Lemma levelRunner_accounts req x f : levelRunner r req = Some f → accounts req x (f x).1 (f x).2.
Proof.
  unfold levelRunner. case_bool_decide as Hr; cbn [negb]; [|intros [= <-]; by apply runPackageRetry_accounts].
  destruct (RunRequest_Level req =? LevelSyntax)%Z eqn:H0;
    [apply Z.eqb_eq in H0; intros [= <-]; by apply runSyntax_accounts|].
  destruct (RunRequest_Level req =? LevelCompile)%Z eqn:H1;
    [apply Z.eqb_eq in H1; intros [= <-]; by apply runCompile_accounts|].
  destruct (RunRequest_Level req =? LevelTargeted)%Z eqn:H2;
    [apply Z.eqb_eq in H2; intros [= <-]; by apply runTargeted_accounts|].
  destruct ((_ =? LevelModule) || (_ =? LevelFull))%Z eqn:H3; [|done]. intros [= <-].
  apply (runModule_accounts req x []); [done..|]. constructor; [done|]. left.
  apply orb_true_iff in H3. destruct (_ =? LevelFull)%Z eqn:H4.
  - by apply Z.eqb_eq in H4.
  - destruct H3 as [H3%Z.eqb_eq|?]; done.
Qed.

Lemma accounts_withDuration req x res y d : accounts req x res y → accounts req x (withDuration d res) y.
Proof. done. Qed.

(** C37: the verdict of a verification command, for every machine.  A request is
    refused only without a workspace or at an unknown level.  Every other one
    ran exactly the commands of its level, each in the workspace, with the
    timeout, and with an environment without a secret; nothing was removed but
    the temporary directory the run made.  The result is PASSED exactly when all
    of the deciding commands were content; a FAILED one names a failure, and
    keeps at most 8 KiB of output; SKIPPED means that no changed file is a Go
    file, and that nothing ran. *)
Theorem Run_verdict req x :
  match Run r req x with
  | (Err _, y) => y = x ∧ (WorkspacePath req = "" ∨
      RetryPackages req = [] ∧ ¬ (LevelSyntax ≤ RunRequest_Level req ≤ LevelFull)%Z)
  | (Ok res, y) => WorkspacePath req ≠ "" ∧ accounts req x res y
  end.
Proof.
  unfold Run. case_bool_decide as Hw; [by split; [|left]|].
  destruct (levelRunner r req) as [f|] eqn:Hf.
  - destruct (f x) as [res y] eqn:Hfx. split; [done|]. apply accounts_withDuration.
    by rewrite <-(f_equal fst Hfx : (f x).1 = res), <-(f_equal snd Hfx : (f x).2 = y) at 1; apply levelRunner_accounts.
  - split; [done|]. right. revert Hf. unfold levelRunner. case_bool_decide as Hr; [|done]. cbn [negb].
    destruct (_ =? LevelSyntax)%Z eqn:H0; [done|]. destruct (_ =? LevelCompile)%Z eqn:H1; [done|].
    destruct (_ =? LevelTargeted)%Z eqn:H2; [done|]. destruct (_ =? LevelModule)%Z eqn:H3; [done|].
    destruct (_ =? LevelFull)%Z eqn:H4; [done|]. intros _. split; [done|].
    unfold LevelSyntax, LevelCompile, LevelTargeted, LevelModule, LevelFull in *. lia.
Qed.
End trace.
(** ** What the output is read as *)

Lemma scanLine_inv st line :
  failed (counts st) = Z.of_nat (length (failures st)) → Forall (λ f, Package f = "") (failures st) →
  failed (counts (scanLine st line)) = Z.of_nat (length (failures (scanLine st line)))
  ∧ Forall (λ f, Package f = "") (failures (scanLine st line)).
Proof.
  intros Hf Hp. unfold scanLine. destruct st as [[p f s] fs pkgs]; cbn [counts failures failPkgs] in *. cbn in Hf.
  destruct (strs.HasPrefix line passTestStr); [by split|].
  destruct (failTestRe line) as [name|].
  { cbn. rewrite length_app, Forall_app. cbn. split; [lia|]. split; [done|]. by repeat constructor. }
  destruct (skipTestRe line); [by split|]. destruct (failPkgRe line); [by split|].
  destruct (testLocRe line) as [[[file l] msg]|]; [|by split]. cbn. clear p s pkgs. rewrite Hf. clear Hf.
  induction fs as [|x fs IH]; [by split|]. apply Forall_cons in Hp as [Hx Hp].
  destruct fs as [|y fs].
  - split; [done|]. repeat constructor. unfold located. by case_bool_decide.
  - destruct (IH Hp) as [Hl Hq]. cbn [onLast length] in *. split; [lia|]. by constructor.
Qed.

(** The counts agree with the failures, and all failures are of one package:
    the only one that failed, or none. *)
Lemma parseTestOutput_sound out :
  let '(c, fs) := parseTestOutput out in
  (fs ≠ [] → failed c = Z.of_nat (length fs)) ∧ ∃ pkg, Forall (λ f, Package f = pkg) fs.
Proof.
  unfold parseTestOutput.
  assert (let st := foldl scanLine zeroScan (strs.SplitLines out) in
          failed (counts st) = Z.of_nat (length (failures st)) ∧ Forall (λ f, Package f = "") (failures st)) as [Hf Hp].
  { cbv zeta. generalize (strs.SplitLines out). intros l. induction l as [|x l IH] using rev_ind; [by split; [|constructor]|].
    rewrite foldl_app. cbn [foldl]. destruct IH. by apply scanLine_inv. }
  destruct (foldl scanLine zeroScan (strs.SplitLines out)) as [c fs pkgs]. cbn [counts failures failPkgs] in *. cbn in Hf, Hp.
  assert (length (attach pkgs fs) = length fs) as Hlen by (by destruct pkgs as [|? [|]]; cbn; rewrite ?length_fmap).
  split.
  - intros Hne. assert (length fs ≠ 0) as Hz by (rewrite <-Hlen; by destruct (attach pkgs fs)).
    rewrite (proj2 (Z.eqb_neq (failed c) 0)) by lia. rewrite andb_false_r. cbn. lia.
  - destruct pkgs as [|p [|q pkgs]]; [by exists ""|exists p|by exists ""]. cbn. rewrite Forall_fmap.
    eapply Forall_impl; [exact Hp|]. intros f Hx. cbn. by rewrite Hx.
Qed.

(** ** Where the runner does more than it says *)

(** A machine that only remembers the commands it was given, and answers by their
    arguments. *)
Record Machine := mkMachine { respond : list string → string * option string; commands : list (list string) }.
#[global] Instance machine : Exec Machine := {
  LookPath n m := Ok ("/bin/" +:+ n);
  RunCmd c m := (respond m (Args c), mkMachine (respond m) (commands m ++ [Args c]));
  MkdirTemp m := (Ok "/tmp/b", m);
  RemoveAll d m := m;
  Environ m := ["PATH=/bin"; "GITHUB_TOKEN=s"; "GOCACHE=/c"];
  Now m := 0%Z }.

Definition demoRunner : ShellRunner := NewShellRunner (mkShellRunnerOptions 0 "" true).
Definition demoRequest (l : Z) : RunRequest := mkRunRequest l "/w" ["a/b.go"; "README.md"; "/w/c/d.go"; "a/e.go"] "" [].
Definition testLog : string :=
  strs.Join ["--- FAIL: TestX (0.00s)"; String strs.tab "x_test.go:12: got 3"; "FAIL"; "FAIL" +:+ String strs.tab "m/a 0.1s";
             "ok  " +:+ String strs.tab "m/b 0.2s"; ""] (String strs.nl "").

Example parse_log :
  parseTestOutput testLog = (mkTestCounts 0 1 0, [mkTestFailure "TestX" "m/a" "got 3" "x_test.go" 12]).
Proof. vm_compute. reflexivity. Qed.

Example run_levels :
  let failing args := if bool_decide (head args = Some "test") then (testLog, Some "exit status 1") else ("", None) in
  let '(res, m) := Run demoRunner (demoRequest LevelTargeted) (mkMachine failing []) in
  (match res with Ok res => Status res = StatusFailed | Err _ => False end) ∧ commands m = [["test"; "-count=1"; "./a/..."; "./c/..."]] ∧
  (Run demoRunner (demoRequest LevelFull) (mkMachine (λ _, ("", None)) [])).2.(commands)
    = [["vet"; "./..."]; ["test"; "-count=1"; "-race"; "./..."]].
Proof. vm_compute. by repeat split. Qed.

(** The re-run of a package is documented to be of exactly that package; the
    pattern takes every package below it, and for the package at the root of the
    module the whole suite.  So does a changed file at the root, for the level
    that is to test changed packages only. *)
Lemma retry_takes_subpackages :
  let req := mkRunRequest LevelModule "/w" [] "" ["m"] in
  (Run demoRunner req (mkMachine (λ _, ("", None)) [])).2.(commands) = [["test"; "-count=1"; "m/..."]].
Proof. vm_compute. by repeat split. Qed.
Lemma root_file_targets_everything : packagePatterns "/w" ["main.go"] = ["./..."].
Proof. vm_compute. by repeat split. Qed.

(** An absolute path outside the workspace is not tested; a relative one is, and a
    directory whose name begins with two dots counts as outside. *)
Lemma relative_path_leaves_workspace :
  packagePatterns "/w" ["../x/a.go"; "/w/..b/a.go"; "/x/a.go"] = ["./../x/..."].
Proof. vm_compute. by repeat split. Qed.

(** The workspace is documented as never mutated; when the search for main
    packages fails, the build runs without an output directory. *)
Lemma failed_probe_builds_in_place :
  let probe args := if bool_decide (head args = Some "list") then ("", Some "signal: killed") else ("", None) in
  (Run demoRunner (demoRequest LevelCompile) (mkMachine probe [])).2.(commands)
    = [["list"; "-e"; "-f"; mainProbe; "./..."]; ["build"; "./..."]].
Proof. vm_compute. by repeat split. Qed.

(** The line number of a diagnostic wraps around. *)
Lemma line_number_wraps : atoi "9223372036854775808" = (- 2 ^ 63)%Z.
Proof. vm_compute. by repeat split. Qed.

(** The engine of [TestEngine.v] hands its runner no workspace, so over this runner
    it verifies nothing: it fails at the first level, for every input. *)
Lemma engine_gives_no_workspace `{Exec X} r i (x : X) :
  testsEnabled (policy.Resolved_Pipeline (VerifyInput_Policy i)) = true → (0 ≤ maxLevelOf i)%Z →
  Verify (Run r) i x =
    ((zeroSummary, Some "testengine: level syntax: testengine: shell runner requires WorkspacePath"), x).
Proof.
  intros He Hm. unfold Verify. rewrite He. cbn [negb]. unfold levelsUpTo.
  replace (Z.to_nat (maxLevelOf i + 1)) with (S (Z.to_nat (maxLevelOf i))) by lia. reflexivity.
Qed.
End shell.
