(* ===== verification/Failover.v ===== *)
(** * Failover: bounded recovery across a chain of routes

    Models [internal/supervisor/recovery.go] (the recovery classifier),
    [resume.go], [pack.go] (continuation packs) and [failover.go] (the failover
    controller) over the supervised runs of Agent.v.

    The hooks of the controller (workspace, quota, the pack's storage) are
    records of functions on the state [W] the agents share; each may fail.  The
    jitter of a cooldown, a product of floats in the code, is a function of the
    world.  [MkdirAll], [WriteFile] and the JSON encoding of a pack are
    operations of the storage record. *)
From S2P Require Import Prelude AuditTrail Agent.
Import agent.

Module failover.

(** ** recovery.go *)

Inductive RecoveryAction :=
| ActionRetry | ActionFailover | ActionWaitQuota | ActionQuarantine | ActionTerminal | ActionPause.
#[global] Instance RecoveryAction_eq_dec : EqDecision RecoveryAction.
Proof. solve_decision. Defined.

Definition RecoveryAction_String (a : RecoveryAction) : string :=
  match a with
  | ActionRetry => "retry"
  | ActionFailover => "failover"
  | ActionWaitQuota => "wait_quota"
  | ActionQuarantine => "quarantine"
  | ActionTerminal => "terminal"
  | ActionPause => "pause"
  end.

Record RecoveryDecision := mkRecoveryDecision {
  Action : RecoveryAction;
  Cooldown : Duration;
  AttemptsUsed : Z;
  AttemptsMax : Z;
  Decision_FailureClass : FailureClass;
  Decision_Reason : string }.

Record Route := mkRoute { Route_Engine : string; Route_Model : string; Route_Account : string }.
#[global] Instance Route_eq_dec : EqDecision Route.
Proof. solve_decision. Defined.

Record RecoveryInput := mkRecoveryInput {
  Input_Failure : FailureClassification;
  Input_AttemptsUsed : Z;
  FallbacksAvailable : bool;
  AnyRouteAvailable : bool }.

Definition isQuotaWaitable (c : FailureClass) : bool :=
  match c with
  | FailureProviderQuota | FailureProviderRateLimit | FailureProviderCapacity => true
  | _ => false
  end.

Definition cooldown (jitter : Duration → Duration) (pol : FailureClassification) : Duration :=
  let base := (CooldownSeconds pol * time.Second)%Z in
  let base := if (base <=? 0)%Z then time.Second else base in
  (base + jitter base)%Z.

(** A same-route retry of [Classify]. *)
Definition retryDecision (jitter : Duration → Duration) (pol : FailureClassification)
    (used max : Z) (reason : string) : RecoveryDecision :=
  mkRecoveryDecision ActionRetry (cooldown jitter pol) (used + 1) max (Class_ pol) reason.

Definition Classify (jitter : Duration → Duration) (i : RecoveryInput) : RecoveryDecision :=
  let pol := Input_Failure i in
  let to action reason := mkRecoveryDecision action 0 0 0 (Class_ pol) reason in
  if negb (FailureClass_IsValid (Class_ pol)) then
    mkRecoveryDecision ActionTerminal 0 0 0 FailureInternalError
      "unclassified failure; treated as terminal for safety"
  else
    let maxAttempts := if (MaxRetries pol <? 0)%Z then 0%Z else MaxRetries pol in
    match Policy pol with
    | PolicyFailover =>
        if FallbacksAvailable i then to ActionFailover (Reason pol)
        else if isQuotaWaitable (Class_ pol) && negb (AnyRouteAvailable i) then
          to ActionWaitQuota "all routes quota-exhausted; parked in WAITING_QUOTA until reset"
        else to ActionQuarantine "no fallback route available and failure is not quota-waitable; quarantined"
    | PolicyRetry | PolicyCooldown =>
        if (Input_AttemptsUsed i <? maxAttempts)%Z then
          retryDecision jitter pol (Input_AttemptsUsed i) maxAttempts
            "transient failure; bounded retry on same route after cooldown"
        else if FallbacksAvailable i then
          to ActionFailover "same-route retry budget exhausted; failover to fallback route"
        else if isQuotaWaitable (Class_ pol) && negb (AnyRouteAvailable i) then
          to ActionWaitQuota "retries exhausted and all routes quota-exhausted; WAITING_QUOTA"
        else to ActionQuarantine "retries exhausted with no fallback; quarantined for human review"
    | PolicyQuarantine =>
        if (Input_AttemptsUsed i <? maxAttempts)%Z then
          retryDecision jitter pol (Input_AttemptsUsed i) maxAttempts
            "protocol error; one bounded retry then quarantine"
        else to ActionQuarantine "protocol error persists; adapter quarantined"
    | PolicyTerminal => to ActionTerminal (Reason pol)
    | PolicyPause => to ActionPause (Reason pol)
    | PolicyEscalation =>
        if FallbacksAvailable i then
          to ActionFailover "escalation: failover to a stronger fallback route"
        else to ActionQuarantine "escalation requested but no stronger route available; quarantined"
    | PolicyOther _ => to ActionTerminal "unmapped failure policy; treated as terminal for safety"
    end.

(** ** resume.go *)

Inductive ResumeChoice := ResumeSession | CleanRestart.
#[global] Instance ResumeChoice_eq_dec : EqDecision ResumeChoice.
Proof. solve_decision. Defined.

Record ResumeDecision := mkResumeDecision {
  Choice : ResumeChoice; Resume_Reason : string; OnRoute : Route }.

Record ResumeInput := mkResumeInput {
  Resume_Decision : RecoveryDecision;
  Resume_CanResume : bool;
  Fallback : Route;
  CurrentRoute : Route }.

Definition Decide (i : ResumeInput) : ResumeDecision :=
  match Action (Resume_Decision i) with
  | ActionFailover =>
      if bool_decide (Route_Engine (Fallback i) = "") then
        mkResumeDecision CleanRestart
          "failover requested but no fallback route; will re-enter selection" (CurrentRoute i)
      else mkResumeDecision CleanRestart
          "provider-side failure; clean restart on fallback route with continuation pack" (Fallback i)
  | ActionRetry =>
      if Resume_CanResume i then
        mkResumeDecision ResumeSession
          "transient failure; resuming provider session after cooldown" (CurrentRoute i)
      else mkResumeDecision CleanRestart
          "transient failure but engine cannot resume; clean restart from checkpoint on same route"
          (CurrentRoute i)
  | _ => mkResumeDecision CleanRestart
           "no retry/failover; decision is terminal or requires human action" (CurrentRoute i)
  end.

Definition CanResume (sessionResume : bool) (sessionID checkpointPath : string) : bool :=
  sessionResume && negb (bool_decide (sessionID = "")) && negb (bool_decide (checkpointPath = "")).

(** ** pack.go *)

Inductive VerificationStatus :=
| VerificationPassed | VerificationFailed | VerificationSkipped
| VerificationOther (s : string).
#[global] Instance VerificationStatus_eq_dec : EqDecision VerificationStatus.
Proof. solve_decision. Defined.
Definition VerificationStatus_String (s : VerificationStatus) : string :=
  match s with
  | VerificationPassed => "passed"
  | VerificationFailed => "failed"
  | VerificationSkipped => "skipped"
  | VerificationOther s => s
  end.

Record ContinuationPack := mkContinuationPack {
  WorkPackageID : string;
  SpecificationHash : string;
  BaseSHA : string;
  CurrentSHA : string;
  Completed : list string;
  Remaining : list string;
  ChangesPatch : string;
  Failures : list string;
  NextObjective : string;
  Verification : option (gmap string VerificationStatus);
  OriginEngine : string }.

(** The loop of [dedupeSorted]: the first of each non-empty string. *)
Fixpoint dedupe (seen l : list string) : list string :=
  match l with
  | [] => []
  | s :: l => if bool_decide (s = "") || bool_decide (s ∈ seen) then dedupe seen l
              else s :: dedupe (s :: seen) l
  end.
Definition dedupeSorted (l : list string) : list string := sortStrings (dedupe [] l).

(** What [BuildPackFromRun] takes from one event: completed items, and the
    failure class (the last one wins). *)
Definition packEvent (acc : list string * string) (ev : NormalizedEvent) : list string * string :=
  match Type_ ev with
  | EventCheckpointCreated =>
      match Checkpoint ev with
      | Some c => (acc.1 ++ ["checkpoint:" +:+ Checkpoint_Reason c], acc.2)
      | None => acc
      end
  | EventFileChanged =>
      match FileChange ev with
      | Some c => if InScope c then (acc.1 ++ ["edit:" +:+ FileChange_Path c], acc.2) else acc
      | None => acc
      end
  | EventRunFailed =>
      match Failure ev with
      | Some p => (acc.1, FailureClass_String (Failure_Class p))
      | None => acc
      end
  | _ => acc
  end.

Definition BuildPackFromRun (workspaceID workPackageID baseSHA headSHA specHash : string)
    (r : RunResult) : ContinuationPack :=
  let '(completed, failedClass) := foldl packEvent ([], "") (Events r) in
  mkContinuationPack workPackageID specHash baseSHA headSHA (dedupeSorted completed)
    (if Failed r then ["complete-the-objective"] else []) ""
    (dedupeSorted (if bool_decide (failedClass = "") then [] else [failedClass]))
    "Continue from the current checkpoint; do not redo completed steps."
    None (Handle_Engine (Handle r)).

Definition orElse (s d : string) : string := if bool_decide (s = "") then d else s.

Definition MergePacks (prior latest : ContinuationPack) : ContinuationPack :=
  mkContinuationPack (WorkPackageID latest)
    (orElse (SpecificationHash latest) (SpecificationHash prior))
    (orElse (BaseSHA latest) (BaseSHA prior))
    (CurrentSHA latest)
    (dedupeSorted (Completed prior ++ Completed latest))
    (dedupeSorted (Remaining latest))
    (ChangesPatch latest)
    (dedupeSorted (Failures prior ++ Failures latest))
    (orElse (NextObjective latest) (NextObjective prior))
    (match Verification latest with Some v => Some v | None => Verification prior end)
    (orElse (OriginEngine latest) (OriginEngine prior)).

Definition nl : string := String (ascii_of_nat 10) EmptyString.

Definition listSection (title : string) (l : list string) : string :=
  match l with
  | [] => ""
  | _ => nl +:+ title +:+ nl +:+ foldr (λ s acc, "  - " +:+ s +:+ nl +:+ acc) "" l
  end.

Definition RenderFallbackPrompt (p : ContinuationPack) : string :=
  let opt (b : bool) (s : string) := if b then s else "" in
  "You are continuing a task that was interrupted on a different coding engine." +:+ nl +:+
  "Do NOT redo work that is already marked completed. Pick up from the current state." +:+ nl +:+ nl +:+
  opt (negb (bool_decide (NextObjective p = "")))
    ("Objective:" +:+ nl +:+ NextObjective p +:+ nl +:+ nl) +:+
  "Work package: " +:+ WorkPackageID p +:+ nl +:+
  opt (negb (bool_decide (BaseSHA p = "")) || negb (bool_decide (CurrentSHA p = "")))
    ("Base SHA: " +:+ BaseSHA p +:+ nl +:+ "Current SHA: " +:+ CurrentSHA p +:+ nl) +:+
  opt (negb (bool_decide (OriginEngine p = "")))
    ("Prior engine: " +:+ OriginEngine p +:+ " (failed; do not rely on its transcript)" +:+ nl) +:+
  listSection "Already completed (do not repeat):" (Completed p) +:+
  listSection "Remaining:" (Remaining p) +:+
  listSection "Failures that triggered the switch:" (Failures p) +:+
  match Verification p with
  | Some m => listSection "Verification so far:"
      ((λ k, k +:+ ": " +:+ default "" (VerificationStatus_String <$> (m !! k))) <$>
         sortStrings (map_to_list m).*1)
  | None => ""
  end +:+
  opt (negb (bool_decide (ChangesPatch p = "")))
    (nl +:+ "Current changes are captured in the workspace checkpoint; review the diff there." +:+ nl).

Definition firstLine (s : string) : string := strs.CutBefore s (ascii_of_nat 10).

Definition remainingObjective (originalPrompt : string) (prior : option ContinuationPack) : list string :=
  dedupeSorted
    (["complete-the-objective"] ++ match prior with Some p => Remaining p | None => [] end
     ++ (if bool_decide (originalPrompt = "") then [] else ["objective: " +:+ firstLine originalPrompt])).

Definition truncPrompt (p : string) : string :=
  if String.length p <=? 160 then p else strs.take_bytes 160 p +:+ strs.bytes [226; 128; 166].

(** ** failover.go *)

Record FailoverPlan := mkFailoverPlan {
  WorkspaceID : string;
  WorkspacePath : string;
  Primary : Route;
  Fallbacks : list Route;
  Plan_Prompt : string;
  Plan_Scope : list string;
  Plan_TurnLimit : Z;
  Plan_Timeout : Duration;
  SpecHash : string;
  Plan_BaseSHA : string;
  ArtifactsDir : string;
  MaxFailoverHops : Z }.

(** The [Failure] pointer of an attempt: to a classification of its own, or,
    for a run that failed to start, to the variable [lastFailure] of the loop,
    which later iterations overwrite. *)
Inductive FailurePtr := OwnFailure (fc : FailureClassification) | LastFailure.

Record AttemptRecord := mkAttemptRecord {
  Attempt_Route : Route;
  Attempt_Outcome : string;
  Attempt_Failure : option FailurePtr;
  Attempt_Action : option RecoveryAction;
  Attempt_Cooldown : Duration;
  Resumed : bool;
  PromptUsed : string }.

Record FailoverOutcome := mkFailoverOutcome {
  Success : bool;
  FinalResult : option RunResult;
  Attempts : list AttemptRecord;
  ParkedWaitingQuota : bool;
  Quarantined : bool;
  TerminalFailure : option FailureClassification;
  PacksWritten : Z }.

Definition zeroOutcome : FailoverOutcome := mkFailoverOutcome false None [] false false None 0.

Definition addAttempt (a : AttemptRecord) (o : FailoverOutcome) : FailoverOutcome :=
  mkFailoverOutcome (Success o) (FinalResult o) (Attempts o ++ [a]) (ParkedWaitingQuota o)
    (Quarantined o) (TerminalFailure o) (PacksWritten o).
Definition addPack (o : FailoverOutcome) : FailoverOutcome :=
  mkFailoverOutcome (Success o) (FinalResult o) (Attempts o) (ParkedWaitingQuota o)
    (Quarantined o) (TerminalFailure o) (PacksWritten o + 1).
Definition succeed (r : RunResult) (o : FailoverOutcome) : FailoverOutcome :=
  mkFailoverOutcome true (Some r) (Attempts o) (ParkedWaitingQuota o)
    (Quarantined o) (TerminalFailure o) (PacksWritten o).
Definition setFlags (parked quarantined : bool) (tf : option FailureClassification)
    (o : FailoverOutcome) : FailoverOutcome :=
  mkFailoverOutcome (Success o) (FinalResult o) (Attempts o) parked quarantined tf (PacksWritten o).

(** A Go call that may also panic; [last] is what [lastFailure] holds when it
    returns. *)
Inductive Ret :=
| Returned (out : FailoverOutcome) (err : option string) (last : FailureClassification)
| Panicked.

(** What the failure pointer of an attempt reads after the return. *)
Definition AttemptFailure (last : FailureClassification) (a : AttemptRecord) :
    option FailureClassification :=
  match Attempt_Failure a with
  | Some (OwnFailure fc) => Some fc
  | Some LastFailure => Some last
  | None => None
  end.

Definition zeroClassification : FailureClassification :=
  mkFailureClassification (FailureClassOther "") (PolicyOther "") false false 0 0 "" 0.

Section controller.
  Context {W : Type}.
  Notation St := (agent.St W).

Record WorkspaceHook := mkWorkspaceHook {
  Checkpoint_ : string → string → string → W → (string * option string) * W;
  SetState : string → string → W → option string * W;
  HeadSHA : string → W → (string * option string) * W }.

Record QuotaHook := mkQuotaHook {
  IsAvailable : string → string → W → bool;
  RecordFailure : string → string → FailureClass → W → W;
  RecordSuccess : string → string → W → W }.

(** The row [storage.CreateContinuationPack] stores. *)
Record PackRow := mkPackRow {
  Row_WorkspaceID : string; Row_FilePath : string; Row_SpecificationHash : string;
  Row_BaseSHA : string; Row_CurrentSHA : string }.

Record PackStorage := mkPackStorage {
  MkdirAll : string → W → option string * W;
  WriteFile : string → string → W → option string * W;
  CreateContinuationPack : PackRow → W → option string * W;
  MarshalPack : ContinuationPack → string;
  timestamp : W → string }.

Record FailoverController := mkFailoverController {
  sup : option (Supervisor W);
  jitter : W → Duration → Duration;
  quota : option QuotaHook;
  hook : option WorkspaceHook;
  storage : option PackStorage;
  controller_audit : option audit.Recorder;
  sleep : Duration → W → W }.

Definition setWorld (w : W) (st : St) : St := mkSt w (trail st).

Definition auditTask (f : FailoverController) (type_ workspaceID : string)
    (payload : list (string * audit.Val)) (st : St) : St :=
  match controller_audit f with
  | None => st
  | Some r => mkSt (world st)
      (audit.Record_ r (audit.mkEvent type_ audit.ScopeTask workspaceID audit.ActorDaemon
                 (Some (audit.Payload payload)) 0) (trail st)).2
  end.

(** [WriteContinuationPack]. *)
Definition WriteContinuationPack (f : FailoverController) (s : PackStorage)
    (workspaceID artifactsDir : string) (pack : ContinuationPack) (st : St) : result string string * St :=
  let '(err, w) := MkdirAll s artifactsDir (world st) in
  match err with
  | Some e => (Err ("supervisor: mkdir artifacts: " +:+ e), setWorld w st)
  | None =>
      let path := artifactsDir +:+ "/" +:+ "pack-" +:+ workspaceID +:+ "-" +:+ timestamp s w +:+ ".json" in
      let '(err, w) := WriteFile s path (MarshalPack s pack) w in
      match err with
      | Some e => (Err ("supervisor: write pack: " +:+ e), setWorld w st)
      | None =>
          let '(err, w) := CreateContinuationPack s
            (mkPackRow workspaceID path (SpecificationHash pack) (BaseSHA pack) (CurrentSHA pack)) w in
          match err with
          | Some e => (Err ("supervisor: persist pack record: " +:+ e), setWorld w st)
          | None => (Ok path, auditTask f "agent.continuation_pack_written" workspaceID
              [("path", audit.VString path); ("base_sha", audit.VString (BaseSHA pack));
               ("current_sha", audit.VString (CurrentSHA pack))] (setWorld w st))
          end
      end
  end.

Definition setState (f : FailoverController) (plan : FailoverPlan) (state : string) (st : St) : St :=
  match hook f with
  | None => st
  | Some h => setWorld (SetState h (WorkspaceID plan) state (world st)).2 st
  end.

Definition auditFailoverDecision (f : FailoverController) (plan : FailoverPlan) (event : string)
    (d : RecoveryDecision) (st : St) : St :=
  auditTask f event (WorkspaceID plan)
    [("action", audit.VString (RecoveryAction_String (Action d)));
     ("failure_class", audit.VString (FailureClass_String (Decision_FailureClass d)));
     ("reason", audit.VString (Decision_Reason d));
     ("attempts_used", audit.VInt (AttemptsUsed d));
     ("attempts_max", audit.VInt (AttemptsMax d))] st.

Definition stop (f : FailoverController) (plan : FailoverPlan) (out : FailoverOutcome)
    (d : RecoveryDecision) (st : St) : FailoverOutcome * St :=
  match Action d with
  | ActionWaitQuota =>
      (setFlags true (Quarantined out) (TerminalFailure out) out,
       auditFailoverDecision f plan "failover.waiting_quota" d (setState f plan "waiting_quota" st))
  | ActionQuarantine =>
      (setFlags (ParkedWaitingQuota out) true (TerminalFailure out) out,
       auditFailoverDecision f plan "failover.quarantined" d (setState f plan "quarantined" st))
  | ActionTerminal =>
      (out, auditFailoverDecision f plan "failover.terminal" d (setState f plan "failed" st))
  | ActionPause =>
      (out, auditFailoverDecision f plan "failover.paused" d (setState f plan "failed" st))
  | ActionRetry | ActionFailover =>
      (out, auditFailoverDecision f plan "failover.exhausted" d st)
  end.

Definition classify (r : RunResult) : FailureClassification :=
  match Failure (Outcome r) with
  | Some p =>
      let fc := DefaultPolicy (Failure_Class p) in
      mkFailureClassification (Class_ fc) (Policy fc) (Retryable fc) (Failover fc)
        (MaxRetries fc) (CooldownSeconds fc) (Failure_Reason p) (Failure_ExitCode p)
  | None => DefaultPolicy (if Cancelled r then FailureCancelled else FailureInternalError)
  end.

Definition anyRouteAvailable (f : FailoverController) (chain : list Route) (w : W) : bool :=
  match quota f with
  | None => true
  | Some q => existsb (λ r, IsAvailable q (Route_Engine r) (Route_Account r) w) chain
  end.

Definition failOutcome (r : RunResult) : string :=
  if Failed r then "failed" else if Cancelled r then "cancelled" else "completed".

(** The variables of the loop of [Run]. *)
Record Loop := mkLoop {
  routeIdx : nat;
  attemptsOnRoute : Z;
  lastFailure : FailureClassification;
  accumulatedPack : option ContinuationPack;
  out_ : FailoverOutcome }.

(** The checkpoint and the continuation pack on a provider-side failure;
    [None] is the nil dereference of a controller that has storage and no
    workspace hook. *)
Definition handOver (f : FailoverController) (plan : FailoverPlan) (result : RunResult)
    (pack : option ContinuationPack) (out : FailoverOutcome) (st : St) :
    option (option ContinuationPack * FailoverOutcome) * St :=
  let '(pack, st) :=
    match hook f with
    | None => (pack, st)
    | Some h =>
        let '(_, w) := Checkpoint_ h (WorkspaceID plan) "pre-quota-switch"
                         "checkpoint before provider failover (§21.3)" (world st) in
        let '((headSHA, _), w) := HeadSHA h (WorkspaceID plan) w in
        let p := BuildPackFromRun (WorkspaceID plan) (WorkspaceID plan) (Plan_BaseSHA plan) headSHA
                   (SpecHash plan) result in
        let p := mkContinuationPack (WorkPackageID p) (SpecificationHash p) (BaseSHA p) (CurrentSHA p)
                   (Completed p) (remainingObjective (Plan_Prompt plan) pack) (ChangesPatch p)
                   (Failures p) (NextObjective p) (Verification p) (OriginEngine p) in
        (Some (match pack with Some prior => MergePacks prior p | None => p end),
         setState f plan "active" (setWorld w st))
    end in
  match storage f with
  | None => (Some (pack, out), st)
  | Some s =>
      match pack with
      | None => (None, st)
      | Some p =>
          let '(written, st) := WriteContinuationPack f s (WorkspaceID plan) (ArtifactsDir plan) p st in
          (Some (pack, if is_ok written then addPack out else out), st)
      end
  end.

Definition maxHops (plan : FailoverPlan) : Z :=
  if (MaxFailoverHops plan =? 0)%Z then Z.of_nat (length (Fallbacks plan)) else MaxFailoverHops plan.

Definition chain (plan : FailoverPlan) : list Route := Primary plan :: Fallbacks plan.

(** One iteration of the loop of [Run]: go on, or return. *)
Definition iterate (f : FailoverController) (s : Supervisor W) (cancelled : W → bool) (plan : FailoverPlan)
    (route : Route) (l : Loop) (st : St) : (Loop + Ret) * St :=
  if cancelled (world st) then (inr (Returned (out_ l) (Some "context canceled") (lastFailure l)), st)
  else
    let prompt := match accumulatedPack l with Some p => RenderFallbackPrompt p | None => Plan_Prompt plan end in
    let '(run, st) := Run s (mkRunRequest (WorkspaceID plan) (Route_Engine route) (Route_Model route) prompt
                          (Plan_Scope plan) (Plan_TurnLimit plan) (Plan_Timeout plan))
                          (WorkspacePath plan) st in
    match run with
    | Err e =>
        let fc := mkFailureClassification FailureInternalError PolicyRetry false false 0 0
                    ("run failed to start: " +:+ e) 0 in
        let out := addAttempt (mkAttemptRecord route "failed" (Some LastFailure) (Some ActionFailover) 0 false
                                 (truncPrompt prompt)) (out_ l) in
        let d := Classify (jitter f (world st)) (mkRecoveryInput fc (attemptsOnRoute l)
                   (bool_decide (S (routeIdx l) < length (chain plan)))
                   (anyRouteAvailable f (chain plan) (world st))) in
        if bool_decide (Action d = ActionFailover) then
          (inl (mkLoop (S (routeIdx l)) 0 fc (accumulatedPack l) out), st)
        else let '(out, st) := stop f plan out d st in (inr (Returned out None fc), st)
    | Ok result =>
        if negb (Failed result) && negb (Cancelled result) then
          let st := match quota f with
                    | Some q => setWorld (RecordSuccess q (Route_Engine route) (Route_Account route) (world st)) st
                    | None => st end in
          let out := addAttempt (mkAttemptRecord route "completed" None None 0 false (truncPrompt prompt))
                       (succeed result (out_ l)) in
          (inr (Returned out None (lastFailure l)),
           auditTask f "failover.completed" (WorkspaceID plan)
             [("engine", audit.VString (Route_Engine route)); ("model", audit.VString (Route_Model route));
              ("attempts", audit.VInt (Z.of_nat (length (Attempts out))))] st)
        else
          let fc := classify result in
          let st := match quota f with
                    | Some q => if FailureClass_IsValid (Class_ fc)
                                then setWorld (RecordFailure q (Route_Engine route) (Route_Account route)
                                                 (Class_ fc) (world st)) st
                                else st
                    | None => st end in
          let '(handed, st) :=
            if Failover fc || bool_decide (Policy fc = PolicyFailover)
            then handOver f plan result (accumulatedPack l) (out_ l) st
            else (Some (accumulatedPack l, out_ l), st) in
          match handed with
          | None => (inr Panicked, st)
          | Some (pack, out) =>
              let d := Classify (jitter f (world st)) (mkRecoveryInput fc (attemptsOnRoute l)
                         (bool_decide (S (routeIdx l) < length (chain plan))
                          && bool_decide (Z.of_nat (routeIdx l) < maxHops plan + 1)%Z)
                         (anyRouteAvailable f (chain plan) (world st))) in
              let out := addAttempt (mkAttemptRecord route (failOutcome result) (Some (OwnFailure fc)) (Some (Action d))
                           (Cooldown d) false (truncPrompt prompt)) out in
              let stopped out := let '(out, st) := stop f plan out d st in (inr (Returned out None fc), st) in
              match Action d with
              | ActionRetry =>
                  (inl (mkLoop (routeIdx l) (attemptsOnRoute l + 1) fc pack out),
                   if (0 <? Cooldown d)%Z then setWorld (sleep f (Cooldown d) (world st)) st else st)
              | ActionFailover =>
                  let idx := S (routeIdx l) in
                  if bool_decide (length (chain plan) ≤ idx)
                     || bool_decide (maxHops plan < Z.of_nat idx)%Z
                  then stopped out
                  else (inl (mkLoop idx 0 fc pack out), st)
              | ActionTerminal =>
                  stopped (setFlags (ParkedWaitingQuota out) (Quarantined out) (Some fc) out)
              | ActionWaitQuota | ActionQuarantine | ActionPause => stopped out
              end
          end
    end.

(** The loop, with fuel; [None] is fuel exhausted. *)
Fixpoint runLoop (fuel : nat) (f : FailoverController) (s : Supervisor W) (cancelled : W → bool)
    (plan : FailoverPlan) (l : Loop) (st : St) : option (Ret * St) :=
  match fuel with
  | O => None
  | S fuel =>
      match chain plan !! routeIdx l with
      | None =>
          let '(out, st) := stop f plan (out_ l) (mkRecoveryDecision ActionQuarantine 0 0 0 (Class_ (lastFailure l))
            "route chain exhausted without success") st in
          Some (Returned out None (lastFailure l), st)
      | Some route =>
          match iterate f s cancelled plan route l st with
          | (inl l, st) => runLoop fuel f s cancelled plan l st
          | (inr r, st) => Some (r, st)
          end
      end
  end.

Definition Run_ (fuel : nat) (f : FailoverController) (cancelled : W → bool) (plan : FailoverPlan)
    (st : St) : option (Ret * St) :=
  match sup f with
  | None => Some (Returned zeroOutcome (Some "failover: supervisor is required") zeroClassification, st)
  | Some s => runLoop fuel f s cancelled plan (mkLoop 0 0 zeroClassification None zeroOutcome) st
  end.

End controller.
Arguments FailoverController : clear implicits.
Arguments WorkspaceHook : clear implicits.
Arguments QuotaHook : clear implicits.
Arguments PackStorage : clear implicits.

(** ** The classifier *)

Lemma cooldown_base j pol : ∃ base, (time.Second ≤ base)%Z ∧ cooldown j pol = (base + j base)%Z.
Proof.
  unfold cooldown. eexists. split; [|done]. unfold time.Second.
  destruct (Z.leb_spec (CooldownSeconds pol * 1000000000) 0); lia.
Qed.

(** recovery decisions are bounded and justified.  For every failure the
    classifier answers with one action: a same-route retry only while the
    class's budget lasts, with a cooldown of at least a second before jitter; a
    failover only when a fallback is left; parking for quota only for a quota
    class with no fallback and no available route; quarantine only when no
    fallback is left or the class itself asks for it; and a failure the taxonomy
    does not know is terminal. *)
Theorem Classify_justified j i :
  let d := Classify j i in
  let fc := Input_Failure i in
  match Action d with
  | ActionRetry =>
      (Input_AttemptsUsed i < Z.max 0 (MaxRetries fc))%Z ∧
      AttemptsUsed d = (Input_AttemptsUsed i + 1)%Z ∧
      ∃ base, (time.Second ≤ base)%Z ∧ Cooldown d = (base + j base)%Z
  | ActionFailover => FallbacksAvailable i = true ∧ Policy fc ≠ PolicyQuarantine
  | ActionWaitQuota =>
      FallbacksAvailable i = false ∧ AnyRouteAvailable i = false ∧
      isQuotaWaitable (Class_ fc) = true
  | ActionQuarantine => Policy fc = PolicyQuarantine ∨ FallbacksAvailable i = false
  | ActionPause => Policy fc = PolicyPause
  | ActionTerminal =>
      FailureClass_IsValid (Class_ fc) = false ∨ Policy fc = PolicyTerminal ∨
      ∃ s, Policy fc = PolicyOther s
  end.
Proof.
  cbv zeta. unfold Classify. destruct (FailureClass_IsValid _) eqn:Hv; cbn [negb]; [|by left].
  assert ((if (MaxRetries (Input_Failure i) <? 0)%Z then 0%Z else MaxRetries (Input_Failure i)) =
    Z.max 0 (MaxRetries (Input_Failure i))) as ->
    by (destruct (Z.ltb_spec (MaxRetries (Input_Failure i)) 0); lia).
  pose proof (cooldown_base j (Input_Failure i)) as Hc.
  destruct (Policy (Input_Failure i)); simpl;
    repeat (match goal with
            | |- context [if (?a <? ?b)%Z then _ else _] => destruct (Z.ltb_spec a b); simpl
            | |- context [if FallbacksAvailable ?i then _ else _] =>
                destruct (FallbacksAvailable i) eqn:?; simpl
            | |- context [if ?b && negb ?c then _ else _] => destruct b eqn:?, c eqn:?; simpl
            end); eauto 6.
Qed.

Lemma DefaultPolicy_bounds c : (0 ≤ MaxRetries (DefaultPolicy c) ≤ 5)%Z.
Proof. by destruct c. Qed.

Lemma classify_bounds r : (0 ≤ MaxRetries (classify r) ≤ 5)%Z.
Proof.
  unfold classify. destruct (Failure (Outcome r)); [|apply DefaultPolicy_bounds].
  apply DefaultPolicy_bounds.
Qed.

(** ** Packs *)

Lemma elem_of_dedupe seen l s : s ∈ dedupe seen l ↔ s ∈ l ∧ s ≠ "" ∧ s ∉ seen.
Proof.
  revert seen; induction l as [|x l IH]; intros seen; simpl.
  { split; [by intros ?%not_elem_of_nil|]. by intros [?%not_elem_of_nil _]. }
  case_bool_decide as He; simpl.
  - rewrite IH, elem_of_cons. subst x. tauto.
  - case_bool_decide as Hs; rewrite ?elem_of_cons, IH, ?elem_of_cons.
    + split; [tauto|]. intros ([->|?] & ? & ?); tauto.
    + destruct (decide (s = x)) as [->|Hx]; tauto.
Qed.

Lemma NoDup_dedupe seen l : NoDup (dedupe seen l).
Proof.
  revert seen; induction l as [|x l IH]; intros seen; simpl; [constructor|].
  destruct (_ || _); [apply IH|]. constructor; [|apply IH].
  rewrite elem_of_dedupe, elem_of_cons. tauto.
Qed.

Lemma elem_of_dedupeSorted l s : s ∈ dedupeSorted l ↔ s ∈ l ∧ s ≠ "".
Proof. unfold dedupeSorted. rewrite elem_of_sortStrings, elem_of_dedupe.
  pose proof (not_elem_of_nil s). tauto.
Qed.

Lemma NoDup_dedupeSorted l : NoDup (dedupeSorted l).
Proof. unfold dedupeSorted. rewrite sortStrings_Permutation. apply NoDup_dedupe. Qed.

Lemma dedupeSorted_proper l l' :
  (∀ s, s ≠ "" → s ∈ l ↔ s ∈ l') → dedupeSorted l = dedupeSorted l'.
Proof.
  intros H. apply sortStrings_proper. apply NoDup_Permutation; [apply NoDup_dedupe..|].
  intros s. rewrite !elem_of_dedupe. specialize (H s). tauto.
Qed.

(** The events a pack is built from. *)
Definition packed (ev : NormalizedEvent) : bool :=
  match Type_ ev with
  | EventCheckpointCreated | EventFileChanged | EventRunFailed => true
  | _ => false
  end.

(** The event without its message. *)
Definition redact (ev : NormalizedEvent) : NormalizedEvent :=
  mkNormalizedEvent (Type_ ev) None (FileChange ev) (Usage ev) (Checkpoint ev) (Failure ev).

(** The run without its conversation. *)
Definition withoutTranscript (r : RunResult) : RunResult :=
  mkRunResult (Handle r) (Outcome r) (redact <$> filter (λ ev, packed ev = true) (Events r))
    (Failed r) (Cancelled r).

Lemma foldl_packEvent_redact evs acc :
  foldl packEvent acc (redact <$> filter (λ ev, packed ev = true) evs) = foldl packEvent acc evs.
Proof.
  revert acc; induction evs as [|ev evs IH]; intros acc; [done|].
  rewrite filter_cons. case_decide as Hp; simpl; rewrite IH; [done|]. f_equal.
  unfold packed in Hp. unfold packEvent. by destruct (Type_ ev).
Qed.

(** The items the run completed. *)
Definition completedItem (ev : NormalizedEvent) : option string :=
  match Type_ ev with
  | EventCheckpointCreated => (λ c, "checkpoint:" +:+ Checkpoint_Reason c) <$> Checkpoint ev
  | EventFileChanged =>
      match FileChange ev with
      | Some c => if InScope c then Some ("edit:" +:+ FileChange_Path c) else None
      | None => None
      end
  | _ => None
  end.

Lemma foldl_packEvent_completed evs acc :
  (foldl packEvent acc evs).1 = acc.1 ++ omap completedItem evs.
Proof.
  revert acc; induction evs as [|ev evs IH]; intros acc; simpl; [by rewrite app_nil_r|].
  rewrite IH. unfold packEvent, completedItem.
  destruct (Type_ ev); simpl; try done;
    repeat case_match; simplify_eq/=; rewrite <-?app_assoc; done.
Qed.

Lemma completedItem_nonempty ev s : completedItem ev = Some s → s ≠ "".
Proof.
  unfold completedItem. destruct (Type_ ev); try discriminate.
  - destruct (FileChange ev) as [c|]; [|discriminate]. destruct (InScope c); [|discriminate].
    intros [= <-]. discriminate.
  - destruct (Checkpoint ev) as [c|]; [|discriminate]. intros [= <-]. discriminate.
Qed.

(** a continuation pack hands over the progress and nothing of the
    conversation.  The pack of a run is the same with every message, tool and
    other event dropped and every message payload erased; its completed list is
    exactly the in-scope edits and the checkpoints, sorted and without
    repetition; merging packs loses no completed item and no failure of either,
    and merging in any grouping gives the same completed items. *)
Theorem packs_hand_over ws wp base head spec r p1 p2 p3 :
  BuildPackFromRun ws wp base head spec (withoutTranscript r) = BuildPackFromRun ws wp base head spec r ∧
  (∀ s, s ∈ Completed (BuildPackFromRun ws wp base head spec r) ↔
     ∃ ev, ev ∈ Events r ∧ completedItem ev = Some s) ∧
  NoDup (Completed (BuildPackFromRun ws wp base head spec r)) ∧
  (∀ s, s ∈ Completed (MergePacks p1 p2) ↔ (s ∈ Completed p1 ∨ s ∈ Completed p2) ∧ s ≠ "") ∧
  (∀ s, s ∈ Failures (MergePacks p1 p2) ↔ (s ∈ Failures p1 ∨ s ∈ Failures p2) ∧ s ≠ "") ∧
  CurrentSHA (MergePacks p1 p2) = CurrentSHA p2 ∧
  Completed (MergePacks (MergePacks p1 p2) p3) = Completed (MergePacks p1 (MergePacks p2 p3)).
Proof.
  split_and!.
  - unfold BuildPackFromRun. simpl. by rewrite foldl_packEvent_redact.
  - intros s. unfold BuildPackFromRun. pose proof (foldl_packEvent_completed (Events r) ([], "")) as H.
    destruct (foldl packEvent ([], "") (Events r)) as [c fc]. simpl in *. subst c.
    rewrite elem_of_dedupeSorted, list_elem_of_omap. split; [by intros [? _]|].
    intros (ev & Hin & Hev). split; [by exists ev|]. by eapply completedItem_nonempty.
  - unfold BuildPackFromRun. destruct (foldl _ _ _). apply NoDup_dedupeSorted.
  - intros s. simpl. by rewrite elem_of_dedupeSorted, elem_of_app.
  - intros s. simpl. by rewrite elem_of_dedupeSorted, elem_of_app.
  - done.
  - simpl. apply dedupeSorted_proper. intros s Hs. rewrite !elem_of_app, !elem_of_dedupeSorted, !elem_of_app.
    tauto.
Qed.

(** ** The loop *)

Section loop.
  Context {W : Type} (f : FailoverController W) (s : Supervisor W) (cancelled : W → bool)
    (plan : FailoverPlan).
  Implicit Types (o : FailoverOutcome) (l : Loop).

(** The outcome of a run that goes on. *)
Definition running o : Prop :=
  Success o = false ∧ ParkedWaitingQuota o = false ∧ Quarantined o = false ∧ TerminalFailure o = None.

(** Attempts per route: [cs] on the routes left behind. *)
Definition tried (cs : list nat) : list Route := mjoin (zip_with replicate cs (chain plan)).

Record loop_ok l : Prop := {
  lo_running : running (out_ l);
  lo_attempts : (0 ≤ attemptsOnRoute l ≤ 5)%Z;
  lo_idx : routeIdx l ≤ length (chain plan);
  lo_routes : ∃ cs, length cs = routeIdx l ∧ Forall (λ c, c ≤ 6) cs ∧
    Attempt_Route <$> Attempts (out_ l) =
      tried (cs ++ [Z.to_nat (attemptsOnRoute l)]) }.

(** The routes of an outcome: in chain order, at most six attempts each. *)
Definition routes_ok o : Prop :=
  ∃ cs, length cs ≤ length (chain plan) ∧ Forall (λ c, c ≤ 6) cs ∧
    Attempt_Route <$> Attempts o = tried cs.

(** How a run that nobody cancelled ended. *)
Definition disposed o : Prop :=
  (Success o = true ∧ ParkedWaitingQuota o = false ∧ Quarantined o = false ∧ TerminalFailure o = None) ∨
  (Success o = false ∧
     ((ParkedWaitingQuota o = true ∧ Quarantined o = false ∧ TerminalFailure o = None) ∨
      (ParkedWaitingQuota o = false ∧ Quarantined o = true ∧ TerminalFailure o = None) ∨
      (ParkedWaitingQuota o = false ∧ Quarantined o = false ∧ TerminalFailure o ≠ None) ∨
      (ParkedWaitingQuota o = false ∧ Quarantined o = false ∧ TerminalFailure o = None ∧
       ∃ a, last (Attempts o) = Some a ∧
         (Attempt_Action a = Some ActionPause ∨
          Attempt_Action a = Some ActionFailover ∧
            (maxHops plan < Z.of_nat (length (Fallbacks plan)))%Z)))).

Definition ret_ok (r : Ret) : Prop :=
  match r with
  | Returned o err _ =>
      routes_ok o ∧ (err = None → disposed o) ∧
      (err ≠ None → running o ∧ ∃ w, cancelled w = true)
  | Panicked => hook f = None ∧ storage f ≠ None
  end.

Definition measure l : nat :=
  6 * (length (chain plan) - routeIdx l) - Z.to_nat (attemptsOnRoute l).

Lemma tried_snoc cs route n :
  chain plan !! length cs = Some route →
  tried (cs ++ [n]) = tried cs ++ replicate n route.
Proof.
  intros Hr. unfold tried. revert Hr. generalize (chain plan).
  induction cs as [|c cs IH]; intros ch; destruct ch as [|r ch]; simpl; try done.
  - intros [= ->]. by rewrite app_nil_r.
  - intros Hr. by rewrite IH, app_assoc.
Qed.

Lemma tried_next cs route n :
  chain plan !! length cs = Some route →
  tried (cs ++ [n]) ++ [route] = tried (cs ++ [S n]).
Proof.
  intros Hr. rewrite !(tried_snoc _ route) by done. rewrite <-app_assoc. f_equal.
  rewrite <-(replicate_cons_app n route). done.
Qed.

Lemma tried_zero cs : tried (cs ++ [0]) = tried cs.
Proof.
  unfold tried. generalize (chain plan). induction cs as [|c cs IH]; intros [|r ch]; simpl; try done.
  by rewrite IH.
Qed.

(** The attempt added by the current iteration, on the loop's route. *)
Lemma attempt_routes l route a o :
  loop_ok l → chain plan !! routeIdx l = Some route → Attempt_Route a = route →
  Attempts o = Attempts (out_ l) ++ [a] →
  ∃ cs, length cs = routeIdx l ∧ Forall (λ c, c ≤ 6) cs ∧
    Attempt_Route <$> Attempts o = tried (cs ++ [S (Z.to_nat (attemptsOnRoute l))]).
Proof.
  intros [_ _ _ (cs & Hlen & Hf & Hr)] Hroute Ha Ho. exists cs. split_and!; [done|done|].
  rewrite Ho, fmap_app, Hr. simpl. rewrite Ha. apply tried_next. by rewrite Hlen.
Qed.

Lemma attempt_routes_ok l route a o :
  loop_ok l → chain plan !! routeIdx l = Some route → Attempt_Route a = route →
  Attempts o = Attempts (out_ l) ++ [a] → routes_ok o.
Proof.
  intros Hl Hroute Ha Ho. destruct (attempt_routes l route a o Hl Hroute Ha Ho) as (cs & Hlen & Hf & Hr).
  eexists (cs ++ [_]). split_and!; [|apply Forall_app; split; [done|]|exact Hr].
  - apply lookup_lt_Some in Hroute. rewrite length_app, Hlen. cbn [length]. lia.
  - apply Forall_singleton. pose proof (lo_attempts _ Hl). lia.
Qed.

(** [stop] keeps the attempts and sets the flag of its decision. *)
Lemma stop_spec o d st :
  let o' := (stop f plan o d st).1 in
  Attempts o' = Attempts o ∧ Success o' = Success o ∧ TerminalFailure o' = TerminalFailure o ∧
  ParkedWaitingQuota o' = bool_decide (Action d = ActionWaitQuota) || ParkedWaitingQuota o ∧
  Quarantined o' = bool_decide (Action d = ActionQuarantine) || Quarantined o.
Proof. unfold stop. destruct (Action d); by split_and!. Qed.

Lemma handOver_spec r pack o st :
  match handOver f plan r pack o st with
  | (None, _) => hook f = None ∧ storage f ≠ None
  | (Some (_, o'), _) =>
      Attempts o' = Attempts o ∧ (running o → running o')
  end.
Proof.
  unfold handOver. destruct (hook f) as [h|] eqn:Hh.
  - destruct (Checkpoint_ h _ _ _ _) as [? w]. destruct (HeadSHA h _ w) as [[sha e] w2].
    destruct (storage f) as [sg|]; [|done].
    destruct (WriteContinuationPack _ _ _ _ _ _) as [wr st']. by destruct (is_ok wr).
  - destruct (storage f) as [sg|] eqn:Hs; [|done]. destruct pack as [p|]; [|done].
    destruct (WriteContinuationPack _ _ _ _ _ _) as [wr st']. by destruct (is_ok wr).
Qed.

(** Ending on a decision that is not a retry. *)
Lemma disposed_stop o d st :
  running o → Action d ≠ ActionTerminal →
  (Action d = ActionPause ∨ Action d = ActionFailover ∨ Action d = ActionRetry →
     ∃ a, last (Attempts o) = Some a ∧
       (Attempt_Action a = Some ActionPause ∨
        Attempt_Action a = Some ActionFailover ∧
          (maxHops plan < Z.of_nat (length (Fallbacks plan)))%Z)) →
  disposed (stop f plan o d st).1.
Proof.
  intros (H1 & H2 & H3 & H4) Hnt Hlast.
  destruct (stop_spec o d st) as (Ha & Hs & Ht & Hp & Hq). right.
  rewrite Ha, Hs, Ht, Hp, Hq, H1, H2, H3, H4, !orb_false_r. split; [done|].
  destruct (Action d) eqn:Hd; try congruence; try (by auto); do 3 right; split_and!; auto.
Qed.

Lemma disposed_terminal o d st fc :
  running o → Action d = ActionTerminal →
  disposed (stop f plan (setFlags (ParkedWaitingQuota o) (Quarantined o) (Some fc) o) d st).1.
Proof.
  intros (H1 & H2 & H3 & H4) Hd. destruct (stop_spec (setFlags (ParkedWaitingQuota o) (Quarantined o) (Some fc) o) d st)
    as (Ha & Hs & Ht & Hp & Hq). right. rewrite Hs, Ht, Hp, Hq, Hd. simpl.
  rewrite H1, H2, H3. split; [done|]. do 2 right. left. done.
Qed.

Lemma tried_end cs n : length (chain plan) ≤ length cs → tried (cs ++ [n]) = tried cs.
Proof.
  unfold tried. generalize (chain plan). induction cs as [|c cs IH]; intros [|r ch] H; simpl in *;
    try done; [lia|]. rewrite IH; [done|lia].
Qed.

Lemma measure_retry l route fc p o :
  loop_ok l → chain plan !! routeIdx l = Some route → (attemptsOnRoute l < 5)%Z →
  measure (mkLoop (routeIdx l) (attemptsOnRoute l + 1) fc p o) < measure l.
Proof.
  intros [_ Ha _ _] Hr%lookup_lt_Some H5. unfold measure; simpl routeIdx; simpl attemptsOnRoute. lia.
Qed.

Lemma measure_next l route fc p o :
  loop_ok l → chain plan !! routeIdx l = Some route →
  measure (mkLoop (S (routeIdx l)) 0 fc p o) < measure l.
Proof.
  intros [_ Ha _ _] Hr%lookup_lt_Some. unfold measure; simpl routeIdx; simpl attemptsOnRoute. lia.
Qed.

(** Going on to the next route after one more attempt. *)
Lemma loop_ok_next l route a fc p o :
  loop_ok l → chain plan !! routeIdx l = Some route → Attempt_Route a = route →
  Attempts o = Attempts (out_ l) ++ [a] → running o →
  loop_ok (mkLoop (S (routeIdx l)) 0 fc p o).
Proof.
  intros Hl Hroute Ha Ho Hrun.
  destruct (attempt_routes l route a o Hl Hroute Ha Ho) as (cs & Hlen & Hf & Hr).
  constructor; simpl out_; simpl routeIdx; simpl attemptsOnRoute; [done|lia| |].
  - apply lookup_lt_Some in Hroute. lia.
  - eexists (cs ++ [_]). split_and!; [|apply Forall_app; split; [done|]|rewrite tried_zero; exact Hr].
    + rewrite length_app, Hlen. cbn [length]. lia.
    + apply Forall_singleton. pose proof (lo_attempts _ Hl). lia.
Qed.

Lemma loop_ok_retry l route a fc p o :
  loop_ok l → chain plan !! routeIdx l = Some route → Attempt_Route a = route →
  Attempts o = Attempts (out_ l) ++ [a] → running o → (attemptsOnRoute l < 5)%Z →
  loop_ok (mkLoop (routeIdx l) (attemptsOnRoute l + 1) fc p o).
Proof.
  intros Hl Hroute Ha Ho Hrun H5.
  destruct (attempt_routes l route a o Hl Hroute Ha Ho) as (cs & Hlen & Hf & Hr).
  pose proof (lo_attempts _ Hl).
  constructor; simpl out_; simpl routeIdx; simpl attemptsOnRoute; [done|lia|apply Hl|].
  exists cs. split_and!; [done|done|]. rewrite Hr. do 3 f_equal. lia.
Qed.

(** A run that could not start. *)
Lemma iterate_unstarted l route e st (prompt : string) :
  loop_ok l → chain plan !! routeIdx l = Some route →
  let fc := mkFailureClassification FailureInternalError PolicyRetry false false 0 0
              ("run failed to start: " +:+ e) 0 in
  let out := addAttempt (mkAttemptRecord route "failed" (Some LastFailure) (Some ActionFailover) 0 false
                           (truncPrompt prompt)) (out_ l) in
  let d := Classify (jitter f (world st)) (mkRecoveryInput fc (attemptsOnRoute l)
             (bool_decide (S (routeIdx l) < length (chain plan)))
             (anyRouteAvailable f (chain plan) (world st))) in
  if bool_decide (Action d = ActionFailover)
  then loop_ok (mkLoop (S (routeIdx l)) 0 fc (accumulatedPack l) out)
  else ret_ok (Returned (stop f plan out d st).1 None fc).
Proof.
  intros Hl Hroute fc out d.
  pose proof (Classify_justified (jitter f (world st)) (mkRecoveryInput fc (attemptsOnRoute l)
    (bool_decide (S (routeIdx l) < length (chain plan))) (anyRouteAvailable f (chain plan) (world st)))) as Hd.
  fold d in Hd. simpl in Hd. pose proof (lo_attempts _ Hl) as Hat.
  assert (Attempts out = Attempts (out_ l) ++ [mkAttemptRecord route "failed" (Some LastFailure)
    (Some ActionFailover) 0 false (truncPrompt prompt)]) as Ho by done.
  clearbody d. destruct (decide (Action d = ActionFailover)) as [Hf|Hf].
  { rewrite bool_decide_true by done. by eapply loop_ok_next; [| | |exact Ho|apply Hl]. }
  rewrite bool_decide_false by done. destruct (stop_spec out d st) as (Ha & _).
  split_and!; [|intros _; apply disposed_stop; [apply Hl| |]|done].
  - eapply attempt_routes_ok; [done|done| |by rewrite Ha]. done.
  - intros Hx. rewrite Hx in Hd. by destruct Hd as [?|[?|[? ?]]].
  - intros [Hx|[Hx|Hx]]; rewrite Hx in Hd; [done|done|lia].
Qed.

(** A run that failed, after the hand-over. *)
Lemma iterate_failed l route a o r st :
  loop_ok l → chain plan !! routeIdx l = Some route → Attempt_Route a = route →
  Attempts o = Attempts (out_ l) ++ [a] → running o →
  let fc := classify r in
  let d := Classify (jitter f (world st)) (mkRecoveryInput fc (attemptsOnRoute l)
             (bool_decide (S (routeIdx l) < length (chain plan))
              && bool_decide (Z.of_nat (routeIdx l) < maxHops plan + 1)%Z)
             (anyRouteAvailable f (chain plan) (world st))) in
  Attempt_Action a = Some (Action d) →
  match Action d with
  | ActionRetry => (attemptsOnRoute l < 5)%Z
  | ActionFailover =>
      bool_decide (length (chain plan) ≤ S (routeIdx l))
        || bool_decide (maxHops plan < Z.of_nat (S (routeIdx l)))%Z = true →
      ret_ok (Returned (stop f plan o d st).1 None fc)
  | ActionTerminal =>
      ret_ok (Returned (stop f plan (setFlags (ParkedWaitingQuota o) (Quarantined o) (Some fc) o) d st).1 None fc)
  | _ => ret_ok (Returned (stop f plan o d st).1 None fc)
  end.
Proof.
  intros Hl Hroute Ha Ho Hrun fc d Hact.
  pose proof (Classify_justified (jitter f (world st)) (mkRecoveryInput fc (attemptsOnRoute l)
    (bool_decide (S (routeIdx l) < length (chain plan))
              && bool_decide (Z.of_nat (routeIdx l) < maxHops plan + 1)%Z)
    (anyRouteAvailable f (chain plan) (world st)))) as Hd.
  fold d in Hd. simpl in Hd. pose proof (lo_attempts _ Hl) as Hat. pose proof (classify_bounds r) as Hb.
  fold fc in Hb.
  assert (∀ x, Attempts x = Attempts o → routes_ok x) as Hroutes.
  { intros x Hx. eapply attempt_routes_ok; [done|done|done|by rewrite Hx]. }
  assert (last (Attempts o) = Some a) as Hlast by (by rewrite Ho, last_snoc).
  destruct (stop_spec o d st) as (Hst & _).
  assert (Action d = ActionWaitQuota ∨ Action d = ActionQuarantine ∨ Action d = ActionPause →
    ret_ok (Returned (stop f plan o d st).1 None fc)) as Hplain.
  { intros Hx. split_and!; [by apply Hroutes|intros _|done]. apply disposed_stop; [done| |].
    - by destruct Hx as [->|[->| ->]].
    - intros Hy. exists a. split; [done|]. left. rewrite Hact. f_equal.
      destruct Hx as [Hx|[Hx|Hx]], Hy as [Hy|[Hy|Hy]]; congruence. }
  destruct (Action d) eqn:Had; auto.
  - lia.
  - intros Hend. apply orb_true_iff in Hend. rewrite !bool_decide_eq_true in Hend.
    destruct Hd as [Hfb _]. apply andb_true_iff in Hfb as [Hlt%bool_decide_eq_true Hh%bool_decide_eq_true].
    split_and!; [by apply Hroutes|intros _|done]. apply disposed_stop; [done|congruence|].
    intros _. exists a. split; [done|]. right. split; [done|].
    unfold chain in Hend, Hlt. cbn [length] in Hend, Hlt. lia.
  - split_and!; [|intros _; by apply disposed_terminal|done].
    destruct (stop_spec (setFlags (ParkedWaitingQuota o) (Quarantined o) (Some fc) o) d st) as (Hst2 & _).
    by apply Hroutes.
Qed.

(** The iteration of a failed run, once the pack is handed over. *)
Lemma iterate_decided l route pack o r st (prompt : string) :
  loop_ok l → chain plan !! routeIdx l = Some route →
  Attempts o = Attempts (out_ l) → running o →
  let fc := classify r in
  let d := Classify (jitter f (world st)) (mkRecoveryInput fc (attemptsOnRoute l)
             (bool_decide (S (routeIdx l) < length (chain plan))
              && bool_decide (Z.of_nat (routeIdx l) < maxHops plan + 1)%Z)
             (anyRouteAvailable f (chain plan) (world st))) in
  let out := addAttempt (mkAttemptRecord route (failOutcome r) (Some (OwnFailure fc)) (Some (Action d))
               (Cooldown d) false (truncPrompt prompt)) o in
  let stopped out := let '(out, st) := stop f plan out d st in (inr (Returned out None fc), st) in
  match
    match Action d with
    | ActionRetry =>
        (inl (mkLoop (routeIdx l) (attemptsOnRoute l + 1) fc pack out),
         if (0 <? Cooldown d)%Z then setWorld (sleep f (Cooldown d) (world st)) st else st)
    | ActionFailover =>
        if bool_decide (length (chain plan) ≤ S (routeIdx l))
           || bool_decide (maxHops plan < Z.of_nat (S (routeIdx l)))%Z
        then stopped out
        else (inl (mkLoop (S (routeIdx l)) 0 fc pack out), st)
    | ActionTerminal =>
        stopped (setFlags (ParkedWaitingQuota out) (Quarantined out) (Some fc) out)
    | ActionWaitQuota | ActionQuarantine | ActionPause => stopped out
    end
  with
  | (inl l', _) => loop_ok l' ∧ measure l' < measure l
  | (inr x, _) => ret_ok x
  end.
Proof.
  intros Hl Hroute Ho Hrun fc d out stopped.
  assert (Attempts out = Attempts (out_ l) ++ [mkAttemptRecord route (failOutcome r) (Some (OwnFailure fc))
    (Some (Action d)) (Cooldown d) false (truncPrompt prompt)]) as Hout by (simpl; by rewrite Ho).
  assert (running out) as Hro by exact Hrun.
  pose proof (iterate_failed l route (mkAttemptRecord route (failOutcome r) (Some (OwnFailure fc))
    (Some (Action d)) (Cooldown d) false (truncPrompt prompt)) out r st Hl Hroute eq_refl Hout Hro eq_refl) as H.
  cbv zeta in H. fold fc in H. fold d in H. clearbody out. unfold stopped.
  destruct (Action d) eqn:Had;
    try (match goal with |- context [stop f plan ?o d st] => destruct (stop f plan o d st) as [o' st'] eqn:Hs end;
         rewrite ?Hs in H; exact H).
  - split; [eapply loop_ok_retry; [done|done| |exact Hout|done|done]; done|by eapply measure_retry].
  - destruct (_ || _).
    + specialize (H eq_refl). destruct (stop f plan out d st). exact H.
    + split; [eapply loop_ok_next; [done|done| |exact Hout|done]; done|by eapply measure_next].
Qed.

Lemma iterate_bounded route l st :
  loop_ok l → chain plan !! routeIdx l = Some route →
  match iterate f s cancelled plan route l st with
  | (inl l', _) => loop_ok l' ∧ measure l' < measure l
  | (inr r, _) => ret_ok r
  end.
Proof.
  intros Hl Hroute. unfold iterate. destruct (cancelled (world st)) eqn:Hc.
  { destruct (lo_routes _ Hl) as (cs & Hlen & Hf & Hr). split_and!; [|done|].
    - eexists (cs ++ [_]). split_and!; [|apply Forall_app; split; [done|]|exact Hr].
      + apply lookup_lt_Some in Hroute. rewrite length_app, Hlen. cbn [length]. lia.
      + apply Forall_singleton. pose proof (lo_attempts _ Hl). lia.
    - intros _. split; [apply Hl|by eexists]. }
  cbv zeta. set (prompt := match accumulatedPack l with Some p => _ | None => _ end).
  destruct (Run s _ _ st) as [[r|e] st1].
  - destruct (negb (Failed r) && negb (Cancelled r)).
    { destruct (lo_running _ Hl) as (H1 & H2 & H3 & H4). split_and!; [|intros _; by left|done].
      eapply attempt_routes_ok; [done|done| |reflexivity]. done. }
    set (st2 := match quota f with Some q => _ | None => _ end). clearbody st2.
    destruct (Failover (classify r) || bool_decide (Policy (classify r) = PolicyFailover)).
    + pose proof (handOver_spec r (accumulatedPack l) (out_ l) st2) as Hh.
      destruct (handOver _ _ _ _ _ _) as [[[pack o]|] st3]; [|done].
      destruct Hh as [Ho Hrun]. specialize (Hrun (lo_running _ Hl)).
      apply (iterate_decided l route pack o r st3 prompt Hl Hroute Ho Hrun).
    + apply (iterate_decided l route (accumulatedPack l) (out_ l) r st2 prompt Hl Hroute eq_refl).
      apply Hl.
  - pose proof (iterate_unstarted l route e st1 prompt Hl Hroute) as H. cbv zeta in H.
    destruct (bool_decide (Action _ = ActionFailover)).
    + split; [done|by eapply measure_next].
    + destruct (stop _ _ _ _ _). done.
Qed.

Lemma runLoop_bounded fuel l st :
  loop_ok l → measure l < fuel →
  ∃ r st', runLoop fuel f s cancelled plan l st = Some (r, st') ∧ ret_ok r.
Proof.
  revert l st; induction fuel as [|fuel IH]; intros l st Hl Hm; [lia|]. cbn [runLoop].
  destruct (chain plan !! routeIdx l) as [route|] eqn:Hroute.
  - pose proof (iterate_bounded route l st Hl Hroute) as H.
    destruct (iterate _ _ _ _ _ _ _) as [[l'|r] st1]; [|by eexists _, _].
    destruct H as [Hl' Hlt]. apply IH; [done|lia].
  - match goal with |- context [stop f plan (out_ l) ?d st] => set (d0 := d) end.
    destruct (stop f plan (out_ l) d0 st) as [o st1] eqn:Hs.
    eexists _, _. split; [done|].
    pose proof (stop_spec (out_ l) d0 st) as (Ha & _). rewrite Hs in Ha. simpl in Ha.
    split_and!; [|intros _|done].
    + destruct (lo_routes _ Hl) as (cs & Hlen & Hf & Hr).
      apply lookup_ge_None in Hroute. exists cs. pose proof (lo_idx _ Hl). split_and!; [lia|done|].
      rewrite Ha, Hr. apply tried_end. lia.
    + replace o with (stop f plan (out_ l) d0 st).1 by (by rewrite Hs).
      apply disposed_stop; [apply Hl|done|]. by intros [?|[?|?]].
Qed.

End loop.

(** C12: failover is bounded and says how it left the work.  For every agent,
    quota breaker, workspace, storage and plan, [Run] returns within six
    iterations per route of the chain; the attempts go down the chain in order,
    at most six per route; unless the context was cancelled the run ends in
    exactly one of success, parked for quota, quarantined, a terminal failure,
    or a pause (or, only when [MaxFailoverHops] is set below the number of
    fallbacks, a failover that was not taken); it panics only when storage is
    configured without a workspace hook. *)
Theorem Run_bounded_failover {W} (f : FailoverController W) cancelled plan st fuel :
  6 * S (length (Fallbacks plan)) < fuel →
  ∃ r st', Run_ fuel f cancelled plan st = Some (r, st') ∧
    match r with
    | Returned o err _ =>
        routes_ok plan o ∧
        (err = None → disposed plan o) ∧
        (err ≠ None → running o ∧ (sup f = None ∨ ∃ w, cancelled w = true))
    | Panicked => hook f = None ∧ storage f ≠ None
    end.
Proof.
  intros Hfuel. unfold Run_. destruct (sup f) as [s|].
  - destruct (runLoop_bounded f s cancelled plan fuel (mkLoop 0 0 zeroClassification None zeroOutcome) st)
      as (r & st' & Hr & Hok).
    + constructor; simpl; [done|lia|lia|]. exists []. split_and!; [done|by constructor|done].
    + unfold measure, chain. simpl. lia.
    + exists r, st'. split; [done|]. destruct r; [|done]. destruct Hok as (? & ? & Herr).
      split_and!; [done|done|]. intros He. destruct (Herr He). auto.
  - eexists _, _. split; [done|]. split_and!; [|done|].
    + exists []. simpl. split_and!; [lia|by constructor|done].
    + intros _. split; [done|by left].
Qed.

(** ** Concrete runs *)

(** An agent that fails each start with the next class of its script, then
    succeeds; the state counts the starts. *)
Definition scripted (classes : list FailureClass) : Adapter nat :=
  mkAdapter "agent" (λ rq n,
    let ev := match classes !! n with
              | Some c => mkNormalizedEvent EventRunFailed None None None None (Some (mkFailurePayload c "scripted" 1))
              | None => mkNormalizedEvent EventRunCompleted None None None None None
              end in
    (Ok (mkSession (mkRunHandle (RunID rq) (Engine rq) (Model rq) "s") [mkPoll None [ev] false] [] [ev]), S n)).

Definition scriptedSupervisor (classes : list FailureClass) : Supervisor nat :=
  mkSupervisor (λ e, if bool_decide (e = "missing") then None else Some (scripted classes)) None ["PATH=/bin"; "GITHUB_TOKEN=x"] 7.

Definition silentHook : WorkspaceHook nat :=
  mkWorkspaceHook (λ _ _ _ n, (("sha", None), n)) (λ _ _ n, (None, n)) (λ _ n, (("head", None), n)).
Definition noStorage : PackStorage nat :=
  mkPackStorage (λ _ n, (None, n)) (λ _ _ n, (None, n)) (λ _ n, (None, n)) (λ _, "{}") (λ _, "ts").

Definition controllerOf (classes : list FailureClass) (h : option (WorkspaceHook nat)) : FailoverController nat :=
  mkFailoverController (Some (scriptedSupervisor classes)) (λ _ _, 0%Z) None h (Some noStorage) None (λ _ n, n).

Definition threeRoutes (hops : Z) : FailoverPlan :=
  mkFailoverPlan "ws" "/ws" (mkRoute "a" "m" "") [mkRoute "b" "m" ""; mkRoute "c" "m" ""] "do it" [] 0 0
    "spec" "base" "/art" hops.

Lemma Run_bounded_failover_witness :
  ∃ r st', Run_ 19 (controllerOf [FailureProviderQuota; FailureEngineCrash] (Some silentHook)) (λ _, false)
             (threeRoutes 0) (mkSt 0 []) = Some (r, st').
Proof.
  destruct (Run_bounded_failover (controllerOf [FailureProviderQuota; FailureEngineCrash] (Some silentHook))
    (λ _, false) (threeRoutes 0) (mkSt 0 []) 19) as (r & st' & H & _); [simpl; lia|].
  exists r, st'. exact H.
Defined.

(** Quota on the first route, a crash on the second, which is retried there. *)
Example failover_then_retry :
  match Run_ 19 (controllerOf [FailureProviderQuota; FailureEngineCrash] (Some silentHook)) (λ _, false)
          (threeRoutes 0) (mkSt 0 []) with
  | Some (Returned o None _, _) =>
      (Success o, Route_Engine ∘ Attempt_Route <$> Attempts o, Attempt_Action <$> Attempts o, PacksWritten o)
  | _ => (false, [], [], 0%Z)
  end = (true, ["a"; "b"; "b"], [Some ActionFailover; Some ActionRetry; None], 1%Z).
Proof. vm_compute. done. Qed.

(** With [MaxFailoverHops] = 1 and two fallbacks, a failure of the second route
    decides on a failover that is not taken: no flag of the outcome is set and
    the workspace is left as it was. *)
Lemma Run_exhausted_undisposed :
  match Run_ 19 (controllerOf [FailureProviderQuota; FailureProviderQuota] (Some silentHook)) (λ _, false)
          (threeRoutes 1) (mkSt 0 []) with
  | Some (Returned o None _, _) =>
      (Success o, ParkedWaitingQuota o, Quarantined o, TerminalFailure o) = (false, false, false, None) ∧
      Attempt_Action <$> last (Attempts o) = Some (Some ActionFailover)
  | _ => False
  end.
Proof. vm_compute. done. Qed.

(** Storage without a workspace hook: the nil pack is dereferenced. *)
Lemma Run_panics_without_hook :
  fst <$> Run_ 19 (controllerOf [FailureProviderQuota] None) (λ _, false) (threeRoutes 0) (mkSt 0 []) =
  Some Panicked.
Proof. vm_compute. done. Qed.

(** The failure recorded for a run that could not start is overwritten by the
    failure of the next route. *)
Lemma Run_overwrites_failure :
  match Run_ 19 (controllerOf [FailureTestFailure] (Some silentHook)) (λ _, false)
          (mkFailoverPlan "ws" "/ws" (mkRoute "missing" "m" "") [mkRoute "b" "m" ""] "do it" [] 0 0
            "spec" "base" "/art" 0) (mkSt 0 []) with
  | Some (Returned o None lastf, _) =>
      (λ a, Class_ <$> AttemptFailure lastf a) <$> Attempts o
  | _ => []
  end = [Some FailureTestFailure; Some FailureTestFailure].
Proof. vm_compute. done. Qed.

End failover.
