(* ===== verification/WorkGraph.v ===== *)
(** * WorkGraph: work packages, DAG validation and readiness

    Models [internal/workgraph/graph.go] (the domain model, validation, the
    topological order) and [readiness.go].  Errors of the validator are values
    that carry what their text shows.  The validator normalises the packages of
    its argument in place; the model returns them.  A Go map that is iterated is
    a finite map whose elements come in some fixed order, where Go's is random;
    only sets built from it are used. *)
From S2P Require Import Prelude.
From stdpp Require Export gmap.

Module workgraph.

(** ** The domain model *)

(** [type Stage string]. *)
Definition Stage : Type := string.
Definition StageResearch : Stage := "research".
Definition StageContract : Stage := "contract".
Definition StageImplementation : Stage := "implementation".
Definition StageIntegration : Stage := "integration".
Definition StageVerification : Stage := "verification".
Definition AllStages : list Stage :=
  [StageResearch; StageContract; StageImplementation; StageIntegration; StageVerification].
Definition Stage_IsValid (s : Stage) : bool := bool_decide (s ∈ AllStages).

Inductive PackageState :=
| PackagePending | PackageReady | PackageRunning | PackageBlocked | PackageSucceeded
| PackageFailed | PackageSkipped
| PackageStateOther (s : string).
#[global] Instance PackageState_eq_dec : EqDecision PackageState.
Proof. solve_decision. Defined.

Definition PackageState_String (s : PackageState) : string :=
  match s with
  | PackagePending => "pending"
  | PackageReady => "ready"
  | PackageRunning => "running"
  | PackageBlocked => "blocked"
  | PackageSucceeded => "succeeded"
  | PackageFailed => "failed"
  | PackageSkipped => "skipped"
  | PackageStateOther s => s
  end.

Definition PackageState_IsValid (s : PackageState) : bool :=
  match s with PackageStateOther _ => false | _ => true end.

Definition PackageState_IsTerminal (s : PackageState) : bool :=
  match s with PackageSucceeded | PackageFailed | PackageSkipped => true | _ => false end.

Record Attempt := mkAttempt {
  Index : Z;
  Attempt_State : PackageState;
  StartedAt : Time;
  FinishedAt : Time;
  FailureReason : string;
  ExitCode : Z;
  AgentRunID : string }.

Record WorkPackage := mkWorkPackage {
  ID : string;
  Package_TaskID : string;
  Package_Stage : Stage;
  Title : string;
  Objective : string;
  AcceptedACIDs : list string;
  AllowedScope : list string;
  Dependencies : list string;
  State : PackageState;
  Attempts : list Attempt }.

Record WorkGraph := mkWorkGraph {
  TaskID : string;
  Packages : list WorkPackage }.

(** ** Validation *)

Inductive ValidationError :=
| ErrTaskIDRequired
| ErrNoPackages
| ErrPackageNoID (n : nat)
| ErrDuplicateID (id : string) (first n : nat)
| ErrPackageNoTaskID (id : string)
| ErrUnknownStage (id : string) (stage : Stage)
| ErrNoTitle (id : string)
| ErrNoObjective (id : string)
| ErrUnknownState (id : string) (s : PackageState)
| ErrNoAC (id : string)
| ErrDuplicateAC (ac owner id : string)
| ErrSelfCycle (id : string)
| ErrMissingDependency (id dep : string)
| ErrCycle (path : list string)
| ErrUnreachable (ids : list string)
| ErrForeignAC (owner ac : string)
| ErrUncoveredAC (ac : string).

(** The loop of [trimAndDedupStrings]. *)
Fixpoint trimAndDedup (seen l : list string) : list string :=
  match l with
  | [] => []
  | s :: l =>
      let s := strs.TrimSpace s in
      if bool_decide (s = "") || bool_decide (s ∈ seen) then trimAndDedup seen l
      else s :: trimAndDedup (s :: seen) l
  end.
Definition trimAndDedupStrings (l : list string) : list string := trimAndDedup [] l.

(** What the validator stores back into a package. *)
Definition normalise (p : WorkPackage) : WorkPackage :=
  mkWorkPackage (strs.TrimSpace (ID p)) (strs.TrimSpace (Package_TaskID p))
    (strs.TrimSpace (Package_Stage p)) (strs.TrimSpace (Title p)) (strs.TrimSpace (Objective p))
    (trimAndDedupStrings (AcceptedACIDs p)) (trimAndDedupStrings (AllowedScope p))
    (trimAndDedupStrings (Dependencies p))
    (if bool_decide (State p = PackageStateOther "") then PackagePending else State p) (Attempts p).

(** The accumulated maps: package id to index, acceptance criterion to owner. *)
Record Seen := mkSeen { ids : gmap string nat; acOwners : gmap string string }.

(** One acceptance criterion of a package. *)
Definition ownAC (id : string) (acc : gmap string string * list ValidationError) (ac : string) :
    gmap string string * list ValidationError :=
  match acc.1 !! ac with
  | Some owner => (acc.1, acc.2 ++ [ErrDuplicateAC ac owner id])
  | None => (<[ac := id]> acc.1, acc.2)
  end.

Definition when (b : bool) (e : ValidationError) : list ValidationError := if b then [e] else [].

(** The body of the first loop of [validate] on the package at index [i]; the
    state is checked as it came. *)
Definition checkPackage (i : nat) (p : WorkPackage) (s : Seen) : Seen * list ValidationError :=
  let q := normalise p in
  let id := ID q in
  let '(ids', errID) :=
    if bool_decide (id = "") then (ids s, [ErrPackageNoID (S i)])
    else match ids s !! id with
         | Some prev => (ids s, [ErrDuplicateID id (S prev) (S i)])
         | None => (<[id := i]> (ids s), [])
         end in
  let '(owners, errAC) := foldl (ownAC id) (acOwners s, []) (AcceptedACIDs q) in
  (mkSeen ids' owners,
   errID
   ++ when (bool_decide (Package_TaskID q = "")) (ErrPackageNoTaskID id)
   ++ when (negb (Stage_IsValid (Package_Stage q))) (ErrUnknownStage id (Package_Stage q))
   ++ when (bool_decide (Title q = "")) (ErrNoTitle id)
   ++ when (bool_decide (Objective q = "")) (ErrNoObjective id)
   ++ when (negb (PackageState_IsValid (State p))) (ErrUnknownState id (State p))
   ++ when (bool_decide (AcceptedACIDs q = [])) (ErrNoAC id)
   ++ errAC).

Fixpoint checkPackages (i : nat) (ps : list WorkPackage) (s : Seen) : Seen * list ValidationError :=
  match ps with
  | [] => (s, [])
  | p :: ps =>
      let '(s, errs) := checkPackage i p s in
      let '(s', errs') := checkPackages (S i) ps s in
      (s', errs ++ errs')
  end.

(** The missing-edge check of one package. *)
Definition checkDependencies (m : gmap string nat) (p : WorkPackage) : list ValidationError :=
  mjoin ((λ dep,
    if bool_decide (dep = ID p) then [ErrSelfCycle (ID p)]
    else when (bool_decide (m !! dep = None)) (ErrMissingDependency (ID p) dep)) <$> Dependencies p).

(** ** Cycle detection: depth-first search with three colours *)

(** [adj]: a later package with the same id overrides. *)
Definition adjacency (ps : list WorkPackage) : gmap string (list string) :=
  foldl (λ m p, <[ID p := Dependencies p]> m) ∅ ps.
Definition deps (adj : gmap string (list string)) (n : string) : list string := default [] (adj !! n).

Inductive Colour := Gray | Black.
#[global] Instance Colour_eq_dec : EqDecision Colour.
Proof. solve_decision. Defined.

(** The colours (white is absence) and the stack, top last. *)
Record Search := mkSearch { colour : gmap string Colour; stack : list string }.

(** The suffix of the stack from [d]. *)
Fixpoint from (d : string) (l : list string) : option (list string) :=
  match l with
  | [] => None
  | x :: l' => if bool_decide (x = d) then Some l else from d l'
  end.

Definition cycleAt (d node : string) (st : list string) : list string :=
  match from d st with Some c => c ++ [d] | None => [d; node; d] end.

(** The loop of [dfs] over the dependencies of [node]; [rec] is the recursive
    call. *)
Fixpoint visit (rec : string → Search → option (option (list string) * Search)) (node : string)
    (ds : list string) (s : Search) : option (option (list string) * Search) :=
  match ds with
  | [] => Some (None, s)
  | d :: ds =>
      match colour s !! d with
      | Some Gray => Some (Some (cycleAt d node (stack s)), s)
      | Some Black => visit rec node ds s
      | None =>
          match rec d s with
          | Some (None, s) => visit rec node ds s
          | r => r
          end
      end
  end.

(** [dfs], with fuel for its depth; [None] is fuel exhausted. *)
Fixpoint dfs (fuel : nat) (adj : gmap string (list string)) (node : string) (s : Search) :
    option (option (list string) * Search) :=
  match fuel with
  | O => None
  | S fuel =>
      let s := mkSearch (<[node := Gray]> (colour s)) (stack s ++ [node]) in
      match visit (dfs fuel adj) node (sortStrings (deps adj node)) s with
      | Some (None, s) => Some (None, mkSearch (<[node := Black]> (colour s)) (removelast (stack s)))
      | r => r
      end
  end.

Fixpoint dfsAll (fuel : nat) (adj : gmap string (list string)) (nodes : list string) (s : Search) :
    option (option (list string) * Search) :=
  match nodes with
  | [] => Some (None, s)
  | n :: nodes =>
      match colour s !! n with
      | Some _ => dfsAll fuel adj nodes s
      | None => match dfs fuel adj n s with
                | Some (None, s) => dfsAll fuel adj nodes s
                | r => r
                end
      end
  end.

(** Every node the search can meet, and one. *)
Definition searchFuel (ps : list WorkPackage) : nat :=
  S (length ps + length (mjoin (Dependencies <$> ps))).

Definition detectCycle (ps : list WorkPackage) : option (option (list string)) :=
  fst <$> dfsAll (searchFuel ps) (adjacency ps) (sortStrings (ID <$> ps)) (mkSearch ∅ []).

(** ** Weak connectivity: breadth-first search *)

Definition undirected (ps : list WorkPackage) : gmap string (gset string) :=
  let present : gset string := list_to_set (ID <$> ps) in
  let add a b (m : gmap string (gset string)) := <[a := {[b]} ∪ default ∅ (m !! a)]> m in
  foldl (λ m p, foldl (λ m d, if bool_decide (d ∈ present) then add d (ID p) (add (ID p) d m) else m)
                  m (Dependencies p)) ∅ ps.

(** The queue loop; a node is queued once. *)
Fixpoint bfs (fuel : nat) (adj : gmap string (gset string)) (queue : list string) (visited : gset string) :
    option (gset string) :=
  match queue with
  | [] => Some visited
  | cur :: queue =>
      match fuel with
      | O => None
      | S fuel =>
          let new := filter (λ n, n ∉ visited) (elements (default ∅ (adj !! cur))) in
          bfs fuel adj (queue ++ new) (visited ∪ list_to_set new)
      end
  end.

Definition weaklyUnreachable (ps : list WorkPackage) : option (list string) :=
  match ps with
  | [] => Some []
  | p :: _ =>
      visited ← bfs (S (length ps)) (undirected ps) [ID p] {[ID p]};
      Some (filter (λ id, id ∉ visited) (ID <$> ps))
  end.

(** ** [validate] *)

(** The part of a specification the validator reads. *)
Definition checkSpec (specACs : list string) (owners : gmap string string) : list ValidationError :=
  mjoin ((λ o, when (negb (bool_decide (o.1 ∈ specACs))) (ErrForeignAC o.2 o.1)) <$> map_to_list owners)
  ++ mjoin ((λ ac, when (bool_decide (owners !! ac = None)) (ErrUncoveredAC ac)) <$> specACs).

Definition lessID (a b : WorkPackage) : bool := negb (String.leb (ID b) (ID a)).

(** [None] would be a search out of fuel; it never is. *)
Definition validate (g : WorkGraph) (spec : option (list string)) :
    option (result (list ValidationError) WorkGraph) :=
  let ps := normalise <$> Packages g in
  let '(s, errs) := checkPackages 0 (Packages g) (mkSeen ∅ ∅) in
  cycle ← detectCycle ps;
  unreachable ←
    (if bool_decide (ps ≠ []) && bool_decide (size (ids s) = length ps)
     then weaklyUnreachable ps else Some []);
  let errs :=
    when (bool_decide (strs.TrimSpace (TaskID g) = "")) ErrTaskIDRequired
    ++ when (bool_decide (Packages g = [])) ErrNoPackages
    ++ errs
    ++ mjoin (checkDependencies (ids s) <$> ps)
    ++ match cycle with Some c => [ErrCycle c] | None => [] end
    ++ when (bool_decide (unreachable ≠ [])) (ErrUnreachable (sortStrings unreachable))
    ++ match spec with Some acs => checkSpec acs (acOwners s) | None => [] end in
  Some (if bool_decide (errs = []) then Ok (mkWorkGraph (TaskID g) (sortStable lessID ps)) else Err errs).

Definition ValidateWorkGraph (g : WorkGraph) : option (result (list ValidationError) WorkGraph) :=
  validate g None.

(** ** The topological order: Kahn's algorithm *)

(** [sort.SearchStrings] and the insertion at that index. *)
Fixpoint insertSorted (n : string) (l : list string) : list string :=
  match l with
  | [] => [n]
  | x :: l' => if String.leb n x then n :: l else x :: insertSorted n l'
  end.

(** The dependents released by [cur]. *)
Definition releaseOne (acc : gmap string Z * list string) (n : string) : gmap string Z * list string :=
  let d := (default 0%Z (acc.1 !! n) - 1)%Z in
  (<[n := d]> acc.1, if (d =? 0)%Z then insertSorted n acc.2 else acc.2).

Fixpoint kahn (fuel : nat) (adj : gmap string (list string)) (inDeg : gmap string Z)
    (ready out : list string) : option (list string) :=
  match ready with
  | [] => Some out
  | cur :: ready =>
      match fuel with
      | O => None
      | S fuel =>
          let '(inDeg, ready) := foldl releaseOne (inDeg, ready) (sortStrings (default [] (adj !! cur))) in
          kahn fuel adj inDeg ready (out ++ [cur])
      end
  end.

(** The two maps: dependents, and the number of dependencies. *)
Definition addEdge (id : string) (acc : gmap string (list string) * gmap string Z) (d : string) :
    gmap string (list string) * gmap string Z :=
  (<[d := default [] (acc.1 !! d) ++ [id]]> acc.1, <[id := (default 0 (acc.2 !! id) + 1)%Z]> acc.2).

Definition kahnMaps (ps : list WorkPackage) : gmap string (list string) * gmap string Z :=
  foldl (λ acc p, foldl (addEdge (ID p)) acc (Dependencies p))
    (∅, list_to_map ((λ p, (ID p, 0%Z)) <$> ps)) ps.

Definition topologicalOrder (ps : list WorkPackage) : option (result string (list string)) :=
  if existsb (λ p, existsb (λ d, negb (bool_decide (d ∈ ID <$> ps))) (Dependencies p)) ps
  then Some (Err "invalid work graph: depends on missing package")
  else
    let '(adj, inDeg) := kahnMaps ps in
    let ready := sortStrings (fst <$> filter (λ kv, kv.2 = 0%Z) (map_to_list inDeg)) in
    out ← kahn (S (length ps)) adj inDeg ready [];
    Some (if bool_decide (length out = length ps) then Ok out
          else Err "invalid work graph: topological sort failed (cycle exists)").

(** ** readiness.go *)

(** The lease fields the calculator reads (leases.go). *)
Inductive LeaseKind := LeasePath | LeaseSemantic | LeaseKindOther (s : string).
#[global] Instance LeaseKind_eq_dec : EqDecision LeaseKind.
Proof. solve_decision. Defined.

Record Lease := mkLease {
  Lease_ID : Z;
  Lease_Scope : string;
  ScopeID : string;
  Kind : LeaseKind;
  Resource : string;
  WorkspaceID : string;
  Lease_State : string;
  CreatedAt : Time;
  ReleasedAt : Time;
  ExpiresAt : Time }.

Definition IsExpired (l : Lease) (now : Time) : bool :=
  if time.IsZero (ExpiresAt l) then false else negb (time.Before now (ExpiresAt l)).

Record Readiness := mkReadiness {
  PackageID : string;
  Readiness_State : PackageState;
  Ready : bool;
  BlockedReasons : list string }.

(** A lease blocks a path for a requesting workspace. *)
Definition blocksPath (path requesting : string) (now : Time) (l : Lease) : bool :=
  bool_decide (Kind l = LeasePath) && bool_decide (Resource l = path)
  && negb (negb (bool_decide (requesting = "")) && bool_decide (WorkspaceID l = requesting))
  && negb (IsExpired l now).

Definition dependencyReasons (stateByID : gmap string PackageState) (p : WorkPackage) : list string :=
  mjoin ((λ dep,
    match stateByID !! dep with
    | None => ["dependency " +:+ strs.q dep +:+ " is not in the graph"]
    | Some s => if bool_decide (s = PackageSucceeded) then []
                else ["dependency " +:+ strs.q dep +:+ " not succeeded (state=" +:+ PackageState_String s +:+ ")"]
    end) <$> Dependencies p).

Definition leaseReasons (activeLeases : list Lease) (now : Time) (requesting : string) (p : WorkPackage) :
    list string :=
  mjoin ((λ path,
    (λ l, "path " +:+ strs.q path +:+ " held by workspace " +:+ strs.q (WorkspaceID l)) <$>
      filter (λ l, blocksPath path requesting now l = true) activeLeases) <$> AllowedScope p).

Definition packageReadiness (p : WorkPackage) (stateByID : gmap string PackageState)
    (activeLeases : list Lease) (now : Time) (requesting : string) : Readiness :=
  if PackageState_IsTerminal (State p) then
    mkReadiness (ID p) (State p) false
      ["package state " +:+ strs.q (PackageState_String (State p)) +:+ " is terminal"]
  else if bool_decide (State p ≠ PackagePending) then
    mkReadiness (ID p) (State p) false
      ["package state " +:+ strs.q (PackageState_String (State p)) +:+ " is not pending"]
  else
    let reasons := sortStrings (dependencyReasons stateByID p ++ leaseReasons activeLeases now requesting p) in
    mkReadiness (ID p) (State p) (bool_decide (reasons = [])) reasons.

Definition stateByID (ps : list WorkPackage) : gmap string PackageState :=
  foldl (λ m p, <[ID p := State p]> m) ∅ ps.

Definition ComputeReadiness (v : WorkGraph) (activeLeases : list Lease) (now : Time) (requesting : string) :
    list Readiness :=
  sortStable (λ a b, negb (String.leb (PackageID b) (PackageID a)))
    ((λ p, packageReadiness p (stateByID (Packages v)) activeLeases now requesting) <$> Packages v).

Definition PackageForAC (v : WorkGraph) (acID : string) : option WorkPackage :=
  snd <$> list_find (λ p, acID ∈ AcceptedACIDs p) (Packages v).

(** ** Depth-first search: no cycle found means none exists *)

Section search.
  Context (adj : gmap string (list string)).
  Implicit Types (s : Search) (l : list string).

(** A list in which every node comes after its dependencies. *)
Definition ordered l : Prop :=
  ∀ l1 x l2, l = l1 ++ x :: l2 → ∀ d, d ∈ deps adj x → d ∈ l1.

Lemma ordered_nil : ordered [].
Proof. intros l1 x l2 H. by destruct l1. Qed.

Lemma ordered_snoc l x : ordered l → (∀ d, d ∈ deps adj x → d ∈ l) → ordered (l ++ [x]).
Proof.
  intros Hl Hx l1 y l2 H d Hd. destruct l2 as [|z l2 _] using rev_ind.
  - apply app_inj_tail in H as [-> ->]. auto.
  - rewrite app_comm_cons, app_assoc in H. apply app_inj_tail in H as [-> ->].
    by apply (Hl l1 y l2).
Qed.

(** [l] lists the finished nodes, in finishing order. *)
Record finished s l : Prop := {
  fin_black : ∀ n, colour s !! n = Some Black ↔ n ∈ l;
  fin_NoDup : NoDup l;
  fin_ordered : ordered l }.

(** What a completed search of some nodes did. *)
Definition extends s s' l l' : Prop :=
  finished s' (l ++ l') ∧ (∀ n, colour s' !! n = Some Gray ↔ colour s !! n = Some Gray).

Lemma visit_sound rec node ds s l s' :
  (∀ d s1 l1 s1', rec d s1 = Some (None, s1') → colour s1 !! d = None → finished s1 l1 →
     ∃ l', extends s1 s1' l1 l' ∧ d ∈ l') →
  finished s l → visit rec node ds s = Some (None, s') →
  ∃ l', extends s s' l l' ∧ ∀ d, d ∈ ds → d ∈ l ++ l'.
Proof.
  intros Hrec. revert s l; induction ds as [|d ds IH]; intros s l Hfin; cbn [visit].
  { intros [= <-]. exists []. rewrite app_nil_r. split; [by split; rewrite ?app_nil_r|].
    by intros d ?%not_elem_of_nil. }
  destruct (colour s !! d) as [[]|] eqn:Hd; [done| |].
  - intros H. destruct (IH s l Hfin H) as (l' & Hext & Hin). exists l'. split; [done|].
    intros x [->|Hx]%elem_of_cons; [|auto]. apply elem_of_app. left. by apply (fin_black _ _ Hfin).
  - destruct (rec d s) as [[[c|] s1]|] eqn:Hr; [done| |done].
    destruct (Hrec _ _ _ _ Hr Hd Hfin) as (l1 & [Hf1 Hg1] & Hd1). intros H.
    destruct (IH s1 (l ++ l1) Hf1 H) as (l2 & [Hf2 Hg2] & Hin). exists (l1 ++ l2).
    rewrite app_assoc. split; [split; [by rewrite app_assoc|]|].
    + intros n. by rewrite Hg2, Hg1.
    + intros x [->|Hx]%elem_of_cons; [|auto]. rewrite !elem_of_app. auto.
Qed.

Lemma dfs_sound fuel node s l s' :
  dfs fuel adj node s = Some (None, s') → colour s !! node = None → finished s l →
  ∃ l', extends s s' l l' ∧ node ∈ l'.
Proof.
  revert node s l s'; induction fuel as [|fuel IH]; intros node s l s'; cbn [dfs]; [done|].
  intros H Hw Hfin.
  set (s0 := mkSearch (<[node := Gray]> (colour s)) (stack s ++ [node])) in H.
  assert (finished s0 l) as Hf0.
  { constructor; [|apply Hfin..]. intros n. simpl. destruct (decide (n = node)) as [->|Hn].
    - rewrite lookup_insert_eq. split; [done|]. intros Hin. apply (fin_black _ _ Hfin) in Hin. congruence.
    - rewrite lookup_insert_ne by done. apply Hfin. }
  destruct (visit _ _ _ s0) as [[[c|] s1]|] eqn:Hv; [done| |done]. injection H as <-.
  destruct (visit_sound _ _ _ _ _ _ IH Hf0 Hv) as (l1 & [Hf1 Hg1] & Hin).
  assert (colour s1 !! node = Some Gray) as Hgray by (apply Hg1; apply lookup_insert_eq).
  exists (l1 ++ [node]). split; [split; [constructor|]|apply elem_of_app; right; by constructor].
  - intros n. simpl. rewrite app_assoc, elem_of_app, list_elem_of_singleton.
    destruct (decide (n = node)) as [->|Hn].
    + rewrite lookup_insert_eq. naive_solver.
    + rewrite lookup_insert_ne by done. rewrite (fin_black _ _ Hf1). naive_solver.
  - rewrite app_assoc. apply NoDup_app. split_and!; [apply Hf1| |apply NoDup_singleton].
    intros n Hn ->%list_elem_of_singleton. apply (fin_black _ _ Hf1) in Hn. congruence.
  - rewrite app_assoc. apply ordered_snoc; [apply Hf1|]. intros d Hd. apply Hin.
    by apply elem_of_sortStrings.
  - intros n. simpl. destruct (decide (n = node)) as [->|Hn].
    + rewrite lookup_insert_eq, Hw. done.
    + rewrite lookup_insert_ne, Hg1 by done. simpl. by rewrite lookup_insert_ne.
Qed.

Lemma dfsAll_sound fuel nodes s l s' :
  dfsAll fuel adj nodes s = Some (None, s') → finished s l →
  (∀ n, colour s !! n ≠ Some Gray) →
  ∃ l', finished s' (l ++ l') ∧ ∀ n, n ∈ nodes → n ∈ l ++ l'.
Proof.
  revert s l; induction nodes as [|n nodes IH]; intros s l; cbn [dfsAll].
  { intros [= <-] Hf _. exists []. rewrite app_nil_r. split; [done|]. by intros n ?%not_elem_of_nil. }
  destruct (colour s !! n) as [c|] eqn:Hn.
  - intros H Hf Hg. destruct (IH s l H Hf Hg) as (l' & Hf' & Hin). exists l'. split; [done|].
    intros x [->|Hx]%elem_of_cons; [|auto]. apply elem_of_app. left. apply (fin_black _ _ Hf).
    destruct c; [by destruct (Hg n)|done].
  - destruct (dfs fuel adj n s) as [[[c|] s1]|] eqn:Hd; [done| |done]. intros H Hf Hg.
    destruct (dfs_sound _ _ _ _ _ Hd Hn Hf) as (l1 & [Hf1 Hg1] & Hin1).
    destruct (IH s1 (l ++ l1) H Hf1) as (l2 & Hf2 & Hin).
    { intros x Hx. apply (Hg x). by apply Hg1. }
    exists (l1 ++ l2). rewrite app_assoc. split; [done|].
    intros x [->|Hx]%elem_of_cons; [|auto]. rewrite !elem_of_app. auto.
Qed.

(** The search ends: each recursive call colours a white node of [U]. *)
Section fuel.
  Context (U : gset string) (Hclosed : ∀ x, x ∈ U → ∀ d, d ∈ deps adj x → d ∈ U).

Definition whites s : nat := size (U ∖ dom (colour s)).

Lemma whites_mono s s' : dom (colour s) ⊆ dom (colour s') → whites s' ≤ whites s.
Proof. intros H. unfold whites. apply subseteq_size. set_solver. Qed.

Lemma visit_total rec fuel node ds s :
  (∀ d s1, d ∈ U → colour s1 !! d = None → whites s1 ≤ fuel →
     ∃ r s1', rec d s1 = Some (r, s1') ∧ dom (colour s1) ⊆ dom (colour s1')) →
  (∀ d, d ∈ ds → d ∈ U) → whites s ≤ fuel →
  ∃ r s', visit rec node ds s = Some (r, s') ∧ dom (colour s) ⊆ dom (colour s').
Proof.
  intros Hrec. revert s; induction ds as [|d ds IH]; intros s HU Hf; cbn [visit]; [by eauto|].
  assert (∀ x, x ∈ ds → x ∈ U) as HU' by (intros x Hx; apply HU; by constructor).
  destruct (colour s !! d) as [[]|] eqn:Hd; [by eauto|by apply IH|].
  destruct (Hrec d s) as (r & s1 & -> & Hdom); [apply HU; by constructor|done|done|].
  destruct r as [c|]; [by eauto|].
  destruct (IH s1 HU') as (r & s2 & -> & Hdom2).
  { pose proof (whites_mono _ _ Hdom). lia. }
  eexists _, _. split; [done|]. by transitivity (dom (colour s1)).
Qed.

Lemma dfs_total fuel node s :
  node ∈ U → colour s !! node = None → whites s ≤ fuel →
  ∃ r s', dfs fuel adj node s = Some (r, s') ∧ dom (colour s) ⊆ dom (colour s').
Proof.
  revert node s; induction fuel as [|fuel IH]; intros node s HU Hw Hf.
  { exfalso. assert (node ∈ U ∖ dom (colour s)) as Hin.
    { apply elem_of_difference. split; [done|]. by apply not_elem_of_dom. }
    assert (U ∖ dom (colour s) ≡ ∅) as He by (apply size_empty_iff; unfold whites in Hf; lia).
    set_solver. }
  cbn [dfs]. set (s0 := mkSearch (<[node := Gray]> (colour s)) (stack s ++ [node])).
  assert (dom (colour s) ⊆ dom (colour s0)) as H0 by (simpl; rewrite dom_insert_L; set_solver).
  destruct (visit_total (dfs fuel adj) fuel node (sortStrings (deps adj node)) s0) as (r & s1 & -> & Hdom).
  - intros d s1 Hd Hw1 Hf1. by apply IH.
  - intros d Hd. apply (Hclosed node HU). by apply elem_of_sortStrings.
  - unfold whites in *. simpl. rewrite dom_insert_L.
    assert (size (U ∖ ({[node]} ∪ dom (colour s))) < size (U ∖ dom (colour s))); [|lia].
    apply subset_size. split; [set_solver|]. intros Hsub.
    assert (node ∈ U ∖ dom (colour s)) as Hin.
    { apply elem_of_difference. split; [done|]. by apply not_elem_of_dom. }
    apply Hsub in Hin. set_solver.
  - destruct r as [c|]; eexists _, _; (split; [done|]); simpl; [set_solver|].
    rewrite dom_insert_L. set_solver.
Qed.

Lemma dfsAll_total fuel nodes s :
  (∀ n, n ∈ nodes → n ∈ U) → size U ≤ fuel →
  ∃ r s', dfsAll fuel adj nodes s = Some (r, s').
Proof.
  intros HU Hf. revert s; induction nodes as [|n nodes IH]; intros s; cbn [dfsAll]; [by eauto|].
  assert (∀ x, x ∈ nodes → x ∈ U) as HU' by (intros x Hx; apply HU; by constructor).
  destruct (colour s !! n) eqn:Hn; [by apply IH|].
  destruct (dfs_total fuel n s) as (r & s1 & -> & _); [apply HU; by constructor|done| |].
  - unfold whites. etransitivity; [|exact Hf]. apply subseteq_size. set_solver.
  - destruct r; [by eauto|]. by apply IH.
Qed.
End fuel.
End search.

(** ** Adjacency *)

Lemma deps_adjacency_snoc ps p n :
  deps (adjacency (ps ++ [p])) n = if decide (n = ID p) then Dependencies p else deps (adjacency ps) n.
Proof.
  unfold adjacency, deps. rewrite foldl_app. simpl. case_decide as Hn.
  - subst n. by rewrite lookup_insert_eq.
  - by rewrite lookup_insert_ne.
Qed.

Lemma deps_adjacency ps p :
  NoDup (ID <$> ps) → p ∈ ps → deps (adjacency ps) (ID p) = Dependencies p.
Proof.
  induction ps as [|q ps IH] using rev_ind; [by intros _ ?%not_elem_of_nil|].
  rewrite fmap_app, deps_adjacency_snoc. intros Hnd Hin. apply NoDup_app in Hnd as (Hnd & Hni & _).
  apply elem_of_app in Hin as [Hin|Hin].
  - rewrite decide_False; [by apply IH|]. intros Heq. apply (Hni (ID p)).
    + by apply list_elem_of_fmap_2.
    + rewrite Heq. simpl. by constructor.
  - apply list_elem_of_singleton in Hin as ->. by rewrite decide_True.
Qed.

Lemma elem_of_deps_adjacency ps n d :
  d ∈ deps (adjacency ps) n → n ∈ ID <$> ps ∧ d ∈ mjoin (Dependencies <$> ps).
Proof.
  induction ps as [|p ps IH] using rev_ind.
  { unfold deps, adjacency. simpl. rewrite lookup_empty. by intros ?%not_elem_of_nil. }
  rewrite deps_adjacency_snoc, !fmap_app, !elem_of_app, list_elem_of_join. case_decide as Hn.
  - intros Hd. subst n. split; [right; by constructor|].
    exists (Dependencies p). split; [done|]. rewrite elem_of_app. right. by constructor.
  - intros [Hi Hd]%IH. split; [by left|]. apply list_elem_of_join in Hd as (l & ? & Hl).
    exists l. split; [done|]. rewrite elem_of_app. by left.
Qed.

Lemma detectCycle_total ps : ∃ r, detectCycle ps = Some r.
Proof.
  unfold detectCycle. pose proof (elem_of_deps_adjacency ps) as Hdeps.
  set (U := list_to_set (ID <$> ps) ∪ list_to_set (mjoin (Dependencies <$> ps)) : gset string).
  destruct (dfsAll_total (adjacency ps) U) with (fuel := searchFuel ps)
    (nodes := sortStrings (ID <$> ps)) (s := mkSearch ∅ []) as (r & s' & ->); [| | |by exists r].
  - intros x _ d Hd. apply Hdeps in Hd as [_ Hd]. apply elem_of_union. right.
    by apply elem_of_list_to_set.
  - intros n Hn. rewrite elem_of_sortStrings in Hn. apply elem_of_union. left.
    by apply elem_of_list_to_set.
  - unfold searchFuel, U. rewrite size_union_alt.
    pose proof (size_list_to_set_le (ID <$> ps)) as H1. rewrite length_fmap in H1.
    pose proof (size_list_to_set_le (mjoin (Dependencies <$> ps))) as H2.
    assert (size (list_to_set (mjoin (Dependencies <$> ps)) ∖ list_to_set (ID <$> ps) : gset string)
            ≤ size (list_to_set (mjoin (Dependencies <$> ps)) : gset string)).
    { apply subseteq_size. set_solver. } lia.
Qed.

(** A graph without a reported cycle has an order of all its packages in which
    dependencies come first. *)
Lemma detectCycle_None ps :
  detectCycle ps = Some None →
  ∃ l, NoDup l ∧ ordered (adjacency ps) l ∧ ∀ p, p ∈ ps → ID p ∈ l.
Proof.
  unfold detectCycle. intros ([r s'] & Hr & Heq)%fmap_Some. simpl in Heq. subst r.
  destruct (dfsAll_sound _ _ _ _ [] _ Hr) as (l & Hf & Hin).
  - constructor; [|constructor|apply ordered_nil]. intros n. simpl. rewrite lookup_empty.
    split; [done|by intros ?%not_elem_of_nil].
  - intros n. simpl. by rewrite lookup_empty.
  - exists l. split_and!; [apply Hf..|]. intros p Hp. apply Hin, elem_of_sortStrings.
    by apply list_elem_of_fmap_2.
Qed.

(** ** Weak connectivity *)

(** One package depends on the other. *)
Definition linked (ps : list WorkPackage) (a b : string) : Prop :=
  ∃ p, p ∈ ps ∧ ((ID p = a ∧ b ∈ Dependencies p) ∨ (ID p = b ∧ a ∈ Dependencies p)).

Definition neighbours (adj : gmap string (gset string)) (a : string) : gset string := default ∅ (adj !! a).

Lemma elem_of_undirected ps a b :
  b ∈ neighbours (undirected ps) a → linked ps a b ∧ b ∈ ID <$> ps.
Proof.
  unfold undirected. set (present := list_to_set (ID <$> ps) : gset string).
  set (add := λ a b (m : gmap string (gset string)), <[a := {[b]} ∪ default ∅ (m !! a)]> m).
  assert (∀ qs m, qs ⊆ ps →
    (∀ a b, b ∈ neighbours m a → linked ps a b ∧ b ∈ ID <$> ps) →
    ∀ a b, b ∈ neighbours (foldl (λ m p, foldl (λ m d,
      if bool_decide (d ∈ present) then add d (ID p) (add (ID p) d m) else m) m (Dependencies p)) m qs) a →
      linked ps a b ∧ b ∈ ID <$> ps) as H.
  { induction qs as [|p qs IH]; intros m Hqs Hm; [done|]. cbn [foldl].
    assert (p ∈ ps) as Hp by (apply Hqs; by constructor).
    apply IH; [intros x Hx; apply Hqs; by constructor|].
    assert (∀ ds, ds ⊆ Dependencies p → ∀ m,
      (∀ a b, b ∈ neighbours m a → linked ps a b ∧ b ∈ ID <$> ps) →
      ∀ a b, b ∈ neighbours (foldl (λ m d,
        if bool_decide (d ∈ present) then add d (ID p) (add (ID p) d m) else m) m ds) a →
        linked ps a b ∧ b ∈ ID <$> ps) as Hds; [|by apply Hds].
    induction ds as [|d ds IHd]; intros Hsub m' Hm'; [done|]. cbn [foldl]. apply IHd.
    { intros x Hx. apply Hsub. by constructor. }
    assert (d ∈ Dependencies p) as Hd by (apply Hsub; by constructor).
    assert (∀ a b m, (linked ps a b ∧ b ∈ ID <$> ps) →
      (∀ a b, b ∈ neighbours m a → linked ps a b ∧ b ∈ ID <$> ps) →
      (∀ x y, y ∈ neighbours (add a b m) x → linked ps x y ∧ y ∈ ID <$> ps)) as Hadd.
    { intros x y m0 Hxy Hm0 u v. unfold neighbours, add. destruct (decide (u = x)) as [->|Hu].
      - rewrite lookup_insert_eq. simpl. rewrite elem_of_union, elem_of_singleton.
        intros [->|Hv]; [done|by apply Hm0].
      - rewrite lookup_insert_ne by done. apply Hm0. }
    case_bool_decide as Hpres; [|done]. unfold present in Hpres. rewrite elem_of_list_to_set in Hpres.
    apply Hadd; [|apply Hadd; [|done]].
    - split; [|by apply list_elem_of_fmap_2]. exists p. auto.
    - split; [|done]. exists p. auto. }
  apply H; [done|]. intros x y. unfold neighbours. rewrite lookup_empty. simpl. set_solver.
Qed.

Section bfs.
  Context (adj : gmap string (gset string)) (U : gset string)
    (Hadj : ∀ a b, b ∈ neighbours adj a → b ∈ U).

(** The queue loop reaches only what the root reaches, and ends: every
    iteration takes one node that was queued once. *)
Lemma bfs_spec (R : string → string → Prop) root fuel queue visited :
  (∀ a b, b ∈ neighbours adj a → R a b) →
  NoDup queue → (∀ n, n ∈ queue → n ∈ visited) → visited ⊆ U →
  (∀ n, n ∈ visited → rtc R root n) →
  size U - size visited + length queue ≤ fuel →
  ∃ v, bfs fuel adj queue visited = Some v ∧ (∀ n, n ∈ v → rtc R root n).
Proof.
  intros HR. revert queue visited; induction fuel as [|fuel IH]; intros [|cur queue] visited Hnd Hq HU Hr Hf;
    cbn [bfs]; [by eauto| |by eauto|].
  { cbn [length] in Hf. lia. }
  set (new := filter (λ n, n ∉ visited) (elements (default ∅ (adj !! cur)))).
  assert (∀ n, n ∈ new ↔ n ∉ visited ∧ n ∈ neighbours adj cur) as Hnew.
  { intros n. unfold new. rewrite list_elem_of_filter, elem_of_elements. done. }
  apply NoDup_cons in Hnd as [_ Hnd].
  apply IH.
  - apply NoDup_app. split_and!; [done| |apply NoDup_filter, NoDup_elements].
    intros n Hn Hn2. apply Hnew in Hn2 as [Hn2 _]. apply Hn2, Hq. by constructor.
  - intros n. rewrite elem_of_app, elem_of_union, elem_of_list_to_set. intros [Hn|Hn]; [left|by right].
    apply Hq. by constructor.
  - intros n. rewrite elem_of_union, elem_of_list_to_set. intros [Hn|Hn]; [auto|].
    apply (Hadj cur). by apply Hnew.
  - intros n. rewrite elem_of_union, elem_of_list_to_set. intros [Hn|Hn]; [auto|].
    apply Hnew in Hn as [_ Hn]. eapply rtc_r; [apply Hr, Hq; by constructor|auto].
  - rewrite size_union, size_list_to_set.
    + assert (size (visited ∪ list_to_set new) ≤ size U) as Hle.
      { apply subseteq_size. intros n. rewrite elem_of_union, elem_of_list_to_set. intros [Hn|Hn]; [auto|].
        apply (Hadj cur). by apply Hnew. }
      rewrite size_union, size_list_to_set in Hle.
      * rewrite length_app. cbn [length] in Hf. lia.
      * apply NoDup_filter, NoDup_elements.
      * intros n Hn. rewrite elem_of_list_to_set. intros Hn2. by apply Hnew in Hn2 as [? _].
    + apply NoDup_filter, NoDup_elements.
    + intros n Hn. rewrite elem_of_list_to_set. intros Hn2. by apply Hnew in Hn2 as [? _].
Qed.
End bfs.

Lemma linked_sym ps a b : rtc (linked ps) a b → rtc (linked ps) b a.
Proof.
  induction 1 as [|x y z (p & Hp & H) _ IH]; [done|].
  eapply rtc_r; [exact IH|]. exists p. split; [done|]. destruct H; auto.
Qed.

Lemma weaklyUnreachable_spec ps :
  ∃ l, weaklyUnreachable ps = Some l ∧
    (l = [] → ∀ p q, p ∈ ps → q ∈ ps → rtc (linked ps) (ID p) (ID q)).
Proof.
  destruct ps as [|p0 ps]; [exists []; split; [done|]; by intros _ p q ?%not_elem_of_nil|].
  set (all := p0 :: ps).
  change (weaklyUnreachable all) with
    (visited ← bfs (S (length all)) (undirected all) [ID p0] {[ID p0]};
     Some (filter (λ id, id ∉ visited) (ID <$> all))).
  destruct (bfs_spec (undirected all) (list_to_set (ID <$> all)) ) with
    (R := linked all) (root := ID p0) (fuel := S (length all)) (queue := [ID p0])
    (visited := {[ID p0]} : gset string) as (v & Hv & Hreach).
  - intros a b [_ Hb]%elem_of_undirected. by apply elem_of_list_to_set.
  - by intros a b [Hb _]%elem_of_undirected.
  - apply NoDup_singleton.
  - intros n. rewrite list_elem_of_singleton, elem_of_singleton. done.
  - intros n. rewrite elem_of_singleton, elem_of_list_to_set. intros ->. by constructor.
  - intros n. rewrite elem_of_singleton. by intros ->.
  - pose proof (size_list_to_set_le (ID <$> all)) as Hle. rewrite length_fmap in Hle.
    rewrite size_singleton. change (length [ID p0]) with 1. lia.
  - rewrite Hv. eexists. split; [reflexivity|]. intros Hnil.
    assert (∀ p, p ∈ all → rtc (linked all) (ID p0) (ID p)) as Hroot.
    { intros p Hp. apply Hreach. destruct (decide (ID p ∈ v)) as [?|Hni]; [done|].
      assert (ID p ∈ filter (λ id, id ∉ v) (ID <$> all)) as Hin.
      { apply list_elem_of_filter. split; [done|]. by apply list_elem_of_fmap_2. }
      rewrite Hnil in Hin. by apply not_elem_of_nil in Hin. }
    intros p q Hp Hq. transitivity (ID p0); [|by apply Hroot].
    apply linked_sym. by apply Hroot.
Qed.

(** ** The topological order *)

Lemma insertSorted_Permutation n l : insertSorted n l ≡ₚ n :: l.
Proof.
  induction l as [|x l IH]; simpl; [done|]. destruct (String.leb n x); [done|].
  rewrite IH. constructor.
Qed.

Lemma foldl_addEdge id ds acc :
  NoDup ds →
  let r := foldl (addEdge id) acc ds in
  (∀ d, default [] (r.1 !! d) = default [] (acc.1 !! d) ++ (if decide (d ∈ ds) then [id] else [])) ∧
  (∀ z, acc.2 !! id = Some z → r.2 !! id = Some (z + Z.of_nat (length ds))%Z) ∧
  (∀ n, n ≠ id → r.2 !! n = acc.2 !! n).
Proof.
  cbv zeta. revert acc; induction ds as [|x ds IH]; intros acc Hnd.
  { cbn [foldl]. split_and!; [intros d; by rewrite app_nil_r| |done].
    intros z ->. f_equal. cbn [length]. lia. }
  apply NoDup_cons in Hnd as [Hni Hnd]. destruct (IH (addEdge id acc x) Hnd) as (H1 & H2 & H3).
  cbn [foldl]. split_and!.
  - intros d. rewrite H1. unfold addEdge. cbn [fst]. destruct (decide (d = x)) as [->|Hd].
    + rewrite lookup_insert_eq. simpl. rewrite decide_False, decide_True by (done || by constructor).
      by rewrite app_nil_r.
    + rewrite lookup_insert_ne by done. f_equal.
      destruct (decide (d ∈ ds)); [rewrite decide_True|rewrite decide_False]; try done;
        rewrite elem_of_cons; naive_solver.
  - intros z Hz. rewrite (H2 (z + 1)%Z); [f_equal; cbn [length]; lia|].
    unfold addEdge. cbn [snd]. by rewrite lookup_insert_eq, Hz.
  - intros n Hn. rewrite H3 by done. unfold addEdge. cbn [snd]. by rewrite lookup_insert_ne.
Qed.

Lemma foldl_releaseOne L m r :
  NoDup L →
  let z := foldl releaseOne (m, r) L in
  (∀ n, z.1 !! n = if decide (n ∈ L) then Some (default 0%Z (m !! n) - 1)%Z else m !! n) ∧
  z.2 ≡ₚ r ++ filter (λ n, default 0%Z (m !! n) = 1%Z) L.
Proof.
  cbv zeta. revert m r; induction L as [|x L IH]; intros m r Hnd.
  { cbn [foldl]. split; [|by rewrite filter_nil, app_nil_r]. intros n. by rewrite decide_False by apply not_elem_of_nil. }
  apply NoDup_cons in Hnd as [Hni Hnd]. cbn [foldl]. unfold releaseOne at 2 4. cbn [fst snd].
  set (m1 := <[x := _]> m). set (r1 := if (_ =? 0)%Z then _ else _).
  destruct (IH m1 r1 Hnd) as [H1 H2].
  assert (∀ n, n ∈ L → m1 !! n = m !! n) as Hsame.
  { intros n Hn. unfold m1. apply lookup_insert_ne. congruence. }
  split.
  - intros n. rewrite H1. destruct (decide (n = x)) as [->|Hn].
    + rewrite decide_False, decide_True by (done || by constructor). apply lookup_insert_eq.
    + destruct (decide (n ∈ L)) as [Hin|Hin].
      * rewrite Hsame, decide_True by (done || by constructor). done.
      * rewrite decide_False by (rewrite elem_of_cons; naive_solver). unfold m1.
        by rewrite lookup_insert_ne.
  - rewrite H2. assert (filter (λ n, default 0%Z (m1 !! n) = 1%Z) L = filter (λ n, default 0%Z (m !! n) = 1%Z) L) as ->.
    { apply filter_ext_elem. intros n Hn. by rewrite Hsame. }
    rewrite filter_cons. unfold r1.
    destruct (Z.eqb_spec (default 0%Z (m !! x) - 1) 0).
    + rewrite decide_True by lia. rewrite insertSorted_Permutation. simpl. by rewrite Permutation_middle.
    + by rewrite decide_False by lia.
Qed.

Section kahn.
  Context (ps : list WorkPackage)
    (Hids : NoDup (ID <$> ps))
    (Hnd : ∀ p, p ∈ ps → NoDup (Dependencies p))
    (Hdeps : ∀ p d, p ∈ ps → d ∈ Dependencies p → d ∈ ID <$> ps).

Lemma same_id p q : p ∈ ps → q ∈ ps → ID p = ID q → p = q.
Proof.
  intros Hp Hq Heq. apply list_elem_of_lookup in Hp as [i Hi]. apply list_elem_of_lookup in Hq as [j Hj].
  assert (i = j) as ->; [|congruence].
  eapply NoDup_lookup; [exact Hids| |]; rewrite list_lookup_fmap; [by rewrite Hi|].
  rewrite Hj. simpl. by rewrite Heq.
Qed.

Lemma kahnMaps_spec :
  let '(adj, inDeg) := kahnMaps ps in
  (∀ d, default [] (adj !! d) = ID <$> filter (λ p, d ∈ Dependencies p) ps) ∧
  (∀ p, p ∈ ps → inDeg !! ID p = Some (Z.of_nat (length (Dependencies p)))) ∧
  (∀ n z, inDeg !! n = Some z → n ∈ ID <$> ps).
Proof.
  unfold kahnMaps. set (m0 := list_to_map _ : gmap string Z).
  assert (∀ p, p ∈ ps → m0 !! ID p = Some 0%Z) as Hm0.
  { intros p Hp. unfold m0. apply elem_of_list_to_map_1.
    - rewrite <-list_fmap_compose. exact Hids.
    - apply list_elem_of_fmap. by exists p. }
  assert (∀ n z, m0 !! n = Some z → n ∈ ID <$> ps) as Hdom0.
  { intros n z Hz. apply elem_of_list_to_map_2 in Hz. apply list_elem_of_fmap in Hz as (p & Heq & Hp).
    simplify_eq. by apply list_elem_of_fmap_2. }
  assert (∀ qs rest, ps = qs ++ rest →
    let r := foldl (λ acc p, foldl (addEdge (ID p)) acc (Dependencies p)) (∅, m0) qs in
    (∀ d, default [] (r.1 !! d) = ID <$> filter (λ p, d ∈ Dependencies p) qs) ∧
    (∀ p, p ∈ ps → r.2 !! ID p = Some (if decide (ID p ∈ ID <$> qs) then Z.of_nat (length (Dependencies p)) else 0%Z)) ∧
    (∀ n, n ∉ ID <$> ps → r.2 !! n = None)) as H.
  { induction qs as [|q qs IH] using rev_ind; intros rest Heq; cbv zeta.
    { cbn [foldl]. split_and!.
      - intros d. cbn [fst]. by rewrite lookup_empty.
      - intros p Hp. cbn [snd]. rewrite decide_False by apply not_elem_of_nil. by apply Hm0.
      - intros n Hn. cbn [snd]. destruct (m0 !! n) eqn:Hz; [|done]. by apply Hdom0 in Hz. }
    rewrite <-app_assoc in Heq. destruct (IH (q :: rest) Heq) as (Ha & Hb & Hc).
    rewrite foldl_app. cbn [foldl].
    set (acc := foldl _ (∅, m0) qs) in *.
    assert (q ∈ ps) as Hq by (rewrite Heq, elem_of_app; right; by constructor).
    assert (ID q ∉ ID <$> qs) as Hqs.
    { pose proof Hids as Hx. rewrite Heq, fmap_app in Hx. apply NoDup_app in Hx as (_ & Hx & _).
      intros Hin. apply (Hx _ Hin). simpl. by constructor. }
    destruct (foldl_addEdge (ID q) (Dependencies q) acc (Hnd q Hq)) as (H1 & H2 & H3).
    split_and!.
    - intros d. rewrite H1, Ha, filter_app, fmap_app. f_equal. rewrite filter_cons, filter_nil.
      by case_decide.
    - intros p Hp. destruct (decide (ID p = ID q)) as [Hpq|Hpq].
      + assert (p = q) as -> by (by apply same_id).
        rewrite (H2 0%Z); [|by rewrite Hb, decide_False].
        rewrite decide_True; [f_equal; lia|]. rewrite fmap_app, elem_of_app. right. by constructor.
      + rewrite H3, Hb by done. f_equal.
        destruct (decide (ID p ∈ ID <$> qs)) as [Hin|Hin]; [rewrite decide_True|rewrite decide_False]; try done;
          rewrite fmap_app, elem_of_app; [by left|].
        intros [?|Hx]; [done|]. by apply list_elem_of_singleton in Hx.
    - intros n Hn. rewrite H3; [by apply Hc|]. intros ->. apply Hn. by apply list_elem_of_fmap_2. }
  destruct (H ps [] (eq_sym (app_nil_r ps))) as (Ha & Hb & Hc).
  destruct (foldl _ (∅, m0) ps) as [adj inDeg]. cbn [fst snd] in *. split_and!; [done| |].
  - intros p Hp. rewrite Hb, decide_True; [done|by apply list_elem_of_fmap_2|done].
  - intros n z Hz. destruct (decide (n ∈ ID <$> ps)) as [?|Hni]; [done|]. by rewrite Hc in Hz.
Qed.

(** The state of the loop: [out] is done in order, [ready] holds exactly the
    packages all whose dependencies are done, and the degrees count the
    dependencies that are not. *)
Record kahn_inv (inDeg : gmap string Z) (ready out : list string) : Prop := {
  ki_out : NoDup out;
  ki_ids : ∀ n, n ∈ out → n ∈ ID <$> ps;
  ki_deg : ∀ p, p ∈ ps → inDeg !! ID p = Some (Z.of_nat (length (filter (λ d, d ∉ out) (Dependencies p))));
  ki_NoDup : NoDup ready;
  ki_ready : ∀ n, n ∈ ready ↔ n ∉ out ∧ ∃ p, p ∈ ps ∧ ID p = n ∧ ∀ d, d ∈ Dependencies p → d ∈ out;
  ki_order : ∀ l1 x l2, out = l1 ++ x :: l2 → ∀ p, p ∈ ps → ID p = x → ∀ d, d ∈ Dependencies p → d ∈ l1 }.

Lemma filter_nil_all (l out : list string) :
  length (filter (λ d, d ∉ out) l) = 0 ↔ ∀ d, d ∈ l → d ∈ out.
Proof.
  split.
  - intros H%nil_length_inv d Hd. destruct (decide (d ∈ out)) as [?|Hn]; [done|].
    assert (d ∈ filter (λ d, d ∉ out) l) as Hin by (by apply list_elem_of_filter).
    rewrite H in Hin. by apply not_elem_of_nil in Hin.
  - intros H. destruct (filter (λ d, d ∉ out) l) as [|x l'] eqn:E; [done|].
    assert (x ∈ filter (λ d, d ∉ out) l) as Hx by (rewrite E; by constructor).
    apply list_elem_of_filter in Hx as [Hx Hxl]. by apply H in Hxl.
Qed.

(** Finishing [cur] lowers the count of exactly its dependents by one. *)
Lemma filter_snoc_length (l out : list string) cur :
  NoDup l → cur ∉ out →
  length (filter (λ d, d ∉ out) l) =
    length (filter (λ d, d ∉ out ++ [cur]) l) + (if decide (cur ∈ l) then 1 else 0).
Proof.
  intros Hl Hc. induction l as [|x l IH]; [done|]. apply NoDup_cons in Hl as [Hx Hl].
  specialize (IH Hl). rewrite !filter_cons. destruct (decide (x = cur)) as [->|Hne].
  - rewrite decide_False in IH by done. rewrite (decide_True (P := cur ∈ cur :: l)) by constructor.
    rewrite decide_True by done.
    rewrite (decide_False (P := cur ∉ out ++ [cur])) by (rewrite elem_of_app, list_elem_of_singleton; naive_solver).
    cbn [length]. lia.
  - assert ((x ∉ out ++ [cur]) ↔ x ∉ out) as Hiff
      by (rewrite elem_of_app, list_elem_of_singleton; naive_solver).
    assert ((cur ∈ x :: l) ↔ cur ∈ l) as Hiff2 by (rewrite elem_of_cons; naive_solver).
    rewrite (decide_ext _ _ _ _ Hiff2).
    destruct (decide (x ∉ out)) as [H|H]; [rewrite decide_True by naive_solver|rewrite decide_False by naive_solver];
      cbn [length]; lia.
Qed.

Lemma kahn_step (adj : gmap string (list string)) inDeg cur ready out :
  (∀ d, default [] (adj !! d) = ID <$> filter (λ p, d ∈ Dependencies p) ps) →
  kahn_inv inDeg (cur :: ready) out →
  let '(inDeg', ready') := foldl releaseOne (inDeg, ready) (sortStrings (default [] (adj !! cur))) in
  kahn_inv inDeg' ready' (out ++ [cur]).
Proof.
  intros Hadj [Hout Hsub Hdeg Hnr Hr Hord].
  set (L := sortStrings (default [] (adj !! cur))).
  assert (NoDup L) as HL.
  { unfold L. rewrite sortStrings_Permutation, Hadj. by apply NoDup_fmap_filter. }
  assert (∀ n, n ∈ L ↔ ∃ p, p ∈ ps ∧ ID p = n ∧ cur ∈ Dependencies p) as HinL.
  { intros n. unfold L. rewrite elem_of_sortStrings, Hadj, list_elem_of_fmap.
    setoid_rewrite list_elem_of_filter. naive_solver. }
  destruct (foldl_releaseOne L inDeg ready HL) as [H1 H2].
  destruct (foldl releaseOne (inDeg, ready) L) as [inDeg' ready']. cbn [fst snd] in H1, H2.
  assert (cur ∈ cur :: ready) as Hcur by constructor.
  apply Hr in Hcur as (Hcout & pc & Hpc & Hidc & Hdc).
  apply NoDup_cons in Hnr as [Hcr Hnr].
  assert (∀ p, p ∈ ps → default 0%Z (inDeg !! ID p) =
    Z.of_nat (length (filter (λ d, d ∉ out) (Dependencies p)))) as Hd0.
  { intros p Hp. by rewrite Hdeg. }
  assert (∀ n, n ∈ ready' ↔ n ∈ ready ∨ (n ∈ L ∧ default 0%Z (inDeg !! n) = 1%Z)) as Hin'.
  { intros n. rewrite H2, elem_of_app, list_elem_of_filter. naive_solver. }
  constructor.
  - apply NoDup_app. split_and!; [done| |apply NoDup_singleton].
    intros n Hn ->%list_elem_of_singleton. done.
  - intros n. rewrite elem_of_app, list_elem_of_singleton. intros [Hn|Heq]; [auto|]. subst n.
    rewrite <-Hidc. by apply list_elem_of_fmap_2.
  - intros p Hp. rewrite H1. pose proof (filter_snoc_length (Dependencies p) out cur (Hnd p Hp) Hcout) as Hlen.
    destruct (decide (cur ∈ Dependencies p)) as [Hc|Hc].
    + rewrite decide_True by (apply HinL; by exists p). rewrite Hd0 by done. f_equal. lia.
    + rewrite decide_False, Hdeg by (done || (rewrite HinL; intros (q & Hq & Heq & Hcq);
        by rewrite (same_id q p Hq Hp Heq) in Hcq)). f_equal. lia.
  - rewrite H2. apply NoDup_app. split_and!; [done| |by apply NoDup_filter].
    intros n Hn Hn2. apply list_elem_of_filter in Hn2 as [Hone _].
    assert (n ∈ cur :: ready) as Hx by (by constructor).
    apply Hr in Hx as (_ & p & Hp & Heq & Hall). subst n. rewrite Hd0 in Hone by done.
    apply filter_nil_all in Hall. lia.
  - intros n. rewrite Hin', elem_of_app, list_elem_of_singleton. split.
    + intros [Hn|[Hn Hone]].
      * assert (n ∈ cur :: ready) as Hx by (by constructor).
        apply Hr in Hx as (Hno & p & Hp & Heq & Hall). split.
        -- intros [?|Heq2]; [done|]. subst n. congruence.
        -- exists p. split_and!; [done|done|]. intros d Hd. apply elem_of_app. auto.
      * apply HinL in Hn as (p & Hp & Heq & Hc). subst n. rewrite Hd0 in Hone by done.
        assert (ID p ∉ out) as Hpo.
        { intros Hpo. apply list_elem_of_lookup in Hpo as [i Hi].
          pose proof (take_drop_middle _ _ _ Hi) as Hsplit.
          assert (cur ∈ take i out) as Hx by (by eapply (Hord _ _ _ (eq_sym Hsplit) p)).
          apply Hcout. rewrite <-Hsplit, elem_of_app. by left. }
        pose proof (filter_snoc_length (Dependencies p) out cur (Hnd p Hp) Hcout) as Hlen.
        rewrite decide_True in Hlen by done. split.
        -- intros [?|Heq]; [done|]. assert (p = pc) as -> by (apply same_id; congruence).
           by apply Hcout, Hdc.
        -- exists p. split_and!; [done|done|]. apply filter_nil_all. lia.
    + intros (Hno & p & Hp & Heq & Hall).
      pose proof (filter_snoc_length (Dependencies p) out cur (Hnd p Hp) Hcout) as Hlen.
      apply filter_nil_all in Hall. rewrite Hall in Hlen.
      destruct (decide (cur ∈ Dependencies p)) as [Hc|Hc].
      * right. split; [apply HinL; by exists p|]. subst n. rewrite Hd0 by done. lia.
      * left. rewrite Nat.add_0_r in Hlen. rewrite filter_nil_all in Hlen. assert (n ∈ cur :: ready) as Hx.
        { apply Hr. split; [naive_solver|]. by exists p. }
        apply elem_of_cons in Hx as [->|Hx]; [naive_solver|done].
  - intros l1 x l2 Heq p Hp Hx d Hd. destruct l2 as [|y l2 _] using rev_ind.
    + apply app_inj_tail in Heq as [-> ->]. assert (p = pc) as -> by (apply same_id; congruence). auto.
    + rewrite app_comm_cons, app_assoc in Heq. apply app_inj_tail in Heq as [-> ->].
      by eapply (Hord l1 x l2).
Qed.

Lemma kahn_spec (adj : gmap string (list string)) fuel inDeg ready out :
  (∀ d, default [] (adj !! d) = ID <$> filter (λ p, d ∈ Dependencies p) ps) →
  kahn_inv inDeg ready out → length ps - length out < fuel →
  ∃ inDeg' l, kahn fuel adj inDeg ready out = Some l ∧ kahn_inv inDeg' [] l.
Proof.
  intros Hadj. revert inDeg ready out; induction fuel as [|fuel IH]; intros inDeg ready out Hi Hf; [lia|].
  destruct ready as [|cur ready]; cbn [kahn]; [by eauto|].
  pose proof (kahn_step adj inDeg cur ready out Hadj Hi) as Hs.
  destruct (foldl releaseOne _ _) as [inDeg' ready']. apply IH; [done|].
  assert (length (out ++ [cur]) ≤ length ps) as Hle.
  { rewrite <-(length_fmap ID ps). apply submseteq_length, NoDup_submseteq; apply Hs. }
  rewrite length_app in *. cbn [length] in *. lia.
Qed.

(** On an acyclic graph the loop empties: everything is done. *)
Lemma kahn_complete inDeg l order :
  kahn_inv inDeg [] l → ordered (adjacency ps) order → (∀ p, p ∈ ps → ID p ∈ order) →
  l ≡ₚ ID <$> ps.
Proof.
  intros Hi Hord Hall. apply NoDup_Permutation; [apply Hi|done|]. intros n. split; [apply Hi|].
  assert (∀ l1 l2, order = l1 ++ l2 → ∀ x, x ∈ l1 → x ∈ ID <$> ps → x ∈ l) as H.
  { induction l1 as [|x l1 IH] using rev_ind; intros l2 Heq y; [by intros ?%not_elem_of_nil|].
    rewrite <-app_assoc in Heq. rewrite elem_of_app, list_elem_of_singleton.
    intros [Hy|Hy] Hyp; [by eapply IH|]. subst y.
    apply list_elem_of_fmap in Hyp as (p & Hx & Hp). subst x.
    destruct (decide (ID p ∈ l)) as [?|Hni]; [done|]. exfalso.
    assert (ID p ∈ ([] : list string)) as Hx; [|by apply not_elem_of_nil in Hx].
    apply (ki_ready _ _ _ Hi). split; [done|]. exists p. split_and!; [done|done|].
    intros d Hd. eapply IH; [exact Heq| |by apply (Hdeps p)].
    apply (Hord l1 (ID p) l2 Heq). by rewrite deps_adjacency. }
  intros Hn. apply (H order [] (eq_sym (app_nil_r _))); [|done].
  apply list_elem_of_fmap in Hn as (p & -> & Hp). auto.
Qed.

Lemma topologicalOrder_spec order :
  ordered (adjacency ps) order → (∀ p, p ∈ ps → ID p ∈ order) →
  ∃ l, topologicalOrder ps = Some (Ok l) ∧ l ≡ₚ ID <$> ps ∧
    ∀ l1 x l2, l = l1 ++ x :: l2 → ∀ p, p ∈ ps → ID p = x → ∀ d, d ∈ Dependencies p → d ∈ l1.
Proof.
  intros Hord Hall. unfold topologicalOrder.
  assert (existsb (λ p, existsb (λ d, negb (bool_decide (d ∈ ID <$> ps))) (Dependencies p)) ps = false) as ->.
  { apply existsb_elem_false. intros p Hp. apply existsb_elem_false. intros d Hd.
    by rewrite bool_decide_true by (by eapply Hdeps). }
  pose proof kahnMaps_spec as Hm. destruct (kahnMaps ps) as [adj inDeg].
  destruct Hm as (Hadj & Hdeg & Hdom).
  destruct (kahn_spec adj (S (length ps)) inDeg
    (sortStrings (fst <$> filter (λ kv, kv.2 = 0%Z) (map_to_list inDeg))) [] Hadj) as (inDeg' & l & -> & Hi).
  - constructor.
    + constructor.
    + by intros n ?%not_elem_of_nil.
    + intros p Hp. rewrite Hdeg by done. do 2 f_equal.
      induction (Dependencies p) as [|d ds IHd]; [done|].
      rewrite filter_cons, decide_True by apply not_elem_of_nil. cbn [length]. by f_equal.
    + rewrite sortStrings_Permutation. apply NoDup_fmap_filter, NoDup_fst_map_to_list.
    + intros n. rewrite elem_of_sortStrings, list_elem_of_fmap. split.
      * intros ([k z] & -> & Hz). apply list_elem_of_filter in Hz as [Hz Hin]. simpl in *. subst z.
        apply elem_of_map_to_list in Hin. split; [apply not_elem_of_nil|].
        pose proof (Hdom _ _ Hin) as Hk. apply list_elem_of_fmap in Hk as (p & -> & Hp).
        exists p. split_and!; [done|done|]. rewrite Hdeg in Hin by done.
        intros d Hd. exfalso. destruct (Dependencies p); [by apply not_elem_of_nil in Hd|done].
      * intros (_ & p & Hp & <- & Hd). exists (ID p, 0%Z). split; [done|].
        apply list_elem_of_filter. split; [done|]. apply elem_of_map_to_list. rewrite Hdeg by done.
        destruct (Dependencies p) as [|d ds]; [done|]. exfalso.
        apply (not_elem_of_nil d). apply Hd. constructor.
    + intros l1 x l2 H. by destruct l1.
  - cbn [length]. lia.
  - simpl. pose proof (kahn_complete _ _ _ Hi Hord Hall) as Hperm. exists l.
    rewrite bool_decide_true by (by rewrite Hperm, length_fmap). split_and!; [done|done|apply Hi].
Qed.
End kahn.

(** ** Validation *)

Lemma when_nil b e : when b e = [] ↔ b = false.
Proof. by destruct b. Qed.

Lemma elem_of_trimAndDedup seen l s : s ∈ trimAndDedup seen l → s ∉ seen ∧ s ≠ "".
Proof.
  revert seen; induction l as [|x l IH]; intros seen; cbn [trimAndDedup]; [by intros ?%not_elem_of_nil|].
  case_bool_decide as He; cbn [orb]; [apply IH|]. case_bool_decide as Hs; [apply IH|].
  intros [->|Hin]%elem_of_cons; [done|]. apply IH in Hin as [Hin ?]. rewrite elem_of_cons in Hin. tauto.
Qed.

Lemma NoDup_trimAndDedup seen l : NoDup (trimAndDedup seen l).
Proof.
  revert seen; induction l as [|x l IH]; intros seen; cbn [trimAndDedup]; [constructor|].
  destruct (_ || _); [apply IH|]. constructor; [|apply IH].
  intros [Hin _]%elem_of_trimAndDedup. apply Hin. by constructor.
Qed.

Lemma foldl_ownAC id acs m e :
  NoDup acs →
  let r := foldl (ownAC id) (m, e) acs in
  (r.2 = [] → e = [] ∧ ∀ ac, ac ∈ acs → m !! ac = None) ∧
  (∀ ac, is_Some (r.1 !! ac) ↔ is_Some (m !! ac) ∨ ac ∈ acs).
Proof.
  cbv zeta. revert m e; induction acs as [|x acs IH]; intros m e Hnd; cbn [foldl].
  { cbn [fst snd]. split; [intros ->; split; [done|]; by intros ac ?%not_elem_of_nil|].
    intros ac. pose proof (not_elem_of_nil ac). tauto. }
  apply NoDup_cons in Hnd as [Hni Hnd].
  assert (ownAC id (m, e) x = match m !! x with
    | Some owner => (m, e ++ [ErrDuplicateAC x owner id]) | None => (<[x := id]> m, e) end) as -> by done.
  destruct (m !! x) as [o|] eqn:Hx.
  - destruct (IH m (e ++ [ErrDuplicateAC x o id]) Hnd) as [H1 H2]. split.
    + intros Hr. destruct (H1 Hr) as [Ha _]. by destruct e.
    + intros ac. rewrite H2, elem_of_cons. split; [tauto|]. intros [?|[->|?]]; [by left| |by right].
      left. by rewrite Hx.
  - destruct (IH (<[x := id]> m) e Hnd) as [H1 H2]. split.
    + intros Hr. destruct (H1 Hr) as [Ha Hb]. split; [done|].
      intros ac [->|Hac]%elem_of_cons; [done|]. pose proof (Hb ac Hac) as Hl.
      rewrite lookup_insert_ne in Hl; [done|congruence].
    + intros ac. rewrite H2, elem_of_cons. destruct (decide (ac = x)) as [->|Hne].
      * rewrite lookup_insert_eq. split; [auto|]. intros _. left. by eexists.
      * rewrite lookup_insert_ne by done. tauto.
Qed.

(** What the first loop demands of each package. *)
Record well_package (p : WorkPackage) : Prop := {
  wp_id : ID p ≠ "";
  wp_task : Package_TaskID p ≠ "";
  wp_stage : Package_Stage p ∈ AllStages;
  wp_title : Title p ≠ "";
  wp_objective : Objective p ≠ "";
  wp_state : PackageState_IsValid (State p) = true;
  wp_acs : AcceptedACIDs p ≠ [];
  wp_deps : NoDup (Dependencies p) }.

Lemma checkPackages_spec i ps s s' :
  checkPackages i ps s = (s', []) →
  let qs := normalise <$> ps in
  Forall well_package qs ∧ NoDup (ID <$> qs) ∧ NoDup (mjoin (AcceptedACIDs <$> qs)) ∧
  (∀ id, id ∈ ID <$> qs → ids s !! id = None) ∧
  (∀ id, is_Some (ids s' !! id) ↔ is_Some (ids s !! id) ∨ id ∈ ID <$> qs) ∧
  (∀ ac, ac ∈ mjoin (AcceptedACIDs <$> qs) → acOwners s !! ac = None) ∧
  (∀ ac, is_Some (acOwners s' !! ac) ↔ is_Some (acOwners s !! ac) ∨ ac ∈ mjoin (AcceptedACIDs <$> qs)).
Proof.
  cbv zeta. revert i s; induction ps as [|p ps IH]; intros i s; cbn [checkPackages].
  { intros [= <-]. cbn [fmap list_fmap mjoin list_join].
    split_and!; [constructor..| | | |]; intros x; pose proof (not_elem_of_nil x); tauto. }
  unfold checkPackage. set (q := normalise p).
  destruct (if bool_decide (ID q = "") then _ else _) as [m errID] eqn:Hm.
  pose proof (foldl_ownAC (ID q) (AcceptedACIDs q) (acOwners s) [] (NoDup_trimAndDedup [] _)) as [Ho1 Ho2].
  destruct (foldl (ownAC (ID q)) _ _) as [owners errAC]. cbn [fst snd] in Ho1, Ho2.
  destruct (checkPackages (S i) ps (mkSeen m owners)) as [s2 errs2] eqn:Hrest.
  intros [= -> Herr]. rewrite !app_nil, !when_nil in Herr.
  destruct Herr as [(He1 & He2 & He3 & He4 & He5 & He6 & He7 & He8) ->].
  rewrite !bool_decide_eq_false in *.
  destruct (IH (S i) (mkSeen m owners) Hrest) as (Hw & Hn & Ha & Hi & Hi2 & Hc & Hc2). cbn [ids acOwners] in *.
  assert (ID q ≠ "" ∧ ids s !! ID q = None ∧ m = <[ID q := i]> (ids s)) as (Hid & Hfresh & ->).
  { case_bool_decide; [by simplify_eq|]. destruct (ids s !! ID q); by simplify_eq. }
  destruct (Ho1 He8) as [_ Hacs]. cbn [fmap list_fmap mjoin list_join]. fold q.
  assert (∀ ac, ac ∈ mjoin (AcceptedACIDs <$> (normalise <$> ps)) →
    acOwners s !! ac = None ∧ ac ∉ AcceptedACIDs q) as Hfree.
  { intros ac Hac. apply Hc in Hac. destruct (Ho2 ac) as [_ H2]. split.
    - apply eq_None_not_Some. intros Hs. destruct H2 as [o Ho]; [by left|congruence].
    - intros Hin. destruct H2 as [o Ho]; [by right|congruence]. }
  split_and!.
  - constructor; [|done]. constructor; try done.
    + apply negb_false_iff, bool_decide_eq_true in He3. done.
    + unfold q, normalise. cbn [State].
      destruct (decide (State p = PackageStateOther "")) as [H|H];
        [by rewrite bool_decide_true|rewrite bool_decide_false by done].
      by apply negb_false_iff in He6.
    + apply NoDup_trimAndDedup.
  - constructor; [|done]. intros Hin. apply Hi in Hin. by rewrite lookup_insert_eq in Hin.
  - apply NoDup_app. split_and!; [apply NoDup_trimAndDedup| |done].
    intros ac Hac Hac2. by apply Hfree in Hac2 as [_ ?].
  - intros id [->|Hin]%elem_of_cons; [done|]. pose proof (Hi _ Hin) as Hl.
    rewrite lookup_insert_ne in Hl; [done|]. intros <-. by rewrite lookup_insert_eq in Hl.
  - intros id. rewrite Hi2, elem_of_cons. destruct (decide (id = ID q)) as [->|Hne].
    + rewrite lookup_insert_eq. split; [auto|]. intros _. left. by eexists.
    + rewrite lookup_insert_ne by done. tauto.
  - intros ac. rewrite elem_of_app. intros [Hac|Hac]; [auto|by apply Hfree].
  - intros ac. rewrite Hc2, elem_of_app, Ho2. tauto.
Qed.

(** The invariants of a validated graph. *)
Record valid_graph (v : WorkGraph) : Prop := {
  vg_task : strs.TrimSpace (TaskID v) ≠ "";
  vg_nonempty : Packages v ≠ [];
  vg_packages : Forall well_package (Packages v);
  vg_ids : NoDup (ID <$> Packages v);
  vg_deps : ∀ p d, p ∈ Packages v → d ∈ Dependencies p → d ≠ ID p ∧ d ∈ ID <$> Packages v;
  vg_acs : NoDup (mjoin (AcceptedACIDs <$> Packages v));
  vg_connected : ∀ p q, p ∈ Packages v → q ∈ Packages v → rtc (linked (Packages v)) (ID p) (ID q);
  vg_sorted : StronglySorted (λ a b, String.leb (ID a) (ID b) = true) (Packages v) }.

Lemma validate_packages ps s :
  checkPackages 0 ps (mkSeen ∅ ∅) = (s, []) →
  mjoin (checkDependencies (ids s) <$> (normalise <$> ps)) = [] →
  let qs := normalise <$> ps in
  Forall well_package qs ∧ NoDup (ID <$> qs) ∧ NoDup (mjoin (AcceptedACIDs <$> qs)) ∧
  (∀ p d, p ∈ qs → d ∈ Dependencies p → d ≠ ID p ∧ d ∈ ID <$> qs) ∧ size (ids s) = length qs.
Proof.
  intros Hc Hd. cbv zeta. destruct (checkPackages_spec _ _ _ _ Hc) as (Hw & Hn & Ha & _ & Hids & _ & _).
  cbn [ids acOwners] in Hids.
  assert (∀ id, is_Some (ids s !! id) ↔ id ∈ ID <$> (normalise <$> ps)) as Hdom.
  { intros id. rewrite Hids, lookup_empty. split; [by intros [[? ?]|?]|auto]. }
  split_and!; [done..| |].
  - intros p d Hp Hdp.
    assert (checkDependencies (ids s) p = []) as Hnil.
    { destruct (checkDependencies (ids s) p) as [|e l] eqn:E; [done|]. exfalso.
      apply (not_elem_of_nil e). rewrite <-Hd. apply list_elem_of_join. exists (e :: l).
      split; [by constructor|]. rewrite <-E. by apply list_elem_of_fmap_2. }
    unfold checkDependencies in Hnil.
    assert ((if bool_decide (d = ID p) then [ErrSelfCycle (ID p)]
      else when (bool_decide (ids s !! d = None)) (ErrMissingDependency (ID p) d)) = []) as Hone.
    { match goal with |- ?x = [] => destruct x as [|e l] eqn:E end; [done|]. exfalso.
      apply (not_elem_of_nil e). rewrite <-Hnil. apply list_elem_of_join. exists (e :: l).
      split; [by constructor|]. rewrite <-E. apply list_elem_of_fmap. by exists d. }
    case_bool_decide as Hself; [done|]. split; [done|]. apply when_nil, bool_decide_eq_false in Hone.
    apply Hdom. by apply not_eq_None_Some.
  - rewrite <-(size_dom (ids s)), <-(length_fmap ID (normalise <$> ps)), <-(size_list_to_set (C := gset string)) by done.
    f_equal. apply set_eq. intros id. by rewrite elem_of_dom, Hdom, elem_of_list_to_set.
Qed.

(** The dependencies of a node do not depend on the order of the packages. *)
Lemma adjacency_Permutation ps qs n :
  NoDup (ID <$> ps) → ps ≡ₚ qs → deps (adjacency ps) n = deps (adjacency qs) n.
Proof.
  intros Hnd Hperm. assert (NoDup (ID <$> qs)) as Hnd2 by (by rewrite <-Hperm).
  destruct (decide (n ∈ ID <$> ps)) as [Hin|Hni].
  - apply list_elem_of_fmap in Hin as (p & -> & Hp). rewrite !deps_adjacency; try done. by rewrite <-Hperm.
  - assert (∀ rs, rs ≡ₚ ps → deps (adjacency rs) n = []) as H; [|by rewrite !H].
    intros rs Hrs. destruct (deps (adjacency rs) n) as [|d l] eqn:E; [done|].
    destruct (elem_of_deps_adjacency rs n d) as [Hn _]; [rewrite E; by constructor|].
    by rewrite Hrs in Hn.
Qed.

Lemma lessID_sorted ps :
  StronglySorted (λ a b, String.leb (ID a) (ID b) = true) (sortStable lessID ps).
Proof.
  eapply (StronglySorted_impl (notLess lessID)); [|apply (sortStable_sorted lessID)].
  - intros a b. unfold notLess, lessID. by intros ->%negb_false_iff.
  - intros a b. unfold lessID. intros H%negb_true_iff. apply negb_false_iff.
    destruct (String.leb_total (ID b) (ID a)); congruence.
  - intros a b c. unfold lessID. rewrite !negb_true_iff. intros Hac.
    destruct (String.leb (ID b) (ID a)) eqn:Hba; [|by left]. right.
    destruct (String.leb (ID c) (ID b)) eqn:Hcb; [|done].
    assert (String.le (ID c) (ID a)) as H; [|unfold String.le in H; by rewrite Hac in H].
    transitivity (ID b); [unfold String.le; by rewrite Hcb|unfold String.le; by rewrite Hba].
Qed.

(** C17: a validated work graph is a DAG with unique owners.  The validator
    always terminates with a verdict; a graph it accepts has unique non-empty
    package ids, known stages and states, dependencies that exist and are not
    the package itself, every acceptance criterion owned by one package, one
    weakly connected component, packages sorted by id, and a topological order:
    Kahn's loop succeeds and lists every package once, after all its
    dependencies. *)
Theorem Validate_sound g :
  ∃ r, ValidateWorkGraph g = Some r ∧ ∀ v, r = Ok v →
    valid_graph v ∧ Packages v ≡ₚ normalise <$> Packages g ∧
    ∃ l, topologicalOrder (Packages v) = Some (Ok l) ∧ l ≡ₚ ID <$> Packages v ∧
      ∀ l1 x l2, l = l1 ++ x :: l2 →
        ∀ p, p ∈ Packages v → ID p = x → ∀ d, d ∈ Dependencies p → d ∈ l1.
Proof.
  unfold ValidateWorkGraph, validate.
  set (qs := normalise <$> Packages g).
  destruct (checkPackages 0 (Packages g) (mkSeen ∅ ∅)) as [s errs] eqn:Hc.
  destruct (detectCycle_total qs) as [cycle Hcyc]. rewrite Hcyc. cbn [mbind option_bind].
  destruct (weaklyUnreachable_spec qs) as (un & Hun & Hconn). rewrite Hun.
  assert (∃ u, (if bool_decide (qs ≠ []) && bool_decide (size (ids s) = length qs) then Some un else Some []) = Some u ∧
    (qs ≠ [] → size (ids s) = length qs → u = [] → un = [])) as (u & -> & Hu).
  { case_bool_decide; [|by eexists]. case_bool_decide; by eexists. }
  cbn [mbind option_bind]. rewrite app_nil_r. eexists. split; [done|]. intros v.
  case_bool_decide as He; [|done]. intros [= <-]. cbn [TaskID Packages].
  rewrite !app_nil, !when_nil, !bool_decide_eq_false in He.
  destruct He as (Ht & Hne & -> & Hd & Hcy & Hur).
  destruct cycle as [c|]; [done|]. apply dec_stable in Hur. subst u.
  destruct (validate_packages _ _ Hc Hd) as (Hw & Hn & Ha & Hdeps & Hsz). fold qs in Hw, Hn, Ha, Hdeps, Hsz.
  assert (qs ≠ []) as Hq by (unfold qs; by destruct (Packages g)).
  pose proof (sortStable_Permutation lessID qs) as Hperm.
  assert (∀ p, p ∈ sortStable lessID qs ↔ p ∈ qs) as Hin by (intros p; by rewrite Hperm).
  assert (∀ a b, linked qs a b → linked (sortStable lessID qs) a b) as Hlink.
  { intros a b (p & Hp & H). exists p. split; [by apply Hin|done]. }
  assert (NoDup (ID <$> sortStable lessID qs)) as Hn' by (by rewrite Hperm).
  split; [constructor; cbn [TaskID Packages]|split; [done|]]; try done.
  - intros Hnil. apply Hq. by apply Permutation_nil_r; rewrite <-Hnil, Hperm.
  - by rewrite Hperm.
  - intros p d Hp Hdp. rewrite Hperm. apply Hdeps; [by apply Hin|done].
  - eapply NoDup_Permutation_proper; [|exact Ha]. apply mjoin_Permutation. by rewrite Hperm.
  - intros p q Hp Hq2. eapply rtc_subrel; [exact Hlink|]. apply Hconn; [auto|by apply Hin..].
  - apply lessID_sorted.
  - apply detectCycle_None in Hcyc as (order & Hnd & Hord & Hall).
    destruct (topologicalOrder_spec (sortStable lessID qs)) with (order := order) as (l & Hl & Hl2 & Hl3).
    + done.
    + intros p Hp. rewrite Forall_forall in Hw. by apply Hw, Hin.
    + intros p d Hp Hdp. rewrite Hperm. apply (Hdeps p); [by apply Hin|done].
    + intros l1 x l2 Hl d Hd2. apply (Hord l1 x l2 Hl).
      by rewrite <-(adjacency_Permutation (sortStable lessID qs) qs).
    + intros p Hp. by apply Hall, Hin.
    + by exists l.
Qed.

(** ** Readiness *)

Lemma stateByID_snoc ps p n :
  stateByID (ps ++ [p]) !! n = if decide (n = ID p) then Some (State p) else stateByID ps !! n.
Proof.
  unfold stateByID. rewrite foldl_app. simpl. case_decide as Hn.
  - subst n. apply lookup_insert_eq.
  - by rewrite lookup_insert_ne.
Qed.

Lemma stateByID_lookup ps n s :
  NoDup (ID <$> ps) → stateByID ps !! n = Some s ↔ ∃ p, p ∈ ps ∧ ID p = n ∧ State p = s.
Proof.
  induction ps as [|q ps IH] using rev_ind; intros Hnd.
  - unfold stateByID. simpl. rewrite lookup_empty. split; [done|]. by intros (p & ?%not_elem_of_nil & _).
  - rewrite fmap_app in Hnd. apply NoDup_app in Hnd as (Hnd & Hni & _).
    rewrite stateByID_snoc. setoid_rewrite elem_of_app. setoid_rewrite list_elem_of_singleton.
    case_decide as Hn.
    + split; [intros [= <-]; exists q; auto|]. intros (p & [Hp|Hp] & Hid & <-); [|by subst].
      exfalso. apply (Hni (ID p)); [by apply list_elem_of_fmap_2|]. rewrite Hid, Hn. by constructor.
    + rewrite IH by done. split; [intros (p & ? & ? & ?); exists p; auto|].
      intros (p & [Hp|Hp] & Hid & <-); [by exists p|subst; congruence].
Qed.

Lemma join_nil {A B} (f : A → list B) l : mjoin (f <$> l) = [] ↔ ∀ x, x ∈ l → f x = [].
Proof.
  induction l as [|x l IH]; simpl; [split; [by intros _ y ?%not_elem_of_nil|done]|].
  rewrite app_nil. rewrite IH. split.
  - intros [Hx Hl] y [->|Hy]%elem_of_cons; auto.
  - intros H. split; [apply H; by constructor|]. intros y Hy. apply H. by constructor.
Qed.

Lemma dependencyReasons_nil m p :
  dependencyReasons m p = [] ↔ ∀ d, d ∈ Dependencies p → m !! d = Some PackageSucceeded.
Proof.
  unfold dependencyReasons. rewrite join_nil.
  split; intros H d Hd; specialize (H d Hd); cbn beta in *.
  - destruct (m !! d) as [s|]; [|done]. destruct (decide (s = PackageSucceeded)) as [->|Hs]; [done|].
    by rewrite bool_decide_false in H.
  - by rewrite H, bool_decide_true.
Qed.

Lemma leaseReasons_nil leases now ws p :
  leaseReasons leases now ws p = [] ↔
    ∀ path l, path ∈ AllowedScope p → l ∈ leases → blocksPath path ws now l = false.
Proof.
  unfold leaseReasons. rewrite join_nil. split.
  - intros H path l Hp Hl. apply not_true_is_false. intros Hb. specialize (H path Hp).
    apply fmap_nil_inv in H. apply (not_elem_of_nil l). rewrite <-H. by apply list_elem_of_filter.
  - intros H path Hp. destruct (filter _ leases) as [|l ls] eqn:E; [done|].
    assert (l ∈ filter (λ l, blocksPath path ws now l = true) leases) as Hl by (rewrite E; constructor).
    apply list_elem_of_filter in Hl as [Hb Hl]. by rewrite (H path l Hp Hl) in Hb.
Qed.

Lemma sortStrings_nil l : sortStrings l = [] ↔ l = [].
Proof.
  split; [|by intros ->]. intros H. apply Permutation_nil_r. by rewrite <-H, sortStrings_Permutation.
Qed.

(** readiness is exact.  For a graph with unique ids (a validated one has),
    the calculator gives one verdict per package, and a package is ready exactly
    when it is pending, every dependency is a package of the graph that has
    succeeded, and no unexpired path lease of another workspace covers a path of
    its scope; a package that is not ready has a reason. *)
Theorem ComputeReadiness_exact v leases now ws :
  NoDup (ID <$> Packages v) →
  PackageID <$> ComputeReadiness v leases now ws ≡ₚ ID <$> Packages v ∧
  ∀ r, r ∈ ComputeReadiness v leases now ws →
    (Ready r = true ↔ BlockedReasons r = []) ∧
    ∃ p, p ∈ Packages v ∧ ID p = PackageID r ∧ Readiness_State r = State p ∧
      (Ready r = true ↔
         State p = PackagePending ∧
         (∀ d, d ∈ Dependencies p → ∃ q, q ∈ Packages v ∧ ID q = d ∧ State q = PackageSucceeded) ∧
         (∀ path l, path ∈ AllowedScope p → l ∈ leases → Kind l = LeasePath → Resource l = path →
            IsExpired l now = true ∨ (ws ≠ "" ∧ WorkspaceID l = ws))).
Proof.
  intros Hnd. unfold ComputeReadiness. set (ready := λ p, packageReadiness p _ leases now ws).
  assert (∀ p, PackageID (ready p) = ID p ∧ Readiness_State (ready p) = State p) as Hid.
  { intros p. unfold ready, packageReadiness. destruct (PackageState_IsTerminal _); [done|].
    by case_bool_decide. }
  split.
  { rewrite sortStable_Permutation, <-list_fmap_compose. apply Permutation_refl'.
    apply list_fmap_ext. intros i p _. apply Hid. }
  intros r. rewrite sortStable_Permutation. intros (p & -> & Hp)%list_elem_of_fmap.
  destruct (Hid p) as [H1 H2]. rewrite H1, H2.
  assert ((∀ path l, path ∈ AllowedScope p → l ∈ leases → blocksPath path ws now l = false) ↔
    (∀ path l, path ∈ AllowedScope p → l ∈ leases → Kind l = LeasePath → Resource l = path →
            IsExpired l now = true ∨ (ws ≠ "" ∧ WorkspaceID l = ws))) as Hblocks.
  { split; intros H path l Hpath Hl; specialize (H path l Hpath Hl).
    - intros Hk Hr. unfold blocksPath in H. rewrite (bool_decide_true _ Hk), (bool_decide_true _ Hr) in H.
      destruct (IsExpired l now); [by left|]. right.
      destruct (decide (ws = "")) as [Hw|Hw]; [by rewrite (bool_decide_true _ Hw) in H|].
      destruct (decide (WorkspaceID l = ws)) as [?|Hw2]; [done|].
      by rewrite (bool_decide_false _ Hw), (bool_decide_false _ Hw2) in H.
    - unfold blocksPath. destruct (decide (Kind l = LeasePath)) as [Hk|Hk];
        [rewrite (bool_decide_true _ Hk)|by rewrite (bool_decide_false _ Hk)].
      destruct (decide (Resource l = path)) as [Hr|Hr];
        [rewrite (bool_decide_true _ Hr)|by rewrite (bool_decide_false _ Hr)].
      destruct (H Hk Hr) as [->|[Hw Hw2]]; simpl; [by rewrite andb_false_r|].
      by rewrite (bool_decide_false _ Hw), (bool_decide_true _ Hw2). }
  rewrite <-leaseReasons_nil in Hblocks.
  unfold ready, packageReadiness. destruct (PackageState_IsTerminal _) eqn:Hterm.
  { split; [done|]. exists p. repeat split; try done. intros (Hs & _). by rewrite Hs in Hterm. }
  destruct (decide (State p = PackagePending)) as [Hs|Hs].
  2:{ rewrite (bool_decide_true _ Hs). split; [done|]. exists p. repeat split; try done.
      by intros (? & _). }
  rewrite (bool_decide_false _ (λ H : State p ≠ _, H Hs)). cbn [Ready BlockedReasons].
  rewrite bool_decide_eq_true. split; [done|]. exists p. do 3 (split; [done|]). rewrite bool_decide_eq_true.
  pose proof (sortStrings_nil (dependencyReasons (stateByID (Packages v)) p ++ leaseReasons leases now ws p)) as E.
  pose proof (app_nil (dependencyReasons (stateByID (Packages v)) p) (leaseReasons leases now ws p)) as E1.
  pose proof (dependencyReasons_nil (stateByID (Packages v)) p) as E2.
  assert ((∀ d, d ∈ Dependencies p → stateByID (Packages v) !! d = Some PackageSucceeded) ↔
    (∀ d, d ∈ Dependencies p → ∃ q, q ∈ Packages v ∧ ID q = d ∧ State q = PackageSucceeded)) as E3; [|tauto].
  split; intros H d Hd; specialize (H d Hd); by apply stateByID_lookup.
Qed.

(** A diamond: [a] before [b] and [c], both before [d]. *)
Definition demoPackage (id ac : string) (ds : list string) (s : PackageState) : WorkPackage :=
  mkWorkPackage id "T-1" StageImplementation "title" "objective" [ac] ["src/" +:+ id] ds s [].
Definition demoGraph : WorkGraph :=
  mkWorkGraph "T-1"
    [demoPackage "d" "AC-4" ["b"; "c"] PackagePending;
     demoPackage "b" "AC-2" ["a"] PackagePending;
     demoPackage "c" "AC-3" ["a"] PackagePending;
     demoPackage "a" "AC-1" [] PackageSucceeded].

Example demoGraph_order :
  topologicalOrder (Packages demoGraph) = Some (Ok ["a"; "b"; "c"; "d"]).
Proof. vm_compute. reflexivity. Qed.

Example cyclic_rejected :
  ValidateWorkGraph (mkWorkGraph "T-1"
    [demoPackage "a" "AC-1" ["b"] PackagePending; demoPackage "b" "AC-2" ["a"] PackagePending]) =
  Some (Err [ErrCycle ["a"; "b"; "a"]]).
Proof. vm_compute. reflexivity. Qed.

(** The default for an unspecified state is never reached: the state is checked
    before the default is written. *)
Example empty_state_rejected :
  ValidateWorkGraph (mkWorkGraph "T-1" [demoPackage "a" "AC-1" [] (PackageStateOther "")]) =
  Some (Err [ErrUnknownState "a" (PackageStateOther "")]).
Proof. vm_compute. reflexivity. Qed.

Lemma ComputeReadiness_exact_witness :
  NoDup (ID <$> Packages demoGraph) ∧
  PackageID <$> ComputeReadiness demoGraph [] 5%Z "ws" ≡ₚ ID <$> Packages demoGraph.
Proof.
  assert (NoDup (ID <$> Packages demoGraph)) as H by (apply (bool_decide_unpack _); vm_compute; exact I).
  split; [exact H|]. exact (proj1 (ComputeReadiness_exact demoGraph [] 5%Z "ws" H)).
Defined.

Lemma Validate_sound_witness : ∃ v, ValidateWorkGraph demoGraph = Some (Ok v) ∧ valid_graph v.
Proof.
  destruct (Validate_sound demoGraph) as (r & Hr & H). destruct r as [v|e].
  - exists v. split; [exact Hr|]. exact (proj1 (H v eq_refl)).
  - exfalso. vm_compute in Hr. discriminate.
Defined.
End workgraph.
