(* ===== verification/WorkStore.v ===== *)
(** * WorkStore: the durable work graph, leases and claims

    Models [internal/workgraph/serialize.go], [store.go], [leases.go] and
    [scheduling.go] over the tables of [internal/storage/workgraph.go] and the
    leases of [internal/storage/checkpoints.go].

    A statement or a committed transaction is one atomic step on the record
    [DB]; an operation of the services is a sequence of them, between which
    other connections take turns (the schedule of a [World]), and time passes.
    The columns the code keeps as JSON text are kept structured; a timestamp
    column is the instant it spells, with [0] for the empty text, and comparing
    two of them as text is [textLe].  SQLite itself never fails here, its
    constraints apart. *)
From S2P Require Import Prelude AuditTrail WorkGraph.

Module workstore.
Import workgraph.

(** ** serialize.go *)

(** The loop of [sortedStrings]. *)
Fixpoint dedup (seen l : list string) : list string :=
  match l with
  | [] => []
  | s :: l => if bool_decide (s ∈ seen) then dedup seen l else s :: dedup (s :: seen) l
  end.
Definition sortedStrings (l : list string) : list string := sortStrings (dedup [] l).

Definition canonicalPackage (p : WorkPackage) : WorkPackage :=
  mkWorkPackage (ID p) (Package_TaskID p) (Package_Stage p) (Title p) (Objective p)
    (sortedStrings (AcceptedACIDs p)) (sortedStrings (AllowedScope p))
    (sortedStrings (Dependencies p)) (State p) (Attempts p).

Definition Canonicalize (g : WorkGraph) : WorkGraph :=
  mkWorkGraph (TaskID g) (sortStable lessID (canonicalPackage <$> Packages g)).

(** ** RFC3339Nano as text *)

(** The [k] last decimal digits of [n], the least significant first. *)
Fixpoint digitsRev (k : nat) (n : Z) : list Z :=
  match k with
  | O => []
  | S k => (n `mod` 10)%Z :: digitsRev k (n / 10)%Z
  end.
Fixpoint dropZeros (l : list Z) : list Z :=
  match l with
  | d :: l' => if (d =? 0)%Z then dropZeros l' else l
  | [] => []
  end.
Definition digitText (l : list Z) (rest : string) : string :=
  foldr (λ d s, String (ascii_of_nat (48 + Z.to_nat d)) s) rest l.

(** What follows the seconds: the fraction without its trailing zeros, and the
    zone. *)
Definition fractionText (ns : Z) : string :=
  match dropZeros (digitsRev 9 ns) with
  | [] => "Z"
  | ds => String "." (digitText (reverse ds) "Z")
  end.

(** The byte order of two timestamps of the years 0001 to 9999: that of their
    seconds, and within a second that of what follows. *)
Definition textLe (a b : Time) : bool :=
  let sa := (a / time.Second)%Z in let sb := (b / time.Second)%Z in
  if (sa =? sb)%Z
  then String.leb (fractionText (a `mod` time.Second)) (fractionText (b `mod` time.Second))
  else (sa <? sb)%Z.

(** ** The tables *)

(** [WorkPackageRow]; the package's task id is the row's. *)
Record PackageRow := mkPackageRow {
  Package : WorkPackage;
  GraphVersion : Z;
  Row_CreatedAt : Time;
  UpdatedAt : Time }.

(** [WorkPackageAttemptRow]. *)
Record AttemptRow := mkAttemptRow {
  Attempt_TaskID : string;
  Attempt_PackageID : string;
  Attempt_ : Attempt }.

Record DB := mkDB {
  tasks : list string;
  packages : list PackageRow;
  dependsOn : list (string * string * string);
  attempts : list AttemptRow;
  leases : list Lease;
  lastLeaseID : Z;
  trail : audit.Trail }.

Record ConflictReason := mkConflictReason {
  Conflict_Kind : LeaseKind;
  Conflict_Resource : string;
  Conflict_WorkspaceID : string;
  HeldBy : Time  (* the expiry it names; 0 when it names none *) }.

Inductive Error :=
| ErrWorkPackageNotFound
| ErrWorkGraphNotFound
| ErrInvalidWorkGraph (errs : list ValidationError)
| ErrInvalidState (s : PackageState)
| ErrLeaseAlreadyExists
| ErrLeaseConflict (reasons : list ConflictReason)
| ErrPackageNotReady (id : string) (reasons : list string)
| ErrInvalidSemantic (r : string)
| ErrConstraint (what : string)
| ErrRequired (what : string)
| ErrAudit (e : string).

(** *** Leases (checkpoints.go) *)

Definition active : string := "active".
Definition released : string := "released".
Definition expired : string := "expired".

Definition sameResource (scope scopeID : string) (kind : LeaseKind) (resource : string) (l : Lease) : bool :=
  bool_decide (Lease_Scope l = scope) && bool_decide (ScopeID l = scopeID)
  && bool_decide (Kind l = kind) && bool_decide (Resource l = resource).
Definition isActive (l : Lease) : bool := bool_decide (Lease_State l = active).

Definition setLeases (f : list Lease → list Lease) (d : DB) : DB :=
  mkDB (tasks d) (packages d) (dependsOn d) (attempts d) (f (leases d)) (lastLeaseID d) (trail d).

(** The INSERT under [idx_leases_unique_active_resource]. *)
Definition CreateLease (l : Lease) (d : DB) : result Error (Z * DB) :=
  if isActive l
     && existsb (λ r, isActive r && sameResource (Lease_Scope l) (ScopeID l) (Kind l) (Resource l) r) (leases d)
  then Err ErrLeaseAlreadyExists
  else
    let id := (lastLeaseID d + 1)%Z in
    Ok (id, mkDB (tasks d) (packages d) (dependsOn d) (attempts d)
              (leases d ++ [mkLease id (Lease_Scope l) (ScopeID l) (Kind l) (Resource l) (WorkspaceID l)
                              (Lease_State l) (CreatedAt l) (ReleasedAt l) (ExpiresAt l)])
              id (trail d)).

Definition GetActiveLease (scope scopeID : string) (kind : LeaseKind) (resource : string) (d : DB) :
    option Lease :=
  snd <$> list_find (λ l, sameResource scope scopeID kind resource l && isActive l = true) (leases d).

Definition setState (s : string) (at_ : Time) (l : Lease) : Lease :=
  mkLease (Lease_ID l) (Lease_Scope l) (ScopeID l) (Kind l) (Resource l) (WorkspaceID l) s
    (CreatedAt l) at_ (ExpiresAt l).
Definition setExpiry (at_ : Time) (l : Lease) : Lease :=
  mkLease (Lease_ID l) (Lease_Scope l) (ScopeID l) (Kind l) (Resource l) (WorkspaceID l) (Lease_State l)
    (CreatedAt l) (ReleasedAt l) at_.

(** An UPDATE: the number of rows it changes, and the table after it. *)
Definition updateLeases (which : Lease → bool) (f : Lease → Lease) (d : DB) : Z * DB :=
  (Z.of_nat (length (filter (λ l, which l = true) (leases d))),
   setLeases (fmap (λ l, if which l then f l else l)) d).

Definition ReleaseLeasesByWorkspace (ws : string) (at_ : Time) : DB → Z * DB :=
  updateLeases (λ l, bool_decide (WorkspaceID l = ws) && isActive l) (setState released at_).
Definition RenewWorkspaceLeases (ws : string) (newExpiry : Time) : DB → Z * DB :=
  updateLeases (λ l, bool_decide (WorkspaceID l = ws) && isActive l && negb (time.IsZero (ExpiresAt l)))
    (setExpiry newExpiry).
Definition ExpireLeases (now : Time) : DB → Z * DB :=
  updateLeases (λ l, isActive l && negb (time.IsZero (ExpiresAt l)) && textLe (ExpiresAt l) now)
    (setState expired now).

Definition ListActiveLeasesByScope (scope scopeID : string) (d : DB) : list Lease :=
  filter (λ l, bool_decide (Lease_Scope l = scope) && bool_decide (ScopeID l = scopeID) && isActive l = true)
    (leases d).
Definition ListLeasesByWorkspace (ws : string) (d : DB) : list Lease :=
  filter (λ l, WorkspaceID l = ws) (leases d).
(** Does a workspace other than [exclude] hold the resource? *)
Definition HasActiveLease (scope scopeID : string) (kind : LeaseKind) (resource exclude : string)
    (now : Time) (d : DB) : bool :=
  existsb (λ l, sameResource scope scopeID kind resource l && isActive l
             && negb (bool_decide (WorkspaceID l = exclude))
             && (time.IsZero (ExpiresAt l) || negb (textLe (ExpiresAt l) now))) (leases d).

(** *** Work packages (storage/workgraph.go) *)

Definition rowOf (task : string) (r : PackageRow) : bool := bool_decide (Package_TaskID (Package r) = task).
Definition isRow (task pkg : string) (r : PackageRow) : bool :=
  rowOf task r && bool_decide (ID (Package r) = pkg).

Definition setPackages (f : list PackageRow → list PackageRow) (d : DB) : DB :=
  mkDB (tasks d) (f (packages d)) (dependsOn d) (attempts d) (leases d) (lastLeaseID d) (trail d).

Definition lessRow (a b : PackageRow) : bool := lessID (Package a) (Package b).

Definition ListWorkPackages (task : string) (d : DB) : result Error (list PackageRow) :=
  match filter (λ r, rowOf task r = true) (packages d) with
  | [] => Err ErrWorkGraphNotFound
  | rs => Ok (sortStable lessRow rs)
  end.

Definition GetWorkPackage (task pkg : string) (d : DB) : result Error PackageRow :=
  match list_find (λ r, isRow task pkg r = true) (packages d) with
  | Some (_, r) => Ok r
  | None => Err ErrWorkPackageNotFound
  end.

Definition setPackageState (s : PackageState) (now : Time) (r : PackageRow) : PackageRow :=
  let p := Package r in
  mkPackageRow (mkWorkPackage (ID p) (Package_TaskID p) (Package_Stage p) (Title p) (Objective p)
    (AcceptedACIDs p) (AllowedScope p) (Dependencies p) s (Attempts p)) (GraphVersion r) (Row_CreatedAt r) now.
Definition setPackageAttempts (l : list Attempt) (now : Time) (r : PackageRow) : PackageRow :=
  let p := Package r in
  mkPackageRow (mkWorkPackage (ID p) (Package_TaskID p) (Package_Stage p) (Title p) (Objective p)
    (AcceptedACIDs p) (AllowedScope p) (Dependencies p) (State p) l) (GraphVersion r) (Row_CreatedAt r) now.

Definition updatePackage (task pkg : string) (f : PackageRow → PackageRow) (d : DB) : result Error DB :=
  if existsb (isRow task pkg) (packages d)
  then Ok (setPackages (fmap (λ r, if isRow task pkg r then f r else r)) d)
  else Err ErrWorkPackageNotFound.

Definition UpdateWorkPackageState (task pkg : string) (s : PackageState) (now : Time) : DB → result Error DB :=
  updatePackage task pkg (setPackageState s now).
Definition SetWorkPackageAttempts (task pkg : string) (l : list Attempt) (now : Time) : DB → result Error DB :=
  updatePackage task pkg (setPackageAttempts l now).

Definition AppendAttemptRow (r : AttemptRow) (d : DB) : result Error DB :=
  if existsb (λ x, bool_decide (Attempt_TaskID x = Attempt_TaskID r)
                && bool_decide (Attempt_PackageID x = Attempt_PackageID r)
                && (Index (Attempt_ x) =? Index (Attempt_ r))%Z) (attempts d)
  then Err (ErrConstraint "UNIQUE work_package_attempts")
  else Ok (mkDB (tasks d) (packages d) (dependsOn d) (attempts d ++ [r]) (leases d) (lastLeaseID d) (trail d)).

Definition withTask (task : string) (p : WorkPackage) : WorkPackage :=
  mkWorkPackage (ID p) task (Package_Stage p) (Title p) (Objective p) (AcceptedACIDs p) (AllowedScope p)
    (Dependencies p) (State p) (Attempts p).

(** The upsert of one package. *)
Definition upsertPackage (task : string) (version : Z) (ps : list PackageRow) (r : PackageRow) : list PackageRow :=
  let row created := mkPackageRow (withTask task (Package r)) version created (UpdatedAt r) in
  match list_find (λ x, isRow task (ID (Package r)) x = true) ps with
  | Some (i, old) => <[i := row (Row_CreatedAt old)]> ps
  | None => ps ++ [row (Row_CreatedAt r)]
  end.

Definition insertDependency (task pkg : string) (l : list (string * string * string)) (dep : string) :
    list (string * string * string) :=
  if bool_decide ((task, pkg, dep) ∈ l) then l else l ++ [(task, pkg, dep)].

Definition maxVersion (task : string) (ps : list PackageRow) : Z :=
  foldr (λ r m, Z.max (GraphVersion r) m) 0%Z (filter (λ r, rowOf task r = true) ps).

Definition ReplaceWorkGraph (task : string) (rows : list PackageRow) (d : DB) : result Error DB :=
  if bool_decide (task = "") then Err (ErrRequired "task_id")
  else if bool_decide (rows = []) then Err (ErrRequired "package")
  else if existsb (λ r, bool_decide (ID (Package r) = "")) rows then Err (ErrRequired "package id")
  else if bool_decide (task ∉ tasks d) then Err (ErrConstraint "FOREIGN KEY tasks")
  else
    let version := (maxVersion task (packages d) + 1)%Z in
    let ps := foldl (upsertPackage task version) (packages d) rows in
    let deps := foldl (λ l r, foldl (insertDependency task (ID (Package r))) l (Dependencies (Package r)))
                  (filter (λ x, x.1.1 ≠ task) (dependsOn d)) rows in
    Ok (mkDB (tasks d)
          (filter (λ r, rowOf task r = false ∨ ID (Package r) ∈ (λ r, ID (Package r)) <$> rows) ps)
          deps (attempts d) (leases d) (lastLeaseID d) (trail d)).

(** ** Interleaving *)

(** What other connections commit between two steps, and time passing. *)
Inductive Interference :=
| ILease (l : Lease)
| IRelease (ws : string)
| IRenew (ws : string) (newExpiry : Time)
| IExpire
| IState (task pkg : string) (s : PackageState)
| IReplace (task : string) (rows : list PackageRow)
| IClock (t : Time).

Record World := mkWorld {
  db : DB;
  clock : Time;
  sched : list (list Interference) }.

Definition withDB (d : DB) (w : World) : World := mkWorld d (clock w) (sched w).
Definition orKeep (d : DB) (r : result Error DB) : DB := match r with Ok d' => d' | Err _ => d end.

Definition interfere1 (w : World) (i : Interference) : World :=
  match i with
  | ILease l => match CreateLease l (db w) with Ok (_, d) => withDB d w | Err _ => w end
  | IRelease ws => withDB (ReleaseLeasesByWorkspace ws (clock w) (db w)).2 w
  | IRenew ws e => withDB (RenewWorkspaceLeases ws e (db w)).2 w
  | IExpire => withDB (ExpireLeases (clock w) (db w)).2 w
  | IState t p s => withDB (orKeep (db w) (UpdateWorkPackageState t p s (clock w) (db w))) w
  | IReplace t rows => withDB (orKeep (db w) (ReplaceWorkGraph t rows (db w))) w
  | IClock t => mkWorld (db w) (Z.max (clock w) t) (sched w)
  end.
Definition interfere (is_ : list Interference) (w : World) : World := foldl interfere1 w is_.

Definition turn (w : World) : World :=
  match sched w with
  | [] => w
  | is_ :: rest => interfere is_ (mkWorld (db w) (clock w) rest)
  end.

Definition M (A : Type) := World → result Error A * World.
#[global] Instance M_ret : MRet M := λ A a w, (Ok a, w).
#[global] Instance M_bind : MBind M := λ A B f m w,
  let '(r, w) := m w in
  match r with Ok a => f a w | Err e => (Err e, w) end.
Definition throw {A} (e : Error) : M A := λ w, (Err e, w).

(** One statement or transaction; on an error it is rolled back. *)
Definition stmt {A} (f : DB → result Error (A * DB)) : M A := λ w,
  let w := turn w in
  match f (db w) with
  | Ok (a, d) => (Ok a, withDB d w)
  | Err e => (Err e, w)
  end.
Definition stmt_ (f : DB → result Error DB) : M () := stmt (λ d, d' ← f d; Ok ((), d')).
Definition query {A} (f : DB → result Error A) : M A := stmt (λ d, a ← f d; Ok (a, d)).
Definition readClock : M Time := λ w, let w := turn w in (Ok (clock w), w).

(** ** leases.go *)

Definition SemDatabaseSchema : string := "database_schema".
Definition SemNavigationGraph : string := "navigation_graph".
Definition SemSubscriptionContract : string := "subscription_contract".
Definition SemDesignSystem : string := "design_system".
Definition SemBuildConfiguration : string := "build_configuration".
Definition AllSemanticResources : list string :=
  [SemDatabaseSchema; SemNavigationGraph; SemSubscriptionContract; SemDesignSystem; SemBuildConfiguration].
Definition IsValidSemantic (r : string) : bool := bool_decide (r ∈ AllSemanticResources).

Definition expiryFromTTL (now : Time) (ttl : Duration) : Time :=
  if (ttl <=? 0)%Z then 0%Z else (now + ttl)%Z.

Definition conflictFromRow (held : Lease) : Error :=
  ErrLeaseConflict [mkConflictReason (Kind held) (Resource held) (WorkspaceID held) (ExpiresAt held)].

(** The holder of a resource: its own lease again, or a conflict. *)
Definition ownOrConflict (ws : string) (existing : Lease) : M Lease :=
  if bool_decide (WorkspaceID existing = ws) then mret existing else throw (conflictFromRow existing).

(** The cold path of [acquire]: the INSERT, and what losing its race means. *)
Definition createLease (scope scopeID : string) (kind : LeaseKind) (resource ws : string)
    (now expiresAt : Time) : M Lease :=
  let l id := mkLease id scope scopeID kind resource ws active now 0 expiresAt in
  r ← stmt (λ d, match CreateLease (l 0%Z) d with
                 | Ok (id, d) => Ok (Ok id, d)
                 | Err e => Ok (Err e, d)
                 end);
  match r with
  | Ok id => mret (l id)
  | Err ErrLeaseAlreadyExists =>
      existing ← query (λ d, Ok (GetActiveLease scope scopeID kind resource d));
      match existing with
      | Some existing => ownOrConflict ws existing
      | None => throw (ErrLeaseConflict [mkConflictReason kind resource "" 0])
      end
  | Err e => throw e
  end.

Definition acquire (scope scopeID : string) (kind : LeaseKind) (resource ws : string) (expiresAt : Time) :
    M Lease :=
  now ← readClock;
  existing ← query (λ d, Ok (GetActiveLease scope scopeID kind resource d));
  match existing with
  | Some e =>
      if time.IsZero (ExpiresAt e) || time.Before now (ExpiresAt e) then ownOrConflict ws e
      else
        _ ← stmt (λ d, Ok (ExpireLeases now d));
        createLease scope scopeID kind resource ws now expiresAt
  | None => createLease scope scopeID kind resource ws now expiresAt
  end.

Definition project : string := "project".

Definition AcquirePath (projectID ws path : string) : M Lease :=
  acquire project projectID LeasePath path ws 0.
Definition AcquirePathTTL (projectID ws path : string) (ttl : Duration) : M Lease :=
  now ← readClock; acquire project projectID LeasePath path ws (expiryFromTTL now ttl).
Definition AcquireSemantic (projectID ws res : string) : M Lease :=
  if IsValidSemantic res then acquire project projectID LeaseSemantic res ws 0
  else throw (ErrInvalidSemantic res).
Definition AcquireSemanticTTL (projectID ws res : string) (ttl : Duration) : M Lease :=
  if IsValidSemantic res
  then now ← readClock; acquire project projectID LeaseSemantic res ws (expiryFromTTL now ttl)
  else throw (ErrInvalidSemantic res).

Definition ReleaseAll (ws : string) : M Z :=
  now ← readClock; stmt (λ d, Ok (ReleaseLeasesByWorkspace ws now d)).
Definition RenewAll (ws : string) (ttl : Duration) : M Z :=
  now ← readClock; stmt (λ d, Ok (RenewWorkspaceLeases ws (now + ttl) d)).
Definition ExpireAll : M Z :=
  now ← readClock; stmt (λ d, Ok (ExpireLeases now d)).

Definition ListActiveByProject (projectID : string) : M (list Lease) :=
  rows ← query (λ d, Ok (ListActiveLeasesByScope project projectID d));
  now ← readClock;
  mret (filter (λ l, IsExpired l now = false) rows).
Definition ListByWorkspace (ws : string) : M (list Lease) :=
  query (λ d, Ok (ListLeasesByWorkspace ws d)).

(** ** store.go *)

(** [WorkGraphStore]: an audit recorder, or none. *)
Record WorkGraphStore := mkStore { audit_ : option audit.Recorder }.

(** [RecordTx], inside a transaction. *)
Definition recordTx (s : WorkGraphStore) (ev : audit.Event) (d : DB) : result Error DB :=
  match audit_ s with
  | None => Ok d
  | Some rec =>
      match audit.Record_ rec ev (trail d) with
      | (Ok _, t) => Ok (mkDB (tasks d) (packages d) (dependsOn d) (attempts d) (leases d) (lastLeaseID d) t)
      | (Err e, _) => Err (ErrAudit e)
      end
  end.

Definition packageToRow (now : Time) (p : WorkPackage) : PackageRow := mkPackageRow p 0 0 now.

Definition LoadOrDie (task : string) (d : DB) : result Error WorkGraph :=
  rows ← ListWorkPackages task d; Ok (mkWorkGraph task (Package <$> rows)).

(** The runtime state [Save] carries over, by package id. *)
Definition loadRuntimeStateByTask (task : string) (d : DB) : gmap string (PackageState * list Attempt) :=
  match ListWorkPackages task d with
  | Ok rows => foldl (λ m r, <[ID (Package r) := (State (Package r), Attempts (Package r))]> m) ∅ rows
  | Err _ => ∅
  end.

Definition keepRuntime (m : gmap string (PackageState * list Attempt)) (p : WorkPackage) : WorkPackage :=
  match m !! ID p with
  | None => p
  | Some (st, atts) =>
      mkWorkPackage (ID p) (Package_TaskID p) (Package_Stage p) (Title p) (Objective p)
        (AcceptedACIDs p) (AllowedScope p) (Dependencies p)
        (if bool_decide (State p = PackagePending) then st else State p)
        (if bool_decide (Attempts p = []) then atts else Attempts p)
  end.

Definition Save (s : WorkGraphStore) (v : option WorkGraph) : M WorkGraph :=
  match v with
  | None => throw (ErrRequired "validated graph")
  | Some g =>
      if bool_decide (TaskID g = "") then throw (ErrRequired "task_id")
      else
        m ← query (λ d, Ok (loadRuntimeStateByTask (TaskID g) d));
        now ← readClock;
        let rows := packageToRow now <$> (keepRuntime m <$> Packages g) in
        _ ← stmt_ (λ d,
          d ← ReplaceWorkGraph (TaskID g) rows d;
          recordTx s (audit.mkEvent "workgraph.saved" audit.ScopeTask (TaskID g) audit.ActorUser
            (Some (audit.Payload [("packages", audit.VInt (Z.of_nat (length rows)));
                                  ("task_id", audit.VString (TaskID g))])) 0) d);
        query (LoadOrDie (TaskID g))
  end.

Definition LoadValidated (task : string) (d : DB) : result Error WorkGraph :=
  g ← LoadOrDie task d;
  match ValidateWorkGraph g with
  | Some (Ok v) => Ok v
  | Some (Err errs) => Err (ErrInvalidWorkGraph errs)
  | None => Err (ErrInvalidWorkGraph [])
  end.

Definition HasGraph (task : string) (d : DB) : bool := is_ok (ListWorkPackages task d).

Definition GetPackage (task pkg : string) (d : DB) : result Error WorkPackage :=
  r ← GetWorkPackage task pkg d; Ok (Package r).

Definition TransitionPackage (s : WorkGraphStore) (task pkg : string) (st : PackageState) : M () :=
  if negb (PackageState_IsValid st) then throw (ErrInvalidState st)
  else
    now ← readClock;
    stmt_ (λ d,
      d ← UpdateWorkPackageState task pkg st now d;
      recordTx s (audit.mkEvent "workgraph.package.transitioned" audit.ScopeTask task audit.ActorUser
        (Some (audit.Payload [("package_id", audit.VString pkg);
                              ("new_state", audit.VString (PackageState_String st))])) 0) d).

Definition AppendAttempt (s : WorkGraphStore) (task pkg : string) (att : Attempt) : M () :=
  now ← readClock;
  p ← query (GetPackage task pkg);
  let att := mkAttempt (Z.of_nat (length (Attempts p))) (Attempt_State att)
    (if time.IsZero (StartedAt att) then now else StartedAt att) (FinishedAt att) (FailureReason att)
    (ExitCode att) (AgentRunID att) in
  stmt_ (λ d,
    d ← SetWorkPackageAttempts task pkg (Attempts p ++ [att]) now d;
    d ← AppendAttemptRow (mkAttemptRow task pkg att) d;
    recordTx s (audit.mkEvent "workgraph.package.attempt_appended" audit.ScopeTask task audit.ActorUser
      (Some (audit.Payload [("package_id", audit.VString pkg);
                            ("attempt_index", audit.VInt (Index att));
                            ("state", audit.VString (PackageState_String (Attempt_State att)))])) 0) d).

(** ** scheduling.go *)

Record ClaimRequest := mkClaimRequest {
  Claim_TaskID : string;
  ProjectID : string;
  Claim_PackageID : string;
  Claim_WorkspaceID : string;
  PathLeases : option (list string);
  SemanticLeases : list string;
  TTL : Duration }.

Record ClaimResult := mkClaimResult {
  Result_PackageID : string;
  Result_State : PackageState;
  Leases : list Lease }.

Definition acquireClaim (req : ClaimRequest) (kind : LeaseKind) (resource : string) : M Lease :=
  if bool_decide (kind = LeasePath)
  then AcquirePathTTL (ProjectID req) (Claim_WorkspaceID req) resource (TTL req)
  else AcquireSemanticTTL (ProjectID req) (Claim_WorkspaceID req) resource (TTL req).

Definition releaseAllAcquired (ws : string) (acquired : list Lease) : M () :=
  match acquired with
  | [] => mret ()
  | _ => _ ← ReleaseAll ws; mret ()
  end.

(** [m], with the compensating release when it fails. *)
Definition orRelease {A} (ws : string) (acquired : list Lease) (m : M A) : M A := λ w,
  match m w with
  | (Err e, w) => (Err e, (releaseAllAcquired ws acquired w).2)
  | r => r
  end.

(** The two acquisition loops. *)
Fixpoint acquireLeases (req : ClaimRequest) (wanted : list (LeaseKind * string)) (acquired : list Lease) :
    M (list Lease) :=
  match wanted with
  | [] => mret acquired
  | (kind, resource) :: wanted =>
      l ← orRelease (Claim_WorkspaceID req) acquired (acquireClaim req kind resource);
      acquireLeases req wanted (acquired ++ [l])
  end.

(** The resources a claim leases, in order. *)
Definition wantedLeases (req : ClaimRequest) (pkg : WorkPackage) : list (LeaseKind * string) :=
  (pair LeasePath <$> default (AllowedScope pkg) (PathLeases req))
  ++ (pair LeaseSemantic <$> SemanticLeases req).

Definition Claim (s : WorkGraphStore) (req : ClaimRequest) : M ClaimResult :=
  if bool_decide (Claim_TaskID req = "") || bool_decide (Claim_PackageID req = "")
  then throw (ErrRequired "task_id and package_id")
  else if bool_decide (ProjectID req = "") then throw (ErrRequired "project_id")
  else if bool_decide (Claim_WorkspaceID req = "") then throw (ErrRequired "workspace_id")
  else
    pkg ← query (GetPackage (Claim_TaskID req) (Claim_PackageID req));
    vg ← query (LoadValidated (Claim_TaskID req));
    active_ ← ListActiveByProject (ProjectID req);
    now ← readClock;
    match list_find (λ r, PackageID r = Claim_PackageID req)
            (ComputeReadiness vg active_ now (Claim_WorkspaceID req)) with
    | None => throw (ErrPackageNotReady (Claim_PackageID req) ["package not found in readiness"])
    | Some (_, mine) =>
        if negb (Ready mine) then throw (ErrPackageNotReady (Claim_PackageID req) (BlockedReasons mine))
        else
          acquired ← acquireLeases req (wantedLeases req pkg) [];
          _ ← orRelease (Claim_WorkspaceID req) acquired
                (TransitionPackage s (Claim_TaskID req) (Claim_PackageID req) PackageRunning);
          mret (mkClaimResult (Claim_PackageID req) PackageRunning acquired)
    end.

Definition Renew (ws : string) (ttl : Duration) : M Z :=
  if (ttl <=? 0)%Z then throw (ErrRequired "ttl must be positive") else RenewAll ws ttl.
Definition Release (ws : string) : M Z := ReleaseAll ws.
Definition Expire : M Z := ExpireAll.

(** ** Canonical form *)

Lemma elem_of_dedup seen l x : x ∈ dedup seen l ↔ x ∈ l ∧ x ∉ seen.
Proof.
  revert seen; induction l as [|y l IH]; intros seen; simpl.
  { split; [by intros ?%not_elem_of_nil|by intros [?%not_elem_of_nil _]]. }
  case_bool_decide as Hy; rewrite ?elem_of_cons, IH, ?elem_of_cons; [naive_solver|].
  destruct (decide (x = y)) as [->|Hne]; tauto.
Qed.

Lemma NoDup_dedup seen l : NoDup (dedup seen l).
Proof.
  revert seen; induction l as [|y l IH]; intros seen; simpl; [constructor|].
  case_bool_decide; [apply IH|]. constructor; [|apply IH]. rewrite elem_of_dedup, elem_of_cons. tauto.
Qed.

Lemma elem_of_sortedStrings l x : x ∈ sortedStrings l ↔ x ∈ l.
Proof.
  unfold sortedStrings. rewrite elem_of_sortStrings, elem_of_dedup.
  split; [tauto|]. intros H. split; [done|apply not_elem_of_nil].
Qed.

(** The same elements. *)
Definition sameElements (l k : list string) : Prop := ∀ x, x ∈ l ↔ x ∈ k.

Lemma sortedStrings_spec l k : sortedStrings l = sortedStrings k ↔ sameElements l k.
Proof.
  split.
  - intros H x. by rewrite <-(elem_of_sortedStrings l), H, elem_of_sortedStrings.
  - intros H. apply sortStrings_proper, NoDup_Permutation; [apply NoDup_dedup..|].
    intros x. rewrite !elem_of_dedup. by rewrite (H x).
Qed.

Lemma sortedStrings_idemp l : sortedStrings (sortedStrings l) = sortedStrings l.
Proof. apply sortedStrings_spec. intros x. apply elem_of_sortedStrings. Qed.

(** Structural equality: the same task, and the same packages up to the order
    of packages, and the order and repetition within their lists. *)
Definition samePackage (p q : WorkPackage) : Prop :=
  ID p = ID q ∧ Package_TaskID p = Package_TaskID q ∧ Package_Stage p = Package_Stage q ∧
  Title p = Title q ∧ Objective p = Objective q ∧ State p = State q ∧ Attempts p = Attempts q ∧
  sameElements (AcceptedACIDs p) (AcceptedACIDs q) ∧ sameElements (AllowedScope p) (AllowedScope q) ∧
  sameElements (Dependencies p) (Dependencies q).
Definition sameGraph (g h : WorkGraph) : Prop :=
  TaskID g = TaskID h ∧ ∃ ps, Packages g ≡ₚ ps ∧ Forall2 samePackage ps (Packages h).

Lemma canonicalPackage_spec p q : canonicalPackage p = canonicalPackage q ↔ samePackage p q.
Proof.
  unfold canonicalPackage, samePackage. rewrite <-!sortedStrings_spec.
  split; [intros [= -> -> -> -> -> -> -> -> -> ->]; tauto|].
  intros (-> & -> & -> & -> & -> & -> & -> & -> & -> & ->). done.
Qed.

Lemma canonicalPackages_spec ps qs :
  canonicalPackage <$> ps = canonicalPackage <$> qs ↔ Forall2 samePackage ps qs.
Proof.
  split.
  - intros H. apply list_eq_Forall2 in H. rewrite Forall2_fmap in H.
    eapply Forall2_impl; [exact H|]. intros p q. apply canonicalPackage_spec.
  - intros H. apply list_eq_Forall2, Forall2_fmap. eapply Forall2_impl; [exact H|].
    intros p q. apply canonicalPackage_spec.
Qed.

(** Sorting by unique ids forgets the order. *)
Lemma sortStable_lessID_proper ps qs :
  NoDup (ID <$> ps) → ps ≡ₚ qs → sortStable lessID ps = sortStable lessID qs.
Proof.
  intros Hnd Hp. eapply StronglySorted_unique_strong; [|apply lessID_sorted..|].
  - intros p q Hpin Hqin Hpq Hqp. rewrite !sortStable_Permutation in *. rewrite <-Hp in Hqin.
    apply list_elem_of_lookup in Hpin as [i Hi]. apply list_elem_of_lookup in Hqin as [j Hj].
    assert (i = j) as ->; [|congruence]. eapply NoDup_lookup; [exact Hnd| |];
      rewrite list_lookup_fmap; [by rewrite Hi|]. rewrite Hj. simpl. f_equal.
    by apply String.leb_antisym.
  - by rewrite !sortStable_Permutation.
Qed.

(** C19: the canonical form decides structural equality.  For graphs with
    unique package ids, [Canonicalize] gives equal results exactly on
    structurally equal graphs, whatever the order of packages and list entries;
    its result is sorted by id and is its own canonical form. *)
Theorem Canonicalize_canonical g h :
  NoDup (ID <$> Packages g) →
  (Canonicalize g = Canonicalize h ↔ sameGraph g h) ∧
  Canonicalize (Canonicalize g) = Canonicalize g ∧
  sameGraph g (Canonicalize g) ∧
  StronglySorted (λ p q, String.leb (ID p) (ID q) = true) (Packages (Canonicalize g)).
Proof.
  intros Hnd.
  assert (∀ h, Canonicalize g = Canonicalize h ↔ sameGraph g h) as Heq.
  { clear h. intros h. unfold sameGraph, Canonicalize. split.
    - intros [= Ht Hs]. split; [done|].
      assert (canonicalPackage <$> Packages g ≡ₚ canonicalPackage <$> Packages h) as H.
      { by rewrite <-(sortStable_Permutation lessID (_ <$> Packages g)), Hs, sortStable_Permutation. }
      symmetry in H. apply Permutation_map_inv in H as (ps & Hps & Hperm).
      exists ps. split; [done|]. by apply canonicalPackages_spec.
    - intros (Ht & ps & Hperm & Hf). f_equal; [done|]. apply canonicalPackages_spec in Hf. rewrite <-Hf.
      apply sortStable_lessID_proper; [|by rewrite Hperm]. by rewrite <-list_fmap_compose. }
  assert (sameGraph g (Canonicalize g)) as Hid.
  { split; [done|]. unfold Canonicalize. cbn [Packages].
    destruct (Permutation_map_inv canonicalPackage (Packages g)
      (sortStable_Permutation lessID (canonicalPackage <$> Packages g))) as (ps & Hps & Hperm).
    exists ps. split; [done|]. apply canonicalPackages_spec.
    trans (canonicalPackage <$> (canonicalPackage <$> ps)); [|f_equal; exact (eq_sym Hps)].
    rewrite <-list_fmap_compose.
    apply list_fmap_ext. intros _ p _. apply canonicalPackage_spec. split_and!; try done;
      intros x; cbn; by rewrite elem_of_sortedStrings. }
  split; [apply Heq|]. split; [symmetry; by apply Heq|]. split; [done|]. apply lessID_sorted.
Qed.

Lemma Canonicalize_canonical_witness :
  NoDup (ID <$> Packages demoGraph) ∧
  Canonicalize (Canonicalize demoGraph) = Canonicalize demoGraph.
Proof.
  assert (NoDup (ID <$> Packages demoGraph)) as H by (apply (bool_decide_unpack _); vm_compute; exact I).
  split; [exact H|]. exact (proj1 (proj2 (Canonicalize_canonical demoGraph demoGraph H))).
Defined.

(** ** The lease table under any interleaving *)

Definition leaseKey (l : Lease) : string * string * LeaseKind * string :=
  (Lease_Scope l, ScopeID l, Kind l, Resource l).

(** At most one active lease on a resource; lease ids are never reused. *)
Record leases_inv (d : DB) : Prop := {
  li_exclusive : ∀ i j l k, leases d !! i = Some l → leases d !! j = Some k →
    isActive l = true → isActive k = true → leaseKey l = leaseKey k → i = j;
  li_ids : ∀ i j l k, leases d !! i = Some l → leases d !! j = Some k → Lease_ID l = Lease_ID k → i = j;
  li_last : ∀ i l, leases d !! i = Some l → (Lease_ID l ≤ lastLeaseID d)%Z }.

(** Swept: past its expiry when compared as text. *)
Definition lapsed (l : Lease) : Prop :=
  Lease_State l = expired ∧ ExpiresAt l ≠ 0%Z ∧ textLe (ExpiresAt l) (ReleasedAt l) = true.

Section leases.
(** The workspaces somebody may release the leases of. *)
Context (P : string → Prop).

(** What may become of a row: a closed lease is history; an active one stays,
    lapses, or is released on behalf of its workspace. *)
Record lrel (l l' : Lease) : Prop := {
  lr_id : Lease_ID l' = Lease_ID l;
  lr_key : leaseKey l' = leaseKey l;
  lr_ws : WorkspaceID l' = WorkspaceID l;
  lr_created : CreatedAt l' = CreatedAt l;
  lr_closed : isActive l = false → l' = l;
  lr_active : isActive l = true →
    isActive l' = true ∨ lapsed l' ∨ (Lease_State l' = released ∧ P (WorkspaceID l)) }.

Record evolves (d d' : DB) : Prop := {
  ev_rows : ∀ i l, leases d !! i = Some l → ∃ l', leases d' !! i = Some l' ∧ lrel l l';
  ev_inv : leases_inv d → leases_inv d' }.

Lemma lrel_refl l : lrel l l.
Proof. split; auto. Qed.

Lemma lrel_trans l1 l2 l3 : lrel l1 l2 → lrel l2 l3 → lrel l1 l3.
Proof.
  intros [H1 H2 H3 H4 H5 H6] [K1 K2 K3 K4 K5 K6]. split; try congruence.
  - intros H. rewrite H5 in * by done. auto.
  - intros H. destruct (isActive l2) eqn:E.
    + rewrite <-H3. auto.
    + rewrite K5 by done. destruct (H6 H) as [?|[?|?]]; [congruence|tauto..].
Qed.

Lemma evolves_refl d : evolves d d.
Proof. split; [|done]. intros i l H. exists l. split; [done|apply lrel_refl]. Qed.

Lemma evolves_trans d1 d2 d3 : evolves d1 d2 → evolves d2 d3 → evolves d1 d3.
Proof.
  intros [H1 K1] [H2 K2]. split; [|auto]. intros i l Hl.
  destruct (H1 _ _ Hl) as (l' & Hl' & Hr). destruct (H2 _ _ Hl') as (l'' & Hl'' & Hr').
  exists l''. split; [done|]. by eapply lrel_trans.
Qed.

(** A step that does not touch the lease table. *)
Lemma evolves_same d d' : leases d' = leases d → lastLeaseID d' = lastLeaseID d → evolves d d'.
Proof.
  intros H1 H2. split.
  - intros i l Hl. rewrite H1. exists l. split; [done|apply lrel_refl].
  - intros [K1 K2 K3]. split; rewrite ?H1, ?H2; eauto.
Qed.

Lemma evolves_update which f d :
  (∀ l, which l = true → isActive l = true ∧ lrel l (f l)) → evolves d (updateLeases which f d).2.
Proof.
  intros Hf. set (g := λ l, if which l then f l else l).
  assert (∀ l, lrel l (g l) ∧ (isActive (g l) = true → isActive l = true)) as Hg.
  { intros l. unfold g. destruct (which l) eqn:E; [|split; [apply lrel_refl|done]].
    destruct (Hf l E). by split. }
  unfold updateLeases, setLeases. cbn [snd]. fold g. split; cbn [leases lastLeaseID].
  - intros i l Hl. exists (g l). split; [by rewrite list_lookup_fmap, Hl|apply Hg].
  - assert (∀ i k, (g <$> leases d) !! i = Some k → ∃ l, leases d !! i = Some l ∧ k = g l) as Hlk.
    { intros i k. rewrite list_lookup_fmap. destruct (leases d !! i) as [l|]; [|done].
      intros [= <-]. by exists l. }
    intros [K1 K2 K3]. split; cbn [leases lastLeaseID].
    + intros i j l k (l0 & Hl0 & ->)%Hlk (k0 & Hk0 & ->)%Hlk Hl Hk Heq.
      rewrite (lr_key _ _ (proj1 (Hg l0))), (lr_key _ _ (proj1 (Hg k0))) in Heq.
      eapply K1; [done|done|by apply Hg|by apply Hg|done].
    + intros i j l k (l0 & Hl0 & ->)%Hlk (k0 & Hk0 & ->)%Hlk Heq.
      rewrite (lr_id _ _ (proj1 (Hg l0))), (lr_id _ _ (proj1 (Hg k0))) in Heq. by eapply K2.
    + intros i l (l0 & Hl0 & ->)%Hlk. rewrite (lr_id _ _ (proj1 (Hg l0))). by eapply K3.
Qed.

Lemma evolves_Release ws now d : P ws → evolves d (ReleaseLeasesByWorkspace ws now d).2.
Proof.
  intros Hws. apply evolves_update. intros l [Hl Ha]%andb_prop. apply bool_decide_eq_true in Hl.
  split; [done|]. split; try done; [congruence|]. intros _. right. right. split; [done|congruence].
Qed.

Lemma evolves_Renew ws e d : evolves d (RenewWorkspaceLeases ws e d).2.
Proof.
  apply evolves_update. intros l [[_ Ha]%andb_prop _]%andb_prop. split; [done|].
  split; try done; [congruence|]. by left.
Qed.

Lemma evolves_Expire now d : evolves d (ExpireLeases now d).2.
Proof.
  apply evolves_update. intros l [[Ha Hz]%andb_prop Ht]%andb_prop. split; [done|].
  split; try done; [congruence|]. intros _. right. left. split; [done|]. split; [|done].
  apply negb_true_iff, Z.eqb_neq in Hz. done.
Qed.

Lemma sameResource_key scope id k r l :
  sameResource scope id k r l = true ↔ leaseKey l = (scope, id, k, r).
Proof.
  unfold sameResource, leaseKey. rewrite !andb_true_iff, !bool_decide_eq_true.
  split; [intros [[[-> ->] ->] ->]; done|intros [= -> -> -> ->]; done].
Qed.

Lemma evolves_Create l d id d' : CreateLease l d = Ok (id, d') → evolves d d'.
Proof.
  unfold CreateLease. destruct (_ && _) eqn:Hc; [done|]. intros [= <- <-].
  set (n := mkLease _ _ _ _ _ _ _ _ _ _).
  split; cbn [leases lastLeaseID].
  { intros i k Hk. exists k. split; [by apply lookup_app_l_Some|apply lrel_refl]. }
  intros [K1 K2 K3].
  assert (∀ k, k ∈ leases d → isActive k = true → isActive n = true → leaseKey k ≠ leaseKey n) as Hnew.
  { intros k Hk Ha Hn Heq. apply andb_false_iff in Hc as [Hc|Hc]; [unfold isActive in *; cbn in *; congruence|].
    apply existsb_elem_false with (x := k) in Hc; [|done]. rewrite Ha in Hc. cbn in Hc.
    apply not_true_iff_false in Hc. apply Hc, sameResource_key. by rewrite Heq. }
  assert (∀ i k, (leases d ++ [n]) !! i = Some k → leases d !! i = Some k ∨ (i = length (leases d) ∧ k = n)) as Hlk.
  { intros i k [?|[Hi Hk]]%lookup_app_Some; [by left|]. right.
    destruct (i - length (leases d)) eqn:E; [|done]. injection Hk as <-. split; [lia|done]. }
  split; cbn [leases lastLeaseID].
  - intros i j k k' [Hk|[-> ->]]%Hlk [Hk'|[-> ->]]%Hlk Ha Ha' Heq; [by eapply K1| | |done];
      exfalso; eapply Hnew; [|exact Ha|exact Ha'|done| |exact Ha'|exact Ha|done]; by eapply list_elem_of_lookup_2.
  - intros i j k k' [Hk|[-> ->]]%Hlk [Hk'|[-> ->]]%Hlk Heq; [by eapply K2| | |done];
      [apply K3 in Hk|apply K3 in Hk']; cbn in Heq; lia.
  - intros i k [Hk%K3|[-> ->]]%Hlk; cbn; lia.
Qed.

Lemma evolves_updatePackage task pkg f d d' : updatePackage task pkg f d = Ok d' → evolves d d'.
Proof. unfold updatePackage. destruct (existsb _ _); [|done]. intros [= <-]. by apply evolves_same. Qed.

Lemma evolves_Replace task rows d d' : ReplaceWorkGraph task rows d = Ok d' → evolves d d'.
Proof.
  unfold ReplaceWorkGraph. repeat (case_match; [done|]). intros [= <-]. by apply evolves_same.
Qed.

(** ** A small program logic for the operations *)

(** Nobody releases the leases of a workspace outside [P]. *)
Definition quiet (w : World) : Prop :=
  ∀ is_ ws, is_ ∈ sched w → IRelease ws ∈ is_ → P ws.

Lemma quiet_Forall w :
  Forall (Forall (λ i, match i with IRelease ws => P ws | _ => True end)) (sched w) → quiet w.
Proof.
  intros H is_ ws Hin Hrel. rewrite Forall_forall in H. specialize (H _ Hin).
  rewrite Forall_forall in H. exact (H _ Hrel).
Qed.

Lemma interfere1_ok w i :
  (∀ ws, i = IRelease ws → P ws) →
  evolves (db w) (db (interfere1 w i)) ∧ sched (interfere1 w i) = sched w.
Proof.
  intros Hi. destruct i as [l|ws|ws e| |t p s|t rows|t]; cbn.
  - destruct (CreateLease l (db w)) as [[id d]|] eqn:E; [|split; [apply evolves_refl|done]].
    split; [by eapply evolves_Create|done].
  - split; [|done]. apply evolves_Release. auto.
  - split; [apply evolves_Renew|done].
  - split; [apply evolves_Expire|done].
  - split; [|done]. unfold UpdateWorkPackageState.
    destruct (updatePackage _ _ _ _) eqn:E; [by eapply evolves_updatePackage|apply evolves_refl].
  - split; [|done]. destruct (ReplaceWorkGraph _ _ _) eqn:E; [by eapply evolves_Replace|apply evolves_refl].
  - split; [apply evolves_refl|done].
Qed.

Lemma interfere_ok is_ w :
  (∀ ws, IRelease ws ∈ is_ → P ws) →
  evolves (db w) (db (interfere is_ w)) ∧ sched (interfere is_ w) = sched w.
Proof.
  revert w; induction is_ as [|i is_ IH]; intros w Hi; [split; [apply evolves_refl|done]|].
  destruct (interfere1_ok w i) as [H1 H2]; [intros ws ->; apply Hi; constructor|].
  destruct (IH (interfere1 w i)) as [H3 H4]; [intros ws H; apply Hi; by constructor|].
  change (interfere (i :: is_) w) with (interfere is_ (interfere1 w i)).
  split; [by eapply evolves_trans|congruence].
Qed.

Lemma turn_ok w : quiet w → evolves (db w) (db (turn w)) ∧ quiet (turn w).
Proof.
  intros Hq. unfold turn. destruct (sched w) as [|is_ rest] eqn:Hs; [split; [apply evolves_refl|done]|].
  destruct (interfere_ok is_ (mkWorld (db w) (clock w) rest)) as [H1 H2].
  { intros ws. apply Hq. rewrite Hs. constructor. }
  split; [exact H1|]. intros is2 ws Hin. rewrite H2 in Hin. apply Hq. rewrite Hs. by constructor.
Qed.

(** [m] run from [w] keeps the table's history; when it succeeds [Q] holds. *)
Definition runs {A} (m : M A) (w : World) (Q : A → World → Prop) : Prop :=
  quiet w → ∃ r w', m w = (r, w') ∧
    match r with
    | Ok a => quiet w' ∧ evolves (db w) (db w') ∧ Q a w'
    | Err _ => True
    end.

Lemma runs_mono {A} (m : M A) w (Q R : A → World → Prop) :
  runs m w Q → (∀ a w', evolves (db w) (db w') → Q a w' → R a w') → runs m w R.
Proof.
  intros H HQ Hq. destruct (H Hq) as ([a|e] & w' & Hm & Hr).
  - destruct Hr as (? & ? & ?). exists (Ok a), w'. auto.
  - by exists (Err e), w'.
Qed.

Lemma runs_ret {A} (a : A) w (Q : A → World → Prop) : Q a w → runs (mret a) w Q.
Proof. intros HQ Hq. exists (Ok a), w. split; [done|]. split; [done|]. split; [apply evolves_refl|done]. Qed.

Lemma runs_throw {A} e w (Q : A → World → Prop) : runs (throw e) w Q.
Proof. intros _. by exists (Err e), w. Qed.

Lemma runs_bind {A B} (m : M A) (f : A → M B) w (Q : A → World → Prop) (R : B → World → Prop) :
  runs m w Q →
  (∀ a w1, evolves (db w) (db w1) → Q a w1 → runs (f a) w1 R) →
  runs (m ≫= f) w R.
Proof.
  intros Hm Hf Hq. destruct (Hm Hq) as ([a|e] & w1 & Hr & Hw1).
  - destruct Hw1 as (Hq1 & He1 & HQ). destruct (Hf a w1 He1 HQ Hq1) as (r & w2 & Hr2 & Hw2).
    exists r, w2. unfold mbind, M_bind. rewrite Hr. split; [done|]. destruct r as [b|e]; [|done].
    destruct Hw2 as (? & ? & ?). split; [done|]. split; [by eapply evolves_trans|done].
  - exists (Err e), w1. unfold mbind, M_bind. by rewrite Hr.
Qed.

Lemma runs_stmt {A} (f : DB → result Error (A * DB)) w (Q : A → World → Prop) :
  (∀ w1 a d, evolves (db w) (db w1) → f (db w1) = Ok (a, d) →
     evolves (db w1) d ∧ Q a (withDB d w1)) →
  runs (stmt f) w Q.
Proof.
  intros Hf Hq. destruct (turn_ok w Hq) as [He Hq1]. unfold stmt.
  destruct (f (db (turn w))) as [[a d]|e] eqn:E.
  - destruct (Hf _ _ _ He E) as [He1 HQ]. exists (Ok a), (withDB d (turn w)). split; [done|].
    split; [done|]. split; [by eapply evolves_trans|done].
  - by exists (Err e), (turn w).
Qed.

Lemma runs_query {A} (f : DB → result Error A) w (Q : A → World → Prop) :
  (∀ w1 a, evolves (db w) (db w1) → f (db w1) = Ok a → Q a w1) →
  runs (query f) w Q.
Proof.
  intros Hf. apply runs_stmt. intros w1 a d He H. destruct (f (db w1)) as [a'|] eqn:E; [|done].
  cbn in H. injection H as <- <-. split; [apply evolves_refl|].
  replace (withDB (db w1) w1) with w1 by (by destruct w1). auto.
Qed.

Lemma runs_readClock w (Q : Time → World → Prop) :
  (∀ w1, evolves (db w) (db w1) → Q (clock w1) w1) → runs readClock w Q.
Proof.
  intros HQ Hq. destruct (turn_ok w Hq) as [He Hq1]. exists (Ok (clock (turn w))), (turn w).
  split; [done|]. auto.
Qed.

(** ** What an acquired lease is worth *)

(** The row of a lease this workspace acquired: still active, or lapsed. *)
Definition held (ws pid : string) (d : DB) (l : Lease) : Prop :=
  ∃ i row, leases d !! i = Some row ∧ Lease_ID row = Lease_ID l ∧ WorkspaceID row = ws ∧
    leaseKey row = (project, pid, Kind l, Resource l) ∧ (isActive row = true ∨ lapsed row).

Lemma held_evolves ws pid d d' l : ¬ P ws → evolves d d' → held ws pid d l → held ws pid d' l.
Proof.
  intros Hws He (i & row & Hi & Hid & Hw & Hk & Ha). destruct (ev_rows _ _ He _ _ Hi) as (row' & Hi' & Hr).
  exists i, row'. split; [done|]. rewrite (lr_id _ _ Hr), (lr_ws _ _ Hr), (lr_key _ _ Hr).
  do 3 (split; [done|]). destruct (isActive row) eqn:E.
  - destruct (lr_active _ _ Hr E) as [?|[?|[_ ?]]]; [tauto|tauto|]. congruence.
  - rewrite (lr_closed _ _ Hr E). rewrite E. tauto.
Qed.

(** The lease that [acquire] returns. *)
Definition acquired (ws pid : string) (k : LeaseKind) (r : string) (l : Lease) (w : World) : Prop :=
  Kind l = k ∧ Resource l = r ∧ WorkspaceID l = ws ∧ held ws pid (db w) l.

Lemma GetActiveLease_Some scope id k r d l :
  GetActiveLease scope id k r d = Some l →
  ∃ i, leases d !! i = Some l ∧ leaseKey l = (scope, id, k, r) ∧ isActive l = true.
Proof.
  unfold GetActiveLease. destruct (list_find _ _) as [[i l']|] eqn:E; [|done]. intros [= <-].
  apply list_find_Some in E as (Hi & Hl & _). apply andb_prop in Hl as [Hs Ha].
  exists i. split; [done|]. split; [by apply sameResource_key|done].
Qed.

Lemma ownOrConflict_runs ws pid k r l w :
  GetActiveLease project pid k r (db w) = Some l →
  runs (ownOrConflict ws l) w (acquired ws pid k r).
Proof.
  intros (i & Hi & Hk & Ha)%GetActiveLease_Some. unfold ownOrConflict.
  destruct (decide (WorkspaceID l = ws)) as [Hw|Hw];
    [rewrite bool_decide_true by done|rewrite bool_decide_false by done; apply runs_throw].
  apply runs_ret. pose proof Hk as Hk'. injection Hk' as _ _ HK HR. split; [done|]. split; [done|].
  split; [done|]. exists i, l. rewrite HK, HR. split_and!; try done. by left.
Qed.

Lemma createLease_runs ws pid k r now e w :
  runs (createLease project pid k r ws now e) w (acquired ws pid k r).
Proof.
  unfold createLease. eapply runs_bind with (Q := λ x w1, ∀ id, x = Ok id →
    acquired ws pid k r (mkLease id project pid k r ws active now 0 e) w1).
  - apply runs_stmt. intros w1 a d _ H. destruct (CreateLease _ _) as [[id d']|err] eqn:E.
    + injection H as <- <-. split; [by eapply evolves_Create|]. intros id' [= <-].
      unfold CreateLease in E. destruct (_ && _); [done|]. injection E as <- <-.
      split_and!; try done. eexists (length (leases (db w1))), _. cbn [db leases withDB].
      rewrite lookup_app_r, Nat.sub_diag by done. split; [reflexivity|]. split_and!; try done. by left.
    + injection H as <- <-. split; [apply evolves_refl|]. by intros id.
  - intros [id|err] w1 _ HQ; [apply runs_ret; auto|]. destruct err; try apply runs_throw.
    eapply runs_bind; [apply runs_query with (Q := λ x w2, GetActiveLease project pid k r (db w2) = x)|].
    + intros w2 a _ [= <-]. done.
    + intros [l|] w2 _ Hl; [by apply ownOrConflict_runs|apply runs_throw].
Qed.

Lemma acquire_runs ws pid k r e w : runs (acquire project pid k r ws e) w (acquired ws pid k r).
Proof.
  unfold acquire. eapply runs_bind; [apply runs_readClock with (Q := λ _ _, True); done|].
  intros now w1 _ _.
  eapply runs_bind; [apply runs_query with (Q := λ x w2, GetActiveLease project pid k r (db w2) = x)|].
  { intros w2 a _ [= <-]. done. }
  intros [l|] w2 _ Hl; [|apply createLease_runs].
  destruct (_ || _); [by apply ownOrConflict_runs|].
  eapply runs_bind; [apply runs_stmt with (Q := λ _ _, True)|intros; apply createLease_runs].
  intros w3 a d _ H. injection H as <- <-. split; [apply (evolves_Expire now)|done].
Qed.

Lemma acquireClaim_runs req k r w :
  k = LeasePath ∨ k = LeaseSemantic →
  runs (acquireClaim req k r) w (acquired (Claim_WorkspaceID req) (ProjectID req) k r).
Proof.
  intros Hk. unfold acquireClaim.
  destruct (decide (k = LeasePath)) as [->|Hp]; [rewrite bool_decide_true by done|rewrite bool_decide_false by done].
  - eapply runs_bind; [apply runs_readClock with (Q := λ _ _, True); done|]. intros. apply acquire_runs.
  - assert (k = LeaseSemantic) as -> by tauto. unfold AcquireSemanticTTL.
    destruct (IsValidSemantic r); [|apply runs_throw].
    eapply runs_bind; [apply runs_readClock with (Q := λ _ _, True); done|]. intros. apply acquire_runs.
Qed.

Lemma orRelease_runs {A} ws ls (m : M A) w (Q : A → World → Prop) :
  runs m w Q → runs (orRelease ws ls m) w Q.
Proof.
  intros H Hq. destruct (H Hq) as ([a|e] & w' & Hm & Hr); unfold orRelease; rewrite Hm.
  - by exists (Ok a), w'.
  - by eexists (Err e), _.
Qed.

Lemma acquireLeases_runs req wanted ls w :
  ¬ P (Claim_WorkspaceID req) →
  Forall (λ x, x.1 = LeasePath ∨ x.1 = LeaseSemantic) wanted →
  Forall (held (Claim_WorkspaceID req) (ProjectID req) (db w)) ls →
  runs (acquireLeases req wanted ls) w (λ ls' w',
    (λ l, (Kind l, Resource l)) <$> ls' = ((λ l, (Kind l, Resource l)) <$> ls) ++ wanted ∧
    Forall (held (Claim_WorkspaceID req) (ProjectID req) (db w')) ls').
Proof.
  intros Hws. revert ls w; induction wanted as [|[k r] wanted IH]; intros ls w Hk Hls; cbn [acquireLeases].
  { apply runs_ret. by rewrite app_nil_r. }
  inversion_clear Hk as [|? ? Hk1 Hk2].
  eapply runs_bind; [apply orRelease_runs, acquireClaim_runs, Hk1|].
  intros l w1 He (HK & HR & _ & Hh). eapply runs_mono; [apply IH; [done|]|].
  - apply Forall_app. split; [|by repeat constructor].
    eapply Forall_impl; [exact Hls|]. intros x. by apply held_evolves.
  - intros ls' w' _ [Heq Hall]. split; [|done]. rewrite Heq, fmap_app. cbn. rewrite <-app_assoc, HK, HR. done.
Qed.
End leases.

(** ** Claims *)

Lemma updatePackage_found task pkg f d d' :
  updatePackage task pkg f d = Ok d' → ∃ r, r ∈ packages d ∧ isRow task pkg r = true ∧ f r ∈ packages d'.
Proof.
  unfold updatePackage. destruct (existsb _ _) eqn:E; [|done]. intros [= <-].
  apply existsb_elem in E as (r & Hr & Hrow). exists r. do 2 (split; [done|]). cbn.
  apply list_elem_of_fmap. exists r. by rewrite Hrow.
Qed.

Lemma recordTx_same s ev d d' :
  recordTx s ev d = Ok d' →
  packages d' = packages d ∧ leases d' = leases d ∧ lastLeaseID d' = lastLeaseID d.
Proof.
  unfold recordTx. destruct (audit_ s) as [rec|]; [|by intros [= <-]].
  destruct (audit.Record_ _ _ _) as [[z|e] t]; [|done]. by intros [= <-].
Qed.

Definition running (req : ClaimRequest) (d : DB) : Prop :=
  ∃ row, row ∈ packages d ∧ isRow (Claim_TaskID req) (Claim_PackageID req) row = true ∧
    State (Package row) = PackageRunning.

Lemma Transition_runs P s req w :
  runs P (TransitionPackage s (Claim_TaskID req) (Claim_PackageID req) PackageRunning) w
    (λ _ w', running req (db w')).
Proof.
  unfold TransitionPackage. cbn.
  eapply runs_bind; [apply runs_readClock with (Q := λ _ _, True); done|].
  intros now w1 _ _. apply runs_stmt. intros w2 a d _ H.
  apply bind_ok in H as (d' & H & [= <- <-]). apply bind_ok in H as (d1 & Hu & Hr).
  destruct (recordTx_same _ _ _ _ Hr) as (Hp & Hl & Hi). split.
  - eapply evolves_trans; [by eapply evolves_updatePackage|]. by apply evolves_same.
  - destruct (updatePackage_found _ _ _ _ _ Hu) as (r & Hin & Hrow & Hin').
    exists (setPackageState PackageRunning now r). cbn. rewrite Hp. split; [done|]. split; [|done]. done.
Qed.

(** What a claim read before it acquired: the package, the graph, the active
    leases of the project. *)
Definition decidedOn (req : ClaimRequest) (pkg : WorkPackage) (vg : WorkGraph) (ls : list Lease)
    (P : string → Prop) (d d' : DB) : Prop :=
  ∃ d0 d1 d2 now, evolves P d d0 ∧ evolves P d0 d1 ∧ evolves P d1 d2 ∧ evolves P d2 d' ∧
    GetPackage (Claim_TaskID req) (Claim_PackageID req) d0 = Ok pkg ∧
    LoadValidated (Claim_TaskID req) d1 = Ok vg ∧
    ls = filter (λ l, IsExpired l now = false) (ListActiveLeasesByScope project (ProjectID req) d2).

Lemma Claim_runs s req w :
  let P := λ ws, ws ≠ Claim_WorkspaceID req in
  runs P (Claim s req) w (λ res w', ∃ pkg vg ls now r,
    decidedOn req pkg vg ls P (db w) (db w') ∧
    r ∈ ComputeReadiness vg ls now (Claim_WorkspaceID req) ∧ PackageID r = Claim_PackageID req ∧
    Ready r = true ∧
    (λ l, (Kind l, Resource l)) <$> Leases res = wantedLeases req pkg ∧
    Forall (held (Claim_WorkspaceID req) (ProjectID req) (db w')) (Leases res) ∧
    running req (db w')).
Proof.
  intros P. assert (¬ P (Claim_WorkspaceID req)) as HP by (unfold P; tauto).
  unfold Claim. destruct (_ || _); [apply runs_throw|].
  case_bool_decide; [apply runs_throw|]. case_bool_decide; [apply runs_throw|].
  eapply runs_bind; [apply runs_query with (Q := λ p w1, GetPackage (Claim_TaskID req) (Claim_PackageID req) (db w1) = Ok p); done|].
  intros pkg w1 He1 Hpkg.
  eapply runs_bind; [apply runs_query with (Q := λ v w1, LoadValidated (Claim_TaskID req) (db w1) = Ok v); done|].
  intros vg w2 He2 Hvg.
  eapply runs_bind.
  { apply runs_bind with (Q := λ rows w3, rows = ListActiveLeasesByScope project (ProjectID req) (db w3))
      (R := λ ls w4, ∃ d2 now, evolves P (db w2) d2 ∧ evolves P d2 (db w4) ∧
         ls = filter (λ l, IsExpired l now = false) (ListActiveLeasesByScope project (ProjectID req) d2)).
    - apply runs_query. by intros w3 a _ [= <-].
    - intros rows w3 He3 ->. eapply runs_bind; [apply runs_readClock with (Q := λ _ _, True); done|].
      intros now w4 He4 _. apply runs_ret. by exists (db w3), now. }
  intros ls w4 He4 (d2 & now2 & Hd2 & Hd2' & Hls).
  eapply runs_bind; [apply runs_readClock with (Q := λ _ _, True); done|].
  intros now w5 He5 _.
  destruct (list_find _ _) as [[i mine]|] eqn:Hf; [|apply runs_throw].
  apply list_find_Some in Hf as (Hi & Hid & _).
  destruct (Ready mine) eqn:Hready; [|apply runs_throw]. cbn [negb].
  eapply runs_bind; [apply acquireLeases_runs; [exact HP| |constructor]|].
  { apply Forall_app. split; apply Forall_fmap, Forall_true; cbn; auto. }
  intros ls' w6 He6 [Hkeys Hheld].
  eapply runs_bind; [apply orRelease_runs, Transition_runs|].
  intros [] w7 He7 Hrun. apply runs_ret.
  exists pkg, vg, ls, now, mine. split.
  { exists (db w1), (db w2), d2, now2. do 3 (split; [done|]). split; [|done].
    eapply evolves_trans; [exact Hd2'|]. eapply evolves_trans; [exact He5|].
    by eapply evolves_trans. }
  split; [by eapply list_elem_of_lookup_2|]. do 2 (split; [done|]). cbn [Leases].
  split; [by rewrite Hkeys|]. split; [|done].
  eapply Forall_impl; [exact Hheld|]. intros l. by apply (held_evolves P).
Qed.

(** C18: a successful claim holds what it needs, exclusively.  Whatever other
    connections do between its statements, short of releasing this workspace's
    leases: the package was ready in the graph and leases the claim read, every
    wanted path and semantic resource has a lease row of this workspace in the
    project's scope that is active or has lapsed, no other workspace has an
    active lease on a resource unless ours lapsed, the package is running, and
    the table still has at most one active lease per resource. *)
Theorem Claim_ok s req w res w' :
  leases_inv (db w) →
  quiet (λ ws, ws ≠ Claim_WorkspaceID req) w →
  Claim s req w = (Ok res, w') →
  leases_inv (db w') ∧ running req (db w') ∧
  (∃ pkg vg ls now r,
    decidedOn req pkg vg ls (λ ws, ws ≠ Claim_WorkspaceID req) (db w) (db w') ∧
    r ∈ ComputeReadiness vg ls now (Claim_WorkspaceID req) ∧ PackageID r = Claim_PackageID req ∧
    Ready r = true ∧
    (λ l, (Kind l, Resource l)) <$> Leases res = wantedLeases req pkg) ∧
  ∀ l, l ∈ Leases res →
    held (Claim_WorkspaceID req) (ProjectID req) (db w') l ∧
    ∀ row, row ∈ leases (db w') → isActive row = true →
      leaseKey row = (project, ProjectID req, Kind l, Resource l) →
      WorkspaceID row = Claim_WorkspaceID req ∨
      ∃ own, own ∈ leases (db w') ∧ Lease_ID own = Lease_ID l ∧ lapsed own.
Proof.
  intros Hinv Hq Hc. destruct (Claim_runs s req w Hq) as (r & w2 & Hc2 & Hr).
  rewrite Hc in Hc2. injection Hc2 as <- <-.
  destruct Hr as (_ & He & pkg & vg & ls & now & r & Hd & Hin & Hid & Hready & Hkeys & Hheld & Hrun).
  assert (leases_inv (db w')) as Hinv' by (by apply (ev_inv _ _ _ He)). split; [done|]. split; [done|].
  split; [by exists pkg, vg, ls, now, r|].
  intros l Hl. rewrite Forall_forall in Hheld. specialize (Hheld l Hl). split; [done|].
  intros row Hrow Ha Hk. destruct Hheld as (i & own & Hi & Hoid & Hws & Hok & [Hact|Hlap]).
  - left. apply list_elem_of_lookup in Hrow as [j Hj].
    assert (i = j) as -> by (eapply (li_exclusive _ Hinv'); [done..|congruence]). congruence.
  - right. exists own. split; [by eapply list_elem_of_lookup_2|]. done.
Qed.

(** ** Saving a graph *)

Definition rowKey (r : PackageRow) : string * string := (Package_TaskID (Package r), ID (Package r)).

Lemma isRow_key task pkg r : isRow task pkg r = true ↔ rowKey r = (task, pkg).
Proof.
  unfold isRow, rowOf, rowKey. rewrite andb_true_iff, !bool_decide_eq_true.
  split; [by intros [-> ->]|by intros [= -> ->]].
Qed.

(** The row of a package id, if any. *)
Definition oldRow (task pkg : string) (ps : list PackageRow) : option PackageRow :=
  snd <$> list_find (λ x, isRow task pkg x = true) ps.

Lemma oldRow_Some task pkg ps x :
  NoDup (rowKey <$> ps) → oldRow task pkg ps = Some x ↔ x ∈ ps ∧ rowKey x = (task, pkg).
Proof.
  intros Hnd. unfold oldRow. destruct (list_find _ ps) as [[i y]|] eqn:E; cbn.
  - apply list_find_Some in E as (Hi & Hy%isRow_key & _). split.
    + intros [= <-]. split; [by eapply list_elem_of_lookup_2|done].
    + intros [[j Hj]%list_elem_of_lookup Hx]. f_equal. assert (i = j) as ->; [|congruence].
      eapply NoDup_lookup; [exact Hnd| |]; rewrite list_lookup_fmap, ?Hi, ?Hj; cbn; [done|]. by rewrite Hx, Hy.
  - apply list_find_None in E. rewrite Forall_forall in E. split; [done|].
    intros [Hx Hk%isRow_key]. by destruct (E x Hx).
Qed.

(** What the upsert of [r] writes. *)
Definition newRow (task : string) (version : Z) (ps : list PackageRow) (r : PackageRow) : PackageRow :=
  mkPackageRow (withTask task (Package r)) version
    (match oldRow task (ID (Package r)) ps with Some old => Row_CreatedAt old | None => Row_CreatedAt r end)
    (UpdatedAt r).

Lemma rowKey_newRow task v ps r : rowKey (newRow task v ps r) = (task, ID (Package r)).
Proof. done. Qed.

Lemma upsert_spec task v ps r :
  NoDup (rowKey <$> ps) →
  NoDup (rowKey <$> upsertPackage task v ps r) ∧
  ∀ x, x ∈ upsertPackage task v ps r ↔
    (x ∈ ps ∧ rowKey x ≠ (task, ID (Package r))) ∨ x = newRow task v ps r.
Proof.
  intros Hnd. unfold upsertPackage, newRow. pose proof (oldRow_Some task (ID (Package r)) ps) as Hold.
  unfold oldRow in *. destruct (list_find _ ps) as [[i y]|] eqn:E; cbn in *.
  - apply list_find_Some in E as (Hi & Hy%isRow_key & _).
    set (n := mkPackageRow _ _ _ _).
    assert (rowKey <$> <[i:=n]> ps = rowKey <$> ps) as Hk.
    { rewrite list_fmap_insert. apply list_insert_id. rewrite list_lookup_fmap, Hi. cbn. by rewrite Hy. }
    split; [by rewrite Hk|]. intros x. rewrite list_elem_of_lookup. split.
    + intros [j Hj]. apply list_lookup_insert_Some in Hj as [(-> & <- & _)|[Hne Hj]]; [by right|].
      left. split; [by eapply list_elem_of_lookup_2|]. intros Hx. apply Hne.
      eapply NoDup_lookup; [exact Hnd| |]; rewrite list_lookup_fmap, ?Hi, ?Hj; cbn; [done|]. by rewrite Hx, Hy.
    + intros [[[j Hj]%list_elem_of_lookup Hx]| ->].
      * exists j. rewrite list_lookup_insert_ne; [done|]. intros ->. congruence.
      * exists i. apply list_lookup_insert_eq. by eapply lookup_lt_Some.
  - apply list_find_None in E. rewrite Forall_forall in E.
    assert (∀ x, x ∈ ps → rowKey x ≠ (task, ID (Package r))) as Hne.
    { intros x Hx Hk%isRow_key. by destruct (E x Hx). }
    split.
    + rewrite fmap_app. apply NoDup_app. split; [done|]. split; [|apply NoDup_singleton].
      intros k (x & -> & Hx)%list_elem_of_fmap. cbn. rewrite list_elem_of_singleton. by apply Hne.
    + intros x. rewrite elem_of_app, list_elem_of_singleton. naive_solver.
Qed.

Lemma oldRow_upsert task v ps r pkg :
  NoDup (rowKey <$> ps) → pkg ≠ ID (Package r) →
  oldRow task pkg (upsertPackage task v ps r) = oldRow task pkg ps.
Proof.
  intros Hnd Hne. destruct (upsert_spec task v ps r Hnd) as [Hnd' Hin].
  apply option_eq. intros x. rewrite !oldRow_Some, Hin by done. split.
  - intros [[[Hx _]|Hx] Hk]; [done|]. subst x. rewrite rowKey_newRow in Hk. congruence.
  - intros [Hx Hk]. split; [left; split; [done|congruence]|done].
Qed.

Lemma upserts_spec task v rows ps :
  NoDup (rowKey <$> ps) → NoDup ((λ r, ID (Package r)) <$> rows) →
  NoDup (rowKey <$> foldl (upsertPackage task v) ps rows) ∧
  ∀ x, x ∈ foldl (upsertPackage task v) ps rows ↔
    (x ∈ ps ∧ ∀ r, r ∈ rows → rowKey x ≠ (task, ID (Package r))) ∨
    ∃ r, r ∈ rows ∧ x = newRow task v ps r.
Proof.
  revert ps; induction rows as [|r rows IH]; intros ps Hnd Hids; cbn [foldl].
  { split; [done|]. intros x. split; [|intros [[? _]|(r & ?%not_elem_of_nil & _)]; done].
    intros Hx. left. split; [done|]. by intros r ?%not_elem_of_nil. }
  apply NoDup_cons in Hids as [Hni Hids]. destruct (upsert_spec task v ps r Hnd) as [Hnd1 Hin1].
  destruct (IH _ Hnd1 Hids) as [Hnd2 Hin2]. split; [done|]. intros x. rewrite Hin2, Hin1.
  assert (∀ r', r' ∈ rows → newRow task v (upsertPackage task v ps r) r' = newRow task v ps r') as Hsame.
  { intros r' Hr'. unfold newRow. rewrite oldRow_upsert; [done|done|]. intros Heq. apply Hni.
    rewrite <-Heq. apply list_elem_of_fmap. by exists r'. }
  split.
  - intros [[[[Hx Hk]|Hx] Hall]|(r' & Hr' & Hx)].
    + left. split; [done|]. intros r' [Heq|Hr']%elem_of_cons; [by subst|auto].
    + right. exists r. split; [constructor|done].
    + right. exists r'. split; [by constructor|]. by rewrite <-Hsame.
  - intros [[Hx Hall]|(r' & [Heq|Hr']%elem_of_cons & Hx)].
    + left. split; [left; split; [done|apply Hall; constructor]|]. intros r' Hr'. apply Hall. by constructor.
    + subst r' x. left. split; [by right|]. intros r' Hr'. rewrite rowKey_newRow. intros [= Heq]. apply Hni.
      rewrite Heq. apply list_elem_of_fmap. by exists r'.
    + right. exists r'. split; [done|]. by rewrite Hsame.
Qed.

Lemma Replace_spec task rows d d' :
  NoDup (rowKey <$> packages d) → NoDup ((λ r, ID (Package r)) <$> rows) →
  ReplaceWorkGraph task rows d = Ok d' →
  NoDup (rowKey <$> packages d') ∧
  (∀ x, x ∈ packages d' ↔
     (x ∈ packages d ∧ rowOf task x = false) ∨
     ∃ r, r ∈ rows ∧ x = newRow task (maxVersion task (packages d) + 1) (packages d) r).
Proof.
  intros Hnd Hids. unfold ReplaceWorkGraph. repeat (case_match; [done|]). intros [= <-]. cbn [packages].
  destruct (upserts_spec task (maxVersion task (packages d) + 1) rows (packages d) Hnd Hids) as [Hnd' Hin].
  split.
  - by apply NoDup_fmap_filter.
  - intros x. rewrite list_elem_of_filter, Hin. split.
    + intros [Hkeep [[Hx Hall]|?]]; [left|by right]. split; [done|].
      destruct Hkeep as [?|(r & Hid & Hr)%list_elem_of_fmap]; [done|].
      unfold rowOf. apply bool_decide_false. intros Ht. apply (Hall r Hr). unfold rowKey. by rewrite Ht, Hid.
    + intros [[Hx Hrow]|(r & Hr & ->)].
      * split; [by left|]. left. split; [done|]. intros r _ Hk%isRow_key. unfold isRow in Hk. by rewrite Hrow in Hk.
      * split; [|right; by exists r]. right. apply list_elem_of_fmap. by exists r.
Qed.

(** A map built by inserting: a later entry wins, so unique keys are all there. *)
Lemma foldl_insert_Some {A B} (k : A → string) (f : A → B) (l : list A) n v :
  NoDup (k <$> l) →
  foldl (λ m x, <[k x := f x]> m) (∅ : gmap string B) l !! n = Some v ↔ ∃ x, x ∈ l ∧ k x = n ∧ f x = v.
Proof.
  induction l as [|y l IH] using rev_ind; intros Hnd.
  { cbn. rewrite lookup_empty. split; [done|]. by intros (x & ?%not_elem_of_nil & _). }
  rewrite fmap_app in Hnd. apply NoDup_app in Hnd as (Hnd & Hni & _). rewrite foldl_app. cbn.
  destruct (decide (n = k y)) as [->|Hn].
  - rewrite lookup_insert_eq. setoid_rewrite elem_of_app. setoid_rewrite list_elem_of_singleton. split.
    + intros [= <-]. exists y. auto.
    + intros (x & [Hx|Hx] & Hk & <-); [|by subst]. exfalso.
      apply (Hni (k x)); [by apply list_elem_of_fmap_2|]. rewrite Hk. constructor.
  - rewrite lookup_insert_ne by done. rewrite IH by done.
    setoid_rewrite elem_of_app. setoid_rewrite list_elem_of_singleton. split.
    + intros (x & ? & ? & ?). exists x. auto.
    + intros (x & [Hx|Hx] & Hk & <-); [by exists x|subst; congruence].
Qed.

Lemma rows_of_task_NoDup task ps :
  NoDup (rowKey <$> ps) → NoDup ((λ r, ID (Package r)) <$> filter (λ r, rowOf task r = true) ps).
Proof.
  intros Hnd. apply (NoDup_fmap_filter rowKey (λ r, rowOf task r = true)) in Hnd.
  apply (NoDup_fmap_1 (λ x, (task, x))). rewrite <-list_fmap_compose.
  replace ((pair task ∘ λ r, ID (Package r)) <$> filter (λ r, rowOf task r = true) ps)
    with (rowKey <$> filter (λ r, rowOf task r = true) ps); [done|].
  apply list_fmap_ext. intros i x Hx%list_elem_of_lookup_2. apply list_elem_of_filter in Hx as [Hx _].
  unfold rowOf in Hx. apply bool_decide_eq_true in Hx. unfold rowKey. by rewrite Hx.
Qed.

Lemma ListWorkPackages_spec task d rs :
  ListWorkPackages task d = Ok rs →
  rs ≡ₚ filter (λ r, rowOf task r = true) (packages d) ∧ rs = sortStable lessRow (filter (λ r, rowOf task r = true) (packages d)).
Proof.
  unfold ListWorkPackages. destruct (filter _ _) as [|r l] eqn:E; [done|]. intros [= <-].
  split; [by rewrite sortStable_Permutation|done].
Qed.

Lemma loadRuntime_Some task d n v :
  NoDup (rowKey <$> packages d) →
  loadRuntimeStateByTask task d !! n = Some v ↔
  ∃ r, r ∈ packages d ∧ rowKey r = (task, n) ∧ v = (State (Package r), Attempts (Package r)).
Proof.
  intros Hnd. unfold loadRuntimeStateByTask.
  pose proof (rows_of_task_NoDup task _ Hnd) as Hids.
  assert (∀ r, r ∈ filter (λ r, rowOf task r = true) (packages d) ∧ ID (Package r) = n ↔
               r ∈ packages d ∧ rowKey r = (task, n)) as Hrows.
  { intros r. rewrite list_elem_of_filter, <-isRow_key. unfold isRow.
    rewrite andb_true_iff, bool_decide_eq_true. tauto. }
  destruct (ListWorkPackages task d) as [rs|e] eqn:E.
  - apply ListWorkPackages_spec in E as [Hp _].
    rewrite (foldl_insert_Some (λ r, ID (Package r)) (λ r, (State (Package r), Attempts (Package r)))) by (by rewrite Hp).
    split; intros (r & H1 & H2 & H3); exists r.
    + rewrite Hp in H1. destruct (proj1 (Hrows r) (conj H1 H2)). auto.
    + destruct (proj2 (Hrows r) (conj H1 H2)). rewrite Hp. auto.
  - unfold ListWorkPackages in E. destruct (filter _ _) as [|r0 l] eqn:F; [|done].
    rewrite lookup_empty. split; [done|]. intros (r & H1 & H2 & _).
    destruct (proj2 (Hrows r) (conj H1 H2)) as [H _]. by apply not_elem_of_nil in H.
Qed.

Lemma ID_keepRuntime m p : ID (keepRuntime m p) = ID p.
Proof. unfold keepRuntime. by destruct (m !! ID p) as [[]|]. Qed.

(** The packages of a freshly decomposed or edited graph after a save: their
    definition is the new graph's, their runtime state the stored one's, unless
    the new graph brings its own. *)
Definition savedPackage (task : string) (d : DB) (p q : WorkPackage) : Prop :=
  ID q = ID p ∧ Package_TaskID q = task ∧ Package_Stage q = Package_Stage p ∧ Title q = Title p ∧
  Objective q = Objective p ∧ AcceptedACIDs q = AcceptedACIDs p ∧ AllowedScope q = AllowedScope p ∧
  Dependencies q = Dependencies p ∧
  match oldRow task (ID p) (packages d) with
  | Some old =>
      State q = (if bool_decide (State p = PackagePending) then State (Package old) else State p) ∧
      Attempts q = (if bool_decide (Attempts p = []) then Attempts (Package old) else Attempts p)
  | None => State q = State p ∧ Attempts q = Attempts p
  end.

Lemma keepRuntime_saved task d p :
  NoDup (rowKey <$> packages d) →
  savedPackage task d p (withTask task (keepRuntime (loadRuntimeStateByTask task d) p)).
Proof.
  intros Hnd. unfold savedPackage, keepRuntime.
  assert (loadRuntimeStateByTask task d !! ID p =
    (λ r, (State (Package r), Attempts (Package r))) <$> oldRow task (ID p) (packages d)) as ->.
  { apply option_eq. intros v. rewrite loadRuntime_Some by done. rewrite fmap_Some.
    setoid_rewrite oldRow_Some; [|done]. naive_solver. }
  destruct (oldRow _ _ _) as [old|]; cbn; split_and!; done.
Qed.

Lemma sortStable_fmap {A B} (f : A → B) (less : B → B → bool) (less' : A → A → bool) l :
  (∀ x y, less' x y = less (f x) (f y)) → f <$> sortStable less' l = sortStable less (f <$> l).
Proof.
  intros Hl. unfold sortStable. change (@nil B) with (f <$> @nil A). generalize (@nil A) as acc.
  induction l as [|x l IH]; intros acc; cbn [foldl fmap list_fmap]; [done|].
  rewrite IH. f_equal. induction acc as [|y acc IHacc]; [done|]. cbn. rewrite Hl.
  destruct (less (f x) (f y)); [done|]. cbn. f_equal. apply IHacc.
Qed.

(** A save with no other connection: one transaction, read back. *)
Lemma Save_alone s g d t g' w' :
  Save s (Some g) (mkWorld d t []) = (Ok g', w') →
  ∃ d1 d2, ReplaceWorkGraph (TaskID g)
             (packageToRow t <$> (keepRuntime (loadRuntimeStateByTask (TaskID g) d) <$> Packages g)) d = Ok d1 ∧
    packages d2 = packages d1 ∧ leases d2 = leases d1 ∧
    LoadOrDie (TaskID g) d2 = Ok g' ∧ db w' = d2.
Proof.
  unfold Save. case_bool_decide as Ht; [done|].
  unfold query, stmt_, readClock, stmt, turn, mbind, M_bind.
  cbn -[ReplaceWorkGraph LoadOrDie audit.Payload packageToRow keepRuntime].
  destruct (ReplaceWorkGraph _ _ d) as [d1|] eqn:Hr; [|done]. cbn -[LoadOrDie audit.Payload].
  destruct (recordTx s _ d1) as [d2|] eqn:Hrec; [|done]. cbn -[LoadOrDie].
  destruct (LoadOrDie _ d2) as [g2|] eqn:Hl; [|done]. cbn. intros [= -> <-].
  destruct (recordTx_same _ _ _ _ Hrec) as (? & ? & _). by exists d1, d2.
Qed.

Lemma Replace_leases task rows d d' : ReplaceWorkGraph task rows d = Ok d' → leases d' = leases d.
Proof. unfold ReplaceWorkGraph. repeat (case_match; [done|]). by intros [= <-]. Qed.

(** saving a graph keeps execution history.  Run alone on a store with
    unique rows, a save that succeeds stores exactly the packages of the graph
    for its task and returns them sorted by id: each has the definition of the
    new graph and, if a package of that id was stored, the stored state when
    the new one is pending and the stored attempts when the new one has none;
    every row gets the next graph version and keeps its creation time, packages
    no longer in the graph are gone, and other tasks and the leases are
    untouched. *)
Theorem Save_keeps_runtime s g w g' w' :
  sched w = [] → NoDup (rowKey <$> packages (db w)) → NoDup (ID <$> Packages g) →
  Save s (Some g) w = (Ok g', w') →
  TaskID g' = TaskID g ∧ ID <$> Packages g' ≡ₚ ID <$> Packages g ∧
  StronglySorted (λ p q, String.leb (ID p) (ID q) = true) (Packages g') ∧
  (∀ q, q ∈ Packages g' → ∃ p, p ∈ Packages g ∧ savedPackage (TaskID g) (db w) p q) ∧
  (∀ r, r ∈ packages (db w') →
     (rowOf (TaskID g) r = false ∧ r ∈ packages (db w)) ∨
     (GraphVersion r = maxVersion (TaskID g) (packages (db w)) + 1)%Z ∧
     Row_CreatedAt r = match oldRow (TaskID g) (ID (Package r)) (packages (db w)) with
                       | Some old => Row_CreatedAt old | None => 0%Z end) ∧
  (∀ r, r ∈ packages (db w) → rowOf (TaskID g) r = false → r ∈ packages (db w')) ∧
  leases (db w') = leases (db w).
Proof.
  destruct w as [d t sc]. cbn [sched db]. intros -> Hnd Hids H.
  destruct (Save_alone _ _ _ _ _ _ H) as (d1 & d2 & Hr & Hp & Hl & Hload & ->).
  set (rows := packageToRow t <$> _) in Hr.
  assert ((λ r, ID (Package r)) <$> rows = ID <$> Packages g) as Hrids.
  { unfold rows. rewrite <-!list_fmap_compose. apply list_fmap_ext. intros i p _. apply ID_keepRuntime. }
  destruct (Replace_spec _ _ _ _ Hnd ltac:(by rewrite Hrids) Hr) as [Hnd1 Hin]. rewrite <-Hp in *.
  apply bind_ok in Hload as (rs & Hrs%ListWorkPackages_spec & [= <-]). destruct Hrs as [Hperm Hsort].
  assert (∀ x, x ∈ rs ↔ ∃ r, r ∈ rows ∧ x = newRow (TaskID g) (maxVersion (TaskID g) (packages d) + 1) (packages d) r)
    as Hnew.
  { intros x. rewrite Hperm, list_elem_of_filter, Hin. split.
    - intros [Hrow [[_ Hf]|?]]; [congruence|done].
    - intros Hx. split; [|by right]. destruct Hx as (r & _ & ->). by apply bool_decide_true. }
  cbn [TaskID Packages]. split; [done|]. split; [|split; [|split; [|split; [|split]]]].
  - rewrite <-list_fmap_compose. apply NoDup_Permutation; [|done|].
    + change (NoDup ((λ r, ID (Package r)) <$> rs)). rewrite Hperm. by apply rows_of_task_NoDup.
    + intros n. rewrite <-Hrids, !list_elem_of_fmap. split.
      * intros (x & -> & (r & Hr' & ->)%Hnew). by exists r.
      * intros (r & -> & Hr'). eexists. split; [|apply Hnew; by exists r]. done.
  - rewrite Hsort. rewrite (sortStable_fmap Package lessID lessRow) by done. apply lessID_sorted.
  - intros q (x & -> & Hx)%list_elem_of_fmap. apply Hnew in Hx as (r & Hr' & ->). cbn.
    unfold rows in Hr'. rewrite <-list_fmap_compose in Hr'. apply list_elem_of_fmap in Hr' as (p & -> & Hp').
    exists p. split; [done|]. by apply keepRuntime_saved.
  - intros r [?|(x & Hx & ->)]%Hin; [tauto|]. right. split; [done|]. cbn. unfold rows in Hx.
    apply list_elem_of_fmap in Hx as (p & -> & _). done.
  - intros r H1 H2. apply Hin. by left.
  - by rewrite Hl, (Replace_leases _ _ _ _ Hr).
Qed.

(** ** Concrete runs *)

Definition quietStore : WorkGraphStore := mkStore None.
Definition emptyWorld (sc : list (list Interference)) : World :=
  mkWorld (mkDB ["T-1"] [] [] [] [] 0 []) 5 sc.

Lemma Save_keeps_runtime_witness :
  ∃ g' w', Save quietStore (Some demoGraph) (emptyWorld []) = (Ok g', w') ∧
    ID <$> Packages g' ≡ₚ ID <$> Packages demoGraph.
Proof.
  destruct (Save quietStore (Some demoGraph) (emptyWorld [])) as [[g'|e] w'] eqn:E;
    [|exfalso; vm_compute in E; discriminate].
  exists g', w'. split; [reflexivity|].
  assert (NoDup (ID <$> Packages demoGraph)) as H by (apply (bool_decide_unpack _); vm_compute; exact I).
  assert (NoDup (rowKey <$> packages (db (emptyWorld [])))) as H0 by constructor.
  exact (proj1 (proj2 (Save_keeps_runtime quietStore demoGraph (emptyWorld []) g' w' eq_refl H0 H E))).
Defined.

(** The demo graph, stored; then [sc] is what others do. *)
Definition savedDB : DB := db (Save quietStore (Some demoGraph) (emptyWorld [])).2.
Definition savedWorld (sc : list (list Interference)) : World := mkWorld savedDB 5 sc.
Definition claimOf (pkg ws : string) (paths : option (list string)) (ttl : Duration) : ClaimRequest :=
  mkClaimRequest "T-1" "P" pkg ws paths ["database_schema"] ttl.
Definition otherLease (ws path : string) (e : Time) : Lease :=
  mkLease 0 project "P" LeasePath path ws active 1 0 e.

Definition busy : list (list Interference) :=
  [[ILease (otherLease "ws-2" "docs" 0)]; [IClock 7]; [IExpire; IRenew "ws-2" 9]].

Lemma savedDB_inv : leases_inv savedDB.
Proof.
  assert (leases savedDB = []) as H by (vm_compute; reflexivity).
  split; rewrite H; [intros i j l k Hl|intros i j l k Hl|intros i l Hl]; by rewrite lookup_nil in Hl.
Qed.

Lemma Claim_ok_witness :
  ∃ res w', Claim quietStore (claimOf "b" "ws-1" None 0) (savedWorld busy) = (Ok res, w') ∧
    running (claimOf "b" "ws-1" None 0) (db w').
Proof.
  destruct (Claim quietStore (claimOf "b" "ws-1" None 0) (savedWorld busy)) as [[res|e] w'] eqn:E;
    [|exfalso; vm_compute in E; discriminate].
  exists res, w'. split; [reflexivity|].
  assert (quiet (λ ws, ws ≠ "ws-1") (savedWorld busy)) as Hq.
  { apply quiet_Forall. cbv [savedWorld busy sched]. repeat constructor. }
  exact (proj1 (proj2 (Claim_ok quietStore (claimOf "b" "ws-1" None 0) (savedWorld busy) res w' savedDB_inv Hq E))).
Defined.

(** *** What the claim does not promise *)

Definition stateOf (task pkg : string) (d : DB) : option PackageState :=
  match GetPackage task pkg d with Ok p => Some (State p) | Err _ => None end.
Definition claimed (r : result Error ClaimResult * World) : bool := is_ok r.1.
Definition holders (d : DB) : list (string * string) :=
  (λ l, (Resource l, WorkspaceID l)) <$> filter (λ l, isActive l = true) (leases d).

(** Two workspaces can both claim a package: the transition does not look at
    the state it leaves, so a claim committed since the readiness check is
    overwritten (here the claims lease different paths). *)
Definition noSemantic (ws : string) (paths : option (list string)) : ClaimRequest :=
  mkClaimRequest "T-1" "P" "b" ws paths [] 0.
Lemma Claim_two_winners :
  let others := [[]; []; []; []; []; []; []; [IState "T-1" "b" PackageRunning]] in
  let first := Claim quietStore (noSemantic "ws-2" (Some ["docs"])) (savedWorld []) in
  let second := Claim quietStore (noSemantic "ws-1" (Some ["src/b"])) (savedWorld others) in
  claimed first = true ∧ stateOf "T-1" "b" (db first.2) = Some PackageRunning ∧
  claimed second = true ∧ stateOf "T-1" "b" (db second.2) = Some PackageRunning.
Proof. vm_compute. done. Qed.

(** A failed claim releases every lease of its workspace, those of a package it
    is already running included. *)
Lemma Claim_failure_releases_earlier :
  let w1 := (Claim quietStore (noSemantic "ws-1" None) (savedWorld [])).2 in
  let w2 := mkWorld (db w1) 6 [[ILease (otherLease "ws-2" "lib" 0)]] in
  let r := Claim quietStore (mkClaimRequest "T-1" "P" "c" "ws-1" (Some ["src/c"; "lib"]) [] 0) w2 in
  holders (db w1) = [("src/b", "ws-1")] ∧ claimed r = false ∧
  stateOf "T-1" "b" (db r.2) = Some PackageRunning ∧ holders (db r.2) = [("lib", "ws-2")].
Proof. vm_compute. done. Qed.

(** Timestamps compared as text: a lease that expired at second 1.5 is not
    swept at 1.51, and an acquisition then reports a conflict with it. *)
Lemma expired_lease_conflicts :
  let d := mkDB [] [] [] [] [otherLease "ws-2" "src" 1500000000] 1 [] in
  IsExpired (otherLease "ws-2" "src" 1500000000) 1510000000 = true ∧
  (AcquirePath "P" "ws-1" "src" (mkWorld d 1510000000 [])).1 =
    Err (ErrLeaseConflict [mkConflictReason LeasePath "src" "ws-2" 1500000000]).
Proof. vm_compute. done. Qed.

(** No row ever gets a creation time. *)
Lemma Save_created_at_empty :
  Row_CreatedAt <$> packages savedDB = [0%Z; 0%Z; 0%Z; 0%Z].
Proof. vm_compute. reflexivity. Qed.

(** A package dropped from the graph and brought back can never record an
    attempt again: its old attempt rows stay, and hold its indices. *)
Definition attemptOf : Attempt := mkAttempt 0 PackageFailed 2 3 "boom" 1 "run".
Definition smallGraph : WorkGraph := mkWorkGraph "T-1" [demoPackage "a" "AC-1" [] PackageSucceeded].
Lemma readded_package_blocked :
  let w1 := (AppendAttempt quietStore "T-1" "b" attemptOf (savedWorld [])).2 in
  let w2 := (Save quietStore (Some smallGraph) w1).2 in
  let w3 := (Save quietStore (Some demoGraph) w2).2 in
  (AppendAttempt quietStore "T-1" "b" attemptOf w3).1 = Err (ErrConstraint "UNIQUE work_package_attempts").
Proof. vm_compute. reflexivity. Qed.

(** The runtime state is read outside the transaction of the save: a transition
    that commits in between is undone. *)
Lemma Save_loses_transition :
  stateOf "T-1" "b"
    (db (Save quietStore (Some demoGraph) (savedWorld [[]; []; [IState "T-1" "b" PackageRunning]])).2) =
  Some PackagePending.
Proof. vm_compute. reflexivity. Qed.
End workstore.
