(* ===== verification/Quota.v ===== *)
(** * Quota: accounts, circuit breakers and availability (spec §20)

    Models [internal/quota/manager.go].
    The clock is an argument of each operation; the mutex makes each one atomic.
    A [float64] is a primitive binary64 number.  A reason is a value where the
    code builds its text. *)
From S2P Require Import Prelude Agent.
From Stdlib Require Import PrimFloat.

Module quota.

Record AccountID := mkAccountID { Engine : string; Account : string }.
#[global] Instance AccountID_eq_dec : EqDecision AccountID.
Proof. solve_decision. Defined.
#[global] Program Instance AccountID_countable : Countable AccountID :=
  inj_countable' (λ a, (Engine a, Account a)) (λ p, mkAccountID p.1 p.2) _.
Next Obligation. by intros []. Qed.

(** [protocol.QuotaConfidence]. *)
Inductive Confidence :=
| ConfExact | ConfProviderReported | ConfEstimated | ConfInferred | ConfUnknown
| ConfOther (s : string).
#[global] Instance Confidence_eq_dec : EqDecision Confidence.
Proof. solve_decision. Defined.

Inductive State :=
| StateAvailable | StateLow | StateExhausted | StateRateLimited | StateAuthRequired
| StateDegraded | StateUnknown
| StateOther (s : string).
#[global] Instance State_eq_dec : EqDecision State.
Proof. solve_decision. Defined.

Definition State_IsValid (s : State) : bool := match s with StateOther _ => false | _ => true end.

Definition IsRoutable (s : State) : bool :=
  match s with
  | StateAvailable | StateLow | StateDegraded | StateUnknown => true
  | _ => false
  end.

Definition States : list State :=
  [StateAvailable; StateLow; StateExhausted; StateRateLimited; StateAuthRequired; StateDegraded; StateUnknown].

Inductive BreakerState := BreakerClosed | BreakerOpen | BreakerHalfOpen.
#[global] Instance BreakerState_eq_dec : EqDecision BreakerState.
Proof. solve_decision. Defined.

Record Snapshot := mkSnapshot {
  Account_ : AccountID;
  Confidence_ : Confidence;
  State_ : State;
  Remaining : option float;
  Limit : option float;
  Window : string;
  ResetAt : Time;
  RetryAfter : Duration;
  Reason : string;
  ObservedAt : Time }.

Definition setState (st : State) (s : Snapshot) : Snapshot :=
  mkSnapshot (Account_ s) (Confidence_ s) st (Remaining s) (Limit s) (Window s) (ResetAt s)
    (RetryAfter s) (Reason s) (ObservedAt s).

Definition FractionRemaining (s : Snapshot) : float :=
  match Remaining s, Limit s with
  | Some r, Some l =>
      if PrimFloat.leb l 0 then (-1)%float
      else
        let f := PrimFloat.div r l in
        let f := if PrimFloat.ltb f 0 then 0%float else f in
        if PrimFloat.ltb 1 f then 1%float else f
  | _, _ => (-1)%float
  end.

(** [Config]; [NowSet] is whether a clock was given.  [RateLimitJitter] is never
    read. *)
Record Config := mkConfig {
  FailureThreshold : Z;
  OpenDuration : Duration;
  LowRemainingFraction : float;
  RateLimitJitter : float;
  NowSet : bool }.

Definition DefaultConfig : Config :=
  mkConfig 3 (60 * time.Second) 0.2%float 0.25%float true.

Record accountState := mkAccountState {
  snapshot : Snapshot;
  breaker : BreakerState;
  failures : Z;
  openedAt : Time;
  lastFailure : option agent.FailureClass;
  consec : Z }.

Record Manager := mkManager { cfg : Config; st : gmap AccountID accountState }.

Definition New (c : Config) : Manager :=
  mkManager
    (if (FailureThreshold c <=? 0)%Z || negb (NowSet c) then
       mkConfig (if (FailureThreshold c <=? 0)%Z then FailureThreshold DefaultConfig else FailureThreshold c)
         (if (OpenDuration c <=? 0)%Z then OpenDuration DefaultConfig else OpenDuration c)
         (if PrimFloat.leb (LowRemainingFraction c) 0 then LowRemainingFraction DefaultConfig
          else LowRemainingFraction c)
         (RateLimitJitter c) true
     else c) ∅.

Definition setAccount (id : AccountID) (a : accountState) (m : Manager) : Manager :=
  mkManager (cfg m) (<[id := a]> (st m)).

(** The snapshot of an account that was never observed. *)
Definition unseen (id : AccountID) : Snapshot :=
  mkSnapshot id ConfUnknown StateUnknown None None "" 0 0 "" 0.
(** The zero [Snapshot]. *)
Definition zeroSnapshot : Snapshot :=
  mkSnapshot (mkAccountID "" "") (ConfOther "") (StateOther "") None None "" 0 0 "" 0.

(** The low-water mark. *)
Definition isLow (c : Config) (s : Snapshot) : bool :=
  (bool_decide (State_ s = StateAvailable) || bool_decide (State_ s = StateUnknown))
  && PrimFloat.leb 0 (FractionRemaining s)
  && PrimFloat.ltb (FractionRemaining s) (LowRemainingFraction c).

Definition Apply (s : Snapshot) (now : Time) (m : Manager) : Manager :=
  let s := mkSnapshot (Account_ s) (Confidence_ s) (State_ s) (Remaining s) (Limit s) (Window s) (ResetAt s)
    (RetryAfter s) (Reason s) (if time.IsZero (ObservedAt s) then now else ObservedAt s) in
  let cur := default (mkAccountState zeroSnapshot BreakerClosed 0 0 None 0) (st m !! Account_ s) in
  let prevState := State_ (snapshot cur) in
  let derived := if isLow (cfg m) s then StateLow else State_ s in
  let derived :=
    if bool_decide (prevState = StateAuthRequired) && negb (bool_decide (State_ s = StateAvailable))
       && negb (bool_decide (State_ s = StateLow))
    then StateAuthRequired else derived in
  setAccount (Account_ s)
    (if bool_decide (derived = StateAvailable)
     then mkAccountState (setState derived s) BreakerClosed 0 (openedAt cur) None 0
     else mkAccountState (setState derived s) (breaker cur) (failures cur) (openedAt cur) (lastFailure cur)
            (consec cur)) m.

(** The classes that count toward the breaker. *)
Definition countsTowardBreaker (c : agent.FailureClass) : bool :=
  match c with
  | agent.FailureProviderRateLimit | agent.FailureProviderCapacity | agent.FailureEngineCrash
  | agent.FailureTimeout | agent.FailureMalformedOutput => true
  | _ => false
  end.

Definition RecordFailure (id : AccountID) (class : agent.FailureClass) (now : Time) (m : Manager) : Manager :=
  if negb (agent.FailureClass_IsValid class) then m
  else
    let cur := default (mkAccountState (unseen id) BreakerClosed 0 0 None 0) (st m !! id) in
    let n := (failures cur + 1)%Z in
    setAccount id
      (if bool_decide (class = agent.FailureProviderQuota) then
         mkAccountState (setState StateExhausted (snapshot cur)) BreakerOpen n now (Some class) 0
       else if bool_decide (class = agent.FailureProviderAuth) then
         mkAccountState (setState StateAuthRequired (snapshot cur)) BreakerOpen n now (Some class) 0
       else if countsTowardBreaker class then
         let k := (consec cur + 1)%Z in
         if (FailureThreshold (cfg m) <=? k)%Z
         then mkAccountState (snapshot cur) BreakerOpen n now (Some class) k
         else mkAccountState (snapshot cur) (breaker cur) n (openedAt cur) (Some class) k
       else mkAccountState (snapshot cur) (breaker cur) n (openedAt cur) (Some class) (consec cur)) m.

Definition RecordSuccess (id : AccountID) (m : Manager) : Manager :=
  match st m !! id with
  | None => m
  | Some cur =>
      setAccount id
        (match breaker cur with
         | BreakerHalfOpen => mkAccountState (snapshot cur) BreakerClosed 0 (openedAt cur) None 0
         | BreakerClosed => mkAccountState (snapshot cur) BreakerClosed 0 (openedAt cur) (lastFailure cur) 0
         | BreakerOpen => mkAccountState (snapshot cur) BreakerOpen (failures cur) (openedAt cur) (lastFailure cur) 0
         end) m
  end.

(** [t.Sub(u)], a saturated difference. *)
Definition Sub (t u : Time) : Duration := Z.max (- 2 ^ 63) (Z.min (2 ^ 63 - 1) (t - u)).

(** [effectiveLocked]: the account with its breaker refreshed, and the snapshot
    with an elapsed rate limit lifted. *)
Definition refresh (c : Config) (now : Time) (cur : accountState) : accountState :=
  if bool_decide (breaker cur = BreakerOpen) && negb (time.IsZero (openedAt cur))
     && (OpenDuration c <=? Sub now (openedAt cur))%Z
  then mkAccountState (snapshot cur) BreakerHalfOpen (failures cur) (openedAt cur) (lastFailure cur) (consec cur)
  else cur.

Definition effective (now : Time) (s : Snapshot) : Snapshot :=
  if bool_decide (State_ s = StateRateLimited) && negb (time.IsZero (ObservedAt s)) && (0 <? RetryAfter s)%Z
     && (RetryAfter s <=? Sub now (ObservedAt s))%Z
  then setState StateAvailable s else s.

Definition effectiveLocked (c : Config) (now : Time) (cur : accountState) : Snapshot * accountState :=
  (effective now (snapshot cur), refresh c now cur).

(** [Manager.Snapshot]. *)
Definition Manager_Snapshot (id : AccountID) (now : Time) (m : Manager) : Snapshot * Manager :=
  match st m !! id with
  | None => (unseen id, m)
  | Some cur => let '(s, cur) := effectiveLocked (cfg m) now cur in (s, setAccount id cur m)
  end.

Definition lessAccount (a b : Snapshot) : bool :=
  if negb (bool_decide (Engine (Account_ a) = Engine (Account_ b)))
  then negb (String.leb (Engine (Account_ b)) (Engine (Account_ a)))
  else negb (String.leb (Account (Account_ b)) (Account (Account_ a))).

Definition All (now : Time) (m : Manager) : list Snapshot * Manager :=
  (sortStable lessAccount ((λ p, effective now (snapshot p.2)) <$> map_to_list (st m)),
   mkManager (cfg m) (refresh (cfg m) now <$> st m)).

Definition IsAvailable (id : AccountID) (now : Time) (m : Manager) : bool * Manager :=
  match st m !! id with
  | None => (true, m)
  | Some cur =>
      let '(eff, cur) := effectiveLocked (cfg m) now cur in
      (if negb (IsRoutable (State_ eff)) then false
       else match breaker cur with
            | BreakerOpen => false
            | BreakerHalfOpen => true
            | BreakerClosed => true
            end, setAccount id cur m)
  end.

Definition Manager_BreakerState (id : AccountID) (now : Time) (m : Manager) : BreakerState * Manager :=
  match st m !! id with
  | None => (BreakerClosed, m)
  | Some cur => let '(_, cur) := effectiveLocked (cfg m) now cur in (breaker cur, setAccount id cur m)
  end.

(** Why an account is not available. *)
Inductive Why :=
| WhyExhaustedUntil (resetAt : Time)
| WhyExhausted
| WhyRateLimited
| WhyAuth
| WhyState (s : State)
| WhyBreaker (consec : Z).

Definition WhyUnavailable (id : AccountID) (now : Time) (m : Manager) : option Why * Manager :=
  match st m !! id with
  | None => (None, m)
  | Some cur =>
      let '(eff, cur) := effectiveLocked (cfg m) now cur in
      (if negb (IsRoutable (State_ eff)) then
         Some (match State_ eff with
               | StateExhausted =>
                   if time.IsZero (ResetAt eff) then WhyExhausted else WhyExhaustedUntil (ResetAt eff)
               | StateRateLimited => WhyRateLimited
               | StateAuthRequired => WhyAuth
               | s => WhyState s
               end)
       else match breaker cur with
            | BreakerOpen => Some (WhyBreaker (consec cur))
            | _ => None
            end, setAccount id cur m)
  end.

(** ** Availability *)

Lemma Sub_mono t1 t2 u : (t1 ≤ t2)%Z → (Sub t1 u ≤ Sub t2 u)%Z.
Proof. unfold Sub. lia. Qed.

(** The conditions the code tests, as propositions. *)
Definition windowOver (now : Time) (s : Snapshot) : Prop :=
  State_ s = StateRateLimited ∧ ObservedAt s ≠ 0%Z ∧ (0 < RetryAfter s)%Z ∧
  (RetryAfter s ≤ Sub now (ObservedAt s))%Z.
Definition cooledDown (c : Config) (now : Time) (a : accountState) : Prop :=
  openedAt a ≠ 0%Z ∧ (OpenDuration c ≤ Sub now (openedAt a))%Z.
Definition usable (c : Config) (now : Time) (a : accountState) : Prop :=
  (IsRoutable (State_ (snapshot a)) = true ∨ windowOver now (snapshot a)) ∧
  (breaker a ≠ BreakerOpen ∨ cooledDown c now a).

Lemma effective_spec now s :
  IsRoutable (State_ (effective now s)) = true ↔ IsRoutable (State_ s) = true ∨ windowOver now s.
Proof.
  unfold effective, windowOver, time.IsZero.
  destruct (decide (State_ s = StateRateLimited)) as [Hr|Hr].
  - rewrite bool_decide_true by done. rewrite Hr. cbn [IsRoutable andb].
    destruct (Z.eqb_spec (ObservedAt s) 0) as [Ho|Ho], (Z.ltb_spec 0 (RetryAfter s)) as [Hra|Hra],
      (Z.leb_spec (RetryAfter s) (Sub now (ObservedAt s))) as [Hw|Hw]; cbn; rewrite ?Hr; cbn.
    all: split; [intros H; try done; right; split_and!; auto; lia|].
    all: intros [H|(_ & H1 & H2 & H3)]; try done; lia.
  - rewrite bool_decide_false by done. cbn. tauto.
Qed.

Lemma refresh_spec c now a :
  breaker (refresh c now a) = BreakerOpen ↔ breaker a = BreakerOpen ∧ ¬ cooledDown c now a.
Proof.
  unfold refresh, cooledDown, time.IsZero.
  destruct (decide (breaker a = BreakerOpen)) as [Hb|Hb].
  - rewrite bool_decide_true by done. cbn [andb].
    destruct (Z.eqb_spec (openedAt a) 0) as [Ho|Ho], (Z.leb_spec (OpenDuration c) (Sub now (openedAt a))) as [Hd|Hd];
      cbn; split; intros H; try done; try tauto; try (split; [done|]); try (intros [H1 H2]; lia).
  - rewrite bool_decide_false by done. cbn. tauto.
Qed.

Lemma usable_spec c now a :
  (if negb (IsRoutable (State_ (effective now (snapshot a)))) then false
   else match breaker (refresh c now a) with BreakerOpen => false | _ => true end) = true ↔ usable c now a.
Proof.
  assert (breaker (refresh c now a) ≠ BreakerOpen ↔ breaker a ≠ BreakerOpen ∨ cooledDown c now a) as H.
  { rewrite refresh_spec. unfold cooledDown.
    destruct (decide (breaker a = BreakerOpen)), (decide (openedAt a = 0%Z)),
      (decide (OpenDuration c ≤ Sub now (openedAt a))%Z); tauto. }
  unfold usable. rewrite <-effective_spec, <-H.
  destruct (IsRoutable _); cbn; [|split; [done|by intros [? _]]].
  destruct (breaker (refresh c now a)); split; intros ?; try done; tauto.
Qed.

Lemma IsAvailable_eq id now m :
  (IsAvailable id now m).1 = true ↔
  match st m !! id with None => True | Some a => usable (cfg m) now a end.
Proof.
  unfold IsAvailable. destruct (st m !! id) as [a|]; [|done]. cbn. rewrite <-usable_spec.
  destruct (negb _); [done|]. by destruct (breaker (refresh _ _ _)).
Qed.

Lemma usable_mono c t1 t2 a : (t1 ≤ t2)%Z → usable c t1 a → usable c t2 a.
Proof.
  intros Ht [H1 H2]. split.
  - destruct H1 as [?|(? & ? & ? & H)]; [by left|right]. split_and!; try done.
    etrans; [exact H|]. by apply Sub_mono.
  - destruct H2 as [?|[? H]]; [by left|right]. split; [done|]. etrans; [exact H|]. by apply Sub_mono.
Qed.

Lemma usable_refresh c t1 t2 a : (t1 ≤ t2)%Z → usable c t2 (refresh c t1 a) ↔ usable c t2 a.
Proof.
  intros Ht. pose proof (refresh_spec c t1 a) as Hr.
  assert (snapshot (refresh c t1 a) = snapshot a ∧ openedAt (refresh c t1 a) = openedAt a) as [Hs Ho]
    by (unfold refresh; by destruct (_ && _)).
  unfold usable, cooledDown. rewrite Hs, Ho. f_equiv. rewrite Hr. unfold cooledDown.
  assert ((OpenDuration c ≤ Sub t1 (openedAt a))%Z → (OpenDuration c ≤ Sub t2 (openedAt a))%Z) as Hm
    by (intros H; etrans; [exact H|by apply Sub_mono]).
  destruct (decide (breaker a = BreakerOpen)), (decide (openedAt a = 0%Z)),
    (decide (OpenDuration c ≤ Sub t1 (openedAt a))%Z); tauto.
Qed.

Lemma Why_None id now m : (WhyUnavailable id now m).1 = None ↔ (IsAvailable id now m).1 = true.
Proof.
  unfold WhyUnavailable, IsAvailable. destruct (st m !! id) as [a|]; [|done]. cbn.
  destruct (IsRoutable _); cbn; [|done]. by destruct (breaker (refresh _ _ _)).
Qed.

(** Refreshing an account's breaker changes no later answer. *)
Lemma IsAvailable_refresh id id' now now' m a :
  (now ≤ now')%Z → st m !! id' = Some a →
  (IsAvailable id now' (setAccount id' (refresh (cfg m) now a) m)).1 = (IsAvailable id now' m).1.
Proof.
  intros Ht Ha. apply eq_true_iff_eq. rewrite !IsAvailable_eq. cbn.
  destruct (decide (id' = id)) as [->|Hne]; [rewrite lookup_insert_eq, Ha|by rewrite lookup_insert_ne].
  by apply usable_refresh.
Qed.

(** ** Exclusion *)

(** The calls on a manager. *)
Inductive Op :=
| OpApply (s : Snapshot)
| OpFailure (id : AccountID) (class : agent.FailureClass)
| OpSuccess (id : AccountID)
| OpAsk (id : AccountID)
| OpAll.
Definition call (m : Manager) (x : Op * Time) : Manager :=
  match x.1 with
  | OpApply s => Apply s x.2 m
  | OpFailure id c => RecordFailure id c x.2 m
  | OpSuccess id => RecordSuccess id m
  | OpAsk id => (IsAvailable id x.2 m).2
  | OpAll => (All x.2 m).2
  end.
Definition appliesTo (id : AccountID) (o : Op) : Prop :=
  match o with OpApply s => Account_ s = id | _ => False end.

(** The account is excluded: out of quota or not authenticated. *)
Definition excluded (id : AccountID) (m : Manager) : Prop :=
  ∃ a, st m !! id = Some a ∧
    (State_ (snapshot a) = StateExhausted ∨ State_ (snapshot a) = StateAuthRequired).

Lemma setAccount_lookup id id' a m :
  st (setAccount id' a m) !! id = if decide (id' = id) then Some a else st m !! id.
Proof.
  unfold setAccount. cbn. case_decide as H; [subst; apply lookup_insert_eq|by apply lookup_insert_ne].
Qed.

Lemma snapshot_refresh c now a : snapshot (refresh c now a) = snapshot a.
Proof. unfold refresh. by destruct (_ && _). Qed.

Lemma RecordFailure_excluded id c now m :
  c = agent.FailureProviderQuota ∨ c = agent.FailureProviderAuth → excluded id (RecordFailure id c now m).
Proof.
  intros Hc. unfold excluded, RecordFailure.
  destruct Hc as [-> | ->]; cbn; rewrite lookup_insert_eq; eexists; (split; [done|]); cbn; auto.
Qed.

Lemma call_cfg m x : cfg (call m x) = cfg m.
Proof.
  destruct x as [[s|id c|id|id|] t]; cbn; [done| | | |done].
  - unfold RecordFailure. by destruct (negb _).
  - unfold RecordSuccess. by destruct (st m !! id).
  - unfold IsAvailable. by destruct (st m !! id).
Qed.

Lemma call_excluded id m x : ¬ appliesTo id x.1 → excluded id m → excluded id (call m x).
Proof.
  intros Hx (a & Ha & Hs). destruct x as [[s|id' c|id'|id'|] t]; cbn in *.
  - exists a. unfold Apply. rewrite setAccount_lookup. case_decide; [done|]. by split.
  - unfold RecordFailure. destruct (negb _); [by exists a|]. unfold excluded. rewrite setAccount_lookup.
    case_decide as Hid; [subst id'|by exists a]. rewrite Ha. cbn [default].
    eexists. split; [done|]. case_bool_decide; cbn; [by left|]. case_bool_decide; cbn; [by right|].
    destruct (countsTowardBreaker c); [|done]. by destruct (_ <=? _)%Z.
  - unfold RecordSuccess. destruct (st m !! id') as [b|] eqn:Hb; [|by exists a].
    unfold excluded. rewrite setAccount_lookup. case_decide as Hid; [subst id'|by exists a].
    rewrite Ha in Hb. injection Hb as <-. eexists. split; [done|]. by destruct (breaker a).
  - unfold IsAvailable. destruct (st m !! id') as [b|] eqn:Hb; [|by exists a].
    unfold excluded. cbn [effectiveLocked snd]. rewrite setAccount_lookup. case_decide as Hid; [subst id'|by exists a].
    rewrite Ha in Hb. injection Hb as <-. eexists. split; [done|]. by rewrite snapshot_refresh.
  - exists (refresh (cfg m) t a). cbn [st]. rewrite lookup_fmap, Ha. split; [done|]. by rewrite snapshot_refresh.
Qed.

Lemma calls_excluded id ops m :
  Forall (λ x, ¬ appliesTo id x.1) ops → excluded id m →
  excluded id (foldl call m ops) ∧ cfg (foldl call m ops) = cfg m.
Proof.
  intros H. revert m; induction H as [|x ops Hx H IH]; intros m Hm; [done|]. cbn.
  destruct (IH (call m x)) as [H1 H2]; [by apply call_excluded|]. split; [done|].
  by rewrite H2, call_cfg.
Qed.

Lemma excluded_unavailable id now m : excluded id m → (IsAvailable id now m).1 = false.
Proof.
  intros (a & Ha & Hs). apply not_true_iff_false. rewrite IsAvailable_eq, Ha.
  intros [[Hr|[Hr _]] _]; destruct Hs as [Hs|Hs]; rewrite Hs in Hr; done.
Qed.

(** ** Asking is invisible *)

Definition isEvent (x : Op * Time) : bool := match x.1 with OpAsk _ | OpAll => false | _ => true end.

(** The breaker keeps requests away. *)
Definition blocked (c : Config) (t : Time) (a : accountState) : Prop := breaker a = BreakerOpen ∧ ¬ cooledDown c t a.

(** From [t] on two accounts answer the same: the same snapshot and run of
    failures, and breakers that were opened together or keep nothing away. *)
Definition alike (c : Config) (t : Time) (a b : accountState) : Prop :=
  snapshot a = snapshot b ∧ consec a = consec b ∧
  ((breaker a = BreakerOpen ∧ breaker b = BreakerOpen ∧ openedAt a = openedAt b) ∨ (¬ blocked c t a ∧ ¬ blocked c t b)).
Definition alikes (t : Time) (m m' : Manager) : Prop :=
  cfg m = cfg m' ∧ ∀ id, option_Forall2 (alike (cfg m) t) (st m !! id) (st m' !! id).

Lemma blocked_refresh c t a : blocked c t (refresh c t a) ↔ blocked c t a.
Proof.
  assert (openedAt (refresh c t a) = openedAt a) as Ho by (unfold refresh; by destruct (_ && _)).
  unfold blocked. rewrite refresh_spec. unfold cooledDown. rewrite Ho. tauto.
Qed.
Lemma blocked_later c t t' a : (t ≤ t')%Z → blocked c t' a → blocked c t a.
Proof. intros Ht [H1 H2]. split; [done|]. intros [H3 H4]. apply H2. split; [done|]. etrans; [exact H4|]. by apply Sub_mono. Qed.
Lemma blocked_same c t a b : breaker a = breaker b → openedAt a = openedAt b → blocked c t a ↔ blocked c t b.
Proof. intros H1 H2. unfold blocked, cooledDown. by rewrite H1, H2. Qed.

Lemma alike_refl c t a : alike c t a a.
Proof.
  split; [done|]. split; [done|]. destruct (decide (breaker a = BreakerOpen)) as [H|H]; [by left|right].
  by split; intros [? _].
Qed.
Lemma alike_later c t t' a b : (t ≤ t')%Z → alike c t a b → alike c t' a b.
Proof. intros Ht (H1 & H2 & [H3|[H3 H4]]); (split; [done|]; split; [done|]); [by left|right]. split; intros ?%(blocked_later c t); auto. Qed.

Lemma alike_blocked c t a b : alike c t a b → blocked c t a ↔ blocked c t b.
Proof. intros (_ & _ & [(H1 & H2 & H3)|[? ?]]); [apply blocked_same; congruence|tauto]. Qed.

(** A query changes the one account only. *)
Lemma alike_refresh c t a b : alike c t a b → alike c t (refresh c t a) b.
Proof.
  intros H. pose proof (alike_blocked c t a b H) as Hb. destruct H as (H1 & H2 & H3).
  split; [by rewrite snapshot_refresh|]. split; [unfold refresh; by destruct (_ && _)|].
  destruct (decide (blocked c t b)) as [Hbl|Hbl].
  - assert (refresh c t a = a) as ->; [|done]. apply Hb in Hbl as [Ho Hc]. unfold refresh, cooledDown, time.IsZero in *.
    rewrite bool_decide_true by done. destruct (Z.eqb_spec (openedAt a) 0); [done|].
    destruct (Z.leb_spec (OpenDuration c) (Sub t (openedAt a))); [|done]. destruct Hc. split; [done|lia].
  - right. rewrite blocked_refresh, Hb. done.
Qed.

(** An event on both keeps them alike. *)
Lemma alike_open c t s n n' k lf lf' a : alike c t (mkAccountState s BreakerOpen n a lf k) (mkAccountState s BreakerOpen n' a lf' k).
Proof. split; [done|]. split; [done|]. by left. Qed.
Lemma alike_closed c t s n n' a a' k lf lf' : alike c t (mkAccountState s BreakerClosed n a lf k) (mkAccountState s BreakerClosed n' a' lf' k).
Proof. split; [done|]. split; [done|]. right. by split; intros [[=] _]. Qed.
Lemma alike_keep c t a b s k n n' lf lf' : alike c t a b →
  alike c t (mkAccountState s (breaker a) n (openedAt a) lf k) (mkAccountState s (breaker b) n' (openedAt b) lf' k).
Proof. intros (_ & _ & H). split; [done|]. split; [done|]. exact H. Qed.

Lemma alikes_set t m m' id a a' : alikes t m m' → alike (cfg m) t a a' → alikes t (setAccount id a m) (setAccount id a' m').
Proof.
  intros [Hc Hm] Ha. split; [done|]. intros id'. rewrite !setAccount_lookup. case_decide; [by constructor|apply Hm].
Qed.

(** A common starting point where the account may be new. *)
Lemma alikes_default t m m' id d : alikes t m m' → alike (cfg m) t (default d (st m !! id)) (default d (st m' !! id)).
Proof. intros [_ Hm]. destruct (Hm id); [done|apply alike_refl]. Qed.

Lemma Apply_alikes s t m m' : alikes t m m' → alikes t (Apply s t m) (Apply s t m').
Proof.
  intros H. unfold Apply. cbv zeta. cbn [Account_]. pose proof (alikes_default t m m' (Account_ s) (mkAccountState zeroSnapshot BreakerClosed 0 0 None 0) H) as Ha.
  destruct (proj1 H). revert Ha. generalize (default (mkAccountState zeroSnapshot BreakerClosed 0 0 None 0) (st m !! Account_ s)) as a.
  generalize (default (mkAccountState zeroSnapshot BreakerClosed 0 0 None 0) (st m' !! Account_ s)) as b. intros b a Ha.
  rewrite (proj1 Ha). apply alikes_set; [done|]. case_bool_decide; [apply alike_closed|].
  rewrite (proj1 (proj2 Ha)). by apply alike_keep.
Qed.

Lemma RecordFailure_alikes id class t m m' : alikes t m m' → alikes t (RecordFailure id class t m) (RecordFailure id class t m').
Proof.
  intros H. unfold RecordFailure. destruct (negb _); [done|].
  pose proof (alikes_default t m m' id (mkAccountState (unseen id) BreakerClosed 0 0 None 0) H) as Ha.
  destruct (proj1 H). revert Ha. generalize (default (mkAccountState (unseen id) BreakerClosed 0 0 None 0) (st m !! id)) as a.
  generalize (default (mkAccountState (unseen id) BreakerClosed 0 0 None 0) (st m' !! id)) as b. intros b a Ha.
  rewrite (proj1 Ha), (proj1 (proj2 Ha)). apply alikes_set; [done|].
  case_bool_decide; [apply alike_open|]. case_bool_decide; [apply alike_open|].
  destruct (countsTowardBreaker class); [|by apply alike_keep]. destruct (_ <=? _)%Z; [apply alike_open|by apply alike_keep].
Qed.

Lemma RecordSuccess_alikes id t m m' : alikes t m m' → alikes t (RecordSuccess id m) (RecordSuccess id m').
Proof.
  intros H. unfold RecordSuccess. pose proof (proj2 H id) as Hid. destruct Hid as [a b Ha|]; [|done].
  apply alikes_set; [done|]. rewrite (proj1 Ha). destruct Ha as (_ & _ & Hb).
  assert (∀ n n' lf lf', alike (cfg m) t (mkAccountState (snapshot b) (breaker a) n (openedAt a) lf 0) (mkAccountState (snapshot b) (breaker b) n' (openedAt b) lf' 0))
    as Hk by done.
  destruct (breaker a) eqn:Ea, (breaker b) eqn:Eb; try apply alike_closed; try apply Hk.
  all: (split; [done|]; split; [done|]); right; destruct Hb as [([=] & [=] & _)|[Hx Hy]]; split; intros [Hz Hw]; try done.
  all: first [by apply Hx; split|by apply Hy; split].
Qed.

Lemma call_alikes x m m' : alikes x.2 m m' → alikes x.2 (call m x) (if isEvent x then call m' x else m').
Proof.
  intros H. destruct x as [[s|id c|id|id|] t]; cbn in *; [by apply Apply_alikes|by apply RecordFailure_alikes|by apply RecordSuccess_alikes| |].
  - unfold IsAvailable. pose proof (proj2 H id) as Hid. destruct (st m !! id) as [a|] eqn:Ea; [|done]. inversion Hid as [? b Ha Hx Hb|]; subst.
    destruct H as [Hc Hm]. split; [done|]. intros id'. cbn [effectiveLocked snd]. rewrite setAccount_lookup.
    case_decide as Hi; [subst id'; rewrite <- Hb; constructor; by apply alike_refresh|apply Hm].
  - destruct H as [Hc Hm]. split; [done|]. intros id. cbn. rewrite lookup_fmap. destruct (Hm id); constructor. by apply alike_refresh.
Qed.

Lemma last_default {A} (x t : A) l : List.last (x :: l) t = List.last l x.
Proof. destruct l as [|y l]; [done|]. revert y. induction l as [|z l IH]; intros y; [done|]. apply IH. Qed.

Lemma calls_alikes ops t m m' : Sorted Z.le (t :: ops.*2) → alikes t m m' →
  alikes (List.last ops.*2 t) (foldl call m ops) (foldl call m' (filter (λ x, isEvent x = true) ops)).
Proof.
  revert t m m'. induction ops as [|x ops IH]; intros t m m' Hs Hm; [done|].
  apply Sorted_inv in Hs as [Hs Ht%HdRel_inv].
  assert (alikes x.2 m m') as Hx by (split; [apply Hm|]; intros id; destruct (proj2 Hm id); constructor; by eapply alike_later).
  apply call_alikes in Hx. specialize (IH x.2 _ _ Hs Hx). cbn [foldl].
  assert (List.last (x :: ops).*2 t = List.last ops.*2 x.2) as ->.
  { apply last_default. }
  destruct (isEvent x) eqn:E.
  - rewrite filter_cons_True by done. exact IH.
  - rewrite filter_cons_False by (by rewrite E). exact IH.
Qed.

Lemma sorted_until t l now : Sorted Z.le (t :: l ++ [now]) → Sorted Z.le (t :: l) ∧ (List.last l t ≤ now)%Z.
Proof.
  revert t. induction l as [|x l IH]; intros t Hs; apply Sorted_inv in Hs as [Hs Ht%HdRel_inv]; [by split; [repeat constructor|]|].
  destruct (IH x Hs) as [H1 H2]. split; [by constructor; [|constructor]|].
  by rewrite last_default.
Qed.

Lemma alike_why c t a b : alike c t a b →
  match breaker (refresh c t a) with BreakerOpen => true | _ => false end =
  match breaker (refresh c t b) with BreakerOpen => true | _ => false end.
Proof.
  intros H. pose proof (alike_blocked c t a b H) as Hb. unfold blocked in Hb. rewrite <- !refresh_spec in Hb.
  destruct (breaker (refresh c t a)), (breaker (refresh c t b)); naive_solver.
Qed.


(** an exhausted or unauthenticated account is excluded until it is seen
    healthy.  After a quota or authentication failure, whatever failures,
    successes and queries follow at whatever times, the account is not available
    and a reason is given, until a snapshot of it is applied; applying an
    available one that is not low makes it available at once. *)
Theorem excluded_until_applied id class now0 ops now m :
  class = agent.FailureProviderQuota ∨ class = agent.FailureProviderAuth →
  Forall (λ x, ¬ appliesTo id x.1) ops →
  let m' := foldl call (RecordFailure id class now0 m) ops in
  (IsAvailable id now m').1 = false ∧ (WhyUnavailable id now m').1 ≠ None ∧
  ∀ s t t', Account_ s = id → State_ s = StateAvailable → isLow (cfg m) s = false →
    (IsAvailable id t' (Apply s t m')).1 = true.
Proof.
  intros Hc Hops m'.
  destruct (calls_excluded id ops (RecordFailure id class now0 m) Hops) as [He Hcfg];
    [by apply RecordFailure_excluded|]. fold m' in He, Hcfg.
  assert ((IsAvailable id now m').1 = false) as Hna by (by apply excluded_unavailable).
  split; [done|]. split; [intros Hw%Why_None; congruence|].
  intros s t t' Hid Hst Hlow. rewrite IsAvailable_eq. unfold Apply. rewrite setAccount_lookup, decide_True by done.
  assert (cfg m' = cfg m) as Hcfg'.
  { rewrite Hcfg. exact (call_cfg m (OpFailure id class, now0)). }
  rewrite Hcfg', Hst. unfold isLow, FractionRemaining in *. cbn [State_ Remaining Limit] in *.
  rewrite Hst in Hlow. rewrite Hlow.
  rewrite (bool_decide_true (StateAvailable = StateAvailable)) by done. rewrite andb_false_r. cbn [andb].
  rewrite bool_decide_true by done. cbn. split; [by left|]. by left.
Qed.

(** ** Concrete runs *)

Definition acct : AccountID := mkAccountID "engine" "main".
Definition healthy (t : Time) : Snapshot :=
  mkSnapshot acct ConfExact StateAvailable (Some 90%float) (Some 100%float) "5h" 0 0 "" t.

Lemma excluded_until_applied_witness :
  let m' := foldl call (RecordFailure acct agent.FailureProviderQuota 10 (New DefaultConfig))
              [(OpSuccess acct, 20%Z); (OpAsk acct, 99000000000%Z)] in
  (IsAvailable acct 99000000001 m').1 = false ∧
  (IsAvailable acct 99000000002 (Apply (healthy 99000000002) 99000000002 m')).1 = true.
Proof.
  assert (Forall (λ x, ¬ appliesTo acct x.1) [(OpSuccess acct, 20%Z); (OpAsk acct, 99000000000%Z)]) as H
    by (repeat constructor; intros []).
  pose proof (excluded_until_applied acct agent.FailureProviderQuota 10 _ 99000000001 (New DefaultConfig)
    (or_introl eq_refl) H) as (H1 & _ & H2).
  split; [exact H1|]. apply H2; vm_compute; reflexivity.
Defined.

(** Three crashes open the breaker; an hour later it is asked for, succeeds and
    fails once more. *)
Definition bumpy : list (Op * Time) :=
  let crash t := (OpFailure acct agent.FailureEngineCrash, t) in
  let hour := (3600 * time.Second)%Z in
  [crash 10%Z; crash 20%Z; crash 30%Z; (OpAsk acct, hour); (OpSuccess acct, hour); (OpAll, (hour + 1)%Z); crash (hour + 2)%Z].


(** The breaker itself shows who asked: a success closes it only when somebody
    asked between its cool-down and the success. *)
Lemma breaker_shows_queries :
  let m1 := foldl call (New DefaultConfig) bumpy in
  let m2 := foldl call (New DefaultConfig) (filter (λ x, isEvent x = true) bumpy) in
  (Manager_BreakerState acct 3600000000003 m1).1 = BreakerClosed ∧ (Manager_BreakerState acct 3600000000003 m2).1 = BreakerHalfOpen.
Proof. vm_compute. done. Qed.

(** The reset time of an exhausted account is never looked at. *)
Lemma exhausted_past_reset :
  let s := mkSnapshot acct ConfExact StateExhausted None None "5h" 100 0 "" 10 in
  (IsAvailable acct 1000000 (Apply s 10 (New DefaultConfig))).1 = false ∧
  (WhyUnavailable acct 1000000 (Apply s 10 (New DefaultConfig))).1 = Some (WhyExhaustedUntil 100).
Proof. vm_compute. done. Qed.

(** A quota failure hides a pending re-login: a degraded snapshot then makes the
    account routable although it never re-authenticated. *)
Lemma auth_forgotten :
  let m := RecordFailure acct agent.FailureProviderQuota 20
             (RecordFailure acct agent.FailureProviderAuth 10 (New DefaultConfig)) in
  let s := mkSnapshot acct ConfUnknown StateDegraded None None "" 0 0 "" 30 in
  (IsAvailable acct 70000000000 (Apply s 30 m)).1 = true.
Proof. vm_compute. done. Qed.

(** A half-open breaker does not open on a new failure when the count was reset
    on the way. *)
Lemma half_open_survives_failure :
  let m1 := RecordFailure acct agent.FailureProviderQuota 10 (New DefaultConfig) in
  let m2 := Apply (mkSnapshot acct ConfExact StateLow None None "" 0 0 "" 20) 20 m1 in
  let m3 := (IsAvailable acct 70000000000 m2).2 in
  (Manager_BreakerState acct 70000000000 m3).1 = BreakerHalfOpen ∧
  (Manager_BreakerState acct 70000000001 (RecordFailure acct agent.FailureEngineCrash 70000000000 m3)).1 = BreakerHalfOpen.
Proof. vm_compute. done. Qed.
End quota.
