(* ===== verification/Budget.v ===== *)
(** * Budget: usage records and spending limits (spec §23)

    Models [internal/budget/controller.go].  Money is a [float64], so a
    primitive binary64 number with its own rounding; the clock is an argument of
    the operations that read it, and the mutex makes each one atomic. *)
From S2P Require Import Prelude Quota.
From Stdlib Require Import PrimFloat SpecFloat FloatOps FloatAxioms.

Module budget.

Abbreviation USD := float (only parsing).

Record Limits := mkLimits {
  GlobalDailyUSD : USD;
  GlobalMonthlyUSD : USD;
  ProjectDailyUSD : gmap string USD;
  TaskDefaultUSD : gmap Z USD;
  TaskUSD : gmap string USD;
  ImageDailyUSD : USD;
  ImageMaxVariants : Z;
  SoftFraction : float }.

Definition LookupTaskLimit (l : Limits) (taskID : string) (r : Z) : USD :=
  match TaskUSD l !! taskID with
  | Some v => v
  | None => default 0%float (TaskDefaultUSD l !! r)
  end.

Inductive ProviderType := ProviderCoding | ProviderImage | ProviderOther (s : string).
#[global] Instance ProviderType_eq_dec : EqDecision ProviderType.
Proof. solve_decision. Defined.
Definition ProviderType_String (p : ProviderType) : string :=
  match p with ProviderCoding => "coding" | ProviderImage => "image" | ProviderOther s => s end.

Record UsageRecord := mkUsageRecord {
  Account : quota.AccountID;
  Engine : string;
  Model : string;
  Tier : string;
  InputTokens : Z;
  OutputTokens : Z;
  CachedTokens : Z;
  ImageGens : Z;
  CostUSD : USD;
  Confidence : quota.Confidence;
  Included : bool;
  ProviderType_ : ProviderType;
  ProjectID : string;
  TaskID : string;
  At : Time }.

Record Scope := mkScope {
  Scope_ProjectID : string;
  Scope_TaskID : string;
  TaskRisk : Z;
  Scope_ProviderType : ProviderType }.

Record Decision := mkDecision {
  Allowed : bool;
  HardBlocked : bool;
  SoftSignal : bool;
  Reason : string;
  LimitUSD : USD;
  RemainingUSD : USD;
  IncludedPermitted : bool }.

Record Controller := mkController { limits : Limits; records : list UsageRecord }.

Definition withSoft (l : Limits) : Limits :=
  if PrimFloat.leb (SoftFraction l) 0 || PrimFloat.leb 1 (SoftFraction l)
  then mkLimits (GlobalDailyUSD l) (GlobalMonthlyUSD l) (ProjectDailyUSD l) (TaskDefaultUSD l) (TaskUSD l)
         (ImageDailyUSD l) (ImageMaxVariants l) 0.8%float
  else l.

Definition New (l : Limits) : Controller := mkController (withSoft l) [].
Definition SetLimits (l : Limits) (c : Controller) : Controller := mkController (withSoft l) (records c).

(** [Controller.Record]. *)
Definition Record_ (r : UsageRecord) (now : Time) (c : Controller) : Controller :=
  mkController (limits c) (records c ++
    [mkUsageRecord (Account r) (Engine r) (Model r) (Tier r) (InputTokens r) (OutputTokens r) (CachedTokens r)
       (ImageGens r) (CostUSD r) (Confidence r) (Included r)
       (if bool_decide (ProviderType_ r = ProviderOther "") then ProviderCoding else ProviderType_ r)
       (ProjectID r) (TaskID r) (if time.IsZero (At r) then now else At r)]).

(** ** Window helpers: the UTC calendar

    Day 0 is 1 January of year 1; the month of a day is found by the
    proleptic Gregorian calendar, as [time.Time.Date] does. *)
Definition nanosPerDay : Z := 86400 * time.Second.
Definition startOfDay (t : Time) : Time := (t / nanosPerDay * nanosPerDay)%Z.

(** The year and the day of the year (from 0) of a day number. *)
Definition yearDay (d : Z) : Z * Z :=
  let n400 := (d / 146097)%Z in
  let d := (d - n400 * 146097)%Z in
  let n100 := Z.min 3 (d / 36524) in
  let d := (d - n100 * 36524)%Z in
  let n4 := (d / 1461)%Z in
  let d := (d - n4 * 1461)%Z in
  let n := Z.min 3 (d / 365) in
  ((400 * n400 + 100 * n100 + 4 * n4 + n + 1)%Z, (d - n * 365)%Z).

Definition isLeap (y : Z) : bool :=
  (y mod 4 =? 0)%Z && (negb (y mod 100 =? 0)%Z || (y mod 400 =? 0)%Z).

Definition monthLengths (leap : bool) : list Z :=
  [31; if leap then 29 else 28; 31; 30; 31; 30; 31; 31; 30; 31; 30; 31]%Z.

(** The day of the month, from 0. *)
Fixpoint dayOfMonth (ls : list Z) (yday : Z) : Z :=
  match ls with
  | [] => yday
  | l :: ls => if (yday <? l)%Z then yday else dayOfMonth ls (yday - l)
  end.

Definition startOfMonth (t : Time) : Time :=
  let d := (t / nanosPerDay)%Z in
  let '(y, yday) := yearDay d in
  ((d - dayOfMonth (monthLengths (isLeap y)) yday) * nanosPerDay)%Z.

(** ** Spending *)

Record Spending := mkSpending {
  paidToday : USD;
  paidThisMonth : USD;
  paidProjectToday : USD;
  paidTask : USD }.

Definition inWindow (from now : Time) (r : UsageRecord) : bool :=
  negb (time.Before (At r) from) && negb (time.After (At r) now).

Definition spendOne (scope : Scope) (now : Time) (s : Spending) (r : UsageRecord) : Spending :=
  if Included r then s
  else if negb (bool_decide (Scope_ProviderType scope = ProviderOther ""))
          && negb (bool_decide (ProviderType_ r = Scope_ProviderType scope)) then s
  else
    let add (b : bool) (x : USD) := if b then PrimFloat.add x (CostUSD r) else x in
    let today := inWindow (startOfDay now) now r in
    mkSpending (add today (paidToday s))
      (add (inWindow (startOfMonth now) now r) (paidThisMonth s))
      (add (today && (negb (bool_decide (Scope_ProjectID scope = ""))
                      && bool_decide (ProjectID r = Scope_ProjectID scope))) (paidProjectToday s))
      (add (negb (bool_decide (Scope_TaskID scope = "")) && bool_decide (TaskID r = Scope_TaskID scope))
         (paidTask s)).

Definition Spend (c : Controller) (scope : Scope) (now : Time) : Spending :=
  foldl (spendOne scope now) (mkSpending 0 0 0 0) (records c).

Definition decideOne (name : string) (limit remaining amount : USD) (paid hard : bool) (softFrac : float) :
    Decision :=
  let left_ := PrimFloat.sub remaining amount in
  if negb paid then
    mkDecision true false false "subscription-included usage (not counted against paid budget)" limit left_ true
  else if PrimFloat.leb remaining 0 then
    if hard
    then mkDecision false true false (name +:+ " hard budget exhausted; new paid run forbidden (§23)") limit left_ true
    else mkDecision false false false (name +:+ " budget at zero (soft)") limit left_ true
  else if PrimFloat.ltb left_ 0 then
    if hard
    then mkDecision false true false (name +:+ " hard budget would be exceeded by this paid run (§23)") limit left_ true
    else mkDecision false false false (name +:+ " budget would be exceeded (soft)") limit left_ true
  else if PrimFloat.leb (PrimFloat.mul limit softFrac) (PrimFloat.add (PrimFloat.sub limit remaining) amount)
  then mkDecision true false true
         (name +:+ " soft threshold reached; prefer cheaper route / fewer variants (§23)") limit left_ true
  else mkDecision true false false (name +:+ " budget OK") limit left_ true.

Record cand := mkCand { name : string; limit : USD; spent : USD }.

Definition positive (v : USD) : bool := PrimFloat.ltb 0 v.

Definition candidates (l : Limits) (scope : Scope) (s : Spending) : list cand :=
  (if positive (GlobalDailyUSD l) then [mkCand "global daily" (GlobalDailyUSD l) (paidToday s)] else [])
  ++ (if positive (GlobalMonthlyUSD l) then [mkCand "global monthly" (GlobalMonthlyUSD l) (paidThisMonth s)] else [])
  ++ (if negb (bool_decide (Scope_ProjectID scope = "")) then
        match ProjectDailyUSD l !! Scope_ProjectID scope with
        | Some v => if positive v then [mkCand "project daily" v (paidProjectToday s)] else []
        | None => []
        end
      else [])
  ++ (let taskLim := LookupTaskLimit l (Scope_TaskID scope) (TaskRisk scope) in
      if negb (bool_decide (Scope_TaskID scope = "")) && positive taskLim
      then [mkCand "task" taskLim (paidTask s)] else []).

Definition remainingOf (c : cand) : USD := PrimFloat.sub (limit c) (spent c).

(** The loop that keeps the smallest remainder, the first of equals. *)
Fixpoint mostRestrictive (worst : cand) (cs : list cand) : cand :=
  match cs with
  | [] => worst
  | c :: cs => mostRestrictive (if PrimFloat.ltb (remainingOf c) (remainingOf worst) then c else worst) cs
  end.

Definition CanAfford (c : Controller) (scope : Scope) (amount : USD) (paid hard : bool) (now : Time) : Decision :=
  let s := Spend c scope now in
  let l := limits c in
  let image :=
    if bool_decide (Scope_ProviderType scope = ProviderImage) && positive (ImageDailyUSD l) then
      let d := decideOne "image daily" (ImageDailyUSD l) (PrimFloat.sub (ImageDailyUSD l) (paidToday s)) amount
                 paid hard (SoftFraction l) in
      if Allowed d then None else Some d
    else None in
  match image with
  | Some d => d
  | None =>
      match candidates l scope s with
      | [] => mkDecision true false false "no applicable budget limit" 0 0 false
      | w :: cs =>
          let w := mostRestrictive w cs in
          decideOne (name w) (limit w) (remainingOf w) amount paid hard (SoftFraction l)
      end
  end.

(** ** Summaries *)

Record ProviderCost := mkProviderCost {
  Bucket_IncludedCost : USD;
  Bucket_PaidCost : USD;
  Bucket_InputTokens : Z;
  Bucket_OutputTokens : Z;
  Bucket_CachedTokens : Z;
  Bucket_ImageGens : Z }.

Record AggregatedSummary := mkSummary {
  WindowFrom : Time;
  WindowTo : Time;
  Sum_InputTokens : Z;
  Sum_OutputTokens : Z;
  Sum_CachedTokens : Z;
  Sum_ImageGens : Z;
  IncludedCost : USD;
  PaidCost : USD;
  TotalCost : USD;
  CoarsestConf : quota.Confidence;
  PerProvider : gmap string ProviderCost;
  PerProject : gmap string ProviderCost;
  PerEngine : gmap string ProviderCost;
  Records : Z }.

Definition boolUSD (cond : bool) (v : USD) : USD := if cond then v else 0%float.

Definition bucket (m : gmap string ProviderCost) (key : string) (r : UsageRecord) : gmap string ProviderCost :=
  let key := if bool_decide (key = "") then "-" else key in
  let p := default (mkProviderCost 0 0 0 0 0 0) (m !! key) in
  <[key := mkProviderCost (PrimFloat.add (Bucket_IncludedCost p) (boolUSD (Included r) (CostUSD r)))
             (PrimFloat.add (Bucket_PaidCost p) (boolUSD (negb (Included r)) (CostUSD r)))
             (Bucket_InputTokens p + InputTokens r) (Bucket_OutputTokens p + OutputTokens r)
             (Bucket_CachedTokens p + CachedTokens r) (Bucket_ImageGens p + ImageGens r)]> m.

Definition rank (c : quota.Confidence) : Z :=
  match c with
  | quota.ConfExact => 4
  | quota.ConfProviderReported => 3
  | quota.ConfEstimated => 2
  | quota.ConfInferred => 1
  | _ => 0
  end.
Definition coarsest (a b : quota.Confidence) : quota.Confidence := if (rank b <? rank a)%Z then b else a.

Definition inSummary (from to : Time) (r : UsageRecord) : bool :=
  negb (negb (time.IsZero from) && time.Before (At r) from)
  && negb (negb (time.IsZero to) && time.After (At r) to).

Definition addRecord (s : AggregatedSummary) (r : UsageRecord) : AggregatedSummary :=
  mkSummary (WindowFrom s) (WindowTo s) (Sum_InputTokens s + InputTokens r) (Sum_OutputTokens s + OutputTokens r)
    (Sum_CachedTokens s + CachedTokens r) (Sum_ImageGens s + ImageGens r)
    (if Included r then PrimFloat.add (IncludedCost s) (CostUSD r) else IncludedCost s)
    (if Included r then PaidCost s else PrimFloat.add (PaidCost s) (CostUSD r))
    (TotalCost s) (coarsest (CoarsestConf s) (Confidence r))
    (bucket (PerProvider s) (ProviderType_String (ProviderType_ r)) r)
    (bucket (PerProject s) (ProjectID r) r) (bucket (PerEngine s) (Engine r) r) (Records s + 1).

Definition Summary (c : Controller) (from to : Time) : AggregatedSummary :=
  let rs := filter (λ r, inSummary from to r = true) (records c) in
  let s := foldl addRecord (mkSummary from to 0 0 0 0 0 0 0 quota.ConfExact ∅ ∅ ∅ 0) rs in
  mkSummary from to (Sum_InputTokens s) (Sum_OutputTokens s) (Sum_CachedTokens s) (Sum_ImageGens s)
    (IncludedCost s) (PaidCost s) (PrimFloat.add (IncludedCost s) (PaidCost s))
    (if bool_decide (rs = []) then quota.ConfUnknown else CoarsestConf s)
    (PerProvider s) (PerProject s) (PerEngine s) (Records s).

Definition SortedRecords (c : Controller) : list UsageRecord :=
  sortStable (λ a b, time.Before (At a) (At b)) (records c).
Definition Count (c : Controller) : Z := Z.of_nat (length (records c)).

(** ** The float comparison is a strict order *)

(** Comparing floats is comparing keys lexicographically; NaN has none. *)
Definition sfKey (x : spec_float) : option (Z * Z * Z) :=
  match x with
  | S754_zero _ => Some (0, 0, 0)%Z
  | S754_infinity s => Some ((if s then -2 else 2), 0, 0)%Z
  | S754_nan => None
  | S754_finite s m e => Some (if s then (-1, -e, -Z.pos m) else (1, e, Z.pos m))%Z
  end.
Definition keyLt (a b : Z * Z * Z) : Prop :=
  (a.1.1 < b.1.1 ∨ a.1.1 = b.1.1 ∧ (a.1.2 < b.1.2 ∨ a.1.2 = b.1.2 ∧ a.2 < b.2))%Z.

Lemma SFltb_key x y :
  SFltb x y = true ↔ ∃ a b, sfKey x = Some a ∧ sfKey y = Some b ∧ keyLt a b.
Proof.
  assert (∀ a b, (∃ a' b', Some a = Some a' ∧ Some b = Some b' ∧ keyLt a' b') ↔ keyLt a b) as Hex.
  { intros a b. split; [by intros (? & ? & [= <-] & [= <-] & ?)|intros ?; by exists a, b]. }
  unfold SFltb.
  destruct x as [[]|[]| |[] m e], y as [[]|[]| |[] m' e']; cbn [sfKey SFcompare]; rewrite ?Hex;
    unfold keyLt; cbn [fst snd];
    try (by split; [done|intros (? & ? & ? & ? & _)]); try (split; intros; [done||lia|done||lia]).
  all: destruct (Z.compare_spec e e') as [He|He|He]; try (split; intros; [done||lia|done||lia]).
  all: change (Pos.compare_cont Eq m m') with (Pos.compare m m');
    destruct (Pos.compare_spec m m') as [Hm|Hm|Hm]; cbn; split; intros; try done; try lia.
Qed.

Lemma ltb_trans x y z : PrimFloat.ltb x y = true → PrimFloat.ltb y z = true → PrimFloat.ltb x z = true.
Proof.
  rewrite !ltb_spec, !SFltb_key. intros (a & b & Ha & Hb & H1) (b' & c & Hb' & Hc & H2).
  rewrite Hb in Hb'. injection Hb' as <-. exists a, c. do 2 (split; [done|]). unfold keyLt in *. lia.
Qed.

Lemma ltb_irrefl x : PrimFloat.ltb x x = false.
Proof.
  apply not_true_iff_false. rewrite ltb_spec, SFltb_key. intros (a & b & Ha & Hb & H).
  rewrite Ha in Hb. injection Hb as <-. unfold keyLt in H. lia.
Qed.

(** Not a number. *)
Definition isNaN (x : float) : Prop := sfKey (Prim2SF x) = None.

Lemma ltb_NaN x y : isNaN y → PrimFloat.ltb x y = false.
Proof.
  intros Hy. apply not_true_iff_false. rewrite ltb_spec, SFltb_key. intros (a & b & _ & Hb & _).
  unfold isNaN in Hy. congruence.
Qed.

Lemma ltb_cotrans x y z : ¬ isNaN y → PrimFloat.ltb x z = true → PrimFloat.ltb x y = true ∨ PrimFloat.ltb y z = true.
Proof.
  rewrite !ltb_spec, !SFltb_key. unfold isNaN. destruct (sfKey (Prim2SF y)) as [k|]; [|done].
  intros _ (a & b & Ha & Hb & H).
  assert (keyLt a k ∨ keyLt k b) as [?|?] by (unfold keyLt in *; lia); [left|right]; by repeat eexists.
Qed.

(** ** The smallest remainder *)

Lemma mostRestrictive_NaN w cs : isNaN (remainingOf w) → mostRestrictive w cs = w.
Proof. intros Hw. induction cs as [|x cs IH]; cbn; [done|]. by rewrite ltb_NaN. Qed.

Lemma mostRestrictive_spec w cs :
  mostRestrictive w cs ∈ w :: cs ∧
  ∀ c, c ∈ w :: cs → PrimFloat.ltb (remainingOf c) (remainingOf (mostRestrictive w cs)) = false.
Proof.
  revert w; induction cs as [|x cs IH]; intros w; cbn [mostRestrictive].
  { split; [by constructor|]. intros c ->%list_elem_of_singleton. apply ltb_irrefl. }
  destruct (PrimFloat.ltb (remainingOf x) (remainingOf w)) eqn:Hlt.
  - destruct (IH x) as [Hin Hmin]. split; [by constructor|].
    intros c [->|Hc]%elem_of_cons; [|by apply Hmin].
    apply not_true_iff_false. intros H. pose proof (ltb_trans _ _ _ Hlt H) as H'.
    rewrite Hmin in H' by constructor. done.
  - destruct (IH w) as [Hin Hmin]. split.
    + apply elem_of_cons in Hin as [->|Hin]; [constructor|by do 2 constructor].
    + intros c [->|[->|Hc]%elem_of_cons]%elem_of_cons; [apply Hmin; constructor| |apply Hmin; by constructor].
      apply not_true_iff_false. intros H.
      destruct (decide (sfKey (Prim2SF (remainingOf w)) = None)) as [Hn|Hn].
      * rewrite mostRestrictive_NaN in H by done. congruence.
      * destruct (ltb_cotrans _ _ _ Hn H) as [?|H']; [congruence|].
        rewrite Hmin in H' by constructor. done.
Qed.

(** ** Isolation and enforcement *)

(** Whose spending a scope counts. *)
Definition counts (scope : Scope) (r : UsageRecord) : bool :=
  negb (Included r)
  && (bool_decide (Scope_ProviderType scope = ProviderOther "")
      || bool_decide (ProviderType_ r = Scope_ProviderType scope)).

Lemma Spend_filter l rs scope now :
  Spend (mkController l rs) scope now = Spend (mkController l (filter (λ r, counts scope r = true) rs)) scope now.
Proof.
  unfold Spend. cbn [records]. generalize (mkSpending 0 0 0 0) as s.
  induction rs as [|r rs IH]; intros s; [done|]. rewrite filter_cons. cbn [foldl]. case_decide as Hr.
  - cbn [foldl]. apply IH.
  - rewrite IH. f_equal. unfold spendOne. apply not_true_iff_false in Hr. unfold counts in Hr.
    destruct (Included r); [done|]. cbn in Hr. apply orb_false_iff in Hr as [-> ->]. done.
Qed.

Lemma decideOne_unpaid n l rem amt hard sf : Allowed (decideOne n l rem amt false hard sf) = true.
Proof. done. Qed.

Lemma decideOne_hard n l rem amt paid hard sf :
  let d := decideOne n l rem amt paid hard sf in
  HardBlocked d = bool_decide (paid = true ∧ hard = true ∧ Allowed d = false).
Proof.
  unfold decideOne. destruct paid, hard, (PrimFloat.leb rem 0), (PrimFloat.ltb (PrimFloat.sub rem amt) 0),
    (PrimFloat.leb (PrimFloat.mul l sf) (PrimFloat.add (PrimFloat.sub l rem) amt)); done.
Qed.

Lemma decideOne_allowed n l rem amt hard sf :
  Allowed (decideOne n l rem amt true hard sf) = true →
  PrimFloat.leb rem 0 = false ∧ PrimFloat.ltb (PrimFloat.sub rem amt) 0 = false.
Proof.
  unfold decideOne. destruct hard, (PrimFloat.leb rem 0), (PrimFloat.ltb (PrimFloat.sub rem amt) 0); done.
Qed.

Lemma CanAfford_cases c scope amount paid hard now :
  let d := CanAfford c scope amount paid hard now in
  let cs := candidates (limits c) scope (Spend c scope now) in
  (∃ n l rem sf, d = decideOne n l rem amount paid hard sf ∧ Allowed d = false) ∨
  (cs = [] ∧ d = mkDecision true false false "no applicable budget limit" 0 0 false) ∨
  (∃ w cs' sf, cs = w :: cs' ∧
     let m := mostRestrictive w cs' in d = decideOne (name m) (limit m) (remainingOf m) amount paid hard sf).
Proof.
  unfold CanAfford.
  assert (∀ o : option Decision, o = None ∨ ∃ d, o = Some d) as Ho by (intros []; eauto).
  match goal with |- context [match ?x with Some d => d | None => _ end] =>
    destruct (Ho x) as [Hx|[d Hx]]; rewrite Hx end.
  - destruct (candidates _ _ _) as [|w cs]; [by right; left|]. right. right. by eexists _, _, _.
  - left. destruct (_ && _); [|done]. revert Hx. cbv zeta. destruct (Allowed _) eqn:Ha; [done|].
    intros [= <-]. by repeat eexists.
Qed.

(** the budget gate.  For a scope, only paid usage of its provider type
    counts: recording subscription-included usage, or usage of another provider
    type, changes no decision.  Subscription-included spends are always allowed;
    a paid one that is allowed leaves the most restrictive applicable limit
    unexceeded, and no applicable limit has less left; a hard check blocks
    exactly the paid spends it does not allow. *)
Theorem CanAfford_gate c scope amount paid hard now :
  let d := CanAfford c scope amount paid hard now in
  let s := Spend c scope now in
  (∀ r t, Included r = true ∨
     (Scope_ProviderType scope ≠ ProviderOther "" ∧ Scope_ProviderType scope ≠ ProviderCoding ∧
      ProviderType_ r ≠ Scope_ProviderType scope) ∨
     (Scope_ProviderType scope = ProviderCoding ∧ ProviderType_ r ≠ ProviderCoding ∧
      ProviderType_ r ≠ ProviderOther "") →
     CanAfford (Record_ r t c) scope amount paid hard now = d) ∧
  (paid = false → Allowed d = true) ∧
  HardBlocked d = bool_decide (paid = true ∧ hard = true ∧ Allowed d = false) ∧
  (paid = true → Allowed d = true → candidates (limits c) scope s ≠ [] →
     ∃ w, w ∈ candidates (limits c) scope s ∧
       PrimFloat.leb (remainingOf w) 0 = false ∧ PrimFloat.ltb (PrimFloat.sub (remainingOf w) amount) 0 = false ∧
       ∀ x, x ∈ candidates (limits c) scope s → PrimFloat.ltb (remainingOf x) (remainingOf w) = false).
Proof.
  intros d s. split; [|split; [|split]].
  - intros r t Hr. unfold d, CanAfford, Record_. cbn [limits].
    assert (Spend (Record_ r t c) scope now = Spend c scope now) as Hs.
    { destruct c as [l rs]. unfold Record_. cbn [limits records]. rewrite Spend_filter, filter_app.
      rewrite (Spend_filter l rs). f_equal. f_equal. rewrite filter_cons_False; [by rewrite filter_nil, app_nil_r|].
      unfold counts. cbn [Included ProviderType_]. destruct (Included r); [done|]. cbn.
      rewrite orb_true_iff, !bool_decide_eq_true.
      destruct (decide (ProviderType_ r = ProviderOther "")) as [E|E];
        [rewrite (bool_decide_true _ E)|rewrite (bool_decide_false _ E)];
        intros [H|H]; destruct Hr as [?|[(?&?&?)|(?&?&?)]]; congruence. }
    unfold Record_ in Hs. cbn [limits] in Hs. by rewrite Hs.
  - intros ->. destruct (CanAfford_cases c scope amount false hard now)
      as [(? & ? & ? & ? & Hd & _)|[[_ Hd]|(w & cs & sf & _ & Hd)]]; fold d in Hd; by rewrite Hd.
  - destruct (CanAfford_cases c scope amount paid hard now)
      as [(? & ? & ? & ? & Hd & _)|[[_ Hd]|(w & cs & sf & _ & Hd)]]; fold d in Hd; rewrite Hd.
    + apply decideOne_hard.
    + cbn. by rewrite bool_decide_false by (by intros (_ & _ & ?)).
    + apply decideOne_hard.
  - intros -> Hall Hne. destruct (CanAfford_cases c scope amount true hard now)
      as [(? & ? & ? & ? & Hd & Ha)|[[Hc _]|(w & cs & sf & Hc & Hd)]]; [fold d in Ha; congruence|done|].
    fold d in Hd. destruct (mostRestrictive_spec w cs) as [Hin Hmin]. fold s in Hc. rewrite Hc.
    exists (mostRestrictive w cs). split; [done|]. cbv zeta in Hd.
    rewrite Hd in Hall. apply decideOne_allowed in Hall as [H1 H2]. auto.
Qed.

Definition included (cost : USD) : UsageRecord :=
  mkUsageRecord (quota.mkAccountID "e" "a") "e" "m" "T" 1 1 0 0 cost quota.ConfExact true ProviderCoding "P" "T-1" 0.

Lemma CanAfford_gate_witness :
  let c := Record_ (mkUsageRecord (quota.mkAccountID "e" "a") "e" "m" "T" 1 1 0 0 4%float quota.ConfExact false
             ProviderCoding "P" "T-1" 0) 50 (New (mkLimits 10%float 0%float ∅ ∅ ∅ 0%float 0 0%float)) in
  let sc := mkScope "P" "T-1" 1 ProviderCoding in
  CanAfford (Record_ (included 100%float) 55 c) sc 5%float true true 60 = CanAfford c sc 5%float true true 60 ∧
  Allowed (CanAfford c sc 5%float true true 60) = true ∧
  ∃ w, w ∈ candidates (limits c) sc (Spend c sc 60) ∧ PrimFloat.leb (remainingOf w) 0 = false.
Proof.
  intros c sc. split; [exact (proj1 (CanAfford_gate c sc 5%float true true 60) (included 100%float) 55%Z (or_introl eq_refl))|].
  assert (Allowed (CanAfford c sc 5%float true true 60) = true) as H by (vm_compute; reflexivity).
  split; [exact H|].
  destruct (CanAfford_gate c sc 5%float true true 60) as (_ & _ & _ & H2).
  assert (candidates (limits c) sc (Spend c sc 60) ≠ []) as Hne by (vm_compute; discriminate).
  destruct (H2 eq_refl H Hne) as (w & Hw & Hr & _). exists w. split; [exact Hw|exact Hr].
Defined.

(** "Global" limits count the spending of one provider type only. *)
Lemma global_limit_per_provider :
  let c := Record_ (mkUsageRecord (quota.mkAccountID "e" "a") "e" "m" "T" 1 1 0 0 9%float quota.ConfExact false
             ProviderCoding "P" "T-1" 0) 50 (New (mkLimits 10%float 0%float ∅ ∅ ∅ 0%float 0 0%float)) in
  Allowed (CanAfford c (mkScope "P" "T-1" 1 ProviderCoding) 5%float true true 60) = false ∧
  Allowed (CanAfford c (mkScope "P" "T-1" 1 ProviderImage) 5%float true true 60) = true.
Proof. vm_compute. done. Qed.

(** The soft signal looks at the limit with the least left, not at the one most
    used: a global limit used to 98 % goes unnoticed behind a fresh task limit. *)
Lemma soft_signal_missed :
  let c := Record_ (mkUsageRecord (quota.mkAccountID "e" "a") "e" "m" "T" 1 1 0 0 98%float quota.ConfExact false
             ProviderCoding "P" "T-1" 0) 50
             (New (mkLimits 100%float 0%float ∅ ∅ {["T-2" := 1%float]} 0%float 0 0%float)) in
  SoftSignal (CanAfford c (mkScope "P" "T-3" 1 ProviderCoding) 0.1%float true true 60) = true ∧
  SoftSignal (CanAfford c (mkScope "P" "T-2" 1 ProviderCoding) 0.1%float true true 60) = false.
Proof. vm_compute. done. Qed.

(** The calendar: noon of 29 February 2024 belongs to the month that began 28
    days before. *)
Example startOfMonth_leap :
  startOfMonth (738944 * nanosPerDay + 12 * 3600 * time.Second) = (738916 * nanosPerDay)%Z.
Proof. vm_compute. reflexivity. Qed.
Example startOfMonth_december :
  startOfMonth (730118 * nanosPerDay + 1) = (730088 * nanosPerDay)%Z.
Proof. vm_compute. reflexivity. Qed.
End budget.
