(* ===== verification/Router.v ===== *)
(** * Router: deterministic route selection (spec §19)

    Models [internal/router/tiers.go], [complexity.go], [catalog.go] and
    [router.go].  Scores and prices are binary64 numbers.  Reasons are values
    where the code formats their text, and the detail text of a score factor is
    left out.  The clock is read once per route.  Asking the quota manager
    refreshes its breakers, so a route also returns the manager. *)
From S2P Require Import Prelude Risk Quota Budget.
From Stdlib Require Import PrimFloat Uint63.

Module router.

(** ** tiers.go *)

(** [type Tier int], [type Complexity int]. *)
Definition TierTiny : Z := 0.
Definition TierSmall : Z := 1.
Definition TierStandard : Z := 2.
Definition TierHeavy : Z := 3.
Definition TierFrontier : Z := 4.
Definition maxTier : Z := TierFrontier.
Definition Tier_IsValid (t : Z) : bool := (TierTiny <=? t)%Z && (t <=? TierFrontier)%Z.
Definition Tiers : list Z := [TierTiny; TierSmall; TierStandard; TierHeavy; TierFrontier].

Definition C0 : Z := 0.
Definition C1 : Z := 1.
Definition C2 : Z := 2.
Definition C3 : Z := 3.
Definition C4 : Z := 4.
Definition Complexity_IsValid (c : Z) : bool := (C0 <=? c)%Z && (c <=? C4)%Z.
Definition Complexities : list Z := [C0; C1; C2; C3; C4].

Definition BaseTier (c : Z) (preferStrong : bool) : Z :=
  if (c =? C0)%Z then TierTiny
  else if (c =? C1)%Z then TierSmall
  else if (c =? C2)%Z then TierStandard
  else if (c =? C3)%Z then if preferStrong then TierHeavy else TierStandard
  else if (c =? C4)%Z then if preferStrong then TierFrontier else TierHeavy
  else TierStandard.

(** ** complexity.go *)

Record ComplexitySignals := mkComplexitySignals {
  Description : string;
  EstimatedFileCount : Z;
  EstimatedTurns : Z;
  Signal_ContextTokens : Z;
  Signal_Role : string;
  CrossPackageChange : bool;
  ArchitecturalDecision : bool;
  ConflictingCheapResults : bool }.

Definition containsAny (s : string) (subs : list string) : bool := existsb (strs.Contains s) subs.

Definition scoreToBand (score : Z) : Z :=
  if (8 <=? score)%Z then C4
  else if (5 <=? score)%Z then C3
  else if (3 <=? score)%Z then C2
  else if (1 <=? score)%Z then C1
  else C0.

(** One signal: its points and its reason. *)
Definition point (b : bool) (n : Z) (reason : string) : list (Z * string) := if b then [(n, reason)] else [].

Definition complexityPoints (s : ComplexitySignals) : list (Z * string) :=
  let low := strs.ToLower (Description s) in
  let f := EstimatedFileCount s in let t := EstimatedTurns s in let c := Signal_ContextTokens s in
  point (containsAny low ["typo"; "rename"; "docs"; "changelog"; "comment"; "format"; "lint rule"]) 0
    "mechanical/docs change"
  ++ (if (20 <=? f)%Z then [(3%Z, "touches many files (>=20)")]
      else if (8 <=? f)%Z then [(2%Z, "touches several files (>=8)")]
      else if (3 <=? f)%Z then [(1%Z, "touches a few files (>=3)")] else [])
  ++ (if (28 <=? t)%Z then [(3%Z, "high turn estimate (>=28)")]
      else if (16 <=? t)%Z then [(2%Z, "moderate turn estimate (>=16)")]
      else if (8 <=? t)%Z then [(1%Z, "modest turn estimate (>=8)")] else [])
  ++ (if (200000 <=? c)%Z then [(2%Z, "large context (>=200k tokens)")]
      else if (50000 <=? c)%Z then [(1%Z, "medium context (>=50k tokens)")] else [])
  ++ point (containsAny low ["refactor"; "feature"; "implement"]) 1 "role: implementation/refactor"
  ++ point (containsAny low ["migration"; "migrate"; "schema"]) 2 "role: migration/schema"
  ++ point (containsAny low ["architect"; "design system"; "rewrite"]) 2 "role: architecture"
  ++ point (CrossPackageChange s) 2 "cross-package change"
  ++ point (ArchitecturalDecision s) 3 "architectural decision required"
  ++ point (ConflictingCheapResults s) 2 "cheap agents disagreed".

Definition ClassifyComplexity (s : ComplexitySignals) : Z * list string :=
  let ps := complexityPoints s in
  (scoreToBand (foldr (λ p n, (p.1 + n)%Z) 0%Z ps),
   match snd <$> ps with [] => ["no complexity signals; default to standard"] | rs => rs end).

Definition Escalate (c : Z) : Z := if (c <? C4)%Z then (c + 1)%Z else C4.
Definition Deescalate (c : Z) : Z := if (C0 <? c)%Z then (c - 1)%Z else C0.

(** ** catalog.go *)

Record CatalogEntry := mkCatalogEntry {
  Tier : Z;
  Engine : string;
  Model : string;
  Account : string;
  CostPer1MInputUSD : float;
  CostPer1MOutputUSD : float;
  ContextWindow : Z;
  MaxOutput : Z;
  SupportsImages : bool;
  SubscriptionIncluded : bool;
  Priority : Z;
  Disabled : bool }.

Definition ID (e : CatalogEntry) : string := Engine e +:+ "/" +:+ Model e +:+ "/" +:+ Account e.
Definition AccountID (e : CatalogEntry) : quota.AccountID := quota.mkAccountID (Engine e) (Account e).

Abbreviation Catalog := (list CatalogEntry) (only parsing).

Definition Add (e : CatalogEntry) (c : Catalog) : bool * Catalog :=
  if existsb (λ x, (Tier x =? Tier e)%Z && bool_decide (ID x = ID e)) c then (false, c) else (true, c ++ [e]).
Definition Remove (id : string) (c : Catalog) : Z * Catalog :=
  (Z.of_nat (length (filter (λ x, ID x = id) c)), filter (λ x, ID x ≠ id) c).

(** Descending priority, then id. *)
Definition lessEntry (a b : CatalogEntry) : bool :=
  if negb (Priority a =? Priority b)%Z then (Priority b <? Priority a)%Z
  else negb (String.leb (ID b) (ID a)).

Definition ByTier (t : Z) (c : Catalog) : list CatalogEntry :=
  sortStable lessEntry (filter (λ e, negb (Disabled e) && (Tier e =? t)%Z = true) c).

Definition Find (engine model account : string) (c : Catalog) : option CatalogEntry :=
  snd <$> list_find (λ e, Engine e = engine ∧ Model e = model ∧ Account e = account) c.

Fixpoint accounts (seen : list quota.AccountID) (c : Catalog) : list quota.AccountID :=
  match c with
  | [] => []
  | e :: c => if bool_decide (AccountID e ∈ seen) then accounts seen c
              else AccountID e :: accounts (AccountID e :: seen) c
  end.
Definition Accounts (c : Catalog) : list quota.AccountID :=
  sortStable (λ a b,
    if negb (bool_decide (quota.Engine a = quota.Engine b))
    then negb (String.leb (quota.Engine b) (quota.Engine a))
    else negb (String.leb (quota.Account b) (quota.Account a))) (accounts [] c).

(** ** router.go *)

Record Request := mkRequest {
  Complexity : Z;
  Risk : Z;
  Role : string;
  Language : string;
  NeedsImages : bool;
  ContextTokens : Z;
  ProjectID : string;
  TaskID : string;
  PreferStrong : bool;
  AllowIncludedOnly : bool;
  DiversityPenalised : gmap string Z }.

Record ScoreFactor := mkFactor { Name : string; Delta : float }.

Record Route := mkRoute {
  Entry : CatalogEntry;
  EstimatedCostUSD : float;
  QuotaConfidence : quota.Confidence;
  Score : float;
  ScoreBreakdown : list ScoreFactor }.

(** The parts of an alternative's reason. *)
Inductive AltReason :=
| AltLowerScore (score best : float)
| AltTierBelow (tier target : Z)
| AltTierAbove (tier target : Z)
| AltIncluded
| AltNotHighest.

Record Alternative := mkAlternative { Alt_Route : Route; Alt_Reason : list AltReason }.

Inductive ExcludeReason :=
| ExDisabled
| ExImages
| ExContext (window required : Z)
| ExBudget
| ExQuota (why : option quota.Why).

Record ExcludedRoute := mkExcluded { Ex_Entry : CatalogEntry; Ex_Reason : ExcludeReason }.

Record Explanation := mkExplanation {
  Selected : option Route;
  TargetTier : Z;
  Ex_Complexity : Z;
  Ex_Risk : Z;
  Alternatives : list Alternative;
  Excluded : list ExcludedRoute;
  QuotaSummary : list quota.Snapshot;
  BudgetDecision : option budget.Decision;
  FallbackChain : list Route;
  Notes : list string }.

Record ScoreConfig := mkScoreConfig {
  ExpectedInputTokens : Z;
  ExpectedOutputTokens : Z;
  CostWeight : float;
  IncludedBonus : float;
  TierMatchBonus : float;
  TierDistancePenalty : float;
  RiskFloorTier : Z;
  DiversityPenalty : float }.

Definition DefaultScoreConfig : ScoreConfig := mkScoreConfig 20000 4000 1 0.5 1 0.6 TierStandard 0.25.

Definition isZeroConfig (c : ScoreConfig) : bool :=
  (ExpectedInputTokens c =? 0)%Z && (ExpectedOutputTokens c =? 0)%Z && PrimFloat.eqb (CostWeight c) 0
  && PrimFloat.eqb (IncludedBonus c) 0 && PrimFloat.eqb (TierMatchBonus c) 0
  && PrimFloat.eqb (TierDistancePenalty c) 0 && (RiskFloorTier c =? 0)%Z && PrimFloat.eqb (DiversityPenalty c) 0.

Record Router := mkRouter {
  catalog : Catalog;
  budget_ : option budget.Controller;
  cfg : ScoreConfig }.

Definition New (c : option Catalog) (b : option budget.Controller) (cfg : ScoreConfig) : Router :=
  let cfg := if isZeroConfig cfg then DefaultScoreConfig else cfg in
  mkRouter (default [] c) b
    (mkScoreConfig (if (ExpectedInputTokens cfg <=? 0)%Z then 20000 else ExpectedInputTokens cfg)
       (if (ExpectedOutputTokens cfg <=? 0)%Z then 4000 else ExpectedOutputTokens cfg)
       (CostWeight cfg) (IncludedBonus cfg) (TierMatchBonus cfg) (TierDistancePenalty cfg) (RiskFloorTier cfg)
       (DiversityPenalty cfg)).

(** [float64(n)] for an [int]. *)
Definition float64 (n : Z) : float :=
  if (n <? 0)%Z then PrimFloat.opp (PrimFloat.of_uint63 (Uint63.of_Z (- n)))
  else PrimFloat.of_uint63 (Uint63.of_Z n).

Definition EstimateCost (r : Router) (e : CatalogEntry) : float :=
  let in_ := PrimFloat.mul (PrimFloat.div (float64 (ExpectedInputTokens (cfg r))) 1000000) (CostPer1MInputUSD e) in
  let out := PrimFloat.mul (PrimFloat.div (float64 (ExpectedOutputTokens (cfg r))) 1000000) (CostPer1MOutputUSD e) in
  if PrimFloat.leb (CostPer1MInputUSD e) 0 && PrimFloat.leb (CostPer1MOutputUSD e) 0 then 0%float
  else PrimFloat.add in_ out.

Definition estimateForTier (r : Router) (t : Z) : float :=
  foldl (λ best e, let c := EstimateCost r e in if PrimFloat.ltb best c then c else best) 0%float
    (ByTier t (catalog r)).

(** The tiers above [target] upward, then those below downward. *)
Definition orderedFallbackTiers (target : Z) : list Z :=
  target :: filter (λ t, target < t)%Z Tiers ++ filter (λ t, t < target)%Z (reverse Tiers).

(** The quota manager, or none. *)
Abbreviation QM := (option quota.Manager) (only parsing).

Definition isAvailable (id : quota.AccountID) (now : Time) (qm : QM) : bool * QM :=
  match qm with
  | None => (true, None)
  | Some m => let '(b, m) := quota.IsAvailable id now m in (b, Some m)
  end.

Definition excludeReason (req : Request) (includedOnly : bool) (now : Time) (e : CatalogEntry) (qm : QM) :
    option ExcludeReason * QM :=
  if Disabled e then (Some ExDisabled, qm)
  else if NeedsImages req && negb (SupportsImages e) then (Some ExImages, qm)
  else if (0 <? ContextTokens req)%Z && (0 <? ContextWindow e)%Z && (ContextWindow e <? ContextTokens req)%Z
  then (Some (ExContext (ContextWindow e) (ContextTokens req)), qm)
  else if includedOnly && negb (SubscriptionIncluded e) then (Some ExBudget, qm)
  else
    match isAvailable (AccountID e) now qm with
    | (true, qm) => (None, qm)
    | (false, None) => (None, None)
    | (false, Some m) =>
        let '(why, m) := quota.WhyUnavailable (AccountID e) now m in (Some (ExQuota why), Some m)
    end.

Definition scoreEntry (r : Router) (req : Request) (target tier : Z) (now : Time) (e : CatalogEntry) (qm : QM) :
    Route * QM :=
  let cost := EstimateCost r e in
  let '(conf, qm) := match qm with
    | None => (quota.ConfEstimated, None)
    | Some m => let '(s, m) := quota.Manager_Snapshot (AccountID e) now m in (quota.Confidence_ s, Some m)
    end in
  let dist := Z.abs (tier - target) in
  let tierBonus := PrimFloat.sub (TierMatchBonus (cfg r)) (PrimFloat.mul (float64 dist) (TierDistancePenalty (cfg r))) in
  let norm := let n := PrimFloat.div cost 10 in if PrimFloat.ltb 1 n then 1%float else n in
  let factors :=
    [mkFactor "tier-match" tierBonus]
    ++ (if PrimFloat.ltb 0 cost
        then [mkFactor "cost" (PrimFloat.mul (PrimFloat.opp (CostWeight (cfg r))) norm)] else [])
    ++ (if SubscriptionIncluded e then [mkFactor "included" (IncludedBonus (cfg r))] else [])
    ++ (if negb (Priority e =? 0)%Z then [mkFactor "priority" (PrimFloat.mul (float64 (Priority e)) 0.1)] else [])
    ++ match DiversityPenalised req !! Engine e with
       | Some pen =>
           if (0 <? pen)%Z
           then [mkFactor "diversity" (PrimFloat.mul (PrimFloat.opp (DiversityPenalty (cfg r))) (float64 pen))]
           else []
       | None => []
       end in
  (mkRoute e cost conf (foldl (λ t f, PrimFloat.add t (Delta f)) 0%float factors) factors, qm).

Definition altReason (rt : Route) (tier target : Z) (best : Route) : list AltReason :=
  let parts :=
    (if PrimFloat.ltb (Score rt) (Score best) then [AltLowerScore (Score rt) (Score best)] else [])
    ++ (if negb (tier =? target)%Z then
          if (tier <? target)%Z then [AltTierBelow tier target] else [AltTierAbove tier target]
        else [])
    ++ (if SubscriptionIncluded (Entry rt) then [AltIncluded] else []) in
  match parts with [] => [AltNotHighest] | _ => parts end.

(** The two loops over the tiers and their entries: what is excluded, and what
    is scored, with its tier. *)
Fixpoint scoreAll (r : Router) (req : Request) (target : Z) (includedOnly : bool) (now : Time)
    (es : list (Z * CatalogEntry)) (qm : QM) : (list ExcludedRoute * list (Route * Z)) * QM :=
  match es with
  | [] => (([], []), qm)
  | (t, e) :: es =>
      match excludeReason req includedOnly now e qm with
      | (Some reason, qm) =>
          let '((ex, sc), qm) := scoreAll r req target includedOnly now es qm in
          ((mkExcluded e reason :: ex, sc), qm)
      | (None, qm) =>
          let '(rt, qm) := scoreEntry r req target t now e qm in
          let '((ex, sc), qm) := scoreAll r req target includedOnly now es qm in
          ((ex, (rt, t) :: sc), qm)
      end
  end.

Definition tieredEntries (c : Catalog) : list (Z * CatalogEntry) :=
  mjoin ((λ t, pair t <$> ByTier t c) <$> Tiers).

Definition higherScore (a b : Route * Z) : bool := PrimFloat.ltb (Score b.1) (Score a.1).

Definition rankedAlternatives (r : Router) (req : Request) (target : Z) (includedOnly : bool) (now : Time) (qm : QM) :
    (list ExcludedRoute * list Alternative) * QM :=
  let '((ex, sc), qm) := scoreAll r req target includedOnly now (tieredEntries (catalog r)) qm in
  let all := sortStable higherScore sc in
  ((ex, match all with
        | [] => []
        | best :: _ => (λ s, mkAlternative s.1 (altReason s.1 s.2 target best.1)) <$> all
        end), qm).

(** The first alternative of a tier, with its position. *)
Definition firstOfTier (alts : list Alternative) (t : Z) : option (nat * Alternative) :=
  list_find (λ a, Tier (Entry (Alt_Route a)) = t) alts.

Fixpoint pick (alts : list Alternative) (ts : list Z) : option (nat * Alternative) :=
  match ts with
  | [] => None
  | t :: ts => match firstOfTier alts t with Some p => Some p | None => pick alts ts end
  end.

Definition clearReason (i : nat) (alts : list Alternative) : list Alternative :=
  alter (λ a, mkAlternative (Alt_Route a) []) i alts.

(** The selected route's reason is cleared. *)
Definition markSelected (sel : option (nat * Alternative)) (alts : list Alternative) : list Alternative :=
  match sel with Some (i, _) => clearReason i alts | None => alts end.

Inductive Error := ErrComplexity (c : Z) | ErrRisk (r : Z).

Definition validateRequest (req : Request) : option Error :=
  if negb (Complexity_IsValid (Complexity req)) then Some (ErrComplexity (Complexity req))
  else if negb (risk.IsValid (Risk req)) then Some (ErrRisk (Risk req))
  else None.

Definition targetTier (r : Router) (req : Request) : Z :=
  let t := BaseTier (Complexity req) (PreferStrong req) in
  if (risk.R3 <=? Risk req)%Z && (t <? RiskFloorTier (cfg r))%Z then RiskFloorTier (cfg r) else t.

(** [Router.Route]. *)
Definition Route_ (r : Router) (req : Request) (now : Time) (qm : QM) : result Error Explanation * QM :=
  match validateRequest req with
  | Some e => (Err e, qm)
  | None =>
      let target := targetTier r req in
      let bdec := (λ b, budget.CanAfford b (budget.mkScope (ProjectID req) (TaskID req) (Risk req) budget.ProviderCoding)
                          (estimateForTier r target) true true now) <$> budget_ r in
      let blocked := match bdec with Some d => budget.HardBlocked d | None => false end in
      let '((ex, alts), qm) := rankedAlternatives r req target (AllowIncludedOnly req || blocked) now qm in
      let tryTiers := orderedFallbackTiers target in
      let sel := pick alts tryTiers in
      let notes :=
        (if blocked then ["hard budget exhausted — restricting to subscription-included routes (§23)"] else [])
        ++ match sel with
           | None => ["no eligible route after quota/budget/capability filters"]
           | Some _ => []
           end in
      let '(summary, qm) := match qm with
        | None => ([], None)
        | Some m => let '(s, m) := quota.All now m in (s, Some m)
        end in
      (Ok (mkExplanation (Alt_Route ∘ snd <$> sel) target (Complexity req) (Risk req)
             (markSelected sel alts)
             ex summary bdec
             (Alt_Route ∘ snd <$> omap (firstOfTier alts) tryTiers) notes), qm)
  end.

(** ** Asking the quota manager *)

(** Two managers that answer alike from [now] on. *)
Definition sameAnswers (now : Time) (qm qm' : QM) : Prop :=
  ∀ id, (isAvailable id now qm').1 = (isAvailable id now qm).1.

Lemma sameAnswers_trans now q1 q2 q3 : sameAnswers now q1 q2 → sameAnswers now q2 q3 → sameAnswers now q1 q3.
Proof. intros H1 H2 id. by rewrite H2, H1. Qed.

Lemma isAvailable_Some id now m : (isAvailable id now (Some m)).1 = (quota.IsAvailable id now m).1.
Proof. cbn. by destruct (quota.IsAvailable id now m). Qed.

Lemma sameAnswers_refresh now m id a :
  quota.st m !! id = Some a →
  sameAnswers now (Some m) (Some (quota.setAccount id (quota.refresh (quota.cfg m) now a) m)).
Proof. intros Ha id'. rewrite !isAvailable_Some. by apply quota.IsAvailable_refresh. Qed.

Lemma isAvailable_same id now qm : sameAnswers now qm (isAvailable id now qm).2.
Proof.
  destruct qm as [m|]; [|done]. cbn. unfold quota.IsAvailable.
  destruct (quota.st m !! id) as [a|] eqn:Ha; [|done]. by apply sameAnswers_refresh.
Qed.

Lemma WhyUnavailable_same id now m : sameAnswers now (Some m) (Some (quota.WhyUnavailable id now m).2).
Proof.
  unfold quota.WhyUnavailable. destruct (quota.st m !! id) as [a|] eqn:Ha; [|done].
  by apply sameAnswers_refresh.
Qed.

Lemma Snapshot_same id now m : sameAnswers now (Some m) (Some (quota.Manager_Snapshot id now m).2).
Proof.
  unfold quota.Manager_Snapshot. destruct (quota.st m !! id) as [a|] eqn:Ha; [|done].
  by apply sameAnswers_refresh.
Qed.

(** ** Candidates *)

(** What the code requires of an entry. *)
Record eligible (req : Request) (includedOnly : bool) (now : Time) (qm : QM) (e : CatalogEntry) : Prop := {
  el_enabled : Disabled e = false;
  el_images : NeedsImages req = true → SupportsImages e = true;
  el_context : ¬ (0 < ContextTokens req ∧ 0 < ContextWindow e ∧ ContextWindow e < ContextTokens req)%Z;
  el_included : includedOnly = true → SubscriptionIncluded e = true;
  el_available : (isAvailable (AccountID e) now qm).1 = true }.

Lemma eligible_same req inc now qm qm' e :
  sameAnswers now qm qm' → eligible req inc now qm' e ↔ eligible req inc now qm e.
Proof. intros H. split; intros []; split; try done; [by rewrite <-H|by rewrite H]. Qed.

Lemma excludeReason_spec req inc now e qm :
  ((excludeReason req inc now e qm).1 = None ↔ eligible req inc now qm e) ∧
  sameAnswers now qm (excludeReason req inc now e qm).2.
Proof.
  unfold excludeReason.
  destruct (Disabled e) eqn:H1; [split; [split; [done|intros []; congruence]|done]|].
  destruct (NeedsImages req && negb (SupportsImages e)) eqn:H2.
  { apply andb_prop in H2 as [H2 H2'%negb_true_iff]. split; [|done]. split; [done|]. intros []. naive_solver congruence. }
  destruct ((_ && _) && _) eqn:H3.
  { split; [|done]. split; [done|]. intros []. apply andb_prop in H3 as [[?%Z.ltb_lt ?%Z.ltb_lt]%andb_prop ?%Z.ltb_lt]. tauto. }
  destruct (inc && negb (SubscriptionIncluded e)) eqn:H4.
  { apply andb_prop in H4 as [H4 H4'%negb_true_iff]. split; [|done]. split; [done|]. intros []. naive_solver congruence. }
  assert ((isAvailable (AccountID e) now qm).1 = true → eligible req inc now qm e) as Hel.
  { intros Ha. split; [done| | | |done].
    - intros Hn. rewrite Hn in H2. by destruct (SupportsImages e).
    - intros (?%Z.ltb_lt & Hb%Z.ltb_lt & Hc%Z.ltb_lt). rewrite Hb, Hc in H3. destruct (0 <? ContextTokens req)%Z; done.
    - intros ->. by destruct (SubscriptionIncluded e). }
  pose proof (isAvailable_same (AccountID e) now qm) as Hsame.
  destruct (isAvailable (AccountID e) now qm) as [b qm'] eqn:Ha. cbn in Hel, Hsame. destruct b.
  { split; [|done]. split; [intros _; auto|done]. }
  destruct qm' as [m|].
  - pose proof (WhyUnavailable_same (AccountID e) now m) as Hw.
    destruct (quota.WhyUnavailable (AccountID e) now m) as [why m'].
    split; [|by eapply sameAnswers_trans]. split; [done|]. intros [_ _ _ _ Hav]. by rewrite Ha in Hav.
  - exfalso. destruct qm as [m|]; [|done]. cbn in Ha. by destruct (quota.IsAvailable _ _ _).
Qed.

Lemma scoreEntry_spec r req target t now e qm :
  Entry (scoreEntry r req target t now e qm).1 = e ∧ sameAnswers now qm (scoreEntry r req target t now e qm).2.
Proof.
  unfold scoreEntry. destruct qm as [m|]; [|done].
  pose proof (Snapshot_same (AccountID e) now m) as Hs.
  by destruct (quota.Manager_Snapshot (AccountID e) now m).
Qed.

Lemma scoreAll_spec r req target inc now es qm :
  let '((ex, sc), qm') := scoreAll r req target inc now es qm in
  sameAnswers now qm qm' ∧
  ((λ s, (s.2, Entry s.1)) <$> sc) `sublist_of` es ∧
  (Entry ∘ fst <$> sc) ++ (Ex_Entry <$> ex) ≡ₚ snd <$> es ∧
  (∀ s, s ∈ sc → eligible req inc now qm (Entry s.1)) ∧
  (∀ x, x ∈ ex → ¬ eligible req inc now qm (Ex_Entry x)).
Proof.
  revert qm; induction es as [|[t e] es IH]; intros qm; cbn [scoreAll].
  { split; [done|]. split; [constructor|]. split; [done|]. split; by intros ? ?%not_elem_of_nil. }
  destruct (excludeReason_spec req inc now e qm) as [Hex Hs1].
  destruct (excludeReason req inc now e qm) as [[reason|] qm1]; cbn [fst snd] in *.
  - specialize (IH qm1). destruct (scoreAll r req target inc now es qm1) as [[ex sc] qm2].
    destruct IH as (Hs2 & Hsub & Hp & Hel & Hne). split; [by eapply sameAnswers_trans|].
    split; [by apply sublist_cons|]. split; [cbn; by rewrite <-Permutation_middle, Hp|].
    split; [intros s Hin; by apply (eligible_same _ _ _ _ _ _ Hs1), Hel|].
    intros x [->|Hin]%elem_of_cons.
    + intros He. by apply Hex in He.
    + intros He. apply (Hne x Hin). by apply (eligible_same _ _ _ _ _ _ Hs1).
  - destruct (scoreEntry_spec r req target t now e qm1) as [He Hs2].
    destruct (scoreEntry r req target t now e qm1) as [rt qm2]. cbn [fst snd] in *.
    pose proof (sameAnswers_trans _ _ _ _ Hs1 Hs2) as Hs12.
    specialize (IH qm2). destruct (scoreAll r req target inc now es qm2) as [[ex sc] qm3].
    destruct IH as (Hs3 & Hsub & Hp & Hel & Hne). split; [by eapply sameAnswers_trans|].
    split; [cbn; rewrite He; by constructor|]. split; [cbn; rewrite He; by constructor|].
    split.
    + intros s [->|Hin]%elem_of_cons; [cbn; rewrite He; by apply Hex|].
      by apply (eligible_same _ _ _ _ _ _ Hs12), Hel.
    + intros x Hin He'. apply (Hne x Hin). by apply (eligible_same _ _ _ _ _ _ Hs12).
Qed.

(** ** The theorem *)

Lemma filter_split (c : Catalog) t ts :
  t ∉ ts →
  filter (λ e, negb (Disabled e) && (Tier e =? t)%Z = true) c ++ filter (λ e, Disabled e = false ∧ Tier e ∈ ts) c
  ≡ₚ filter (λ e, Disabled e = false ∧ Tier e ∈ t :: ts) c.
Proof.
  intros Ht. induction c as [|e c IH]; [done|]. rewrite !filter_cons.
  destruct (decide (Disabled e = false)) as [Hd|Hd].
  - rewrite Hd. cbn [negb andb]. destruct (Z.eqb_spec (Tier e) t) as [He|He].
    + rewrite decide_True by done. rewrite decide_False by (rewrite He; tauto).
      rewrite decide_True by (split; [done|rewrite He; constructor]). cbn. by rewrite IH.
    + rewrite decide_False by done. destruct (decide (Tier e ∈ ts)) as [Hin|Hin].
      * rewrite !decide_True by (rewrite ?elem_of_cons; auto). by rewrite <-IH, Permutation_middle.
      * rewrite !decide_False by (rewrite ?elem_of_cons; tauto). done.
  - apply not_false_iff_true in Hd. rewrite Hd. cbn [negb andb].
    rewrite !decide_False by (intros H; first [done|by destruct H]). done.
Qed.

Lemma entries_by_tier (c : Catalog) ts :
  NoDup ts →
  snd <$> mjoin ((λ t, pair t <$> ByTier t c) <$> ts) ≡ₚ filter (λ e, Disabled e = false ∧ Tier e ∈ ts) c.
Proof.
  induction 1 as [|t ts Ht Hnd IH].
  - change (@nil CatalogEntry ≡ₚ filter (λ e, Disabled e = false ∧ Tier e ∈ []) c).
    induction c as [|e c IHc]; [done|]. rewrite filter_cons, decide_False by (intros [_ ?%not_elem_of_nil]; done). done.
  - change (mjoin ((λ t, pair t <$> ByTier t c) <$> t :: ts))
      with ((pair t <$> ByTier t c) ++ mjoin ((λ t, pair t <$> ByTier t c) <$> ts)).
    rewrite fmap_app, IH, <-list_fmap_compose. change (snd ∘ pair t) with (@id CatalogEntry). rewrite list_fmap_id.
    unfold ByTier. rewrite sortStable_Permutation. by apply filter_split.
Qed.

Lemma tieredEntries_tier c t e : (t, e) ∈ tieredEntries c → Tier e = t.
Proof.
  unfold tieredEntries. rewrite list_elem_of_join. intros (l & Hte & (t' & -> & Ht)%list_elem_of_fmap).
  apply list_elem_of_fmap in Hte as (e' & [= -> ->] & He). unfold ByTier in He.
  rewrite sortStable_Permutation in He. apply list_elem_of_filter in He as [He _].
  apply andb_prop in He as [_ ?%Z.eqb_eq]. done.
Qed.

Lemma pick_head alts ts : pick alts ts = head (omap (firstOfTier alts) ts).
Proof. induction ts as [|t ts IH]; [done|]. cbn. by destruct (firstOfTier alts t). Qed.

Lemma firstOfTier_Some alts t p : firstOfTier alts t = Some p → p.2 ∈ alts ∧ Tier (Entry (Alt_Route p.2)) = t.
Proof.
  destruct p as [i a]. intros (Hi & Ht & _)%list_find_Some. split; [by eapply list_elem_of_lookup_2|done].
Qed.

Lemma clearReason_routes i alts : Alt_Route <$> clearReason i alts = Alt_Route <$> alts.
Proof.
  unfold clearReason. apply list_eq. intros j. rewrite !list_lookup_fmap.
  destruct (decide (j = i)) as [->|Hne]; [rewrite list_lookup_alter_eq|by rewrite list_lookup_alter_ne].
  by destruct (alts !! i).
Qed.

(** Whether the decision recorded in an explanation restricts to included routes. *)
Definition restricted (req : Request) (ex : Explanation) : bool :=
  AllowIncludedOnly req || match BudgetDecision ex with Some d => budget.HardBlocked d | None => false end.

Lemma ranked_spec r req target inc now qm :
  let '((ex, alts), qm') := rankedAlternatives r req target inc now qm in
  (Entry ∘ Alt_Route <$> alts) ++ (Ex_Entry <$> ex)
    ≡ₚ filter (λ e, Disabled e = false ∧ Tier e ∈ Tiers) (catalog r) ∧
  (∀ a, a ∈ alts → eligible req inc now qm (Entry (Alt_Route a)) ∧ Tier (Entry (Alt_Route a)) ∈ Tiers) ∧
  (∀ x, x ∈ ex → ¬ eligible req inc now qm (Ex_Entry x)).
Proof.
  unfold rankedAlternatives. pose proof (scoreAll_spec r req target inc now (tieredEntries (catalog r)) qm) as H.
  destruct (scoreAll _ _ _ _ _ _ _) as [[ex sc] qm'].
  destruct H as (_ & Hsub & Hp & Hel & Hne).
  set (alts := match sortStable higherScore sc with [] => _ | _ => _ end).
  assert (Alt_Route <$> alts = fst <$> sortStable higherScore sc) as Hr.
  { unfold alts. destruct (sortStable higherScore sc) as [|b l]; [done|].
    rewrite <-list_fmap_compose. by apply list_fmap_ext. }
  assert (∀ a, a ∈ alts → ∃ s, s ∈ sc ∧ Alt_Route a = s.1) as Hin.
  { intros a Ha. apply (list_elem_of_fmap_2 Alt_Route) in Ha. rewrite Hr in Ha.
    apply list_elem_of_fmap in Ha as (s & Hs & Hin). rewrite sortStable_Permutation in Hin. by exists s. }
  assert (snd <$> tieredEntries (catalog r) ≡ₚ filter (λ e, Disabled e = false ∧ Tier e ∈ Tiers) (catalog r)) as Ht.
  { apply entries_by_tier. apply (bool_decide_unpack _). vm_compute. exact I. }
  split; [|split; [|done]].
  - rewrite <-Ht, <-Hp. apply Permutation_app; [|done].
    rewrite list_fmap_compose, Hr, <-list_fmap_compose. apply fmap_Permutation, sortStable_Permutation.
  - intros a (s & Hs & ->)%Hin. split; [by apply Hel|].
    assert (Entry s.1 ∈ filter (λ e, Disabled e = false ∧ Tier e ∈ Tiers) (catalog r)) as H.
    { rewrite <-Ht, <-Hp, elem_of_app. left. apply list_elem_of_fmap. by exists s. }
    apply list_elem_of_filter in H. tauto.
Qed.

Lemma ordered_all target t : t ∈ Tiers → t ∈ orderedFallbackTiers target.
Proof.
  intros Ht. unfold orderedFallbackTiers. rewrite elem_of_cons, elem_of_app, !list_elem_of_filter, elem_of_reverse.
  destruct (Z.lt_total target t) as [?|[?|?]]; auto.
Qed.

(** routing is sound and explained.  Every enabled entry of the catalog in a
    valid tier is either an alternative or excluded, exactly according to its
    eligibility (capabilities, context, budget restriction, account
    availability); there is a selected route exactly when some entry is
    eligible; it is the head of the fallback chain, which holds one alternative
    for each tier that has one, in the order target, stronger, cheaper; a hard
    budget block leaves only subscription-included routes, and the target tier is
    at least that of the complexity band, and the risk floor for R3 and above. *)
Theorem Route_sound r req now qm ex qm' :
  Route_ r req now qm = (Ok ex, qm') →
  let el := eligible req (restricted req ex) now qm in
  (Entry ∘ Alt_Route <$> Alternatives ex) ++ (Ex_Entry <$> Excluded ex)
    ≡ₚ filter (λ e, Disabled e = false ∧ Tier e ∈ Tiers) (catalog r) ∧
  (∀ a, a ∈ Alternatives ex → el (Entry (Alt_Route a))) ∧
  (∀ x, x ∈ Excluded ex → ¬ el (Ex_Entry x)) ∧
  Selected ex = head (FallbackChain ex) ∧
  (Selected ex = None ↔ Alternatives ex = []) ∧
  (∀ rt, rt ∈ FallbackChain ex → rt ∈ Alt_Route <$> Alternatives ex) ∧
  (Tier ∘ Entry <$> FallbackChain ex) `sublist_of` orderedFallbackTiers (TargetTier ex) ∧
  (∀ a, a ∈ Alternatives ex → ∃ rt, rt ∈ FallbackChain ex ∧ Tier (Entry rt) = Tier (Entry (Alt_Route a))) ∧
  (BaseTier (Complexity req) (PreferStrong req) ≤ TargetTier ex)%Z ∧
  ((risk.R3 ≤ Risk req)%Z → (RiskFloorTier (cfg r) ≤ TargetTier ex)%Z).
Proof.
  unfold Route_. destruct (validateRequest req); [done|].
  set (target := targetTier r req). set (bdec := (λ b, budget.CanAfford b _ _ _ _ _) <$> budget_ r).
  set (blocked := match bdec with Some d => _ | None => _ end).
  pose proof (ranked_spec r req target (AllowIncludedOnly req || blocked) now qm) as Hr.
  destruct (rankedAlternatives _ _ _ _ _ _) as [[exs alts] qm1].
  destruct (match qm1 with Some m => _ | None => _ end) as [summary qm2].
  set (sel := pick alts (orderedFallbackTiers target)). set (alts' := markSelected sel alts).
  set (chain := omap (firstOfTier alts) (orderedFallbackTiers target)).
  assert (sel = head chain) as Hsel by apply pick_head. clearbody sel.
  intros [= <- _].
  destruct Hr as (Hp & Hel & Hne).
  cbn [Alternatives Excluded Selected FallbackChain TargetTier].
  assert (Alt_Route <$> alts' = Alt_Route <$> alts) as Hroutes.
  { unfold alts', markSelected. destruct sel as [[i a]|]; [apply clearReason_routes|done]. }
  assert (∀ a, a ∈ alts' → ∃ b, b ∈ alts ∧ Alt_Route a = Alt_Route b) as Halts.
  { intros a Ha. apply (list_elem_of_fmap_2 Alt_Route) in Ha. rewrite Hroutes in Ha.
    apply list_elem_of_fmap in Ha as (b & Hb & Hin). by exists b. }
  assert (∀ p, p ∈ chain → p.2 ∈ alts) as Hchain.
  { intros p (t & _ & Ht)%list_elem_of_omap. by apply firstOfTier_Some in Ht as [? _]. }
  assert (∀ b, b ∈ alts → ∃ p, p ∈ chain ∧
            Tier (Entry (Alt_Route p.2)) = Tier (Entry (Alt_Route b))) as Hcover.
  { intros b Hb. destruct (firstOfTier alts (Tier (Entry (Alt_Route b)))) as [p|] eqn:Hf.
    - exists p. split; [|by apply firstOfTier_Some in Hf as [_ ?]]. apply list_elem_of_omap.
      eexists. split; [|exact Hf]. by apply ordered_all, Hel.
    - exfalso. apply list_find_None in Hf. rewrite Forall_forall in Hf. by apply (Hf b Hb). }
  split_and!.
  - rewrite list_fmap_compose, Hroutes, <-list_fmap_compose. exact Hp.
  - intros a (b & Hb & ->)%Halts. by apply Hel.
  - exact Hne.
  - rewrite Hsel. by destruct chain.
  - rewrite Hsel. split.
    + destruct chain as [|p l] eqn:E; [|done]. intros _.
      destruct alts' as [|a l]; [done|]. destruct (Halts a) as (b & Hb & _); [constructor|].
      destruct (Hcover b Hb) as (p & Hp' & _). by apply not_elem_of_nil in Hp'.
    + intros Hnil. rewrite Hnil in Hroutes. destruct chain as [|p l] eqn:E; [done|].
      specialize (Hchain p (list_elem_of_here _ _)). destruct alts; [by apply not_elem_of_nil in Hchain|done].
  - intros rt (p & -> & Hp')%list_elem_of_fmap. rewrite Hroutes.
    apply (list_elem_of_fmap_2 Alt_Route alts p.2). by apply Hchain.
  - rewrite <-list_fmap_compose. unfold chain. clear. induction (orderedFallbackTiers target) as [|t ts IH]; [constructor|]. cbn.
    destruct (firstOfTier alts t) as [p|] eqn:E; [|by apply sublist_cons]. cbn.
    apply firstOfTier_Some in E as [_ <-]. by apply sublist_skip.
  - intros a (b & Hb & ->)%Halts. destruct (Hcover b Hb) as (p & Hp' & Ht). exists (Alt_Route p.2).
    split; [|done].
    by apply (list_elem_of_fmap_2 (Alt_Route ∘ snd) chain p).
  - unfold target, targetTier. destruct (_ && _) eqn:E; [|lia]. apply andb_prop in E as [_ ?%Z.ltb_lt]. lia.
  - intros H%Z.leb_le. unfold target, targetTier. rewrite H. cbn [andb]. destruct (Z.ltb_spec
      (BaseTier (Complexity req) (PreferStrong req)) (RiskFloorTier (cfg r))); lia.
Qed.

(** ** Concrete routes *)

Definition entryOf (tier : Z) (engine : string) (price : float) (incl : bool) : CatalogEntry :=
  mkCatalogEntry tier engine "m" "main" price price 0 0 false incl 0 false.
Definition demoCatalog : list CatalogEntry :=
  [entryOf TierTiny "tiny" 0.1%float false; entryOf TierStandard "std" 3%float false;
   entryOf TierStandard "sub" 0%float true; entryOf TierHeavy "heavy" 15%float false].
Definition demoRouter : Router := New (Some demoCatalog) None DefaultScoreConfig.
Definition demoRequest (c r : Z) : Request := mkRequest c r "" "" false 0 "P" "T-1" false false ∅.

Lemma Route_sound_witness :
  ∃ ex qm', Route_ demoRouter (demoRequest C2 risk.R1) 5 (Some (quota.New quota.DefaultConfig)) = (Ok ex, qm') ∧
    Selected ex = head (FallbackChain ex) ∧ Engine <$> (Entry <$> Selected ex) = Some "sub".
Proof.
  destruct (Route_ demoRouter (demoRequest C2 risk.R1) 5 (Some (quota.New quota.DefaultConfig))) as [[ex|e] qm'] eqn:E;
    [|exfalso; vm_compute in E; discriminate].
  exists ex, qm'. split; [reflexivity|]. split.
  - exact (proj1 (proj2 (proj2 (proj2 (Route_sound _ _ _ _ _ _ E))))).
  - vm_compute in E. injection E as <- _. reflexivity.
Defined.

(** The risk floor holds for the target tier only: when no stronger route is
    left, an R4 task is routed to the cheapest tier. *)
Lemma risk_floor_not_enforced :
  let r := New (Some [entryOf TierTiny "tiny" 0.1%float false]) None DefaultScoreConfig in
  match (Route_ r (demoRequest C4 risk.R4) 5 None).1 with
  | Ok ex => TargetTier ex = TierHeavy ∧ Tier <$> (Entry <$> Selected ex) = Some TierTiny
  | Err _ => False
  end.
Proof. vm_compute. done. Qed.
End router.
