(* ===== verification/RepoInfo.v ===== *)
(** * RepoInfo: the repository index and the context packs built from it

    Models [internal/repoinfo] (spec §22): the index of a worktree (index.go,
    search.go), token estimates (tokens.go), context packs (contextpack.go),
    delta repair contexts (deltarepair.go), log slices (logslice.go) and the
    prompt fingerprint (fingerprint.go).  The file system is a tree for the walk
    and a function from paths to contents for the reads after it; SHA-256 is a
    parameter.  [Index.ByPath] holds pointers into the slice [Index.Files]: the
    model keeps the slot each one points to. *)
From S2P Require Import Prelude Text.

Module repoinfo.

(** ** Token estimates *)

Definition isPunct (r : Z) : bool :=
  bool_decide (r ∈ [46; 44; 59; 58; 40; 41; 91; 93; 123; 125; 60; 62; 61; 43; 45; 42; 47; 38; 124; 33; 63; 37; 64; 35;
                    36; 94; 126; 96; 34; 39; 92]%Z).
Definition isCJK (r : Z) : bool :=
  utf8.inRanges utf8.Han r || utf8.inRanges utf8.Hiragana r || utf8.inRanges utf8.Katakana r || utf8.inRanges utf8.Hangul r.

(** One turn of the loop: the tokens so far and whether a word is open. *)
Definition estimateRune (acc : Z * bool) (r : Z) : Z * bool :=
  let '(tokens, inWord) := acc in
  if utf8.IsSpace r then ((if inWord then tokens + 1 else tokens)%Z, false)
  else if isCJK r || isPunct r then ((tokens + 1)%Z, false)
  else (tokens, true).

Definition len (s : string) : Z := Z.of_nat (String.length s).
Definition EstimateTokens (s : string) : Z :=
  if bool_decide (s = "") then 0
  else if (32 * 1024 <? len s)%Z then len s / 4
  else
    let '(tokens, inWord) := foldl estimateRune (0%Z, false) (utf8.runes s) in
    let tokens := (if inWord then tokens + 1 else tokens)%Z in
    if bool_decide (tokens = 0%Z) then len s / 4 else tokens.

(** [readText]: the first [maxLines] lines, all of them when it is not positive. *)
Definition scannerMax : Z := 1024 * 1024.
Definition unlines (l : list string) : string := foldr (λ s acc, text.line s +:+ acc) "" l.
Definition readText (content : option string) (maxLines : Z) : string :=
  match content with
  | None => ""
  | Some s => let l := bufio.ScanLines scannerMax s in
              unlines (if (0 <? maxLines)%Z then take (Z.to_nat maxLines) l else l)
  end.

(** ** The index *)

Inductive SymbolKind := SymFunc | SymMethod | SymType | SymConst | SymVar | SymClass | SymInterface.
Definition SymbolKind_String (k : SymbolKind) : string :=
  match k with
  | SymFunc => "func" | SymMethod => "method" | SymType => "type" | SymConst => "const" | SymVar => "var"
  | SymClass => "class" | SymInterface => "interface"
  end.

Record Symbol := mkSymbol { Sym_Name : string; Kind : SymbolKind; Line : Z }.

Record FileEntry := mkFileEntry {
  Path : string;
  Size : Z;
  Lines : Z;
  Language : string;
  IsTest : bool;
  IsVendor : bool;
  IsGenerated : bool;
  Symbols : list Symbol;
  Imports : list string }.

Record Index := mkIndex {
  Files : list FileEntry;
  ByPath : gmap string nat;  (** the slot of [Files] the pointer points to *)
  Languages : gmap string Z;
  BuildCmds : list string;
  TestCmds : list string;
  LintCmds : list string }.

(** [idx.ByPath[p]]: what the slot holds now. *)
Definition deref (idx : Index) (p : string) : option FileEntry := i ← ByPath idx !! p; Files idx !! i.

Definition isSkipDir (rel : string) : bool :=
  let base := match text.cutLast rel "/" with Some (_, b) => b | None => rel end in
  bool_decide (base ∈ [".git"; ".hg"; ".svn"; "node_modules"; ".next"; ".cache"; "dist"; "build"; "target"]).

Definition languageOf (path : string) : string :=
  let ext := strs.ToLower (filepath.Ext path) in
  let any l := bool_decide (ext ∈ l) in
  if any [".go"] then "go"
  else if any [".js"; ".mjs"; ".cjs"] then "javascript"
  else if any [".ts"; ".tsx"] then "typescript"
  else if any [".jsx"] then "javascript"
  else if any [".py"] then "python"
  else if any [".java"; ".kt"; ".kts"] then "jvm"
  else if any [".rs"] then "rust"
  else if any [".rb"] then "ruby"
  else if any [".cs"] then "csharp"
  else if any [".c"; ".h"] then "c"
  else if any [".cpp"; ".cc"; ".cxx"; ".hpp"] then "cpp"
  else if any [".swift"] then "swift"
  else if any [".md"] then "markdown"
  else if any [".yaml"; ".yml"] then "yaml"
  else if any [".json"] then "json"
  else "".

Definition hasAnySuffix (s : string) (l : list string) : bool := existsb (strs.HasSuffix s) l.
Definition containsAny (s : string) (l : list string) : bool := existsb (strs.Contains s) l.

Definition isTestPath (path : string) : bool :=
  let base := strs.ToLower (filepath.Base path) in
  strs.HasSuffix base "_test.go"
  || hasAnySuffix base [".test.js"; ".spec.js"; ".test.ts"; ".spec.ts"; ".test.tsx"; ".spec.tsx"]
  || strs.HasSuffix base "_test.py" || strs.HasPrefix base "test_"
  || hasAnySuffix base ["test.java"; "tests.java"]
  || strs.HasSuffix base "_test.rb" || strs.HasPrefix base "test_"
  || containsAny path ["/test/"; "/__tests__/"; "/src/test/"; "/tests/"].

Definition isVendorPath (path : string) : bool :=
  bool_decide (path = "vendor") || strs.HasPrefix path "vendor/" || containsAny path ["/vendor/"; "/third_party/"; "/node_modules/"].

Definition isGeneratedPath (path : string) : bool :=
  hasAnySuffix (strs.ToLower (filepath.Base path)) [".pb.go"; ".pb.py"; ".gen.go"; ".generated.go"; "generated.go"].

(** *** Symbols and imports *)

Definition goDeclName (s : string) (stop : ascii) : string :=
  match text.cutByte s stop with
  | Some (x, _) => if bool_decide (x = "") then "" else strs.TrimSpace x
  | None => ""
  end.
Fixpoint untilAny (stops : list ascii) (s : string) : string :=
  match s with
  | EmptyString => EmptyString
  | String c s => if bool_decide (c ∈ stops) then EmptyString else String c (untilAny stops s)
  end.
Definition pyDeclName : string → string := untilAny ["("; " "; ":"]%char.
Definition jsDeclName : string → string := untilAny ["("; " "; "<"; "="]%char.
Definition jvmDeclName (s : string) : string :=
  match text.Fields s with _ :: w :: _ => text.TrimSuffix w "(" | _ => "" end.

(** A declaration keyword in front, the name after it: [None] when it does not
    match or the name is empty, so that the next rule is tried. *)
Definition decl (t keyword : string) (name : string → string) (kind : string → SymbolKind) (line : Z) : option Symbol :=
  if strs.HasPrefix t keyword then
    let rest := strs.drop_bytes (String.length keyword) t in
    if bool_decide (name rest = "") then None else Some (mkSymbol (name rest) (kind rest) line)
  else None.
Definition first {A} (l : list (option A)) : option A :=
  foldr (λ o acc, match o with Some x => Some x | None => acc end) None l.

Definition goFuncName (s : string) : string :=
  if bool_decide (goDeclName s "(" = "") then goDeclName s " " else goDeclName s "(".

Definition matchSymbol (lang t : string) (line : Z) : option Symbol :=
  let always k := λ _ : string, k in
  if bool_decide (lang = "go") then
    first
      [decl t "func " goFuncName (λ s, if strs.HasPrefix s "(" then SymMethod else SymFunc) line;
       decl t "type " (λ s, goDeclName s " ") (λ _, if strs.Contains t "interface" then SymInterface else SymType) line;
       decl t "const " (λ s, goDeclName s " ") (always SymConst) line;
       decl t "var " (λ s, goDeclName s " ") (always SymVar) line]
  else if bool_decide (lang ∈ ["python"; "ruby"]) then
    first [decl t "def " pyDeclName (always SymFunc) line; decl t "class " pyDeclName (always SymClass) line]
  else if bool_decide (lang ∈ ["javascript"; "typescript"]) then
    first [decl t "function " jsDeclName (always SymFunc) line; decl t "class " jsDeclName (always SymClass) line]
  else if bool_decide (lang = "jvm") then
    first [(if strs.HasPrefix t "fun " || strs.HasPrefix t "def " then decl t "" jvmDeclName (always SymFunc) line else None);
           (if strs.HasPrefix t "class " || strs.HasPrefix t "interface " then decl t "" jvmDeclName (always SymClass) line
            else None)]
  else None.

Definition matchImport (lang t : string) : string :=
  if bool_decide (lang = "go") then
    if strs.HasPrefix t ("import " +:+ strs.dquote) then strs.Trim [ascii_of_nat 34] (text.TrimPrefix t "import ") else ""
  else if bool_decide (lang = "python") then
    if strs.HasPrefix t "import " then strs.TrimSpace (text.TrimPrefix t "import ")
    else if strs.HasPrefix t "from " then strs.TrimSpace (text.TrimPrefix t "from ")
    else ""
  else if bool_decide (lang ∈ ["javascript"; "typescript"]) then
    if strs.HasPrefix t "import " then t else ""
  else "".

(** The loop of [scanSource]. *)
Record Scan := mkScan { sc_symbols : list Symbol; sc_imports : list string; sc_seen : gset string; sc_line : Z }.
Definition scanLine (lang : string) (s : Scan) (raw : string) : Scan :=
  let n := (sc_line s + 1)%Z in
  let t := strs.TrimSpace raw in
  let key sym := Sym_Name sym +:+ SymbolKind_String (Kind sym) in
  let s := match matchSymbol lang t n with
           | Some sym => if bool_decide (key sym ∈ sc_seen s) then s
                         else mkScan (sc_symbols s ++ [sym]) (sc_imports s) ({[key sym]} ∪ sc_seen s) (sc_line s)
           | None => s
           end in
  let imp := matchImport lang t in
  mkScan (sc_symbols s) (if bool_decide (imp = "") then sc_imports s else sc_imports s ++ [imp]) (sc_seen s) n.
Definition scanSource (content lang : string) : list Symbol * list string * Z :=
  let s := foldl (scanLine lang) (mkScan [] [] ∅ 0) (bufio.ScanLines scannerMax content) in
  (sc_symbols s, sc_imports s, sc_line s).

Definition fileEntry (rel : string) (size : Z) (content : option string) : FileEntry :=
  let lang := languageOf rel in
  let vendor := isVendorPath rel in
  let generated := isGeneratedPath rel in
  let mk lines symbols imports := mkFileEntry rel size lines lang (isTestPath rel) vendor generated symbols imports in
  if negb (bool_decide (lang = "")) && negb vendor && negb generated && (size <? 256 * 1024)%Z then
    match content with
    | Some s => let '(symbols, imports, lines) := scanSource s lang in mk lines symbols imports
    | None => mk 0%Z [] []
    end
  else mk 0%Z [] [].

(** *** The walk *)

(** What is at a path: a file with its size and, when it can be opened, its
    content; a directory with its entries as [os.ReadDir] lists them, in the
    order of their names, or one that cannot be read. *)
Inductive Node :=
| NFile (size : Z) (content : option string)
| NDir (entries : list (string * Node))
| NDirUnreadable.

Definition MaxRepoFiles : Z := 50000.
Definition child (rel name : string) : string := if bool_decide (rel = ".") then name else rel +:+ "/" +:+ name.

(** [filepath.WalkDir]: the files so far, newest first, and their number;
    [true] when the callback asked to skip the rest of the directory. *)
Abbreviation Walk := (list FileEntry * Z)%type (only parsing).
Fixpoint walk (rel : string) (n : Node) (acc : list FileEntry * Z) : (list FileEntry * Z) * bool :=
  match n with
  | NFile size content =>
      if (MaxRepoFiles <=? acc.2)%Z then (acc, true) else ((fileEntry rel size content :: acc.1, acc.2 + 1)%Z, false)
  | NDirUnreadable => (acc, false)
  | NDir entries =>
      if isSkipDir rel then (acc, false)
      else
        ((fix each (l : list (string * Node)) (acc : list FileEntry * Z) : list FileEntry * Z :=
            match l with
            | [] => acc
            | (name, n) :: l => let '(acc, skip) := walk (child rel name) n acc in if skip then acc else each l acc
            end) entries acc, false)
  end.

Definition hasFile (root : Node) (name : string) : bool :=
  match root with NDir entries => existsb (λ e, bool_decide (e.1 = name)) entries | _ => false end.

Fixpoint dedupFrom (seen : gset string) (l : list string) : list string :=
  match l with
  | [] => []
  | s :: l => if bool_decide (s ∈ seen) then dedupFrom seen l else s :: dedupFrom ({[s]} ∪ seen) l
  end.
Definition dedup (l : list string) : list string := dedupFrom ∅ l.

Definition detectCommands (root : Node) : list string * list string * list string :=
  let has := hasFile root in
  let when (b : bool) l : list string := if b then l else [] in
  let go := has "go.mod" in
  let npm := has "package.json" in
  let cargo := has "Cargo.toml" in
  let gradle := has "build.gradle" || has "build.gradle.kts" in
  let mvn := has "pom.xml" in
  (dedup (when go ["go build ./..."] ++ when npm ["npm run build"] ++ when cargo ["cargo build"]
          ++ when gradle ["./gradlew build"] ++ when mvn ["mvn package"]),
   dedup (when go ["go test ./..."] ++ when npm ["npm test"] ++ when cargo ["cargo test"] ++ when gradle ["./gradlew test"]
          ++ when mvn ["mvn test"] ++ when (has "pyproject.toml" || has "setup.py") ["pytest"]),
   dedup (when (go && has "Makefile") ["make lint"] ++ when npm ["npm run lint"] ++ when cargo ["cargo clippy"])).

Definition lessPath (a b : FileEntry) : bool := negb (bool_decide (String.le (Path b) (Path a))).

(** [Build]: the pointers are taken before the slice is sorted in place. *)
Definition Build (root : Node) : Index :=
  let files := reverse (walk "." root ([], 0%Z)).1.1 in
  let byPath := foldl (λ m '(i, fe), <[Path fe := i]> m) ∅ (imap (λ i fe, (i, fe)) files) in
  let languages := foldl (λ m fe, if bool_decide (Language fe = "") then m
                                  else <[Language fe := (default 0 (m !! Language fe) + 1)%Z]> m) ∅ files in
  let '(build, test, lint) := detectCommands root in
  mkIndex (sortStable lessPath files) byPath languages build test lint.

(** ** Search *)

Record SearchMatch := mkMatch { Match_Path : string; Score : Z; Reasons : list string }.

Definition splitTerms (query : string) : list string :=
  List.filter (λ f, negb (bool_decide (f = "")))
    (strs.Trim [ascii_of_nat 34; "'"; "."; ","; ";"; ":"; "("; ")"; "["; "]"; "{"; "}"]%char <$> text.Fields (strs.ToLower query)).

(** The first hit of a term among the symbols, or the imports. *)
Definition hit (term : string) (l : list string) : option string := List.find (λ s, strs.Contains (strs.ToLower s) term) l.
Definition scoreTerm (fe : FileEntry) (acc : Z * list string) (term : string) : Z * list string :=
  let add n r acc := ((acc.1 + n)%Z, acc.2 ++ [r]) in
  let acc := if strs.Contains (strs.ToLower (Path fe)) term then add 5%Z ("path:" +:+ term) acc else acc in
  let acc := match hit term (Sym_Name <$> Symbols fe) with Some s => add 3%Z ("symbol:" +:+ s) acc | None => acc end in
  match hit term (Imports fe) with Some s => add 1%Z ("import:" +:+ s) acc | None => acc end.
Definition scoreFile (fe : FileEntry) (terms : list string) : Z * list string := foldl (scoreTerm fe) (0%Z, []) terms.

Definition lessMatch (a b : SearchMatch) : bool :=
  if bool_decide (Score a = Score b) then negb (bool_decide (String.le (Match_Path b) (Match_Path a)))
  else (Score b <? Score a)%Z.
Definition limited {A} (limit : Z) (l : list A) : list A := take (Z.to_nat limit) l.

(** The positive scores, best first. *)
Definition ranking (score : FileEntry → Z * list string) (files : list FileEntry) (limit : Z) : list SearchMatch :=
  limited limit (sortStable lessMatch
    (omap (λ fe, let '(n, reasons) := score fe in if (0 <? n)%Z then Some (mkMatch (Path fe) n reasons) else None) files)).

Definition Search (idx : Index) (query : string) (limit : Z) : list SearchMatch :=
  let terms := splitTerms query in
  if bool_decide (terms = []) then []
  else ranking (λ fe, scoreFile fe terms) (Files idx) (if (limit <=? 0)%Z then 25 else limit).

Definition dirOf (path : string) : string := match text.cutLast path "/" with Some (d, _) => d | None => "" end.

Definition relatedScore (paths wantImports : list string) (fe : FileEntry) : Z * list string :=
  if bool_decide (Path fe ∈ paths) then (0%Z, [])
  else
    let acc := if existsb (λ p, bool_decide (dirOf (Path fe) = dirOf p)) paths
               then (4%Z, ["same-dir:" +:+ dirOf (Path fe)]) else (0%Z, []) in
    match List.find (λ imp, bool_decide (imp ∈ wantImports)) (Imports fe) with
    | Some imp => ((acc.1 + 2)%Z, acc.2 ++ ["shared-import:" +:+ imp])
    | None => acc
    end.

Definition RelatedChanges (idx : Index) (paths : list string) (limit : Z) : list SearchMatch :=
  if bool_decide (paths = []) then []
  else
    let wantImports := mjoin ((λ p, match deref idx p with Some fe => Imports fe | None => [] end) <$> paths) in
    ranking (relatedScore paths wantImports) (Files idx) (if (limit <=? 0)%Z then 15 else limit).

(** ** Context packs *)

Record FileSlice := mkFileSlice {
  Slice_Path : string;
  Slice_Language : string;
  Excerpt : string;
  LinesFrom : Z;
  LinesTo : Z;
  FullTokens : Z }.

Record ArtifactLink := mkArtifactLink { Link_Kind : string; Link_Path : string; Note_tokens : Z }.

Record ContextPack := mkPack {
  Specification : string;
  AllowedScope : list string;
  RepoMap : string;
  RelevantFiles : list FileSlice;
  ArchitecturalRules : list string;
  Commands : list string;
  RecentFailures : list string;
  ArtifactLinks : list ArtifactLink;
  EstimatedTokens : Z;
  Budget : Z;
  TrimmedFilesDropped : Z }.

Record PackOptions := mkPackOptions {
  Opt_Specification : string;
  Opt_AllowedScope : list string;
  Opt_QueryTerms : list string;
  Opt_ArchitecturalRules : list string;
  Opt_Commands : list string;
  Opt_RecentFailures : list string;
  Opt_Budget : Z;
  Opt_MaxFiles : Z;
  Opt_ExcerptLines : Z }.

Definition DefaultBudget : Z := 24000.
Definition orDefault (n d : Z) : Z := if (n <=? 0)%Z then d else n.

Definition bullets (l : list string) : string := foldr (λ s acc, text.line ("- " +:+ s) +:+ acc) "" l.
Definition section (title : string) (l : list string) : string :=
  if bool_decide (l = []) then "" else text.line "" +:+ text.line title +:+ bullets l.

Definition coreBlock (p : ContextPack) : string :=
  text.line "## Specification" +:+ text.line (Specification p) +:+ text.line "" +:+ text.line "## Allowed scope"
  +:+ bullets (AllowedScope p)
  +:+ section "## Architectural rules" (ArchitecturalRules p)
  +:+ section "## Commands" (Commands p)
  +:+ section "## Recent failures" (RecentFailures p).

Definition repoMapText (files : list FileEntry) : string :=
  foldr (λ fe acc, text.line (Path fe +:+ (if bool_decide (Language fe = "") then "" else "  [" +:+ Language fe +:+ "]")
                              +:+ (if IsTest fe then " (test)" else "")) +:+ acc) "" files.

Definition lessScored (a b : FileEntry * Z) : bool :=
  if bool_decide (a.2 = b.2) then lessPath a.1 b.1 else (b.2 <? a.2)%Z.

Definition rankRelevant (idx : Index) (o : PackOptions) : list FileEntry :=
  let scores : gmap string Z :=
    foldl (λ m x, <[Match_Path x := Score x]> m) ∅ (Search idx (strs.Join (Opt_QueryTerms o) " ") 0) in
  let scoreOf p := default 0%Z (scores !! p) in
  let inScope fe s := bool_decide (Path fe = s) || strs.HasPrefix (Path fe) (s +:+ "/") in
  let boosted := omap (λ fe, let n := foldl (λ n s, if inScope fe s then (n + 10)%Z else n) (scoreOf (Path fe)) (Opt_AllowedScope o) in
                             if (0 <? n)%Z then Some (fe, n) else None) (Files idx) in
  let related := omap (λ x, fe ← deref idx (Match_Path x);
                            if bool_decide (scoreOf (Path fe) = 0%Z) then Some (fe, Score x) else None)
                   (RelatedChanges idx (Opt_AllowedScope o) 0) in
  (sortStable lessScored (boosted ++ related)).*1.

Definition estimateFullTokens (fe : FileEntry) : Z :=
  if (0 <? Size fe)%Z then Z.quot (Size fe) 4 else (Lines fe * 10)%Z.

(** The loop of [fileSlice]: half the lines until the text fits or ten are left. *)
Fixpoint shrink (fuel : nat) (content : option string) (maxLines budget : Z) (full : string) : Z * string :=
  match fuel with
  | O => (maxLines, full)
  | S fuel =>
      if (budget <? EstimateTokens full)%Z && (10 <? maxLines)%Z
      then shrink fuel content (Z.quot maxLines 2) budget (readText content (Z.quot maxLines 2))
      else (maxLines, full)
  end.

Definition fileSlice (read : string → option string) (fe : FileEntry) (maxLines budget : Z) : FileSlice * Z :=
  let content := read (Path fe) in
  let full := readText content maxLines in
  if bool_decide (full = "") then (mkFileSlice (Path fe) "" "" 0 0 0, 0%Z)
  else
    let '(maxLines, full) := shrink (Z.to_nat maxLines) content maxLines budget full in
    let tokens := EstimateTokens full in
    if (budget <? tokens)%Z then (mkFileSlice (Path fe) "" "" 0 0 (estimateFullTokens fe), 0%Z)
    else (mkFileSlice (Path fe) (Language fe) full 1 (Z.min maxLines (Lines fe)) (estimateFullTokens fe), tokens).

(** The loop of [AssemblePack]: the slices with their tokens so far, the tokens
    left, the files dropped. *)
Record Fill := mkFill { taken : list (FileSlice * Z); left_ : Z; dropped : Z }.
Fixpoint fill (read : string → option string) (excerptLines maxFiles : Z) (candidates : list FileEntry) (f : Fill) : Fill :=
  match candidates with
  | [] => f
  | c :: l =>
      if (maxFiles <=? Z.of_nat (length (taken f)))%Z then f
      else
        let '(slice, tokens) := fileSlice read c excerptLines (left_ f) in
        if (tokens <=? 0)%Z then fill read excerptLines maxFiles l (mkFill (taken f) (left_ f) (dropped f + 1))
        else
          let f := mkFill (taken f ++ [(slice, tokens)]) (left_ f - tokens) (dropped f) in
          if (left_ f <=? EstimateTokens (text.line ""))%Z then f else fill read excerptLines maxFiles l f
  end.

Definition linkOf (s : FileSlice) : ArtifactLink := mkArtifactLink "file" (Slice_Path s) (FullTokens s).
Definition total (l : list (FileSlice * Z)) : Z := foldr (λ x n, (x.2 + n)%Z) 0%Z l.

Definition AssemblePack (idx : Index) (read : string → option string) (o : PackOptions) : ContextPack :=
  let budget := orDefault (Opt_Budget o) DefaultBudget in
  let maxFiles := orDefault (Opt_MaxFiles o) 20 in
  let excerptLines := orDefault (Opt_ExcerptLines o) 120 in
  let pack map files links tokens dropped :=
    mkPack (Opt_Specification o) (Opt_AllowedScope o) map files (Opt_ArchitecturalRules o) (Opt_Commands o)
      (Opt_RecentFailures o) links tokens budget dropped in
  let core := EstimateTokens (coreBlock (pack "" [] [] 0%Z 0%Z)) in
  if (budget <? core)%Z then pack "" [] [] core 0%Z
  else
    let map := repoMapText (Files idx) in
    let fits := (core + EstimateTokens map <=? budget)%Z in
    let start := (if fits then core + EstimateTokens map else core)%Z in
    let candidates := rankRelevant idx o in
    let f := fill read excerptLines maxFiles candidates (mkFill [] (budget - start) 0) in
    pack (if fits then map else "") (taken f).*1 (linkOf <$> (taken f).*1) (start + total (taken f))%Z
      (dropped f + (Z.of_nat (length candidates) - Z.of_nat (length (taken f))))%Z.

(** ** Delta repair contexts *)

Record DeltaRepairContext := mkDelta {
  Finding : string;
  Severity : string;
  Diff : string;
  FailingTest : string;
  FailingTestLog : string;
  ImplicatedFiles : list FileSlice;
  NextObjective : string;
  Delta_EstimatedTokens : Z }.

Record DeltaOptions := mkDeltaOptions {
  Opt_Finding : string;
  Opt_Severity : string;
  Opt_Diff : string;
  Opt_FailingTest : string;
  Opt_FailingTestLog : string;
  ImplicatedPaths : list string;
  Opt_NextObjective : string;
  DeltaOpt_Budget : Z }.

Definition DefaultDeltaBudget : Z := 6000.
Definition fence : string := "```".

Definition delta_coreBlock (d : DeltaRepairContext) : string :=
  text.line "## Finding" +:+ Severity d +:+ ": " +:+ text.line (Finding d) +:+ text.line "" +:+ text.line "## Next objective"
  +:+ NextObjective d
  +:+ (if bool_decide (Diff d = "") then ""
       else text.line "" +:+ text.line "" +:+ text.line "## Current diff" +:+ text.line fence +:+ text.line (Diff d) +:+ text.line fence)
  +:+ (if bool_decide (FailingTest d = "") then "" else text.line "" +:+ text.line "## Failing test" +:+ text.line (FailingTest d))
  +:+ (if bool_decide (FailingTestLog d = "") then "" else text.line "" +:+ text.line "## Test log (sliced)" +:+ FailingTestLog d).

Fixpoint implicated (idx : Index) (read : string → option string) (paths : list string) (remaining : Z) : list (FileSlice * Z) :=
  match paths with
  | [] => []
  | p :: l =>
      match deref idx p with
      | None => implicated idx read l remaining
      | Some fe =>
          let '(slice, tokens) := fileSlice read fe 80 remaining in
          if (tokens <=? 0)%Z then implicated idx read l remaining
          else (slice, tokens) :: (if (remaining - tokens <=? 0)%Z then [] else implicated idx read l (remaining - tokens))
      end
  end.

Definition AssembleDelta (idx : Index) (read : string → option string) (o : DeltaOptions) : DeltaRepairContext :=
  let budget := orDefault (DeltaOpt_Budget o) DefaultDeltaBudget in
  let delta files tokens := mkDelta (Opt_Finding o) (Opt_Severity o) (Opt_Diff o) (Opt_FailingTest o) (Opt_FailingTestLog o)
                              files (Opt_NextObjective o) tokens in
  let core := EstimateTokens (delta_coreBlock (delta [] 0%Z)) in
  if (budget <? core)%Z then delta [] core
  else let l := implicated idx read (ImplicatedPaths o) (budget - core) in delta l.*1 (core + total l)%Z.

Definition delta_Render (d : DeltaRepairContext) : string :=
  delta_coreBlock d
  +:+ foldr (λ s acc, text.line "" +:+ text.line ("## File: " +:+ Slice_Path s) +:+ text.line fence +:+ text.line (Excerpt s)
                       +:+ text.line fence +:+ acc) "" (ImplicatedFiles d).

(** ** Log slices *)

Record LogSlice := mkLogSlice {
  ExitCode : Z;
  FailingCommand : string;
  FirstError : string;
  StackTrace : list string;
  OtherErrors : list string;
  FullLogLink : string;
  Slice_EstimatedTokens : Z }.

Definition MaxLogTokens : Z := 1500.

Definition startsAndThen (s : string) : bool := match s with String c _ => text.isDigit c | EmptyString => false end.
Definition isDiagnosticLine (line : string) : bool :=
  match text.cutByte (strs.TrimSpace line) ":" with
  | None => false
  | Some (before, rest) =>
      negb (bool_decide (before = ""))
      && startsAndThen (match text.cutByte rest ":" with Some (segment, _) => segment | None => rest end)
  end.

Definition isErrorLine (line : string) : bool :=
  let l := strs.ToLower line in
  if containsAny l ["error"; "failed"; "failure"; "panic"; "fatal"; "exception"; "cannot use"; "undefined"; "mismatched";
                    "not used"; "declared and not"; "not enough arguments"; "too many arguments"; "traceback"]
  then negb (containsAny l ["0 error"; "no errors"])
  else isDiagnosticLine line.

Definition isStackTraceLine (line : string) : bool :=
  let t := strs.TrimSpace line in
  let lt := strs.ToLower t in
  negb (bool_decide (t = "")) && negb (bool_decide (line = t))
  && match line with String c _ => bool_decide (c ∈ [" "%char; strs.tab]) | EmptyString => false end
  && (strs.HasPrefix lt "at " || strs.HasPrefix t "..." || strs.HasPrefix t "("
      || containsAny lt [".go:"; ".java:"; ".py"; ".ts:"; ".js:"]).

Definition splitLines (s : string) : list string :=
  if bool_decide (s = "") then []
  else strs.SplitLines (text.ReplaceAll s (String strs.cr (String strs.nl "")) (String strs.nl "")).

(** [itoa] negates a machine integer, so the least one has no digits. *)
Definition itoa (n : Z) : string :=
  if bool_decide (n = 0%Z) then "0"
  else
    let m := if (n <? 0)%Z then text.wrap64 (- n) else n in
    (if (n <? 0)%Z then "-" else "") +:+ (if (0 <? m)%Z then pretty m else "").

Definition log_render (s : LogSlice) : string :=
  let when (b : bool) (t : string) := if b then t else "" in
  when (negb (bool_decide (ExitCode s = 0%Z))) (text.line ("exit: " +:+ itoa (ExitCode s)))
  +:+ when (negb (bool_decide (FailingCommand s = ""))) (text.line ("command: " +:+ FailingCommand s))
  +:+ when (negb (bool_decide (FirstError s = ""))) (text.line ("first error: " +:+ FirstError s))
  +:+ when (negb (bool_decide (StackTrace s = [])))
        (text.line "stack trace:" +:+ unlines ((λ l, "  " +:+ l) <$> StackTrace s))
  +:+ when (negb (bool_decide (OtherErrors s = [])))
        (text.line "other errors (summary):" +:+ unlines ((λ l, "  - " +:+ l) <$> OtherErrors s))
  +:+ when (negb (bool_decide (FullLogLink s = ""))) (text.line ("full log: " +:+ FullLogLink s)).

(** The first error line and the lines after it; all of them when there is none. *)
Fixpoint findError (lines : list string) : option (string * list string) :=
  match lines with
  | [] => None
  | l :: rest => if isErrorLine l then Some (strs.TrimSpace l, rest) else findError rest
  end.
Fixpoint traceFrom (room : nat) (lines : list string) : list string :=
  match room, lines with
  | S room, l :: rest =>
      if isStackTraceLine l then strs.TrimSpace l :: traceFrom room rest
      else if bool_decide (strs.TrimSpace l = "") then traceFrom (S room) rest else []
  | _, _ => []
  end.
Fixpoint othersFrom (room : nat) (seen : list string) (lines : list string) : list string :=
  match room, lines with
  | S room', l :: rest =>
      let l := strs.TrimSpace l in
      if isErrorLine l && negb (bool_decide (l ∈ seen)) then l :: othersFrom room' (l :: seen) rest
      else othersFrom room seen rest
  | _, _ => []
  end.

(** Drop the last element while the slice is over the cap and the list is
    longer than [keep]. *)
Fixpoint dropWhileOver (fuel : nat) (keep : nat) (with_ : list string → LogSlice) (l : list string) : list string :=
  match fuel with
  | O => l
  | S fuel => if (MaxLogTokens <? EstimateTokens (log_render (with_ l)))%Z && (keep <? length l)
              then dropWhileOver fuel keep with_ (removelast l) else l
  end.

Definition SliceLog (raw : string) (exitCode : Z) (failingCommand fullLogLink : string) : LogSlice :=
  let lines := splitLines raw in
  let '(first, rest, trace) := match findError lines with
                               | Some (e, rest) => (e, rest, traceFrom 8 rest)
                               | None => ("", lines, [])
                               end in
  let others := othersFrom 6 [first] rest in
  let slice trace others := mkLogSlice exitCode failingCommand first trace others fullLogLink 0 in
  let others := dropWhileOver (length others) 0 (slice trace) others in
  let trace := dropWhileOver (length trace) 2 (λ t, slice t others) trace in
  mkLogSlice exitCode failingCommand first trace others fullLogLink (EstimateTokens (log_render (slice trace others))).

(** ** Prompt fingerprints *)

Record Fingerprint := mkFingerprint { Hash : string; PartCount : Z; ByteLength : Z }.

Definition separator : string := "---neuroforge-part---".
Definition sortedUnique (l : list string) : list string :=
  sortStrings (dedup (List.filter (λ s, negb (bool_decide (s = ""))) l)).
Definition joinParts (l : list string) : string := foldr (λ p acc, text.line p +:+ text.line separator +:+ acc) "" l.
Definition FingerprintPrompt (sha256 : string → string) (parts : list string) : Fingerprint :=
  let sorted := sortedUnique parts in
  mkFingerprint (sha256 (joinParts sorted)) (Z.of_nat (length sorted)) (len (joinParts sorted)).

Definition StablePrefix (rules commands : list string) (repoMap : string) : string :=
  unlines ((λ r, "RULE: " +:+ r) <$> sortedUnique rules)
  +:+ unlines ((λ c, "CMD: " +:+ c) <$> sortedUnique commands)
  +:+ (if bool_decide (repoMap = "") then "" else text.line "REPO_MAP_BEGIN" +:+ repoMap +:+ text.line "REPO_MAP_END").

Definition IsCacheHit (cached new : Fingerprint) : bool :=
  negb (bool_decide (Hash cached = "")) && bool_decide (Hash cached = Hash new).

(** ** Context packs stay within their budget *)

Lemma len_nonneg s : (0 ≤ len s)%Z.
Proof. unfold len. lia. Qed.

(** The halving loop ends before its fuel: the text fits or ten lines are left. *)
Lemma shrink_spec content budget fuel : ∀ maxLines full maxLines' full',
  (Z.to_nat maxLines ≤ fuel)%nat → full = readText content maxLines →
  shrink fuel content maxLines budget full = (maxLines', full') →
  full' = readText content maxLines' ∧ (maxLines' ≤ maxLines)%Z ∧ (0 < maxLines → 0 < maxLines')%Z ∧
  ((EstimateTokens full' ≤ budget)%Z ∨ (maxLines' ≤ 10)%Z).
Proof.
  induction fuel as [|fuel IH]; intros n full n' full' Hf -> H; cbn [shrink] in H.
  - injection H as <- <-. split; [done|]. split; [lia|]. split; [done|]. right. lia.
  - destruct (_ && _) eqn:E; [|injection H as <- <-; split; [done|]; split; [lia|]; split; [done|]; lia].
    apply andb_true_iff in E as [E1 E2]. apply Z.ltb_lt in E2.
    assert (Z.quot n 2 < n ∧ 0 < Z.quot n 2)%Z as [Hlt Hpos].
    { rewrite Z.quot_div_nonneg by lia. split; [apply Z.div_lt; lia|]. apply Z.div_str_pos. lia. }
    apply IH in H as (-> & Hle & Hp & Hor); [|lia|done]. split; [done|]. split; [lia|]. split; [lia|done].
Qed.

(** An excerpt is a prefix of the file's lines. *)
Definition excerptOf (read : string → option string) (n : Z) (fe : FileEntry) (s : FileSlice) : Prop :=
  Slice_Path s = Path fe ∧
  ∃ content k, read (Path fe) = Some content ∧ (0 < k ≤ n)%Z ∧
    Excerpt s = unlines (take (Z.to_nat k) (bufio.ScanLines scannerMax content)).

Lemma fileSlice_spec read fe n budget s tokens :
  (0 < n)%Z → fileSlice read fe n budget = (s, tokens) → (0 < tokens)%Z →
  tokens = EstimateTokens (Excerpt s) ∧ (tokens ≤ budget)%Z ∧ excerptOf read n fe s.
Proof.
  intros Hn H Ht. unfold fileSlice in H. case_bool_decide as Hfull; [by injection H as <- <-|].
  destruct (shrink _ _ _ _ _) as [n' full'] eqn:Hs.
  apply shrink_spec in Hs as (-> & Hle & Hp & _); [|lia|done].
  destruct (Z.ltb_spec budget (EstimateTokens (readText (read (Path fe)) n'))) as [Hb|Hb]; injection H as <- <-; [lia|].
  cbn [Excerpt]. split; [done|]. split; [done|]. split; [done|].
  destruct (read (Path fe)) as [content|] eqn:Hr; [|by cbn in Hfull].
  exists content, n'. split; [done|]. split; [lia|]. unfold readText.
  destruct (Z.ltb_spec 0 n'); [done|lia].
Qed.

Lemma total_snoc l x : total (l ++ [x]) = (total l + x.2)%Z.
Proof. induction l as [|y l IH]; simpl; [lia|]. rewrite IH. lia. Qed.

(** The loop takes slices of some of the candidates, in their order, and never
    more than was left. *)
Lemma fill_spec read n maxFiles candidates : ∀ f,
  (0 < n)%Z → (0 ≤ left_ f)%Z → (Z.of_nat (length (taken f)) ≤ Z.max 0 maxFiles)%Z →
  let f' := fill read n maxFiles candidates f in
  (Z.of_nat (length (taken f')) ≤ Z.max 0 maxFiles)%Z ∧
  ∃ more, taken f' = taken f ++ more ∧ (left_ f' = left_ f - total more)%Z ∧ (0 ≤ left_ f')%Z ∧
    Forall (λ x, x.2 = EstimateTokens (Excerpt x.1)) more ∧
    ∃ fes, fes `sublist_of` candidates ∧ Forall2 (excerptOf read n) fes (more.*1).
Proof.
  induction candidates as [|c l IH]; intros f Hn Hl Hm; cbn [fill].
  - split; [done|]. exists []. rewrite app_nil_r. simpl. do 2 (split; [done || lia|]). split; [done|]. split; [constructor|].
    exists []. split; [constructor|constructor].
  - destruct (Z.leb_spec maxFiles (Z.of_nat (length (taken f)))) as [Hfull|Hroom].
    { split; [done|]. exists []. rewrite app_nil_r. simpl. do 2 (split; [done || lia|]). split; [done|]. split; [constructor|].
      exists []. split; [apply sublist_nil_l|constructor]. }
    destruct (fileSlice read c n (left_ f)) as [s tokens] eqn:Hs. destruct (Z.leb_spec tokens 0) as [H0|H0].
    { destruct (IH (mkFill (taken f) (left_ f) (dropped f + 1)) Hn Hl Hm) as (H1 & more & ? & ? & ? & ? & fes & ? & ?).
      split; [done|]. exists more. do 4 (split; [done|]). exists fes. split; [by apply sublist_cons|done]. }
    apply fileSlice_spec in Hs as (Ht & Hb & Hx); [|done|done].
    set (f1 := mkFill (taken f ++ [(s, tokens)]) (left_ f - tokens) (dropped f)).
    assert (Z.of_nat (length (taken f1)) ≤ Z.max 0 maxFiles)%Z as Hm1.
    { unfold f1. cbn [taken]. rewrite length_app. simpl. lia. }
    destruct (Z.leb _ _).
    + split; [done|]. exists [(s, tokens)]. unfold f1. simpl. split; [done|]. split; [lia|]. split; [lia|].
      split; [by repeat constructor|]. exists [c]. split; [apply sublist_skip, sublist_nil_l|].
      constructor; [exact Hx|constructor].
    + destruct (IH f1 Hn ltac:(simpl; lia) Hm1) as (H1 & more & He & Hlf & ? & Hf & fes & Hsub & Hall).
      split; [done|]. exists ((s, tokens) :: more). rewrite He. unfold f1 in *. cbn [taken left_] in *.
      rewrite <-app_assoc. split; [done|]. simpl. split; [lia|]. split; [done|]. split; [by constructor|].
      exists (c :: fes). split; [by apply sublist_skip|by constructor].
Qed.

Lemma total_tokens l : Forall (λ x : FileSlice * Z, x.2 = EstimateTokens (Excerpt x.1)) l →
  total l = foldr (λ s n, (EstimateTokens (Excerpt s) + n)%Z) 0%Z l.*1.
Proof. induction 1 as [|x l Hx _ IH]; [done|]. simpl. by rewrite IH, Hx. Qed.

(** C35: a context pack is within its token budget, or it is the core alone and
    says by how much it is over: the specification, scope, rules, commands and
    failures are never trimmed.  The estimate it carries is the sum of the
    estimates of its parts; it takes at most [MaxFiles] files, each once its turn
    comes in the ranking, and of each a prefix of the file's lines, at most
    [ExcerptLines] of them, with a link to the whole file. *)
Theorem AssemblePack_budget idx read o :
  let p := AssemblePack idx read o in
  let tokens l := foldr (λ s n, (EstimateTokens (Excerpt s) + n)%Z) 0%Z l in
  (Specification p = Opt_Specification o ∧ AllowedScope p = Opt_AllowedScope o ∧
   ArchitecturalRules p = Opt_ArchitecturalRules o ∧ Commands p = Opt_Commands o ∧ RecentFailures p = Opt_RecentFailures o) ∧
  (EstimatedTokens p = EstimateTokens (coreBlock p) + EstimateTokens (RepoMap p) + tokens (RelevantFiles p))%Z ∧
  ((EstimatedTokens p ≤ Budget p)%Z ∨ (Budget p < EstimateTokens (coreBlock p))%Z ∧ RepoMap p = "" ∧ RelevantFiles p = []) ∧
  Budget p = orDefault (Opt_Budget o) DefaultBudget ∧
  (Z.of_nat (length (RelevantFiles p)) ≤ orDefault (Opt_MaxFiles o) 20)%Z ∧
  Link_Path <$> ArtifactLinks p = Slice_Path <$> RelevantFiles p ∧
  ∃ fes, fes `sublist_of` rankRelevant idx o ∧
    Forall2 (excerptOf read (orDefault (Opt_ExcerptLines o) 120)) fes (RelevantFiles p).
Proof.
  intros p tokens. unfold p, AssemblePack. set (budget := orDefault (Opt_Budget o) DefaultBudget).
  assert (∀ n d, (0 < d)%Z → (0 < orDefault n d)%Z) as Hpos.
  { intros n d Hd. unfold orDefault. destruct (Z.leb_spec n 0); lia. }
  cbv zeta. set (pack := mkPack _ _ "" [] _ _ _ [] 0 _ 0). set (core := EstimateTokens (coreBlock pack)).
  assert (∀ map files links n d, coreBlock (mkPack (Opt_Specification o) (Opt_AllowedScope o) map files (Opt_ArchitecturalRules o)
    (Opt_Commands o) (Opt_RecentFailures o) links n budget d) = coreBlock pack) as Hcore by done.
  destruct (Z.ltb_spec budget core) as [Hb|Hb]; cbn [Specification AllowedScope ArchitecturalRules Commands RecentFailures
    EstimatedTokens Budget RepoMap RelevantFiles ArtifactLinks]; rewrite Hcore; fold core.
  - split; [done|]. split; [unfold tokens; cbn [foldr]; change (EstimateTokens "") with 0%Z; lia|]. split; [by right|]. split; [done|].
    split; [apply Z.lt_le_incl, Hpos; lia|]. split; [done|]. exists []. split; [apply sublist_nil_l|constructor].
  - set (fits := (_ <=? budget)%Z). set (start := if fits then _ else _).
    assert (start = core + EstimateTokens (if fits then repoMapText (Files idx) else "") ∧ start ≤ budget)%Z as [Hs Hsb].
    { unfold start. destruct fits eqn:E; [apply Z.leb_le in E; lia|]. change (EstimateTokens "") with 0%Z. lia. }
    destruct (fill_spec read (orDefault (Opt_ExcerptLines o) 120) (orDefault (Opt_MaxFiles o) 20) (rankRelevant idx o)
      (mkFill [] (budget - start) 0)) as (Hm & more & He & Hl & Hl0 & Ht & fes & Hsub & Hall);
      [apply Hpos; lia|cbn; lia|cbn; lia|].
    cbn [taken left_ app] in *. rewrite He in *. apply total_tokens in Ht.
    split; [done|]. split; [rewrite Ht in *; unfold tokens; lia|].
    split; [left; lia|]. split; [done|]. split; [rewrite length_fmap; pose proof (Hpos (Opt_MaxFiles o) 20%Z); lia|].
    split; [by rewrite <-list_fmap_compose|]. by exists fes.
Qed.

(** ** Further facts *)

Lemma dedupFrom_spec l : ∀ seen,
  (∀ x, x ∈ dedupFrom seen l ↔ x ∈ l ∧ x ∉ seen) ∧ NoDup (dedupFrom seen l).
Proof.
  induction l as [|y l IH]; intros seen; cbn [dedupFrom].
  - split; [intros x; rewrite elem_of_nil; tauto|constructor].
  - case_bool_decide as Hy.
    + destruct (IH seen) as [H1 H2]. split; [|done]. intros x. rewrite H1, elem_of_cons. set_solver.
    + destruct (IH ({[y]} ∪ seen)) as [H1 H2]. split.
      * intros x. rewrite elem_of_cons, H1, elem_of_cons. destruct (decide (x = y)) as [->|]; set_solver.
      * constructor; [rewrite H1; set_solver|done].
Qed.

(** The fingerprint of a prompt, and its stable prefix, depend on the set of the
    parts only. *)
Lemma sortedUnique_ext l l' : (∀ p, p ≠ "" → p ∈ l ↔ p ∈ l') → sortedUnique l = sortedUnique l'.
Proof.
  intros H. apply sortStrings_proper, NoDup_Permutation; [apply dedupFrom_spec..|].
  intros x. unfold dedup. destruct (dedupFrom_spec (List.filter (λ s, negb (bool_decide (s = ""))) l) ∅) as [-> _].
  destruct (dedupFrom_spec (List.filter (λ s, negb (bool_decide (s = ""))) l') ∅) as [-> _].
  rewrite !list_elem_of_In, !filter_In, <-!list_elem_of_In, !negb_true_iff, !bool_decide_eq_false. specialize (H x). tauto.
Qed.
Lemma FingerprintPrompt_ext sha256 l l' :
  (∀ p, p ≠ "" → p ∈ l ↔ p ∈ l') → FingerprintPrompt sha256 l = FingerprintPrompt sha256 l'.
Proof. intros H. unfold FingerprintPrompt. by rewrite (sortedUnique_ext l l' H). Qed.

(** The walk counts what it takes and stops at the cap, whatever the tree. *)
Definition capped (acc : list FileEntry * Z) : Prop := acc.2 = Z.of_nat (length acc.1) ∧ (acc.2 ≤ MaxRepoFiles)%Z.
Lemma walk_capped : ∀ n rel acc, capped acc → capped (walk rel n acc).1.
Proof.
  fix IH 1. intros [size content|entries|] rel acc H; cbn [walk]; [|destruct (isSkipDir rel); [done|]|done].
  - destruct (Z.leb_spec MaxRepoFiles acc.2); [done|]. destruct H as [H1 H2]. split; cbn [fst snd length]; lia.
  - cbn [fst]. revert acc H. induction entries as [|[name n] l IHl]; intros acc H; [done|].
    specialize (IH n (child rel name) acc H). destruct (walk (child rel name) n acc) as [acc' [|]]; [done|by apply IHl].
Qed.

Lemma Build_capped root : (Z.of_nat (length (Files (Build root))) ≤ MaxRepoFiles)%Z.
Proof.
  unfold Build. destruct (detectCommands root) as [[b t] l]. cbn [Files].
  rewrite sortStable_Permutation, length_reverse. destruct (walk_capped root "." ([], 0%Z)) as [H1 H2]; [by split|lia].
Qed.

(** A log slice is short whatever the log. *)
Lemma removelast_length {A} (l : list A) : length (removelast l) ≤ length l.
Proof. induction l as [|x [|y l] IH]; simpl in *; lia. Qed.
Lemma dropWhileOver_length fuel keep with_ l : length (dropWhileOver fuel keep with_ l) ≤ length l.
Proof.
  revert l; induction fuel as [|fuel IH]; intros l; cbn [dropWhileOver]; [done|]. destruct (_ && _); [|done].
  etrans; [apply IH|apply removelast_length].
Qed.
Lemma traceFrom_length lines : ∀ room, length (traceFrom room lines) ≤ room.
Proof.
  induction lines as [|l lines IH]; intros [|room]; cbn [traceFrom length]; [lia..|].
  destruct (isStackTraceLine l); [simpl; specialize (IH room); lia|]. case_bool_decide; [apply IH|simpl; lia].
Qed.
Lemma othersFrom_length lines : ∀ room seen, length (othersFrom room seen lines) ≤ room.
Proof.
  induction lines as [|l lines IH]; intros [|room] seen; cbn [othersFrom length]; [lia..|].
  destruct (_ && _); [simpl; specialize (IH room (strs.TrimSpace l :: seen)); lia|apply IH].
Qed.
Lemma SliceLog_short raw code cmd link :
  length (StackTrace (SliceLog raw code cmd link)) ≤ 8 ∧ length (OtherErrors (SliceLog raw code cmd link)) ≤ 6.
Proof.
  unfold SliceLog. destruct (match findError _ with Some _ => _ | None => _ end) as [[first rest] trace] eqn:E.
  cbn [StackTrace OtherErrors]. split.
  - etrans; [apply dropWhileOver_length|]. destruct (findError _) as [[e r]|]; injection E as <- <- <-; [apply traceFrom_length|simpl; lia].
  - etrans; [apply dropWhileOver_length|apply othersFrom_length].
Qed.

(** ** A small repository *)

Definition goFile (s : string) : Node := NFile (len s) (Some s).
Definition demoRoot : Node :=
  NDir [("a", NDir [("b.go", goFile (unlines ["package a"; "func B() {"; "}"]))]);
        ("a.go", goFile (unlines ["package main"; "func (s T) Serve() {"; "}"]));
        ("go.mod", goFile (unlines ["module demo"]))].
Definition demoRead (p : string) : option string :=
  if bool_decide (p = "a/b.go") then Some (unlines ["package a"; "func B() {"; "}"])
  else if bool_decide (p = "a.go") then Some (unlines ["package main"; "func (s T) Serve() {"; "}"]) else None.

Example demo_index :
  Path <$> Files (Build demoRoot) = ["a.go"; "a/b.go"; "go.mod"] ∧ BuildCmds (Build demoRoot) = ["go build ./..."] ∧
  Match_Path <$> Search (Build demoRoot) "B" 0 = ["a/b.go"].
Proof. vm_compute. by repeat split. Qed.

Definition demoPack : PackOptions := mkPackOptions "Fix B" [] ["b.go"] [] [] [] 60 6 24.
Example demo_pack :
  let p := AssemblePack (Build demoRoot) demoRead demoPack in
  Slice_Path <$> RelevantFiles p = ["a/b.go"] ∧ EstimatedTokens p = 27%Z ∧ TrimmedFilesDropped p = 0%Z.
Proof. vm_compute. by repeat split. Qed.

(** ** Where the index does less than it says *)

(** [Build] takes the pointers of [ByPath] and then sorts the slice they point
    into.  The walk visits a directory before the files that sort between its name
    and its content ("a/b.go" before "a.go"), so the pointers miss: the repair
    agent is given another file than the implicated one. *)
Lemma pointers_move :
  Path <$> deref (Build demoRoot) "a/b.go" = Some "a.go" ∧
  Slice_Path <$> ImplicatedFiles (AssembleDelta (Build demoRoot) demoRead
                   (mkDeltaOptions "f" "major" "" "" "" ["a/b.go"] "fix" 0)) = ["a.go"].
Proof. vm_compute. by split. Qed.

(** The name of a method is cut at its receiver. *)
Lemma method_names_lost : Sym_Name <$> matchSymbol "go" "func (s T) Serve() {" 2 = Some "(s".
Proof. vm_compute. reflexivity. Qed.

(** The estimate is documented as conservative; a word that ends at punctuation
    is not counted, and a text over 32 KiB is estimated at a quarter of what a
    shorter one is. *)
Lemma estimate_drops_words : EstimateTokens "foo(bar)" = 2%Z ∧ EstimateTokens "()" = 2%Z.
Proof. vm_compute. by split. Qed.
Definition dots (n : Z) : string := Z.iter n (String ".") "".
Lemma longer_text_estimates_less : EstimateTokens (dots 32768) = 32768%Z ∧ EstimateTokens (dots 32769) = 8192%Z.
Proof. vm_compute. by split. Qed.

(** A candidate that does not fit is counted as dropped in the loop and again
    after it. *)
Lemma dropped_counted_twice :
  TrimmedFilesDropped (AssemblePack (Build demoRoot) (λ _, None) demoPack) = 2%Z.
Proof. vm_compute. reflexivity. Qed.

(** A file in the scope of a directory, next to a file of the scope, is ranked as
    both, and is in the pack twice. *)
Definition twoFiles : Node :=
  NDir [("p", NDir [("x.go", goFile (unlines ["package p"])); ("y.go", goFile (unlines ["package p"]))])].
Lemma scope_file_twice :
  Slice_Path <$> RelevantFiles (AssemblePack (Build twoFiles) (λ _, Some (unlines ["package p"]))
    (mkPackOptions "s" ["p"; "p/x.go"] [] [] [] [] 0 0 0)) = ["p/x.go"; "p/y.go"; "p/y.go"].
Proof. vm_compute. reflexivity. Qed.

(** "10 errors" contains the "0 error" of a progress line, and a time of day looks
    like a diagnostic. *)
Lemma ten_errors_ignored : isErrorLine "10 errors found" = false ∧ isErrorLine "12:34:56 started" = true.
Proof. vm_compute. by split. Qed.

(** The slice is documented to stay within [MaxLogTokens]; the first error is
    never cut. *)
Lemma slice_over_cap :
  (MaxLogTokens < Slice_EstimatedTokens (SliceLog ("error " +:+ dots 2000) 1 "make" ""))%Z.
Proof. vm_compute. reflexivity. Qed.

(** A part that contains the separator line: different prompts are hashed as the
    same text. *)
Lemma fingerprint_collides sha256 :
  let parts := ["a"; "b"] in
  let part := text.line "a" +:+ text.line separator +:+ "b" in
  Hash (FingerprintPrompt sha256 parts) = Hash (FingerprintPrompt sha256 [part]).
Proof. vm_compute. reflexivity. Qed.
End repoinfo.
