(* ===== verification/Quality.v ===== *)
(** * Quality: token accounting and quality statistics (spec §6.1, §19.1)

    Models [internal/quality/quality.go] and its durable rows in
    [internal/storage/usage.go].  Both stores are append-only lists behind a
    mutex.  Costs and rates are binary64 numbers; token counts, which the code
    keeps in 64-bit integers, are unbounded.  A day is a day of UTC. *)
From S2P Require Import Prelude Quota Budget Router.
From Stdlib Require Import PrimFloat.

Module quality.

(** ** Usage *)

Inductive UsageKind := UsageCoding | UsageImage | UsageOther (s : string).
#[global] Instance UsageKind_eq_dec : EqDecision UsageKind.
Proof. solve_decision. Defined.
Definition UsageKind_String (k : UsageKind) : string :=
  match k with UsageCoding => "coding" | UsageImage => "image" | UsageOther s => s end.

Record UsageEvent := mkUsageEvent {
  TaskID : string;
  ProjectID : string;
  Provider : string;
  Model : string;
  Kind : UsageKind;
  InputTokens : Z;
  CachedInputTokens : Z;
  OutputTokens : Z;
  Generations : Z;
  CostUSD : float;
  OccurredAt : Time }.

Record Totals := mkTotals {
  CodingInput : Z;
  CachedInput : Z;
  CodingOutput : Z;
  ImageInputTokens : Z;
  ImageOutputTokens : Z;
  ImageGenerations : Z;
  EstimatedCostUSD : float;
  EventCount : Z }.
Definition zeroTotals : Totals := mkTotals 0 0 0 0 0 0 0%float 0.

Definition Totals_Add (t : Totals) (e : UsageEvent) : Totals :=
  let n := (EventCount t + 1)%Z in
  let cost := PrimFloat.add (EstimatedCostUSD t) (CostUSD e) in
  match Kind e with
  | UsageCoding => mkTotals (CodingInput t + InputTokens e) (CachedInput t + CachedInputTokens e)
                     (CodingOutput t + OutputTokens e) (ImageInputTokens t) (ImageOutputTokens t) (ImageGenerations t) cost n
  | UsageImage => mkTotals (CodingInput t) (CachedInput t) (CodingOutput t) (ImageInputTokens t + InputTokens e)
                    (ImageOutputTokens t + OutputTokens e) (ImageGenerations t + Generations e) cost n
  | UsageOther _ => mkTotals (CodingInput t) (CachedInput t) (CodingOutput t) (ImageInputTokens t) (ImageOutputTokens t)
                      (ImageGenerations t) cost n
  end.

(** [Accounting]: the events, oldest first. *)
Definition Accounting := list UsageEvent.
Definition withTime (t : Time) (e : UsageEvent) : UsageEvent :=
  mkUsageEvent (TaskID e) (ProjectID e) (Provider e) (Model e) (Kind e) (InputTokens e) (CachedInputTokens e)
    (OutputTokens e) (Generations e) (CostUSD e) (if time.IsZero (OccurredAt e) then t else OccurredAt e).
Definition Accounting_Record (e : UsageEvent) (now : Time) (a : Accounting) : Accounting := a ++ [withTime now e].
Definition Snapshot (a : Accounting) : Totals := foldl Totals_Add zeroTotals a.

Record Filter := mkFilter { Filter_ProjectID : string; Filter_TaskID : string; Filter_Provider : string; Day : Time }.
Definition dayOf (t : Time) : Z := (t / (86400 * time.Second))%Z.
Definition Filter_match (f : Filter) (e : UsageEvent) : bool :=
  let wants w v := bool_decide (w = "") || bool_decide (v = w) in
  wants (Filter_ProjectID f) (ProjectID e) && wants (Filter_TaskID f) (TaskID e) && wants (Filter_Provider f) (Provider e)
  && (time.IsZero (Day f) || bool_decide (dayOf (OccurredAt e) = dayOf (Day f))).
Definition SnapshotFor (f : Filter) (a : Accounting) : Totals :=
  foldl (λ t e, if negb (Filter_match f e) then t else Totals_Add t e) zeroTotals a.

Definition CacheHitRatio (t : Totals) : float :=
  let total := (CodingInput t + CachedInput t)%Z in
  if bool_decide (total = 0%Z) then 0%float
  else PrimFloat.div (router.float64 (CachedInput t)) (router.float64 total).

(** ** Task outcomes *)

Inductive Outcome := OutcomeSuccess | OutcomeFailure | OutcomeOther (s : string).
#[global] Instance Outcome_eq_dec : EqDecision Outcome.
Proof. solve_decision. Defined.

Record TaskOutcome := mkTaskOutcome {
  Out_TaskID : string;
  Out_ProjectID : string;
  Out_Engine : string;
  Out_Model : string;
  Out_RouteTier : string;
  Out_Outcome : Outcome;
  Complexity : string;
  Risk : string;
  RepairIterations : Z;
  Findings : Z;
  BlockerFindings : Z;
  TestPassRate : float;
  VisualScore : float;
  TokensUsed : Z;
  Out_CostUSD : float;
  DurationSec : float;
  Out_OccurredAt : Time }.

Record Stats := mkStats {
  Engine : string;
  Stats_Model : string;
  RouteTier : string;
  Attempts : Z;
  Successes : Z;
  Failures : Z;
  AvgRepair : float;
  AvgFindings : float;
  SuccessRate : float }.

Definition Statistics := list TaskOutcome.
Definition Statistics_Record (o : TaskOutcome) (now : Time) (s : Statistics) : Statistics :=
  s ++ [mkTaskOutcome (Out_TaskID o) (Out_ProjectID o) (Out_Engine o) (Out_Model o) (Out_RouteTier o) (Out_Outcome o)
          (Complexity o) (Risk o) (RepairIterations o) (Findings o) (BlockerFindings o) (TestPassRate o) (VisualScore o)
          (TokensUsed o) (Out_CostUSD o) (DurationSec o)
          (if time.IsZero (Out_OccurredAt o) then now else Out_OccurredAt o)].

(** The loop of [aggregate]: the groups with their keys, in the order they were
    first seen.  The averages hold sums until the end. *)
Definition isSuccess (o : TaskOutcome) : bool := bool_decide (Out_Outcome o = OutcomeSuccess).
Definition addOutcome (o : TaskOutcome) (st : Stats) : Stats :=
  mkStats (Engine st) (Stats_Model st) (RouteTier st) (Attempts st + 1)
    (Successes st + (if isSuccess o then 1 else 0)) (Failures st + (if isSuccess o then 0 else 1))
    (PrimFloat.add (AvgRepair st) (router.float64 (RepairIterations o)))
    (PrimFloat.add (AvgFindings st) (router.float64 (Findings o))) (SuccessRate st).
Definition newGroup (o : TaskOutcome) : Stats :=
  mkStats (Out_Engine o) (Out_Model o) (Out_RouteTier o) 0 0 0 0%float 0%float 0%float.
Fixpoint addTo (k : string) (o : TaskOutcome) (groups : list (string * Stats)) : list (string * Stats) :=
  match groups with
  | [] => [(k, addOutcome o (newGroup o))]
  | (k', st) :: groups => if bool_decide (k' = k) then (k', addOutcome o st) :: groups else (k', st) :: addTo k o groups
  end.
Definition finish (st : Stats) : Stats :=
  if (0 <? Attempts st)%Z then
    let n := router.float64 (Attempts st) in
    mkStats (Engine st) (Stats_Model st) (RouteTier st) (Attempts st) (Successes st) (Failures st)
      (PrimFloat.div (AvgRepair st) n) (PrimFloat.div (AvgFindings st) n) (PrimFloat.div (router.float64 (Successes st)) n)
  else st.
Definition modelKey (engine model : string) : string := engine +:+ "/" +:+ model.
Definition lessStats (a b : Stats) : bool :=
  negb (bool_decide (String.le (modelKey (Engine b) (Stats_Model b)) (modelKey (Engine a) (Stats_Model a)))).
Definition groupsOf (key : TaskOutcome → string) (s : Statistics) : list (string * Stats) :=
  foldl (λ g o, addTo (key o) o g) [] s.
Definition aggregate (key : TaskOutcome → string) (s : Statistics) : list Stats :=
  sortStable lessStats ((λ g, finish g.2) <$> groupsOf key s).

Definition SuccessRateByModel : Statistics → list Stats := aggregate (λ o, modelKey (Out_Engine o) (Out_Model o)).
Definition SuccessRateByEngine : Statistics → list Stats := aggregate Out_Engine.
Definition SuccessRateByRoute : Statistics → list Stats := aggregate Out_RouteTier.
Definition OverallSuccessRate (s : Statistics) : float :=
  if bool_decide (s = []) then 0%float
  else PrimFloat.div (router.float64 (Z.of_nat (length (List.filter isSuccess s)))) (router.float64 (Z.of_nat (length s))).

(** ** The durable rows *)

Record UsageEventRow := mkUsageEventRow { Row_ID : Z; row : UsageEvent }.

(** [AUTOINCREMENT] hands out ids in order; the rows are in the order of their ids. *)
Definition RecordUsageEvent (e : UsageEvent) (now : Time) (rows : list UsageEventRow) : list UsageEventRow :=
  rows ++ [mkUsageEventRow (Z.of_nat (length rows) + 1) (withTime now e)].

Record UsageFilter := mkUsageFilter { UF_ProjectID : string; UF_TaskID : string; UF_Provider : string; Limit : Z }.
Definition ListUsageEvents (f : UsageFilter) (rows : list UsageEventRow) : list UsageEventRow :=
  take (Z.to_nat (if (Limit f <=? 0)%Z then 10000 else Limit f))
    (List.filter (λ r, Filter_match (mkFilter (UF_ProjectID f) (UF_TaskID f) (UF_Provider f) 0) (row r)) rows).
Definition CountUsageEvents (rows : list UsageEventRow) : Z := Z.of_nat (length rows).

(** ** Facts *)

(** A filtered snapshot is the snapshot of the matching events. *)
Lemma SnapshotFor_filter f a : SnapshotFor f a = Snapshot (List.filter (Filter_match f) a).
Proof.
  unfold SnapshotFor, Snapshot. generalize zeroTotals. induction a as [|e a IH]; intros t; [done|].
  cbn [foldl List.filter]. rewrite IH. by destruct (Filter_match f e).
Qed.

(** The totals are those of the parts. *)
Definition sumOf (f : UsageEvent → Z) (a : Accounting) : Z := foldr (λ e n, (f e + n)%Z) 0%Z a.
Definition ofKind (k : UsageKind) (a : Accounting) : Accounting := List.filter (λ e, bool_decide (Kind e = k)) a.
Lemma Snapshot_from a : ∀ t,
  let t' := foldl Totals_Add t a in
  CodingInput t' = (CodingInput t + sumOf InputTokens (ofKind UsageCoding a))%Z ∧
  CachedInput t' = (CachedInput t + sumOf CachedInputTokens (ofKind UsageCoding a))%Z ∧
  CodingOutput t' = (CodingOutput t + sumOf OutputTokens (ofKind UsageCoding a))%Z ∧
  ImageGenerations t' = (ImageGenerations t + sumOf Generations (ofKind UsageImage a))%Z ∧
  EventCount t' = (EventCount t + Z.of_nat (length a))%Z.
Proof.
  induction a as [|e a IH]; intros t; [simpl; repeat split; lia|]. cbn [foldl]. cbv zeta.
  destruct (IH (Totals_Add t e)) as (-> & -> & -> & -> & ->).
  unfold ofKind, Totals_Add, sumOf. cbn [List.filter].
  destruct (Kind e) as [| |k]; simpl; repeat split; lia.
Qed.

(** The groups partition the outcomes: each key once, and of each group the
    attempts and successes with that key. *)
Definition grouped (key : TaskOutcome → string) (s : Statistics) (g : list (string * Stats)) : Prop :=
  NoDup g.*1 ∧ (∀ k, k ∈ g.*1 ↔ k ∈ key <$> s) ∧
  ∀ k st, (k, st) ∈ g →
    let mine := List.filter (λ o, bool_decide (key o = k)) s in
    Attempts st = Z.of_nat (length mine) ∧ Successes st = Z.of_nat (length (List.filter isSuccess mine)) ∧
    (Failures st + Successes st = Attempts st)%Z.

Lemma addTo_keys k o g : (addTo k o g).*1 = if bool_decide (k ∈ g.*1) then g.*1 else g.*1 ++ [k].
Proof.
  induction g as [|[k' st] g IH]; [done|]. cbn [addTo]. rewrite fmap_cons. cbn [fst]. destruct (decide (k' = k)) as [->|E].
  - rewrite !bool_decide_true by set_solver. done.
  - rewrite bool_decide_false by done. rewrite fmap_cons, IH. cbn [fst]. repeat case_bool_decide; try done; set_solver.
Qed.
Lemma addTo_elem k o g k' st : NoDup g.*1 → (k', st) ∈ addTo k o g →
  (k' ≠ k ∧ (k', st) ∈ g) ∨
  (k' = k ∧ ((∃ st0, (k, st0) ∈ g ∧ st = addOutcome o st0) ∨ (k ∉ g.*1 ∧ st = addOutcome o (newGroup o)))).
Proof.
  induction g as [|[k0 st0] g IH]; intros Hnd H.
  - cbn in H. apply elem_of_cons in H as [H|H]; [|by apply elem_of_nil in H]. injection H as -> ->. right. split; [done|].
    right. split; [by apply not_elem_of_nil|done].
  - cbn [addTo] in H. cbn [fmap list_fmap fst] in Hnd. apply NoDup_cons in Hnd as [Hn Hnd].
    case_bool_decide as E; apply elem_of_cons in H as [H|H].
    + injection H as -> ->. subst. right. split; [done|]. left. exists st0. split; [constructor|done].
    + left. subst. split; [|by constructor]. intros ->. apply Hn. by apply (list_elem_of_fmap_2 fst) in H.
    + injection H as -> ->. left. split; [done|constructor].
    + destruct (IH Hnd H) as [[H1 H2]|(H1 & [(s & H2 & H3)|[H2 H3]])].
      * left. split; [done|by constructor].
      * right. split; [done|]. left. exists s. split; [by constructor|done].
      * right. split; [done|]. right. split; [|done]. cbn [fmap list_fmap fst]. rewrite elem_of_cons. intros [->|]; done.
Qed.

Lemma no_group (key : TaskOutcome → string) k s : k ∉ key <$> s → List.filter (λ o : TaskOutcome, bool_decide (key o = k)) s = [].
Proof.
  induction s as [|o s IH]; [done|]. rewrite fmap_cons, not_elem_of_cons. intros [Hne Hs]. cbn [List.filter].
  rewrite bool_decide_false by (intros <-; by apply Hne). by apply IH.
Qed.

Lemma groupsOf_spec key s : grouped key s (groupsOf key s).
Proof.
  induction s as [|o s (Hnd & Hk & Hc)] using rev_ind.
  - split; [constructor|]. split; [done|]. intros k st H. by apply elem_of_nil in H.
  - unfold groupsOf. rewrite foldl_app. cbn [foldl]. fold (groupsOf key s). split; [|split].
    + rewrite addTo_keys. case_bool_decide; [done|]. apply NoDup_app. split; [done|]. split; [set_solver|].
      by apply NoDup_singleton.
    + intros k. rewrite addTo_keys, fmap_app, elem_of_app, <-Hk. cbn. case_bool_decide; set_solver.
    + intros k st H. cbv zeta. rewrite !List.filter_app, !length_app. cbn [List.filter].
      apply addTo_elem in H as [[Hne H]|(-> & [(st0 & H & ->)|[H ->]])]; [..|done].
      * destruct (Hc k st H) as (-> & -> & ?). rewrite bool_decide_false by done. simpl. lia.
      * destruct (Hc _ st0 H) as (H1 & H2 & H3). rewrite bool_decide_true by done. cbn. rewrite H1, H2 in *.
        destruct (isSuccess o); simpl; lia.
      * rewrite bool_decide_true by done. rewrite Hk in H.
        rewrite (no_group key (key o) s) by done.
        cbn. destruct (isSuccess o); simpl; lia.
Qed.

(** The key of a model joins engine and model with a slash, which either may
    contain: different models are counted as one. *)
Lemma model_keys_collide :
  let o engine model := mkTaskOutcome "t" "p" engine model "STANDARD" OutcomeSuccess "" "" 0 0 0 0%float 0%float 0 0%float 0%float 1 in
  (λ st, (Engine st, Stats_Model st, Attempts st)) <$> SuccessRateByModel [o "a/b" "c"; o "a" "b/c"] = [("a/b", "c", 2%Z)].
Proof. vm_compute. reflexivity. Qed.
End quality.
