(* ===== verification/Memory.v ===== *)
(** * Memory: the structured project memory (spec §22.9)

    Models [internal/memory/memory.go] and the durable rows of
    [internal/storage/memory.go], [postmerge.go].  The in-process store is a map
    from the joined key to the record; a Go map that is walked is sorted or
    counted afterwards.  [LearnMemory] reads and then writes without a
    transaction, so it is a program of two statements. *)
From S2P Require Import Prelude Process.

Module memory.
Import process.

Inductive Category :=
| CatArchitectureFact | CatBuildCommand | CatDesignSystemRule | CatKnownFailure | CatAcceptedDecision | CatProviderQuirk
| CatOther (s : string).
#[global] Instance Category_eq_dec : EqDecision Category.
Proof. solve_decision. Defined.
Definition Category_String (c : Category) : string :=
  match c with
  | CatArchitectureFact => "architecture_fact" | CatBuildCommand => "build_command"
  | CatDesignSystemRule => "design_system_rule" | CatKnownFailure => "known_failure"
  | CatAcceptedDecision => "accepted_decision" | CatProviderQuirk => "provider_quirk"
  | CatOther s => s
  end.
(** [memory.Category(s)]. *)
Definition categories : list Category :=
  [CatArchitectureFact; CatBuildCommand; CatDesignSystemRule; CatKnownFailure; CatAcceptedDecision; CatProviderQuirk].
Definition toCategory (s : string) : Category :=
  default (CatOther s) (List.find (λ c, bool_decide (Category_String c = s)) categories).
Definition Category_IsValid (c : Category) : bool := match c with CatOther _ => false | _ => true end.

Inductive Confidence := ConfidenceHigh | ConfidenceMedium | ConfidenceLow | ConfidenceUnverified | ConfidenceOther (s : string).
#[global] Instance Confidence_eq_dec : EqDecision Confidence.
Proof. solve_decision. Defined.
Definition Confidence_String (c : Confidence) : string :=
  match c with
  | ConfidenceHigh => "high" | ConfidenceMedium => "medium" | ConfidenceLow => "low" | ConfidenceUnverified => "unverified"
  | ConfidenceOther s => s
  end.
Definition toConfidence (s : string) : Confidence :=
  default (ConfidenceOther s)
    (List.find (λ c, bool_decide (Confidence_String c = s)) [ConfidenceHigh; ConfidenceMedium; ConfidenceLow; ConfidenceUnverified]).

Inductive ExpirationPolicy := ExpPermanent | ExpOnCommitChange | ExpTTL | ExpOther (s : string).
#[global] Instance ExpirationPolicy_eq_dec : EqDecision ExpirationPolicy.
Proof. solve_decision. Defined.

Record Record_ := mkRecord {
  Key : string;
  Category_ : Category;
  Value : string;
  Source : string;
  Confidence_ : Confidence;
  Scope : string;
  CommitSHA : string;
  Expiration : ExpirationPolicy;
  ExpiresAt : Time;
  LearnedAt : Time;
  Version : Z }.

Definition IsExpired (r : Record_) (now : Time) : bool :=
  match Expiration r with
  | ExpTTL => negb (time.IsZero (ExpiresAt r)) && time.After now (ExpiresAt r)
  | _ => false
  end.

(** ** The in-process store *)

Abbreviation Store := (gmap string Record_) (only parsing).
Definition NewStore : Store := ∅.
Inductive Error := ErrInvalidCategory | ErrEmptyKey.

Definition keyFor (cat : Category) (k : string) : string := Category_String cat +:+ "::" +:+ k.

(** [Learn]; a zero confidence or policy takes its default. *)
Definition learned (r : Record_) (version : Z) (now : Time) : Record_ :=
  mkRecord (Key r) (Category_ r) (Value r) (Source r)
    (if bool_decide (Confidence_ r = ConfidenceOther "") then ConfidenceMedium else Confidence_ r) (Scope r) (CommitSHA r)
    (if bool_decide (Expiration r = ExpOther "") then ExpPermanent else Expiration r) (ExpiresAt r) now version.
Definition Learn (r : Record_) (now : Time) (s : Store) : result Error Record_ * Store :=
  if negb (Category_IsValid (Category_ r)) then (Err ErrInvalidCategory, s)
  else if bool_decide (Key r = "") then (Err ErrEmptyKey, s)
  else
    let k := keyFor (Category_ r) (Key r) in
    let r := learned r (match s !! k with Some old => Version old | None => 0 end + 1)%Z now in
    (Ok r, <[k := r]> s).

Definition Get (cat : Category) (k : string) (s : Store) : option Record_ := s !! keyFor cat k.

Definition lessRecord (a b : Record_) : bool :=
  let ca := Category_String (Category_ a) in
  let cb := Category_String (Category_ b) in
  if bool_decide (ca = cb) then negb (bool_decide (String.le (Key b) (Key a))) else negb (bool_decide (String.le cb ca)).
Definition All (now : Time) (s : Store) : list Record_ :=
  sortStable lessRecord (List.filter (λ r, negb (IsExpired r now)) (map_to_list s).*2).
Definition ByCategory (cat : Category) (now : Time) (s : Store) : list Record_ :=
  List.filter (λ r, bool_decide (Category_ r = cat)) (All now s).

Definition Forget (cat : Category) (k : string) (s : Store) : bool * Store :=
  (bool_decide (is_Some (s !! keyFor cat k)), delete (keyFor cat k) s).
(** Deleting while ranging: the records that satisfy [p] go, and are counted. *)
Definition removeAll (p : Record_ → bool) (s : Store) : Z * Store :=
  let rest := filter (λ kr, p kr.2 = false) s in (Z.of_nat (size s) - Z.of_nat (size rest), rest)%Z.
Definition ForgetCategory (cat : Category) : Store → Z * Store := removeAll (λ r, bool_decide (Category_ r = cat)).
Definition isStale (head : string) (now : Time) (r : Record_) : bool :=
  IsExpired r now
  || (bool_decide (Expiration r = ExpOnCommitChange) && negb (bool_decide (CommitSHA r = "")) && negb (bool_decide (CommitSHA r = head))).
Definition PruneStale (head : string) (now : Time) : Store → Z * Store := removeAll (isStale head now).

Definition isRule (r : Record_) : bool :=
  bool_decide (Confidence_ r = ConfidenceHigh)
  && bool_decide (Category_ r ∈ [CatArchitectureFact; CatDesignSystemRule; CatAcceptedDecision]).
Definition HighConfidenceRules (now : Time) (s : Store) : list string := Value <$> List.filter isRule (All now s).
Definition KnownFailures (now : Time) (s : Store) : list string := Value <$> ByCategory CatKnownFailure now s.

(** ** The durable rows *)

Record MemoryRow := mkMemoryRow {
  Row_ID : Z;
  Row_ProjectID : string;
  Row_Category : string;
  Row_Key : string;
  Row_Value : string;
  Row_Source : string;
  Row_Confidence : string;
  Row_Scope : string;
  Row_CommitSHA : string;
  Row_Expiration : string;
  Row_ExpiresAt : string;
  Row_LearnedAt : Time;
  Row_Version : Z }.

Inductive RowError := ErrRequired | ErrUnique.
Definition keyed (r r' : MemoryRow) : bool :=
  bool_decide (Row_ProjectID r' = Row_ProjectID r) && bool_decide (Row_Category r' = Row_Category r)
  && bool_decide (Row_Key r' = Row_Key r).
(** The row with the defaults, a version and the id of the row it becomes. *)
Definition storedAs (id version : Z) (now : Time) (r : MemoryRow) : MemoryRow :=
  let orElse a d := if bool_decide (a = "") then d else a in
  mkMemoryRow id (Row_ProjectID r) (Row_Category r) (Row_Key r) (Row_Value r) (Row_Source r)
    (orElse (Row_Confidence r) "medium") (Row_Scope r) (Row_CommitSHA r) (orElse (Row_Expiration r) "permanent") (Row_ExpiresAt r)
    (if time.IsZero (Row_LearnedAt r) then now else Row_LearnedAt r) version.

Definition updateMemory (r : MemoryRow) (version : Z) (now : Time) (rows : list MemoryRow) : list MemoryRow :=
  (λ r', if keyed r r' then storedAs (Row_ID r') version now r else r') <$> rows.
Definition insertMemory (r : MemoryRow) (now : Time) (rows : list MemoryRow) : result RowError (list MemoryRow) :=
  if existsb (keyed r) rows then Err ErrUnique else Ok (rows ++ [storedAs (Z.of_nat (length rows) + 1) 1 now r]).

(** [LearnMemory]: the version is read by one statement and written by another. *)
Definition LearnMemory (r : MemoryRow) (now : Time) : proc (list MemoryRow) RowError MemoryRow :=
  if bool_decide (Row_ProjectID r = "") || bool_decide (Row_Category r = "") || bool_decide (Row_Key r = "") then Throw ErrRequired
  else
    old ← read (List.find (keyed r));
    match old with
    | Some old =>
        let version := (Row_Version old + 1)%Z in
        _ ← atomic (λ rows, ((), updateMemory r version now rows));
        mret (storedAs (Row_ID r) version now r)
    | None =>
        _ ← attempt_ (λ rows, match insertMemory r now rows with Ok rows' => (Ok (), rows') | Err e => (Err e, rows) end);
        mret (storedAs (Row_ID r) 1 now r)
    end.

Definition lessRow (a b : MemoryRow) : bool :=
  if bool_decide (Row_Category a = Row_Category b) then negb (bool_decide (String.le (Row_Key b) (Row_Key a)))
  else negb (bool_decide (String.le (Row_Category b) (Row_Category a))).
Definition ListMemory (projectID : string) (rows : list MemoryRow) : list MemoryRow :=
  sortStable lessRow (List.filter (λ r, bool_decide (Row_ProjectID r = projectID)) rows).

(** ** Post-merge rows *)

Record PostMergeCheckRow := mkPostMergeCheckRow {
  PM_ID : Z;
  PM_TaskID : string;
  PM_CommitSHA : string;
  PM_BaseBranch : string;
  PM_Decision : string;
  PM_AllPassed : bool;
  PM_Reverted : bool;
  PM_RevertSHA : string;
  PM_OccurredAt : Time }.
Definition RecordPostMergeCheck (r : PostMergeCheckRow) (now : Time) (rows : list PostMergeCheckRow) : list PostMergeCheckRow :=
  rows ++ [mkPostMergeCheckRow (Z.of_nat (length rows) + 1) (PM_TaskID r) (PM_CommitSHA r) (PM_BaseBranch r) (PM_Decision r)
             (PM_AllPassed r) (PM_Reverted r) (PM_RevertSHA r)
             (if time.IsZero (PM_OccurredAt r) then now else PM_OccurredAt r)].
Definition ListPostMergeChecks (taskID : string) (rows : list PostMergeCheckRow) : list PostMergeCheckRow :=
  List.filter (λ r, bool_decide (PM_TaskID r = taskID)) rows.

(** ** The store keeps one record per category and key *)

Lemma keyFor_inj c c' k k' :
  Category_IsValid c = true → Category_IsValid c' = true → keyFor c k = keyFor c' k' → c = c' ∧ k = k'.
Proof. intros Hc Hc' H. destruct c, c'; try done; cbn in H; by simplify_eq. Qed.

Definition store_ok (s : Store) : Prop :=
  map_Forall (λ k r, k = keyFor (Category_ r) (Key r) ∧ Category_IsValid (Category_ r) = true ∧ Key r ≠ "" ∧ (0 < Version r)%Z) s.

Lemma Learn_ok r now s : store_ok s → store_ok (Learn r now s).2.
Proof.
  intros Hs. unfold Learn. destruct (Category_IsValid (Category_ r)) eqn:E; [|done]. case_bool_decide; [done|]. cbn [negb snd].
  apply map_Forall_insert_2; [|done]. cbn. split; [done|]. split; [done|]. split; [done|].
  destruct (s !! _) as [old|] eqn:Ho; [|done]. apply Hs in Ho. lia.
Qed.

(** A learned fact is the one that is read back, one version on; every other
    fact is as before. *)
Lemma Learn_Get r now s r' s' : Learn r now s = (Ok r', s') →
  Get (Category_ r) (Key r) s' = Some r' ∧ Value r' = Value r ∧
  Version r' = (match Get (Category_ r) (Key r) s with Some old => Version old | None => 0 end + 1)%Z ∧
  (∀ c k, Category_IsValid c = true → (c, k) ≠ (Category_ r, Key r) → Get c k s' = Get c k s).
Proof.
  unfold Learn, Get. destruct (Category_IsValid (Category_ r)) eqn:E; [|done]. case_bool_decide as Hk; [done|].
  intros [= <- <-]. split; [by rewrite lookup_insert_eq|]. split; [done|]. split; [done|].
  intros c k Hc Hne. apply lookup_insert_ne. intros H. apply keyFor_inj in H as [Hc1 Hk1]; [|done..].
  apply Hne. by rewrite Hc1, Hk1.
Qed.

(** ** The durable rows keep one row per project, category and key *)

Definition rowKey (r : MemoryRow) : string * string * string := (Row_ProjectID r, Row_Category r, Row_Key r).
Definition rows_ok (rows : list MemoryRow) : Prop := NoDup (rowKey <$> rows).

Lemma keyed_iff r r' : keyed r r' = true ↔ rowKey r' = rowKey r.
Proof.
  unfold keyed, rowKey. rewrite !andb_true_iff, !bool_decide_eq_true. split; [by intros [[-> ->] ->]|by intros [= -> -> ->]].
Qed.
Lemma find_keyed rows r old : rows_ok rows → List.find (keyed r) rows = Some old → ∀ r', r' ∈ rows → keyed r r' = true → r' = old.
Proof.
  intros Hok Hf r' Hin Hk. apply find_some in Hf as [Hin' Hk']. apply list_elem_of_In in Hin'.
  apply keyed_iff in Hk, Hk'. unfold rows_ok in Hok. rewrite <-Hk' in Hk.
  apply list_elem_of_lookup in Hin as [i Hi], Hin' as [j Hj].
  assert (i = j) as ->; [|congruence].
  eapply NoDup_lookup; [exact Hok|..]; rewrite list_lookup_fmap; [by rewrite Hi|by rewrite Hj; cbn; rewrite Hk].
Qed.
Lemma updateMemory_keys r version now rows : rowKey <$> updateMemory r version now rows = rowKey <$> rows.
Proof.
  unfold updateMemory. rewrite <-list_fmap_compose. apply list_fmap_ext. intros _ r' _. cbn.
  destruct (keyed r r') eqn:E; [|done]. apply keyed_iff in E. by rewrite E.
Qed.

(** Alone, [LearnMemory] succeeds on a full key: the row of the key carries the
    value and the next version, every other row is as it was. *)
Lemma LearnMemory_spec r now rows : rows_ok rows → Row_ProjectID r ≠ "" → Row_Category r ≠ "" → Row_Key r ≠ "" →
  ∃ rows', run (LearnMemory r now) rows =
      (Ok (storedAs (Row_ID r) (match List.find (keyed r) rows with Some old => Row_Version old | None => 0 end + 1) now r), rows') ∧
    rows_ok rows' ∧
    ∀ r', r' ∈ rows' ↔
      (keyed r r' = false ∧ r' ∈ rows) ∨
      match List.find (keyed r) rows with
      | Some old => r' = storedAs (Row_ID old) (Row_Version old + 1) now r
      | None => r' = storedAs (Z.of_nat (length rows) + 1) 1 now r
      end.
Proof.
  intros Hok Hp Hc Hk. unfold LearnMemory. rewrite !bool_decide_false by done. cbn [orb].
  rewrite run_bind. cbn [run read atomic]. destruct (List.find (keyed r) rows) as [old|] eqn:Hf.
  - rewrite run_bind. cbn [run atomic]. eexists. split; [reflexivity|]. split.
    { unfold rows_ok. by rewrite updateMemory_keys. }
    intros r'. unfold updateMemory. rewrite list_elem_of_fmap. split.
    + intros (r0 & -> & Hin). destruct (keyed r r0) eqn:E; [|by left]. right. by rewrite (find_keyed rows r old Hok Hf r0 Hin E).
    + intros [(Hk' & Hin)|Hr].
      * exists r'. by rewrite Hk'.
      * subst r'. apply find_some in Hf as [Hin Hk']. exists old. rewrite Hk'. split; [done|by apply list_elem_of_In].
  - assert (existsb (keyed r) rows = false) as He.
    { apply existsb_elem_false. intros x Hx. eapply find_none; [exact Hf|by apply list_elem_of_In]. }
    rewrite run_bind, run_attempt. unfold insertMemory. rewrite He. cbn [run]. eexists. split; [reflexivity|]. split.
    + unfold rows_ok. rewrite fmap_app. apply NoDup_app. split; [done|]. split; [|by apply NoDup_singleton].
      intros x Hx Hx'. apply list_elem_of_singleton in Hx'. subst x. apply list_elem_of_fmap in Hx as (r0 & Hr0 & Hin).
      assert (keyed r r0 = true) as Hkr by (apply keyed_iff; by rewrite <-Hr0).
      by rewrite (proj1 (existsb_elem_false _ _) He r0 Hin) in Hkr.
    + intros r'. rewrite elem_of_app, list_elem_of_singleton. split; [|tauto]. intros [Hin|]; [left|by right].
      split; [|done]. by apply (proj1 (existsb_elem_false _ _) He).
Qed.

(** ** Where the rows lose a fact *)

Definition demoRow (key value : string) : MemoryRow := mkMemoryRow 0 "p" "known_failure" key value "cli" "high" "" "" "" "" 0 0.

(** Two connections learn the same new fact: the second insert violates the
    unique constraint, although learning a known fact is meant to update it. *)
Lemma first_learn_races :
  let c := schedule [0; 1; 0; 1] (mkConfig [LearnMemory (demoRow "k" "a") 1; LearnMemory (demoRow "k" "b") 2] []) in
  threads c = [Ret (storedAs 0 1 1 (demoRow "k" "a")); Throw ErrUnique] ∧ Row_Value <$> state c = ["a"].
Proof. vm_compute. by split. Qed.

(** Two connections update it: both write the same version. *)
Lemma concurrent_learns_share_version :
  let c := schedule [0; 1; 0; 1] (mkConfig [LearnMemory (demoRow "k" "a") 1; LearnMemory (demoRow "k" "b") 2] [storedAs 1 1 0 (demoRow "k" "o")]) in
  (λ r, (Row_Value r, Row_Version r)) <$> state c = [("b", 2%Z)] ∧
  (λ p, match p with Ret r => Row_Version r | _ => 0%Z end) <$> threads c = [2%Z; 2%Z].
Proof. vm_compute. by split. Qed.
End memory.
