(* ===== verification/Specification.v ===== *)
(** * Specification: the compiled task specification and its durable store

    Models [internal/task/specification.go] over the tables of
    [internal/storage/specifications.go].  Every store operation is one SQLite
    transaction; the [payload] column is kept structured where the code keeps
    its JSON text, [locked_at] is [None] where the column is empty, and times
    are instants.  The last part is the per-task keyed mutex of
    [SaveIfChanged], as a step relation over any number of callers. *)
From S2P Require Import Prelude AuditTrail.

Module specification.

(** ** The domain model *)

(** [type Risk string] and [type Complexity string]. *)
Abbreviation Risk := string (only parsing).
Definition RiskR0 : Risk := "R0".
Definition RiskR1 : Risk := "R1".
Definition RiskR2 : Risk := "R2".
Definition RiskR3 : Risk := "R3".
Definition RiskR4 : Risk := "R4".
Definition Risk_IsValid (r : Risk) : bool := bool_decide (r ∈ [""; RiskR0; RiskR1; RiskR2; RiskR3; RiskR4]).

Abbreviation Complexity := string (only parsing).
Definition ComplexityC0 : Complexity := "C0".
Definition ComplexityC1 : Complexity := "C1".
Definition ComplexityC2 : Complexity := "C2".
Definition ComplexityC3 : Complexity := "C3".
Definition Complexity_IsValid (c : Complexity) : bool :=
  bool_decide (c ∈ [""; ComplexityC0; ComplexityC1; ComplexityC2; ComplexityC3]).

Record AcceptanceCriterion := mkAC { ID : string; Statement : string }.
#[global] Instance AcceptanceCriterion_eq_dec : EqDecision AcceptanceCriterion.
Proof. solve_decision. Defined.

Record VisualRequirements := mkVisualRequirements {
  Required : bool;
  Viewport : string;
  Theme : string;
  Locale : string;
  Density : string;
  References : list string }.
#[global] Instance VisualRequirements_eq_dec : EqDecision VisualRequirements.
Proof. solve_decision. Defined.
Definition noVisual : VisualRequirements := mkVisualRequirements false "" "" "" "" [].

(** The JSON column of a row. *)
Record specPayload := mkPayload {
  Payload_NonGoals : list string;
  Payload_Assumptions : list string;
  Payload_Constraints : list string;
  Payload_ProposedScope : list string;
  Payload_VisualRequirements : VisualRequirements }.

Record Specification := mkSpecification {
  TaskID : string;
  Version : Z;
  Objective : string;
  AcceptanceCriteria : list AcceptanceCriterion;
  NonGoals : list string;
  Assumptions : list string;
  Constraints : list string;
  Spec_Risk : Risk;
  Spec_Complexity : Complexity;
  ProposedScope : list string;
  Spec_VisualRequirements : VisualRequirements;
  Locked : bool;
  LockedAt : Time;
  LockedBy : string;
  CreatedAt : Time;
  CreatedBy : string }.

(** ** Validation *)

Definition isBlank (c : ascii) : bool :=
  let n := nat_of_ascii c in (n =? 32) || (n =? 9) || (n =? 10) || (n =? 13).

(** The two loops of [trim]. *)
Fixpoint trimLeft (s : string) : string :=
  match s with
  | EmptyString => EmptyString
  | String c s' => if isBlank c then trimLeft s' else s
  end.
Fixpoint trimRight (s : string) : string :=
  match s with
  | EmptyString => EmptyString
  | String c s' =>
      match trimRight s' with
      | EmptyString => if isBlank c then EmptyString else String c EmptyString
      | r => String c r
      end
  end.
Definition trim (s : string) : string := trimRight (trimLeft s).

(** The violations an [ErrInvalidSpecification] joins. *)
Inductive Violation :=
| TaskIDRequired
| ObjectiveRequired
| CriteriaRequired
| CriterionNoID (n : nat)
| DuplicateCriterion (id : string)
| CriterionNoStatement (id : string)
| UnknownRisk (r : Risk)
| UnknownComplexity (c : Complexity).
#[global] Instance Violation_eq_dec : EqDecision Violation.
Proof. solve_decision. Defined.

Definition when (b : bool) (v : Violation) : list Violation := if b then [v] else [].

(** The loop over the criteria, from index [i], [seen] the ids so far. *)
Fixpoint checkCriteria (i : nat) (seen : gset string) (acs : list AcceptanceCriterion) : list Violation :=
  match acs with
  | [] => []
  | ac :: acs =>
      let id := trim (ID ac) in
      if bool_decide (id = "") then CriterionNoID (S i) :: checkCriteria (S i) seen acs
      else when (bool_decide (id ∈ seen)) (DuplicateCriterion id)
        ++ when (bool_decide (trim (Statement ac) = "")) (CriterionNoStatement id)
        ++ checkCriteria (S i) ({[id]} ∪ seen) acs
  end.

Definition trimCriterion (ac : AcceptanceCriterion) : AcceptanceCriterion :=
  mkAC (trim (ID ac)) (trim (Statement ac)).

Definition withContent (objective : string) (acs : list AcceptanceCriterion) (s : Specification) : Specification :=
  mkSpecification (TaskID s) (Version s) objective acs (NonGoals s) (Assumptions s) (Constraints s)
    (Spec_Risk s) (Spec_Complexity s) (ProposedScope s) (Spec_VisualRequirements s)
    (Locked s) (LockedAt s) (LockedBy s) (CreatedAt s) (CreatedBy s).

Definition violations (s : Specification) : list Violation :=
  when (bool_decide (TaskID s = "")) TaskIDRequired
  ++ when (bool_decide (trim (Objective s) = "")) ObjectiveRequired
  ++ when (bool_decide (AcceptanceCriteria s = [])) CriteriaRequired
  ++ checkCriteria 0 ∅ (AcceptanceCriteria s)
  ++ when (negb (Risk_IsValid (Spec_Risk s))) (UnknownRisk (Spec_Risk s))
  ++ when (negb (Complexity_IsValid (Spec_Complexity s))) (UnknownComplexity (Spec_Complexity s)).

(** [ValidateSpecification]; on an error the code also returns its argument. *)
Definition ValidateSpecification (s : Specification) : result (list Violation) Specification :=
  match violations s with
  | [] => Ok (withContent (trim (Objective s)) (trimCriterion <$> AcceptanceCriteria s) s)
  | vs => Err vs
  end.

(** ** Semantic equality *)

Definition stringSliceEqual (a b : list string) : bool :=
  (length a =? length b) && forallb (λ ab : string * string, bool_decide (ab.1 = ab.2)) (zip a b).

Definition visualRequirementsEqual (a b : VisualRequirements) : bool :=
  bool_decide (Required a = Required b) && bool_decide (Viewport a = Viewport b)
  && bool_decide (Theme a = Theme b) && bool_decide (Locale a = Locale b)
  && bool_decide (Density a = Density b) && stringSliceEqual (References a) (References b).

Definition specificationsSemanticallyEqual (a b : Specification) : bool :=
  bool_decide (Objective a = Objective b)
  && bool_decide (Spec_Risk a = Spec_Risk b) && bool_decide (Spec_Complexity a = Spec_Complexity b)
  && stringSliceEqual (NonGoals a) (NonGoals b) && stringSliceEqual (Assumptions a) (Assumptions b)
  && stringSliceEqual (Constraints a) (Constraints b) && stringSliceEqual (ProposedScope a) (ProposedScope b)
  && visualRequirementsEqual (Spec_VisualRequirements a) (Spec_VisualRequirements b)
  && (length (AcceptanceCriteria a) =? length (AcceptanceCriteria b))
  && forallb (λ ab : AcceptanceCriterion * AcceptanceCriterion, bool_decide (ab.1 = ab.2))
       (zip (AcceptanceCriteria a) (AcceptanceCriteria b)).

(** ** The tables of the storage layer *)

Record SpecificationRow := mkRow {
  Row_TaskID : string;
  Row_Version : Z;
  Row_Objective : string;
  Row_Risk : string;
  Row_Complexity : string;
  Row_Payload : specPayload;
  Row_Locked : bool;
  Row_LockedAt : option Time;
  Row_LockedBy : string;
  Row_CreatedAt : Time;
  Row_CreatedBy : string }.

Record AcceptanceCriterionRow := mkACRow {
  AC_TaskID : string;
  AC_Version : Z;
  AC_ID : string;
  AC_Statement : string;
  AC_Ordinal : nat }.

Record DB := mkDB {
  tasks : list string;
  specifications : list SpecificationRow;
  criteria : list AcceptanceCriterionRow;
  sequences : gmap string Z;
  trail : audit.Trail }.

Inductive Error :=
| ErrInvalidSpecification (vs : list Violation)
| ErrSpecificationLocked
| ErrSpecificationNotFound
| ErrRequired (what : string)
| ErrForeignKey
| ErrUnique
| ErrCorrupt (v : Z)
| ErrAudit (e : string).

Definition isRow (task : string) (version : Z) (r : SpecificationRow) : bool :=
  bool_decide (Row_TaskID r = task) && bool_decide (Row_Version r = version).
Definition isACRow (task : string) (version : Z) (a : AcceptanceCriterionRow) : bool :=
  bool_decide (AC_TaskID a = task) && bool_decide (AC_Version a = version).

(** The [UPDATE] of a draft: its lock columns stay. *)
Definition replaceRow (row r : SpecificationRow) : SpecificationRow :=
  mkRow (Row_TaskID r) (Row_Version r) (Row_Objective row) (Row_Risk row) (Row_Complexity row)
    (Row_Payload row) (Row_Locked r) (Row_LockedAt r) (Row_LockedBy r) (Row_CreatedAt row) (Row_CreatedBy row).

(** The [INSERT]: not locked. *)
Definition freshRow (row : SpecificationRow) : SpecificationRow :=
  mkRow (Row_TaskID row) (Row_Version row) (Row_Objective row) (Row_Risk row) (Row_Complexity row)
    (Row_Payload row) false None "" (Row_CreatedAt row) (Row_CreatedBy row).

(** The [INSERT] loop over the criteria. *)
Fixpoint insertCriteria (task : string) (version : Z) (acs : list AcceptanceCriterionRow)
    (t : list AcceptanceCriterionRow) : result Error (list AcceptanceCriterionRow) :=
  match acs with
  | [] => Ok t
  | ac :: acs =>
      if bool_decide (AC_ID ac = "") then Err (ErrRequired "acceptance criterion id")
      else if existsb (λ a, isACRow task version a && bool_decide (AC_ID a = AC_ID ac)) t then Err ErrUnique
      else insertCriteria task version acs
             (t ++ [mkACRow task version (AC_ID ac) (AC_Statement ac) (AC_Ordinal ac)])
  end.

(** [Tx.SaveSpecification]. *)
Definition SaveSpecification (row : SpecificationRow) (acs : list AcceptanceCriterionRow) (d : DB) :
    result Error DB :=
  let task := Row_TaskID row in let version := Row_Version row in
  if bool_decide (task = "") then Err (ErrRequired "task_id")
  else if (version <? 1)%Z then Err (ErrRequired "version must be >= 1")
  else
    specs' ← match List.find (isRow task version) (specifications d) with
             | Some r =>
                 if Row_Locked r then Err ErrSpecificationLocked
                 else Ok ((λ r, if isRow task version r then replaceRow row r else r) <$> specifications d)
             | None =>
                 if bool_decide (task ∈ tasks d) then Ok (specifications d ++ [freshRow row])
                 else Err ErrForeignKey
             end;
    crit ← insertCriteria task version acs
             (filter (λ a, isACRow task version a = false) (criteria d));
    Ok (mkDB (tasks d) specs' crit (sequences d) (trail d)).

(** [ORDER BY ordinal ASC, ac_id ASC]. *)
Definition lessACRow (a b : AcceptanceCriterionRow) : bool :=
  (AC_Ordinal a <? AC_Ordinal b)
  || ((AC_Ordinal a =? AC_Ordinal b) && negb (String.leb (AC_ID b) (AC_ID a))).

Definition listAcceptanceCriteria (task : string) (version : Z) (d : DB) : list AcceptanceCriterionRow :=
  sortStable lessACRow (filter (λ a, isACRow task version a = true) (criteria d)).

Definition GetSpecification (task : string) (version : Z) (d : DB) :
    result Error (SpecificationRow * list AcceptanceCriterionRow) :=
  match List.find (isRow task version) (specifications d) with
  | None => Err ErrSpecificationNotFound
  | Some r => Ok (r, listAcceptanceCriteria task version d)
  end.

(** [SELECT version ... WHERE task_id = ?]. *)
Definition versionsOf (task : string) (d : DB) : list Z :=
  Row_Version <$> filter (λ r, Row_TaskID r = task) (specifications d).

Definition GetLatestSpecification (task : string) (d : DB) :
    result Error (SpecificationRow * list AcceptanceCriterionRow) :=
  let version := foldr Z.max 0%Z (versionsOf task d) in
  if (version =? 0)%Z then Err ErrSpecificationNotFound else GetSpecification task version d.

Definition ListSpecificationVersions (task : string) (d : DB) : list Z :=
  sortStable Z.ltb (versionsOf task d).

Definition lockRow (now : Time) (by_ : string) (r : SpecificationRow) : SpecificationRow :=
  mkRow (Row_TaskID r) (Row_Version r) (Row_Objective r) (Row_Risk r) (Row_Complexity r) (Row_Payload r)
    true (match Row_LockedAt r with None => Some now | at_ => at_ end)
    (if bool_decide (Row_LockedBy r = "") then by_ else Row_LockedBy r)
    (Row_CreatedAt r) (Row_CreatedBy r).

(** [Tx.LockSpecification]. *)
Definition LockSpecification (task : string) (version : Z) (by_ : string) (now : Time) (d : DB) :
    result Error DB :=
  if existsb (isRow task version) (specifications d)
  then Ok (mkDB (tasks d) ((λ r, if isRow task version r then lockRow now by_ r else r) <$> specifications d)
             (criteria d) (sequences d) (trail d))
  else Err ErrSpecificationNotFound.

(** [Tx.NextSpecificationVersion]: the UPSERT and its read back. *)
Definition NextSpecificationVersion (task : string) (d : DB) : result Error (Z * DB) :=
  if bool_decide (task = "") then Err (ErrRequired "task id is required for specification version")
  else if negb (bool_decide (task ∈ tasks d)) then Err ErrForeignKey
  else
    let v := match sequences d !! task with None => 1 | Some n => n + 1 end%Z in
    if (v <=? 0)%Z then Err (ErrCorrupt v)
    else Ok (v, mkDB (tasks d) (specifications d) (criteria d) (<[task := v]> (sequences d)) (trail d)).

(** ** The store service *)

(** [SpecificationStore]: an audit recorder, or none. *)
Record SpecificationStore := mkStore { audit_ : option audit.Recorder }.

Definition recordTx (s : SpecificationStore) (ev : audit.Event) (d : DB) : result Error DB :=
  match audit_ s with
  | None => Ok d
  | Some rec =>
      match audit.Record_ rec ev (trail d) with
      | (Ok _, t) => Ok (mkDB (tasks d) (specifications d) (criteria d) (sequences d) t)
      | (Err e, _) => Err (ErrAudit e)
      end
  end.

Definition encodePayload (s : Specification) : specPayload :=
  mkPayload (NonGoals s) (Assumptions s) (Constraints s) (ProposedScope s) (Spec_VisualRequirements s).

Definition lessAC (a b : AcceptanceCriterion) : bool := negb (String.leb (ID b) (ID a)).

Definition acRows (s : Specification) : list AcceptanceCriterionRow :=
  imap (λ i ac, mkACRow (TaskID s) (Version s) (ID ac) (Statement ac) i)
    (sortStable lessAC (AcceptanceCriteria s)).

Definition rowToSpec (r : SpecificationRow) (acs : list AcceptanceCriterionRow) : Specification :=
  let p := Row_Payload r in
  mkSpecification (Row_TaskID r) (Row_Version r) (Row_Objective r)
    ((λ a, mkAC (AC_ID a) (AC_Statement a)) <$> acs)
    (Payload_NonGoals p) (Payload_Assumptions p) (Payload_Constraints p) (Row_Risk r) (Row_Complexity r)
    (Payload_ProposedScope p) (Payload_VisualRequirements p)
    (Row_Locked r) (default 0%Z (Row_LockedAt r)) (Row_LockedBy r) (Row_CreatedAt r) (Row_CreatedBy r).

Definition withVersion (v : Z) (s : Specification) : Specification :=
  mkSpecification (TaskID s) v (Objective s) (AcceptanceCriteria s) (NonGoals s) (Assumptions s) (Constraints s)
    (Spec_Risk s) (Spec_Complexity s) (ProposedScope s) (Spec_VisualRequirements s)
    (Locked s) (LockedAt s) (LockedBy s) (CreatedAt s) (CreatedBy s).
Definition withCreatedAt (t : Time) (s : Specification) : Specification :=
  mkSpecification (TaskID s) (Version s) (Objective s) (AcceptanceCriteria s) (NonGoals s) (Assumptions s)
    (Constraints s) (Spec_Risk s) (Spec_Complexity s) (ProposedScope s) (Spec_VisualRequirements s)
    (Locked s) (LockedAt s) (LockedBy s) t (CreatedBy s).

(** The row [Save] hands to storage; the lock columns are not its business. *)
Definition rowOf (s : Specification) (now : Time) : SpecificationRow :=
  mkRow (TaskID s) (Version s) (Objective s) (Spec_Risk s) (Spec_Complexity s) (encodePayload s)
    false None "" now (CreatedBy s).

(** The version reservation of [Save]. *)
Definition reserveVersion (s : Specification) (d : DB) : result Error (Specification * DB) :=
  if (Version s =? 0)%Z
  then '(v, d) ← NextSpecificationVersion (TaskID s) d; Ok (withVersion v s, d)
  else Ok (s, d).

Definition Save (st : SpecificationStore) (now : Time) (s : Specification) (d : DB) :
    result Error (Specification * DB) :=
  match ValidateSpecification s with
  | Err vs => Err (ErrInvalidSpecification vs)
  | Ok s =>
      '(s, d) ← reserveVersion s d;
      d ← SaveSpecification (rowOf s now) (acRows s) d;
      d ← recordTx st (audit.mkEvent "task.specification.saved" audit.ScopeTask (TaskID s) audit.ActorUser
            (Some (audit.Payload [("version", audit.VInt (Version s));
                                  ("objective", audit.VString (Objective s));
                                  ("acceptance_criteria", audit.VInt (Z.of_nat (length (AcceptanceCriteria s))));
                                  ("risk", audit.VString (Spec_Risk s));
                                  ("complexity", audit.VString (Spec_Complexity s))])) 0) d;
      Ok (withCreatedAt now s, d)
  end.

Definition Get (task : string) (version : Z) (d : DB) : result Error Specification :=
  '(r, acs) ← GetSpecification task version d; Ok (rowToSpec r acs).

Definition GetLatest (task : string) (d : DB) : result Error Specification :=
  '(r, acs) ← GetLatestSpecification task d; Ok (rowToSpec r acs).

Definition ListVersions (task : string) (d : DB) : list Z := ListSpecificationVersions task d.

Definition Lock (st : SpecificationStore) (now : Time) (task : string) (version : Z) (by_ : string) (d : DB) :
    result Error (Specification * DB) :=
  d ← LockSpecification task version by_ now d;
  d ← recordTx st (audit.mkEvent "task.specification.locked" audit.ScopeTask task audit.ActorUser
        (Some (audit.Payload [("version", audit.VInt version); ("by", audit.VString by_)])) 0) d;
  s ← Get task version d;
  Ok (s, d).

(** What [SaveIfChanged] decides from the latest version it read: keep that one,
    or save this one, or fail. *)
Inductive Decision_ := Keep (latest : Specification) | Mint (s : Specification) | Fail_ (e : Error).

Definition decideSave (s : Specification) (latest : result Error Specification) : Decision_ :=
  match latest with
  | Ok l => if specificationsSemanticallyEqual s l then Keep l else Mint (withVersion 0 s)
  | Err ErrSpecificationNotFound => Mint s
  | Err e => Fail_ e
  end.

(** [SaveIfChanged] with nobody in between. *)
Definition SaveIfChanged (st : SpecificationStore) (now : Time) (s : Specification) (d : DB) :
    result Error (Specification * bool * DB) :=
  match decideSave s (GetLatest (TaskID s) d) with
  | Keep l => Ok (l, false, d)
  | Mint s => '(s, d) ← Save st now s d; Ok (s, true, d)
  | Fail_ e => Err e
  end.

(** A caller's operation; a failed one rolls back. *)
Inductive Op :=
| OpSave (now : Time) (s : Specification)
| OpSaveIfChanged (now : Time) (s : Specification)
| OpLock (now : Time) (task : string) (version : Z) (by_ : string).

Definition exec (st : SpecificationStore) (d : DB) (o : Op) : DB :=
  match o with
  | OpSave now s => match Save st now s d with Ok (_, d') => d' | Err _ => d end
  | OpSaveIfChanged now s => match SaveIfChanged st now s d with Ok (_, _, d') => d' | Err _ => d end
  | OpLock now task v by_ => match Lock st now task v by_ d with Ok (_, d') => d' | Err _ => d end
  end.
Definition execAll (st : SpecificationStore) (ops : list Op) (d : DB) : DB := foldl (exec st) d ops.

Definition emptyDB (ts : list string) : DB := mkDB ts [] [] ∅ [].

(** ** Lemmas: validation *)

Lemma trimLeft_idem s : trimLeft (trimLeft s) = trimLeft s.
Proof. induction s as [|c s IH]; simpl; [done|]. destruct (isBlank c) eqn:E; [done|]. simpl. by rewrite E. Qed.

Lemma trimRight_cons c s : isBlank c = false → ∃ r, trimRight (String c s) = String c r.
Proof. intros E. simpl. destruct (trimRight s); rewrite ?E; eauto. Qed.

Lemma trimRight_idem s : trimRight (trimRight s) = trimRight s.
Proof.
  induction s as [|c s IH]; [done|]. cbn [trimRight]. destruct (trimRight s) as [|c' r].
  - destruct (isBlank c) eqn:Ec; simpl; by rewrite ?Ec.
  - remember (String c' r) as u eqn:Hu. cbn [trimRight]. rewrite IH. by rewrite Hu.
Qed.

Lemma trim_idem s : trim (trim s) = trim s.
Proof.
  unfold trim. assert (trimLeft (trimRight (trimLeft s)) = trimRight (trimLeft s)) as ->.
  { pose proof (trimLeft_idem s) as H. destruct (trimLeft s) as [|c r]; [done|].
    assert (isBlank c = false) as Hc.
    { simpl in H. destruct (isBlank c) eqn:E; [|done]. exfalso.
      assert (∀ u, String.length (trimLeft u) ≤ String.length u) as Hlen.
      { induction u as [|a u IH]; simpl; [done|]. case_match; simpl; lia. }
      specialize (Hlen r). rewrite H in Hlen. simpl in Hlen. lia. }
    destruct (trimRight_cons c r Hc) as [r' ->]. simpl. by rewrite Hc. }
  apply trimRight_idem.
Qed.

Lemma violated_nil b v : when b v = [] ↔ b = false.
Proof. by destruct b. Qed.

(** What [ValidateSpecification] promises of a normalised specification. *)
Record well_formed (s : Specification) : Prop := {
  wf_task : TaskID s ≠ "";
  wf_objective : trim (Objective s) = Objective s ∧ Objective s ≠ "";
  wf_some : AcceptanceCriteria s ≠ [];
  wf_criteria : ∀ ac, ac ∈ AcceptanceCriteria s → trimCriterion ac = ac ∧ ID ac ≠ "" ∧ Statement ac ≠ "";
  wf_ids : NoDup (ID <$> AcceptanceCriteria s);
  wf_risk : Risk_IsValid (Spec_Risk s) = true;
  wf_complexity : Complexity_IsValid (Spec_Complexity s) = true }.

Definition normalised (s : Specification) : Specification :=
  withContent (trim (Objective s)) (trimCriterion <$> AcceptanceCriteria s) s.

Lemma checkCriteria_nil i seen acs :
  checkCriteria i seen acs = [] ↔
    (∀ ac, ac ∈ acs → trim (ID ac) ≠ "" ∧ trim (Statement ac) ≠ "" ∧ trim (ID ac) ∉ seen)
    ∧ NoDup ((λ ac, trim (ID ac)) <$> acs).
Proof.
  revert i seen; induction acs as [|ac acs IH]; intros i seen; simpl.
  { split; [|done]. intros _. split; [|constructor]. intros ac H. by apply elem_of_nil in H. }
  rewrite NoDup_cons. case_bool_decide as Hid.
  { split; [done|]. intros [H _]. destruct (H ac) as [H1 _]; [by constructor|done]. }
  rewrite !app_nil, !violated_nil, !bool_decide_eq_false, IH. split.
  - intros (Hseen & Hst & Hall & Hnd). split_and!; [|intros Hin|done].
    + intros x [->|Hx]%elem_of_cons; [done|]. destruct (Hall x Hx) as (? & ? & ?). set_solver.
    + apply list_elem_of_fmap in Hin as (x & Hx & Hin). destruct (Hall x Hin) as (_ & _ & Hn). set_solver.
  - intros (Hall & Hnin & Hnd). destruct (Hall ac) as (? & ? & ?); [by constructor|].
    split_and!; [done..| |done]. intros x Hx. destruct (Hall x) as (? & ? & ?); [by constructor|].
    split_and!; [done..|]. intros [Heq%elem_of_singleton|?]%elem_of_union; [|done].
    apply Hnin. rewrite <-Heq. apply list_elem_of_fmap. eauto.
Qed.

Lemma ID_trimCriterion (acs : list AcceptanceCriterion) : ID <$> (trimCriterion <$> acs) = (λ ac, trim (ID ac)) <$> acs.
Proof. by rewrite <-list_fmap_compose. Qed.

Lemma violations_nil s : violations s = [] ↔ well_formed (normalised s).
Proof.
  unfold violations. rewrite !app_nil, !violated_nil, !negb_false_iff, !bool_decide_eq_false, checkCriteria_nil.
  split.
  - intros (Ht & Ho & Ha & [Hc Hnd] & Hr & Hx). constructor; simpl; [done| | | | |done|done].
    + by rewrite trim_idem.
    + by intros ?%fmap_nil_inv.
    + intros ac (x & -> & Hx')%list_elem_of_fmap. destruct (Hc x Hx') as (? & ? & _).
      unfold trimCriterion; simpl. by rewrite !trim_idem.
    + by rewrite ID_trimCriterion.
  - intros [Ht [_ Ho] Ha Hc Hnd Hr Hx]; simpl in *. split_and!; try done.
    + intros E. by rewrite E in Ha.
    + intros ac Hac. destruct (Hc (trimCriterion ac)) as (_ & ? & ?); [by apply list_elem_of_fmap_2|].
      split_and!; [done|done|set_solver].
    + by rewrite ID_trimCriterion in Hnd.
Qed.

Lemma Validate_Ok s s' : ValidateSpecification s = Ok s' ↔ s' = normalised s ∧ well_formed s'.
Proof.
  unfold ValidateSpecification. pose proof (violations_nil s) as H.
  destruct (violations s) as [|v vs]; simpl.
  - split; [intros [= <-]; split; [done|by apply H]|by intros [-> _]].
  - split; [done|]. intros [-> Hw]. apply H in Hw. done.
Qed.

Lemma normalised_id s : well_formed s → normalised s = s.
Proof.
  intros [_ [Ho _] _ Hc _ _ _]. unfold normalised. rewrite Ho.
  assert (trimCriterion <$> AcceptanceCriteria s = AcceptanceCriteria s) as ->; [|by destruct s].
  rewrite <-(list_fmap_id (AcceptanceCriteria s)) at 2. apply list_fmap_ext.
  intros i x Hx. apply Hc. by eapply list_elem_of_lookup_2.
Qed.

Lemma Validate_fix s : ValidateSpecification s = Ok s ↔ well_formed s.
Proof. rewrite Validate_Ok. split; [tauto|]. intros H. by rewrite normalised_id. Qed.

(** ** Lemmas: semantic equality *)

Lemma zip_equal {A} `{EqDecision A} (a b : list A) :
  (length a =? length b) && forallb (λ ab : A * A, bool_decide (ab.1 = ab.2)) (zip a b) = true ↔ a = b.
Proof.
  revert b; induction a as [|x a IH]; intros [|y b]; simpl; try (split; discriminate); [done|].
  specialize (IH b). rewrite !andb_true_iff, bool_decide_eq_true in *. split.
  - intros (Hl & -> & Hf). f_equal. by apply IH.
  - intros [= -> ->]. destruct IH as [_ IH]. destruct IH; done.
Qed.

(** The content the comparison looks at. *)
Definition content (s : Specification) :=
  (Objective s, Spec_Risk s, Spec_Complexity s,
   (NonGoals s, Assumptions s, Constraints s, ProposedScope s), Spec_VisualRequirements s, AcceptanceCriteria s).

Lemma SemanticallyEqual_iff a b : specificationsSemanticallyEqual a b = true ↔ content a = content b.
Proof.
  assert (∀ x y, visualRequirementsEqual x y = true ↔ x = y) as Hv.
  { intros [] []. unfold visualRequirementsEqual, stringSliceEqual; simpl.
    rewrite !andb_true_iff, !bool_decide_eq_true, <-andb_true_iff, zip_equal.
    split; [intros (((((-> & ->) & ->) & ->) & ->) & ->); done|intros [= -> -> -> -> -> ->]; done]. }
  unfold specificationsSemanticallyEqual, stringSliceEqual, content.
  rewrite <-andb_assoc, !andb_true_iff, !bool_decide_eq_true, Hv.
  rewrite <-!andb_true_iff, !zip_equal. split; [|intros [= -> -> -> -> -> -> -> -> ->]; tauto].
  intros ((((((((-> & ->) & ->) & ->) & ->) & ->) & ->) & ->) & ->). done.
Qed.

(** ** Lemmas: the tables *)

(** What the tables hold for one version: its row and its criteria. *)
Definition view (d : DB) (task : string) (version : Z) :
    option (SpecificationRow * list AcceptanceCriterionRow) :=
  r ← List.find (isRow task version) (specifications d);
  Some (r, filter (λ a, isACRow task version a = true) (criteria d)).

Definition ofKey (r : SpecificationRow) (task : string) (version : Z) : Prop :=
  Row_TaskID r = task ∧ Row_Version r = version.

Lemma isRow_true t v r : isRow t v r = true ↔ ofKey r t v.
Proof. unfold isRow, ofKey. by rewrite andb_true_iff, !bool_decide_eq_true. Qed.

Lemma isACRow_true t v a : isACRow t v a = true ↔ AC_TaskID a = t ∧ AC_Version a = v.
Proof. unfold isACRow. by rewrite andb_true_iff, !bool_decide_eq_true. Qed.

Lemma view_key d t v r l : view d t v = Some (r, l) → ofKey r t v.
Proof.
  unfold view. intros (x & Hf & [= -> _])%bind_Some. apply List.find_some in Hf as [_ Hf].
  by apply isRow_true.
Qed.

Lemma Get_view t v d :
  Get t v d = match view d t v with
              | None => Err ErrSpecificationNotFound
              | Some (r, l) => Ok (rowToSpec r (sortStable lessACRow l))
              end.
Proof. unfold Get, GetSpecification, view, listAcceptanceCriteria. by destruct (List.find _ _). Qed.

Lemma find_map_key t v f l :
  (∀ r, ofKey (f r) (Row_TaskID r) (Row_Version r)) →
  List.find (isRow t v) (f <$> l) = f <$> List.find (isRow t v) l.
Proof.
  intros Hf. induction l as [|r l IH]; simpl; [done|].
  assert (isRow t v (f r) = isRow t v r) as ->; [|by destruct (isRow t v r)].
  destruct (Hf r) as [H1 H2]. unfold isRow. by rewrite H1, H2.
Qed.

(** A statement that rewrites one version's row by [f]. *)
Lemma find_update t v f l t' v' :
  (∀ r, ofKey (f r) (Row_TaskID r) (Row_Version r)) →
  List.find (isRow t' v') ((λ r, if isRow t v r then f r else r) <$> l) =
    if bool_decide (t' = t ∧ v' = v) then f <$> List.find (isRow t' v') l else List.find (isRow t' v') l.
Proof.
  intros Hf. rewrite find_map_key.
  2:{ intros r. destruct (isRow t v r); [apply Hf|done]. }
  destruct (List.find (isRow t' v') l) as [r|] eqn:E; simpl; [|by case_bool_decide].
  apply List.find_some in E as [_ [<- <-]%isRow_true].
  destruct (isRow t v r) eqn:Hr.
  - apply isRow_true in Hr as [H1 H2]. by rewrite bool_decide_true.
  - rewrite bool_decide_false; [done|]. intros Hk. apply isRow_true in Hk. congruence.
Qed.

Lemma find_app_fresh t v (row : SpecificationRow) l :
  List.find (isRow t v) (l ++ [row]) =
    match List.find (isRow t v) l with
    | Some r => Some r
    | None => if isRow t v row then Some row else None
    end.
Proof. induction l as [|r l IH]; simpl; [done|]. by destruct (isRow t v r). Qed.

Lemma versionsOf_view t v d : v ∈ versionsOf t d ↔ is_Some (view d t v).
Proof.
  unfold versionsOf, view. split.
  - intros (r & -> & [Ht Hr]%list_elem_of_filter)%list_elem_of_fmap.
    destruct (List.find (isRow t (Row_Version r)) (specifications d)) eqn:E; [by eexists|].
    exfalso. apply list_elem_of_In in Hr. pose proof (List.find_none _ _ E r Hr) as H.
    assert (isRow t (Row_Version r) r = true) by (apply isRow_true; split; done). congruence.
  - intros [[r l] (x & Hf & _)%bind_Some]. apply List.find_some in Hf as [Hin Hk].
    apply isRow_true in Hk as [Ht <-]. apply list_elem_of_fmap_2, list_elem_of_filter.
    split; [done|by apply list_elem_of_In].
Qed.

Lemma max_spec (l : list Z) :
  let m := foldr Z.max 0%Z l in (m = 0%Z ∨ m ∈ l) ∧ ∀ v, v ∈ l → (v ≤ m)%Z.
Proof.
  induction l as [|x l [IH1 IH2]]; simpl in *.
  { split; [by left|]. intros v H. by apply elem_of_nil in H. }
  split.
  - destruct (Z.max_spec x (foldr Z.max 0%Z l)) as [[_ ->]|[_ ->]]; [|right; constructor].
    destruct IH1 as [IH1|IH1]; [by left|right; by constructor].
  - intros v [->|Hv]%elem_of_cons; [lia|]. specialize (IH2 v Hv). lia.
Qed.

(** ** Lemmas: the criteria of a version *)

Lemma insertCriteria_Ok t v acs tbl :
  (∀ a, a ∈ acs → AC_TaskID a = t ∧ AC_Version a = v ∧ AC_ID a ≠ "") →
  NoDup (AC_ID <$> acs) →
  (∀ a, a ∈ tbl → isACRow t v a = true → AC_ID a ∉ AC_ID <$> acs) →
  insertCriteria t v acs tbl = Ok (tbl ++ acs).
Proof.
  revert tbl; induction acs as [|a acs IH]; intros tbl Hk Hnd Hf; simpl; [by rewrite app_nil_r|].
  destruct (Hk a) as (Ht & Hv & Hid); [by constructor|]. rewrite bool_decide_false by done.
  apply NoDup_cons in Hnd as [Hnin Hnd].
  replace (existsb _ tbl) with false.
  - assert (mkACRow t v (AC_ID a) (AC_Statement a) (AC_Ordinal a) = a) as -> by (subst; by destruct a).
    rewrite IH, <-app_assoc; [done| |done|].
    + intros x Hx. apply Hk. by constructor.
    + intros x [Hx| ->%list_elem_of_singleton]%elem_of_app Hx'; [|done].
      specialize (Hf x Hx Hx'). rewrite fmap_cons, not_elem_of_cons in Hf. tauto.
  - symmetry. apply existsb_elem_false. intros x Hx. apply andb_false_iff.
    destruct (isACRow t v x) eqn:E; [right|by left]. apply bool_decide_eq_false.
    specialize (Hf x Hx E). rewrite fmap_cons, not_elem_of_cons in Hf. tauto.
Qed.

Lemma sorted_criteria_perm (s : Specification) : sortStable lessAC (AcceptanceCriteria s) ≡ₚ AcceptanceCriteria s.
Proof. apply sortStable_Permutation. Qed.

Lemma elem_of_acRows s a :
  a ∈ acRows s → ∃ ac, ac ∈ AcceptanceCriteria s ∧ AC_TaskID a = TaskID s ∧ AC_Version a = Version s ∧ AC_ID a = ID ac.
Proof.
  intros (i & ac & -> & Hl)%elem_of_lookup_imap. exists ac. split_and!; [|done..].
  rewrite <-(sorted_criteria_perm s). by eapply list_elem_of_lookup_2.
Qed.

Lemma acRows_criteria s :
  (λ a, mkAC (AC_ID a) (AC_Statement a)) <$> acRows s = sortStable lessAC (AcceptanceCriteria s).
Proof.
  unfold acRows. rewrite fmap_imap. rewrite <-(list_fmap_id (sortStable _ _)) at 2.
  rewrite <-imap_const. apply imap_ext. by intros i [].
Qed.

Lemma acRows_ids s : NoDup (ID <$> AcceptanceCriteria s) → NoDup (AC_ID <$> acRows s).
Proof.
  intros H. assert (AC_ID <$> acRows s = ID <$> sortStable lessAC (AcceptanceCriteria s)) as ->.
  { rewrite <-acRows_criteria, <-list_fmap_compose. done. }
  by rewrite sorted_criteria_perm.
Qed.

Lemma imap_sorted {A B} (R : B → B → Prop) (f : nat → A → B) l :
  (∀ i j x y, i < j → R (f i x) (f j y)) → StronglySorted R (imap f l).
Proof.
  revert f; induction l as [|x l IH]; intros f Hf; simpl; constructor.
  - apply IH. intros. apply Hf. lia.
  - apply Forall_forall. intros y (i & z & -> & _)%elem_of_lookup_imap. apply Hf. simpl. lia.
Qed.

(** Stored ordinals are positions, so reading them back sorts nothing. *)
Lemma acRows_sorted s : sortStable lessACRow (acRows s) = acRows s.
Proof.
  apply sortStable_id, imap_sorted. intros i j x y Hij. unfold lessACRow; simpl.
  apply orb_false_iff. split; [apply Nat.ltb_ge; lia|].
  apply andb_false_iff. left. apply Nat.eqb_neq. lia.
Qed.

(** ** Lemmas: one transaction *)

Lemma filter_split_same {A} (p : A → bool) (l acs : list A) :
  (∀ a, a ∈ acs → p a = true) →
  filter (λ a, p a = true) (filter (λ a, p a = false) l ++ acs) = acs.
Proof.
  intros Hp. rewrite filter_app. assert (filter (λ a, p a = true) (filter (λ a, p a = false) l) = []) as ->.
  { induction l as [|a l IH]; [done|]. rewrite filter_cons. case_decide as E; [|done].
    rewrite filter_cons. case_decide; [congruence|done]. }
  simpl. induction acs as [|a acs IH]; [done|]. rewrite filter_cons_True by (apply Hp; constructor).
  f_equal. apply IH. intros b Hb. apply Hp. by constructor.
Qed.

Lemma filter_split_other {A} (p p' : A → bool) (l acs : list A) :
  (∀ a, p' a = true → p a = false) → (∀ a, a ∈ acs → p a = true) →
  filter (λ a, p' a = true) (filter (λ a, p a = false) l ++ acs) = filter (λ a, p' a = true) l.
Proof.
  intros Hpp Hp. rewrite filter_app. assert (filter (λ a, p' a = true) acs = []) as ->.
  { induction acs as [|a acs IH]; [done|]. rewrite filter_cons. case_decide as E.
    - specialize (Hp a). rewrite (Hpp a E) in Hp. discriminate Hp. constructor.
    - apply IH. intros b Hb. apply Hp. by constructor. }
  rewrite app_nil_r. induction l as [|a l IH]; [done|]. rewrite !(filter_cons _ a).
  destruct (decide (p a = false)) as [E|E].
  - rewrite filter_cons. case_decide; [by f_equal|done].
  - rewrite (decide_False (P := p' a = true)); [done|]. intros E'. by apply E, Hpp.
Qed.

Lemma versions_map t f (l : list SpecificationRow) :
  (∀ r, ofKey (f r) (Row_TaskID r) (Row_Version r)) →
  Row_Version <$> filter (λ r, Row_TaskID r = t) l = Row_Version <$> filter (λ r, Row_TaskID r = t) (f <$> l).
Proof.
  intros Hf. induction l as [|r l IH]; [done|]. destruct (Hf r) as [H1 H2].
  rewrite fmap_cons, !filter_cons. do 2 case_decide; rewrite ?fmap_cons; congruence.
Qed.

Definition replacedRow (row : SpecificationRow) (old : option (SpecificationRow * list AcceptanceCriterionRow)) :
    SpecificationRow :=
  match old with Some (r, _) => replaceRow row r | None => freshRow row end.

Lemma SaveSpecification_view t v row acs d d' :
  ofKey row t v →
  (∀ a, a ∈ acs → AC_TaskID a = t ∧ AC_Version a = v ∧ AC_ID a ≠ "") → NoDup (AC_ID <$> acs) →
  SaveSpecification row acs d = Ok d' →
  (1 ≤ v)%Z ∧ (∀ r l, view d t v = Some (r, l) → Row_Locked r = false) ∧
  tasks d' = tasks d ∧ sequences d' = sequences d ∧
  (∀ t' v', view d' t' v' =
     if bool_decide (t' = t ∧ v' = v) then Some (replacedRow row (view d t v), acs) else view d t' v') ∧
  (∀ t', versionsOf t' d' =
     versionsOf t' d ++ (if bool_decide (t' = t ∧ view d t v = None) then [v] else [])).
Proof.
  intros [Hrt Hrv] Hk Hnd. unfold SaveSpecification. rewrite Hrt, Hrv.
  case_bool_decide; [done|]. destruct (Z.ltb_spec v 1) as [|Hv]; [done|].
  intros (specs' & Hspecs & (crit & Hcrit & [= <-])%bind_ok)%bind_ok.
  rewrite insertCriteria_Ok in Hcrit; [injection Hcrit as <-|done|done|].
  2:{ intros a [Ha _]%list_elem_of_filter Ha'. congruence. }
  assert (∀ t' v', filter (λ a, isACRow t' v' a = true)
                     (filter (λ a, isACRow t v a = false) (criteria d) ++ acs) =
            if bool_decide (t' = t ∧ v' = v) then acs
            else filter (λ a, isACRow t' v' a = true) (criteria d)) as Hcrit.
  { clear Hspecs. intros t' v'. case_bool_decide as E.
    - destruct E as [-> ->]. apply filter_split_same. intros a Ha. apply isACRow_true. apply Hk in Ha. tauto.
    - apply filter_split_other.
      + intros a [H1 H2]%isACRow_true. apply not_true_iff_false. intros [H3 H4]%isACRow_true. apply E.
        by subst.
      + intros a Ha. apply isACRow_true. apply Hk in Ha. tauto. }
  assert (∀ r l, view d t v = Some (r, l) → List.find (isRow t v) (specifications d) = Some r) as Hfind.
  { unfold view. intros r l (x & -> & [= -> _])%bind_Some. done. }
  split; [done|]. destruct (List.find (isRow t v) (specifications d)) as [r|] eqn:E.
  - destruct (Row_Locked r) eqn:El; [done|]. injection Hspecs as <-.
    split_and!; [by intros r' l [= ->]%Hfind|done|done| |].
    + intros t' v'. unfold view at 1. cbn [specifications criteria]. rewrite Hcrit, find_update by done.
      case_bool_decide as E'; [|done]. destruct E' as [-> ->]. unfold view. by rewrite E.
    + intros t'. unfold view. rewrite E. rewrite bool_decide_false by (by intros [_ ?]). rewrite app_nil_r.
      unfold versionsOf; cbn [specifications]. symmetry. apply versions_map.
      intros x. by destruct (isRow t v x).
  - case_bool_decide as Ht; [|done]. injection Hspecs as <-.
    split_and!; [by intros r' l ?%Hfind|done|done| |].
    + intros t' v'. unfold view. cbn [specifications criteria]. rewrite Hcrit, find_app_fresh, E. simpl.
      change (isRow t' v' (freshRow row)) with (isRow t' v' row).
      case_bool_decide as E'.
      * destruct E' as [-> ->]. rewrite E. assert (isRow t v row = true) as -> by (apply isRow_true; split; done).
        done.
      * destruct (isRow t' v' row) eqn:Hr; [|by destruct (List.find (isRow t' v') (specifications d))].
        apply isRow_true in Hr as [H1 H2]. destruct E'. split; congruence.
    + intros t'. unfold versionsOf, view; cbn [specifications]. rewrite E, filter_app, fmap_app. f_equal.
      rewrite filter_cons, filter_nil. change (Row_TaskID (freshRow row)) with (Row_TaskID row). rewrite Hrt.
      case_decide; case_bool_decide; try (cbn; congruence); naive_solver.
Qed.

Lemma Lock_view t v by_ now d d' :
  LockSpecification t v by_ now d = Ok d' →
  tasks d' = tasks d ∧ sequences d' = sequences d ∧ is_Some (view d t v) ∧
  (∀ t' v', view d' t' v' =
     if bool_decide (t' = t ∧ v' = v) then (λ rl, (lockRow now by_ rl.1, rl.2)) <$> view d t' v'
     else view d t' v') ∧
  (∀ t', versionsOf t' d' = versionsOf t' d).
Proof.
  unfold LockSpecification. destruct (existsb _ _) eqn:E; [|done]. intros [= <-].
  split_and!; [done|done| | |].
  - apply versionsOf_view. apply existsb_elem in E as (r & Hr & [Hk Hv]%isRow_true). subst.
    apply list_elem_of_fmap_2, list_elem_of_filter. done.
  - intros t' v'. unfold view; cbn [specifications criteria]. rewrite find_update by done.
    case_bool_decide; [|done]. by destruct (List.find _ _).
  - intros t'. unfold versionsOf; cbn [specifications]. symmetry. apply versions_map.
    intros x. by destruct (isRow t v x).
Qed.

Lemma recordTx_view st ev d d' :
  recordTx st ev d = Ok d' →
  tasks d' = tasks d ∧ sequences d' = sequences d ∧ (∀ t v, view d' t v = view d t v) ∧
  (∀ t, versionsOf t d' = versionsOf t d).
Proof.
  unfold recordTx. destruct (audit_ st) as [rec|]; [|intros [= <-]; split_and!; done].
  destruct (audit.Record_ rec ev (trail d)) as [[n|e] tr]; [|done]. intros [= <-]. split_and!; done.
Qed.

(** ** Lemmas: the operations of the store *)

(** What a saved specification reads back as: criteria in id order, no lock. *)
Definition asStored (s : Specification) : Specification :=
  mkSpecification (TaskID s) (Version s) (Objective s) (sortStable lessAC (AcceptanceCriteria s))
    (NonGoals s) (Assumptions s) (Constraints s) (Spec_Risk s) (Spec_Complexity s) (ProposedScope s)
    (Spec_VisualRequirements s) false 0 "" (CreatedAt s) (CreatedBy s).

Record ok_entry (t : string) (v : Z) (r : SpecificationRow) (l : list AcceptanceCriterionRow) : Prop := {
  entry_key : ofKey r t v;
  entry_version : (1 ≤ v)%Z;
  entry_lock : if Row_Locked r then is_Some (Row_LockedAt r) else Row_LockedAt r = None ∧ Row_LockedBy r = "";
  entry_spec : well_formed (rowToSpec r l);
  entry_order : sortStable lessACRow l = l }.

Definition store_ok (d : DB) : Prop := ∀ t v r l, view d t v = Some (r, l) → ok_entry t v r l.

Lemma well_formed_perm s s' :
  TaskID s' = TaskID s → Objective s' = Objective s → Spec_Risk s' = Spec_Risk s →
  Spec_Complexity s' = Spec_Complexity s → AcceptanceCriteria s' ≡ₚ AcceptanceCriteria s →
  well_formed s → well_formed s'.
Proof.
  intros Ht Ho Hr Hx Ha [H1 H2 H3 H4 H5 H6 H7]. constructor; rewrite ?Ht, ?Ho, ?Hr, ?Hx; try done.
  - intros E. rewrite E in Ha. by apply Permutation_nil_l in Ha.
  - intros ac Hac. apply H4. by rewrite <-Ha.
  - by rewrite Ha.
Qed.

Lemma reserveVersion_spec s d s1 d1 :
  reserveVersion s d = Ok (s1, d1) →
  s1 = withVersion (Version s1) s ∧ tasks d1 = tasks d ∧ (∀ t v, view d1 t v = view d t v) ∧
  (∀ t, versionsOf t d1 = versionsOf t d) ∧
  (if (Version s =? 0)%Z
   then Version s1 = default 1%Z (Z.succ <$> sequences d !! TaskID s) ∧
        sequences d1 = <[TaskID s := Version s1]> (sequences d)
   else Version s1 = Version s ∧ sequences d1 = sequences d).
Proof.
  unfold reserveVersion. destruct (Version s =? 0)%Z.
  - intros ([v d2] & Hn & [= <- <-])%bind_ok. unfold NextSpecificationVersion in Hn.
    case_bool_decide; [done|]. destruct (negb _); [done|].
    set (v0 := match sequences d !! TaskID s with None => 1 | Some n => n + 1 end%Z) in *.
    destruct (v0 <=? 0)%Z; [done|]. injection Hn as <- <-.
    split_and!; try done. unfold v0. destruct (sequences d !! TaskID s); simpl; lia.
  - intros [= <- <-]. split_and!; try done. by destruct s.
Qed.

Record saved (now : Time) (s : Specification) (d : DB) (s' : Specification) (d' : DB) : Prop := {
  saved_wf : well_formed s';
  saved_spec : s' = withCreatedAt now (withVersion (Version s') (normalised s));
  saved_version : (1 ≤ Version s')%Z;
  saved_reserved :
    if (Version s =? 0)%Z
    then Version s' = default 1%Z (Z.succ <$> sequences d !! TaskID s) ∧
         sequences d' = <[TaskID s := Version s']> (sequences d)
    else Version s' = Version s ∧ sequences d' = sequences d;
  saved_unlocked : ∀ r l, view d (TaskID s) (Version s') = Some (r, l) → Row_Locked r = false;
  saved_view : ∀ t v, view d' t v =
    if bool_decide (t = TaskID s ∧ v = Version s')
    then Some (replacedRow (rowOf s' now) (view d (TaskID s) (Version s')), acRows s') else view d t v;
  saved_versions : ∀ t, versionsOf t d' = versionsOf t d ++
    (if bool_decide (t = TaskID s ∧ view d (TaskID s) (Version s') = None) then [Version s'] else []) }.

Lemma Save_saved st now s d s' d' : Save st now s d = Ok (s', d') → saved now s d s' d'.
Proof.
  unfold Save. destruct (ValidateSpecification s) as [n|vs] eqn:Hv; [|done].
  apply Validate_Ok in Hv as [-> Hw].
  intros ([s1 d1] & Hr & (d2 & Hsave & (d3 & Hrec & [= <- <-])%bind_ok)%bind_ok)%bind_ok.
  apply reserveVersion_spec in Hr as (Hs1 & _ & Hview1 & Hvs1 & Hseq).
  apply recordTx_view in Hrec as (_ & Hseq3 & Hview3 & Hvs3).
  assert (TaskID s1 = TaskID s) as Ht by by rewrite Hs1.
  assert (well_formed s1) as Hw1.
  { rewrite Hs1. apply (well_formed_perm (normalised s)); done. }
  apply (SaveSpecification_view (TaskID s) (Version s1)) in Hsave
    as (Hge & Hunl & _ & Hseq2 & Hview2 & Hvs2); [|by split| |].
  - constructor; cbn [TaskID Version withCreatedAt].
    + apply (well_formed_perm s1); done.
    + by rewrite Hs1 at 1.
    + done.
    + rewrite Hseq3, Hseq2. exact Hseq.
    + intros r l. rewrite <-Hview1. apply Hunl.
    + intros t v. rewrite Hview3, Hview2, !Hview1. done.
    + intros t. rewrite Hvs3, Hvs2, Hvs1, Hview1. done.
  - intros a (ac & Hac & H1 & H2 & H3)%elem_of_acRows. rewrite H1, H2, H3. split_and!; [done..|].
    by apply (wf_criteria s1 Hw1).
  - apply acRows_ids, Hw1.
Qed.

Lemma rowToSpec_saved now s old :
  CreatedAt s = now →
  (∀ r l, old = Some (r, l) → Row_Locked r = false ∧ Row_LockedAt r = None ∧ Row_LockedBy r = "" ∧
                              ofKey r (TaskID s) (Version s)) →
  rowToSpec (replacedRow (rowOf s now) old) (acRows s) = asStored s.
Proof.
  intros <- Hold. destruct old as [[r l]|]; cbn [replacedRow].
  - destruct (Hold r l eq_refl) as (H1 & H2 & H3 & [H4 H5]).
    unfold rowToSpec, replaceRow, asStored; cbn. by rewrite H1, H2, H3, H4, H5, acRows_criteria.
  - unfold rowToSpec, freshRow, asStored; cbn. by rewrite acRows_criteria.
Qed.

Lemma saved_readback now s d s' d' :
  store_ok d → saved now s d s' d' →
  rowToSpec (replacedRow (rowOf s' now) (view d (TaskID s) (Version s'))) (acRows s') = asStored s'.
Proof.
  intros Hok H. pose proof (saved_spec _ _ _ _ _ H) as Hs'.
  apply rowToSpec_saved; [by rewrite Hs'|]. intros r l Hv.
  pose proof (saved_unlocked _ _ _ _ _ H _ _ Hv) as Hl.
  destruct (Hok _ _ _ _ Hv) as [Hk _ Hlock _ _]. rewrite Hl in Hlock.
  split_and!; [done|apply Hlock..|]. assert (TaskID s' = TaskID s) as -> by by rewrite Hs'. done.
Qed.

Lemma Save_ok now s d s' d' : store_ok d → saved now s d s' d' → store_ok d'.
Proof.
  intros Hok H t v r l. rewrite (saved_view _ _ _ _ _ H). case_bool_decide as E; [|apply Hok].
  destruct E as [-> ->]. intros [= <- <-].
  pose proof (saved_readback _ _ _ _ _ Hok H) as Hread.
  pose proof (saved_spec _ _ _ _ _ H) as Hs'.
  assert (TaskID s' = TaskID s) as Ht by by rewrite Hs'.
  assert (Row_Locked (replacedRow (rowOf s' now) (view d (TaskID s) (Version s'))) = false) as Hl.
  { exact (f_equal Locked Hread). }
  constructor.
  - destruct (view d (TaskID s) (Version s')) as [[r0 l0]|] eqn:E; cbn [replacedRow].
    + apply view_key in E. exact E.
    + split; [by rewrite <-Ht|done].
  - apply (saved_version _ _ _ _ _ H).
  - rewrite Hl. destruct (view d (TaskID s) (Version s')) as [[r0 l0]|] eqn:E; cbn [replacedRow]; [|done].
    pose proof (saved_unlocked _ _ _ _ _ H _ _ E) as Hl0. destruct (Hok _ _ _ _ E) as [_ _ Hlock _ _].
    by rewrite Hl0 in Hlock.
  - rewrite Hread. eapply well_formed_perm; [..|apply (saved_wf _ _ _ _ _ H)]; try done.
    apply sorted_criteria_perm.
  - apply acRows_sorted.
Qed.

Lemma Lock_inv st now t v by_ d s' d' :
  Lock st now t v by_ d = Ok (s', d') →
  (∃ r l, view d t v = Some (r, l) ∧ s' = rowToSpec (lockRow now by_ r) (sortStable lessACRow l)) ∧
  sequences d' = sequences d ∧ tasks d' = tasks d ∧
  (∀ t' v', view d' t' v' =
     if bool_decide (t' = t ∧ v' = v) then (λ rl, (lockRow now by_ rl.1, rl.2)) <$> view d t' v'
     else view d t' v') ∧
  (∀ t', versionsOf t' d' = versionsOf t' d).
Proof.
  unfold Lock. intros (d1 & Hl & (d2 & Hr & (s1 & Hg & [= <- <-])%bind_ok)%bind_ok)%bind_ok.
  apply Lock_view in Hl as (H1 & H2 & [[r l] Hv] & H3 & H4).
  apply recordTx_view in Hr as (H5 & H6 & H7 & H8). rewrite Get_view, H7, H3, Hv in Hg.
  rewrite bool_decide_true in Hg by done. simpl in Hg. injection Hg as <-.
  split_and!; [eauto|congruence|congruence| |].
  - intros t' v'. by rewrite H7, H3.
  - intros t'. by rewrite H8, H4.
Qed.

Lemma SaveIfChanged_inv st now s d s' b d' :
  SaveIfChanged st now s d = Ok (s', b, d') →
  (b = false ∧ d' = d ∧ GetLatest (TaskID s) d = Ok s' ∧ content s = content s') ∨
  (b = true ∧ ∃ s0, decideSave s (GetLatest (TaskID s) d) = Mint s0 ∧ Save st now s0 d = Ok (s', d')).
Proof.
  unfold SaveIfChanged. destruct (decideSave _ _) as [l|s0|e] eqn:E; [| |done].
  - intros [= <- <- <-]. left. unfold decideSave in E.
    destruct (GetLatest _ d) as [l'|[]] eqn:El; try done.
    destruct (specificationsSemanticallyEqual s l') eqn:Es; [|done]. injection E as ->.
    by apply SemanticallyEqual_iff in Es.
  - intros ([s1 d1] & Hs & [= <- <- <-])%bind_ok. right. eauto.
Qed.

Lemma exec_ok st d o : store_ok d → store_ok (exec st d o).
Proof.
  intros Hok. destruct o as [now s|now s|now t v by_]; simpl.
  - destruct (Save st now s d) as [[s' d']|e] eqn:E; [|done]. eapply Save_ok, Save_saved; eauto.
  - destruct (SaveIfChanged st now s d) as [[[s' b] d']|e] eqn:E; [|done].
    apply SaveIfChanged_inv in E as [(_ & -> & _)|(_ & s0 & _ & E)]; [done|].
    eapply Save_ok, Save_saved; eauto.
  - destruct (Lock st now t v by_ d) as [[s' d']|e] eqn:E; [|done].
    apply Lock_inv in E as (_ & _ & _ & Hv & _). intros t' v' r l. rewrite Hv.
    case_bool_decide; [|apply Hok]. intros ([r0 l0] & E & [= -> ->])%fmap_Some.
    destruct (Hok _ _ _ _ E) as [H1 H2 H3 H4 H5].
    constructor; [exact H1|done| | |done].
    + simpl. destruct (Row_LockedAt r0); eauto.
    + eapply well_formed_perm; [..|exact H4]; done.
Qed.

Lemma execAll_ok st ops d : store_ok d → store_ok (execAll st ops d).
Proof. revert d; induction ops as [|o ops IH]; intros d Hok; [done|]. by apply IH, exec_ok. Qed.

Lemma emptyDB_ok ts : store_ok (emptyDB ts).
Proof. intros t v r l H. by apply bind_Some in H as (x & H & _). Qed.

(** A version once locked: what a later operation can still write is the
    [locked_by] of a lock that named nobody. *)
Definition relocked (by_ : string) (s : Specification) : Specification :=
  mkSpecification (TaskID s) (Version s) (Objective s) (AcceptanceCriteria s) (NonGoals s) (Assumptions s)
    (Constraints s) (Spec_Risk s) (Spec_Complexity s) (ProposedScope s) (Spec_VisualRequirements s)
    (Locked s) (LockedAt s) by_ (CreatedAt s) (CreatedBy s).

Lemma Get_Ok t v d s : Get t v d = Ok s ↔ ∃ r l, view d t v = Some (r, l) ∧ s = rowToSpec r (sortStable lessACRow l).
Proof.
  rewrite Get_view. destruct (view d t v) as [[r l]|].
  - split; [intros [= <-]; eauto|by intros (r' & l' & [= -> ->] & ->)].
  - split; [done|by intros (? & ? & ? & _)].
Qed.

Lemma Get_same t v d d' s : view d' t v = view d t v → Get t v d = Ok s → Get t v d' = Ok s.
Proof. rewrite !Get_view. by intros ->. Qed.

Lemma saved_keeps_locked now s d s' d' t v sp :
  saved now s d s' d' → Get t v d = Ok sp → Locked sp = true → Get t v d' = Ok sp.
Proof.
  intros H Hg Hl. eapply Get_same; [|done]. rewrite (saved_view _ _ _ _ _ H).
  case_bool_decide as E; [|done]. destruct E as [-> ->].
  apply Get_Ok in Hg as (r & l & Hv & ->).
  pose proof (saved_unlocked _ _ _ _ _ H _ _ Hv) as Hn. simpl in Hl. congruence.
Qed.

Lemma exec_keeps_locked st d o t v sp :
  store_ok d → Get t v d = Ok sp → Locked sp = true →
  ∃ by_, Get t v (exec st d o) = Ok (relocked by_ sp) ∧ (LockedBy sp ≠ "" → by_ = LockedBy sp).
Proof.
  intros Hok Hg Hl. assert (Get t v d = Ok (relocked (LockedBy sp) sp)) as Hg' by by destruct sp.
  destruct o as [now s|now s|now t' v' by_]; simpl.
  - destruct (Save st now s d) as [[s' d']|e] eqn:E; [|eauto].
    apply Save_saved in E. exists (LockedBy sp). split; [|done]. by eapply saved_keeps_locked.
  - destruct (SaveIfChanged st now s d) as [[[s' b] d']|e] eqn:E; [|eauto].
    apply SaveIfChanged_inv in E as [(_ & -> & _)|(_ & s0 & _ & E)]; [eauto|].
    apply Save_saved in E. exists (LockedBy sp). split; [|done]. by eapply saved_keeps_locked.
  - destruct (Lock st now t' v' by_ d) as [[s' d']|e] eqn:E; [|eauto].
    apply Lock_inv in E as (_ & _ & _ & Hv & _).
    destruct (decide (t = t' ∧ v = v')) as [Hk|Hk].
    2:{ exists (LockedBy sp). split; [|done]. eapply Get_same; [|done]. rewrite Hv. by rewrite bool_decide_false. }
    apply Get_Ok in Hg as (r & l & Hvw & ->). simpl in *.
    exists (if bool_decide (Row_LockedBy r = "") then by_ else Row_LockedBy r).
    split; [|intros Hn; by rewrite bool_decide_false].
    apply Get_Ok. exists (lockRow now by_ r), l. rewrite Hv, bool_decide_true, Hvw by done. split; [done|].
    destruct (Hok _ _ _ _ Hvw) as [_ _ Hlock _ _]. rewrite Hl in Hlock. destruct Hlock as [at_ Hat].
    unfold relocked, rowToSpec, lockRow; simpl. by rewrite Hat, Hl.
Qed.

Lemma execAll_keeps_locked st ops d t v sp :
  store_ok d → Get t v d = Ok sp → Locked sp = true →
  ∃ by_, Get t v (execAll st ops d) = Ok (relocked by_ sp) ∧ (LockedBy sp ≠ "" → by_ = LockedBy sp).
Proof.
  revert d sp; induction ops as [|o ops IH]; intros d sp Hok Hg Hl; simpl.
  { exists (LockedBy sp). split; [by destruct sp|done]. }
  destruct (exec_keeps_locked st d o t v sp Hok Hg Hl) as (b1 & Hg1 & Hb1).
  destruct (IH _ _ (exec_ok st d o Hok) Hg1 Hl) as (b2 & Hg2 & Hb2). exists b2. split; [done|].
  intros Hn. rewrite (Hb1 Hn) in Hb2. by apply Hb2.
Qed.

(** Latest *)
Lemma GetLatest_Ok t d s :
  store_ok d → GetLatest t d = Ok s →
  Get t (Version s) d = Ok s ∧ Version s ∈ versionsOf t d ∧ ∀ v, v ∈ versionsOf t d → (v ≤ Version s)%Z.
Proof.
  intros Hok. unfold GetLatest, GetLatestSpecification.
  destruct (max_spec (versionsOf t d)) as [Hin Hle]. set (m := foldr Z.max 0%Z (versionsOf t d)) in *.
  destruct (Z.eqb_spec m 0) as [|Hm]; [done|]. fold (Get t m d). intros Hg.
  assert (Version s = m) as ->.
  { apply Get_Ok in Hg as (r & l & Hv & ->). by destruct (view_key _ _ _ _ _ Hv). }
  split_and!; [done| |done]. by destruct Hin.
Qed.

Lemma GetLatest_max t d v s :
  store_ok d → v ∈ versionsOf t d → (∀ v', v' ∈ versionsOf t d → (v' ≤ v)%Z) → Get t v d = Ok s →
  GetLatest t d = Ok s.
Proof.
  intros Hok Hin Hle Hg. unfold GetLatest, GetLatestSpecification.
  destruct (max_spec (versionsOf t d)) as [Hin' Hle'].
  assert (1 ≤ v)%Z as Hv.
  { apply versionsOf_view in Hin as [[r l] Hv]. by destruct (Hok _ _ _ _ Hv). }
  assert (foldr Z.max 0%Z (versionsOf t d) = v) as ->.
  { specialize (Hle' v Hin). destruct Hin' as [H|H]; [lia|]. specialize (Hle _ H). lia. }
  destruct (Z.eqb_spec v 0); [lia|]. exact Hg.
Qed.

Lemma GetLatest_Err t d e : store_ok d → GetLatest t d = Err e → e = ErrSpecificationNotFound ∧ versionsOf t d = [].
Proof.
  intros Hok. unfold GetLatest, GetLatestSpecification.
  destruct (max_spec (versionsOf t d)) as [Hin Hle]. set (m := foldr Z.max 0%Z (versionsOf t d)) in *.
  destruct (Z.eqb_spec m 0) as [Hm|Hm].
  - intros [= <-]. split; [done|]. destruct (versionsOf t d) as [|v vs] eqn:E; [done|].
    assert (v ∈ versionsOf t d) as H by (rewrite E; constructor). apply versionsOf_view in H as [[r l] Hv].
    destruct (Hok _ _ _ _ Hv). specialize (Hle v). rewrite Hm in Hle. assert (v ≤ 0)%Z by (apply Hle; constructor).
    lia.
  - fold (Get t m d). intros Hg. destruct Hin as [?|Hin]; [done|].
    apply versionsOf_view in Hin as [[r l] Hv]. rewrite Get_view, Hv in Hg. done.
Qed.

(** ** Properties *)

(** C21: what the store hands out is well typed.  Whatever sequence of saves,
    conditional saves and locks a daemon ran, each version read back passes
    [ValidateSpecification] unchanged (so it has a task, a trimmed objective, at
    least one criterion, criteria with unique trimmed ids and statements, and
    known risk and complexity classes), carries the key it was asked for, has a
    positive version, and bears lock metadata only when it is locked. *)
Theorem stored_specs_well_formed st ops ts t v s :
  Get t v (execAll st ops (emptyDB ts)) = Ok s →
  ValidateSpecification s = Ok s ∧ TaskID s = t ∧ Version s = v ∧ (1 ≤ v)%Z ∧
  (Locked s = false → LockedAt s = 0%Z ∧ LockedBy s = "").
Proof.
  intros Hg. apply Get_Ok in Hg as (r & l & Hv & ->).
  destruct (execAll_ok st ops _ (emptyDB_ok ts) _ _ _ _ Hv) as [[H1 H2] H3 H4 H5 H6]. rewrite H6.
  split_and!; [by apply Validate_fix|done|done|done|]. simpl. intros Hl. rewrite Hl in H4.
  destruct H4 as [-> ->]. done.
Qed.

(** C22: a locked version is immutable (§28).  After a version has been locked,
    no further operation - a save under its number, a conditional save, another
    lock by somebody else - changes what it reads back as; only a lock that
    named nobody can still be given its name.  A save under its number is
    refused with [ErrSpecificationLocked]. *)
Theorem locked_immutable st ops ops' ts t v s :
  Get t v (execAll st ops (emptyDB ts)) = Ok s → Locked s = true →
  (∃ by_, Get t v (execAll st (ops ++ ops') (emptyDB ts)) = Ok (relocked by_ s) ∧
          (LockedBy s ≠ "" → by_ = LockedBy s)) ∧
  ∀ now n, TaskID n = t → Version n = v → is_ok (ValidateSpecification n) = true →
    Save st now n (execAll st ops (emptyDB ts)) = Err ErrSpecificationLocked.
Proof.
  intros Hg Hl. pose proof (execAll_ok st ops _ (emptyDB_ok ts)) as Hok. split.
  { unfold execAll. rewrite foldl_app. by apply execAll_keeps_locked. }
  intros now n Ht Hv Hn. unfold Save. destruct (ValidateSpecification n) as [n'|] eqn:E; [|done].
  apply Validate_Ok in E as [-> Hw]. apply Get_Ok in Hg as (r & l & Hvw & ->). simpl in Hl.
  destruct (Hok _ _ _ _ Hvw) as [_ Hge _ _ _].
  unfold reserveVersion. cbn [Version normalised withContent]. rewrite Hv.
  destruct (Z.eqb_spec v 0); [lia|]. simpl. unfold SaveSpecification. cbn [Row_TaskID Row_Version rowOf].
  cbn [TaskID Version normalised withContent]. rewrite Ht, Hv.
  assert (t ≠ "") as Ht' by (rewrite <-Ht; apply (wf_task _ Hw)).
  rewrite bool_decide_false by done. destruct (Z.ltb_spec v 1); [lia|].
  unfold view in Hvw. apply bind_Some in Hvw as (x & -> & [= -> _]). by rewrite Hl.
Qed.

(** save and read back.  A successful [Save] reads back as the normalised
    specification with its criteria in id order, unlocked, at the version it
    returned; every other version of every task reads as before. *)
Theorem Save_Get_roundtrip st ops ts now s s' d' :
  let d := execAll st ops (emptyDB ts) in
  Save st now s d = Ok (s', d') →
  ValidateSpecification s = Ok (normalised s) ∧
  s' = withCreatedAt now (withVersion (Version s') (normalised s)) ∧
  (Version s ≠ 0%Z → Version s' = Version s) ∧
  Get (TaskID s) (Version s') d' = Ok (asStored s') ∧
  ∀ t v, (t, v) ≠ (TaskID s, Version s') → Get t v d' = Get t v d.
Proof.
  intros d Hs. pose proof (execAll_ok st ops _ (emptyDB_ok ts)) as Hok. fold d in Hok.
  pose proof (Save_saved _ _ _ _ _ _ Hs) as H.
  pose proof (saved_readback _ _ _ _ _ Hok H) as Hread.
  pose proof (saved_reserved _ _ _ _ _ H) as Hres.
  split_and!.
  - unfold Save in Hs. destruct (ValidateSpecification s) as [n|] eqn:E; [|done].
    by apply Validate_Ok in E as [-> _].
  - apply (saved_spec _ _ _ _ _ H).
  - intros Hn. destruct (Z.eqb_spec (Version s) 0); [done|]. apply Hres.
  - rewrite Get_view, (saved_view _ _ _ _ _ H), bool_decide_true by done. by rewrite acRows_sorted, Hread.
  - intros t v Hne. rewrite !Get_view, (saved_view _ _ _ _ _ H), bool_decide_false; [done|].
    intros [-> ->]. done.
Qed.

(** ** [compileLocks]: the keyed mutex of [SaveIfChanged]

    An entry of the registry is a heap object, here a number; [owned] holds the
    entries whose mutex is locked.  A [c.mu] section is one step. *)
Record compileLocks := mkLocks {
  items : gmap string nat;
  waiters : gmap nat Z;
  owned : gset nat;
  nextEntry : nat }.

Definition newCompileLocks : compileLocks := mkLocks ∅ ∅ ∅ 0.

(** The [c.mu] section of [acquire]: the entry to lock. *)
Definition acquireEntry (task : string) (c : compileLocks) : nat * compileLocks :=
  let '(e, c) :=
    match items c !! task with
    | Some e => (e, c)
    | None => let e := nextEntry c in
              (e, mkLocks (<[task := e]> (items c)) (<[e := 0%Z]> (waiters c)) (owned c) (S e))
    end in
  (e, mkLocks (items c) (<[e := (default 0 (waiters c !! e) + 1)%Z]> (waiters c)) (owned c) (nextEntry c)).

(** The [c.mu] section of [release]: the entry to unlock, or [None] where the
    code would dereference a nil entry. *)
Definition releaseEntry (task : string) (c : compileLocks) : option (nat * compileLocks) :=
  e ← items c !! task;
  let n := (default 0 (waiters c !! e) - 1)%Z in
  Some (e, mkLocks (if (n =? 0)%Z then delete task (items c) else items c) (<[e := n]> (waiters c))
             (owned c) (nextEntry c)).

Definition lockEntry (e : nat) (c : compileLocks) : compileLocks :=
  mkLocks (items c) (waiters c) ({[e]} ∪ owned c) (nextEntry c).
Definition unlockEntry (e : nat) (c : compileLocks) : compileLocks :=
  mkLocks (items c) (waiters c) (owned c ∖ {[e]}) (nextEntry c).

Abbreviation Answer := (result Error (Specification * bool)) (only parsing).

(** Where a caller of [SaveIfChanged] is. *)
Inductive PC :=
| Called
| Queued (e : nat)
| Inside (e : nat)
| Decided (e : nat) (dec : Decision_)
| Finished (e : nat) (a : Answer)
| Leaving (e : nat) (a : Answer)
| Returned (a : Answer).

Record Caller := mkCaller { spec : Specification; pc : PC }.

Record Daemon := mkDaemon { callers : list Caller; locks : compileLocks; db : DB }.

(** The write of the critical section. *)
Definition perform (st : SpecificationStore) (now : Time) (dec : Decision_) (d : DB) : Answer * DB :=
  match dec with
  | Keep l => (Ok (l, false), d)
  | Fail_ e => (Err e, d)
  | Mint s => match Save st now s d with Ok (s, d) => (Ok (s, true), d) | Err e => (Err e, d) end
  end.

(** One step of one caller. *)
Inductive move (st : SpecificationStore) (s : Specification) :
    PC → compileLocks → DB → PC → compileLocks → DB → Prop :=
| move_acquire c d e c' : acquireEntry (TaskID s) c = (e, c') → move st s Called c d (Queued e) c' d
| move_lock c d e : e ∉ owned c → move st s (Queued e) c d (Inside e) (lockEntry e c) d
| move_read c d e : move st s (Inside e) c d (Decided e (decideSave s (GetLatest (TaskID s) d))) c d
| move_write c d e dec now a d' :
    perform st now dec d = (a, d') → move st s (Decided e dec) c d (Finished e a) c d'
| move_release c d e a e' c' :
    releaseEntry (TaskID s) c = Some (e', c') → move st s (Finished e a) c d (Leaving e' a) c' d
| move_unlock c d e a : move st s (Leaving e a) c d (Returned a) (unlockEntry e c) d.

(** A caller moves, or someone else's [allowed] operation runs. *)
Inductive step (st : SpecificationStore) (allowed : Op → Prop) : Daemon → Daemon → Prop :=
| step_move cs1 cs2 s p p' c c' d d' :
    move st s p c d p' c' d' →
    step st allowed (mkDaemon (cs1 ++ mkCaller s p :: cs2) c d) (mkDaemon (cs1 ++ mkCaller s p' :: cs2) c' d')
| step_other cs c d o : allowed o → step st allowed (mkDaemon cs c d) (mkDaemon cs c (exec st d o)).

(** Everybody has just called. *)
Definition start (specs : list Specification) (d : DB) : Daemon :=
  mkDaemon ((λ s, mkCaller s Called) <$> specs) newCompileLocks d.

(** *** Lemmas: mutual exclusion *)

Definition refs (p : PC) : option nat :=
  match p with Queued e | Inside e | Decided e _ | Finished e _ => Some e | _ => None end.
Definition owns (p : PC) : option nat :=
  match p with Inside e | Decided e _ | Finished e _ | Leaving e _ => Some e | _ => None end.

Fixpoint count (p : Caller → bool) (cs : list Caller) : nat :=
  match cs with [] => 0 | c :: cs => (if p c then 1 else 0) + count p cs end.

Lemma count_app p cs cs' : count p (cs ++ cs') = count p cs + count p cs'.
Proof. induction cs as [|c cs IH]; simpl; [done|]. rewrite IH. lia. Qed.

Lemma count_pos p cs c : c ∈ cs → p c = true → 1 ≤ count p cs.
Proof. induction 1 as [c cs|c x cs _ IH]; simpl; intros H; [rewrite H; lia|specialize (IH H); lia]. Qed.

Lemma count_exists p cs : 1 ≤ count p cs → ∃ c, c ∈ cs ∧ p c = true.
Proof.
  induction cs as [|c cs IH]; simpl; [lia|]. destruct (p c) eqn:E; intros H.
  - exists c. split; [by constructor|done].
  - destruct IH as (x & Hx & Hp); [lia|]. exists x. split; [by constructor|done].
Qed.

Definition waitsFor (t : string) (c : Caller) : bool :=
  match refs (pc c) with Some _ => bool_decide (TaskID (spec c) = t) | None => false end.
Definition holds (e : nat) (c : Caller) : bool :=
  match owns (pc c) with Some e' => e' =? e | None => false end.

Record locks_inv (cs : list Caller) (c : compileLocks) : Prop := {
  inv_refs : ∀ x e, x ∈ cs → refs (pc x) = Some e → items c !! TaskID (spec x) = Some e;
  inv_items : ∀ t e, items c !! t = Some e →
    waiters c !! e = Some (Z.of_nat (count (waitsFor t) cs)) ∧ 1 ≤ count (waitsFor t) cs ∧ e < nextEntry c;
  inv_inj : ∀ t t' e, items c !! t = Some e → items c !! t' = Some e → t = t';
  inv_owned : ∀ e, count (holds e) cs = if bool_decide (e ∈ owned c) then 1 else 0;
  inv_fresh : ∀ e, e ∈ owned c → e < nextEntry c }.

Lemma elem_of_swap (cs1 cs2 : list Caller) x y y' :
  x ∈ cs1 ++ y' :: cs2 → x = y' ∨ x ∈ cs1 ++ y :: cs2.
Proof. rewrite !elem_of_app, !elem_of_cons. tauto. Qed.

Lemma count_swap p cs1 cs2 y y' :
  count p (cs1 ++ y' :: cs2) + (if p y then 1 else 0) = count p (cs1 ++ y :: cs2) + (if p y' then 1 else 0).
Proof. rewrite !count_app. simpl. lia. Qed.

Section keyed_mutex.
  Context (st : SpecificationStore) (cs1 cs2 : list Caller) (s : Specification).
Let all p := cs1 ++ mkCaller s p :: cs2.

Lemma count_all q p p' :
  count q (all p') + (if q (mkCaller s p) then 1 else 0) = count q (all p) + (if q (mkCaller s p') then 1 else 0).
Proof. apply count_swap. Qed.

Lemma elem_of_all p p' x : x ∈ all p' → x = mkCaller s p' ∨ x ∈ all p.
Proof. apply elem_of_swap. Qed.

(** A move that touches neither the registry nor the mutexes. *)
Lemma locks_inv_same p p' c :
  refs p' = refs p → owns p' = owns p → locks_inv (all p) c → locks_inv (all p') c.
Proof using cs1 cs2.
  intros Hr Ho [I1 I2 I3 I4 I5].
  assert (∀ q, q (mkCaller s p') = q (mkCaller s p) → count q (all p') = count q (all p)) as Hq.
  { intros q Hq. pose proof (count_all q p p') as H. rewrite Hq in H. lia. }
  constructor; [| |done| |done].
  - intros x e [->|Hx]%(elem_of_all p); [|by apply I1]. simpl. rewrite Hr. apply (I1 (mkCaller s p)).
    apply elem_of_app. right. constructor.
  - intros t e He. rewrite (Hq (waitsFor t)); [by apply I2|]. unfold waitsFor; simpl. by rewrite Hr.
  - intros e. rewrite (Hq (holds e)); [apply I4|]. unfold holds; simpl. by rewrite Ho.
Qed.

Lemma in_all p : mkCaller s p ∈ all p.
Proof. apply elem_of_app. right. constructor. Qed.

Lemma locks_inv_acquire c e c' :
  acquireEntry (TaskID s) c = (e, c') → locks_inv (all Called) c → locks_inv (all (Queued e)) c'.
Proof using cs1 cs2.
  intros Hacq [I1 I2 I3 I4 I5]. unfold acquireEntry in Hacq.
  pose proof (λ t, count_all (waitsFor t) Called (Queued e)) as Hw. unfold waitsFor in Hw at 2 4; simpl in Hw.
  pose proof (λ e', count_all (holds e') Called (Queued e)) as Hh. unfold holds in Hh at 2 4; simpl in Hh.
  destruct (items c !! TaskID s) as [e0|] eqn:E; injection Hacq as He <-.
  - subst e0. destruct (I2 _ _ E) as (Hwe & Hpos & Hlt).
    constructor; cbn [items waiters owned nextEntry]; [| |done| |done].
    + intros x e' [->|Hx]%(elem_of_all Called); [by intros [= <-]|by apply I1].
    + intros t e' He'. specialize (Hw t). destruct (decide (TaskID s = t)) as [<-|Ht].
      * rewrite bool_decide_true in Hw by done. assert (e' = e) as -> by congruence.
        rewrite lookup_insert_eq, Hwe. simpl. split_and!; [f_equal; lia|lia|done].
      * rewrite bool_decide_false in Hw by done. rewrite lookup_insert_ne.
        -- destruct (I2 _ _ He') as (H1 & H2 & H3). rewrite H1. split_and!; [f_equal; lia|lia|done].
        -- intros <-. by apply Ht, (I3 _ _ e).
    + intros e'. rewrite <-I4. specialize (Hh e'). lia.
  - assert (count (waitsFor (TaskID s)) (all Called) = 0) as H0.
    { destruct (count (waitsFor (TaskID s)) (all Called)) eqn:E0; [done|].
      destruct (count_exists (waitsFor (TaskID s)) (all Called)) as (x & Hx & Hwx); [lia|].
      unfold waitsFor in Hwx. destruct (refs (pc x)) as [e1|] eqn:Er; [|done].
      apply bool_decide_eq_true in Hwx. pose proof (I1 x e1 Hx Er). congruence. }
    constructor; cbn [items waiters owned nextEntry]; subst e.
    + intros x e' [->|Hx]%(elem_of_all Called); [intros [= <-]; apply lookup_insert_eq|].
      intros Hr. rewrite lookup_insert_ne; [by apply I1|]. intros Heq. pose proof (I1 x e' Hx Hr). congruence.
    + intros t e'. specialize (Hw t). destruct (decide (TaskID s = t)) as [<-|Ht].
      * rewrite bool_decide_true in Hw by done. rewrite lookup_insert_eq. intros [= <-].
        rewrite !lookup_insert_eq. simpl. split_and!; [f_equal; lia|lia|lia].
      * rewrite bool_decide_false in Hw by done. rewrite lookup_insert_ne by done. intros He'.
        destruct (I2 _ _ He') as (H1 & H2 & H3). rewrite !lookup_insert_ne by lia. rewrite H1.
        split_and!; [f_equal; lia|lia|lia].
    + intros t t' e'. destruct (decide (TaskID s = t)) as [<-|Ht], (decide (TaskID s = t')) as [<-|Ht'];
        rewrite ?lookup_insert_eq, ?lookup_insert_ne by done; [done| | |by apply I3].
      * intros [= <-] He'. apply I2 in He' as (_ & _ & ?). lia.
      * intros He' [= <-]. apply I2 in He' as (_ & _ & ?). lia.
    + intros e'. rewrite <-I4. specialize (Hh e'). lia.
    + intros e' He'. apply I5 in He'. lia.
Qed.

Lemma locks_inv_lock c e :
  e ∉ owned c → locks_inv (all (Queued e)) c → locks_inv (all (Inside e)) (lockEntry e c).
Proof using cs1 cs2.
  intros Hn [I1 I2 I3 I4 I5].
  pose proof (λ t, count_all (waitsFor t) (Queued e) (Inside e)) as Hw. unfold waitsFor in Hw at 2 4; simpl in Hw.
  pose proof (λ e', count_all (holds e') (Queued e) (Inside e)) as Hh. unfold holds in Hh at 2 4; simpl in Hh.
  pose proof (I1 _ e (in_all (Queued e)) eq_refl) as He. simpl in He.
  constructor; cbn [items waiters owned nextEntry lockEntry]; [| |done| |].
  - intros x e' [->|Hx]%(elem_of_all (Queued e)); [by intros [= <-]|by apply I1].
  - intros t e' He'. destruct (I2 _ _ He') as (H1 & H2 & H3). specialize (Hw t). rewrite H1.
    split_and!; [f_equal; lia|lia|done].
  - intros e'. specialize (Hh e'). rewrite (I4 e') in Hh. destruct (Nat.eqb_spec e e') as [Heq|Hne]; [subst e'|].
    + rewrite bool_decide_false in Hh by done. rewrite bool_decide_true by (by apply elem_of_union_l, elem_of_singleton). lia.
    + rewrite (bool_decide_ext (e' ∈ {[e]} ∪ owned c) (e' ∈ owned c)); [lia|].
      rewrite elem_of_union, elem_of_singleton. naive_solver.
  - intros e' [->%elem_of_singleton|H]%elem_of_union; [by eapply I2|by apply I5].
Qed.

Lemma locks_inv_release c e a e' c' :
  releaseEntry (TaskID s) c = Some (e', c') → locks_inv (all (Finished e a)) c →
  e' = e ∧ locks_inv (all (Leaving e' a)) c'.
Proof using cs1 cs2.
  intros Hrel [I1 I2 I3 I4 I5]. pose proof (I1 _ e (in_all (Finished e a)) eq_refl) as He. simpl in He.
  unfold releaseEntry in Hrel. rewrite He in Hrel. simpl in Hrel. injection Hrel as <- <-. split; [done|].
  destruct (I2 _ _ He) as (Hwe & Hpos & Hlt). rewrite Hwe. simpl.
  pose proof (λ t, count_all (waitsFor t) (Finished e a) (Leaving e a)) as Hw. unfold waitsFor in Hw at 2 4; simpl in Hw.
  pose proof (λ e', count_all (holds e') (Finished e a) (Leaving e a)) as Hh. unfold holds in Hh at 2 4; simpl in Hh.
  set (n := count (waitsFor (TaskID s)) (all (Finished e a))) in *.
  pose proof (Hw (TaskID s)) as Hws. rewrite bool_decide_true in Hws by done.
  assert (∀ t e', t ≠ TaskID s →
    (if (Z.of_nat n - 1 =? 0)%Z then delete (TaskID s) (items c) else items c) !! t = Some e' ↔ items c !! t = Some e') as Hit.
  { intros t e' Ht. destruct (_ =? 0)%Z; [by rewrite lookup_delete_ne|done]. }
  constructor; cbn [items waiters owned nextEntry].
  - intros x e' Hin Hr. destruct (elem_of_all (Finished e a) _ x Hin) as [->|Hx]; [done|].
    pose proof (I1 x e' Hx Hr) as Hx'.
    destruct (decide (TaskID (spec x) = TaskID s)) as [Heq|Hne]; [|by apply Hit].
    rewrite Heq in *. destruct (Z.eqb_spec (Z.of_nat n - 1) 0) as [Hz|Hz]; [|done].
    (* the only waiter is the one that leaves *)
    exfalso. assert (1 ≤ count (waitsFor (TaskID s)) (all (Leaving e a))); [|lia].
    apply (count_pos _ _ x Hin). unfold waitsFor. rewrite Hr. by apply bool_decide_eq_true.
  - intros t e' He'. specialize (Hw t). destruct (decide (TaskID s = t)) as [<-|Ht].
    + destruct (Z.eqb_spec (Z.of_nat n - 1) 0) as [Hz|Hz]; [by rewrite lookup_delete_eq in He'|].
      assert (e' = e) as -> by congruence. rewrite lookup_insert_eq. split_and!; [f_equal; lia|lia|done].
    + rewrite bool_decide_false in Hw by done. apply Hit in He'; [|done].
      destruct (I2 _ _ He') as (H1 & H2 & H3). rewrite lookup_insert_ne by (intros <-; by apply Ht, (I3 _ _ e)).
      rewrite H1. split_and!; [f_equal; lia|lia|done].
  - assert (∀ t e', (if (Z.of_nat n - 1 =? 0)%Z then delete (TaskID s) (items c) else items c) !! t = Some e' →
                    items c !! t = Some e') as Hsub.
    { intros t e'. destruct (_ =? 0)%Z; [|done]. intros [_ H]%lookup_delete_Some. done. }
    intros t t' e' H%Hsub H'%Hsub. by eapply I3.
  - intros e'. rewrite <-I4. specialize (Hh e'). lia.
  - done.
Qed.

Lemma locks_inv_unlock c e a :
  locks_inv (all (Leaving e a)) c → locks_inv (all (Returned a)) (unlockEntry e c).
Proof using cs1 cs2.
  intros [I1 I2 I3 I4 I5].
  pose proof (λ t, count_all (waitsFor t) (Leaving e a) (Returned a)) as Hw. unfold waitsFor in Hw at 2 4; simpl in Hw.
  pose proof (λ e', count_all (holds e') (Leaving e a) (Returned a)) as Hh. unfold holds in Hh at 2 4; simpl in Hh.
  constructor; cbn [items waiters owned nextEntry unlockEntry]; [| |done| |].
  - intros x e' [->|Hx]%(elem_of_all (Leaving e a)); [done|by apply I1].
  - intros t e' He'. destruct (I2 _ _ He') as (H1 & H2 & H3). specialize (Hw t). rewrite H1.
    split_and!; [f_equal; lia|lia|done].
  - intros e'. specialize (Hh e'). rewrite (I4 e') in Hh. destruct (Nat.eqb_spec e e') as [Heq|Hne]; [subst e'|].
    + rewrite (bool_decide_false (e ∈ owned c ∖ {[e]})) by (rewrite elem_of_difference, elem_of_singleton; tauto). case_bool_decide; lia.
    + rewrite (bool_decide_ext (e' ∈ owned c ∖ {[e]}) (e' ∈ owned c)); [lia|].
      rewrite elem_of_difference, elem_of_singleton. naive_solver.
  - intros e' [H _]%elem_of_difference. by apply I5.
Qed.

Lemma locks_inv_move p c d p' c' d' :
  move st s p c d p' c' d' → locks_inv (all p) c → locks_inv (all p') c'.
Proof using cs1 cs2.
  intros Hm. destruct Hm; intros Hi.
  - by eapply locks_inv_acquire.
  - by apply locks_inv_lock.
  - by eapply locks_inv_same, Hi.
  - by eapply locks_inv_same, Hi.
  - by eapply locks_inv_release.
  - by apply locks_inv_unlock.
Qed.
End keyed_mutex.

Lemma count_start q specs : (∀ s, q (mkCaller s Called) = false) → count q ((λ s, mkCaller s Called) <$> specs) = 0.
Proof. intros Hq. induction specs as [|s specs IH]; simpl; [done|]. by rewrite Hq. Qed.

Lemma start_inv specs d : locks_inv (callers (start specs d)) (locks (start specs d)).
Proof.
  constructor; simpl.
  - intros x e (s & -> & _)%list_elem_of_fmap. done.
  - intros t e H. by rewrite lookup_empty in H.
  - intros t t' e H. by rewrite lookup_empty in H.
  - intros e. rewrite count_start by done. by rewrite bool_decide_false by apply not_elem_of_empty.
  - intros e H. by apply not_elem_of_empty in H.
Qed.

Lemma reachable_locks st allowed w w' :
  rtc (step st allowed) w w' → locks_inv (callers w) (locks w) → locks_inv (callers w') (locks w').
Proof.
  induction 1 as [|w1 w2 w3 Hs _ IH]; [done|]. intros Hi. apply IH. destruct Hs; simpl in *; [|done].
  by eapply locks_inv_move.
Qed.

(** Inside the critical section: from the locked entry to the result. *)
Definition critical (p : PC) : bool :=
  match p with Inside _ | Decided _ _ | Finished _ _ => true | _ => false end.

Lemma critical_owner cs c x :
  locks_inv cs c → x ∈ cs → critical (pc x) = true →
  ∃ e, items c !! TaskID (spec x) = Some e ∧ holds e x = true.
Proof.
  intros Hi Hx Hc. unfold holds. destruct (pc x) eqn:Ep; try done; exists e; (split; [|simpl; by apply Nat.eqb_refl]);
    apply (inv_refs _ _ Hi x e Hx); by rewrite Ep.
Qed.

Lemma exclusive cs c l1 x l2 y l3 :
  locks_inv cs c → cs = l1 ++ x :: l2 ++ y :: l3 → TaskID (spec x) = TaskID (spec y) →
  critical (pc x) = true → critical (pc y) = true → False.
Proof.
  intros Hi -> Ht Hx Hy.
  destruct (critical_owner _ c x Hi) as (e & He & Hhx); [set_solver|done|].
  destruct (critical_owner _ c y Hi) as (e' & He' & Hhy); [set_solver|done|].
  rewrite <-Ht, He in He'. injection He' as <-.
  pose proof (inv_owned _ _ Hi e) as H. rewrite !count_app in H. simpl in H. rewrite count_app in H. simpl in H.
  rewrite Hhx, Hhy in H. case_bool_decide; lia.
Qed.

Definition returned (p : PC) : bool := match p with Returned _ => true | _ => false end.

Lemma can_move st allowed cs c d x :
  locks_inv cs c → x ∈ cs → refs (pc x) = None ∧ returned (pc x) = false ∨ owns (pc x) ≠ None →
  ∃ w, step st allowed (mkDaemon cs c d) w.
Proof.
  intros Hi Hx Hp. pose proof (λ e, inv_refs _ _ Hi x e Hx) as Hr.
  apply list_elem_of_split in Hx as (cs1 & cs2 & ->). destruct x as [s p]; simpl in *.
  destruct p as [|e|e|e dec|e a|e a|a]; simpl in *.
  - destruct (acquireEntry (TaskID s) c) as [e c'] eqn:E. eexists. by apply step_move, move_acquire.
  - destruct Hp as [[? _]|?]; done.
  - eexists. apply step_move, move_read.
  - destruct (perform st 0 dec d) as [a d'] eqn:E. eexists. by eapply step_move, move_write.
  - destruct (releaseEntry (TaskID s) c) as [[e' c']|] eqn:E; [eexists; by eapply step_move, move_release|].
    unfold releaseEntry in E. by rewrite (Hr e eq_refl) in E.
  - eexists. by apply step_move, move_unlock.
  - destruct Hp as [[_ ?]|?]; done.
Qed.

(** C23: the keyed mutex.  However the callers of [SaveIfChanged] and the rest of
    the daemon are interleaved: two callers of one task are never both between
    [acquire] and [release]; [release] always finds the entry [acquire] left, so
    it never dereferences nil; somebody can always move until all have
    returned; and then the registry is empty, so it does not grow with the
    number of tasks. *)
Theorem compileLocks_correct st allowed specs d0 w :
  rtc (step st allowed) (start specs d0) w →
  (∀ l1 x l2 y l3, callers w = l1 ++ x :: l2 ++ y :: l3 → TaskID (spec x) = TaskID (spec y) →
     critical (pc x) = true → critical (pc y) = false) ∧
  (∀ x e a, x ∈ callers w → pc x = Finished e a → ∃ c', releaseEntry (TaskID (spec x)) (locks w) = Some (e, c')) ∧
  ((∃ x, x ∈ callers w ∧ returned (pc x) = false) → ∃ w', step st allowed w w') ∧
  ((∀ x, x ∈ callers w → returned (pc x) = true) → items (locks w) = ∅ ∧ owned (locks w) = ∅).
Proof.
  intros Hr. pose proof (reachable_locks _ _ _ _ Hr (start_inv specs d0)) as Hi. clear Hr.
  destruct w as [cs c d]; simpl in *. split_and!.
  - intros l1 x l2 y l3 Hcs Ht Hx. apply not_true_iff_false. intros Hy. by eapply exclusive.
  - intros x e a Hx Hp. unfold releaseEntry. rewrite (inv_refs _ _ Hi x e Hx) by by rewrite Hp. simpl. eauto.
  - intros (x & Hx & Hp). destruct (refs (pc x)) as [e|] eqn:E; [|eapply can_move; [done..|left; by split]].
    destruct (owns (pc x)) as [e'|] eqn:E'; [eapply can_move; [done..|right; by rewrite E']|].
    destruct (pc x) eqn:Ep; try done. destruct (decide (e0 ∈ owned c)) as [Ho|Ho].
    + pose proof (inv_owned _ _ Hi e0) as H. rewrite bool_decide_true in H by done.
      destruct (count_exists (holds e0) cs) as (y & Hy & Hh); [lia|].
      apply (can_move st allowed cs c d y Hi Hy). right. unfold holds in Hh. by destruct (owns (pc y)).
    + apply list_elem_of_split in Hx as (cs1 & cs2 & ->). destruct x as [s p]; simpl in *. subst p.
      eexists. by apply step_move, move_lock.
  - intros Hall. split.
    + apply map_empty. intros t. destruct (items c !! t) as [e|] eqn:E; [|done].
      destruct (inv_items _ _ Hi t e E) as (_ & Hpos & _). apply count_exists in Hpos as (x & Hx & Hw).
      specialize (Hall x Hx). unfold waitsFor in Hw. by destruct (pc x).
    + apply elem_of_equiv_empty_L. intros e He. pose proof (inv_owned _ _ Hi e) as H.
      rewrite bool_decide_true in H by done. destruct (count_exists (holds e) cs) as (x & Hx & Hw); [lia|].
      specialize (Hall x Hx). unfold holds in Hw. by destruct (pc x).
Qed.

(** *** Lemmas: one version for many identical calls *)

Definition canonical (s : Specification) : Prop :=
  well_formed s ∧ sortStable lessAC (AcceptanceCriteria s) = AcceptanceCriteria s ∧ Version s = 0%Z.

Definition seq_ok (t : string) (d : DB) : Prop :=
  ∀ v, v ∈ versionsOf t d → (v ≤ default 0%Z (sequences d !! t))%Z.

(** The latest version already says what [s] says. *)
Definition settled (s : Specification) (d : DB) (v : Z) : Prop :=
  ∃ l, GetLatest (TaskID s) d = Ok l ∧ content l = content s ∧ Version l = v.

(** What the rest of the daemon may do meanwhile: lock anything, save the
    specifications of other tasks. *)
Definition elsewhere (t : string) (o : Op) : Prop :=
  match o with
  | OpSave _ s | OpSaveIfChanged _ s => TaskID s ≠ t
  | OpLock _ _ _ _ => True
  end.

Lemma content_asStored s : sortStable lessAC (AcceptanceCriteria s) = AcceptanceCriteria s → content (asStored s) = content s.
Proof. intros H. unfold content, asStored; simpl. by rewrite H. Qed.

Lemma decideSave_spec s d :
  store_ok d → Version s = 0%Z →
  match decideSave s (GetLatest (TaskID s) d) with
  | Keep l => settled s d (Version l) ∧ content l = content s
  | Mint s' => s' = s ∧ ∀ v, ¬ settled s d v
  | Fail_ _ => False
  end.
Proof.
  intros Hok Hv. unfold decideSave, settled. destruct (GetLatest (TaskID s) d) as [l|e] eqn:E.
  - destruct (specificationsSemanticallyEqual s l) eqn:Es.
    + apply SemanticallyEqual_iff in Es. split; [by exists l|done].
    + split; [rewrite <-Hv; by destruct s|]. intros v (l' & [= <-] & Hc & _).
      rewrite <-not_true_iff_false, SemanticallyEqual_iff in Es. by symmetry in Hc.
  - apply GetLatest_Err in E as [-> _]; [|done]. split; [done|]. by intros v (l & [= ] & _).
Qed.

Lemma mint_settles st now s d s' d' :
  store_ok d → canonical s → seq_ok (TaskID s) d → Save st now s d = Ok (s', d') →
  settled s d' (Version s') ∧ content s' = content s ∧ store_ok d' ∧ seq_ok (TaskID s) d' ∧
  versionsOf (TaskID s) d' = versionsOf (TaskID s) d ++ [Version s'].
Proof.
  intros Hok (Hw & Hsort & Hv0) Hseq Hs. pose proof (Save_saved _ _ _ _ _ _ Hs) as H.
  pose proof (Save_ok _ _ _ _ _ Hok H) as Hok'.
  pose proof (saved_spec _ _ _ _ _ H) as Hs'. rewrite (normalised_id s Hw) in Hs'.
  pose proof (saved_reserved _ _ _ _ _ H) as Hres. rewrite Hv0 in Hres. destruct Hres as [Hres Hseqs].
  assert (∀ v, v ∈ versionsOf (TaskID s) d → (v < Version s')%Z) as Hlt.
  { intros v Hv. specialize (Hseq v Hv). rewrite Hres. destruct (sequences d !! TaskID s); simpl in *; lia. }
  assert (view d (TaskID s) (Version s') = None) as Hnone.
  { destruct (view d (TaskID s) (Version s')) eqn:E; [|done].
    assert (Version s' ∈ versionsOf (TaskID s) d) as Hin by (apply versionsOf_view; eauto).
    specialize (Hlt _ Hin). lia. }
  assert (versionsOf (TaskID s) d' = versionsOf (TaskID s) d ++ [Version s']) as Hvs.
  { rewrite (saved_versions _ _ _ _ _ H). by rewrite bool_decide_true. }
  assert (content s' = content s) as Hc by by rewrite Hs'.
  split_and!; [|done|done| |done].
  - exists (asStored s'). split_and!; [| |done].
    + apply (GetLatest_max _ _ (Version s')); [done|rewrite Hvs; set_solver| |].
      * intros v. rewrite Hvs. intros [Hv| ->%list_elem_of_singleton]%elem_of_app; [|done].
        specialize (Hlt v Hv). lia.
      * rewrite Get_view, (saved_view _ _ _ _ _ H), bool_decide_true by done.
        by rewrite acRows_sorted, (saved_readback _ _ _ _ _ Hok H).
    + rewrite content_asStored; [done|]. by rewrite Hs'.
  - intros v. rewrite Hvs, Hseqs, lookup_insert_eq. simpl.
    intros [Hv| ->%list_elem_of_singleton]%elem_of_app; [|done]. specialize (Hlt v Hv). lia.
Qed.

(** Another task's save leaves this task's tables alone. *)
Lemma saved_elsewhere now s d s' d' t :
  saved now s d s' d' → TaskID s ≠ t →
  (∀ v, view d' t v = view d t v) ∧ versionsOf t d' = versionsOf t d ∧ sequences d' !! t = sequences d !! t.
Proof.
  intros H Hne. split_and!.
  - intros v. rewrite (saved_view _ _ _ _ _ H), bool_decide_false; [done|]. intros [E _]; congruence.
  - rewrite (saved_versions _ _ _ _ _ H), bool_decide_false; [by rewrite app_nil_r|]. intros [E _]; congruence.
  - pose proof (saved_reserved _ _ _ _ _ H) as Hr. destruct (Version s =? 0)%Z; destruct Hr as [_ ->]; [|done].
    by rewrite lookup_insert_ne.
Qed.

Lemma elsewhere_keeps st o d s :
  store_ok d → elsewhere (TaskID s) o →
  (∀ v, settled s (exec st d o) v ↔ settled s d v) ∧
  versionsOf (TaskID s) (exec st d o) = versionsOf (TaskID s) d ∧
  sequences (exec st d o) !! TaskID s = sequences d !! TaskID s.
Proof.
  intros Hok He.
  assert (∀ now n n' d', saved now n d n' d' → TaskID n ≠ TaskID s →
    (∀ v, settled s d' v ↔ settled s d v) ∧ versionsOf (TaskID s) d' = versionsOf (TaskID s) d ∧
    sequences d' !! TaskID s = sequences d !! TaskID s) as Hsave.
  { intros now n n' d' H Hne. destruct (saved_elsewhere _ _ _ _ _ _ H Hne) as (Hview & Hvs & Hseq).
    split_and!; [|done|done]. intros v. unfold settled, GetLatest, GetLatestSpecification. rewrite Hvs.
    destruct (_ =? 0)%Z; [done|]. fold (Get (TaskID s) (foldr Z.max 0%Z (versionsOf (TaskID s) d)) d').
    fold (Get (TaskID s) (foldr Z.max 0%Z (versionsOf (TaskID s) d)) d). by rewrite !Get_view, Hview. }
  destruct o as [now n|now n|now t' v' by_]; simpl in *.
  - destruct (Save st now n d) as [[n' d']|] eqn:E; [|done]. eapply Hsave, He. by eapply Save_saved.
  - destruct (SaveIfChanged st now n d) as [[[n' b] d']|] eqn:E; [|done].
    apply SaveIfChanged_inv in E as [(_ & -> & _)|(_ & n0 & Hn & E)]; [done|].
    eapply Hsave; [by eapply Save_saved|]. unfold decideSave in Hn.
    destruct (GetLatest _ d) as [l|[]]; try done; [|by injection Hn as <-].
    destruct (specificationsSemanticallyEqual n l); [done|]. by injection Hn as <-.
  - destruct (Lock st now t' v' by_ d) as [[n' d']|] eqn:E; [|done].
    apply Lock_inv in E as (_ & Hseq & _ & Hview & Hvs). split_and!; [|done|by rewrite Hseq].
    intros v. unfold settled, GetLatest, GetLatestSpecification. rewrite Hvs.
    destruct (_ =? 0)%Z; [done|]. fold (Get (TaskID s) (foldr Z.max 0%Z (versionsOf (TaskID s) d)) d').
    fold (Get (TaskID s) (foldr Z.max 0%Z (versionsOf (TaskID s) d)) d).
    rewrite !Get_view, Hview. destruct (view d _ _) as [[r l]|]; case_bool_decide; try done.
    simpl. split; intros (x & [= <-] & Hc & Hx); eexists; (split; [reflexivity|done]).
Qed.

Definition answer (p : PC) : option Answer :=
  match p with Finished _ a | Leaving _ a | Returned a => Some a | _ => None end.
Definition created (c : Caller) : bool :=
  match answer (pc c) with Some (Ok (_, b)) => b | _ => false end.

Record once_inv (s : Specification) (vs : list Z) (cs : list Caller) (d : DB) : Prop := {
  once_store : store_ok d;
  once_seq : seq_ok (TaskID s) d;
  once_decided : ∀ x e dec, x ∈ cs → pc x = Decided e dec →
    match dec with
    | Keep l => settled s d (Version l) ∧ content l = content s
    | Mint s' => s' = s ∧ ∀ v, ¬ settled s d v
    | Fail_ _ => False
    end;
  once_answer : ∀ x n b, x ∈ cs → answer (pc x) = Some (Ok (n, b)) →
    settled s d (Version n) ∧ content n = content s;
  once_versions :
    (count created cs = 0 ∧ versionsOf (TaskID s) d = vs) ∨
    (count created cs = 1 ∧ ∃ v, versionsOf (TaskID s) d = vs ++ [v] ∧ settled s d v) }.

(** A caller that moves without touching the tables and, unless it decides,
    without a new answer. *)
Lemma once_inv_quiet s vs cs1 cs2 p p' d :
  answer p' = answer p →
  (∀ e dec, p' = Decided e dec →
    match dec with
    | Keep l => settled s d (Version l) ∧ content l = content s
    | Mint s' => s' = s ∧ ∀ v, ¬ settled s d v
    | Fail_ _ => False
    end) →
  once_inv s vs (cs1 ++ mkCaller s p :: cs2) d → once_inv s vs (cs1 ++ mkCaller s p' :: cs2) d.
Proof.
  intros Ha Hd [H1 H2 H3 H4 H5]. constructor; [done|done| | |].
  - intros x e dec [->|Hx]%(elem_of_swap _ _ x (mkCaller s p)); [apply Hd|by apply H3].
  - intros x n b [->|Hx]%(elem_of_swap _ _ x (mkCaller s p)); [|by apply H4]. simpl. rewrite Ha.
    apply (H4 (mkCaller s p)). apply elem_of_app. right. constructor.
  - pose proof (count_swap created cs1 cs2 (mkCaller s p) (mkCaller s p')) as Hc.
    assert (created (mkCaller s p') = created (mkCaller s p)) as Heq by (unfold created; simpl; by rewrite Ha).
    rewrite Heq in Hc. assert (count created (cs1 ++ mkCaller s p' :: cs2) = count created (cs1 ++ mkCaller s p :: cs2)) as -> by lia.
    done.
Qed.

Lemma settled_unique s d v v' : settled s d v → settled s d v' → v = v'.
Proof. intros (l & Hl & _ & <-) (l' & Hl' & _ & <-). congruence. Qed.

Lemma once_inv_write st now s vs cs1 cs2 c e dec a d d' :
  canonical s → (∀ x, x ∈ cs1 ++ cs2 → spec x = s) →
  locks_inv (cs1 ++ mkCaller s (Decided e dec) :: cs2) c →
  perform st now dec d = (a, d') →
  once_inv s vs (cs1 ++ mkCaller s (Decided e dec) :: cs2) d →
  once_inv s vs (cs1 ++ mkCaller s (Finished e a) :: cs2) d'.
Proof.
  intros Hcan Hspec Hlocks Hp H. pose proof H as [H1 H2 H3 H4 H5].
  pose proof (H3 (mkCaller s (Decided e dec)) e dec) as Hdec.
  assert (mkCaller s (Decided e dec) ∈ cs1 ++ mkCaller s (Decided e dec) :: cs2) as Hin.
  { apply elem_of_app. right. constructor. }
  specialize (Hdec Hin eq_refl).
  pose proof (count_swap created cs1 cs2 (mkCaller s (Decided e dec)) (mkCaller s (Finished e a))) as Hc.
  unfold created in Hc at 2; simpl in Hc. rewrite Nat.add_0_r in Hc.
  assert (∀ d', d' = d → created (mkCaller s (Finished e a)) = false →
    (∀ n b, a = Ok (n, b) → settled s d (Version n) ∧ content n = content s) →
    once_inv s vs (cs1 ++ mkCaller s (Finished e a) :: cs2) d') as Hsame.
  { intros d1 -> Hf Hans. constructor; [done|done| | |].
    - intros x e' dec' [->|Hx]%(elem_of_swap _ _ x (mkCaller s (Decided e dec))); [done|by apply H3].
    - intros x n b [->|Hx]%(elem_of_swap _ _ x (mkCaller s (Decided e dec))); [|by apply H4].
      simpl. intros [= Ha]. by eapply Hans.
    - rewrite Hf in Hc. assert (count created (cs1 ++ mkCaller s (Finished e a) :: cs2) =
        count created (cs1 ++ mkCaller s (Decided e dec) :: cs2)) as -> by lia. done. }
  destruct dec as [l|s0|err]; simpl in Hp; [| |done].
  - injection Hp as <- <-. apply Hsame; [done|done|]. by intros n b [= <- <-].
  - destruct Hdec as [-> Hno]. destruct (Save st now s d) as [[s' d1]|err] eqn:E; injection Hp as <- <-.
    2:{ apply Hsame; done. }
    destruct (mint_settles st now s d s' d1 H1 Hcan H2 E) as (Hset & Hcont & Hok' & Hseq' & Hvs').
    (* nobody else is between the read and the write, nobody has an answer yet *)
    assert (∀ x, x ∈ cs1 ++ cs2 → critical (pc x) = false) as Hexcl.
    { intros x Hx. apply not_true_iff_false. intros Hcx. pose proof (Hspec x Hx) as Hsx.
      apply elem_of_app in Hx as [Hx|Hx]; apply list_elem_of_split in Hx as (l1 & l2 & ->).
      - eapply (exclusive _ c l1 x l2 (mkCaller s (Decided e (Mint s))) cs2 Hlocks); [|by rewrite Hsx|done|done].
        by rewrite <-app_assoc.
      - by eapply (exclusive _ c cs1 (mkCaller s (Decided e (Mint s))) l1 x l2 Hlocks); [|rewrite Hsx| |]. }
    assert (∀ x n b, x ∈ cs1 ++ cs2 → answer (pc x) ≠ Some (Ok (n, b))) as Hnone.
    { intros x n b Hx Ha. destruct (H4 x n b) as [Hs _]; [set_solver|done|]. by apply Hno in Hs. }
    assert (∀ x y, x ∈ cs1 ++ y :: cs2 → x = y ∨ x ∈ cs1 ++ cs2) as Hsplit by set_solver.
    constructor; [done|done| | |].
    + intros x e' dec' [->|Hx]%Hsplit; [done|]. intros Hd. apply Hexcl in Hx. by rewrite Hd in Hx.
    + intros x n b [->|Hx]%Hsplit; [|intros Ha; by apply Hnone in Ha]. simpl. by intros [= <- <-].
    + right. unfold created in Hc at 3; simpl in Hc. destruct H5 as [[H5 <-]|[_ (v & _ & Hs)]]; [|by apply Hno in Hs].
      split; [lia|]. eauto.
Qed.

Lemma once_inv_step st s vs w w' :
  canonical s → (∀ x, x ∈ callers w → spec x = s) →
  step st (elsewhere (TaskID s)) w w' → locks_inv (callers w) (locks w) → once_inv s vs (callers w) (db w) →
  once_inv s vs (callers w') (db w') ∧ ∀ x, x ∈ callers w' → spec x = s.
Proof.
  intros Hcan Hspec Hs Hl Hi. destruct Hs as [cs1 cs2 s0 p p' c c' d d' Hm|cs c d o Ho]; simpl in *.
  - assert (s0 = s) as ->.
    { apply (Hspec (mkCaller s0 p)). apply elem_of_app. right. constructor. }
    split.
    + destruct Hm; try (eapply once_inv_quiet, Hi; done).
      * eapply once_inv_quiet, Hi; [done|]. intros e0 dec [= <- <-].
        apply decideSave_spec; [apply (once_store _ _ _ _ Hi)|apply Hcan].
      * eapply once_inv_write; try done. intros x Hx. apply Hspec. set_solver.
    + intros x [->|Hx]%(elem_of_swap _ _ x (mkCaller s p)); [done|by apply Hspec].
  - split; [|done]. destruct Hi as [H1 H2 H3 H4 H5].
    destruct (elsewhere_keeps st o d s H1 Ho) as (Hset & Hvs & Hseq). constructor.
    + by apply exec_ok.
    + intros v. rewrite Hvs, Hseq. apply H2.
    + intros x e dec Hx Hp. specialize (H3 x e dec Hx Hp). destruct dec; [|destruct H3 as [? H3]; split; [done|]|done].
      * by rewrite Hset.
      * intros v. rewrite Hset. apply H3.
    + intros x n b Hx Hp. rewrite Hset. by eapply H4.
    + rewrite Hvs. destruct H5 as [H5|(H5 & v & H6 & H7)]; [by left|right]. split; [done|]. exists v. by rewrite Hset.
Qed.

(** many identical compile requests, one version.  Any number of concurrent
    [SaveIfChanged] calls with one canonical specification, interleaved in any
    way with each other, with locks and with saves of other tasks: at most one
    of them creates a version, the task then has exactly one version more (or
    none more, when nobody created one), and everybody who succeeds returns
    that same content and version, which is the latest. *)
Theorem SaveIfChanged_once st s n d0 w :
  canonical s → store_ok d0 → seq_ok (TaskID s) d0 →
  rtc (step st (elsewhere (TaskID s))) (start (replicate n s) d0) w →
  (count created (callers w) = 0 ∧ versionsOf (TaskID s) (db w) = versionsOf (TaskID s) d0 ∨
   count created (callers w) = 1 ∧ ∃ v, versionsOf (TaskID s) (db w) = versionsOf (TaskID s) d0 ++ [v]) ∧
  ∀ x l b, x ∈ callers w → answer (pc x) = Some (Ok (l, b)) →
    content l = content s ∧ ∃ now_, GetLatest (TaskID s) (db w) = Ok now_ ∧ content now_ = content s ∧ Version now_ = Version l.
Proof.
  intros Hcan Hok Hseq Hr.
  assert (once_inv s (versionsOf (TaskID s) d0) (callers w) (db w) ∧ ∀ x, x ∈ callers w → spec x = s) as [Hi _].
  { remember (start (replicate n s) d0) as w0 eqn:Hw0.
    assert (locks_inv (callers w0) (locks w0)) as Hl by (rewrite Hw0; apply start_inv).
    assert (∀ x, x ∈ callers w0 → spec x = s) as Hspec.
    { rewrite Hw0. intros x (y & -> & Hy)%list_elem_of_fmap. by apply elem_of_replicate in Hy as [-> _]. }
    assert (once_inv s (versionsOf (TaskID s) d0) (callers w0) (db w0)) as Hi.
    { rewrite Hw0. constructor; simpl; [done|done| | |left; split; [by apply count_start|done]];
        intros x ? ? (y & -> & _)%list_elem_of_fmap; done. }
    clear Hw0 Hok Hseq. revert Hl Hspec Hi. induction Hr as [|w1 w2 w3 Hs Hr IH]; intros Hl Hspec Hi; [done|].
    destruct (once_inv_step _ _ _ _ _ Hcan Hspec Hs Hl Hi) as [Hi' Hspec']. apply IH; [|done|done].
    eapply reachable_locks; [by apply rtc_once|done]. }
  split.
  - destruct (once_versions _ _ _ _ Hi) as [[H1 H2]|(H1 & v & H2 & _)]; [by left|right; eauto].
  - intros x l b Hx Ha. destruct (once_answer _ _ _ _ Hi x l b Hx Ha) as [(l' & H1 & H2 & H3) H4]. eauto.
Qed.

(** ** What the model shows of the store's corner cases *)

Definition demoSpec : Specification :=
  mkSpecification "T-1" 0 "Build X" [mkAC "AC-1" "it works"; mkAC "AC-2" "it is tested"] ["no UI"] [] []
    RiskR1 ComplexityC1 [] noVisual false 0 "" 0 "alice".
Definition quietStore : SpecificationStore := mkStore None.
Definition oneTask : DB := emptyDB ["T-1"].

Definition tenCriteria : Specification :=
  withContent "Build X" ((λ id, mkAC id "it works") <$>
    ["AC-1"; "AC-2"; "AC-3"; "AC-4"; "AC-5"; "AC-6"; "AC-7"; "AC-8"; "AC-9"; "AC-10"]) demoSpec.

(** Criteria are stored in the byte order of their ids, where "AC-10" comes
    before "AC-2", and compared in list order: a specification with ten numbered
    criteria never equals its stored self, and each identical compile mints one
    more version. *)
Lemma ten_criteria_never_settle :
  let again d := exec quietStore d (OpSaveIfChanged 5 tenCriteria) in
  ListVersions "T-1" (again (again (again oneTask))) = [1; 2; 3]%Z.
Proof. vm_compute. done. Qed.

(** The comparison uses the specification as it came, the store holds the
    normalised one: surrounding blanks mint a version each time as well. *)
Lemma blanks_never_settle :
  let s := withContent "Build X " (AcceptanceCriteria demoSpec) demoSpec in
  let again d := exec quietStore d (OpSaveIfChanged 5 s) in
  ListVersions "T-1" (again (again oneTask)) = [1; 2]%Z.
Proof. vm_compute. done. Qed.

(** With no version stored yet [SaveIfChanged] keeps an explicit version; the
    counter does not know it, so a later change is minted below it and the
    latest version stays the old one. *)
Lemma explicit_version_hides_changes :
  let d1 := exec quietStore oneTask (OpSaveIfChanged 5 (withVersion 7 demoSpec)) in
  let d2 := exec quietStore d1 (OpSaveIfChanged 6 (withContent "Build Y" (AcceptanceCriteria demoSpec) demoSpec)) in
  ListVersions "T-1" d2 = [1; 7]%Z ∧
  match GetLatest "T-1" d2 with Ok s => Objective s = "Build X" | Err _ => False end.
Proof. vm_compute. done. Qed.

(** [Save] hands its caller's lock flag back, whatever it stored. *)
Lemma Save_echoes_lock st ops ts now s s' d' :
  let d := execAll st ops (emptyDB ts) in
  Save st now s d = Ok (s', d') → Locked s' = Locked s ∧
  ∃ l, Get (TaskID s) (Version s') d' = Ok l ∧ Locked l = false.
Proof.
  intros d Hs. pose proof (Save_saved _ _ _ _ _ _ Hs) as H.
  split; [by rewrite (saved_spec _ _ _ _ _ H)|].
  eexists. split; [rewrite Get_view, (saved_view _ _ _ _ _ H), bool_decide_true by done; reflexivity|].
  rewrite acRows_sorted. fold d. rewrite (saved_readback now s d s' d'); [done| |done].
  apply execAll_ok, emptyDB_ok.
Qed.

(** ** Witnesses *)

Lemma stored_specs_well_formed_witness :
  ∃ s, Get "T-1" 1 (execAll quietStore [OpSave 5 demoSpec] oneTask) = Ok s ∧ ValidateSpecification s = Ok s.
Proof.
  destruct (Get "T-1" 1 (execAll quietStore [OpSave 5 demoSpec] oneTask)) as [s|e] eqn:E;
    [|exfalso; vm_compute in E; discriminate].
  exists s. split; [done|]. apply (stored_specs_well_formed quietStore [OpSave 5 demoSpec] ["T-1"] "T-1" 1 s E).
Defined.

Definition lockedOps : list Op := [OpSave 5 demoSpec; OpLock 6 "T-1" 1 "alice"].

Lemma locked_immutable_witness :
  ∃ s by_, Get "T-1" 1 (execAll quietStore lockedOps oneTask) = Ok s ∧
    Get "T-1" 1 (execAll quietStore (lockedOps ++ [OpLock 9 "T-1" 1 "bob"]) oneTask) = Ok (relocked by_ s).
Proof.
  destruct (Get "T-1" 1 (execAll quietStore lockedOps oneTask)) as [s|e] eqn:E;
    [|exfalso; vm_compute in E; discriminate].
  assert (Locked s = true) as Hl by (vm_compute in E; injection E as <-; reflexivity).
  destruct (locked_immutable quietStore lockedOps [OpLock 9 "T-1" 1 "bob"] ["T-1"] "T-1" 1 s E Hl)
    as [(by_ & H & _) _].
  exists s, by_. split; [done|exact H].
Defined.

Lemma Save_Get_roundtrip_witness :
  ∃ s' d', Save quietStore 5 demoSpec oneTask = Ok (s', d') ∧ Get "T-1" (Version s') d' = Ok (asStored s').
Proof.
  destruct (Save quietStore 5 demoSpec oneTask) as [[s' d']|e] eqn:E; [|exfalso; vm_compute in E; discriminate].
  exists s', d'. split; [done|].
  apply (Save_Get_roundtrip quietStore [] ["T-1"] 5 demoSpec s' d' E).
Defined.

Lemma compileLocks_correct_witness :
  ∃ w, rtc (step quietStore (λ _, False)) (start [demoSpec; demoSpec] oneTask) w ∧
       ∃ w', step quietStore (λ _, False) w w'.
Proof.
  set (c1 := (acquireEntry "T-1" newCompileLocks).2).
  exists (mkDaemon ([mkCaller demoSpec (Queued 0)] ++ [mkCaller demoSpec Called]) c1 oneTask).
  assert (rtc (step quietStore (λ _, False)) (start [demoSpec; demoSpec] oneTask)
            (mkDaemon ([mkCaller demoSpec (Queued 0)] ++ [mkCaller demoSpec Called]) c1 oneTask)) as H.
  { apply rtc_once, (step_move quietStore _ [] [mkCaller demoSpec Called]), move_acquire. reflexivity. }
  split; [exact H|].
  apply (compileLocks_correct quietStore _ _ _ _ H). eexists. split; [apply list_elem_of_here|reflexivity].
Defined.

Lemma SaveIfChanged_once_witness :
  canonical demoSpec ∧
  ∃ w, rtc (step quietStore (elsewhere "T-1")) (start (replicate 1 demoSpec) oneTask) w ∧
       (count created (callers w) = 0 ∧ versionsOf "T-1" (db w) = [] ∨
        count created (callers w) = 1 ∧ ∃ v, versionsOf "T-1" (db w) = [v]) ∧
       count created (callers w) = 1.
Proof.
  assert (canonical demoSpec) as Hcan.
  { split_and!; [apply Validate_fix; vm_compute; reflexivity|vm_compute; reflexivity|reflexivity]. }
  split; [done|].
  destruct (Save quietStore 5 demoSpec oneTask) as [[s' d']|e] eqn:E; [|exfalso; vm_compute in E; discriminate].
  set (c1 := (acquireEntry "T-1" newCompileLocks).2).
  exists (mkDaemon ([] ++ mkCaller demoSpec (Finished 0 (Ok (s', true))) :: []) (lockEntry 0 c1) d').
  assert (rtc (step quietStore (elsewhere "T-1")) (start (replicate 1 demoSpec) oneTask)
            (mkDaemon ([] ++ mkCaller demoSpec (Finished 0 (Ok (s', true))) :: []) (lockEntry 0 c1) d')) as H.
  { apply (rtc_l _ _ (mkDaemon ([] ++ mkCaller demoSpec (Queued 0) :: []) c1 oneTask)).
    { apply (step_move quietStore _ [] []), move_acquire. reflexivity. }
    apply (rtc_l _ _ (mkDaemon ([] ++ mkCaller demoSpec (Inside 0) :: []) (lockEntry 0 c1) oneTask)).
    { apply step_move, move_lock. apply not_elem_of_empty. }
    apply (rtc_l _ _ (mkDaemon ([] ++ mkCaller demoSpec (Decided 0 (Mint demoSpec)) :: []) (lockEntry 0 c1) oneTask)).
    { apply step_move, move_read. }
    apply rtc_once, step_move, (move_write _ _ _ _ _ _ 5). simpl. by rewrite E. }
  split; [exact H|]. split; [|reflexivity].
  apply (SaveIfChanged_once quietStore demoSpec 1 oneTask _ Hcan); [apply emptyDB_ok| |exact H].
  intros v Hv. by apply elem_of_nil in Hv.
Defined.

End specification.
