(* ===== verification/Compiler.v ===== *)
(** * Compiler: the deterministic task compiler

    Models [internal/task/compiler.go].  Descriptions are valid UTF-8 byte
    strings (on other input the code replaces each bad byte while squeezing);
    [ToLower] is on ASCII.  [Compile] returns its result together with the
    error the code reserves for a missing task id. *)
From S2P Require Import Prelude Risk Specification.
Import specification.

Module compiler.

(** [AttachmentRole], a string type ([backlog.go]). *)
Abbreviation AttachmentRole := string (only parsing).
Definition RoleDesignReference : AttachmentRole := "DESIGN_REFERENCE".
Definition RoleBugScreenshot : AttachmentRole := "BUG_SCREENSHOT".
Definition RoleRequirements : AttachmentRole := "REQUIREMENTS".
Definition RoleLog : AttachmentRole := "LOG".
Definition RoleAPISpec : AttachmentRole := "API_SPECIFICATION".
Definition RoleExample : AttachmentRole := "EXAMPLE".
Definition RoleGeneralContext : AttachmentRole := "GENERAL_CONTEXT".

Record Attachment := mkAttachment {
  Hash : string;
  Filename : string;
  MimeType : string;
  Size : Z;
  Role : AttachmentRole }.

Record CompileInput := mkInput {
  In_TaskID : string;
  Title : string;
  Description : string;
  Priority : string;
  Attachments : list Attachment }.

Inductive Confidence := ConfidenceHigh | ConfidenceMedium | ConfidenceLow.
#[global] Instance Confidence_eq_dec : EqDecision Confidence.
Proof. solve_decision. Defined.

Record Clarification := mkClarification {
  Question : string;
  Reason : string;
  Options : list string }.

Record CompileResult := mkResult {
  Result_Specification : Specification;
  Result_Confidence : Confidence;
  UncertaintyReasons : list string;
  Clarifications : list Clarification;
  RiskReasons : list string;
  ComplexityReasons : list string;
  AttachmentRoles : gmap string AttachmentRole }.

(** ** Strings *)

Abbreviation nl := strs.nl.
Abbreviation cr := strs.cr.
Abbreviation tab := strs.tab.
Abbreviation TrimLeft := strs.TrimLeft.
Abbreviation TrimRight := strs.TrimRight.
Abbreviation splitLines := strs.SplitLines.
Definition blanks : list ascii := [" "%char; tab].

(** What is before and after the first [sep] ([strings.Index]). *)
Fixpoint cut (sep : ascii) (s : string) : option (string * string) :=
  match s with
  | EmptyString => None
  | String c s' =>
      if bool_decide (c = sep) then Some (EmptyString, s')
      else '(a, b) ← cut sep s'; Some (String c a, b)
  end.

(** [strings.ReplaceAll(s, "\r\n", "\n")], then [("\r", "\n")]. *)
Fixpoint replaceCRLF (s : string) : string :=
  match s with
  | EmptyString => EmptyString
  | String c s' =>
      match s' with
      | String c' s'' => if bool_decide (c = cr ∧ c' = nl) then String nl (replaceCRLF s'') else String c (replaceCRLF s')
      | EmptyString => String c EmptyString
      end
  end.
Definition replaceByte (a b : ascii) : string → string := strs.map_bytes (λ c, if bool_decide (c = a) then b else c).

Definition normaliseLines (s : string) : list string :=
  if bool_decide (s = "") then [] else splitLines (replaceByte cr nl (replaceCRLF s)).

(** The loop of [squeezeWhitespace]. *)
Definition isSpace (c : ascii) : bool :=
  let n := nat_of_ascii c in (n =? 32) || ((9 <=? n) && (n <=? 13)).
Fixpoint squeeze (inSpace : bool) (s : string) : string :=
  match s with
  | EmptyString => EmptyString
  | String c s =>
      if isSpace c then (if inSpace then squeeze true s else String " " (squeeze true s))
      else String c (squeeze false s)
  end.
Definition squeezeWhitespace (s : string) : string :=
  if bool_decide (s = "") then "" else TrimRight [" "%char] (TrimLeft [" "%char] (squeeze false s)).

(** ** Sections *)

Definition knownSectionHeaders : list (string * string) :=
  [("objective", "objective"); ("goal", "objective");
   ("acceptance criteria", "acceptance-criteria"); ("acceptance criterion", "acceptance-criteria");
   ("acceptances", "acceptance-criteria");
   ("non-goals", "non-goals"); ("non goals", "non-goals"); ("nongoals", "non-goals"); ("out of scope", "non-goals");
   ("assumptions", "assumptions"); ("assumption", "assumptions");
   ("constraints", "constraints"); ("constraint", "constraints");
   ("scope", "scope"); ("proposed scope", "scope");
   ("risk", "risk"); ("complexity", "complexity")].

(** A Go map lookup in the table above, whose keys are distinct. *)
Fixpoint lookupHeader (label : string) (l : list (string * string)) : option string :=
  match l with
  | [] => None
  | (k, v) :: l => if bool_decide (k = label) then Some v else lookupHeader label l
  end.

Definition matchHeader (line : string) : option (string * string) :=
  let trimmed := TrimLeft blanks line in
  if bool_decide (trimmed = "") then None
  else
    let trimmed := TrimLeft blanks (TrimLeft ["#"%char] trimmed) in
    match cut ":"%char trimmed with
    | None | Some (EmptyString, _) => None
    | Some (before, after) =>
        let label := strs.ToLower (strs.TrimSpace before) in
        if bool_decide (label = "") || (64 <? String.length label) then None
        else if strs.Contains label "." then None
        else key ← lookupHeader label knownSectionHeaders; Some (key, strs.TrimSpace after)
    end.

Definition isDigit (c : ascii) : bool := let n := nat_of_ascii c in (48 <=? n) && (n <=? 57).
Fixpoint allDigits (s : string) : bool :=
  match s with EmptyString => true | String c s => isDigit c && allDigits s end.

Definition bullet : string := strs.bytes [226; 128; 162].

(** The numbered marker: one to three digits, a dot, a blank. *)
Definition numberedItem (trimmed : string) : option string :=
  match cut "."%char trimmed with
  | Some (n, String c rest) =>
      if negb (bool_decide (n = "")) && (String.length n <=? 3) && allDigits n && bool_decide (c ∈ blanks)
      then Some (strs.TrimSpace rest) else None
  | _ => None
  end.

Definition stripListMarker (line : string) : option string :=
  let trimmed := TrimLeft blanks line in
  match trimmed with
  | EmptyString => None
  | String c rest =>
      if strs.HasPrefix trimmed bullet then Some (TrimLeft blanks (strs.drop_bytes 3 trimmed))
      else if bool_decide (c ∈ ["-"%char; "*"%char]) then
        match rest with
        | String c' rest => if bool_decide (c' ∈ blanks) then Some (strs.TrimSpace rest) else None
        | EmptyString => None
        end
      else numberedItem trimmed
  end.

(** The loop state of [splitListItems]: the items and the [current] builder. *)
Definition flushItem (items : list string) (current : string) : list string :=
  let s := squeezeWhitespace current in
  if bool_decide (s = "") then items else items ++ [s].

Definition splitLine (acc : list string * string) (ln : string) : list string * string :=
  let '(items, current) := acc in
  let ln := TrimRight blanks ln in
  if bool_decide (ln = "") then (flushItem items current, "")
  else match stripListMarker ln with
       | Some item =>
           (flushItem items current ++ (if bool_decide (item = "") then [] else [squeezeWhitespace item]), "")
       | None =>
           if bool_decide (current = "") then (items, strs.TrimSpace ln)
           else (items, current +:+ " " +:+ strs.TrimSpace ln)
       end.

Definition splitListItems (body : list string) : list string :=
  let '(items, current) := foldl splitLine ([], "") body in flushItem items current.

Record parsedSections := mkSections {
  headers : gset string;
  items : gmap string (list string);
  preamble : list string }.

(** The loop state: the sections so far, the current key, its body. *)
Record Parse := mkParse { secs : parsedSections; current : string; body : list string }.

Definition flushSection (p : Parse) : parsedSections :=
  let s := secs p in
  if bool_decide (current p = "") then mkSections (headers s) (items s) (preamble s ++ body p)
  else
    let add l := mkSections (headers s) (<[current p := default [] (items s !! current p) ++ l]> (items s)) (preamble s) in
    if bool_decide (current p = "objective") then
      let joined := squeezeWhitespace (strs.Join (body p) " ") in
      if bool_decide (joined = "") then s else add [joined]
    else add (splitListItems (body p)).

Definition parseLine (p : Parse) (ln : string) : Parse :=
  match matchHeader ln with
  | Some (key, inline) =>
      let s := flushSection p in
      mkParse (mkSections ({[key]} ∪ headers s) (items s) (preamble s)) key
        (if bool_decide (inline = "") then [] else [inline])
  | None => mkParse (secs p) (current p) (body p ++ [ln])
  end.

Definition noSections : parsedSections := mkSections ∅ ∅ [].

Definition parseSections (description : string) : parsedSections :=
  if bool_decide (description = "") then noSections
  else flushSection (foldl parseLine (mkParse noSections "" []) (normaliseLines description)).

Definition list_ (s : parsedSections) (key : string) : list string := default [] (items s !! key).
Definition get (s : parsedSections) (key : string) : string :=
  match list_ s key with [] => "" | x :: _ => x end.
Definition has (s : parsedSections) (key : string) : bool := bool_decide (key ∈ headers s).

(** ** Deriving the specification *)

Inductive objectiveSource :=
| objectiveAbsent | objectiveFromAttachment | objectiveFromDescription | objectiveFromTitle | objectiveFromSection.
#[global] Instance objectiveSource_eq_dec : EqDecision objectiveSource.
Proof. solve_decision. Defined.

(** The loop of [firstNonEmptyParagraph]. *)
Fixpoint paragraph (collected l : list string) : list string :=
  match l with
  | [] => collected
  | ln :: l =>
      let s := strs.TrimSpace ln in
      if bool_decide (s = "") then (if bool_decide (collected = []) then paragraph collected l else collected)
      else paragraph (collected ++ [s]) l
  end.
Definition firstNonEmptyParagraph (preamble : list string) : string :=
  match paragraph [] preamble with [] => "" | l => squeezeWhitespace (strs.Join l " ") end.

Definition rolePriority (r : AttachmentRole) : Z :=
  if bool_decide (r = RoleRequirements) then 5
  else if bool_decide (r = RoleAPISpec) then 4
  else if bool_decide (r = RoleDesignReference) then 3
  else if bool_decide (r = RoleExample) then 2
  else if bool_decide (r = RoleBugScreenshot) then 1 else 0.

(** The first attachment of the highest priority. *)
Definition bestAttachment (a : Attachment) (l : list Attachment) : Attachment :=
  foldl (λ best x, if (rolePriority (Role best) <? rolePriority (Role x))%Z then x else best) a l.

Definition underscore : ascii := "_"%char.
Definition synthesiseObjectiveFromAttachments (i : CompileInput) : option string :=
  match Attachments i with
  | [] => None
  | a :: l =>
      let a := bestAttachment a l in
      let roleLabel := strs.ToLower (replaceByte underscore " "%char (Role a)) in
      let fileClause := if bool_decide (Filename a = "") then "" else " (" +:+ Filename a +:+ ")" in
      Some ("Implement changes based on the attached " +:+ roleLabel +:+ fileClause +:+ ".")
  end.

Definition deriveObjective (i : CompileInput) (s : parsedSections) : string * objectiveSource :=
  if has s "objective" && negb (bool_decide (get s "objective" = "")) then (get s "objective", objectiveFromSection)
  else if negb (bool_decide (Title i = "")) then (Title i, objectiveFromTitle)
  else
    let para := firstNonEmptyParagraph (preamble s) in
    if negb (bool_decide (para = "")) then (para, objectiveFromDescription)
    else match synthesiseObjectiveFromAttachments i with
         | Some obj => (obj, objectiveFromAttachment)
         | None => ("", objectiveAbsent)
         end.

(** The numbered criteria of a section, from index [i]; blank ones are skipped
    but keep their number. *)
Fixpoint numberCriteria (i : nat) (l : list string) : list AcceptanceCriterion :=
  match l with
  | [] => []
  | stmt :: l =>
      if bool_decide (strs.TrimSpace stmt = "") then numberCriteria (S i) l
      else mkAC ("AC-" +:+ pretty (Z.of_nat (S i))) stmt :: numberCriteria (S i) l
  end.

Definition deriveAcceptanceCriteria (s : parsedSections) (objective : string) : list AcceptanceCriterion * bool :=
  let explicit := if has s "acceptance-criteria" then numberCriteria 0 (list_ s "acceptance-criteria") else [] in
  match explicit with
  | [] => if bool_decide (objective = "") then ([], true)
          else ([mkAC "AC-1" ("The change satisfies its objective: " +:+ objective)], true)
  | acs => (acs, false)
  end.

(** ** Classifiers *)

Definition containsAnyFold (s : string) (subs : list string) : bool :=
  if bool_decide (s = "") then false
  else existsb (λ sub, negb (bool_decide (sub = "")) && strs.Contains (strs.ToLower s) (strs.ToLower sub)) subs.

Definition containsAny (s : string) (subs : list string) : bool :=
  existsb (λ sub, negb (bool_decide (sub = "")) && strs.Contains s sub) subs.

Definition joinForClassifier (i : CompileInput) : string :=
  strs.Join ((if bool_decide (Title i = "") then [] else [Title i])
             ++ (if bool_decide (Description i = "") then [] else [Description i])) (String nl EmptyString).

Definition classifyRisk (i : CompileInput) : risk.Result :=
  let d := Description i in
  risk.Classify (risk.mkSignals (joinForClassifier i) (Filename <$> Attachments i)
    (containsAnyFold d ["auth"; "oauth"; "sso"; "2fa"; "mfa"; "session token"])
    (containsAnyFold d ["payment"; "billing"; "charge"; "refund"; "stripe"])
    (containsAnyFold d ["permission"; "acl"; "authorization"; "rbac"])
    (containsAnyFold d ["drop table"; "rm -rf"; "force push"; "delete user"])
    (containsAnyFold d ["migration"; "migrate"; "schema change"; "alter table"])
    (containsAnyFold d ["race"; "deadlock"; "mutex"; "lock"; "transaction"])
    (containsAnyFold d ["subscription"; "subscribe"; "billing plan"])
    (containsAnyFold d ["public api"; "api endpoint"; "webhook"; "openapi"])
    (containsAnyFold d ["ci/"; "infrastructure"; "terraform"; "deployment"])).

Definition toTaskRisk (l : Z) : Risk :=
  if (l =? risk.R0)%Z then RiskR0 else if (l =? risk.R1)%Z then RiskR1 else if (l =? risk.R2)%Z then RiskR2
  else if (l =? risk.R3)%Z then RiskR3 else if (l =? risk.R4)%Z then RiskR4 else "".

Record complexityResult := mkComplexity { Complexity_ : Complexity; Reasons : list string }.

(** One [if cond { score += n; reasons = append(...) }]. *)
Definition bump (cond : bool) (n : Z) (reason : string) (acc : Z * list string) : Z * list string :=
  if cond then ((acc.1 + n)%Z, acc.2 ++ [reason]) else acc.

Definition complexityBand (score : Z) : Complexity :=
  if (4 <=? score)%Z then ComplexityC3 else if (3 <=? score)%Z then ComplexityC2
  else if (1 <=? score)%Z then ComplexityC1 else ComplexityC0.

Definition classifyComplexity (i : CompileInput) (s : parsedSections) : complexityResult :=
  let low := strs.ToLower (joinForClassifier i) in
  let acc := if containsAny low ["typo"; "rename"; "docs"; "changelog"; "comment"; "format"; "lint"]
             then (0%Z, ["mechanical/docs change"]) else (1%Z, []) in
  let acc := bump (containsAny low ["refactor"; "feature"; "implement"; "build"]) 1 "implementation/refactor role" acc in
  let acc := bump (containsAny low ["migration"; "migrate"; "schema"]) 1 "migration/schema role" acc in
  let acc := bump (containsAny low ["architect"; "design system"; "rewrite"; "overhaul"]) 2 "architectural role" acc in
  let acc := bump (5 <=? length (list_ s "scope")) 1 "large proposed scope (>=5 items)" acc in
  let acc := bump (3 <=? length (Attachments i)) 1 "multiple attachments (cross-cutting context)" acc in
  let acc := if containsAny low ["migration"; "concurrency"; "auth"; "payment"; "permission"; "subscription"]
                && (acc.1 <? 2)%Z
             then (2%Z, acc.2 ++ ["elevated-risk topic floors complexity at C2"]) else acc in
  mkComplexity (complexityBand acc.1) acc.2.

Definition visualRole (a : Attachment) : bool :=
  bool_decide (Role a = RoleDesignReference) || bool_decide (Role a = RoleBugScreenshot).
Definition deriveVisualRequirements (l : list Attachment) : VisualRequirements :=
  let refs := Hash <$> filter (λ a, visualRole a = true) l in
  mkVisualRequirements (existsb visualRole l) "" "" "" "" refs.

(** ** Confidence *)

Definition askObjective : Clarification :=
  mkClarification "What is the objective of this task?"
    "The input had no description and no attachment; the compiler cannot formulate an actionable objective." [].
Definition askAttachment : Clarification :=
  mkClarification "Confirm the objective derived from the attachment."
    "The compiler does not read attachment content; the placeholder objective is advisory."
    ["Confirm the placeholder"; "Provide an explicit objective"].
Definition askSecurity : Clarification :=
  mkClarification "Confirm the security/money impact and review posture."
    "R4 changes (auth/payments/permissions/destructive) carry an elevated review requirement; a safe assumption is not possible."
    ["LOCAL_REVIEW with explicit approval"; "REMOTE_REVIEW"; "AUTONOMOUS with revert enabled"].
Definition askDetail : Clarification :=
  mkClarification "Provide more detail about the expected change."
    "The free-form input (title + description) is shorter than 16 characters; the compiler cannot infer acceptance criteria or scope." [].

Definition freeForm (o : objectiveSource) : bool :=
  match o with objectiveFromDescription | objectiveFromTitle => true | _ => false end.

Definition tooShort (i : CompileInput) : bool :=
  String.length (squeezeWhitespace (Title i +:+ " " +:+ Description i)) <? 16.

Definition deriveConfidenceAndClarifications (i : CompileInput) (o : objectiveSource) (acsSynthesised : bool)
    (r : risk.Result) : Confidence * list Clarification :=
  match o with
  | objectiveAbsent => (ConfidenceLow, [askObjective])
  | objectiveFromAttachment => (ConfidenceLow, [askAttachment])
  | _ =>
      let cs := if (risk.Level r =? risk.R4)%Z then [askSecurity] else [] in
      if freeForm o && tooShort i then (ConfidenceLow, cs ++ [askDetail])
      else if bool_decide (o = objectiveFromSection) && negb acsSynthesised && bool_decide (cs = [])
      then (ConfidenceHigh, [])
      else (ConfidenceMedium, cs)
  end.

(** A later attachment with the same hash overrides. *)
Definition collectAttachmentRoles (l : list Attachment) : gmap string AttachmentRole :=
  foldl (λ m a, <[Hash a := Role a]> m) ∅ l.

Definition Compile (i : CompileInput) : CompileResult * option (list Violation) :=
  let s := parseSections (Description i) in
  let '(objective, objSource) := deriveObjective i s in
  let '(acs, acsSynthesised) := deriveAcceptanceCriteria s objective in
  let riskRes := classifyRisk i in
  let cx := classifyComplexity i s in
  let '(conf, clar) := deriveConfidenceAndClarifications i objSource acsSynthesised riskRes in
  let spec := mkSpecification (In_TaskID i) 0 objective acs (list_ s "non-goals") (list_ s "assumptions")
    (list_ s "constraints") (toTaskRisk (risk.Level riskRes)) (Complexity_ cx) (list_ s "scope")
    (deriveVisualRequirements (Attachments i)) false 0 "" 0 "" in
  (mkResult spec conf
     (if acsSynthesised then ["acceptance criteria not stated explicitly; synthesised default AC from objective"] else [])
     clar (risk.Reasons riskRes) (Reasons cx) (collectAttachmentRoles (Attachments i)),
   if bool_decide (In_TaskID i = "") then Some [TaskIDRequired] else None).

(** ** Examples *)

Definition lines (l : list string) : string := strs.Join l (String nl EmptyString).
Definition input (title desc : string) : CompileInput := mkInput "T-1" title desc "NORMAL" [].

Example Compile_structured :
  let r := (Compile (input "" (lines ["## Objective: Build  the page"; "Acceptance Criteria:"; "- it loads"; "2. it prints"; ""; "Scope:"; "* web"]))).1 in
  Objective (Result_Specification r) = "Build the page" ∧
  AcceptanceCriteria (Result_Specification r) = [mkAC "AC-1" "it loads"; mkAC "AC-2" "it prints"] ∧
  ProposedScope (Result_Specification r) = ["web"] ∧ Result_Confidence r = ConfidenceHigh.
Proof. vm_compute. done. Qed.

(** A wrapped bullet: the code says "continuation of the previous item", but a
    bullet's text is already in the items when its second line comes, and the
    line becomes an item - here a criterion - of its own. *)
Lemma wrapped_bullet_splits :
  let d := lines ["Objective: Build the page"; "Acceptance Criteria:"; "- it loads in"; "  one second"] in
  AcceptanceCriteria (Result_Specification (Compile (input "" d)).1) =
    [mkAC "AC-1" "it loads in"; mkAC "AC-2" "one second"].
Proof. vm_compute. done. Qed.

(** "An R3/R4 task ... floors complexity at C2": the score is raised to 2, which
    the bands map to C1. *)
Lemma risky_floor_is_C1 :
  let r := (Compile (input "" "fix the payment page header for everybody")).1 in
  Spec_Complexity (Result_Specification r) = ComplexityC1 ∧ Spec_Risk (Result_Specification r) = RiskR4 ∧
  ComplexityReasons r = ["elevated-risk topic floors complexity at C2"].
Proof. vm_compute. done. Qed.

(** A title of blanks is taken as the objective although the description has
    one: the result is MEDIUM confidence and does not validate. *)
Lemma blank_title_hides_description :
  let r := (Compile (input " " "print the monthly sales table")).1 in
  Result_Confidence r = ConfidenceMedium ∧
  ValidateSpecification (Result_Specification r) = Err [ObjectiveRequired].
Proof. vm_compute. done. Qed.

(** "Even a LOW-confidence result is a valid Specification": not without an
    objective. *)
Lemma low_confidence_invalid :
  let r := (Compile (input "" "")).1 in
  Result_Confidence r = ConfidenceLow ∧ is_ok (ValidateSpecification (Result_Specification r)) = false.
Proof. vm_compute. done. Qed.

(** The keyword "race" is looked for as a substring: tracing is concurrency. *)
Lemma trace_is_a_race :
  Spec_Risk (Result_Specification (Compile (input "" "print the stack trace in the footer")).1) = RiskR3.
Proof. vm_compute. done. Qed.

(** ** Lemmas: trimming *)

Lemma trimRight_solid s : everyByte (λ c, negb (isBlank c)) s = true → trimRight s = s.
Proof.
  induction s as [|c s IH]; [done|]. cbn [everyByte trimRight]. rewrite andb_true_iff, negb_true_iff.
  intros [Hc Hs]. rewrite IH by done. destruct s; [by rewrite Hc|done].
Qed.

Lemma trimRight_empty s : trimRight s = "" → everyByte isBlank s = true.
Proof.
  induction s as [|c s IH]; [done|]. cbn [everyByte trimRight]. destruct (trimRight s); [|done].
  destruct (isBlank c); [|done]. intros _. by apply IH.
Qed.

Lemma trim_empty s : trim s = "" → everyByte isBlank s = true.
Proof.
  unfold trim. induction s as [|c s IH]; [done|]. cbn [everyByte trimLeft].
  destruct (isBlank c) eqn:E; [by intros H; apply IH|].
  intros H%trimRight_empty. cbn [everyByte] in H. by rewrite E in H.
Qed.

Lemma isBlank_cases c : isBlank c = true → c = " "%char ∨ c = tab ∨ c = nl ∨ c = cr.
Proof.
  unfold isBlank. rewrite !orb_true_iff, !Nat.eqb_eq. rewrite <-(ascii_nat_embedding c) at 5 6 7 8.
  intros [[[->| ->]| ->]| ->]; vm_compute; tauto.
Qed.

Lemma strip_blank c s : isBlank c = true → strs.strip_once strs.space_runes (String c s) = Some s.
Proof. intros [->|[->|[->| ->]]]%isBlank_cases; by destruct s. Qed.

Lemma TrimSpace_blank s : everyByte isBlank s = true → strs.TrimSpace s = "".
Proof.
  intros H. unfold strs.TrimSpace. assert (strs.trim_left (String.length s) strs.space_runes s = "") as ->; [|done].
  induction s as [|c s IH]; [done|]. cbn [everyByte] in H. apply andb_true_iff in H as [Hc Hs].
  cbn [String.length strs.trim_left]. rewrite strip_blank by done. by apply IH.
Qed.

Lemma TrimSpace_trim s : strs.TrimSpace s ≠ "" → trim s ≠ "".
Proof. intros H Ht. by apply H, TrimSpace_blank, trim_empty. Qed.

(** ** Lemmas: the ids of the criteria *)

Definition acID (n : nat) : string := "AC-" +:+ pretty (Z.of_nat (S n)).

Lemma acID_inj n m : acID n = acID m → n = m.
Proof. unfold acID. intros H%(inj (String.append "AC-")). apply (inj pretty) in H. lia. Qed.

Lemma trim_acID n : trim (acID n) = acID n.
Proof.
  unfold trim, acID. change (trimLeft ("AC-" +:+ pretty (Z.of_nat (S n)))) with ("AC-" +:+ pretty (Z.of_nat (S n))).
  apply trimRight_solid. rewrite everyByte_app. apply andb_true_iff. split; [done|].
  apply pretty_Z_bytes; [done|lia].
Qed.

Lemma numberCriteria_ids i l ac :
  ac ∈ numberCriteria i l → (∃ n, i ≤ n ∧ ID ac = acID n) ∧ strs.TrimSpace (Statement ac) ≠ "".
Proof.
  revert i; induction l as [|x l IH]; intros i; simpl; [by intros ?%elem_of_nil|].
  case_bool_decide as Hx.
  - intros H. destruct (IH _ H) as [(n & Hn & ?) ?]. split; [|done]. exists n. split; [lia|done].
  - intros [->|H]%elem_of_cons; [split; [by exists i|done]|].
    destruct (IH _ H) as [(n & Hn & ?) ?]. split; [|done]. exists n. split; [lia|done].
Qed.

Lemma numberCriteria_NoDup i l : NoDup ((λ ac, trim (ID ac)) <$> numberCriteria i l).
Proof.
  revert i; induction l as [|x l IH]; intros i; simpl; [constructor|]. case_bool_decide; [apply IH|].
  rewrite fmap_cons. constructor; [|apply IH]. simpl.
  intros (ac & Heq & Hin)%list_elem_of_fmap. apply numberCriteria_ids in Hin as [(n & Hn & Hid) _].
  rewrite Hid, trim_acID in Heq. change ("AC-" +:+ pretty (Z.of_nat (S i))) with (acID i) in Heq.
  rewrite trim_acID in Heq. apply acID_inj in Heq. lia.
Qed.

(** The criteria [deriveAcceptanceCriteria] returns satisfy the validator. *)
Lemma derived_criteria s o :
  (o ≠ "" → (deriveAcceptanceCriteria s o).1 ≠ []) ∧
  checkCriteria 0 ∅ (deriveAcceptanceCriteria s o).1 = [].
Proof.
  unfold deriveAcceptanceCriteria.
  destruct (if has s "acceptance-criteria" then _ else _) as [|ac acs] eqn:E.
  { case_bool_decide as Ho; [by split|]. split; [done|]. cbn [fst]. apply checkCriteria_nil. split.
    - intros x [->|[]%elem_of_nil]%elem_of_cons. cbn [ID Statement]. split_and!; [done| |set_solver].
      intros Ht%trim_empty. done.
    - apply NoDup_singleton. }
  split; [done|]. destruct (has s "acceptance-criteria"); [|done]. simpl fst. rewrite <-E.
  apply checkCriteria_nil. split; [|apply numberCriteria_NoDup].
  intros x Hx%numberCriteria_ids. destruct Hx as [(n & _ & Hid) Hst]. rewrite Hid, trim_acID.
  split_and!; [done|by apply TrimSpace_trim|apply not_elem_of_empty].
Qed.

Lemma classified_risk i : Risk_IsValid (toTaskRisk (risk.Level (classifyRisk i))) = true.
Proof.
  assert (∀ l, Risk_IsValid (toTaskRisk l) = true) as H; [|apply H].
  intros l. unfold toTaskRisk. do 5 (case_match; [done|]). done.
Qed.

Lemma classified_complexity i s : Complexity_IsValid (Complexity_ (classifyComplexity i s)) = true.
Proof.
  assert (∀ n, Complexity_IsValid (complexityBand n) = true) as H; [|apply H].
  intros n. unfold complexityBand. do 3 (case_match; [done|]). done.
Qed.

Lemma Compile_spec i :
  let s := parseSections (Description i) in
  let o := deriveObjective i s in
  let acs := deriveAcceptanceCriteria s o.1 in
  let cc := deriveConfidenceAndClarifications i o.2 acs.2 (classifyRisk i) in
  let r := (Compile i).1 in
  Result_Specification r = mkSpecification (In_TaskID i) 0 o.1 acs.1 (list_ s "non-goals") (list_ s "assumptions")
    (list_ s "constraints") (toTaskRisk (risk.Level (classifyRisk i))) (Complexity_ (classifyComplexity i s))
    (list_ s "scope") (deriveVisualRequirements (Attachments i)) false 0 "" 0 "" ∧
  Result_Confidence r = cc.1 ∧ Clarifications r = cc.2 ∧ (UncertaintyReasons r = [] ↔ acs.2 = false).
Proof.
  unfold Compile. cbv zeta. destruct (deriveObjective _ _) as [o src]. simpl.
  destruct (deriveAcceptanceCriteria _ _) as [acs syn]. simpl.
  destruct (deriveConfidenceAndClarifications _ _ _ _) as [cf cl]. simpl. split_and!; [done..|]. by destruct syn.
Qed.

(** ** Lemmas: squeezed text *)

Lemma TrimLeft_incl c0 c s : everyByte c0 s = true → everyByte c0 (TrimLeft c s) = true.
Proof.
  induction s as [|a s IH]; [done|]. cbn [TrimLeft]. intros H. case_bool_decide; [|done].
  apply IH. cbn [everyByte] in H. by apply andb_true_iff in H as [_ H].
Qed.

Lemma TrimRight_incl c0 c s : everyByte c0 s = true → everyByte c0 (TrimRight c s) = true.
Proof.
  induction s as [|a s IH]; [done|]. cbn [TrimRight everyByte]. rewrite andb_true_iff. intros [Ha Hs].
  specialize (IH Hs). destruct (TrimRight c s) as [|b r].
  - case_bool_decide; [done|]. cbn [everyByte]. by rewrite Ha.
  - change (everyByte c0 (String a (String b r))) with (c0 a && everyByte c0 (String b r)). by rewrite Ha, IH.
Qed.

(** A squeezed byte is a space or no white space. *)
Definition plain (c : ascii) : bool := bool_decide (c = " "%char) || negb (isSpace c).

Lemma squeeze_plain b s : everyByte plain (squeeze b s) = true.
Proof.
  revert b; induction s as [|c s IH]; intros b; [done|]. cbn [squeeze]. destruct (isSpace c) eqn:E.
  - destruct b; [apply IH|]. cbn [everyByte]. by rewrite IH.
  - cbn [everyByte]. rewrite IH. unfold plain. by rewrite E, orb_true_r.
Qed.

Lemma TrimLeft_head c0 a s s' : TrimLeft [c0] s = String a s' → a ≠ c0.
Proof.
  induction s as [|b s IH]; [done|]. cbn [TrimLeft]. case_bool_decide as Hb; [apply IH|].
  intros [= <- <-]. rewrite elem_of_cons in Hb. tauto.
Qed.

Lemma TrimRight_head c0 a s r b : TrimRight c0 (String a s) = String b r → b = a.
Proof. cbn [TrimRight]. destruct (TrimRight c0 s); [case_bool_decide|]; by intros [= <-]. Qed.

Lemma squeezed_head x a r : squeezeWhitespace x = String a r → isSpace a = false.
Proof.
  unfold squeezeWhitespace. case_bool_decide; [done|]. intros H1.
  destruct (TrimLeft [" "%char] (squeeze false x)) as [|b s] eqn:E; [done|].
  pose proof (TrimRight_head _ _ _ _ _ H1) as ->. apply TrimLeft_head in E as Hb.
  pose proof (TrimLeft_incl plain [" "%char] _ (squeeze_plain false x)) as Hp. rewrite E in Hp.
  cbn [everyByte] in Hp. apply andb_true_iff in Hp as [Hp _]. unfold plain in Hp.
  rewrite bool_decide_false in Hp by done. by apply negb_true_iff in Hp.
Qed.

Lemma isBlank_isSpace c : isBlank c = true → isSpace c = true.
Proof. intros [->|[->|[->| ->]]]%isBlank_cases; done. Qed.

Lemma trim_squeezed x : squeezeWhitespace x ≠ "" → trim (squeezeWhitespace x) ≠ "".
Proof.
  intros Hne Ht%trim_empty. destruct (squeezeWhitespace x) as [|a r] eqn:E; [done|].
  apply squeezed_head in E. cbn [everyByte] in Ht. apply andb_true_iff in Ht as [Ha _].
  apply isBlank_isSpace in Ha. congruence.
Qed.

(** Every objective a section yields is squeezed and not empty. *)
Definition objectives_ok (s : parsedSections) : Prop :=
  ∀ x, x ∈ list_ s "objective" → x ≠ "" ∧ ∃ y, x = squeezeWhitespace y.

Lemma flushSection_objectives p : objectives_ok (secs p) → objectives_ok (flushSection p).
Proof.
  intros H. unfold flushSection. case_bool_decide; [done|]. case_bool_decide as Ho.
  - case_bool_decide as Hj; [done|]. intros x. unfold list_; cbn [items]. rewrite Ho, lookup_insert_eq. simpl.
    intros [Hx| ->%list_elem_of_singleton]%elem_of_app; [by apply H|eauto].
  - intros x. unfold list_; cbn [items]. rewrite lookup_insert_ne by done. apply H.
Qed.

Lemma parse_objectives d : objectives_ok (parseSections d).
Proof.
  assert (objectives_ok noSections) as H0 by by intros x ?%elem_of_nil.
  unfold parseSections. case_bool_decide; [done|]. apply flushSection_objectives.
  assert (∀ l p, objectives_ok (secs p) → objectives_ok (secs (foldl parseLine p l))) as Hl; [|by apply Hl].
  induction l as [|ln l IH]; intros p Hp; [done|]. apply IH. unfold parseLine.
  destruct (matchHeader ln) as [[key inline]|]; [|done].
  intros x Hx. by apply (flushSection_objectives p Hp).
Qed.

(** What [deriveObjective] returns, by source. *)
Lemma derived_objective i s :
  let o := deriveObjective i s in
  (o.1 = "" ↔ o.2 = objectiveAbsent) ∧
  (o.2 = objectiveFromSection ↔ has s "objective" = true ∧ get s "objective" ≠ "") ∧
  (o.2 = objectiveFromSection → o.1 = get s "objective").
Proof.
  unfold deriveObjective. destruct (has s "objective"); cbn [andb].
  2: destruct (decide (get s "objective" = "")).
  1: destruct (decide (get s "objective" = "")) as [E|E];
    [rewrite (bool_decide_true _ E); cbn [negb]|rewrite (bool_decide_false _ E); cbn [negb fst snd]; naive_solver].
  all: destruct (decide (Title i = "")) as [Ht|Ht];
    [rewrite (bool_decide_true _ Ht); cbn [negb]|rewrite (bool_decide_false _ Ht); cbn [negb fst snd]; naive_solver].
  all: case_bool_decide as Hp; cbn [negb fst snd]; [|naive_solver].
  all: unfold synthesiseObjectiveFromAttachments; destruct (Attachments i); cbn [fst snd]; naive_solver.
Qed.

(** The explicit criteria of a description. *)
Definition explicitCriteria (s : parsedSections) : list AcceptanceCriterion :=
  if has s "acceptance-criteria" then numberCriteria 0 (list_ s "acceptance-criteria") else [].

Lemma derived_explicit s o :
  (deriveAcceptanceCriteria s o).2 = false ↔ explicitCriteria s ≠ [].
Proof.
  unfold deriveAcceptanceCriteria, explicitCriteria.
  destruct (if has s "acceptance-criteria" then _ else _); [case_bool_decide|]; simpl; split; done.
Qed.

Lemma Compile_accepted i :
  let s := Result_Specification (Compile i).1 in
  is_ok (ValidateSpecification s) = true ↔ In_TaskID i ≠ "" ∧ trim (Objective s) ≠ "".
Proof.
  destruct (Compile_spec i) as (Hs & _). cbv zeta in *. rewrite Hs. clear Hs.
  set (s := parseSections (Description i)). set (o := deriveObjective i s).
  destruct (derived_criteria s o.1) as [Hne Hcrit]. split.
  - unfold ValidateSpecification. destruct (violations _) as [|v vs] eqn:E; [|done]. intros _.
    unfold violations in E. rewrite !app_nil, !violated_nil, !bool_decide_eq_false in E. simpl in E. tauto.
  - intros [Ht Hob]. cbn [Objective] in *. unfold ValidateSpecification.
    assert (violations (mkSpecification (In_TaskID i) 0 o.1 (deriveAcceptanceCriteria s o.1).1 (list_ s "non-goals")
      (list_ s "assumptions") (list_ s "constraints") (toTaskRisk (risk.Level (classifyRisk i)))
      (Complexity_ (classifyComplexity i s)) (list_ s "scope") (deriveVisualRequirements (Attachments i))
      false 0 "" 0 "") = []) as ->; [|done].
    unfold violations. cbn [TaskID Objective AcceptanceCriteria Spec_Risk Spec_Complexity].
    rewrite Hcrit, classified_risk, classified_complexity, !bool_decide_false; [done| |done|done].
    apply Hne. by intros E; rewrite E in Hob.
Qed.

(** The three ways through [deriveConfidenceAndClarifications]. *)
Lemma confidence_cases i o syn r :
  let cc := deriveConfidenceAndClarifications i o syn r in
  (cc.1 = ConfidenceHigh ↔ o = objectiveFromSection ∧ syn = false ∧ risk.Level r ≠ risk.R4) ∧
  (cc.1 = ConfidenceHigh → cc.2 = []) ∧
  (cc.1 = ConfidenceLow → cc.2 ≠ []) ∧ (risk.Level r = risk.R4 → cc.2 ≠ []) ∧
  (o = objectiveAbsent ↔ cc.1 = ConfidenceLow ∧ cc.2 = [askObjective]).
Proof.
  unfold deriveConfidenceAndClarifications.
  assert (askDetail ≠ askObjective) as Hd by done. assert (askSecurity ≠ askObjective) as Hs by done.
  assert (askAttachment ≠ askObjective) as Ha by done.
  generalize dependent askDetail; generalize dependent askSecurity; generalize dependent askAttachment; generalize askObjective.
  intros ob a Ha se Hs de Hd.
  destruct o, syn, (Z.eqb_spec (risk.Level r) risk.R4), (tooShort i); simpl; split_and!; intros;
    repeat split; try done; try congruence; intuition congruence.
Qed.

(** ** Properties *)


(** what the confidence promises.  HIGH exactly when the description has an
    objective section and acceptance criteria of its own and the risk is below
    R4; then nothing was synthesised, nothing is asked, and with a task id the
    specification validates.  LOW always comes with a question, and R4 is never
    silent. *)
Theorem Compile_confidence i :
  let s := parseSections (Description i) in let r := (Compile i).1 in
  (Result_Confidence r = ConfidenceHigh ↔
     has s "objective" = true ∧ get s "objective" ≠ "" ∧ explicitCriteria s ≠ [] ∧
     risk.Level (classifyRisk i) ≠ risk.R4) ∧
  (Result_Confidence r = ConfidenceHigh → Clarifications r = [] ∧ UncertaintyReasons r = [] ∧
     (In_TaskID i ≠ "" → is_ok (ValidateSpecification (Result_Specification r)) = true)) ∧
  (Result_Confidence r = ConfidenceLow → Clarifications r ≠ []) ∧
  (risk.Level (classifyRisk i) = risk.R4 → Clarifications r ≠ []).
Proof.
  pose proof (Compile_accepted i) as Hacc.
  destruct (Compile_spec i) as (Hs & Hc & Hcl & Hu). cbv zeta in *. rewrite Hs in Hacc. rewrite Hc, Hcl, Hu, Hs.
  set (s := parseSections (Description i)) in *.
  pose proof (derived_objective i s) as (_ & Hsrc & Hval). cbv zeta in *. set (o := deriveObjective i s) in *.
  pose proof (derived_explicit s o.1) as Hex.
  set (acs := deriveAcceptanceCriteria s o.1) in *.
  destruct (confidence_cases i o.2 acs.2 (classifyRisk i)) as (H1 & H2 & H3 & H4 & _). cbv zeta in *.
  split; [rewrite H1, Hsrc, Hex; tauto|]. split; [|done].
  intros Hh. pose proof (proj1 H1 Hh) as (Ho & Hsyn & _). split_and!; [by apply H2|done|].
  intros Ht. apply Hacc. split; [done|]. cbn [Objective]. rewrite (Hval Ho).
  destruct (proj1 Hsrc Ho) as [_ Hget]. unfold get in *.
  destruct (list_ s "objective") as [|x l] eqn:El; [done|].
  destruct (parse_objectives (Description i) x) as (_ & y & ->); [fold s; rewrite El; constructor|].
  by apply trim_squeezed.
Qed.
(** ** Rendering a specification and compiling it back *)

Definition bulletLine (x : string) : string := "- " +:+ x.
Definition section (title : string) (l : list string) : list string := (title +:+ ":") :: (bulletLine <$> l).

(** The description a user would write for a specification. *)
Definition render (s : Specification) : string :=
  lines (("Objective: " +:+ Objective s) ::
    section "Acceptance Criteria" (Statement <$> AcceptanceCriteria s) ++
    section "Non-goals" (NonGoals s) ++ section "Assumptions" (Assumptions s) ++
    section "Constraints" (Constraints s) ++ section "Scope" (ProposedScope s)).

(** A text that trimming and squeezing leave alone. *)
Definition clean (x : string) : Prop := x ≠ "" ∧ strs.TrimSpace x = x ∧ squeezeWhitespace x = x.

(** *** [TrimSpace] keeps a leading dash *)

Lemma TrimSpace_dash s : ∃ r, strs.TrimSpace (String "-" s) = String "-" r.
Proof. by apply TrimSpace_keeps. Qed.

Lemma ToLower_dash r : strs.ToLower (String "-" r) = String "-" (strs.ToLower r).
Proof. done. Qed.

Lemma matchHeader_bullet x : matchHeader (bulletLine x) = None.
Proof.
  set (d := String "-" (String " " x)). change (bulletLine x) with d.
  unfold matchHeader. assert (TrimLeft blanks d = d) as -> by done. cbv zeta.
  rewrite bool_decide_false by done. assert (TrimLeft blanks (TrimLeft ["#"%char] d) = d) as -> by done.
  assert (cut ":" d = (λ ab, (String "-" (String " " ab.1), ab.2)) <$> cut ":" x) as ->.
  { unfold d. cbn [cut]. rewrite !bool_decide_false by done. by destruct (cut ":" x) as [[a b]|]. }
  destruct (cut ":" x) as [[a b]|]; [|done]. cbn [fmap option_fmap option_map fst snd].
  destruct (TrimSpace_dash (String " " a)) as [r ->]. rewrite ToLower_dash.
  case_match; [done|]. case_match; [done|]. unfold knownSectionHeaders. cbn [lookupHeader].
  by repeat (rewrite bool_decide_false by done).
Qed.

(** *** Clean texts *)

Lemma squeezed_plain x : everyByte plain (squeezeWhitespace x) = true.
Proof.
  unfold squeezeWhitespace. case_bool_decide; [done|].
  apply TrimRight_incl, TrimLeft_incl, squeeze_plain.
Qed.

Lemma TrimRight_idem c s : TrimRight c (TrimRight c s) = TrimRight c s.
Proof.
  induction s as [|a s IH]; [done|]. cbn [TrimRight]. destruct (TrimRight c s) as [|b r].
  - case_bool_decide; simpl; [done|]. by rewrite bool_decide_false.
  - remember (String b r) as u eqn:Hu. cbn [TrimRight]. rewrite IH. by rewrite Hu.
Qed.

Lemma TrimRight_plain s : everyByte plain s = true → TrimRight blanks s = TrimRight [" "%char] s.
Proof.
  induction s as [|c s IH]; [done|]. cbn [everyByte TrimRight]. rewrite andb_true_iff. intros [Hc Hs].
  rewrite IH by done. destruct (TrimRight [" "%char] s) eqn:E. 2: { done. }
  assert (c ≠ tab) as Ht by by intros ->.
  destruct (decide (c = " "%char)) as [->|Hne]; [done|].
  unfold blanks. rewrite !bool_decide_false; [done|set_solver|set_solver].
Qed.

Lemma clean_TrimRight x : clean x → TrimRight blanks x = x.
Proof.
  intros (Hne & _ & Hs). rewrite TrimRight_plain; [|rewrite <-Hs; apply squeezed_plain].
  rewrite <-Hs. unfold squeezeWhitespace. rewrite bool_decide_false by done. apply TrimRight_idem.
Qed.

Definition noBreak (c : ascii) : bool := negb (bool_decide (c = nl)) && negb (bool_decide (c = cr)).

Lemma clean_noBreak x : clean x → everyByte noBreak x = true.
Proof.
  intros (_ & _ & Hs). rewrite <-Hs. eapply everyByte_impl, squeezed_plain. intros c Hc. unfold noBreak.
  destruct (decide (c = nl)) as [->|]; [done|]. destruct (decide (c = cr)) as [->|]; [done|].
  by rewrite !bool_decide_false.
Qed.

Lemma splitLine_bullet its x : clean x → splitLine (its, "") (bulletLine x) = (its ++ [x], "").
Proof.
  intros Hc. pose proof (clean_TrimRight x Hc) as Ht. destruct Hc as (Hne & Hts & Hs).
  unfold splitLine. assert (TrimRight blanks (bulletLine x) = bulletLine x) as ->.
  { unfold bulletLine. change ("- " +:+ x) with (String "-" (String " " x)). cbn [TrimRight]. rewrite Ht.
    by destruct x. }
  rewrite bool_decide_false by done.
  assert (stripListMarker (bulletLine x) = Some x) as ->.
  { rewrite <-Hts at 2. change (bulletLine x) with (String "-" (String " " x)). by destruct x. }
  rewrite bool_decide_false by done. unfold flushItem. simpl. by rewrite Hs.
Qed.

Lemma splitListItems_bullets l : Forall clean l → splitListItems (bulletLine <$> l) = l.
Proof.
  intros Hl. unfold splitListItems.
  assert (∀ its, foldl splitLine (its, "") (bulletLine <$> l) = (its ++ l, "")) as H.
  { induction Hl as [|x l Hx _ IH]; intros its; [by rewrite app_nil_r|].
    rewrite fmap_cons. cbn [foldl]. rewrite splitLine_bullet by done. by rewrite IH, <-app_assoc. }
  rewrite H. unfold flushItem. done.
Qed.

(** *** Lines *)

Lemma replaceCRLF_id s : everyByte (λ c, negb (bool_decide (c = cr))) s = true → replaceCRLF s = s.
Proof.
  induction s as [|c s IH]; [done|]. cbn [everyByte]. rewrite andb_true_iff, negb_true_iff, bool_decide_eq_false.
  intros [Hc Hs]. specialize (IH Hs). destruct s as [|c' s]; [done|].
  change (replaceCRLF (String c (String c' s))) with
    (if bool_decide (c = cr ∧ c' = nl) then String nl (replaceCRLF s) else String c (replaceCRLF (String c' s))).
  rewrite bool_decide_false by tauto. by rewrite IH.
Qed.

Lemma replaceByte_id a b s : everyByte (λ c, negb (bool_decide (c = a))) s = true → replaceByte a b s = s.
Proof.
  unfold replaceByte. induction s as [|c s IH]; [done|]. cbn [everyByte strs.map_bytes].
  rewrite andb_true_iff, negb_true_iff. intros [-> Hs]. by rewrite IH.
Qed.

Lemma splitLines_noBreak x : everyByte noBreak x = true → splitLines x = [x].
Proof.
  induction x as [|c x IH]; [done|]. cbn [everyByte splitLines]. unfold noBreak at 1.
  rewrite !andb_true_iff, !negb_true_iff. intros [[-> _] Hx]. by rewrite IH.
Qed.

Lemma splitLines_app x s : everyByte noBreak x = true → splitLines (x +:+ String nl s) = x :: splitLines s.
Proof.
  induction x as [|c x IH]; [done|]. cbn [everyByte]. unfold noBreak at 1.
  rewrite !andb_true_iff, !negb_true_iff. intros [[Hc _] Hx].
  change (splitLines (String c x +:+ String nl s)) with
    (if bool_decide (c = nl) then EmptyString :: splitLines (x +:+ String nl s)
     else match splitLines (x +:+ String nl s) with l :: ls => String c l :: ls | [] => [String c EmptyString] end).
  by rewrite Hc, IH.
Qed.

Lemma splitLines_lines x l : Forall (λ x, everyByte noBreak x = true) (x :: l) → splitLines (lines (x :: l)) = x :: l.
Proof.
  revert x; induction l as [|y l IH]; intros x [Hx Hl]%Forall_cons; [by apply splitLines_noBreak|].
  change (lines (x :: y :: l)) with (x +:+ String nl (lines (y :: l))).
  by rewrite splitLines_app, IH.
Qed.

Lemma everyByte_lines p l :
  p nl = true → Forall (λ x, everyByte p x = true) l → everyByte p (lines l) = true.
Proof.
  intros Hnl. induction 1 as [|x l Hx Hl IH]; [done|]. destruct l as [|y l]; [done|].
  change (lines (x :: y :: l)) with (x +:+ String nl (lines (y :: l))).
  rewrite everyByte_app, Hx. cbn [everyByte]. by rewrite Hnl, IH.
Qed.

Lemma normaliseLines_lines x l :
  x ≠ "" → Forall (λ x, everyByte noBreak x = true) (x :: l) → normaliseLines (lines (x :: l)) = x :: l.
Proof.
  intros Hne Hl. assert (everyByte (λ c, negb (bool_decide (c = cr))) (lines (x :: l)) = true) as Hcr.
  { apply everyByte_lines; [done|]. eapply Forall_impl; [exact Hl|]. intros y Hy. eapply everyByte_impl, Hy.
    intros c. unfold noBreak. rewrite andb_true_iff. tauto. }
  unfold normaliseLines. rewrite bool_decide_false.
  - rewrite replaceCRLF_id, replaceByte_id by done. by apply splitLines_lines.
  - destruct l; [done|]. by destruct x.
Qed.

(** *** Sections *)

Lemma parse_bullets p l :
  foldl parseLine p (bulletLine <$> l) = mkParse (secs p) (current p) (body p ++ (bulletLine <$> l)).
Proof.
  revert p; induction l as [|x l IH]; intros p; [destruct p; simpl; by rewrite app_nil_r|].
  rewrite fmap_cons. cbn [foldl]. rewrite IH. unfold parseLine. rewrite matchHeader_bullet. cbn [secs current body].
  by rewrite <-app_assoc.
Qed.

Lemma parse_section p title key l rest :
  matchHeader (title +:+ ":") = Some (key, "") →
  foldl parseLine p (section title l ++ rest) =
    foldl parseLine
      (mkParse (mkSections ({[key]} ∪ headers (flushSection p)) (items (flushSection p)) (preamble (flushSection p)))
         key (bulletLine <$> l)) rest.
Proof.
  intros Hm. unfold section. rewrite <-app_comm_cons. cbn [foldl]. rewrite foldl_app, parse_bullets.
  assert (parseLine p (title +:+ ":") = mkParse (mkSections ({[key]} ∪ headers (flushSection p)) (items (flushSection p))
    (preamble (flushSection p))) key []) as ->; [|done].
  unfold parseLine. by rewrite Hm.
Qed.

Lemma flush_bullets h m pre key l :
  key ≠ "" → key ≠ "objective" → Forall clean l →
  flushSection (mkParse (mkSections h m pre) key (bulletLine <$> l)) =
    mkSections h (<[key := default [] (m !! key) ++ l]> m) pre.
Proof.
  intros H1 H2 Hl. unfold flushSection. cbn [secs current body headers items preamble].
  rewrite !bool_decide_false by done. by rewrite splitListItems_bullets.
Qed.

Lemma TrimSpace_space x : strs.TrimSpace (String " " x) = strs.TrimSpace x.
Proof.
  unfold strs.TrimSpace. assert (strs.trim_left (String.length (String " " x)) strs.space_runes (String " " x) =
    strs.trim_left (String.length x) strs.space_runes x) as ->; [|done].
  cbn [String.length strs.trim_left]. by rewrite strip_blank.
Qed.

Lemma matchHeader_objective o : matchHeader ("Objective: " +:+ o) = Some ("objective", strs.TrimSpace o).
Proof.
  change ("Objective: " +:+ o) with ("Objective:" +:+ String " " o). rewrite <-(TrimSpace_space o). done.
Qed.

Lemma parse_render_eq s :
  clean (Objective s) → Forall clean (Statement <$> AcceptanceCriteria s) → Forall clean (NonGoals s) →
  Forall clean (Assumptions s) → Forall clean (Constraints s) → Forall clean (ProposedScope s) →
  parseSections (render s) =
    mkSections ({["scope"]} ∪ ({["constraints"]} ∪ ({["assumptions"]} ∪ ({["non-goals"]} ∪
                  ({["acceptance-criteria"]} ∪ {["objective"]})))))
      (<["scope" := ProposedScope s]> (<["constraints" := Constraints s]> (<["assumptions" := Assumptions s]>
       (<["non-goals" := NonGoals s]> (<["acceptance-criteria" := Statement <$> AcceptanceCriteria s]>
       {["objective" := [Objective s]]}))))) [].
Proof.
  intros Ho Hac Hng Has Hco Hsc. unfold parseSections, render.
  rewrite bool_decide_false.
  2:{ intros E. apply (f_equal String.length) in E. done. }
  rewrite normaliseLines_lines; [|done|].
  2:{ assert (∀ t l, everyByte noBreak (t +:+ ":") = true → Forall clean l →
        Forall (λ x, everyByte noBreak x = true) (section t l)) as Hsec.
      { intros t l Ht Hl. constructor; [done|]. apply Forall_fmap. eapply Forall_impl; [exact Hl|].
        intros x Hx. simpl. unfold bulletLine. rewrite everyByte_app, (clean_noBreak x) by done. by vm_compute. }
      constructor; [rewrite everyByte_app, (clean_noBreak (Objective s)) by done; by vm_compute|].
      rewrite !Forall_app. split_and!; by apply Hsec. }
  cbn [foldl]. unfold parseLine at 2. rewrite matchHeader_objective.
  destruct Ho as (Ho1 & Ho2 & Ho3). rewrite Ho2, (bool_decide_false (Objective s = "")) by done.
  rewrite (parse_section _ _ "acceptance-criteria") by done.
  assert (flushSection (mkParse (mkSections ({["objective"]} ∪ headers noSections) (items noSections) (preamble noSections))
            "objective" [Objective s]) =
          mkSections {["objective"]} {["objective" := [Objective s]]} []) as Hobj.
  { unfold flushSection. cbn [secs current body headers items preamble strs.Join noSections].
    rewrite bool_decide_false, bool_decide_true, Ho3, bool_decide_false by done.
    done. }
  change (flushSection (mkParse noSections "" [])) with noSections. rewrite Hobj. cbn [headers items preamble].
  rewrite (parse_section _ _ "non-goals") by done. rewrite flush_bullets by done. cbn [headers items preamble].
  rewrite (parse_section _ _ "assumptions") by done. rewrite flush_bullets by done. cbn [headers items preamble].
  rewrite (parse_section _ _ "constraints") by done. rewrite flush_bullets by done. cbn [headers items preamble].
  rewrite <-(app_nil_r (section "Scope" _)).
  rewrite (parse_section _ _ "scope") by done. rewrite flush_bullets by done. cbn [headers items preamble foldl].
  rewrite flush_bullets by done.
  repeat (rewrite (lookup_insert_ne (M := gmap string)) by done). rewrite !lookup_singleton_ne by done. done.
Qed.

Lemma parse_render s :
  clean (Objective s) → Forall clean (Statement <$> AcceptanceCriteria s) → Forall clean (NonGoals s) →
  Forall clean (Assumptions s) → Forall clean (Constraints s) → Forall clean (ProposedScope s) →
  let p := parseSections (render s) in
  has p "objective" = true ∧ has p "acceptance-criteria" = true ∧ get p "objective" = Objective s ∧
  list_ p "acceptance-criteria" = Statement <$> AcceptanceCriteria s ∧ list_ p "non-goals" = NonGoals s ∧
  list_ p "assumptions" = Assumptions s ∧ list_ p "constraints" = Constraints s ∧ list_ p "scope" = ProposedScope s.
Proof.
  intros Ho Hac Hng Has Hco Hsc. cbv zeta. rewrite parse_render_eq by done.
  unfold has, get, list_. cbn [headers items preamble].
  split_and!; [by vm_compute|by vm_compute|..];
    repeat (rewrite lookup_insert_ne by done); rewrite ?lookup_insert_eq, ?lookup_singleton_eq; done.
Qed.

Lemma numberCriteria_clean k l :
  Forall clean l → numberCriteria k l = imap (λ j x, mkAC (acID (k + j)) x) l.
Proof.
  intros Hl. revert k. induction Hl as [|x l (Hne & Ht & _) _ IH]; intros k; [done|].
  cbn [numberCriteria imap]. rewrite Ht, bool_decide_false by done. rewrite IH.
  change ("AC-" +:+ pretty (Z.of_nat (S k))) with (acID k). rewrite Nat.add_0_r. f_equal.
  apply imap_ext. intros j y _. simpl. do 2 f_equal. lia.
Qed.

(** C25: a rendered specification compiles back.  Whatever the title, priority
    and attachments, compiling the description [render] writes for a
    specification - a header per section, a bullet per item - gives back its
    objective, its criteria (renumbered AC-1, AC-2, ...), non-goals,
    assumptions, constraints and scope, and nothing was synthesised. *)
Theorem Compile_render i s :
  clean (Objective s) → Forall clean (Statement <$> AcceptanceCriteria s) → Forall clean (NonGoals s) →
  Forall clean (Assumptions s) → Forall clean (Constraints s) → Forall clean (ProposedScope s) →
  AcceptanceCriteria s ≠ [] → Description i = render s →
  let r := (Compile i).1 in let c := Result_Specification r in
  Objective c = Objective s ∧
  AcceptanceCriteria c = imap (λ j x, mkAC (acID j) x) (Statement <$> AcceptanceCriteria s) ∧
  NonGoals c = NonGoals s ∧ Assumptions c = Assumptions s ∧ Constraints c = Constraints s ∧
  ProposedScope c = ProposedScope s ∧ UncertaintyReasons r = [].
Proof.
  intros Ho Hac Hng Has Hco Hsc Hne Hd.
  destruct (parse_render s Ho Hac Hng Has Hco Hsc) as (H1 & H2 & H3 & H4 & H5 & H6 & H7 & H8).
  destruct (Compile_spec i) as (Hs & _ & _ & Hu). cbv zeta in *. rewrite Hs, Hu. rewrite Hd in *. clear Hs Hu.
  set (p := parseSections (render s)) in *.
  assert (deriveObjective i p = (Objective s, objectiveFromSection)) as ->.
  { unfold deriveObjective. rewrite H1, H3, bool_decide_false by apply Ho. done. }
  assert (explicitCriteria p = imap (λ j x, mkAC (acID j) x) (Statement <$> AcceptanceCriteria s)) as Hex.
  { unfold explicitCriteria. rewrite H2, H4. by rewrite numberCriteria_clean. }
  cbn [fst snd]. assert (deriveAcceptanceCriteria p (Objective s) = (explicitCriteria p, false)) as ->.
  { unfold deriveAcceptanceCriteria. fold (explicitCriteria p). rewrite Hex.
    by destruct (AcceptanceCriteria s). }
  cbn. rewrite H5, H6, H7, H8. split_and!; [done|exact Hex|done..].
Qed.

(** ** Line endings *)

(** The same text with CRLF line ends. *)
Fixpoint crlf (s : string) : string :=
  match s with
  | EmptyString => EmptyString
  | String c s => if bool_decide (c = nl) then String cr (String nl (crlf s)) else String c (crlf s)
  end.

(** the parser is line-ending agnostic: a description without carriage
    returns and its CRLF form have the same sections, so the same objective,
    criteria and lists. *)
Theorem parseSections_crlf s :
  everyByte (λ c, negb (bool_decide (c = cr))) s = true → parseSections (crlf s) = parseSections s.
Proof.
  intros Hs. assert (replaceCRLF (crlf s) = s) as Hr.
  { induction s as [|c s IH]; [done|]. cbn [everyByte] in Hs. rewrite andb_true_iff, negb_true_iff in Hs.
    destruct Hs as [Hc%bool_decide_eq_false Hs]. specialize (IH Hs). cbn [crlf]. case_bool_decide as E.
    - subst c. change (String nl (replaceCRLF (crlf s)) = String nl s). by rewrite IH.
    - destruct (crlf s) as [|c' s'] eqn:Es; [by destruct s|].
      change (replaceCRLF (String c (String c' s'))) with
        (if bool_decide (c = cr ∧ c' = nl) then String nl (replaceCRLF s') else String c (replaceCRLF (String c' s'))).
      rewrite bool_decide_false by tauto. by rewrite IH. }
  unfold parseSections, normaliseLines. rewrite Hr, (replaceCRLF_id s Hs).
  destruct s as [|c s]; [done|]. rewrite !(bool_decide_false (String c s = "")) by done.
  rewrite !(bool_decide_false (crlf (String c s) = "")); [done|]. cbn [crlf]. by case_bool_decide.
Qed.

(** ** Witnesses *)

Definition demo : Specification :=
  withContent "Build the page" [mkAC "AC-1" "it loads"; mkAC "AC-2" "it prints"] demoSpec.

Lemma Compile_render_witness :
  clean "Build the page" ∧
  Objective (Result_Specification (Compile (input "Page" (render demo))).1) = "Build the page".
Proof.
  split; [split_and!; [done|by vm_compute|by vm_compute]|].
  apply (Compile_render (input "Page" (render demo)) demo);
    repeat first [constructor|split|by vm_compute]; discriminate.
Defined.

Lemma parseSections_crlf_witness :
  let s := lines ["Objective: x"; "Scope:"; "- y"] in
  everyByte (λ c, negb (bool_decide (c = cr))) s = true ∧ parseSections (crlf s) = parseSections s.
Proof. split; [vm_compute; reflexivity|]. apply parseSections_crlf. vm_compute. reflexivity. Defined.

End compiler.
