(* ===== verification/Projects.v ===== *)
(** * Projects: the state machine of a project

    Models [internal/project/state.go]: the states and actions of a project and
    the transition table that the registry of [Backlog.v] consults. *)
From S2P Require Import Prelude.

Module project.
Inductive State :=
| StateDisabled | StateIdle | StateRunning | StatePaused | StateDraining | StateError
| StateStarting | StatePausing | StateDegraded | StateBlocked
| StateOther (s : string).
#[global] Instance State_eq_dec : EqDecision State.
Proof. solve_decision. Defined.

Inductive Action :=
| ActionStart | ActionStop | ActionPause | ActionResume | ActionDrain | ActionRecover
| ActionOther (s : string).
#[global] Instance Action_eq_dec : EqDecision Action.
Proof. solve_decision. Defined.

Definition validTransitions (from : State) (a : Action) : option State :=
  match from, a with
  | StateDisabled, ActionStart => Some StateIdle
  | StateIdle, ActionPause => Some StatePaused
  | StateIdle, ActionDrain => Some StateDraining
  | StateRunning, ActionPause => Some StatePaused
  | StateRunning, ActionDrain => Some StateDraining
  | StatePaused, ActionResume => Some StateIdle
  | StateDraining, ActionResume => Some StateIdle
  | StateError, ActionRecover => Some StateIdle
  | _, _ => None
  end.

(** [None] is [*ErrInvalidTransition]. *)
Definition CanTransition (from : State) (a : Action) : option State :=
  if bool_decide (a = ActionStop) && negb (bool_decide (from = StateDisabled)) then Some StateDisabled
  else validTransitions from a.

Definition IsValidState (s : State) : bool :=
  match s with
  | StateDisabled | StateIdle | StateRunning | StatePaused | StateDraining | StateError => true
  | _ => false
  end.
Definition IsTerminal (s : State) : bool := bool_decide (s = StateDisabled).

Definition State_String (s : State) : string :=
  match s with
  | StateDisabled => "DISABLED" | StateIdle => "IDLE" | StateRunning => "RUNNING" | StatePaused => "PAUSED"
  | StateDraining => "DRAINING" | StateError => "ERROR" | StateStarting => "STARTING"
  | StatePausing => "PAUSING" | StateDegraded => "DEGRADED" | StateBlocked => "BLOCKED"
  | StateOther s => s
  end.
Definition Action_String (a : Action) : string :=
  match a with
  | ActionStart => "start" | ActionStop => "stop" | ActionPause => "pause" | ActionResume => "resume"
  | ActionDrain => "drain" | ActionRecover => "recover" | ActionOther s => s
  end.
End project.
