(* ===== verification/Backlog.v ===== *)
(** * Backlog: the project registry and the task backlog

    Models [internal/project/registry.go] (the state machine is in [Projects.v]) and
    [internal/task/state.go], [backlog.go], over the [projects], [tasks],
    [task_attachments] and [task_sequences] tables of [internal/storage].  Git,
    the file system, SHA-256 and the MIME table are parameters.  A mutation is a
    read followed by a transaction, and the model keeps the two apart. *)
From S2P Require Import Prelude Text Projects AuditTrail WorkStore.

Module backlog.
Import filepath.

(** ** The state machine of a task *)
Inductive State :=
| StateNew | StateIngested | StatePaused | StateCancelled
| StateCompiled | StateReady | StateRunning | StateVerified | StateCompleted | StateRejected | StateFailed
| StateOther (s : string).
#[global] Instance State_eq_dec : EqDecision State.
Proof. solve_decision. Defined.

Inductive Action :=
| ActionIngest | ActionPause | ActionResume | ActionCancel | ActionDispatch | ActionComplete | ActionFail
| ActionOther (s : string).
#[global] Instance Action_eq_dec : EqDecision Action.
Proof. solve_decision. Defined.

Definition validTransitions (from : State) (a : Action) : option State :=
  match from, a with
  | StateNew, ActionIngest => Some StateIngested
  | StateNew, ActionPause => Some StatePaused
  | StateNew, ActionDispatch => Some StateRunning
  | StateIngested, ActionPause => Some StatePaused
  | StateIngested, ActionDispatch => Some StateRunning
  | StatePaused, ActionResume => Some StateIngested
  | StateRunning, ActionComplete => Some StateCompleted
  | StateRunning, ActionFail => Some StateFailed
  | _, _ => None
  end.

Definition IsTerminal (s : State) : bool :=
  match s with StateCancelled | StateCompleted | StateFailed => true | _ => false end.

(** [None] is [*ErrInvalidTransition]. *)
Definition CanTransition (from : State) (a : Action) : option State :=
  if IsTerminal from then None
  else if bool_decide (a = ActionCancel) then Some StateCancelled
  else validTransitions from a.

Definition IsValidState (s : State) : bool :=
  match s with
  | StateNew | StateIngested | StatePaused | StateCancelled | StateRunning | StateCompleted | StateFailed => true
  | _ => false
  end.

Definition ActionForOutcome (outcome : string) : Action :=
  if bool_decide (outcome ∈ ["completed-with-commit"; "completed-with-uncommitted-changes"]) then ActionComplete
  else if bool_decide (outcome = "cancelled") then ActionCancel
  else ActionFail.

Definition State_String (s : State) : string :=
  match s with
  | StateNew => "NEW" | StateIngested => "INGESTED" | StatePaused => "PAUSED" | StateCancelled => "CANCELLED"
  | StateCompiled => "COMPILED" | StateReady => "READY" | StateRunning => "RUNNING" | StateVerified => "VERIFIED"
  | StateCompleted => "COMPLETED" | StateRejected => "REJECTED" | StateFailed => "FAILED"
  | StateOther s => s
  end.
Definition Action_String (a : Action) : string :=
  match a with
  | ActionIngest => "ingest" | ActionPause => "pause" | ActionResume => "resume" | ActionCancel => "cancel"
  | ActionDispatch => "dispatch" | ActionComplete => "complete" | ActionFail => "fail" | ActionOther s => s
  end.

(** ** The tables *)

Record Project := mkProject {
  Project_ID : string;
  Name : string;
  Path : string;
  Remote : string;
  Project_State : project.State;
  Profile : string;
  Project_CreatedAt : Time;
  Project_UpdatedAt : Time }.

Record Task := mkTask {
  ID : string;
  ProjectID : string;
  Title : string;
  Description : string;
  Priority : string;
  Task_State : State;
  CreatedAt : Time;
  UpdatedAt : Time }.

Record Attachment := mkAttachment {
  Hash : string;
  Filename : string;
  MimeType : string;
  Size : Z;
  Role : string }.

(** The database; an attachment row is a task id and the attachment. *)
Record DB := mkDB {
  projects : list Project;
  tasks : list Task;
  attachments : list (string * Attachment);
  sequences : gmap string Z;
  trail : audit.Trail }.

Inductive Error :=
| ErrNoRows
| ErrProjectNotFound
| ErrTaskNotFound
| ErrNotAGitRepo
| ErrAlreadyRegistered (id : string)
| ErrInvalidProfile (p : string)
| ErrInvalidTransition (from action : string)
| ErrRequired (what : string)
| ErrEmptyDescription
| ErrOpen (path : string)
| ErrUnique
| ErrForeignKey
| ErrCorrupt (n : Z)
| ErrAudit (e : string).

Definition isProject (id : string) (p : Project) : bool := bool_decide (Project_ID p = id).
Definition isTask (id : string) (t : Task) : bool := bool_decide (ID t = id).

(** A missing row is a wrapped [sql.ErrNoRows]. *)
Definition GetProject (id : string) (d : DB) : result Error Project :=
  match List.find (isProject id) (projects d) with Some p => Ok p | None => Err ErrNoRows end.
Definition GetProjectByPath (path : string) (d : DB) : result Error Project :=
  match List.find (λ p, bool_decide (Path p = path)) (projects d) with Some p => Ok p | None => Err ErrNoRows end.

Definition CreateProject (p : Project) (d : DB) : result Error DB :=
  if existsb (λ q, bool_decide (Project_ID q = Project_ID p) || bool_decide (Path q = Path p)) (projects d)
  then Err ErrUnique
  else Ok (mkDB (projects d ++ [p]) (tasks d) (attachments d) (sequences d) (trail d)).

(** The cascade takes the project's tasks and their attachments; the task
    sequence has no foreign key and stays. *)
Definition DeleteProject (id : string) (d : DB) : result Error DB :=
  if existsb (isProject id) (projects d) then
    let gone := ID <$> filter (λ t, ProjectID t = id) (tasks d) in
    Ok (mkDB (filter (λ p, Project_ID p ≠ id) (projects d)) (filter (λ t, ProjectID t ≠ id) (tasks d))
          (filter (λ a, a.1 ∉ gone) (attachments d)) (sequences d) (trail d))
  else Err ErrProjectNotFound.

Definition UpdateProjectState (id : string) (s : project.State) (at_ : Time) (d : DB) : result Error DB :=
  if existsb (isProject id) (projects d) then
    Ok (mkDB ((λ p, if isProject id p then mkProject (Project_ID p) (Name p) (Path p) (Remote p) s (Profile p)
                                             (Project_CreatedAt p) at_ else p) <$> projects d)
          (tasks d) (attachments d) (sequences d) (trail d))
  else Err ErrProjectNotFound.

Definition lessName (a b : Project) : bool := negb (String.leb (Name b) (Name a)).
Definition ListProjects (d : DB) : list Project := sortStable lessName (projects d).

Definition CreateTask (t : Task) (d : DB) : result Error DB :=
  if existsb (isTask (ID t)) (tasks d) then Err ErrUnique
  else if negb (existsb (isProject (ProjectID t)) (projects d)) then Err ErrForeignKey
  else Ok (mkDB (projects d) (tasks d ++ [t]) (attachments d) (sequences d) (trail d)).

Definition GetTask (id : string) (d : DB) : result Error Task :=
  match List.find (isTask id) (tasks d) with Some t => Ok t | None => Err ErrNoRows end.

(** [ORDER BY created_at]: the order of the timestamp texts. *)
Definition lessCreated (a b : Task) : bool := negb (workstore.textLe (CreatedAt b) (CreatedAt a)).
Definition ListTasksByProject (p : string) (d : DB) : list Task :=
  sortStable lessCreated (filter (λ t, ProjectID t = p) (tasks d)).
Definition ListAllTasks (d : DB) : list Task := sortStable lessCreated (tasks d).

Definition setTaskState (s : State) (at_ : Time) (t : Task) : Task :=
  mkTask (ID t) (ProjectID t) (Title t) (Description t) (Priority t) s (CreatedAt t) at_.
Definition UpdateTaskState (id : string) (s : State) (at_ : Time) (d : DB) : result Error DB :=
  if existsb (isTask id) (tasks d) then
    Ok (mkDB (projects d) ((λ t, if isTask id t then setTaskState s at_ t else t) <$> tasks d)
          (attachments d) (sequences d) (trail d))
  else Err ErrTaskNotFound.

Definition CreateAttachment (id : string) (a : Attachment) (d : DB) : result Error DB :=
  if existsb (isTask id) (tasks d)
  then Ok (mkDB (projects d) (tasks d) (attachments d ++ [(id, a)]) (sequences d) (trail d))
  else Err ErrForeignKey.
Definition ListAttachments (id : string) (d : DB) : list Attachment :=
  snd <$> filter (λ a, a.1 = id) (attachments d).

(** [Tx.NextTaskSeq]: the UPSERT and its read back. *)
Definition NextTaskSeq (p : string) (d : DB) : result Error (Z * DB) :=
  if bool_decide (p = "") then Err (ErrRequired "project id is required for task sequence")
  else
    let n := match sequences d !! p with None => 1 | Some n => n + 1 end%Z in
    if (n <=? 0)%Z then Err (ErrCorrupt n)
    else Ok (n, mkDB (projects d) (tasks d) (attachments d) (<[p := n]> (sequences d)) (trail d)).

(** [auditTaskTx] and [auditProjectTx]. *)
Definition auditTx (rec : option audit.Recorder) (scope id type_ : string) (payload : list (string * audit.Val))
    (d : DB) : result Error DB :=
  match rec with
  | None => Ok d
  | Some rec =>
      match audit.Record_ rec (audit.mkEvent type_ scope id audit.ActorUser (Some (audit.Payload payload)) 0) (trail d) with
      | (Ok _, t) => Ok (mkDB (projects d) (tasks d) (attachments d) (sequences d) t)
      | (Err e, _) => Err (ErrAudit e)
      end
  end.

(** ** Names *)

(** [slugify]: every run of other bytes is one dash. *)
Definition alphaNum (c : ascii) : bool :=
  let n := nat_of_ascii c in ((97 <=? n) && (n <=? 122)) || ((48 <=? n) && (n <=? 57)).
Fixpoint dashRuns (inRun : bool) (s : string) : string :=
  match s with
  | EmptyString => EmptyString
  | String c s =>
      if alphaNum c then String c (dashRuns false s)
      else if inRun then dashRuns true s else String "-" (dashRuns true s)
  end.
Fixpoint dropDashes (s : string) : string :=
  match s with String "-" s' => dropDashes s' | _ => s end.
Definition trimDashes (s : string) : string := strs.rev (dropDashes (strs.rev (dropDashes s))).
Definition slugify (name : string) : string :=
  strs.take_bytes 40 (trimDashes (dashRuns false (strs.ToLower name))).

Definition suffixed (base : string) (n : Z) : string := base +:+ "-" +:+ pretty n.

(** The loop of [uniqueID]: the id under test and the next suffix. *)
Fixpoint uniqueLoop (fuel : nat) (base id : string) (suffix : Z) (d : DB) : option string :=
  match fuel with
  | O => None
  | S fuel =>
      if is_ok (GetProject id d) then uniqueLoop fuel base (suffixed base suffix) (suffix + 1) d else Some id
  end.
Definition uniqueID (base : string) (d : DB) : option string :=
  uniqueLoop (S (length (projects d))) base base 2 d.

Definition profiles : list string := ["PLAN_ONLY"; "LOCAL_REVIEW"; "REMOTE_REVIEW"; "AUTONOMOUS"; "CUSTOM"].

Record AttachmentInput := mkAttachmentInput {
  Input_Path : string;
  Input_Filename : string;
  Input_Role : string }.

Record AddRequest := mkAddRequest {
  Req_ProjectID : string;
  Req_Description : string;
  Req_Title : string;
  Req_Priority : string;
  Req_Attachments : list AttachmentInput }.

Definition taskID (p : string) (n : Z) : string := p +:+ "-" +:+ pretty n.

Fixpoint createAttachments (id : string) (l : list Attachment) (d : DB) : result Error DB :=
  match l with
  | [] => Ok d
  | a :: l => d ← CreateAttachment id a d; createAttachments id l d
  end.

(** The content-addressed store: hash to content. *)
Abbreviation Artifacts := (gmap string string) (only parsing).

(** What users and the daemon do. *)
Inductive Op :=
| OpRegister (now : Time) (path name profile : string)
| OpRemove (id : string)
| OpProject (id : string) (a : project.Action) (now : Time)
| OpAdd (now : Time) (r : AddRequest)
| OpTask (id : string) (a : Action) (now : Time).

Definition empty : DB * Artifacts := (mkDB [] [] [] ∅ [], ∅).

(** ** Lemmas: identifiers *)

Definition noDash (c : ascii) : bool := negb (bool_decide (c = "-"%char)).

Lemma dash_split p p' a b :
  everyByte noDash a = true → everyByte noDash b = true → p +:+ "-" +:+ a = p' +:+ "-" +:+ b → p = p' ∧ a = b.
Proof.
  intros Ha Hb. revert p'; induction p as [|c p IH]; intros [|c' p'] H.
  - split; [done|]. by injection H.
  - exfalso. change (String "-" a = String c' (p' +:+ "-" +:+ b)) in H. injection H as <- ->.
    rewrite !everyByte_app in Ha. cbn in Ha. by rewrite andb_false_r in Ha.
  - exfalso. change (String c (p +:+ "-" +:+ a) = String "-" b) in H. injection H as -> <-.
    rewrite !everyByte_app in Hb. cbn in Hb. by rewrite andb_false_r in Hb.
  - change (String c (p +:+ "-" +:+ a) = String c' (p' +:+ "-" +:+ b)) in H. injection H as -> H.
    by destruct (IH p' H) as [-> ->].
Qed.

Lemma taskID_inj p n p' n' :
  (0 < n)%Z → (0 < n')%Z → taskID p n = taskID p' n' → p = p' ∧ n = n'.
Proof.
  intros Hn Hn' H. apply dash_split in H as [-> H]; [|by apply pretty_Z_bytes..].
  by apply (inj pretty) in H.
Qed.

(** ** Lemmas: what the transactions leave alone *)

Lemma auditTx_tables rec scope id ty pl d d' :
  auditTx rec scope id ty pl d = Ok d' →
  projects d' = projects d ∧ tasks d' = tasks d ∧ attachments d' = attachments d ∧ sequences d' = sequences d.
Proof.
  unfold auditTx. destruct rec as [r|]; [|by intros [= <-]].
  destruct (audit.Record_ _ _ _) as [[n|e] t]; [|done]. by intros [= <-].
Qed.

Lemma createAttachments_tables id l d d' :
  createAttachments id l d = Ok d' →
  projects d' = projects d ∧ tasks d' = tasks d ∧ sequences d' = sequences d.
Proof.
  revert d; induction l as [|a l IH]; intros d; simpl; [by intros [= <-]|].
  intros (d1 & H1 & H2)%bind_ok. unfold CreateAttachment in H1. destruct (existsb _ _); [|done].
  injection H1 as <-. by apply IH in H2.
Qed.

Lemma existsb_isTask id d : existsb (isTask id) (tasks d) = true ↔ id ∈ ID <$> tasks d.
Proof.
  rewrite existsb_elem. unfold isTask. setoid_rewrite bool_decide_eq_true. rewrite list_elem_of_fmap. naive_solver.
Qed.

Lemma existsb_isProject id d : existsb (isProject id) (projects d) = true ↔ id ∈ Project_ID <$> projects d.
Proof.
  rewrite existsb_elem. unfold isProject. setoid_rewrite bool_decide_eq_true. rewrite list_elem_of_fmap. naive_solver.
Qed.

(** ** Lemmas: the task ids *)

Record ids_ok (d : DB) : Prop := {
  ids_issued : ∀ t, t ∈ tasks d → ∃ n, (0 < n ≤ default 0 (sequences d !! ProjectID t))%Z ∧ ID t = taskID (ProjectID t) n;
  ids_unique : NoDup (ID <$> tasks d);
  ids_positive : ∀ p n, sequences d !! p = Some n → (0 < n)%Z }.

Definition seq_of (d : DB) (p : string) : Z := default 0%Z (sequences d !! p).
Definition grows (d d' : DB) : Prop := ∀ p, (seq_of d p ≤ seq_of d' p)%Z.

(** An operation that only drops tasks or changes their state. *)
Lemma ids_ok_fewer d d' :
  sequences d' = sequences d → NoDup (ID <$> tasks d') →
  (∀ t', t' ∈ tasks d' → ∃ t, t ∈ tasks d ∧ ID t' = ID t ∧ ProjectID t' = ProjectID t) →
  ids_ok d → ids_ok d' ∧ grows d d'.
Proof.
  intros Hs Hnd Ht [H1 H2 H3]. split; [|intros p; unfold seq_of; by rewrite Hs]. constructor.
  - intros t' Hin. destruct (Ht t' Hin) as (t & Hin' & -> & ->). rewrite Hs. by apply H1.
  - done.
  - rewrite Hs. done.
Qed.

Lemma ids_ok_same d d' :
  tasks d' = tasks d → sequences d' = sequences d → ids_ok d → ids_ok d' ∧ grows d d'.
Proof.
  intros Ht Hs Hok. apply ids_ok_fewer; [done|rewrite Ht; apply Hok|rewrite Ht; eauto|done].
Qed.

Lemma UpdateTaskState_tasks id s at_ d d' :
  UpdateTaskState id s at_ d = Ok d' →
  tasks d' = (λ t, if isTask id t then setTaskState s at_ t else t) <$> tasks d ∧
  sequences d' = sequences d ∧ projects d' = projects d.
Proof. unfold UpdateTaskState. destruct (existsb _ _); [|done]. by intros [= <-]. Qed.

Lemma seq_of_nonneg d p : ids_ok d → (0 ≤ seq_of d p)%Z.
Proof.
  intros Hok. unfold seq_of. destruct (sequences d !! p) eqn:E; [|done]. apply (ids_positive d Hok) in E. simpl. lia.
Qed.

Lemma fresh_id d p : ids_ok d → taskID p (seq_of d p + 1) ∉ ID <$> tasks d.
Proof.
  intros Hok (t & Heq & Hin)%list_elem_of_fmap. destruct (ids_issued d Hok t Hin) as (n & Hn & Hid).
  pose proof (seq_of_nonneg d p Hok). rewrite Hid in Heq.
  apply taskID_inj in Heq as [-> Heq]; [|lia|lia]. unfold seq_of in *. lia.
Qed.

Lemma empty_ids : ids_ok empty.1.
Proof.
  constructor; simpl; [by intros t ?%elem_of_nil|constructor|]. intros p n H. by rewrite lookup_empty in H.
Qed.

(** ** Lemmas: [uniqueID] *)

(** The [k]-th id [uniqueID] tries. *)
Definition candidate (base : string) (k : nat) : string :=
  match k with O => base | S _ => suffixed base (Z.of_nat k + 1) end.

Lemma candidate_inj base j k : candidate base j = candidate base k → j = k.
Proof.
  assert (∀ n, base ≠ suffixed base n) as Hne.
  { intros n H. unfold suffixed in H. apply (f_equal String.length) in H.
    assert (∀ a b, String.length (a +:+ b) = String.length a + String.length b) as Hlen.
    { induction a as [|c a IH]; intros b; [done|]. change (S (String.length (a +:+ b)) = S (String.length a + String.length b)).
      by rewrite IH. }
    rewrite !Hlen in H. simpl in H. lia. }
  destruct j as [|j], k as [|k]; cbn [candidate]; [done|intros H; by apply Hne in H|intros H; symmetry in H; by apply Hne in H|].
  unfold suffixed. intros H%(inj (String.append base))%(inj (String.append "-"))%(inj pretty). lia.
Qed.

Lemma uniqueLoop_spec fuel base k d :
  match uniqueLoop fuel base (candidate base k) (Z.of_nat k + 2) d with
  | Some id => GetProject id d = Err ErrNoRows
  | None => ∀ j, k ≤ j < k + fuel → candidate base j ∈ Project_ID <$> projects d
  end.
Proof.
  revert k; induction fuel as [|fuel IH]; intros k; simpl; [intros j Hj; lia|].
  unfold GetProject at 1. destruct (List.find (isProject (candidate base k)) (projects d)) as [p|] eqn:E; simpl.
  - apply List.find_some in E as [Hin Hp]. unfold isProject in Hp. apply bool_decide_eq_true in Hp.
    specialize (IH (S k)). change (suffixed base (Z.of_nat k + 2)) with (suffixed base (Z.of_nat k + 2)) in *.
    replace (Z.of_nat (S k) + 2)%Z with (Z.of_nat k + 2 + 1)%Z in IH by lia.
    assert (candidate base (S k) = suffixed base (Z.of_nat k + 2)) as Hc by (cbn [candidate]; f_equal; lia).
    rewrite Hc in IH. destruct (uniqueLoop _ _ _ _ _) as [id|]; [done|].
    intros j Hj. destruct (decide (j = k)) as [->|Hjk]; [|apply IH; lia].
    rewrite <-Hp. apply list_elem_of_fmap_2. by apply list_elem_of_In.
  - unfold GetProject. by rewrite E.
Qed.

Lemma uniqueID_fresh base d : ∃ id, uniqueID base d = Some id ∧ GetProject id d = Err ErrNoRows.
Proof.
  unfold uniqueID. pose proof (uniqueLoop_spec (S (length (projects d))) base 0 d) as H. cbn [candidate] in H.
  change (Z.of_nat 0 + 2)%Z with 2%Z in H. destruct (uniqueLoop _ _ _ _ _) as [id|]; [eauto|].
  exfalso. set (l := candidate base <$> seq 0 (S (length (projects d)))).
  assert (NoDup l) as Hnd.
  { apply NoDup_fmap_2_strong; [|apply NoDup_seq]. intros x y _ _. apply candidate_inj. }
  assert (l ⊆+ Project_ID <$> projects d) as Hsub.
  { apply NoDup_submseteq; [done|]. intros x (j & -> & [_ Hj]%elem_of_seq)%list_elem_of_fmap. apply H. lia. }
  apply submseteq_length in Hsub. unfold l in Hsub. rewrite !length_fmap, length_seq in Hsub. lia.
Qed.

(** ** The registry *)

Section services.
  Context (rec : option audit.Recorder).
  (** [filepath.Abs], [ValidateGitRepo] (the origin of a repository), the
      content of a readable file, the hex SHA-256 of a content and the MIME
      type of an extension. *)
  Context (Abs : string → string) (ValidateGitRepo : string → option string).
  Context (readFile : string → option string) (sha256 : string → string) (TypeByExtension : string → string).

(** [Registry.Add], the reads against [d] and the transaction against [d'];
    [None] is [uniqueID] out of fuel. *)
Definition Registry_Add (now : Time) (reqPath reqName reqProfile : string) (d d' : DB) :
    option (result Error (Project * DB)) :=
  let abs := Abs reqPath in
  match ValidateGitRepo abs with
  | None => Some (Err ErrNotAGitRepo)
  | Some remote =>
      let existing := match GetProjectByPath abs d with Ok p => Project_ID p | Err _ => "" end in
      let name := if bool_decide (reqName = "") then Base abs else reqName in
      let profile := if bool_decide (reqProfile = "") then "LOCAL_REVIEW" else reqProfile in
      if negb (bool_decide (existing = "")) then Some (Err (ErrAlreadyRegistered existing))
      else if negb (bool_decide (profile ∈ profiles)) then Some (Err (ErrInvalidProfile profile))
      else
        let base := if bool_decide (slugify (Base abs) = "") then "project" else slugify (Base abs) in
        id ← uniqueID base d;
        let p := mkProject id name abs remote project.StateDisabled profile now now in
        Some (
          d' ← CreateProject p d';
          d' ← auditTx rec audit.ScopeProject id "project.added"
                 [("path", audit.VString abs); ("remote", audit.VString remote); ("profile", audit.VString profile)] d';
          Ok (p, d'))
  end.

(** The two halves of [Registry.Remove]: the read and the transaction. *)
Definition Registry_Remove (id : string) (d : DB) : result Error DB :=
  p ← GetProject id d;
  d ← DeleteProject id d;
  auditTx rec audit.ScopeProject id "project.removed" [("path", audit.VString (Path p))] d.

(** [Registry.Transition]: the decision on the row read... *)
Definition Registry_plan (id : string) (a : project.Action) (d : DB) : result Error (Project * project.State) :=
  p ← GetProject id d;
  match project.CanTransition (Project_State p) a with
  | None => Err (ErrInvalidTransition (project.State_String (Project_State p)) (project.Action_String a))
  | Some s => Ok (p, s)
  end.
(** ... and the transaction that stores it. *)
Definition Registry_commit (id : string) (a : project.Action) (now : Time) (plan : Project * project.State) (d : DB) :
    result Error (Project * DB) :=
  let '(p, s) := plan in
  d ← UpdateProjectState id s now d;
  d ← auditTx rec audit.ScopeProject id "project.state_changed"
        [("action", audit.VString (project.Action_String a));
         ("from", audit.VString (project.State_String (Project_State p)));
         ("to", audit.VString (project.State_String s))] d;
  Ok (mkProject (Project_ID p) (Name p) (Path p) (Remote p) s (Profile p) (Project_CreatedAt p) now, d).
Definition Registry_Transition (id : string) (a : project.Action) (now : Time) (d : DB) : result Error (Project * DB) :=
  plan ← Registry_plan id a d; Registry_commit id a now plan d.

(** ** The backlog *)

Definition mimeTypeFor (filename : string) : string :=
  let ext := Ext filename in
  if bool_decide (ext = "") then "application/octet-stream"
  else if bool_decide (TypeByExtension ext = "") then "application/octet-stream"
  else TypeByExtension ext.

(** The two reads of [input.Path] are taken as one: nobody writes the file in
    between.  [copyArtifact] creates the file exclusively. *)
Definition storeAttachment (i : AttachmentInput) (fs : Artifacts) : result Error (Attachment * Artifacts) :=
  if bool_decide (Input_Path i = "") then Err (ErrRequired "attachment path is required")
  else match readFile (Input_Path i) with
  | None => Err (ErrOpen (Input_Path i))
  | Some content =>
      let hash := sha256 content in
      let filename := if bool_decide (Input_Filename i = "") then Base (Input_Path i) else Input_Filename i in
      let fs := match fs !! hash with Some _ => fs | None => <[hash := content]> fs end in
      let role := if bool_decide (Input_Role i = "") then "GENERAL_CONTEXT" else Input_Role i in
      Ok (mkAttachment hash filename (mimeTypeFor filename) (Z.of_nat (String.length content)) role, fs)
  end.

(** The attachment loop of [Add]: what is stored before a failure stays. *)
Fixpoint storeAttachments (l : list AttachmentInput) (fs : Artifacts) : result Error (list Attachment) * Artifacts :=
  match l with
  | [] => (Ok [], fs)
  | i :: l =>
      match storeAttachment i fs with
      | Err e => (Err e, fs)
      | Ok (a, fs) =>
          match storeAttachments l fs with
          | (Ok l, fs) => (Ok (a :: l), fs)
          | (Err e, fs) => (Err e, fs)
          end
      end
  end.

(** The transaction of [Backlog.Add]. *)
Definition addTx (now : Time) (r : AddRequest) (atts : list Attachment) (d : DB) : result Error (Task * DB) :=
  '(n, d) ← NextTaskSeq (Req_ProjectID r) d;
  let priority := if bool_decide (Req_Priority r = "") then "NORMAL" else Req_Priority r in
  let t := mkTask (taskID (Req_ProjectID r) n) (Req_ProjectID r) (Req_Title r) (Req_Description r) priority
             StateNew now now in
  d ← CreateTask t d;
  d ← createAttachments (ID t) atts d;
  d ← auditTx rec audit.ScopeTask (ID t) "task.created"
        [("project", audit.VString (ProjectID t)); ("title", audit.VString (Title t));
         ("priority", audit.VString (Priority t)); ("attachments", audit.VInt (Z.of_nat (length atts)))] d;
  Ok (t, d).

Definition Add (now : Time) (r : AddRequest) (fs : Artifacts) (d : DB) :
    result Error (Task * list Attachment * DB) * Artifacts :=
  if bool_decide (Req_ProjectID r = "") then (Err (ErrRequired "project id"), fs)
  else match storeAttachments (Req_Attachments r) fs with
  | (Err e, fs) => (Err e, fs)
  | (Ok atts, fs) =>
      if bool_decide (strs.TrimSpace (Req_Description r) = "") && bool_decide (atts = [])
      then (Err ErrEmptyDescription, fs)
      else ('(t, d) ← addTx now r atts d; Ok (t, atts, d), fs)
  end.

(** [Backlog.Get] names a missing row [ErrNotFound]. *)
Definition Get (id : string) (d : DB) : result Error (Task * list Attachment) :=
  match GetTask id d with
  | Err ErrNoRows => Err ErrTaskNotFound
  | Err e => Err e
  | Ok t => Ok (t, ListAttachments id d)
  end.

(** [Backlog.Transition]: the decision on the row read... *)
Definition plan (id : string) (a : Action) (d : DB) : result Error (Task * State) :=
  t ← GetTask id d;
  match CanTransition (Task_State t) a with
  | None => Err (ErrInvalidTransition (State_String (Task_State t)) (Action_String a))
  | Some s => Ok (t, s)
  end.
(** ... and the transaction that stores it, whatever the row says by then. *)
Definition commit (id : string) (a : Action) (now : Time) (p : Task * State) (d : DB) : result Error (Task * DB) :=
  let '(t, s) := p in
  d ← UpdateTaskState id s now d;
  d ← auditTx rec audit.ScopeTask id "task.state_changed"
        [("action", audit.VString (Action_String a)); ("from", audit.VString (State_String (Task_State t)));
         ("to", audit.VString (State_String s))] d;
  Ok (mkTask (ID t) (ProjectID t) (Title t) (Description t) (Priority t) s (CreatedAt t) (UpdatedAt t), d).
Definition Transition (id : string) (a : Action) (now : Time) (d : DB) : result Error (Task * DB) :=
  p ← plan id a d; commit id a now p d.
Definition Pause (id : string) : Time → DB → result Error (Task * DB) := Transition id ActionPause.
Definition Cancel (id : string) : Time → DB → result Error (Task * DB) := Transition id ActionCancel.

(** ** Histories: one operation after the other *)

Definition exec (w : DB * Artifacts) (o : Op) : DB * Artifacts :=
  let '(d, fs) := w in
  match o with
  | OpRegister now path name profile =>
      match Registry_Add now path name profile d d with Some (Ok (_, d')) => (d', fs) | _ => (d, fs) end
  | OpRemove id => match Registry_Remove id d with Ok d' => (d', fs) | Err _ => (d, fs) end
  | OpProject id a now => match Registry_Transition id a now d with Ok (_, d') => (d', fs) | Err _ => (d, fs) end
  | OpAdd now r => match Add now r fs d with (Ok (_, _, d'), fs) => (d', fs) | (Err _, fs) => (d, fs) end
  | OpTask id a now => match Transition id a now d with Ok (_, d') => (d', fs) | Err _ => (d, fs) end
  end.
Definition execAll (ops : list Op) (w : DB * Artifacts) : DB * Artifacts := foldl exec w ops.


Lemma addTx_spec now r atts d t d' :
  ids_ok d → addTx now r atts d = Ok (t, d') →
  let n := (seq_of d (Req_ProjectID r) + 1)%Z in
  ID t = taskID (Req_ProjectID r) n ∧ ProjectID t = Req_ProjectID r ∧ Task_State t = StateNew ∧
  tasks d' = tasks d ++ [t] ∧ sequences d' = <[Req_ProjectID r := n]> (sequences d) ∧ projects d' = projects d.
Proof using Type.
  intros Hok H. unfold addTx in H.
  apply bind_ok in H as ([n d1] & Hn & (d2 & Hc & (d3 & Ha & (d4 & Hau & [= <- <-])%bind_ok)%bind_ok)%bind_ok).
  unfold NextTaskSeq in Hn. destruct (bool_decide _); [done|]. destruct (_ <=? 0)%Z; [done|]. injection Hn as Hn <-.
  assert (n = seq_of d (Req_ProjectID r) + 1)%Z as Hn'.
  { rewrite <-Hn. unfold seq_of. destruct (sequences d !! Req_ProjectID r); simpl; lia. }
  apply auditTx_tables in Hau as (E1 & E2 & _ & E3). apply createAttachments_tables in Ha as (F1 & F2 & F3).
  unfold CreateTask in Hc. destruct (existsb _ _); [done|]. destruct (negb _); [done|]. injection Hc as <-.
  simpl in *. rewrite E1, E2, E3, F1, F2, F3, Hn, Hn'. done.
Qed.

Lemma addTx_ok now r atts d t d' : ids_ok d → addTx now r atts d = Ok (t, d') → ids_ok d' ∧ grows d d'.
Proof using Type.
  intros Hok H. destruct (addTx_spec _ _ _ _ _ _ Hok H) as (Hid & Hp & _ & Ht & Hs & _).
  pose proof (seq_of_nonneg d (Req_ProjectID r) Hok) as Hn.
  assert (grows d d') as Hg.
  { intros p. unfold seq_of at 2. rewrite Hs. destruct (decide (Req_ProjectID r = p)) as [<-|Hne].
    - rewrite lookup_insert_eq. simpl. lia.
    - rewrite lookup_insert_ne by done. done. }
  split; [|done]. constructor.
  - intros x. rewrite Ht. intros [Hx| ->%list_elem_of_singleton]%elem_of_app.
    + destruct (ids_issued d Hok x Hx) as (n & Hn' & Hx'). exists n. split; [|done].
      specialize (Hg (ProjectID x)). unfold seq_of in Hg. lia.
    + exists (seq_of d (Req_ProjectID r) + 1)%Z. rewrite Hp, Hs, lookup_insert_eq. simpl. split; [lia|done].
  - rewrite Ht, fmap_app. apply NoDup_app. split_and!; [apply Hok| |apply NoDup_singleton].
    intros x Hx ->%list_elem_of_singleton. rewrite Hid in Hx. by apply fresh_id in Hx.
  - intros p n. rewrite Hs. destruct (decide (Req_ProjectID r = p)) as [<-|Hne].
    + rewrite lookup_insert_eq. intros [= <-]. lia.
    + rewrite lookup_insert_ne by done. apply Hok.
Qed.

Lemma Add_inv now r fs d t l d' fs' :
  Add now r fs d = (Ok (t, l, d'), fs') → addTx now r l d = Ok (t, d').
Proof using Type.
  unfold Add. case_bool_decide; [done|]. destruct (storeAttachments _ fs) as [[atts|e] fs1]; [|done].
  destruct (_ && _); [done|]. destruct (addTx now r atts d) as [[t1 d1]|e] eqn:E; [|done].
  cbn. intros Hr. injection Hr as <- <- <- <-. done.
Qed.

Lemma Transition_inv id a now d t d' :
  Transition id a now d = Ok (t, d') →
  ∃ t0 s, GetTask id d = Ok t0 ∧ CanTransition (Task_State t0) a = Some s ∧
    tasks d' = (λ t, if isTask id t then setTaskState s now t else t) <$> tasks d ∧
    sequences d' = sequences d ∧ projects d' = projects d.
Proof using Type.
  unfold Transition, plan. intros ([t0 s] & Hp & Hc)%bind_ok. apply bind_ok in Hp as (t1 & Hg & Hp).
  destruct (CanTransition _ a) as [s'|] eqn:E; [|done]. injection Hp as <- <-.
  unfold commit in Hc. apply bind_ok in Hc as (d1 & Hu & (d2 & Hau & [= <- <-])%bind_ok).
  apply auditTx_tables in Hau as (H1 & H2 & _ & H3). apply UpdateTaskState_tasks in Hu as (H4 & H5 & H6).
  exists t1, s'. split_and!; [done|done|congruence..].
Qed.

Lemma Remove_inv id d d' :
  Registry_Remove id d = Ok d' → tasks d' = filter (λ t, ProjectID t ≠ id) (tasks d) ∧ sequences d' = sequences d.
Proof using Type.
  unfold Registry_Remove. intros (p & _ & (d1 & Hd & Hau)%bind_ok)%bind_ok.
  apply auditTx_tables in Hau as (_ & -> & _ & ->). unfold DeleteProject in Hd. destruct (existsb _ _); [|done].
  by injection Hd as <-.
Qed.

Lemma Registry_tables id a now d p d' :
  Registry_Transition id a now d = Ok (p, d') → tasks d' = tasks d ∧ sequences d' = sequences d.
Proof using Type.
  unfold Registry_Transition, Registry_commit. intros ([p0 s] & _ & (d1 & Hu & (d2 & Hau & [= _ <-])%bind_ok)%bind_ok)%bind_ok.
  apply auditTx_tables in Hau as (_ & -> & _ & ->). unfold UpdateProjectState in Hu. destruct (existsb _ _); [|done].
  by injection Hu as <-.
Qed.

Lemma Registry_Add_tables now path name profile d d0 p d' :
  Registry_Add now path name profile d0 d = Some (Ok (p, d')) → tasks d' = tasks d ∧ sequences d' = sequences d.
Proof using Type.
  unfold Registry_Add. destruct (ValidateGitRepo _); [|done]. cbv zeta. destruct (negb _); [done|].
  destruct (negb _); [done|]. intros (id & _ & H)%bind_Some. injection H as H.
  apply bind_ok in H as (d1 & Hc & (d2 & Hau & [= _ <-])%bind_ok).
  apply auditTx_tables in Hau as (_ & -> & _ & ->). unfold CreateProject in Hc. destruct (existsb _ _); [done|].
  by injection Hc as <-.
Qed.

Lemma exec_ids w o : ids_ok w.1 → ids_ok (exec w o).1 ∧ grows w.1 (exec w o).1.
Proof using Type.
  destruct w as [d fs]. intros Hok. assert (ids_ok d ∧ grows d d) as Hsame by (split; [done|intros p; done]).
  destruct o as [now path name profile|id|id a now|now r|id a now]; simpl in *.
  - destruct (Registry_Add _ _ _ _ _ _) as [[[p d']|e]|] eqn:E; [|done..].
    apply Registry_Add_tables in E as [? ?]. by apply ids_ok_same.
  - destruct (Registry_Remove id d) as [d'|e] eqn:E; [|done]. apply Remove_inv in E as [Ht Hs].
    cbn [fst]. apply ids_ok_fewer; [done| |rewrite Ht; intros t [_ H]%list_elem_of_filter; eauto|done].
    rewrite Ht. apply NoDup_fmap_filter, Hok.
  - destruct (Registry_Transition id a now d) as [[p d']|e] eqn:E; [|done].
    apply Registry_tables in E as [? ?]. by apply ids_ok_same.
  - destruct (Add now r fs d) as [[[[t l] d']|e] fs'] eqn:E; [|done]. apply Add_inv in E.
    by eapply addTx_ok.
  - destruct (Transition id a now d) as [[t d']|e] eqn:E; [|done].
    apply Transition_inv in E as (t0 & s & _ & _ & Ht & Hs & _).
    assert (ID <$> tasks d' = ID <$> tasks d) as Hids.
    { rewrite Ht, <-list_fmap_compose. apply list_fmap_ext. intros i x _. simpl. by destruct (isTask id x). }
    cbn [fst]. apply ids_ok_fewer; [done|rewrite Hids; apply Hok| |done].
    rewrite Ht. intros x (y & -> & Hy)%list_elem_of_fmap. exists y. by destruct (isTask id y).
Qed.

Lemma execAll_ids ops w : ids_ok w.1 → ids_ok (execAll ops w).1 ∧ grows w.1 (execAll ops w).1.
Proof using Type.
  revert w; induction ops as [|o ops IH]; intros w Hok; [split; [done|intros p; done]|].
  destruct (exec_ids w o Hok) as [H1 H2]. destruct (IH _ H1) as [H3 H4]. split; [done|].
  intros p. specialize (H2 p). specialize (H4 p). simpl in *. lia.
Qed.

(** ** Lemmas: terminal states *)

Lemma GetTask_Ok id d t : GetTask id d = Ok t → t ∈ tasks d ∧ ID t = id.
Proof using Type.
  unfold GetTask. destruct (List.find _ _) as [x|] eqn:E; [|done]. intros [= <-].
  apply List.find_some in E as [Hin Hid]. unfold isTask in Hid. apply bool_decide_eq_true in Hid.
  split; [by apply list_elem_of_In|done].
Qed.

Lemma same_task (l : list Task) x y : NoDup (ID <$> l) → x ∈ l → y ∈ l → ID x = ID y → x = y.
Proof using Type.
  intros Hnd [i Hi]%list_elem_of_lookup [j Hj]%list_elem_of_lookup Hid.
  assert (i = j) as ->; [|congruence].
  eapply (NoDup_lookup (ID <$> l)); [done| |]; rewrite list_lookup_fmap; [by rewrite Hi|rewrite Hj; simpl; by rewrite Hid].
Qed.

(** The id [id] was issued, and whatever task bears it is in state [s]. *)
Definition settled (id : string) (s : State) (d : DB) : Prop :=
  (∃ p n, id = taskID p n ∧ (0 < n ≤ seq_of d p)%Z) ∧ ∀ t, t ∈ tasks d → ID t = id → Task_State t = s.

Lemma settled_tasks id s d d' :
  grows d d' → (∀ t', t' ∈ tasks d' → ID t' = id → ∃ t, t ∈ tasks d ∧ ID t = id ∧ Task_State t' = Task_State t) →
  settled id s d → settled id s d'.
Proof using Type.
  intros Hg Ht [(p & n & -> & Hn) Hs]. split.
  - exists p, n. split; [done|]. specialize (Hg p). lia.
  - intros t' Hin Hid. destruct (Ht t' Hin Hid) as (t & H1 & H2 & ->). by apply Hs.
Qed.

Lemma exec_settled w o id s :
  ids_ok w.1 → IsTerminal s = true → settled id s w.1 → settled id s (exec w o).1.
Proof using Type.
  intros Hok Hs Hset. destruct (exec_ids w o Hok) as [_ Hg]. apply settled_tasks with w.1; [done| |done].
  destruct w as [d fs]. destruct Hset as [(p0 & n0 & Hp0 & Hn0) Hset].
  assert (∀ t', t' ∈ tasks d → ID t' = id → ∃ t, t ∈ tasks d ∧ ID t = id ∧ Task_State t' = Task_State t) as Hsame by eauto.
  destruct o as [now path name profile|i|i a now|now r|i a now]; simpl in *.
  - destruct (Registry_Add _ _ _ _ _ _) as [[[p d']|e]|] eqn:E; [|done..].
    apply Registry_Add_tables in E as [Ht _]. cbn [fst]. by rewrite Ht.
  - destruct (Registry_Remove i d) as [d'|e] eqn:E; [|done]. apply Remove_inv in E as [Ht _]. cbn [fst]. rewrite Ht.
    intros t' [_ Hin]%list_elem_of_filter. by apply Hsame.
  - destruct (Registry_Transition i a now d) as [[p d']|e] eqn:E; [|done].
    apply Registry_tables in E as [Ht _]. cbn [fst]. by rewrite Ht.
  - destruct (Add now r fs d) as [[[[t l] d']|e] fs'] eqn:E; [|done]. apply Add_inv in E.
    destruct (addTx_spec _ _ _ _ _ _ Hok E) as (Hid & Hp & _ & Ht & _). cbn [fst]. rewrite Ht.
    intros t' [Hin| ->%list_elem_of_singleton]%elem_of_app Hid'; [by apply Hsame|]. exfalso.
    rewrite Hid, Hp0 in Hid'. pose proof (seq_of_nonneg d (Req_ProjectID r) Hok).
    apply taskID_inj in Hid' as [Heq1 Heq2]; [|lia|lia]. subst. lia.
  - destruct (Transition i a now d) as [[t d']|e] eqn:E; [|done].
    apply Transition_inv in E as (t0 & s' & Hg0 & Hc & Ht & _). cbn [fst]. rewrite Ht.
    apply GetTask_Ok in Hg0 as [Hin0 Hid0].
    intros x (y & -> & Hy)%list_elem_of_fmap Hid'. unfold isTask in *. case_bool_decide as Hi; [|by apply Hsame].
    exfalso. simpl in Hid'. subst. rewrite (Hset t0 Hin0) in Hc by congruence.
    unfold CanTransition in Hc. by rewrite Hs in Hc.
Qed.

(** ** Lemmas: the content-addressed store *)

Definition addressed (fs : Artifacts) : Prop := ∀ h c, fs !! h = Some c → sha256 c = h.

Lemma storeAttachments_addressed l fs :
  addressed fs → addressed (storeAttachments l fs).2 ∧
  (∀ h c, fs !! h = Some c → (storeAttachments l fs).2 !! h = Some c) ∧
  ∀ atts, (storeAttachments l fs).1 = Ok atts →
    Forall (λ a, is_Some ((storeAttachments l fs).2 !! Hash a)) atts.
Proof using Type.
  revert fs; induction l as [|i l IH]; intros fs Hfs; [by split_and!; [..|intros atts [= <-]]|].
  cbn [storeAttachments]. unfold storeAttachment. case_bool_decide; [done|].
  destruct (readFile (Input_Path i)) as [c|]; [|done]. cbv zeta.
  set (fs' := match fs !! sha256 c with Some _ => fs | None => <[sha256 c := c]> fs end).
  assert (addressed fs') as Hfs'.
  { unfold fs'. destruct (fs !! sha256 c) eqn:E; [done|]. intros h x.
    destruct (decide (sha256 c = h)) as [<-|Hne]; [rewrite lookup_insert_eq; by intros [= <-]|].
    rewrite lookup_insert_ne by done. apply Hfs. }
  assert (∀ h x, fs !! h = Some x → fs' !! h = Some x) as Hsub.
  { unfold fs'. destruct (fs !! sha256 c) eqn:E; [done|]. intros h x Hx. rewrite lookup_insert_ne; [done|].
    intros <-. congruence. }
  assert (is_Some (fs' !! sha256 c)) as Hin.
  { unfold fs'. destruct (fs !! sha256 c) eqn:E; [by rewrite E|]. by rewrite lookup_insert_eq. }
  destruct (IH fs' Hfs') as (H1 & H2 & H3). destruct (storeAttachments l fs') as [[atts|e] fs''] eqn:E; cbn [fst snd] in *.
  - split_and!; [done|by intros h x Hx; apply H2, Hsub|]. intros atts' [= <-]. constructor; [|by apply H3].
    cbn [Hash]. destruct Hin as [x Hx]. rewrite (H2 _ _ Hx). eauto.
  - split_and!; [done|by intros h x Hx; apply H2, Hsub|done].
Qed.

Lemma Add_artifacts now r fs d : (Add now r fs d).2 = fs ∨ (Add now r fs d).2 = (storeAttachments (Req_Attachments r) fs).2.
Proof using Type.
  unfold Add. case_bool_decide; [by left|]. right.
  destruct (storeAttachments _ fs) as [[atts|e] fs1]; [|done]. by destruct (_ && _).
Qed.

Lemma exec_artifacts w o :
  addressed w.2 → addressed (exec w o).2 ∧ ∀ h c, w.2 !! h = Some c → (exec w o).2 !! h = Some c.
Proof using Type.
  destruct w as [d fs]. intros Hfs. simpl in *.
  destruct o as [now path name profile|i|i a now|now r|i a now]; simpl.
  - by destruct (Registry_Add _ _ _ _ _ _) as [[[p d']|e]|].
  - by destruct (Registry_Remove i d).
  - by destruct (Registry_Transition i a now d) as [[p d']|e].
  - pose proof (Add_artifacts now r fs d) as H. destruct (storeAttachments_addressed (Req_Attachments r) fs Hfs) as (H1 & H2 & _).
    destruct (Add now r fs d) as [[[[t l] d']|e] fs']; simpl in *; destruct H as [->| ->]; done.
  - by destruct (Transition i a now d) as [[p d']|e].
Qed.

(** ** Lemmas: the errors of [Add] *)

Definition no_collision (e : Error) : Prop := e ≠ ErrUnique ∧ ∀ n, e ≠ ErrCorrupt n.

Lemma storeAttachments_errors l fs e : (storeAttachments l fs).1 = Err e → no_collision e.
Proof using Type.
  unfold no_collision. revert fs; induction l as [|i l IH]; intros fs; [done|]. cbn [storeAttachments]. unfold storeAttachment.
  case_bool_decide; [by intros [= <-]|]. destruct (readFile _) as [c|]; [|by intros [= <-]].
  set (fs' := match fs !! sha256 c with Some _ => fs | None => <[sha256 c := c]> fs end). specialize (IH fs').
  cbn beta iota zeta. fold fs'. destruct (storeAttachments l fs') as [[x|e2] fs2]; [done|]. exact IH.
Qed.

Lemma createAttachments_errors id l d e : createAttachments id l d = Err e → no_collision e.
Proof using Type.
  unfold no_collision. revert d; induction l as [|a l IH]; intros d; [done|]. simpl. unfold CreateAttachment.
  destruct (existsb _ _); simpl; [apply IH|by intros [= <-]].
Qed.

Lemma addTx_errors now r atts d e : ids_ok d → addTx now r atts d = Err e → no_collision e.
Proof using Type.
  unfold no_collision. intros Hok. pose proof (seq_of_nonneg d (Req_ProjectID r) Hok) as Hn.
  pose proof (fresh_id d (Req_ProjectID r) Hok) as Hf. unfold addTx, NextTaskSeq.
  destruct (bool_decide (Req_ProjectID r = "")); [by cbn; intros [= <-]|]. cbv zeta.
  set (n := match sequences d !! Req_ProjectID r with Some n => n + 1 | None => 1 end%Z).
  assert (n = seq_of d (Req_ProjectID r) + 1)%Z as -> by (unfold n, seq_of; by destruct (sequences d !! _)).
  destruct (Z.leb_spec (seq_of d (Req_ProjectID r) + 1) 0); [lia|]. cbn [mbind result_bind].
  unfold CreateTask. cbn [ID tasks projects]. destruct (existsb _ (tasks d)) eqn:Ex.
  { apply existsb_isTask in Ex. done. }
  destruct (negb _); [by intros [= <-]|]. cbn [mbind result_bind].
  destruct (createAttachments _ atts _) as [d4|e''] eqn:Ec.
  - cbn. unfold auditTx. destruct rec as [rc|]; [|done].
    destruct (audit.Record_ _ _ _) as [[m|e3] tr]; [done|]. by intros [= <-].
  - intros [= <-]. by eapply createAttachments_errors.
Qed.

Lemma Add_errors now r fs d e : ids_ok d → (Add now r fs d).1 = Err e → no_collision e.
Proof using Type.
  unfold no_collision. intros Hok. unfold Add. destruct (bool_decide (Req_ProjectID r = "")); [by intros [= <-]|].
  destruct (storeAttachments (Req_Attachments r) fs) as [[atts|e'] fs4] eqn:Es.
  - destruct (_ && _); [by intros [= <-]|]. destruct (addTx now r atts d) as [[t d3]|e'] eqn:Et; [done|].
    intros [= <-]. by eapply addTx_errors.
  - intros [= <-]. apply (storeAttachments_errors (Req_Attachments r) fs). by rewrite Es.
Qed.

(** ** Properties *)

(** task ids are never reused and never collide.  In any history of
    registering and removing projects, adding and moving tasks: [Add] never
    fails on the uniqueness of its id or on a corrupt counter, and the id it
    returns differs from the id of every task added before, even of tasks that
    were deleted with their project. *)
Theorem task_ids_never_reused ops ops' now r fs d t l d1 fs1 now' r' :
  execAll ops empty = (d, fs) → Add now r fs d = (Ok (t, l, d1), fs1) →
  let '(d2, fs2) := execAll ops' (d1, fs1) in
  match (Add now' r' fs2 d2).1 with
  | Ok (t', _, d3) => ID t' ≠ ID t ∧ ID t' ∉ ID <$> tasks d2 ∧ NoDup (ID <$> tasks d3)
  | Err e => e ≠ ErrUnique ∧ ∀ n, e ≠ ErrCorrupt n
  end.
Proof using Type.
  intros Hd Ha. destruct (execAll_ids ops empty empty_ids) as [Hok _]. rewrite Hd in Hok. simpl in Hok.
  apply Add_inv in Ha. destruct (addTx_ok _ _ _ _ _ _ Hok Ha) as [Hok1 _].
  destruct (addTx_spec _ _ _ _ _ _ Hok Ha) as (Hid & _ & _ & _ & Hs & _).
  destruct (execAll_ids ops' (d1, fs1) Hok1) as [Hok2 Hg]. destruct (execAll ops' (d1, fs1)) as [d2 fs2]. simpl in *.
  destruct (Add now' r' fs2 d2) as [[[[t' l'] d3]|e] fs3] eqn:E; simpl.
  - apply Add_inv in E. destruct (addTx_spec _ _ _ _ _ _ Hok2 E) as (Hid' & _).
    split_and!; [|rewrite Hid'; by apply fresh_id|apply (addTx_ok _ _ _ _ _ _ Hok2 E)].
    pose proof (seq_of_nonneg d (Req_ProjectID r) Hok). pose proof (seq_of_nonneg d2 (Req_ProjectID r') Hok2).
    rewrite Hid, Hid'. intros [Hp Hn]%taskID_inj; [|lia|lia]. specialize (Hg (Req_ProjectID r)).
    unfold seq_of at 1 in Hg. rewrite Hs, lookup_insert_eq in Hg. simpl in Hg. rewrite Hp in Hn. lia.
  - apply (Add_errors now' r' fs2 d2 e Hok2). by rewrite E.
Qed.

(** terminal states absorb.  In a sequential history a task that is
    COMPLETED, FAILED or CANCELLED never gets another state: whatever happens
    later, the task read under that id - as long as its project is not removed -
    is still in it. *)
Theorem terminal_absorbing ops ops' id t :
  GetTask id (execAll ops empty).1 = Ok t → IsTerminal (Task_State t) = true →
  match GetTask id (execAll (ops ++ ops') empty).1 with
  | Ok t' => Task_State t' = Task_State t
  | Err e => e = ErrNoRows
  end.
Proof using Type.
  intros Hg Ht. unfold execAll at 1. rewrite foldl_app. fold (execAll ops empty).
  destruct (execAll_ids ops empty empty_ids) as [Hok _]. set (w := execAll ops empty) in *. clearbody w.
  assert (settled id (Task_State t) w.1) as Hset.
  { apply GetTask_Ok in Hg as [Hin Hid]. split.
    - destruct (ids_issued _ Hok t Hin) as (n & Hn & Hid'). exists (ProjectID t), n. split; [congruence|done].
    - intros x Hx Hid'. assert (x = t) as ->; [|done].
      eapply same_task; [apply (ids_unique _ Hok)|done..|congruence]. }
  assert (ids_ok (foldl exec w ops').1 ∧ settled id (Task_State t) (foldl exec w ops').1) as [_ [_ Hend]].
  { clear Hg. revert w Hok Hset. induction ops' as [|o ops' IH]; intros w Hok Hset; [done|].
    apply IH; [by apply exec_ids|by apply exec_settled]. }
  destruct (GetTask id (foldl exec w ops').1) as [t'|e] eqn:E.
  - apply GetTask_Ok in E as [Hin Hid]. by apply Hend.
  - unfold GetTask in E. destruct (List.find _ _); [done|by injection E as <-].
Qed.

(** the attachment store is content-addressed and durable: every artifact is
    stored under the hash of its content, stays what it is whatever is added
    later, and every attachment of an added task is there. *)
Theorem artifacts_addressed ops ops' :
  let fs := (execAll ops empty).2 in let fs' := (execAll (ops ++ ops') empty).2 in
  addressed fs' ∧ (∀ h c, fs !! h = Some c → fs' !! h = Some c) ∧
  ∀ now r d t l d2 fs2, Add now r fs d = (Ok (t, l, d2), fs2) → Forall (λ a, is_Some (fs2 !! Hash a)) l.
Proof using Type.
  assert (∀ ops w, addressed w.2 → addressed (execAll ops w).2 ∧ ∀ h c, w.2 !! h = Some c → (execAll ops w).2 !! h = Some c) as H.
  { clear ops ops'. induction ops as [|o ops IH]; intros w Hw; [done|].
    destruct (exec_artifacts w o Hw) as [H1 H2]. destruct (IH _ H1) as [H3 H4]. split; [done|]. intros h c Hc. auto. }
  assert (addressed empty.2) as H0 by (intros h c Hc; cbn in Hc; by rewrite lookup_empty in Hc).
  destruct (H ops empty H0) as [H1 _]. cbv zeta. unfold execAll at 1 2 3. rewrite foldl_app. fold (execAll ops empty).
  destruct (H ops' _ H1) as [H2 H3]. split_and!; [done|done|].
  intros now r d t l d2 fs2. unfold Add. destruct (bool_decide _); [done|].
  pose proof (storeAttachments_addressed (Req_Attachments r) _ H1) as (_ & _ & H4).
  destruct (storeAttachments (Req_Attachments r) _) as [[atts|e] fs3]; [|done].
  destruct (_ && _); [done|]. destruct (addTx now r atts d) as [[t1 d1]|e] eqn:E; [|done].
  cbn. intros Hr. injection Hr as _ <- _ <-. by apply H4.
Qed.

(** registering never collides.  For any registry and any directory name:
    [uniqueID] terminates, and an [Add] that passes the repository and
    duplicate-path checks is never refused by the [projects] table. *)
Theorem Registry_Add_fresh now path name profile d :
  (∀ p, p ∈ projects d → Project_ID p ≠ "") →
  ∃ r, Registry_Add now path name profile d d = Some r ∧ r ≠ Err ErrUnique ∧
    ∀ p d', r = Ok (p, d') → p ∈ projects d' ∧ Project_ID p ∉ Project_ID <$> projects d ∧
      Project_State p = project.StateDisabled ∧ Path p ∉ Path <$> projects d.
Proof using Type.
  intros Hne. unfold Registry_Add. destruct (ValidateGitRepo (Abs path)) as [remote|]; [|by eexists; split_and!].
  cbv zeta. set (existing := match GetProjectByPath (Abs path) d with Ok p => Project_ID p | Err _ => "" end).
  destruct (decide (existing = "")) as [He|He].
  2:{ rewrite (bool_decide_false _ He). by eexists; split_and!. }
  rewrite (bool_decide_true _ He). cbn [negb].
  destruct (negb (bool_decide (_ ∈ profiles))); [by eexists; split_and!|].
  destruct (uniqueID_fresh (if bool_decide (slugify (Base (Abs path)) = "") then "project" else slugify (Base (Abs path))) d)
    as (id & -> & Hid). cbn [mbind option_bind]. eexists. split; [reflexivity|].
  assert (id ∉ Project_ID <$> projects d) as Hfresh.
  { intros Hin. apply existsb_isProject in Hin. unfold GetProject in Hid.
    destruct (List.find _ _) eqn:E; [done|]. apply existsb_elem in Hin as (p & Hp & Hq).
    apply list_elem_of_In in Hp. pose proof (List.find_none _ _ E p Hp). congruence. }
  assert (Abs path ∉ Path <$> projects d) as Hpath.
  { intros (p & Hp & Hin)%list_elem_of_fmap. unfold existing, GetProjectByPath in He.
    destruct (List.find _ _) as [q|] eqn:E.
    - apply List.find_some in E as [Hq _]. apply list_elem_of_In in Hq. by apply (Hne q).
    - apply list_elem_of_In in Hin. pose proof (List.find_none _ _ E p Hin) as H. simpl in H.
      rewrite bool_decide_true in H by done. done. }
  unfold CreateProject. destruct (existsb _ (projects d)) eqn:Ex.
  { exfalso. apply existsb_elem in Ex as (q & Hq & [Hi|Hi]%orb_true_iff); apply bool_decide_eq_true in Hi; simpl in Hi.
    - apply Hfresh. rewrite <-Hi. by apply list_elem_of_fmap_2.
    - apply Hpath. rewrite <-Hi. by apply list_elem_of_fmap_2. }
  cbn [mbind result_bind]. destruct (auditTx rec _ _ _ _ _) as [d2|e] eqn:Ea; cbn [mbind result_bind].
  - split; [done|]. intros p d' [= <- <-]. apply auditTx_tables in Ea as (-> & _). cbn [projects Project_ID Project_State Path].
    split_and!; [|done..]. apply elem_of_app. right. constructor.
  - split; [|done]. unfold auditTx in Ea. destruct rec; [|done].
    destruct (audit.Record_ _ _ _) as [[m|e3] tr]; [done|]. injection Ea as <-. done.
Qed.

End services.

(** ** What the model shows of the read outside the transaction *)

Definition noAudit : option audit.Recorder := None.
Definition oneProject : Project :=
  mkProject "demo" "demo" "/demo" "" project.StateIdle "LOCAL_REVIEW" 0 0.
Definition oneTask (s : State) : DB :=
  mkDB [oneProject] [mkTask "demo-1" "demo" "t" "d" "NORMAL" s 1 1] [] {["demo" := 1%Z]} [].

(** [Transition] decides on a row it read before its transaction, and the
    transaction does not look again: a dispatch that read NEW, then a
    cancellation, then the dispatch's write, and a CANCELLED task is RUNNING. *)
Lemma cancelled_task_revived :
  match plan "demo-1" ActionDispatch (oneTask StateNew),
        Cancel noAudit "demo-1" 5 (oneTask StateNew) with
  | Ok p, Ok (_, d) =>
      (match GetTask "demo-1" d with Ok t => Task_State t = StateCancelled | Err _ => False end) ∧
      match commit noAudit "demo-1" ActionDispatch 6 p d with
      | Ok (_, d) => match GetTask "demo-1" d with Ok t => Task_State t = StateRunning | Err _ => False end
      | Err _ => False
      end
  | _, _ => False
  end.
Proof. vm_compute. done. Qed.

(** The same for a project: a pause decided before a stop undoes the stop. *)
Lemma stopped_project_paused :
  match Registry_plan "demo" project.ActionPause (oneTask StateNew),
        Registry_Transition noAudit "demo" project.ActionStop 5 (oneTask StateNew) with
  | Ok p, Ok (_, d) =>
      match Registry_commit noAudit "demo" project.ActionPause 6 p d with
      | Ok (p, _) => Project_State p = project.StatePaused
      | Err _ => False
      end
  | _, _ => False
  end.
Proof. vm_compute. done. Qed.

(** [Transition] of a missing task does not return the documented [ErrNotFound],
    [Get] does; [storage.GetProject] promises [ErrProjectNotFound] and returns
    the bare [sql.ErrNoRows] too. *)
Lemma missing_rows id a now d :
  GetTask id d = Err ErrNoRows → GetProject id d = Err ErrNoRows →
  Transition noAudit id a now d = Err ErrNoRows ∧ Get id d = Err ErrTaskNotFound ∧
  Registry_Remove noAudit id d = Err ErrNoRows.
Proof. unfold Transition, plan, Get, Registry_Remove. by intros -> ->. Qed.

(** The cut to forty bytes comes after the dashes are trimmed. *)
Lemma slug_ends_with_dash :
  slugify "a-very-long-directory-name-of-thirtynine-bytes" = "a-very-long-directory-name-of-thirtynine" ∧
  slugify "a-very-long-directory-name-of-39-letters-bytes" = "a-very-long-directory-name-of-39-letters" ∧
  slugify "a-very-long-directory-name-of-38-letter-bytes" = "a-very-long-directory-name-of-38-letter-".
Proof. vm_compute. done. Qed.

(** ** Witnesses *)

Definition demoGit : string → option string := λ _, Some "".
Definition demoFile : string → option string := λ p, Some p.
Definition demoHash : string → string := λ c, c.
Definition demoMime : string → string := λ _, "".
Definition request (desc : string) : AddRequest := mkAddRequest "demo" desc "" "" [].
Definition register : list Op := [OpRegister 1 "/demo" "" ""; OpProject "demo" project.ActionStart 2].

Lemma task_ids_never_reused_witness :
  let w := execAll noAudit id demoGit demoFile demoHash demoMime register empty in
  ∃ t l d1 fs1,
    Add noAudit demoFile demoHash demoMime 3 (request "first") w.2 w.1 = (Ok (t, l, d1), fs1) ∧
    match (Add noAudit demoFile demoHash demoMime 9 (request "again")
             (execAll noAudit id demoGit demoFile demoHash demoMime (OpRemove "demo" :: register) (d1, fs1)).2
             (execAll noAudit id demoGit demoFile demoHash demoMime (OpRemove "demo" :: register) (d1, fs1)).1).1 with
    | Ok (t', _, _) => ID t' ≠ ID t
    | Err _ => False
    end.
Proof.
  intros w. destruct (Add noAudit demoFile demoHash demoMime 3 (request "first") w.2 w.1) as [[[[t l] d1]|e] fs1] eqn:E;
    [|exfalso; vm_compute in E; discriminate].
  exists t, l, d1, fs1. split; [done|].
  pose proof (task_ids_never_reused noAudit id demoGit demoFile demoHash demoMime register (OpRemove "demo" :: register)
    3 (request "first") w.2 w.1 t l d1 fs1 9 (request "again") (surjective_pairing w) E) as H.
  destruct (execAll _ _ _ _ _ _ (OpRemove "demo" :: register) (d1, fs1)) as [d2 fs2] eqn:E2. cbn [fst snd].
  destruct (Add _ _ _ _ 9 _ fs2 d2) as [[[[t' l'] d3]|e] fs3] eqn:E3; [apply H|].
  exfalso. vm_compute in E. injection E as <- <- <- <-. vm_compute in E2. injection E2 as <- <-.
  vm_compute in E3. discriminate.
Defined.

Lemma terminal_absorbing_witness :
  let ops := register ++ [OpAdd 3 (request "first"); OpTask "demo-1" ActionCancel 4] in
  let run ops := execAll noAudit id demoGit demoFile demoHash demoMime ops empty in
  ∃ t, GetTask "demo-1" (run ops).1 = Ok t ∧ Task_State t = StateCancelled ∧
    match GetTask "demo-1" (run (ops ++ [OpTask "demo-1" ActionResume 5])).1 with
    | Ok t' => Task_State t' = StateCancelled
    | Err e => e = ErrNoRows
    end.
Proof.
  intros ops run. destruct (GetTask "demo-1" (run ops).1) as [t|e] eqn:E; [|exfalso; vm_compute in E; discriminate].
  assert (Task_State t = StateCancelled) as Hs by (vm_compute in E; injection E as <-; reflexivity).
  exists t. split_and!; [done|done|]. rewrite <-Hs.
  apply (terminal_absorbing noAudit id demoGit demoFile demoHash demoMime ops [OpTask "demo-1" ActionResume 5] "demo-1" t E).
  by rewrite Hs.
Defined.

Lemma Registry_Add_fresh_witness :
  ∃ r, Registry_Add noAudit id demoGit 5 "/other/demo" "" "" (oneTask StateNew) (oneTask StateNew) = Some r ∧ r ≠ Err ErrUnique.
Proof.
  destruct (Registry_Add_fresh noAudit id demoGit 5 "/other/demo" "" "" (oneTask StateNew)) as (r & H1 & H2 & _).
  - intros p [->|[]%elem_of_nil]%elem_of_cons. discriminate.
  - exists r. split; [exact H1|exact H2].
Defined.

End backlog.
