(* ===== verification/WorkspaceRows.v ===== *)
(** * WorkspaceRows: the tables of workspaces, checkpoints and finalize intents

    Models [internal/storage/workspaces.go], [finalize_intent.go] and the
    checkpoint part of [checkpoints.go], over the tables of migrations 4 and 7,
    next to the tables of [Backlog.v].  A function is one statement; a
    transaction composes several of them.  States are kept as the constants of
    [workspace.State] and [task.State] whose texts the columns hold. *)
From S2P Require Import Prelude AuditTrail WorkStore Backlog.

Module wsrows.

(** [workspace.State]. *)
Inductive State :=
| StatePending | StateActive | StateCompleted | StateKept | StateRejected | StateFailed
| StateCancelled | StateTimedOut | StateWaitingQuota | StateQuarantined | StateDeleted
| StateOther (s : string).
#[global] Instance State_eq_dec : EqDecision State.
Proof. solve_decision. Defined.

Definition State_String (s : State) : string :=
  match s with
  | StatePending => "pending" | StateActive => "active" | StateCompleted => "completed" | StateKept => "kept"
  | StateRejected => "rejected" | StateFailed => "failed" | StateCancelled => "cancelled"
  | StateTimedOut => "timed_out" | StateWaitingQuota => "waiting_quota" | StateQuarantined => "quarantined"
  | StateDeleted => "deleted" | StateOther s => s
  end.

Record Workspace := mkWorkspace {
  ID : string;
  ProjectID : string;
  TaskID : string;
  WorkPackageID : string;
  Attempt : Z;
  Kind : string;
  Path : string;
  Branch : string;
  ResultBranch : string;
  BaseSHA : string;
  HeadSHA : string;
  ResultSHA : string;
  State_ : State;
  Engine : string;
  Model : string;
  RunID : string;
  SessionID : string;
  CreatedAt : Time;
  UpdatedAt : Time }.

Record Checkpoint := mkCheckpoint {
  Checkpoint_ID : Z;
  Checkpoint_WorkspaceID : string;
  CommitSHA : string;
  Moment : string;
  Message : string;
  Checkpoint_CreatedAt : Time }.

Definition FinalizePhasePending : string := "pending".
Definition FinalizePhaseRefReady : string := "ref_ready".

(** [ChangedFiles] is the list whose JSON the column holds. *)
Record FinalizeIntent := mkFinalizeIntent {
  Intent_WorkspaceID : string;
  Intent_TaskID : string;
  Intent_Outcome : string;
  RunTerminal : string;
  Intent_RunID : string;
  Intent_Engine : string;
  Intent_Model : string;
  Intent_BaseSHA : string;
  ActualHeadSHA : string;
  ExpectedRefSHA : string;
  Intent_ResultBranch : string;
  Intent_CommitSHA : string;
  GitStatusEmpty : bool;
  ChangedFiles : list string;
  TargetWSState : State;
  TargetTaskState : backlog.State;
  Phase : string;
  Intent_CreatedAt : Time;
  Intent_UpdatedAt : Time }.

(** The database; [nextCheckpoint] is the AUTOINCREMENT counter. *)
Record DB := mkDB {
  base : backlog.DB;
  workspaces : list Workspace;
  checkpoints : list Checkpoint;
  nextCheckpoint : Z;
  intents : list FinalizeIntent }.

Definition withBase (b : backlog.DB) (d : DB) : DB :=
  mkDB b (workspaces d) (checkpoints d) (nextCheckpoint d) (intents d).
Definition withWorkspaces (l : list Workspace) (d : DB) : DB :=
  mkDB (base d) l (checkpoints d) (nextCheckpoint d) (intents d).
Definition withIntents (l : list FinalizeIntent) (d : DB) : DB :=
  mkDB (base d) (workspaces d) (checkpoints d) (nextCheckpoint d) l.

Inductive Error :=
| ErrNoRows
| ErrWorkspaceNotFound
| ErrFinalizeIntentNotFound
| ErrUnique
| ErrForeignKey
| ErrBacklog (e : backlog.Error).

Definition liftBacklog {A} (f : backlog.DB → result backlog.Error A) (d : DB) : result Error A :=
  match f (base d) with Ok a => Ok a | Err e => Err (ErrBacklog e) end.
Definition liftBacklog_ (f : backlog.DB → result backlog.Error backlog.DB) (d : DB) : result Error DB :=
  match f (base d) with Ok b => Ok (withBase b d) | Err e => Err (ErrBacklog e) end.

(** ** Workspaces *)

Definition isWorkspace (id : string) (w : Workspace) : bool := bool_decide (ID w = id).

(** The primary key, and the references to the project and the task. *)
Definition CreateWorkspace (w : Workspace) (d : DB) : result Error DB :=
  if existsb (isWorkspace (ID w)) (workspaces d) then Err ErrUnique
  else if negb (existsb (backlog.isProject (ProjectID w)) (backlog.projects (base d))
                && existsb (backlog.isTask (TaskID w)) (backlog.tasks (base d))) then Err ErrForeignKey
  else Ok (withWorkspaces (workspaces d ++ [w]) d).

Definition GetWorkspace (id : string) (d : DB) : result Error Workspace :=
  match List.find (isWorkspace id) (workspaces d) with Some w => Ok w | None => Err ErrNoRows end.

(** [ORDER BY created_at]: the order of the timestamp texts. *)
Definition lessCreated (a b : Workspace) : bool := negb (workstore.textLe (CreatedAt b) (CreatedAt a)).
Definition ListWorkspacesByTask (task : string) (d : DB) : list Workspace :=
  sortStable lessCreated (filter (λ w, TaskID w = task) (workspaces d)).
Definition ListWorkspacesByProject (p : string) (d : DB) : list Workspace :=
  sortStable lessCreated (filter (λ w, ProjectID w = p) (workspaces d)).
Definition ListAllWorkspaces (d : DB) : list Workspace := sortStable lessCreated (workspaces d).

(** [UPDATE workspaces SET ... WHERE id = ?]; [None] when no row matched. *)
Definition updateRow (id : string) (f : Workspace → Workspace) (d : DB) : option DB :=
  if existsb (isWorkspace id) (workspaces d)
  then Some (withWorkspaces ((λ w, if isWorkspace id w then f w else w) <$> workspaces d) d)
  else None.
Definition updateWorkspace (id : string) (f : Workspace → Workspace) (d : DB) : result Error DB :=
  match updateRow id f d with Some d => Ok d | None => Err ErrWorkspaceNotFound end.

Definition setState (s : State) (head run session : string) (at_ : Time) (w : Workspace) : Workspace :=
  mkWorkspace (ID w) (ProjectID w) (TaskID w) (WorkPackageID w) (Attempt w) (Kind w) (Path w) (Branch w)
    (ResultBranch w) (BaseSHA w) head (ResultSHA w) s (Engine w) (Model w) run session (CreatedAt w) at_.
Definition UpdateWorkspaceState (id : string) (s : State) (head run session : string) (at_ : Time) (d : DB) : result Error DB :=
  updateWorkspace id (setState s head run session at_) d.

Definition setResult (branch sha : string) (at_ : Time) (w : Workspace) : Workspace :=
  mkWorkspace (ID w) (ProjectID w) (TaskID w) (WorkPackageID w) (Attempt w) (Kind w) (Path w) (Branch w)
    branch (BaseSHA w) (HeadSHA w) sha (State_ w) (Engine w) (Model w) (RunID w) (SessionID w) (CreatedAt w) at_.
Definition SetWorkspaceResult (id branch sha : string) (at_ : Time) (d : DB) : result Error DB :=
  updateWorkspace id (setResult branch sha at_) d.

(** The cascade takes the workspace's checkpoints and its intent. *)
Definition DeleteWorkspace (id : string) (d : DB) : result Error DB :=
  if existsb (isWorkspace id) (workspaces d)
  then Ok (mkDB (base d) (filter (λ w, ID w ≠ id) (workspaces d))
             (filter (λ c, Checkpoint_WorkspaceID c ≠ id) (checkpoints d)) (nextCheckpoint d)
             (filter (λ i, Intent_WorkspaceID i ≠ id) (intents d)))
  else Err ErrWorkspaceNotFound.

(** ** Checkpoints *)

Definition CreateCheckpoint (c : Checkpoint) (d : DB) : result Error DB :=
  if existsb (isWorkspace (Checkpoint_WorkspaceID c)) (workspaces d)
  then Ok (mkDB (base d) (workspaces d)
             (checkpoints d ++ [mkCheckpoint (nextCheckpoint d) (Checkpoint_WorkspaceID c) (CommitSHA c) (Moment c)
                                  (Message c) (Checkpoint_CreatedAt c)])
             (nextCheckpoint d + 1) (intents d))
  else Err ErrForeignKey.
(** [ORDER BY id]: the order of insertion. *)
Definition ListCheckpoints (ws : string) (d : DB) : list Checkpoint :=
  filter (λ c, Checkpoint_WorkspaceID c = ws) (checkpoints d).
Definition DeleteCheckpoint (id : Z) (d : DB) : DB :=
  mkDB (base d) (workspaces d) (filter (λ c, Checkpoint_ID c ≠ id) (checkpoints d)) (nextCheckpoint d) (intents d).

(** ** Finalize intents *)

Definition isIntent (ws : string) (i : FinalizeIntent) : bool := bool_decide (Intent_WorkspaceID i = ws).

(** [ON CONFLICT(workspace_id) DO UPDATE]: every column but [created_at]. *)
Definition replaceIntent (new old : FinalizeIntent) : FinalizeIntent :=
  mkFinalizeIntent (Intent_WorkspaceID old) (Intent_TaskID new) (Intent_Outcome new) (RunTerminal new) (Intent_RunID new)
    (Intent_Engine new) (Intent_Model new) (Intent_BaseSHA new) (ActualHeadSHA new) (ExpectedRefSHA new)
    (Intent_ResultBranch new) (Intent_CommitSHA new) (GitStatusEmpty new) (ChangedFiles new) (TargetWSState new)
    (TargetTaskState new) (Phase new) (Intent_CreatedAt old) (Intent_UpdatedAt new).
Definition UpsertFinalizeIntent (i : FinalizeIntent) (d : DB) : result Error DB :=
  if existsb (isIntent (Intent_WorkspaceID i)) (intents d)
  then Ok (withIntents ((λ o, if isIntent (Intent_WorkspaceID i) o then replaceIntent i o else o) <$> intents d) d)
  else if existsb (isWorkspace (Intent_WorkspaceID i)) (workspaces d) then Ok (withIntents (intents d ++ [i]) d)
  else Err ErrForeignKey.

Definition GetFinalizeIntent (ws : string) (d : DB) : result Error FinalizeIntent :=
  match List.find (isIntent ws) (intents d) with Some i => Ok i | None => Err ErrFinalizeIntentNotFound end.

Definition lessIntent (a b : FinalizeIntent) : bool :=
  negb (workstore.textLe (Intent_CreatedAt b) (Intent_CreatedAt a)).
Definition ListFinalizeIntents (d : DB) : list FinalizeIntent := sortStable lessIntent (intents d).

Definition DeleteFinalizeIntent (ws : string) (d : DB) : DB :=
  withIntents (filter (λ i, Intent_WorkspaceID i ≠ ws) (intents d)) d.

Definition setPhase (phase : string) (at_ : Time) (i : FinalizeIntent) : FinalizeIntent :=
  mkFinalizeIntent (Intent_WorkspaceID i) (Intent_TaskID i) (Intent_Outcome i) (RunTerminal i) (Intent_RunID i)
    (Intent_Engine i) (Intent_Model i) (Intent_BaseSHA i) (ActualHeadSHA i) (ExpectedRefSHA i)
    (Intent_ResultBranch i) (Intent_CommitSHA i) (GitStatusEmpty i) (ChangedFiles i) (TargetWSState i)
    (TargetTaskState i) phase (Intent_CreatedAt i) at_.
Definition UpdateFinalizeIntentPhase (ws phase : string) (at_ : Time) (d : DB) : result Error DB :=
  if existsb (isIntent ws) (intents d)
  then Ok (withIntents ((λ i, if isIntent ws i then setPhase phase at_ i else i) <$> intents d) d)
  else Err ErrFinalizeIntentNotFound.

End wsrows.
