(* ===== verification/Workspace.v ===== *)
(** * Workspace: the Git worktree lifecycle

    Models [internal/workspace]: branch names, the allowlisted Git runner, and
    the manager's operations as programs over the tables of [WorkspaceRows.v]
    and an external world (the [git] executable and the file system), which is
    a parameter of the model ([External]).  What the result-ref code relies on
    is stated as [GitRefs].  Walking the file system for orphans
    ([ListOrphaned]) is not modelled. *)
From S2P Require Import Prelude Process AuditTrail WorkStore Projects Backlog WorkspaceRows.

Module workspace.
Export wsrows.
Import process.

(** ** Names ([naming.go], [git.go]) *)

(** The class [[\s~^:?*\[\\]]. *)
Definition invalidBranchChar (c : ascii) : bool :=
  bool_decide (c ∈ [" "; "009"; "010"; "012"; "013"; "~"; "^"; ":"; "?"; "*"; "["; "\"]%char).
Definition sanitizeBranchSegment (s : string) : string :=
  let s := strs.map_bytes (λ c, if invalidBranchChar c then "-"%char else c) s in
  let s := strs.Trim ["/"; "."; "-"]%char s in
  if bool_decide (s = "") then "x" else s.

Definition AttemptBranch (task wp : string) (n : Z) : string :=
  "forge/" +:+ sanitizeBranchSegment task +:+ "/" +:+ sanitizeBranchSegment wp +:+ "/attempt-" +:+ pretty n.
Definition ResultBranch_ (task : string) : string := "forge/result/" +:+ sanitizeBranchSegment task.
Definition WorkspaceID (task wp : string) (n : Z) : string :=
  "ws-" +:+ sanitizeBranchSegment task +:+ "-" +:+ sanitizeBranchSegment wp +:+ "-" +:+ pretty n.
Definition WorktreePath (root project task wp : string) (n : Z) : string :=
  root +:+ "/workspaces/" +:+ sanitizeBranchSegment project +:+ "/" +:+ sanitizeBranchSegment task +:+ "/"
    +:+ sanitizeBranchSegment wp +:+ "/attempt-" +:+ pretty n.
Definition FullyQualifiedResultBranch (task : string) : string :=
  "refs/heads/forge/result/" +:+ sanitizeBranchSegment task.

(** ** The external world *)

(** A failed command: it exited with this standard error, or could not run. *)
Inductive GitFailure := Exit (stderr : string) | NotRun (err : string).

Class External (X : Type) := {
  (** The executable with its arguments: standard output or the failure. *)
  git : list string → X → result GitFailure string * X;
  (** [isWorktree]: there is a [.git] and it is not a directory. *)
  isWorktree : string → X → bool;
  (** [os.Stat] says the path is a directory ([None]: it errs otherwise than
      by not finding it). *)
  statDir : string → X → option bool;
  (** [os.MkdirAll] of the path's parent. *)
  mkdirParent : string → X → result string () * X }.

(** What the rest of the daemon shares with the manager. *)
Record World (X : Type) := mkWorld { db : DB; ext : X; clock : Time }.
Arguments mkWorld {X} db ext clock.
Arguments db {X} w.
Arguments ext {X} w.
Arguments clock {X} w.

Inductive GitError :=
| GitNoArgs
| ErrGitNetworkForbidden (sub : string)
| GitNotAllowed (sub : string)
| gitCmdError (args : list string) (stderr dir : string)
| GitExec (args : list string) (err : string).

Definition GitError_Error (e : GitError) : string :=
  match e with
  | GitNoArgs => "workspace: git requires at least one argument"
  | ErrGitNetworkForbidden sub => "workspace: git network operation forbidden (AC-7): " +:+ sub
  | GitNotAllowed sub => "workspace: git subcommand " +:+ strs.q sub +:+ " is not on the allowlist (AC-7)"
  | gitCmdError args stderr dir =>
      "git " +:+ strs.Join args " " +:+ " [" +:+ (if bool_decide (dir = "") then "(cwd)" else dir) +:+ "]: "
        +:+ strs.TrimSpace stderr
  | GitExec args err => "workspace: git " +:+ strs.Join args " " +:+ ": " +:+ err
  end.

Inductive Error :=
| ErrStorage (e : wsrows.Error)
| ErrAudit (e : string)
| ErrGit (e : GitError)
| ErrRequired (what : string)
| ErrMkdir (e : string)
| ErrInvalidBase (ref : string)
| ErrWrongState (id : string) (s : State)
| ErrNotManaged (path : string)
| WorktreeMissingError (path : string)
| ErrIllegalRecovery (from to : State) (id : string)
| ErrUnknownAction (a : string)
| ErrResultRefConflict (ref existing want task : string).

(** ** The Git runner ([git.go]) *)

Definition forbiddenGitSubcommands : list string :=
  ["push"; "fetch"; "pull"; "clone"; "ls-remote"; "send-pack"; "fetch-pack"; "archive"].
Definition allowedGitSubcommands : list string :=
  ["worktree"; "rev-parse"; "rev-list"; "add"; "commit"; "branch"; "diff"; "log"; "status"; "show"; "format-patch";
   "checkout"; "symbolic-ref"; "config"; "check-ref-format"; "stash"; "merge-tree"; "cat-file"; "update-ref";
   "for-each-ref"; "-C"].

(** The manager: its audit recorder and the NeuroForge home. *)
Record Manager := mkManager { audit_ : option audit.Recorder; workspacesRoot : string }.

Record CreateRequest := mkCreateRequest {
  Create_ProjectID : string;
  ProjectPath : string;
  Create_TaskID : string;
  Create_WorkPackageID : string;
  BaseBranch : string }.

Record Inspection := mkInspection {
  ActualHEAD : string;
  StatusPorcelain : string;
  DiffStat : string;
  WorkingDiffStat : string;
  Inspection_ChangedFiles : list string }.
Definition zeroInspection : Inspection := mkInspection "" "" "" "" [].

(** [allowedRecoveryTransition] ([recovery.go]). *)
Definition isAbsorbingTerminal (s : State) : bool :=
  match s with
  | StateCompleted | StateCancelled | StateTimedOut | StateKept | StateRejected | StateDeleted => true
  | _ => false
  end.
Definition allowedRecoveryTransition (from to : State) : bool :=
  if isAbsorbingTerminal from then false
  else if bool_decide (from = StateFailed) then bool_decide (to = StateFailed)
  else match to with StateWaitingQuota | StateQuarantined | StateActive | StateFailed => true | _ => false end.

(** ** Changed files ([inspection.go]) *)

Definition unquoteGitPath (p : string) : string :=
  let n := String.length p in
  if (2 <=? n)%nat && strs.HasPrefix p strs.dquote && strs.HasSuffix p strs.dquote
  then strs.take_bytes (n - 2) (strs.drop_bytes 1 p) else p.

(** The paths one line of [git status --porcelain] contributes. *)
Definition porcelainPaths (line : string) : list string :=
  if (String.length line <? 4)%nat then []
  else
    let path := unquoteGitPath (strs.TrimSpace (strs.drop_bytes 3 line)) in
    if bool_decide (path = "") then []
    else match strs.Cut path " -> " with
         | Some (before, after) => [before; after]
         | None => [path]
         end.
(** The lines of [git diff --name-only]. *)
Definition diffPaths (out : string) : list string :=
  filter (λ l, l ≠ "") (strs.TrimSpace <$> strs.SplitLines out).
(** The set of both, sorted; [diff] is [None] when the command was not run or
    failed. *)
Definition changedFiles (diff : option string) (porcelain : string) : list string :=
  sortStrings (elements (list_to_set (default [] (diffPaths <$> diff)
                                      ++ mjoin (porcelainPaths <$> strs.SplitLines porcelain)) : gset string)).

(** [RetentionConfig]. *)
Definition KeepMostRecentDefault : Z := 20.

(** ** The manager's operations *)

Section manager.
  Context {X : Type} `{!External X}.
  Abbreviation M := (proc (World X) Error).

Definition withDB (d : DB) (w : World X) : World X := mkWorld d (ext w) (clock w).
Definition withExt (x : X) (w : World X) : World X := mkWorld (db w) x (clock w).

(** A query, a statement or transaction, a clock reading, an external action. *)
Definition sql {A} (f : DB → result wsrows.Error A) : M A :=
  query (λ w, match f (db w) with Ok a => Ok a | Err e => Err (ErrStorage e) end).
Definition stmt (f : DB → result Error DB) : M () :=
  attempt_ (λ w, match f (db w) with Ok d => (Ok (), withDB d w) | Err e => (Err e, w) end).
Definition storage (f : DB → result wsrows.Error DB) (d : DB) : result Error DB :=
  match f d with Ok d => Ok d | Err e => Err (ErrStorage e) end.
Definition now : M Time := read clock.
Definition external {A} (f : X → A * X) : M A := atomic (λ w, let '(a, x) := f (ext w) in (a, withExt x w)).

(** [gitRunner.run]: a command leaves only past both checks. *)
Definition runGit (dir : string) (args : list string) : M string :=
  match args with
  | [] => Throw (ErrGit GitNoArgs)
  | sub :: _ =>
      if bool_decide (sub ∈ forbiddenGitSubcommands) then Throw (ErrGit (ErrGitNetworkForbidden sub))
      else if negb (bool_decide (sub ∈ allowedGitSubcommands)) then Throw (ErrGit (GitNotAllowed sub))
      else
        r ← external (git (if bool_decide (dir = "") then args else ["-C"; dir] ++ args));
        match r with
        | Ok out => mret out
        | Err (Exit stderr) => Throw (ErrGit (gitCmdError args stderr dir))
        | Err (NotRun e) => Throw (ErrGit (GitExec args e))
        end
  end.
Definition trimmed (p : M string) : M string := out ← p; mret (strs.TrimSpace out).

(** [auditTx], part of a transaction, and [auditEvent], a statement of its own. *)
Definition auditTx (rec : option audit.Recorder) (id type_ : string) (payload : list (string * audit.Val)) (d : DB) : result Error DB :=
  match rec with
  | None => Ok d
  | Some rec =>
      let b := base d in
      match audit.Record_ rec (audit.mkEvent type_ audit.ScopeTask id audit.ActorDaemon (Some (audit.Payload payload)) 0)
              (backlog.trail b) with
      | (Ok _, t) => Ok (withBase (backlog.mkDB (backlog.projects b) (backlog.tasks b) (backlog.attachments b)
                                     (backlog.sequences b) t) d)
      | (Err e, _) => Err (ErrAudit e)
      end
  end.
Definition auditEvent (m : Manager) (id type_ : string) (payload : list (string * audit.Val)) : M () :=
  stmt (auditTx (audit_ m) id type_ payload).

Definition updateState (id : string) (s : State) (head run session : string) : M () :=
  t ← now; stmt (storage (UpdateWorkspaceState id s head run session t)).

Definition Get (id : string) : M Workspace := sql (GetWorkspace id).
Definition ListByTask (task : string) : M (list Workspace) := sql (λ d, Ok (ListWorkspacesByTask task d)).
Definition ListByProject (p : string) : M (list Workspace) := sql (λ d, Ok (ListWorkspacesByProject p d)).
Definition ListAll : M (list Workspace) := sql (λ d, Ok (ListAllWorkspaces d)).

Definition nextAttempt (task wp : string) : M Z :=
  existing ← ListByTask task;
  mret (foldl (λ m w, if bool_decide (WorkPackageID w = wp) && (m <? Attempt w)%Z then Attempt w else m) 0 existing + 1)%Z.

Definition validateBaseRef (dir ref : string) : M () :=
  if strs.HasPrefix ref "-" then Throw (ErrInvalidBase ref)
  else
    r ← catch (runGit dir ["check-ref-format"; "--branch"; ref]);
    if is_ok r then mret ()
    else
      r ← catch (runGit dir ["rev-parse"; "--verify"; "--quiet"; ref +:+ "^{commit}"]);
      if is_ok r then mret () else Throw (ErrInvalidBase ref).

Definition activated (head : string) (t : Time) (w : Workspace) : Workspace :=
  setState StateActive head (RunID w) (SessionID w) t w.

(** [Create]: the row is written before the worktree exists. *)
Definition Create (m : Manager) (req : CreateRequest) : M Workspace :=
  if bool_decide (ProjectPath req = "") then Throw (ErrRequired "project path")
  else if bool_decide (Create_TaskID req = "") then Throw (ErrRequired "task id")
  else
    let wp := if bool_decide (Create_WorkPackageID req = "") then "main" else Create_WorkPackageID req in
    attempt ← nextAttempt (Create_TaskID req) wp;
    let branch := AttemptBranch (Create_TaskID req) wp attempt in
    let path := WorktreePath (workspacesRoot m) (Create_ProjectID req) (Create_TaskID req) wp attempt in
    let dir := ProjectPath req in
    baseRef ← (if bool_decide (BaseBranch req = "") then trimmed (runGit dir ["rev-parse"; "HEAD"])
               else _ ← validateBaseRef dir (BaseBranch req); mret (BaseBranch req));
    baseSHA ← trimmed (runGit dir ["rev-parse"; baseRef]);
    t ← now;
    let ws := mkWorkspace (WorkspaceID (Create_TaskID req) wp attempt) (Create_ProjectID req) (Create_TaskID req) wp
                attempt "attempt" path branch "" baseSHA "" "" StatePending "" "" "" "" t t in
    _ ← stmt (λ d, d ← storage (CreateWorkspace ws) d;
                   auditTx (audit_ m) (ID ws) "workspace.create_started"
                     [("task", audit.VString (TaskID ws)); ("branch", audit.VString branch);
                      ("base_sha", audit.VString baseSHA)] d);
    r ← external (mkdirParent path);
    match r with
    | Err e => Throw (ErrMkdir e)
    | Ok _ =>
        r ← catch (runGit dir ["worktree"; "add"; "-b"; branch; path; baseRef]);
        match r with
        | Err e => _ ← ignore (updateState (ID ws) StateFailed "" "" ""); Throw e
        | Ok _ =>
            head ← trimmed (runGit path ["rev-parse"; "HEAD"]);
            t ← now;
            let ws := activated head t ws in
            _ ← updateState (ID ws) StateActive head "" "";
            _ ← ignore (auditEvent m (ID ws) "workspace.created"
                          [("path", audit.VString path); ("branch", audit.VString branch);
                           ("head_sha", audit.VString head)]);
            mret ws
        end
    end.

Definition WorktreeFingerprint (path : string) : M string :=
  head ← runGit path ["rev-parse"; "HEAD"];
  status ← runGit path ["status"; "--porcelain"];
  mret (strs.TrimSpace head +:+ String strs.nl status).

Definition setRun (engine model : string) (w : Workspace) : Workspace :=
  mkWorkspace (ID w) (ProjectID w) (TaskID w) (WorkPackageID w) (Attempt w) (Kind w) (Path w) (Branch w)
    (ResultBranch w) (BaseSHA w) (HeadSHA w) (ResultSHA w) (State_ w) engine model (RunID w) (SessionID w)
    (CreatedAt w) (UpdatedAt w).
(** [SetRunInfo] writes back the state and head it read before its transaction. *)
Definition SetRunInfo (m : Manager) (id engine model run session : string) : M () :=
  ws ← Get id;
  t ← now;
  stmt (λ d, d ← storage (UpdateWorkspaceState id (State_ ws) (HeadSHA ws) run session t) d;
             let d := default d (updateRow id (setRun engine model) d) in
             auditTx (audit_ m) id "workspace.run_started"
               [("engine", audit.VString engine); ("model", audit.VString model); ("run_id", audit.VString run);
                ("session_id", audit.VString session)] d).

Definition refreshHead (ws : Workspace) : M string :=
  sha ← trimmed (runGit (Path ws) ["rev-parse"; "HEAD"]);
  _ ← (if bool_decide (sha = HeadSHA ws) then mret ()
       else updateState (ID ws) (State_ ws) sha (RunID ws) (SessionID ws));
  mret sha.

(** [SetState] ([recovery.go]). *)
Definition SetState (m : Manager) (id : string) (target : State) : M Workspace :=
  ws ← Get id;
  if negb (allowedRecoveryTransition (State_ ws) target) then Throw (ErrIllegalRecovery (State_ ws) target id)
  else
    _ ← updateState id target (HeadSHA ws) (RunID ws) (SessionID ws);
    let from := ("from", audit.VString (State_String (State_ ws))) in
    let '(event, payload) :=
      match target with
      | StateWaitingQuota => ("workspace.waiting_quota", [from; ("reason", audit.VString "all routes quota-exhausted")])
      | StateQuarantined => ("workspace.quarantined",
                             [from; ("reason", audit.VString "unrecoverable failure; human review required")])
      | StateActive => ("workspace.resumed", [from; ("reason", audit.VString "route became available again")])
      | _ => ("workspace.state_changed", [from; ("to", audit.VString (State_String target))])
      end in
    _ ← ignore (auditEvent m id event payload);
    t ← now;
    mret (setState target (HeadSHA ws) (RunID ws) (SessionID ws) t ws).

(** [RetainCheckpoints]: the oldest rows beyond the window go one by one. *)
Fixpoint pruneCheckpoints (l : list Checkpoint) : M () :=
  match l with
  | [] => mret ()
  | c :: l => _ ← stmt (λ d, Ok (DeleteCheckpoint (Checkpoint_ID c) d)); pruneCheckpoints l
  end.
Definition RetainCheckpoints (m : Manager) (id : string) (KeepMostRecent : Z) : M Z :=
  if (KeepMostRecent <=? 0)%Z then mret 0%Z
  else
    cps ← sql (λ d, Ok (ListCheckpoints id d));
    let n := Z.of_nat (length cps) in
    if (n <=? KeepMostRecent)%Z then mret 0%Z
    else
      let pruned := (n - KeepMostRecent)%Z in
      t ← now;
      _ ← pruneCheckpoints (take (Z.to_nat pruned) cps);
      _ ← ignore (auditEvent m id "workspace.checkpoints_pruned"
                    [("pruned", audit.VInt pruned); ("kept", audit.VInt KeepMostRecent); ("at", audit.VInt t)]);
      mret pruned.

(** [InspectWorktree]: HEAD and the status must be readable, the diffs need not. *)
Definition computeChangedFiles (dir base porcelain : string) : M (list string) :=
  diff ← (if bool_decide (base = "") then mret None
          else r ← catch (runGit dir ["diff"; "--name-only"; base +:+ "...HEAD"]);
               mret (match r with Ok out => Some out | Err _ => None end));
  mret (changedFiles diff porcelain).
Definition InspectWorktree (ws : Workspace) : M Inspection :=
  if bool_decide (Path ws = "") then Throw (ErrRequired "worktree path")
  else
    there ← read (λ w, isWorktree (Path ws) (ext w));
    if negb there then Throw (WorktreeMissingError (Path ws))
    else
      head ← trimmed (runGit (Path ws) ["rev-parse"; "HEAD"]);
      status ← runGit (Path ws) ["status"; "--porcelain"];
      stat ← (if bool_decide (BaseSHA ws = "") then mret ""
              else r ← catch (runGit (Path ws) ["diff"; "--stat"; BaseSHA ws +:+ "...HEAD"]);
                   mret (match r with Ok out => out | Err _ => "" end));
      r ← catch (runGit (Path ws) ["diff"; "--stat"]);
      files ← computeChangedFiles (Path ws) (BaseSHA ws) status;
      mret (mkInspection head status stat (match r with Ok out => out | Err _ => "" end) files).

(** ** The result ref ([result_ref.go]) *)

Definition resolveCommonDir (dir : string) : M string :=
  r ← catch (runGit dir ["rev-parse"; "--git-common-dir"]);
  mret (match r with
        | Ok out => let cd := strs.TrimSpace out in if bool_decide (cd = "") then dir else cd
        | Err _ => dir
        end).

(** A failure whose text contains "exit" counts as a missing ref. *)
Definition Error_text (e : Error) : string := match e with ErrGit e => GitError_Error e | _ => "" end.
Definition ResolveResultRef (task dir : string) : M string :=
  r ← catch (runGit dir ["for-each-ref"; "--format=%(objectname)"; FullyQualifiedResultBranch task]);
  match r with
  | Ok out => mret (strs.TrimSpace out)
  | Err e => if strs.Contains (Error_text e) "exit" then mret "" else Throw e
  end.

Definition EnsureResultRef (ws : Workspace) (head : string) : M string :=
  if bool_decide (Path ws = "") then Throw (ErrRequired "worktree path")
  else if bool_decide (head = "") then Throw (ErrRequired "headSHA")
  else
    let ref := FullyQualifiedResultBranch (TaskID ws) in
    existing ← ResolveResultRef (TaskID ws) (Path ws);
    if negb (bool_decide (existing = "")) && negb (bool_decide (existing = head))
    then Throw (ErrResultRefConflict ref existing head (TaskID ws))
    else if bool_decide (existing = head) then mret ref
    else
      common ← resolveCommonDir (Path ws);
      _ ← runGit common ["update-ref"; ref; head];
      mret ref.

Definition DeleteResultRef (ws : Workspace) : M () :=
  if bool_decide (Path ws = "") then Throw (ErrRequired "worktree path")
  else
    common ← resolveCommonDir (Path ws);
    _ ← runGit common ["update-ref"; "-d"; FullyQualifiedResultBranch (TaskID ws)];
    mret ().

(** ** Commits ([commit.go], [checkpoint.go]) *)

(** Staging, and whether there is anything to commit. *)
Definition stageAll (dir : string) : M bool :=
  _ ← runGit dir ["add"; "-A"];
  r ← catch (runGit dir ["diff"; "--cached"; "--quiet"]);
  match r with
  | Err _ => mret true
  | Ok _ =>
      s ← catch (runGit dir ["status"; "--porcelain"]);
      mret (match s with Ok out => negb (bool_decide (strs.TrimSpace out = "")) | Err _ => false end)
  end.
Definition author : string := "--author=NeuroForge <neuroforge@local>".

Definition gone (s : State) : bool := bool_decide (s = StateDeleted) || bool_decide (s = StateRejected).

Definition CommitWorktreeChanges (id message : string) : M (string * bool) :=
  ws ← Get id;
  if gone (State_ ws) then Throw (ErrWrongState id (State_ ws))
  else if bool_decide (Path ws = "") then Throw (ErrRequired "worktree path")
  else
    there ← read (λ w, isWorktree (Path ws) (ext w));
    if negb there then Throw (ErrNotManaged (Path ws))
    else
      changes ← stageAll (Path ws);
      if negb changes then head ← trimmed (runGit (Path ws) ["rev-parse"; "HEAD"]); mret (head, false)
      else
        _ ← runGit (Path ws) ["commit"; "-m"; message; author];
        sha ← trimmed (runGit (Path ws) ["rev-parse"; "HEAD"]);
        mret (sha, true).

Definition setHead (sha : string) (t : Time) (w : Workspace) : Workspace :=
  mkWorkspace (ID w) (ProjectID w) (TaskID w) (WorkPackageID w) (Attempt w) (Kind w) (Path w) (Branch w)
    (ResultBranch w) (BaseSHA w) sha (ResultSHA w) (State_ w) (Engine w) (Model w) (RunID w) (SessionID w)
    (CreatedAt w) t.
Definition Checkpoint_ (m : Manager) (id moment message : string) : M Checkpoint :=
  ws ← Get id;
  if gone (State_ ws) then Throw (ErrWrongState id (State_ ws))
  else if bool_decide (Path ws = "") then Throw (ErrRequired "worktree path")
  else
    changes ← stageAll (Path ws);
    sha ← (if negb changes then mret (HeadSHA ws)
           else _ ← runGit (Path ws) ["commit"; "-m"; "[neuroforge checkpoint] " +:+ moment +:+ ": " +:+ message; author];
                trimmed (runGit (Path ws) ["rev-parse"; "HEAD"]));
    t ← now;
    let cp := mkCheckpoint 0 id sha moment message t in
    _ ← stmt (λ d, d ← storage (CreateCheckpoint cp) d;
                   let d := default d (updateRow id (setHead sha t) d) in
                   auditTx (audit_ m) id "workspace.checkpoint"
                     [("moment", audit.VString moment); ("commit_sha", audit.VString sha);
                      ("message", audit.VString message); ("had_changes", audit.VBool changes)] d);
    mret cp.
Definition ListCheckpoints_ (id : string) : M (list Checkpoint) := sql (λ d, Ok (ListCheckpoints id d)).

(** ** Results and review ([result.go]) *)

Definition CreateResult (m : Manager) (id : string) : M Workspace :=
  ws ← Get id;
  if gone (State_ ws) then Throw (ErrWrongState id (State_ ws))
  else if bool_decide (Path ws = "") then Throw (ErrRequired "worktree path")
  else
    head ← trimmed (runGit (Path ws) ["rev-parse"; "HEAD"]);
    let branch := ResultBranch_ (TaskID ws) in
    common ← resolveCommonDir (Path ws);
    _ ← runGit common ["update-ref"; branch; head];
    t ← now;
    _ ← stmt (storage (SetWorkspaceResult id branch head t));
    _ ← updateState id StateCompleted head (RunID ws) (SessionID ws);
    _ ← ignore (auditEvent m id "workspace.result_created"
                  [("result_branch", audit.VString branch); ("result_sha", audit.VString head);
                   ("base_sha", audit.VString (BaseSHA ws))]);
    mret (setState StateCompleted head (RunID ws) (SessionID ws) t (setResult branch head t ws)).

Definition Diff (id : string) : M string :=
  ws ← Get id;
  if bool_decide (Path ws = "") then Throw (ErrRequired "worktree path")
  else runGit (Path ws) ["diff"; BaseSHA ws; "HEAD"].
Definition ExportPatch (id : string) : M string :=
  ws ← Get id;
  if bool_decide (Path ws = "") then Throw (ErrRequired "worktree path")
  else runGit (Path ws) ["format-patch"; "--stdout"; BaseSHA ws +:+ "..HEAD"].

(** The worktree and its attempt branch; the result branch when it still is
    where this workspace left it. *)
Definition deleteWorktree (ws : Workspace) : M () :=
  if bool_decide (Path ws = "") then mret ()
  else
    common ← resolveCommonDir (Path ws);
    r ← catch (runGit common ["worktree"; "remove"; "--force"; Path ws]);
    _ ← (if is_ok r then mret () else ignore (runGit common ["worktree"; "prune"]));
    _ ← (if bool_decide (Branch ws = "") then mret () else ignore (runGit common ["branch"; "-D"; Branch ws]));
    if bool_decide (ResultBranch ws = "") || bool_decide (ResultSHA ws = "") then mret ()
    else
      r ← catch (runGit common ["rev-parse"; ResultBranch ws]);
      match r with
      | Ok out => if bool_decide (strs.TrimSpace out = ResultSHA ws)
                  then ignore (runGit common ["branch"; "-D"; ResultBranch ws]) else mret ()
      | Err _ => mret ()
      end.

Inductive ReviewAction := ActionKeep | ActionReject | ActionAsk | ActionOther (a : string).

Definition withState (s : State) (w : Workspace) : Workspace :=
  setState s (HeadSHA w) (RunID w) (SessionID w) (UpdatedAt w) w.
Definition Review (m : Manager) (id : string) (action : ReviewAction) : M Workspace :=
  ws ← Get id;
  match action with
  | ActionKeep =>
      _ ← updateState id StateKept (HeadSHA ws) (RunID ws) (SessionID ws);
      _ ← ignore (auditEvent m id "workspace.result_kept"
                    [("result_branch", audit.VString (ResultBranch ws)); ("result_sha", audit.VString (ResultSHA ws))]);
      mret (withState StateKept ws)
  | ActionAsk =>
      _ ← ignore (auditEvent m id "workspace.changes_requested" [("result_branch", audit.VString (ResultBranch ws))]);
      mret ws
  | ActionReject =>
      _ ← ignore (deleteWorktree ws);
      _ ← updateState id StateRejected (HeadSHA ws) (RunID ws) (SessionID ws);
      _ ← ignore (auditEvent m id "workspace.result_rejected"
                    [("path", audit.VString (Path ws)); ("branch", audit.VString (Branch ws));
                     ("result_branch", audit.VString (ResultBranch ws))]);
      mret (withState StateRejected ws)
  | ActionOther a => Throw (ErrUnknownAction a)
  end.

Definition Delete (m : Manager) (id : string) : M () :=
  ws ← Get id;
  _ ← ignore (deleteWorktree ws);
  _ ← updateState id StateDeleted (HeadSHA ws) (RunID ws) (SessionID ws);
  ignore (auditEvent m id "workspace.deleted" [("path", audit.VString (Path ws)); ("branch", audit.VString (Branch ws))]).

End manager.

(** ** Lemmas: programs that keep an invariant *)

(** The manager's programs need no rely: each step keeps [I] from any state. *)
#[export] Instance anything_preorder W : PreOrder (λ _ _ : W, True).
Proof. by constructor. Qed.

Section safe.
  Context {W E : Type} (I : W → Prop).

Definition safe {A} (Q : A → Prop) (p : proc W E A) : Prop :=
  ∀ w, I w → wp I (λ _ _, True) (λ _ _, True) p (λ r _, match r with Ok a => Q a | Err _ => True end) w.

Lemma safe_ret {A} (Q : A → Prop) a : Q a → safe Q (mret a).
Proof. intros H w _ w' _ _. done. Qed.
Lemma safe_throw {A} (Q : A → Prop) e : safe Q (Throw e).
Proof. intros w _ w' _ _. done. Qed.
Lemma safe_bind {A B} (Q : A → Prop) (Q' : B → Prop) p f :
  safe Q p → (∀ a, Q a → safe Q' (f a)) → safe Q' (p ≫= f).
Proof.
  intros Hp Hf w Hi. apply wp_bind; [apply _|done|]. eapply wp_mono; [|by apply Hp]. intros [a|e] w' Hi' HQ; [|done]. by apply Hf.
Qed.
Lemma safe_call {A B} (Q : A → Prop) (f : W → B * W) (k : B → proc W E A) :
  (∀ w, I w → I (f w).2) → (∀ w, I w → safe Q (k (f w).1)) → safe Q (Call f k).
Proof. intros Hf Hk w _ w' _ Hi. split; [auto|]. split; [done|]. apply Hk; auto. Qed.
Lemma safe_weaken {A} (Q Q' : A → Prop) p : (∀ a, Q a → Q' a) → safe Q p → safe Q' p.
Proof. intros HQ Hp w Hi. eapply wp_mono; [|by apply Hp]. intros [a|e] w' _; auto. Qed.
Lemma safe_catch {E' A} (Q : A → Prop) (p : proc W E A) :
  safe Q p → ∀ w, I w → wp I (λ _ _, True) (λ _ _, True) (catch (E' := E') p)
    (λ r _, match r with Ok (Ok a) => Q a | _ => True end) w.
Proof.
  intros Hp w Hi. apply wp_catch. eapply wp_mono; [|by apply Hp]. intros [a|e] w' _; auto.
Qed.
End safe.

Lemma safe_catch' {W E A} (I : W → Prop) (Q : A → Prop) (p : proc W E A) :
  safe I Q p → safe (E := E) I (λ r, match r with Ok a => Q a | Err _ => True end) (catch p).
Proof.
  intros Hp w Hi. eapply wp_mono; [|by apply (safe_catch _ Q)]. intros [[a|e]|e] w' _; auto.
Qed.
Lemma safe_ignore {W E A} (I : W → Prop) (Q : A → Prop) (p : proc W E A) :
  safe I Q p → safe (E := E) I (λ _, True) (ignore p).
Proof.
  intros Hp. unfold ignore. eapply safe_bind; [by apply safe_catch'|]. intros r _. by apply safe_ret.
Qed.

(** ** The commands that reach Git *)

(** The same world, with every command line recorded. *)
#[export] Instance traced {X} (E : External X) : External (X * list (list string)) := {|
  git argv x := let '(r, x') := git argv x.1 in (r, (x', x.2 ++ [argv]));
  isWorktree p x := isWorktree p x.1;
  statDir p x := statDir p x.1;
  mkdirParent p x := let '(r, x') := mkdirParent p x.1 in (r, (x', x.2)) |}.

(** The directory and the command as Git reads its arguments. *)
Fixpoint gitCommand (dir : string) (argv : list string) : string * list string :=
  match argv with
  | "-C" :: d :: argv => gitCommand d argv
  | _ => (dir, argv)
  end.

Lemma gitCommand_sub d sub args : sub ≠ "-C" → gitCommand d (sub :: args) = (d, sub :: args).
Proof. intros H. simpl. repeat (case_match; simplify_eq; try done). Qed.

Lemma gitCommand_C d dir argv : gitCommand d ("-C" :: dir :: argv) = gitCommand dir argv.
Proof. done. Qed.

Definition managed (root path : string) : bool := strs.HasPrefix path (root +:+ "/workspaces/").

(** A branch of NeuroForge's own. *)
Definition ours (ref : string) : bool := strs.HasPrefix ref "forge/" || strs.HasPrefix ref "refs/heads/forge/".

#[global] Arguments managed : simpl never.
#[global] Arguments ours : simpl never.

Lemma HasPrefix_append p s : strs.HasPrefix (p +:+ s) p = true.
Proof.
  induction p as [|c p IH]; [by destruct s|]. change (bool_decide (c = c) && strs.HasPrefix (p +:+ s) p = true). by rewrite bool_decide_true, IH.
Qed.
Lemma managed_path root p t wp n : managed root (WorktreePath root p t wp n) = true.
Proof. unfold managed, WorktreePath. rewrite <-append_assoc. apply HasPrefix_append. Qed.
Lemma ours_attempt t wp n : ours (AttemptBranch t wp n) = true.
Proof. unfold ours, AttemptBranch. by rewrite HasPrefix_append. Qed.
Lemma ours_result t : ours (ResultBranch_ t) = true.
Proof. apply orb_true_iff. left. apply (HasPrefix_append "forge/"). Qed.
Lemma ours_full t : ours (FullyQualifiedResultBranch t) = true.
Proof. apply orb_true_iff. right. apply (HasPrefix_append "refs/heads/forge/"). Qed.

(** The questions, which change nothing. *)
Definition asks (sub : string) (args : list string) : bool :=
  existsb (String.eqb sub) ["rev-parse"; "check-ref-format"; "for-each-ref"]
  || String.eqb sub "status" && match args with [a] => String.eqb a "--porcelain" | _ => false end
  || String.eqb sub "format-patch" && match args with [a; _] => String.eqb a "--stdout" | _ => false end
  || String.eqb sub "diff" && match args with
                              | [a] => String.eqb a "--stat"
                              | [a; b] => existsb (String.eqb b) ["HEAD"; "--quiet"] || existsb (String.eqb a) ["--stat"; "--name-only"]
                              | _ => false
                              end.
(** The changes: managed worktrees come and go, NeuroForge's branches are set
    and deleted, and files are staged and committed in managed worktrees. *)
Definition changes (root dir sub : string) (args : list string) : bool :=
  match args with
  | [a] => String.eqb sub "worktree" && String.eqb a "prune" || String.eqb sub "add" && String.eqb a "-A" && managed root dir
  | [a; b] => String.eqb sub "update-ref" && (String.eqb a "-d" && ours b || ours a)
              || String.eqb sub "branch" && String.eqb a "-D" && ours b
  | [a; b; c] => String.eqb sub "worktree" && String.eqb a "remove" && String.eqb b "--force" && managed root c
                 || String.eqb sub "commit" && String.eqb a "-m" && managed root dir
  | [a; b; branch; path; _] => String.eqb sub "worktree" && String.eqb a "add" && String.eqb b "-b" && ours branch && managed root path
  | _ => false
  end.

(** Local subcommands only, and of these only such calls. *)
Definition cleared (root dir : string) (cmd : list string) : bool :=
  match cmd with
  | [] => false
  | sub :: args => bool_decide (sub ∈ allowedGitSubcommands) && negb (bool_decide (sub ∈ forbiddenGitSubcommands))
                   && negb (bool_decide (sub = "-C")) && (asks sub args || changes root dir sub args)
  end.
Definition confined (root : string) (argv : list string) : bool :=
  let '(dir, cmd) := gitCommand "" argv in cleared root dir cmd.

(** What clients ask of the manager. *)
Inductive Op :=
| OpCreate (req : CreateRequest)
| OpFingerprint (path : string)
| OpSetRunInfo (id engine model run session : string)
| OpRefreshHead (ws : Workspace)
| OpSetState (id : string) (s : State)
| OpRetain (id : string) (k : Z)
| OpInspect (ws : Workspace)
| OpEnsureRef (ws : Workspace) (head : string)
| OpDeleteRef (ws : Workspace)
| OpCommit (id message : string)
| OpCheckpoint (id moment message : string)
| OpCreateResult (id : string)
| OpDiff (id : string)
| OpExportPatch (id : string)
| OpReview (id : string) (a : ReviewAction)
| OpDelete (id : string).

Definition exec {X} `{!External X} (m : Manager) (op : Op) : proc (World X) Error () :=
  match op with
  | OpCreate req => _ ← Create m req; mret ()
  | OpFingerprint path => _ ← WorktreeFingerprint path; mret ()
  | OpSetRunInfo id engine model run session => SetRunInfo m id engine model run session
  | OpRefreshHead ws => _ ← refreshHead ws; mret ()
  | OpSetState id s => _ ← SetState m id s; mret ()
  | OpRetain id k => _ ← RetainCheckpoints m id k; mret ()
  | OpInspect ws => _ ← InspectWorktree ws; mret ()
  | OpEnsureRef ws head => _ ← EnsureResultRef ws head; mret ()
  | OpDeleteRef ws => DeleteResultRef ws
  | OpCommit id message => _ ← CommitWorktreeChanges id message; mret ()
  | OpCheckpoint id moment message => _ ← Checkpoint_ m id moment message; mret ()
  | OpCreateResult id => _ ← CreateResult m id; mret ()
  | OpDiff id => _ ← Diff id; mret ()
  | OpExportPatch id => _ ← ExportPatch id; mret ()
  | OpReview id a => _ ← Review m id a; mret ()
  | OpDelete id => Delete m id
  end.

Section confinement.
  Context {X : Type} {Ext : External X} (m : Manager).
  Abbreviation W := (World (X * list (list string))).

(** Every row is of a managed worktree and of branches of NeuroForge's own, and
    every command so far was confined. *)
Record row_ok (w : Workspace) : Prop := mkRowOk {
  row_path : managed (workspacesRoot m) (Path w) = true;
  row_branch : Branch w = "" ∨ ours (Branch w) = true;
  row_result : ResultBranch w = "" ∨ ours (ResultBranch w) = true }.
Definition rowsManaged (d : DB) : Prop := ∀ w, w ∈ workspaces d → row_ok w.
Definition kept (w : W) : Prop :=
  rowsManaged (db w) ∧ Forall (λ argv, confined (workspacesRoot m) argv = true) (ext w).2.

Abbreviation ok := (safe (E := Error) kept).

Lemma ok_sql {A} (f : DB → result wsrows.Error A) (Q : A → Prop) :
  (∀ d a, rowsManaged d → f d = Ok a → Q a) → ok Q (sql f).
Proof.
  intros HQ w [Hr Hl] w' _ [Hr' Hl']. split; [done|]. split; [done|]. simpl.
  destruct (f (db w')) eqn:Ef; intros w'' _ _; [by apply (HQ (db w'))|done].
Qed.

Lemma ok_stmt (f : DB → result Error DB) :
  (∀ d d', rowsManaged d → f d = Ok d' → rowsManaged d') → ok (λ _, True) (stmt f).
Proof.
  intros Hf. apply safe_call.
  - intros w [Hr Hl]. destruct (f (db w)) eqn:Ef; simpl; [|done]. split; [by apply (Hf (db w))|done].
  - intros w [Hr Hl]. destruct (f (db w)); simpl; [by apply safe_ret|apply safe_throw].
Qed.

Lemma ok_now : ok (λ _, True) now.
Proof. apply safe_call; [done|]. intros w _. by apply safe_ret. Qed.

Lemma ok_read {A} (f : W → A) : ok (λ _, True) (read f).
Proof. apply safe_call; [done|]. intros w _. by apply safe_ret. Qed.

Lemma ok_mkdir p : ok (λ _, True) (external (mkdirParent p)).
Proof.
  apply safe_call; intros w Hw; [|by apply safe_ret]. simpl. destruct (mkdirParent p (ext w).1). exact Hw.
Qed.

(** The runner lets a cleared command through. *)
Lemma ok_runGit dir cmd : cleared (workspacesRoot m) dir cmd = true → ok (λ _, True) (runGit dir cmd).
Proof.
  intros H. unfold runGit. destruct cmd as [|sub args]; [done|]. case_bool_decide as Hf; [apply safe_throw|].
  destruct (negb (bool_decide (sub ∈ allowedGitSubcommands))); [apply safe_throw|].
  eapply (safe_bind _ (λ _, True)).
  - apply safe_call; intros w [Hr Hl]; [|by apply safe_ret]. simpl.
    assert (sub ≠ "-C") as Hs by (intros ->; discriminate H).
    destruct (git _ _) as [r x']. simpl. split; [exact Hr|]. simpl. apply Forall_app. split; [done|].
    constructor; [|done]. unfold confined. case_bool_decide as Hd.
    + subst dir. by rewrite gitCommand_sub.
    + change (["-C"; dir] ++ sub :: args) with ("-C" :: dir :: sub :: args). by rewrite gitCommand_C, gitCommand_sub.
  - intros r _. destruct r as [out|[?|?]]; [by apply safe_ret|apply safe_throw..].
Qed.

(** The statements keep the rows. *)
Lemma rows_update id f d d' :
  (∀ w, row_ok w → row_ok (f w)) → rowsManaged d → updateRow id f d = Some d' → rowsManaged d'.
Proof.
  intros Hf Hd. unfold updateRow. destruct (existsb _ _); [|done]. intros [= <-] w. simpl.
  rewrite list_elem_of_fmap. intros (v & -> & Hv). destruct (isWorkspace id v); [apply Hf|]; by apply Hd.
Qed.
Lemma rows_audit rec id t p d d' : rowsManaged d → auditTx rec id t p d = Ok d' → rowsManaged d'.
Proof.
  intros Hd. unfold auditTx. destruct rec as [r|]; [|by intros [= <-]].
  destruct (audit.Record_ _ _ _) as [[?|?] ?]; [|done]. by intros [= <-].
Qed.
Lemma rows_set id f d d' :
  (∀ w, row_ok w → row_ok (f w)) → rowsManaged d → storage (updateWorkspace id f) d = Ok d' → rowsManaged d'.
Proof.
  intros Hf Hd. unfold storage, updateWorkspace. destruct (updateRow _ _ _) eqn:E; [|done]. intros [= <-].
  by eapply rows_update.
Qed.
Lemma rows_default id f d :
  (∀ w, row_ok w → row_ok (f w)) → rowsManaged d → rowsManaged (default d (updateRow id f d)).
Proof. intros Hf Hd. destruct (updateRow _ _ _) eqn:E; [|done]. by eapply rows_update. Qed.

(** One program after the other. *)
Lemma ok_seq {A B} (p : proc W Error A) (f : A → proc W Error B) :
  ok (λ _, True) p → (∀ a, ok (λ _, True) (f a)) → ok (λ _, True) (p ≫= f).
Proof. intros Hp Hf. eapply safe_bind; [exact Hp|]. auto. Qed.
Lemma ok_catch {A} (p : proc W Error A) : ok (λ _, True) p → ok (λ _, True) (catch (E' := Error) p).
Proof. intros Hp. eapply safe_weaken; [|by apply safe_catch']. done. Qed.
Lemma ok_ignore {A} (p : proc W Error A) : ok (λ _, True) p → ok (λ _, True) (ignore (E' := Error) p).
Proof. apply safe_ignore. Qed.
Lemma ok_Get id : ok row_ok (Get id).
Proof.
  apply ok_sql. intros d ws Hd. unfold GetWorkspace. destruct (List.find _ _) eqn:E; [|done]. intros [= <-].
  apply List.find_some in E as [Hin _]. apply Hd. by apply list_elem_of_In.
Qed.
Lemma ok_audit id t p : ok (λ _, True) (auditEvent m id t p).
Proof. apply ok_stmt. intros d d'. apply rows_audit. Qed.
Lemma ok_update id s h r se : ok (λ _, True) (updateState id s h r se).
Proof. unfold updateState. apply ok_seq; [apply ok_now|]. intros t. apply ok_stmt. intros d d'. apply rows_set. by intros w []. Qed.

(** A command whose shape is there to see. *)
Lemma ok_asks dir sub args :
  bool_decide (sub ∈ allowedGitSubcommands) && negb (bool_decide (sub ∈ forbiddenGitSubcommands)) && negb (bool_decide (sub = "-C")) = true →
  asks sub args = true → ok (λ _, True) (runGit dir (sub :: args)).
Proof. intros H Ha. apply ok_runGit. cbn [cleared]. by rewrite H, Ha. Qed.
Lemma ok_changes dir sub args :
  bool_decide (sub ∈ allowedGitSubcommands) && negb (bool_decide (sub ∈ forbiddenGitSubcommands)) && negb (bool_decide (sub = "-C")) = true →
  changes (workspacesRoot m) dir sub args = true → ok (λ _, True) (runGit dir (sub :: args)).
Proof. intros H Ha. apply ok_runGit. cbn [cleared]. by rewrite H, Ha, orb_true_r. Qed.

(** A program on a row of the table. *)
Lemma ok_on_row {A} id (f : Workspace → proc W Error A) :
  (∀ ws, row_ok ws → ok (λ _, True) (f ws)) → ok (λ _, True) (ws ← Get id; f ws).
Proof. intros Hf. eapply safe_bind; [apply ok_Get|done]. Qed.

Ltac confine :=
  repeat match goal with
  | |- ∀ _, _ => intros ?
  | |- safe _ _ (mbind _ (Get _)) => apply ok_on_row
  | |- safe _ _ (mbind _ _) => apply ok_seq
  | |- safe _ _ (mret _) => by apply safe_ret
  | |- safe _ _ (Throw _) => apply safe_throw
  | |- safe _ _ (catch _) => apply ok_catch
  | |- safe _ _ (ignore _) => apply ok_ignore
  | |- safe _ _ now => apply ok_now
  | |- safe _ _ (read _) => apply ok_read
  | |- safe _ _ (auditEvent _ _ _ _) => apply ok_audit
  | |- safe _ _ (updateState _ _ _ _ _) => apply ok_update
  | |- safe _ _ (trimmed _) => unfold trimmed
  | |- safe _ _ (external (mkdirParent _)) => apply ok_mkdir
  | |- safe _ _ (runGit _ _) => first [apply ok_asks; [reflexivity|cbn; rewrite ?orb_true_r; reflexivity] | apply ok_changes; [reflexivity|cbn; rewrite ?managed_path, ?ours_attempt, ?ours_result, ?ours_full, ?row_path by assumption; reflexivity]]
  | |- safe _ _ (sql _) => by apply ok_sql
  | |- safe _ _ (if ?b then _ else _) => destruct b
  | |- safe _ _ (match ?r with Ok _ => _ | Err _ => _ end) => destruct r
  end.

Lemma ok_common dir : ok (λ _, True) (resolveCommonDir dir).
Proof. unfold resolveCommonDir. confine. Qed.
Lemma ok_deleteBranch dir b : b = "" ∨ ours b = true → b ≠ "" → ok (λ _, True) (runGit dir ["branch"; "-D"; b]).
Proof. intros [?|Hb] Hne; [done|]. apply ok_changes; [reflexivity|]. cbn. by rewrite Hb. Qed.
Lemma ok_deleteWorktree ws : row_ok ws → ok (λ _, True) (deleteWorktree ws).
Proof.
  intros Hw. unfold deleteWorktree. case_bool_decide; [by apply safe_ret|].
  apply ok_seq; [apply ok_common|]. intros common. apply ok_seq; [confine|]. intros r. apply ok_seq; [confine|]. intros _.
  apply ok_seq; [case_bool_decide; [by apply safe_ret|]; apply ok_ignore, ok_deleteBranch; [apply Hw|done]|]. intros _.
  case_bool_decide as Hr; [by apply safe_ret|]. cbn [orb]. confine. apply ok_deleteBranch; [apply Hw|done].
Qed.
Lemma ok_stageAll ws : row_ok ws → ok (λ _, True) (stageAll (Path ws)).
Proof. intros Hw. unfold stageAll. confine. Qed.
Lemma ok_prune l : ok (λ _, True) (pruneCheckpoints l).
Proof.
  induction l as [|c l IH]; cbn [pruneCheckpoints]; confine; [|done]. apply ok_stmt. intros d d' Hd [= <-]. exact Hd.
Qed.
Lemma ok_Resolve t dir : ok (λ _, True) (ResolveResultRef t dir).
Proof. unfold ResolveResultRef. confine. Qed.

Lemma ok_validate dir ref : ok (λ _, True) (validateBaseRef dir ref).
Proof. unfold validateBaseRef. confine. Qed.

Lemma ok_Create req : ok (λ _, True) (Create m req).
Proof.
  unfold Create, nextAttempt, ListByTask. confine; try apply ok_validate.
  - apply ok_stmt. intros d d' Hd. unfold storage, CreateWorkspace. destruct (existsb _ _); [done|].
    destruct (negb _); [done|]. cbn. apply rows_audit. intros w. simpl.
    rewrite elem_of_app, list_elem_of_singleton. intros [Hw| ->]; [by apply Hd|]. constructor; [apply managed_path|right; apply ours_attempt|by left].
Qed.

Ltac confine_op :=
  repeat first
  [ progress confine
  | match goal with
    | |- safe _ _ (resolveCommonDir _) => apply ok_common
    | |- safe _ _ (deleteWorktree _) => by apply ok_deleteWorktree
    | |- safe _ _ (pruneCheckpoints _) => apply ok_prune
    | |- safe _ _ (ResolveResultRef _ _) => apply ok_Resolve
    | |- safe _ _ (stageAll _) => by apply ok_stageAll
    end ].

(** A statement followed by the audit row of its transaction. *)
Lemma ok_audited id f g rec t p :
  (∀ d d', rowsManaged d → storage f d = Ok d' → rowsManaged d') → (∀ w : Workspace, row_ok w → row_ok (g w)) →
  ok (λ _, True) (stmt (λ d, d ← storage f d; auditTx rec id t p (default d (updateRow id g d)))).
Proof.
  intros Hf Hg. apply ok_stmt. intros d d' Hd. destruct (storage f d) as [d1|] eqn:E; [|done]. cbn.
  apply rows_audit, rows_default; [done|]. by eapply Hf.
Qed.

Lemma ok_exec op : ok (λ _, True) (exec m op).
Proof.
  destruct op as [| | | |id target| | | | | | | | | |id action|]; cbn [exec]; [confine; apply ok_Create|..].
  all: unfold WorktreeFingerprint, SetRunInfo, refreshHead, SetState, RetainCheckpoints, InspectWorktree,
    computeChangedFiles, EnsureResultRef, DeleteResultRef, CommitWorktreeChanges, Checkpoint_, CreateResult, Diff,
    ExportPatch, Review, Delete; confine_op.
  - apply ok_audited; [|by intros w []]. intros d d'. apply rows_set. by intros w [].
  - destruct target; confine_op.
  - apply ok_audited; [|by intros w []]. intros d d' Hd. unfold storage, CreateCheckpoint. destruct (existsb _ _); [|done].
    by intros [= <-].
  - apply ok_stmt. intros d d'. apply rows_set. intros w []. constructor; [done|done|right; apply ours_result].
  - destruct action; confine_op.
Qed.

(** What the rest of the daemon and Git may do: anything that leaves the paths
    of the rows managed and runs no command in the manager's name. *)
Definition others (w w' : W) : Prop := (rowsManaged (db w) → rowsManaged (db w')) ∧ (ext w').2 = (ext w).2.

End confinement.

(** ** Properties *)

(** C28: AC-7, AC-8.  However the manager's operations interleave with each
    other, with the rest of the daemon and with crashes, and whatever Git and
    the file system answer: every command that reaches Git has an allowlisted
    subcommand that is not one of the network subcommands, and either asks
    without changing anything, or adds, removes or prunes worktrees under the
    manager's root, sets or deletes a branch of NeuroForge's own name space, or
    stages and commits inside a managed worktree.  Nothing else is ever run: no
    checkout, no configuration, nothing that touches the files, the index or the
    branches of a primary checkout. *)
Theorem manager_confined {X} {Ext : External X} (m : Manager) (c c' : Config (World (X * list (list string))) Error ()) :
  threads c = [] → rowsManaged m (db (state c)) → (ext (state c)).2 = [] →
  rtc (pstep (λ p, ∃ op, p = exec m op) (others m)) c c' →
  ∀ argv, argv ∈ (ext (state c')).2 → confined (workspacesRoot m) argv = true.
Proof.
  intros Ht Hr Hl Hs argv Hin.
  assert (kept m (state c')) as [_ Hk]; [|rewrite Forall_forall in Hk; by apply Hk].
  eapply (pool_sound _ _ (kept m) (λ _ _, True) (λ _ _, True) (λ _ _, True)); [apply _|done| | | | |exact Hs].
  - intros w w' [Hw Hx] [Hk1 Hk2]. split; [done|]. split; [by apply Hw|by rewrite Hx].
  - intros p w Hk [op ->]. eapply wp_mono; [|by apply ok_exec]. done.
  - split; [done|]. rewrite Hl. constructor.
  - rewrite Ht. constructor.
Qed.

(** ** Further facts *)

(** The changed files are the union of both sources, sorted and without
    repetition. *)
Lemma changedFiles_spec diff porcelain :
  (∀ p, p ∈ changedFiles diff porcelain ↔
     (∃ out, diff = Some out ∧ p ∈ diffPaths out) ∨
     (∃ line, line ∈ strs.SplitLines porcelain ∧ p ∈ porcelainPaths line)) ∧
  NoDup (changedFiles diff porcelain) ∧ StronglySorted String.le (changedFiles diff porcelain).
Proof.
  unfold changedFiles. split; [|split].
  - intros p. rewrite elem_of_sortStrings, elem_of_elements, elem_of_list_to_set, elem_of_app, list_elem_of_join.
    destruct diff as [out|]; simpl.
    + split.
      * intros [H|(l & Hp & Hl)]; [left; eauto|right]. apply list_elem_of_fmap in Hl as (line & -> & Hl). eauto.
      * intros [(o & [= <-] & H)|(line & Hl & Hp)]; [by left|right]. eexists. split; [exact Hp|]. by apply list_elem_of_fmap_2.
    + split.
      * intros [H|(l & Hp & Hl)]; [by apply elem_of_nil in H|right]. apply list_elem_of_fmap in Hl as (line & -> & Hl). eauto.
      * intros [(o & [=] & H)|(line & Hl & Hp)]. right. eexists. split; [exact Hp|]. by apply list_elem_of_fmap_2.
  - rewrite sortStrings_Permutation. apply NoDup_elements.
  - apply sortStrings_sorted.
Qed.

(** Recovery never leaves a terminal state, and [failed] only for itself. *)
Lemma recovery_absorbing from to :
  allowedRecoveryTransition from to = true →
  isAbsorbingTerminal from = false ∧ isAbsorbingTerminal to = false ∧ (from = StateFailed → to = StateFailed).
Proof.
  unfold allowedRecoveryTransition. destruct (isAbsorbingTerminal from); [done|]. case_bool_decide as Hf.
  - intros ->%bool_decide_eq_true. done.
  - destruct to; done.
Qed.

(** A small external world: one repository with its refs; commands it does not
    know succeed silently. *)
#[export] Instance demoExternal : External (gmap string string) := {|
  git argv refs :=
    match argv with
    | ["-C"; _; "update-ref"; ref; sha] => (Ok "", <[ref := sha]> refs)
    | ["-C"; _; "for-each-ref"; _; ref] => (Ok (default "" (refs !! ref)), refs)
    | ["-C"; _; "rev-parse"; "--git-common-dir"] => (Ok "/repo/.git", refs)
    | ["-C"; _; "rev-parse"; "HEAD"] => (Ok (default "c0" (refs !! "HEAD")), refs)
    | ["-C"; _; "rev-parse"; ref] => (Ok (default ref (refs !! ref)), refs)
    | _ => (Ok "", refs)
    end;
  isWorktree _ _ := true;
  statDir _ _ := Some true;
  mkdirParent _ refs := (Ok (), refs) |}.

Definition demoManager : Manager := mkManager None "/home/forge".
Definition demoTask : backlog.Task := backlog.mkTask "p-1" "p" "title" "text" "NORMAL" backlog.StateRunning 1 1.
Definition demoBase : backlog.DB :=
  backlog.mkDB [backlog.mkProject "p" "p" "/repo" "" project.StateIdle "LOCAL_REVIEW" 1 1] [demoTask] [] ∅ [].
Definition demoRow (s : State) : Workspace :=
  mkWorkspace "ws-p-1-main-1" "p" "p-1" "main" 1 "attempt" "/home/forge/workspaces/p/p-1/main/attempt-1"
    "forge/p-1/main/attempt-1" "" "c0" "c0" "" s "" "" "" "" 1 1.
Definition demoWorld {X} (l : list Workspace) (x : X) : World X := mkWorld (mkDB demoBase l [] 1 []) x 2.
Definition demoCreate : CreateRequest := mkCreateRequest "p" "/repo" "p-1" "" "".

Example Create_first_attempt :
  (λ w, (ID w, Branch w, State_ w, BaseSHA w)) <$> workspaces (db (run (Create demoManager demoCreate) (demoWorld [] ∅)).2)
  = [("ws-p-1-main-1", "forge/p-1/main/attempt-1", StateActive, "c0")].
Proof. vm_compute. reflexivity. Qed.

(** [Review] does not look at the state: keeping a deleted workspace makes it
    a kept one. *)
Lemma keep_revives_deleted :
  State_ <$> workspaces (db (run (Review demoManager "ws-p-1-main-1" ActionKeep) (demoWorld [demoRow StateDeleted] ∅)).2)
  = [StateKept].
Proof. vm_compute. reflexivity. Qed.

(** [SetRunInfo] writes back the state it read before its transaction: a
    workspace that failed in between is active again. *)
Lemma SetRunInfo_revives_failed :
  let c := schedule [0; 1; 1; 1; 1; 1; 0; 0]
             (mkConfig [exec demoManager (OpSetRunInfo "ws-p-1-main-1" "e" "m" "r" "s");
                        exec demoManager (OpSetState "ws-p-1-main-1" StateFailed)]
                (demoWorld [demoRow StateActive] (∅ : gmap string string))) in
  threads c = [Ret (); Ret ()] ∧ State_ <$> workspaces (db (state c)) = [StateActive].
Proof. vm_compute. done. Qed.

(** Both ids are "ws-a-b-c-1". *)
Lemma workspace_ids_collide : WorkspaceID "a" "b-c" 1 = WorkspaceID "a-b" "c" 1.
Proof. reflexivity. Qed.

(** The allowlist contains [-C], and the runner looks at the first argument
    only: a network command behind it passes.  No operation does that
    ([manager_confined]). *)
Lemma dash_C_passes_runner :
  (ext (run (runGit "" ["-C"; "/repo"; "push"]) (demoWorld [] ((∅ : gmap string string), []))).2).2 = [["-C"; "/repo"; "push"]].
Proof. vm_compute. reflexivity. Qed.

(** A rename of quoted paths: the outer quotes are stripped before the arrow is
    looked for, and each path keeps one. *)
Lemma quoted_rename_keeps_quotes :
  porcelainPaths ("R  " +:+ strs.q "a b" +:+ " -> " +:+ strs.q "c d") = ["a b" +:+ strs.dquote; strs.dquote +:+ "c d"].
Proof. vm_compute. reflexivity. Qed.

(** Git whose [for-each-ref] fails. *)
Definition lockedRefs : External (gmap string string) := {|
  git argv refs := match argv with
                   | ["-C"; _; "for-each-ref"; _; _] => (Err (Exit "fatal: refs are locked"), refs)
                   | _ => git argv refs
                   end;
  isWorktree := isWorktree; statDir := statDir; mkdirParent := mkdirParent |}.

(** A task whose name contains "exit": the failure to read the ref counts as
    its absence, and the existing result is overwritten. *)
Lemma exit_in_name_overwrites :
  let ref := "refs/heads/forge/result/exit-codes-1" in
  let ws := mkWorkspace "w" "p" "exit-codes-1" "main" 1 "attempt" "/w" "b" "" "c0" "c0" "" StateActive "" "" "" "" 1 1 in
  ext (run (@EnsureResultRef _ lockedRefs ws "c2") (demoWorld [] {[ref := "c1"]})).2 !! ref = Some "c2".
Proof. vm_compute. reflexivity. Qed.

(** ** Witness *)

Definition demoConfig (l : list (list string)) : Config (World (gmap string string * list (list string))) Error () :=
  mkConfig [] (demoWorld [demoRow StateActive] (∅, l)).

Definition demoEnd : Config (World (gmap string string * list (list string))) Error () :=
  schedule [0; 0] (mkConfig [exec demoManager (OpFingerprint "/wt")] (state (demoConfig []))).

Lemma manager_confined_witness :
  (ext (state demoEnd)).2 = [["-C"; "/wt"; "rev-parse"; "HEAD"]; ["-C"; "/wt"; "status"; "--porcelain"]] ∧
  ∀ argv, argv ∈ (ext (state demoEnd)).2 → confined "/home/forge" argv = true.
Proof.
  split; [vm_compute; reflexivity|].
  apply (manager_confined demoManager (demoConfig [])); [reflexivity| |reflexivity|].
  - intros w Hw. apply list_elem_of_singleton in Hw as ->. constructor; [reflexivity|right; reflexivity|left; reflexivity].
  - eapply rtc_l; [apply (p_start _ _ (exec demoManager (OpFingerprint "/wt"))); eauto|]. apply schedule_steps.
Defined.
End workspace.
