(* ===== verification/Finalize.v ===== *)
(** * Finalize: how a run ends

    Models [internal/runapp/classify.go] and [finalize.go]: the classification
    of a run's outcome and the finalization protocol that records it.  Git and
    SQLite share no transaction; a durable intent row, written before the result
    ref and deleted with the terminal commit, lets a later call or a restart
    finish what a crash cut short.  A call is a program of [Process.v], so it
    can be interleaved with others and cut at any statement. *)
From S2P Require Import Prelude Process AuditTrail Agent WorkStore Projects Backlog WorkspaceRows Workspace.

Module runapp.
Import process workspace.

(** ** Outcomes ([classify.go]) *)

Inductive Outcome :=
| OutcomeCompletedWithCommit | OutcomeCompletedWithUncommittedChanges | OutcomeCompletedNoChanges
| OutcomeFailed | OutcomeCancelled | OutcomeTimedOut | OutcomeInterrupted
| OutcomeOther (s : string).
#[global] Instance Outcome_eq_dec : EqDecision Outcome.
Proof. solve_decision. Defined.

Definition Outcome_String (o : Outcome) : string :=
  match o with
  | OutcomeCompletedWithCommit => "completed-with-commit"
  | OutcomeCompletedWithUncommittedChanges => "completed-with-uncommitted-changes"
  | OutcomeCompletedNoChanges => "completed-no-changes"
  | OutcomeFailed => "failed"
  | OutcomeCancelled => "cancelled"
  | OutcomeTimedOut => "timed-out"
  | OutcomeInterrupted => "interrupted"
  | OutcomeOther s => s
  end.
Definition outcomes : list Outcome :=
  [OutcomeCompletedWithCommit; OutcomeCompletedWithUncommittedChanges; OutcomeCompletedNoChanges; OutcomeFailed;
   OutcomeCancelled; OutcomeTimedOut; OutcomeInterrupted].
(** [Outcome(text)]. *)
Definition toOutcome (s : string) : Outcome :=
  default (OutcomeOther s) (List.find (λ o, bool_decide (Outcome_String o = s)) outcomes).

(** The zero value of [Terminal] is the empty label. *)
Inductive Terminal := TerminalCompleted | TerminalFailed | TerminalCancelled | TerminalNone.
#[global] Instance Terminal_eq_dec : EqDecision Terminal.
Proof. solve_decision. Defined.
Definition Terminal_String (t : Terminal) : string :=
  match t with TerminalCompleted => "COMPLETED" | TerminalFailed => "FAILED" | TerminalCancelled => "CANCELLED"
             | TerminalNone => "" end.

Record ClassifyInput := mkClassifyInput {
  Terminal_ : Terminal;
  TimeoutClass : bool;
  Classify_BaseSHA : string;
  Classify_ActualHEAD : string;
  Classify_StatusPorcelain : string }.

Definition Classify (i : ClassifyInput) : Outcome :=
  if bool_decide (Terminal_ i = TerminalCancelled) then OutcomeCancelled
  else if bool_decide (Terminal_ i = TerminalFailed)
  then if TimeoutClass i then OutcomeTimedOut else OutcomeFailed
  else if negb (bool_decide (Classify_ActualHEAD i = Classify_BaseSHA i)) then OutcomeCompletedWithCommit
  else if negb (bool_decide (strs.TrimSpace (Classify_StatusPorcelain i) = ""))
  then OutcomeCompletedWithUncommittedChanges
  else OutcomeCompletedNoChanges.

Definition ClassifyFromEvent (term : agent.NormalizedEvent) (ins : Inspection) (baseSHA : string) : ClassifyInput :=
  let '(t, timeout) :=
    match agent.Type_ term with
    | agent.EventRunCompleted => (TerminalCompleted, false)
    | agent.EventRunCancelled => (TerminalCancelled, false)
    | agent.EventRunFailed =>
        (TerminalFailed, match agent.Failure term with
                         | Some f => bool_decide (agent.Failure_Class f = agent.FailureTimeout)
                         | None => false
                         end)
    | _ => (TerminalNone, false)
    end in
  mkClassifyInput t timeout baseSHA (ActualHEAD ins) (StatusPorcelain ins).

Definition WorkspaceState (o : Outcome) : State :=
  match o with
  | OutcomeCompletedWithCommit | OutcomeCompletedWithUncommittedChanges => StateCompleted
  | OutcomeCompletedNoChanges | OutcomeFailed | OutcomeInterrupted => StateFailed
  | OutcomeCancelled => StateCancelled
  | OutcomeTimedOut => StateTimedOut
  | OutcomeOther _ => StateFailed
  end.
Definition CreatesResultRef (o : Outcome) : bool :=
  match o with OutcomeCompletedWithCommit | OutcomeCompletedWithUncommittedChanges => true | _ => false end.
Definition Outcome_IsTerminal (o : Outcome) : bool := match o with OutcomeOther _ => false | _ => true end.

(** ** The workspace state machine of a run ([finalize.go]) *)

Definition isWorkspaceTerminal (s : State) : bool :=
  match s with
  | StateCompleted | StateFailed | StateCancelled | StateTimedOut | StateKept | StateRejected | StateDeleted
  | StateQuarantined => true
  | _ => false
  end.

Definition allowedTransition (from to : State) : bool :=
  match from with
  | StateCompleted | StateCancelled | StateTimedOut | StateKept | StateRejected | StateDeleted | StateQuarantined => false
  | StatePending => match to with StateActive | StateFailed => true | _ => false end
  | StateActive =>
      match to with
      | StateCompleted | StateFailed | StateCancelled | StateTimedOut | StateWaitingQuota | StateQuarantined => true
      | _ => false
      end
  | StateWaitingQuota | StateFailed =>
      match to with StateFailed | StateWaitingQuota | StateQuarantined => true | _ => false end
  | StateOther _ => false
  end.

(** The outcome reported for a workspace found terminal. *)
Definition outcomeForTerminalState (s : State) (fallback : Outcome) : Outcome :=
  match s with
  | StateCompleted =>
      match fallback with
      | OutcomeCompletedWithCommit | OutcomeCompletedWithUncommittedChanges => fallback
      | _ => OutcomeCompletedWithCommit
      end
  | StateCancelled => OutcomeCancelled
  | StateTimedOut => OutcomeTimedOut
  | StateFailed =>
      match fallback with OutcomeFailed | OutcomeCompletedNoChanges | OutcomeInterrupted => fallback | _ => OutcomeFailed end
  | _ => fallback
  end.

Definition taskTransitionFor (t : backlog.Task) (a : backlog.Action) : option backlog.State :=
  backlog.CanTransition (backlog.Task_State t) a.

(** ** The protocol ([finalize.go]) *)

Record FinalizeRequest := mkFinalizeRequest {
  Req_WorkspaceID : string;
  TerminalEvent : agent.NormalizedEvent;
  Req_Inspection : Inspection;
  Req_TaskID : string;
  Req_Engine : string;
  Req_Model : string;
  Req_RunID : string }.

Record FinalizeResult := mkFinalizeResult {
  Outcome_ : Outcome;
  Res_WorkspaceID : string;
  Res_TaskID : string;
  WorkspacePath : string;
  Res_BaseSHA : string;
  Res_ActualHEAD : string;
  Res_CommitSHA : string;
  Res_ResultBranch : string;
  Res_ChangedFiles : list string;
  Res_Engine : string;
  Res_Model : string;
  Res_RunID : string;
  Idempotent : bool }.

Inductive Error :=
| ErrWorkspace (e : workspace.Error)
| ErrSQL (e : wsrows.Error)
| ErrTask (e : backlog.Error)
| ErrIllegalTransition (ws : string) (from to : State)
| ErrTaskTransition (from : backlog.State) (a : backlog.Action)
| ErrResultRefConflict (ws task ref existing want : string)
| ErrAuditRow (e : workspace.Error).

(** The service: its workspace manager, whose recorder it shares. *)
Record Service := mkService { wm : Manager; svc_audit : option audit.Recorder }.

Definition noEvent : agent.NormalizedEvent := agent.mkNormalizedEvent (agent.EventOther "") None None None None None.

Section protocol.
  Context {X : Type} `{!External X} (s : Service).
  Abbreviation M := (proc (World X) Error).

Definition wsp {A} (p : proc (World X) workspace.Error A) : M A := mapErr ErrWorkspace p.
Definition sqlStmt (f : DB → result wsrows.Error DB) : M () :=
  attempt_ (λ w, match f (db w) with Ok d => (Ok (), withDB d w) | Err e => (Err (ErrSQL e), w) end).
Definition deleteIntent (ws : string) : M () := sqlStmt (λ d, Ok (DeleteFinalizeIntent ws d)).

(** [audit.Record] outside a transaction, its error ignored. *)
Definition auditRecord (scopeID type_ : string) (payload : list (string * audit.Val)) : M () :=
  ignore (stmt (auditTx (svc_audit s) scopeID type_ payload) : proc (World X) workspace.Error ()).

Definition idempotentResult (ws : Workspace) (req : FinalizeRequest) (outcome : Outcome) : M FinalizeResult :=
  let o := outcomeForTerminalState (State_ ws) outcome in
  let head := if bool_decide (ActualHEAD (Req_Inspection req) = "") then HeadSHA ws else ActualHEAD (Req_Inspection req) in
  _ ← auditRecord (ID ws) "run.finalize_idempotent"
        [("workspace", audit.VString (ID ws)); ("state", audit.VString (State_String (State_ ws)));
         ("outcome", audit.VString (Outcome_String o)); ("run_id", audit.VString (Req_RunID req));
         ("late_event", audit.VString (agent.EventType_String (agent.Type_ (TerminalEvent req))))];
  mret (mkFinalizeResult o (ID ws) (TaskID ws) (Path ws) (BaseSHA ws) head (ResultSHA ws) (ResultBranch ws)
          (Inspection_ChangedFiles (Req_Inspection req)) (Req_Engine req) (Req_Model req) (Req_RunID req) true).

Definition withRef (ref : string) (i : FinalizeIntent) : FinalizeIntent :=
  mkFinalizeIntent (Intent_WorkspaceID i) (Intent_TaskID i) (Intent_Outcome i) (RunTerminal i) (Intent_RunID i)
    (Intent_Engine i) (Intent_Model i) (Intent_BaseSHA i) (ActualHeadSHA i) (ExpectedRefSHA i) ref (Intent_CommitSHA i)
    (GitStatusEmpty i) (ChangedFiles i) (TargetWSState i) (TargetTaskState i) (Phase i) (Intent_CreatedAt i)
    (Intent_UpdatedAt i).

(** [ensureRefForIntent]: the intent it leaves behind. *)
Definition ensureRefForIntent (ws : Workspace) (i : FinalizeIntent) : M FinalizeIntent :=
  i ← (if bool_decide (ExpectedRefSHA i = "") then mret i
       else r ← catch (EnsureResultRef ws (ExpectedRefSHA i));
            match r with
            | Ok ref => mret (withRef ref i)
            | Err (workspace.ErrResultRefConflict ref existing want _) =>
                Throw (ErrResultRefConflict (ID ws) (TaskID ws) ref existing want)
            | Err e => Throw (ErrWorkspace e)
            end);
  t ← wsp now;
  let i := setPhase FinalizePhaseRefReady t i in
  _ ← sqlStmt (UpsertFinalizeIntent i);
  mret i.

Definition orElse (a b : string) : string := if bool_decide (a = "") then b else a.

(** The claim: [UPDATE workspaces SET ... WHERE id = ? AND state = 'active']. *)
Definition claimedRow (i : FinalizeIntent) (t : Time) (w : Workspace) : Workspace :=
  mkWorkspace (ID w) (ProjectID w) (TaskID w) (WorkPackageID w) (Attempt w) (Kind w) (Path w) (Branch w)
    (orElse (Intent_ResultBranch i) (ResultBranch w)) (BaseSHA w) (ActualHeadSHA i)
    (orElse (ExpectedRefSHA i) (ResultSHA w)) (TargetWSState i) (orElse (Intent_Engine i) (Engine w))
    (orElse (Intent_Model i) (Model w)) (orElse (Intent_RunID i) (RunID w)) (SessionID w) (CreatedAt w) t.
Definition isClaimable (id : string) (w : Workspace) : bool := isWorkspace id w && bool_decide (State_ w = StateActive).
Definition claim (id : string) (i : FinalizeIntent) (t : Time) (d : DB) : option DB :=
  if existsb (isClaimable id) (workspaces d)
  then Some (withWorkspaces ((λ w, if isClaimable id w then claimedRow i t w else w) <$> workspaces d) d)
  else None.

(** [UPDATE tasks ... AND state NOT IN (...)]. *)
Definition absorbed (st : backlog.State) : bool :=
  match st with
  | backlog.StateCompleted | backlog.StateFailed | backlog.StateCancelled | backlog.StateRejected => true
  | _ => false
  end.
Definition endTask (i : FinalizeIntent) (t : Time) (d : DB) : DB :=
  let b := base d in
  withBase (backlog.mkDB (backlog.projects b)
              ((λ k, if backlog.isTask (Intent_TaskID i) k && negb (absorbed (backlog.Task_State k))
                     then backlog.setTaskState (TargetTaskState i) t k else k) <$> backlog.tasks b)
              (backlog.attachments b) (backlog.sequences b) (backlog.trail b)) d.

Definition outcomeDecided : string := "run.outcome_decided".
Definition outcomePayload (ws : string) (i : FinalizeIntent) : list (string * audit.Val) :=
  [("outcome", audit.VString (Intent_Outcome i)); ("run_terminal", audit.VString (RunTerminal i));
   ("base_sha", audit.VString (Intent_BaseSHA i)); ("actual_head_sha", audit.VString (ActualHeadSHA i));
   ("git_status_empty", audit.VBool (GitStatusEmpty i)); ("commit_sha", audit.VString (Intent_CommitSHA i));
   ("result_branch", audit.VString (Intent_ResultBranch i)); ("engine", audit.VString (Intent_Engine i));
   ("model", audit.VString (Intent_Model i)); ("run_id", audit.VString (Intent_RunID i));
   ("workspace_id", audit.VString ws); ("task_id", audit.VString (Intent_TaskID i))].

(** The terminal transaction: [Some] when this caller won the claim. *)
Definition terminalTx (ws : string) (i : FinalizeIntent) (t : Time) (d : DB) : result Error (option DB) :=
  match claim ws i t d with
  | None => Ok None
  | Some d =>
      match auditTx (svc_audit s) ws outcomeDecided (outcomePayload ws i) (endTask i t d) with
      | Err e => Err (ErrAuditRow e)
      | Ok d => Ok (Some (DeleteFinalizeIntent ws d))
      end
  end.

Definition commitTerminal (ws : Workspace) (i : FinalizeIntent) (changed : list string) : M FinalizeResult :=
  let req := mkFinalizeRequest (ID ws) noEvent (mkInspection (ActualHeadSHA i) "" "" "" changed) (Intent_TaskID i)
               (Intent_Engine i) (Intent_Model i) (Intent_RunID i) in
  let found fresh := _ ← deleteIntent (ID ws); idempotentResult fresh req (toOutcome (Intent_Outcome i)) in
  fresh ← wsp (Get (ID ws));
  if isWorkspaceTerminal (State_ fresh) then found fresh
  else
    t ← wsp now;
    won ← attempt_ (λ w, match terminalTx (ID ws) i t (db w) with
                         | Ok (Some d) => (Ok true, withDB d w)
                         | Ok None => (Ok false, w)
                         | Err e => (Err e, w)
                         end);
    if negb won then fresh ← wsp (Get (ID ws)); found fresh
    else
      mret (mkFinalizeResult (toOutcome (Intent_Outcome i)) (ID ws) (Intent_TaskID i) (Path ws) (Intent_BaseSHA i)
              (ActualHeadSHA i) (Intent_CommitSHA i) (Intent_ResultBranch i) changed (Intent_Engine i) (Intent_Model i)
              (Intent_RunID i) false).

Definition resumeFromIntent (ws : Workspace) (i : FinalizeIntent) (req : FinalizeRequest) : M FinalizeResult :=
  if isWorkspaceTerminal (State_ ws) then _ ← deleteIntent (ID ws); idempotentResult ws req (toOutcome (Intent_Outcome i))
  else
    _ ← (if bool_decide (ExpectedRefSHA i = "") then mret ()
         else existing ← wsp (ResolveResultRef (TaskID ws) (Path ws));
              if negb (bool_decide (existing = "")) && negb (bool_decide (existing = ExpectedRefSHA i))
              then Throw (ErrResultRefConflict (ID ws) (TaskID ws) (Intent_ResultBranch i) existing (ExpectedRefSHA i))
              else mret ());
    i ← (if bool_decide (Phase i = FinalizePhasePending) then ensureRefForIntent ws i else mret i);
    commitTerminal ws i (ChangedFiles i).

(** The intent [Finalize] records. *)
Definition newIntent (ws : Workspace) (req : FinalizeRequest) (term : Terminal) (o : Outcome) (taskTo : backlog.State)
    (t : Time) : FinalizeIntent :=
  let head := ActualHEAD (Req_Inspection req) in
  mkFinalizeIntent (ID ws) (Req_TaskID req) (Outcome_String o) (Terminal_String term) (Req_RunID req) (Req_Engine req)
    (Req_Model req) (BaseSHA ws) head (if CreatesResultRef o then head else "")
    (if CreatesResultRef o then FullyQualifiedResultBranch (TaskID ws) else "")
    (if bool_decide (o = OutcomeCompletedWithCommit) then head else "")
    (bool_decide (StatusPorcelain (Req_Inspection req) = "")) (Inspection_ChangedFiles (Req_Inspection req))
    (WorkspaceState o) taskTo FinalizePhasePending t t.

Definition Finalize (req : FinalizeRequest) : M FinalizeResult :=
  ws ← wsp (Get (Req_WorkspaceID req));
  let c := ClassifyFromEvent (TerminalEvent req) (Req_Inspection req) (BaseSHA ws) in
  let outcome := Classify c in
  if isWorkspaceTerminal (State_ ws) then idempotentResult ws req outcome
  else
    existing ← catch (wsp (sql (GetFinalizeIntent (ID ws))));
    match existing with
    | Ok i => resumeFromIntent ws i req
    | Err (ErrWorkspace (ErrStorage ErrFinalizeIntentNotFound)) =>
        if negb (allowedTransition (State_ ws) (WorkspaceState outcome))
        then Throw (ErrIllegalTransition (ID ws) (State_ ws) (WorkspaceState outcome))
        else
          let a := backlog.ActionForOutcome (Outcome_String outcome) in
          tk ← query (λ w, match backlog.Get (Req_TaskID req) (base (db w)) with
                           | Ok (tk, _) => Ok tk
                           | Err e => Err (ErrTask e)
                           end);
          match taskTransitionFor tk a with
          | None =>
              let fail := Throw (ErrTaskTransition (backlog.Task_State tk) a) in
              if backlog.IsTerminal (backlog.Task_State tk) then
                fresh ← wsp (Get (ID ws));
                if isWorkspaceTerminal (State_ fresh)
                then _ ← deleteIntent (ID ws); idempotentResult fresh req outcome
                else fail
              else fail
          | Some taskTo =>
              t ← wsp now;
              let i := newIntent ws req (Terminal_ c) outcome taskTo t in
              _ ← sqlStmt (UpsertFinalizeIntent i);
              i ← ensureRefForIntent ws i;
              commitTerminal ws i (Inspection_ChangedFiles (Req_Inspection req))
          end
    | Err e => Throw e
    end.

(** [RecoverPendingFinalizations]: each listed intent on its own. *)
Definition recoverOne (i : FinalizeIntent) : M (option FinalizeResult) :=
  ws ← wsp (Get (Intent_WorkspaceID i));
  if isWorkspaceTerminal (State_ ws) then _ ← deleteIntent (ID ws); mret None
  else
    let ins := mkInspection (ActualHeadSHA i) "" "" "" (ChangedFiles i) in
    let ev := agent.mkNormalizedEvent agent.EventRunCompleted None None None None None in
    res ← resumeFromIntent ws i
            (mkFinalizeRequest (ID ws) ev ins (Intent_TaskID i) (Intent_Engine i) (Intent_Model i) (Intent_RunID i));
    mret (Some res).
Fixpoint recoverAll (l : list FinalizeIntent) : M (list FinalizeResult * list (string * Error)) :=
  match l with
  | [] => mret ([], [])
  | i :: l =>
      r ← catch (recoverOne i);
      '(results, errs) ← recoverAll l;
      mret match r with
           | Ok (Some res) => (res :: results, errs)
           | Ok None => (results, errs)
           | Err e => (results, (Intent_WorkspaceID i, e) :: errs)
           end
  end.
Definition RecoverPendingFinalizations : M (list FinalizeResult * list (string * Error)) :=
  l ← wsp (sql (λ d, Ok (ListFinalizeIntents d))); recoverAll l.

End protocol.

(** ** What Git promises about refs *)

(** [refs x repo ref]: the object a ref of a repository points at, empty when
    there is none.  Reading commands leave every ref alone; a successful
    [update-ref] sets one; a failed one sets none. *)
Class GitRefs (X : Type) `{!External X} := {
  repoOf : string → string;
  refs : X → string → string → string;
  for_each_ref dir ref x : dir ≠ "" →
    let '(r, x') := git ["-C"; dir; "for-each-ref"; "--format=%(objectname)"; ref] x in
    refs x' = refs x ∧ ∀ out, r = Ok out → strs.TrimSpace out = refs x (repoOf dir) ref;
  common_dir dir x : dir ≠ "" →
    let '(r, x') := git ["-C"; dir; "rev-parse"; "--git-common-dir"] x in
    refs x' = refs x ∧ ∀ out, r = Ok out → strs.TrimSpace out ≠ "" → repoOf (strs.TrimSpace out) = repoOf dir;
  update_ref dir ref sha x : dir ≠ "" →
    let '(r, x') := git ["-C"; dir; "update-ref"; ref; sha] x in
    match r with
    | Ok _ => ∀ repo ref', refs x' repo ref' = if decide (repo = repoOf dir ∧ ref' = ref) then sha else refs x repo ref'
    | Err _ => refs x' = refs x
    end }.

(** ** Rows *)

Definition row (id : string) (d : DB) : option Workspace := List.find (isWorkspace id) (workspaces d).

Lemma row_Some id d r : row id d = Some r → r ∈ workspaces d ∧ ID r = id.
Proof. intros [Hin Hid]%List.find_some. apply bool_decide_eq_true in Hid. by apply list_elem_of_In in Hin. Qed.

Lemma row_elem d r : NoDup (ID <$> workspaces d) → r ∈ workspaces d → row (ID r) d = Some r.
Proof.
  unfold row. induction (workspaces d) as [|x l IH]; intros Hnd Hin; [by apply elem_of_nil in Hin|].
  apply NoDup_cons in Hnd as [Hx Hnd]. cbn. apply elem_of_cons in Hin as [->|Hin].
  - unfold isWorkspace. by rewrite bool_decide_true.
  - unfold isWorkspace. rewrite bool_decide_false; [by apply IH|]. intros Heq. apply Hx. rewrite Heq.
    by apply list_elem_of_fmap_2.
Qed.

Lemma row_GetWorkspace id d r : GetWorkspace id d = Ok r ↔ row id d = Some r.
Proof. unfold GetWorkspace, row. destruct (List.find _ _); naive_solver. Qed.

Lemma row_exists id d : existsb (isWorkspace id) (workspaces d) = true ↔ is_Some (row id d).
Proof.
  unfold row. destruct (List.find _ _) eqn:E.
  - apply List.find_some in E as [Hin Hp]. split; [by eauto|]. intros _. apply List.existsb_exists. eauto.
  - split; [|by intros [? [=]]]. intros (x & Hin & Hp)%List.existsb_exists.
    pose proof (List.find_none _ _ E x Hin) as Hf. congruence.
Qed.

(** An update that keeps the ids works row by row. *)
Lemma row_map id f l p n i b :
  (∀ w, ID (f w) = ID w) → row id (mkDB b (f <$> l) p n i) = f <$> row id (mkDB b l p n i).
Proof.
  intros Hf. unfold row. simpl. induction l as [|x l IH]; [done|]. cbn. unfold isWorkspace. rewrite Hf.
  case_bool_decide; [done|]. exact IH.
Qed.

(** Finished by a run, or reviewed after that. *)
Definition reviewed (st : State) : bool := match st with StateKept | StateRejected | StateDeleted => true | _ => false end.
Definition closed (st : State) : bool :=
  match st with
  | StateCompleted | StateFailed | StateCancelled | StateTimedOut => true
  | st => reviewed st
  end.

Lemma closed_terminal st : closed st = true → isWorkspaceTerminal st = true.
Proof. by destruct st. Qed.
Lemma closed_target o : closed (WorkspaceState o) = true.
Proof. by destruct o. Qed.
Lemma toOutcome_String o : (∀ t, o ≠ OutcomeOther t) → toOutcome (Outcome_String o) = o.
Proof. destruct o; try done. intros H. by destruct (H s). Qed.
Lemma Classify_known c t : Classify c ≠ OutcomeOther t.
Proof. unfold Classify. repeat case_match; done. Qed.

Section protocol_proofs.
  Context {X : Type} `{!External X, !GitRefs X} (s : Service).
  (** The task of a workspace id, and the commit the runs of a result ref agree on. *)
  Context (taskOf : string → string) (agreed : string → string).
  Abbreviation W := (World X).
  Abbreviation FQ := FullyQualifiedResultBranch.
  Abbreviation trail w := (backlog.trail (base (db w))).

(** Decision rows of the audit trail. *)
Definition isDecision (id : string) (e : audit.AuditEvent) : Prop :=
  audit.AuditEvent_Type e = outcomeDecided ∧ audit.AuditEvent_ScopeID e = id.
#[export] Instance isDecision_dec id e : Decision (isDecision id e).
Proof. unfold isDecision. apply _. Defined.
Definition decisions (id : string) (w : W) : list audit.AuditEvent :=
  @filter _ (list audit.AuditEvent) _ (isDecision id) _ (trail w).
Definition decidedAs (w : W) (id : string) (o : Outcome) : Prop :=
  ∃ e t, e ∈ decisions id w ∧ audit.AuditEvent_Payload e !! "outcome" = Some (audit.VString t) ∧ toOutcome t = o.

Definition settled (r r' : Workspace) : Prop :=
  (State_ r' = State_ r ∨ reviewed (State_ r') = true) ∧ ResultSHA r' = ResultSHA r ∧ ResultBranch r' = ResultBranch r.

(** What any step of the system may do. *)
Record evolves (w w' : W) : Prop := {
  ev_rows : ∀ id r, row id (db w) = Some r →
    ∃ r', row id (db w') = Some r' ∧ TaskID r' = TaskID r ∧ Path r' = Path r ∧
      (closed (State_ r) = true → settled r r');
  ev_trail : trail w `prefix_of` trail w';
  ev_refs : ∀ repo t, refs (ext w) repo (FQ t) = agreed (FQ t) → refs (ext w') repo (FQ t) = agreed (FQ t) }.

(** A well-formed intent: its target is its outcome's, and a ref it wants is the
    agreed one. *)
Record good (i : FinalizeIntent) : Prop := {
  good_target : TargetWSState i = WorkspaceState (toOutcome (Intent_Outcome i));
  good_ref : ExpectedRefSHA i ≠ "" → ExpectedRefSHA i = agreed (FQ (taskOf (Intent_WorkspaceID i))) ∧
               Intent_ResultBranch i = FQ (taskOf (Intent_WorkspaceID i));
  good_wants : CreatesResultRef (toOutcome (Intent_Outcome i)) = true → ExpectedRefSHA i ≠ "" }.

(** The ref an intent wants is there. *)
Definition established (w : W) (id : string) (sha : string) : Prop :=
  sha ≠ "" → ∃ r, row id (db w) = Some r ∧ refs (ext w) (repoOf (Path r)) (FQ (taskOf id)) = sha.

(** What is known about a stored intent. *)
Definition vouched (w : W) (i : FinalizeIntent) : Prop :=
  good i ∧ is_Some (row (Intent_WorkspaceID i) (db w)) ∧
  (Phase i ≠ FinalizePhasePending → established w (Intent_WorkspaceID i) (ExpectedRefSHA i)).

(** What a decision row says about the workspace. *)
Definition recorded (w : W) (e : audit.AuditEvent) : Prop :=
  ∃ r t, row (audit.AuditEvent_ScopeID e) (db w) = Some r ∧
    audit.AuditEvent_Payload e !! "outcome" = Some (audit.VString t) ∧ closed (State_ r) = true ∧
    (State_ r = WorkspaceState (toOutcome t) ∨ reviewed (State_ r) = true) ∧
    (CreatesResultRef (toOutcome t) = true →
       let ref := FQ (taskOf (audit.AuditEvent_ScopeID e)) in
       ResultSHA r = agreed ref ∧ ResultBranch r = ref ∧ refs (ext w) (repoOf (Path r)) ref = agreed ref).

Record inv (w : W) : Prop := {
  inv_ids : NoDup (ID <$> workspaces (db w));
  inv_named : row "" (db w) = None;
  inv_row : ∀ id r, row id (db w) = Some r → TaskID r = taskOf id ∧ Path r ≠ "";
  inv_refs : ∀ repo t, refs (ext w) repo (FQ t) = "" ∨ refs (ext w) repo (FQ t) = agreed (FQ t);
  inv_intents : ∀ i, i ∈ intents (db w) → vouched w i;
  inv_unique : NoDup (Intent_WorkspaceID <$> intents (db w));
  inv_once : ∀ id, length (decisions id w) ≤ 1;
  inv_recorded : ∀ e, e ∈ trail w → audit.AuditEvent_Type e = outcomeDecided → recorded w e }.

#[export] Instance evolves_preorder : PreOrder evolves.
Proof.
  split.
  - intros w. constructor; [|done|done]. intros id r Hr. exists r. repeat split; try done. by left.
  - intros w1 w2 w3 H1 H2. constructor.
    + intros id r Hr. destruct (ev_rows _ _ H1 id r Hr) as (r2 & Hr2 & T2 & P2 & S2).
      destruct (ev_rows _ _ H2 id r2 Hr2) as (r3 & Hr3 & T3 & P3 & S3). exists r3.
      split; [done|]. split; [congruence|]. split; [congruence|]. intros Hc.
      destruct (S2 Hc) as ([E2|E2] & R2 & B2).
      * rewrite E2 in S3. destruct (S3 Hc) as (E3 & R3 & B3). split; [|split; congruence]. rewrite E2 in E3. tauto.
      * assert (closed (State_ r2) = true) as Hc2 by (by destruct (State_ r2)).
        destruct (S3 Hc2) as (E3 & R3 & B3). split; [|split; congruence]. right. destruct E3 as [->|]; done.
    + etrans; [apply H1|apply H2].
    + intros repo t Hr. by apply (ev_refs _ _ H2), (ev_refs _ _ H1).
Qed.

(** Facts a program may rely on once it has seen them. *)
Lemma established_stable w w' id sha :
  evolves w w' → sha = agreed (FQ (taskOf id)) ∨ sha = "" → established w id sha → established w' id sha.
Proof.
  intros Hev Hsha He Hne. destruct (He Hne) as (r & Hr & Href). destruct (ev_rows _ _ Hev id r Hr) as (r' & Hr' & _ & HP & _).
  exists r'. split; [done|]. rewrite HP. destruct Hsha as [->| ->]; [|done]. by apply (ev_refs _ _ Hev).
Qed.
Lemma good_sha i : good i → ExpectedRefSHA i = agreed (FQ (taskOf (Intent_WorkspaceID i))) ∨ ExpectedRefSHA i = "".
Proof. intros Hg. destruct (decide (ExpectedRefSHA i = "")); [by right|left]. by apply (good_ref i Hg). Qed.
Lemma vouched_stable w w' i : evolves w w' → vouched w i → vouched w' i.
Proof.
  intros Hev (Hg & [r Hr] & He). split; [done|]. split.
  - destruct (ev_rows _ _ Hev _ r Hr) as (r' & -> & _). done.
  - intros Hph. eapply established_stable; [exact Hev|by apply good_sha|by apply He].
Qed.
Lemma decidedAs_stable w w' id o : evolves w w' → decidedAs w id o → decidedAs w' id o.
Proof.
  intros Hev (e & t & He & Hp & Ho). exists e, t. split; [|done]. unfold decisions in *.
  destruct (ev_trail _ _ Hev) as [l ->]. rewrite filter_app, elem_of_app. by left.
Qed.
Definition known (ws : Workspace) (w : W) : Prop :=
  ∃ r, row (ID ws) (db w) = Some r ∧ TaskID r = TaskID ws ∧ Path r = Path ws.
Lemma known_stable ws w w' : evolves w w' → known ws w → known ws w'.
Proof.
  intros Hev (r & Hr & HT & HP). destruct (ev_rows _ _ Hev _ r Hr) as (r' & Hr' & HT' & HP' & _).
  exists r'. split; [done|]. split; congruence.
Qed.
Lemma recorded_stable w w' e : evolves w w' → recorded w e → recorded w' e.
Proof.
  intros Hev (r & t & Hr & Hp & Hc & Hs & Href). destruct (ev_rows _ _ Hev _ r Hr) as (r' & Hr' & _ & HP & Hset).
  destruct (Hset Hc) as (Est & Esha & Ebr). exists r', t. split; [done|]. split; [done|].
  split; [destruct Est as [->|H]; [done|by destruct (State_ r')]|].
  split; [destruct Est as [->|]; [done|by right]|]. intros Hcr. destruct (Href Hcr) as (H1 & H2 & H3). cbv zeta.
  rewrite Esha, Ebr, HP. split; [done|]. split; [done|]. by apply (ev_refs _ _ Hev).
Qed.

(** ** The steps of the protocol *)

Lemma decisions_app id w d l :
  backlog.trail (base d) = trail w ++ l → decisions id (withDB d w) = decisions id w ++ filter (isDecision id) l.
Proof. unfold decisions. intros H. cbn [withDB db]. rewrite H. apply filter_app. Qed.

(** A statement that touches neither workspaces nor decisions. *)
Lemma step_db w d l :
  workspaces d = workspaces (db w) → backlog.trail (base d) = trail w ++ l →
  (∀ e, e ∈ l → audit.AuditEvent_Type e ≠ outcomeDecided) →
  (∀ i, i ∈ intents d → i ∈ intents (db w) ∨ vouched w i) → NoDup (Intent_WorkspaceID <$> intents d) →
  inv w → inv (withDB d w) ∧ evolves w (withDB d w).
Proof.
  intros Hws Htr Hl Hin Huniq Hi. assert (∀ id, row id d = row id (db w)) as Hrow by (intros id; unfold row; by rewrite Hws).
  assert (∀ id, decisions id (withDB d w) = decisions id w) as Hdec.
  { intros id. rewrite (decisions_app id w d l Htr). assert (filter (isDecision id) l = []) as ->.
    { apply elem_of_nil_inv. intros e [[He _] Hel]%list_elem_of_filter. by apply (Hl e). } by rewrite app_nil_r. }
  split.
  - constructor; cbn [withDB db ext].
    + rewrite Hws. apply Hi.
    + rewrite Hrow. apply Hi.
    + intros id r. rewrite Hrow. apply Hi.
    + apply Hi.
    + intros i Hii. assert (vouched w i) as (Hg & Hr & He) by (destruct (Hin i Hii); [by apply Hi|done]).
      split; [done|]. cbn [withDB db ext]. rewrite Hrow. split; [done|]. intros Hph Hne. cbn [withDB db ext]. rewrite Hrow.
      by apply He.
    + done.
    + intros id. rewrite Hdec. apply Hi.
    + intros e. rewrite Htr. intros [He|He]%elem_of_app Hty; [|by apply Hl in He].
      destruct (inv_recorded w Hi e He Hty) as (r & t & Hr & H). exists r, t. cbn [withDB db ext]. by rewrite Hrow.
  - constructor; cbn [withDB db ext].
    + intros id r Hr. exists r. rewrite Hrow. repeat split; try done. by left.
    + rewrite Htr. by exists l.
    + done.
Qed.

(** An external step that at most brings agreed result refs into being. *)
Lemma step_ext w x :
  (∀ repo t, refs x repo (FQ t) = refs (ext w) repo (FQ t) ∨ refs x repo (FQ t) = agreed (FQ t)) →
  inv w → inv (withExt x w) ∧ evolves w (withExt x w).
Proof.
  intros Hx Hi. assert (∀ repo t, refs (ext w) repo (FQ t) = agreed (FQ t) → refs x repo (FQ t) = agreed (FQ t)) as Hst.
  { intros repo t Hr. destruct (Hx repo t) as [->|]; done. }
  assert (evolves w (withExt x w)) as Hev.
  { constructor; cbn [withExt db ext]; [|done|exact Hst]. intros id r Hr. exists r. repeat split; try done. by left. }
  split; [|done]. constructor; cbn [withExt db ext].
  - apply Hi.
  - apply Hi.
  - apply Hi.
  - intros repo t. destruct (Hx repo t) as [->|]; [apply Hi|by right].
  - intros i Hii. eapply vouched_stable; [exact Hev|by apply Hi].
  - apply Hi.
  - apply Hi.
  - intros e He Hty. by eapply recorded_stable, Hi.
Qed.

Lemma step_clock w t : inv w → inv (mkWorld (db w) (ext w) t) ∧ evolves w (mkWorld (db w) (ext w) t).
Proof.
  intros Hi. split; [by destruct Hi|]. constructor; [|done|done]. intros id r Hr. exists r. repeat split; try done. by left.
Qed.

Lemma claim_row id i t d d' :
  NoDup (ID <$> workspaces d) → claim id i t d = Some d' →
  ∃ r, row id d = Some r ∧ State_ r = StateActive ∧ row id d' = Some (claimedRow i t r) ∧
    (∀ id', id' ≠ id → row id' d' = row id' d) ∧ ID <$> workspaces d' = ID <$> workspaces d ∧
    base d' = base d ∧ intents d' = intents d.
Proof.
  intros Hnd. unfold claim. destruct (existsb _ _) eqn:E; [|done]. intros [= <-].
  apply existsb_elem in E as (r & Hin & Hc). unfold isClaimable in Hc.
  apply andb_true_iff in Hc as [Hid Hact]. unfold isWorkspace in Hid. apply bool_decide_eq_true in Hid, Hact.
  set (f := λ w, if isClaimable id w then claimedRow i t w else w).
  assert (∀ w, ID (f w) = ID w) as Hf by (intros w; unfold f; by destruct (isClaimable id w)).
  assert (∀ id', row id' (withWorkspaces (f <$> workspaces d) d) = f <$> row id' d) as Hrow.
  { intros id'. unfold withWorkspaces. rewrite row_map by done. by destruct d. }
  assert (row id d = Some r) as Hr by (rewrite <-Hid; by apply row_elem).
  exists r. split; [done|]. split; [done|]. split; [|split; [|split; [|done]]].
  - rewrite Hrow, Hr. simpl. unfold f, isClaimable, isWorkspace. by rewrite !bool_decide_true.
  - intros id' Hne. rewrite Hrow. destruct (row id' d) as [r'|] eqn:Er; [|done]. apply row_Some in Er as [_ Er]. simpl.
    unfold f, isClaimable, isWorkspace. by rewrite bool_decide_false by congruence.
  - cbn. rewrite <-list_fmap_compose. apply list_fmap_ext. intros k w _. apply Hf.
Qed.

(** The row the terminal transaction adds to the trail, if the service audits. *)
Definition decisionRow (id : string) (i : FinalizeIntent) (e : audit.AuditEvent) : Prop :=
  audit.AuditEvent_Type e = outcomeDecided ∧ audit.AuditEvent_ScopeID e = id ∧
  audit.AuditEvent_Payload e !! "outcome" = Some (audit.VString (Intent_Outcome i)).

Lemma audit_decision id i d d' :
  id ≠ "" → auditTx (svc_audit s) id outcomeDecided (outcomePayload id i) d = Ok d' →
  ∃ l, backlog.trail (base d') = backlog.trail (base d) ++ l ∧
    (svc_audit s = None ∧ l = [] ∨ is_Some (svc_audit s) ∧ ∃ e, l = [e] ∧ decisionRow id i e) ∧
    backlog.tasks (base d') = backlog.tasks (base d) ∧ workspaces d' = workspaces d ∧ intents d' = intents d.
Proof.
  intros Hid. unfold auditTx. destruct (svc_audit s) as [rec|].
  - unfold audit.Record_, audit.recordInto. destruct (bool_decide _); [done|]. destruct (audit.store_ok _ _); [|done].
    intros [= <-]. eexists. split; [reflexivity|]. split; [|done]. right. split; [done|]. eexists. split; [reflexivity|].
    split; [done|]. split; [cbn; unfold audit.orDefault; by rewrite bool_decide_false|]. reflexivity.
  - intros [= <-]. exists []. rewrite app_nil_r. split; [done|]. split; [by left|done].
Qed.

Lemma terminalTx_Some id i t d d' :
  NoDup (ID <$> workspaces d) → id ≠ "" → terminalTx s id i t d = Ok (Some d') →
  ∃ r l, row id d = Some r ∧ State_ r = StateActive ∧ row id d' = Some (claimedRow i t r) ∧
    (∀ id', id' ≠ id → row id' d' = row id' d) ∧ ID <$> workspaces d' = ID <$> workspaces d ∧
    backlog.trail (base d') = backlog.trail (base d) ++ l ∧
    (svc_audit s = None ∧ l = [] ∨ is_Some (svc_audit s) ∧ ∃ e, l = [e] ∧ decisionRow id i e) ∧
    backlog.tasks (base d') = backlog.tasks (base (endTask i t d)) ∧
    intents d' = filter (λ j, Intent_WorkspaceID j ≠ id) (intents d).
Proof.
  intros Hnd Hid. unfold terminalTx. destruct (claim id i t d) as [d1|] eqn:Ec; [|done].
  destruct (auditTx _ _ _ _ _) as [d2|e] eqn:Ea; [|done]. intros [= <-].
  destruct (claim_row _ _ _ _ _ Hnd Ec) as (r & Hr & Hact & Hr1 & Hoth & Hids & Hb & Hint).
  apply audit_decision in Ea as (l & Htr & Hl & Htk & Hws & Hii); [|done].
  exists r, l. cbn in *. rewrite Hb in Htr, Htk. rewrite Hws, Hii, Hint. unfold row in *. cbn. rewrite ?Hws. done.
Qed.

(** The terminal transaction of a good intent whose ref is established. *)
Lemma step_terminal id i t w d' :
  good i → Intent_WorkspaceID i = id → established w id (ExpectedRefSHA i) → inv w →
  terminalTx s id i t (db w) = Ok (Some d') →
  inv (withDB d' w) ∧ evolves w (withDB d' w) ∧
  (is_Some (svc_audit s) → decidedAs (withDB d' w) id (toOutcome (Intent_Outcome i))).
Proof.
  intros Hg Hiid Hest Hi Htx.
  assert (id ≠ "") as Hid.
  { intros ->. unfold terminalTx in Htx. destruct (claim "" i t (db w)) eqn:Ec; [|done].
    apply claim_row in Ec as (r & Hr & _); [|apply Hi]. by rewrite (inv_named w Hi) in Hr. }
  destruct (terminalTx_Some _ _ _ _ _ (inv_ids w Hi) Hid Htx)
    as (r & l & Hr & Hact & Hr' & Hoth & Hids & Htr & Hl & _ & Hint).
  assert (∀ r0, row id (db w) = Some r0 → closed (State_ r0) = false) as Hopen.
  { intros r0. rewrite Hr. intros [= <-]. by rewrite Hact. }
  assert (decisions id w = []) as Hnone.
  { apply elem_of_nil_inv. intros e [[Hty Hsc] He]%list_elem_of_filter.
    destruct (inv_recorded w Hi e He Hty) as (r0 & o & Hr0 & _ & Hc & _). rewrite Hsc in Hr0.
    by rewrite (Hopen _ Hr0) in Hc. }
  assert (evolves w (withDB d' w)) as Hev.
  { constructor; cbn [withDB db ext]; [|by exists l|done]. intros id0 r0 Hr0. destruct (decide (id0 = id)) as [->|Hne].
    - rewrite Hr in Hr0. injection Hr0 as <-. exists (claimedRow i t r). split; [done|]. split; [done|]. split; [done|].
      by rewrite Hact.
    - exists r0. rewrite Hoth by done. repeat split; try done. by left. }
  split; [|split; [done|]].
  - constructor; cbn [withDB db ext].
    + rewrite Hids. apply Hi.
    + rewrite Hoth by done. apply Hi.
    + intros id0 r0 Hr0. destruct (decide (id0 = id)) as [->|Hne]; [|rewrite Hoth in Hr0 by done; by apply Hi].
      rewrite Hr' in Hr0. injection Hr0 as <-. cbn. by apply Hi.
    + apply Hi.
    + intros j. rewrite Hint. intros [_ Hj]%list_elem_of_filter. eapply vouched_stable; [exact Hev|by apply Hi].
    + rewrite Hint. apply NoDup_fmap_filter, Hi.
    + intros id0. rewrite (decisions_app id0 w d' l Htr), length_app. destruct (decide (id0 = id)) as [->|Hne].
      * rewrite Hnone. destruct Hl as [[_ ->]|[_ (e & -> & _)]]; [cbn; lia|]. rewrite filter_cons. case_decide; cbn; lia.
      * assert (filter (isDecision id0) l = []) as ->; [|rewrite Nat.add_0_r; apply Hi].
        apply elem_of_nil_inv. intros e [[_ Hsc] He]%list_elem_of_filter.
        destruct Hl as [[_ ->]|[_ (e' & -> & _ & Hsc' & _)]]; [by apply elem_of_nil in He|].
        apply list_elem_of_singleton in He as ->. congruence.
    + intros e. rewrite Htr. intros [He|He]%elem_of_app Hty; [by eapply recorded_stable, Hi|].
      destruct Hl as [[_ ->]|[_ (e' & -> & _ & Hsc & Hpay)]]; [by apply elem_of_nil in He|].
      apply list_elem_of_singleton in He as ->. exists (claimedRow i t r), (Intent_Outcome i). cbn [withDB db ext].
      rewrite Hsc. split; [done|]. split; [done|]. cbn [claimedRow State_ ResultSHA ResultBranch Path].
      rewrite (good_target i Hg). split; [apply closed_target|]. split; [by left|]. intros Hcr.
      pose proof (good_wants i Hg Hcr) as Hne. destruct (good_ref i Hg Hne) as [Hsha Hbr].
      destruct (Hest Hne) as (r0 & Hr0 & Href). rewrite Hr in Hr0. injection Hr0 as <-.
      rewrite Hbr, Hsha, Hiid in *. unfold orElse. rewrite !bool_decide_false by done. split; [done|]. split; [done|].
      by rewrite Href.
  - intros [rec Hrec]. destruct Hl as [[Hn _]|[_ (e & -> & He)]]; [by rewrite Hn in Hrec|].
    exists e, (Intent_Outcome i). split; [|split; [apply He|done]]. rewrite (decisions_app id w d' [e] Htr), Hnone.
    rewrite filter_cons_True; [by left|]. split; apply He.
Qed.
(** ** What each part promises, whatever happens around it *)

Abbreviation spec := (wp inv evolves evolves).

Lemma stable_true {A} : stable inv evolves (λ (_ : A) (_ : W), True).
Proof. done. Qed.
Lemma stable_pure {A} (P : A → Prop) : stable inv evolves (λ a (_ : W), P a).
Proof. by intros a w w'. Qed.
Lemma stable_ok {E A} (P : A → W → Prop) :
  stable inv evolves P → stable inv evolves (λ (r : result E A) w, ∀ a, r = Ok a → P a w).
Proof. intros HP r w w' HR Hi H a ->. eapply HP; eauto. Qed.

Lemma spec_seq {E A B} (p : proc W E A) (f : A → proc W E B) (P : result E A → W → Prop) (Q : result E B → W → Prop) w :
  inv w → spec p P w → (∀ a w', inv w' → evolves w w' → P (Ok a) w' → spec (f a) Q w') →
  (∀ e w', inv w' → evolves w w' → P (Err e) w' → Q (Err e) w') → spec (p ≫= f) Q w.
Proof. intros Hi Hp Hf He. by eapply wp_seq; [apply _|done|exact Hi|exact Hp|..]. Qed.

Lemma spec_try {E E' A B} (p : proc W E A) (f : result E A → proc W E' B) (P : result E A → W → Prop)
    (Q : result E' B → W → Prop) w :
  inv w → spec p P w → (∀ r w', inv w' → evolves w w' → P r w' → spec (f r) Q w') → spec (catch p ≫= f) Q w.
Proof. intros Hi Hp Hf. by eapply wp_try; [apply _|done|exact Hi|exact Hp|]. Qed.

Lemma spec_wsp {A} (p : proc W workspace.Error A) (Q : result Error A → W → Prop) w :
  spec p (λ r w', Q (match r with Ok a => Ok a | Err e => Err (ErrWorkspace e) end) w') w → spec (wsp p) Q w.
Proof. apply wp_mapErr. Qed.

Lemma spec_now w : spec (wsp now) (λ _ _, True) w.
Proof. apply spec_wsp. by apply wp_read; [apply _| |]. Qed.

Lemma spec_Get id w :
  spec (wsp (Get id)) (λ r w', ∀ ws, r = Ok ws → ID ws = id ∧ known ws w') w.
Proof.
  apply spec_wsp, wp_query; [apply _| |].
  - intros r w1 w2 HR _ H ws Hws. destruct (H ws Hws). split; [done|]. by eapply known_stable.
  - intros w' _ Hi ws. destruct (GetWorkspace id (db w')) as [x|e] eqn:E; [|done]. intros [= <-].
    apply row_GetWorkspace in E. pose proof (row_Some _ _ _ E) as [_ Hid]. split; [done|]. exists x. by rewrite Hid.
Qed.

Lemma spec_stmt (f : DB → result wsrows.Error DB) w :
  (∀ w' d, inv w' → f (db w') = Ok d → inv (withDB d w') ∧ evolves w' (withDB d w')) →
  spec (sqlStmt f) (λ _ _, True) w.
Proof.
  intros H. apply wp_attempt; [done|]. intros w' _ Hi. destruct (f (db w')) eqn:E; cbn; [|done].
  destruct (H w' a Hi E). done.
Qed.

Lemma spec_deleteIntent id w : spec (deleteIntent id) (λ _ _, True) w.
Proof.
  apply spec_stmt. intros w' d Hi [= <-]. eapply (step_db _ _ []); cbn; [done|by rewrite app_nil_r| | | |done].
  - by intros e ?%elem_of_nil.
  - intros i [_ Hin]%list_elem_of_filter. by left.
  - apply NoDup_fmap_filter, Hi.
Qed.

Lemma good_replace i old :
  Intent_WorkspaceID old = Intent_WorkspaceID i → good i → good (replaceIntent i old).
Proof. intros Hid [H1 H2 H3]. constructor; cbn; rewrite ?Hid; done. Qed.

Lemma existsb_row id d : existsb (isWorkspace id) (workspaces d) = true → is_Some (row id d).
Proof. by intros ?%row_exists. Qed.

Lemma upsert_step i w d :
  good i → (Phase i ≠ FinalizePhasePending → established w (Intent_WorkspaceID i) (ExpectedRefSHA i)) → inv w →
  UpsertFinalizeIntent i (db w) = Ok d → inv (withDB d w) ∧ evolves w (withDB d w).
Proof.
  intros Hg He Hi Hu.
  assert (∀ l, (∀ j, j ∈ l → j ∈ intents (db w) ∨ vouched w j) → NoDup (Intent_WorkspaceID <$> l) →
          inv (withDB (withIntents l (db w)) w) ∧ evolves w (withDB (withIntents l (db w)) w)) as Hstep.
  { intros l Hl Hu'. eapply (step_db _ _ []); cbn; [done|by rewrite app_nil_r|by intros e ?%elem_of_nil|exact Hl|done|done]. }
  unfold UpsertFinalizeIntent in Hu. destruct (existsb _ (intents _)) eqn:E0;
    [|destruct (existsb _ (workspaces _)) eqn:E; [|done]]; injection Hu as <-; (apply Hstep; [intros j Hj|]).
  - apply list_elem_of_fmap in Hj as (o & -> & Ho). unfold isIntent. case_bool_decide as Hid; [right|by left].
    pose proof (inv_intents w Hi o Ho) as (_ & Hr & _). split; [by apply good_replace|]. split; [done|]. cbn. by rewrite Hid.
  - rewrite <-list_fmap_compose. erewrite list_fmap_ext; [apply Hi|]. intros k o _. cbn. by destruct (isIntent _ o).
  - apply elem_of_app in Hj as [Hj| ->%list_elem_of_singleton]; [by left|right]. split; [done|]. split; [|done].
    by apply existsb_row.
  - rewrite fmap_app. apply NoDup_app. split; [apply Hi|]. split; [|apply NoDup_singleton].
    intros x Hx ->%list_elem_of_singleton. apply list_elem_of_fmap in Hx as (o & Ho & Hin).
    assert (existsb (isIntent (Intent_WorkspaceID i)) (intents (db w)) = true) as Hb; [|congruence].
    apply existsb_elem. exists o. split; [done|]. by apply bool_decide_eq_true.
Qed.

Lemma spec_upsert i w :
  good i → (Phase i ≠ FinalizePhasePending → established w (Intent_WorkspaceID i) (ExpectedRefSHA i)) →
  spec (sqlStmt (UpsertFinalizeIntent i)) (λ _ _, True) w.
Proof.
  intros Hg Hest. apply wp_attempt; [done|]. intros w' HR Hi.
  destruct (UpsertFinalizeIntent i (db w')) as [d|e] eqn:E; cbn; [|done]. apply and_assoc. split; [|done].
  eapply upsert_step; [done| |done|done]. intros Hph.
  eapply established_stable; [exact HR|by apply good_sha|by apply Hest].
Qed.

Lemma spec_auditRecord id type_ p w : inv w → type_ ≠ outcomeDecided → spec (auditRecord s id type_ p) (λ _ _, True) w.
Proof.
  intros Hi0 Hty. unfold auditRecord. apply wp_ignore; [apply _|done|done|]. apply wp_attempt; [done|]. intros w' _ Hi.
  destruct (auditTx _ _ _ _ _) as [d|e] eqn:E; cbn; [|done]. unfold auditTx in E. destruct (svc_audit s) as [rec|].
  - unfold audit.Record_, audit.recordInto in E. destruct (bool_decide _) in E; [done|].
    destruct (audit.store_ok _ _) in E; [|done]. injection E as <-.
    apply and_assoc; split; [|done]; eapply step_db; cbn; try done; try (by left); try apply Hi.
    all: try by intros e ->%list_elem_of_singleton. all: intros i Hin; by left.
  - injection E as <-. assert (withDB (db w') w' = w') as -> by (by destruct w'). done.
Qed.

(** A Git command: what it does to the refs decides. *)
Lemma spec_git dir sub args (Q : result workspace.Error string → W → Prop) w :
  dir ≠ "" → bool_decide (sub ∈ forbiddenGitSubcommands) = false → bool_decide (sub ∈ allowedGitSubcommands) = true →
  stable inv evolves Q →
  (∀ w', evolves w w' → inv w' →
     let '(r, x) := git (["-C"; dir] ++ sub :: args) (ext w') in
     inv (withExt x w') ∧ evolves w' (withExt x w') ∧
     match r with Ok out => Q (Ok out) (withExt x w') | Err _ => ∀ e, Q (Err e) (withExt x w') end) →
  spec (runGit dir (sub :: args)) Q w.
Proof.
  intros Hdir Hf Ha HQ H. unfold runGit. rewrite Hf, Ha. cbn [negb]. rewrite bool_decide_false by done.
  intros w' HR Hi. specialize (H w' HR Hi). cbn. destruct (git _ (ext w')) as [r x]. destruct H as (Hi' & Hev & Hq).
  split; [done|]. split; [done|].
  destruct r as [out|[e|e]]; intros w'' HR' Hi''; (eapply HQ; [exact HR'|exact Hi''|]); [done|apply Hq|apply Hq].
Qed.

(** A result ref read or set. *)
Definition refIs (dir t sha : string) (w : W) : Prop := refs (ext w) (repoOf dir) (FQ t) = sha ∧ sha = agreed (FQ t).
Lemma refIs_stable dir t sha w w' : evolves w w' → refIs dir t sha w → refIs dir t sha w'.
Proof. intros HR [Hr ->]. split; [|done]. by apply (ev_refs _ _ HR). Qed.

Lemma spec_Resolve t dir w :
  dir ≠ "" → inv w →
  spec (ResolveResultRef t dir) (λ r w', ∀ out, r = Ok out → out ≠ "" → refIs dir t out w') w.
Proof.
  intros Hdir Hi0.
  assert (stable inv evolves (λ (r : result workspace.Error string) w', ∀ out, r = Ok out → out ≠ "" → refIs dir t out w'))
    as HQ by (intros r w1 w2 HR _ H out Ho Hne; eapply refIs_stable; [exact HR|by apply H]).
  set (P := λ (r : result workspace.Error string) (w' : W), ∀ out, r = Ok out →
              strs.TrimSpace out ≠ "" → refIs dir t (strs.TrimSpace out) w').
  eapply (spec_try _ _ P); [done| |].
  - apply spec_git; [done|done|done| |].
    + intros r w1 w2 HR Hi H out Ho Hne. eapply refIs_stable; [exact HR|]. by apply H.
    + intros w' HR Hi. pose proof (for_each_ref dir (FQ t) (ext w') Hdir) as H. cbn [app] in *.
      destruct (git _ (ext w')) as [r x]. destruct H as [Hx Hout].
      destruct (step_ext w' x) as [Hi' Hev]; [intros repo t0; left; by rewrite Hx|done|].
      split; [done|]. split; [done|]. destruct r as [out|e]; [|done]. intros out' [= <-] Hne.
      specialize (Hout out eq_refl). split; cbn; rewrite ?Hx, Hout; [done|].
      rewrite Hout in Hne. by destruct (inv_refs w' Hi (repoOf dir) t).
  - intros [out|e] w' Hi HR HP.
    + apply wp_ret; [done|]. intros o [= <-]. by apply HP.
    + case_match; [apply wp_ret|apply wp_throw]; try done. by intros o [= <-].
Qed.

Lemma spec_commonDir dir w :
  dir ≠ "" → inv w →
  spec (resolveCommonDir dir) (λ r _, ∀ cd, r = Ok cd → cd ≠ "" ∧ repoOf cd = repoOf dir) w.
Proof.
  intros Hdir Hi0. set (P := λ (r : result workspace.Error string) (_ : W), ∀ out, r = Ok out →
              strs.TrimSpace out ≠ "" → repoOf (strs.TrimSpace out) = repoOf dir).
  eapply (spec_try _ _ P); [done| |].
  - apply spec_git; [done|done|done|by intros r w1 w2|].
    intros w' HR Hi. pose proof (common_dir dir (ext w') Hdir) as H. cbn [app] in *.
    destruct (git _ (ext w')) as [r x]. destruct H as [Hx Hout].
    destruct (step_ext w' x) as [Hi' Hev]; [intros repo t0; left; by rewrite Hx|done|].
    split; [done|]. split; [done|]. destruct r as [out|e]; [|done]. intros out' [= <-]. by apply Hout.
  - intros r w' Hi HR HP. apply wp_ret; [by intros ? ? ?|]. intros cd [= <-]. destruct r as [out|e]; [|done].
    case_bool_decide; [done|]. split; [done|]. by apply (HP out).
Qed.

Lemma spec_Ensure ws w head :
  Path ws ≠ "" → head ≠ "" → head = agreed (FQ (TaskID ws)) → inv w →
  spec (EnsureResultRef ws head)
    (λ r w', ∀ ref, r = Ok ref → ref = FQ (TaskID ws) ∧ refIs (Path ws) (TaskID ws) head w') w.
Proof.
  intros Hp Hh Ha Hi0. unfold EnsureResultRef. rewrite !bool_decide_false by done.
  assert (stable inv evolves (λ (r : result workspace.Error string) w', ∀ ref, r = Ok ref →
            ref = FQ (TaskID ws) ∧ refIs (Path ws) (TaskID ws) head w')) as HQ.
  { intros r w1 w2 HR _ H ref Hr. destruct (H ref Hr) as [-> Href]. split; [done|]. by eapply refIs_stable. }
  eapply spec_seq; [done|by apply spec_Resolve| |done]. intros existing w1 Hi1 HR1 Hex. cbv beta in Hex.
  destruct (negb _ && negb _); [by apply wp_throw|]. case_bool_decide as E2.
  { subst existing. apply wp_ret; [done|]. intros ref [= <-]. split; [done|]. by apply Hex. }
  eapply spec_seq; [done|by apply spec_commonDir| |done]. intros cd w2 Hi2 HR2 Hcd.
  destruct (Hcd cd eq_refl) as [Hcd1 Hcd2].
  eapply (spec_seq _ _ (λ r w', is_ok r → refIs (Path ws) (TaskID ws) head w')); [done| | |done].
  - apply spec_git; [done|done|done| |].
    { intros r w3 w4 HR _ H Hok. eapply refIs_stable; [exact HR|]. by apply H. }
    intros w' HR Hi. pose proof (update_ref cd (FQ (TaskID ws)) head (ext w') Hcd1) as H. cbn [app] in *.
    destruct (git _ (ext w')) as [[out|e] x].
    + destruct (step_ext w' x) as [Hi' Hev]; [|done|].
      { intros repo t. rewrite H. case_decide as Hd; [right|by left]. destruct Hd as [-> Ht]. by rewrite Ht. }
      split; [done|]. split; [done|]. intros _. split; [|done]. cbn. rewrite H, decide_True; done.
    + destruct (step_ext w' x) as [Hi' Hev]; [intros; left; by rewrite H|done|]. split; [done|]. split; [done|]. by intros e' [].
  - intros out w3 Hi3 HR3 Hr. apply wp_ret; [done|]. intros ref [= <-]. split; [done|]. by apply Hr.
Qed.

(** What a result that this call itself decided promises. *)
Definition answered (r : result Error FinalizeResult) (w : W) : Prop :=
  ∀ res, r = Ok res → Idempotent res = false → is_Some (svc_audit s) → decidedAs w (Res_WorkspaceID res) (Outcome_ res).
Lemma answered_stable : stable inv evolves answered.
Proof. intros r w w' HR _ H res Hr Hid Ha. eapply decidedAs_stable; [exact HR|]. by apply H. Qed.

(** An intent whose ref, if it wants one, is in place. *)
Definition ready (ws : Workspace) (i : FinalizeIntent) (w : W) : Prop :=
  good i ∧ Intent_WorkspaceID i = ID ws ∧ established w (ID ws) (ExpectedRefSHA i).
Lemma ready_stable ws i w w' : evolves w w' → ready ws i w → ready ws i w'.
Proof.
  intros HR (Hg & Hid & He). split; [done|]. split; [done|]. eapply established_stable; [exact HR| |done].
  rewrite <-Hid. by apply good_sha.
Qed.

Lemma known_facts ws w : known ws w → inv w → TaskID ws = taskOf (ID ws) ∧ Path ws ≠ "".
Proof. intros (r & Hr & <- & <-) Hi. by apply (inv_row w Hi). Qed.

Lemma spec_ensureRefForIntent ws i w :
  known ws w → good i → Intent_WorkspaceID i = ID ws → inv w →
  spec (ensureRefForIntent ws i) (λ r w', ∀ i', r = Ok i' → ready ws i' w') w.
Proof.
  intros Hk Hg Hid Hi0. destruct (known_facts ws w Hk Hi0) as [HT HP]. unfold ensureRefForIntent.
  assert (stable inv evolves (λ (r : result Error FinalizeIntent) w', ∀ i', r = Ok i' → ready ws i' w')) as HQ.
  { intros r w1 w2 HR _ H i' Hr. eapply ready_stable; [exact HR|]. by apply H. }
  eapply spec_seq; [done| |intros i' w1 Hi1 HR1 HP1|done].
  { instantiate (1 := λ r w', ∀ i', r = Ok i' → ready ws i' w'). case_bool_decide as Hsha.
    - apply wp_ret; [done|]. intros i' [= <-]. split; [done|]. by split; [|intros ?].
    - destruct (good_ref i Hg Hsha) as [Ha Hb]. rewrite Hid, <-HT in Ha.
      eapply spec_try; [done|apply (spec_Ensure ws w (ExpectedRefSHA i)); [done|done|congruence|done]|].
      intros r w1 Hi1 HR1 HP1.
      destruct r as [ref|e]; [|destruct e; by apply wp_throw].
      destruct (HP1 ref) as [-> [Href _]]; [done|]. apply wp_ret; [done|]. intros i' [= <-]. split; [|split; [done|]].
      + destruct Hg as [G1 G2 G3]. constructor; cbn; try done. intros _. rewrite Hid, <-HT. done.
      + intros _. cbn. destruct (known_stable _ _ _ HR1 Hk) as (r & Hr & HTr & HPr). exists r. by rewrite HPr, <-HT. }
  destruct (HP1 i' eq_refl) as (Hg' & Hid' & He'). eapply spec_seq; [done|apply spec_now| |done]. intros t w2 Hi2 HR2 _.
  assert (ready ws (setPhase FinalizePhaseRefReady t i') w2) as Hr.
  { eapply ready_stable; [exact HR2|]. split; [by destruct Hg'; constructor|done]. }
  eapply spec_seq; [done|apply spec_upsert; [apply Hr|]| |done].
  - intros _. cbn. rewrite Hid'. apply Hr.
  - intros [] w3 Hi3 HR3 _. apply wp_ret; [done|]. intros i'' [= <-]. by eapply ready_stable.
Qed.

Lemma spec_idempotentResult ws req o w : inv w → spec (idempotentResult s ws req o) answered w.
Proof.
  intros Hi0. eapply spec_seq; [done|by apply spec_auditRecord| |done]. intros [] w1 _ _ _.
  apply wp_ret; [apply answered_stable|]. intros res [= <-]. done.
Qed.

Lemma spec_found id ws req o w : inv w → spec (_ ← deleteIntent id; idempotentResult s ws req o) answered w.
Proof.
  intros Hi0. eapply spec_seq; [done|apply spec_deleteIntent| |done]. intros [] w1 Hi1 _ _. by apply spec_idempotentResult.
Qed.

Lemma spec_commitTerminal ws i changed w :
  ready ws i w → inv w → spec (commitTerminal s ws i changed) answered w.
Proof.
  intros Hr Hi0. unfold commitTerminal. eapply spec_seq; [done|apply spec_Get| |done]. intros fresh w1 Hi1 HR1 _.
  destruct (isWorkspaceTerminal _); [by apply spec_found|].
  eapply spec_seq; [done|apply spec_now| |done]. intros t w2 Hi2 HR2 _.
  eapply (spec_seq _ _ (λ r w', r = Ok true → is_Some (svc_audit s) → decidedAs w' (ID ws) (toOutcome (Intent_Outcome i))));
    [done| |intros won w3 Hi3 HR3 Hwon|done].
  - apply wp_attempt; [intros r w' w'' HR _ H Hw Ha; eapply decidedAs_stable; [exact HR|by apply H]|].
    intros w' HR' Hi'. assert (ready ws i w') as (Hg & Hid & He).
    { eapply ready_stable; [|exact Hr]. do 2 (etrans; [done|]). done. }
    destruct (terminalTx s (ID ws) i t (db w')) as [[d|]|e] eqn:E; cbn; [|done..].
    destruct (step_terminal _ _ _ _ _ Hg Hid He Hi' E) as (Hi'' & Hev & Hd). done.
  - destruct won; cbn [negb].
    + apply wp_ret; [apply answered_stable|]. intros res [= <-] _. cbn. by apply Hwon.
    + eapply spec_seq; [done|apply spec_Get| |done]. intros fresh' w4 Hi4 HR4 _. by apply spec_found.
Qed.

Lemma spec_resume ws i req w :
  known ws w → good i → (Phase i ≠ FinalizePhasePending → established w (ID ws) (ExpectedRefSHA i)) →
  Intent_WorkspaceID i = ID ws → inv w → spec (resumeFromIntent s ws i req) answered w.
Proof.
  intros Hk Hg He Hid Hi0. destruct (known_facts ws w Hk Hi0) as [HT HP]. unfold resumeFromIntent.
  destruct (isWorkspaceTerminal _); [by apply spec_found|].
  eapply (spec_seq _ _ (λ _ _, True)); [done| |intros [] w1 Hi1 HR1 _|done].
  { case_bool_decide; [by apply wp_ret|]. eapply spec_seq; [done|apply spec_wsp| |done].
    - eapply wp_mono; [|by apply spec_Resolve]. intros r w' _ _. by instantiate (1 := λ _ _, True).
    - intros existing w' _ _ _. destruct (negb _ && negb _); [by apply wp_throw|by apply wp_ret]. }
  eapply (spec_seq _ _ (λ r w', ∀ i', r = Ok i' → ready ws i' w')); [done| |intros i' w2 Hi2 HR2 HP2|done].
  - case_bool_decide as Hph.
    + apply spec_ensureRefForIntent; [by eapply known_stable|done..].
    + apply wp_ret; [intros r w' w'' HR _ H i' Hr; eapply ready_stable; [exact HR|by apply H]|].
      intros i' [= <-]. eapply ready_stable; [exact HR1|]. split; [done|]. split; [done|]. by apply He.
  - apply spec_commitTerminal; [by apply HP2|done].
Qed.

(** A request whose inspection shows the commit agreed on for the workspace's
    result ref, if its outcome wants one. *)
Definition honest (req : FinalizeRequest) : Prop :=
  ∀ base, CreatesResultRef (Classify (ClassifyFromEvent (TerminalEvent req) (Req_Inspection req) base)) = true →
    ActualHEAD (Req_Inspection req) = agreed (FQ (taskOf (Req_WorkspaceID req))) ∧ ActualHEAD (Req_Inspection req) ≠ "".

Lemma newIntent_good ws req taskTo t :
  let c := ClassifyFromEvent (TerminalEvent req) (Req_Inspection req) (BaseSHA ws) in
  honest req → ID ws = Req_WorkspaceID req → TaskID ws = taskOf (ID ws) →
  good (newIntent ws req (Terminal_ c) (Classify c) taskTo t).
Proof.
  intros c Hh Hid HT. pose proof (Hh (BaseSHA ws) : CreatesResultRef (Classify c) = true → _) as Hc. clearbody c.
  assert (toOutcome (Outcome_String (Classify c)) = Classify c) as Ho.
  { apply toOutcome_String. intros t0. apply Classify_known. }
  constructor; cbn -[toOutcome Outcome_String Classify]; rewrite ?Ho; [done| |].
  - destruct (CreatesResultRef (Classify c)) eqn:E; [|done]. destruct (Hc eq_refl) as [Ha _]. intros _. by rewrite Ha, HT, Hid.
  - intros E. rewrite E. by destruct (Hc E).
Qed.

Lemma spec_Finalize req w : honest req → inv w → spec (Finalize s req) answered w.
Proof.
  intros Hh Hi0. unfold Finalize. eapply spec_seq; [done|apply spec_Get| |done]. intros ws w1 Hi1 HR1 HP1.
  destruct (HP1 ws eq_refl) as [Hid Hk]. destruct (known_facts _ _ Hk Hi1) as [HT _]. cbv zeta.
  destruct (isWorkspaceTerminal _); [by apply spec_idempotentResult|].
  eapply (spec_try _ _ (λ r w', ∀ i, r = Ok i → vouched w' i ∧ Intent_WorkspaceID i = ID ws)); [done| |].
  { apply spec_wsp, wp_query; [apply _| |].
    - intros r w2 w3 HR _ H i Hr. destruct (H i Hr). split; [|done]. by eapply vouched_stable.
    - intros w' _ Hi i. unfold GetFinalizeIntent. destruct (List.find _ _) as [i0|] eqn:E; [|done]. intros [= <-].
      apply List.find_some in E as [Hin Hd]. apply bool_decide_eq_true in Hd. split; [|done].
      by apply Hi, list_elem_of_In. }
  intros r w2 Hi2 HR2 HP2. destruct r as [i|e].
  - destruct (HP2 i eq_refl) as [(Hg & _ & He) Hiid].
    apply spec_resume; [by eapply known_stable|done|by rewrite <-Hiid|done|done].
  - assert (∀ e0, spec (Throw e0) answered w2) as Hthrow.
    { intros e0. apply wp_throw; [apply answered_stable|done]. }
    destruct e as [[[]| | | | | | | | | | |]| | | | | |]; try apply Hthrow.
    destruct (negb _); [done|]. eapply (spec_seq _ _ (λ _ _, True)); [done| |intros tk w3 Hi3 HR3 _|done].
    { by apply wp_query; [apply _|done|]. }
    destruct (taskTransitionFor tk _) as [taskTo|].
    + eapply spec_seq; [done|apply spec_now| |done]. intros t w4 Hi4 HR4 _.
      assert (evolves w1 w4) as HR by (by do 2 (etrans; [done|])).
      pose proof (newIntent_good ws req taskTo t Hh Hid HT) as Hg. set (i := newIntent _ _ _ _ _ _) in *.
      eapply spec_seq; [done|by apply spec_upsert| |done]. intros [] w5 Hi5 HR5 _.
      eapply spec_seq; [done|apply spec_ensureRefForIntent; try done| |done].
      { eapply known_stable; [|exact Hk]. by etrans. }
      intros i' w6 Hi6 HR6 HP6. apply spec_commitTerminal; [by apply HP6|done].
    + destruct (backlog.IsTerminal _); [|by apply wp_throw; [apply answered_stable|]].
      eapply spec_seq; [done|apply spec_Get| |done]. intros fresh w4 Hi4 HR4 _.
      destruct (isWorkspaceTerminal _); [by apply spec_found|by apply wp_throw; [apply answered_stable|]].
Qed.

(** Recovery: each of its results is a [Finalize] result. *)
Definition all_answered {E} (r : result E (list FinalizeResult * list (string * Error))) (w : W) : Prop :=
  ∀ l errs res, r = Ok (l, errs) → res ∈ l → answered (Ok res) w.
Lemma all_answered_stable {E} : stable inv evolves (all_answered (E := E)).
Proof. intros r w w' HR Hi H l errs res Hr Hin. eapply answered_stable; eauto. Qed.

Lemma spec_recoverOne i w :
  vouched w i → inv w →
  spec (recoverOne s i) (λ r w', ∀ res, r = Ok (Some res) → answered (Ok res) w') w.
Proof.
  intros Hv Hi0. assert (stable inv evolves (λ (r : result Error (option FinalizeResult)) w', ∀ res, r = Ok (Some res) → answered (Ok res) w'))
    as HQ by (intros r w1 w2 HR Hi H res Hr; eapply answered_stable; eauto).
  eapply spec_seq; [done|apply spec_Get| |done]. intros ws w1 Hi1 HR1 HP1. destruct (HP1 ws eq_refl) as [Hid Hk].
  destruct (vouched_stable _ _ _ HR1 Hv) as (Hg & _ & He). destruct (isWorkspaceTerminal _).
  - eapply spec_seq; [done|apply spec_deleteIntent| |done]. intros [] w2 Hi2 HR2 _. by apply wp_ret.
  - eapply spec_seq; [done|apply spec_resume; [done|done|by rewrite Hid|done|done]| |done].
    intros res w2 Hi2 HR2 HP2. apply wp_ret; [done|]. by intros res' [= <-].
Qed.

Lemma spec_recoverAll l w :
  (∀ i, i ∈ l → vouched w i) → inv w → spec (recoverAll s l) all_answered w.
Proof.
  revert w. induction l as [|i l IH]; intros w Hv Hi0.
  - apply wp_ret; [apply all_answered_stable|]. intros l' errs res [= <- <-] Hin. by apply elem_of_nil in Hin.
  - eapply spec_try; [done|apply spec_recoverOne; [|done]; apply Hv; by left|]. intros r w1 Hi1 HR1 HP1. cbv beta in HP1.
    eapply spec_seq; [done|apply IH; [|done]| |].
    + intros j Hj. eapply vouched_stable; [exact HR1|]. apply Hv. by right.
    + intros [results errs] w2 Hi2 HR2 HP2. apply wp_ret; [apply all_answered_stable|].
      intros l' errs' res Hr Hin.
      assert (res ∈ results ∨ r = Ok (Some res)) as [H|H].
      { destruct r as [[res0|]|e]; injection Hr as <- <-; [|by left..].
        apply elem_of_cons in Hin as [->|]; [by right|by left]. }
      * by eapply HP2.
      * eapply answered_stable; [exact HR2|exact Hi2|]. by apply HP1.
    + intros e w2 _ _ _ l' errs res [=].
Qed.

Lemma spec_Recover w : inv w → spec (RecoverPendingFinalizations s) all_answered w.
Proof.
  intros Hi0. eapply (spec_seq _ _ (λ r w', ∀ l, r = Ok l → ∀ i, i ∈ l → vouched w' i)); [done| | |].
  - apply spec_wsp, wp_query; [apply _| |].
    + intros r w1 w2 HR _ H l Hr i Hin. eapply vouched_stable; [exact HR|]. by eapply H.
    + intros w' _ Hi l [= <-] i Hin. apply Hi. unfold ListFinalizeIntents in Hin. by rewrite sortStable_Permutation in Hin.
  - intros l w1 Hi1 HR1 HP1. apply spec_recoverAll; [by apply HP1|done].
  - intros e w1 _ _ _ l errs res [=].
Qed.

(** ** Any number of calls, the rest of the daemon, and crashes *)

(** What the rest of the daemon does between two steps: it creates workspaces,
    moves the open ones, reviews the closed ones, writes other audit rows; it
    neither decides outcomes nor records intents, and no result ref is set to
    a commit other than the agreed one. *)
Record others (w w' : W) : Prop := {
  o_rows : ∀ id r, row id (db w) = Some r →
    ∃ r', row id (db w') = Some r' ∧ TaskID r' = TaskID r ∧ Path r' = Path r ∧
      (closed (State_ r) = true → settled r r');
  o_new : ∀ id r, row id (db w') = Some r → is_Some (row id (db w)) ∨ id ≠ "" ∧ TaskID r = taskOf id ∧ Path r ≠ "";
  o_ids : NoDup (ID <$> workspaces (db w'));
  o_trail : ∃ l, trail w' = trail w ++ l ∧ ∀ e, e ∈ l → audit.AuditEvent_Type e ≠ outcomeDecided;
  o_intents : ∀ i, i ∈ intents (db w') → i ∈ intents (db w);
  o_unique : NoDup (Intent_WorkspaceID <$> intents (db w'));
  o_refs : ∀ repo t, refs (ext w') repo (FQ t) = refs (ext w) repo (FQ t) ∨ refs (ext w') repo (FQ t) = agreed (FQ t) }.

Lemma others_evolves w w' : others w w' → evolves w w'.
Proof.
  intros H. constructor; [apply H| |].
  - destruct (o_trail _ _ H) as (l & -> & _). by exists l.
  - intros repo t Hr. destruct (o_refs _ _ H repo t) as [->|]; done.
Qed.

Lemma others_inv w w' : others w w' → inv w → inv w'.
Proof.
  intros H Hi. pose proof (others_evolves _ _ H) as Hev. destruct (o_trail _ _ H) as (l & Htr & Hl).
  assert (∀ id r, row id (db w') = Some r → TaskID r = taskOf id ∧ Path r ≠ "") as Hrow.
  { intros id r Hr. destruct (o_new _ _ H id r Hr) as [[r0 Hr0]|[_ ?]]; [|done].
    destruct (o_rows _ _ H id r0 Hr0) as (r' & Hr' & HT & HP & _). rewrite Hr in Hr'. injection Hr' as <-.
    rewrite HT, HP. by apply Hi. }
  constructor.
  - apply H.
  - destruct (row "" (db w')) as [r|] eqn:E; [|done]. destruct (o_new _ _ H "" r E) as [[r0 Hr0]|[? _]]; [|done].
    by rewrite (inv_named w Hi) in Hr0.
  - exact Hrow.
  - intros repo t. destruct (o_refs _ _ H repo t) as [->|]; [apply Hi|by right].
  - intros i Hin. eapply vouched_stable; [exact Hev|]. by apply Hi, (o_intents _ _ H).
  - apply H.
  - intros id. unfold decisions. rewrite Htr, filter_app, length_app.
    assert (@filter _ (list audit.AuditEvent) _ (isDecision id) _ l = []) as ->; [|rewrite Nat.add_0_r; apply Hi].
    apply elem_of_nil_inv. intros e [[He _] Hel]%list_elem_of_filter. by apply (Hl e).
  - intros e. rewrite Htr. intros [He|He]%elem_of_app Hty; [|by apply Hl in He]. by eapply recorded_stable, Hi.
Qed.

(** A database whose runs have all still to end. *)
Record fresh (w : W) : Prop := {
  fresh_ids : NoDup (ID <$> workspaces (db w));
  fresh_rows : ∀ r, r ∈ workspaces (db w) → ID r ≠ "" ∧ TaskID r = taskOf (ID r) ∧ Path r ≠ "";
  fresh_refs : ∀ repo t, refs (ext w) repo (FQ t) = "";
  fresh_intents : intents (db w) = [];
  fresh_trail : ∀ e, e ∈ trail w → audit.AuditEvent_Type e ≠ outcomeDecided }.

Lemma fresh_inv w : fresh w → inv w.
Proof.
  intros H. constructor.
  - apply H.
  - destruct (row "" (db w)) as [r|] eqn:E; [|done]. apply row_Some in E as [Hin Hid]. by destruct (fresh_rows w H r Hin).
  - intros id r [Hin <-]%row_Some. by apply (fresh_rows w H).
  - intros repo t. left. apply H.
  - intros i. rewrite (fresh_intents w H). by intros ?%elem_of_nil.
  - rewrite (fresh_intents w H). constructor.
  - intros id. unfold decisions. destruct (@filter _ (list audit.AuditEvent) _ (isDecision id) _ (trail w)) as [|e l] eqn:E; [cbn; lia|].
    assert (e ∈ @filter _ (list audit.AuditEvent) _ (isDecision id) _ (trail w)) as [[He _] Hel]%list_elem_of_filter by (rewrite E; by left).
    by apply (fresh_trail w H) in Hel.
  - intros e He Hty. by apply (fresh_trail w H) in He.
Qed.

(** The calls of the pool: a run's end, or the recovery of a restart. *)
Definition finalization (p : proc W Error (list FinalizeResult)) : Prop :=
  (∃ req, honest req ∧ p = (res ← Finalize s req; mret [res])) ∨
  p = (r ← RecoverPendingFinalizations s; mret r.1).
Definition answers (r : result Error (list FinalizeResult)) (w : W) : Prop :=
  ∀ l res, r = Ok l → res ∈ l → answered (Ok res) w.

Lemma finalization_spec p w : inv w → finalization p → spec p answers w.
Proof.
  intros Hi Hp.
  assert (stable inv evolves answers) as HQ.
  { intros r w1 w2 HR Hi2 H l res Hr Hin. eapply answered_stable; eauto. }
  destruct Hp as [(req & Hh & ->)| ->].
  - eapply spec_seq; [done|by apply spec_Finalize| |done]. intros res w1 Hi1 HR1 HP1. apply wp_ret; [done|].
    intros l res' [= <-] ->%list_elem_of_singleton. exact HP1.
  - eapply spec_seq; [done|by apply spec_Recover| |done]. intros [l errs] w1 Hi1 HR1 HP1. apply wp_ret; [done|].
    intros l' res [= <-] Hin. by eapply HP1.
Qed.

Lemma pool_inv w0 c :
  inv w0 → rtc (pstep finalization others) (mkConfig [] w0) c →
  evolves w0 (state c) ∧ inv (state c) ∧ Forall (λ p, spec p answers (state c)) (threads c).
Proof.
  intros Hi Hs. eapply (pool_sound _ _ inv evolves evolves answers (mkConfig [] w0)); try done.
  - apply _.
  - intros w w' Ho Hw. split; [by apply others_evolves|by eapply others_inv].
  - intros p w. apply finalization_spec.
Qed.

(** C26: From a database whose runs have all still to end ([fresh]), and as long as all
    finalizing calls of a task that make a result have inspected the same non-empty
    commit ([honest]): however many calls of Finalize and of the recovery run concurrently on
    the same workspaces, whatever the rest of the daemon does between their
    statements and wherever they are cut short or the process dies, a workspace
    has at most one [run.outcome_decided] row; the workspace it names is closed
    in that outcome's state (or was reviewed since), and if the outcome makes a
    result, its ref, in Git and in the row, is the agreed commit.  A call whose
    result is not an idempotent one is the call that decided. *)
Theorem Finalize_decides_once w0 c :
  fresh w0 → rtc (pstep finalization others) (mkConfig [] w0) c →
  (∀ id, length (decisions id (state c)) ≤ 1) ∧
  (∀ e, e ∈ trail (state c) → audit.AuditEvent_Type e = outcomeDecided → recorded (state c) e) ∧
  (∀ l res, Ret l ∈ threads c → res ∈ l → Idempotent res = false → is_Some (svc_audit s) →
     decidedAs (state c) (Res_WorkspaceID res) (Outcome_ res)).
Proof.
  intros Hf Hs. destruct (pool_inv w0 c (fresh_inv w0 Hf) Hs) as (_ & Hi & Ht). split; [apply Hi|]. split; [apply Hi|].
  intros l res Hl Hin Hid Ha. rewrite Forall_forall in Ht. specialize (Ht _ Hl (state c)). by eapply Ht.
Qed.

(** ** Recovery after a crash *)

(** Git answers, and sets a result ref to its agreed commit; the audit store
    takes outcome rows. *)
Record working : Prop := {
  w_list : ∀ dir t x, dir ≠ "" → is_ok (git ["-C"; dir; "for-each-ref"; "--format=%(objectname)"; FQ t] x).1 = true;
  w_set : ∀ dir t x, dir ≠ "" → is_ok (git ["-C"; dir; "update-ref"; FQ t; agreed (FQ t)] x).1 = true;
  w_audit : ∀ id i d, is_ok (auditTx (svc_audit s) id outcomeDecided (outcomePayload id i) d) = true }.
Context (Hwork : working).

Lemma run_runGit dir sub args w :
  dir ≠ "" → bool_decide (sub ∈ forbiddenGitSubcommands) = false → bool_decide (sub ∈ allowedGitSubcommands) = true →
  (run (runGit dir (sub :: args)) w).2 = withExt (git ("-C" :: dir :: sub :: args) (ext w)).2 w ∧
  ∀ out, (run (runGit dir (sub :: args)) w).1 = Ok out ↔ (git ("-C" :: dir :: sub :: args) (ext w)).1 = Ok out.
Proof.
  intros Hdir Hf Ha. unfold runGit. rewrite Hf, Ha. cbn [negb]. rewrite bool_decide_false by done.
  rewrite run_bind. cbn. destruct (git _ (ext w)) as [[out|[e|e]] x]; cbn; split; naive_solver.
Qed.

Lemma total_Resolve t dir w :
  dir ≠ "" → total (ResolveResultRef t dir)
               (λ out w', out = refs (ext w) (repoOf dir) (FQ t) ∧ db w' = db w ∧ refs (ext w') = refs (ext w)) w.
Proof.
  intros Hdir. unfold ResolveResultRef. apply total_bind, total_catch.
  destruct (run_runGit dir "for-each-ref" ["--format=%(objectname)"; FQ t] w) as [-> Hout]; [done..|].
  pose proof (for_each_ref dir (FQ t) (ext w) Hdir) as H. pose proof (w_list Hwork dir t (ext w) Hdir) as Hok.
  cbn [app] in *. destruct (git _ (ext w)) as [[out|e] x]; [|done]. destruct H as [Hx H]. cbn in Hout |- *.
  rewrite (proj2 (Hout out)) by done. apply total_ret. cbn. split; [by apply H|done].
Qed.

Lemma total_commonDir dir w :
  dir ≠ "" → total (resolveCommonDir dir)
               (λ cd w', cd ≠ "" ∧ repoOf cd = repoOf dir ∧ db w' = db w ∧ refs (ext w') = refs (ext w)) w.
Proof.
  intros Hdir. unfold resolveCommonDir. apply total_bind, total_catch.
  destruct (run_runGit dir "rev-parse" ["--git-common-dir"] w) as [-> Hout]; [done..|].
  pose proof (common_dir dir (ext w) Hdir) as H. cbn [app] in *. apply total_ret. cbn.
  destruct (git _ (ext w)) as [r x]. destruct H as [Hx H]. cbn in Hout |- *.
  destruct (run _ w).1 as [out|e]; [|done]. cbv zeta. case_bool_decide; [done|].
  split; [done|]. split; [|done]. apply (H out); [by apply Hout|done].
Qed.

Lemma total_Ensure ws w :
  let head := agreed (FQ (TaskID ws)) in
  Path ws ≠ "" → head ≠ "" → refs (ext w) (repoOf (Path ws)) (FQ (TaskID ws)) ∈ ["" ; head] →
  total (EnsureResultRef ws head)
    (λ ref w', ref = FQ (TaskID ws) ∧ db w' = db w ∧ refs (ext w') (repoOf (Path ws)) (FQ (TaskID ws)) = head) w.
Proof.
  intros head Hp Hh Hr. unfold EnsureResultRef. rewrite !bool_decide_false by done. apply total_bind.
  eapply total_mono; [|by apply total_Resolve]. cbv beta. intros existing w1 (He & Hdb & Hx). rewrite <-He in Hr.
  assert (negb (bool_decide (existing = "")) && negb (bool_decide (existing = head)) = false) as ->.
  { rewrite !elem_of_cons in Hr. destruct Hr as [->|[->|Hr%elem_of_nil]]; [by rewrite bool_decide_true|by rewrite andb_comm, bool_decide_true|done]. }
  destruct (decide (existing = head)) as [Hex|Hex]; [rewrite bool_decide_true by done|rewrite bool_decide_false by done].
  - apply total_ret. split; [done|]. split; [done|]. by rewrite Hx, <-He.
  - apply total_bind. eapply total_mono; [|by apply total_commonDir]. cbv beta. intros cd w2 (Hcd & Hrepo & Hdb2 & Hx2).
    apply total_bind. destruct (run_runGit cd "update-ref" [FQ (TaskID ws); head] w2) as [Hw Hout]; [done..|].
    pose proof (update_ref cd (FQ (TaskID ws)) head (ext w2) Hcd) as H.
    pose proof (w_set Hwork cd (TaskID ws) (ext w2) Hcd) as Hok. fold head in Hok. cbn [app] in *.
    destruct (git _ (ext w2)) as [[out|e] x]; [|done]. exists out, (withExt x w2). split.
    + rewrite (surjective_pairing (run _ w2)), Hw. f_equal. by apply Hout.
    + apply total_ret. cbn. split; [done|]. split; [by rewrite Hdb2|]. rewrite H, decide_True; done.
Qed.

Lemma auditTx_frame id type_ p d d' :
  auditTx (svc_audit s) id type_ p d = Ok d' → workspaces d' = workspaces d ∧ intents d' = intents d.
Proof.
  unfold auditTx. destruct (svc_audit s); [|by intros [= <-]]. destruct (audit.Record_ _ _ _) as [[a|e] t]; [|done].
  by intros [= <-].
Qed.

Lemma total_deleteIntent id w : total (deleteIntent id) (λ _ (w' : W), w' = withDB (DeleteFinalizeIntent id (db w)) w) w.
Proof. by eapply total_attempt. Qed.

Lemma total_found id ws req o (w : W) :
  total (_ ← deleteIntent id; idempotentResult s ws req o)
    (λ _ w', workspaces (db w') = workspaces (db w) ∧
             intents (db w') = filter (λ j, Intent_WorkspaceID j ≠ id) (intents (db w))) w.
Proof.
  apply total_bind. eapply total_mono; [|apply total_deleteIntent]. intros [] w1 ->. unfold idempotentResult.
  apply total_bind, total_ignore. apply total_ret. unfold stmt. rewrite run_attempt. cbn.
  destruct (auditTx _ _ _ _ _) as [d|e] eqn:E; cbn; [|done]. by apply auditTx_frame in E as [-> ->].
Qed.

(** What finishing an intent does: only its workspace's row changes, and an
    active one reaches the intent's target. *)
Record finishes (i : FinalizeIntent) (w w' : W) : Prop := {
  fin_others : ∀ id, id ≠ Intent_WorkspaceID i → row id (db w') = row id (db w);
  fin_intents : intents (db w') = filter (λ j, Intent_WorkspaceID j ≠ Intent_WorkspaceID i) (intents (db w));
  fin_row : ∀ r, row (Intent_WorkspaceID i) (db w) = Some r → State_ r = StateActive →
    (∃ r', row (Intent_WorkspaceID i) (db w') = Some r' ∧ State_ r' = TargetWSState i ∧
       ResultSHA r' = orElse (ExpectedRefSHA i) (ResultSHA r)) ∧
    (is_Some (svc_audit s) → decidedAs w' (Intent_WorkspaceID i) (toOutcome (Intent_Outcome i))) }.

Lemma finishes_open i w w' :
  workspaces (db w') = workspaces (db w) →
  intents (db w') = filter (λ j, Intent_WorkspaceID j ≠ Intent_WorkspaceID i) (intents (db w)) →
  (∀ r, row (Intent_WorkspaceID i) (db w) = Some r → State_ r ≠ StateActive) → finishes i w w'.
Proof.
  intros Hws Hi Hr. constructor; [intros id _; unfold row; by rewrite Hws|done|]. intros r H1 H2. by destruct (Hr r H1).
Qed.

Lemma total_Get id r (w : W) : row id (db w) = Some r → total (wsp (Get id)) (λ ws w', ws = r ∧ w' = w) w.
Proof. intros Hr. apply total_mapErr. eapply total_query; [|done]. by apply row_GetWorkspace in Hr as ->. Qed.

Lemma claim_None id i t d r : claim id i t d = None → row id d = Some r → State_ r ≠ StateActive.
Proof.
  unfold claim. destruct (existsb _ _) eqn:E; [done|]. intros _ [Hin <-]%row_Some Hact.
  assert (existsb (isClaimable (ID r)) (workspaces d) = true) as H; [|congruence]. apply existsb_elem. exists r.
  split; [done|]. unfold isClaimable, isWorkspace. by rewrite !bool_decide_true.
Qed.

Lemma total_commit ws i changed r w :
  inv w → ready ws i w → row (ID ws) (db w) = Some r →
  total (commitTerminal s ws i changed) (λ _ w', finishes i w w') w.
Proof.
  intros Hi (Hg & Hid & He) Hr. unfold commitTerminal. apply total_bind. eapply total_mono; [|by apply total_Get].
  intros fresh w1 [-> ->]. assert (∀ ws' req o w', db w' = db w → State_ r ≠ StateActive →
    total (_ ← deleteIntent (ID ws); idempotentResult s ws' req o) (λ _ w', finishes i w w') w') as Hfound.
  { intros ws' req o w' Hdb Hst. eapply total_mono; [|apply total_found]. cbv beta. rewrite Hdb. intros _ w'' [H1 H2].
    apply finishes_open; [done|by rewrite Hid|]. rewrite Hid, Hr. by intros ? [= <-]. }
  destruct (isWorkspaceTerminal (State_ r)) eqn:Et; [apply Hfound; [done|by intros H; rewrite H in Et]|].
  apply total_bind. exists (clock w), w. split; [done|]. apply total_bind.
  destruct (claim (ID ws) i (clock w) (db w)) as [d1|] eqn:Ec.
  - pose proof (w_audit Hwork (ID ws) i (endTask i (clock w) d1)) as Ha.
    destruct (auditTx _ _ _ _ _) as [d2|e] eqn:E2; [|done].
    assert (terminalTx s (ID ws) i (clock w) (db w) = Ok (Some (DeleteFinalizeIntent (ID ws) d2))) as Htx
      by (unfold terminalTx; by rewrite Ec, E2).
    eapply total_attempt; [by rewrite Htx|]. cbn [negb]. apply total_ret.
    assert (ID ws ≠ "") as Hne by (intros Hn; rewrite Hn, (inv_named w Hi) in Hr; done).
    destruct (step_terminal _ _ _ _ _ Hg Hid He Hi Htx) as (_ & _ & Hd).
    destruct (terminalTx_Some _ _ _ _ _ (inv_ids w Hi) Hne Htx) as (r0 & l & Hr0 & _ & Hr' & Hoth & _ & _ & _ & _ & Hint).
    constructor; rewrite ?Hid; [done|done|]. intros r1 Hr1 Hact. split; [|done].
    exists (claimedRow i (clock w) r0). split; [done|]. split; [done|]. cbn. congruence.
  - eapply total_attempt; [unfold terminalTx; by rewrite Ec|]. cbn [negb]. apply total_bind.
    eapply total_mono; [|by apply total_Get]. intros fresh w1 [-> ->]. apply Hfound; [done|]. by eapply claim_None.
Qed.

(** What a resumed intent becomes. *)
Lemma total_ensureRefForIntent ws i (w : W) :
  inv w → known ws w → vouched w i → Intent_WorkspaceID i = ID ws →
  total (ensureRefForIntent ws i)
    (λ i' w', Intent_WorkspaceID i' = ID ws ∧ Intent_Outcome i' = Intent_Outcome i ∧ TargetWSState i' = TargetWSState i ∧
              ExpectedRefSHA i' = ExpectedRefSHA i ∧ workspaces (db w') = workspaces (db w) ∧
              filter (λ j, Intent_WorkspaceID j ≠ ID ws) (intents (db w')) =
              filter (λ j, Intent_WorkspaceID j ≠ ID ws) (intents (db w))) w.
Proof.
  intros Hi Hk (Hg & Hrow & _) Hid. destruct (known_facts ws w Hk Hi) as [HT HP]. unfold ensureRefForIntent.
  apply total_bind.
  eapply (total_mono _ (λ i' w', Intent_WorkspaceID i' = ID ws ∧ Intent_Outcome i' = Intent_Outcome i ∧
                          TargetWSState i' = TargetWSState i ∧ ExpectedRefSHA i' = ExpectedRefSHA i ∧ db w' = db w)).
  - intros i' w1 (H1 & H2 & H3 & H4 & Hdb). apply total_bind. exists (clock w1), w1. split; [done|]. apply total_bind.
    assert (∃ d, UpsertFinalizeIntent (setPhase FinalizePhaseRefReady (clock w1) i') (db w1) = Ok d ∧
              workspaces d = workspaces (db w) ∧ filter (λ j, Intent_WorkspaceID j ≠ ID ws) (intents d) =
              filter (λ j, Intent_WorkspaceID j ≠ ID ws) (intents (db w))) as (d & Hup & Hws & Hf).
    { rewrite Hdb. unfold UpsertFinalizeIntent. cbn. rewrite H1. destruct (existsb (isIntent _) _) eqn:E.
      - eexists. split; [done|]. cbn. split; [done|]. clear E. induction (intents (db w)) as [|j l IH]; [done|].
        rewrite fmap_cons, !filter_cons, IH. unfold isIntent. case_bool_decide as Hj; cbn; [|done].
        by rewrite !decide_False by tauto.
      - rewrite Hid in Hrow. apply row_exists in Hrow as ->. eexists. split; [done|]. cbn. split; [done|].
        rewrite filter_app, filter_cons_False by (cbn; tauto). by rewrite app_nil_r. }
    eapply total_attempt; [by rewrite Hup|]. by apply total_ret.
  - case_bool_decide as Hsha; [by apply total_ret|]. destruct (good_ref i Hg Hsha) as [Ha _]. rewrite Hid, <-HT in Ha.
    rewrite Ha in Hsha. pose proof (total_Ensure ws w HP Hsha) as HE. cbv zeta in HE. rewrite <-Ha in HE.
    apply total_bind, total_catch. destruct HE as (ref & w1 & Hrun & -> & Hdb & _).
    { rewrite Ha, !elem_of_cons. destruct (inv_refs w Hi (repoOf (Path ws)) (TaskID ws)) as [->| ->]; tauto. }
    rewrite Hrun. cbn. by apply total_ret.
Qed.

(** A program alone also keeps what its specification promises. *)
Lemma total_spec {E A} (p : proc W E A) (P : result E A → W → Prop) (Q : A → W → Prop) w :
  inv w → spec p P w → total p (λ a w', inv w' → evolves w w' → P (Ok a) w' → Q a w') w → total p Q w.
Proof.
  intros Hi Hp (a & w' & Hrun & HQ). exists a, w'. split; [done|].
  assert (spec p (λ r w', evolves w w' ∧ P r w') w) as Hp' by (by apply wp_since; [apply _|done|done|]).
  destruct (wp_run _ _ _ p _ w Hi Hp') as [Hi' [Hev HP]]. rewrite Hrun in *. by apply HQ.
Qed.

Lemma finishes_from i i' w w1 w' :
  Intent_WorkspaceID i' = Intent_WorkspaceID i → Intent_Outcome i' = Intent_Outcome i → TargetWSState i' = TargetWSState i →
  ExpectedRefSHA i' = ExpectedRefSHA i → workspaces (db w1) = workspaces (db w) →
  filter (λ j, Intent_WorkspaceID j ≠ Intent_WorkspaceID i) (intents (db w1)) =
  filter (λ j, Intent_WorkspaceID j ≠ Intent_WorkspaceID i) (intents (db w)) →
  finishes i' w1 w' → finishes i w w'.
Proof.
  intros H1 H2 H3 H4 Hws Hf [F1 F2 F3]. rewrite H1, ?H2, ?H3, ?H4 in *.
  assert (∀ id, row id (db w1) = row id (db w)) as Hrow by (intros id; unfold row; by rewrite Hws).
  constructor.
  - intros id Hid. rewrite <-Hrow. by apply F1.
  - by rewrite F2.
  - intros r Hr. rewrite <-Hrow in Hr. by apply F3.
Qed.

Lemma total_resume ws i req w :
  inv w → vouched w i → Intent_WorkspaceID i = ID ws → row (ID ws) (db w) = Some ws →
  total (resumeFromIntent s ws i req) (λ _ w', finishes i w w') w.
Proof.
  intros Hi Hv Hid Hr. assert (known ws w) as Hk by (by exists ws).
  destruct (known_facts ws w Hk Hi) as [HT HP]. unfold resumeFromIntent. destruct (isWorkspaceTerminal _) eqn:Et.
  { eapply total_mono; [|apply total_found]. cbv beta. intros _ w' [H1 H2]. apply finishes_open; rewrite ?Hid; [done|done|].
    rewrite Hr. intros ? [= <-] H. by rewrite H in Et. }
  apply total_bind. eapply (total_mono _ (λ _ w', inv w' ∧ evolves w w' ∧ db w' = db w)).
  - intros [] w1 (Hi1 & HR1 & Hdb). pose proof (vouched_stable _ _ _ HR1 Hv) as Hv1. apply total_bind.
    eapply (total_mono _ (λ i' w', inv w' ∧ ready ws i' w' ∧ Intent_Outcome i' = Intent_Outcome i ∧
              TargetWSState i' = TargetWSState i ∧ ExpectedRefSHA i' = ExpectedRefSHA i ∧
              workspaces (db w') = workspaces (db w) ∧ filter (λ j, Intent_WorkspaceID j ≠ ID ws) (intents (db w')) =
              filter (λ j, Intent_WorkspaceID j ≠ ID ws) (intents (db w)))).
    + intros i' w2 (Hi2 & Hrdy & H1 & H2 & H3 & Hws & Hf). eapply total_mono; [|apply (total_commit ws i' _ ws); [done|done|]].
      * cbv beta. intros res w'. apply finishes_from; rewrite ?Hid; try done. apply Hrdy.
      * unfold row. rewrite Hws. exact Hr.
    + case_bool_decide as Hph.
      * eapply total_spec; [done|apply spec_ensureRefForIntent; [by eapply known_stable|apply Hv1|done|done]|].
        eapply total_mono; [|apply total_ensureRefForIntent; [done|by eapply known_stable|done|done]]. cbv beta.
        rewrite Hdb. intros i' w2 (H1 & H2 & H3 & H4 & H5 & H6) Hi2 _ Hrdy. split; [done|]. split; [by apply Hrdy|done].
      * apply total_ret. rewrite Hdb. split; [done|]. split; [|done]. destruct Hv1 as (Hg & _ & He). split; [done|].
        split; [done|]. rewrite <-Hid. by apply He.
  - case_bool_decide as Hsha; [by apply total_ret|]. apply total_bind, total_mapErr.
    eapply total_spec; [done|by apply spec_Resolve|]. eapply total_mono; [|by apply total_Resolve]. cbv beta.
    intros existing w1 (He & Hdb & Hx) Hi1 HR1 _.
    assert (negb (bool_decide (existing = "")) && negb (bool_decide (existing = ExpectedRefSHA i)) = false) as ->.
    { destruct Hv as (Hg & _ & _). destruct (good_ref i Hg Hsha) as [Ha _]. rewrite Hid, <-HT in Ha. rewrite He, Ha.
      destruct (inv_refs w Hi (repoOf (Path ws)) (TaskID ws)) as [->| ->]; [by rewrite bool_decide_true|].
      by rewrite andb_comm, bool_decide_true. }
    by apply total_ret.
Qed.

Lemma total_recoverOne i w : inv w → vouched w i → total (recoverOne s i) (λ _ w', finishes i w w') w.
Proof.
  intros Hi Hv. destruct Hv as (Hg & [r Hr] & He). unfold recoverOne. apply total_bind.
  eapply total_mono; [|by apply total_Get]. intros ws w1 [-> ->]. pose proof (row_Some _ _ _ Hr) as [_ Hid].
  destruct (isWorkspaceTerminal _) eqn:Et.
  - apply total_bind. eapply total_mono; [|apply total_deleteIntent]. intros [] w1 ->. apply total_ret.
    apply finishes_open; [done|by rewrite Hid|]. rewrite Hr. intros ? [= <-] H. by rewrite H in Et.
  - apply total_bind. eapply total_mono; [|apply (total_resume r i _ w); [done|done|done|by rewrite Hid]].
    intros res w' H. by apply total_ret.
Qed.

Lemma total_recoverAll l w :
  inv w → NoDup (Intent_WorkspaceID <$> l) → (∀ i, i ∈ l → vouched w i) →
  total (E := Error) (recoverAll s l)
    (λ '(_, errs) w', errs = [] ∧ evolves w w' ∧
       (∀ id, id ∉ (Intent_WorkspaceID <$> l) → row id (db w') = row id (db w)) ∧
       intents (db w') = filter (λ j, Intent_WorkspaceID j ∉ (Intent_WorkspaceID <$> l)) (intents (db w)) ∧
       ∀ i r, i ∈ l → row (Intent_WorkspaceID i) (db w) = Some r → State_ r = StateActive →
         (∃ r', row (Intent_WorkspaceID i) (db w') = Some r' ∧ State_ r' = TargetWSState i ∧
            ResultSHA r' = orElse (ExpectedRefSHA i) (ResultSHA r)) ∧
         (is_Some (svc_audit s) → decidedAs w' (Intent_WorkspaceID i) (toOutcome (Intent_Outcome i)))) w.
Proof.
  revert w. induction l as [|i l IH]; intros w Hi Hnd Hv.
  { apply total_ret. split; [done|]. split; [done|]. split; [done|]. split; [|by intros i r ?%elem_of_nil].
    clear Hi Hv. induction (intents (db w)) as [|j k IHk]; [done|].
    rewrite filter_cons_True by apply not_elem_of_nil. by f_equal. }
  apply NoDup_cons in Hnd as [Hni Hnd]. cbn [recoverAll]. apply total_bind, total_catch.
  assert (total (recoverOne s i) (λ _ w', inv w' ∧ evolves w w' ∧ finishes i w w') w) as (a & w1 & -> & Hi1 & HR1 & HF).
  { eapply total_spec; [done|apply spec_recoverOne; [apply Hv; by left|done]|].
    eapply total_mono; [|apply total_recoverOne; [done|apply Hv; by left]]. done. }
  cbn. apply total_bind. eapply total_mono; [|apply IH; [done|done|]].
  - intros [results errs] w2 (-> & HR2 & Hrow & Hint & Hdone). apply total_ret.
    refine ((λ H, _) (conj _ (conj _ (conj _ _)))); [destruct a; (split; [done|exact H])| | | |].
    + by etrans.
    + intros id [H1 H2]%not_elem_of_cons. rewrite Hrow by done. by apply (fin_others _ _ _ HF).
    + rewrite Hint, (fin_intents _ _ _ HF), list_filter_filter. apply list_filter_iff. intros j.
      rewrite not_elem_of_cons. tauto.
    + intros j r Hj Hr Hact. apply elem_of_cons in Hj as [->|Hj].
      * destruct (fin_row _ _ _ HF r Hr Hact) as [(r' & Hr' & H) Hd]. split.
        { exists r'. by rewrite Hrow. } intros Ha. eapply decidedAs_stable; [exact HR2|by apply Hd].
      * apply Hdone; [done| |done]. rewrite (fin_others _ _ _ HF); [done|]. intros Heq. apply Hni. rewrite <-Heq.
        by apply list_elem_of_fmap_2.
  - intros j Hj. eapply vouched_stable; [exact HR1|]. apply Hv. by right.
Qed.

Lemma total_Recover w :
  inv w → total (RecoverPendingFinalizations s) (λ '(_, errs) w', inv w' ∧ evolves w w' ∧ errs = [] ∧ intents (db w') = [] ∧
    (∀ id, id ∉ (Intent_WorkspaceID <$> intents (db w)) → row id (db w') = row id (db w)) ∧
    ∀ i r, i ∈ intents (db w) → row (Intent_WorkspaceID i) (db w) = Some r → State_ r = StateActive →
         (∃ r', row (Intent_WorkspaceID i) (db w') = Some r' ∧ State_ r' = TargetWSState i) ∧
         (is_Some (svc_audit s) → decidedAs w' (Intent_WorkspaceID i) (toOutcome (Intent_Outcome i)))) w.
Proof.
  intros Hi. set (l := ListFinalizeIntents (db w)). assert (l ≡ₚ intents (db w)) as Hl by apply sortStable_Permutation.
  assert (∀ i, i ∈ l → vouched w i) as Hv by (intros i; rewrite Hl; apply Hi).
  unfold RecoverPendingFinalizations, wsp, sql. apply total_bind, total_mapErr. eapply total_query; [done|]. fold l.
  eapply total_spec; [done|by apply spec_recoverAll|].
  eapply total_mono; [|apply total_recoverAll; [done|rewrite Hl; apply Hi|done]].
  intros [results errs] w' (-> & _ & Hrow & Hint & Hdone) Hi' HR _. split; [done|]. split; [done|]. split; [done|].
  split; [|split].
  - rewrite Hint. apply elem_of_nil_inv. intros j [Hj Hin]%list_elem_of_filter. apply Hj. rewrite Hl.
    by apply list_elem_of_fmap_2.
  - intros id Hid. apply Hrow. by rewrite Hl.
  - intros i r Hin Hr Hact. rewrite <-Hl in Hin. destruct (Hdone i r Hin Hr Hact) as [(r' & Hr' & Hst & _) Hd]. eauto.
Qed.

(** C27: From a database whose runs had all still to end ([fresh]), whatever calls that
    agree on the commit of a result ([honest]) were running, wherever the process died: the recovery of
    the next start, run alone with a working Git and an audit store that takes
    outcome rows, ends without error, leaves no intent, and takes every active
    workspace that had one to the recorded target, with its decision recorded
    and its result, if it has one, at the recorded commit in Git and in the row. *)
Theorem crash_recovered w0 c :
  fresh w0 → rtc (pstep finalization others) (mkConfig [] w0) c →
  ∃ results w', run (RecoverPendingFinalizations s) (state c) = (Ok (results, []), w') ∧
    intents (db w') = [] ∧
    ∀ i r, i ∈ intents (db (state c)) → row (Intent_WorkspaceID i) (db (state c)) = Some r → State_ r = StateActive →
      ∃ r', row (Intent_WorkspaceID i) (db w') = Some r' ∧ State_ r' = TargetWSState i ∧
        (is_Some (svc_audit s) → decidedAs w' (Intent_WorkspaceID i) (toOutcome (Intent_Outcome i)) ∧
           (CreatesResultRef (toOutcome (Intent_Outcome i)) = true →
              ResultSHA r' = ExpectedRefSHA i ∧ refs (ext w') (repoOf (Path r')) (FQ (TaskID r')) = ExpectedRefSHA i)).
Proof.
  intros Hf Hs. destruct (pool_inv w0 c (fresh_inv w0 Hf) Hs) as (_ & Hi & _). set (w := state c) in *.
  destruct (total_Recover w Hi) as ([results errs] & w' & Hrun & Hi' & _ & -> & Hnil & _ & Hdone).
  exists results, w'. split; [done|]. split; [done|].
  intros i r Hin Hr Hact. destruct (Hdone i r Hin Hr Hact) as [(r' & Hr' & Hst) Hd]. exists r'. split; [done|].
  split; [done|]. intros Ha. specialize (Hd Ha). split; [done|]. intros Hcr.
  destruct (inv_intents w Hi i Hin) as (Hg & _ & _). pose proof (good_wants i Hg Hcr) as Hne.
  destruct (good_ref i Hg Hne) as [-> _]. destruct Hd as (e & t & [[Hty Hsc] He]%list_elem_of_filter & Hp & Ho).
  destruct (inv_recorded w' Hi' e He Hty) as (r0 & t0 & Hr0 & Hp0 & _ & _ & Href). rewrite Hsc in *.
  rewrite Hr' in Hr0. injection Hr0 as <-. rewrite Hp in Hp0. injection Hp0 as <-.
  destruct (inv_row w' Hi' _ _ Hr') as [-> _]. rewrite Ho in Href. by destruct (Href Hcr) as (? & ? & ?).
Qed.

End protocol_proofs.

(** ** A small world *)

Record Repo := mkRepo { repoRefs : gmap string string }.
#[export] Instance demoGit : External Repo := {|
  git argv x :=
    match argv with
    | ["-C"; _; "update-ref"; ref; sha] =>
        if bool_decide (strs.TrimSpace sha = sha) then (Ok "", mkRepo (<[ref := sha]> (repoRefs x)))
        else (Err (Exit "fatal: not a valid SHA1"), x)
    | ["-C"; _; "for-each-ref"; _; ref] => (Ok (default "" (repoRefs x !! ref)), x)
    | ["-C"; _; "rev-parse"; "--git-common-dir"] => (Ok "/repo/.git", x)
    | _ => (Ok "", x)
    end;
  isWorktree _ _ := true;
  statDir _ _ := Some true;
  mkdirParent _ x := (Ok (), x) |}.

#[export] Instance demoRefs : GitRefs Repo.
Proof.
  refine {| repoOf _ := "/repo/.git";
            refs x repo ref := if bool_decide (repo = "/repo/.git") then strs.TrimSpace (default "" (repoRefs x !! ref)) else "" |}.
  - intros dir ref x _. split; [done|]. intros out [= <-]. by rewrite bool_decide_true.
  - intros dir x _. split; [done|]. done.
  - intros dir ref sha x _. cbn. destruct (bool_decide (strs.TrimSpace sha = sha)) eqn:E; [|done].
    apply bool_decide_eq_true in E. intros repo ref'. cbn. case_bool_decide as Hr; subst; [|by rewrite decide_False by tauto].
    destruct (decide (ref = ref')) as [->|Hne].
    + by rewrite lookup_insert_eq, decide_True.
    + rewrite lookup_insert_ne by done. by rewrite decide_False by (intros [_ ->]; done).
Defined.

Definition demoService : Service := mkService demoManager (Some (audit.mkRecorder (λ _, true) 1)).
Definition demoEvent (t : agent.EventType) : agent.NormalizedEvent := agent.mkNormalizedEvent t None None None None None.
Definition demoRequest (t : agent.EventType) (head status : string) : FinalizeRequest :=
  mkFinalizeRequest "ws-p-1-main-1" (demoEvent t) (mkInspection head status "" "" []) "p-1" "engine" "model" "run".
Definition demoStart (s : State) (refs : gmap string string) : World Repo := demoWorld [demoRow s] (mkRepo refs).
Definition demoTaskOf (id : string) : string := "p-1".
Definition demoAgreed (ref : string) : string := "c1".

(** Two calls for the same run. *)
Definition demoCall : proc (World Repo) Error (list FinalizeResult) :=
  res ← Finalize demoService (demoRequest agent.EventRunCompleted "c1" ""); mret [res].
Definition demoPool : Config (World Repo) Error (list FinalizeResult) := mkConfig [demoCall; demoCall] (demoStart StateActive ∅).

Lemma demo_fresh : fresh demoTaskOf (demoStart StateActive ∅).
Proof.
  constructor.
  - apply (bool_decide_eq_true _). reflexivity.
  - intros r ->%list_elem_of_singleton. done.
  - intros repo t. cbn. by case_bool_decide.
  - done.
  - intros e ?%elem_of_nil. done.
Qed.

Lemma demo_steps l :
  rtc (pstep (finalization demoService demoTaskOf demoAgreed) (others demoTaskOf demoAgreed))
    (mkConfig [] (demoStart StateActive ∅)) (schedule l demoPool).
Proof.
  assert (finalization demoService demoTaskOf demoAgreed demoCall) as Hjob.
  { left. eexists. split; [|reflexivity]. by intros base _. }
  eapply rtc_l; [by apply p_start|]. eapply rtc_l; [by apply p_start|]. apply schedule_steps.
Qed.

(** Alternating: one call decides, the other finds it done. *)
Definition alternate (n : nat) : list nat := concat (repeat [0; 1] n).
Lemma Finalize_decides_once_witness :
  let c := schedule (alternate 20) demoPool in
  (λ p, match p with Ret [res] => Some (Idempotent res, Outcome_ res) | _ => None end) <$> threads c =
    [Some (false, OutcomeCompletedWithCommit); Some (true, OutcomeCompletedWithCommit)] ∧
  length (decisions "ws-p-1-main-1" (state c)) = 1 ∧ (∀ id, length (decisions id (state c)) ≤ 1).
Proof.
  split; [vm_compute; reflexivity|]. split; [vm_compute; reflexivity|].
  apply (Finalize_decides_once demoService demoTaskOf demoAgreed (demoStart StateActive ∅)); [apply demo_fresh|apply demo_steps].
Defined.

(** The process dies between the intent and the result ref. *)
Lemma crash_recovered_witness :
  let c := schedule (repeat 0 5) demoPool in
  length (intents (db (state c))) = 1 ∧
  ∃ results w', run (RecoverPendingFinalizations demoService) (state c) = (Ok (results, []), w') ∧ intents (db w') = [].
Proof.
  split; [vm_compute; reflexivity|].
  destruct (crash_recovered demoService demoTaskOf demoAgreed) with
    (w0 := demoStart StateActive ∅) (c := schedule (repeat 0 5) demoPool) as (results & w' & Hrun & Hnil & _).
  - constructor; [done|done|]. intros id i d. cbn. unfold audit.Record_, audit.recordInto. by case_bool_decide.
  - apply demo_fresh.
  - apply demo_steps.
  - exists results, w'. split; [exact Hrun|exact Hnil].
Defined.

(** ** Where the protocol loses or changes a result *)

Abbreviation demoFinalize t head status := (Finalize demoService (demoRequest t head status)).

(** A run that fails while its workspace waits for quota: the state machine
    allows the transition, the claim wants [active], and the call reports an
    outcome that nothing records. *)
Lemma waiting_failure_lost :
  let '(r, w) := run (demoFinalize agent.EventRunFailed "c0" "") (demoStart StateWaitingQuota ∅) in
  match r with Ok res => Idempotent res = true ∧ Outcome_ res = OutcomeFailed | Err _ => False end ∧
  State_ <$> workspaces (db w) = [StateWaitingQuota] ∧ intents (db w) = [] ∧
  backlog.Task_State <$> backlog.tasks (base (db w)) = [backlog.StateRunning] ∧
  decisions "ws-p-1-main-1" w = [].
Proof. vm_compute. repeat split. Qed.

(** A completed run whose worktree could not be inspected: the empty head
    differs from the base, so the run completed "with a commit" that does not
    exist, and no ref is made. *)
Lemma empty_inspection_completes :
  let '(r, w) := run (demoFinalize agent.EventRunCompleted "" "") (demoStart StateActive ∅) in
  match r with Ok res => Outcome_ res = OutcomeCompletedWithCommit ∧ Res_CommitSHA res = "" | Err _ => False end ∧
  State_ <$> workspaces (db w) = [StateCompleted] ∧ ResultSHA <$> workspaces (db w) = [""] ∧ repoRefs (ext w) = ∅.
Proof. vm_compute. repeat split. Qed.

(** Asked again, a run that left only uncommitted changes has a commit. *)
Lemma repeated_call_invents_commit :
  let ask := demoFinalize agent.EventRunCompleted "c0" " M f" in
  let '(r1, w1) := run ask (demoStart StateActive ∅) in
  let '(r2, w2) := run ask w1 in
  match r1, r2 with
  | Ok a, Ok b => Outcome_ a = OutcomeCompletedWithUncommittedChanges ∧ Outcome_ b = Outcome_ a ∧
                  Res_CommitSHA a = "" ∧ Res_CommitSHA b = "c0"
  | _, _ => False
  end.
Proof. vm_compute. repeat split. Qed.

(** A second attempt of a task whose first attempt left a result: its run can
    never be finalized with a result of its own, and its intent stays. *)
Lemma second_attempt_conflicts :
  let '(r, w) := run (demoFinalize agent.EventRunCompleted "c2" "")
                   (demoStart StateActive {[FullyQualifiedResultBranch "p-1" := "c1"]}) in
  r = Err (ErrResultRefConflict "ws-p-1-main-1" "p-1" (FullyQualifiedResultBranch "p-1") "c1" "c2") ∧
  Phase <$> intents (db w) = [FinalizePhasePending] ∧
  (run (RecoverPendingFinalizations demoService) w).1 =
    Ok ([], [("ws-p-1-main-1", ErrResultRefConflict "ws-p-1-main-1" "p-1" (FullyQualifiedResultBranch "p-1") "c1" "c2")]).
Proof. vm_compute. repeat split. Qed.

(** Every repetition writes a notice. *)
Lemma notices_repeat :
  let ask := demoFinalize agent.EventRunCompleted "c1" "" in
  let w := (run ask (run ask (run ask (demoStart StateActive ∅)).2).2).2 in
  audit.AuditEvent_Type <$> backlog.trail (base (db w)) =
    [outcomeDecided; "run.finalize_idempotent"; "run.finalize_idempotent"].
Proof. vm_compute. repeat split. Qed.

End runapp.

