(* ===== verification/Runner.v ===== *)
(** * Runner: one run of a coding agent, end to end

    Models [internal/runapp/run.go] and [internal/daemon/runapp_service.go]: the
    service behind [forge run --direct] creates a task and a workspace, starts
    one agent through the supervisor, inspects what it left and finalizes
    ([Finalize.v]).  The supervisor and the usage sink are interfaces of the
    code, and parameters here ([Agents]); what the agent and everybody else does
    while it runs is whatever [supervise] does to the shared world. *)
From S2P Require Import Prelude Process AuditTrail Agent Projects Backlog WorkspaceRows Workspace Finalize.

Module runner.
Import process workspace runapp.

Record SupervisorRequest := mkSupervisorRequest {
  Sup_WorkspaceID : string;
  Sup_Engine : string;
  Sup_Model : string;
  Prompt : string;
  Timeout : Z }.

Record SupervisorResult := mkSupervisorResult {
  Handle_RunID : string;
  Handle_SessionID : string;
  Sup_Outcome : agent.NormalizedEvent;
  Events : list agent.NormalizedEvent;
  Failed : bool;
  Cancelled : bool }.

Record UsageEvent := mkUsageEvent {
  Usage_TaskID : string;
  Usage_ProjectID : string;
  Provider : string;
  Usage_Model : string;
  Usage_Kind : string;
  Usage_InputTokens : Z;
  CachedInputTokens : Z;
  Usage_OutputTokens : Z;
  Generations : Z;
  CostUSD : PrimFloat.float;
  OccurredAt : Time }.

(** [SupervisorRunner] and [UsageSink]. *)
Class Agents (X : Type) := {
  supervise : SupervisorRequest → string → World X → result string SupervisorResult * World X;
  RecordUsage : UsageEvent → World X → result string () * World X;
  (** [Registry.Lookup]: the engine is known. *)
  knownEngine : string → bool }.

Record RunRequest := mkRunRequest {
  Run_ProjectID : string;
  Run_ProjectPath : string;
  Run_TaskID : string;
  Run_Description : string;
  Run_Engine : string;
  Run_Model : string;
  Run_Timeout : Z }.

(** What the error texts are made of. *)
Inductive Failure :=
| FailCreate (e : workspace.Error)
| FailDispatch (e : backlog.Error)
| FailSupervisor (text : string)
| FailInspect (e : workspace.Error)
| FailFinalize (e : runapp.Error)
| FailProject (e : backlog.Error)
| FailTask (e : backlog.Error)
| FailEngine (engine : string)
| FailRequired (what : string).

(** Error classes of the CLI contract. *)
Record RunResult := mkRunResult {
  Run_Outcome : option Outcome;
  RunResult_TaskID : string;
  RunResult_WorkspaceID : string;
  RunResult_RunID : string;
  RunResult_WorkspacePath : string;
  RunResult_BaseSHA : string;
  ActualHEADSHA : string;
  RunResult_Engine : string;
  RunResult_Model : string;
  RunResult_ChangedFiles : list string;
  RunResult_CommitSHA : string;
  RunResult_ResultBranch : string;
  NextAction : string;
  Run_Error : option Failure;
  ErrorClass : string }.

Definition NextActionFor (o : Outcome) (taskID wsID : string) : string :=
  match o with
  | OutcomeCompletedWithCommit => "forge task show " +:+ taskID
  | OutcomeCompletedWithUncommittedChanges => "forge workspace diff " +:+ wsID
  | OutcomeCompletedNoChanges => "rephrase the task and run again"
  | OutcomeFailed => "check the agent output; re-run with a clearer task description"
  | OutcomeCancelled => "re-run when ready"
  | OutcomeTimedOut => "raise --timeout, or split the task into smaller steps"
  | OutcomeInterrupted => "re-run; the daemon was restarted mid-run"
  | OutcomeOther _ => ""
  end.

(** The usage events of a stream, as they are recorded. *)
Definition usageOf (taskID projectID engine model : string) (now : Time) (ev : agent.NormalizedEvent) : option UsageEvent :=
  match agent.Type_ ev, agent.Usage ev with
  | agent.EventUsageUpdated, Some u =>
      Some (mkUsageEvent taskID projectID engine model "coding" (agent.InputTokens u) (agent.CacheReadTokens u)
              (agent.OutputTokens u) 0 (agent.Cost u) now)
  | _, _ => None
  end.

Definition failed (taskID ws path base runID engine model : string) (f : Failure) (class : string) : RunResult :=
  mkRunResult None taskID ws runID path base "" engine model [] "" "" "" (Some f) class.

Section run.
  Context {X : Type} `{!External X, !Agents X} (s : Service).
  Abbreviation M := (proc (World X) Failure).

Definition orDefault (a d : string) : string := if bool_decide (a = "") then d else a.
Definition defaultTimeout : Z := 600 * 10 ^ 9.

(** [tasks.Transition]: the row is read before the transaction that moves it. *)
Definition TransitionTask (id : string) (a : backlog.Action) : proc (World X) backlog.Error () :=
  p ← query (λ w, backlog.plan id a (base (db w)));
  t ← read clock;
  attempt_ (λ w, match backlog.commit (svc_audit s) id a t p (base (db w)) with
                 | Ok (_, b) => (Ok (), withDB (withBase b (db w)) w)
                 | Err e => (Err e, w)
                 end).

Fixpoint recordAll (onError : UsageEvent → proc (World X) Failure ()) (l : list UsageEvent) : M () :=
  match l with
  | [] => mret ()
  | u :: l =>
      r ← atomic (RecordUsage u);
      _ ← (if is_ok r then mret () else onError u);
      recordAll onError l
  end.
Definition recordUsage (taskID projectID engine model : string) (events : list agent.NormalizedEvent) : M () :=
  t ← read clock;
  recordAll (λ _, ignore (stmt (auditTx (svc_audit s) taskID "run.usage_persist_failed"
                                 [("engine", audit.VString engine); ("model", audit.VString model)])))
    (omap (usageOf taskID projectID engine model t) events).

(** [Run]: it reports failures in its result; an error comes with one when the
    caller is to be told that the call itself failed. *)
Definition Run (req : RunRequest) : M (RunResult * bool) :=
  let engine := orDefault (Run_Engine req) "opencode" in
  let model := orDefault (Run_Model req) "zai-coding-plan/glm-5.2" in
  let timeout := if (Run_Timeout req <=? 0)%Z then defaultTimeout else Run_Timeout req in
  let task := Run_TaskID req in
  r ← catch (Create (wm s) (mkCreateRequest (Run_ProjectID req) (Run_ProjectPath req) task "" ""));
  match r with
  | Err e => mret (failed task "" "" "" "" engine model (FailCreate e) "INTERNAL_ERROR", true)
  | Ok ws =>
      r ← catch (TransitionTask task backlog.ActionDispatch);
      match r with
      | Ok _ | Err (backlog.ErrInvalidTransition _ _) =>
          let fin ins ev run := Finalize s (mkFinalizeRequest (ID ws) ev ins task engine model run) in
          r ← atomic (supervise (mkSupervisorRequest (ID ws) engine model (Run_Description req) timeout) (Path ws));
          match r with
          | Err e =>
              r ← catch (InspectWorktree ws);
              let ins := match r with Ok ins => ins | Err _ => zeroInspection end in
              let ev := agent.mkNormalizedEvent agent.EventRunFailed None None None None
                          (Some (agent.mkFailurePayload agent.FailureInternalError e 0)) in
              _ ← ignore (fin ins ev "");
              mret (failed task (ID ws) (Path ws) (BaseSHA ws) "" engine model (FailSupervisor e) "ADAPTER_FAILED", false)
          | Ok res =>
              fresh ← catch (Get (ID ws));
              r ← catch (match fresh with
                         | Ok fresh => InspectWorktree fresh
                         | Err _ => Throw (ErrRequired "worktree path")
                         end);
              match r with
              | Err e =>
                  _ ← ignore (fin zeroInspection (Sup_Outcome res) (Handle_RunID res));
                  mret (failed task (ID ws) (Path ws) (BaseSHA ws) (Handle_RunID res) engine model (FailInspect e)
                          "GIT_INSPECT_FAILED", false)
              | Ok ins =>
                  _ ← recordUsage task (Run_ProjectID req) engine model (Events res);
                  r ← catch (fin ins (Sup_Outcome res) (Handle_RunID res));
                  mret match r with
                       | Err e => (failed task (ID ws) (Path ws) (BaseSHA ws) (Handle_RunID res) engine model
                                     (FailFinalize e) "INTERNAL_ERROR", true)
                       | Ok f =>
                           (mkRunResult (Some (Outcome_ f)) task (ID ws) (Handle_RunID res) (Path ws) (BaseSHA ws)
                              (Res_ActualHEAD f) engine model (Res_ChangedFiles f) (Res_CommitSHA f) (Res_ResultBranch f)
                              (NextActionFor (Outcome_ f) task (ID ws)) None "", false)
                       end
              end
          end
      | Err e => mret (failed task (ID ws) "" "" "" engine model (FailDispatch e) "INTERNAL_ERROR", true)
      end
  end.

(** ** [RunAppService.RunTask] ([daemon/runapp_service.go]) *)

Record RunTaskRequest := mkRunTaskRequest {
  RunTask_ProjectID : string;
  RunTask_Description : string;
  RunTask_Engine : string;
  RunTask_Model : string;
  RunTask_Timeout : Z }.

(** [tasks.Add] without attachments: no file is read. *)
Definition AddTask (project description : string) : proc (World X) backlog.Error backlog.Task :=
  t ← read clock;
  attempt_ (λ w, match (backlog.Add (svc_audit s) (λ _, None) id id t
                          (backlog.mkAddRequest project description "" "" []) ∅ (base (db w))).1 with
                 | Ok (tk, _, b) => (Ok tk, withDB (withBase b (db w)) w)
                 | Err e => (Err e, w)
                 end).

Definition refused (engine model : string) (f : Failure) (class : string) : RunResult :=
  failed "" "" "" "" "" engine model f class.

(** The result and whether an error is returned with it; without a project id
    there is only the error. *)
Definition RunTask (req : RunTaskRequest) : M (option RunResult * bool) :=
  if bool_decide (RunTask_ProjectID req = "") then mret (None, true)
  else if bool_decide (RunTask_Description req = "")
  then mret (Some (refused (RunTask_Engine req) (RunTask_Model req) (FailRequired "description") "EMPTY_PROMPT"), false)
  else
    p ← catch (query (E := backlog.Error) (λ w, backlog.GetProject (RunTask_ProjectID req) (base (db w))));
    match p with
    | Err e => mret (Some (refused "" "" (FailProject e) "NOT_A_REPO"), true)
    | Ok p =>
        let engine := orDefault (RunTask_Engine req) "opencode" in
        if negb (knownEngine engine)
        then mret (Some (refused engine (RunTask_Model req) (FailEngine engine) "UNKNOWN_ENGINE"), true)
        else
          t ← catch (AddTask (backlog.Project_ID p) (RunTask_Description req));
          match t with
          | Err e => mret (Some (refused engine (RunTask_Model req) (FailTask e) "INTERNAL_ERROR"), true)
          | Ok t =>
              '(res, _) ← Run (mkRunRequest (backlog.Project_ID p) (backlog.Path p) (backlog.ID t) (RunTask_Description req)
                                 engine (RunTask_Model req) (RunTask_Timeout req));
              mret (Some res, false)
          end
    end.

End run.

(** ** Usage is recorded in full *)

Section usage.
  Context {X : Type} `{!External X, !Agents X} (s : Service) (log : X → list UsageEvent).
  (** Whatever the sink answers, it has seen the event. *)
  Context (Hsink : ∀ u w, log (ext (RecordUsage u w).2) = log (ext w) ++ [u]).

Lemma log_audit (f : DB → result workspace.Error DB) w :
  ∃ w', run (ignore (E' := Failure) (stmt f)) w = (Ok (), w') ∧ log (ext w') = log (ext w).
Proof.
  rewrite run_ignore. eexists. split; [done|]. unfold stmt. rewrite run_attempt. by destruct (f (db w)).
Qed.

(** However often the sink fails, every usage event of the stream reaches
    it, once and in order, and recording never fails the run. *)
Theorem recordUsage_complete taskID projectID engine model events w :
  ∃ w', run (recordUsage s taskID projectID engine model events) w = (Ok (), w') ∧
    log (ext w') = log (ext w) ++ omap (usageOf taskID projectID engine model (clock w)) events.
Proof.
  unfold recordUsage. rewrite run_bind. cbn [run read atomic mret proc_ret]. generalize (omap (usageOf taskID projectID engine model (clock w)) events).
  intros l. revert w. induction l as [|u l IH]; intros w; [exists w; by rewrite app_nil_r|].
  cbn [recordAll]. rewrite run_bind. cbn [run atomic]. pose proof (Hsink u w) as H.
  destruct (RecordUsage u w) as [r w1]. cbn [snd] in H. cbv beta iota. rewrite run_bind.
  assert (∃ w2, run (if is_ok r then mret () else ignore (E' := Failure) (stmt (auditTx (svc_audit s) taskID
                      "run.usage_persist_failed" [("engine", audit.VString engine); ("model", audit.VString model)]))) w1
                = (Ok (), w2) ∧ log (ext w2) = log (ext w1)) as (w2 & -> & H2)
    by (destruct (is_ok r); [by exists w1|apply log_audit]).
  destruct (IH w2) as (w' & -> & Hw). exists w'. split; [done|]. by rewrite Hw, H2, H, <-app_assoc.
Qed.
End usage.

(** ** A sandbox: one repository, one worktree, a scripted agent *)

Record Sandbox := mkSandbox {
  sb_refs : gmap string string;
  sb_head : string;
  sb_files : gmap string string;  (** uncommitted contents *)
  sb_there : bool;
  sb_usage : list UsageEvent }.

Definition sb_status (x : Sandbox) : string :=
  foldr String.append "" ((λ '(p, _), " M " +:+ p +:+ String strs.nl "") <$> map_to_list (sb_files x)).

Definition sandboxGit (sub : string) (args : list string) (x : Sandbox) : result GitFailure string * Sandbox :=
  let cmd s := bool_decide (sub = s) in
  let arg n := default "" (args !! n) in
  if cmd "update-ref"
  then (Ok "", mkSandbox (<[arg 0 := arg 1]> (sb_refs x)) (sb_head x) (sb_files x) (sb_there x) (sb_usage x))
  else if cmd "for-each-ref" then (Ok (default "" (sb_refs x !! arg 1)), x)
  else if cmd "rev-parse"
  then (Ok (if bool_decide (arg 0 = "--git-common-dir") then "/repo/.git"
            else if bool_decide (arg 0 = "HEAD") then sb_head x else arg 0), x)
  else if cmd "status" then (Ok (sb_status x), x)
  else if cmd "diff" && bool_decide (arg 0 = "--cached")
  then (if bool_decide (sb_files x = ∅) then Ok "" else Err (Exit ""), x)
  else if cmd "diff" && bool_decide (arg 1 = "HEAD")
  then (Ok (if bool_decide (arg 0 = sb_head x) then "" else "diff of " +:+ sb_head x), x)
  else if cmd "commit" then (Ok "", mkSandbox (sb_refs x) ("c" +:+ default "" (sb_files x !! "f")) ∅ (sb_there x) (sb_usage x))
  else (Ok "", x).
#[export] Instance sandboxExternal : External Sandbox := {|
  git argv x := match argv with _ :: _ :: sub :: args => sandboxGit sub args x | _ => (Ok "", x) end;
  isWorktree _ x := sb_there x;
  statDir _ x := Some (sb_there x);
  mkdirParent _ x := (Ok (), x) |}.

(** The prompt is the script. *)
Definition script (prompt : string) (x : Sandbox) : Sandbox :=
  let put c := mkSandbox (sb_refs x) (sb_head x) (<["f" := c]> (sb_files x)) (sb_there x) (sb_usage x) in
  if bool_decide (prompt = "edit") then put "1"
  else if bool_decide (prompt = "commit") then mkSandbox (sb_refs x) "c1" ∅ (sb_there x) (sb_usage x)
  else if bool_decide (prompt = "vanish") then mkSandbox (sb_refs x) (sb_head x) ∅ false (sb_usage x)
  else x.
Definition demoUsage : agent.NormalizedEvent :=
  agent.mkNormalizedEvent agent.EventUsageUpdated None None
    (Some (agent.mkUsagePayload 10 20 5 0 PrimFloat.one "USD")) None None.
#[export] Instance sandboxAgents : Agents Sandbox := {|
  supervise req _ w :=
    (Ok (mkSupervisorResult "run-1" "session-1" (demoEvent agent.EventRunCompleted) [demoUsage] false false),
     withExt (script (Prompt req) (ext w)) w);
  RecordUsage u w :=
    (Err "full", withExt (mkSandbox (sb_refs (ext w)) (sb_head (ext w)) (sb_files (ext w)) (sb_there (ext w))
                            (sb_usage (ext w) ++ [u])) w);
  knownEngine e := bool_decide (e = "opencode") |}.

Definition sandbox : World Sandbox :=
  mkWorld (mkDB (backlog.mkDB (backlog.projects demoBase) [] [] ∅ []) [] [] 1 []) (mkSandbox ∅ "c0" ∅ true []) 2.

(** The sink refuses each event; both were offered. *)
Lemma recordUsage_complete_witness :
  ∃ w', run (recordUsage demoService "p-1" "p" "opencode" "m" [demoUsage; demoEvent agent.EventRunStarted; demoUsage]) sandbox
          = (Ok (), w') ∧ length (sb_usage (ext w')) = 2.
Proof.
  destruct (@recordUsage_complete Sandbox sandboxAgents demoService sb_usage (λ u w, eq_refl) "p-1" "p" "opencode" "m"
              [demoUsage; demoEvent agent.EventRunStarted; demoUsage] sandbox) as (w' & Hrun & Hlog).
  exists w'. split; [exact Hrun|]. rewrite Hlog. reflexivity.
Defined.

Definition demoRun (prompt : string) : RunTaskRequest := mkRunTaskRequest "p" prompt "" "" 0.

(** A run that commits: everything ends where it should. *)
Example RunTask_commits :
  let '(r, w) := run (RunTask demoService (demoRun "commit")) sandbox in
  match r with
  | Ok (Some res, false) =>
      Run_Outcome res = Some OutcomeCompletedWithCommit ∧ RunResult_CommitSHA res = "c1" ∧
      NextAction res = "forge task show p-1"
  | _ => False
  end ∧
  State_ <$> workspaces (db w) = [StateCompleted] ∧ ResultSHA <$> workspaces (db w) = ["c1"] ∧
  sb_refs (ext w) !! FullyQualifiedResultBranch "p-1" = Some "c1".
Proof. vm_compute. repeat split. Qed.

(** An agent that removes its worktree: the caller is told that the inspection
    failed, and the daemon has recorded a completed run "with a commit". *)
Lemma inspect_failure_recorded_completed :
  let '(r, w) := run (RunTask demoService (demoRun "vanish")) sandbox in
  match r with
  | Ok (Some res, false) => Run_Outcome res = None ∧ ErrorClass res = "GIT_INSPECT_FAILED"
  | _ => False
  end ∧
  State_ <$> workspaces (db w) = [StateCompleted] ∧
  backlog.Task_State <$> backlog.tasks (base (db w)) = [backlog.StateCompleted].
Proof. vm_compute. repeat split. Qed.

End runner.

