(* ===== verification/Decompose.v ===== *)
(** * Decompose: from a specification to a work graph

    Models [ValidateAgainstSpec] and [Decompose] of [internal/workgraph/graph.go]
    on top of the validator of [WorkGraph] and the specifications of
    [Specification].  The first part shows that the validator accepts what it
    should: a graph whose packages pass the local checks, whose dependencies
    decrease some rank and which is connected is not rejected. *)
From S2P Require Import Prelude Specification WorkGraph.

Module decompose.
Import workgraph.

(** ** [ValidateAgainstSpec] and [Decompose] *)

Inductive Error :=
| ErrInvalidSpec (vs : list specification.Violation)
| ErrInvalidGraph (es : list ValidationError).

(** [None] would be a search of the validator out of fuel; it never is. *)
Definition ValidateAgainstSpec (g : WorkGraph) (s : specification.Specification) : option (result Error WorkGraph) :=
  match specification.ValidateSpecification s with
  | Err vs => Some (Err (ErrInvalidSpec vs))
  | Ok s =>
      r ← validate g (Some (specification.ID <$> specification.AcceptanceCriteria s));
      Some (match r with Ok v => Ok v | Err es => Err (ErrInvalidGraph es) end)
  end.

Definition packageID (taskID acID : string) : string := taskID +:+ "-" +:+ acID.

Definition packageTitle (ac : specification.AcceptanceCriterion) : string :=
  let stmt := strs.TrimSpace (specification.Statement ac) in
  if bool_decide (stmt = "") then "Implement " +:+ specification.ID ac
  else
    let stmt := if 80 <? String.length stmt then strs.take_bytes 77 stmt +:+ "..." else stmt in
    "Implement " +:+ specification.ID ac +:+ ": " +:+ stmt.

(** The packages of the criteria from one on; [prev] is the criterion before. *)
Fixpoint packagesFrom (s : specification.Specification) (prev : option specification.AcceptanceCriterion)
    (acs : list specification.AcceptanceCriterion) : list WorkPackage :=
  match acs with
  | [] => []
  | ac :: acs =>
      mkWorkPackage (packageID (specification.TaskID s) (specification.ID ac)) (specification.TaskID s)
        StageImplementation (packageTitle ac) (specification.Objective s) [specification.ID ac]
        (specification.ProposedScope s)
        (match prev with Some p => [packageID (specification.TaskID s) (specification.ID p)] | None => [] end)
        PackagePending []
      :: packagesFrom s (Some ac) acs
  end.

Definition Decompose (s : specification.Specification) : option (result Error WorkGraph) :=
  match specification.ValidateSpecification s with
  | Err vs => Some (Err (ErrInvalidSpec vs))
  | Ok s =>
      ValidateAgainstSpec
        (mkWorkGraph (specification.TaskID s) (packagesFrom s None (specification.AcceptanceCriteria s))) s
  end.

(** ** The cycle search finds nothing where a rank decreases *)

Section acyclic.
  Context (adj : gmap string (list string)) (rank : string → nat).
  Hypothesis decreasing : ∀ n d, d ∈ deps adj n → rank d < rank n.

Definition grayAbove (s : Search) (k : nat) : Prop := ∀ g, colour s !! g = Some Gray → k ≤ rank g.
Definition grayKept (s s' : Search) : Prop := ∀ g, colour s' !! g = Some Gray → colour s !! g = Some Gray.

Lemma visit_acyclic rec node k ds s r s' :
  (∀ d s r s', rec d s = Some (r, s') → rank d < k → grayAbove s k → r = None ∧ grayKept s s') →
  (∀ d, d ∈ ds → rank d < k) → grayAbove s k →
  visit rec node ds s = Some (r, s') → r = None ∧ grayKept s s'.
Proof using Type.
  intros Hrec. revert s; induction ds as [|d ds IH]; intros s Hds Hg; cbn [visit].
  { intros [= <- <-]. split; [done|]. by intros g. }
  assert (rank d < k) as Hd by (apply Hds; by constructor).
  assert (∀ x, x ∈ ds → rank x < k) as Hds' by (intros x Hx; apply Hds; by constructor).
  destruct (colour s !! d) as [[]|] eqn:Hc.
  - apply Hg in Hc. lia.
  - by apply IH.
  - destruct (rec d s) as [[[c|] s1]|] eqn:Hr; [| |done].
    + by destruct (Hrec _ _ _ _ Hr Hd Hg).
    + destruct (Hrec _ _ _ _ Hr Hd Hg) as [_ Hk]. intros H.
      destruct (IH s1 Hds') as [-> Hk']; [intros g Hg1; by apply Hg, Hk|done|]. split; [done|].
      intros g Hg1. by apply Hk, Hk'.
Qed.

Lemma dfs_acyclic fuel node s r s' :
  dfs fuel adj node s = Some (r, s') → grayAbove s (S (rank node)) → r = None ∧ grayKept s s'.
Proof using decreasing.
  revert node s r s'; induction fuel as [|fuel IH]; intros node s r s'; cbn [dfs]; [done|].
  set (s0 := mkSearch (<[node := Gray]> (colour s)) (stack s ++ [node])). intros H Hg.
  assert (grayAbove s0 (rank node)) as Hg0.
  { intros g. simpl. destruct (decide (g = node)) as [->|Hn]; [done|].
    rewrite lookup_insert_ne by done. intros H1. apply Hg in H1. lia. }
  destruct (visit (dfs fuel adj) node _ s0) as [[c s1]|] eqn:Hv; [|done].
  eapply (visit_acyclic _ _ (rank node)) in Hv as [-> Hk].
  - injection H as <- <-. split; [done|]. intros g. simpl. destruct (decide (g = node)) as [->|Hn].
    + by rewrite lookup_insert_eq.
    + rewrite lookup_insert_ne by done. intros H1. apply Hk in H1. simpl in H1. by rewrite lookup_insert_ne in H1.
  - intros d x y z Hd Hlt Hx. eapply IH; [exact Hd|]. intros g H1. apply Hx in H1. lia.
  - intros d Hd. apply decreasing. by apply elem_of_sortStrings.
  - done.
Qed.

Lemma dfsAll_acyclic fuel nodes s r s' :
  dfsAll fuel adj nodes s = Some (r, s') → (∀ g, colour s !! g ≠ Some Gray) → r = None.
Proof using decreasing.
  revert s; induction nodes as [|n nodes IH]; intros s; cbn [dfsAll]; [by intros [= <- _]|].
  destruct (colour s !! n); [apply IH|]. destruct (dfs fuel adj n s) as [[c s1]|] eqn:Hd; [|done].
  intros H Hg. destruct (dfs_acyclic _ _ _ _ _ Hd) as [-> Hk]; [intros g H1; by apply Hg in H1|].
  apply (IH s1 H). intros g H1. by apply Hk, Hg in H1.
Qed.
End acyclic.

Lemma detectCycle_acyclic ps (rank : string → nat) :
  NoDup (ID <$> ps) → (∀ p d, p ∈ ps → d ∈ Dependencies p → rank d < rank (ID p)) → detectCycle ps = Some None.
Proof.
  intros Hnd Hr. destruct (detectCycle_total ps) as [c Hc]. rewrite Hc. f_equal.
  unfold detectCycle in Hc. apply fmap_Some in Hc as ([r s'] & Hd & ->). cbn [fst].
  eapply (dfsAll_acyclic (adjacency ps) rank); [|exact Hd|].
  - intros n d Hd'. pose proof Hd' as H. apply elem_of_deps_adjacency in H as Hn.
    destruct (decide (n ∈ ID <$> ps)) as [Hin|Hni].
    + apply list_elem_of_fmap in Hin as (p & -> & Hp). rewrite deps_adjacency in Hd' by done. by apply Hr.
    + tauto.
  - intros g. simpl. by rewrite lookup_empty.
Qed.

(** ** The breadth-first search reaches what is connected *)

Lemma bfs_closed adj fuel queue visited v :
  (∀ n b, n ∈ visited → n ∉ queue → b ∈ neighbours adj n → b ∈ visited) →
  bfs fuel adj queue visited = Some v →
  visited ⊆ v ∧ ∀ n b, n ∈ v → b ∈ neighbours adj n → b ∈ v.
Proof.
  revert queue visited; induction fuel as [|fuel IH]; intros [|cur queue] visited Hc; cbn [bfs].
  1,3: intros [= <-]; split; [done|]; intros n b Hn; apply Hc; [done|]; apply not_elem_of_nil.
  - done.
  - intros H. apply IH in H as [H1 H2]; [split; [set_solver|done]|].
    intros n b Hn Hq Hb. rewrite elem_of_app, list_elem_of_filter, elem_of_elements in Hq.
    rewrite elem_of_union, elem_of_list_to_set, list_elem_of_filter, elem_of_elements in Hn |- *.
    destruct (decide (b ∈ visited)) as [|Hbv]; [by left|].
    destruct Hn as [Hn|[Hn1 Hn2]]; [|exfalso; apply Hq; by right].
    destruct (decide (n = cur)) as [->|Hne]; [right; by split|]. left.
    apply (Hc n); [done| |done]. rewrite elem_of_cons. tauto.
Qed.

(** An edge between two packages is in the undirected graph. *)
Lemma undirected_edge ps p d :
  p ∈ ps → d ∈ Dependencies p → d ∈ ID <$> ps →
  d ∈ neighbours (undirected ps) (ID p) ∧ ID p ∈ neighbours (undirected ps) d.
Proof.
  unfold undirected. set (present := list_to_set (ID <$> ps) : gset string).
  set (add := λ a b (m : gmap string (gset string)), <[a := {[b]} ∪ default ∅ (m !! a)]> m).
  set (one := λ (i : string) (m : gmap string (gset string)) d, if bool_decide (d ∈ present) then add d i (add i d m) else m).
  assert (∀ a b m x y, y ∈ neighbours m x → y ∈ neighbours (add a b m) x) as Hkeep.
  { intros a b m x y Hy. unfold neighbours, add. destruct (decide (x = a)) as [->|Hx].
    - rewrite lookup_insert_eq. simpl. apply elem_of_union_r. exact Hy.
    - by rewrite lookup_insert_ne. }
  assert (∀ a b m, b ∈ neighbours (add a b m) a) as Hnew.
  { intros a b m. unfold neighbours, add. rewrite lookup_insert_eq. simpl. by apply elem_of_union_l, elem_of_singleton. }
  assert (∀ i ds m x y, y ∈ neighbours m x → y ∈ neighbours (foldl (one i) m ds) x) as Hds.
  { intros i ds. induction ds as [|e ds IH]; intros m x y Hy; [done|]. cbn [foldl]. apply IH. unfold one.
    case_bool_decide; [by apply Hkeep, Hkeep|done]. }
  assert (∀ i ds m, d ∈ ds → d ∈ present →
    d ∈ neighbours (foldl (one i) m ds) i ∧ i ∈ neighbours (foldl (one i) m ds) d) as Hone.
  { intros i ds. induction ds as [|e ds IH]; intros m Hd Hpr; [by apply elem_of_nil in Hd|]. cbn [foldl].
    apply elem_of_cons in Hd as [->|Hd]; [|by apply IH].
    unfold one at 2 4. rewrite bool_decide_true by done. split; apply Hds; [apply Hkeep|]; apply Hnew. }
  intros Hp Hd Hpr. assert (d ∈ present) as Hpr' by by apply elem_of_list_to_set.
  assert (∀ qs m x y, y ∈ neighbours m x →
    y ∈ neighbours (foldl (λ m p, foldl (one (ID p)) m (Dependencies p)) m qs) x) as Hqs.
  { induction qs as [|q qs IH]; intros m x y Hy; [done|]. cbn [foldl]. by apply IH, Hds. }
  assert (∀ qs m, p ∈ qs →
    d ∈ neighbours (foldl (λ m p, foldl (one (ID p)) m (Dependencies p)) m qs) (ID p) ∧
    ID p ∈ neighbours (foldl (λ m p, foldl (one (ID p)) m (Dependencies p)) m qs) d) as Hall; [|by apply Hall].
  induction qs as [|q qs IH]; intros m Hin; [by apply elem_of_nil in Hin|]. cbn [foldl].
  apply elem_of_cons in Hin as [->|Hin]; [|by apply IH].
  destruct (Hone (ID q) (Dependencies q) m Hd Hpr') as [H1 H2]. split; by apply Hqs.
Qed.

Lemma weaklyUnreachable_connected ps :
  (∀ p, p ∈ ps → rtc (linked ps) (ID (hd p ps)) (ID p)) →
  (∀ p d, p ∈ ps → d ∈ Dependencies p → d ∈ ID <$> ps) →
  weaklyUnreachable ps = Some [].
Proof.
  intros Hconn Hdeps. destruct (weaklyUnreachable_spec ps) as (l & Hl & _). rewrite Hl. f_equal.
  destruct ps as [|p0 ps]; [by injection Hl as <-|]. set (all := p0 :: ps) in *.
  change (weaklyUnreachable all) with
    (visited ← bfs (S (length all)) (undirected all) [ID p0] {[ID p0]};
     Some (filter (λ id, id ∉ visited) (ID <$> all))) in Hl.
  apply bind_Some in Hl as (v & Hv & [= <-]).
  apply bfs_closed in Hv as [Hroot Hcl].
  2:{ intros n b ->%elem_of_singleton Hn. by rewrite list_elem_of_singleton in Hn. }
  destruct (filter (λ id, id ∉ v) (ID <$> all)) as [|x xs] eqn:E; [done|]. exfalso.
  assert (x ∈ filter (λ id, id ∉ v) (ID <$> all)) as Hx by (rewrite E; constructor).
  apply list_elem_of_filter in Hx as [Hxv (p & -> & Hp)%list_elem_of_fmap]. apply Hxv.
  specialize (Hconn p Hp). simpl in Hconn. clear E Hxv.
  assert (∀ a b, rtc (linked all) a b → a ∈ v → b ∈ v) as Hstep.
  { induction 1 as [|a b c (q & Hq & [[<- Hb]|[<- Ha]]) _ IH]; intros Hin; [done|..]; apply IH.
    - destruct (undirected_edge all q b Hq Hb (Hdeps q b Hq Hb)) as [H1 _]. by apply (Hcl (ID q)).
    - destruct (undirected_edge all q a Hq Ha (Hdeps q a Hq Ha)) as [_ H2]. by apply (Hcl a). }
  apply (Hstep _ _ Hconn). apply Hroot. by apply elem_of_singleton.
Qed.

(** ** The validator is complete *)

Lemma foldl_ownAC_complete id acs m e :
  NoDup acs → (∀ ac, ac ∈ acs → m !! ac = None) → (foldl (ownAC id) (m, e) acs).2 = e.
Proof.
  revert m e; induction acs as [|x acs IH]; intros m e Hnd Hm; [done|]. cbn [foldl].
  apply NoDup_cons in Hnd as [Hni Hnd].
  assert (ownAC id (m, e) x = (<[x := id]> m, e)) as ->.
  { unfold ownAC. cbn [fst snd]. by rewrite (Hm x) by constructor. }
  apply IH; [done|]. intros ac Hac. rewrite lookup_insert_ne by congruence. apply Hm. by constructor.
Qed.

Lemma checkPackages_complete i ps s :
  let qs := normalise <$> ps in
  Forall well_package qs → Forall (λ p, PackageState_IsValid (State p) = true) ps →
  NoDup (ID <$> qs) → NoDup (mjoin (AcceptedACIDs <$> qs)) →
  (∀ id, id ∈ ID <$> qs → ids s !! id = None) →
  (∀ ac, ac ∈ mjoin (AcceptedACIDs <$> qs) → acOwners s !! ac = None) →
  ∃ s', checkPackages i ps s = (s', []).
Proof.
  cbv zeta. revert i s; induction ps as [|p ps IH]; intros i s; cbn [checkPackages]; [eauto|].
  rewrite !fmap_cons. intros [Hw Hws]%Forall_cons [Hst Hsts]%Forall_cons [Hni Hnd]%NoDup_cons.
  change (mjoin (AcceptedACIDs (normalise p) :: (AcceptedACIDs <$> (normalise <$> ps)))) with
    (AcceptedACIDs (normalise p) ++ mjoin (AcceptedACIDs <$> (normalise <$> ps))).
  intros (Ha1 & Ha2 & Ha3)%NoDup_app Hid Hac.
  unfold checkPackage. destruct Hw as [W1 W2 W3 W4 W5 W6 W7 W8].
  rewrite (bool_decide_false (ID (normalise p) = "")) by done.
  rewrite (Hid (ID (normalise p))) by constructor.
  pose proof (foldl_ownAC_complete (ID (normalise p)) (AcceptedACIDs (normalise p)) (acOwners s) [] Ha1) as Ho.
  destruct (foldl_ownAC (ID (normalise p)) (AcceptedACIDs (normalise p)) (acOwners s) [] Ha1) as [_ Hown].
  destruct (foldl (ownAC _) _ _) as [owners errAC]. cbn [fst snd] in *.
  rewrite Ho; [|intros ac Hx; apply Hac; by apply elem_of_app; left].
  destruct (IH (S i) (mkSeen (<[ID (normalise p) := i]> (ids s)) owners)) as [s' ->].
  - done.
  - done.
  - done.
  - done.
  - intros x Hx. cbn [ids]. rewrite lookup_insert_ne by (by intros <-). apply Hid. by constructor.
  - intros ac Hx. cbn [acOwners]. apply eq_None_not_Some. intros [Hs|Hin]%Hown.
    + rewrite Hac in Hs; [by destruct Hs|]. apply elem_of_app. by right.
    + by apply (Ha2 ac).
  - exists s'. f_equal. rewrite !bool_decide_false by done. cbn [when app].
    unfold Stage_IsValid. rewrite Hst, bool_decide_true by done. done.
Qed.

Lemma when_false b e : b = false → when b e = [].
Proof. by intros ->. Qed.

(** A graph that passes the local checks, whose dependencies exist and decrease a
    rank, that hangs together and, against a specification, owns exactly its
    criteria, is accepted. *)
Lemma validate_complete g acs (rank : string → nat) :
  let qs := normalise <$> Packages g in
  strs.TrimSpace (TaskID g) ≠ "" → Packages g ≠ [] →
  Forall well_package qs → Forall (λ p, PackageState_IsValid (State p) = true) (Packages g) →
  NoDup (ID <$> qs) → NoDup (mjoin (AcceptedACIDs <$> qs)) →
  (∀ p d, p ∈ qs → d ∈ Dependencies p → d ∈ ID <$> qs ∧ rank d < rank (ID p)) →
  (∀ p, p ∈ qs → rtc (linked qs) (ID (hd p qs)) (ID p)) →
  (∀ l, acs = Some l → ∀ ac, ac ∈ l ↔ ac ∈ mjoin (AcceptedACIDs <$> qs)) →
  validate g acs = Some (Ok (mkWorkGraph (TaskID g) (sortStable lessID qs))).
Proof.
  cbv zeta. intros Ht Hne Hw Hst Hnd Hna Hdep Hconn Hspec. unfold validate.
  set (qs := normalise <$> Packages g) in *.
  destruct (checkPackages_complete 0 (Packages g) (mkSeen ∅ ∅)) as [s Hc]; [done..| | |].
  1,2: intros x _; apply lookup_empty.
  rewrite Hc. destruct (checkPackages_spec _ _ _ _ Hc) as (_ & _ & _ & _ & Hids & _ & Hown).
  cbn [ids acOwners] in *. fold qs in Hids, Hown.
  rewrite (detectCycle_acyclic qs rank) by (done || intros p d Hp Hd; by apply Hdep). cbn [mbind option_bind].
  rewrite (weaklyUnreachable_connected qs); [|done|intros p d Hp Hd; by apply (Hdep p d)].
  assert ((if bool_decide (qs ≠ []) && bool_decide (size (ids s) = length qs) then Some [] else Some []) = Some (@nil string)) as ->
    by by destruct (_ && _).
  cbn [mbind option_bind].
  assert (mjoin (checkDependencies (ids s) <$> qs) = []) as ->.
  { apply join_nil. intros p Hp. apply join_nil. intros d Hd. destruct (Hdep p d Hp Hd) as [Hin Hlt].
    rewrite bool_decide_false by (intros ->; lia). apply when_false, bool_decide_eq_false.
    apply not_eq_None_Some, Hids. by right. }
  assert (match acs with Some l => checkSpec l (acOwners s) | None => [] end = []) as ->.
  { destruct acs as [l|]; [|done]. specialize (Hspec l eq_refl). unfold checkSpec. apply app_nil. split; apply join_nil.
    - intros [ac o] Hin%elem_of_map_to_list. apply when_false, negb_false_iff, bool_decide_eq_true. simpl.
      apply Hspec. destruct (Hown ac) as [H _]. destruct H as [[? H]|H]; [by eexists|by rewrite lookup_empty in H|done].
    - intros ac Hin. apply when_false, bool_decide_eq_false. apply not_eq_None_Some, Hown. right. by apply Hspec. }
  rewrite (when_false (bool_decide (strs.TrimSpace (TaskID g) = ""))) by by apply bool_decide_eq_false.
  rewrite (when_false (bool_decide (Packages g = []))) by by apply bool_decide_eq_false.
  rewrite (when_false (bool_decide ([] ≠ []))) by (apply bool_decide_eq_false; tauto).
  done.
Qed.

(** ** The chain of packages *)

Section chain.
  Context (s : specification.Specification).
  Abbreviation acs := (specification.AcceptanceCriteria s).
  Abbreviation pid ac := (packageID (specification.TaskID s) (specification.ID ac)).

(** No white space that only one of [trim] and [strings.TrimSpace] removes. *)
Record trimmable : Prop := {
  tr_task : strs.TrimSpace (specification.TaskID s) ≠ "";
  tr_objective : strs.TrimSpace (specification.Objective s) ≠ "";
  tr_ids : ∀ ac, ac ∈ acs → strs.TrimSpace (specification.ID ac) = specification.ID ac;
  tr_packages : ∀ ac, ac ∈ acs → strs.TrimSpace (pid ac) = pid ac }.

  Hypothesis valid : specification.well_formed s.
  Hypothesis clean : trimmable.

Lemma packagesFrom_lookup prev l i p :
  packagesFrom s prev l !! i = Some p →
  ∃ ac, l !! i = Some ac ∧ ID p = pid ac ∧ Package_TaskID p = specification.TaskID s ∧
    Package_Stage p = StageImplementation ∧ Title p = packageTitle ac ∧ Objective p = specification.Objective s ∧
    AcceptedACIDs p = [specification.ID ac] ∧ State p = PackagePending ∧ Attempts p = [] ∧
    Dependencies p = match i with
                     | O => match prev with Some q => [pid q] | None => [] end
                     | S j => match l !! j with Some q => [pid q] | None => [] end
                     end.
Proof using Type.
  revert prev i; induction l as [|ac l IH]; intros prev [|i]; cbn [packagesFrom]; try done.
  - intros [= <-]. exists ac. by split_and!.
  - intros H. destruct (IH _ _ H) as (ac' & H1 & H2 & H3 & H4 & H5 & H6 & H7 & H8 & H9 & H10).
    exists ac'. split_and!; try done. rewrite H10. by destruct i.
Qed.

Lemma packagesFrom_length prev l : length (packagesFrom s prev l) = length l.
Proof using Type. revert prev; induction l as [|ac l IH]; intros prev; simpl; [done|by rewrite IH]. Qed.

Lemma packageTitle_kept ac : strs.TrimSpace (packageTitle ac) ≠ "".
Proof using Type.
  unfold packageTitle. assert (∀ r, strs.TrimSpace ("Implement " +:+ r) ≠ "") as H.
  { intros r. change ("Implement " +:+ r) with (String "I" ("mplement " +:+ r)).
    by destruct (TrimSpace_keeps "I" ("mplement " +:+ r)) as [u ->]. }
  by case_bool_decide.
Qed.

Lemma trimAndDedup_one x : x ≠ "" → strs.TrimSpace x = x → trimAndDedupStrings [x] = [x].
Proof using Type.
  intros Hne Hx. unfold trimAndDedupStrings. cbn [trimAndDedup]. rewrite Hx, bool_decide_false by done.
  rewrite bool_decide_false; [done|]. apply not_elem_of_nil.
Qed.

Lemma pid_nonempty ac : pid ac ≠ "".
Proof using Type.
  unfold packageID. intros H. apply (f_equal (everyByte (λ c, negb (bool_decide (c = "-"%char))))) in H.
  rewrite !everyByte_app in H. cbn in H. by rewrite andb_false_r in H.
Qed.

(** The packages after normalisation, by index. *)
Lemma chain_lookup i q :
  (normalise <$> packagesFrom s None acs) !! i = Some q →
  ∃ ac, acs !! i = Some ac ∧ ID q = pid ac ∧ AcceptedACIDs q = [specification.ID ac] ∧ well_package q ∧
    Dependencies q = match i with
                     | O => []
                     | S j => match acs !! j with Some a => [pid a] | None => [] end
                     end.
Proof using clean valid.
  rewrite list_lookup_fmap. intros (p & Hp & ->)%fmap_Some.
  apply packagesFrom_lookup in Hp as (ac & Hl & H1 & H2 & H3 & H4 & H5 & H6 & H7 & _ & H8).
  assert (ac ∈ acs) as Hac by by eapply list_elem_of_lookup_2.
  destruct (specification.wf_criteria s valid ac Hac) as (_ & Hid & _).
  pose proof (tr_ids clean ac Hac) as Hti. pose proof (tr_packages clean ac Hac) as Htp.
  assert (Dependencies (normalise p) = match i with O => [] | S j => match acs !! j with Some a => [pid a] | None => [] end end) as Hd.
  { cbn [Dependencies normalise]. rewrite H8. destruct i as [|j]; [done|].
    destruct (acs !! j) as [a|] eqn:Ha; [|done]. apply trimAndDedup_one; [apply pid_nonempty|].
    apply (tr_packages clean). by eapply list_elem_of_lookup_2. }
  assert (AcceptedACIDs (normalise p) = [specification.ID ac]) as Hacs.
  { cbn [AcceptedACIDs normalise]. rewrite H6. by apply trimAndDedup_one. }
  exists ac. split_and!; [done|cbn [ID normalise]; by rewrite H1|done| |done].
  constructor; rewrite ?Hd, ?Hacs; cbn [ID Package_TaskID Package_Stage Title Objective State normalise].
  - rewrite H1, Htp. apply pid_nonempty.
  - rewrite H2. apply clean.
  - rewrite H3. by repeat constructor.
  - rewrite H4. apply packageTitle_kept.
  - rewrite H5. apply clean.
  - by rewrite H7.
  - done.
  - destruct i as [|j]; [constructor|]. destruct (acs !! j); [apply NoDup_singleton|constructor].
Qed.

Lemma chain_ids : ID <$> (normalise <$> packagesFrom s None acs) = (λ ac, pid ac) <$> acs.
Proof using clean valid.
  apply list_eq. intros i. rewrite !list_lookup_fmap.
  destruct (packagesFrom s None acs !! i) as [p|] eqn:E; cbn [fmap option_fmap option_map].
  - destruct (chain_lookup i (normalise p)) as (ac & Ha & Hid & _); [by rewrite list_lookup_fmap, E|].
    rewrite Ha. cbn [fmap option_fmap option_map]. by rewrite Hid.
  - apply lookup_ge_None in E. rewrite packagesFrom_length in E. apply lookup_ge_None in E. by rewrite E.
Qed.

Lemma chain_acs : mjoin (AcceptedACIDs <$> (normalise <$> packagesFrom s None acs)) = specification.ID <$> acs.
Proof using clean valid.
  assert (AcceptedACIDs <$> (normalise <$> packagesFrom s None acs) = (λ ac, [specification.ID ac]) <$> acs) as ->.
  { apply list_eq. intros i. rewrite !list_lookup_fmap.
    destruct (packagesFrom s None acs !! i) as [p|] eqn:E; cbn [fmap option_fmap option_map].
    - destruct (chain_lookup i (normalise p)) as (ac & Ha & _ & Hac & _); [by rewrite list_lookup_fmap, E|].
      rewrite Ha. cbn [fmap option_fmap option_map]. by rewrite Hac.
    - apply lookup_ge_None in E. rewrite packagesFrom_length in E. apply lookup_ge_None in E. by rewrite E. }
  generalize acs as l. induction l as [|ac l IH]; [done|].
  change (specification.ID ac :: mjoin ((λ ac, [specification.ID ac]) <$> l) = specification.ID ac :: (specification.ID <$> l)).
  by rewrite IH.
Qed.

Lemma NoDup_pids : NoDup ((λ ac, pid ac) <$> acs).
Proof using valid.
  rewrite (list_fmap_compose specification.ID (packageID (specification.TaskID s))).
  apply NoDup_fmap_2_strong; [|apply (specification.wf_ids s valid)]. intros x y _ _ Hxy. unfold packageID in Hxy.
  by apply (inj (String.append (specification.TaskID s))), (inj (String.append "-")) in Hxy.
Qed.

(** The position of a package in the chain. *)
Definition position (x : string) : nat :=
  match list_find (λ y, y = x) ((λ ac, pid ac) <$> acs) with Some (i, _) => i | None => 0 end.

Lemma position_lookup i ac : acs !! i = Some ac → position (pid ac) = i.
Proof using valid.
  intros Hi. unfold position. destruct (list_find _ _) as [[j y]|] eqn:E.
  - apply list_find_Some in E as (Hj & -> & _). symmetry. eapply (NoDup_lookup _ _ _ _ NoDup_pids); [|exact Hj].
    by rewrite list_lookup_fmap, Hi.
  - exfalso. apply list_find_None in E. rewrite Forall_forall in E. apply (E (pid ac)); [|done].
    apply list_elem_of_fmap. exists ac. split; [done|]. by eapply list_elem_of_lookup_2.
Qed.

Lemma chain_linked i p :
  (normalise <$> packagesFrom s None acs) !! i = Some p →
  ∀ q, (normalise <$> packagesFrom s None acs) !! 0 = Some q →
  rtc (linked (normalise <$> packagesFrom s None acs)) (ID q) (ID p).
Proof using clean valid.
  revert p; induction i as [|i IH]; intros p Hp q Hq; [rewrite Hq in Hp; by injection Hp as ->|].
  destruct (chain_lookup _ _ Hp) as (ac & _ & Hid & _ & _ & Hd).
  destruct ((normalise <$> packagesFrom s None acs) !! i) as [p'|] eqn:E.
  - eapply rtc_r; [by apply (IH p')|]. destruct (chain_lookup _ _ E) as (ac' & Ha' & Hid' & _).
    exists p. split; [by eapply list_elem_of_lookup_2|]. right. split; [done|]. rewrite Hd, Ha', Hid'. constructor.
  - exfalso. apply lookup_ge_None in E. apply lookup_lt_Some in Hp. lia.
Qed.

Lemma chain_valid :
  validate (mkWorkGraph (specification.TaskID s) (packagesFrom s None acs)) (Some (specification.ID <$> acs)) =
    Some (Ok (mkWorkGraph (specification.TaskID s) (sortStable lessID (normalise <$> packagesFrom s None acs)))).
Proof using clean valid.
  apply (validate_complete (mkWorkGraph (specification.TaskID s) (packagesFrom s None acs))
    (Some (specification.ID <$> acs)) position); cbn [TaskID Packages].
  - apply clean.
  - pose proof (specification.wf_some s valid). by destruct acs.
  - apply Forall_lookup. intros i q Hq. by destruct (chain_lookup _ _ Hq) as (ac & _ & _ & _ & ? & _).
  - apply Forall_lookup. intros i q Hq. destruct (packagesFrom_lookup _ _ _ _ Hq) as (ac & _ & _ & _ & _ & _ & _ & _ & -> & _). done.
  - rewrite chain_ids. apply NoDup_pids.
  - rewrite chain_acs. apply (specification.wf_ids s valid).
  - intros p d [i Hi]%list_elem_of_lookup Hd. destruct (chain_lookup _ _ Hi) as (ac & Ha & Hid & _ & _ & Hdeps).
    rewrite Hdeps in Hd. destruct i as [|j]; [by apply elem_of_nil in Hd|].
    destruct (acs !! j) as [a|] eqn:Haj; [|by apply elem_of_nil in Hd]. apply list_elem_of_singleton in Hd as ->.
    rewrite chain_ids, Hid, (position_lookup _ _ Ha), (position_lookup _ _ Haj). split; [|lia].
    apply list_elem_of_fmap. exists a. split; [done|]. by eapply list_elem_of_lookup_2.
  - intros p [i Hi]%list_elem_of_lookup. pose proof (chain_linked i p Hi) as H.
    destruct (normalise <$> packagesFrom s None acs) as [|q l]; [done|]. by apply H.
  - intros l [= <-] ac. by rewrite chain_acs.
Qed.
End chain.

(** ** Properties *)

(** every specification decomposes.  For a specification the domain
    validator accepts and whose ids hold no exotic white space, [Decompose]
    succeeds: the validator of the graph terminates and accepts its own chain.
    The graph has one pending implementation package per criterion, in the
    criterion's id and owning it alone, each depending on the package of the
    criterion before it, and all criteria are owned. *)
Theorem Decompose_total s s' :
  specification.ValidateSpecification s = Ok s' → trimmable s' →
  let acs := specification.AcceptanceCriteria s' in
  let pid ac := packageID (specification.TaskID s') (specification.ID ac) in
  ∃ v, Decompose s = Some (Ok v) ∧ TaskID v = specification.TaskID s' ∧
    length (Packages v) = length acs ∧ NoDup (ID <$> Packages v) ∧
    (∀ i ac, acs !! i = Some ac → ∃ p, p ∈ Packages v ∧ ID p = pid ac ∧
       AcceptedACIDs p = [specification.ID ac] ∧ State p = PackagePending ∧
       Dependencies p = match i with
                        | O => []
                        | S j => match acs !! j with Some a => [pid a] | None => [] end
                        end) ∧
    (∀ ac, ac ∈ specification.ID <$> acs ↔ ac ∈ mjoin (AcceptedACIDs <$> Packages v)).
Proof.
  intros Hs Hc. cbv zeta. pose proof Hs as [_ Hw]%specification.Validate_Ok.
  unfold Decompose. rewrite Hs. unfold ValidateAgainstSpec.
  rewrite (proj2 (specification.Validate_fix s') Hw). rewrite (chain_valid s' Hw Hc). cbn [mbind option_bind].
  eexists. split; [reflexivity|]. cbn [TaskID Packages].
  set (qs := normalise <$> packagesFrom s' None (specification.AcceptanceCriteria s')).
  pose proof (sortStable_Permutation lessID qs) as Hp. split_and!.
  - done.
  - rewrite Hp. unfold qs. by rewrite length_fmap, packagesFrom_length.
  - rewrite Hp. unfold qs. rewrite (chain_ids s' Hw Hc). by apply NoDup_pids.
  - intros i ac Hi. destruct (qs !! i) as [q|] eqn:E.
    + destruct (chain_lookup s' Hw Hc i q E) as (ac' & Ha & Hid & Hac & _ & Hd). rewrite Hi in Ha. injection Ha as <-.
      exists q. split_and!; [rewrite Hp; by eapply list_elem_of_lookup_2|done|done| |done].
      unfold qs in E. rewrite list_lookup_fmap in E. apply fmap_Some in E as (p & Hpk & ->).
      apply packagesFrom_lookup in Hpk as (? & _ & _ & _ & _ & _ & _ & _ & Hst & _). cbn [State normalise]. by rewrite Hst.
    + exfalso. apply lookup_ge_None in E. unfold qs in E. rewrite length_fmap, packagesFrom_length in E.
      apply lookup_lt_Some in Hi. lia.
  - intros ac. rewrite <-(chain_acs s' Hw Hc). fold qs.
    assert (mjoin (AcceptedACIDs <$> sortStable lessID qs) ≡ₚ mjoin (AcceptedACIDs <$> qs)) as ->; [|done].
    apply mjoin_Permutation. by rewrite Hp.
Qed.

(** [trim] and [strings.TrimSpace] differ on Unicode white space: two criteria
    whose ids differ by a no-break space pass the specification validator and
    collide in the graph it is decomposed to. *)
Definition nbsp : string := strs.bytes [194; 160].
Lemma nbsp_ids_collide :
  let s := specification.withContent "Build X"
    [specification.mkAC "AC-1" "it works"; specification.mkAC ("AC-1" +:+ nbsp) "it is tested"] specification.demoSpec in
  is_ok (specification.ValidateSpecification s) = true ∧
  match Decompose s with Some (Err (ErrInvalidGraph es)) => ErrDuplicateID "T-1-AC-1" 1 2 ∈ es | _ => False end.
Proof. split; [vm_compute; done|]. vm_compute. repeat constructor. Qed.

(** A long statement is cut at 77 bytes, in the middle of a rune if need be. *)
Lemma title_cuts_runes :
  let stmt := strs.Join (repeat (strs.bytes [208; 152]) 41) "" in
  packageTitle (specification.mkAC "AC-1" stmt) =
    "Implement AC-1: " +:+ strs.Join (repeat (strs.bytes [208; 152]) 38) "" +:+ strs.bytes [208] +:+ "...".
Proof. vm_compute. done. Qed.

Lemma Decompose_total_witness :
  ∃ s' v, specification.ValidateSpecification specification.demoSpec = Ok s' ∧
    Decompose specification.demoSpec = Some (Ok v) ∧ length (Packages v) = 2.
Proof.
  destruct (specification.ValidateSpecification specification.demoSpec) as [s'|e] eqn:E;
    [|exfalso; vm_compute in E; discriminate].
  assert (trimmable s') as Hc.
  { vm_compute in E. injection E as <-. constructor; try (vm_compute; discriminate).
    all: intros ac [->|[->|[]%elem_of_nil]%elem_of_cons]%elem_of_cons; vm_compute; reflexivity. }
  destruct (Decompose_total specification.demoSpec s' E Hc) as (v & H1 & _ & H2 & _).
  exists s', v. split_and!; [done|exact H1|]. rewrite H2. vm_compute in E. injection E as <-. reflexivity.
Defined.

End decompose.
