(* ===== verification/Handlers.v ===== *)
(** * Handlers: what each stage of a run does

    Models [internal/daemon/pipeline_handlers.go]: the eight stage handlers the
    daemon gives to the driver ([Driver.v]).  They compose the components of
    the other files: the compiler and the specification store, the work graph
    and its scheduler, the workspace manager, the supervised agent, the
    progressive verification, the review engine, the repair prompt and the
    finalization protocol.  What the handlers reach through an interface of the
    code (the agent, the test runner, the reviewer, the context, the artifact
    files) is a parameter ([Stages]); the pipeline store, which the driver owns,
    is seen through its reads, and a cancellation is handed to the driver. *)
From S2P Require Import Prelude Process AuditTrail Policy TestEngine Review Repair Pipeline Driver Agent Failover.
From S2P Require Import WorkGraph WorkStore Specification Compiler Projects Backlog WorkspaceRows Workspace Finalize Runner Decompose.

Module handlers.
Import pipeline process workspace runner.

(** ** Parameters of a run and what its stages leave behind *)

Record pipelineParams := mkPipelineParams {
  Params_ProjectID : string;
  Params_ProjectPath : string;
  Params_Description : string;
  Params_Engine : string;
  Params_Model : string;
  Params_BaseBranch : string;
  TimeoutNanos : Z }.
Definition zeroParams : pipelineParams := mkPipelineParams "" "" "" "" "" "" 0.

Record finalizeRecord := mkFinalizeRecord {
  Rec_Outcome : string;
  Rec_WorkspaceID : string;
  Rec_CommitSHA : string;
  Rec_ResultBranch : string;
  Rec_ChangedFiles : list string }.
Definition recordOf (fin : runapp.FinalizeResult) : finalizeRecord :=
  mkFinalizeRecord (runapp.Outcome_String (runapp.Outcome_ fin)) (runapp.Res_WorkspaceID fin) (runapp.Res_CommitSHA fin)
    (runapp.Res_ResultBranch fin) (runapp.Res_ChangedFiles fin).

Record flakeRetryEvidence := mkFlakeRetry {
  Packages : list string;
  OriginalFailures : list string;
  Retry_Passed : bool }.
Record verifyEvidence := mkVerifyEvidence { Results : list testengine.Result; FlakeRetry : option flakeRetryEvidence }.
Record reviewEvidence := mkReviewEvidence {
  Evidence_Label : string;
  Evidence_RolesRun : list review.Role;
  Evidence_RolesSkipped : list review.Role;
  Evidence_Findings : list review.Finding }.
Inductive Evidence := EvVerify (e : verifyEvidence) | EvReview (e : reviewEvidence).

(** The errors of the components, whose texts become reasons. *)
Inductive Cause :=
| CauseTask (e : backlog.Error) | CauseSpec (e : specification.Error) | CauseCompile (vs : list specification.Violation)
| CauseDecompose (e : decompose.Error) | CauseGraph (e : workstore.Error) | CauseWorkspace (e : workspace.Error)
| CauseFinalize (e : runapp.Error) | CausePipeline (e : pipeline.Error).

(** A level that could not be run: its context was cancelled, or not. *)
Inductive TestError := TestCancelled | TestFailed (text : string).
(** A reviewer's error: [ErrUnparseableReview] or a stage error in its chain, or any other. *)
Inductive ReviewError := Unparseable (text : string) | Stage_ (e : driver.HandlerError) | ReviewOther (text : string).

(** The part of the daemon's state the handlers share. *)
Record St (X : Type) := mkSt {
  world : World X;                              (** workspaces, tasks, Git *)
  specs : specification.DB;
  graphs : workstore.World;
  params : gmap string pipelineParams;          (** the files of [paramsDir] *)
  records : gmap string finalizeRecord;
  lastFin : gmap string runapp.FinalizeResult;
  cancels : gset string;                        (** tasks whose agent can be cancelled *)
  driving : gset string;
  calls : list driver.Interference }.           (** what the handler did to the pipeline store *)
Arguments mkSt {X} world specs graphs params records lastFin cancels driving calls.
Arguments world {X} s.
Arguments specs {X} s.
Arguments graphs {X} s.
Arguments params {X} s.
Arguments records {X} s.
Arguments lastFin {X} s.
Arguments cancels {X} s.
Arguments driving {X} s.
Arguments calls {X} s.

(** [string(stage)]. *)
Definition Stage_String (st : Stage) : string :=
  match st with
  | StageCompile => "compile" | StagePlan => "plan" | StageReady => "ready" | StageExecute => "execute"
  | StageVerify => "verify" | StageReview => "review" | StageRepair => "repair" | StageFinalize => "finalize"
  | StageOther s => s
  end.

(** [policy.Profile(text)]. *)
Definition profileOf (t : string) : policy.Profile :=
  default (policy.ProfileOther t)
    (List.find (λ p, bool_decide (policy.Profile_String p = t))
       [policy.ProfilePlanOnly; policy.ProfileLocalReview; policy.ProfileRemoteReview; policy.ProfileAutonomous;
        policy.ProfileCustom]).

Class Stages (X : Type) := {
  (** [testengine.Runner.Run]. *)
  runTests : testengine.RunRequest → St X → result TestError testengine.Result * St X;
  (** [ctx.Err() != nil]. *)
  ctxDone : St X → bool;
  (** An injected reviewer, or the agent behind [AgentReviewer] with its
      prompt and the parsing of its answer. *)
  reviewerOf : string → Workspace → pipelineParams →
    option (review.Role → review.ReviewRequest → St X → result ReviewError (list review.Finding) * St X);
  reviewPrompt : review.Role → review.ReviewRequest → string;
  parseFindings : review.Role → string → result ReviewError (list review.Finding);
  (** [artifacts.Store.Write] of the evidence's JSON: its hash. *)
  writeArtifact : Evidence → St X → result string string * St X;
  (** Reads of the pipeline store. *)
  emergencyStop : St X → option (bool * string);
  currentFailure : string → St X → result pipeline.Error FailureCategory;
  (** [err.Error()]. *)
  text : Cause → string }.

Section handlers.
  Context {X : Type} `{!External X, !Agents X, !Stages X}.
  (** The service's own components: the finalization service with the manager
      and the recorder it shares, and the stores. *)
  Context (s : runapp.Service) (specStore : specification.SpecificationStore) (graphStore : workstore.WorkGraphStore).
  Abbreviation S := (St X).
  Abbreviation H := (proc S driver.HandlerError).
  Abbreviation m := (runapp.wm s).

Definition withWorld (w : World X) (v : S) : S :=
  mkSt w (specs v) (graphs v) (params v) (records v) (lastFin v) (cancels v) (driving v) (calls v).
Definition withSpecs (d : specification.DB) (v : S) : S :=
  mkSt (world v) d (graphs v) (params v) (records v) (lastFin v) (cancels v) (driving v) (calls v).
Definition withGraphs (g : workstore.World) (v : S) : S :=
  mkSt (world v) (specs v) g (params v) (records v) (lastFin v) (cancels v) (driving v) (calls v).
Definition withFin (t : string) (f : runapp.FinalizeResult) (v : S) : S :=
  mkSt (world v) (specs v) (graphs v) (params v) (<[t := recordOf f]> (records v)) (<[t := f]> (lastFin v)) (cancels v)
    (driving v) (calls v).
Definition withCancels (c : gset string) (v : S) : S :=
  mkSt (world v) (specs v) (graphs v) (params v) (records v) (lastFin v) c (driving v) (calls v).
Definition withCalls (l : list driver.Interference) (v : S) : S :=
  mkSt (world v) (specs v) (graphs v) (params v) (records v) (lastFin v) (cancels v) (driving v) l.

(** Programs of the components, and the stage error their failure becomes. *)
Definition onWorld {E A} (p : proc (World X) E A) : proc S E A := zoom world withWorld p.
Definition orFail {E A} (f : E → driver.HandlerError) (p : proc S E A) : H A := mapErr f p.
Definition stage (c : FailureCategory) (k : Cause) : driver.HandlerError := driver.StageError c (text k) None.
Definition manager {A} (c : FailureCategory) (p : proc (World X) workspace.Error A) : H A :=
  orFail (λ e, stage c (CauseWorkspace e)) (onWorld p).
Definition onGraphs {A} (p : workstore.M A) : proc S workstore.Error A :=
  attempt_ (λ v, let '(r, g) := p (graphs v) in (r, withGraphs g v)).

(** [audit]: its error is logged only. *)
Definition audit_ (type_ taskID : string) (payload : list (string * audit.Val)) : H () :=
  ignore (onWorld (stmt (auditTx (runapp.svc_audit s) taskID type_ payload))).
Definition auditStage (rc : driver.RunContext) (status evidence category : string) : H () :=
  audit_ "pipeline.stage" (driver.rc_TaskID rc)
    ([("stage", audit.VString (Stage_String (driver.rc_Stage rc))); ("attempt", audit.VInt (driver.rc_Attempt rc));
      ("status", audit.VString status)]
     ++ (if bool_decide (evidence = "") then [] else [("evidence_ref", audit.VString evidence)])
     ++ (if bool_decide (category = "") then [] else [("failure_category", audit.VString category)])).

(** ** Shared helpers *)

Definition loadParams (task : string) : H pipelineParams :=
  query (λ v, match params v !! task with
              | Some p => Ok p
              | None => Err (driver.StageError FailureInvariantViolation ("pipeline: load run params for task " +:+ task) None)
              end).
(** The latest workspace of the task. *)
Definition workspaceForTask (task : string) : H (option Workspace) :=
  wss ← manager FailureDatabase (ListByTask task); mret (last wss).
Definition runTarget (rc : driver.RunContext) : H (pipelineParams * Workspace) :=
  p ← loadParams (driver.rc_TaskID rc);
  ws ← workspaceForTask (driver.rc_TaskID rc);
  match ws with
  | Some ws => mret (p, ws)
  | None => Throw (driver.StageError FailureWorktree "no workspace for task (ready stage did not run)" None)
  end.

Definition recordUsage_ (task : string) (p : pipelineParams) (events : list agent.NormalizedEvent) : H () :=
  t ← onWorld (read clock);
  let fix all (l : list UsageEvent) : H () :=
    match l with
    | [] => mret ()
    | u :: l => _ ← onWorld (atomic (RecordUsage u)); all l
    end in
  all (omap (usageOf task (Params_ProjectID p) (Params_Engine p) (Params_Model p) t) events).

(** [runAgent]: registered for cancellation while it runs. *)
Definition runAgent (task : string) (ws : Workspace) (p : pipelineParams) (prompt : string) : H SupervisorResult :=
  _ ← atomic (λ v, ((), withCancels ({[task]} ∪ cancels v) v));
  r ← onWorld (atomic (supervise (mkSupervisorRequest (ID ws) (Params_Engine p) (Params_Model p) prompt (TimeoutNanos p))
                         (Path ws)));
  res ← match r with
        | Err e =>
            _ ← atomic (λ v, ((), withCancels (cancels v ∖ {[task]}) v));
            Throw (driver.StageError FailureAgentUnavailable e None)
        | Ok res => mret res
        end;
  _ ← recordUsage_ task p (Events res);
  _ ← atomic (λ v, ((), withCancels (cancels v ∖ {[task]}) v));
  mret res.

Definition categoryForFailureClass (f : option agent.FailurePayload) : FailureCategory :=
  match f with
  | None => FailureAgentUnavailable
  | Some f =>
      match agent.Failure_Class f with
      | agent.FailureProviderAuth => FailureAgentAuthUnavailable
      | agent.FailureProviderQuota | agent.FailureBudgetExceeded => FailureQuotaExceeded
      | agent.FailureProviderRateLimit | agent.FailureProviderCapacity => FailureRateLimited
      | agent.FailureTimeout => FailureProviderTimeout
      | agent.FailureMalformedOutput => FailureInvalidAgentOutput
      | agent.FailureScopeViolation | agent.FailurePolicyViolation => FailurePolicyRejection
      | _ => FailureAgentUnavailable
      end
  end.

(** [interruptedOrCancelledError]: parked by the emergency stop, or cancelled
    for good. *)
Definition interruptedOrCancelledError (task reason : string) : H driver.HandlerError :=
  st ← read emergencyStop;
  match st with
  | Some (true, r) =>
      mret (driver.StageError FailureInterrupted (if bool_decide (r = "") then "emergency stop engaged" else r) None)
  | _ =>
      _ ← atomic (λ v, ((), withCalls (calls v ++ [driver.ICancel task reason]) v));
      mret (driver.OtherError "pipeline: run cancelled")
  end.

Definition agentOutcomeError (task : string) (res : SupervisorResult) : H (option driver.HandlerError) :=
  if Cancelled res then e ← interruptedOrCancelledError task "cancelled"; mret (Some e)
  else if Failed res then
    let f := agent.Failure (Sup_Outcome res) in
    let reason := match f with Some f => agent.Failure_Reason f | None => "" end in
    mret (Some (driver.StageError (categoryForFailureClass f)
                  (if bool_decide (reason = "") then "agent run failed" else reason) None))
  else mret None.

(** An agent run that has to succeed. *)
Definition runAgentOk (task : string) (ws : Workspace) (p : pipelineParams) (prompt : string) : H SupervisorResult :=
  res ← runAgent task ws p prompt;
  e ← agentOutcomeError task res;
  match e with Some e => Throw e | None => mret res end.

Definition deltas (events : list agent.NormalizedEvent) : string :=
  foldr String.append "" (omap (λ ev, match agent.Type_ ev, agent.Message ev with
                                      | agent.EventMessageDelta, Some msg => Some (agent.Delta msg)
                                      | _, _ => None
                                      end) events).
Definition runAgentText (task : string) (ws : Workspace) (p : pipelineParams) (prompt : string) : H string :=
  res ← runAgentOk task ws p prompt; mret (deltas (Events res)).

(** [evidenceJSON]: a failed write leaves a plain reference. *)
Definition evidenceJSON (kind : string) (e : Evidence) : H string :=
  r ← atomic (writeArtifact e);
  mret match r with Ok hash => "artifact:" +:+ hash | Err _ => kind +:+ ":unpersisted" end.

(** ** compile, plan, ready *)

Definition compilerAttachment (a : backlog.Attachment) : compiler.Attachment :=
  compiler.mkAttachment (backlog.Hash a) (backlog.Filename a) (backlog.MimeType a) (backlog.Size a) (backlog.Role a).
Definition createdBy (who : string) (sp : specification.Specification) : specification.Specification :=
  specification.mkSpecification (specification.TaskID sp) (specification.Version sp) (specification.Objective sp)
    (specification.AcceptanceCriteria sp) (specification.NonGoals sp) (specification.Assumptions sp)
    (specification.Constraints sp) (specification.Spec_Risk sp) (specification.Spec_Complexity sp)
    (specification.ProposedScope sp) (specification.Spec_VisualRequirements sp) (specification.Locked sp)
    (specification.LockedAt sp) (specification.LockedBy sp) (specification.CreatedAt sp) who.

Definition handleCompile (rc : driver.RunContext) : H string :=
  '(t, atts) ← query (λ v, match backlog.Get (driver.rc_TaskID rc) (base (db (world v))) with
                           | Ok r => Ok r
                           | Err e => Err (stage FailureCompile (CauseTask e))
                           end);
  let '(res, invalid) := compiler.Compile (compiler.mkInput (backlog.ID t) (backlog.Title t) (backlog.Description t)
                                             (backlog.Priority t) (compilerAttachment <$> atts)) in
  match invalid with
  | Some vs => Throw (stage FailureCompile (CauseCompile vs))
  | None =>
      now ← onWorld (read clock);
      saved ← attempt_ (λ v, match specification.SaveIfChanged specStore now
                                     (createdBy "pipeline" (compiler.Result_Specification res)) (specs v) with
                             | Ok (sp, _, d) => (Ok sp, withSpecs d v)
                             | Err e =>
                                 let k := CauseSpec e in
                                 (Err (stage (if strs.Contains (text k) "is locked" then FailurePolicyRejection
                                              else FailureCompile) k), v)
                             end);
      let evidence := "spec:v" +:+ pretty (specification.Version saved) in
      _ ← auditStage rc "completed" evidence "";
      mret evidence
  end.

Definition handlePlan (rc : driver.RunContext) : H string :=
  sp ← query (λ v, match specification.GetLatest (driver.rc_TaskID rc) (specs v) with
                   | Ok sp => Ok sp
                   | Err e => Err (stage FailureInvariantViolation (CauseSpec e))
                   end);
  g ← match decompose.Decompose sp with
      | Some (Ok g) => mret g
      | Some (Err e) => Throw (stage FailureInvariantViolation (CauseDecompose e))
      | None => Throw (driver.OtherError "decompose did not return")
      end;
  g ← orFail (λ e, stage FailureDatabase (CauseGraph e)) (onGraphs (workstore.Save graphStore (Some g)));
  let evidence := "workgraph:" +:+ workgraph.TaskID g +:+ ":packages=" +:+ pretty (Z.of_nat (length (workgraph.Packages g))) in
  _ ← auditStage rc "completed" evidence "";
  mret evidence.

(** Four hours. *)
Definition pipelineLeaseTTL : Z := 4 * 3600 * 10 ^ 9.
Definition hasLeaseConflictReason (reasons : list string) : bool := existsb (λ r, strs.Contains r "held by workspace") reasons.

(** The loop over the packages: a package that waits for another one ends it. *)
Fixpoint claimAll (rc : driver.RunContext) (ws : string) (pkgs : list workgraph.WorkPackage) (claimed : Z) : H Z :=
  match pkgs with
  | [] => mret claimed
  | pkg :: pkgs =>
      if negb (bool_decide (workgraph.State pkg = workgraph.PackagePending)) then claimAll rc ws pkgs claimed
      else
        r ← catch (onGraphs (workstore.Claim graphStore
              (workstore.mkClaimRequest (driver.rc_TaskID rc) (driver.rc_ProjectID rc) (workgraph.ID pkg) ws None []
                 pipelineLeaseTTL)));
        match r with
        | Ok _ => claimAll rc ws pkgs (claimed + 1)
        | Err e =>
            let blocked why :=
              Throw (driver.StageError FailureLeaseLost
                       ("package " +:+ workgraph.ID pkg +:+ " blocked by conflicting lease: " +:+ why) None) in
            match e with
            | workstore.ErrLeaseConflict _ => blocked (text (CauseGraph e))
            | workstore.ErrPackageNotReady _ reasons =>
                if hasLeaseConflictReason reasons then blocked (strs.Join reasons "; ") else mret claimed
            | _ => Throw (stage FailureDatabase (CauseGraph e))
            end
        end
  end.

Definition handleReady (rc : driver.RunContext) : H string :=
  p ← loadParams (driver.rc_TaskID rc);
  ws ← workspaceForTask (driver.rc_TaskID rc);
  ws ← match ws with
       | Some ws => mret ws
       | None => manager FailureWorktree (Create m (mkCreateRequest (driver.rc_ProjectID rc) (Params_ProjectPath p)
                                                      (driver.rc_TaskID rc) "" (Params_BaseBranch p)))
       end;
  g ← query (λ v, match workstore.LoadValidated (driver.rc_TaskID rc) (workstore.db (graphs v)) with
                  | Ok g => Ok g
                  | Err e => Err (stage FailureInvariantViolation (CauseGraph e))
                  end);
  claimed ← claimAll rc (ID ws) (workgraph.Packages g) 0;
  let evidence := "workspace:" +:+ ID ws +:+ ";claimed:" +:+ pretty claimed in
  _ ← auditStage rc "completed" evidence "";
  mret evidence.

(** ** execute *)

Definition buildExecutePrompt (latest : result specification.Error specification.Specification) (p : pipelineParams) : string :=
  Params_Description p
  +:+ match latest with
      | Ok sp =>
          if bool_decide (specification.Objective sp = "") then ""
          else String strs.nl (String strs.nl "Objective: ") +:+ specification.Objective sp
               +:+ match specification.AcceptanceCriteria sp with
                   | [] => ""
                   | acs => String strs.nl (String strs.nl "Acceptance criteria:")
                            +:+ foldr String.append "" ((λ ac, String strs.nl "- " +:+ specification.Statement ac) <$> acs)
                   end
      | Err _ => ""
      end
  +:+ String strs.nl (String strs.nl "Work only inside this workspace. Do not touch any other checkout.").

Definition setRunInfo (ws : Workspace) (p : pipelineParams) (res : SupervisorResult) : H () :=
  ignore (onWorld (SetRunInfo m (ID ws) (Params_Engine p) (Params_Model p) (Handle_RunID res) (Handle_SessionID res))).

Definition handleExecute (rc : driver.RunContext) : H (string * Z) :=
  '(p, ws) ← runTarget rc;
  prompt ← read (λ v, buildExecutePrompt (specification.GetLatest (driver.rc_TaskID rc) (specs v)) p);
  res ← runAgentOk (driver.rc_TaskID rc) ws p prompt;
  insp ← manager FailureWorktree (InspectWorktree ws);
  _ ← setRunInfo ws p res;
  let changed := Z.of_nat (length (Inspection_ChangedFiles insp)) in
  let evidence := "workspace:" +:+ ID ws +:+ ";run:" +:+ Handle_RunID res +:+ ";changed:" +:+ pretty changed in
  _ ← auditStage rc "completed" evidence "";
  mret (evidence, changed).

(** ** verify *)

Definition verifyLevels : list Z :=
  [testengine.LevelSyntax; testengine.LevelCompile; testengine.LevelTargeted; testengine.LevelModule].

Record verifyOutcome := mkVerifyOutcome {
  out_results : list testengine.Result;
  out_passed : bool;
  out_category : FailureCategory;
  out_retry : option flakeRetryEvidence }.

Definition withLevel (lvl : Z) (r : testengine.Result) : testengine.Result :=
  testengine.mkResult lvl (testengine.Status r) (testengine.Passed r) (testengine.Failed r) (testengine.Skipped r)
    (testengine.Result_Duration r) (testengine.Failures r) (testengine.SlicedOutput r) (testengine.LogPath r).

Definition categoryForLevel (lvl : Z) (r : testengine.Result) : FailureCategory :=
  if (lvl =? testengine.LevelSyntax)%Z then FailureStaticAnalysis
  else if (lvl =? testengine.LevelCompile)%Z then FailureCompile
  else if (lvl =? testengine.LevelTargeted)%Z then FailureTest
  else if (lvl =? testengine.LevelModule)%Z || (lvl =? testengine.LevelFull)%Z
  then if existsb (λ f, bool_decide (testengine.Package f = "go vet")) (testengine.Failures r) then FailureStaticAnalysis
       else FailureTest
  else FailureInvariantViolation.

(** [None] when the failure is no flake candidate. *)
Definition attributable (f : testengine.TestFailure) : bool :=
  negb (bool_decide (testengine.Package f = "") || bool_decide (testengine.Package f = "go vet")).
Definition flakeRetryPackages (r : testengine.Result) : list string :=
  if forallb attributable (testengine.Failures r)
  then sortStrings (remove_dups (testengine.Package <$> testengine.Failures r)) else [].
Definition failureMessage (f : testengine.TestFailure) : string :=
  let msg := if bool_decide (testengine.Message f = "") then testengine.TestName f else testengine.Message f in
  if bool_decide (testengine.Package f = "") then msg else testengine.Package f +:+ ": " +:+ msg.

(** One run of the test runner: cancellation is not a verdict. *)
Definition runLevel (task name : string) (req : testengine.RunRequest) : H testengine.Result :=
  r ← atomic (runTests req);
  match r with
  | Err TestCancelled => e ← interruptedOrCancelledError task "verification cancelled"; Throw e
  | Err (TestFailed e) =>
      Throw (driver.StageError FailureInvariantViolation ("verification level " +:+ name +:+ ": " +:+ e) None)
  | Ok res =>
      done ← read ctxDone;
      if done : bool then e ← interruptedOrCancelledError task "verification cancelled"; Throw e
      else mret (withLevel (testengine.RunRequest_Level req) res)
  end.

(** [flakeRetry], where the packages are not empty. *)
Definition flakeRetry (task : string) (ws : Workspace) (module_ : testengine.Result) (results : list testengine.Result)
    (pkgs : list string) : H verifyOutcome :=
  res ← runLevel task "module (package retry)" (testengine.mkRunRequest testengine.LevelModule (Path ws) [] "" pkgs);
  let ok := bool_decide (testengine.Status res = testengine.StatusPassed) in
  mret (mkVerifyOutcome (results ++ [res]) ok
          (if ok then FailureNone else categoryForLevel testengine.LevelModule module_)
          (Some (mkFlakeRetry pkgs (failureMessage <$> testengine.Failures module_) ok))).

Fixpoint cascade (task : string) (ws : Workspace) (changed : list string) (lvls : list Z) (results : list testengine.Result) :
    H verifyOutcome :=
  match lvls with
  | [] => mret (mkVerifyOutcome results true FailureNone None)
  | lvl :: lvls =>
      res ← runLevel task (testengine.VerificationLevel_String lvl) (testengine.mkRunRequest lvl (Path ws) changed "" []);
      let results := results ++ [res] in
      if bool_decide (testengine.Status res = testengine.StatusFailed) then
        match flakeRetryPackages res with
        | (_ :: _) as pkgs =>
            if (lvl =? testengine.LevelModule)%Z then flakeRetry task ws res results pkgs
            else mret (mkVerifyOutcome results false (categoryForLevel lvl res) None)
        | [] => mret (mkVerifyOutcome results false (categoryForLevel lvl res) None)
        end
      else cascade task ws changed lvls results
  end.

Definition verifyWorktree (task : string) (ws : Workspace) : H verifyOutcome :=
  insp ← manager FailureWorktree (InspectWorktree ws);
  cascade task ws (Inspection_ChangedFiles insp) verifyLevels [].

Definition handleVerify (rc : driver.RunContext) : H (bool * string * FailureCategory) :=
  '(_, ws) ← runTarget rc;
  out ← verifyWorktree (driver.rc_TaskID rc) ws;
  evidence ← evidenceJSON "verify" (EvVerify (mkVerifyEvidence (out_results out) (out_retry out)));
  _ ← auditStage rc (if out_passed out then "completed" else "failed") evidence
        (driver.FailureCategory_String (out_category out));
  mret (out_passed out, evidence, out_category out).

(** ** review *)

(** The error of a reviewer that is the agent. *)
Definition asReviewError (e : driver.HandlerError) : ReviewError := Stage_ e.

(** [AgentReviewer.Review] over [runAgentText], as one step of the pass: what
    the agent does to the shared state meanwhile is up to [supervise]. *)
Definition agentReview (task : string) (ws : Workspace) (p : pipelineParams) (role : review.Role)
    (req : review.ReviewRequest) (v : S) : result ReviewError (list review.Finding) * S :=
  match run (runAgentText task ws p (reviewPrompt role req)) v with
  | (Err e, v) => (Err (asReviewError e), v)
  | (Ok out, v) =>
      (if bool_decide (strs.TrimSpace out = "") then Err (Unparseable "empty agent output") else parseFindings role out, v)
  end.

Definition resolvedPolicy (project : string) : H policy.Resolved :=
  query (λ v, match backlog.GetProject project (base (db (world v))) with
              | Ok p => Ok (policy.Resolve (policy.NewProject (profileOf (backlog.Profile p))) (policy.mkTaskContext None false)).1
              | Err e => Err (stage FailurePolicyRejection (CauseTask e))
              end).

(** [reviewWorktree], and what [handleReview] makes of its errors. *)
Definition reviewWorktree (rc : driver.RunContext) (p : pipelineParams) (ws : Workspace) : H review.Result :=
  insp ← manager FailureWorktree (InspectWorktree ws);
  diff ← manager FailureGit (Diff (ID ws));
  resolved ← resolvedPolicy (driver.rc_ProjectID rc);
  let reviewer := match reviewerOf (driver.rc_TaskID rc) ws p with
                  | Some r => r
                  | None => agentReview (driver.rc_TaskID rc) ws p
                  end in
  r ← atomic (review.Run reviewer resolved
                (review.mkReviewRequest diff (Inspection_ChangedFiles insp) (Params_Description p)));
  match r with
  | (res, None) => mret res
  | (_, Some (_, Unparseable e)) => Throw (driver.StageError FailureInvalidAgentOutput e None)
  | (_, Some (_, Stage_ (driver.StageError c reason err))) => Throw (driver.StageError c reason err)
  | (_, Some (_, Stage_ (driver.OtherError e))) | (_, Some (_, ReviewOther e)) =>
      Throw (driver.StageError FailureAgentUnavailable e None)
  end.

Definition approves (res : review.Result) : bool :=
  bool_decide (review.OverallStatus res = review.StatusApproved) || bool_decide (review.OverallStatus res = review.StatusSkipped).

Definition handleReview (rc : driver.RunContext) : H (bool * string) :=
  '(p, ws) ← runTarget rc;
  before ← manager FailureWorktree (WorktreeFingerprint (Path ws));
  res ← reviewWorktree rc p ws;
  after ← manager FailureWorktree (WorktreeFingerprint (Path ws));
  if negb (bool_decide (after = before)) then Throw (driver.StageError FailurePolicyRejection "reviewer modified the worktree" None)
  else
    evidence ← evidenceJSON "review" (EvReview (mkReviewEvidence (review.Label res) (review.RolesRun res)
                                                  (review.RolesSkipped res) (review.Findings res)));
    _ ← auditStage rc (if approves res then "completed" else "failed") evidence
          (driver.FailureCategory_String FailureReviewRejection);
    mret (approves res, evidence).

(** ** repair *)

Definition paragraph (a b : string) : string := a +:+ String strs.nl (String strs.nl b).

(** The findings are derived again; an error of the review is dropped. *)
Definition buildRepairPrompt (rc : driver.RunContext) (category : FailureCategory) (p : pipelineParams) (ws : Workspace) : H string :=
  if bool_decide (category = FailureNoCodeChanges)
  then mret (paragraph "Your previous attempt produced no repository changes. Implement the task now and write the required files:"
               (Params_Description p))
  else
    insp ← manager FailureWorktree (InspectWorktree ws);
    findings ← (if bool_decide (category = FailureReviewRejection) then
                  r ← catch (reviewWorktree rc p ws);
                  mret match r with Ok res => repair.FromReviewFindings (review.Findings res) | Err _ => [] end
                else
                  out ← verifyWorktree (driver.rc_TaskID rc) ws;
                  mret (repair.FromTestFailures (out_results out)));
    match findings with
    | [] => mret (paragraph "The previous attempt did not converge. Re-read the task and finish it so verification and review pass:"
                    (Params_Description p))
    | _ =>
        r ← catch (manager FailureGit (Diff (ID ws)));
        let diff := match r with Ok d => d | Err _ => "" end in
        mret (repair.Prompt (repair.mkRepairContext findings diff (Inspection_ChangedFiles insp) (driver.rc_RepairAttempt rc)))
    end.

Definition handleRepair (rc : driver.RunContext) : H string :=
  '(p, ws) ← runTarget rc;
  category ← query (λ v, match currentFailure (driver.rc_TaskID rc) v with
                         | Ok c => Ok c
                         | Err e => Err (stage FailureDatabase (CausePipeline e))
                         end);
  prompt ← buildRepairPrompt rc category p ws;
  res ← runAgentOk (driver.rc_TaskID rc) ws p prompt;
  _ ← setRunInfo ws p res;
  let evidence := "workspace:" +:+ ID ws +:+ ";run:" +:+ Handle_RunID res +:+ ";repair:" +:+ pretty (driver.rc_RepairAttempt rc) in
  _ ← auditStage rc "completed" evidence "";
  mret evidence.

(** ** finalize *)

(** Uncommitted changes are committed first, and the worktree looked at again. *)
Definition commitLeftovers (rc : driver.RunContext) (ws : Workspace) (insp : Inspection) : H Inspection :=
  if bool_decide (strs.TrimSpace (StatusPorcelain insp) = "") then mret insp
  else
    let msg := paragraph ("forge: result for task " +:+ driver.rc_TaskID rc)
                 ("stage: " +:+ Stage_String (driver.rc_Stage rc) +:+ ", attempt: " +:+ pretty (driver.rc_Attempt rc)) in
    '(sha, created) ← orFail (λ e, driver.StageError FailureGit ("result commit: " +:+ text (CauseWorkspace e)) None)
                        (onWorld (CommitWorktreeChanges (ID ws) msg));
    if created : bool then
      _ ← audit_ "pipeline.finalize_autocommit" (driver.rc_TaskID rc)
            [("workspace", audit.VString (ID ws)); ("commit_sha", audit.VString sha);
             ("stage", audit.VString (Stage_String (driver.rc_Stage rc))); ("attempt", audit.VInt (driver.rc_Attempt rc))];
      manager FailureWorktree (InspectWorktree ws)
    else mret insp.

Definition handleFinalize (rc : driver.RunContext) : H string :=
  '(p, ws) ← runTarget rc;
  insp ← manager FailureWorktree (InspectWorktree ws);
  insp ← commitLeftovers rc ws insp;
  fin ← orFail (λ e, stage FailureGit (CauseFinalize e))
          (onWorld (runapp.Finalize s (runapp.mkFinalizeRequest (ID ws)
             (agent.mkNormalizedEvent agent.EventRunCompleted None None None None None) insp (driver.rc_TaskID rc)
             (Params_Engine p) (Params_Model p) (RunID ws))));
  _ ← atomic (λ v, ((), withFin (driver.rc_TaskID rc) fin v));
  let outcome := runapp.Outcome_String (runapp.Outcome_ fin) in
  let ref := if bool_decide (runapp.Res_ResultBranch fin = "") then outcome else runapp.Res_ResultBranch fin in
  _ ← auditStage rc "completed" ref "";
  _ ← audit_ "pipeline.run_finished" (driver.rc_TaskID rc)
        [("outcome", audit.VString outcome); ("result_branch", audit.VString (runapp.Res_ResultBranch fin));
         ("commit_sha", audit.VString (runapp.Res_CommitSHA fin))];
  mret ref.

(** ** The handlers as the driver calls them *)

(** A handler runs on the shared state; what it asked of the pipeline store is
    handed over with its answer. *)
Definition toHandler {A} (h : driver.RunContext → H A) : driver.Handler (E := S) A :=
  λ rc v, let '(r, v) := run (h rc) (withCalls [] v) in
          (match r with Ok a => driver.Returns a | Err e => driver.Fails e end, calls v, v).
Definition pipelineHandlers : driver.Handlers S :=
  driver.mkHandlers (toHandler handleCompile) (toHandler handlePlan) (toHandler handleReady) (toHandler handleFinalize)
    (toHandler handleExecute) (toHandler handleVerify) (toHandler handleReview) (toHandler handleRepair).

End handlers.

(** ** The verdict of a verification *)

Section verdicts.
  Context {X : Type} `{!External X, !Agents X, !Stages X}.
  Abbreviation S := (St X).

(** The runner was asked these requests one after the other, each answered,
    none under a cancelled context; the results carry the requested level. *)
Inductive asked : S → list testengine.RunRequest → list testengine.Result → S → Prop :=
| asked_nil v : asked v [] [] v
| asked_cons req reqs res ress v v1 v2 :
    runTests req v = (Ok res, v1) → ctxDone v1 = false → asked v1 reqs ress v2 →
    asked v (req :: reqs) (withLevel (testengine.RunRequest_Level req) res :: ress) v2.

Definition levelRequest (ws : Workspace) (changed : list string) (lvl : Z) : testengine.RunRequest :=
  testengine.mkRunRequest lvl (Path ws) changed "" [].
Definition retryRequest (ws : Workspace) (pkgs : list string) : testengine.RunRequest :=
  testengine.mkRunRequest testengine.LevelModule (Path ws) [] "" pkgs.
Definition fails (r : testengine.Result) : Prop := testengine.Status r = testengine.StatusFailed.

(** What a verification over the levels [lvls] may conclude: every level was
    run and none failed; or the first failing one is the last that ran and
    gives the category; or it was the module level, every failure of which
    names a package, and a single further run of exactly those packages decides. *)
Inductive verdict (ws : Workspace) (changed : list string) (lvls : list Z) :
    list testengine.RunRequest → verifyOutcome → Prop :=
| verdict_passed rs :
    Forall (λ r, ¬ fails r) rs →
    verdict ws changed lvls (levelRequest ws changed <$> lvls) (mkVerifyOutcome rs true FailureNone None)
| verdict_failed k lvl rs bad :
    lvls !! k = Some lvl → Forall (λ r, ¬ fails r) rs → fails bad →
    (lvl = testengine.LevelModule → flakeRetryPackages bad = []) →
    verdict ws changed lvls (levelRequest ws changed <$> take (Datatypes.S k) lvls)
      (mkVerifyOutcome (rs ++ [bad]) false (categoryForLevel lvl bad) None)
| verdict_retried k rs bad again :
    lvls !! k = Some testengine.LevelModule → Forall (λ r, ¬ fails r) rs → fails bad →
    Forall (λ f, attributable f = true) (testengine.Failures bad) → flakeRetryPackages bad ≠ [] →
    verdict ws changed lvls
      ((levelRequest ws changed <$> take (Datatypes.S k) lvls) ++ [retryRequest ws (flakeRetryPackages bad)])
      (let ok := bool_decide (testengine.Status again = testengine.StatusPassed) in
       mkVerifyOutcome (rs ++ [bad; again]) ok
         (if ok then FailureNone else categoryForLevel testengine.LevelModule bad)
         (Some (mkFlakeRetry (flakeRetryPackages bad) (failureMessage <$> testengine.Failures bad) ok))).

(** A failure that is not about the code: the verification did not conclude. *)
Definition inconclusive (e : driver.HandlerError) : Prop :=
  (driver.categorizeError e).1 ∉ [FailureStaticAnalysis; FailureCompile; FailureTest; FailureReviewRejection].

Lemma interrupted_cases task reason (v : S) :
  (∃ why, run (interruptedOrCancelledError task reason) v = (Ok (driver.StageError FailureInterrupted why None), v)) ∨
  run (interruptedOrCancelledError task reason) v =
    (Ok (driver.OtherError "pipeline: run cancelled"), withCalls (calls v ++ [driver.ICancel task reason]) v).
Proof.
  unfold interruptedOrCancelledError. rewrite run_bind; cbn.
  destruct (emergencyStop v) as [[[] r]|]; cbn; eauto.
Qed.

Lemma interrupted_throws {A} task reason (v v' : S) (r : result driver.HandlerError A) :
  run (e ← interruptedOrCancelledError task reason; Throw e) v = (r, v') → ∃ e, r = Err e ∧ inconclusive e.
Proof.
  rewrite run_bind. destruct (interrupted_cases task reason v) as [[why ->]| ->]; cbn [run].
  - intros [= <- <-]. eexists; split; [done|]. unfold inconclusive. cbn. set_solver.
  - intros [= <- <-]. eexists; split; [done|]. unfold inconclusive. cbn. set_solver.
Qed.

Lemma run_runLevel task name req (v v' : S) r :
  run (runLevel task name req) v = (r, v') →
  match r with
  | Ok res => ∃ res0, runTests req v = (Ok res0, v') ∧ ctxDone v' = false ∧
                      res = withLevel (testengine.RunRequest_Level req) res0
  | Err e => inconclusive e
  end.
Proof.
  unfold runLevel. rewrite run_bind. cbn [atomic run].
  destruct (runTests req v) as [[res0|[|e]] v1].
  - rewrite run_bind; cbn [read atomic run]. destruct (ctxDone v1) eqn:Hd; intros H.
    + apply interrupted_throws in H as (e & -> & He). done.
    + cbn in H. simplify_eq. eauto.
  - intros H. apply interrupted_throws in H as (e & -> & He). done.
  - cbn. intros [= <- <-]. unfold inconclusive. cbn. set_solver.
Qed.

Lemma asked_snoc reqs ress req res (v v1 v2 : S) :
  asked v reqs ress v1 → runTests req v1 = (Ok res, v2) → ctxDone v2 = false →
  asked v (reqs ++ [req]) (ress ++ [withLevel (testengine.RunRequest_Level req) res]) v2.
Proof. induction 1; intros Hr Hd; simpl; econstructor; eauto. constructor. Qed.

Lemma flakeRetryPackages_attributable r :
  flakeRetryPackages r ≠ [] → Forall (λ f, attributable f = true) (testengine.Failures r).
Proof.
  unfold flakeRetryPackages. destruct (forallb _ _) eqn:Hf; [|done]. intros _. apply Forall_forall. intros f Hin.
  rewrite forallb_forall in Hf. by apply Hf, list_elem_of_In.
Qed.

(** From a state in which the first levels have been run without a failure. *)
Lemma run_cascade task ws changed lvls done_ results (v0 v v' : S) r :
  asked v0 (levelRequest ws changed <$> done_) results v → Forall (λ r, ¬ fails r) results →
  run (cascade task ws changed lvls results) v = (r, v') →
  match r with
  | Ok out => ∃ reqs, asked v0 reqs (out_results out) v' ∧ verdict ws changed (done_ ++ lvls) reqs out
  | Err e => inconclusive e
  end.
Proof.
  revert done_ results v. induction lvls as [|lvl lvls IH]; intros done_ results v Ha Hok.
  { cbn. intros [= <- <-]. rewrite app_nil_r. eexists; split; [exact Ha|]. by constructor. }
  cbn [cascade]. rewrite run_bind.
  destruct (run (runLevel _ _ _) v) as [[res|e] v1] eqn:Hr; apply run_runLevel in Hr; [|by intros [= <- <-]].
  destruct Hr as (res0 & Hr & Hd & Hres).
  assert ((done_ ++ lvl :: lvls) !! length done_ = Some lvl) as Hlvl by by rewrite list_lookup_middle.
  assert (take (Datatypes.S (length done_)) (done_ ++ lvl :: lvls) = done_ ++ [lvl]) as Htake.
  { rewrite (cons_middle lvl), app_assoc, take_app_length'; [done|]. rewrite length_app. simpl; lia. }
  pose proof (asked_snoc _ _ _ _ _ _ _ Ha Hr Hd) as Ha1. change (testengine.RunRequest_Level _) with lvl in *.
  rewrite <-Hres in Ha1.
  assert ((levelRequest ws changed <$> done_) ++ [levelRequest ws changed lvl] =
          levelRequest ws changed <$> take (Datatypes.S (length done_)) (done_ ++ lvl :: lvls)) as Heq
    by by rewrite Htake, fmap_app.
  fold (levelRequest ws changed lvl) in Ha1. rewrite Heq in Ha1.
  case_bool_decide as Hf.
  - assert (flakeRetryPackages res = [] ∨ flakeRetryPackages res ≠ []) as [Hp|Hp]
      by (destruct (flakeRetryPackages res); auto).
    + rewrite Hp. cbn [run mret proc_ret]. intros [= <- <-]. eexists; split; [exact Ha1|]. by eapply verdict_failed.
    + destruct (flakeRetryPackages res) as [|p ps] eqn:Hpk; [done|]. rewrite <-Hpk in *.
      destruct (Z.eqb_spec lvl testengine.LevelModule) as [->|Hne].
      * unfold flakeRetry. rewrite run_bind.
        destruct (run (runLevel _ _ _) v1) as [[res1|e] v2] eqn:Hr1; apply run_runLevel in Hr1; [|by intros [= <- <-]].
        destruct Hr1 as (res2 & Hr1 & Hd1 & Hres1). cbn [run mret proc_ret]. intros [= <- <-].
        pose proof (asked_snoc _ _ _ _ _ _ _ Ha1 Hr1 Hd1) as Ha2. rewrite <-Hres1 in Ha2.
        eexists; split; [exact Ha2|]. rewrite <-app_assoc.
        eapply (verdict_retried _ _ _ (length done_)); try done.
        by apply flakeRetryPackages_attributable.
      * cbn [run mret proc_ret]. intros [= <- <-]. eexists; split; [exact Ha1|]. by eapply verdict_failed.
  - intros H. replace (done_ ++ lvl :: lvls) with ((done_ ++ [lvl]) ++ lvls) by by rewrite <-app_assoc.
    eapply (IH (done_ ++ [lvl]) (results ++ [res])); [|by apply Forall_app; repeat constructor|done].
    by rewrite Htake in Ha1.
Qed.

End verdicts.

Lemma review_ran {W Er} (Review : review.Role → review.ReviewRequest → W → result Er (list review.Finding) * W)
    resolved req w res w' :
  review.Run Review resolved req w = ((res, None), w') →
  review.RolesRun res = (filter (λ r, r.2 = true) (review.roles (policy.Resolved_Pipeline resolved))).*1 ∧
  review.RolesSkipped res = (filter (λ r, r.2 = false) (review.roles (policy.Resolved_Pipeline resolved))).*1.
Proof. unfold review.Run. by intros [-> ->]%review.runRoles_ok. Qed.

Lemma approves_iff res :
  approves res = true ↔ review.RolesRun res = [] ∨ Forall (λ f, review.IsMajorOrWorse f = false) (review.Findings res).
Proof.
  unfold approves, review.OverallStatus. destruct (review.RolesRun res) as [|r rs]; [by split; [left|]|].
  destruct (existsb _ _) eqn:Hx; cbn; (split; [intros H'|intros [H'|H']]); try done.
  - exfalso. apply existsb_exists in Hx as (f & Hin & Hx). rewrite Forall_forall in H'.
    rewrite H' in Hx; [done|]. by apply list_elem_of_In.
  - right. apply Forall_forall. intros f Hin. apply not_true_iff_false. intros Hx'.
    apply not_true_iff_false in Hx. apply Hx, existsb_exists. exists f. split; [by apply list_elem_of_In|done].
Qed.

(** ** What the handlers conclude *)

Section conclusions.
  Context {X : Type} `{!External X, !Agents X, !Stages X}.
  Context (s : runapp.Service).
  Abbreviation S := (St X).
  Abbreviation H := (proc S driver.HandlerError).

Lemma run_onWorld {E A} (p : proc (World X) E A) (v : S) :
  run (onWorld p) v = ((run p (world v)).1, withWorld (run p (world v)).2 v).
Proof. unfold onWorld. apply run_zoom; [done|done|by intros []]. Qed.

Lemma run_manager {A} c (p : proc (World X) workspace.Error A) (v : S) :
  run (manager c p) v =
    (match (run p (world v)).1 with Ok a => Ok a | Err e => Err (stage c (CauseWorkspace e)) end,
     withWorld (run p (world v)).2 v).
Proof. unfold manager, orFail. by rewrite run_mapErr, run_onWorld. Qed.

Lemma run_audited {A} rc status ev c (p : H A) (v : S) :
  run (_ ← auditStage s rc status ev c; p) v = run p (run (auditStage s rc status ev c) v).2.
Proof. rewrite run_bind. unfold auditStage, audit_. by rewrite run_ignore. Qed.

(** The reference of persisted, or unpersisted, evidence. *)
Definition reference (kind : string) (r : result string string) : string :=
  match r with Ok hash => "artifact:" +:+ hash | Err _ => kind +:+ ":unpersisted" end.

Lemma run_evidenceJSON kind e (v v' : S) r :
  run (evidenceJSON kind e) v = (r, v') → r = Ok (reference kind (writeArtifact e v).1) ∧ v' = (writeArtifact e v).2.
Proof.
  unfold evidenceJSON. rewrite run_bind. cbn [atomic run].
  destruct (writeArtifact e v) as [[h|er] v1]; cbn; by intros [= <- <-].
Qed.

(** Where a run's stages work: its parameters and the latest workspace of its task. *)
Definition target (rc : driver.RunContext) (v : S) (p : pipelineParams) (ws : Workspace) : Prop :=
  params v !! driver.rc_TaskID rc = Some p ∧
  last (wsrows.ListWorkspacesByTask (driver.rc_TaskID rc) (db (world v))) = Some ws.

Lemma run_ListByTask task (w : World X) : run (ListByTask task) w = (Ok (wsrows.ListWorkspacesByTask task (db w)), w).
Proof. done. Qed.

Lemma withWorld_id (v : S) : withWorld (world v) v = v.
Proof. by destruct v. Qed.

Lemma run_runTarget rc (v v' : S) r :
  run (runTarget rc) v = (r, v') →
  v' = v ∧ match r with Ok (p, ws) => target rc v p ws | Err e => inconclusive e end.
Proof.
  unfold runTarget. rewrite run_bind. unfold loadParams at 1. rewrite run_query.
  destruct (params v !! _) as [p|] eqn:Hp.
  2: { cbn. intros [= <- <-]. split; [done|]. unfold inconclusive; cbn. set_solver. }
  rewrite run_bind. unfold workspaceForTask. rewrite run_bind, run_manager, run_ListByTask. cbn [fst snd]. rewrite withWorld_id.
  cbn [run mret proc_ret]. destruct (last _) as [ws|] eqn:Hw; cbn [run mret proc_ret]; intros [= <- <-]; (split; [done|]).
  - by split.
  - unfold inconclusive; cbn. set_solver.
Qed.

Lemma run_verifyWorktree task ws (v v' : S) r :
  run (verifyWorktree task ws) v = (r, v') →
  match r with
  | Ok out => ∃ insp w reqs, run (InspectWorktree ws) (world v) = (Ok insp, w) ∧
                asked (withWorld w v) reqs (out_results out) v' ∧
                verdict ws (Inspection_ChangedFiles insp) verifyLevels reqs out
  | Err e => inconclusive e
  end.
Proof.
  unfold verifyWorktree. rewrite run_bind, run_manager.
  destruct (run (InspectWorktree ws) (world v)) as [[insp|e] w] eqn:Hi; cbn [fst snd].
  - intros H. apply (run_cascade _ _ _ _ [] [] (withWorld w v)) in H; [|constructor|constructor].
    destruct r as [out|e]; [|done]. destruct H as (reqs & Ha & Hv). eauto 10.
  - intros [= <- <-]. unfold inconclusive; cbn. set_solver.
Qed.

Lemma verdict_bound ws changed reqs out : verdict ws changed verifyLevels reqs out → length reqs ≤ 5.
Proof.
  destruct 1; rewrite ?length_app, length_fmap, ?length_take; unfold verifyLevels; simpl; lia.
Qed.

(** C32: the verify stage.  When it answers, the runner was asked the levels
    syntax, compile, targeted, module of the workspace of the run in this order,
    on the files that differ from the base, and the answer is the verdict of
    what the runner said: passed when none failed; failed at the first failing
    level, with that level's category and nothing asked after it; only when the
    module level failed in failures that all name a package is the runner asked
    once more, for exactly these packages, and then that run alone decides (and
    the evidence says so).  The runner is never asked more than five times, and
    no answer given under a cancelled context counts.  When the stage errs, the
    category is none of those that are verdicts about the code: a cancellation,
    an emergency stop, a worktree that cannot be read or a runner that cannot run
    is never reported as a failed verification. *)
Theorem handleVerify_verdict rc (v v' : S) r :
  run (handleVerify s rc) v = (r, v') →
  match r with
  | Ok (passed, evidence, category) =>
      ∃ p ws insp w reqs out v1,
        target rc v p ws ∧ run (InspectWorktree ws) (world v) = (Ok insp, w) ∧
        asked (withWorld w v) reqs (out_results out) v1 ∧
        verdict ws (Inspection_ChangedFiles insp) verifyLevels reqs out ∧ length reqs ≤ 5 ∧
        passed = out_passed out ∧ category = out_category out ∧
        evidence = reference "verify" (writeArtifact (EvVerify (mkVerifyEvidence (out_results out) (out_retry out))) v1).1
  | Err e => inconclusive e
  end.
Proof.
  unfold handleVerify. rewrite run_bind.
  destruct (run (runTarget rc) v) as [[[p ws]|e] v0] eqn:Ht; apply run_runTarget in Ht as [-> Ht]; [|by intros [= <- <-]].
  rewrite run_bind. destruct (run (verifyWorktree _ ws) v) as [[out|e] v1] eqn:Hw; apply run_verifyWorktree in Hw;
    [|by intros [= <- <-]].
  destruct Hw as (insp & w & reqs & Hi & Ha & Hv).
  rewrite run_bind. destruct (run (evidenceJSON _ _) v1) as [ev v2] eqn:He.
  apply run_evidenceJSON in He as [-> ->]. rewrite run_audited.
  cbn [run mret proc_ret]. intros [= <- <-].
  exists p, ws, insp, w, reqs, out, v1. pose proof (verdict_bound _ _ _ _ Hv). by split_and!.
Qed.

(** What Git says of a worktree, where asking it changes nothing. *)
Section review.
  Context (headOf statusOf : string → X → string).
  Context (Hhead : ∀ dir x r x', git ["-C"; dir; "rev-parse"; "HEAD"] x = (Ok r, x') → r = headOf dir x ∧ x' = x).
  Context (Hstatus : ∀ dir x r x', git ["-C"; dir; "status"; "--porcelain"] x = (Ok r, x') → r = statusOf dir x ∧ x' = x).

Definition fingerprint (dir : string) (v : S) : string :=
  strs.TrimSpace (headOf dir (ext (world v))) +:+ String strs.nl (statusOf dir (ext (world v))).

Lemma runGit_ok dir sub args (w w' : World X) out :
  dir ≠ "" → run (runGit dir (sub :: args)) w = (Ok out, w') →
  ∃ x, git ("-C" :: dir :: sub :: args) (ext w) = (Ok out, x) ∧ w' = withExt x w.
Proof.
  intros Hdir. cbn [runGit]. destruct (bool_decide (sub ∈ forbiddenGitSubcommands)); [done|].
  destruct (negb _); [done|]. rewrite run_bind, (bool_decide_false _ Hdir). cbn -[git]. unfold withExt.
  destruct (git _ (ext w)) as [[o|[]] x]; [|done..]. intros [= <- <-]. eauto.
Qed.

Lemma run_fingerprint c dir (v v' : S) out :
  dir ≠ "" → run (manager c (WorktreeFingerprint dir)) v = (Ok out, v') → out = fingerprint dir v ∧ v' = v.
Proof.
  intros Hdir. rewrite run_manager. unfold WorktreeFingerprint.
  rewrite run_bind. destruct (run (runGit dir _) _) as [[h|e] w1] eqn:H1; cbn [fst snd]; [|done].
  apply runGit_ok in H1 as (x1 & [-> ->]%Hhead & ->); [|done].
  rewrite run_bind. destruct (run (runGit dir _) _) as [[st|e] w2] eqn:H2; cbn [fst snd run mret proc_ret]; [|done].
  apply runGit_ok in H2 as (x2 & [-> ->]%Hstatus & ->); [|done].
  intros [= <- <-]. split; [done|]. by destruct v as [[]].
Qed.

(** The pass over the enabled roles, as [handleReview] sees it. *)
Lemma run_reviewWorktree rc p ws (v v' : S) res :
  run (reviewWorktree rc p ws) v = (Ok res, v') →
  Path ws ≠ "" ∧ ∃ (vq : S) project,
    backlog.GetProject (driver.rc_ProjectID rc) (base (db (world vq))) = Ok project ∧
    let resolved := (policy.Resolve (policy.NewProject (profileOf (backlog.Profile project)))
                       (policy.mkTaskContext None false)).1 in
    ∃ reviewer req, review.Run (Er := ReviewError) reviewer resolved req vq = ((res, None), v').
Proof.
  unfold reviewWorktree. rewrite run_bind, run_manager. unfold InspectWorktree.
  case_bool_decide as Hp; [done|]. destruct (run _ (world v)) as [[insp|e] w1]; cbn [fst snd]; [|done].
  rewrite run_bind, run_manager. destruct (run _ (world _)) as [[diff|e] w2]; cbn [fst snd]; [|done].
  rewrite run_bind. unfold resolvedPolicy. rewrite run_query.
  destruct (backlog.GetProject _ _) as [project|e] eqn:Hq; [|done].
  rewrite run_bind. cbn [atomic run].
  destruct (review.Run (Er := ReviewError) _ _ _ _) as [[r [[role e]|]] v3] eqn:Hr; cbn [run mret proc_ret].
  - destruct e as [u|[? ? ?|?]|o]; done.
  - intros [= <- <-]. split; [done|]. eexists _, project. split; [exact Hq|]. eauto.
Qed.

Lemma handleReview_inv rc (v v' : S) approved evidence :
  run (handleReview s rc) v = (Ok (approved, evidence), v') →
  ∃ p ws res (v1 : S),
    target rc v p ws ∧ run (reviewWorktree rc p ws) v = (Ok res, v1) ∧ Path ws ≠ "" ∧
    fingerprint (Path ws) v1 = fingerprint (Path ws) v ∧ approved = approves res.
Proof.
  unfold handleReview. rewrite run_bind.
  destruct (run (runTarget rc) v) as [[[p ws]|e] v0] eqn:Ht; apply run_runTarget in Ht as [-> Ht]; [|done].
  rewrite run_bind. destruct (run (manager _ _) v) as [[before|e] v1] eqn:Hb; [|done].
  rewrite run_bind. destruct (run (reviewWorktree rc p ws) v1) as [[res|e] v2] eqn:Hr; [|done].
  pose proof (run_reviewWorktree _ _ _ _ _ _ Hr) as (Hp & _).
  apply run_fingerprint in Hb as [-> ->]; [|done].
  rewrite run_bind. destruct (run (manager _ _) v2) as [[after|e] v3] eqn:Ha; [|done].
  apply run_fingerprint in Ha as [-> ->]; [|done].
  case_bool_decide as Hf; cbn [negb]; [|done].
  rewrite run_bind. destruct (run (evidenceJSON _ _) v2) as [ev v3] eqn:He.
  apply run_evidenceJSON in He as [-> ->]. rewrite run_audited. cbn [run mret proc_ret]. intros H.
  assert (approves res = approved) as <- by congruence. exists p, ws, res, v2. done.
Qed.

(** the review stage.  It answers only when the reviewers left the worktree
    with the head and the status it had before; then exactly the roles that the
    policy of the run's project enables were run, the others are recorded as
    skipped, and the work is approved exactly when no role was enabled at all
    or none of the findings is major or worse. *)
Theorem handleReview_approval rc (v v' : S) approved evidence :
  run (handleReview s rc) v = (Ok (approved, evidence), v') →
  ∃ p ws res (v1 vq : S) project,
    target rc v p ws ∧ run (reviewWorktree rc p ws) v = (Ok res, v1) ∧ fingerprint (Path ws) v1 = fingerprint (Path ws) v ∧
    backlog.GetProject (driver.rc_ProjectID rc) (base (db (world vq))) = Ok project ∧
    let project := policy.NewProject (profileOf (backlog.Profile project)) in
    let roles := review.roles (policy.Resolved_Pipeline (policy.Resolve project (policy.mkTaskContext None false)).1) in
    review.RolesRun res = (filter (λ r, r.2 = true) roles).*1 ∧
    review.RolesSkipped res = (filter (λ r, r.2 = false) roles).*1 ∧
    (approved = true ↔ review.RolesRun res = [] ∨ Forall (λ f, review.IsMajorOrWorse f = false) (review.Findings res)).
Proof.
  intros H. apply handleReview_inv in H as (p & ws & res & v1 & Ht & Hr & _ & Hf & ->).
  pose proof (run_reviewWorktree _ _ _ _ _ _ Hr) as (_ & vq & project & Hq & reviewer & req & Hrun).
  exists p, ws, res, v1, vq, project. do 4 (split; [done|]). cbv zeta. apply review_ran in Hrun as [Hrun Hskip].
  split; [exact Hrun|]. split; [exact Hskip|]. apply approves_iff.
Qed.

End review.
End conclusions.

(** ** A small studio *)

(** A sandbox, what each agent run does (and whether it ends cancelled), and
    the verdicts of the test runner. *)
Record Studio := mkStudio {
  box : Sandbox;
  acts : list ((Sandbox → Sandbox) * bool);
  verdicts : list testengine.VerificationStatus;
  failure : FailureCategory;
  stopped : bool;
  full : bool }.  (** no space for a worktree *)
Definition withBox (b : Sandbox) (x : Studio) : Studio := mkStudio b (acts x) (verdicts x) (failure x) (stopped x) (full x).
#[export] Instance studioExternal : External Studio := {|
  git argv x := let '(r, b) := git argv (box x) in (r, withBox b x);
  isWorktree p x := isWorktree p (box x);
  statDir p x := statDir p (box x);
  mkdirParent p x := (if full x then Err "no space" else Ok (), x) |}.
Definition answer (text : string) : agent.NormalizedEvent :=
  agent.mkNormalizedEvent agent.EventMessageDelta (Some (agent.mkMessagePayload "m" text "" "assistant")) None None None None.
#[export] Instance studioAgents : Agents Studio := {|
  supervise req _ w :=
    let x := ext w in
    match acts x with
    | [] => (Err "no agent", w)
    | (f, cancelled) :: l =>
        (Ok (mkSupervisorResult "run" "session"
               (runapp.demoEvent (if cancelled then agent.EventRunCancelled else agent.EventRunCompleted)) [answer "[]"] false
               cancelled),
         withExt (mkStudio (f (box x)) l (verdicts x) (failure x) (stopped x) (full x)) w)
    end;
  RecordUsage _ w := (Ok (), w);
  knownEngine e := bool_decide (e = "opencode") |}.
#[export] Instance studioStages : Stages Studio := {|
  runTests req v :=
    let x := ext (world v) in
    let res := testengine.bareResult (testengine.RunRequest_Level req) (default testengine.StatusPassed (head (verdicts x))) in
    (Ok res, withWorld (withExt (mkStudio (box x) (acts x) (tail (verdicts x)) (failure x) (stopped x) (full x)) (world v)) v);
  ctxDone _ := false;
  reviewerOf _ _ _ := None;
  reviewPrompt _ _ := "review";
  parseFindings _ out := if bool_decide (out = "[]") then Ok [] else Err (Unparseable out);
  writeArtifact _ v := (Ok "h", v);
  emergencyStop v := Some (stopped (ext (world v)), "");
  currentFailure _ v := Ok (failure (ext (world v)));
  text _ := "" |}.

Definition put (content : string) (x : Sandbox) : Sandbox :=
  mkSandbox (sb_refs x) (sb_head x) (<["f" := content]> (sb_files x)) (sb_there x) (sb_usage x).
Definition studio (l : list ((Sandbox → Sandbox) * bool)) (vs : list testengine.VerificationStatus) (c : FailureCategory) : Studio :=
  mkStudio (mkSandbox ∅ "c0" ∅ true []) l vs c false false.
Definition demoDescription : string :=
  "Fix the crash in f" +:+ String strs.nl (String strs.nl "Acceptance criteria:") +:+ String strs.nl "- f does not crash".
Definition demoSt (x : Studio) : St Studio :=
  mkSt (mkWorld (mkDB (backlog.mkDB (backlog.projects demoBase)
                         [backlog.mkTask "p-1" "p" "Fix the crash" demoDescription "NORMAL" backlog.StateRunning 1 1] [] ∅ [])
                  [] [] 1 []) x 2)
    (specification.mkDB ["p-1"] [] [] ∅ []) (workstore.mkWorld (workstore.mkDB ["p-1"] [] [] [] [] 0 []) 5 [])
    {["p-1" := mkPipelineParams "p" "/repo" demoDescription "opencode" "m" "" 0]} ∅ ∅ ∅ ∅ [].
Abbreviation demoHandlers :=
  (pipelineHandlers (X := Studio) runapp.demoService (specification.mkStore None) (workstore.mkStore None)).
Definition demoDB : pipeline.DB :=
  match pipeline.CreateRun "p-1" "p" 2 1 pipeline.emptyDB with Ok (_, d) => d | Err _ => pipeline.emptyDB end.
Definition demoDrive (x : Studio) : option (option pipeline.Error * driver.World (St Studio)) :=
  driver.Drive 40 demoHandlers "p-1" (driver.mkWorld demoDB false 2 [] (demoSt x)).

Definition demoRC (st : Stage) : driver.RunContext := driver.mkRunContext "p-1" "p" st 1 0.
(** After compile, plan, ready and execute. *)
Definition prepared (x : Studio) : St Studio :=
  foldl (λ v h, (h v).2) (demoSt x)
    [λ v, (tt, (run (handleCompile runapp.demoService (specification.mkStore None) (demoRC StageCompile)) v).2);
     λ v, (tt, (run (handlePlan runapp.demoService (workstore.mkStore None) (demoRC StagePlan)) v).2);
     λ v, (tt, (run (handleReady runapp.demoService (workstore.mkStore None) (demoRC StageReady)) v).2);
     λ v, (tt, (run (handleExecute runapp.demoService (demoRC StageExecute)) v).2)].

Lemma handleVerify_verdict_witness :
  let v := prepared (studio [(put "1", false)] [testengine.StatusPassed; testengine.StatusFailed] FailureNone) in
  let r := run (handleVerify runapp.demoService (demoRC StageVerify)) v in
  r.1 = Ok (false, "artifact:h", FailureCompile) ∧ acts (ext (world v)) = [] ∧
  ∃ p ws, target (demoRC StageVerify) v p ws ∧ Params_Engine p = "opencode".
Proof.
  cbv zeta.
  pose proof (handleVerify_verdict runapp.demoService (demoRC StageVerify)
    (prepared (studio [(put "1", false)] [testengine.StatusPassed; testengine.StatusFailed] FailureNone)) _ _
    (surjective_pairing _)) as H.
  split; [vm_compute; reflexivity|]. split; [vm_compute; reflexivity|].
  revert H. 
  match goal with |- match ?r with _ => _ end → _ => replace r with (Ok (E := driver.HandlerError) (false, "artifact:h", FailureCompile))
    by (vm_compute; reflexivity) end.
  intros (p & ws & _ & _ & _ & _ & _ & Ht & _). exists p, ws. split; [exact Ht|].
  destruct Ht as [Hp _]. match type of Hp with ?l = _ =>
    let x := eval vm_compute in l in replace l with x in Hp by (vm_compute; reflexivity) end.
  by injection Hp as <-.
Defined.

Lemma studioHead dir (x : Studio) r x' :
  git ["-C"; dir; "rev-parse"; "HEAD"] x = (Ok r, x') → r = sb_head (box x) ∧ x' = x.
Proof. destruct x as [[] ? ? ? ? ?]. cbn. by intros [= <- <-]. Qed.
Lemma studioStatus dir (x : Studio) r x' :
  git ["-C"; dir; "status"; "--porcelain"] x = (Ok r, x') → r = sb_status (box x) ∧ x' = x.
Proof. destruct x as [[] ? ? ? ? ?]. cbn. by intros [= <- <-]. Qed.

Lemma handleReview_approval_witness :
  let v := prepared (studio [(put "1", false); (id, false); (id, false); (id, false)] [] FailureNone) in
  let r := run (handleReview runapp.demoService (demoRC StageReview)) v in
  r.1 = Ok (true, "artifact:h") ∧
  ∃ ws (v1 : St Studio), fingerprint (λ _ x, sb_head (box x)) (λ _ x, sb_status (box x)) (Path ws) v1
                         = fingerprint (λ _ x, sb_head (box x)) (λ _ x, sb_status (box x)) (Path ws) v.
Proof.
  cbv zeta. assert ((run (handleReview runapp.demoService (demoRC StageReview))
    (prepared (studio [(put "1", false); (id, false); (id, false); (id, false)] [] FailureNone))).1 = Ok (true, "artifact:h")) as Hr
    by (vm_compute; reflexivity).
  split; [exact Hr|]. generalize dependent (prepared (studio [(put "1", false); (id, false); (id, false); (id, false)] [] FailureNone)).
  intros v Hr. destruct (run (handleReview runapp.demoService (demoRC StageReview)) v) as [r v'] eqn:He. cbn [fst] in Hr. subst r.
  destruct (handleReview_approval runapp.demoService (λ _ x, sb_head (box x)) (λ _ x, sb_status (box x)) studioHead studioStatus
    _ _ _ _ _ He) as (p & ws & res & v1 & vq & project & _ & _ & H & _).
  exists ws, v1. exact H.
Defined.

(** What a drive of the demonstration run ends in: its error, the state of the
    run, the tip of the task's result branch, the workspace's state and how many
    agent runs the script has left. *)
Definition ending (x : Studio) :
    option (option pipeline.Error * option RunState * option string * list State * Z) :=
  match demoDrive x with
  | None => None
  | Some (e, w) =>
      let v := driver.ext w in
      Some (e, match pipeline.CurrentRun "p-1" (driver.db w) with Ok r => Some (pipeline.State r) | Err _ => None end,
            sb_refs (box (ext (world v))) !! "refs/heads/forge/result/p-1",
            State_ <$> workspaces (db (world v)), Z.of_nat (length (acts (ext (world v)))))
  end.

(** The agent writes a file, verification and review pass: the run completes
    with the work on the result branch. *)
Example pipeline_completes :
  ending (studio [(put "1", false); (id, false); (id, false); (id, false)] [] FailureNone) =
    Some (None, Some RunCompleted, Some "c1", [StateCompleted], 0%Z).
Proof. vm_compute. reflexivity. Qed.

(** ** Where the handlers do less than they say *)

(** The reviewers are given what the attempt branch has over the base
    ([git diff base HEAD]): when the agent leaves its work uncommitted, which the
    finalize stage provides for, they approve an empty diff, and the work they
    never saw is committed and delivered ([pipeline_completes]). *)
Lemma review_sees_commits_only :
  let v := prepared (studio [(put "1", false)] [] FailureNone) in
  (run (Diff "ws-p-1-main-1") (world v)).1 = Ok "" ∧ sb_files (box (ext (world v))) !! "f" = Some "1".
Proof. vm_compute. by split. Qed.

(** [WorktreeFingerprint] promises that an edit of a tracked file alters it;
    the status of a file that is already modified does not change when it is
    modified again, so a reviewer that rewrites the agent's uncommitted work
    passes the check of the review stage, and its version is delivered. *)
Lemma reviewer_edit_undetected :
  ending (studio [(put "1", false); (put "evil", false); (id, false); (id, false)] [] FailureNone) =
    Some (None, Some RunCompleted, Some "cevil", [StateCompleted], 0%Z).
Proof. vm_compute. reflexivity. Qed.

(** A cancellation during the review that the repair stage repeats is asked of
    the store, but the error is dropped: the stage goes on and starts another
    agent run. *)
Lemma repair_review_cancel_dropped :
  let v := prepared (studio [(put "1", false); (id, true); (put "2", false)] [] FailureReviewRejection) in
  let '(r, v') := run (handleRepair runapp.demoService (demoRC StageRepair)) v in
  is_ok r = true ∧ calls v' = [driver.ICancel "p-1" "cancelled"] ∧ acts (ext (world v')) = [] ∧
  sb_files (box (ext (world v'))) !! "f" = Some "2".
Proof. vm_compute. by repeat split. Qed.

End handlers.
