(* ===== verification/PipelineService.v ===== *)
(** * PipelineService: the daemon's pipeline endpoints

    Models [internal/daemon/pipeline_service.go]: starting, cancelling and
    resuming a run, the emergency stop, settling what a finished run leaves
    behind, and the record the endpoints answer with.  The shared state is that
    of the driver ([Driver.v]) over the state of the handlers ([Handlers.v]).
    The files of the parameter directory are maps; a file that cannot be written
    or parsed is not modelled. *)
From S2P Require Import Prelude Process AuditTrail Policy TestEngine Review Repair Pipeline Driver Agent Failover.
From S2P Require Import WorkGraph WorkStore Specification Compiler Projects Backlog WorkspaceRows Workspace Finalize Runner Decompose Handlers.

Module pipesvc.
Import pipeline process workspace runner handlers.

(** ** The wire records ([transport/pipeline_api.go]) *)

Record PipelineRunRequest := mkPipelineRunRequest {
  Req_ProjectID : string;
  Req_Description : string;
  Req_Engine : string;
  Req_Model : string;
  Req_BaseBranch : string;
  TimeoutSeconds : Z;
  MaxRepairs : Z }.

Record StageRecordDTO := mkStageRecordDTO {
  DTO_Stage : string;
  DTO_Attempt : Z;
  DTO_Status : string;
  DTO_RecordCategory : string;
  DTO_Reason : string;
  DTO_EvidenceRef : string }.

Record DTO := mkDTO {
  DTO_Outcome : string;
  DTO_TaskID : string;
  DTO_WorkspaceID : string;
  DTO_RunID : string;
  DTO_WorkspacePath : string;
  DTO_BaseSHA : string;
  DTO_ActualHeadSHA : string;
  DTO_Engine : string;
  DTO_Model : string;
  DTO_ChangedFiles : list string;
  DTO_CommitSHA : string;
  DTO_ResultBranch : string;
  DTO_NextAction : string;
  DTO_Error : string;
  DTO_ErrorClass : string;
  DTO_RunState : string;
  DTO_CurrentStage : string;
  DTO_FailureCategory : string;
  DTO_FailureReason : string;
  DTO_ResultRef : string;
  DTO_StageRecords : list StageRecordDTO }.

(** A record of which only the engine, the model, the task and the error are set. *)
Definition errorDTO (task engine model err class : string) : DTO :=
  mkDTO "" task "" "" "" "" "" engine model [] "" "" "" err class "" "" "" "" "" [].
Definition zeroDTO : DTO := errorDTO "" "" "" "" "".
(** [dto.Outcome, dto.Error, dto.ErrorClass, dto.NextAction = ...]. *)
Definition verdictDTO (o err class next : string) (d : DTO) : DTO :=
  mkDTO o (DTO_TaskID d) (DTO_WorkspaceID d) (DTO_RunID d) (DTO_WorkspacePath d) (DTO_BaseSHA d) (DTO_ActualHeadSHA d)
    (DTO_Engine d) (DTO_Model d) (DTO_ChangedFiles d) (DTO_CommitSHA d) (DTO_ResultBranch d) next err class
    (DTO_RunState d) (DTO_CurrentStage d) (DTO_FailureCategory d) (DTO_FailureReason d) (DTO_ResultRef d)
    (DTO_StageRecords d).

(** [string(run.State)], [string(r.Status)]. *)
Definition RunState_String (s : RunState) : string :=
  match s with
  | RunActive => "active" | RunCompleted => "completed" | RunFailed => "failed" | RunCancelled => "cancelled"
  | RunRepairExhausted => "repair_exhausted" | RunWaitingQuota => "waiting_quota" | RunBlocked => "blocked"
  | RunOther s => s
  end.
Definition RecordStatus_String (s : RecordStatus) : string :=
  match s with
  | RecordEntered => "entered" | RecordCompleted => "completed" | RecordFailed => "failed" | RecordSkipped => "skipped"
  end.
Definition recordDTO (r : StageRecord) : StageRecordDTO :=
  mkStageRecordDTO (Stage_String (Record_Stage r)) (pipeline.Attempt r) (RecordStatus_String (Status r))
    (driver.FailureCategory_String (Record_FailureCategory r)) (Reason r) (EvidenceRef r).

Definition errorClassForCategory (c : FailureCategory) : string :=
  match c with
  | FailureQuotaExceeded => "PROVIDER_QUOTA"
  | FailureRateLimited => "PROVIDER_RATE_LIMIT"
  | FailureAgentAuthUnavailable => "PROVIDER_AUTH"
  | FailureProviderTimeout => "TIMEOUT"
  | FailureCancelled => "CANCELLED"
  | FailureInterrupted => "INTERRUPTED"
  | FailureAgentUnavailable => "AGENT_UNAVAILABLE"
  | FailureInvalidAgentOutput => "INVALID_AGENT_OUTPUT"
  | FailurePolicyRejection => "POLICY_REJECTION"
  | _ => "INTERNAL_ERROR"
  end.

(** The verdict of [buildDTO]: outcome, error, class and next action. *)
Definition verdictOf (run : pipeline.Run) (finished : option string) : string * string * string * string :=
  match pipeline.State run with
  | RunCompleted =>
      (match finished with
       | Some o => if bool_decide (o = "") then "completed-with-commit" else o
       | None => "completed-with-commit"
       end, "", "", "")
  | RunCancelled => ("cancelled", FailureReason run, "CANCELLED", "")
  | RunFailed | RunRepairExhausted =>
      (if bool_decide (Run_FailureCategory run = FailureProviderTimeout) then "timed-out" else "failed",
       FailureReason run, errorClassForCategory (Run_FailureCategory run), "")
  | RunWaitingQuota =>
      ("failed", FailureReason run, errorClassForCategory (Run_FailureCategory run),
       "quota exhausted; the run resumes on the next daemon start after quota reset")
  | RunBlocked =>
      ("", FailureReason run, "BLOCKED_LEASE",
       "a conflicting lease blocks the run; it resumes on the next daemon start after the lease is released or expires")
  | _ => ("", "", "", "")
  end.

Definition isWorkspaceTerminalState (st : wsrows.State) : bool :=
  match st with
  | StateCompleted | StateFailed | StateCancelled | StateTimedOut | StateKept | StateRejected | StateDeleted
  | StateQuarantined => true
  | _ => false
  end.

(** What an endpoint fails with: the driver's fuel, which is never used up
    ([drive_returns]), or an error of the pipeline store. *)
Inductive Failure := OutOfFuel | StoreError (e : pipeline.Error) | TaskIDRequired | RunNotFound (task : string).

Section service.
  Context {X : Type} `{!External X, !Agents X, !Stages X}.
  Context (s : runapp.Service) (specStore : specification.SpecificationStore) (graphStore : workstore.WorkGraphStore).
  Abbreviation S := (St X).
  Abbreviation W := (driver.World S).
  Abbreviation M := (proc W Failure).
  Abbreviation m := (runapp.wm s).

Definition withExt (v : S) (w : W) : W := driver.mkWorld (driver.db w) (driver.cancelled w) (driver.now w) (driver.sched w) v.

(** A part of a handler, a program on the workspaces, a call of the pipeline
    store, on a context detached from the caller's when it says so. *)
Definition onSt {E A} (p : proc S E A) : proc W E A := zoom driver.ext withExt p.
Definition onWS {E A} (p : proc (World X) E A) : proc W E A := onSt (onWorld p).
Definition store {A} (d : driver.D (E := S) A) : M A := mapErr StoreError (attempt_ d).
Definition audit_ (type_ task : string) (payload : list (string * audit.Val)) : M () :=
  ignore (onSt (handlers.audit_ s type_ task payload)).

(** ** Parameters, results, and who drives *)

Definition withParams (t : string) (p : pipelineParams) (v : S) : S :=
  mkSt (world v) (specs v) (graphs v) (<[t := p]> (params v)) (records v) (lastFin v) (cancels v) (driving v) (calls v).
Definition withDriving (d : gset string) (v : S) : S :=
  mkSt (world v) (specs v) (graphs v) (params v) (records v) (lastFin v) (cancels v) d (calls v).

Definition saveParams (t : string) (p : pipelineParams) : M () := onSt (atomic (λ v, ((), withParams t p v))).
Definition loadFinalizeRecord (t : string) (v : S) : option finalizeRecord :=
  match lastFin v !! t with Some f => Some (recordOf f) | None => records v !! t end.

Definition beginDrive (t : string) : M bool :=
  onSt (atomic (λ v, if bool_decide (t ∈ driving v) then (false, v) else (true, withDriving ({[t]} ∪ driving v) v))).
Definition endDrive (t : string) : M () := onSt (atomic (λ v, ((), withDriving (driving v ∖ {[t]}) v))).

(** [cancelAgentRun]: the registered context is cancelled; which agents stop,
    and when, is up to [supervise]. *)
Definition cancelAgentRun (t : string) : M bool := onSt (read (λ v, bool_decide (t ∈ cancels v))).
Definition cancelAllAgentRuns : M (list string) := onSt (read (λ v, elements (cancels v))).

(** ** Settling *)

Definition latestWorkspace (t : string) : proc W Failure (result driver.HandlerError (option Workspace)) :=
  catch (onSt (workspaceForTask t)).

Definition releaseRunLeases (t : string) : M () :=
  r ← latestWorkspace t;
  match r with
  | Ok (Some ws) => ignore (onSt (onGraphs (workstore.ReleaseAll (ID ws))))
  | _ => mret ()
  end.

(** The terminal event a run that did not complete is settled with. *)
Definition settleEvent (run : pipeline.Run) : agent.NormalizedEvent :=
  match pipeline.State run with
  | RunCancelled => agent.mkNormalizedEvent agent.EventRunCancelled None None None None None
  | _ =>
      agent.mkNormalizedEvent agent.EventRunFailed None None None None
        (if bool_decide (Run_FailureCategory run = FailureProviderTimeout)
         then Some (agent.mkFailurePayload agent.FailureTimeout (FailureReason run) 0) else None)
  end.

Definition settleRun (t : string) (run : pipeline.Run) : M () :=
  if negb (IsTerminalRunState (pipeline.State run)) then mret ()
  else
    _ ← releaseRunLeases t;
    r ← latestWorkspace t;
    match r with
    | Err _ => mret ()
    | Ok None =>
        tk ← read (λ w, backlog.Get t (base (db (world (driver.ext w)))));
        match tk with
        | Ok (tk, _) =>
            if backlog.IsTerminal (backlog.Task_State tk) then mret ()
            else ignore (onWS (TransitionTask s t (if bool_decide (pipeline.State run = RunCancelled) then backlog.ActionCancel
                                                   else backlog.ActionFail)))
        | Err _ => mret ()
        end
    | Ok (Some ws) =>
        if isWorkspaceTerminalState (State_ ws) then mret ()
        else
          insp ← catch (onWS (InspectWorktree ws));
          let insp := match insp with Ok i => i | Err _ => zeroInspection end in
          p ← onSt (read (λ v, default zeroParams (params v !! t)));
          ignore (onWS (runapp.Finalize s (runapp.mkFinalizeRequest (ID ws) (settleEvent run) insp t (Params_Engine p)
                                             (Params_Model p) (RunID ws))))
    end.

(** ** The answer *)

Definition orElse (a b : string) : string := if bool_decide (a = "") then b else a.
Definition fromRecord (fin : option finalizeRecord) (f : finalizeRecord → string) (old : string) : string :=
  match fin with Some r => orElse (f r) old | None => old end.

Definition dtoOf (run : pipeline.Run) (recs : list StageRecord) (p : pipelineParams) (fin : option finalizeRecord)
    (ws : option Workspace) : DTO :=
  let onWs (f : Workspace → string) := match ws with Some w => f w | None => "" end in
  let '(o, err, class, next) := verdictOf run (Rec_Outcome <$> fin) in
  mkDTO o (pipeline.TaskID run) (fromRecord fin Rec_WorkspaceID (onWs ID)) (onWs RunID) (onWs Path) (onWs BaseSHA) (onWs HeadSHA)
    (orElse (Params_Engine p) (onWs Engine)) (orElse (Params_Model p) (onWs Model))
    (match fin with Some r => Rec_ChangedFiles r | None => [] end)
    (match fin with Some r => Rec_CommitSHA r | None => "" end)
    (fromRecord fin Rec_ResultBranch (onWs ResultBranch)) next err class
    (RunState_String (pipeline.State run)) (Stage_String (CurrentStage run)) (driver.FailureCategory_String (Run_FailureCategory run))
    (FailureReason run) (pipeline.ResultRef run) (recordDTO <$> recs).

Definition buildDTO (t : string) : M DTO :=
  run ← store (driver.query true (CurrentRun t));
  recs ← store (driver.query true (λ d, Ok (StageRecords t d)));
  p ← onSt (read (λ v, default zeroParams (params v !! t)));
  fin ← onSt (read (loadFinalizeRecord t));
  ws ← latestWorkspace t;
  mret (dtoOf run recs p fin (match ws with Ok ws => ws | Err _ => None end)).

(** ** The endpoints *)

(** Enough fuel for what the run may still do ([drive_returns]). *)
Definition driveFuel (t : string) (w : W) : nat :=
  match runs (driver.db w) !! t with
  | Some r => Datatypes.S (Z.to_nat (9 * MaxRepairAttempts r + 9))
  | None => 1
  end.
Definition drive (t : string) : M (option pipeline.Error) :=
  attempt_ (λ w, match driver.Drive (driveFuel t w) (pipelineHandlers s specStore graphStore) t w with
                 | Some (e, w) => (Ok e, w)
                 | None => (Err OutOfFuel, w)
                 end).

Definition settleCurrent (t : string) : M () :=
  r ← catch (store (driver.query true (CurrentRun t)));
  match r with Ok run => settleRun t run | Err _ => mret () end.

(** What the error of the drive adds to the answer. *)
Definition withDriveError (e : option pipeline.Error) (d : DTO) : DTO :=
  match e with
  | Some (ErrEmergencyStopped r) =>
      verdictDTO (DTO_Outcome d) (text (X := X) (CausePipeline (ErrEmergencyStopped r))) "EMERGENCY_STOP"
        "run parked by emergency stop; clear it with `forge estop off` (the run resumes on the next daemon start)" d
  | Some e =>
      if bool_decide (DTO_Error d = "")
         && negb (bool_decide (DTO_RunState d ∈ ["completed"; "failed"; "cancelled"; "repair_exhausted"]))
      then verdictDTO (orElse (DTO_Outcome d) "failed") (text (X := X) (CausePipeline e))
             (orElse (DTO_ErrorClass d) "INTERNAL_ERROR") (DTO_NextAction d) d
      else d
  | None => d
  end.

(** [RunPipeline]: the answer, and whether an error comes with it. *)
Definition RunPipeline (req : PipelineRunRequest) : M (DTO * bool) :=
  if bool_decide (Req_ProjectID req = "") then mret (zeroDTO, true)
  else if bool_decide (Req_Description req = "")
  then mret (errorDTO "" (Req_Engine req) (Req_Model req) "description is required" "EMPTY_PROMPT", false)
  else
    p ← read (λ w, backlog.GetProject (Req_ProjectID req) (base (db (world (driver.ext w)))));
    match p with
    | Err e => mret (errorDTO "" "" "" ("project: " +:+ text (CauseTask e)) "NOT_A_REPO", true)
    | Ok p =>
        let engine := orElse (Req_Engine req) "opencode" in
        if negb (knownEngine engine)
        then mret (errorDTO "" engine (Req_Model req) ("unknown engine " +:+ engine) "UNKNOWN_ENGINE", true)
        else
          t ← catch (onWS (AddTask s (backlog.Project_ID p) (Req_Description req)));
          match t with
          | Err e => mret (errorDTO "" engine (Req_Model req) ("create task: " +:+ text (CauseTask e)) "INTERNAL_ERROR", true)
          | Ok t =>
              let t := backlog.ID t in
              _ ← saveParams t (mkPipelineParams (backlog.Project_ID p) (backlog.Path p) (Req_Description req) engine
                                  (Req_Model req) (Req_BaseBranch req) (TimeoutSeconds req * 10 ^ 9));
              r ← catch (store (driver.call false (CreateRun t (backlog.Project_ID p) (MaxRepairs req))));
              match r with
              | Err _ => mret (errorDTO "" "" "" "create pipeline run" "INTERNAL_ERROR", true)
              | Ok _ =>
                  _ ← ignore (onWS (TransitionTask s t backlog.ActionDispatch));
                  _ ← audit_ "pipeline.run_started" t [("project", audit.VString (backlog.Project_ID p));
                        ("engine", audit.VString engine); ("model", audit.VString (Req_Model req))];
                  mine ← beginDrive t;
                  if negb mine
                  then mret (errorDTO t engine (Req_Model req) "run already in progress for this task" "INTERNAL_ERROR", true)
                  else
                    e ← drive t;
                    _ ← endDrive t;
                    _ ← settleCurrent t;
                    d ← catch (buildDTO t);
                    mret match d with
                         | Ok d => (withDriveError e d, false)
                         | Err _ => (zeroDTO, true)
                         end
              end
          end
    end.

Definition PipelineStatus (t : string) : M DTO :=
  if bool_decide (t = "") then Throw TaskIDRequired else buildDTO t.

(** The run becomes terminal first; then its agent is cancelled, and what it
    leaves is settled. *)
Definition CancelPipeline (t : string) : M DTO :=
  if bool_decide (t = "") then Throw TaskIDRequired
  else
    r ← catch (store (driver.call_ false (Cancel t "cancelled via API")));
    match r with
    | Err (StoreError ErrRunNotFound) => Throw (RunNotFound t)
    | Err e => Throw e
    | Ok _ =>
        _ ← cancelAgentRun t;
        _ ← audit_ "pipeline.run_cancelled" t [];
        _ ← settleCurrent t;
        buildDTO t
    end.

(** The agents it cancels. *)
Definition SetEmergencyStop (on : bool) (reason : string) : M (list string) :=
  _ ← store (driver.call_ false (λ _ d, Ok (pipeline.SetEmergencyStop on reason d)));
  stopped ← (if on then cancelAllAgentRuns else mret []);
  _ ← audit_ "pipeline.estop" "" [("on", audit.VBool on); ("reason", audit.VString reason)];
  mret stopped.
Definition EmergencyStopStatus : M (bool * string) := store (driver.query false (λ d, Ok (EmergencyStop d))).

Definition driveAndSettle (t : string) : M () :=
  mine ← beginDrive t;
  if negb mine then mret ()
  else _ ← drive t; _ ← settleCurrent t; endDrive t.

(** [ResumeActiveRuns], the store operations of which are [driver.resumeRun]'s:
    the resumed tasks, each of which a goroutine of its own then takes through
    [driveAndSettle]. *)
Fixpoint resumeListed (rs : list pipeline.Run) : M (list string) :=
  match rs with
  | [] => mret []
  | run :: rs =>
      r ← catch (store (driver.resumeRun run));
      match r with
      | Err _ => resumeListed rs
      | Ok _ =>
          _ ← audit_ "pipeline.run_resumed" (pipeline.TaskID run)
                [("stage", audit.VString (Stage_String (CurrentStage run)))];
          ts ← resumeListed rs;
          mret (pipeline.TaskID run :: ts)
      end
  end.
Definition ResumeActiveRuns (textLess : Time → Time → bool) : M (list string) :=
  stop ← catch (store (driver.query false (λ d, Ok (EmergencyStop d))));
  match stop with
  | Err _ | Ok (true, _) => mret []
  | Ok (false, _) =>
      rs ← catch (store (driver.query false (λ d, Ok (ListActiveRuns textLess d))));
      match rs with Err _ => mret [] | Ok rs => resumeListed rs end
  end.

End service.

(** ** Settling closes *)

Section closing.
  Context {X : Type} `{!External X} (s : runapp.Service).
  Abbreviation W := (World X).
  Import runapp.

(** The audit store takes outcome rows. *)
Context (Haudit : ∀ id i d, is_ok (auditTx (svc_audit s) id outcomeDecided (outcomePayload id i) d) = true).

Lemma auditTx_base rec id type_ p d d' :
  auditTx rec id type_ p d = Ok d' →
  workspaces d' = workspaces d ∧ intents d' = intents d ∧ backlog.tasks (base d') = backlog.tasks (base d).
Proof.
  unfold auditTx. destruct rec; [|by intros [= <-]]. destruct (audit.Record_ _ _ _) as [[a|e] t]; [|done].
  by intros [= <-].
Qed.

Lemma find_map {A} (p : A → bool) (f : A → A) l r :
  (∀ x, p (f x) = p x) → List.find p l = Some r → List.find p (f <$> l) = Some (f r).
Proof.
  intros Hp. induction l as [|x l IH]; [done|]. cbn. rewrite Hp. by destruct (p x); [intros [= ->]|].
Qed.

Lemma upsert_new i d :
  GetFinalizeIntent (Intent_WorkspaceID i) d = Err ErrFinalizeIntentNotFound →
  (∃ r, GetWorkspace (Intent_WorkspaceID i) d = Ok r) →
  ∃ d', UpsertFinalizeIntent i d = Ok d' ∧ workspaces d' = workspaces d ∧ base d' = base d ∧
    existsb (isIntent (Intent_WorkspaceID i)) (intents d') = true.
Proof.
  unfold GetFinalizeIntent, GetWorkspace, UpsertFinalizeIntent. intros Hn [r Hr].
  destruct (List.find _ (intents d)) as [j|] eqn:E; [done|]. destruct (existsb _ (intents d)) eqn:Ex.
  { apply existsb_exists in Ex as (j & Hin & Hj). by rewrite (find_none _ _ E _ Hin) in Hj. }
  destruct (List.find _ (workspaces d)) as [x|] eqn:Ew; [|done]. apply find_some in Ew as [Hin Hx].
  assert (existsb (isWorkspace (Intent_WorkspaceID i)) (workspaces d) = true) as -> by (apply existsb_exists; eauto).
  eexists. split; [done|]. split; [done|]. split; [done|]. cbn. rewrite existsb_app. cbn. unfold isIntent at 2.
  rewrite bool_decide_true by done. by rewrite orb_true_r.
Qed.

Lemma upsert_old i d :
  existsb (isIntent (Intent_WorkspaceID i)) (intents d) = true →
  ∃ d', UpsertFinalizeIntent i d = Ok d' ∧ workspaces d' = workspaces d ∧ base d' = base d.
Proof. unfold UpsertFinalizeIntent. intros ->. by eexists. Qed.

Lemma find_claimed id i t l r :
  List.find (isWorkspace id) l = Some r → State_ r = StateActive →
  existsb (isClaimable id) l = true ∧
  List.find (isWorkspace id) ((λ w, if isClaimable id w then claimedRow i t w else w) <$> l) = Some (claimedRow i t r).
Proof.
  intros Hf Hact. pose proof Hf as [Hin Hr]%find_some.
  assert (isClaimable id r = true) as Hc by (unfold isClaimable; by rewrite Hr, Hact).
  split; [apply existsb_exists; eauto|]. erewrite find_map; [|intros x; by destruct (isClaimable id x)|exact Hf]. by rewrite Hc.
Qed.

Lemma find_ended i t l tk :
  List.find (backlog.isTask (Intent_TaskID i)) l = Some tk → absorbed (backlog.Task_State tk) = false →
  List.find (backlog.isTask (Intent_TaskID i))
    ((λ k, if backlog.isTask (Intent_TaskID i) k && negb (absorbed (backlog.Task_State k))
           then backlog.setTaskState (TargetTaskState i) t k else k) <$> l) =
  Some (backlog.setTaskState (TargetTaskState i) t tk).
Proof.
  intros Hf Ha. pose proof Hf as [_ Ht]%find_some. erewrite find_map; [|intros x; by destruct (backlog.isTask _ x && _)|exact Hf].
  by rewrite Ht, Ha.
Qed.

Lemma total_commit_closes ws i changed tk (w : W) :
  Intent_WorkspaceID i = ID ws → GetWorkspace (ID ws) (db w) = Ok ws → State_ ws = StateActive →
  backlog.GetTask (Intent_TaskID i) (base (db w)) = Ok tk → absorbed (backlog.Task_State tk) = false →
  total (commitTerminal s ws i changed)
    (λ _ w', (∃ ws', GetWorkspace (ID ws) (db w') = Ok ws' ∧ State_ ws' = TargetWSState i) ∧
             (∃ tk', backlog.GetTask (Intent_TaskID i) (base (db w')) = Ok tk' ∧
                     backlog.Task_State tk' = TargetTaskState i)) w.
Proof.
  intros Hi Hws Hact Htk Habs. unfold commitTerminal. apply total_bind, total_mapErr.
  eapply total_query; [by rewrite Hws|]. rewrite Hact. cbn [isWorkspaceTerminal].
  apply total_bind. eexists _, _. split; [done|]. apply total_bind.
  unfold GetWorkspace in Hws. destruct (List.find _ (workspaces _)) as [x|] eqn:Ef; [|done]. injection Hws as ->.
  unfold backlog.GetTask in Htk. destruct (List.find _ (backlog.tasks _)) as [k|] eqn:Et; [|done]. injection Htk as ->.
  destruct (find_claimed _ i (clock w) _ _ Ef Hact) as [Hex Hcl].
  set (d1 := endTask i (clock w) (withWorkspaces ((λ r, if isClaimable (ID ws) r then claimedRow i (clock w) r else r)
                                                    <$> workspaces (db w)) (db w))).
  pose proof (Haudit (ID ws) i d1) as Ha. destruct (auditTx _ _ _ _ d1) as [d2|e] eqn:E2; [|done].
  pose proof (auditTx_base _ _ _ _ _ _ E2) as (H2w & H2i & H2t).
  assert (terminalTx s (ID ws) i (clock w) (db w) = Ok (Some (DeleteFinalizeIntent (ID ws) d2))) as Htx.
  { unfold terminalTx, claim. rewrite Hex. fold d1. by rewrite E2. }
  eapply total_attempt; [by rewrite Htx|]. cbn [negb]. apply total_ret. cbn [db withDB]. split.
  - exists (claimedRow i (clock w) ws). split; [|done]. unfold GetWorkspace. cbn [DeleteFinalizeIntent withIntents workspaces].
    rewrite H2w. unfold d1. cbn. by rewrite Hcl.
  - exists (backlog.setTaskState (TargetTaskState i) (clock w) tk). split; [|done]. unfold backlog.GetTask. cbn [DeleteFinalizeIntent withIntents base].
    rewrite H2t. unfold d1. cbn [endTask withBase base backlog.tasks withWorkspaces]. 
    by rewrite (find_ended _ _ _ _ Et Habs).
Qed.

(** An outcome without a result ref: Git is not asked. *)
Lemma total_Finalize_closes req ws tk atts taskTo (w : W) :
  let o := Classify (ClassifyFromEvent (TerminalEvent req) (Req_Inspection req) (BaseSHA ws)) in
  CreatesResultRef o = false → GetWorkspace (Req_WorkspaceID req) (db w) = Ok ws → State_ ws = StateActive →
  GetFinalizeIntent (ID ws) (db w) = Err ErrFinalizeIntentNotFound →
  backlog.Get (Req_TaskID req) (base (db w)) = Ok (tk, atts) →
  backlog.CanTransition (backlog.Task_State tk) (backlog.ActionForOutcome (Outcome_String o)) = Some taskTo →
  absorbed (backlog.Task_State tk) = false →
  total (Finalize s req)
    (λ _ w', (∃ ws', GetWorkspace (ID ws) (db w') = Ok ws' ∧ State_ ws' = WorkspaceState o) ∧
             (∃ tk', backlog.GetTask (Req_TaskID req) (base (db w')) = Ok tk' ∧ backlog.Task_State tk' = taskTo)) w.
Proof.
  cbv zeta. set (c := ClassifyFromEvent _ _ _). intros Ho Hws Hact Hint Htk Hcan Habs.
  assert (ID ws = Req_WorkspaceID req) as Hid.
  { unfold GetWorkspace in Hws. destruct (List.find _ _) as [x|] eqn:E; [|done]. injection Hws as ->.
    apply find_some in E as [_ E]. by apply bool_decide_eq_true in E. }
  unfold Finalize. apply total_bind, total_mapErr. eapply total_query; [by rewrite Hws|]. fold c. rewrite Hact. cbn [isWorkspaceTerminal].
  apply total_bind, total_catch. 
  assert (run (wsp (sql (GetFinalizeIntent (ID ws)))) w = (Err (ErrWorkspace (ErrStorage ErrFinalizeIntentNotFound)), w)) as ->
    by (unfold wsp, sql; by rewrite run_mapErr, run_query, Hint). cbn [fst snd].
  assert (allowedTransition StateActive (WorkspaceState (Classify c)) = true) as -> by (by destruct (Classify c)). cbn [negb].
  apply total_bind. eapply (total_query _ _ _ tk); [cbv beta; by rewrite Htk|].
  unfold taskTransitionFor. rewrite Hcan. apply total_bind. exists (clock w), w. split; [done|].
  set (i := newIntent _ _ _ _ _ _).
  assert (Intent_WorkspaceID i = ID ws) as Hi by done. assert (ExpectedRefSHA i = "") as Hsha by (cbn; by rewrite Ho).
  assert (Intent_TaskID i = Req_TaskID req ∧ TargetWSState i = WorkspaceState (Classify c) ∧ TargetTaskState i = taskTo)
    as (HT & HW & HS) by done.
  clearbody i. apply total_bind.
  destruct (upsert_new i (db w)) as (d1 & Hup & H1ws & H1b & H1i); [by rewrite Hi|by rewrite Hi, Hid; eauto|].
  eapply total_attempt; [by rewrite Hup|]. apply total_bind. unfold ensureRefForIntent. rewrite Hsha.
  rewrite bool_decide_true by done. apply total_bind. eapply total_ret. apply total_bind. eexists _, _. split; [done|].
  set (i' := setPhase _ _ i). apply total_bind.
  destruct (upsert_old i' d1) as (d2 & Hup2 & H2ws & H2b); [cbn; by rewrite <-H1i|].
  eapply total_attempt; [cbn [db withDB]; by rewrite Hup2|]. eapply total_ret.
  assert (backlog.GetTask (Req_TaskID req) (base (db w)) = Ok tk) as Htk'.
  { unfold backlog.Get in Htk. destruct (backlog.GetTask _ _) as [k|[]]; naive_solver. }
  rewrite <-HT, <-HW, <-HS. change (Intent_TaskID i) with (Intent_TaskID i').
  apply (total_commit_closes ws i' _ tk); cbn [db withDB]; [done| |done| |done].
  - unfold GetWorkspace. rewrite H2ws, H1ws. by rewrite Hid.
  - rewrite H2b, H1b. by rewrite <-Htk', <-HT.
Qed.
End closing.

Section settling.
  Context {X : Type} `{!External X, !Agents X, !Stages X} (s : runapp.Service).
  Abbreviation W := (driver.World (St X)).

(** Programs that only ask Git. *)
Definition quiet {E A} (p : proc (World X) E A) : Prop := ∀ w, db (run p w).2 = db w.

Lemma quiet_ret {E A} (a : A) : quiet (mret a : proc (World X) E A).
Proof. done. Qed.
Lemma quiet_throw {E A} (e : E) : quiet (Throw e : proc (World X) E A).
Proof. done. Qed.
Lemma quiet_read {E A} (f : World X → A) : quiet (read f : proc (World X) E A).
Proof. done. Qed.
Lemma quiet_bind {E A B} (p : proc (World X) E A) (f : A → proc (World X) E B) :
  quiet p → (∀ a, quiet (f a)) → quiet (p ≫= f).
Proof.
  intros Hp Hf w. rewrite run_bind. specialize (Hp w). destruct (run p w) as [[a|e] w1]; [|done].
  rewrite Hf. exact Hp.
Qed.
Lemma quiet_catch {E E' A} (p : proc (World X) E A) : quiet p → quiet (catch (E' := E') p).
Proof. intros Hp w. rewrite run_catch. apply Hp. Qed.
Lemma quiet_runGit dir args : quiet (runGit dir args).
Proof.
  unfold runGit. destruct args as [|sub args]; [done|]. destruct (bool_decide (sub ∈ forbiddenGitSubcommands)); [done|].
  destruct (negb _); [done|]. apply quiet_bind.
  - intros w. unfold external. cbn [atomic run]. by destruct (git _ (ext w)).
  - intros [out|[]]; [apply quiet_ret|apply quiet_throw..].
Qed.
Lemma quiet_trimmed p : quiet p → quiet (trimmed p).
Proof. intros Hp. apply quiet_bind; [done|]. intros a. apply quiet_ret. Qed.

Ltac quieten :=
  repeat first [apply quiet_runGit|apply quiet_trimmed|apply quiet_bind; [|intros ?]|apply quiet_catch|apply quiet_ret
               |apply quiet_throw|apply quiet_read|case_match].

Lemma quiet_InspectWorktree ws : quiet (InspectWorktree ws).
Proof. unfold InspectWorktree, computeChangedFiles. quieten. Qed.

Lemma run_onSt {E A} (p : proc (St X) E A) (w : W) :
  run (onSt p) w = ((run p (driver.ext w)).1, withExt (run p (driver.ext w)).2 w).
Proof. unfold onSt. apply run_zoom; [done|done|by intros []]. Qed.
Lemma run_onWS {E A} (p : proc (World X) E A) (w : W) :
  run (onWS p) w = ((run p (world (driver.ext w))).1,
                    withExt (withWorld (run p (world (driver.ext w))).2 (driver.ext w)) w).
Proof. unfold onWS. by rewrite run_onSt, run_onWorld. Qed.

(** The latest workspace of the task. *)
Definition latest (t : string) (w : W) : option Workspace := last (ListWorkspacesByTask t (db (world (driver.ext w)))).

Lemma run_latestWorkspace t (w : W) : run (latestWorkspace t) w = (Ok (Ok (latest t w)), w).
Proof.
  unfold latestWorkspace. rewrite run_catch, run_onSt. unfold workspaceForTask. rewrite run_bind, run_manager, run_ListByTask.
  cbn. unfold latest. by destruct w as [? ? ? ? [[]]].
Qed.

Definition released (ws : string) (w : W) : Prop :=
  Forall (λ l, workgraph.WorkspaceID l = ws → workstore.isActive l = false) (workstore.leases (workstore.db (graphs (driver.ext w)))).

Lemma run_releaseRunLeases t (w : W) :
  ∃ g, run (releaseRunLeases t) w = (Ok (), withExt (withGraphs g (driver.ext w)) w) ∧
    ∀ ws, latest t w = Some ws → released (ID ws) (withExt (withGraphs g (driver.ext w)) w).
Proof.
  unfold releaseRunLeases. rewrite run_bind, run_latestWorkspace. destruct (latest t w) as [ws|].
  2: { exists (graphs (driver.ext w)). split; [|done]. by destruct w as [? ? ? ? []]. }
  rewrite run_ignore, run_onSt. unfold onGraphs. rewrite run_attempt.
  destruct (workstore.ReleaseAll (ID ws) (graphs (driver.ext w))) as [r g] eqn:E. cbn [fst snd]. exists g. split; [done|].
  intros ws' [= <-]. unfold released. cbn. clear -E. pose (g1 := workstore.turn (graphs (driver.ext w))). pose (g2 := workstore.turn g1).
  assert (g = workstore.withDB (workstore.ReleaseLeasesByWorkspace (ID ws) (workstore.clock g1) (workstore.db g2)).2 g2) as ->
    by (apply (f_equal snd) in E; symmetry; exact E).
  cbn. apply Forall_fmap, Forall_forall. intros l _. cbn.
  destruct (bool_decide (workgraph.WorkspaceID l = ID ws)) eqn:Hb; cbn.
  - destruct (workstore.isActive l) eqn:Ha; [done|]. done.
  - intros Hl. by apply bool_decide_eq_false in Hb.
Qed.

Lemma settle_outcome r insp sha :
  IsTerminalRunState (pipeline.State r) = true → pipeline.State r ≠ RunCompleted →
  runapp.Classify (runapp.ClassifyFromEvent (settleEvent r) insp sha) =
    if bool_decide (pipeline.State r = RunCancelled) then runapp.OutcomeCancelled
    else if bool_decide (Run_FailureCategory r = FailureProviderTimeout) then runapp.OutcomeTimedOut
    else runapp.OutcomeFailed.
Proof.
  unfold settleEvent, runapp.ClassifyFromEvent, runapp.Classify.
  destruct (pipeline.State r); try done; intros _ _; cbn; by destruct (bool_decide (Run_FailureCategory r = _)).
Qed.

(** C33: when a run has failed, exhausted its repairs or been cancelled, settling
    it closes what it left behind: when the workspace was still active without an
    intent to finalize it and the task was running, and the audit store takes outcome
    rows, the workspace becomes cancelled, timed out or failed, as the run did, the task
    is cancelled or failed, and no lease of the workspace stays active; the pipeline
    store is not touched.  It does so whatever Git answers, even when the worktree can
    no longer be inspected.  (A workspace or a task in another state is left:
    [pending_workspace_unsettled], [failed_workspace_skips_task].) *)
Theorem settleRun_closes t r (w : W) ws tk atts :
  (∀ id i d, is_ok (auditTx (runapp.svc_audit s) id runapp.outcomeDecided (runapp.outcomePayload id i) d) = true) →
  IsTerminalRunState (pipeline.State r) = true → pipeline.State r ≠ RunCompleted →
  latest t w = Some ws → GetWorkspace (ID ws) (db (world (driver.ext w))) = Ok ws → State_ ws = StateActive →
  GetFinalizeIntent (ID ws) (db (world (driver.ext w))) = Err ErrFinalizeIntentNotFound →
  backlog.Get t (base (db (world (driver.ext w)))) = Ok (tk, atts) → backlog.Task_State tk = backlog.StateRunning →
  ∃ w', run (settleRun s t r) w = (Ok (), w') ∧ driver.db w' = driver.db w ∧ released (ID ws) w' ∧
    (∃ ws', GetWorkspace (ID ws) (db (world (driver.ext w'))) = Ok ws' ∧
       State_ ws' = if bool_decide (pipeline.State r = RunCancelled) then StateCancelled
                    else if bool_decide (Run_FailureCategory r = FailureProviderTimeout) then StateTimedOut
                    else StateFailed) ∧
    (∃ tk', backlog.GetTask t (base (db (world (driver.ext w')))) = Ok tk' ∧
       backlog.Task_State tk' = if bool_decide (pipeline.State r = RunCancelled) then backlog.StateCancelled
                                else backlog.StateFailed).
Proof.
  intros Ha Hterm Hnc Hl Hws Hact Hint Htk Hrun. unfold settleRun. rewrite Hterm. cbn [negb].
  rewrite run_bind. destruct (run_releaseRunLeases t w) as (g & -> & Hg). specialize (Hg ws Hl).
  set (w1 := withExt _ w) in *. cbn [fst snd].
  assert (latest t w1 = Some ws) as Hl1 by exact Hl.
  assert (world (driver.ext w1) = world (driver.ext w)) as Hw1 by done.
  rewrite run_bind, run_latestWorkspace, Hl1. cbn [fst snd]. rewrite Hact. cbn [isWorkspaceTerminalState].
  rewrite run_bind, run_catch, run_onWS. cbn [fst snd].
  pose proof (quiet_InspectWorktree ws (world (driver.ext w1))) as Hq.
  destruct (run (InspectWorktree ws) _) as [insp v2]. cbn [fst snd] in Hq |- *. set (w2 := withExt _ w1).
  rewrite run_bind, run_onSt. cbn [read atomic run fst snd]. set (w3 := withExt _ w2).
  rewrite run_ignore, run_onWS. 

  match goal with |- context [run (runapp.Finalize s ?q) _] => set (req := q) end.
  pose proof (settle_outcome r (runapp.Req_Inspection req) (BaseSHA ws) Hterm Hnc) as Ho.
  destruct (total_Finalize_closes s Ha req ws tk atts
    (if bool_decide (pipeline.State r = RunCancelled) then backlog.StateCancelled else backlog.StateFailed) (world (driver.ext w3)))
    as (res & v4 & Hfin & (ws' & Hws' & Hst) & (tk' & Htk' & Hts)); cbn [runapp.TerminalEvent req runapp.Req_TaskID runapp.Req_WorkspaceID].
  - rewrite Ho. by repeat case_bool_decide.
  - cbn. by rewrite Hq.
  - done.
  - cbn. by rewrite Hq.
  - cbn. by rewrite Hq.
  - rewrite Ho, Hrun. by repeat case_bool_decide.
  - by rewrite Hrun.
  - rewrite Hfin. cbn [fst snd]. eexists. split; [reflexivity|]. split; [done|]. split; [exact Hg|]. split.
    + exists ws'. split; [exact Hws'|]. rewrite Hst. cbn [runapp.TerminalEvent req]. rewrite Ho.
      by repeat case_bool_decide.
    + exists tk'. by split; [exact Htk'|].
Qed.

(** The fuel is never used up: in every database that the store's operations
    can reach, the drive returns. *)
Lemma drive_returns specStore graphStore t (w : W) :
  t ≠ "" → driver.good t (driver.db w) →
  ∃ e w', run (drive s specStore graphStore t) w = (Ok e, w') ∧ driver.good t (driver.db w') ∧
    (e = None → driver.atRest t (driver.db w')).
Proof.
  intros Ht Hg. unfold drive. rewrite run_attempt. unfold driver.Drive. rewrite bool_decide_false by done.
  destruct (driver.driveLoop_spec t (pipelineHandlers s specStore graphStore) (driveFuel t w) false w Hg)
    as (e & w' & -> & Hg' & Hn & _); [|by exists e, w'].
  unfold driver.budget, driveFuel. destruct (runs (driver.db w) !! t) as [r|] eqn:Hr; [|lia].
  destruct (proj1 (proj1 Hg) _ _ Hr) as [_ _ _ _ Hrep _ _]. unfold driver.budgetOf. destruct (_ || _); [lia|].
  pose proof (driver.rank_bounds (CurrentStage r)). lia.
Qed.
End settling.

(** ** The studio, from the endpoint *)

Definition demoReq : PipelineRunRequest := mkPipelineRunRequest "p" demoDescription "" "m" "" 0 2.
Definition demoStart (x : Studio) : driver.World (St Studio) :=
  driver.mkWorld pipeline.emptyDB false 2 []
    (mkSt (mkWorld (mkDB (backlog.mkDB (backlog.projects demoBase) [] [] ∅ []) [] [] 1 []) x 2)
       (specification.mkDB ["p-1"] [] [] ∅ []) (workstore.mkWorld (workstore.mkDB ["p-1"] [] [] [] [] 0 []) 5 [])
       ∅ ∅ ∅ ∅ ∅ []).
(** What the caller is told, and what the run leaves: the states of the
    workspaces and of the tasks, and who drives. *)
Definition demoRun (x : Studio) :=
  let '(r, w) := run (RunPipeline runapp.demoService (specification.mkStore None) (workstore.mkStore None) demoReq) (demoStart x) in
  let d := db (world (driver.ext w)) in
  (match r with Ok (d, _) => (DTO_Outcome d, DTO_RunState d, DTO_ErrorClass d) | Err _ => ("", "", "") end,
   State_ <$> workspaces d, backlog.Task_State <$> backlog.tasks (base d), elements (driving (driver.ext w))).

Example RunPipeline_completes :
  demoRun (studio [(put "1", false); (id, false); (id, false); (id, false)] [] FailureNone) =
    (("completed-with-commit", "completed", ""), [StateCompleted], [backlog.StateCompleted], []).
Proof. vm_compute. reflexivity. Qed.
Example RunPipeline_cancelled :
  demoRun (studio [(put "1", true)] [] FailureNone) =
    (("cancelled", "cancelled", "CANCELLED"), [StateCancelled], [backlog.StateCancelled], []).
Proof. vm_compute. reflexivity. Qed.

(** The run of the demonstration, failed in its verify stage. *)
Definition failedWorld : driver.World (St Studio) :=
  driver.mkWorld demoDB false 2 [] (prepared (studio [(put "1", false)] [] FailureNone)).
Definition failedRun : pipeline.Run :=
  pipeline.mkRun "p-1" "p" StageVerify RunRepairExhausted 1 2 2 FailureTest "tests" "" 1 1.
Definition failedWorkspace : Workspace := default (demoRow StateActive) (latest "p-1" failedWorld).

Lemma settleRun_closes_witness :
  ∃ w', run (settleRun runapp.demoService "p-1" failedRun) failedWorld = (Ok (), w') ∧ released "ws-p-1-main-1" w' ∧
    ∃ ws', GetWorkspace "ws-p-1-main-1" (db (world (driver.ext w'))) = Ok ws' ∧ State_ ws' = StateFailed.
Proof.
  destruct (settleRun_closes runapp.demoService "p-1" failedRun failedWorld failedWorkspace
    (default (backlog.mkTask "" "" "" "" "" backlog.StateNew 0 0)
       (head (backlog.tasks (base (db (world (driver.ext failedWorld)))))))
    []) as (w' & Hrun & _ & Hrel & Hws & _).
  - intros id i d. cbn. unfold audit.Record_, audit.recordInto. by case_bool_decide.
  - reflexivity.
  - discriminate.
  - vm_compute. reflexivity.
  - vm_compute. reflexivity.
  - vm_compute. reflexivity.
  - vm_compute. reflexivity.
  - vm_compute. reflexivity.
  - vm_compute. reflexivity.
  - exists w'. split; [exact Hrun|]. split; [exact Hrel|]. exact Hws.
Defined.

(** ** Where settling does not settle *)

(** The worktree cannot be created: the run fails in its ready stage and leaves
    a pending workspace.  The state machine of [Finalize] lets a pending
    workspace become failed, but only for a failure, which settling reports; the
    claim wants an active one, so nothing is recorded: the workspace stays
    pending and the task of the failed run stays RUNNING. *)
Lemma pending_workspace_unsettled :
  demoRun (mkStudio (mkSandbox ∅ "c0" ∅ true []) [] [] FailureNone false true) =
    (("failed", "failed", "INTERNAL_ERROR"), [StatePending], [backlog.StateRunning], []).
Proof. vm_compute. reflexivity. Qed.

(** A workspace that is already failed (as [Create] leaves it when [git worktree
    add] fails) ends the settling before the task is looked at. *)
Lemma failed_workspace_skips_task {X} `{!External X, !Agents X, !Stages X} s t r (w : driver.World (St X)) ws :
  latest t w = Some ws → State_ ws = StateFailed →
  base (db (world (driver.ext (run (settleRun s t r) w).2))) = base (db (world (driver.ext w))).
Proof.
  intros Hl Hst. unfold settleRun. destruct (negb _); [done|]. rewrite run_bind.
  destruct (run_releaseRunLeases t w) as (g & -> & _). rewrite run_bind, run_latestWorkspace.
  change (latest t (withExt _ w)) with (latest t w). by rewrite Hl; cbn; rewrite Hst.
Qed.

End pipesvc.
