(* ===== verification/Reconcile.v ===== *)
(** * Reconcile: what the daemon does before it serves

    Models [internal/daemon/reconcile.go] and the reconcilers [Run] registers
    ([workspace_reconcile.go], [finalize_reconcile.go], [attempt_reconcile.go],
    [pipeline_reconcile.go]), in the order of [daemon.go]: the runtime files, the
    database, the workspaces, the pending finalizations, the interrupted attempts
    and the pipeline runs.  Startup runs alone: nothing else uses the database. *)
From S2P Require Import Prelude Process AuditTrail Agent Pipeline Driver.
From S2P Require Import Projects Backlog WorkspaceRows Workspace Finalize Handlers PipelineService.

Module reconcile.
Import process workspace.

(** ** Decisions ([reconcile.go]) *)

Inductive DecisionAction :=
| DecisionNoOp | DecisionKept | DecisionReclaimed | DecisionRepaired | DecisionMarkedStale | DecisionConflict.
#[global] Instance DecisionAction_eq_dec : EqDecision DecisionAction.
Proof. solve_decision. Defined.
Definition DecisionAction_String (a : DecisionAction) : string :=
  match a with
  | DecisionNoOp => "no-op" | DecisionKept => "kept" | DecisionReclaimed => "reclaimed" | DecisionRepaired => "repaired"
  | DecisionMarkedStale => "marked-stale" | DecisionConflict => "conflict"
  end.

Record ReconcileDecision := mkDecision {
  Reconciler_ : string;
  Entity : string;
  Action : DecisionAction;
  Detail : string }.

(** What [readPID] finds: no file, an unreadable one, or a process id. *)
Inductive PidFile := NoPid | BadPid (why : string) | Pid (n : Z).

(** The state of a starting daemon: workspaces and tasks with their Git, the
    pipeline store, the workspaces of the continuation packs, the pid file. *)
Record Boot (X : Type) := mkBoot {
  world : World X;
  runsDB : pipeline.DB;
  packs : list string;
  pidFile : PidFile }.
Arguments mkBoot {X} world runsDB packs pidFile.
Arguments world {X} b.
Arguments runsDB {X} b.
Arguments packs {X} b.
Arguments pidFile {X} b.

Inductive BootError := ErrConcurrentDaemon | ErrMarkInterrupted (task : string) (e : pipeline.Error).

Section reconcilers.
  Context {X : Type} `{!External X}.
  (** The recorder's service, whether a process lives, the schema's version, and
      the texts of the errors of a recovery. *)
  Context (s : runapp.Service) (processAlive : Z → bool) (schemaVersion : Z) (errText : string * runapp.Error → string).
  Abbreviation B := (Boot X).
  (** A reconciler returns what it decided, and an error that stops the startup. *)
  Abbreviation R := (proc B Empty_set (list ReconcileDecision * option BootError)).
  Abbreviation P := (proc B Empty_set).
  Abbreviation m := (runapp.wm s).
  Abbreviation rec := (runapp.svc_audit s).

Definition withWorld (w : World X) (b : B) : B := mkBoot w (runsDB b) (packs b) (pidFile b).
Definition withRuns (d : pipeline.DB) (b : B) : B := mkBoot (world b) d (packs b) (pidFile b).
Definition withPid (p : PidFile) (b : B) : B := mkBoot (world b) (runsDB b) (packs b) p.
(** A program of the components, its error seen by the caller. *)
Definition onWorld {E A} (p : proc (World X) E A) : P (result E A) := catch (zoom world withWorld p).

(** [tx.Audit.Record] of an event without a scope; its error is logged. *)
Definition recordEvent (type_ : string) (payload : list (string * audit.Val)) (d : DB) : DB :=
  match rec with
  | None => d
  | Some r =>
      let b := base d in
      withBase (backlog.mkDB (backlog.projects b) (backlog.tasks b) (backlog.attachments b) (backlog.sequences b)
                  (audit.Record_ r (audit.mkEvent type_ "" "" audit.ActorDaemon (Some (audit.Payload payload)) 0)
                     (backlog.trail b)).2) d
  end.
Definition auditDecision (d : ReconcileDecision) : P () :=
  atomic (λ b, ((), withWorld (withDB (recordEvent "reconcile.decision"
    [("reconciler", audit.VString (Reconciler_ d)); ("entity", audit.VString (Entity d));
     ("action", audit.VString (DecisionAction_String (Action d))); ("detail", audit.VString (Detail d))]
    (db (world b))) (world b)) b)).
Definition auditDecisions (l : list ReconcileDecision) : P () := foldr (λ d p, _ ← auditDecision d; p) (mret ()) l.

Definition one (name entity : string) (a : DecisionAction) (detail : string) : ReconcileDecision := mkDecision name entity a detail.
Definition workspaceDecision (name : string) (ws : Workspace) (a : DecisionAction) (detail : string) : ReconcileDecision :=
  one name ("workspace:" +:+ ID ws) a detail.

(** ** The runtime files and the database *)

Definition runtimeFiles : R :=
  let decision := one "runtime-files" "runtime-files" in
  f ← read pidFile;
  match f with
  | NoPid => mret ([decision DecisionNoOp "no prior pid file; clean start"], None)
  | BadPid why =>
      _ ← atomic (λ b, ((), withPid NoPid b));
      mret ([decision DecisionRepaired ("removed unparseable pid file: " +:+ why)], None)
  | Pid n =>
      if (n =? 0)%Z then mret ([decision DecisionNoOp "no prior pid file; clean start"], None)
      else if processAlive n
      then mret ([decision DecisionConflict ("pid " +:+ pretty n +:+ " is alive; another daemon owns this runtime dir")],
                 Some ErrConcurrentDaemon)
      else
        _ ← atomic (λ b, ((), withPid NoPid b));
        mret ([decision DecisionReclaimed ("removed stale runtime files (pid " +:+ pretty n +:+ " not alive)")], None)
  end.

Definition databaseHealth : R :=
  n ← read (λ b, length (backlog.trail (base (db (world b)))));
  mret ([one "database-health" "database" DecisionKept
           ("schema v" +:+ pretty schemaVersion +:+ ", " +:+ pretty (Z.of_nat n) +:+ " audit rows present")], None).

(** ** Workspaces *)

(** [WorktreeExists]; [None] is a stat error. *)
Definition worktreeExists (path : string) (b : B) : option bool :=
  if bool_decide (path = "") then Some false else statDir path (ext (world b)).

Definition noRecovery (name : string) (ws : Workspace) : ReconcileDecision :=
  workspaceDecision name ws DecisionNoOp ("state=" +:+ State_String (State_ ws) +:+ " (no recovery needed)").

Definition checkWorkspace (ws : Workspace) : P ReconcileDecision :=
  match State_ ws with
  | StateActive | StatePending =>
      there ← read (worktreeExists (Path ws));
      mret match there with
           | None => workspaceDecision "workspaces" ws DecisionMarkedStale "stat error"
           | Some false =>
               workspaceDecision "workspaces" ws DecisionMarkedStale
                 ("worktree path " +:+ Path ws +:+ " no longer exists (state=" +:+ State_String (State_ ws) +:+ "); marked stale")
           | Some true =>
               workspaceDecision "workspaces" ws DecisionKept
                 ("worktree intact (state=" +:+ State_String (State_ ws) +:+ ", branch=" +:+ Branch ws +:+ ")")
           end
  | _ => mret (noRecovery "workspaces" ws)
  end.

Fixpoint each (f : Workspace → P ReconcileDecision) (l : list Workspace) : P (list ReconcileDecision) :=
  match l with [] => mret [] | ws :: l => d ← f ws; ds ← each f l; mret (d :: ds) end.
Definition overWorkspaces (f : Workspace → P ReconcileDecision) : R :=
  all ← read (λ b, ListAllWorkspaces (db (world b))); ds ← each f all; mret (ds, None).
Definition workspaces_ : R := overWorkspaces checkWorkspace.

(** ** Pending finalizations *)

Definition finalizeIntents : R :=
  r ← onWorld (runapp.RecoverPendingFinalizations s);
  let '(results, errs) := match r with Ok x => x | Err e => ([], [("", e)]) end in
  let ds := ((λ res, one "finalize-intents" ("workspace:" +:+ runapp.Res_WorkspaceID res) DecisionRepaired
                       ("resumed finalize intent → outcome=" +:+ runapp.Outcome_String (runapp.Outcome_ res))) <$> results)
            ++ ((λ e, one "finalize-intents" "finalize-intent" DecisionMarkedStale (errText e)) <$> errs) in
  mret (match ds with
        | [] => [one "finalize-intents" "finalize-intents" DecisionNoOp "no pending finalize intents"]
        | _ => ds
        end, None).

(** ** Interrupted attempts *)

(** [isTerminalTask]. *)
Definition isTerminalTask (st : backlog.State) : bool :=
  match st with
  | backlog.StateCompleted | backlog.StateFailed | backlog.StateCancelled | backlog.StateRejected => true
  | _ => false
  end.

(** The task of the workspace has a pipeline run that is not over. *)
Definition pipelineOwns (task : string) (b : B) : bool :=
  if bool_decide (task = "") then false
  else match pipeline.CurrentRun task (runsDB b) with
       | Ok r => negb (pipeline.IsTerminalRunState (pipeline.State r))
       | Err _ => false
       end.

Definition interruptedPayload (ws : Workspace) (reason : string) : list (string * audit.Val) :=
  [("outcome", audit.VString "interrupted"); ("workspace_id", audit.VString (ID ws)); ("task_id", audit.VString (TaskID ws));
   ("run_id", audit.VString (RunID ws)); ("reason", audit.VString reason)].

(** [markFailed]: the workspace, then its task, then the outcome, each on its
    own; an error of the first ends it, the others are logged. *)
Definition failTask (task : string) : P () :=
  if bool_decide (task = "") then mret ()
  else
    t ← read (λ b, backlog.GetTask task (base (db (world b))));
    match t with
    | Ok t =>
        if isTerminalTask (backlog.Task_State t) then mret ()
        else
          now ← read (λ b, clock (world b));
          _ ← onWorld (stmt (λ d, match backlog.UpdateTaskState task backlog.StateFailed now (base d) with
                                  | Ok b => Ok (withBase b d) | Err e => Err (ErrStorage (ErrBacklog e)) end));
          mret ()
    | Err _ => mret ()
    end.
Definition markFailed (ws : Workspace) (reason : string) : P () :=
  r ← onWorld (SetState m (ID ws) StateFailed);
  match r with
  | Err _ => mret ()
  | Ok _ =>
      _ ← failTask (TaskID ws);
      _ ← onWorld (stmt (auditTx rec (ID ws) runapp.outcomeDecided (interruptedPayload ws reason)));
      mret ()
  end.

Definition decisionForActive (resumable : bool) : DecisionAction := if resumable then DecisionKept else DecisionMarkedStale.
Definition owned (ws : Workspace) : ReconcileDecision :=
  workspaceDecision "attempts" ws DecisionNoOp "task has an active pipeline run; pipeline recovery owns the outcome".

Definition reconcileActive (ws : Workspace) : P ReconcileDecision :=
  mine ← read (pipelineOwns (TaskID ws));
  if mine : bool then mret (owned ws)
  else
    ps ← read (λ b, length (filter (λ p, p = ID ws) (packs b)));
    cps ← read (λ b, length (ListCheckpoints (ID ws) (db (world b))));
    there ← read (worktreeExists (Path ws));
    match there with
    | Some true =>
        let resumable := negb (Nat.eqb ps 0) && negb (Nat.eqb cps 0) in
        _ ← markFailed ws "interrupted by daemon restart";
        mret (workspaceDecision "attempts" ws (decisionForActive resumable)
                ("interrupted run reconciled (run=" +:+ RunID ws +:+ "); " +:+ pretty (Z.of_nat cps) +:+ " checkpoints, "
                 +:+ pretty (Z.of_nat ps) +:+ " packs"
                 +:+ if resumable then "; resumable from continuation pack (AC-27)" else ""))
    | _ =>
        _ ← markFailed ws "worktree missing after restart";
        mret (workspaceDecision "attempts" ws DecisionMarkedStale "active worktree missing after restart; marked failed")
    end.

Definition reconcileWaitingQuota (ws : Workspace) : P ReconcileDecision :=
  mine ← read (pipelineOwns (TaskID ws));
  if mine : bool then mret (owned ws)
  else
    there ← read (worktreeExists (Path ws));
    match there with
    | Some true => mret (workspaceDecision "attempts" ws DecisionKept "WAITING_QUOTA intact; awaits route availability")
    | _ =>
        _ ← markFailed ws "worktree missing while waiting for quota";
        mret (workspaceDecision "attempts" ws DecisionMarkedStale "worktree missing while WAITING_QUOTA; marked failed")
    end.

Definition reconcileAttempt (ws : Workspace) : P ReconcileDecision :=
  match State_ ws with
  | StateActive => reconcileActive ws
  | StateWaitingQuota => reconcileWaitingQuota ws
  | StateQuarantined => mret (workspaceDecision "attempts" ws DecisionNoOp "quarantined; awaits human un-quarantine")
  | _ => mret (noRecovery "attempts" ws)
  end.
Definition attempts : R := overWorkspaces reconcileAttempt.

(** ** Pipeline runs *)

Definition runDecision (run : pipeline.Run) (a : DecisionAction) (detail : string) : ReconcileDecision :=
  one "pipeline-runs" ("pipeline-run/" +:+ pipeline.TaskID run) a detail.
Fixpoint markRuns (l : list pipeline.Run) (done_ : list ReconcileDecision) : R :=
  match l with
  | [] => mret (done_, None)
  | run :: l =>
      if pipeline.IsWaitState (pipeline.State run)
      then markRuns l (done_ ++ [runDecision run DecisionKept
             ("wait state " +:+ pipesvc.RunState_String (pipeline.State run) +:+ " at stage "
              +:+ handlers.Stage_String (pipeline.CurrentStage run) +:+ "; resume deferred")])
      else
        r ← atomic (λ b, match pipeline.MarkInterrupted (pipeline.TaskID run) "daemon restarted mid-stage"
                                 (clock (world b)) (runsDB b) with
                         | Ok d => (Ok (), withRuns d b)
                         | Err e => (Err e, b)
                         end);
        match r with
        | Err e => mret (done_, Some (ErrMarkInterrupted (pipeline.TaskID run) e))
        | Ok _ => markRuns l (done_ ++ [runDecision run DecisionMarkedStale
                 ("stage " +:+ handlers.Stage_String (pipeline.CurrentStage run) +:+ " (attempt "
                  +:+ pretty (pipeline.StageAttempt run) +:+ ") marked interrupted; re-drive deferred to pipeline recovery")])
        end
  end.
Definition pipelineRuns (textLess : Time → Time → bool) : R :=
  runs ← read (λ b, pipeline.ListActiveRuns textLess (runsDB b));
  match runs with
  | [] => mret ([one "pipeline-runs" "pipeline-runs" DecisionNoOp "no active pipeline runs"], None)
  | _ =>
      stop ← read (λ b, pipeline.EmergencyStop (runsDB b));
      if stop.1 : bool
      then mret ((λ r, runDecision r DecisionKept
                            ("emergency stop engaged (" +:+ stop.2 +:+ "); run parked at stage "
                             +:+ handlers.Stage_String (pipeline.CurrentStage r) +:+ " without an interrupted record")) <$> runs, None)
      else markRuns runs []
  end.

(** ** The startup *)

(** [Reconcile]: each reconciler's decisions are recorded; an error ends it. *)
Fixpoint Reconcile (rs : list R) (all : list ReconcileDecision) : R :=
  match rs with
  | [] =>
      _ ← atomic (λ b, ((), withWorld (withDB (recordEvent "reconcile.complete"
            [("decisions", audit.VInt (Z.of_nat (length all)))] (db (world b))) (world b)) b));
      mret (all, None)
  | r :: rs =>
      '(ds, e) ← r;
      _ ← auditDecisions ds;
      match e with Some e => mret (all ++ ds, Some e) | None => Reconcile rs (all ++ ds) end
  end.
Definition DefaultReconcilers : list R := [runtimeFiles; databaseHealth].
Definition startup (textLess : Time → Time → bool) : R :=
  Reconcile (DefaultReconcilers ++ [workspaces_; finalizeIntents; attempts; pipelineRuns textLess]) [].

End reconcilers.

(** ** What the reconcilers leave *)

Section settled.
  Context {X : Type} `{!External X}.
  Context (s : runapp.Service).
  Abbreviation B := (Boot X).
  Implicit Types (b : Boot X) (w : World X).
  Import runapp.

Lemma run_bootWorld {E A} (p : proc (World X) E A) b :
  run (onWorld p) b = (Ok (run p (world b)).1, withWorld (run p (world b)).2 b).
Proof. unfold onWorld. rewrite run_catch, run_zoom; [done|done|done|by intros []]. Qed.

(** The parts of a world that only a decision about a workspace changes. *)
Record frame (w w' : World X) : Prop := {
  fr_ext : ext w' = ext w;
  fr_intents : intents (db w') = intents (db w) }.

#[export] Instance frame_preorder : PreOrder frame.
Proof. split; [done|]. intros w1 w2 w3 [? ?] [? ?]. split; congruence. Qed.

Lemma updateState_row id st head run_ session t (d : DB) r :
  row id d = Some r →
  ∃ d', UpdateWorkspaceState id st head run_ session t d = Ok d' ∧ base d' = base d ∧ intents d' = intents d ∧
    ∀ id', row id' d' = if decide (id' = id) then Some (setState st head run_ session t r) else row id' d.
Proof.
  intros Hr. unfold UpdateWorkspaceState, updateWorkspace, updateRow.
  rewrite (proj2 (row_exists id d)) by eauto. eexists. split; [done|]. split; [done|]. split; [done|].
  intros id'. unfold withWorkspaces. rewrite row_map by (intros x; by destruct (isWorkspace id x)).
  change (row id' (mkDB _ _ _ _ _)) with (row id' d). case_decide as Hid; [subst id'|].
  - rewrite Hr. cbn. unfold isWorkspace. apply row_Some in Hr as [_ ->]. by rewrite bool_decide_true.
  - destruct (row id' d) as [x|] eqn:Hx; [|done]. apply row_Some in Hx as [_ Hx]. cbn. unfold isWorkspace.
    rewrite bool_decide_false by congruence. done.
Qed.

Lemma auditTx_same rec id type_ p d d' :
  auditTx rec id type_ p d = Ok d' →
  workspaces d' = workspaces d ∧ intents d' = intents d ∧ backlog.tasks (base d') = backlog.tasks (base d).
Proof. apply pipesvc.auditTx_base. Qed.

(** A statement that only records: rows, intents and tasks stay. *)
Lemma run_auditRow rec id type_ p w :
  let w' := (run (stmt (auditTx rec id type_ p)) w).2 in
  ext w' = ext w ∧ clock w' = clock w ∧ workspaces (db w') = workspaces (db w) ∧ intents (db w') = intents (db w) ∧
  backlog.tasks (base (db w')) = backlog.tasks (base (db w)).
Proof.
  cbv zeta. unfold stmt. rewrite run_attempt. destruct (auditTx _ _ _ _ _) as [d|e] eqn:E; [|done].
  by apply auditTx_same in E as (? & ? & ?).
Qed.

(** One row changes to failed. *)
Definition fails (id : string) (w w' : World X) : Prop :=
  ∀ id' r, row id' (db w) = Some r → ∃ r', row id' (db w') = Some r' ∧ TaskID r' = TaskID r ∧ Path r' = Path r ∧
    State_ r' = if decide (id' = id) then StateFailed else State_ r.

Lemma run_SetState_failed id r w :
  row id (db w) = Some r → allowedRecoveryTransition (State_ r) StateFailed = true →
  ∃ ws w', run (SetState (wm s) id StateFailed) w = (Ok ws, w') ∧ frame w w' ∧ fails id w w' ∧
    backlog.tasks (base (db w')) = backlog.tasks (base (db w)).
Proof.
  intros Hr Hal. unfold SetState. rewrite run_bind. unfold Get, sql. rewrite run_query.
  rewrite (proj2 (row_GetWorkspace _ _ _) Hr). rewrite Hal. cbn [negb].
  rewrite run_bind. unfold updateState. rewrite run_bind. cbn [read now atomic run]. unfold stmt. rewrite run_attempt.
  destruct (updateState_row id StateFailed (HeadSHA r) (RunID r) (SessionID r) (clock w) (db w) r Hr)
    as (d & Hup & Hb & Hi & Hrow). unfold storage. rewrite Hup. cbn [fst snd].
  rewrite run_bind, run_ignore. unfold auditEvent.
  match goal with |- context [run (stmt (auditTx ?a ?b ?c ?e)) ?w1] => destruct (run_auditRow a b c e w1) as (He & Hc & Hw & Hi2 & Ht) end.
  match goal with |- context [run (stmt ?a) ?w1] => set (w2 := (run (stmt a) w1).2) in * end. cbn [fst snd].
  eexists _, w2. split; [reflexivity|]. cbn [db withDB ext clock] in *. split; [split; [done|congruence]|].
  split; [|by rewrite Ht, Hb]. intros id' r' Hr'. unfold row. rewrite Hw. fold (row id' d). rewrite Hrow.
  case_decide as Hid; [|by exists r']. subst id'. rewrite Hr in Hr'. injection Hr' as ->. eexists. by split.
Qed.

(** A task stays as it is, or fails unless it is terminal. *)
Definition tasksFail (w w' : World X) : Prop :=
  ∀ id t, backlog.GetTask id (base (db w)) = Ok t → ∃ t', backlog.GetTask id (base (db w')) = Ok t' ∧
    (backlog.Task_State t' = backlog.Task_State t ∨
     isTerminalTask (backlog.Task_State t) = false ∧ backlog.Task_State t' = backlog.StateFailed).

#[export] Instance tasksFail_preorder : PreOrder tasksFail.
Proof.
  split; [intros w id t Ht; exists t; by split; [|left]|].
  intros w1 w2 w3 H1 H2 id t Ht. destruct (H1 id t Ht) as (t2 & Ht2 & C2). destruct (H2 id t2 Ht2) as (t3 & Ht3 & C3).
  exists t3. split; [done|]. destruct C2 as [E2|[N2 E2]], C3 as [E3|[N3 E3]]; rewrite ?E2, ?E3 in *; naive_solver.
Qed.
Lemma tasksFail_same w w' : backlog.tasks (base (db w')) = backlog.tasks (base (db w)) → tasksFail w w'.
Proof. intros H id t Ht. exists t. unfold backlog.GetTask in *. rewrite H. by split; [|left]. Qed.

Definition ended (task : string) (w : World X) : Prop :=
  ∀ t, backlog.GetTask task (base (db w)) = Ok t → isTerminalTask (backlog.Task_State t) = true.
Lemma ended_stable task w w' :
  (∀ t, backlog.GetTask task (base (db w')) = Ok t → ∃ t0, backlog.GetTask task (base (db w)) = Ok t0) →
  tasksFail w w' → ended task w → ended task w'.
Proof.
  intros Hback H He t Ht. destruct (Hback t Ht) as [t0 H0]. destruct (H _ _ H0) as (t' & Ht' & C).
  rewrite Ht in Ht'. injection Ht' as <-. specialize (He _ H0). destruct C as [->|[C _]]; congruence.
Qed.

Lemma run_failTask task b :
  task ≠ "" → ∃ b', run (failTask task) b = (Ok (), b') ∧ runsDB b' = runsDB b ∧ packs b' = packs b ∧
    frame (world b) (world b') ∧ workspaces (db (world b')) = workspaces (db (world b)) ∧
    tasksFail (world b) (world b') ∧ ended task (world b') ∧
    (∀ id, is_ok (backlog.GetTask id (base (db (world b')))) = is_ok (backlog.GetTask id (base (db (world b))))).
Proof.
  intros Hne. unfold failTask. rewrite bool_decide_false by done. rewrite run_bind. cbn [read atomic run].
  destruct (backlog.GetTask task _) as [t|e] eqn:Ht.
  2: { exists b. do 3 (split; [done|]). split; [reflexivity|]. split; [done|]. split; [reflexivity|]. split; [|reflexivity].
       intros t. by rewrite Ht. }
  destruct (isTerminalTask _) eqn:Hterm.
  { exists b. do 3 (split; [done|]). split; [reflexivity|]. split; [done|]. split; [reflexivity|]. split; [|reflexivity].
    intros t'. rewrite Ht. by intros [= <-]. }
  rewrite run_bind. cbn [read atomic run]. rewrite run_bind, run_bootWorld. unfold stmt. rewrite run_attempt.
  unfold backlog.UpdateTaskState. unfold backlog.GetTask in Ht.
  destruct (List.find (backlog.isTask task) _) as [x|] eqn:Hf; [|done]. injection Ht as ->.
  pose proof Hf as [Hin Hx]%List.find_some.
  rewrite (proj2 (List.existsb_exists _ _)) by eauto. cbn [fst snd]. eexists. split; [reflexivity|].
  cbn. split; [done|]. split; [done|]. split; [done|]. split; [done|].
  assert (∀ id, List.find (backlog.isTask id)
      ((λ t0, if backlog.isTask task t0 then backlog.setTaskState backlog.StateFailed (clock (world b)) t0 else t0)
         <$> backlog.tasks (base (db (world b)))) =
    (λ t0, if backlog.isTask task t0 then backlog.setTaskState backlog.StateFailed (clock (world b)) t0 else t0) <$>
      List.find (backlog.isTask id) (backlog.tasks (base (db (world b))))) as Hfind.
  { clear. intros id. induction (backlog.tasks (base (db (world b)))) as [|y l IH]; [done|]. cbn.
    assert (backlog.isTask id (if backlog.isTask task y then backlog.setTaskState backlog.StateFailed (clock (world b)) y else y)
            = backlog.isTask id y) as -> by (by destruct (backlog.isTask task y)).
    destruct (backlog.isTask id y); [done|exact IH]. }
  split; [|split].
  - intros id t0 Ht0. unfold backlog.GetTask in *. cbn. rewrite Hfind.
    destruct (List.find (backlog.isTask id) _) as [y|] eqn:Hy; [|done]. injection Ht0 as ->. cbn.
    eexists. split; [done|]. destruct (backlog.isTask task t0) eqn:Hb; [|by left]. right. split; [|done].
    assert (t0 = t) as ->; [|done]. pose proof Hy as Hy0. apply List.find_some in Hy as [_ Hy]. unfold backlog.isTask in *.
    apply bool_decide_eq_true in Hy, Hb. rewrite Hb in Hy. subst id. congruence.
  - intros t0. unfold backlog.GetTask. cbn. rewrite Hfind, Hf. cbn. rewrite Hx. by intros [= <-].
  - intros id. unfold backlog.GetTask. cbn. rewrite Hfind.
    by destruct (List.find (backlog.isTask id) (backlog.tasks (base (db (world b))))).
Qed.

(** What happens to one workspace, its task and the rest when it is marked. *)
Lemma run_markFailed ws reason b r :
  row (ID ws) (db (world b)) = Some r → allowedRecoveryTransition (State_ r) StateFailed = true →
  ∃ b', run (markFailed s ws reason) b = (Ok (), b') ∧ runsDB b' = runsDB b ∧ packs b' = packs b ∧
    frame (world b) (world b') ∧ fails (ID ws) (world b) (world b') ∧ tasksFail (world b) (world b') ∧
    (TaskID ws ≠ "" → ended (TaskID ws) (world b')) ∧
    (∀ id, is_ok (backlog.GetTask id (base (db (world b')))) = is_ok (backlog.GetTask id (base (db (world b))))).
Proof.
  intros Hr Hal. unfold markFailed. rewrite run_bind, run_bootWorld.
  destruct (run_SetState_failed (ID ws) r (world b) Hr Hal) as (ws' & w1 & -> & Hf1 & Hfail & Ht1). cbn [fst snd].
  set (b1 := withWorld w1 b). rewrite run_bind.
  assert (∃ b2, run (failTask (TaskID ws)) b1 = (Ok (), b2) ∧ runsDB b2 = runsDB b1 ∧ packs b2 = packs b1 ∧
    frame (world b1) (world b2) ∧ workspaces (db (world b2)) = workspaces (db (world b1)) ∧
    tasksFail (world b1) (world b2) ∧ (TaskID ws ≠ "" → ended (TaskID ws) (world b2)) ∧
    (∀ id, is_ok (backlog.GetTask id (base (db (world b2)))) = is_ok (backlog.GetTask id (base (db (world b1))))))
    as (b2 & -> & H2r & H2p & H2f & H2w & H2t & H2e & H2k).
  { destruct (decide (TaskID ws = "")) as [He|He].
    - exists b1. unfold failTask. rewrite bool_decide_true by done. do 3 (split; [done|]). split; [reflexivity|].
      split; [done|]. split; [reflexivity|]. split; [done|reflexivity].
    - destruct (run_failTask (TaskID ws) b1 He) as (b2 & H1 & H2 & H3 & H4 & H5 & H6 & H7 & H8). exists b2. auto 10. }
  rewrite run_bind, run_bootWorld. cbn [fst snd].
  match goal with |- context [run (stmt (auditTx ?a ?c ?d ?e)) ?w1] => destruct (run_auditRow a c d e w1) as (He & Hc & Hw & Hi2 & Ht) end.
  match goal with |- context [run (stmt ?a) ?w1] => set (w3 := (run (stmt a) w1).2) in * end. cbn [run mret proc_ret].
  exists (withWorld w3 b2). split; [done|]. split; [done|]. split; [done|]. split.
  { etrans; [exact Hf1|]. etrans; [exact H2f|]. by split. }
  split.
  { intros id' r' Hr'. destruct (Hfail id' r' Hr') as (r2 & Hr2 & H). exists r2. split; [|done].
    unfold row in *. cbn. by rewrite Hw, H2w. }
  assert (tasksFail (world b2) w3) as H3 by by apply tasksFail_same.
  split; [etrans; [by apply tasksFail_same|]; etrans; [exact H2t|exact H3]|]. split.
  - intros Hne. eapply ended_stable; [|exact H3|by apply H2e]. intros t. cbn. unfold backlog.GetTask. rewrite Ht. eauto.
  - intros id. cbn. transitivity (is_ok (backlog.GetTask id (base (db (world b2))))).
    + unfold backlog.GetTask. by rewrite Ht.
    + rewrite H2k. unfold backlog.GetTask. cbn. by rewrite Ht1.
Qed.

(** The workspaces whose attempt is over for good. *)
Definition doomed b (r : Workspace) : bool :=
  negb (pipelineOwns (TaskID r) b) &&
  match State_ r with
  | StateActive => true
  | StateWaitingQuota => match worktreeExists (Path r) b with Some true => false | _ => true end
  | _ => false
  end.

(** From [b0], with the workspaces [done_] looked at. *)
Record settled (b0 : B) (done_ : list string) b : Prop := {
  se_runs : runsDB b = runsDB b0;
  se_packs : packs b = packs b0;
  se_frame : frame (world b0) (world b);
  se_rows : ∀ id r, row id (db (world b0)) = Some r → ∃ r', row id (db (world b)) = Some r' ∧
    TaskID r' = TaskID r ∧ Path r' = Path r ∧
    State_ r' = if bool_decide (id ∈ done_) && doomed b0 r then StateFailed else State_ r;
  se_tasks : tasksFail (world b0) (world b);
  se_ended : ∀ id r, id ∈ done_ → row id (db (world b0)) = Some r → doomed b0 r = true → TaskID r ≠ "" →
    ended (TaskID r) (world b);
  se_known : ∀ id, is_ok (backlog.GetTask id (base (db (world b)))) = is_ok (backlog.GetTask id (base (db (world b0)))) }.

Lemma doomed_allowed b r : doomed b r = true → allowedRecoveryTransition (State_ r) StateFailed = true.
Proof. unfold doomed. intros [_ H]%andb_prop. by destruct (State_ r). Qed.

Lemma run_returns {A} (p : proc B Empty_set A) b : ∃ a, (run p b).1 = Ok a.
Proof. destruct (run p b).1 as [a|[]]. by exists a. Qed.

Lemma reconcileAttempt_cases b ws :
  ∃ d, if doomed b ws then ∃ reason, run (reconcileAttempt s ws) b = (Ok d, (run (markFailed s ws reason) b).2)
       else run (reconcileAttempt s ws) b = (Ok d, b).
Proof.
  unfold doomed, reconcileAttempt, reconcileActive, reconcileWaitingQuota.
  assert (∀ reason (f : () → ReconcileDecision), run (x ← markFailed s ws reason; mret (f x)) b =
            (Ok (f ()), (run (markFailed s ws reason) b).2)) as Hmark.
  { intros reason f. rewrite run_bind. destruct (run (markFailed s ws reason) b) as [[[]|[]] b']. done. }
  destruct (State_ ws); rewrite ?andb_false_r; try (by eexists).
  - rewrite run_bind. cbn [read atomic run]. destruct (pipelineOwns (TaskID ws) b); [by eexists|].
    do 3 (rewrite run_bind; cbn [read atomic run]). cbn [negb andb].
    destruct (worktreeExists (Path ws) b) as [[]|]; eexists _, _; apply Hmark.
  - rewrite run_bind. cbn [read atomic run]. destruct (pipelineOwns (TaskID ws) b); [by eexists|].
    rewrite run_bind; cbn [read atomic run]. cbn [negb andb].
    destruct (worktreeExists (Path ws) b) as [[]|]; [by eexists|eexists _, _; apply Hmark..].
Qed.

(** Looking at one more workspace. *)
Lemma run_reconcileAttempt b0 done_ b ws :
  settled b0 done_ b → ID ws ∉ done_ → row (ID ws) (db (world b0)) = Some ws →
  ∃ d b', run (reconcileAttempt s ws) b = (Ok d, b') ∧ settled b0 (done_ ++ [ID ws]) b'.
Proof.
  intros Hs Hnd Hr. pose proof Hs as [H1 H2 H3 H4 H5 H6 H7].
  assert (doomed b ws = doomed b0 ws) as Hdoom
    by (unfold doomed, pipelineOwns, worktreeExists; by rewrite H1, (fr_ext _ _ H3)).
  destruct (reconcileAttempt_cases b ws) as [d Hd]. rewrite Hdoom in Hd.
  destruct (doomed b0 ws) eqn:Ed.
  2: { exists d, b. split; [done|]. constructor; try done.
    - intros id r Hid. destruct (H4 id r Hid) as (r' & Hr' & HT & HP & Hst). exists r'. split; [done|]. split; [done|].
      split; [done|]. rewrite Hst. destruct (decide (id = ID ws)) as [->|Hne].
      + rewrite Hr in Hid. injection Hid as <-. by rewrite Ed, !andb_false_r.
      + by rewrite (bool_decide_ext (id ∈ done_ ++ [ID ws]) (id ∈ done_)) by set_solver.
    - intros id r [Hin|Hin%list_elem_of_singleton]%elem_of_app Hid; [by eapply H6|]. subst id.
      rewrite Hr in Hid. injection Hid as <-. congruence. }
  destruct Hd as [reason Hd]. destruct (H4 _ _ Hr) as (r1 & Hr1 & HT1 & HP1 & Hst1).
  rewrite bool_decide_false in Hst1 by done. cbn [andb] in Hst1.
  destruct (run_markFailed ws reason b r1) as (b' & Hm & Hm1 & Hm2 & Hm3 & Hm4 & Hm5 & Hm6 & Hm7);
    [done|rewrite Hst1; by eapply doomed_allowed|].
  exists d, b'. split; [by rewrite Hd, Hm|]. constructor.
  - congruence.
  - congruence.
  - by etrans.
  - intros id r Hid. destruct (H4 id r Hid) as (r' & Hr' & HT & HP & Hst).
    destruct (Hm4 _ _ Hr') as (r2 & Hr2 & HT2 & HP2 & Hst2). exists r2. split; [done|].
    split; [congruence|]. split; [congruence|]. rewrite Hst2, Hst. case_decide as Hne.
    + subst id. rewrite Hr in Hid. injection Hid as <-. rewrite Ed, bool_decide_true; [done|].
      apply elem_of_app. right. by apply list_elem_of_singleton.
    + by rewrite (bool_decide_ext (id ∈ done_ ++ [ID ws]) (id ∈ done_)) by set_solver.
  - by etrans.
  - intros id r [Hin|Hin%list_elem_of_singleton]%elem_of_app Hid Hdm Hne.
    + eapply ended_stable; [|exact Hm5|by eapply H6]. intros t Ht. specialize (Hm7 (TaskID r)). rewrite Ht in Hm7.
      destruct (backlog.GetTask (TaskID r) (base (db (world b)))); [eauto|done].
    + subst id. rewrite Hr in Hid. injection Hid as <-. by apply Hm6.
  - intros id. by rewrite Hm7.
Qed.

Lemma settled_start b : settled b [] b.
Proof.
  constructor; try done; try reflexivity.
  - intros id r Hr. exists r. rewrite bool_decide_false by apply not_elem_of_nil. done.
  - by intros id r ?%elem_of_nil.
Qed.

Lemma run_each b0 l done_ b :
  settled b0 done_ b → NoDup (done_ ++ (ID <$> l)) → (∀ ws, ws ∈ l → row (ID ws) (db (world b0)) = Some ws) →
  ∃ ds b', run (each (reconcileAttempt s) l) b = (Ok ds, b') ∧ length ds = length l ∧ settled b0 (done_ ++ (ID <$> l)) b'.
Proof.
  revert done_ b. induction l as [|ws l IH]; intros done_ b Hs Hnd Hl.
  { exists [], b. by rewrite app_nil_r. }
  cbn [each]. assert (ID ws ∉ done_) as Hni by (apply NoDup_app in Hnd; set_solver).
  destruct (run_reconcileAttempt b0 done_ b ws Hs Hni (Hl ws ltac:(left))) as (d & b1 & Hd & H1).
  rewrite run_bind, Hd, run_bind. destruct (IH (done_ ++ [ID ws]) b1 H1) as (ds & b2 & -> & Hlen & H2).
  - by rewrite <-app_assoc.
  - intros x Hx. apply Hl. by right.
  - exists (d :: ds), b2. split; [done|]. split; [cbn; by rewrite Hlen|]. by rewrite <-app_assoc in H2.
Qed.

(** ** The startup as a whole *)

(** Nothing but the pid file and the audit trail changes. *)
Record calm b b' : Prop := {
  ca_runs : runsDB b' = runsDB b;
  ca_packs : packs b' = packs b;
  ca_ext : ext (world b') = ext (world b);
  ca_ws : workspaces (db (world b')) = workspaces (db (world b));
  ca_intents : intents (db (world b')) = intents (db (world b));
  ca_tasks : backlog.tasks (base (db (world b'))) = backlog.tasks (base (db (world b)));
  ca_trail : ∃ l, backlog.trail (base (db (world b'))) = backlog.trail (base (db (world b))) ++ l ∧
                  ∀ e, e ∈ l → audit.AuditEvent_Type e ≠ outcomeDecided }.
#[export] Instance calm_preorder : PreOrder calm.
Proof.
  split.
  - intros b. constructor; try done. exists []. rewrite app_nil_r. split; [done|]. by intros e ?%elem_of_nil.
  - intros b1 b2 b3 [] []. constructor; try congruence.
    destruct ca_trail0 as (l1 & E1 & H1), ca_trail1 as (l2 & E2 & H2). exists (l1 ++ l2).
    rewrite E2, E1, app_assoc. split; [done|].
    intros e [?|?]%elem_of_app; auto.
Qed.

Lemma calm_row b b' id : calm b b' → row id (db (world b')) = row id (db (world b)).
Proof. intros H. unfold row. by rewrite (ca_ws _ _ H). Qed.
Lemma calm_owns b b' t : calm b b' → pipelineOwns t b' = pipelineOwns t b.
Proof. intros H. unfold pipelineOwns. by rewrite (ca_runs _ _ H). Qed.

Lemma recordEvent_calm type_ p b :
  type_ ≠ outcomeDecided → calm b (withWorld (withDB (recordEvent s type_ p (db (world b))) (world b)) b).
Proof.
  intros Hty. unfold recordEvent. destruct (svc_audit s) as [r|]; [|by destruct b as [[]]]. constructor; try done. cbn.
  unfold audit.Record_, audit.recordInto. case_bool_decide; [exists []; rewrite app_nil_r; split; [done|by intros e ?%elem_of_nil]|].
  destruct (audit.store_ok r _); cbn; [|exists []; rewrite app_nil_r; split; [done|by intros e ?%elem_of_nil]].
  eexists. split; [reflexivity|]. intros e ->%list_elem_of_singleton. exact Hty.
Qed.

Lemma auditDecisions_calm ds b : ∃ b', run (auditDecisions s ds) b = (Ok (), b') ∧ calm b b'.
Proof.
  revert b. induction ds as [|d ds IH]; intros b; [exists b; split; [done|reflexivity]|]. cbn [auditDecisions foldr].
  rewrite run_bind. unfold auditDecision at 1. cbn [atomic run].
  match goal with |- context [run _ ?b1] => destruct (IH b1) as (b' & Hrun & Hc); set (b2 := b1) in * end.
  exists b'. split; [exact Hrun|]. etrans; [|exact Hc]. by apply recordEvent_calm.
Qed.

Lemma run_Reconcile_cons r rs all ds b b1 :
  run r b = (Ok (ds, None), b1) →
  ∃ b2, run (Reconcile s (r :: rs) all) b = run (Reconcile s rs (all ++ ds)) b2 ∧ calm b1 b2.
Proof.
  intros Hr. cbn [Reconcile]. rewrite run_bind, Hr. rewrite run_bind.
  destruct (auditDecisions_calm ds b1) as (b2 & -> & Hc). by exists b2.
Qed.

Context (processAlive : Z → bool) (schemaVersion : Z).
Lemma calm_pid b : calm b (withPid NoPid b).
Proof. constructor; try done. exists []. rewrite app_nil_r. split; [done|]. by intros e ?%elem_of_nil. Qed.

Lemma run_runtimeFiles b :
  (∀ n, pidFile b = Pid n → processAlive n = false) →
  ∃ ds b', run (runtimeFiles processAlive) b = (Ok (ds, None), b') ∧ calm b b'.
Proof.
  intros Hp. unfold runtimeFiles. rewrite run_bind. cbn [read atomic run]. destruct (pidFile b) as [|why|n] eqn:Hf.
  - eexists _, b. split; [done|reflexivity].
  - eexists _, (withPid NoPid b). split; [done|apply calm_pid].
  - destruct (n =? 0)%Z; [eexists _, b; split; [done|reflexivity]|]. rewrite (Hp n) by done.
    eexists _, (withPid NoPid b). split; [done|apply calm_pid].
Qed.

Lemma run_checks l b : ∃ ds, run (each checkWorkspace l) b = (Ok ds, b).
Proof.
  induction l as [|ws l [ds IH]]; [by exists []|]. cbn [each]. rewrite run_bind.
  assert (∃ d, run (checkWorkspace ws) b = (Ok d, b)) as [d ->].
  { unfold checkWorkspace. destruct (State_ ws); try (by eexists); rewrite run_bind; cbn [read atomic run];
      destruct (worktreeExists (Path ws) b) as [[]|]; by eexists. }
  rewrite run_bind, IH. by eexists.
Qed.

Lemma run_attempts b :
  NoDup (ID <$> workspaces (db (world b))) →
  ∃ ds b', run (attempts s) b = (Ok (ds, None), b') ∧
    settled b (ID <$> ListAllWorkspaces (db (world b))) b'.
Proof.
  intros Hnd. unfold attempts, overWorkspaces. rewrite run_bind. cbn [read atomic run].
  assert (ListAllWorkspaces (db (world b)) ≡ₚ workspaces (db (world b))) as Hp by apply sortStable_Permutation.
  destruct (run_each b (ListAllWorkspaces (db (world b))) [] b (settled_start b)) as (ds & b' & Hrun & _ & Hs).
  - cbn. by rewrite Hp.
  - intros ws Hin. rewrite Hp in Hin. by apply row_elem.
  - rewrite run_bind, Hrun. by exists ds, b'.
Qed.

(** Marking a run interrupted writes records only. *)
Lemma run_markRuns l done_ b :
  (∀ r, r ∈ l → pipeline.runs (runsDB b) !! pipeline.TaskID r = Some r) →
  ∃ ds b', run (markRuns l done_) b = (Ok (ds, None), b') ∧ world b' = world b.
Proof.
  revert done_ b. induction l as [|r l IH]; intros done_ b Hl; [by exists done_, b|]. cbn [markRuns].
  destruct (pipeline.IsWaitState _); [apply IH; intros r' Hr'; apply Hl; by right|].
  rewrite run_bind. cbn [atomic run]. unfold pipeline.MarkInterrupted. cbn -[pipeline.closeInFlight].
  unfold pipeline.getRunTx. rewrite (Hl r) by (by left). cbn -[pipeline.closeInFlight].
  destruct (pipeline.IsTerminalRunState _).
  - apply (IH _ (withRuns (runsDB b) b)). intros r' Hr'. apply Hl. by right.
  - match goal with |- context [withRuns ?d b] => destruct (IH (done_ ++ [runDecision r DecisionMarkedStale
      ("stage " +:+ handlers.Stage_String (pipeline.CurrentStage r) +:+ " (attempt " +:+ pretty (pipeline.StageAttempt r)
       +:+ ") marked interrupted; re-drive deferred to pipeline recovery")]) (withRuns d b)) as (ds & b' & H & Hw) end.
    { intros r' Hr'. cbn -[pipeline.closeInFlight]. rewrite pipeline.closeInFlight_runs. apply Hl. by right. }
    exists ds, b'. by split.
Qed.

Lemma run_pipelineRuns textLess b :
  pipeline.store_inv (runsDB b) →
  ∃ ds b', run (pipelineRuns textLess) b = (Ok (ds, None), b') ∧ world b' = world b.
Proof.
  intros Hi. unfold pipelineRuns. rewrite run_bind. cbn [read atomic run].
  destruct (pipeline.ListActiveRuns textLess (runsDB b)) as [|r l] eqn:El; [by eexists _, b|].
  rewrite run_bind. cbn [read atomic run]. destruct (pipeline.EmergencyStop (runsDB b)) as [[] why]; [by eexists _, b|].
  apply run_markRuns. rewrite <-El. intros x Hx. by apply (driver.listed_run textLess).
Qed.

Lemma run_prelude b :
  (∀ n, pidFile b = Pid n → processAlive n = false) →
  ∀ rs, ∃ all b', run (Reconcile s (runtimeFiles processAlive :: databaseHealth schemaVersion :: workspaces_ :: rs) []) b =
    run (Reconcile s rs all) b' ∧ calm b b'.
Proof.
  intros Hpid rs. destruct (run_runtimeFiles b Hpid) as (d1 & b1 & H1 & C1).
  destruct (run_Reconcile_cons _ (databaseHealth schemaVersion :: workspaces_ :: rs) [] _ _ _ H1) as (b2 & -> & C2).
  edestruct (run_Reconcile_cons (databaseHealth schemaVersion) (workspaces_ :: rs)) as (b3 & -> & C3); [reflexivity|].
  destruct (run_checks (ListAllWorkspaces (db (world b3))) b3) as [d4 H4].
  edestruct (run_Reconcile_cons workspaces_ rs) as (b4 & -> & C4).
  { unfold workspaces_, overWorkspaces. rewrite run_bind. cbn [read atomic run]. rewrite run_bind, H4. reflexivity. }
  eexists _, b4. split; [reflexivity|]. etrans; [exact C1|]. etrans; [exact C2|]. by etrans.
Qed.
End settled.

Section startup.
  Context {X : Type} `{!External X, !runapp.GitRefs X}.
  Context (s : runapp.Service) (processAlive : Z → bool) (schemaVersion : Z) (errText : string * runapp.Error → string).
  Context (taskOf agreed : string → string).
  Implicit Types (b : Boot X) (w : World X).
  Import runapp.

Lemma calm_inv b b' : calm b b' → inv taskOf agreed (world b) → inv taskOf agreed (world b').
Proof.
  intros Hc Hi. apply (others_inv taskOf agreed (world b)); [|done]. destruct Hc as [_ _ Hx Hw Hin _ (l & Hl & Hty)].
  assert (∀ id, row id (db (world b')) = row id (db (world b))) as Hrow by (intros id; unfold row; by rewrite Hw).
  constructor.
  - intros id r Hr. exists r. rewrite Hrow. do 3 (split; [done|]). intros _. by split; [left|].
  - intros id r. rewrite Hrow. left. eauto.
  - rewrite Hw. apply Hi.
  - exists l. by split.
  - intros i. by rewrite Hin.
  - rewrite Hin. apply Hi.
  - intros repo t. left. by rewrite Hx.
Qed.

(** What recovery leaves of the workspaces. *)
Lemma run_finalizeIntents b :
  working (X := X) s agreed → inv taskOf agreed (world b) →
  ∃ ds b', run (finalizeIntents s errText) b = (Ok (ds, None), b') ∧ runsDB b' = runsDB b ∧ packs b' = packs b ∧
    inv taskOf agreed (world b') ∧ evolves agreed (world b) (world b') ∧ intents (db (world b')) = [] ∧
    (∀ id, id ∉ (Intent_WorkspaceID <$> intents (db (world b))) → row id (db (world b')) = row id (db (world b))) ∧
    ∀ i r, i ∈ intents (db (world b)) → row (Intent_WorkspaceID i) (db (world b)) = Some r → State_ r = StateActive →
      ∃ r', row (Intent_WorkspaceID i) (db (world b')) = Some r' ∧ State_ r' = TargetWSState i.
Proof.
  intros Hw Hi. unfold finalizeIntents. rewrite run_bind, run_bootWorld.
  destruct (total_Recover s taskOf agreed Hw (world b) Hi) as ([results errs] & w' & -> & Hi' & HR & -> & Hnil & Hrow & Hdone).
  cbn [fst snd]. eexists _, (withWorld w' b). split; [reflexivity|]. do 2 (split; [done|]). split; [done|].
  split; [done|]. split; [done|]. split; [done|]. intros i r Hin Hr Hact. by destruct (Hdone i r Hin Hr Hact) as [? _].
Qed.

(** C34: the startup of the daemon, run alone after a crash at any point of any
    calls of the finalization protocol that agree on the commit of a result, from a
    database whose runs had all still to end, with no live daemon, a working Git and an
    audit store that takes outcome rows: it ends without error; no finalize
    intent is left, and every active workspace that had one has reached the state
    it was being moved to, so marking attempts as interrupted never overrides a
    result that was already decided; of the others, an active workspace stays
    active only when a pipeline run that is not over owns it, and otherwise is
    failed and its task ended; and a workspace in any other state but waiting for
    quota is left alone. *)
Theorem startup_settles textLess (w0 : World X) c b :
  fresh taskOf w0 → rtc (pstep (finalization s taskOf agreed) (others taskOf agreed)) (mkConfig [] w0) c →
  working (X := X) s agreed → world b = state c → pipeline.store_inv (runsDB b) →
  (∀ n, pidFile b = Pid n → processAlive n = false) →
  ∃ ds b', run (startup s processAlive schemaVersion errText textLess) b = (Ok (ds, None), b') ∧
    intents (db (world b')) = [] ∧
    ∀ id r, row id (db (world b)) = Some r →
      ∃ r', row id (db (world b')) = Some r' ∧
        (∀ i, i ∈ intents (db (world b)) → Intent_WorkspaceID i = id → State_ r = StateActive → State_ r' = TargetWSState i) ∧
        (id ∉ (Intent_WorkspaceID <$> intents (db (world b))) →
           (State_ r = StateActive →
              if pipelineOwns (TaskID r) b then State_ r' = StateActive
              else State_ r' = StateFailed ∧ (TaskID r ≠ "" → ended (TaskID r) (world b'))) ∧
           (State_ r ≠ StateActive → State_ r ≠ StateWaitingQuota → State_ r' = State_ r)).
Proof.
  intros Hf Hsteps Hwork Hb Hruns Hpid.
  destruct (pool_inv s taskOf agreed w0 c (fresh_inv taskOf agreed w0 Hf) Hsteps) as (_ & Hi & _). rewrite <-Hb in Hi.
  unfold startup, DefaultReconcilers. cbn [app].
  destruct (run_prelude s processAlive schemaVersion b Hpid
    [finalizeIntents s errText; attempts s; pipelineRuns textLess]) as (all1 & b1 & -> & C1).
  pose proof (calm_inv b b1 C1 Hi) as Hi1.
  destruct (run_finalizeIntents b1 Hwork Hi1) as (d2 & b2 & H2 & H2r & H2p & Hi2 & HR2 & H2n & H2row & H2int).
  destruct (run_Reconcile_cons s _ [attempts s; pipelineRuns textLess] all1 _ _ _ H2) as (b3 & -> & C3).
  pose proof (calm_inv b2 b3 C3 Hi2) as Hi3.
  destruct (run_attempts s b3 (inv_ids _ _ _ Hi3)) as (d4 & b4 & H4 & S4).
  destruct (run_Reconcile_cons s _ [pipelineRuns textLess] (all1 ++ d2) _ _ _ H4) as (b5 & -> & C5).
  destruct (run_pipelineRuns textLess b5) as (d6 & b6 & H6 & H6w).
  { by rewrite (ca_runs _ _ C5), (se_runs _ _ _ S4), (ca_runs _ _ C3), H2r, (ca_runs _ _ C1). }
  destruct (run_Reconcile_cons s _ [] ((all1 ++ d2) ++ d4) _ _ _ H6) as (b7 & -> & C7).
  cbn [Reconcile]. rewrite run_bind. cbn [atomic run mret proc_ret].
  match goal with |- context [withWorld (withDB (recordEvent ?s ?ty ?p _) _) b7] =>
    pose proof (recordEvent_calm s ty p b7 ltac:(done)) as C8; set (b8 := withWorld _ b7) in * end.
  eexists _, b8. split; [reflexivity|].
  assert (∀ id, row id (db (world b8)) = row id (db (world b4))) as Hrow84.
  { intros id. rewrite (calm_row _ _ id C8), (calm_row _ _ id C7), H6w. apply calm_row, C5. }
  split.
  { rewrite (ca_intents _ _ C8), (ca_intents _ _ C7), H6w, (ca_intents _ _ C5), (fr_intents _ _ (se_frame _ _ _ S4)).
    by rewrite (ca_intents _ _ C3), H2n. }
  assert (∀ t, pipelineOwns t b3 = pipelineOwns t b) as Howns.
  { intros t. rewrite (calm_owns _ _ t C3). unfold pipelineOwns. by rewrite H2r, (ca_runs _ _ C1). }
  intros id r Hr. rewrite <-(calm_row _ _ id C1) in Hr.
  destruct (ev_rows _ _ _ HR2 id r Hr) as (r2 & Hr2 & HT2 & _). rewrite <-(calm_row _ _ id C3) in Hr2.
  destruct (se_rows _ _ _ S4 id r2 Hr2) as (r4 & Hr4 & HT4 & _ & Hst4).
  assert (id ∈ (ID <$> ListAllWorkspaces (db (world b3)))) as Hin.
  { apply row_Some in Hr2 as [Hin2 <-]. unfold ListAllWorkspaces. rewrite sortStable_Permutation.
    by apply list_elem_of_fmap_2. }
  rewrite bool_decide_true in Hst4 by done. cbn [andb] in Hst4.
  exists r4. split; [by rewrite Hrow84|]. split.
  - intros i Hii Hid Hact. rewrite <-(ca_intents _ _ C1) in Hii. subst id. destruct (H2int i r Hii Hr Hact) as (r2' & Hr2' & Hst).
    rewrite (calm_row _ _ _ C3) in Hr2. rewrite Hr2 in Hr2'. injection Hr2' as <-.
    destruct (inv_intents _ _ _ Hi1 i Hii) as (Hg & _ & _). rewrite Hst4, <-Hst.
    unfold doomed. rewrite Hst, (good_target _ _ _ Hg). by destruct (toOutcome _); cbn; rewrite andb_false_r.
  - intros Hni. rewrite <-(ca_intents _ _ C1) in Hni. rewrite (calm_row _ _ _ C3), (H2row _ Hni), Hr in Hr2.
    injection Hr2 as <-. split.
    + intros Hact. unfold doomed in Hst4. rewrite Hact, Howns in Hst4. destruct (pipelineOwns (TaskID r) b) eqn:Ho; [done|].
      split; [done|]. intros Hne. pose proof (se_ended _ _ _ S4 id r Hin) as He.
      rewrite (calm_row _ _ _ C3), (H2row _ Hni), Hr in He. specialize (He eq_refl).
      unfold doomed in He. rewrite Hact, Howns, Ho in He. specialize (He eq_refl Hne). intros t. unfold backlog.GetTask.
      rewrite (ca_tasks _ _ C8), (ca_tasks _ _ C7), H6w, (ca_tasks _ _ C5). apply He.
    + intros Hna Hnw. rewrite Hst4. unfold doomed. by destruct (State_ r); rewrite ?andb_false_r.
Qed.
End startup.


(** ** The small world of [Finalize.v] after a crash *)

Import runapp.
Definition bootOf (w : World runapp.Repo) (d : pipeline.DB) : Boot runapp.Repo := mkBoot w d [] (Pid 7).
Definition noProcess (n : Z) : bool := false.
Abbreviation demoStartup := (startup runapp.demoService noProcess 1 (λ _, "recovery failed") (λ a b, (a <? b)%Z)).
Definition left_ (b : Boot runapp.Repo) : list State * list backlog.State :=
  (State_ <$> workspaces (db (world b)), backlog.Task_State <$> backlog.tasks (base (db (world b)))).
Definition runIn (st : pipeline.RunState) : pipeline.DB :=
  pipeline.mkDB {["p-1" := pipeline.mkRun "p-1" "p" pipeline.StageExecute st 1 0 2 pipeline.FailureNone "" "" 1 1]} [] ∅.
Definition after (b : Boot Repo) : list string * option BootError * (list State * list backlog.State) :=
  let '(r, b) := run demoStartup b in
  (match r with Ok (ds, e) => (DecisionAction_String ∘ Action <$> ds, e) | Err e => ([], None) end, left_ b).

(** The process died between the intent and the result ref. *)
Definition crashed : World Repo := state (schedule (repeat 0 5) demoPool).
Lemma startup_settles_witness :
  ∃ ds b', run demoStartup (bootOf crashed pipeline.emptyDB) = (Ok (ds, None), b') ∧ intents (db (world b')) = [] ∧
    ∃ r', row "ws-p-1-main-1" (db (world b')) = Some r' ∧ State_ r' = StateCompleted.
Proof.
  destruct (startup_settles demoService noProcess 1 (λ _, "recovery failed") demoTaskOf demoAgreed (λ a b, (a <? b)%Z)
    (demoStart StateActive ∅) (schedule (repeat 0 5) demoPool) (bootOf crashed pipeline.emptyDB))
    as (ds & b' & Hrun & Hnil & H).
  - apply demo_fresh.
  - apply demo_steps.
  - constructor; [done|done|]. intros id i d. cbn. unfold audit.Record_, audit.recordInto. by case_bool_decide.
  - reflexivity.
  - apply pipeline.emptyDB_inv.
  - intros n _. reflexivity.
  - exists ds, b'. split; [exact Hrun|]. split; [exact Hnil|].
    destruct (H "ws-p-1-main-1" (demoRow StateActive)) as (r' & Hr' & Hi & _); [vm_compute; reflexivity|].
    exists r'. split; [exact Hr'|].
    assert (∃ i, head (intents (db crashed)) = Some i ∧ Intent_WorkspaceID i = "ws-p-1-main-1" ∧ TargetWSState i = StateCompleted)
      as (i & Hh & Hid & Ht) by (eexists; split; [vm_compute; reflexivity|split; reflexivity]).
    rewrite <-Ht. apply Hi; [|exact Hid|reflexivity]. cbn [world bootOf]. destruct (intents (db crashed)); [discriminate|].
    injection Hh as ->. left.
Defined.

Example startup_completes :
  after (bootOf crashed pipeline.emptyDB) =
    (["reclaimed"; "kept"; "kept"; "repaired"; "no-op"; "no-op"], None, ([StateCompleted], [backlog.StateCompleted])).
Proof. vm_compute. reflexivity. Qed.
(** The order matters: attempts before intents would fail a decided result. *)
Example attempts_first_overrides :
  let b := bootOf crashed pipeline.emptyDB in
  left_ (run (Reconcile demoService [attempts demoService; finalizeIntents demoService (λ _, "")] []) b).2 =
    ([StateFailed], [backlog.StateFailed]).
Proof. vm_compute. reflexivity. Qed.

(** ** What the startup does not settle *)

(** A run was cancelled and the process died before [settleRun]: the cancelled
    run is over, so nobody owns its active workspace, which is recorded as
    interrupted: the workspace and the task are failed, not cancelled. *)
Lemma cancelled_run_becomes_failed :
  after (bootOf (demoStart StateActive ∅) (runIn pipeline.RunCancelled)) =
    (["reclaimed"; "kept"; "kept"; "no-op"; "marked-stale"; "no-op"], None, ([StateFailed], [backlog.StateFailed])).
Proof. vm_compute. reflexivity. Qed.

(** A pending workspace ([pipesvc.pending_workspace_unsettled]) is no attempt:
    it stays pending and its task RUNNING at every start. *)
Lemma pending_never_recovered :
  after (bootOf (demoStart StatePending ∅) (runIn pipeline.RunFailed)) =
    (["reclaimed"; "kept"; "kept"; "no-op"; "no-op"; "no-op"], None, ([StatePending], [backlog.StateRunning])).
Proof. vm_compute. reflexivity. Qed.

(** [markFailed] writes the workspace, the task and the outcome one after the
    other.  The process dies after the first: the workspace is failed, no later
    start looks at it again, the task stays RUNNING and no outcome is recorded. *)
Lemma mark_crash_strands_task :
  let b := state (schedule (repeat 0 9) (mkConfig [attempts demoService] (bootOf (demoStart StateActive ∅) pipeline.emptyDB))) in
  left_ b = ([StateFailed], [backlog.StateRunning]) ∧
  left_ (run demoStartup b).2 = ([StateFailed], [backlog.StateRunning]) ∧
  decisions "ws-p-1-main-1" (world (run demoStartup b).2) = [].
Proof. vm_compute. by repeat split. Qed.

End reconcile.
