(* ===== verification/Scheduler.v ===== *)
(** * Scheduler: the dispatch path and the post-merge sentinel in the daemon

    Models [internal/scheduler] (scheduler.go, dispatch.go, postmerge.go) over the
    interfaces it defines, and [internal/daemon/scheduler_service.go], which
    implements them with the workspace manager, the backlog, the supervisor, the
    repository index and the tables of [Quality.v] and [Memory.v].  The sentinel
    is that of [PostMerge.v].  A file tree is what [Repository] says is at the
    project path.  The statements of a dispatch's two sinks fail as [faults] says, for
    they run on the context of a request that may be over; those of SQLite elsewhere
    do not fail but by their constraints. *)
From S2P Require Import Prelude Text Process AuditTrail Policy PostMerge Agent Projects Backlog WorkspaceRows Workspace.
From S2P Require Import Finalize Runner RepoInfo Quality Memory Handlers.
From Stdlib Require Import PrimFloat.

Module scheduler.
Import process.

(** ** scheduler.go: what the scheduler asks of the daemon *)

Record AgentEvent := mkAgentEvent {
  Type_ : string;
  InputTokens : Z;
  OutputTokens : Z;
  CacheRead : Z;
  CostUSD : float }.

Record ProjectContext := mkProjectContext {
  ProjectID : string;
  ProjectPath : string;
  TaskID : string;
  TaskDesc : string;
  Profile : policy.Profile;
  Resolved : policy.Resolved }.

Record PostMergeRecord := mkPostMergeRecord {
  Rec_TaskID : string;
  Rec_CommitSHA : string;
  Rec_BaseBranch : string;
  Rec_Decision : string;
  Rec_AllPassed : bool;
  Rec_Reverted : bool;
  Rec_RevertSHA : string;
  Rec_OccurredAt : Time }.

(** [Runtime], [ProjectResolver], [UsageSink], [MemorySink], [PostMergeSink],
    [PackBuilder] and [TaskReopener] over a state [W], with the scheduler's own
    stores (accounting and statistics), its recorder and its clock.  [RunAgent]
    returns an outcome even with an error. *)
Record Ports (W E : Type) := mkPorts {
  CreateAttempt : string → string → string → proc W E (string * string);
  RunAgent : string → string → string → string → string → Duration → W → (string * list AgentEvent * option E) * W;
  Resolve : string → proc W E ProjectContext;
  RecordUsage : quality.UsageEvent → proc W E ();
  Learn : string → string → string → string → string → proc W E ();
  Rules : string → W → list string;
  RecordPostMerge : option (PostMergeRecord → proc W E ());
  BuildPack : option (string → string → list string → proc W E string);
  reopener : option (string → string → proc W E ());
  accounting : quality.UsageEvent → W → W;
  statistics : quality.TaskOutcome → W → W;
  audit_ : string → string → list (string * audit.Val) → proc W E ();
  sched_now : W → Time;
  errText : E → string }.
Arguments mkPorts {W E}.
Arguments CreateAttempt {W E}. Arguments RunAgent {W E}. Arguments Resolve {W E}. Arguments RecordUsage {W E}.
Arguments Learn {W E}. Arguments Rules {W E}. Arguments RecordPostMerge {W E}. Arguments BuildPack {W E}.
Arguments reopener {W E}. Arguments accounting {W E}. Arguments statistics {W E}. Arguments audit_ {W E}.
Arguments sched_now {W E}. Arguments errText {W E}.

(** ** dispatch.go *)

Record DispatchOptions := mkDispatchOptions {
  Engine : string;
  Model : string;
  WorkPackageID : string;
  BaseBranch : string;
  Timeout : Duration;
  BuildContextPack : bool }.

Record DispatchResult := mkDispatchResult {
  Res_TaskID : string;
  Res_ProjectID : string;
  Res_WorkspaceID : string;
  Outcome : string;
  UsageEvents : Z;
  EstimatedTokens : Z;
  ContextPackBuilt : bool;
  MemoryLearned : bool }.

Section scheduler.
  Context {W E : Type} (s : Ports W E).
  Abbreviation M := (proc W E).

Definition auditf (type_ taskID : string) (payload : list (string * audit.Val)) : M () :=
  ignore (audit_ s type_ taskID payload).

(** [buildPack]: "" when no pack can be built. *)
Definition buildPack (build : string → string → list string → M string) (pctx : ProjectContext) : M string :=
  rules ← read (Rules s (ProjectID pctx));
  r ← catch (build (ProjectPath pctx) (TaskDesc pctx) rules);
  mret match r with Ok pack => pack | Err _ => "" end.

Definition paragraph (a b : string) : string := a +:+ text.line "" +:+ text.line "" +:+ b.
Definition withPack (pack desc : string) : string := paragraph pack (paragraph "---" ("Task: " +:+ desc)).
Definition prompt (o : DispatchOptions) (pctx : ProjectContext) : M (string * bool) :=
  match BuildPack s with
  | Some build =>
      if BuildContextPack o then
        pack ← buildPack build pctx;
        mret (if bool_decide (pack = "") then (TaskDesc pctx, false) else (withPack pack (TaskDesc pctx), true))
      else mret (TaskDesc pctx, false)
  | None => mret (TaskDesc pctx, false)
  end.

Definition usageEvent (taskID projectID : string) (o : DispatchOptions) (t : Time) (ev : AgentEvent) : quality.UsageEvent :=
  quality.mkUsageEvent taskID projectID (Engine o) (Model o) quality.UsageCoding (InputTokens ev) (CacheRead ev) (OutputTokens ev)
    0 (CostUSD ev) t.
Definition isUsage (ev : AgentEvent) : bool := bool_decide (Type_ ev = "usage.updated").
Definition tokensOf (ev : AgentEvent) : Z := text.wrap64 (InputTokens ev + OutputTokens ev + CacheRead ev).

(** The loop over the events: every report goes to the sink, whose error is logged,
    and to the accounting; the count and the tokens so far. *)
Fixpoint recordEvents (taskID projectID : string) (o : DispatchOptions) (events : list AgentEvent) (n tokens : Z) : M (Z * Z) :=
  match events with
  | [] => mret (n, tokens)
  | ev :: events =>
      if negb (isUsage ev) then recordEvents taskID projectID o events n tokens
      else
        t ← read (sched_now s);
        let ue := usageEvent taskID projectID o t ev in
        _ ← ignore (RecordUsage s ue);
        _ ← atomic (λ w, ((), accounting s ue w));
        recordEvents taskID projectID o events (n + 1)%Z (text.wrap64 (tokens + tokensOf ev))
  end.

Definition taskOutcome (taskID projectID : string) (o : DispatchOptions) (outcome : string) : quality.TaskOutcome :=
  quality.mkTaskOutcome taskID projectID (Engine o) (Model o) "STANDARD"
    (if bool_decide (outcome = "failed") || bool_decide (outcome = "cancelled") then quality.OutcomeFailure
     else quality.OutcomeSuccess) "" "" 0 0 0 0%float 0%float 0 0%float 0%float 0.
Definition memoryValue (taskID : string) (o : DispatchOptions) (outcome : string) : string :=
  "Task " +:+ taskID +:+ " dispatched via " +:+ Engine o +:+ "/" +:+ Model o +:+ " — outcome " +:+ outcome +:+ ".".

Definition defaulted (o : DispatchOptions) : DispatchOptions :=
  let orElse a d := if bool_decide (a = "") then d else a in
  mkDispatchOptions (orElse (Engine o) "fake") (Model o) (orElse (WorkPackageID o) "main") (BaseBranch o)
    (if (Timeout o <=? 0)%Z then (300 * time.Second)%Z else Timeout o) (BuildContextPack o).

Definition Dispatch (taskID : string) (o : DispatchOptions) : M DispatchResult :=
  pctx ← Resolve s taskID;
  let project := ProjectID pctx in
  let o := defaulted o in
  '(wsID, wsPath) ← CreateAttempt s taskID (WorkPackageID o) (BaseBranch o);
  _ ← auditf "scheduler.attempt_created" taskID
        [("workspace", audit.VString wsID); ("engine", audit.VString (Engine o)); ("model", audit.VString (Model o))];
  '(text, packed) ← prompt o pctx;
  '(outcome, events, _) ← atomic (RunAgent s wsID wsPath (Engine o) (Model o) text (Timeout o));
  '(n, tokens) ← recordEvents taskID project o events 0 0;
  _ ← atomic (λ w, ((), statistics s (taskOutcome taskID project o outcome) w));
  r ← catch (Learn s project "accepted_decision" ("dispatch-" +:+ taskID) (memoryValue taskID o outcome) "medium");
  let res := mkDispatchResult taskID project wsID outcome n tokens packed (is_ok r) in
  _ ← auditf "scheduler.dispatch_completed" taskID
        [("outcome", audit.VString outcome); ("usage_events", audit.VInt n); ("est_tokens", audit.VInt tokens);
         ("memory_learned", audit.VBool (is_ok r))];
  mret res.

(** ** postmerge.go *)

Record SmokeResult := mkSmokeResult { Smoke_Name : string; Smoke_Status : string; Smoke_Detail : string }.
Definition toSmokeStatus (t : string) : postmerge.SmokeStatus :=
  if bool_decide (t = "passed") then postmerge.SmokePassed else if bool_decide (t = "failed") then postmerge.SmokeFailed
  else if bool_decide (t = "skipped") then postmerge.SmokeSkipped else if bool_decide (t = "error") then postmerge.SmokeError
  else postmerge.SmokeOther t.
Definition Decision_String (d : postmerge.SentinelDecision) : string :=
  match d with
  | postmerge.DecisionHealthy => "HEALTHY" | postmerge.DecisionRevert => "REVERT" | postmerge.DecisionAlertOnly => "ALERT_ONLY"
  | postmerge.DecisionSkipped => "SKIPPED" | postmerge.DecisionUnset => ""
  end.
Definition smokeCheck (c : W → SmokeResult * W) (w : W) : postmerge.CheckResult * W :=
  let '(r, w) := c w in (postmerge.mkCheckResult (Smoke_Name r) (toSmokeStatus (Smoke_Status r)) (Smoke_Detail r) 0, w).

(** [Scheduler.Reopen]. *)
Definition Reopen (taskID reason : string) : M () :=
  match reopener s with
  | None => mret ()
  | Some reopen =>
      _ ← reopen taskID reason;
      auditf "scheduler.task_reopened" taskID [("reason", audit.VString reason)]
  end.

Definition toRecord (r : postmerge.PostMergeCheckResult) : PostMergeRecord :=
  mkPostMergeRecord (postmerge.Result_TaskID r) (postmerge.Result_CommitSHA r) (postmerge.Result_BaseBranch r)
    (Decision_String (postmerge.Decision r)) (postmerge.AllPassed r) (postmerge.Reverted r) (postmerge.RevertSHA r)
    (postmerge.OccurredAt r).

(** [RunPostMerge]: the record, and the error of the sentinel if it had one. *)
Definition RunPostMerge (out : postmerge.MergeOutcome) (checks : list (W → SmokeResult * W))
    (reverter : option (string → string → string → Z → M string)) : M (PostMergeRecord * option string) :=
  pctx ← Resolve s (postmerge.TaskID out);
  t ← read (sched_now s);
  let out := postmerge.mkMergeOutcome (postmerge.TaskID out) (postmerge.CommitSHA out) (postmerge.BaseBranch out)
               (postmerge.Number out) (if time.IsZero (postmerge.MergedAt out) then t else postmerge.MergedAt out) in
  let text {A} (r : result E A) := match r with Ok a => Ok a | Err e => Err (errText s e) end in
  let sentinel := postmerge.mkSentinel (smokeCheck <$> checks)
                    ((λ revert task sha base n w, let '(r, w) := run (revert task sha base n) w in (text r, w)) <$> reverter)
                    (Some (λ task reason w, (run (Reopen task reason) w).2)) t in
  '(res, err) ← atomic (postmerge.Run sentinel (Resolved pctx) out);
  let rec := toRecord res in
  _ ← (match RecordPostMerge s with Some record => ignore (record rec) | None => mret () end);
  _ ← auditf "scheduler.postmerge" (postmerge.TaskID out)
        [("decision", audit.VString (Rec_Decision rec)); ("reverted", audit.VBool (Rec_Reverted rec));
         ("revert_sha", audit.VString (Rec_RevertSHA rec)); ("all_passed", audit.VBool (Rec_AllPassed rec))];
  mret (rec, err).
End scheduler.

(** * daemon/scheduler_service.go *)

Import workspace.

(** The tables the scheduler writes and the two in-process stores, which the
    daemon shares between the scheduler and its sink. *)
Record Tables := mkTables {
  usage : list quality.UsageEventRow;
  memories : list memory.MemoryRow;
  checks : list memory.PostMergeCheckRow;
  accounts : quality.Accounting;
  outcomes : quality.Statistics }.

(** [faults]: whether the statements that the sinks of a dispatch are still to run fail,
    in their order; from the end of the list on they do not. *)
Record State (X : Type) := mkState { world : World X; tables : Tables; faults : list bool }.
Arguments mkState {X}. Arguments world {X}. Arguments tables {X}. Arguments faults {X}.
Definition withWorld {X} (w : World X) (v : State X) : State X := mkState w (tables v) (faults v).
Definition withTables {X} (t : Tables) (v : State X) : State X := mkState (world v) t (faults v).
Definition withMemories {X} (l : list memory.MemoryRow) (v : State X) : State X :=
  let t := tables v in withTables (mkTables (usage t) l (checks t) (accounts t) (outcomes t)) v.
Definition withUsage {X} (l : list quality.UsageEventRow) (v : State X) : State X :=
  let t := tables v in withTables (mkTables l (memories t) (checks t) (accounts t) (outcomes t)) v.
Definition withChecks {X} (l : list memory.PostMergeCheckRow) (v : State X) : State X :=
  let t := tables v in withTables (mkTables (usage t) (memories t) l (accounts t) (outcomes t)) v.
Definition withAccounts {X} (l : quality.Accounting) (v : State X) : State X :=
  let t := tables v in withTables (mkTables (usage t) (memories t) (checks t) l (outcomes t)) v.
Definition withOutcomes {X} (l : quality.Statistics) (v : State X) : State X :=
  let t := tables v in withTables (mkTables (usage t) (memories t) (checks t) (accounts t) l) v.

Inductive Error :=
| ErrTask (e : backlog.Error)
| ErrWorkspace (e : workspace.Error)
| ErrSupervisor (text : string)
| ErrStatement
| ErrMemory (e : memory.RowError).

(** What is at a path: the tree for the walk, the content of a file below it. *)
Class Repository (X : Type) := {
  tree : string → X → repoinfo.Node;
  readFile : string → string → X → option string }.

Definition toAgentEvents (events : list agent.NormalizedEvent) : list AgentEvent :=
  (λ ev, let type_ := agent.EventType_String (agent.Type_ ev) in
         match agent.Usage ev with
         | Some u => mkAgentEvent type_ (agent.InputTokens u) (agent.OutputTokens u) (agent.CacheReadTokens u) (agent.Cost u)
         | None => mkAgentEvent type_ 0 0 0 0%float
         end) <$> events.

Definition renderFile (f : repoinfo.FileSlice) : string :=
  text.line "" +:+ text.line ("## " +:+ repoinfo.Slice_Path f) +:+ text.line ("```" +:+ repoinfo.Slice_Language f)
  +:+ text.line (repoinfo.Excerpt f) +:+ text.line "```".
Definition renderPack (p : repoinfo.ContextPack) : string :=
  text.line "## Specification" +:+ text.line (repoinfo.Specification p)
  +:+ repoinfo.section "## Architectural rules" (repoinfo.ArchitecturalRules p)
  +:+ (if bool_decide (repoinfo.RepoMap p = "") then ""
       else text.line "" +:+ text.line "## Repo map" +:+ text.line (repoinfo.RepoMap p))
  +:+ foldr (λ f acc, renderFile f +:+ acc) "" (repoinfo.RelevantFiles p)
  +:+ text.line "" +:+ text.line ("(budget: " +:+ pretty (repoinfo.EstimatedTokens p) +:+ " tokens, "
        +:+ pretty (Z.of_nat (length (repoinfo.RelevantFiles p))) +:+ " files included, "
        +:+ pretty (repoinfo.TrimmedFilesDropped p) +:+ " dropped)").

(** [memory.Store] as the service builds it from the rows: every row is learned
    again, permanent and as of now. *)
Definition recordOf (withSource : bool) (r : memory.MemoryRow) : memory.Record_ :=
  memory.mkRecord (memory.Row_Key r) (memory.toCategory (memory.Row_Category r)) (memory.Row_Value r)
    (if withSource then memory.Row_Source r else "") (memory.toConfidence (memory.Row_Confidence r)) "" "" (memory.ExpOther "") 0 0 0.
Definition storeOf (withSource : bool) (now : Time) (rows : list memory.MemoryRow) : gmap string memory.Record_ :=
  foldl (λ st r, (memory.Learn (recordOf withSource r) now st).2) memory.NewStore rows.

(** The context of a task, without a task override. *)
Definition contextOf (t : backlog.Task) (p : backlog.Project) : ProjectContext :=
  let profile := handlers.profileOf (backlog.Profile p) in
  mkProjectContext (backlog.Project_ID p) (backlog.Path p) (backlog.ID t)
    (if bool_decide (backlog.Title t = "") then backlog.Description t else backlog.Title t +:+ ": " +:+ backlog.Description t)
    profile (policy.Resolve (policy.NewProject profile) (policy.mkTaskContext None false)).1.

Section service.
  Context {X : Type} `{!External X, !runner.Agents X, !Repository X}.
  (** The recorder, the manager and the text of an error. *)
  Context (rec : audit.Recorder) (wm : Manager) (errorText : Error → string).
  Abbreviation W := (State X).
  Abbreviation P := (proc W Error).

Definition onWorld {F A} (f : F → Error) (p : proc (World X) F A) : P A := mapErr f (zoom world withWorld p).
Definition onMemory {A} (p : proc (list memory.MemoryRow) memory.RowError A) : P A :=
  mapErr ErrMemory (zoom (λ v, memories (tables v)) withMemories p).
Definition clockOf (v : W) : Time := clock (world v).
Definition onBacklog {A} (f : backlog.DB → result backlog.Error A) : P A :=
  onWorld ErrTask (query (λ w, f (base (db w)))).
Definition record (type_ taskID : string) (payload : list (string * audit.Val)) : P () :=
  onWorld ErrWorkspace (stmt (auditTx (Some rec) taskID type_ payload)).

Definition getTask (id : string) : P backlog.Task := '(t, _) ← onBacklog (backlog.Get id); mret t.
Definition resolvePath (projectID : string) : P string :=
  p ← onBacklog (backlog.GetProject projectID); mret (backlog.Path p).

Definition CreateAttempt_ (taskID wpID baseBranch : string) : P (string * string) :=
  t ← getTask taskID;
  path ← resolvePath (backlog.ProjectID t);
  ws ← onWorld ErrWorkspace (Create wm (mkCreateRequest (backlog.ProjectID t) path (backlog.ID t) wpID baseBranch));
  mret (ID ws, Path ws).

Definition RunAgent_ (wsID wsPath engine model prompt : string) (timeout : Duration) (v : W) :
    (string * list AgentEvent * option Error) * W :=
  let '(r, w) := runner.supervise (runner.mkSupervisorRequest wsID engine model prompt timeout) wsPath (world v) in
  (match r with
   | Err e => ("failed", [], Some (ErrSupervisor e))
   | Ok res => (if runner.Failed res then "failed" else if runner.Cancelled res then "cancelled" else "completed",
                toAgentEvents (runner.Events res), None)
   end, withWorld w v).

Definition packOptions (desc : string) (rules : list string) : repoinfo.PackOptions :=
  repoinfo.mkPackOptions desc [] (text.Fields desc) rules [] [] 2000 6 24.
Definition BuildPack_ (path desc : string) (rules : list string) : P string :=
  read (λ v, let x := ext (world v) in
             renderPack (repoinfo.AssemblePack (repoinfo.Build (tree path x)) (λ f, readFile path f x) (packOptions desc rules))).

Definition Resolve_ (taskID : string) : P ProjectContext :=
  t ← getTask taskID;
  p ← onBacklog (backlog.GetProject (backlog.ProjectID t));
  mret (contextOf t p).

Definition account (e : quality.UsageEvent) (v : W) : W :=
  withAccounts (quality.Accounting_Record e (clockOf v) (accounts (tables v))) v.
(** A statement of a sink: it may fail before it does anything. *)
Definition statement {A} (p : P A) : P A :=
  failed ← atomic (λ v, (default false (head (faults v)), mkState (world v) (tables v) (tail (faults v))));
  if failed : bool then Throw ErrStatement else p.
Definition RecordUsage_ (e : quality.UsageEvent) : P () :=
  _ ← atomic (λ v, ((), account e v));
  statement (atomic (λ v, ((), withUsage (quality.RecordUsageEvent e (clockOf v) (usage (tables v))) v))).

(** The store that [Learn] builds afterwards is dropped. *)
Definition learnRow (projectID category key value confidence source : string) : P memory.MemoryRow :=
  t ← read clockOf;
  onMemory (memory.LearnMemory (memory.mkMemoryRow 0 projectID category key value source confidence "" "" "" "" 0 0) t).
Definition Learn_ (projectID category key value confidence : string) : P () :=
  _ ← statement (learnRow projectID category key value confidence "scheduler"); mret ().
Definition Rules_ (projectID : string) (v : W) : list string :=
  memory.HighConfidenceRules (clockOf v) (storeOf false (clockOf v) (memory.ListMemory projectID (memories (tables v)))).

Definition rowOf (r : PostMergeRecord) : memory.PostMergeCheckRow :=
  memory.mkPostMergeCheckRow 0 (Rec_TaskID r) (Rec_CommitSHA r) (Rec_BaseBranch r) (Rec_Decision r) (Rec_AllPassed r)
    (Rec_Reverted r) (Rec_RevertSHA r) (Rec_OccurredAt r).
Definition RecordPostMerge_ (r : PostMergeRecord) : P () :=
  atomic (λ v, ((), withChecks (memory.RecordPostMergeCheck (rowOf r) (clockOf v) (checks (tables v))) v)).

Definition Reopen_ (taskID reason : string) : P () :=
  t ← getTask taskID;
  if bool_decide (backlog.Task_State t ∈ [backlog.StateNew; backlog.StateIngested; backlog.StatePaused]) then mret ()
  else record "task.reopen" taskID
         [("reason", audit.VString reason); ("from_state", audit.VString (backlog.State_String (backlog.Task_State t)))].

Definition service : Ports W Error :=
  mkPorts CreateAttempt_ RunAgent_ Resolve_ RecordUsage_ Learn_ Rules_ (Some RecordPostMerge_) (Some BuildPack_) (Some Reopen_)
    account (λ o v, withOutcomes (quality.Statistics_Record o (clockOf v) (outcomes (tables v))) v) record clockOf errorText.

(** [Revert], the reverter of the daemon. *)
Definition Revert (taskID commitSHA baseBranch : string) (number : Z) : P string :=
  t ← getTask taskID;
  path ← resolvePath (backlog.ProjectID t);
  ws ← onWorld ErrWorkspace (Create wm (mkCreateRequest (backlog.ProjectID t) path (backlog.ID t) "revert" baseBranch));
  r ← catch (onWorld ErrWorkspace (Checkpoint_ wm (ID ws) "manual" ("revert of " +:+ commitSHA)));
  sha ← match r with
        | Err _ => mret (HeadSHA ws)
        | Ok _ => u ← catch (onWorld ErrWorkspace (Get (ID ws))); mret match u with Ok u => HeadSHA u | Err _ => "" end
        end;
  _ ← ignore (onWorld ErrWorkspace (Delete wm (ID ws)));
  mret sha.

(** *** The endpoints *)

Definition DispatchTask (taskID : string) (o : DispatchOptions) : P DispatchResult := Dispatch service taskID o.

Record SmokeCheckSpec := mkSmokeCheckSpec { Spec_Name : string; WantStatus : string; Spec_Detail : string }.
Definition toSchedulerChecks (specs : list SmokeCheckSpec) : list (W → SmokeResult * W) :=
  if bool_decide (length specs = 0%nat) then [λ v, (mkSmokeResult "merge-present" "passed" "merge landed", v)]
  else (λ sc v, (mkSmokeResult (Spec_Name sc) (if bool_decide (WantStatus sc = "") then "passed" else WantStatus sc)
                   (Spec_Detail sc), v)) <$> specs.
Definition RunPostMerge_ (taskID commitSHA baseBranch : string) (number : Z) (specs : list SmokeCheckSpec) :
    P (PostMergeRecord * option string) :=
  RunPostMerge service (postmerge.mkMergeOutcome taskID commitSHA baseBranch number 0) (toSchedulerChecks specs) (Some Revert).
Definition ReopenTask (taskID reason : string) : P () := Reopen service taskID reason.

Record UsageTotalsDTO := mkUsageTotalsDTO {
  DTO_ProjectID : string;
  CodingInput : Z;
  CachedInput : Z;
  CodingOutput : Z;
  ImageGenerations : Z;
  EstimatedCostUSD : float;
  EventCount : Z }.
Definition addRow (t : UsageTotalsDTO) (r : quality.UsageEvent) : UsageTotalsDTO :=
  mkUsageTotalsDTO (DTO_ProjectID t) (CodingInput t + quality.InputTokens r) (CachedInput t + quality.CachedInputTokens r)
    (CodingOutput t + quality.OutputTokens r)
    (if bool_decide (quality.UsageKind_String (quality.Kind r) = "image") then ImageGenerations t + quality.Generations r
     else ImageGenerations t) (PrimFloat.add (EstimatedCostUSD t) (quality.CostUSD r)) (EventCount t).
Definition ListUsage (projectID : string) (v : W) : UsageTotalsDTO :=
  let rows := quality.row <$> quality.ListUsageEvents (quality.mkUsageFilter projectID "" "" 0) (usage (tables v)) in
  foldl addRow (mkUsageTotalsDTO projectID 0 0 0 0 0%float (Z.of_nat (length rows))) rows.

Definition ListMemory (projectID : string) (v : W) : list memory.MemoryRow := memory.ListMemory projectID (memories (tables v)).
Definition LearnMemory (projectID category key value confidence : string) : P memory.MemoryRow :=
  learnRow projectID category key value confidence "cli".

Record ModelStatsDTO := mkModelStatsDTO {
  MS_Engine : string; MS_Model : string; MS_Attempts : Z; MS_Successes : Z; MS_SuccessRate : float }.
Definition QualityStats (v : W) : float * list ModelStatsDTO * UsageTotalsDTO :=
  let snap := quality.Snapshot (accounts (tables v)) in
  (quality.OverallSuccessRate (outcomes (tables v)),
   (λ st, mkModelStatsDTO (quality.Engine st) (quality.Stats_Model st) (quality.Attempts st) (quality.Successes st)
            (quality.SuccessRate st)) <$> quality.SuccessRateByModel (outcomes (tables v)),
   mkUsageTotalsDTO "" (quality.CodingInput snap) (quality.CachedInput snap) (quality.CodingOutput snap)
     (quality.ImageGenerations snap) (quality.EstimatedCostUSD snap) (quality.EventCount snap)).
Definition ListPostMergeChecks (taskID : string) (v : W) : list memory.PostMergeCheckRow :=
  memory.ListPostMergeChecks taskID (checks (tables v)).
End service.

(** * What the daemon records *)

Section frames.
  Context {X : Type} `{!External X, !runner.Agents X, !Repository X}.
  Context (rec : audit.Recorder) (wm : Manager) (errorText : Error → string).
  Abbreviation W := (State X).
  Abbreviation P := (proc W Error).
  Abbreviation svc := (service rec wm errorText).

Lemma run_ports {F A} (f : F → Error) (p : proc (World X) F A) (v : W) :
  run (onWorld f p) v =
    (match (run p (world v)).1 with Ok a => Ok a | Err e => Err (f e) end, withWorld (run p (world v)).2 v).
Proof. unfold onWorld. rewrite run_mapErr, run_zoom; [done|done|done|by intros []]. Qed.

(** Programs that touch the world only: the tables and the faults to come are framed. *)
Definition frame {T} (f : W → T) {E A} (p : proc W E A) : Prop := ∀ v, f (run p v).2 = f v.
Section frame.
  Context {T : Type} (f : W → T) (Hf : ∀ w v, f (withWorld w v) = f v).
Lemma frame_ret {E A} (a : A) : frame f (mret a : proc W E A).
Proof. done. Qed.
Lemma frame_bind {E A B} (g : A → proc W E B) (p : proc W E A) : frame f p → (∀ a, frame f (g a)) → frame f (p ≫= g).
Proof.
  intros Hp Hg v. rewrite run_bind. specialize (Hp v). destruct (run p v) as [[a|e] v']; [|done]. by rewrite Hg.
Qed.
Lemma frame_catch {E E' A} (p : proc W E A) : frame f p → frame f (catch (E' := E') p).
Proof. intros Hp v. rewrite run_catch. apply Hp. Qed.
Lemma frame_ignore {E E' A} (p : proc W E A) : frame f p → frame f (ignore (E' := E') p).
Proof. intros Hp v. rewrite run_ignore. apply Hp. Qed.
Lemma frame_onWorld {F A} (g : F → Error) (p : proc (World X) F A) : frame f (onWorld g p).
Proof. intros v. rewrite run_ports. apply Hf. Qed.
End frame.

Ltac keeps := repeat first
  [ apply frame_onWorld | apply frame_ret | apply frame_ignore | apply frame_catch
  | apply frame_bind; [|intros ?] | progress unfold getTask, resolvePath, onBacklog, record, auditf
  | match goal with |- frame _ (match ?x with _ => _ end) => destruct x end | done ].

Lemma keeps_Revert taskID sha base n : frame tables (Revert wm taskID sha base n).
Proof. unfold Revert. keeps. Qed.
Lemma keeps_Reopen taskID reason : frame tables (Reopen svc taskID reason).
Proof. unfold Reopen. cbn [reopener svc]. unfold Reopen_. keeps. Qed.
Lemma keeps_auditf type_ taskID payload : frame tables (auditf svc type_ taskID payload).
Proof. unfold auditf. cbn [audit_ svc]. keeps. Qed.
Lemma keeps_Resolve taskID : frame tables (Resolve_ (X := X) taskID).
Proof. unfold Resolve_. keeps. Qed.
Lemma keeps_CreateAttempt taskID wp base : frame (λ v, (tables v, faults v)) (CreateAttempt_ wm taskID wp base).
Proof. unfold CreateAttempt_. keeps. Qed.

(** Reading the backlog changes nothing. *)
Lemma run_onBacklog {A} (f : backlog.DB → result backlog.Error A) (v : W) :
  run (onBacklog f) v = (match f (base (db (world v))) with Ok a => Ok a | Err e => Err (ErrTask e) end, v).
Proof. unfold onBacklog. rewrite run_ports, run_query. by destruct v. Qed.

Definition resolvesTo (taskID : string) (v : W) (c : ProjectContext) : Prop :=
  ∃ t atts p, backlog.Get taskID (base (db (world v))) = Ok (t, atts) ∧
    backlog.GetProject (backlog.ProjectID t) (base (db (world v))) = Ok p ∧ c = contextOf t p.
Lemma run_Resolve taskID (v : W) r v' :
  run (Resolve_ taskID) v = (r, v') → v' = v ∧ match r with Ok c => resolvesTo taskID v c | Err _ => True end.
Proof.
  unfold Resolve_, getTask. rewrite !run_bind, run_onBacklog.
  destruct (backlog.Get taskID _) as [[t atts]|e] eqn:Ht; [|by intros [<- <-]%pair_equal_spec]. cbn [run mret proc_ret].
  rewrite run_bind, run_onBacklog. destruct (backlog.GetProject _ _) as [p|e] eqn:Hp; [|by intros [<- <-]%pair_equal_spec].
  intros [<- <-]%pair_equal_spec. split; [done|]. exists t, atts, p. split; [done|]. by split.
Qed.
End frames.

(** ** The sentinel *)

Section sentinel.
  Context {W T : Type} (f : W → T).

(** The sentinel changes the state through its checks and collaborators only. *)
Definition quiet (s : postmerge.Sentinel W) : Prop :=
  Forall (λ c, ∀ w, f (c w).2 = f w) (postmerge.checks s) ∧
  (∀ rev, postmerge.reverter s = Some rev → ∀ a b c n w, f (rev a b c n w).2 = f w) ∧
  (∀ reo, postmerge.reopener s = Some reo → ∀ a b w, f (reo a b w) = f w).

Lemma runChecks_quiet (cs : list (W → postmerge.CheckResult * W)) : Forall (λ c, ∀ w, f (c w).2 = f w) cs →
  ∀ done_ all w, f (postmerge.runChecks cs done_ all w).2 = f w.
Proof.
  induction 1 as [|c cs Hc _ IH]; intros done_ all w; [done|]. cbn [postmerge.runChecks].
  specialize (Hc w). destruct (c w) as [r w']. cbn [snd] in Hc. case_bool_decide; [done|]. by rewrite IH.
Qed.
Lemma reopen_quiet s task reason w : quiet s → f (postmerge.reopen s task reason w) = f w.
Proof.
  intros (_ & _ & H). unfold postmerge.reopen. destruct (postmerge.reopener s) as [reo|]; [|done].
  case_bool_decide; [done|by apply H].
Qed.
Lemma finalise_quiet s res out w : quiet s → f (postmerge.finalise s res out w).2 = f w.
Proof.
  intros H. unfold postmerge.finalise. destruct (postmerge.Decision res); cbn [snd]; try done; [|by apply reopen_quiet].
  destruct (postmerge.reverter s) as [rev|] eqn:E; cbn [snd]; [|by apply reopen_quiet].
  destruct (rev _ _ _ _ w) as [r w'] eqn:Hr. assert (f w' = f w) as Hw.
  { replace w' with (rev (postmerge.TaskID out) (postmerge.CommitSHA out) (postmerge.BaseBranch out) (postmerge.Number out) w).2
      by (by rewrite Hr). by apply H. }
  destruct r; cbn [snd]; by rewrite reopen_quiet.
Qed.
Lemma Run_quiet s resolved out w : quiet s → f (postmerge.Run s resolved out w).2 = f w.
Proof.
  intros H. unfold postmerge.Run. destruct (negb _); [done|].
  pose proof (runChecks_quiet (postmerge.checks s) (proj1 H) [] true w) as Hc.
  destruct (postmerge.runChecks _ _ _ _) as [[[cs all] errored] w']. cbn [snd] in Hc.
  destruct errored; [by rewrite finalise_quiet|]. destruct all; [done|by rewrite finalise_quiet].
Qed.
End sentinel.

(** The result names the task of the merge. *)
Lemma Run_task {W} (s : postmerge.Sentinel W) resolved out w :
  postmerge.Result_TaskID (postmerge.Run s resolved out w).1.1 = postmerge.TaskID out.
Proof.
  assert (∀ res w, postmerge.Result_TaskID (postmerge.finalise s res out w).1.1 = postmerge.Result_TaskID res) as Hf.
  { intros res w0. unfold postmerge.finalise. destruct (postmerge.Decision res); try done.
    destruct (postmerge.reverter s) as [rev|]; [|done]. by destruct (rev _ _ _ _ w0) as [[] ?]. }
  unfold postmerge.Run. destruct (negb _); [done|]. destruct (postmerge.runChecks _ _ _ _) as [[[cs all] errored] w'].
  destruct errored; [by rewrite Hf|]. destruct all; [done|by rewrite Hf].
Qed.

Section recorded.
  Context {X : Type} `{!External X, !runner.Agents X, !Repository X}.
  Context (rec : audit.Recorder) (wm : Manager) (errorText : Error → string).
  Abbreviation W := (State X).
  Abbreviation svc := (service rec wm errorText).

Lemma run_auditf type_ taskID payload (v : W) :
  ∃ v', run (auditf svc type_ taskID payload) v = (Ok (), v') ∧ tables v' = tables v ∧ faults v' = faults v ∧ ext (world v') = ext (world v).
Proof.
  exists (run (record rec type_ taskID payload) v).2. split; [unfold auditf; by rewrite run_ignore|]. unfold record.
  rewrite run_ports. do 2 (split; [done|]). unfold stmt. rewrite run_attempt. by destruct (auditTx _ _ _ _ _).
Qed.

Lemma run_record_pm r (v : W) :
  run (RecordPostMerge_ r) v = (Ok (), withChecks (memory.RecordPostMergeCheck (rowOf r) (clockOf v) (checks (tables v))) v).
Proof. done. Qed.

(** The sentinel that [RunPostMerge] builds. *)
Lemma quiet_sentinel {T} (f : W → T) (cs : list (W → SmokeResult * W)) (revert : string → string → string → Z → proc W Error string)
    (reopen : string → string → proc W Error ()) (text : result Error string → result string string) (t : Time) :
  Forall (λ c, ∀ w, f (c w).2 = f w) cs →
  (∀ a b c n w, f (run (revert a b c n) w).2 = f w) → (∀ a b w, f (run (reopen a b) w).2 = f w) →
  quiet f
    (postmerge.mkSentinel (smokeCheck <$> cs)
       ((λ revert task sha base n w, let '(r, w) := run (revert task sha base n) w in (text r, w)) <$> Some revert)
       (Some (λ task reason w, (run (reopen task reason) w).2)) t).
Proof.
  intros Hc Hrev Hreo. split; [|split].
  - cbn [postmerge.checks]. rewrite Forall_fmap. eapply Forall_impl; [exact Hc|]. intros c Hcw w. cbn. unfold smokeCheck.
    specialize (Hcw w). by destruct (c w).
  - intros rev [= <-] a b c n w. specialize (Hrev a b c n w). by destruct (run (revert a b c n) w).
  - intros reo [= <-] a b w. apply Hreo.
Qed.

Lemma checks_quiet {T} (f : W → T) (specs : list SmokeCheckSpec) :
  Forall (λ c : W → SmokeResult * W, ∀ w, f (c w).2 = f w) (toSchedulerChecks specs).
Proof.
  unfold toSchedulerChecks. case_bool_decide; [by repeat constructor|]. rewrite Forall_fmap. by apply Forall_true.
Qed.

(** the post-merge endpoint.  Whenever it answers, the checks table has one
    more row for the task, which is what the endpoint answered, also when the
    sentinel erred.  Where the policy has no post-merge check the answer is
    SKIPPED and nothing outside the database was touched; a revert is reported
    only when the policy reverts by itself, and never together with an error;
    an error is an alert. *)
Theorem RunPostMerge_recorded taskID sha base n specs (v v' : W) r err :
  run (RunPostMerge_ rec wm errorText taskID sha base n specs) v = (Ok (r, err), v') →
  ∃ c, resolvesTo taskID v c ∧
    let pm := policy.PostMerge (policy.Resolved_Pipeline (Resolved c)) in
    (∃ id at_, ListPostMergeChecks taskID v' = ListPostMergeChecks taskID v ++
       [memory.mkPostMergeCheckRow id taskID (Rec_CommitSHA r) (Rec_BaseBranch r) (Rec_Decision r) (Rec_AllPassed r)
          (Rec_Reverted r) (Rec_RevertSHA r) at_]) ∧
    (policy.PostMerge_Enabled pm = false → Rec_Decision r = "SKIPPED" ∧ err = None ∧ ext (world v') = ext (world v)) ∧
    (Rec_Reverted r = true → policy.PostMerge_Enabled pm = true ∧ policy.PostMerge_AutoRevert pm = true ∧ err = None) ∧
    (is_Some err → Rec_Decision r = "ALERT_ONLY" ∧ Rec_Reverted r = false).
Proof.
  unfold RunPostMerge_, RunPostMerge. rewrite run_bind. cbn [Resolve svc].
  destruct (run (Resolve_ _) v) as [[c|e] v0] eqn:Hr; apply run_Resolve in Hr as [-> Hc]; [|done].
  rewrite run_bind. cbn [run read atomic]. rewrite run_bind. cbn [run atomic].
  pose proof (quiet_sentinel tables (toSchedulerChecks specs) (Revert wm) (Reopen svc)
    (λ r, match r with Ok a => Ok a | Err e => Err (errText svc e) end) (sched_now svc v) (checks_quiet tables specs)
    (keeps_Revert wm) (keeps_Reopen rec wm errorText)) as Hq.
  set (sentinel := postmerge.mkSentinel _ _ _ _) in *. clearbody sentinel.
  set (out0 := postmerge.mkMergeOutcome taskID _ _ _ _). set (out := postmerge.mkMergeOutcome (postmerge.TaskID out0) _ _ _ _).
  pose proof (Run_quiet tables sentinel (Resolved c) out v Hq) as Ht.
  pose proof (Run_task sentinel (Resolved c) out v) as Hid.
  destruct (postmerge.Run sentinel (Resolved c) out v) as [[res err0] v1] eqn:HR. cbn [fst snd] in Ht, Hid.
  apply postmerge.Run_revert_discipline in HR as (Hoff & Hon & Hdec & Hrev & Herr & _).
  rewrite run_bind. cbn [RecordPostMerge svc]. rewrite run_ignore, run_record_pm. cbn [snd].
  rewrite run_bind. set (v2 := withChecks _ v1).
  match goal with |- context [run (auditf svc ?a ?b ?p) v2] => destruct (run_auditf a b p v2) as (v3 & -> & Ht3 & _ & Hx3) end.
  intros [[= <- <-] <-]%pair_equal_spec. exists c. split; [done|]. cbv zeta.
  cbn [toRecord Rec_TaskID Rec_CommitSHA Rec_BaseBranch Rec_Decision Rec_AllPassed Rec_Reverted Rec_RevertSHA Rec_OccurredAt].
  split; [|split; [|split]].
  - eexists _, _. unfold ListPostMergeChecks. rewrite Ht3. unfold v2. cbn [tables withChecks checks withTables].
    unfold memory.ListPostMergeChecks, memory.RecordPostMergeCheck. rewrite List.filter_app, Ht. f_equal.
    cbn [List.filter rowOf toRecord memory.PM_TaskID Rec_TaskID]. rewrite Hid. unfold out, out0. cbn [postmerge.TaskID].
    rewrite bool_decide_true by done. reflexivity.
  - intros Hd. destruct (Hoff Hd) as (Hd' & _ & -> & ->). rewrite Hd'. split; [done|]. split; [done|]. by rewrite Hx3.
  - intros Hr. destruct (Hrev Hr) as (Ha & _ & _ & ->). split; [|done]. apply not_false_iff_true. intros Hd.
    destruct (Hoff Hd) as (Hd' & _). apply Hdec in Hr. congruence.
  - intros He. specialize (Herr He). rewrite Herr. split; [done|]. apply not_true_iff_false. intros Hr. apply Hdec in Hr. congruence.
Qed.
End recorded.

(** * The rules a context pack carries *)

Lemma toCategory_String s : memory.Category_String (memory.toCategory s) = s.
Proof. unfold memory.toCategory, memory.categories. cbn [List.find]. repeat (case_bool_decide; [done|]). done. Qed.
Lemma toCategory_valid s : memory.Category_IsValid (memory.toCategory s) = bool_decide (s ∈ memory.Category_String <$> memory.categories).
Proof.
  destruct (decide (s ∈ memory.Category_String <$> memory.categories)) as [Hs|Hs].
  - rewrite bool_decide_true by done. cbn in Hs. rewrite !elem_of_cons in Hs.
    destruct_or!; [by subst..|by apply elem_of_nil in Hs].
  - rewrite bool_decide_false by done. unfold memory.toCategory.
    assert (List.find (λ c, bool_decide (memory.Category_String c = s)) memory.categories = None) as ->; [|done].
    destruct (List.find _ _) as [c|] eqn:Hf; [|done]. apply find_some in Hf as [Hin <-%bool_decide_eq_true].
    exfalso. apply Hs, list_elem_of_fmap_2. by apply list_elem_of_In.
Qed.
Lemma toConfidence_high s : memory.toConfidence s = memory.ConfidenceHigh ↔ s = "high".
Proof.
  unfold memory.toConfidence. cbn [List.find]. split; [|by intros ->].
  repeat (case_bool_decide; [subst; cbn; done|]). done.
Qed.

(** A row the store takes, and the record it becomes. *)
Definition validRow (r : memory.MemoryRow) : Prop :=
  Is_true (memory.Category_IsValid (memory.toCategory (memory.Row_Category r))) ∧ memory.Row_Key r ≠ "".
Definition recordIn (src : bool) (now : Time) (r : memory.MemoryRow) : memory.Record_ := memory.learned (recordOf src r) 1 now.

Lemma storeOf_spec src now rows : NoDup ((λ r, (memory.Row_Category r, memory.Row_Key r)) <$> rows) →
  memory.store_ok (storeOf src now rows) ∧
  ∀ k x, storeOf src now rows !! k = Some x ↔
    ∃ r, r ∈ rows ∧ validRow r ∧ x = recordIn src now r ∧ k = memory.keyFor (memory.toCategory (memory.Row_Category r)) (memory.Row_Key r).
Proof.
  induction rows as [|r rows IH] using rev_ind; intros Hnd.
  { unfold storeOf, memory.NewStore. cbn [foldl]. split; [apply map_Forall_empty|]. intros k x. rewrite lookup_empty. split; [done|]. intros (r & Hr & _). by apply elem_of_nil in Hr. }
  rewrite fmap_app in Hnd. apply NoDup_app in Hnd as (Hnd & Hdisj & _). destruct (IH Hnd) as [Hok Hst].
  unfold storeOf. rewrite foldl_app. cbn [foldl]. fold (storeOf src now rows). split; [by apply memory.Learn_ok|].
  intros k x. unfold memory.Learn. cbn [recordOf memory.Category_ memory.Key].
  destruct (memory.Category_IsValid (memory.toCategory (memory.Row_Category r))) eqn:Hv; cbn [negb snd].
  2: { rewrite Hst. split; [intros (r0 & ? & ?); exists r0; set_solver|]. intros (r0 & Hin & Hr0 & ?).
       apply elem_of_app in Hin as [Hin| ->%list_elem_of_singleton]; [by exists r0|]. destruct Hr0 as [H1 _]. by rewrite Hv in H1. }
  case_bool_decide as Hk; cbn [snd].
  { rewrite Hst. split; [intros (r0 & ? & ?); exists r0; set_solver|]. intros (r0 & Hin & Hr0 & ?).
    apply elem_of_app in Hin as [Hin| ->%list_elem_of_singleton]; [by exists r0|]. by destruct Hr0 as [_ ?]. }
  set (key := memory.keyFor _ _).
  assert (∀ r0, r0 ∈ rows → validRow r0 → memory.keyFor (memory.toCategory (memory.Row_Category r0)) (memory.Row_Key r0) ≠ key) as Hfresh.
  { intros r0 Hin [Hv0 _] He. apply memory.keyFor_inj in He as [Hc Hkk]; [|by apply Is_true_true|done].
    apply (f_equal memory.Category_String) in Hc. rewrite !toCategory_String in Hc.
    apply (Hdisj (memory.Row_Category r, memory.Row_Key r)); [|by apply list_elem_of_singleton].
    apply list_elem_of_fmap. exists r0. by rewrite Hc, Hkk. }
  assert (storeOf src now rows !! key = None) as Hnone.
  { apply eq_None_not_Some. intros [y Hy]. apply Hst in Hy as (r0 & Hin & Hv0 & _ & He). by apply (Hfresh r0 Hin Hv0). }
  rewrite Hnone. change (0 + 1)%Z with 1%Z. fold (recordIn src now r). destruct (decide (k = key)) as [->|Hne].
  - rewrite lookup_insert_eq. split.
    + intros [= <-]. exists r. split; [set_solver|]. split; [by split; [apply Is_true_true|]|]. by split.
    + intros (r0 & Hin & Hv0 & -> & He). apply elem_of_app in Hin as [Hin| ->%list_elem_of_singleton]; [|done].
      by destruct (Hfresh r0 Hin Hv0).
  - rewrite lookup_insert_ne by done. rewrite Hst. split; [intros (r0 & ? & ?); exists r0; set_solver|].
    intros (r0 & Hin & Hv0 & -> & He). apply elem_of_app in Hin as [Hin| ->%list_elem_of_singleton]; [by exists r0|done].
Qed.

(** The categories a pack takes its rules from. *)
Definition ruleCategories : list string := ["architecture_fact"; "design_system_rule"; "accepted_decision"].
Definition isRuleRow (r : memory.MemoryRow) : Prop :=
  memory.Row_Key r ≠ "" ∧ memory.Row_Confidence r = "high" ∧ memory.Row_Category r ∈ ruleCategories.

Lemma isRule_row src now r : validRow r → memory.isRule (recordIn src now r) = true ↔ isRuleRow r.
Proof.
  intros [Hv Hk]. unfold memory.isRule, recordIn, isRuleRow. cbn [memory.learned recordOf memory.Confidence_ memory.Category_].
  rewrite andb_true_iff, !bool_decide_eq_true, <-toConfidence_high.
  assert (memory.toCategory (memory.Row_Category r) ∈ [memory.CatArchitectureFact; memory.CatDesignSystemRule; memory.CatAcceptedDecision]
    ↔ memory.Row_Category r ∈ ruleCategories) as ->.
  { split; intros H.
    - apply (list_elem_of_fmap_2 memory.Category_String) in H. by rewrite toCategory_String in H.
    - unfold ruleCategories in H. rewrite !elem_of_cons in H. destruct_or!; [by rewrite H; vm_compute; set_solver..|by apply elem_of_nil in H]. }
  case_bool_decide as He; [|naive_solver]. rewrite He. naive_solver.
Qed.
Lemma rule_valid r : isRuleRow r → validRow r.
Proof.
  intros (Hk & _ & Hc). split; [|done]. rewrite toCategory_valid. apply bool_decide_spec.
  unfold ruleCategories in Hc. rewrite !elem_of_cons in Hc. destruct_or!; [by rewrite Hc; vm_compute; set_solver..|by apply elem_of_nil in Hc].
Qed.

Lemma Rules_exact {X} projectID (v : State X) x : memory.rows_ok (memories (tables v)) →
  x ∈ Rules_ projectID v ↔
    ∃ r, r ∈ memories (tables v) ∧ memory.Row_ProjectID r = projectID ∧ isRuleRow r ∧ x = memory.Row_Value r.
Proof.
  intros Hok. unfold Rules_, memory.HighConfidenceRules. set (now := clockOf v).
  set (rows := memory.ListMemory projectID (memories (tables v))).
  assert (∀ r, r ∈ rows ↔ r ∈ memories (tables v) ∧ memory.Row_ProjectID r = projectID) as Hin.
  { intros r. unfold rows, memory.ListMemory. rewrite sortStable_Permutation, list_elem_of_In, filter_In, <-list_elem_of_In.
    by rewrite bool_decide_eq_true. }
  assert (NoDup ((λ r, (memory.Row_Category r, memory.Row_Key r)) <$> rows)) as Hnd.
  { unfold rows, memory.ListMemory. rewrite sortStable_Permutation. unfold memory.rows_ok in Hok.
    apply NoDup_fmap_2_strong.
    - intros r r' H1 H2 [= Hc Hk]. rewrite list_elem_of_In, filter_In, <-list_elem_of_In, bool_decide_eq_true in H1, H2.
      destruct H1 as [H1 Hp1], H2 as [H2 Hp2].
      apply list_elem_of_lookup in H1 as [i Hi], H2 as [j Hj].
      assert (i = j) as ->; [|congruence].
      eapply NoDup_lookup; [exact Hok|..]; rewrite list_lookup_fmap; [by rewrite Hi|]. rewrite Hj. cbn. unfold memory.rowKey.
      by rewrite Hc, Hk, Hp1, Hp2.
    - apply NoDup_fmap_1 in Hok. by apply NoDup_ListNoDup, List.NoDup_filter, NoDup_ListNoDup. }
  destruct (storeOf_spec false now rows Hnd) as [_ Hst].
  rewrite list_elem_of_fmap. setoid_rewrite list_elem_of_In. setoid_rewrite filter_In. setoid_rewrite <-list_elem_of_In.
  unfold memory.All. setoid_rewrite sortStable_Permutation.
  setoid_rewrite list_elem_of_In. setoid_rewrite filter_In. setoid_rewrite <-list_elem_of_In.
  split.
  - intros (y & -> & [Hy _] & Hrule). apply list_elem_of_fmap in Hy as ([k y'] & -> & Hy). apply elem_of_map_to_list in Hy.
    apply Hst in Hy as (r & Hr & Hv & Heq & _). cbn [snd] in *. subst y'. apply Hin in Hr as [Hr Hp].
    exists r. split; [done|]. split; [done|]. split; [by apply (isRule_row false now)|done].
  - intros (r & Hr & Hp & Hrule & ->). pose proof (rule_valid r Hrule) as Hv. exists (recordIn false now r). split; [done|].
    split; [|by apply isRule_row]. split; [|done].
    apply list_elem_of_fmap. eexists (_, recordIn false now r). split; [done|]. apply elem_of_map_to_list. apply Hst.
    exists r. split; [by apply Hin|]. done.
Qed.

(** * Dispatch *)

(** The text has this part. *)
Definition within (part whole : string) : Prop := ∃ a b, whole = a +:+ part +:+ b.
Lemma within_refl s : within s s.
Proof. exists "", "". induction s as [|c s IH]; [done|]. exact (f_equal (String c) IH). Qed.
Lemma within_left part s t : within part s → within part (t +:+ s).
Proof. intros (a & b & ->). exists (t +:+ a), b. by rewrite append_assoc. Qed.
Lemma within_right part s t : within part s → within part (s +:+ t).
Proof. intros (a & b & ->). exists a, (b +:+ t). by rewrite !append_assoc. Qed.
Lemma within_bullets x l : x ∈ l → within (text.line ("- " +:+ x)) (repoinfo.bullets l).
Proof.
  induction 1 as [l|y l Hx IH]; unfold repoinfo.bullets; cbn [foldr]; [apply within_right, within_refl|by apply within_left].
Qed.
Lemma within_pack x p : x ∈ repoinfo.ArchitecturalRules p → within (text.line ("- " +:+ x)) (renderPack p).
Proof.
  intros Hx. unfold renderPack. do 2 apply within_left. apply within_right. unfold repoinfo.section.
  rewrite bool_decide_false by (intros He; rewrite He in Hx; by apply elem_of_nil in Hx). do 2 apply within_left.
  by apply within_bullets.
Qed.
Lemma pack_rules idx read o : repoinfo.ArchitecturalRules (repoinfo.AssemblePack idx read o) = repoinfo.Opt_ArchitecturalRules o.
Proof. unfold repoinfo.AssemblePack. by destruct (_ <? _)%Z. Qed.

Section dispatch.
  Context {X : Type} `{!External X, !runner.Agents X, !Repository X}.
  Context (rec : audit.Recorder) (wm : Manager) (errorText : Error → string).
  Abbreviation W := (State X).
  Abbreviation svc := (service rec wm errorText).

(** The pack is built from the tree at this moment and the rules learned so far. *)
Definition packText (c : ProjectContext) (v : W) : string :=
  let x := ext (world v) in
  renderPack (repoinfo.AssemblePack (repoinfo.Build (tree (scheduler.ProjectPath c) x)) (λ f, readFile (scheduler.ProjectPath c) f x)
                (packOptions (TaskDesc c) (Rules_ (scheduler.ProjectID c) v))).
Lemma packText_nonempty c v : bool_decide (packText c v = "") = false.
Proof. by apply bool_decide_eq_false. Qed.

Lemma run_prompt o c (v : W) :
  run (prompt svc o c) v =
    (Ok (if BuildContextPack o then (withPack (packText c v) (TaskDesc c), true) else (TaskDesc c, false)), v).
Proof.
  unfold prompt. cbn [BuildPack svc]. destruct (BuildContextPack o); [|done].
  unfold buildPack. rewrite !run_bind. cbn [run read atomic]. rewrite run_bind, run_catch. unfold BuildPack_. cbn [run read atomic fst snd].
  change (renderPack _) with (packText c v). cbn [run mret proc_ret]. by rewrite packText_nonempty.
Qed.

(** a fact learned with high confidence through the endpoint, as a rule of
    its project, is in the prompt of every agent that a dispatch of the project
    starts with a context pack, until the project's memory changes: packs are
    trimmed, rules never are. *)
Theorem taught_rule_reaches_agent projectID category key value (v : W) :
  memory.rows_ok (memories (tables v)) → category ∈ ruleCategories → key ≠ "" → projectID ≠ "" →
  ∃ row v1, run (LearnMemory projectID category key value "high") v = (Ok row, v1) ∧ memory.Row_Value row = value ∧
    ∀ v2 o c, memories (tables v2) = memories (tables v1) → BuildContextPack o = true → scheduler.ProjectID c = projectID →
      ∃ t, run (prompt svc o c) v2 = (Ok (t, true), v2) ∧ within (text.line ("- " +:+ value)) t ∧ within (TaskDesc c) t.
Proof.
  intros Hok Hcat Hk Hp. unfold LearnMemory, learnRow. rewrite run_bind. cbn [run read atomic]. unfold onMemory.
  rewrite run_mapErr, run_zoom; [|done|done|by intros [? [] ?]].
  assert (category ≠ "") as Hc by (intros ->; unfold ruleCategories in Hcat; rewrite !elem_of_cons in Hcat; destruct_or!; [done..|by apply elem_of_nil in Hcat]).
  destruct (memory.LearnMemory_spec (memory.mkMemoryRow 0 projectID category key value "cli" "high" "" "" "" "" 0 0) (clockOf v)
    (memories (tables v)) Hok Hp Hc Hk) as (rows' & -> & Hok' & Hin). cbn [fst snd].
  eexists _, _. split; [reflexivity|]. split; [done|]. intros v2 o c Hm Ho Hpid. exists (withPack (packText c v2) (TaskDesc c)).
  rewrite run_prompt, Ho. split; [done|]. unfold withPack, paragraph. cbn [tables withMemories withTables memories] in Hm.
  split; [|do 7 apply within_left; apply within_refl].
  apply within_right. apply within_pack. rewrite pack_rules. cbn [packOptions repoinfo.Opt_ArchitecturalRules]. rewrite Hpid.
  apply Rules_exact; [by rewrite Hm|]. rewrite Hm.
  destruct (List.find (memory.keyed _) (memories (tables v))) as [old|] eqn:Hf;
    (eexists; split; [apply Hin; right; reflexivity|]; split; [done|]; split; [by split|done]).
Qed.

(** What the loop over the events leaves: a row for each report whose statement did
    not fail, and each report twice in the accounting. *)
Definition reports (taskID projectID : string) (o : DispatchOptions) (t : Time) (events : list AgentEvent) : list quality.UsageEvent :=
  usageEvent taskID projectID o t <$> List.filter isUsage events.
Definition tokensIn (events : list AgentEvent) : Z := foldr (λ ev n, (InputTokens ev + OutputTokens ev + CacheRead ev + n)%Z) 0%Z (List.filter isUsage events).
Fixpoint stored {A} (faults : list bool) (l : list A) : list A :=
  match l with [] => [] | x :: l => (if default false (head faults) then [] else [x]) ++ stored (tail faults) l end.
Definition rowsOf (t : Tables) : list quality.UsageEvent := quality.row <$> usage t.

Lemma stored_all {A} (l : list A) : stored [] l = l.
Proof. induction l as [|x l IH]; [done|]. cbn. by rewrite IH. Qed.
Lemma stored_sublist {A} (l : list A) : ∀ faults, stored faults l `sublist_of` l.
Proof. induction l as [|x l IH]; intros faults; [done|]. cbn. destruct (default false (head faults)); cbn; by constructor. Qed.
Lemma drop_tail {A} n (l : list A) : drop n (tail l) = drop (S n) l.
Proof. destruct l; [apply drop_nil|done]. Qed.
Lemma wrap64_shift a k : text.wrap64 (a + k * 2 ^ 64) = text.wrap64 a.
Proof. unfold text.wrap64. f_equal. rewrite <-(Z.mod_add (a + _) k); [|done]. f_equal. lia. Qed.
Lemma wrap64_off a : ∃ k, text.wrap64 a = (a + k * 2 ^ 64)%Z.
Proof. exists (- ((a + 2 ^ 63) / 2 ^ 64))%Z. unfold text.wrap64. rewrite Z.mod_eq by done. lia. Qed.
Lemma wrap64_idem a : text.wrap64 (text.wrap64 a) = text.wrap64 a.
Proof. destruct (wrap64_off a) as [k Hk]. rewrite Hk at 1. apply wrap64_shift. Qed.
Lemma wrap64_add a b : text.wrap64 (a + text.wrap64 b) = text.wrap64 (a + b).
Proof. destruct (wrap64_off b) as [k ->]. by rewrite Z.add_assoc, wrap64_shift. Qed.

Lemma withTime_same e t : quality.OccurredAt e = t → quality.withTime t e = e.
Proof. intros <-. destruct e as [? ? ? ? ? ? ? ? ? ? t']. unfold quality.withTime. cbn. by destruct (time.IsZero t'). Qed.

(** One statement of the usage sink. *)
Lemma run_RecordUsage u (v : W) : quality.OccurredAt u = clockOf v → ∃ v',
  (run (RecordUsage_ u) v).2 = v' ∧ world v' = world v ∧ memories (tables v') = memories (tables v) ∧ checks (tables v') = checks (tables v) ∧
  outcomes (tables v') = outcomes (tables v) ∧ faults v' = tail (faults v) ∧
  rowsOf (tables v') = rowsOf (tables v) ++ stored (faults v) [u] ∧ accounts (tables v') = accounts (tables v) ++ [u].
Proof.
  intros Hu. eexists. split; [reflexivity|]. unfold RecordUsage_, statement. rewrite run_bind. cbn [run atomic]. rewrite run_bind.
  cbn [run atomic fst snd]. change (faults (account u v)) with (faults v).
  assert (accounts (tables (account u v)) = accounts (tables v) ++ [u]) as Ha
    by (unfold account, quality.Accounting_Record; cbn; by rewrite withTime_same).
  cbn [stored]. destruct (default false (head (faults v))); cbn [run fst snd].
  - by rewrite !app_nil_r.
  - do 5 (split; [done|]). split; [|exact Ha]. unfold rowsOf, quality.RecordUsageEvent. cbn. by rewrite fmap_app, withTime_same by exact Hu.
Qed.
Lemma run_recordEvents taskID projectID o events : ∀ n tokens (v : W), tokens = text.wrap64 tokens → ∃ v',
  run (recordEvents svc taskID projectID o events n tokens) v =
    (Ok (n + Z.of_nat (length (List.filter isUsage events)), text.wrap64 (tokens + tokensIn events))%Z, v') ∧
  world v' = world v ∧ memories (tables v') = memories (tables v) ∧ checks (tables v') = checks (tables v) ∧
  outcomes (tables v') = outcomes (tables v) ∧ faults v' = drop (length (List.filter isUsage events)) (faults v) ∧
  rowsOf (tables v') = rowsOf (tables v) ++ stored (faults v) (reports taskID projectID o (clockOf v) events) ∧
  accounts (tables v') = accounts (tables v) ++ mjoin ((λ u, [u; u]) <$> reports taskID projectID o (clockOf v) events).
Proof.
  induction events as [|ev events IH]; intros n tokens v Ht.
  { exists v. unfold reports, tokensIn. cbn. rewrite !app_nil_r, !Z.add_0_r, <-Ht. done. }
  unfold reports, tokensIn. cbn [recordEvents List.filter]. destruct (isUsage ev) eqn:E; cbn [negb]; [|by apply IH].
  rewrite run_bind. cbn [run read atomic sched_now svc]. rewrite run_bind, run_ignore. cbn [RecordUsage svc].
  set (u := usageEvent taskID projectID o (clockOf v) ev). assert (quality.OccurredAt u = clockOf v) as Hu by done.
  destruct (run_RecordUsage u v Hu) as (v1 & Hv1 & Hw1 & Hm1 & Hc1 & Ho1 & Hf1 & Hr1 & Ha1). rewrite Hv1.
  rewrite run_bind. cbn [run atomic accounting svc fst snd].
  destruct (IH (n + 1)%Z (text.wrap64 (tokens + tokensOf ev)) (account u v1)) as (v' & -> & Hw & Hm & Hc & Ho & Hf & Hr & Ha).
  { by rewrite wrap64_idem. }
  assert (clockOf (account u v1) = clockOf v) as Hclock by (unfold clockOf, account; cbn; by rewrite Hw1).
  assert (accounts (tables (account u v1)) = accounts (tables v1) ++ [u]) as Hacc
    by (unfold account, quality.Accounting_Record; cbn; by rewrite withTime_same; [|rewrite Hu; unfold clockOf; by rewrite Hw1]).
  exists v'. split.
  { cbn [length foldr]. rewrite Nat2Z.inj_succ. do 2 f_equal. f_equal; [lia|]. fold (tokensIn events). rewrite Z.add_comm, wrap64_add.
    unfold tokensOf. rewrite Z.add_assoc, wrap64_add. f_equal. lia. }
  rewrite Hw, Hm, Hc, Ho, Hf, Hr, Ha, Hclock, Hacc, Ha1. cbn [length fmap list_fmap mjoin list_join].
  change (world (account u v1)) with (world v1). change (memories (tables (account u v1))) with (memories (tables v1)).
  change (checks (tables (account u v1))) with (checks (tables v1)). change (outcomes (tables (account u v1))) with (outcomes (tables v1)).
  change (faults (account u v1)) with (faults v1). change (rowsOf (tables (account u v1))) with (rowsOf (tables v1)).
  rewrite Hf1, Hr1, drop_tail. do 5 (split; [done|]). split; [|by rewrite <-!app_assoc].
  rewrite <-app_assoc. cbn [stored]. by rewrite app_nil_r.
Qed.

(** What a supervised run comes to. *)
Definition outcomeOf (r : result string runner.SupervisorResult) : string :=
  match r with
  | Err _ => "failed"
  | Ok x => if runner.Failed x then "failed" else if runner.Cancelled x then "cancelled" else "completed"
  end.
Definition eventsOf (r : result string runner.SupervisorResult) : list AgentEvent :=
  match r with Ok x => toAgentEvents (runner.Events x) | Err _ => [] end.
Lemma run_RunAgent wsID path engine model t timeout (v : W) r w1 :
  runner.supervise (runner.mkSupervisorRequest wsID engine model t timeout) path (world v) = (r, w1) →
  ∃ err, RunAgent_ wsID path engine model t timeout v = ((outcomeOf r, eventsOf r, err), withWorld w1 v).
Proof. intros Hs. unfold RunAgent_. rewrite Hs. by destruct r; eexists. Qed.

(** Learning changes the memory rows only, and nothing when its statement fails. *)
Lemma run_Learn projectID category key value (v : W) : ∃ r v',
  run (Learn_ projectID category key value "medium") v = (r, v') ∧ world v' = world v ∧ rowsOf (tables v') = rowsOf (tables v) ∧
  outcomes (tables v') = outcomes (tables v) ∧ checks (tables v') = checks (tables v) ∧ accounts (tables v') = accounts (tables v) ∧
  (head (faults v) = Some true → is_ok r = false ∧ memories (tables v') = memories (tables v)) ∧
  (head (faults v) ≠ Some true → memory.rows_ok (memories (tables v)) → projectID ≠ "" → category ≠ "" → key ≠ "" → is_ok r = true ∧
     ∃ row, row ∈ memories (tables v') ∧ memory.Row_ProjectID row = projectID ∧ memory.Row_Key row = key ∧ memory.Row_Value row = value).
Proof.
  unfold Learn_, statement. rewrite !run_bind. cbn [run atomic fst snd]. destruct (head (faults v)) as [[]|] eqn:Hf; cbn [default option_rect].
  { eexists _, _. split; [reflexivity|]. by repeat split. }
  all: unfold id, learnRow; rewrite run_bind; cbn [run read atomic fst snd]; unfold onMemory; rewrite run_mapErr, run_zoom; [|done|done|by intros [? [] ?]].
  all: set (row0 := memory.mkMemoryRow 0 projectID category key value "scheduler" "medium" "" "" "" "" 0 0); cbn [tables];
    change (clockOf _) with (clockOf v);
    destruct (run (memory.LearnMemory row0 (clockOf v)) (memories (tables v))) as [r rows'] eqn:Hl; cbn [fst snd];
    eexists (match r with Ok _ => Ok () | Err e => Err (ErrMemory e) end), _; split; [by destruct r|]; do 5 (split; [done|]); split; [done|];
    intros _ Hok Hp Hc Hk; destruct (memory.LearnMemory_spec row0 (clockOf v) (memories (tables v)) Hok Hp Hc Hk) as (rows1 & Hl1 & _ & Hin);
    rewrite Hl1 in Hl; apply pair_equal_spec in Hl as [<- <-]; split; [done|]; cbn [tables withMemories withTables memories];
    destruct (List.find _ (memories (tables v))) as [old|]; (eexists; split; [apply Hin; right; reflexivity|]; by repeat split).
Qed.

(** C36: a dispatch that answers resolved the task, ran one agent in a workspace
    of its own, and accounted for the run, even when the statements of its sinks fail
    on a request that is over.  Every usage report of the agent, in the name of the
    task, its project and the engine, is counted, its tokens are added to the answer
    in a 64-bit integer, and it is in the accounting twice; those whose statement did
    not fail, and no others, are new rows, in order.  There is one task outcome.  For a
    project with an id the answer says whether a memory fact was learned: it was unless
    its statement failed, and then it names the outcome; a fact that was not learned
    left the memory as it was.  No other row changes. *)
Theorem Dispatch_accounts taskID o (v v' : W) res :
  run (DispatchTask rec wm errorText taskID o) v = (Ok res, v') → memory.rows_ok (memories (tables v)) →
  ∃ c path t w0 r w1,
    resolvesTo taskID v c ∧
    runner.supervise (runner.mkSupervisorRequest (Res_WorkspaceID res) (scheduler.Engine (defaulted o)) (scheduler.Model o) t (scheduler.Timeout (defaulted o)))
      path w0 = (r, w1) ∧
    let used := reports taskID (scheduler.ProjectID c) (defaulted o) (clock w1) (eventsOf r) in
    Outcome res = outcomeOf r ∧
    UsageEvents res = Z.of_nat (length used) ∧ EstimatedTokens res = text.wrap64 (tokensIn (eventsOf r)) ∧
    rowsOf (tables v') = rowsOf (tables v) ++ stored (faults v) used ∧
    accounts (tables v') = accounts (tables v) ++ mjoin ((λ u, [u; u]) <$> used) ∧
    (∃ at_, outcomes (tables v') = quality.Statistics_Record (taskOutcome taskID (scheduler.ProjectID c) (defaulted o) (Outcome res)) at_
                                     (outcomes (tables v))) ∧
    checks (tables v') = checks (tables v) ∧
    (faults v !! length used = Some true → MemoryLearned res = false ∧ memories (tables v') = memories (tables v)) ∧
    (faults v !! length used ≠ Some true → scheduler.ProjectID c ≠ "" → MemoryLearned res = true ∧
       ∃ row, row ∈ memories (tables v') ∧ memory.Row_ProjectID row = scheduler.ProjectID c ∧
         memory.Row_Key row = "dispatch-" +:+ taskID ∧ memory.Row_Value row = memoryValue taskID (defaulted o) (Outcome res)).
Proof.
  intros Hrun Hok. unfold DispatchTask, Dispatch in Hrun. rewrite run_bind in Hrun. cbn [Resolve svc] in Hrun.
  destruct (run (Resolve_ taskID) v) as [[c|e] v0] eqn:Hr; apply run_Resolve in Hr as [-> Hc]; [|done].
  rewrite run_bind in Hrun. cbn [CreateAttempt svc] in Hrun.
  pose proof (keeps_CreateAttempt wm taskID (scheduler.WorkPackageID (defaulted o)) (scheduler.BaseBranch (defaulted o)) v) as Hk.
  destruct (run (CreateAttempt_ _ _ _ _) v) as [[[wsID path]|e] v1]; [|done]. cbn [snd] in Hk. injection Hk as Hk Hkf.
  rewrite run_bind in Hrun.
  match type of Hrun with context [run (auditf svc ?a ?b ?p) v1] => destruct (run_auditf rec wm errorText a b p v1) as (v2 & H2 & Ht2 & Hf2 & _) end.
  rewrite H2, run_bind, run_prompt in Hrun. clear H2.
  destruct (if scheduler.BuildContextPack (defaulted o) then _ else _) as [t packed].
  rewrite run_bind in Hrun.
  destruct (runner.supervise (runner.mkSupervisorRequest wsID (scheduler.Engine (defaulted o)) (scheduler.Model (defaulted o)) t
    (scheduler.Timeout (defaulted o))) path (world v2)) as [r w1] eqn:Hs. destruct (run_RunAgent _ _ _ _ _ _ v2 r w1 Hs) as [err He].
  cbn [run atomic RunAgent svc] in Hrun. rewrite He in Hrun. clear He. rewrite run_bind in Hrun.
  destruct (run_recordEvents taskID (scheduler.ProjectID c) (defaulted o) (eventsOf r) 0%Z 0%Z (withWorld w1 v2) eq_refl)
    as (v3 & H3 & Hw3 & Hm3 & Hc3 & Ho3 & Hf3 & Hr3 & Ha3).
  rewrite H3 in Hrun. clear H3. rewrite run_bind in Hrun. cbn [run atomic statistics svc] in Hrun.
  rewrite run_bind, run_catch in Hrun. cbn [fst snd Learn svc] in Hrun. set (v4 := withOutcomes _ v3) in *.
  destruct (run_Learn (scheduler.ProjectID c) "accepted_decision" ("dispatch-" +:+ taskID) (memoryValue taskID (defaulted o) (outcomeOf r)) v4)
    as (rl & v5 & Hl & _ & Hr5 & Ho5 & Hc5 & Ha5 & Hbad & Hgood).
  rewrite Hl, run_bind in Hrun. cbn [fst snd] in Hrun.
  match type of Hrun with context [run (auditf svc ?a ?b ?p) v5] => destruct (run_auditf rec wm errorText a b p v5) as (v6 & H6 & Ht6 & _ & _) end.
  rewrite H6 in Hrun. clear H6. cbn [run mret proc_ret] in Hrun. apply pair_equal_spec in Hrun as [[= <-] <-].
  exists c, path, t, (world v2), r, w1. split; [done|]. split; [exact Hs|]. cbv zeta. split; [done|].
  assert (tables v2 = tables v) as Hv2 by congruence. change (tables (withWorld w1 v2)) with (tables v2) in *. rewrite Hv2 in *.
  change (faults (withWorld w1 v2)) with (faults v2) in *. assert (faults v2 = faults v) as Hfv by congruence. rewrite Hfv in *.
  change (faults v4) with (faults v3) in *. change (rowsOf (tables v4)) with (rowsOf (tables v3)) in *.
  change (memories (tables v4)) with (memories (tables v3)) in *. change (checks (tables v4)) with (checks (tables v3)) in *.
  change (accounts (tables v4)) with (accounts (tables v3)) in *.
  assert (length (reports taskID (scheduler.ProjectID c) (defaulted o) (clock w1) (eventsOf r)) = length (List.filter isUsage (eventsOf r))) as Hlen
    by apply length_fmap.
  assert (head (faults v3) = faults v !! length (List.filter isUsage (eventsOf r))) as Hhd by (by rewrite Hf3, head_lookup, lookup_drop, Nat.add_0_r).
  rewrite Ht6, Hr5, Ho5, Hc5, Ha5, Hlen, <-Hhd. change (outcomes (tables v4)) with
    (quality.Statistics_Record (taskOutcome taskID (scheduler.ProjectID c) (defaulted o) (outcomeOf r)) (clockOf v3) (outcomes (tables v3))).
  rewrite Hr3, Hc3, Ho3, Ha3. do 4 (split; [done|]). split; [by eexists|]. split; [done|]. split.
  - intros Hcut. destruct (Hbad Hcut) as [-> ->]. by rewrite Hm3.
  - intros Hcut Hp. apply Hgood; [done|by rewrite Hm3|done..].
Qed.
End dispatch.

(** * A small daemon *)

Import (hints) runner.

#[export] Instance sandboxRepository : Repository runner.Sandbox := {|
  tree _ _ := repoinfo.demoRoot; readFile _ f _ := repoinfo.demoRead f |}.
Definition demoRec : audit.Recorder := audit.mkRecorder (λ _, true) 2.
Definition demoText (e : Error) : string := "error".
Definition emptyTables : Tables := mkTables [] [] [] [] [].
Definition demoState (profile : string) (st : backlog.State) : State runner.Sandbox :=
  mkState (mkWorld (mkDB (backlog.mkDB [backlog.mkProject "p" "Demo" "/repo" "" project.StateIdle profile 1 1]
                            [backlog.mkTask "p-1" "p" "Fix" "B" "NORMAL" st 1 1] [] ∅ []) [] [] 1 [])
             (runner.mkSandbox ∅ "c0" ∅ true []) 2) emptyTables [].
Abbreviation demo := (demoState "AUTONOMOUS" backlog.StateIngested) (only parsing).
Definition demoOptions : DispatchOptions := mkDispatchOptions "opencode" "m" "" "" 0 true.
Definition dispatched : result Error DispatchResult * State runner.Sandbox :=
  run (DispatchTask demoRec demoManager demoText "p-1" demoOptions) demo.

Example Dispatch_reports :
  match dispatched.1 with
  | Ok res => Outcome res = "completed" ∧ UsageEvents res = 1%Z ∧ EstimatedTokens res = 35%Z ∧ ContextPackBuilt res = true ∧
              MemoryLearned res = true
  | Err _ => False
  end.
Proof. vm_compute. by repeat split. Qed.

(** A client that hangs up: the report is counted and accounted for, and no row and no
    fact is there. *)
Example Dispatch_client_gone :
  let d := run (DispatchTask demoRec demoManager demoText "p-1" demoOptions) (mkState (world demo) emptyTables [true; true]) in
  match d.1 with Ok res => (UsageEvents res, MemoryLearned res) = (1%Z, false) | Err _ => False end ∧
  usage (tables d.2) = [] ∧ memories (tables d.2) = [] ∧ length (accounts (tables d.2)) = 2.
Proof. vm_compute. by repeat split. Qed.

Lemma Dispatch_accounts_witness :
  ∃ res v', dispatched = (Ok res, v') ∧ checks (tables v') = [] ∧ UsageEvents res = 1%Z.
Proof.
  destruct dispatched as [[res|e] v'] eqn:E; [|by vm_compute in E]. exists res, v'. split; [done|].
  destruct (Dispatch_accounts demoRec demoManager demoText "p-1" demoOptions demo v' res E ltac:(constructor))
    as (c & path & t & w0 & r & w1 & Hc & Hs & H). cbv zeta in H. destruct H as (_ & _ & _ & _ & _ & _ & Hk & _).
  split; [exact Hk|]. vm_compute in E. by injection E as <- <-.
Defined.

Lemma RunPostMerge_recorded_witness :
  ∃ r v', run (RunPostMerge_ demoRec demoManager demoText "p-1" "c1" "" 1 [mkSmokeCheckSpec "build" "error" ""]) demo
            = (Ok (r, None), v') ∧
    Rec_Decision r = "ALERT_ONLY" ∧ length (ListPostMergeChecks "p-1" v') = 1.
Proof.
  destruct (run (RunPostMerge_ demoRec demoManager demoText "p-1" "c1" "" 1 [mkSmokeCheckSpec "build" "error" ""]) demo)
    as [[[r err]|e] v'] eqn:E; [|by vm_compute in E].
  destruct (RunPostMerge_recorded demoRec demoManager demoText "p-1" "c1" "" 1 _ demo v' r err E) as (c & _ & (id & at_ & H) & _).
  assert (err = None ∧ Rec_Decision r = "ALERT_ONLY") as [-> Hd] by (vm_compute in E; by injection E as <- <- <-).
  exists r, v'. split; [done|]. split; [done|]. rewrite H. reflexivity.
Defined.

Lemma taught_rule_reaches_agent_witness :
  ∃ v1 t, (run (LearnMemory "p" "architecture_fact" "layers" "No imports upward." "high") demo).2 = v1 ∧
    run (prompt (service demoRec demoManager demoText) demoOptions
           (mkProjectContext "p" "/repo" "p-1" "Fix: B" policy.ProfileAutonomous postmerge.autonomousPolicy)) v1 = (Ok (t, true), v1) ∧
    within "- No imports upward.
" t.
Proof.
  destruct (taught_rule_reaches_agent demoRec demoManager demoText "p" "architecture_fact" "layers" "No imports upward." demo)
    as (row & v1 & Hr & _ & H); [constructor|vm_compute; set_solver|done|done|].
  destruct (H v1 demoOptions (mkProjectContext "p" "/repo" "p-1" "Fix: B" policy.ProfileAutonomous postmerge.autonomousPolicy))
    as (t & Ht & Hw & _); [done|done|done|].
  exists v1, t. split; [by rewrite Hr|]. by split.
Defined.

(** * Where the scheduler does less than it says *)

(** The daemon's sink feeds the accounting, and the scheduler feeds the same
    accounting: the totals of the dashboard are twice what was used, and differ
    from those of the rows. *)
Lemma usage_counted_twice :
  let v := dispatched.2 in
  CodingInput (ListUsage "p" v) = 10%Z ∧ (QualityStats v).2 = mkUsageTotalsDTO "" 20 10 40 0 2%float 2.
Proof. vm_compute. by split. Qed.

(** A dispatch runs the agent and leaves the task as it was and the workspace
    active: nothing finalizes the attempt. *)
Lemma dispatch_settles_nothing :
  let w := world dispatched.2 in
  backlog.Task_State <$> backlog.tasks (base (db w)) = [backlog.StateIngested] ∧ State_ <$> workspaces (db w) = [StateActive].
Proof. vm_compute. by split. Qed.

(** The reverter makes a worktree of the base branch, checkpoints it, though
    nothing in it has changed, and deletes it: there is no revert, and the answer
    is that the merge was reverted by the commit the branch was at. *)
Lemma revert_reverts_nothing :
  let '(r, v') := run (RunPostMerge_ demoRec demoManager demoText "p-1" "c1" "" 1 [mkSmokeCheckSpec "build" "failed" ""]) demo in
  match r with Ok (rec, None) => Rec_Decision rec = "REVERT" ∧ Rec_Reverted rec = true ∧ Rec_RevertSHA rec = "c0" | _ => False end ∧
  ext (world v') = ext (world demo).
Proof. vm_compute. by repeat split. Qed.

(** Reopening a completed task records that it was reopened; the task stays
    completed. *)
Lemma reopen_keeps_completed :
  let '(r, v') := run (ReopenTask demoRec demoManager demoText "p-1" "regressed") (demoState "AUTONOMOUS" backlog.StateCompleted) in
  r = Ok () ∧ backlog.Task_State <$> backlog.tasks (base (db (world v'))) = [backlog.StateCompleted] ∧
  audit.AuditEvent_Type <$> backlog.trail (base (db (world v'))) = ["task.reopen"; "scheduler.task_reopened"].
Proof. vm_compute. by repeat split. Qed.

(** The usage endpoint adds the tokens of images to those of coding... *)
Definition imageRow : quality.UsageEventRow :=
  quality.mkUsageEventRow 1 (quality.mkUsageEvent "t" "p" "img" "m" quality.UsageImage 7 0 3 2 0%float 1).
Lemma image_tokens_count_as_coding :
  let u := ListUsage "p" (withUsage [imageRow] demo) in
  CodingInput u = 7%Z ∧ quality.CodingInput (quality.Snapshot [quality.row imageRow]) = 0%Z.
Proof. vm_compute. by split. Qed.

(** ...and, for want of a limit, the oldest ten thousand events only. *)
Lemma usage_stops_at_limit {X} projectID (v : State X) : (EventCount (ListUsage projectID v) ≤ 10000)%Z.
Proof.
  assert (∀ l t, EventCount (foldl addRow t l) = EventCount t) as Hf by (induction l; intros t; [done|]; cbn; by rewrite IHl).
  unfold ListUsage. rewrite Hf. cbn [EventCount]. unfold quality.ListUsageEvents. rewrite length_fmap, length_take.
  cbn [quality.Limit]. change (if (0 <=? 0)%Z then _ else _) with 10000%Z. lia.
Qed.
End scheduler.
