(* ===== verification/Enggate.v ===== *)
(** * Enggate: the engineering-baseline gate

    Models [internal/enggate/enggate.go]: the lifecycle of an engineering task,
    whose transitions are validated against an evidence manifest, and the gate
    that starts a successor task.  [LoadManifest], which reads a file, is left
    out. *)
From S2P Require Import Prelude.

Module enggate.

Definition SchemaVersion : Z := 1.
Definition BaselineVersion : string := "1".
Definition ActiveBaselinePath : string := "docs/engineering/ENGINEERING_BASELINE.md".
Definition ActiveVersions : Z * string * string := (SchemaVersion, BaselineVersion, ActiveBaselinePath).

(** States, levels and statuses are Go string types. *)
Abbreviation State := string (only parsing).
Definition StateStarted : State := "STARTED".
Definition StateImplementedTested : State := "IMPLEMENTED_TESTED".
Definition StateChangesRequested : State := "CHANGES_REQUESTED".
Definition StateReviewApproved : State := "REVIEW_APPROVED".
Definition StateAccepted : State := "ACCEPTED".
Definition StateBlocked : State := "BLOCKED".
Definition StateFailed : State := "FAILED".
Definition StateRejected : State := "REJECTED".
Definition StateAcceptanceFailed : State := "ACCEPTANCE_FAILED".

Definition LevelUnit : string := "unit".
Definition LevelIntegration : string := "integration".
Definition LevelBlackBox : string := "blackbox".
Definition LevelLive : string := "live".
Definition eligible (l : string) : bool := bool_decide (l ∈ [LevelUnit; LevelIntegration; LevelBlackBox]).

Definition StatusPassed : string := "passed".
Definition StatusFailed : string := "failed".

Record Criterion := mkCriterion { Criterion_ID : string; Criterion_Description : string; Mandatory : bool }.
Record Evidence := mkEvidence {
  Evidence_Criterion : string;
  Level : string;
  Reference : string;
  Evidence_Status : string;
  Automated : bool }.
Record CommandResult := mkCommandResult { Label : string; Command_Status : string }.
Record Actors := mkActors { Implementer : string; Reviewer : string; Acceptor : string }.
Record BlackBox := mkBlackBox {
  CompiledBinary : string;
  Scenario : string;
  BlackBox_Status : string;
  Exempt : bool;
  ExemptReason : string }.
Record Reports := mkReports { Implementation : string; Review : string; Acceptance : string }.
Record Manifest := mkManifest {
  Manifest_SchemaVersion : Z;
  Manifest_BaselineVersion : string;
  TaskID : string;
  PredecessorTaskID : string;
  PreviousState : State;
  Manifest_State : State;
  Criteria : list Criterion;
  Evidence_ : list Evidence;
  Commands : list CommandResult;
  Actors_ : Actors;
  Reports_ : Reports;
  BlackBox_ : BlackBox;
  RemediationNote : string }.

(** A plain error, or the accumulated violations of a transition. *)
Record ValidationError := mkValidationError { Error_TaskID : string; From : State; To : State; Reasons : list string }.
Inductive Error := Plain (text : string) | Invalid (e : ValidationError).
(** The header is never blank, so the other header is dead code. *)
Definition ValidationError_Error (e : ValidationError) : string :=
  "enggate: transition " +:+ From e +:+ " -> " +:+ To e +:+ " rejected for task " +:+ strs.q (Error_TaskID e)
  +:+ ":" +:+ String strs.nl "  - " +:+ strs.Join (Reasons e) (String strs.nl "  - ").
Definition Error_text (e : Error) : string := match e with Plain t => t | Invalid e => ValidationError_Error e end.

Definition blank (s : string) : bool := bool_decide (strs.TrimSpace s = "").
(** One reason, when a check fails. *)
Definition unless (ok : bool) (reason : string) : list string := if ok then [] else [reason].

Definition legalTransition (from to : State) : bool :=
  let after l := bool_decide (from ∈ l) in
  if bool_decide (to = StateStarted) then after [""; StateStarted]
  else if bool_decide (to = StateImplementedTested) then after [StateStarted; StateChangesRequested]
  else if bool_decide (to = StateChangesRequested) then after [StateImplementedTested]
  else if bool_decide (to = StateReviewApproved) then after [StateImplementedTested]
  else if bool_decide (to = StateAccepted) then after [StateReviewApproved]
  else if bool_decide (to ∈ [StateBlocked; StateFailed]) then after [StateStarted; StateImplementedTested]
  else if bool_decide (to = StateRejected) then after [StateImplementedTested; StateReviewApproved]
  else if bool_decide (to = StateAcceptanceFailed) then after [StateReviewApproved]
  else false.

Definition hasPassingEligible (m : Manifest) (criterion : string) : bool :=
  existsb (λ e, bool_decide (Evidence_Criterion e = criterion) && bool_decide (Evidence_Status e = StatusPassed)
                && Automated e && eligible (Level e)) (Evidence_ m).
Definition hasLevel (m : Manifest) (status level : string) : bool :=
  existsb (λ e, bool_decide (Evidence_Status e = status) && bool_decide (Level e = level)) (Evidence_ m).
Definition hasBlackBoxEvidence (m : Manifest) (status : string) : bool :=
  existsb (λ e, bool_decide (Level e = LevelBlackBox) && bool_decide (Evidence_Status e = status) && Automated e) (Evidence_ m).
Definition commandPassed (m : Manifest) (label : string) : bool :=
  existsb (λ c, bool_decide (Label c = label) && bool_decide (Command_Status c = StatusPassed)) (Commands m).

(** The mandatory criteria without passing evidence, as reasons. *)
Definition unproven (m : Manifest) (why : string) : list string :=
  (λ c, "mandatory criterion " +:+ strs.q (Criterion_ID c) +:+ why)
  <$> List.filter (λ c, Mandatory c && negb (hasPassingEligible m (Criterion_ID c))) (Criteria m).

Inductive role := roleReviewer | roleAcceptor.
Definition checkActorSeparation (a : Actors) (r : role) : list string :=
  let same x y := negb (bool_decide (x = "")) && bool_decide (x = y) in
  match r with
  | roleReviewer =>
      unless (negb (blank (Reviewer a))) "actors.reviewer is empty (independent review required)"
      ++ unless (negb (same (Reviewer a) (Implementer a)))
           "actors.reviewer == actors.implementer (self-review is forbidden — baseline §6)"
  | roleAcceptor =>
      unless (negb (blank (Acceptor a))) "actors.acceptor is empty (independent acceptance required)"
      ++ unless (negb (same (Acceptor a) (Implementer a)))
           "actors.acceptor == actors.implementer (self-acceptance is forbidden — baseline §6)"
      ++ unless (negb (same (Acceptor a) (Reviewer a)))
           "actors.acceptor == actors.reviewer (acceptor must differ from reviewer)"
  end.

Definition checkImplemented (m : Manifest) : list string :=
  unproven m " has no passing automated unit/integration/blackbox evidence (live is not eligible)"
  ++ unless (existsb (λ e, bool_decide (Level e = LevelUnit) && bool_decide (Evidence_Status e = StatusPassed)) (Evidence_ m))
       "no passing unit-level evidence present (a unit test is always required)"
  ++ (if Exempt (BlackBox_ m) then
        unless (negb (blank (ExemptReason (BlackBox_ m)))) "blackbox.exempt=true but exempt_reason is empty"
        ++ unless (hasLevel m StatusPassed LevelIntegration)
             "blackbox exemption requires at least one passing integration-level evidence covering the wiring"
      else unless (hasBlackBoxEvidence m StatusPassed)
             "no passing blackbox-level evidence present (production wiring is unproven — baseline rule 8)")
  ++ unless (commandPassed m "make check") ("command " +:+ strs.q "make check" +:+ " is not recorded as passed").

Definition checkReview (from : State) (m : Manifest) : list string :=
  unless (bool_decide (from = StateImplementedTested))
    ("REVIEW_APPROVED requires previous_state IMPLEMENTED_TESTED, got " +:+ from)
  ++ unless (negb (blank (Review (Reports_ m)))) "reports.review (review report path) is empty"
  ++ checkActorSeparation (Actors_ m) roleReviewer
  ++ unproven m " has no passing evidence at review time".

Definition checkAcceptance (from : State) (m : Manifest) : list string :=
  unless (bool_decide (from = StateReviewApproved)) ("ACCEPTED requires previous_state REVIEW_APPROVED, got " +:+ from)
  ++ unless (negb (blank (Acceptance (Reports_ m)))) "reports.acceptance (acceptance report path) is empty"
  ++ checkActorSeparation (Actors_ m) roleAcceptor
  ++ unless (bool_decide (BlackBox_Status (BlackBox_ m) = StatusPassed))
       "blackbox.status != passed at acceptance (no exemption allowed at acceptance)"
  ++ unless (negb (blank (Scenario (BlackBox_ m))))
       "blackbox.scenario is empty (acceptance must record the observable black-box scenario)"
  ++ unless (negb (blank (CompiledBinary (BlackBox_ m)))) "blackbox.compiled_binary is empty"
  ++ unless (commandPassed m "make check") ("command " +:+ strs.q "make check" +:+ " is not recorded as passed at acceptance")
  ++ unproven m " has no passing evidence at acceptance".

(** The checks of the state a transition leads to. *)
Definition checkTarget (from to : State) (m : Manifest) : list string :=
  let noted reason := unless (negb (blank (RemediationNote m))) reason in
  if bool_decide (to = StateImplementedTested) then checkImplemented m
  else if bool_decide (to = StateChangesRequested) then
    checkImplemented m ++ noted "-> CHANGES_REQUESTED requires a non-empty remediation_note describing the review findings"
  else if bool_decide (to = StateReviewApproved) then checkReview from m
  else if bool_decide (to = StateAccepted) then checkAcceptance from m
  else if bool_decide (to ∈ [StateBlocked; StateFailed; StateRejected; StateAcceptanceFailed]) then
    noted ("terminal verdict " +:+ to +:+ " requires a non-empty remediation_note explaining the failure")
  else [].

Definition ValidateTransition (from to : State) (m : Manifest) : option Error :=
  if negb (Manifest_SchemaVersion m =? SchemaVersion)%Z then
    Some (Plain ("enggate: schema_version " +:+ pretty (Manifest_SchemaVersion m) +:+ " != active " +:+ pretty SchemaVersion
                 +:+ " (re-emit the manifest)"))
  else if negb (bool_decide (Manifest_BaselineVersion m = BaselineVersion)) then
    Some (Plain ("enggate: baseline_version " +:+ strs.q (Manifest_BaselineVersion m) +:+ " != active "
                 +:+ strs.q BaselineVersion +:+ " (baseline is stale)"))
  else
    match unless (negb (blank (TaskID m))) "task_id is empty"
          ++ unless (legalTransition from to)
               ("illegal transition " +:+ from +:+ " -> " +:+ to +:+ " (see baseline §3 state machine)")
          ++ checkTarget from to m with
    | [] => None
    | reasons => Some (Invalid (mkValidationError (TaskID m) from to reasons))
    end.

Definition CanStartNext (predecessor : Manifest) : option Error :=
  if negb (bool_decide (Manifest_State predecessor = StateAccepted)) then
    Some (Plain ("enggate: cannot start successor task: predecessor " +:+ strs.q (TaskID predecessor) +:+ " state is "
                 +:+ Manifest_State predecessor +:+ ", not ACCEPTED"))
  else
    match ValidateTransition (PreviousState predecessor) StateAccepted predecessor with
    | Some e => Some (Plain ("enggate: predecessor " +:+ strs.q (TaskID predecessor)
                             +:+ " claims ACCEPTED but is not validly accepted: " +:+ Error_text e))
    | None => None
    end.

(** ** What the checks require *)

Definition proven (m : Manifest) : Prop :=
  ∀ c, c ∈ Criteria m → Mandatory c = true →
    ∃ e, e ∈ Evidence_ m ∧ Evidence_Criterion e = Criterion_ID c ∧ Evidence_Status e = StatusPassed ∧ Automated e = true ∧
         Level e ∈ [LevelUnit; LevelIntegration; LevelBlackBox].
Definition nonblank (s : string) : Prop := strs.TrimSpace s ≠ "".
Definition passing (m : Manifest) (level : string) : Prop :=
  ∃ e, e ∈ Evidence_ m ∧ Level e = level ∧ Evidence_Status e = StatusPassed.
Definition checked (m : Manifest) : Prop :=
  ∃ c, c ∈ Commands m ∧ Label c = "make check" ∧ Command_Status c = StatusPassed.

(** The implementation is tested. *)
Definition implemented (m : Manifest) : Prop :=
  proven m ∧ passing m LevelUnit ∧
  (if Exempt (BlackBox_ m) then nonblank (ExemptReason (BlackBox_ m)) ∧ passing m LevelIntegration
   else ∃ e, e ∈ Evidence_ m ∧ Level e = LevelBlackBox ∧ Evidence_Status e = StatusPassed ∧ Automated e = true) ∧
  checked m.
(** Somebody else than the implementer reviewed it. *)
Definition reviewed (m : Manifest) : Prop :=
  nonblank (Review (Reports_ m)) ∧ nonblank (Reviewer (Actors_ m)) ∧ Reviewer (Actors_ m) ≠ Implementer (Actors_ m) ∧ proven m.
(** A third one accepted it. *)
Definition accepted (m : Manifest) : Prop :=
  nonblank (Acceptance (Reports_ m)) ∧ nonblank (Acceptor (Actors_ m)) ∧
  Acceptor (Actors_ m) ≠ Implementer (Actors_ m) ∧ Acceptor (Actors_ m) ≠ Reviewer (Actors_ m) ∧
  BlackBox_Status (BlackBox_ m) = StatusPassed ∧ nonblank (Scenario (BlackBox_ m)) ∧ nonblank (CompiledBinary (BlackBox_ m)) ∧
  checked m ∧ proven m.
Definition current (m : Manifest) : Prop :=
  Manifest_SchemaVersion m = SchemaVersion ∧ Manifest_BaselineVersion m = BaselineVersion ∧ nonblank (TaskID m).

Lemma unless_nil ok r : unless ok r = [] ↔ ok = true.
Proof. by destruct ok. Qed.
Lemma not_blank s : negb (blank s) = true ↔ nonblank s.
Proof. unfold blank, nonblank. rewrite negb_true_iff. apply bool_decide_eq_false. Qed.

(** A search for an element with decidable properties. *)
Ltac search_spec :=
  rewrite existsb_elem; split; intros (x & Hin & Hx); exists x; split; try exact Hin; revert Hx;
  rewrite ?andb_true_iff, ?bool_decide_eq_true; tauto.

Lemma hasPassingEligible_spec m c : hasPassingEligible m c = true ↔
  ∃ e, e ∈ Evidence_ m ∧ Evidence_Criterion e = c ∧ Evidence_Status e = StatusPassed ∧ Automated e = true ∧
       Level e ∈ [LevelUnit; LevelIntegration; LevelBlackBox].
Proof. unfold hasPassingEligible, eligible. search_spec. Qed.
Lemma filter_nil_iff {A} (p : A → bool) l : List.filter p l = [] ↔ ∀ x, x ∈ l → p x = false.
Proof.
  induction l as [|y l IH]; [by split; [intros _ x ?%not_elem_of_nil|]|]. cbn [List.filter]. destruct (p y) eqn:Hp.
  - split; [done|]. intros H. rewrite (H y) in Hp by apply elem_of_cons, or_introl, eq_refl. done.
  - rewrite IH. split; intros H x Hx; [apply elem_of_cons in Hx as [->|Hx]; [done|by apply H]|].
    by apply H, elem_of_cons, or_intror.
Qed.
Lemma unproven_nil m why : unproven m why = [] ↔ proven m.
Proof.
  unfold unproven, proven. transitivity (List.filter (λ c, Mandatory c && negb (hasPassingEligible m (Criterion_ID c))) (Criteria m) = []).
  { split; [apply fmap_nil_inv|by intros ->]. }
  rewrite filter_nil_iff. split; intros H c Hc.
  - intros Hm. apply hasPassingEligible_spec. specialize (H c Hc). rewrite Hm in H. by apply negb_false_iff in H.
  - destruct (Mandatory c) eqn:Hm; [|done]. by rewrite (proj2 (hasPassingEligible_spec _ _) (H c Hc Hm)).
Qed.
Lemma hasLevel_spec m l : hasLevel m StatusPassed l = true ↔ passing m l.
Proof. unfold hasLevel, passing. search_spec. Qed.
Lemma commandPassed_spec m : commandPassed m "make check" = true ↔ checked m.
Proof. unfold commandPassed, checked. search_spec. Qed.

Lemma app_nil_iff {A} (l l' : list A) : l ++ l' = [] ↔ l = [] ∧ l' = [].
Proof. split; [apply app_eq_nil|by intros [-> ->]]. Qed.

(** The rules for a list of checks without a reason. *)
Ltac no_reasons :=
  rewrite ?app_nil_iff, ?unless_nil, ?not_blank, ?bool_decide_eq_true, ?unproven_nil, ?hasLevel_spec, ?commandPassed_spec.

Lemma separation_nil a r :
  checkActorSeparation a r = [] ↔
    match r with
    | roleReviewer => nonblank (Reviewer a) ∧ Reviewer a ≠ Implementer a
    | roleAcceptor => nonblank (Acceptor a) ∧ Acceptor a ≠ Implementer a ∧ Acceptor a ≠ Reviewer a
    end.
Proof.
  assert (∀ x y, nonblank x → negb (negb (bool_decide (x = "")) && bool_decide (x = y)) = true ↔ x ≠ y) as Hs.
  { intros x y Hx. rewrite (bool_decide_false (x = "")) by (by intros ->). cbn.
    rewrite negb_true_iff, bool_decide_eq_false. done. }
  destruct r; unfold checkActorSeparation; no_reasons; split; intros [Hn Hr]; (split; [done|]); revert Hr; by rewrite !Hs.
Qed.

Lemma checkImplemented_nil m : checkImplemented m = [] ↔ implemented m.
Proof.
  unfold checkImplemented, implemented. no_reasons.
  assert (existsb (λ e, bool_decide (Level e = LevelUnit) && bool_decide (Evidence_Status e = StatusPassed)) (Evidence_ m) = true
          ↔ passing m LevelUnit) as -> by (unfold passing; search_spec).
  assert (hasBlackBoxEvidence m StatusPassed = true ↔
          ∃ e, e ∈ Evidence_ m ∧ Level e = LevelBlackBox ∧ Evidence_Status e = StatusPassed ∧ Automated e = true) as Hb
    by (unfold hasBlackBoxEvidence; search_spec).
  destruct (Exempt (BlackBox_ m)); no_reasons; rewrite ?Hb; tauto.
Qed.

Lemma checkReview_nil from m : checkReview from m = [] ↔ from = StateImplementedTested ∧ reviewed m.
Proof. unfold checkReview, reviewed. no_reasons. rewrite separation_nil. tauto. Qed.

Lemma checkAcceptance_nil from m : checkAcceptance from m = [] ↔ from = StateReviewApproved ∧ accepted m.
Proof. unfold checkAcceptance, accepted. no_reasons. rewrite separation_nil. tauto. Qed.

Lemma ValidateTransition_None from to m :
  ValidateTransition from to m = None ↔ current m ∧ legalTransition from to = true ∧ checkTarget from to m = [].
Proof.
  unfold ValidateTransition, current.
  destruct (Z.eqb_spec (Manifest_SchemaVersion m) SchemaVersion) as [Hv|Hv]; cbn [negb]; [|naive_solver].
  case_bool_decide as Hb; cbn [negb]; [|naive_solver].
  destruct (_ ++ _) as [|x l] eqn:Hl.
  - revert Hl. no_reasons. tauto.
  - split; [done|]. intros ((_ & _ & Ht) & Hg & Hc). exfalso.
    assert (∀ l', l' = [] → l' ≠ x :: l) as Hne by (by intros ? ->).
    eapply Hne; [|exact Hl]. no_reasons. done.
Qed.

(** ** A task's life *)

(** The states a task has been in, with the manifests, last transition first. *)
Inductive life : State → list (State * State * Manifest) → Prop :=
| life_new : life "" []
| life_step from h to m : life from h → ValidateTransition from to m = None → life to ((from, to, m) :: h).

Lemma enters from to h m to' : life to' ((from, to, m) :: h) → to' = to ∧ life from h ∧ ValidateTransition from to m = None.
Proof. by inversion 1; subst. Qed.

(** How a task came to a state that is not the first. *)
Lemma life_last s h : life s h → s ≠ "" → ∃ from m h', h = (from, s, m) :: h' ∧ life from h' ∧ ValidateTransition from s m = None.
Proof. destruct 1 as [|from h to m Hl Hv]; [done|]. intros _. by exists from, m, h. Qed.

(** C38: an accepted task.  However a task came to be ACCEPTED, its last three
    steps were the implementation, the review and the acceptance, in this order:
    at the first, every mandatory criterion, a unit test, the black box (or,
    exempted, an integration test) and "make check" had passing evidence; at the
    second, the reviewer was not the implementer; at the third, the acceptor was
    neither.  And no transition leaves ACCEPTED. *)
Theorem accepted_life h :
  life StateAccepted h →
  (∃ from mi mr ma h', h = (StateReviewApproved, StateAccepted, ma) :: (StateImplementedTested, StateReviewApproved, mr)
                           :: (from, StateImplementedTested, mi) :: h'
    ∧ from ∈ [StateStarted; StateChangesRequested] ∧ (implemented mi ∧ reviewed mr ∧ accepted ma)
    ∧ current mi ∧ current mr ∧ current ma) ∧
  (∀ to m, ValidateTransition StateAccepted to m ≠ None).
Proof.
  intros Hl. split.
  - apply life_last in Hl as (f1 & ma & h1 & -> & Hl & Ha); [|done].
    apply ValidateTransition_None in Ha as (Hca & _ & [-> Hta]%checkAcceptance_nil).
    apply life_last in Hl as (f2 & mr & h2 & -> & Hl & Hr); [|done].
    apply ValidateTransition_None in Hr as (Hcr & _ & [-> Htr]%checkReview_nil).
    apply life_last in Hl as (f3 & mi & h3 & -> & Hl & Hi); [|done].
    apply ValidateTransition_None in Hi as (Hci & Hg & Hti%checkImplemented_nil).
    exists f3, mi, mr, ma, h3. split; [done|]. split; [by apply bool_decide_eq_true in Hg|]. done.
  - intros to m (_ & Hg & _)%ValidateTransition_None. revert Hg. unfold legalTransition.
    by repeat (case_bool_decide; [done|]).
Qed.

Definition demoManifest (evidence : list Evidence) (a : Actors) : Manifest :=
  mkManifest 1 "1" "T-1" "T-0" StateReviewApproved StateAccepted [mkCriterion "AC-1" "works" true] evidence
    [mkCommandResult "make check" StatusPassed] a (mkReports "impl.md" "review.md" "acceptance.md")
    (mkBlackBox "bin/nf" "run it" StatusPassed false "") "".
Definition demoAccepted : Manifest :=
  demoManifest [mkEvidence "AC-1" LevelUnit "x_test.go" StatusPassed true; mkEvidence "AC-1" LevelBlackBox "bb" StatusPassed true]
    (mkActors "alice" "bob" "carol").
Definition demoLife : list (State * State * Manifest) :=
  [(StateReviewApproved, StateAccepted, demoAccepted); (StateImplementedTested, StateReviewApproved, demoAccepted);
   (StateStarted, StateImplementedTested, demoAccepted); ("", StateStarted, demoAccepted)].

Lemma accepted_life_witness :
  life StateAccepted demoLife ∧ ∀ to m, ValidateTransition StateAccepted to m ≠ None.
Proof.
  assert (life StateAccepted demoLife) as Hl by (repeat (apply life_step; [|vm_compute; reflexivity]); apply life_new).
  split; [exact Hl|]. apply (accepted_life demoLife Hl).
Defined.

(** The gate of a successor task is the last check, of the manifest alone. *)
Lemma CanStartNext_None m :
  CanStartNext m = None ↔ Manifest_State m = StateAccepted ∧ PreviousState m = StateReviewApproved ∧ current m ∧ accepted m.
Proof.
  unfold CanStartNext. case_bool_decide as Hs; cbn [negb]; [|naive_solver].
  assert (ValidateTransition (PreviousState m) StateAccepted m = None ↔
          PreviousState m = StateReviewApproved ∧ current m ∧ accepted m) as Hv.
  { rewrite ValidateTransition_None. change (checkTarget _ StateAccepted m) with (checkAcceptance (PreviousState m) m).
    rewrite checkAcceptance_nil. split; [tauto|]. intros (Hp & Hc & Ha). by rewrite Hp. }
  destruct (ValidateTransition _ _ _); [|tauto]. split; [done|]. intros (_ & H). by apply Hv in H.
Qed.

(** ** Where the gate lets pass more than it says *)

(** A successor may start when the acceptance of its predecessor is documented to
    be valid with full evidence and actor separation; a manifest without any
    evidence, criterion or reviewer passes. *)
Lemma unreviewed_task_unlocks :
  CanStartNext (mkManifest 1 "1" "T-1" "" StateReviewApproved StateAccepted [] [] [mkCommandResult "make check" StatusPassed]
                  (mkActors "alice" "" "carol") (mkReports "" "" "a.md") (mkBlackBox "bin" "s" StatusPassed false "") "") = None.
Proof. vm_compute. by repeat split. Qed.

(** Names are compared as they are written: a blank makes the implementer somebody
    else. *)
Lemma blank_separates_actors :
  checkActorSeparation (mkActors "alice" "alice " "") roleReviewer = [].
Proof. vm_compute. by repeat split. Qed.

(** The evidence of a unit test need not be automated, although a passing unit
    test is what the rule wants. *)
Lemma manual_unit_test_counts :
  ValidateTransition StateStarted StateImplementedTested
    (demoManifest [mkEvidence "AC-1" LevelBlackBox "bb" StatusPassed true; mkEvidence "" LevelUnit "seen it" StatusPassed false]
       (mkActors "alice" "" "")) = None.
Proof. vm_compute. by repeat split. Qed.

End enggate.
