(* ===== verification/Artifacts.v ===== *)
(** * Artifacts: the content-addressed store (spec §9.5)

    Models [internal/artifacts/store.go].  The file system is a map of paths to
    contents and a list of the faults to come; directories and permissions are
    left out.  [Write] is a program of file-system calls, which the daemon can die
    between.  The hex SHA-256 of a content is an argument [Hash]. *)
From S2P Require Import Prelude Process Text.
Import process.

Module artifacts.

Definition LabelPublic : string := "public".
Definition LabelInternal : string := "internal".
Definition LabelConfidential : string := "confidential".

(** A fault: the bytes a failing write leaves behind, and the text of the error. *)
Record Disk := mkDisk { files : gmap string string; faults : list (option (nat * string)) }.

(** A file-system call: the next fault decides whether it succeeds. *)
Definition syscall {A} (partial : nat → gmap string string → gmap string string)
    (f : gmap string string → A * gmap string string) (d : Disk) : result string A * Disk :=
  match faults d with
  | Some (n, e) :: rest => (Err e, mkDisk (partial n (files d)) rest)
  | l => let '(a, fs) := f (files d) in (Ok a, mkDisk fs (tail l))
  end.
Definition untouched (_ : nat) (fs : gmap string string) : gmap string string := fs.

Inductive Error := ErrInvalidHash | ErrText (text : string).
Abbreviation M := (proc Disk Error).

(** [fmt.Errorf("artifacts: <what>: %w", err)] over a call. *)
Definition call {A} (what : string) (f : Disk → result string A * Disk) : M A :=
  mapErr (λ e, ErrText ("artifacts: " +:+ what +:+ ": " +:+ e)) (attempt_ f).

Definition fileExists (path : string) : Disk → result string bool * Disk :=
  syscall untouched (λ fs, (bool_decide (is_Some (fs !! path)), fs)).
Definition MkdirAll : Disk → result string () * Disk := syscall untouched (λ fs, ((), fs)).
(** [os.CreateTemp(dir, ".tmp-*")]: an empty file of a new name, here the first
    number that is free. *)
Definition tempName (dir : string) (n : nat) : string := dir +:+ "/.tmp-" +:+ pretty (Z.of_nat (S n)).
Definition CreateTemp (dir : string) : Disk → result string string * Disk :=
  syscall untouched (λ fs,
    let free n := bool_decide (fs !! tempName dir n = None) in
    let p := tempName dir (default 0 (List.find free (seq 0 (S (size fs))))) in (p, <[p := ""]> fs)).
Definition writeTo (tmp content : string) : Disk → result string () * Disk :=
  syscall (λ n fs, <[tmp := strs.take_bytes n content]> fs) (λ fs, ((), <[tmp := content]> fs)).
Definition Sync : Disk → result string () * Disk := syscall untouched (λ fs, ((), fs)).
Definition Remove (path : string) : Disk → result string () * Disk := syscall untouched (λ fs, ((), delete path fs)).
Definition Rename (old new : string) : Disk → result string () * Disk :=
  syscall untouched (λ fs, ((), match fs !! old with Some c => <[new := c]> (delete old fs) | None => fs end)).
Definition ReadFile (path : string) : Disk → result string string * Disk :=
  λ d, match syscall untouched (λ fs, (fs !! path, fs)) d with
       | (Ok (Some c), d) => (Ok c, d)
       | (Ok None, d) => (Err "no such file or directory", d)
       | (Err e, d) => (Err e, d)
       end.

(** [filepath.Join] of nonempty elements. *)
Definition join (l : list string) : string := filepath.Clean (strs.Join l "/").

Definition New (root : string) : M string :=
  if bool_decide (root = "") then Throw (ErrText "artifacts: empty root")
  else _ ← call ("create " +:+ strs.q root) MkdirAll; mret root.

Section store.
  Context (Hash : string → string) (root : string).

Definition Path (hash : string) : string :=
    if String.length hash <? 4 then join (if bool_decide (hash = "") then [root] else [root; hash])
    else join [root; strs.take_bytes 2 hash; strs.drop_bytes 2 hash].

(** A step of the write of the temporary file, which is removed when the step
    fails. *)
Definition orCleanup {A} (tmp what : string) (f : Disk → result string A * Disk) : M A :=
    r ← catch (call what f);
    match r with
    | Ok a => mret a
    | Err e => _ ← ignore (call "" (Remove tmp)); Throw e
    end.

(** [Write]; [None] is the nil slice. *)
Definition Write (content : option string) : M (string * string) :=
    match content with
    | None => Throw (ErrText "artifacts: nil content")
    | Some c =>
        let hash := Hash c in
        let path := Path hash in
        exists_ ← call ("stat " +:+ strs.q path) (fileExists path);
        if exists_ : bool then mret (hash, path)
        else
          let dir := filepath.Dir path in
          _ ← call ("mkdir " +:+ strs.q dir) MkdirAll;
          tmp ← call "tmp create" (CreateTemp dir);
          _ ← orCleanup tmp "tmp write" (writeTo tmp c);
          _ ← orCleanup tmp "tmp sync" Sync;
          _ ← orCleanup tmp "tmp close" Sync;
          _ ← orCleanup tmp "rename" (Rename tmp path);
          _ ← ignore (call "" Sync);
          mret (hash, path)
    end.
Definition WriteReader (read : result string string) : M (string * string) :=
    match read with
    | Err e => Throw (ErrText ("artifacts: read: " +:+ e))
    | Ok content => Write (Some content)
    end.

Definition Read (hash : string) : M string :=
    let path := Path hash in
    exists_ ← call ("stat " +:+ strs.q path) (fileExists path);
    if exists_ : bool then mapErr ErrText (attempt_ (ReadFile path)) else Throw ErrInvalidHash.
Definition Exists (hash : string) (d : Disk) : bool * Disk :=
    let '(r, d) := fileExists (Path hash) d in (match r with Ok b => b | Err _ => false end, d).
Definition Size (hash : string) (d : Disk) : Z * Disk :=
    let '(r, d) := syscall untouched (λ fs, (fs !! Path hash, fs)) d in
    (match r with Ok (Some c) => Z.of_nat (String.length c) | _ => (-1)%Z end, d).
End store.
(** ** Paths *)

Definition noSlash (s : string) : Prop := everyByte (λ c, negb (bool_decide (c = "/"%char))) s = true.
Definition isHex (c : ascii) : bool := text.isDigit c || (let n := nat_of_ascii c in (97 <=? n) && (n <=? 102)).
(** A hex SHA-256. *)
Definition isHash (h : string) : Prop := String.length h = 64 ∧ everyByte isHex h = true.

Lemma SplitByte_nonempty c s : text.SplitByte c s ≠ [].
Proof. destruct s as [|b s]; [done|]. simpl. case_bool_decide; [done|]. by destruct (text.SplitByte c s). Qed.

Lemma SplitByte_app c s t : text.SplitByte c (s +:+ String c t) = text.SplitByte c s ++ text.SplitByte c t.
Proof.
  induction s as [|b s IH]; simpl; [by rewrite bool_decide_true|].
  case_bool_decide; [by rewrite IH|]. rewrite IH.
  destruct (text.SplitByte c s) as [|l ls] eqn:Hs; [by apply SplitByte_nonempty in Hs|done].
Qed.

Lemma SplitByte_one s : noSlash s → text.SplitByte "/" s = [s].
Proof.
  unfold noSlash. induction s as [|b s IH]; [done|]. cbn [everyByte text.SplitByte].
  intros [Hb Hs]%andb_true_iff. apply negb_true_iff in Hb. by rewrite Hb, IH.
Qed.

Lemma Join_snoc2 l a b :
  strs.Join (l ++ [a; b]) "/" = (match l with [] => "" | _ => strs.Join l "/" +:+ "/" end) +:+ a +:+ "/" +:+ b.
Proof.
  induction l as [|x l IH]; [done|]. destruct l as [|y l].
  - simpl. by rewrite !append_assoc.
  - change (strs.Join ((x :: y :: l) ++ [a; b]) "/") with (x +:+ "/" +:+ strs.Join ((y :: l) ++ [a; b]) "/").
    rewrite IH. change (strs.Join (x :: y :: l) "/") with (x +:+ "/" +:+ strs.Join (y :: l) "/"). by rewrite !append_assoc.
Qed.

(** An element [Clean] keeps. *)
Definition plain (a : string) : Prop := noSlash a ∧ a ∉ [""; "."; ".."].

Lemma Clean_two root : root ≠ "" → ∃ pre, ∀ a b, plain a → plain b →
  join [root; a; b] = pre +:+ a +:+ "/" +:+ b.
Proof.
  intros Hroot. set (st := foldl (filepath.cleanStep (filepath.IsAbs root)) [] (text.SplitByte "/" root)).
  exists ((if filepath.IsAbs root then "/" else "") +:+
          match reverse st with [] => "" | _ => strs.Join (reverse st) "/" +:+ "/" end).
  intros a b [Ha Ha'] [Hb Hb']. unfold join, filepath.Clean, filepath.elements.
  change (strs.Join [root; a; b] "/") with (root +:+ String "/" (a +:+ String "/" b)).
  assert (filepath.IsAbs (root +:+ String "/" (a +:+ String "/" b)) = filepath.IsAbs root) as ->.
  { destruct root as [|c root]; [done|]. unfold filepath.IsAbs. simpl. f_equal. by destruct root. }
  rewrite !SplitByte_app, (SplitByte_one a), (SplitByte_one b), !foldl_app by done. fold st. cbn [foldl].
  assert (∀ x st, x ∉ [""; "."; ".."] → filepath.cleanStep (filepath.IsAbs root) st x = x :: st) as Hstep.
  { intros x st' Hx. rewrite !not_elem_of_cons in Hx. destruct Hx as (H1 & H2 & H3 & _).
    unfold filepath.cleanStep. by rewrite !bool_decide_false. }
  rewrite !Hstep, !reverse_cons, <-app_assoc by done. cbn [app]. unfold filepath.joined.
  destruct (filepath.IsAbs root).
  - by rewrite Join_snoc2, !append_assoc.
  - rewrite bool_decide_false by (rewrite length_app; cbn; lia). by rewrite Join_snoc2, !append_assoc.
Qed.

(** The last element of a path. *)
Lemma last_element pre s : noSlash s → filepath.untilSlash (strs.rev (pre +:+ "/" +:+ s)) = strs.rev s.
Proof.
  intros Hs. change ("/" +:+ s) with (String "/" s). rewrite rev_app, rev_cons, append_assoc. unfold noSlash in Hs.
  assert (everyByte (λ c, negb (bool_decide (c = "/"%char))) (strs.rev s) = true) as Hr.
  { clear -Hs. induction s as [|c s IH]; [done|]. cbn in Hs. apply andb_true_iff in Hs as [Hc Hs].
    rewrite rev_cons, everyByte_app, IH by done. cbn. by rewrite Hc. }
  revert Hr. generalize (strs.rev s). intros r. induction r as [|c r IH]; [done|].
  cbn. intros [Hc Hr]%andb_true_iff. apply negb_true_iff in Hc.
  change (String c r +:+ ?x) with (String c (r +:+ x)). cbn [filepath.untilSlash]. by rewrite Hc, IH.
Qed.
Lemma last_element_inj pre pre' s s' : noSlash s → noSlash s' → pre +:+ "/" +:+ s = pre' +:+ "/" +:+ s' → s = s'.
Proof.
  intros Hs Hs' Heq. apply (f_equal (λ p, strs.rev (filepath.untilSlash (strs.rev p)))) in Heq.
  by rewrite !last_element, !rev_involutive in Heq.
Qed.

Lemma hex_noSlash s : everyByte isHex s = true → noSlash s.
Proof. apply everyByte_impl. intros c Hc. apply negb_true_iff, bool_decide_eq_false. by intros ->. Qed.
Lemma pretty_noSlash n : (0 < n)%Z → noSlash (pretty n).
Proof. apply pretty_Z_bytes. vm_compute. reflexivity. Qed.

(** A hash is cut into two plain elements. *)
Lemma hash_cut h : isHash h →
  plain (strs.take_bytes 2 h) ∧ plain (strs.drop_bytes 2 h) ∧ everyByte isHex (strs.drop_bytes 2 h) = true ∧
  String.length (strs.take_bytes 2 h) = 2 ∧ strs.drop_bytes 2 h ≠ "".
Proof.
  intros [Hl Hh]. pose proof (take_drop_bytes 2 h) as Hcut.
  assert (everyByte isHex (strs.take_bytes 2 h) = true ∧ everyByte isHex (strs.drop_bytes 2 h) = true) as [Ht Hd].
  { apply andb_true_iff. by rewrite <-everyByte_app, Hcut. }
  assert (∀ x, everyByte isHex x = true → x ≠ "" → plain x) as Hplain.
  { intros x Hx Hne. split; [by apply hex_noSlash|]. rewrite !not_elem_of_cons.
    split; [done|]. split; [by intros ->|]. split; [by intros ->|apply not_elem_of_nil]. }
  destruct h as [|c1 [|c2 [|c3 h]]]; [done..|]. cbn in Ht, Hd |- *.
  split; [by apply Hplain|]. split; [by apply Hplain|]. done.
Qed.

(** ** The store's invariant *)

Section correctness.
  Context (Hash : string → string) (root : string).
  Hypothesis Hash_hex : ∀ c, isHash (Hash c).
  Hypothesis root_named : root ≠ "".
  Local Notation Path := (Path root).

Lemma Path_inj h h' : isHash h → isHash h' → Path h = Path h' → h = h'.
Proof.
  intros Hh Hh'. destruct (Clean_two root root_named) as [pre Hpre]. unfold artifacts.Path.
  destruct (hash_cut h Hh) as (Ht & Hd & _ & Hl & _), (hash_cut h' Hh') as (Ht' & Hd' & _ & Hl' & _).
  destruct Hh as [-> _], Hh' as [-> _]. cbn [Nat.ltb Nat.leb]. rewrite !Hpre by done. intros Heq%append_cancel.
  apply append_inj in Heq as [Ha Hb]; [|by rewrite Hl, Hl'].
  apply append_cancel in Hb. by rewrite <-(take_drop_bytes 2 h), Ha, Hb, take_drop_bytes.
Qed.

Definition isTemp (p : string) : Prop := ∃ dir n, p = tempName dir n.

Lemma Path_not_temp h : isHash h → ¬ isTemp (Path h).
Proof.
  intros Hh (dir & n & Heq). destruct (Clean_two root root_named) as [pre Hpre]. unfold artifacts.Path in Heq.
  destruct (hash_cut h Hh) as (Ht & Hd & Hx & _ & Hne). destruct Hh as [Hl _]. rewrite Hl in Heq. cbn [Nat.ltb Nat.leb] in Heq.
  rewrite Hpre in Heq by done. unfold tempName in Heq.
  change ("/.tmp-" +:+ ?x) with ("/" +:+ (".tmp-" +:+ x)) in Heq. rewrite <-append_assoc in Heq.
  apply last_element_inj in Heq; [|by apply Hd|unfold noSlash; by rewrite everyByte_app, (pretty_noSlash (Z.of_nat (S n))) by lia].
  rewrite Heq in Hx. change (".tmp-" +:+ ?x) with (String "." ("tmp-" +:+ x)) in Hx. done.
Qed.

(** Every file is a temporary one or the content its path says; and what is
    stored stays. *)
Definition inv (fs : gmap string string) : Prop := ∀ p c, fs !! p = Some c → isTemp p ∨ p = Path (Hash c).
Definition kept (fs fs' : gmap string string) : Prop := ∀ h c, isHash h → fs !! Path h = Some c → fs' !! Path h = Some c.
Definition good (fs fs' : gmap string string) : Prop := inv fs' ∧ kept fs fs'.

Lemma kept_refl fs : kept fs fs.
Proof. by intros h c. Qed.
Lemma good_temp fs tmp c : inv fs → isTemp tmp → good fs (<[tmp := c]> fs).
Proof.
  intros Hi Ht. split.
  - intros p c'. destruct (decide (p = tmp)) as [->|Hne]; [by left|]. rewrite lookup_insert_ne by done. apply Hi.
  - intros h c' Hh Hc. rewrite lookup_insert_ne; [done|]. intros ->. by apply (Path_not_temp h).
Qed.
Lemma good_remove fs tmp : inv fs → isTemp tmp → good fs (delete tmp fs).
Proof.
  intros Hi Ht. split.
  - intros p c [_ Hp]%lookup_delete_Some. by apply Hi.
  - intros h c Hh Hc. rewrite lookup_delete_ne; [done|]. intros ->. by apply (Path_not_temp h).
Qed.
Lemma good_rename fs tmp c : inv fs → isTemp tmp → fs !! Path (Hash c) = None → good fs (<[Path (Hash c) := c]> (delete tmp fs)).
Proof.
  intros Hi Ht Hnone. destruct (good_remove fs tmp Hi Ht) as [Hi' Hk]. split.
  - intros p c'. destruct (decide (p = Path (Hash c))) as [->|Hne].
    + rewrite lookup_insert_eq. intros [= <-]. by right.
    + rewrite lookup_insert_ne by done. apply Hi'.
  - intros h c' Hh Hc. rewrite lookup_insert_ne; [by apply Hk|]. intros Heq. by rewrite Heq, Hc in Hnone.
Qed.

(** ** The steps of a write *)

Definition I (d : Disk) : Prop := inv (files d).
Definition R (d d' : Disk) : Prop := files d = files d'.
Definition G (d d' : Disk) : Prop := kept (files d) (files d').
#[local] Instance R_preorder : PreOrder R.
Proof. split; [by intros d|]. intros d1 d2 d3. unfold R. congruence. Qed.
#[local] Instance G_preorder : PreOrder G.
Proof. split; [intros d; apply kept_refl|]. intros d1 d2 d3 H12 H23 h c Hh Hc. by apply H23, H12. Qed.

(** A program that stops after some calls. *)
Fixpoint stopped {A} (n : nat) (p : M A) (d : Disk) : Disk :=
  match n, p with
  | S n, Call f k => let '(b, d) := f d in stopped n (k b) d
  | _, _ => d
  end.

Lemma wp_stopped {A} n (p : M A) Q d : I d → wp I R G p Q d → I (stopped n p d) ∧ G d (stopped n p d).
Proof.
  revert p d. induction n as [|n IH]; intros [a|e|B f k] d Hi Hp; [done..|]. cbn [stopped].
  destruct (Hp d) as (Hi' & Hg & Hk); [done|done|]. destruct (f d) as [b d']. cbn [fst snd] in *.
  destruct (IH (k b) d' Hi' Hk) as [Hi'' Hg']. split; [done|]. by etrans.
Qed.

(** A postcondition on the files. *)
Definition onFiles {A} (Q : result Error A → gmap string string → Prop) (r : result Error A) (d : Disk) : Prop := Q r (files d).

Lemma wp_then {A B} (f : A → M B) (p : M A) (P : result Error A → gmap string string → Prop) Q d :
  I d → wp I R G p (onFiles P) d →
  (∀ a d', I d' → P (Ok a) (files d') → wp I R G (f a) (onFiles Q) d') →
  (∀ e fs, P (Err e) fs → Q (Err e) fs) → wp I R G (p ≫= f) (onFiles Q) d.
Proof.
  intros Hi Hp Hf He. apply wp_bind; [apply _|done|]. eapply wp_mono; [|exact Hp].
  intros [a|e] d' Hi' HP; [by apply Hf|by apply He].
Qed.

Lemma wp_syscall {A} what partial (f : gmap string string → A * gmap string string) (Q : result Error A → gmap string string → Prop) d :
  I d → (∀ n e, good (files d) (partial n (files d)) ∧ Q (Err e) (partial n (files d))) →
  good (files d) (f (files d)).2 ∧ Q (Ok (f (files d)).1) (f (files d)).2 →
  wp I R G (call what (syscall partial f)) (onFiles Q) d.
Proof.
  intros Hi Hfault Hok. unfold call. apply wp_mapErr. apply wp_attempt.
  { intros r d1 d2 HR _. unfold onFiles. by rewrite HR. }
  intros d' HR _. unfold R in HR. unfold syscall, I, G, onFiles. rewrite <-HR.
  destruct (faults d') as [|[[n e]|] rest]; cbn.
  - destruct (f (files d)) as [a fs]. cbn in *. destruct Hok as [[? ?] ?]. done.
  - destruct (Hfault n (ErrText ("artifacts: " +:+ what +:+ ": " +:+ e))) as [[? ?] ?]. done.
  - destruct (f (files d)) as [a fs]. cbn in *. destruct Hok as [[? ?] ?]. done.
Qed.

Lemma wp_answer {A} (a : A) (Q : result Error A → gmap string string → Prop) d :
  Q (Ok a) (files d) → wp I R G (mret a) (onFiles Q) d.
Proof. intros HQ d' HR _. unfold onFiles. by rewrite <-HR. Qed.
Lemma wp_fail {A} (e : Error) (Q : result Error A → gmap string string → Prop) d :
  (∀ fs, Q (Err e) fs) → wp I R G (Throw e : M A) (onFiles Q) d.
Proof. intros HQ d' _ _. apply HQ. Qed.

(** A call whose error is dropped. *)
Lemma wp_ignored {A} what partial (f : gmap string string → A * gmap string string) (Q : gmap string string → Prop) d :
  I d → (∀ n, good (files d) (partial n (files d)) ∧ Q (partial n (files d))) →
  good (files d) (f (files d)).2 ∧ Q (f (files d)).2 →
  wp I R G (ignore (call what (syscall partial f))) (onFiles (λ (r : result Error ()) fs, match r with Ok _ => Q fs | Err _ => False end)) d.
Proof.
  intros Hi Hp Hf. unfold ignore.
  apply (wp_then _ _ (λ r fs, match r with Ok _ => Q fs | Err _ => False end)
           (λ r fs, match r : result Error () with Ok _ => Q fs | Err _ => False end)); [done| | |done].
  - apply wp_catch. apply (wp_syscall what partial f (λ _ fs, Q fs)); [done| |done]. intros n _. apply Hp.
  - intros r d' _ HQ. by apply (wp_answer () (λ r fs, match r : result Error () with Ok _ => Q fs | Err _ => False end)).
Qed.

(** A step on the temporary file [tmp]: what it promises of the files when it
    succeeds. *)
Lemma wp_orCleanup {A} tmp what partial (f : gmap string string → A * gmap string string) (Q : result Error A → gmap string string → Prop) d :
  I d → isTemp tmp → (∀ n, good (files d) (partial n (files d))) → (∀ e fs, Q (Err e) fs) →
  good (files d) (f (files d)).2 → Q (Ok (f (files d)).1) (f (files d)).2 →
  wp I R G (orCleanup tmp what (syscall partial f)) (onFiles Q) d.
Proof.
  intros Hi Ht Hp He Hg HQ. unfold orCleanup, Remove.
  apply (wp_then _ _ (λ r fs, match r with Ok (Ok a) => inv fs ∧ Q (Ok a) fs | Ok (Err _) => inv fs | Err _ => False end)); [done| | |done].
  - apply wp_catch. apply (wp_syscall what partial f (λ r fs, match r with Ok a => inv fs ∧ Q (Ok a) fs | Err _ => inv fs end)); [done| |].
    + intros n e. split; [apply Hp|apply Hp].
    + split; [done|]. split; [apply Hg|done].
  - intros [a|e] d' Hi' HP.
    + apply wp_answer. apply HP.
    + cbv beta iota.
      apply (wp_then _ _ (λ r _, match r with Ok _ => True | Err _ => False end) Q); [done| |intros; by apply wp_fail|done].
      apply (wp_ignored _ _ _ (λ _, True)); [done| |]; (split; [|done]); [by split; [|apply kept_refl]|by apply good_remove].
Qed.

Lemma tempName_temp dir n : isTemp (tempName dir n).
Proof. by exists dir, n. Qed.

Definition written (c : string) (r : result Error (string * string)) (fs : gmap string string) : Prop :=
  match r with Ok (h, p) => h = Hash c ∧ p = Path h ∧ is_Some (fs !! p) | Err _ => True end.

Lemma wp_Write c d : I d → wp I R G (Write Hash root (Some c)) (onFiles (written c)) d.
Proof.
  intros Hi. cbn [Write]. unfold fileExists, MkdirAll, CreateTemp, writeTo, Sync, Rename. set (path := artifacts.Path root (Hash c)).
  assert (∀ fs : gmap string string, inv fs → good fs fs) as Hsame by (by split; [|apply kept_refl]).
  assert (¬ isTemp path) as Hpath by apply Path_not_temp, Hash_hex.
  apply (wp_then _ _ (λ r fs, match r with Ok b => b = bool_decide (is_Some (fs !! path)) | Err _ => True end)); [done| | |done].
  { apply wp_syscall; [done|intros; split; [by apply Hsame|done]|]. split; [by apply Hsame|done]. }
  intros b d1 Hi1 ->. case_bool_decide as Hex.
  { by apply wp_answer. }
  assert (files d1 !! path = None) as Hnone by (by apply eq_None_not_Some).
  apply (wp_then _ _ (λ r fs, match r with Ok _ => fs !! path = None | Err _ => True end)); [done| | |done].
  { apply wp_syscall; [done|intros; split; [by apply Hsame|done]|]. split; [by apply Hsame|done]. }
  clear d1 Hi1 Hex Hnone. intros _ d1 Hi1 Hnone.
  apply (wp_then _ _ (λ r fs, match r with Ok tmp => isTemp tmp ∧ fs !! path = None | Err _ => True end)); [done| | |done].
  { apply wp_syscall; [done|intros; split; [by apply Hsame|done]|]. cbn [fst snd].
    split; [apply good_temp; [done|apply tempName_temp]|]. split; [apply tempName_temp|].
    rewrite lookup_insert_ne; [done|]. intros Heq. apply Hpath. eexists _, _. symmetry. exact Heq. }
  clear d1 Hi1 Hnone. intros tmp d1 Hi1 [Ht Hnone].
  assert (tmp ≠ path) as Hne by (by intros ->).
  set (P := λ (r : result Error ()) (fs : gmap string string),
              match r with Ok _ => fs !! path = None ∧ fs !! tmp = Some c | Err _ => True end).
  apply (wp_then _ _ P); [done| | |done].
  { apply wp_orCleanup; [done|done|intros n; by apply good_temp|done|by apply good_temp|].
    unfold P. cbn. by rewrite lookup_insert_eq, lookup_insert_ne. }
  clear d1 Hi1 Hnone. intros [] d1 Hi1 HP.
  apply (wp_then _ _ P); [done|by apply wp_orCleanup; auto| |done].
  clear d1 Hi1 HP. intros [] d1 Hi1 HP.
  apply (wp_then _ _ P); [done|by apply wp_orCleanup; auto| |done].
  clear d1 Hi1 HP. intros [] d1 Hi1 [Hnone Hc].
  apply (wp_then _ _ (λ r fs, match r with Ok _ => is_Some (fs !! path) | Err _ => True end)); [done| | |done].
  { apply wp_orCleanup; [done|done|intros n; by apply Hsame|done|..]; cbn [fst snd]; rewrite Hc; [by apply good_rename|].
    rewrite lookup_insert_eq. by eexists. }
  clear d1 Hi1 Hnone Hc. intros [] d1 Hi1 Hs.
  apply (wp_then _ _ (λ r fs, match r with Ok _ => is_Some (fs !! path) | Err _ => False end)); [done| |intros; by apply wp_answer|done].
  apply (wp_ignored _ _ _ (λ fs, is_Some (fs !! path))); [done| |]; by split; [apply Hsame|].
Qed.

(** The disks of a store: writes, each of which may stop at any call and meet any
    faults. *)
Inductive reachable : Disk → Prop :=
| reach_new fl : reachable (mkDisk ∅ fl)
| reach_write content n d fl : reachable d → reachable (mkDisk (files (stopped n (Write Hash root content) d)) fl).

Lemma stopped_good content n d :
  I d → I (stopped n (Write Hash root content) d) ∧ G d (stopped n (Write Hash root content) d).
Proof.
  intros Hi. destruct content as [c|].
  - eapply wp_stopped; [done|by apply wp_Write].
  - cbn. by destruct n.
Qed.

Lemma reachable_inv d : reachable d → inv (files d).
Proof. induction 1 as [fl|content n d fl _ IH]; [by intros p c|]. cbn. by apply stopped_good. Qed.

Lemma run_Read h fs l : run (Read root h) (mkDisk fs l) =
  match l with
  | Some (_, e) :: l => (Err (ErrText ("artifacts: " +:+ ("stat " +:+ strs.q (Path h)) +:+ ": " +:+ e)), mkDisk fs l)
  | _ => match fs !! Path h, tail l with
         | None, l => (Err ErrInvalidHash, mkDisk fs l)
         | Some _, Some (_, e) :: l => (Err (ErrText e), mkDisk fs l)
         | Some c, l => (Ok c, mkDisk fs (tail l))
         end
  end.
Proof.
  unfold Read, call, fileExists, ReadFile. rewrite run_bind, run_mapErr, run_attempt.
  assert (bool_decide (is_Some (fs !! Path h)) = match fs !! Path h with Some _ => true | None => false end) as Hex
    by (by destruct (fs !! Path h)).
  destruct l as [|[[n e]|] l]; cbn [syscall faults files fst snd tail]; rewrite ?Hex; [|done|];
    (destruct (fs !! Path h) as [c|] eqn:Hc; [|done]); rewrite run_mapErr, run_attempt; unfold syscall; cbn [faults files].
  - by rewrite Hc.
  - by destruct l as [|[[n e]|] l]; cbn; rewrite ?Hc.
Qed.

(** A write without faults. *)
Lemma run_Write_ok c fs :
  ∃ fs', run (Write Hash root (Some c)) (mkDisk fs []) = (Ok (Hash c, Path (Hash c)), mkDisk fs' []).
Proof.
  cbn [Write]. rewrite run_bind. unfold call at 1. rewrite run_mapErr, run_attempt. cbn [fileExists syscall faults fst snd files tail].
  case_bool_decide; [by eexists|]. cbn. by eexists.
Qed.

(** C39: the artifact store.  Whatever writes were made, however many of them
    stopped between two file-system calls (the process died) or met faults: what
    a hash reads is a content of that hash; a content once stored is never changed
    or removed by a later write; a write that answers gives the hash of the
    content and its path, and the hash can be read back; and without faults a
    write answers. *)
Theorem store_addressed d :
  reachable d →
  (∀ h c, isHash h → (run (Read root h) d).1 = Ok c → Hash c = h) ∧
  (∀ content n h c, isHash h → files d !! Path h = Some c →
     files (stopped n (Write Hash root content) d) !! Path h = Some c) ∧
  (∀ c h p d', run (Write Hash root (Some c)) d = (Ok (h, p), d') →
     h = Hash c ∧ p = Path h ∧
     ∃ c', Hash c' = h ∧ run (Read root h) (mkDisk (files d') []) = (Ok c', mkDisk (files d') [])) ∧
  (∀ c, ∃ fs, run (Write Hash root (Some c)) (mkDisk (files d) []) = (Ok (Hash c, Path (Hash c)), mkDisk fs [])).
Proof.
  intros Hr%reachable_inv.
  assert (∀ fs h c, inv fs → isHash h → fs !! Path h = Some c → Hash c = h) as Haddr.
  { intros fs h c Hi Hh Hc. destruct (Hi _ _ Hc) as [Ht|Hp]; [by apply Path_not_temp in Ht|].
    symmetry. by apply Path_inj. }
  split; [|split; [|split]].
  - intros h c Hh. destruct d as [fs l]. rewrite run_Read.
    destruct l as [|[[n e]|] l]; [|done|]; (destruct (fs !! Path h) as [c'|] eqn:Hc; [|done]).
    + intros [= <-]. by apply (Haddr fs).
    + destruct l as [|[[n e]|] l]; [|done|]; intros [= <-]; by apply (Haddr fs).
  - intros content n h c Hh Hc. by apply (stopped_good content n d Hr).
  - intros c h p d' Hw.
    destruct (wp_run I R G (Write Hash root (Some c)) (onFiles (written c)) d Hr) as [Hi HQ]; [by apply wp_Write|].
    rewrite Hw in Hi, HQ. destruct HQ as (-> & -> & [c' Hc]). split; [done|]. split; [done|].
    exists c'. split; [by eapply Haddr|]. cbn [snd] in Hc. by rewrite run_Read, Hc.
  - intros c. apply run_Write_ok.
Qed.
End correctness.

(** A hash of two values, for one store. *)
Definition demoHash (c : string) : string :=
  if bool_decide (c = "a") then strs.Join (repeat "ab12" 16) "" else strs.Join (repeat "0f" 32) "".
Definition demoDisk : Disk :=
  mkDisk (files (stopped 100 (Write demoHash "/h/artifacts/" (Some "a")) (mkDisk ∅ []))) [None; Some (1, "no space")].

Lemma demoHash_hex c : isHash (demoHash c).
Proof. unfold demoHash. case_bool_decide; by split. Qed.

(** The disk reads "a" but for a fault, and a write of "b" that stops halfway does
    not change it. *)
Lemma store_addressed_witness :
  reachable demoHash "/h/artifacts/" demoDisk ∧ (run (Read "/h/artifacts/" (demoHash "a")) demoDisk).1 = Err (ErrText "no space") ∧
  files (stopped 5 (Write demoHash "/h/artifacts/" (Some "b")) demoDisk) !! Path "/h/artifacts/" (demoHash "a") = Some "a".
Proof.
  assert (reachable demoHash "/h/artifacts/" demoDisk) as Hr by (apply reach_write, reach_new).
  split; [exact Hr|]. split; [vm_compute; reflexivity|].
  apply (store_addressed demoHash "/h/artifacts/" demoHash_hex ltac:(discriminate) demoDisk Hr).
  - apply demoHash_hex.
  - vm_compute. reflexivity.
Defined.

(** A path is made of whatever is asked for: one that is no hash leaves the root of
    the store. *)
Lemma path_leaves_root : Path "/h/artifacts" "../../etc/passwd" = "/etc/passwd".
Proof. vm_compute. by repeat split. Qed.
End artifacts.
