(* ===== verification/Images.v ===== *)
(** * Images: image providers (spec §14)

    Models the core of [internal/adapter/imageprovider]: the protocol types
    ([protocol/protocol.go]), the registry ([registry.go]), the event sinks
    ([eventsink.go]) and the classification of failures ([failure.go]).  An
    adapter is an interface over a state [X] of the world. *)
From S2P Require Import Prelude Text Agent.
From Stdlib Require Import PrimFloat.

Module imageprovider.

(** ** protocol/protocol.go *)

Definition ProtocolVersion : Z := 1.

Definition TierDraft : string := "IMAGE_DRAFT".
Definition TierStandard : string := "IMAGE_STANDARD".
Definition TierHighQuality : string := "IMAGE_HIGH_QUALITY".
Definition Tiers : list string := [TierDraft; TierStandard; TierHighQuality].
Definition ImageTier_IsValid (t : string) : bool := bool_decide (t ∈ Tiers).

Definition FormatPNG : string := "image/png".
Definition FormatJPEG : string := "image/jpeg".
Definition FormatWebP : string := "image/webp".
Definition ImageFormat_IsValid (f : string) : bool := bool_decide (f ∈ [FormatPNG; FormatJPEG; FormatWebP]).

Record ImageSize := mkImageSize { Size_Width : Z; Size_Height : Z }.
Definition Pixels (s : ImageSize) : Z :=
  if (Size_Width s <=? 0)%Z || (Size_Height s <=? 0)%Z then 0%Z else text.wrap64 (Size_Width s * Size_Height s).

Record Artifact := mkArtifact {
  Hash : string;
  Path : string;
  Format : string;
  Width : Z;
  Height : Z;
  Bytes : Z;
  Source : string }.
Definition zeroArtifact : Artifact := mkArtifact "" "" "" 0 0 0 "".

Record ImageModel := mkImageModel {
  Model_ID : string;
  Model_Engine : string;
  Model_Tier : string;
  MaxResolution : Z;
  SupportsEdit : bool;
  SupportsImageInput : bool }.

(** An account is its name. *)
Record ImageGenerationRequest := mkImageGenerationRequest {
  RunID : string;
  Account : string;
  Engine : string;
  Model : string;
  Tier : string;
  Prompt : string;
  NegativePrompt : string;
  Size : ImageSize;
  Req_Format : string;
  Theme : string;
  Locale : string;
  Density : string;
  Reference : option Artifact;
  ProjectID : string;
  TaskID : string;
  VariantIndex : Z }.

Record Usage := mkUsage {
  InputTokens : Z;
  OutputTokens : Z;
  ImageGens : Z;
  CostUSD : float;
  Confidence : string;
  Included : bool }.

Record Result := mkResult {
  Result_RunID : string;
  Result_Engine : string;
  Result_Model : string;
  Result_Tier : string;
  Artifacts : list Artifact;
  Usage_ : Usage;
  Result_VariantIndex : Z }.
Definition Primary (r : Result) : Artifact := default zeroArtifact (head (Artifacts r)).

Inductive EventKind :=
| EventStarted | EventProgress | EventArtifact | EventUsage | EventCompleted | EventFailed | EventCancelled
| EventOther (s : string).
Definition EventKind_IsTerminal (k : EventKind) : bool :=
  match k with EventCompleted | EventFailed | EventCancelled => true | _ => false end.
Record Event := mkEvent {
  Kind : EventKind;
  Event_RunID : string;
  Event_Engine : string;
  Event_Model : string;
  Progress : float;
  Event_Artifact : option Artifact;
  Event_Usage : option Usage;
  Failure : option agent.FailureClassification;
  Detail : string }.

(** ** failure.go *)

Inductive Sentinel := ErrQuotaExhausted | ErrRateLimited | ErrAuthFailed | ErrInvalidImage | ErrModelNotAvailable | ErrTimeout.
#[global] Instance Sentinel_eq_dec : EqDecision Sentinel.
Proof. solve_decision. Defined.

(** A Go error: the sentinels it wraps, and its text. *)
Record error := mkError { wraps : list Sentinel; Error : string }.

Definition sentinelClass (s : Sentinel) : agent.FailureClass :=
  match s with
  | ErrQuotaExhausted => agent.FailureProviderQuota
  | ErrRateLimited => agent.FailureProviderRateLimit
  | ErrAuthFailed => agent.FailureProviderAuth
  | ErrModelNotAvailable => agent.FailureModelNotAvailable
  | ErrInvalidImage => agent.FailureImageProvider
  | ErrTimeout => agent.FailureTimeout
  end.
(** The sentinels in the order they are looked for. *)
Definition sentinels : list Sentinel :=
  [ErrQuotaExhausted; ErrRateLimited; ErrAuthFailed; ErrModelNotAvailable; ErrInvalidImage; ErrTimeout].

(** The classes that a text in lower case suggests, in the order they are tried. *)
Definition suggested (low : string) : option agent.FailureClass :=
  let has := strs.Contains low in
  if has "quota" || has "exhausted" then Some agent.FailureProviderQuota
  else if has "rate limit" || has "429" then Some agent.FailureProviderRateLimit
  else if has "unauthorized" || has "401" || has "auth" then Some agent.FailureProviderAuth
  else if has "model" && (has "not available" || has "not found") then Some agent.FailureModelNotAvailable
  else if has "invalid image" || has "corrupt" then Some agent.FailureImageProvider
  else if has "timeout" || has "deadline" then Some agent.FailureTimeout
  else None.

Definition withReason (fc : agent.FailureClassification) (reason : string) : agent.FailureClassification :=
  agent.mkFailureClassification (agent.Class_ fc) (agent.Policy fc) (agent.Retryable fc) (agent.Failover fc)
    (agent.MaxRetries fc) (agent.CooldownSeconds fc) reason (agent.ExitCode fc).

(** [DefaultClassify]; [None] is the nil error. *)
Definition DefaultClassify (err : option error) : agent.FailureClassification :=
  match err with
  | None =>
      let fc := agent.DefaultPolicy agent.FailureInternalError in
      agent.mkFailureClassification (agent.Class_ fc) agent.PolicyTerminal false (agent.Failover fc)
        (agent.MaxRetries fc) (agent.CooldownSeconds fc) "AnalyzeFailure called with nil error" (agent.ExitCode fc)
  | Some e =>
      match List.find (λ s, bool_decide (s ∈ wraps e)) sentinels with
      | Some s => agent.DefaultPolicy (sentinelClass s)
      | None =>
          match suggested (strs.ToLower (Error e)) with
          | Some c => agent.DefaultPolicy c
          | None => withReason (agent.DefaultPolicy agent.FailureImageProvider)
                      ("unclassified image-provider error: " +:+ Error e)
          end
      end
  end.

(** ** adapter.go *)

Record Adapter (X : Type) := mkAdapter {
  ID : string;
  ListModels : X → result error (list ImageModel);
  Generate : ImageGenerationRequest → X → result error Result * X }.
Arguments ID {X}. Arguments ListModels {X}. Arguments Generate {X}. Arguments mkAdapter {X}.

(** ** registry.go *)

(** An adapter and its priority by id. *)
Abbreviation Registry X := (gmap string (Adapter X * Z)).

Section registry.
  Context {X : Type}.

Definition NewRegistry : Registry X := ∅.

(** [Register] of a non-nil adapter, whose id is read once. *)
Definition Register (a : option (Adapter X)) (priority : Z) (r : Registry X) : result string (Registry X) :=
    match a with
    | None => Err "imageprovider: cannot register a nil adapter"
    | Some a =>
        if bool_decide (ID a = "") then Err "imageprovider: adapter has empty ID"
        else match r !! ID a with
             | Some _ => Err ("imageprovider: adapter " +:+ strs.q (ID a) +:+ " already registered")
             | None => Ok (<[ID a := (a, priority)]> r)
             end
    end.
(** [MustRegister] panics ([None]). *)
Definition MustRegister (a : option (Adapter X)) (priority : Z) (r : Registry X) : option (Registry X) :=
    match Register a priority r with Ok r => Some r | Err _ => None end.

Definition Lookup (id : string) (r : Registry X) : option (Adapter X) := fst <$> r !! id.
(** By descending priority, then by id. *)
Definition lessID (r : Registry X) (i j : string) : bool :=
    let prio id := default 0%Z (snd <$> r !! id) in
    if bool_decide (prio i = prio j) then bool_decide (String.le i j) && negb (bool_decide (i = j))
    else (prio j <? prio i)%Z.
Definition IDs (r : Registry X) : list string := sortStable (lessID r) (map_to_list r).*1.
Definition All (r : Registry X) : list (Adapter X) := omap (λ id, Lookup id r) (IDs r).
Definition Len (r : Registry X) : Z := Z.of_nat (size r).
Definition ModelsByTier (tier : string) (x : X) (r : Registry X) : list ImageModel :=
    flat_map (λ a, match ListModels a x with
                   | Ok models => List.filter (λ m, bool_decide (Model_Tier m = tier)) models
                   | Err _ => []
                   end) (All r).

Lemma ImageRegister_Lookup a p r r' : Register (Some a) p r = Ok r' →
  Lookup (ID a) r' = Some a ∧ (∀ id, id ≠ ID a → Lookup id r' = Lookup id r).
Proof.
  unfold Register, Lookup. case_bool_decide; [done|]. destruct (r !! ID a) eqn:Hr; [done|]. intros [= <-].
  split; [by rewrite lookup_insert_eq|]. intros id Hid. by rewrite lookup_insert_ne.
Qed.

Lemma elem_of_IDs id r : id ∈ IDs r ↔ is_Some (Lookup id r).
Proof.
  unfold IDs, Lookup. rewrite sortStable_Permutation, list_elem_of_fmap. split.
  - intros ([i p] & -> & Hin%elem_of_map_to_list). cbn. by rewrite Hin.
  - intros [a Ha]. apply fmap_Some in Ha as ([a' p] & Hin & ->). exists (id, (a', p)). split; [done|].
    by apply elem_of_map_to_list.
Qed.
End registry.

(** ** eventsink.go *)

(** [TeeSink.OnEvent] over sinks that may fail: the sinks after a failed one do not
    get the event. *)
Fixpoint tee {X} (sinks : list (Event → X → option string * X)) (ev : Event) (x : X) : option string * X :=
  match sinks with
  | [] => (None, x)
  | s :: sinks => let '(err, x) := s ev x in match err with Some e => (Some e, x) | None => tee sinks ev x end
  end.

(** ** The registry's lock *)

(** A [sync.RWMutex]: the readers inside, the writers that wait, and whether a
    writer is inside.  A waiting writer keeps new readers out. *)
Record RWMutex := mkRWMutex { readers : nat; waiting : nat; writing : bool }.
Inductive LockOp := RLock | RUnlock | Lock | Wait | Unlock.
(** One operation, when it does not block.  [Lock] announces the writer, [Wait] is
    the wait for the readers. *)
Definition lockStep (op : LockOp) (m : RWMutex) : option RWMutex :=
  match op with
  | RLock => if negb (writing m) && (waiting m =? 0) then Some (mkRWMutex (S (readers m)) (waiting m) (writing m)) else None
  | RUnlock => Some (mkRWMutex (readers m - 1) (waiting m) (writing m))
  | Lock => Some (mkRWMutex (readers m) (S (waiting m)) (writing m))
  | Wait => if negb (writing m) && (readers m =? 0) then Some (mkRWMutex 0 (waiting m - 1) true) else None
  | Unlock => Some (mkRWMutex (readers m) (waiting m) false)
  end.
(** The lock operations of [All], which calls [IDs] with the lock held, and of
    [Register]. *)
Definition allOps : list LockOp := [RLock; RLock; RUnlock; RUnlock].
Definition registerOps : list LockOp := [Lock; Wait; Unlock].

Inductive lockRun : list (list LockOp) * RWMutex → list (list LockOp) * RWMutex → Prop :=
| lock_step i op ops ts m m' : ts !! i = Some (op :: ops) → lockStep op m = Some m' → lockRun (ts, m) (<[i := ops]> ts, m').
Definition stuck (c : list (list LockOp) * RWMutex) : Prop := (∀ c', ¬ lockRun c c') ∧ ∃ ops, ops ∈ c.1 ∧ ops ≠ [].

(** [All] takes the read lock twice: a registration that comes in between waits for
    the first, and the second waits for the registration. *)
Lemma All_deadlocks : ∃ c, rtc lockRun ([allOps; registerOps], mkRWMutex 0 0 false) c ∧ stuck c.
Proof.
  exists ([[RLock; RUnlock; RUnlock]; [Wait; Unlock]], mkRWMutex 1 1 false). split.
  - eapply rtc_l; [apply (lock_step 0 RLock [RLock; RUnlock; RUnlock]); reflexivity|].
    eapply rtc_l; [apply (lock_step 1 Lock [Wait; Unlock]); reflexivity|]. reflexivity.
  - split; [|exists [Wait; Unlock]; split; [by right; left|done]].
    intros c' Hs. inversion Hs as [i op ops ts m m' Hi Hop]; subst. destruct i as [|[|i]]; cbn in Hi; [| |done];
      injection Hi as <- <-; done.
Qed.

(** "oauth" and "author" contain "auth": any error that mentions them stops the
    retries of its provider. *)
Lemma author_is_auth_failure :
  agent.Class_ (DefaultClassify (Some (mkError [] "field author: bad value"))) = agent.FailureProviderAuth.
Proof. vm_compute. by repeat split. Qed.
End imageprovider.
