(* ===== verification/Design.v ===== *)
(** * Design: from a brief to a locked visual specification (spec §15)

    Models [internal/design/types.go] and [orchestrator.go]: image variants are
    generated along a chain of provider routes, one is selected, and the
    specification handed to the coding agent is locked.  The providers are
    adapters of [Images.v]; the clock is an argument. *)
From S2P Require Import Prelude Text Router Images.
From Stdlib Require Import PrimFloat.
Import imageprovider.

Module design.

Definition ModeOff : string := "OFF".
Definition ModeReferenceOnly : string := "REFERENCE_ONLY".
Definition ModeGenerateIfMissing : string := "GENERATE_IF_MISSING".
Definition ModeAlwaysGenerate : string := "ALWAYS_GENERATE".
Definition Mode_IsValid (m : string) : bool :=
  bool_decide (m ∈ [ModeOff; ModeReferenceOnly; ModeGenerateIfMissing; ModeAlwaysGenerate]).

Definition SelectionHuman : string := "HUMAN".
Definition SelectionAutomatic : string := "AUTOMATIC".
Definition SelectionFirstValid : string := "FIRST_VALID".
Definition SelectionMode_IsValid (m : string) : bool :=
  bool_decide (m ∈ [SelectionHuman; SelectionAutomatic; SelectionFirstValid]).

Record Viewport := mkViewport { View_Width : Z; View_Height : Z }.

Record Brief := mkBrief {
  Brief_TaskID : string;
  Brief_ProjectID : string;
  Description : string;
  DesignSystemConstraints : list string;
  Brief_Viewport : Viewport;
  Brief_Theme : string;
  Brief_Locale : string;
  Brief_Density : string;
  Mode : string;
  Variants : Z;
  Brief_Tier : string;
  Brief_Reference : option Artifact;
  CreatedAt : Time }.

Record Variant := mkVariant {
  Index : Z;
  Variant_Engine : string;
  Variant_Model : string;
  Variant_Artifact : Artifact;
  Score : float;
  Variant_Error : option error }.

Record Specification := mkSpecification {
  Spec_TaskID : string;
  Spec_Mode : string;
  ArtifactHash : string;
  Spec_Artifact : Artifact;
  Spec_Viewport : Viewport;
  Spec_Theme : string;
  Spec_Locale : string;
  Spec_Density : string;
  Spec_Source : string;
  SelectedVariant : Z;
  LockedAt : Time }.
Definition zeroSpecification : Specification :=
  mkSpecification "" "" "" zeroArtifact (mkViewport 0 0) "" "" "" "" 0 0.
Definition IsLocked (s : Specification) : bool := negb (bool_decide (ArtifactHash s = "")).

Definition ToGenerationRequest (b : Brief) (runID : string) (variantIndex : Z) : ImageGenerationRequest :=
  mkImageGenerationRequest runID "" "" "" (if bool_decide (Brief_Tier b = "") then TierDraft else Brief_Tier b)
    (Description b) "" (mkImageSize (View_Width (Brief_Viewport b)) (View_Height (Brief_Viewport b))) FormatPNG
    (Brief_Theme b) (Brief_Locale b) (Brief_Density b) (Brief_Reference b) (Brief_ProjectID b) (Brief_TaskID b) variantIndex.

(** ** orchestrator.go *)

Definition WaitNone : string := "".
Definition WaitDesignSelection : string := "WAITING_DESIGN_SELECTION".
Definition WaitQuota : string := "WAITING_QUOTA".

(** [ErrNoRoutes] is declared and never returned. *)
Definition ErrNoRoutes : string := "design: no image-provider routes configured".

Record Outcome := mkOutcome {
  Spec : Specification;
  WaitState : string;
  Out_Variants : list Variant;
  Failovers : Z;
  UsedFallback : bool;
  Reason : string }.
Definition reasonOnly (reason : string) : Outcome := mkOutcome zeroSpecification WaitNone [] 0 false reason.

Record ProviderRoute := mkProviderRoute { Route_Engine : string; Route_Account : string; Route_Model : string }.

Definition variantScore (b : Brief) (art : Artifact) : float :=
  if (Bytes art <=? 0)%Z then 0%float
  else
    let want := text.wrap64 (View_Width (Brief_Viewport b) * View_Height (Brief_Viewport b)) in
    if (want <=? 0)%Z then 0.5%float
    else
      let got := text.wrap64 (Width art * Height art) in
      if (got <=? 0)%Z then 0.5%float
      else
        let ratio := div (router.float64 got) (router.float64 want) in
        let ratio := if ltb 1 ratio then 1%float else ratio in
        let ratio := if ltb ratio 0 then 0%float else ratio in
        add 0.5 (mul 0.5 ratio).

(** [selectVariant] of a nonempty list [v :: vs]. *)
Definition selectVariant (v : Variant) (vs : list Variant) (mode : string) : Variant :=
  if bool_decide (mode = SelectionFirstValid) then v
  else foldl (λ best v, if ltb (Score best) (Score v) then v else best) v vs.

Definition usable (v : Variant) : bool :=
  bool_decide (length (option_list (Variant_Error v)) = 0) && negb (bool_decide (Hash (Variant_Artifact v) = "")).
Definition filterUsable : list Variant → list Variant := List.filter usable.

(** [UnixNano]: nanoseconds since 1970 in a 64-bit [int]. *)
Definition UnixNano (t : Time) : Z := text.wrap64 (t - 62135596800 * time.Second).
Definition runIDFor (b : Brief) (idx : Z) : string :=
  "design-" +:+ Brief_TaskID b +:+ "-v" +:+ pretty idx +:+ "-" +:+ pretty (UnixNano (CreatedAt b)).

Section orchestrator.
  Context {X : Type}.
  (** The options: the registry, the selection mode with its default, the cap on
      the variants, whether generation is mandatory, and the time of the lock. *)
  Variables (registry : Registry X) (selection : string) (MaxVariants : Z) (GenerationRequired : bool) (now : Time).

Definition lock (b : Brief) (a : Artifact) (source : string) (idx : Z) : Specification :=
    mkSpecification (Brief_TaskID b) (Mode b) (Hash a) a (Brief_Viewport b) (Brief_Theme b) (Brief_Locale b) (Brief_Density b)
      source idx now.
Definition lockFromAttached (b : Brief) (ref : Artifact) (source : string) : Specification := lock b ref source 0.
Definition ResolveHumanSelection (b : Brief) (v : Variant) : Specification := lock b (Variant_Artifact v) "generated" (Index v).

Definition request (b : Brief) (route : ProviderRoute) (idx : Z) : ImageGenerationRequest :=
    let q := ToGenerationRequest b (runIDFor b idx) idx in
    mkImageGenerationRequest (RunID q) (Route_Account route) (Route_Engine route) (Route_Model route) (Tier q) (Prompt q)
      (NegativePrompt q) (Size q) (Req_Format q) (Theme q) (Locale q) (Density q) (Reference q) (ProjectID q) (TaskID q)
      (VariantIndex q).

(** [count] variants on one route, from [startIdx] on: what was produced, and the
    error that ended the route early. *)
Fixpoint generateOnRoute (a : Adapter X) (b : Brief) (route : ProviderRoute) (startIdx : Z) (count : nat) (x : X) :
      (list Variant * option error) * X :=
    match count with
    | O => (([], None), x)
    | S count =>
        let '(res, x) := Generate a (request b route startIdx) x in
        match res with
        | Err e => (([], Some e), x)
        | Ok res =>
            let v := mkVariant startIdx (Route_Engine route) (Result_Model res) (Primary res) (variantScore b (Primary res)) None in
            let '((vs, err), x) := generateOnRoute a b route (startIdx + 1) count x in
            ((v :: vs, err), x)
        end
    end.

(** The loop over the routes: what was produced so far, of [want] variants, and the
    routes that failed. *)
Fixpoint alongRoutes (b : Brief) (want : Z) (routes : list ProviderRoute) (variants : list Variant) (failovers : Z) (x : X) :
      (list Variant * Z) * X :=
    match routes with
    | [] => ((variants, failovers), x)
    | route :: routes =>
        let remaining := (want - Z.of_nat (length variants))%Z in
        if (remaining <=? 0)%Z then ((variants, failovers), x)
        else
          match Lookup (Route_Engine route) registry with
          | None => alongRoutes b want routes variants (failovers + 1) x
          | Some a =>
              let '((produced, err), x) :=
                generateOnRoute a b route (Z.of_nat (length variants) + 1) (Z.to_nat remaining) x in
              match err with
              | Some _ => alongRoutes b want routes variants (failovers + 1) x
              | None => alongRoutes b want routes (variants ++ produced) failovers x
              end
          end
    end.
Definition wanted (b : Brief) : Z :=
    let want := if (Variants b <=? 0)%Z then 1%Z else Variants b in
    if (0 <? MaxVariants)%Z && (MaxVariants <? want)%Z then MaxVariants else want.
Definition generateAcrossRoutes (b : Brief) (routes : list ProviderRoute) (x : X) : (list Variant * Z) * X :=
    alongRoutes b (wanted b) routes [] 0 x.

(** An attached reference that can be used. *)
Definition attached (b : Brief) : option Artifact :=
    ref ← Brief_Reference b; if bool_decide (Hash ref = "") then None else Some ref.

Definition selectedReason (v : Variant) (score : float → string) : string :=
    "selected variant " +:+ pretty (Index v) +:+ " from " +:+ Variant_Engine v +:+ " (score=" +:+ score (Score v) +:+ ")".

(** [Run]; [format] is the ["%.2f"] of the score in the explanation. *)
Definition Run (format : float → string) (b : Brief) (routes : list ProviderRoute) (x : X) : Outcome * X :=
    if bool_decide (Mode b ∈ [ModeOff; ModeReferenceOnly]) then
      (match attached b with
       | Some ref => mkOutcome (lockFromAttached b ref "attached") WaitNone [] 0 false
                       "reference-only: locked attached image as visual specification"
       | None => reasonOnly (if bool_decide (Mode b = ModeReferenceOnly)
                             then "reference-only mode requested but no reference attached"
                             else "design generation off and no reference attached")
       end, x)
    else
      match (if bool_decide (Mode b = ModeGenerateIfMissing) then attached b else None) with
      | Some ref => (mkOutcome (lockFromAttached b ref "attached") WaitNone [] 0 false
                       "generate-if-missing: reference present, skipped generation", x)
      | None =>
          let '((variants, failovers), x) := generateAcrossRoutes b routes x in
          (match filterUsable variants with
           | [] =>
               match attached b with
               | Some ref => mkOutcome (lockFromAttached b ref "fallback") WaitNone variants failovers true
                               "all image providers failed; used attached image as fallback (§15.5)"
               | None =>
                   if GenerationRequired
                   then mkOutcome zeroSpecification WaitQuota variants failovers false
                          "all image providers exhausted and design generation mandatory (§15.5 WAITING_QUOTA)"
                   else mkOutcome zeroSpecification WaitNone variants failovers false
                          "all image providers failed; design generation optional, continuing without spec (§15.5)"
               end
           | v :: vs =>
               if bool_decide (selection = SelectionHuman) then
                 mkOutcome zeroSpecification WaitDesignSelection variants failovers false
                   "human selection requested; task enters WAITING_DESIGN_SELECTION (§15.4)"
               else
                 let chosen := selectVariant v vs selection in
                 mkOutcome (lock b (Variant_Artifact chosen) "generated" (Index chosen)) WaitNone variants failovers false
                   (selectedReason chosen format)
           end, x)
      end.
End orchestrator.

(** The default of [New]. *)
Definition selectionOr (s : string) : string := if bool_decide (s = "") then SelectionFirstValid else s.

(** ** What a run gives *)

Section correctness.
  Context {X : Type}.
  Variables (registry : Registry X) (selection : string) (MaxVariants : Z) (GenerationRequired : bool) (now : Time)
    (format : float → string).
  Local Notation Run := (Run registry selection MaxVariants GenerationRequired now format).

(** The ordinals from one on. *)
Definition ordinals (from : Z) (vs : list Variant) : Prop := Index <$> vs = (λ i, (from + Z.of_nat i)%Z) <$> seq 0 (length vs).

Lemma ordinals_app from vs vs' : ordinals from vs → ordinals (from + Z.of_nat (length vs)) vs' → ordinals from (vs ++ vs').
Proof.
  unfold ordinals. intros H H'. rewrite fmap_app, H, H', length_app, seq_app, fmap_app. f_equal.
  rewrite <-(Nat.add_0_r (0 + length vs)), <-fmap_add_seq, <-list_fmap_compose.
  apply list_fmap_ext. intros _ i _. cbn. lia.
Qed.

Lemma generateOnRoute_spec (a : Adapter X) b route from count x vs err x' :
  generateOnRoute a b route from count x = ((vs, err), x') →
  ordinals from vs ∧ length vs ≤ count ∧ (err = None → length vs = count) ∧ Forall (λ v, Variant_Error v = None) vs.
Proof.
  revert from x vs err x'. induction count as [|count IH]; intros from x vs err x'; cbn [generateOnRoute].
  { intros [= <- <- <-]. by repeat constructor. }
  destruct (Generate a _ x) as [[res|e] x1]; [|intros [= <- <- <-]; repeat split; [cbn; lia|done|constructor]].
  destruct (generateOnRoute a b route (from + 1) count x1) as [[vs1 err1] x2] eqn:Hg. intros [= <- <- <-].
  destruct (IH _ _ _ _ _ Hg) as (Ho & Hl & Hn & Hf). split; [|split; [|split]].
  - apply (ordinals_app from [_] vs1); [unfold ordinals; cbn; by rewrite Z.add_0_r|exact Ho].
  - cbn. lia.
  - intros He. cbn. by rewrite Hn.
  - by constructor.
Qed.

Lemma alongRoutes_spec b want routes variants failovers x vs n x' :
  alongRoutes registry b want routes variants failovers x = ((vs, n), x') →
  ordinals 1 variants → (Z.of_nat (length variants) ≤ Z.max 0 want)%Z → Forall (λ v, Variant_Error v = None) variants →
  ordinals 1 vs ∧ (Z.of_nat (length vs) ≤ Z.max 0 want)%Z ∧ Forall (λ v, Variant_Error v = None) vs ∧
  (failovers ≤ n ≤ failovers + Z.of_nat (length routes))%Z.
Proof.
  revert variants failovers x. induction routes as [|route routes IH]; intros variants failovers x; cbn [alongRoutes].
  { intros [= <- <- <-]. repeat split; try done; cbn; lia. }
  destruct (_ <=? 0)%Z eqn:Hrem; [intros [= <- <- <-]; repeat split; try done; cbn; lia|]. apply Z.leb_gt in Hrem.
  destruct (Lookup _ registry) as [a|].
  2:{ intros Hr Ho Hl Hf. destruct (IH _ _ _ Hr Ho Hl Hf) as (? & ? & ? & ?). repeat split; try done; cbn; lia. }
  destruct (generateOnRoute a b route _ _ x) as [[produced err] x1] eqn:Hg.
  apply generateOnRoute_spec in Hg as (Ho' & Hl' & Hn & Hf').
  destruct err as [e|]; intros Hr Ho Hl Hf.
  - destruct (IH _ _ _ Hr Ho Hl Hf) as (? & ? & ? & ?). repeat split; try done; cbn; lia.
  - destruct (IH _ _ _ Hr) as (? & ? & ? & ?).
    + apply ordinals_app; [done|]. by rewrite Z.add_comm.
    + rewrite length_app. lia.
    + by apply Forall_app.
    + repeat split; try done; cbn; lia.
Qed.

Lemma selectVariant_in v vs mode : selectVariant v vs mode ∈ v :: vs.
Proof.
  unfold selectVariant. case_bool_decide; [by left|]. revert v.
  induction vs as [|w vs IH]; intros v; cbn; [by left|]. destruct (ltb (Score v) (Score w)).
  - right. apply IH.
  - specialize (IH v). apply elem_of_cons in IH as [->|IH]; [by left|by right; right].
Qed.

Lemma filterUsable_in v vs : v ∈ filterUsable vs → v ∈ vs ∧ Hash (Variant_Artifact v) ≠ "".
Proof.
  unfold filterUsable. intros Hin. apply list_elem_of_In, filter_In in Hin as [Hin Hu]. split; [by apply list_elem_of_In|].
  unfold usable in Hu. apply andb_true_iff in Hu as [_ Hu]. by apply negb_true_iff, bool_decide_eq_false in Hu.
Qed.

Lemma attached_spec b ref : attached b = Some ref ↔ Brief_Reference b = Some ref ∧ Hash ref ≠ "".
Proof. unfold attached. destruct (Brief_Reference b) as [r|]; cbn; [|naive_solver]. case_bool_decide; naive_solver. Qed.

(** Where the locked image comes from. *)
Definition provenance (b : Brief) (o : Outcome) : Prop :=
    (Spec_Source (Spec o) ∈ ["attached"; "fallback"] ∧ Brief_Reference b = Some (Spec_Artifact (Spec o)))
    ∨ (Spec_Source (Spec o) = "generated" ∧
       ∃ v, v ∈ Out_Variants o ∧ Spec_Artifact (Spec o) = Variant_Artifact v ∧ SelectedVariant (Spec o) = Index v).

(** What holds of every outcome. *)
Definition sound (b : Brief) (routes : list ProviderRoute) (o : Outcome) : Prop :=
    (IsLocked (Spec o) = true → provenance b o ∧ ArtifactHash (Spec o) = Hash (Spec_Artifact (Spec o)) ∧
       Spec_Viewport (Spec o) = Brief_Viewport b ∧ Spec_Theme (Spec o) = Brief_Theme b ∧
       Spec_Locale (Spec o) = Brief_Locale b ∧ Spec_Density (Spec o) = Brief_Density b ∧ LockedAt (Spec o) = now) ∧
    (WaitState o ≠ WaitNone → IsLocked (Spec o) = false) ∧
    (WaitState o = WaitQuota → GenerationRequired = true ∧ filterUsable (Out_Variants o) = [] ∧ attached b = None) ∧
    (ordinals 1 (Out_Variants o) ∧ (Z.of_nat (length (Out_Variants o)) ≤ wanted MaxVariants b)%Z ∧
     (0 ≤ Failovers o ≤ Z.of_nat (length routes))%Z).

Lemma wanted_pos b : (0 < wanted MaxVariants b)%Z.
Proof.
  unfold wanted. destruct (_ && _) eqn:H; [apply andb_true_iff in H as [H _]; lia|]. destruct (Variants b <=? 0)%Z eqn:?; lia.
Qed.

(** Variants of a run along the routes. *)
Definition produced (b : Brief) (routes : list ProviderRoute) (vs : list Variant) (n : Z) : Prop :=
    ordinals 1 vs ∧ (Z.of_nat (length vs) ≤ wanted MaxVariants b)%Z ∧ (0 ≤ n ≤ Z.of_nat (length routes))%Z.
Lemma produced_nothing b routes : produced b routes [] 0.
Proof. pose proof (wanted_pos b). repeat split; cbn; lia. Qed.
Lemma generateAcrossRoutes_produced b routes x vs n x' :
  generateAcrossRoutes registry MaxVariants b routes x = ((vs, n), x') → produced b routes vs n.
Proof.
  pose proof (wanted_pos b). intros (Ho & Hl & _ & Hn)%alongRoutes_spec; [|done|cbn; lia|constructor].
  split; [done|]. split; lia.
Qed.

Lemma sound_attached b routes ref source vs n fb reason :
  attached b = Some ref → source ∈ ["attached"; "fallback"] → produced b routes vs n →
  sound b routes (mkOutcome (lockFromAttached now b ref source) WaitNone vs n fb reason).
Proof.
  intros [Hr _]%attached_spec Hs Hp. split; [intros _; split; [by left|done]|]. split; [done|]. by split.
Qed.
Lemma sound_unlocked b routes wait vs n reason :
  (wait = WaitQuota → GenerationRequired = true ∧ filterUsable vs = [] ∧ attached b = None) → produced b routes vs n →
  sound b routes (mkOutcome zeroSpecification wait vs n false reason).
Proof. intros Hq Hp. split; [done|]. split; [done|]. by split. Qed.
Lemma sound_generated b routes v vs n reason :
  v ∈ filterUsable vs → produced b routes vs n →
  sound b routes (mkOutcome (lock now b (Variant_Artifact v) "generated" (Index v)) WaitNone vs n false reason).
Proof.
  intros [Hv _]%filterUsable_in Hp. split; [|split; [done|by split]].
  intros _. split; [|done]. right. split; [done|]. by exists v.
Qed.

(** the design pipeline, for every provider.  A specification is locked
    exactly to an image that exists (its hash is not empty): the attached
    reference, or a variant that was generated in this run; it carries the
    brief's viewport, theme, locale and density.  A task that is to wait has no
    locked specification, and waits for quota only when the design is mandatory
    and there is neither a variant nor a reference.  At most the wanted variants
    are kept, numbered from one.  A design that is off, reference-only, or
    missing nothing asks no provider. *)
Theorem Run_locks b routes x :
  sound b routes (Run b routes x).1 ∧
  (bool_decide (Mode b ∈ [ModeOff; ModeReferenceOnly]) || bool_decide (Mode b = ModeGenerateIfMissing ∧ is_Some (attached b)) = true →
   (Run b routes x).2 = x).
Proof.
  pose proof (produced_nothing b routes) as Hnone.
  unfold design.Run. destruct (decide (Mode b ∈ [ModeOff; ModeReferenceOnly])) as [Hm|Hm].
  { rewrite bool_decide_true by done. split; [|done]. destruct (attached b) as [ref|] eqn:Ha; cbn [fst].
    - apply sound_attached; [done|left|done].
    - by apply sound_unlocked. }
  rewrite bool_decide_false by done. destruct (decide (Mode b = ModeGenerateIfMissing ∧ is_Some (attached b))) as [[Hg Ha]|Hg].
  { rewrite (bool_decide_true (Mode b = _)) by done. destruct Ha as [ref Ha]. rewrite Ha. split; [|done].
    apply sound_attached; [done|left|done]. }
  assert ((if bool_decide (Mode b = ModeGenerateIfMissing) then attached b else None) = None) as ->.
  { case_bool_decide as Hmode; [|done]. apply eq_None_not_Some. intros Ha. by apply Hg. }
  rewrite (bool_decide_false (_ ∧ _)) by done. split; [|done].
  destruct (generateAcrossRoutes _ _ b routes x) as [[vs n] x1] eqn:Hgen. apply generateAcrossRoutes_produced in Hgen.
  cbn [fst]. destruct (filterUsable vs) as [|v us] eqn:Hu.
  - destruct (attached b) as [ref|] eqn:Ha; [apply sound_attached; [done|by right; left|done]|].
    destruct (Bool.bool_dec GenerationRequired true) as [Hq|Hq%not_true_is_false]; rewrite Hq; by apply sound_unlocked.
  - case_bool_decide; [by apply sound_unlocked|]. apply sound_generated; [|done]. rewrite Hu. apply selectVariant_in.
Qed.
End correctness.

Definition demoBrief (mode : string) : Brief :=
  mkBrief "T" "P" "a page" [] (mkViewport 8 4) "dark" "en" "" mode 2 "" None 0.
(** A provider that counts its calls, and fails at the second one. *)
Definition demoAdapter (id : string) : Adapter (list string) :=
  mkAdapter id (λ _, Ok [])
    (λ q l, (if bool_decide (length (List.filter (λ i, bool_decide (i = id)) l) = 1) && bool_decide (id = "a")
             then Err (mkError [ErrQuotaExhausted] "quota")
             else Ok (mkResult (RunID q) id "m" (Tier q) [mkArtifact (RunID q) "" FormatPNG 8 4 10 ""] (mkUsage 0 0 1 0%float "" true) 0),
             l ++ [id])).
Definition demoRegistry : Registry (list string) := {["a" := (demoAdapter "a", 1%Z); "b" := (demoAdapter "b", 0%Z)]}.
Definition demoRun (mode selection : string) : Outcome * list string :=
  Run demoRegistry selection 2 true 7 (λ _, "0.50") (demoBrief mode)
    [mkProviderRoute "a" "" ""; mkProviderRoute "none" "" ""; mkProviderRoute "b" "" ""] [].

Example demo_locks :
  let o := (demoRun ModeAlwaysGenerate SelectionAutomatic).1 in
  IsLocked (Spec o) = true ∧ SelectedVariant (Spec o) = 1%Z ∧ Failovers o = 2%Z ∧ Index <$> Out_Variants o = [1; 2]%Z ∧
  WaitState (demoRun ModeAlwaysGenerate SelectionHuman).1 = WaitDesignSelection.
Proof. vm_compute. by repeat split. Qed.

Lemma Run_locks_witness :
  (demoRun ModeOff SelectionAutomatic).2 = [].
Proof. apply (Run_locks demoRegistry SelectionAutomatic 2 true 7 (λ _, "0.50") (demoBrief ModeOff)). vm_compute. reflexivity. Defined.

(** The variants of a route that fails are documented to be kept; they are dropped,
    and generated again on the next route: a variant that was paid for is thrown
    away. *)
Lemma failed_route_drops_variants :
  let '(o, calls) := demoRun ModeAlwaysGenerate SelectionAutomatic in
  calls = ["a"; "a"; "b"; "b"] ∧ Variant_Engine <$> Out_Variants o = ["b"; "b"].
Proof. vm_compute. by repeat split. Qed.

(** Without routes and with a mandatory design the run is documented to answer
    [ErrNoRoutes]; it waits for quota. *)
Lemma no_routes_wait : WaitState (Run demoRegistry SelectionAutomatic 0 true 7 (λ _, "") (demoBrief ModeAlwaysGenerate) [] []).1 = WaitQuota.
Proof. vm_compute. by repeat split. Qed.
End design.
