(* ===== verification/Visual.v ===== *)
(** * Visual: the visual verification engine (spec §16)

    Models [internal/visual]: the deterministic checks, the reference-free review,
    the engine with its multimodal evaluator as an interface, and the repair
    loop.  Scores are IEEE doubles; the bytes of a screenshot are a string. *)
From S2P Require Import Prelude Text Router Images.
From Stdlib Require Import PrimFloat.
Import imageprovider.

Module visual.

Definition SeverityBlocker : string := "blocker".
Definition SeverityMajor : string := "major".
Definition SeverityMinor : string := "minor".
Definition SeverityInfo : string := "info".
Definition Severity_IsValid (s : string) : bool := bool_decide (s ∈ [SeverityBlocker; SeverityMajor; SeverityMinor; SeverityInfo]).

Record Finding := mkFinding { Severity : string; Region : string; Description : string; Code : string }.
Definition IsActionable (f : Finding) : bool := bool_decide (Severity f ∈ [SeverityBlocker; SeverityMajor]).

Definition StatusPassed : string := "passed".
Definition StatusFailed : string := "failed".
Definition StatusSkipped : string := "skipped".
Definition StatusNotVerified : string := "not_verified".
Definition IsVerified (s : string) : bool := bool_decide (s = StatusPassed).

Definition ReferenceFreeNone : string := "".
Definition ReferenceFreeRan : string := "reference_free".

(** [ResultArtifacts] without the diff, which nothing sets. *)
Record Result := mkResult {
  Status : string;
  Score : float;
  Findings : list Finding;
  Result_Reference : option Artifact;
  Result_Actual : option Artifact;
  ReferenceBased : bool;
  PixelPerfect : bool;
  Mode : string;
  CheckedAt : Time;
  Reason : string }.

(** ** deterministic.go *)

(** The floats of the code. *)
Definition clamp0 (f : float) : float := if ltb f 0 then 0%float else f.
Definition clamp1 (f : float) : float := if ltb 1 f then 1%float else f.

Definition countByte (n : nat) (b : string) : Z :=
  (fix go b := match b with EmptyString => 0%Z | String c b => ((if bool_decide (nat_of_ascii c = n) then 1 else 0) + go b)%Z end) b.
Definition len (b : string) : Z := Z.of_nat (String.length b).
Definition isBlank (b : string) (threshold : float) : bool :=
  if bool_decide (b = "") then true
  else
    let threshold := if leb threshold 0 || leb 1 threshold then 0.98%float else threshold in
    let max := foldl Z.max 0%Z ((λ n, countByte n b) <$> seq 0 256) in
    leb threshold (div (router.float64 max) (router.float64 (len b))).

Fixpoint sumBytes (b : string) : Z :=
  match b with EmptyString => 0%Z | String c b => (Z.of_nat (nat_of_ascii c) + sumBytes b)%Z end.
Definition meanLuminance (b : string) : Z := if bool_decide (b = "") then (-1)%Z else (sumBytes b / len b)%Z.

(** The positions where two payloads agree; a missing byte is a zero. *)
Fixpoint agreeing (a b : string) : Z :=
  match a, b with
  | String x a, String y b => ((if bool_decide (x = y) then 1 else 0) + agreeing a b)%Z
  | EmptyString, b => countByte 0 b
  | a, EmptyString => countByte 0 a
  end.
Definition jaccardBytes (a b : string) : float :=
  let n := Z.max (len a) (len b) in
  if (n =? 0)%Z then 1%float else div (router.float64 (agreeing a b)) (router.float64 n).

Record DeterministicResult := mkDeterministicResult { Det_Score : float; Det_Findings : list Finding }.
Definition BlankThreshold : float := 0.98%float.

(** The four checks after the dimensions, each on the score and the findings so
    far. *)
Definition checkSize (ref : option Artifact) (act : Artifact) (r : DeterministicResult) : DeterministicResult :=
  match ref with
  | Some ref =>
      if (0 <? Width ref)%Z && (0 <? Height ref)%Z
         && negb ((Width act =? Width ref)%Z && (Height act =? Height ref)%Z) then
        let f := if (Width act <? Width ref)%Z || (Height act <? Height ref)%Z
                 then mkFinding SeverityMajor "viewport" "actual is smaller than reference (possible clipping)" "clipping"
                 else mkFinding SeverityMajor "viewport" "actual is larger than reference (possible overflow)" "overflow" in
        mkDeterministicResult (sub (Det_Score r) 0.3) (Det_Findings r ++ [f])
      else r
  | None => r
  end.
Definition checkBlank (threshold : float) (act : string) (r : DeterministicResult) : DeterministicResult :=
  if negb (bool_decide (act = "")) && isBlank act threshold
  then mkDeterministicResult 0
         (Det_Findings r ++ [mkFinding SeverityBlocker "" "screenshot appears blank (single colour / empty)" "blank_screen"])
  else r.
Definition extreme (b : string) : bool :=
  let mean := meanLuminance b in (0 <=? mean)%Z && ((mean <? 5)%Z || (250 <? mean)%Z).
Definition checkContrast (act : string) (r : DeterministicResult) : DeterministicResult :=
  if negb (bool_decide (act = "")) && extreme act
  then mkDeterministicResult (sub (Det_Score r) 0.2)
         (Det_Findings r ++ [mkFinding SeverityMajor "" "extreme luminance — possible blank/white screen" "contrast_extreme"])
  else r.
Definition checkSimilar (ref : option Artifact) (refBytes act : string) (r : DeterministicResult) : DeterministicResult :=
  if bool_decide (length (option_list ref) = 0) || bool_decide (refBytes = "") || bool_decide (act = "")
     || bool_decide (refBytes = act) then r
  else
    let sim := jaccardBytes refBytes act in
    if ltb sim 0.9 then
      mkDeterministicResult (mul (Det_Score r) sim)
        (Det_Findings r ++ [mkFinding SeverityMajor "global" "actual differs substantially from reference" "visual_diff"])
    else if ltb sim 0.99 then
      mkDeterministicResult (mul (Det_Score r) sim)
        (Det_Findings r ++ [mkFinding SeverityMinor "global" "minor visual difference from reference" "visual_diff_minor"])
    else r.

Definition Check (threshold : float) (ref : option Artifact) (act : Artifact) (refBytes actBytes : string) : DeterministicResult :=
  if (Width act <=? 0)%Z || (Height act <=? 0)%Z
  then mkDeterministicResult 0 [mkFinding SeverityBlocker "" "actual screenshot has no dimensions" "missing_dimensions"]
  else
    let r := checkSimilar ref refBytes actBytes
               (checkContrast actBytes (checkBlank threshold actBytes
                  (checkSize ref act (mkDeterministicResult 1 [])))) in
    mkDeterministicResult (clamp1 (clamp0 (Det_Score r))) (Det_Findings r).

(** ** multimodal.go *)

Record MultimodalInput := mkMultimodalInput {
  MM_Reference : option Artifact;
  MM_Actual : option Artifact;
  ReferenceBytes : string;
  ActualBytes : string }.
Record MultimodalOutput := mkMultimodalOutput { MM_Score : float; MM_Findings : list Finding }.

Definition distinctByteCount (b : string) : Z :=
  Z.of_nat (length (List.filter (λ n, (0 <? countByte n b)%Z) (seq 0 256))).
(** [DeterministicMultimodal.Evaluate], which subtracts zero for a difference. *)
Definition Evaluate (i : MultimodalInput) : MultimodalOutput :=
  match MM_Actual i with
  | None => mkMultimodalOutput (-1) []
  | Some _ =>
      if negb (bool_decide (ActualBytes i = "")) && (distinctByteCount (ActualBytes i) <? 4)%Z
      then mkMultimodalOutput (clamp0 (sub 1 0.3))
             [mkFinding SeverityMajor "" "very few distinct colours — possible blank or broken render" "low_colour_diversity"]
      else mkMultimodalOutput 1 []
  end.

(** ** reference_free.go *)

Definition ReferenceFreeReview (actual : option Artifact) (b : string) : list Finding :=
  match actual with
  | None => [mkFinding SeverityBlocker "" "no screenshot captured" "no_screenshot"]
  | Some act =>
      if (Width act <=? 0)%Z || (Height act <=? 0)%Z
      then [mkFinding SeverityBlocker "" "screenshot has no dimensions" "missing_dimensions"]
      else if negb (bool_decide (b = "")) && isBlank b 0.98
      then [mkFinding SeverityBlocker "" "screenshot appears blank — possibly empty screen or render failure" "blank_screen"]
      else
        (if negb (bool_decide (b = "")) && (distinctByteCount b <? 4)%Z
         then [mkFinding SeverityMajor "" "very few distinct colours — possibly broken render" "low_colour_diversity"] else [])
        ++ (if negb (bool_decide (b = "")) && extreme b
            then [mkFinding SeverityMajor "" "extreme luminance impairs readability" "readability_extreme"] else [])
        ++ (if (Bytes act =? 0)%Z
            then [mkFinding SeverityBlocker "" "screenshot has zero bytes" "empty_screenshot"] else [])
  end.

(** ** engine.go *)

Record VerifyInput := mkVerifyInput {
  In_Reference : option Artifact;
  In_Actual : option Artifact;
  Enabled : bool;
  MinimumScore : float;
  (** [Store.Read]; [None] is the nil store. *)
  Store : option (string → result string string) }.

Definition hasBlocker (fs : list Finding) : bool := existsb (λ f, bool_decide (Severity f = SeverityBlocker)) fs.
Definition filterActionable (fs : list Finding) : list Finding := List.filter IsActionable fs.
Definition deduction (f : Finding) : float :=
  if bool_decide (Severity f = SeverityBlocker) then 0.5%float
  else if bool_decide (Severity f = SeverityMajor) then 0.2%float
  else if bool_decide (Severity f = SeverityMinor) then 0.05%float else 0%float.
Definition referenceFreeScore (fs : list Finding) : float := clamp0 (foldl (λ s f, sub s (deduction f)) 1%float fs).

(** The bytes of an artifact; an error is dropped. *)
Definition readBytes (s : option (string → result string string)) (hash : string) : string :=
  match s with
  | None => ""
  | Some read => if bool_decide (hash = "") then "" else match read hash with Ok b => b | Err _ => "" end
  end.

(** An artifact with a hash. *)
Definition present (a : option Artifact) : option Artifact :=
  a ← a; if bool_decide (Hash a = "") then None else Some a.
Definition minimum (i : VerifyInput) : float := if leb (MinimumScore i) 0 then 0.9%float else MinimumScore i.
Definition statusFor (fs : list Finding) (score min : float) : string :=
  if hasBlocker fs || ltb score min then StatusFailed else StatusPassed.

Section engine.
  Context {X : Type}.
  Variables (threshold : float) (evaluate : MultimodalInput → X → MultimodalOutput * X) (now : Time).

Definition withoutVerification (status reason : string) : Result :=
    mkResult status 0 [] None None false false ReferenceFreeNone now reason.

Definition Verify (i : VerifyInput) (x : X) : Result * X :=
    if negb (Enabled i) then (withoutVerification StatusSkipped "visual verification disabled by policy (§5)", x)
    else
      match present (In_Actual i) with
      | None => (withoutVerification StatusNotVerified "no captured screenshot available", x)
      | Some act =>
          let actBytes := readBytes (Store i) (Hash act) in
          match present (In_Reference i) with
          | None =>
              let fs := ReferenceFreeReview (Some act) actBytes in
              let score := referenceFreeScore fs in
              (mkResult (statusFor fs score (minimum i)) score fs None (Some act) false false ReferenceFreeRan now
                 "reference-free review (§16.6); pixel-perfect NOT claimed", x)
          | Some ref =>
              let refBytes := readBytes (Store i) (Hash ref) in
              let dc := Check threshold (Some ref) act refBytes actBytes in
              let '(mm, x) := evaluate (mkMultimodalInput (Some ref) (Some act) refBytes actBytes) x in
              let fs := Det_Findings dc ++ MM_Findings mm in
              let score := if leb 0 (MM_Score mm) then div (add (Det_Score dc) (MM_Score mm)) 2 else Det_Score dc in
              (mkResult (statusFor fs score (minimum i)) score fs (Some ref) (Some act) true
                 (leb 0.999 score && bool_decide (length (filterActionable fs) = 0)) ReferenceFreeNone now "", x)
          end
      end.
End engine.

(** ** repair.go *)

Record RepairLoopConfig := mkRepairLoopConfig { MaximumIterations : Z; Cfg_MinimumScore : float }.
Definition DefaultRepairLoopConfig : RepairLoopConfig := mkRepairLoopConfig 3 0.9.
Record RepairOutcome := mkRepairOutcome {
  Resolved : bool;
  FinalResult : Result;
  IterationsRun : Z;
  History : list Result }.

Section repair.
  Context {X : Type}.
  Variables (cfg : RepairLoopConfig) (repair : list Finding → Z → X → option string * X) (verify : X → result string Result * X).

Definition met (r : Result) : bool := IsVerified (Status r) && leb (Cfg_MinimumScore cfg) (Score r).

(** The loop at iteration [iter], with the last result and the history, and the
    iterations that are left. *)
Fixpoint repairLoop (left_ : nat) (iter : Z) (current : Result) (history : list Result) (x : X) :
      (RepairOutcome * option string) * X :=
    match left_ with
    | O => ((mkRepairOutcome false current (iter - 1) history, None), x)
    | S left_ =>
        let actionable := filterActionable (Findings current) in
        if bool_decide (length actionable = 0) && leb (Cfg_MinimumScore cfg) (Score current)
        then ((mkRepairOutcome true current (iter - 1) history, None), x)
        else
          let '(err, x) := repair actionable iter x in
          match err with
          | Some e => ((mkRepairOutcome false current iter history,
                        Some ("visual repair: iteration " +:+ pretty iter +:+ ": " +:+ e)), x)
          | None =>
              let '(res, x) := verify x in
              match res with
              | Err e => ((mkRepairOutcome false current iter history,
                           Some ("visual repair: verify iteration " +:+ pretty iter +:+ ": " +:+ e)), x)
              | Ok verified =>
                  if met verified then ((mkRepairOutcome true verified iter (history ++ [verified]), None), x)
                  else repairLoop left_ (iter + 1) verified (history ++ [verified]) x
              end
          end
    end.

(** [RunRepairLoop] panics ([None]) without iterations. *)
Definition RunRepairLoop (initial : Result) (x : X) : option ((RepairOutcome * option string) * X) :=
    if (MaximumIterations cfg <=? 0)%Z then None
    else
      let out resolved := mkRepairOutcome resolved initial 0 [initial] in
      if met initial then Some ((out true, None), x)
      else if bool_decide (Status initial ∈ [StatusSkipped; StatusNotVerified]) then Some ((out false, None), x)
      else Some (repairLoop (Z.to_nat (MaximumIterations cfg)) 1 initial [initial] x).
End repair.

(** ** What is claimed *)

(** Each check leaves its finding, and those before stay. *)
Section checks.
  Context (P : Finding → Prop).
#[local] Abbreviation clean r := (Forall P (Det_Findings r)).

Lemma finding_kept score fs f : clean (mkDeterministicResult score (fs ++ [f])) → Forall P fs ∧ P f.
Proof. cbn. rewrite Forall_app, Forall_singleton. done. Qed.

Lemma checkSize_clean ref act r : clean (checkSize (Some ref) act r) → (∀ f, Severity f = SeverityMajor → ¬ P f) →
  clean r ∧ ((0 < Width ref)%Z → (0 < Height ref)%Z → Width act = Width ref ∧ Height act = Height ref).
Proof.
  intros H Hp. unfold checkSize in H. destruct (_ && _) eqn:E.
  - apply finding_kept in H as [_ H]. destruct (_ || _); by apply Hp in H.
  - split; [done|]. intros Hw Hh. apply andb_false_iff in E as [[E|E]%andb_false_iff|E%negb_false_iff]; [lia..|].
    apply andb_true_iff in E. lia.
Qed.
Lemma checkSize_prefix ref act r : clean (checkSize ref act r) → clean r.
Proof. unfold checkSize. destruct ref; [|done]. destruct (_ && _); [|done]. by intros [? _]%finding_kept. Qed.

Lemma checkBlank_clean threshold b r : clean (checkBlank threshold b r) →
  clean r ∧ ((∀ f, Severity f = SeverityBlocker → ¬ P f) → b ≠ "" → isBlank b threshold = false).
Proof.
  unfold checkBlank. destruct (_ && _) eqn:E; [intros [? H]%finding_kept|intros H]; (split; [done|]); intros Hp Hb.
  - by apply Hp in H.
  - rewrite bool_decide_eq_false_2 in E by done. exact E.
Qed.
Lemma checkContrast_clean b r : clean (checkContrast b r) →
  clean r ∧ ((∀ f, Severity f = SeverityMajor → ¬ P f) → b ≠ "" → extreme b = false).
Proof.
  unfold checkContrast. destruct (_ && _) eqn:E; [intros [? H]%finding_kept|intros H]; (split; [done|]); intros Hp Hb.
  - by apply Hp in H.
  - rewrite bool_decide_eq_false_2 in E by done. exact E.
Qed.
Lemma checkSimilar_clean ref refBytes b r : clean (checkSimilar (Some ref) refBytes b r) →
  clean r ∧ ((∀ f, Severity f = SeverityMajor → ¬ P f) → refBytes ≠ "" → b ≠ "" → refBytes = b ∨ ltb (jaccardBytes refBytes b) 0.9 = false).
Proof.
  unfold checkSimilar. cbn [option_list length]. rewrite (bool_decide_eq_false_2 (1 = 0)) by done. cbn [orb].
  destruct (_ || _) eqn:E.
  { intros H. split; [done|]. intros _ H1 H2. left. rewrite !bool_decide_eq_false_2 in E by done. by apply bool_decide_eq_true in E. }
  destruct (ltb _ 0.9) eqn:E1; [intros [? H]%finding_kept; split; [done|]; intros Hp; by apply Hp in H|].
  destruct (ltb _ 0.99); [intros [? _]%finding_kept|intros H]; (split; [done|]); auto.
Qed.

(** A clean list of findings means that no check failed. *)
Lemma Check_clean threshold ref act refBytes b :
  clean (Check threshold (Some ref) act refBytes b) →
  ((∀ f, Severity f = SeverityBlocker → ¬ P f) →
     (0 < Width act)%Z ∧ (0 < Height act)%Z ∧ (b ≠ "" → isBlank b threshold = false)) ∧
  ((∀ f, Severity f = SeverityBlocker ∨ Severity f = SeverityMajor → ¬ P f) →
     ((0 < Width ref)%Z → (0 < Height ref)%Z → Width act = Width ref ∧ Height act = Height ref) ∧
     (b ≠ "" → extreme b = false) ∧
     (refBytes ≠ "" → b ≠ "" → refBytes = b ∨ ltb (jaccardBytes refBytes b) 0.9 = false)).
Proof.
  intros H. unfold Check in H. destruct (_ || _) eqn:E.
  { cbn in H. apply (Forall_singleton P) in H. split; intros Hp; exfalso; (eapply Hp; [|exact H]); [done|by left]. }
  apply orb_false_iff in E as [E1%Z.leb_gt E2%Z.leb_gt].
  apply checkSimilar_clean in H as [H Hsim]. apply checkContrast_clean in H as [H Hcon]. apply checkBlank_clean in H as [H Hbl].
  split; intros Hp.
  - split; [lia|]. split; [lia|]. by apply Hbl.
  - split; [|split; [apply Hcon|apply Hsim]; auto]. apply (checkSize_clean _ _ _ H). auto.
Qed.

Lemma ReferenceFree_clean act b :
  Forall P (ReferenceFreeReview (Some act) b) → (∀ f, Severity f = SeverityBlocker → ¬ P f) →
  (0 < Width act)%Z ∧ (0 < Height act)%Z ∧ (b ≠ "" → isBlank b 0.98 = false) ∧ Bytes act ≠ 0%Z.
Proof.
  intros H Hp. unfold ReferenceFreeReview in H. destruct (_ || _) eqn:E.
  { apply (Forall_singleton P) in H. by apply Hp in H. }
  apply orb_false_iff in E as [E1%Z.leb_gt E2%Z.leb_gt]. destruct (_ && isBlank b 0.98) eqn:Eb.
  { apply (Forall_singleton P) in H. by apply Hp in H. }
  apply Forall_app in H as [_ [_ H]%Forall_app]. split; [lia|]. split; [lia|]. split.
  - intros Hb. by rewrite bool_decide_eq_false_2 in Eb.
  - intros Hz. rewrite Hz in H. apply (Forall_singleton P) in H. by apply Hp in H.
Qed.
End checks.

(** C40: no result claims more than its checks allow (AC-24), for every
    evaluator and store.  A verified screen was enabled and has a screenshot with
    dimensions, whose pixels, where the store had them, are not blank; without a
    reference it has bytes, with one the evaluator, who was asked about just
    these two screens, found no blocker; and its score reaches the minimum.  A
    pixel-perfect match is only claimed against a reference: of the same size
    where that is known, and, where the pixels were there, of no extreme
    brightness and equal or at least nine tenths alike; the evaluator found
    nothing major, the score is 0.999 or more.  (Where the store has no pixels
    these conditions are empty: [pixel_perfect_without_pixels].)  A disabled
    verification is skipped, one without a screenshot is not verified, and the
    evaluator is only asked when there is a reference. *)
Theorem Verify_claims {X} threshold (evaluate : MultimodalInput → X → MultimodalOutput * X) now i x :
  let '(r, x') := Verify threshold evaluate now i x in
  let pixels a := readBytes (Store i) (Hash a) in
  let found ref act := MM_Findings (evaluate (mkMultimodalInput (Some ref) (Some act) (pixels ref) (pixels act)) x).1 in
  (IsVerified (Status r) = true → Enabled i = true ∧ ltb (Score r) (minimum i) = false ∧
     ∃ act, present (In_Actual i) = Some act ∧ (0 < Width act)%Z ∧ (0 < Height act)%Z ∧
       match present (In_Reference i) with
       | None => (pixels act ≠ "" → isBlank (pixels act) 0.98 = false) ∧ Bytes act ≠ 0%Z
       | Some ref => (pixels act ≠ "" → isBlank (pixels act) threshold = false) ∧ hasBlocker (found ref act) = false
       end) ∧
  (PixelPerfect r = true → leb 0.999 (Score r) = true ∧
     ∃ act ref, present (In_Actual i) = Some act ∧ present (In_Reference i) = Some ref ∧ ReferenceBased r = true ∧
       (0 < Width act)%Z ∧ (0 < Height act)%Z ∧ (pixels act ≠ "" → isBlank (pixels act) threshold = false) ∧
       ((0 < Width ref)%Z → (0 < Height ref)%Z → Width act = Width ref ∧ Height act = Height ref) ∧
       (pixels act ≠ "" → extreme (pixels act) = false) ∧
       (pixels ref ≠ "" → pixels act ≠ "" → pixels ref = pixels act ∨ ltb (jaccardBytes (pixels ref) (pixels act)) 0.9 = false) ∧
       ∀ f, f ∈ found ref act → IsActionable f = false) ∧
  (Enabled i = false ↔ Status r = StatusSkipped) ∧
  (Enabled i = true ∧ present (In_Actual i) = None ↔ Status r = StatusNotVerified) ∧
  (present (In_Reference i) = None → x' = x).
Proof.
  assert (∀ fs s m, statusFor fs s m ≠ StatusSkipped ∧ statusFor fs s m ≠ StatusNotVerified ∧
            (IsVerified (statusFor fs s m) = true → hasBlocker fs = false ∧ ltb s m = false)) as Hst.
  { intros fs s m. unfold statusFor. destruct (hasBlocker fs), (ltb s m); done. }
  assert (∀ fs, hasBlocker fs = false → Forall (λ f, Severity f ≠ SeverityBlocker) fs) as Hblock.
  { intros fs H. apply Forall_forall. intros f Hf Hs. unfold hasBlocker in H. rewrite existsb_elem_false in H. specialize (H f Hf).
    by rewrite bool_decide_eq_true_2 in H. }
  assert (∀ fs, bool_decide (length (filterActionable fs) = 0) = true → Forall (λ f, IsActionable f = false) fs) as Hact.
  { intros fs Hl%bool_decide_eq_true. apply Forall_forall. intros f Hf. apply not_true_is_false. intros Ha.
    assert (In f (filterActionable fs)) as Hin by (apply filter_In; split; [by apply list_elem_of_In|done]).
    unfold filterActionable in *. by destruct (List.filter IsActionable fs). }
  unfold Verify. destruct (Enabled i); cbn [negb]; [|repeat split; naive_solver].
  destruct (present (In_Actual i)) as [act|] eqn:Ha; [|repeat split; naive_solver].
  destruct (present (In_Reference i)) as [ref|] eqn:Hr.
  - destruct (evaluate _ x) as [mm x'] eqn:Ee. cbn -[statusFor Check].
    set (fs := _ ++ _). set (score := if leb 0 _ then _ else _). destruct (Hst fs score (minimum i)) as (H1 & H2 & H3).
    split; [|split; [|split; [done|split; [naive_solver|done]]]].
    + intros [Hb Hs]%H3. split; [done|]. split; [done|]. exists act. apply Hblock in Hb. apply Forall_app in Hb as [Hd Hm].
      apply Check_clean in Hd as [Hd _]. destruct Hd as (Hd1 & Hd2 & Hd3); [by intros f -> []|]. do 4 (split; [done|]). rewrite Ee. cbn [fst].
      apply existsb_elem_false. intros f Hf. rewrite Forall_forall in Hm. by rewrite bool_decide_eq_false_2 by (by apply Hm).
    + intros [Hs Hl%Hact]%andb_true_iff. split; [done|]. exists act, ref. do 3 (split; [done|]). apply Forall_app in Hl as [Hd Hm].
      apply Check_clean in Hd as [Hd1 Hd2].
      destruct Hd1 as (Hd11 & Hd12 & Hd13); [intros f Hf; unfold IsActionable; by rewrite Hf|].
      destruct Hd2 as (Hd21 & Hd22 & Hd23); [intros f [Hf|Hf]; unfold IsActionable; by rewrite Hf|].
      rewrite Ee. rewrite Forall_forall in Hm. do 6 (split; [done|]). exact Hm.
  - cbn -[statusFor ReferenceFreeReview]. set (fs := ReferenceFreeReview _ _).
    destruct (Hst fs (referenceFreeScore fs) (minimum i)) as (H1 & H2 & H3).
    split; [|split; [done|split; [done|split; [naive_solver|done]]]].
    intros [Hb Hs]%H3. split; [done|]. split; [done|]. exists act. split; [done|]. apply Hblock in Hb.
    destruct (ReferenceFree_clean _ _ _ Hb) as (Hd1 & Hd2 & Hd3 & Hd4); [by intros f -> []|]. done.
Qed.

(** The repair loop ends within its iterations, whatever the repairs and the
    verifications do. *)
Definition ended {X} (cfg : RepairLoopConfig) (first : Result) (o : (RepairOutcome * option string) * X) : Prop :=
  let '((out, err), _) := o in
  (0 ≤ IterationsRun out ≤ MaximumIterations cfg)%Z ∧
  head (History out) = Some first ∧ last (History out) = Some (FinalResult out) ∧
  (Z.of_nat (length (History out)) ≤ IterationsRun out + 1)%Z ∧
  (err = None → Z.of_nat (length (History out)) = IterationsRun out + 1)%Z ∧
  (Resolved out = true → err = None ∧ leb (Cfg_MinimumScore cfg) (Score (FinalResult out)) = true ∧
     (IsVerified (Status (FinalResult out)) = true ∨ filterActionable (Findings (FinalResult out)) = [])).

Lemma repairLoop_ended {X} cfg repair verify first left_ iter current history (x : X) :
  (0 < iter)%Z → (iter + Z.of_nat left_ = MaximumIterations cfg + 1)%Z → Z.of_nat (length history) = iter →
  head history = Some first → last history = Some current →
  ended cfg first (repairLoop cfg repair verify left_ iter current history x).
Proof.
  revert iter current history x. induction left_ as [|left_ IH]; intros iter current history x Hi Hm Hl Hh Hc; cbn [repairLoop].
  { repeat split; cbn; try done; lia. }
  destruct (bool_decide _ && _) eqn:Hdone.
  { apply andb_true_iff in Hdone as [Ha%bool_decide_eq_true Hs]. repeat split; cbn; try done; try lia.
    right. by destruct (filterActionable (Findings current)). }
  destruct (repair _ iter x) as [[e|] x1]; [repeat split; cbn; try done; lia|].
  destruct (verify x1) as [[verified|e] x2]; [|repeat split; cbn; try done; lia].
  assert (head (history ++ [verified]) = Some first) as Hh' by (by destruct history).
  assert (last (history ++ [verified]) = Some verified) as Hv by apply last_snoc.
  destruct (met cfg verified) eqn:Hmet.
  - apply andb_true_iff in Hmet as [Hver Hs]. repeat split; cbn; rewrite ?length_app; cbn; try done; try lia. by left.
  - apply IH; rewrite ?length_app; cbn; try done; lia.
Qed.

(** the visual repair loop.  With a positive limit it always ends, after at
    most that many repairs; its history begins with the initial result, ends with
    the final one and has one entry per iteration; it is resolved only without an
    error and with the wanted score; and it touches nothing when the verification
    passed already, was skipped, or did not run. *)
Theorem RunRepairLoop_ends {X} cfg repair verify initial (x : X) :
  (0 < MaximumIterations cfg)%Z →
  ∃ o, RunRepairLoop cfg repair verify initial x = Some o ∧ ended cfg initial o ∧
    (met cfg initial = true ∨ Status initial ∈ [StatusSkipped; StatusNotVerified] →
     o.2 = x ∧ Resolved o.1.1 = met cfg initial ∧ FinalResult o.1.1 = initial).
Proof.
  intros Hm. unfold RunRepairLoop. rewrite (proj2 (Z.leb_gt _ _)) by done.
  destruct (met cfg initial) eqn:Hmet.
  { eexists. split; [done|]. split; [|done]. apply andb_true_iff in Hmet as [Hv Hs].
    repeat split; cbn; try done; try lia. by left. }
  case_bool_decide as Hst.
  { eexists. split; [done|]. split; [|done]. repeat split; cbn; try done; lia. }
  eexists. split; [done|]. split; [apply repairLoop_ended; cbn; try done; lia|]. intros [?|?]; done.
Qed.

Definition screenshot (hash : string) : Artifact := mkArtifact hash "" FormatPNG 4 5 20 "".
Definition demoStore (h : string) : result string string :=
  if bool_decide (h = "a") then Ok "abcdefghijklmnopqrst" else if bool_decide (h = "b") then Ok "abcdefghijklmnopq..."
  else Err "gone".
Definition demoInput (ref act : option Artifact) : VerifyInput := mkVerifyInput ref act true 0.9 (Some demoStore).
Definition demoVerify (ref act : string) : Result :=
  (Verify BlankThreshold (λ i (x : ()), (Evaluate i, x)) 0 (demoInput (Some (screenshot ref)) (Some (screenshot act))) ()).1.

Lemma RunRepairLoop_ends_witness :
  let fix_ (_ : list Finding) (_ : Z) (n : nat) := (None : option string, S n) in
  let again (n : nat) := (Ok (demoVerify "a" (if bool_decide (n = 2) then "a" else "b")) : result string Result, n) in
  ∃ o, RunRepairLoop (mkRepairLoopConfig 3 0.95) fix_ again (demoVerify "a" "b") 0 = Some o ∧ ended (mkRepairLoopConfig 3 0.95) (demoVerify "a" "b") o ∧
       Resolved o.1.1 = true ∧ IterationsRun o.1.1 = 2%Z.
Proof.
  intros fix_ again.
  destruct (RunRepairLoop_ends (mkRepairLoopConfig 3 0.95) fix_ again (demoVerify "a" "b") 0 ltac:(cbn; lia)) as (o & Ho & He & _).
  exists o. split; [exact Ho|]. split; [exact He|]. vm_compute in Ho. injection Ho as <-. by split.
Defined.

(** ** Where more is claimed *)

(** When the bytes of the screenshots cannot be read, the dimensions are all that
    is compared: the screen is verified and even pixel-perfect. *)
Lemma pixel_perfect_without_pixels :
  let r := demoVerify "gone" "lost" in Status r = StatusPassed ∧ PixelPerfect r = true.
Proof. vm_compute. by repeat split. Qed.

(** The evaluator's score is averaged in, so a screen that differs substantially,
    a major finding, passes; the repair loop then counts as resolved, which is
    documented to mean that no major finding is left. *)
Lemma major_difference_passes :
  let r := demoVerify "a" "b" in
  Status r = StatusPassed ∧ Code <$> Findings r = ["visual_diff"] ∧ met DefaultRepairLoopConfig r = true.
Proof. vm_compute. by repeat split. Qed.

(** With a lower score in the loop than in the engine, a failed verification
    without actionable findings is resolved, against "never claims verified
    without a passing verification". *)
Lemma resolved_without_passing :
  let r := mkResult StatusFailed 0.85 [] None None true false "" 0 "" in
  (λ o, Resolved o.1.1) <$> RunRepairLoop (mkRepairLoopConfig 3 0.8) (λ _ _ (x : ()), (None, x)) (λ x, (Err "", x)) r () = Some true.
Proof. vm_compute. by repeat split. Qed.
End visual.
