(* ===== verification/Json.v ===== *)
(** * Json: what the code uses of [encoding/json]

    [json.Unmarshal] into Go values: the syntax check, the strings and numbers,
    and the decoding into structs, which keeps going after a type mismatch and
    reports it at the end.  A decoder takes the value a variable holds and gives
    the one it holds afterwards, and whether all went well.  A slice that is
    decoded twice (a duplicated key) starts empty. *)
From S2P Require Import Prelude Text.
From Stdlib Require Import Floats.SpecFloat Floats.PrimFloat Floats.FloatOps.

Module json.

Inductive json :=
| JNull | JBool (b : bool) | JNum (literal : string) | JStr (s : string) | JArr (l : list json) | JObj (l : list (string * json)).

(** ** Syntax *)

Definition isSpace (c : ascii) : bool := bool_decide (c ∈ [" "%char; strs.tab; strs.nl; strs.cr]).
Definition skip (s : string) : string := (text.span isSpace s).2.

(** *** Strings *)

Definition hexValue (c : ascii) : option Z :=
  let n := Z.of_nat (nat_of_ascii c) in
  (if (48 <=? n) && (n <=? 57) then Some (n - 48)
   else if (97 <=? n) && (n <=? 102) then Some (n - 87)
   else if (65 <=? n) && (n <=? 70) then Some (n - 55) else None)%Z.
Definition hex4 (a b c d : ascii) : option Z :=
  a ← hexValue a; b ← hexValue b; c ← hexValue c; d ← hexValue d; Some (((a * 16 + b) * 16 + c) * 16 + d)%Z.

Definition byte (z : Z) : string := String (ascii_of_nat (Z.to_nat z)) "".
(** [utf8.AppendRune] of a code point that is no surrogate. *)
Definition EncodeRune (r : Z) : string :=
  (if r <? 128 then byte r
   else if r <? 2048 then byte (192 + r / 64) +:+ byte (128 + r mod 64)
   else if r <? 65536 then byte (224 + r / 4096) +:+ byte (128 + r / 64 mod 64) +:+ byte (128 + r mod 64)
   else byte (240 + r / 262144) +:+ byte (128 + r / 4096 mod 64) +:+ byte (128 + r / 64 mod 64) +:+ byte (128 + r mod 64))%Z.
Definition isHigh (r : Z) : bool := ((55296 <=? r) && (r <? 56320))%Z.
Definition isLow (r : Z) : bool := ((56320 <=? r) && (r <? 57344))%Z.
Definition quote : ascii := ascii_of_nat 34.
Definition escaped (c : ascii) : option string :=
  if bool_decide (c ∈ [quote; "\"; "/"]%char) then Some (String c "")
  else
    match c with
    | "b" => Some (byte 8) | "f" => Some (byte 12) | "n" => Some (byte 10) | "r" => Some (byte 13) | "t" => Some (byte 9)
    | _ => None
    end%char.

Definition glue (a : string) (r : option (string * string)) : option (string * string) := '(b, rest) ← r; Some (a +:+ b, rest).

(** The string that begins after a quote, with the input behind it; [raw] counts
    the bytes of a rune still to copy. *)
Fixpoint str (raw : nat) (s : string) : option (string * string) :=
  match raw, s with
  | _, EmptyString => None
  | S raw, String c s' => glue (String c "") (str raw s')
  | O, String c s' =>
      if bool_decide (c = quote) then Some ("", s')
      else if bool_decide (c = "\"%char) then
        match s' with
        | String "u" (String a (String b (String x (String d rest)))) =>
            match hex4 a b x d with
            | None => None
            | Some r =>
                if isHigh r then
                  match rest with
                  | String "\" (String "u" (String a' (String b' (String x' (String d' rest'))))) =>
                      match hex4 a' b' x' d' with
                      | Some r' => if isLow r' then glue (EncodeRune (65536 + (r - 55296) * 1024 + (r' - 56320))) (str 0 rest')
                                   else glue (EncodeRune utf8.RuneError) (str 0 rest)
                      | None => None
                      end
                  | _ => glue (EncodeRune utf8.RuneError) (str 0 rest)
                  end
                else glue (EncodeRune (if isLow r then utf8.RuneError else r)) (str 0 rest)
            end
        | String e rest => match escaped e with Some x => glue x (str 0 rest) | None => None end
        | EmptyString => None
        end
      else
        let n := nat_of_ascii c in
        if n <? 32 then None
        else if n <? 128 then glue (String c "") (str 0 s')
        else
          match utf8.DecodeRune s with
          | (_, S (S w)) => glue (String c "") (str (S w) s')
          | _ => glue (EncodeRune utf8.RuneError) (str 0 s')
          end
  end.

(** *** Numbers *)

Definition digits1 (s : string) : option (string * string) :=
  match text.span text.isDigit s with (EmptyString, _) => None | (d, rest) => Some (d, rest) end.
Definition oneOf (l : list ascii) (s : string) : string * string :=
  match s with String c s' => if bool_decide (c ∈ l) then (String c "", s') else ("", s) | EmptyString => ("", s) end.
Definition fraction (s : string) : option (string * string) :=
  match s with String "." s' => '(d, rest) ← digits1 s'; Some (String "." d, rest) | _ => Some ("", s) end.
Definition exponent (s : string) : option (string * string) :=
  match oneOf ["e"; "E"]%char s with
  | (EmptyString, _) => Some ("", s)
  | (e, s') => let '(sign, s'') := oneOf ["+"; "-"]%char s' in '(d, rest) ← digits1 s''; Some (e +:+ sign +:+ d, rest)
  end.
Definition integer (s : string) : option (string * string) :=
  match s with String "0" s' => Some ("0", s') | _ => digits1 s end.
Definition number (s : string) : option (string * string) :=
  let '(sign, s) := oneOf ["-"%char] s in
  '(i, s) ← integer s; '(f, s) ← fraction s; '(e, s) ← exponent s; Some (sign +:+ i +:+ f +:+ e, s).

(** *** Values *)

Definition literal (word : string) (v : json) (s : string) : option (json * string) :=
  if strs.HasPrefix s word then Some (v, text.TrimPrefix s word) else None.

(** [encoding/json] refuses more than ten thousand open arrays and objects. *)
Definition maxNestingDepth : nat := 10000.

(** A key and its colon. *)
Definition key (s : string) : option (string * string) :=
  match skip s with
  | String c rest =>
      if bool_decide (c = quote) then
        '(k, rest) ← str 0 rest;
        match skip rest with String ":" rest => Some (k, rest) | _ => None end
      else None
  | EmptyString => None
  end.

(** A value; the elements after "[" or a comma; the members after "{" or a comma.
    [n] is fuel, [depth] the arrays and objects that may still be opened. *)
Fixpoint value (n depth : nat) (s : string) : option (json * string) :=
  match n with
  | O => None
  | S n =>
      match skip s with
      | EmptyString => None
      | String c rest =>
          if bool_decide (c = quote) then '(x, rest) ← str 0 rest; Some (JStr x, rest)
          else if bool_decide (c = "["%char) then
            match depth with
            | O => None
            | S depth =>
                match skip rest with
                | String "]" rest => Some (JArr [], rest)
                | _ => '(l, rest) ← elements n depth rest; Some (JArr l, rest)
                end
            end
          else if bool_decide (c = "{"%char) then
            match depth with
            | O => None
            | S depth =>
                match skip rest with
                | String "}" rest => Some (JObj [], rest)
                | _ => '(l, rest) ← members n depth rest; Some (JObj l, rest)
                end
            end
          else if bool_decide (c = "n"%char) then literal "null" JNull (skip s)
          else if bool_decide (c = "t"%char) then literal "true" (JBool true) (skip s)
          else if bool_decide (c = "f"%char) then literal "false" (JBool false) (skip s)
          else '(x, rest) ← number (skip s); Some (JNum x, rest)
      end
  end
with elements (n depth : nat) (s : string) : option (list json * string) :=
  match n with
  | O => None
  | S n =>
      '(v, rest) ← value n depth s;
      match skip rest with
      | String "]" rest => Some ([v], rest)
      | String "," rest => '(l, rest) ← elements n depth rest; Some (v :: l, rest)
      | _ => None
      end
  end
with members (n depth : nat) (s : string) : option (list (string * json) * string) :=
  match n with
  | O => None
  | S n =>
      '(k, rest) ← key s;
      '(v, rest) ← value n depth rest;
      match skip rest with
      | String "}" rest => Some ([(k, v)], rest)
      | String "," rest => '(l, rest) ← members n depth rest; Some ((k, v) :: l, rest)
      | _ => None
      end
  end.

(** Twice the length is fuel enough, see [parse_fuel]. *)
Definition fuelFor (s : string) : nat := 2 * String.length s + 2.
Definition parse (s : string) : option json :=
  match value (fuelFor s) maxNestingDepth s with
  | Some (v, rest) => if bool_decide (skip rest = "") then Some v else None
  | None => None
  end.
(** *** Fuel *)

Lemma span_length p s : String.length (text.span p s).2 ≤ String.length s.
Proof. induction s as [|c s IH]; [done|]. cbn. destruct (p c); [|done]. destruct (text.span p s). cbn in *. lia. Qed.
Lemma skip_length s : String.length (skip s) ≤ String.length s.
Proof. apply span_length. Qed.

Lemma glue_Some a r x rest : glue a r = Some (x, rest) → ∃ b, r = Some (b, rest).
Proof. unfold glue. destruct r as [[b r']|]; cbn; [|done]. intros [= _ <-]. by exists b. Qed.

Lemma str_length s : ∀ raw x rest, str raw s = Some (x, rest) → String.length rest < String.length s.
Proof.
  assert (∀ n s, String.length s ≤ n → ∀ raw x rest, str raw s = Some (x, rest) → String.length rest < String.length s) as H;
    [|by apply (H (String.length s))].
  clear s. intros n. induction n as [|n IH]; intros [|c s]; cbn [String.length]; intros Hn; [by intros []|lia|by intros []|].
  assert (∀ a raw s' x rest, String.length s' ≤ String.length s → glue a (str raw s') = Some (x, rest) →
            String.length rest < S (String.length s)) as Hg.
  { intros a raw s' x rest Hs [b Hb]%glue_Some. apply IH in Hb; lia. }
  intros [|raw] x rest; [|cbn [str]; by apply Hg]. cbn [str].
  case_bool_decide; [intros [= _ <-]; lia|]. case_bool_decide.
  - repeat (first [case_match; subst; try done; cbn [String.length] in * | progress (intros Hx; eapply Hg; [|exact Hx]; cbn [String.length]; lia)]).
  - repeat case_match; try done; intros Hx; (eapply Hg; [|exact Hx]); lia.
Qed.
Lemma digits1_length s d rest : digits1 s = Some (d, rest) → String.length rest < String.length s.
Proof.
  unfold digits1. destruct s as [|c s]; [done|]. cbn [text.span]. destruct (text.isDigit c); [|done].
  pose proof (span_length text.isDigit s) as Hs. destruct (text.span text.isDigit s) as [a b]. intros [= _ <-]. cbn in *. lia.
Qed.
Lemma oneOf_length l s : String.length (oneOf l s).2 ≤ String.length s.
Proof. destruct s as [|c s]; [done|]. cbn. case_bool_decide; cbn; lia. Qed.
Lemma number_length s x rest : number s = Some (x, rest) → String.length rest < String.length s.
Proof.
  unfold number. pose proof (oneOf_length ["-"%char] s) as H0. destruct (oneOf ["-"%char] s) as [sign s0]. cbn [snd] in H0.
  destruct (integer s0) as [[i s1]|] eqn:H1; cbn; [|done].
  assert (String.length s1 < String.length s0) as Hi.
  { clear H0. revert H1. unfold integer. repeat case_match; intros Hx; try (by apply digits1_length in Hx); injection Hx as _ <-; cbn; lia. }
  destruct (fraction s1) as [[f s2]|] eqn:H2; cbn; [|done].
  assert (String.length s2 ≤ String.length s1) as Hf.
  { clear H0 H1 Hi. revert H2. unfold fraction. repeat (case_match; subst; try (by intros [= _ <-])).
    destruct (digits1 _) as [[d r]|] eqn:Hd; [|done]. intros [= _ <-]. apply digits1_length in Hd. cbn. lia. }
  destruct (exponent s2) as [[e s3]|] eqn:H3; cbn; [|done]. intros [= _ <-].
  assert (String.length s3 ≤ String.length s2); [|lia].
  clear H0 H1 H2 Hi Hf. revert H3. unfold exponent. pose proof (oneOf_length ["e"; "E"]%char s2) as He. destruct (oneOf _ s2) as [[|e0 e1] s4]; [by intros [= _ <-]|].
  pose proof (oneOf_length ["+"; "-"]%char s4) as He'. destruct (oneOf _ s4) as [sg s5].
  destruct (digits1 s5) as [[d r]|] eqn:Hd; [|done]. intros [= _ <-]. apply digits1_length in Hd. cbn in *. lia.
Qed.

Lemma literal_length c w v s x rest : literal (String c w) v s = Some (x, rest) → String.length rest < String.length s.
Proof.
  unfold literal, text.TrimPrefix. destruct (strs.HasPrefix s (String c w)) eqn:Hp; [|done]. intros [= _ <-].
  destruct s as [|b s]; [done|]. cbn. rewrite length_drop_bytes. lia.
Qed.
Lemma key_length s k rest : key s = Some (k, rest) → String.length rest + 1 < String.length s.
Proof.
  unfold key. pose proof (skip_length s) as Hs. destruct (skip s) as [|c r]; [done|]. case_bool_decide; [|done].
  destruct (str 0 r) as [[k' r']|] eqn:Hr; cbn; [|done]. apply str_length in Hr. pose proof (skip_length r') as Hs'.
  destruct (skip r') as [|c' r'']; [done|]. repeat case_match; try done. intros [= _ <-]. cbn in *. lia.
Qed.

Lemma value_length n :
  (∀ d s v rest, value n d s = Some (v, rest) → String.length rest < String.length s) ∧
  (∀ d s l rest, elements n d s = Some (l, rest) → String.length rest < String.length s) ∧
  (∀ d s l rest, members n d s = Some (l, rest) → String.length rest < String.length s).
Proof.
  induction n as [|n (IHv & IHe & IHm)]; [by repeat split|]. split; [|split]; intros d s x rest; cbn [value elements members].
  - pose proof (skip_length s) as Hs. destruct (skip s) as [|c r] eqn:Hsk; [done|]. cbn in Hs.
    case_bool_decide.
    { destruct (str 0 r) as [[y r']|] eqn:Hr; cbn; [|done]. intros [= _ <-]. apply str_length in Hr. lia. }
    case_bool_decide.
    { destruct d as [|d]; [done|]. pose proof (skip_length r) as Hr.
      assert ((match elements n d r with Some (l, rest) => Some (JArr l, rest) | None => None end) = Some (x, rest) →
              String.length rest < String.length s) as Hel.
      { destruct (elements n d r) as [[l r']|] eqn:He; [|done]. intros [= _ <-]. apply IHe in He. lia. }
      destruct (skip r) as [|[[] [] [] [] [] [] [] []] r']; try exact Hel. intros [= _ <-]. cbn in *. lia. }
    case_bool_decide.
    { destruct d as [|d]; [done|]. pose proof (skip_length r) as Hr.
      assert ((match members n d r with Some (l, rest) => Some (JObj l, rest) | None => None end) = Some (x, rest) →
              String.length rest < String.length s) as Hel.
      { destruct (members n d r) as [[l r']|] eqn:He; [|done]. intros [= _ <-]. apply IHm in He. lia. }
      destruct (skip r) as [|[[] [] [] [] [] [] [] []] r']; try exact Hel. intros [= _ <-]. cbn in *. lia. }
    do 3 (case_bool_decide; [intros Hl%literal_length; cbn in Hl; lia|]).
    destruct (number _) as [[y r']|] eqn:Hn; cbn; [|done]. intros [= _ <-]. apply number_length in Hn. cbn in Hn. lia.
  - destruct (value n d s) as [[v r]|] eqn:Hv; cbn; [|done]. apply IHv in Hv. pose proof (skip_length r) as Hr.
    destruct (skip r) as [|c r']; [done|]. cbn in Hr.
    destruct (elements n d r') as [[l r'']|] eqn:He; cbn; [apply IHe in He|]; repeat case_match; try done; intros [= _ <-]; lia.
  - destruct (key s) as [[k r0]|] eqn:Hk; cbn; [|done]. apply key_length in Hk.
    destruct (value n d r0) as [[v r]|] eqn:Hv; cbn; [|done]. apply IHv in Hv. pose proof (skip_length r) as Hr.
    destruct (skip r) as [|c r']; [done|]. cbn in Hr.
    destruct (members n d r') as [[l r'']|] eqn:He; cbn; [apply IHm in He|]; repeat case_match; try done; intros [= _ <-]; lia.
Qed.
(** Beyond [fuelFor] more fuel changes nothing: the parser gives up on the input,
    never for want of fuel. *)
Lemma fuel_enough : ∀ L n m d s, String.length s ≤ L →
  (2 * L + 1 ≤ n → 2 * L + 1 ≤ m → value n d s = value m d s) ∧
  (2 * L + 2 ≤ n → 2 * L + 2 ≤ m → elements n d s = elements m d s ∧ members n d s = members m d s).
Proof.
  induction L as [L IH] using lt_wf_ind; intros n m d s Hs.
  assert (∀ n m, 2 * L + 1 ≤ n → 2 * L + 1 ≤ m → value n d s = value m d s) as Hv.
  { clear n m. intros [|n] [|m] Hn Hm; [lia..|]. cbn [value]. pose proof (skip_length s) as Hk.
    destruct (skip s) as [|c r]; [done|]. cbn [String.length] in Hk. destruct d as [|d]; [done|].
    destruct (IH (L - 1) ltac:(lia) n m d r ltac:(lia)) as [_ [He Hmem]]; [lia..|]. by rewrite He, Hmem. }
  split; [apply Hv|]. destruct n as [|n], m as [|m]; [lia..|]. intros Hn Hm. cbn [elements members]. split.
  - rewrite (Hv n m) by lia. destruct (value m d s) as [[v r]|] eqn:Hr; cbn; [|done].
    apply (proj1 (value_length m)) in Hr. pose proof (skip_length r) as Hk. destruct (skip r) as [|c r']; [done|]. cbn in Hk.
    by destruct (IH (L - 1) ltac:(lia) n m d r' ltac:(lia)) as [_ [-> _]]; [lia..|].
  - destruct (key s) as [[k r0]|] eqn:Hk; cbn; [|done]. apply key_length in Hk.
    destruct (IH (L - 1) ltac:(lia) n m d r0 ltac:(lia)) as [Heq _]. rewrite Heq by lia. clear Heq.
    destruct (value m d r0) as [[v r]|] eqn:Hr; cbn; [|done].
    apply (proj1 (value_length m)) in Hr. pose proof (skip_length r) as Hk'. destruct (skip r) as [|c r']; [done|]. cbn in Hk'.
    by destruct (IH (L - 1) ltac:(lia) n m d r' ltac:(lia)) as [_ [_ ->]]; [lia..|].
Qed.
Lemma parse_fuel n s : fuelFor s ≤ n → value n maxNestingDepth s = value (fuelFor s) maxNestingDepth s.
Proof. unfold fuelFor. intros Hn. apply (fuel_enough (String.length s)); lia. Qed.

(** ** Decoding *)

(** What a variable holds afterwards, and whether every part of the value fitted. *)
Definition decoder (A : Type) : Type := json → A → A * bool.

Definition dString : decoder string := λ j v, match j with JStr s => (s, true) | JNull => (v, true) | _ => (v, false) end.
Definition dBool : decoder bool := λ j v, match j with JBool b => (b, true) | JNull => (v, true) | _ => (v, false) end.

(** [strconv.ParseInt(s, 10, 64)] of a JSON number. *)
Fixpoint digitsZ (acc : Z) (s : string) : option Z :=
  match s with
  | EmptyString => Some acc
  | String c s => if text.isDigit c then digitsZ (acc * 10 + (Z.of_nat (nat_of_ascii c) - 48))%Z s else None
  end.
Definition ParseInt (s : string) : option Z :=
  let '(sign, d) := oneOf ["-"%char] s in
  n ← digitsZ 0 d;
  let n := if bool_decide (sign = "") then n else (- n)%Z in
  if ((- 2 ^ 63 <=? n) && (n <? 2 ^ 63))%Z then Some n else None.
(** [strconv.Atoi]. *)
Definition Atoi (s : string) : option Z :=
  let '(sign, d) := match s with
                    | String c r => if bool_decide (c = "-"%char) then ((-1)%Z, r) else if bool_decide (c = "+"%char) then (1%Z, r) else (1%Z, s)
                    | EmptyString => (1%Z, s)
                    end in
  if bool_decide (d = "") then None
  else match digitsZ 0 d with
       | Some n => let n := (sign * n)%Z in if ((- 2 ^ 63 <=? n) && (n <? 2 ^ 63))%Z then Some n else None
       | None => None
       end.
(** [strconv.ParseFloat(s, 64)]: the nearest double; an error when it overflows. *)
Definition ParseFloat (s : string) : option float :=
  let '(sign, s) := oneOf ["-"%char] s in
  '(i, s) ← integer s; '(f, s) ← fraction s; '(e, _) ← exponent s;
  let frac := strs.drop_bytes 1 f in
  m ← digitsZ 0 (i +:+ frac);
  x ← match e with
      | EmptyString => Some 0%Z
      | String _ e => let '(es, d) := oneOf ["+"; "-"]%char e in
                      x ← digitsZ 0 d; Some (if bool_decide (es = "-") then (- x)%Z else x)
      end;
  let x := (x - Z.of_nat (String.length frac))%Z in
  let neg := negb (bool_decide (sign = "")) in
  let r := match m with
           | Zpos m => if (0 <=? x)%Z then binary_normalize prec emax (if neg then - (Zpos m * 10 ^ x) else Zpos m * 10 ^ x)%Z 0 neg
                       else SFdiv prec emax (S754_finite neg m 0) (S754_finite false (Z.to_pos (10 ^ (- x))) 0)
           | _ => S754_zero neg
           end in
  match r with S754_infinity _ | S754_nan => None | _ => Some (SF2Prim r) end.

Definition dInt : decoder Z := λ j v,
  match j with JNum l => match ParseInt l with Some n => (n, true) | None => (v, false) end | JNull => (v, true) | _ => (v, false) end.
Definition dFloat : decoder float := λ j v,
  match j with JNum l => match ParseFloat l with Some f => (f, true) | None => (v, false) end | JNull => (v, true) | _ => (v, false) end.
(** A pointer, with the zero value of what it points to. *)
Definition dPtr {A} (d : decoder A) (zero : A) : decoder (option A) := λ j v,
  match j with JNull => (None, true) | _ => let '(x, ok) := d j (default zero v) in (Some x, ok) end.
Definition dSlice {A} (d : decoder A) (zero : A) : decoder (list A) := λ j v,
  match j with
  | JArr l => let r := (λ j, d j zero) <$> l in (r.*1, forallb snd r)
  | JNull => ([], true)
  | _ => (v, false)
  end.
(** A [json.RawMessage], kept as the value it is the text of. *)
Definition dRaw : decoder (option json) := λ j _, (Some j, true).

(** Field names are found exactly, or else without regard to case, where the long
    s and the Kelvin sign count as letters. *)
Definition fold (k : string) : string :=
  strs.ToUpper (text.ReplaceAll (text.ReplaceAll k (byte 197 +:+ byte 191) "S") (byte 226 +:+ byte 132 +:+ byte 170) "K").
Definition field {A} (fields : list (string * decoder A)) (k : string) : option (decoder A) :=
  match List.find (λ f, bool_decide (f.1 = k)) fields with
  | Some f => Some f.2
  | None => snd <$> List.find (λ f, bool_decide (fold f.1 = fold k)) fields
  end.
(** A struct: its fields as decoders of the whole. *)
Definition dStruct {A} (fields : list (string * decoder A)) : decoder A := λ j v,
  match j with
  | JObj l => foldl (λ acc kv, match field fields kv.1 with
                               | Some d => let '(v, ok) := d kv.2 acc.1 in (v, acc.2 && ok)
                               | None => acc
                               end) (v, true) l
  | JNull => (v, true)
  | _ => (v, false)
  end.
(** A field of a record, from its decoder. *)
Definition at_ {A B} (get : A → B) (set : B → A → A) (d : decoder B) : decoder A := λ j v,
  let '(x, ok) := d j (get v) in (set x v, ok).

(** [json.Unmarshal(data, &v)]; a syntax error leaves [v] alone. *)
Definition Unmarshal {A} (d : decoder A) (data : string) (v : A) : A * bool :=
  match parse data with Some j => d j v | None => (v, false) end.

(** The value of a key of a [map[string]any]: the last one. *)
Definition get (k : string) (l : list (string * json)) : option json :=
  foldl (λ acc kv, if bool_decide (kv.1 = k) then Some kv.2 else acc) None l.

Definition quoted (s : string) : string := strs.map_bytes (λ c, if bool_decide (c = "'"%char) then quote else c) s.
Example parse_value :
  parse (quoted "{'a' : [1, -2.5e+3, {'x':null}], 'b\u00e9\n':'\ud83d\ude00' , 'c':true}") =
    Some (JObj [("a", JArr [JNum "1"; JNum "-2.5e+3"; JObj [("x", JNull)]]);
                ("b" +:+ byte 195 +:+ byte 169 +:+ byte 10, JStr (byte 240 +:+ byte 159 +:+ byte 152 +:+ byte 128)); ("c", JBool true)])
  ∧ parse "[01]" = None ∧ parse "[1,]" = None ∧ parse "1 2" = None.
Proof. vm_compute. by repeat split. Qed.
Example parse_float :
  ParseFloat "0.1" = Some 0.1%float ∧ ParseFloat "-2.5e3" = Some (-2500)%float ∧ ParseFloat "1e400" = None
  ∧ ParseFloat "123456789.123456789" = Some 123456789.123456789%float ∧ ParseInt "-7" = Some (-7)%Z ∧ ParseInt "1.0" = None.
Proof. vm_compute. by repeat split. Qed.
End json.
