(* ===== verification/ReviewAgent.v ===== *)
(** * ReviewAgent: a reviewer that asks an agent (spec §25)

    Models [internal/review/agent.go]: the prompt of a role, the search for the
    last JSON array in what the agent printed, and its decoding into findings.
    The run of the agent is an argument. *)
From S2P Require Import Prelude Text Policy Review Json.
Import review json.

Module reviewAgent.

Definition DefaultMaxDiffBytes : Z := (200 * 1024)%Z.
Definition maxFindings : nat := 50.

(** [ErrUnparseableReview] with what follows it, and the errors of the run. *)
Inductive Error := ErrUnparseableReview (detail : string) | ErrAgentRun (text : string).

Definition roleInstruction (role : Role) : option string :=
  match role with
  | RoleCorrectness => Some
      "Review the change for CORRECTNESS: logic errors, off-by-one mistakes, nil/edge-case handling, error paths, concurrency hazards, and behaviour that diverges from the stated intent."
  | RoleArchitecture => Some
      "Review the change for ARCHITECTURE: package boundary violations, layering regressions, misplaced responsibilities, coupling, and drift from the documented design."
  | RoleSecurity => Some
      "Review the change for SECURITY: injection, credential or secret exposure, unsafe command/process construction, path traversal, unvalidated input, and weakened policy enforcement."
  | RoleOther _ => None
  end.

(** [truncateDiff]: cut at the last newline before the limit. *)
Definition truncateDiff (diff : string) (maxBytes : Z) : string :=
  if (maxBytes <? 0)%Z || (Z.of_nat (String.length diff) <=? maxBytes)%Z then diff
  else
    let head := strs.take_bytes (Z.to_nat maxBytes) diff in
    let kept := match text.cutLast head strs.nl with Some (a, _) => a | None => head end in
    kept +:+ text.line "" +:+
    text.line ("[... diff truncated at " +:+ pretty maxBytes +:+ " bytes; "
               +:+ pretty (Z.of_nat (String.length diff - String.length kept)) +:+ " bytes omitted ...]").

(** The template. *)
Definition promptTemplate (instruction : string) (files : list string) (context diff : string) : string :=
  text.line "You are an independent code reviewer. You did not write this change. Review it only — do not modify any files."
  +:+ text.line "" +:+ text.line ("Your role: " +:+ instruction) +:+ text.line ""
  +:+ text.line "Changed files:"
  +:+ match files with
      | [] => text.line "(none listed)"
      | _ => strs.Join ((λ f, text.line ("- " +:+ f)) <$> files) ""
      end
  +:+ text.line ""
  +:+ (if bool_decide (context = "") then ""
       else text.line "Additional context:" +:+ text.line context +:+ text.line "")
  +:+ text.line "Diff under review:" +:+ text.line "```diff" +:+ text.line diff +:+ text.line "```" +:+ text.line ""
  +:+ text.line "Respond with ONLY a JSON array of findings — no prose, no markdown fences. Each finding is an object with fields:"
  +:+ text.line ("- " +:+ strs.q "severity" +:+ ": one of " +:+ strs.q "info" +:+ ", " +:+ strs.q "minor" +:+ ", "
                 +:+ strs.q "major" +:+ ", " +:+ strs.q "blocker")
  +:+ text.line ("- " +:+ strs.q "title" +:+ ": short one-line summary")
  +:+ text.line ("- " +:+ strs.q "description" +:+ ": what is wrong and why it matters")
  +:+ text.line ("- " +:+ strs.q "file" +:+ ": file path the finding applies to (" +:+ strs.q "" +:+ " if not file-specific)")
  +:+ text.line ("- " +:+ strs.q "line" +:+ ": 1-based line number in that file (0 if not line-specific)")
  +:+ text.line ("- " +:+ strs.q "remediation" +:+ ": concrete suggested fix")
  +:+ text.line "" +:+ text.line "If the change is clean, respond with exactly: []".

Definition renderPrompt (role : Role) (req : ReviewRequest) (maxDiffBytes : Z) : string :=
  promptTemplate
    (default ("Review the change for " +:+ strs.ToUpper (Role_String role) +:+ " issues.") (roleInstruction role))
    (ChangedFiles req) (Context req) (truncateDiff (Diff req) maxDiffBytes).

(** ** The answer *)

Record rawFinding := mkRawFinding {
  Raw_Severity : string;
  Raw_Title : string;
  Raw_Description : string;
  Raw_File : string;
  Raw_Line : Z;
  Raw_Remediation : string }.
Definition zeroRaw : rawFinding := mkRawFinding "" "" "" "" 0 "".
Definition dFinding : decoder rawFinding := dStruct
  [("severity", at_ Raw_Severity (λ x r, mkRawFinding x (Raw_Title r) (Raw_Description r) (Raw_File r) (Raw_Line r) (Raw_Remediation r)) dString);
   ("title", at_ Raw_Title (λ x r, mkRawFinding (Raw_Severity r) x (Raw_Description r) (Raw_File r) (Raw_Line r) (Raw_Remediation r)) dString);
   ("description", at_ Raw_Description (λ x r, mkRawFinding (Raw_Severity r) (Raw_Title r) x (Raw_File r) (Raw_Line r) (Raw_Remediation r)) dString);
   ("file", at_ Raw_File (λ x r, mkRawFinding (Raw_Severity r) (Raw_Title r) (Raw_Description r) x (Raw_Line r) (Raw_Remediation r)) dString);
   ("line", at_ Raw_Line (λ x r, mkRawFinding (Raw_Severity r) (Raw_Title r) (Raw_Description r) (Raw_File r) x (Raw_Remediation r)) dInt);
   ("remediation", at_ Raw_Remediation (λ x r, mkRawFinding (Raw_Severity r) (Raw_Title r) (Raw_Description r) (Raw_File r) (Raw_Line r) x) dString)].

Definition normalizeSeverity (s : string) : Severity :=
  let s := strs.ToLower (strs.TrimSpace s) in
  if bool_decide (s = "minor") then SeverityMinor
  else if bool_decide (s = "major") then SeverityMajor
  else if bool_decide (s = "blocker") then SeverityBlocker
  else SeverityInfo.
Definition normalizeFinding (role : Role) (it : rawFinding) : Finding :=
  mkFinding role (normalizeSeverity (Raw_Severity it)) (strs.TrimSpace (Raw_Title it)) (strs.TrimSpace (Raw_Description it))
    (strs.TrimSpace (Raw_File it)) (Z.max 0 (Raw_Line it)) (strs.TrimSpace (Raw_Remediation it)).

(** The state of the scan: where the next byte is, how deep, in which string, where
    the open array began, and the last complete one. *)
Record scan := mkScan {
  pos : nat; depth : nat; inString : bool; escaped : bool; start : nat; lastArray : option (nat * nat) }.
Definition scanByte (st : scan) (c : ascii) : scan :=
  let next d str esc s l := mkScan (S (pos st)) d str esc s l in
  if inString st then
    if escaped st then next (depth st) true false (start st) (lastArray st)
    else if bool_decide (c = "\"%char) then next (depth st) true true (start st) (lastArray st)
    else next (depth st) (negb (bool_decide (c = quote))) false (start st) (lastArray st)
  else if bool_decide (c = quote) then next (depth st) true false (start st) (lastArray st)
  else if bool_decide (c = "["%char) then
    next (S (depth st)) false (escaped st) (if depth st =? 0 then pos st else start st) (lastArray st)
  else if bool_decide (c = "]"%char) then
    match depth st with
    | O => next 0 false (escaped st) (start st) (lastArray st)
    | S O => next 0 false (escaped st) (start st) (Some (start st, pos st))
    | S d => next d false (escaped st) (start st) (lastArray st)
    end
  else next (depth st) false (escaped st) (start st) (lastArray st).
Fixpoint scanFrom (st : scan) (s : string) : scan :=
  match s with EmptyString => st | String c s => scanFrom (scanByte st c) s end.
Definition slice (a b : nat) (s : string) : string := strs.take_bytes (S b - a) (strs.drop_bytes a s).
Definition extractLastJSONArray (out : string) : option string :=
  '(a, b) ← lastArray (scanFrom (mkScan 0 0 false false 0 None) out); Some (slice a b out).

Section reviewer.
  (** The text of a decoding error. *)
  Context (jsonError : string → string).

Definition parseFindings (role : Role) (out : string) : result Error (list Finding) :=
    match extractLastJSONArray out with
    | None => Err (ErrUnparseableReview "no JSON array in output")
    | Some raw =>
        match Unmarshal (dSlice dFinding zeroRaw) raw [] with
        | (items, true) => Ok (take maxFindings (normalizeFinding role <$> items))
        | (_, false) => Err (ErrUnparseableReview ("invalid findings JSON: " +:+ jsonError raw))
        end
    end.

(** [NewAgentReviewer] and [Review]. *)
Definition maxDiff (n : Z) : Z := if (n =? 0)%Z then DefaultMaxDiffBytes else n.
Definition Review {X} (run : string → X → result string string * X) (maxDiffBytes : Z) (role : Role) (req : ReviewRequest) (x : X) :
      result Error (list Finding) * X :=
    let '(out, x) := run (renderPrompt role req (maxDiff maxDiffBytes)) x in
    (match out with
     | Err e => Err (ErrAgentRun ("review: agent run: " +:+ e))
     | Ok out => if bool_decide (strs.TrimSpace out = "") then Err (ErrUnparseableReview "empty agent output")
                 else parseFindings role out
     end, x).
End reviewer.

(** ** What an answer is *)

(** The brackets the scan remembers are where it says. *)
Definition tracks (p : string) (st : scan) : Prop :=
  pos st = String.length p ∧
  (depth st ≠ 0 → start st < pos st ∧ String.get (start st) p = Some "["%char) ∧
  (∀ a b, lastArray st = Some (a, b) → a < b < pos st ∧ String.get a p = Some "["%char ∧ String.get b p = Some "]"%char).

Lemma scanByte_tracks p st c : tracks p st → tracks (p +:+ String c "") (scanByte st c).
Proof.
  intros (Hp & Hs & Hl).
  assert (∀ d str esc, (d ≠ 0 → depth st ≠ 0) → tracks (p +:+ String c "") (mkScan (S (pos st)) d str esc (start st) (lastArray st))) as Hnext.
  { intros d str esc Hd. split; [cbn; by rewrite length_snoc, Hp|]. split.
    - cbn. intros [? Hg]%Hd%Hs. split; [lia|by apply get_app_l].
    - cbn. intros a b Hab. destruct (Hl a b Hab) as (? & Ha & Hb). split; [lia|]. by split; apply get_app_l. }
  unfold scanByte. destruct (inString st).
  { destruct (escaped st); [by apply Hnext|]. case_bool_decide; by apply Hnext. }
  case_bool_decide; [by apply Hnext|]. case_bool_decide as Ho.
  { subst c. destruct (depth st) as [|d] eqn:Hd; cbn [Nat.eqb]; [|by apply Hnext].
    split; [cbn; by rewrite length_snoc, Hp|]. split; cbn.
    - intros _. split; [lia|]. rewrite Hp. apply get_snoc.
    - intros a b Hab. destruct (Hl a b Hab) as (? & Ha & Hb). split; [lia|]. by split; apply get_app_l. }
  case_bool_decide as Hc; [|by apply Hnext]. subst c. destruct (depth st) as [|[|d]] eqn:Hd; [by apply Hnext| |by apply Hnext].
  destruct (Hs ltac:(done)) as [Hlt Hg].
  split; [cbn; by rewrite length_snoc, Hp|]. split; cbn; [done|]. intros a b [= <- <-].
  split; [lia|]. split; [by apply get_app_l|]. rewrite Hp. apply get_snoc.
Qed.

Lemma scanFrom_tracks s : ∀ p st, tracks p st → tracks (p +:+ s) (scanFrom st s).
Proof.
  induction s as [|c s IH]; intros p st Ht; cbn [scanFrom]; [by rewrite append_nil_r|].
  apply (scanByte_tracks p st c), IH in Ht. by rewrite append_assoc in Ht.
Qed.

(** The extracted text is a part of the output, from a bracket to a bracket. *)
Lemma extract_spec out raw : extractLastJSONArray out = Some raw →
  (∃ pre post, out = pre +:+ raw +:+ post) ∧ String.get 0 raw = Some "["%char ∧
  String.get (String.length raw - 1) raw = Some "]"%char.
Proof.
  unfold extractLastJSONArray. pose proof (scanFrom_tracks out "" (mkScan 0 0 false false 0 None)) as Ht.
  destruct (lastArray (scanFrom _ out)) as [[a b]|] eqn:Hl; cbn; [|done]. intros [= <-].
  destruct Ht as (Hp & _ & Ht); [by split; [|split]|]. destruct (Ht a b Hl) as (Hab & Ha & Hb). change ("" +:+ out) with out in *.
  assert (String.length (slice a b out) = S b - a) as Hlen.
  { unfold slice. pose proof (take_drop_bytes (S b - a) (strs.drop_bytes a out)) as Hcut.
    pose proof (length_drop_bytes a out). pose proof (length_drop_bytes (S b - a) (strs.drop_bytes a out)) as Hd.
    assert (∀ x y, String.length (x +:+ y) = String.length x + String.length y) as Happ.
    { clear. induction x as [|c x IH]; intros y; [done|]. change (String c x +:+ y) with (String c (x +:+ y)). cbn. by rewrite IH. }
    apply (f_equal String.length) in Hcut. rewrite Happ in Hcut. lia. }
  split; [|split].
  - exists (strs.take_bytes a out), (strs.drop_bytes (S b - a) (strs.drop_bytes a out)).
    unfold slice. by rewrite !take_drop_bytes.
  - unfold slice. rewrite get_take_bytes, get_drop_bytes, Nat.add_0_r by lia. done.
  - rewrite Hlen. unfold slice. rewrite get_take_bytes, get_drop_bytes by lia. by replace (a + (S b - a - 1)) with b by lia.
Qed.

Lemma value_bracket n d s v rest : value (S n) d (String "[" s) = Some (v, rest) → ∃ l, v = JArr l.
Proof.
  cbn [value]. change (skip (String "[" s)) with (String "[" s).
  change (bool_decide ("["%char = quote)) with false. change (bool_decide ("["%char = "["%char)) with true. cbv iota.
  destruct d as [|d]; [done|].
  assert ((elements n d s ≫= λ '(l, rest), Some (JArr l, rest)) = Some (v, rest) → ∃ l, v = JArr l) as Hel.
  { destruct (elements n d s) as [[l r]|]; cbn; [|done]. intros [= <- _]. by exists l. }
  destruct (skip s) as [|c r] eqn:Hr.
  - destruct (elements n d s) as [[l r]|]; cbn; [|done]. intros [= <- _]. by exists l.
  - destruct (decide (c = "]"%char)) as [->|].
    + intros [= <- _]. by exists [].
    + intros H. destruct c as [[] [] [] [] [] [] [] []]; first [by apply Hel | done | by destruct (elements n d s) as [[l r']|]; [injection H as <- _; exists l|done]].
Qed.

(** A decoded list of findings comes from an array. *)
Lemma findings_array raw items : String.get 0 raw = Some "["%char →
  Unmarshal (dSlice dFinding zeroRaw) raw [] = (items, true) → ∃ l, parse raw = Some (JArr l) ∧ length items = length l.
Proof.
  intros Hb. unfold Unmarshal. destruct (parse raw) as [j|] eqn:Hp; [|done].
  destruct raw as [|c raw]; [done|]. cbn in Hb. injection Hb as ->.
  assert (∃ l, j = JArr l) as [l ->].
  { unfold parse in Hp. destruct (value _ _ _) as [[v rest]|] eqn:Hv; [|done]. case_bool_decide; [|done]. injection Hp as <-.
    revert Hv. unfold fuelFor. rewrite Nat.add_comm. by apply value_bracket. }
  cbn. intros [= <- _]. exists l. split; [done|]. by rewrite !length_fmap.
Qed.

(** An approval is always something the agent said. When a review ends well, the
    agent has answered, its answer holds from a bracket to a bracket a text that is a
    JSON array, and the findings are the first fifty elements of that array, one for
    one, under the reviewer's role and with no negative line; so silence, prose and
    malformed JSON are errors and never an empty list. Every other end is the error of
    the run or [ErrUnparseableReview]. *)
Theorem Review_outcome jsonError {X} (run : string → X → result string string * X) maxDiffBytes role req x :
  let prompt := renderPrompt role req (maxDiff maxDiffBytes) in
  match Review jsonError run maxDiffBytes role req x with
  | (Err e, x') =>
      (∃ t, run prompt x = (Err t, x') ∧ e = ErrAgentRun ("review: agent run: " +:+ t)) ∨
      (∃ out why, run prompt x = (Ok out, x') ∧ e = ErrUnparseableReview why)
  | (Ok fs, x') => ∃ out pre raw post l,
      run prompt x = (Ok out, x') ∧ strs.TrimSpace out ≠ "" ∧ out = pre +:+ raw +:+ post ∧
      parse raw = Some (JArr l) ∧ length fs = length l `min` maxFindings ∧
      Forall (λ f, Finding_Role f = role ∧ (0 ≤ Line f)%Z) fs
  end.
Proof.
  intros prompt. unfold Review. fold prompt. destruct (run prompt x) as [[out|t] x'] eqn:Hr; [|by left; eauto].
  case_bool_decide as Hb; [by right; eauto|]. unfold parseFindings.
  destruct (extractLastJSONArray out) as [raw|] eqn:He; [|by right; eauto].
  apply extract_spec in He as ((pre & post & ->) & Hopen & _).
  destruct (Unmarshal _ _ _) as [items []] eqn:Hu; [|by right; eauto].
  destruct (findings_array raw items Hopen Hu) as (l & Hl & Hlen).
  exists (pre +:+ raw +:+ post), pre, raw, post, l. repeat (split; [done|]). split.
  - rewrite length_take, length_fmap. lia.
  - apply Forall_take, Forall_fmap, Forall_true. intros it. cbn. split; [done|lia].
Qed.

(** The answer of the agent is its last array, wherever it stands: a closing remark
    such as [no other findings: []] replaces the blocker reported above it by an
    empty list. And a lone quotation mark before the answer makes it unreadable. *)
Definition reported : string := quoted "[{'severity': 'blocker', 'title': 'remote code execution'}]".
Lemma closing_remark_approves role :
  parseFindings id role reported = Ok [mkFinding role SeverityBlocker "remote code execution" "" "" 0 ""] ∧
  parseFindings id role (reported +:+ " Other issues: []") = Ok [] ∧
  parseFindings id role (quoted "a 5' gap: " +:+ reported) = Err (ErrUnparseableReview "no JSON array in output").
Proof. vm_compute. by repeat split. Qed.
End reviewAgent.
