(* ===== verification/Regex.v ===== *)
(** * Regex: what the code uses of [regexp]

    Matching with Go's leftmost-first rule, on the runes of a text: classes with
    greedy repetition, concatenation, alternatives in their order, groups and word
    boundaries; [FindStringSubmatch] and [ReplaceAllString] for patterns that match
    at least one rune.  A repetition is over a class, as in every pattern of the
    sources, so that a match needs no fuel. *)
From S2P Require Import Prelude Text.

Module regexp.

(** A rune with its bytes. *)
Abbreviation rune := (Z * string)%type (only parsing).
Fixpoint runesFrom (skip : nat) (s : string) : list (Z * string) :=
  match skip, s with
  | _, EmptyString => []
  | S skip, String _ s => runesFrom skip s
  | O, String _ s' => let '(r, w) := utf8.DecodeRune s in (r, strs.take_bytes w s) :: runesFrom (pred w) s'
  end.
Definition runes (s : string) : list (Z * string) := runesFrom 0 s.
Definition text_ (l : list (Z * string)) : string := foldr (λ x s, x.2 +:+ s) "" l.

Inductive re :=
| Eps | Cls (p : Z → bool) | Rep (p : Z → bool) (lo : nat) (hi : option nat) | Cat (a b : re) | Alt (a b : re)
| Group (i : nat) (a : re) | Bound.

(** ** Classes *)

Definition any (l : list (Z → bool)) : Z → bool := λ r, existsb (λ p, p r) l.
Definition not_ (p : Z → bool) : Z → bool := λ r, negb (p r).
Definition range (a b : ascii) : Z → bool := λ r, utf8.within (Z.of_nat (nat_of_ascii a)) (Z.of_nat (nat_of_ascii b)) r.
Definition chr (c : ascii) : Z → bool := λ r, (r =? Z.of_nat (nat_of_ascii c))%Z.
Definition among (s : string) : Z → bool := any (chr <$> String.list_ascii_of_string s).
Definition digit : Z → bool := range "0" "9".
Definition alnum : Z → bool := any [range "a" "z"; range "A" "Z"; digit].
Definition word : Z → bool := any [alnum; chr "_"%char].
Definition space : Z → bool := any [chr " "%char; chr strs.tab; chr strs.nl; chr strs.cr; chr (ascii_of_nat 12)].
(** Without regard to case: the long s and the Kelvin sign fold to letters. *)
Definition folds (p : Z → bool) : Z → bool := λ r,
  p r || (if utf8.within 65 90 r then p (r + 32) else if utf8.within 97 122 r then p (r - 32) else false)%Z
  || ((r =? 383)%Z && (p 115%Z || p 83%Z)) || ((r =? 8490)%Z && (p 107%Z || p 75%Z)).

(** A literal, and one in [(?i)]. *)
Fixpoint lit (s : string) : re :=
  match s with EmptyString => Eps | String c s => Cat (Cls (chr c)) (lit s) end.
Fixpoint litI (s : string) : re :=
  match s with EmptyString => Eps | String c s => Cat (Cls (folds (chr c))) (litI s) end.
Fixpoint alts (l : list re) : re := match l with [] => Eps | [r] => r | r :: l => Alt r (alts l) end.
Fixpoint seq (l : list re) : re := match l with [] => Eps | [r] => r | r :: l => Cat r (seq l) end.
Definition opt (r : re) : re := Alt r Eps.
Definition plus (p : Z → bool) : re := Rep p 1 None.
Definition star (p : Z → bool) : re := Rep p 0 None.
Definition atLeast (n : nat) (p : Z → bool) : re := Rep p n None.

(** ** Matching *)

(** What the groups hold, the last one first. *)
Definition Caps : Type := list (nat * string).
Definition isWord (r : option Z) : bool := match r with Some r => word r | None => false end.

Section matching.
  Context {X : Type}.

Fixpoint rep (p : Z → bool) (lo : nat) (hi : option nat) (prev : option Z) (s : list (Z * string)) (c : Caps)
    (k : option Z → list (Z * string) → Caps → option X) : option X :=
  let here := if lo =? 0 then k prev s c else None in
  match hi, s with
  | Some O, _ | _, [] => here
  | _, x :: s' =>
      if p x.1 then match rep p (pred lo) (pred <$> hi) (Some x.1) s' c k with Some r => Some r | None => here end
      else here
  end.

Fixpoint matches (r : re) (prev : option Z) (s : list (Z * string)) (c : Caps)
    (k : option Z → list (Z * string) → Caps → option X) : option X :=
  match r with
  | Eps => k prev s c
  | Cls p => match s with x :: s' => if p x.1 then k (Some x.1) s' c else None | [] => None end
  | Rep p lo hi => rep p lo hi prev s c k
  | Cat a b => matches a prev s c (λ prev s c, matches b prev s c k)
  | Alt a b => match matches a prev s c k with Some x => Some x | None => matches b prev s c k end
  | Group i a => matches a prev s c (λ prev' s' c', k prev' s' ((i, text_ (take (length s - length s') s)) :: c'))
  | Bound => if xorb (isWord prev) (isWord (fst <$> head s)) then k prev s c else None
  end.
End matching.

(** The match that begins here: its length and its groups. *)
Definition matchAt (r : re) (prev : option Z) (s : list (Z * string)) : option (nat * Caps) :=
  matches r prev s [] (λ _ rest c, Some (length s - length rest, c)).

(** The first match. *)
Fixpoint findFrom (r : re) (prev : option Z) (s : list (Z * string)) : option (string * Caps) :=
  match matchAt r prev s with
  | Some (n, c) => Some (text_ (take n s), c)
  | None => match s with [] => None | x :: s => findFrom r (Some x.1) s end
  end.
Definition Find (r : re) (s : string) : option (string * Caps) := findFrom r None (runes s).
Definition MatchString (r : re) (s : string) : bool := bool_decide (is_Some (Find r s)).
Definition group (i : nat) (c : Caps) : string := default "" (snd <$> List.find (λ g, g.1 =? i) c).

(** [ReplaceAllStringFunc] with the groups at hand. *)
Fixpoint replaceFrom (r : re) (f : string → Caps → string) (skip : nat) (prev : option Z) (s : list (Z * string)) : string :=
  match skip, s with
  | _, [] => ""
  | S skip, x :: s => replaceFrom r f skip (Some x.1) s
  | O, x :: s' =>
      match matchAt r prev s with
      | Some (S n, c) => f (text_ (take (S n) s)) c +:+ replaceFrom r f n (Some x.1) s'
      | _ => x.2 +:+ replaceFrom r f 0 (Some x.1) s'
      end
  end.
Definition ReplaceAll (r : re) (f : string → Caps → string) (s : string) : string := replaceFrom r f 0 None (runes s).
Definition ReplaceAllString (r : re) (new : string) : string → string := ReplaceAll r (λ _ _, new).

(** ** Nothing changes where nothing matches *)

Lemma take_bytes_all s w : String.length s ≤ w → strs.take_bytes w s = s.
Proof. revert w. induction s as [|c s IH]; intros [|w]; cbn; try done; [lia|]. intros H. rewrite IH by lia. done. Qed.

Lemma drop_bytes_0 s : strs.drop_bytes 0 s = s.
Proof. by destruct s. Qed.
Lemma runesFrom_text s : ∀ skip, text_ (runesFrom skip s) = strs.drop_bytes skip s.
Proof.
  induction s as [|c s IH]; intros [|skip]; try done; cbn [runesFrom strs.drop_bytes]; [|apply IH].
  destruct (utf8.DecodeRune (String c s)) as [r w] eqn:Hd. cbn [text_ foldr snd]. fold (text_ (runesFrom (pred w) s)). rewrite IH.
  assert (w ≠ 0) as Hw.
  { revert Hd. unfold utf8.DecodeRune, utf8.byteAt. repeat case_match; intros [= _ <-]; done. }
  destruct w as [|w]; [done|]. cbn [pred strs.take_bytes].
  change (String c (strs.take_bytes w s) +:+ strs.drop_bytes w s) with (String c (strs.take_bytes w s +:+ strs.drop_bytes w s)).
  by rewrite take_drop_bytes.
Qed.
Lemma runes_text s : text_ (runes s) = s.
Proof. unfold runes. by rewrite runesFrom_text, drop_bytes_0. Qed.

Lemma replaceFrom_none r f s : ∀ prev, findFrom r prev s = None → replaceFrom r f 0 prev s = text_ s.
Proof.
  induction s as [|x s IH]; intros prev; [done|]. cbn [findFrom replaceFrom text_ foldr].
  destruct (matchAt r prev (x :: s)) as [[n c]|]; [done|]. intros Hf. f_equal. by apply IH.
Qed.
Lemma ReplaceAll_none r f s : Find r s = None → ReplaceAll r f s = s.
Proof. intros H. unfold ReplaceAll. by rewrite replaceFrom_none, runes_text. Qed.

Example find_version :
  let v := seq [Group 1 (plus digit); lit "."; Group 2 (plus digit); opt (seq [lit "."; Group 3 (plus digit)])] in
  (λ m, (m.1, group 1 m.2, group 2 m.2, group 3 m.2)) <$> Find v "kimi 1.12 (x)" = Some ("1.12", "1", "12", "") ∧
  (λ m, (m.1, group 1 m.2, group 2 m.2, group 3 m.2)) <$> Find v "v10.2.35.7" = Some ("10.2.35", "10", "2", "35") ∧
  ReplaceAllString (seq [litI "bearer"; plus space; atLeast 6 alnum]) "Bearer ***" "x BEARER  abcdef1 y bearer abc" = "x Bearer *** y bearer abc".
Proof. vm_compute. by repeat split. Qed.
End regexp.
