(* ===== verification/Protocol.v ===== *)
(** * Protocol: the wire side of the coding-agent protocol

    Models the rest of [internal/adapter/codingagent/protocol] (whole events and
    their decoding, capabilities, version negotiation, what an engine reports) and
    [failure.go] and [eventsink.go] above it: the shared classifier and the sinks.
    Event types, failure classes and policies are those of [Agent].  Timestamps are
    left out of events; a line whose timestamp does not parse is still malformed. *)
From S2P Require Import Prelude Text Agent Json.
From Stdlib Require PrimFloat.
Import json.

Module protocol.

(** ** types.go, capabilities.go, version.go *)

Record ModelDescriptor := mkModelDescriptor {
  Model_ID : string; Model_Engine : string; Model_Kind : string; Model_Tier : string;
  ContextWindow : Z; MaxOutput : Z; SupportsImages : bool; CachedUsage : bool }.
Definition ModelKindCoding : string := "coding".

Record DetectionResult := mkDetectionResult { Installed : bool; Detected_Path : string; Version : string; Detail : string }.
Record VersionResult := mkVersionResult {
  AdapterVersion : string; EngineVersion : string; ProtocolVersion_ : Z; Version_Error : string }.
Inductive HealthStatus := HealthOK | HealthDegraded | HealthDown | HealthUnknown.
Record HealthResult := mkHealthResult { Health_Status : HealthStatus; Health_Detail : string }.

Definition QuotaConfExact : string := "EXACT".
Definition QuotaConfProviderReported : string := "PROVIDER_REPORTED".
Definition QuotaConfEstimated : string := "ESTIMATED".
Definition QuotaConfInferred : string := "INFERRED".
Definition QuotaConfUnknown : string := "UNKNOWN".
Definition QuotaStateUnknown : string := "UNKNOWN".
(** Of [QuotaSnapshot] what the engines fill in. *)
Record QuotaSnapshot := mkQuotaSnapshot { Quota_Confidence : string; Quota_State : string; Quota_Reason : string }.

Record AgentCapabilities := mkCaps {
  InteractiveMode : bool; HeadlessMode : bool; StreamingEvents : bool; StructuredOutput : bool; ImageInput : bool;
  SessionResume : bool; LiveUserMessages : bool; ModelSelection : bool; UsageReporting : bool; CachedUsageReporting : bool;
  ToolPermissions : bool; NativeSandbox : bool; MCP : bool; ACP : bool }.
Definition noCaps : AgentCapabilities :=
  mkCaps false false false false false false false false false false false false false false.
Definition Merge (a b : AgentCapabilities) : AgentCapabilities :=
  mkCaps (InteractiveMode a || InteractiveMode b) (HeadlessMode a || HeadlessMode b) (StreamingEvents a || StreamingEvents b)
    (StructuredOutput a || StructuredOutput b) (ImageInput a || ImageInput b) (SessionResume a || SessionResume b)
    (LiveUserMessages a || LiveUserMessages b) (ModelSelection a || ModelSelection b) (UsageReporting a || UsageReporting b)
    (CachedUsageReporting a || CachedUsageReporting b) (ToolPermissions a || ToolPermissions b)
    (NativeSandbox a || NativeSandbox b) (MCP a || MCP b) (ACP a || ACP b).

Definition ProtocolVersion : Z := 1.
Record ProtocolVersionRange := mkRange { Min : Z; Max : Z }.
Definition Supports (r : ProtocolVersionRange) (v : Z) : bool := ((Min r <=? v) && (v <=? Max r))%Z.
Definition ForgeRange : ProtocolVersionRange := mkRange ProtocolVersion ProtocolVersion.
Definition Negotiate (client server : ProtocolVersionRange) : option Z :=
  let v := Z.min (Max client) (Max server) in
  if (v <? Z.max (Min client) (Min server))%Z then None else Some v.

(** The version that is chosen is the highest both speak; none is when there is none. *)
Lemma Negotiate_spec c s v :
  Negotiate c s = Some v ↔ Supports c v = true ∧ Supports s v = true ∧ ∀ u, Supports c u = true → Supports s u = true → (u ≤ v)%Z.
Proof.
  unfold Negotiate, Supports. destruct (_ <? _)%Z eqn:Hlt.
  - split; [done|]. intros (Hc & Hs & _). lia.
  - split.
    + intros [= <-]. split; [lia|]. split; [lia|]. intros u Hc Hs. lia.
    + intros (Hc & Hs & Hmax). f_equal. specialize (Hmax (Z.min (Max c) (Max s))). lia.
Qed.

(** ** events.go *)

Record ToolPayload := mkToolPayload {
  ToolID : string; Tool_Name : string; Tool_Status : string; Tool_Detail : string; Tool_DurationMS : Z }.
Record CommandPayload := mkCommandPayload {
  CommandID : string; CommandLine : string; Command_ExitCode : Z; Success : bool; Command_DurationMS : Z }.
Record UsagePayload := mkUsagePayload {
  Tokens : agent.UsagePayload; Confidence : string }.
Record ApprovalPayload := mkApprovalPayload { Approval_Action : string; Approval_Detail : string; Approval_Timeout : string }.
Record WarningPayload := mkWarningPayload { Code : string; Warning_Message : string; Recoverable : bool }.
(** Raw bytes: a line, or the text of a value of it. *)
Inductive RawMessage := Bytes (s : string) | TextOf (v : json).

Record NormalizedEvent := mkEvent {
  Type_ : agent.EventType;
  RunID : string;
  Engine : string;
  Model : string;
  Message : option agent.MessagePayload;
  Tool : option ToolPayload;
  Command : option CommandPayload;
  FileChange : option agent.FileChangePayload;
  Usage : option UsagePayload;
  Checkpoint : option agent.CheckpointPayload;
  Approval : option ApprovalPayload;
  Warning : option WarningPayload;
  Failure : option agent.FailurePayload;
  Raw : option RawMessage }.

(** An event of a type, and one with a payload. *)
Definition event (t : agent.EventType) : NormalizedEvent :=
  mkEvent t "" "" "" None None None None None None None None None None.
Definition set_Type (t : agent.EventType) (e : NormalizedEvent) : NormalizedEvent :=
  mkEvent t (RunID e) (Engine e) (Model e) (Message e) (Tool e) (Command e) (FileChange e) (Usage e) (Checkpoint e) (Approval e) (Warning e) (Failure e) (Raw e).
Definition set_ids (run engine model : string) (e : NormalizedEvent) : NormalizedEvent :=
  mkEvent (Type_ e) run engine model (Message e) (Tool e) (Command e) (FileChange e) (Usage e) (Checkpoint e) (Approval e) (Warning e) (Failure e) (Raw e).
Definition set_Message (p : option agent.MessagePayload) (e : NormalizedEvent) : NormalizedEvent :=
  mkEvent (Type_ e) (RunID e) (Engine e) (Model e) p (Tool e) (Command e) (FileChange e) (Usage e) (Checkpoint e) (Approval e) (Warning e) (Failure e) (Raw e).
Definition set_Tool (p : option ToolPayload) (e : NormalizedEvent) : NormalizedEvent :=
  mkEvent (Type_ e) (RunID e) (Engine e) (Model e) (Message e) p (Command e) (FileChange e) (Usage e) (Checkpoint e) (Approval e) (Warning e) (Failure e) (Raw e).
Definition set_Command (p : option CommandPayload) (e : NormalizedEvent) : NormalizedEvent :=
  mkEvent (Type_ e) (RunID e) (Engine e) (Model e) (Message e) (Tool e) p (FileChange e) (Usage e) (Checkpoint e) (Approval e) (Warning e) (Failure e) (Raw e).
Definition set_FileChange (p : option agent.FileChangePayload) (e : NormalizedEvent) : NormalizedEvent :=
  mkEvent (Type_ e) (RunID e) (Engine e) (Model e) (Message e) (Tool e) (Command e) p (Usage e) (Checkpoint e) (Approval e) (Warning e) (Failure e) (Raw e).
Definition set_Usage (p : option UsagePayload) (e : NormalizedEvent) : NormalizedEvent :=
  mkEvent (Type_ e) (RunID e) (Engine e) (Model e) (Message e) (Tool e) (Command e) (FileChange e) p (Checkpoint e) (Approval e) (Warning e) (Failure e) (Raw e).
Definition set_Checkpoint (p : option agent.CheckpointPayload) (e : NormalizedEvent) : NormalizedEvent :=
  mkEvent (Type_ e) (RunID e) (Engine e) (Model e) (Message e) (Tool e) (Command e) (FileChange e) (Usage e) p (Approval e) (Warning e) (Failure e) (Raw e).
Definition set_Approval (p : option ApprovalPayload) (e : NormalizedEvent) : NormalizedEvent :=
  mkEvent (Type_ e) (RunID e) (Engine e) (Model e) (Message e) (Tool e) (Command e) (FileChange e) (Usage e) (Checkpoint e) p (Warning e) (Failure e) (Raw e).
Definition set_Warning (p : option WarningPayload) (e : NormalizedEvent) : NormalizedEvent :=
  mkEvent (Type_ e) (RunID e) (Engine e) (Model e) (Message e) (Tool e) (Command e) (FileChange e) (Usage e) (Checkpoint e) (Approval e) p (Failure e) (Raw e).
Definition set_Failure (p : option agent.FailurePayload) (e : NormalizedEvent) : NormalizedEvent :=
  mkEvent (Type_ e) (RunID e) (Engine e) (Model e) (Message e) (Tool e) (Command e) (FileChange e) (Usage e) (Checkpoint e) (Approval e) (Warning e) p (Raw e).
Definition set_Raw (p : option RawMessage) (e : NormalizedEvent) : NormalizedEvent :=
  mkEvent (Type_ e) (RunID e) (Engine e) (Model e) (Message e) (Tool e) (Command e) (FileChange e) (Usage e) (Checkpoint e) (Approval e) (Warning e) (Failure e) p.
(** What a sink of the supervisor is told, see [Agent]. *)
Definition observed (e : NormalizedEvent) : agent.NormalizedEvent :=
  agent.mkNormalizedEvent (Type_ e) (Message e) (FileChange e) (Tokens <$> Usage e) (Checkpoint e) (Failure e).

(** *** Types and classes from their names *)

Definition eventTypes : list agent.EventType :=
  [agent.EventRunStarted; agent.EventRunResumed; agent.EventMessageStarted; agent.EventMessageDelta; agent.EventMessageCompleted;
   agent.EventToolStarted; agent.EventToolCompleted; agent.EventCommandStarted; agent.EventCommandCompleted; agent.EventFileChanged;
   agent.EventUsageUpdated; agent.EventCheckpointCreated; agent.EventApprovalRequested; agent.EventWarning; agent.EventRunCompleted;
   agent.EventRunFailed; agent.EventRunCancelled].
Definition EventType (s : string) : agent.EventType :=
  default (agent.EventOther s) (List.find (λ t, bool_decide (agent.EventType_String t = s)) eventTypes).
Definition EventType_IsValid (t : agent.EventType) : bool := match t with agent.EventOther _ => false | _ => true end.
Definition failureClasses : list agent.FailureClass :=
  [agent.FailureProviderQuota; agent.FailureProviderRateLimit; agent.FailureProviderCapacity; agent.FailureProviderAuth;
   agent.FailureEngineNotInstalled; agent.FailureEngineCrash; agent.FailureEngineProtocol; agent.FailureModelNotAvailable;
   agent.FailureImageProvider; agent.FailureTimeout; agent.FailureCancelled; agent.FailureBuildFailure; agent.FailureTestFailure;
   agent.FailureVisualFailure; agent.FailureScopeViolation; agent.FailurePolicyViolation; agent.FailureMalformedOutput;
   agent.FailureMergeConflict; agent.FailureBudgetExceeded; agent.FailureInternalError].
Definition FailureClass (s : string) : agent.FailureClass :=
  default (agent.FailureClassOther s) (List.find (λ c, bool_decide (agent.FailureClass_String c = s)) failureClasses).

Lemma FailureClass_roundtrip c : agent.FailureClass_IsValid c = true → FailureClass (agent.FailureClass_String c) = c.
Proof. by destruct c. Qed.
Lemma EventType_roundtrip t : EventType_IsValid t = true → EventType (agent.EventType_String t) = t.
Proof. by destruct t. Qed.

(** *** Decoding *)

Definition zeroMessage : agent.MessagePayload := agent.mkMessagePayload "" "" "" "".
Definition dMessage : decoder agent.MessagePayload := dStruct
  [("message_id", at_ agent.MessageID (λ x m, agent.mkMessagePayload x (agent.Delta m) (agent.Text m) (agent.Role m)) dString);
   ("delta", at_ agent.Delta (λ x m, agent.mkMessagePayload (agent.MessageID m) x (agent.Text m) (agent.Role m)) dString);
   ("text", at_ agent.Text (λ x m, agent.mkMessagePayload (agent.MessageID m) (agent.Delta m) x (agent.Role m)) dString);
   ("role", at_ agent.Role (λ x m, agent.mkMessagePayload (agent.MessageID m) (agent.Delta m) (agent.Text m) x) dString)].
Definition zeroTool : ToolPayload := mkToolPayload "" "" "" "" 0.
Definition dTool : decoder ToolPayload := dStruct
  [("tool_id", at_ ToolID (λ x t, mkToolPayload x (Tool_Name t) (Tool_Status t) (Tool_Detail t) (Tool_DurationMS t)) dString);
   ("name", at_ Tool_Name (λ x t, mkToolPayload (ToolID t) x (Tool_Status t) (Tool_Detail t) (Tool_DurationMS t)) dString);
   ("status", at_ Tool_Status (λ x t, mkToolPayload (ToolID t) (Tool_Name t) x (Tool_Detail t) (Tool_DurationMS t)) dString);
   ("detail", at_ Tool_Detail (λ x t, mkToolPayload (ToolID t) (Tool_Name t) (Tool_Status t) x (Tool_DurationMS t)) dString);
   ("duration_ms", at_ Tool_DurationMS (λ x t, mkToolPayload (ToolID t) (Tool_Name t) (Tool_Status t) (Tool_Detail t) x) dInt)].
Definition zeroCommand : CommandPayload := mkCommandPayload "" "" 0 false 0.
Definition dCommand : decoder CommandPayload := dStruct
  [("command_id", at_ CommandID (λ x c, mkCommandPayload x (CommandLine c) (Command_ExitCode c) (Success c) (Command_DurationMS c)) dString);
   ("command", at_ CommandLine (λ x c, mkCommandPayload (CommandID c) x (Command_ExitCode c) (Success c) (Command_DurationMS c)) dString);
   ("exit_code", at_ Command_ExitCode (λ x c, mkCommandPayload (CommandID c) (CommandLine c) x (Success c) (Command_DurationMS c)) dInt);
   ("success", at_ Success (λ x c, mkCommandPayload (CommandID c) (CommandLine c) (Command_ExitCode c) x (Command_DurationMS c)) dBool);
   ("duration_ms", at_ Command_DurationMS (λ x c, mkCommandPayload (CommandID c) (CommandLine c) (Command_ExitCode c) (Success c) x) dInt)].
Definition zeroFileChange : agent.FileChangePayload := agent.mkFileChangePayload "" "" false.
Definition dFileChange : decoder agent.FileChangePayload := dStruct
  [("path", at_ agent.FileChange_Path (λ x f, agent.mkFileChangePayload x (agent.FileChange_Action f) (agent.InScope f)) dString);
   ("action", at_ agent.FileChange_Action (λ x f, agent.mkFileChangePayload (agent.FileChange_Path f) x (agent.InScope f)) dString);
   ("in_scope", at_ agent.InScope (λ x f, agent.mkFileChangePayload (agent.FileChange_Path f) (agent.FileChange_Action f) x) dBool)].
Definition zeroUsage : UsagePayload := mkUsagePayload (agent.mkUsagePayload 0 0 0 0 PrimFloat.zero "") "".
Definition onTokens {A} (get : agent.UsagePayload → A) (set : A → agent.UsagePayload → agent.UsagePayload) : decoder A → decoder UsagePayload :=
  at_ (λ u, get (Tokens u)) (λ x u, mkUsagePayload (set x (Tokens u)) (Confidence u)).
Definition dUsage : decoder UsagePayload := dStruct
  [("input_tokens", onTokens agent.InputTokens (λ x u, agent.mkUsagePayload x (agent.OutputTokens u) (agent.CacheReadTokens u) (agent.CacheWriteTokens u) (agent.Cost u) (agent.Currency u)) dInt);
   ("output_tokens", onTokens agent.OutputTokens (λ x u, agent.mkUsagePayload (agent.InputTokens u) x (agent.CacheReadTokens u) (agent.CacheWriteTokens u) (agent.Cost u) (agent.Currency u)) dInt);
   ("cache_read_tokens", onTokens agent.CacheReadTokens (λ x u, agent.mkUsagePayload (agent.InputTokens u) (agent.OutputTokens u) x (agent.CacheWriteTokens u) (agent.Cost u) (agent.Currency u)) dInt);
   ("cache_write_tokens", onTokens agent.CacheWriteTokens (λ x u, agent.mkUsagePayload (agent.InputTokens u) (agent.OutputTokens u) (agent.CacheReadTokens u) x (agent.Cost u) (agent.Currency u)) dInt);
   ("cost", onTokens agent.Cost (λ x u, agent.mkUsagePayload (agent.InputTokens u) (agent.OutputTokens u) (agent.CacheReadTokens u) (agent.CacheWriteTokens u) x (agent.Currency u)) dFloat);
   ("currency", onTokens agent.Currency (λ x u, agent.mkUsagePayload (agent.InputTokens u) (agent.OutputTokens u) (agent.CacheReadTokens u) (agent.CacheWriteTokens u) (agent.Cost u) x) dString);
   ("confidence", at_ Confidence (λ x u, mkUsagePayload (Tokens u) x) dString)].
Definition zeroCheckpoint : agent.CheckpointPayload := agent.mkCheckpointPayload "" "" "".
Definition dCheckpoint : decoder agent.CheckpointPayload := dStruct
  [("checkpoint_id", at_ agent.CheckpointID (λ x c, agent.mkCheckpointPayload x (agent.Checkpoint_Path c) (agent.Checkpoint_Reason c)) dString);
   ("path", at_ agent.Checkpoint_Path (λ x c, agent.mkCheckpointPayload (agent.CheckpointID c) x (agent.Checkpoint_Reason c)) dString);
   ("reason", at_ agent.Checkpoint_Reason (λ x c, agent.mkCheckpointPayload (agent.CheckpointID c) (agent.Checkpoint_Path c) x) dString)].
Definition zeroApproval : ApprovalPayload := mkApprovalPayload "" "" "".
Definition dApproval : decoder ApprovalPayload := dStruct
  [("action", at_ Approval_Action (λ x a, mkApprovalPayload x (Approval_Detail a) (Approval_Timeout a)) dString);
   ("detail", at_ Approval_Detail (λ x a, mkApprovalPayload (Approval_Action a) x (Approval_Timeout a)) dString);
   ("timeout", at_ Approval_Timeout (λ x a, mkApprovalPayload (Approval_Action a) (Approval_Detail a) x) dString)].
Definition zeroWarning : WarningPayload := mkWarningPayload "" "" false.
Definition dWarning : decoder WarningPayload := dStruct
  [("code", at_ Code (λ x w, mkWarningPayload x (Warning_Message w) (Recoverable w)) dString);
   ("message", at_ Warning_Message (λ x w, mkWarningPayload (Code w) x (Recoverable w)) dString);
   ("recoverable", at_ Recoverable (λ x w, mkWarningPayload (Code w) (Warning_Message w) x) dBool)].
Definition zeroFailure : agent.FailurePayload := agent.mkFailurePayload (FailureClass "") "" 0.
Definition dFailure : decoder agent.FailurePayload := dStruct
  [("class", at_ (λ f, agent.FailureClass_String (agent.Failure_Class f)) (λ x f, agent.mkFailurePayload (FailureClass x) (agent.Failure_Reason f) (agent.Failure_ExitCode f)) dString);
   ("reason", at_ agent.Failure_Reason (λ x f, agent.mkFailurePayload (agent.Failure_Class f) x (agent.Failure_ExitCode f)) dString);
   ("exit_code", at_ agent.Failure_ExitCode (λ x f, agent.mkFailurePayload (agent.Failure_Class f) (agent.Failure_Reason f) x) dInt)].

(** [time.Time] reads RFC 3339, strictly. *)
Definition num (n : nat) (lo hi : Z) (s : string) : option (Z * string) :=
  let d := strs.take_bytes n s in
  if (String.length d =? n)%nat then v ← digitsZ 0 d; if utf8.within lo hi v then Some (v, strs.drop_bytes n s) else None
  else None.
Definition sep (c : ascii) (s : string) : option string :=
  match s with String b s => if bool_decide (b = c) then Some s else None | EmptyString => None end.
Definition isLeap (y : Z) : bool := ((y mod 4 =? 0) && (negb (y mod 100 =? 0) || (y mod 400 =? 0)))%Z.
Definition daysIn (m y : Z) : Z :=
  (if m =? 2 then (if isLeap y then 29 else 28) else if existsb (Z.eqb m) [4; 6; 9; 11] then 30 else 31)%Z.
Definition isRFC3339 (s : string) : bool :=
  let ok := '(y, s) ← num 4 0 9999 s; s ← sep "-" s; '(m, s) ← num 2 1 12 s; s ← sep "-" s;
            '(_, s) ← num 2 1 (daysIn m y) s; s ← sep "T" s; '(_, s) ← num 2 0 23 s; s ← sep ":" s;
            '(_, s) ← num 2 0 59 s; s ← sep ":" s; '(_, s) ← num 2 0 59 s; '(_, s) ← fraction s;
            if bool_decide (s = "Z") then Some ()
            else '(_, s) ← match sep "+" s with Some s => Some ((), s) | None => s ← sep "-" s; Some ((), s) end;
                 '(_, s) ← num 2 0 23 s; s ← sep ":" s; '(_, s) ← num 2 0 59 s; if bool_decide (s = "") then Some () else None in
  bool_decide (is_Some ok).
Definition dTime {A} : decoder A := λ j v,
  (v, match j with JNull => true | JStr s => isRFC3339 s | _ => false end).

Definition typeOfEvent : decoder NormalizedEvent := at_ (λ e, agent.EventType_String (Type_ e)) (λ x, set_Type (EventType x)) dString.
Definition eventFields : list (string * decoder NormalizedEvent) :=
  [("ts", dTime);
   ("run_id", at_ RunID (λ x e, set_ids x (Engine e) (Model e) e) dString);
   ("engine", at_ Engine (λ x e, set_ids (RunID e) x (Model e) e) dString);
   ("model", at_ Model (λ x e, set_ids (RunID e) (Engine e) x e) dString);
   ("message", at_ Message set_Message (dPtr dMessage zeroMessage));
   ("tool", at_ Tool set_Tool (dPtr dTool zeroTool));
   ("command", at_ Command set_Command (dPtr dCommand zeroCommand));
   ("file_change", at_ FileChange set_FileChange (dPtr dFileChange zeroFileChange));
   ("usage", at_ Usage set_Usage (dPtr dUsage zeroUsage));
   ("checkpoint", at_ Checkpoint set_Checkpoint (dPtr dCheckpoint zeroCheckpoint));
   ("approval", at_ Approval set_Approval (dPtr dApproval zeroApproval));
   ("warning", at_ Warning set_Warning (dPtr dWarning zeroWarning));
   ("failure", at_ Failure set_Failure (dPtr dFailure zeroFailure));
   ("raw", λ j e, (set_Raw (Some (TextOf j)) e, true))].
Definition dEvent : decoder NormalizedEvent := dStruct (("type", typeOfEvent) :: eventFields).
(** The discriminator alone. *)
Definition dType : decoder string := dStruct [("type", dString)].

Inductive ParseError :=
| ErrEmptyLine
| MalformedEventError (why : string)
| UnknownEventTypeError (type_ : string).

(** [trimJSONL]. *)
Definition trimJSONL (line : string) : string := strs.TrimRight [strs.nl; strs.cr] line.

Section parse.
  (** The text of a decoding error, by what was decoded. *)
  Context (jsonError : string → string → string).

Definition warning (code message : string) (raw : string) : NormalizedEvent :=
  set_Raw (Some (Bytes raw)) (set_Warning (Some (mkWarningPayload code message true)) (event agent.EventWarning)).

(** The event, if there is any, and the error. *)
Definition ParseEventLine (line : string) : option NormalizedEvent * option ParseError :=
  let line := trimJSONL line in
  if bool_decide (line = "") then (None, Some ErrEmptyLine)
  else
    match Unmarshal dType line "" with
    | (_, false) =>
        (Some (warning "malformed.json" ("failed to decode event JSON: " +:+ jsonError "head" line) line),
         Some (MalformedEventError (jsonError "head" line)))
    | (t, true) =>
        if bool_decide (t = "") then
          (Some (warning "malformed.missing-type" ("event object has no " +:+ strs.q "type" +:+ " field") line),
           Some (MalformedEventError "missing type field"))
        else if negb (EventType_IsValid (EventType t)) then
          (Some (warning "unknown-event-type" ("unknown event type " +:+ strs.q t +:+ "; ignored") line), Some (UnknownEventTypeError t))
        else
          match Unmarshal dEvent line (set_Raw (Some (Bytes line)) (event (EventType t))) with
          | (e, true) => (Some e, None)
          | (_, false) =>
              (Some (warning "malformed.payload" ("failed to decode event payload: " +:+ jsonError "event" line) line),
               Some (MalformedEventError (jsonError "event" line)))
          end
    end.

(** A line is empty, or yields an event: a recoverable warning that keeps the line
    when there is an error, an event of a known type when there is none. *)
Lemma ParseEventLine_event line :
  match ParseEventLine line with
  | (None, e) => e = Some ErrEmptyLine ∧ trimJSONL line = ""
  | (Some ev, Some e) => e ≠ ErrEmptyLine ∧ ∃ code msg, ev = warning code msg (trimJSONL line)
  | (Some ev, None) => True
  end.
Proof.
  unfold ParseEventLine. case_bool_decide as He; [by split|].
  destruct (Unmarshal dType (trimJSONL line) "") as [t []]; [|split; [done|eauto]].
  case_bool_decide; [split; [done|eauto]|]. destruct (negb _); [split; [done|eauto]|].
  destruct (Unmarshal dEvent _ _) as [e []]; [done|split; [done|eauto]].
Qed.
End parse.

(** The type of an event that is let through is a known one. *)
Lemma field_type {A} (d : decoder A) fs k : Forall (λ f : string * decoder A, fold f.1 ≠ fold "type") fs →
  field (("type", d) :: fs) k = if bool_decide (fold "type" = fold k) then Some d else field fs k.
Proof.
  intros Hfs. unfold field. cbn [List.find fst snd]. rewrite Forall_forall in Hfs. case_bool_decide as Hk; [by subst k; rewrite bool_decide_true|].
  destruct (List.find (λ f, bool_decide (f.1 = k)) fs) as [[k' d']|] eqn:Hf; cbn.
  - rewrite bool_decide_false; [done|]. intros Heq. apply List.find_some in Hf as [Hin Hf]. apply bool_decide_eq_true in Hf. cbn in Hf. subst k'.
    apply list_elem_of_In in Hin. by apply (Hfs _ Hin).
  - by case_bool_decide.
Qed.
Definition keepsType (d : decoder NormalizedEvent) : Prop := ∀ j e, Type_ (d j e).1 = Type_ e.
Lemma at_keepsType {B} (g : NormalizedEvent → B) s (d : decoder B) : (∀ x e, Type_ (s x e) = Type_ e) → keepsType (at_ g s d).
Proof. intros Hs j e. unfold at_. destruct (d j (g e)) as [x ok]. apply Hs. Qed.
Lemma eventFields_keepType k d : field eventFields k = Some d → keepsType d.
Proof.
  assert (Forall (λ f, keepsType f.2) eventFields) as H by (repeat constructor; intros ??; apply at_keepsType; done).
  rewrite Forall_forall in H. unfold field. intros Hd. destruct (List.find _ eventFields) as [f|] eqn:Hf.
  - injection Hd as <-. apply List.find_some in Hf as [Hf _]. by apply H, list_elem_of_In.
  - destruct (List.find _ eventFields) as [f|] eqn:Hf' in Hd; [|done]. injection Hd as <-. apply List.find_some in Hf' as [Hf' _].
    by apply H, list_elem_of_In.
Qed.
Lemma EventType_String_EventType s : agent.EventType_String (EventType s) = s.
Proof.
  unfold EventType. destruct (List.find _ _) as [t|] eqn:Hf; [|done]. apply List.find_some in Hf as [_ Hf]. by apply bool_decide_eq_true in Hf.
Qed.
(** The head and the event see the same type, or the head sees none. *)
Definition memberStep {A} (fields : list (string * decoder A)) (acc : A * bool) (kv : string * json) : A * bool :=
  match field fields kv.1 with Some d => let '(v, ok) := d kv.2 acc.1 in (v, acc.2 && ok) | None => acc end.
Lemma type_agrees l : ∀ (s t : string) e x y, Type_ e = EventType t →
  let s' := (foldl (memberStep [("type", dString)]) (s, x) l).1 in
  let e' := (foldl (memberStep (("type", typeOfEvent) :: eventFields)) (e, y) l).1 in
  (s' = s ∧ Type_ e' = EventType t) ∨ Type_ e' = EventType s'.
Proof.
  induction l as [|[k j] l IH]; intros s t e x y He; [by left|]. cbn [foldl].
  assert (memberStep [("type", dString)] (s, x) (k, j) =
    if bool_decide (fold "type" = fold k) then let '(v, ok) := dString j s in (v, x && ok) else (s, x)) as ->.
  { unfold memberStep. cbn [fst snd]. rewrite (field_type dString []) by constructor. by case_bool_decide. }
  assert (memberStep (("type", typeOfEvent) :: eventFields) (e, y) (k, j) =
    if bool_decide (fold "type" = fold k) then let '(v, ok) := typeOfEvent j e in (v, y && ok)
    else match field eventFields k with Some d => let '(v, ok) := d j e in (v, y && ok) | None => (e, y) end) as ->.
  { unfold memberStep. cbn [fst snd]. rewrite field_type by (repeat constructor; done). by case_bool_decide. }
  case_bool_decide.
  - unfold typeOfEvent, at_. rewrite He, EventType_String_EventType.
    destruct j as [| | |s1| |]; cbn [dString]; try (apply IH; cbn; done).
    destruct (IH s1 s1 (set_Type (EventType s1) e) (x && true) (y && true) eq_refl) as [[Hs Ht]|Ht]; right; [by rewrite Hs|exact Ht].
  - destruct (field eventFields k) as [d|] eqn:Hd; [|by apply IH].
    pose proof (eventFields_keepType k d Hd j e) as Hk. destruct (d j e) as [e1 ok]. cbn in Hk. apply IH. by rewrite Hk.
Qed.
Lemma ParseEventLine_valid jsonError line ev :
  ParseEventLine jsonError line = (Some ev, None) → EventType_IsValid (Type_ ev) = true.
Proof.
  unfold ParseEventLine. case_bool_decide; [done|]. destruct (Unmarshal dType (trimJSONL line) "") as [t []] eqn:Ht; [|done].
  case_bool_decide as Hne; [done|]. destruct (EventType_IsValid (EventType t)) eqn:Hv; [|done]. cbn [negb].
  revert Ht. unfold Unmarshal. destruct (parse (trimJSONL line)) as [j|]; [|done]. destruct j as [| | | | |l]; [by intros [= <-]|done..|].
  unfold dType, dEvent, dStruct. fold (memberStep [("type", dString)]) (memberStep (("type", typeOfEvent) :: eventFields)).
  intros Ht. pose proof (type_agrees l "" t (set_Raw (Some (Bytes (trimJSONL line))) (event (EventType t))) true true eq_refl) as Ha.
  rewrite Ht in Ha. cbn [fst] in Ha. destruct (foldl _ (set_Raw _ _, true) l) as [e []]; [|done]. intros [= ->].
  cbn in Ha. destruct Ha as [[-> _]|Ha]; [done|]. by rewrite Ha.
Qed.

(** ** failure.go *)

Definition withExit (fc : agent.FailureClassification) (exitCode : Z) : agent.FailureClassification :=
  agent.mkFailureClassification (agent.Class_ fc) (agent.Policy fc) (agent.Retryable fc) (agent.Failover fc) (agent.MaxRetries fc)
    (agent.CooldownSeconds fc) (agent.Reason fc) exitCode.
Definition withReason (fc : agent.FailureClassification) (reason : string) : agent.FailureClassification :=
  agent.mkFailureClassification (agent.Class_ fc) (agent.Policy fc) (agent.Retryable fc) (agent.Failover fc) (agent.MaxRetries fc)
    (agent.CooldownSeconds fc) (if bool_decide (reason = "") then agent.Reason fc else reason) (agent.ExitCode fc).
(** The loop over the events, with what an adapter makes of a class. *)
Fixpoint explicitFailure (refine : agent.FailureClass → agent.FailureClass) (exitCode : Z) (events : list NormalizedEvent) :
    option agent.FailureClassification :=
  match events with
  | [] => None
  | ev :: events =>
      match bool_decide (Type_ ev = agent.EventRunFailed), Failure ev with
      | true, Some f =>
          if agent.FailureClass_IsValid (agent.Failure_Class f)
          then Some (withReason (withExit (agent.DefaultPolicy (refine (agent.Failure_Class f))) exitCode) (agent.Failure_Reason f))
          else explicitFailure refine exitCode events
      | _, _ =>
          if bool_decide (Type_ ev = agent.EventRunCancelled)
          then Some (withExit (agent.DefaultPolicy agent.FailureCancelled) exitCode)
          else explicitFailure refine exitCode events
      end
  end.
(** One of the words occurs. *)
Definition mentions (low : string) (words : list string) : bool := existsb (strs.Contains low) words.

Definition DefaultClassify (exitCode : Z) (events : list NormalizedEvent) (stderr : string) : agent.FailureClassification :=
  match explicitFailure id exitCode events with
  | Some fc => fc
  | None =>
      let low := strs.ToLower stderr in
      let policy c := withExit (agent.DefaultPolicy c) exitCode in
      if mentions low ["quota"; "exhausted"; "limit exceeded"] then policy agent.FailureProviderQuota
      else if mentions low ["rate limit"; "429"; "too many requests"] then policy agent.FailureProviderRateLimit
      else if mentions low ["unauthorized"; "401"; "invalid api key"; "auth"] then policy agent.FailureProviderAuth
      else if strs.Contains low "not found" && strs.Contains low "command" then policy agent.FailureEngineNotInstalled
      else if strs.Contains low "model" && mentions low ["not available"; "not found"] then policy agent.FailureModelNotAvailable
      else if strs.Contains low "scope" && strs.Contains low "violat" then policy agent.FailureScopeViolation
      else if (exitCode =? 0)%Z then
        let fc := policy agent.FailureInternalError in
        agent.mkFailureClassification (agent.Class_ fc) agent.PolicyTerminal false (agent.Failover fc) (agent.MaxRetries fc)
          (agent.CooldownSeconds fc) "ClassifyFailure called with exit code 0 (no failure)" exitCode
      else if (exitCode =? 124)%Z || (exitCode =? 137)%Z then policy agent.FailureTimeout
      else if (128 <=? exitCode)%Z then policy agent.FailureEngineCrash
      else policy agent.FailureMalformedOutput
  end.

(** No classification allows more than five retries, and each has a known class and
    the exit code it was made for. *)
Definition bounded (exitCode : Z) (fc : agent.FailureClassification) : Prop :=
  agent.FailureClass_IsValid (agent.Class_ fc) = true ∧ (0 ≤ agent.MaxRetries fc ≤ 5)%Z ∧ agent.ExitCode fc = exitCode.
Lemma bounded_policy exitCode c : bounded exitCode (withExit (agent.DefaultPolicy c) exitCode).
Proof. destruct c; by repeat split. Qed.
Lemma bounded_reason exitCode fc r : bounded exitCode fc → bounded exitCode (withReason fc r).
Proof. done. Qed.
Lemma bounded_explicit refine exitCode events fc : explicitFailure refine exitCode events = Some fc → bounded exitCode fc.
Proof.
  induction events as [|ev events IH]; [done|]. cbn [explicitFailure].
  repeat case_match; try apply IH; intros [= <-]; first [apply bounded_reason, bounded_policy | by repeat split].
Qed.
Lemma DefaultClassify_bounded exitCode events stderr : bounded exitCode (DefaultClassify exitCode events stderr).
Proof.
  unfold DefaultClassify. destruct (explicitFailure _ _ _) as [fc|] eqn:He; [by eapply bounded_explicit|].
  repeat case_match; first [apply bounded_policy | by repeat split].
Qed.

(** ** eventsink.go *)

(** A sink: what it holds, and whether it took the event. *)
Definition Sink (S : Type) : Type := NormalizedEvent → S → bool * S.
Definition SliceSink : Sink (list NormalizedEvent) := λ e l, (true, l ++ [e]).
(** [TeeSink]: the sinks in order, until one refuses. *)
Fixpoint TeeSink {S} (sinks : list (Sink S)) : Sink S := λ e s,
  match sinks with
  | [] => (true, s)
  | k :: sinks => let '(ok, s) := k e s in if ok then TeeSink sinks e s else (false, s)
  end.
(** [ChannelSink]: a bounded buffer; a full one takes the event when it is read from
    first, and refuses it when the context ends first. *)
Record ChannelSink := mkChannelSink { buffer : nat; queued : list NormalizedEvent }.
Definition NewChannelSink (n : nat) : ChannelSink := mkChannelSink (max 1 n) [].
Definition offer (ctxDone : bool) (e : NormalizedEvent) (s : ChannelSink) : list (bool * ChannelSink) :=
  (if length (queued s) <? buffer s then [(true, mkChannelSink (buffer s) (queued s ++ [e]))] else [])
  ++ (if ctxDone then [(false, s)] else []).
Lemma offer_bounded d e s ok s' :
  length (queued s) ≤ buffer s → (ok, s') ∈ offer d e s → length (queued s') ≤ buffer s' ∧ (ok = true ↔ queued s' = queued s ++ [e]).
Proof.
  unfold offer. intros Hle [Hin|Hin]%elem_of_app.
  - destruct (length (queued s) <? buffer s) eqn:Hlt; [|by apply not_elem_of_nil in Hin].
    apply Nat.ltb_lt in Hlt. apply list_elem_of_singleton in Hin as [= -> ->]. cbn. rewrite length_app. cbn. split; [lia|done].
  - destruct d; [|by apply not_elem_of_nil in Hin]. apply list_elem_of_singleton in Hin as [= -> ->]. split; [done|]. split; [done|].
    intros H. apply (f_equal length) in H. rewrite length_app in H. cbn in H. lia.
Qed.
End protocol.
