(* ===== verification/Live.v ===== *)
(** * Live: supervised runs as concurrent programs

    The adapters of the coding agents share a shape: [Start] spawns a process group
    and two goroutines, a reader that hands the lines of its output over a channel
    of one place, and a supervisor that selects between the channel and the run's
    context, forwards events to the sink and decides how the run ended, while the
    process, callers of [Cancel], a timer and the parent context do what they like.
    This file has the language the supervisors are written in, programs whose steps
    may wait and may go several ways, the reasoning about them, and the world of a
    run with everybody but the supervisor. *)
From S2P Require Import Prelude Agent Protocol.

Module live.

(** ** Programs *)

(** A step lists what it may do; an empty list waits. *)
Inductive prog (W A : Type) : Type :=
| Ret (a : A)
| Step (f : W → list (A * W))
| Bind {B : Type} (p : prog W B) (k : B → prog W A)
| Loop {S : Type} (body : S → prog W (S + A)) (s : S).
Arguments Ret {W A} a.
Arguments Step {W A} f.
Arguments Bind {W A B} p k.
Arguments Loop {W A S} body s.

(** Programs have a sequencing of their own: they are too large for a monad that
    also sequences options. *)
Declare Scope prog_scope.
Notation "x ← y ; z" := (Bind y (λ x : _, z)) (at level 20, y at level 100, z at level 200, only parsing) : prog_scope.
Open Scope prog_scope.

Definition modify {W} (f : W → W) : prog W () := Step (λ w, [((), f w)]).
Definition get {W A} (f : W → A) : prog W A := Step (λ w, [(f w, w)]).
(** [for _, x := range l]: [body] says whether to go on. *)
Fixpoint each {W A} (l : list A) (body : A → prog W bool) : prog W bool :=
  match l with [] => Ret true | x :: l => ok ← body x; if ok : bool then each l body else Ret false end.

(** What a program may do next. *)
Fixpoint next {W A} (p : prog W A) (w : W) : list (prog W A * W) :=
  match p with
  | Ret _ => []
  | Step f => List.map (λ r, (Ret r.1, r.2)) (f w)
  | Bind p k => match p with Ret a => [(k a, w)] | _ => List.map (λ r, (Bind r.1 k, r.2)) (next p w) end
  | Loop body s => [(Bind (body s) (λ r, match r with inl s => Loop body s | inr a => Ret a end), w)]
  end.
Definition returned {W A} (p : prog W A) : option A := match p with Ret a => Some a | _ => None end.

(** A program among others. *)
Inductive sys {W A} (others : W → W → Prop) : prog W A * W → prog W A * W → Prop :=
| sys_own p w p' w' : In (p', w') (next p w) → sys others (p, w) (p', w')
| sys_other p w w' : others w w' → sys others (p, w) (p, w').

(** A schedule: the program's only possibility as long as there is only one, its
    [i]-th one, or something the others do. *)
Inductive Turn (X : Type) := Go | Own (i : nat) | Other (a : X).
Arguments Go {X}.
Arguments Own {X} i.
Arguments Other {X} a.
Fixpoint go {W A} (n : nat) (c : prog W A * W) : prog W A * W :=
  match n, next c.1 c.2 with S n, [c'] => go n c' | _, _ => c end.
Definition turn {W A X} (act : X → W → option W) (c : prog W A * W) (t : Turn X) : option (prog W A * W) :=
  match t with
  | Go => Some (go 1000 c)
  | Own i => nth_error (next c.1 c.2) i
  | Other a => match act a c.2 with Some w => Some (c.1, w) | None => None end
  end.
Fixpoint play {W A X} (act : X → W → option W) (l : list (Turn X)) (c : prog W A * W) : option (prog W A * W) :=
  match l with [] => Some c | t :: l => match turn act c t with Some c => play act l c | None => None end end.

(** [rtc] is transitive, and what [List.map] yields, at the level of programs. *)
Lemma map_nil {X Y : Type} (f : X → Y) l : List.map f l = [] → l = [].
Proof. by destruct l. Qed.
Lemma In_map {X Y : Type} (f : X → Y) l y : In y (List.map f l) → ∃ x, y = f x ∧ In x l.
Proof. induction l as [|x l IH]; cbn; [done|]. intros [<-|H]; [by exists x; split; [|left]|]. destruct (IH H) as (x' & -> & ?). exists x'. by split; [|right]. Qed.
Lemma rtc_trans {X : Type} (S : X → X → Prop) x y z : rtc S x y → rtc S y z → rtc S x z.
Proof. induction 1; [done|]. intros. eapply rtc_l; eauto. Qed.
Lemma rtc_one {X : Type} (S : X → X → Prop) x y : S x y → rtc S x y.
Proof. intros. eapply rtc_l; [done|apply rtc_refl]. Qed.

Lemma go_sys {W A} (others : W → W → Prop) n : ∀ c : prog W A * W, rtc (sys others) c (go n c).
Proof.
  induction n as [|n IH]; intros [p w]; cbn [go]; [apply rtc_refl|]. cbn [fst snd]. destruct (next p w) as [|[p1 w1] [|]] eqn:Hn; try apply rtc_refl.
  eapply rtc_l; [|apply IH]. apply sys_own. rewrite Hn. by left.
Qed.
Lemma play_sys {W A X} (act : X → W → option W) l : ∀ (c c' : prog W A * W),
  play act l c = Some c' → rtc (sys (λ w w', ∃ a, act a w = Some w')) c c'.
Proof.
  induction l as [|t l IH]; intros c c'; cbn [play]; [intros [= ->]; apply rtc_refl|].
  destruct (turn act c t) as [c1|] eqn:Ht; [|done]. intros Hp. apply IH in Hp. clear IH. revert Hp. apply rtc_trans.
  destruct c as [p w], t as [|i|a]; unfold turn in Ht; cbn [fst snd] in Ht.
  - assert (c1 = go 1000 (p, w)) as -> by congruence. apply go_sys.
  - destruct c1. apply rtc_one, sys_own. by apply (nth_error_In _ i).
  - destruct (act a w) as [w1|] eqn:Ha; [|done]. injection Ht as <-. apply rtc_one, sys_other. by exists a.
Qed.

(** ** Reasoning *)

Section rely.
  Context {W : Type}.
  (** The invariant, what the others may do, and where the program may wait. *)
  Context (I : W → Prop) (R : W → W → Prop) (Wait : W → Prop).

(** For [n] steps of the program: the invariant is kept, it waits only where it may,
    and when it is done [Q] holds and goes on holding. *)
Fixpoint wpn (n : nat) {A} (p : prog W A) (Q : A → W → Prop) (w : W) : Prop :=
  match n with
  | O => True
  | S n =>
      ∀ w', R w w' → I w' →
      match returned p with
      | Some a => Q a w'
      | None => (next p w' = [] → Wait w') ∧ ∀ p' w'', In (p', w'') (next p w') → I w'' ∧ wpn n p' Q w''
      end
  end.
Definition wp {A} (p : prog W A) (Q : A → W → Prop) (w : W) : Prop := ∀ n, wpn n p Q w.

  Context `{!PreOrder R}.

Lemma wpn_mono {A} n (Q Q' : A → W → Prop) : (∀ a w', I w' → Q a w' → Q' a w') → ∀ p w, wpn n p Q w → wpn n p Q' w.
Proof.
  intros HQ. induction n as [|n IH]; intros p w H; [done|]. intros w' HR Hi. specialize (H w' HR Hi).
  destruct (returned p); [by apply HQ|]. destruct H as [Hw H]. split; [done|]. intros p' w'' Hin.
  destruct (H p' w'' Hin). auto.
Qed.
Lemma wpn_rely {A} n (p : prog W A) Q w w' : R w w' → wpn n p Q w → wpn n p Q w'.
Proof. destruct n; [done|]. intros HR H w'' HR'. apply H. by etrans. Qed.
Lemma wpn_down {A} n Q : ∀ (p : prog W A) w, wpn (S n) p Q w → wpn n p Q w.
Proof.
  induction n as [|n IH]; intros p w H; [done|]. intros w' HR Hi. specialize (H w' HR Hi). destruct (returned p); [done|].
  destruct H as [Hw H]. split; [done|]. intros p' w'' Hin. destruct (H p' w'' Hin). auto.
Qed.
Lemma wpn_bind {A B} n (f : A → prog W B) Q : ∀ (p : prog W A) w,
  wpn n p (λ a w', wpn n (f a) Q w') w → wpn n (Bind p f) Q w.
Proof.
  induction n as [|n IH]; intros p w H; [done|]. intros w' HR Hi. specialize (H w' HR Hi).
  assert (∀ a, returned p = Some a → p = Ret a) as Hret.
  { destruct p; intros a' Ha; [by injection Ha as ->|done..]. }
  cbn [returned]. destruct (returned p) as [a|] eqn:Hp.
  - rewrite (Hret a) by done. cbn [next]. split; [done|]. intros p' w'' [[= <- <-]|[]]. split; [done|].
    apply wpn_down. by apply (wpn_rely _ _ _ w'); [|].
  - assert (next (Bind p f) w' = List.map (λ r, (Bind r.1 f, r.2)) (next p w')) as -> by (by destruct p).
    destruct H as [Hw H]. split; [by intros Hm%map_nil; apply Hw|].
    intros p' w'' Hin. apply In_map in Hin as ([p1 w1] & [= -> ->] & Hin). destruct (H p1 w1 Hin) as [Hi' H']. split; [done|]. apply IH.
    eapply wpn_mono; [|exact H']. intros a w2 _. apply wpn_down.
Qed.

(** A postcondition has to survive what the others do. *)
Definition stable {A} (Q : A → W → Prop) : Prop := ∀ a w w', R w w' → I w' → Q a w → Q a w'.

Lemma rg_mono {A} (Q Q' : A → W → Prop) p w : (∀ a w', I w' → Q a w' → Q' a w') → wp p Q w → wp p Q' w.
Proof. intros HQ H n. by eapply wpn_mono. Qed.
Lemma rg_rely {A} (p : prog W A) Q w w' : R w w' → wp p Q w → wp p Q w'.
Proof. intros HR H n. by eapply wpn_rely. Qed.
Lemma rg_ret {A} (a : A) (Q : A → W → Prop) w : (∀ w', R w w' → I w' → Q a w') → wp (Ret a) Q w.
Proof. intros H [|n]; [done|]. intros w' HR Hi. by apply H. Qed.
Lemma rg_bind {A B} (f : A → prog W B) (p : prog W A) Q w : wp p (λ a w', wp (f a) Q w') w → wp (Bind p f) Q w.
Proof. intros H n. apply wpn_bind. eapply wpn_mono; [|apply H]. intros a w' _ Ha. apply Ha. Qed.
Lemma wp_step {A} (f : W → list (A * W)) (Q : A → W → Prop) w :
  (∀ w', R w w' → I w' → (f w' = [] → Wait w') ∧
     ∀ a w'', In (a, w'') (f w') → I w'' ∧ ∀ w3, R w'' w3 → I w3 → Q a w3) → wp (Step f) Q w.
Proof.
  intros H [|n]; [done|]. intros w' HR Hi. destruct (H w' HR Hi) as [Hw Hs]. split; [by intros Hm%map_nil; apply Hw|].
  intros p' w'' Hin. apply In_map in Hin as ([a w1] & [= -> ->] & Hin). destruct (Hs a w1 Hin) as [Hi' HQ]. split; [done|].
  by apply rg_ret.
Qed.
Lemma wp_loop {A S} (body : S → prog W (S + A)) (Inv : S → W → Prop) (Q : A → W → Prop) s w :
  (∀ s w, I w → Inv s w → wp (body s) (λ r w', match r with inl s' => Inv s' w' | inr a => ∀ w'', R w' w'' → I w'' → Q a w'' end) w) →
  (∀ s w w', R w w' → I w' → Inv s w → Inv s w') →
  Inv s w → wp (Loop body s) Q w.
Proof.
  intros Hb Hst Hs n. revert s w Hs. induction n as [|n IH]; intros s w Hs; [done|]. intros w' HR Hi. split; [done|].
  intros p' w'' [[= <- <-]|[]]. split; [done|]. apply wpn_bind. eapply wpn_mono; [|apply (Hb s w' Hi (Hst s w w' HR Hi Hs))].
  intros [s'|a] w1 Hi' H; [by apply IH|]. by apply rg_ret.
Qed.
Lemma wp_each {A} (l : list A) (body : A → prog W bool) (Inv : list A → W → Prop) (Q : bool → W → Prop) w :
  (∀ x l w, I w → Inv (x :: l) w → wp (body x) (λ ok w', if ok : bool then Inv l w' else ∀ w'', R w' w'' → I w'' → Q false w'') w) →
  (∀ w, I w → Inv [] w → ∀ w', R w w' → I w' → Q true w') → I w → Inv l w → wp (each l body) Q w.
Proof.
  intros Hb Hd. revert w. induction l as [|x l IH]; intros w Hi Hl; cbn [each].
  - apply rg_ret. by apply Hd.
  - apply rg_bind. eapply rg_mono; [|by apply Hb]. intros [] w' Hi' H; [by apply IH|by apply rg_ret].
Qed.

Lemma wp_next {A} (p p' : prog W A) w w' Q : I w → wp p Q w → In (p', w') (next p w) → I w' ∧ wp p' Q w'.
Proof.
  intros Hi Hp Hin.
  assert (∀ n, I w' ∧ wpn n p' Q w') as H by (intros n; specialize (Hp (S n) w ltac:(done) Hi);
    (destruct p as [a|f|B p k|S body s]; [done|..]); cbn [returned] in Hp; destruct Hp as [_ Hp]; by apply Hp).
  split; [apply (H 0)|]. intros n. apply H.
Qed.
(** What the rules say of a program among others. *)
Lemma wp_sound {A} (others : W → W → Prop) (p p' : prog W A) Q w w' :
  (∀ w w', I w → others w w' → R w w' ∧ I w') → I w → wp p Q w → rtc (sys others) (p, w) (p', w') →
  I w' ∧ match returned p' with Some a => Q a w' | None => next p' w' = [] → Wait w' end.
Proof.
  intros Ho Hi Hp Hs.
  assert (∀ c c', rtc (sys others) c c' → I c.2 → wp c.1 Q c.2 → I c'.2 ∧ wp c'.1 Q c'.2) as H.
  { clear p p' w w' Hi Hp Hs. induction 1 as [c|c c1 c2 Hstep _ IH]; intros Hi Hp; [done|].
    destruct Hstep as [p w p' w' Hin|p w w' Hoth]; cbn in Hi, Hp; apply IH; cbn.
    - destruct (wp_next p p' w w' Q Hi Hp Hin). done.
    - by apply (wp_next p p' w w' Q Hi Hp Hin).
    - by apply (Ho w).
    - apply (rg_rely p Q w); [|done]. by apply Ho. }
  destruct (H _ _ Hs Hi Hp) as [Hi' H']. cbn in Hi', H'. split; [done|]. specialize (H' 1 w' ltac:(done) Hi').
  destruct (returned p'); [done|]. by destruct H'.
Qed.
End rely.

(** ** The world of a run *)

(** What the line reader returns: a line (none for a blank one), and whether to go on. *)
Record Chunk := mkChunk { line : option string; hasMore : bool }.
Definition EOF : Chunk := mkChunk None false.
Definition isEOF (c : Chunk) : bool := match c with mkChunk None false => true | _ => false end.
Inductive Reader := NotStarted | Reading | Sending (c : Chunk) | Finished.
(** How the process ended; the exit code of a signalled one is -1. *)
Inductive Exit := Exited (code : Z) | Signalled.
Definition exitCode (e : Exit) : Z := match e with Exited c => c | Signalled => -1 end.
Inductive Intent := CancelUser | CancelTimeout.
#[export] Instance Intent_eq_dec : EqDecision Intent.
Proof. solve_decision. Defined.

(** What a caller of [Cancel], and the timer, do one after the other. *)
Inductive CallerAct := Mark (i : Intent) | CancelCtx (e : agent.CtxErr) | KillGroup | Fire.

Record World := mkWorld {
  written : list Chunk;               (* the lines of the process, all of them *)
  enough : bool;                      (* three bytes of them are there *)
  got : list Chunk;                   (* what the supervisor has received *)
  copying : bool;                     (* what [cmd.Wait] waits for besides the process *)
  stdout : list Chunk;                (* written and not yet read *)
  open_ : bool;
  exit_ : option Exit;
  stderr : string;
  killed : bool;                      (* the group was sent SIGKILL *)
  reaped : bool;                      (* somebody waited for the process *)
  reader : Reader;
  chan : option Chunk;
  eofSeen : bool;                     (* the supervisor has received the end *)
  ctx : option agent.CtxErr;
  marks : list Intent;                (* recorded intents *)
  callers : list (list CallerAct);
  armed : bool;                       (* the timer runs *)
  fired : bool;                       (* its channel is readable *)
  given : list (protocol.NormalizedEvent * bool);  (* what the sink was offered, and whether it took it *)
  saved : list protocol.RawMessage;                (* malformed lines kept as artifacts *)
  session : string;
  registered : bool }.

Definition fresh (timeout : bool) : World :=
  mkWorld [] false [] true [] true None "" false false NotStarted None false None [] [] timeout false [] [] "" true.

Definition set_written x e w := mkWorld x e (got w) (copying w) (stdout w) (open_ w) (exit_ w) (stderr w) (killed w) (reaped w) (reader w) (chan w) (eofSeen w) (ctx w) (marks w) (callers w) (armed w) (fired w) (given w) (saved w) (session w) (registered w).
Definition set_got x w := mkWorld (written w) (enough w) x (copying w) (stdout w) (open_ w) (exit_ w) (stderr w) (killed w) (reaped w) (reader w) (chan w) (eofSeen w) (ctx w) (marks w) (callers w) (armed w) (fired w) (given w) (saved w) (session w) (registered w).
Definition set_copying x w := mkWorld (written w) (enough w) (got w) x (stdout w) (open_ w) (exit_ w) (stderr w) (killed w) (reaped w) (reader w) (chan w) (eofSeen w) (ctx w) (marks w) (callers w) (armed w) (fired w) (given w) (saved w) (session w) (registered w).
Definition set_stdout x w := mkWorld (written w) (enough w) (got w) (copying w) x (open_ w) (exit_ w) (stderr w) (killed w) (reaped w) (reader w) (chan w) (eofSeen w) (ctx w) (marks w) (callers w) (armed w) (fired w) (given w) (saved w) (session w) (registered w).
Definition set_open x w := mkWorld (written w) (enough w) (got w) (copying w) (stdout w) x (exit_ w) (stderr w) (killed w) (reaped w) (reader w) (chan w) (eofSeen w) (ctx w) (marks w) (callers w) (armed w) (fired w) (given w) (saved w) (session w) (registered w).
Definition set_exit x e w := mkWorld (written w) (enough w) (got w) (copying w) (stdout w) (open_ w) x e (killed w) (reaped w) (reader w) (chan w) (eofSeen w) (ctx w) (marks w) (callers w) (armed w) (fired w) (given w) (saved w) (session w) (registered w).
Definition set_killed w := mkWorld (written w) (enough w) (got w) (copying w) (stdout w) (open_ w) (exit_ w) (stderr w) true (reaped w) (reader w) (chan w) (eofSeen w) (ctx w) (marks w) (callers w) (armed w) (fired w) (given w) (saved w) (session w) (registered w).
Definition set_reaped w := mkWorld (written w) (enough w) (got w) (copying w) (stdout w) (open_ w) (exit_ w) (stderr w) (killed w) true (reader w) (chan w) (eofSeen w) (ctx w) (marks w) (callers w) (armed w) (fired w) (given w) (saved w) (session w) (registered w).
Definition set_reader x w := mkWorld (written w) (enough w) (got w) (copying w) (stdout w) (open_ w) (exit_ w) (stderr w) (killed w) (reaped w) x (chan w) (eofSeen w) (ctx w) (marks w) (callers w) (armed w) (fired w) (given w) (saved w) (session w) (registered w).
Definition set_chan x e w := mkWorld (written w) (enough w) (got w) (copying w) (stdout w) (open_ w) (exit_ w) (stderr w) (killed w) (reaped w) (reader w) x e (ctx w) (marks w) (callers w) (armed w) (fired w) (given w) (saved w) (session w) (registered w).
Definition set_ctx x w := mkWorld (written w) (enough w) (got w) (copying w) (stdout w) (open_ w) (exit_ w) (stderr w) (killed w) (reaped w) (reader w) (chan w) (eofSeen w) x (marks w) (callers w) (armed w) (fired w) (given w) (saved w) (session w) (registered w).
Definition set_marks x w := mkWorld (written w) (enough w) (got w) (copying w) (stdout w) (open_ w) (exit_ w) (stderr w) (killed w) (reaped w) (reader w) (chan w) (eofSeen w) (ctx w) x (callers w) (armed w) (fired w) (given w) (saved w) (session w) (registered w).
Definition set_callers x w := mkWorld (written w) (enough w) (got w) (copying w) (stdout w) (open_ w) (exit_ w) (stderr w) (killed w) (reaped w) (reader w) (chan w) (eofSeen w) (ctx w) (marks w) x (armed w) (fired w) (given w) (saved w) (session w) (registered w).
Definition set_timer a f w := mkWorld (written w) (enough w) (got w) (copying w) (stdout w) (open_ w) (exit_ w) (stderr w) (killed w) (reaped w) (reader w) (chan w) (eofSeen w) (ctx w) (marks w) (callers w) a f (given w) (saved w) (session w) (registered w).
Definition set_given x w := mkWorld (written w) (enough w) (got w) (copying w) (stdout w) (open_ w) (exit_ w) (stderr w) (killed w) (reaped w) (reader w) (chan w) (eofSeen w) (ctx w) (marks w) (callers w) (armed w) (fired w) x (saved w) (session w) (registered w).
Definition set_saved x w := mkWorld (written w) (enough w) (got w) (copying w) (stdout w) (open_ w) (exit_ w) (stderr w) (killed w) (reaped w) (reader w) (chan w) (eofSeen w) (ctx w) (marks w) (callers w) (armed w) (fired w) (given w) x (session w) (registered w).
Definition set_session x w := mkWorld (written w) (enough w) (got w) (copying w) (stdout w) (open_ w) (exit_ w) (stderr w) (killed w) (reaped w) (reader w) (chan w) (eofSeen w) (ctx w) (marks w) (callers w) (armed w) (fired w) (given w) (saved w) x (registered w).
Definition set_registered x w := mkWorld (written w) (enough w) (got w) (copying w) (stdout w) (open_ w) (exit_ w) (stderr w) (killed w) (reaped w) (reader w) (chan w) (eofSeen w) (ctx w) (marks w) (callers w) (armed w) (fired w) (given w) (saved w) (session w) x.

(** *** What a supervisor does *)

(** [go reader()]. *)
Definition goReader : prog World () := modify (set_reader Reading).
(** [sink.OnEvent]; the sink takes the event or refuses it. *)
Definition OnEvent (e : protocol.NormalizedEvent) : prog World bool :=
  Step (λ w, [(true, set_given (given w ++ [(e, true)]) w); (false, set_given (given w ++ [(e, false)]) w)]).
Definition kill : prog World () := modify set_killed.
(** [<-readerDone] *)
Definition readerDone : prog World () := Step (λ w, match reader w with Finished => [((), w)] | _ => [] end).
(** [br.Peek(3)]: it waits for three bytes or the end of the output, whatever becomes
    of the context. *)
Definition peek : prog World () := Step (λ w, if enough w || negb (open_ w) then [((), w)] else []).
(** [cmd.Wait]: the process has ended, and so have the goroutines that copy its standard
    error, and its input where it has one; the pipe is closed. *)
Definition wait : prog World (Z * string) :=
  Step (λ w, match exit_ w, copying w with
             | Some e, false => [((exitCode e, stderr w), set_reaped (set_open false (set_stdout [] w)))]
             | _, _ => []
             end).
Definition save (raw : protocol.RawMessage) : prog World () := modify (λ w, set_saved (saved w ++ [raw]) w).
Definition unregister : prog World () := modify (λ w, set_registered false (set_timer false (fired w) w)).
Definition setCtx (e : agent.CtxErr) (w : World) : World := match ctx w with None => set_ctx (Some e) w | Some _ => w end.
(** [cancel()] *)
Definition cancelCtx : prog World () := modify (setCtx agent.Canceled).

(** [select] on the context and the channel; the two may be ready together. *)
Inductive Selected := CtxDone | Received (c : Chunk) | TimerFired.
Definition receive (w : World) : list (Selected * World) :=
  match chan w with Some c => [(Received c, set_got (got w ++ [c]) (set_chan None (eofSeen w || isEOF c) w))] | None => [] end.
Definition selectCtx : prog World Selected :=
  Step (λ w, match ctx w with Some _ => [(CtxDone, w)] | None => [] end ++ receive w).

(** [select] on the context, the timer's channel and the channel. *)
Definition selectAll : prog World Selected :=
  Step (λ w, match ctx w with Some _ => [(CtxDone, w)] | None => [] end
             ++ (if fired w then [(TimerFired, set_timer (armed w) false w)] else []) ++ receive w).
(** A flag the supervisor sets itself. *)
Definition mark (i : Intent) : prog World () := modify (λ w, set_marks (marks w ++ [i]) w).

(** *** What everybody else does

    A line of two bytes and its newline is enough to peek at; shorter lines, and a line
    that is not finished, may be ([Enough]).  The pipes of a process outlive it for as
    long as somebody has inherited them: its output ends with [Close], and the copying
    of its standard error with [Copied]. *)

Inductive Act :=
| Write (l : option string) | Enough | Close | End (code : Z) (err : string) | Die   (* the process *)
| Err (s : string) | Copied                                                 (* whoever has its standard error *)
| Read | Send | Quit                                                        (* the reader *)
| CallCancel | Tick | Caller (i : nat) | Parent (e : agent.CtxErr).

Definition exec (a : CallerAct) (w : World) : World :=
  match a with
  | Mark i => set_marks (marks w ++ [i]) w
  | CancelCtx e => setCtx e w
  | KillGroup => set_killed w
  | Fire => set_timer (armed w) true w
  end.

Definition threeBytes (l : option string) : bool := match l with Some l => 2 <=? String.length l | None => false end.
(** What is written to the standard error is kept as long as it is copied. *)
Definition heard (s : string) (w : World) : string := if copying w then stderr w +:+ s else stderr w.

Section others.
  (** What [Cancel] and the timer do. *)
  Context (cancelScript timerScript : list CallerAct).

Definition act (a : Act) (w : World) : option World :=
  match a with
  | Write l => if open_ w then Some (set_written (written w ++ [mkChunk l true]) (enough w || threeBytes l) (set_stdout (stdout w ++ [mkChunk l true]) w)) else None
  | Enough => if open_ w then Some (set_written (written w) true w) else None
  | Close => if open_ w then Some (set_open false w) else None
  | End code err => match exit_ w with None => Some (set_exit (Some (Exited code)) (heard err w) w) | Some _ => None end
  | Die => match exit_ w with None => if killed w then Some (set_exit (Some Signalled) (stderr w) w) else None | Some _ => None end
  | Err s => Some (set_exit (exit_ w) (heard s w) w)
  | Copied => Some (set_copying false w)
  | Read => match reader w, stdout w with
            | Reading, c :: rest => Some (set_reader (Sending c) (set_stdout rest w))
            | Reading, [] => if open_ w then None else Some (set_reader (Sending EOF) w)
            | _, _ => None
            end
  | Send => match reader w, chan w with
            | Sending c, None => Some (set_reader (if isEOF c then Finished else Reading) (set_chan (Some c) (eofSeen w) w))
            | _, _ => None
            end
  | Quit => match reader w, ctx w with Sending _, Some _ => Some (set_reader Finished w) | _, _ => None end
  | CallCancel => if registered w then Some (set_callers (callers w ++ [cancelScript]) w) else None
  | Tick => if armed w then Some (set_timer false (fired w) (set_callers (callers w ++ [timerScript]) w)) else None
  | Caller i => match callers w !! i with
                | Some (a :: rest) => Some (exec a (set_callers (<[i := rest]> (callers w)) w))
                | _ => None
                end
  | Parent e => match ctx w with None => Some (set_ctx (Some e) w) | Some _ => None end
  end.
Definition others (w w' : World) : Prop := ∃ a, act a w = Some w'.
End others.

(** *** What can be relied on *)

(** What [Cancel] and the timer note before they kill: an intent, or the end of the
    context, or either. *)
Inductive Mode := ByMark | ByCtx | ByEither.
Definition noted (m : Mode) (w : World) : Prop :=
  match m with ByMark => marks w ≠ [] | ByCtx => ctx w ≠ None | ByEither => marks w ≠ [] ∨ ctx w ≠ None end.
Definition notes (m : Mode) (a : CallerAct) : bool :=
  match m, a with ByMark, Mark _ | ByCtx, CancelCtx _ | ByEither, Mark _ | ByEither, CancelCtx _ => true | _, _ => false end.
(** A script that never kills before it has noted why. *)
Fixpoint safe (m : Mode) (b : bool) (l : list CallerAct) : bool :=
  match l with
  | [] => true
  | a :: l => (match a with KillGroup => b | _ => true end) && safe m (b || notes m a) l
  end.

(** What is on its way from the process to the supervisor, what was received first. *)
Definition flow (w : World) : list Chunk :=
  filter (λ c, isEOF c = false)
    (got w ++ option_list (chan w) ++ match reader w with Sending c => c :: stdout w | Finished => [] | _ => stdout w end).
(** It is what the process wrote, and nothing is missing as long as it can write and
    somebody reads. *)
Definition own (w : World) : Prop := flow w `prefix_of` written w ∧ (reader w ≠ Finished → open_ w = true → flow w = written w).

Record inv (m : Mode) (w : World) : Prop := {
  inv_signalled : exit_ w = Some Signalled → killed w = true;
  inv_callers : ∀ s, s ∈ callers w → ∃ b, safe m b s = true ∧ (b = true → noted m w);
  inv_finished : reader w = Finished → ctx w ≠ None ∨ chan w = Some EOF ∨ eofSeen w = true;
  inv_eof : chan w = Some EOF ∨ eofSeen w = true → reader w = Finished;
  inv_idle : reader w = NotStarted → chan w = None;
  inv_own : own w }.

(** What the supervisor alone changes: what it told the sink, what it kept, whether
    it has seen the end of the output. *)
Definition view (w : World) : list (protocol.NormalizedEvent * bool) * list protocol.RawMessage * bool * string :=
  (given w, saved w, eofSeen w, session w).
(** What stays, once it is so, whoever acts. *)
Record near (m : Mode) (w w' : World) : Prop := {
  n_marks : ∃ l, marks w' = marks w ++ l;
  n_ctx : ctx w ≠ None → ctx w' = ctx w;
  n_exit : ∀ e, exit_ w = Some e → exit_ w' = Some e;
  n_err : copying w = false → copying w' = false ∧ stderr w' = stderr w;
  n_got : ∃ l, got w' = got w ++ l;
  n_finished : reader w = Finished → reader w' = Finished;
  n_started : reader w ≠ NotStarted → reader w' ≠ NotStarted;
  n_killed : killed w = true → killed w' = true;
  n_reaped : reaped w = true → reaped w' = true }.
(** The process was not killed, or for a reason that was noted. *)
Definition tame (m : Mode) (w : World) : Prop := killed w = true → noted m w.
Record rely (m : Mode) (w w' : World) : Prop := {
  r_near : near m w w';
  r_view : view w' = view w;
  r_reaped : reaped w' = reaped w;
  r_idle : reader w = NotStarted → reader w' = NotStarted;
  r_tame : tame m w → tame m w' }.

(** Nothing was appended. *)
Ltac nothing_added := by exists []; rewrite app_nil_r.
Lemma noted_near m w w' : near m w w' → noted m w → noted m w'.
Proof.
  intros H. assert (marks w ≠ [] → marks w' ≠ []) as Hm by (destruct (n_marks _ _ _ H) as [l ->]; by destruct (marks w)).
  assert (ctx w ≠ None → ctx w' ≠ None) as Hc by (intros Hx; by rewrite (n_ctx _ _ _ H)).
  destruct m; cbn; [done..|]. intros [?|?]; auto.
Qed.
#[export] Instance near_preorder m : PreOrder (near m).
Proof.
  split.
  - intros w. by split; auto; exists []; rewrite app_nil_r.
  - intros w1 w2 w3 H12 H23. destruct H12, H23. split; auto.
    + destruct n_marks0 as [l1 H1], n_marks1 as [l2 H2]. exists (l1 ++ l2). by rewrite H2, H1, app_assoc.
    + intros Hc. rewrite n_ctx1, n_ctx0; [done..|]. by rewrite n_ctx0.
    + intros Hc. destruct (n_err0 Hc) as [Hc1 Hs1]. destruct (n_err1 Hc1) as [Hc2 Hs2]. split; congruence.
    + destruct n_got0 as [l1 H1], n_got1 as [l2 H2]. exists (l1 ++ l2). by rewrite H2, H1, app_assoc.
Qed.
#[export] Instance rely_preorder m : PreOrder (rely m).
Proof.
  split.
  - intros w. by split.
  - intros w1 w2 w3 H12 H23. destruct H12, H23. split; try congruence; auto. by etrans.
Qed.

Lemma near_got m w w' c : near m w w' → c ∈ got w → c ∈ got w'.
Proof. intros Hn Hc. destruct (n_got _ _ _ Hn) as [l ->]. apply elem_of_app. by left. Qed.

Lemma safe_noted m l : ∀ b, safe m b l = true → safe m true l = true.
Proof.
  induction l as [|a l IH]; intros b; [done|]. cbn [safe]. intros [Ha Hl]%andb_prop. apply andb_true_intro. split; [by destruct a|].
  rewrite orb_true_l. by apply (IH (b || notes m a)).
Qed.
Lemma isEOF_true c : isEOF c = true → c = EOF.
Proof. by destruct c as [[] []]. Qed.

(** What keeps the output the supervisor's own. *)
Lemma own_same w w' : flow w' = flow w → written w' = written w → (open_ w' = true → open_ w = true) →
  (reader w' ≠ Finished → reader w ≠ Finished) → own w → own w'.
Proof. intros Hf Hw Ho Hr [Hp He]. unfold own. rewrite Hf, Hw. auto. Qed.
Lemma own_write l b w : open_ w = true → own w →
  own (set_written (written w ++ [mkChunk l true]) b (set_stdout (stdout w ++ [mkChunk l true]) w)).
Proof.
  intros Ho [Hp He].
  assert (reader w ≠ Finished → flow (set_written (written w ++ [mkChunk l true]) b (set_stdout (stdout w ++ [mkChunk l true]) w)) = written w ++ [mkChunk l true]) as H.
  { intros Hr. rewrite <-(He Hr Ho). unfold flow. cbn. destruct (reader w); [..|done]; rewrite ?app_comm_cons, !app_assoc, filter_app; by destruct l. }
  split; [|intros Hr _; by apply H]. assert (reader w = Finished ∨ reader w ≠ Finished) as [Hr|Hr] by (destruct (reader w); auto).
  - etrans; [|by apply prefix_app_r]. revert Hp. unfold flow. cbn. by rewrite Hr.
  - by rewrite H.
Qed.
Lemma own_read c rest w : reader w = Reading → stdout w = c :: rest → own w → own (set_reader (Sending c) (set_stdout rest w)).
Proof. intros Hr Hs. apply own_same; cbn; try done; [|by rewrite Hr]. unfold flow. cbn. by rewrite Hr, Hs. Qed.
Lemma own_end w : reader w = Reading → stdout w = [] → own w → own (set_reader (Sending EOF) w).
Proof. intros Hr Hs. apply own_same; cbn; try done; [|by rewrite Hr]. unfold flow. cbn. by rewrite Hr, Hs, !filter_app. Qed.
(** The reader may drop what it holds, when it gives up. *)
Lemma own_drop w w' : flow w' `prefix_of` flow w → written w' = written w → reader w' = Finished ∨ open_ w' = false → own w → own w'.
Proof. intros Hf Hw Hr [Hp He]. split; [rewrite Hw; by etrans|]. intros Hn Ho. destruct Hr; congruence. Qed.
Lemma own_quit c w : reader w = Sending c → own w → own (set_reader Finished w).
Proof.
  intros Hr. apply own_drop; [|done|by left]. unfold flow. cbn. rewrite Hr, !filter_app. do 2 apply prefix_app. apply prefix_nil.
Qed.
Lemma own_send c w : reader w = Sending c → chan w = None → own w →
  own (set_reader (if isEOF c then Finished else Reading) (set_chan (Some c) (eofSeen w) w)).
Proof.
  intros Hr Hc. destruct (isEOF c) eqn:He.
  - apply own_drop; [|done|by left]. apply isEOF_true in He as ->. unfold flow. cbn. rewrite Hr, Hc, !filter_app. apply prefix_app. apply prefix_nil.
  - apply own_same; cbn; try done; [|by rewrite Hr]. unfold flow. cbn. by rewrite Hr, Hc.
Qed.
Lemma own_receive c e w : chan w = Some c → own w → own (set_got (got w ++ [c]) (set_chan None e w)).
Proof. intros Hc. apply own_same; cbn; try done. unfold flow. cbn. by rewrite Hc, <-app_assoc. Qed.
Lemma own_wait w : own w → own (set_reaped (set_open false (set_stdout [] w))).
Proof.
  apply own_drop; [|done|by right]. unfold flow. cbn. rewrite !filter_app. do 2 apply prefix_app.
  destruct (reader w) as [| |c|]; try apply prefix_nil; [].
  change (c :: stdout w) with ([c] ++ stdout w). rewrite filter_app. by apply prefix_app_r.
Qed.
(** So what the supervisor has received are the first lines the process wrote. *)
Lemma own_received w : own w → filter (λ c, isEOF c = false) (got w) `prefix_of` written w.
Proof. intros [Hp _]. etrans; [|exact Hp]. unfold flow. rewrite filter_app. by apply prefix_app_r. Qed.

(** Most fields are as they were. *)
Ltac unchanged := split; [split; [split|..]|split]; unfold view, tame; cbn; try done; try congruence; try nothing_added; auto.

Lemma exec_keeps m a w : inv m w → (a = KillGroup → noted m w) → rely m w (exec a w) ∧ inv m (exec a w) ∧ (notes m a = true → noted m (exec a w)).
Proof.
  intros [Hs Hc Hf He Hi Hown] Hk.
  assert (near m w (exec a w)) as Hnear.
  { destruct a as [i|e| |]; cbn; [|unfold setCtx; destruct (ctx w) eqn:Hctx; [done|]| |]; split; cbn; auto; try done;
      try nothing_added. by eexists. }
  assert (rely m w (exec a w)) as Hr.
  { split; [done|..]; try (destruct a; cbn; try done; unfold setCtx; by destruct (ctx w)).
    intros Ht Hkd. destruct a; try (apply (noted_near m w); [done|apply Ht; revert Hkd; cbn; try done; unfold setCtx; by destruct (ctx w)]).
    apply (noted_near m w); [done|by apply Hk]. }
  split; [done|]. split.
  - assert (callers (exec a w) = callers w) as Hcs by (destruct a; cbn; try done; unfold setCtx; by destruct (ctx w)).
    split.
    + destruct a; cbn; try done; unfold setCtx; by destruct (ctx w).
    + intros s Hin. rewrite Hcs in Hin. destruct (Hc s Hin) as (b & Hb & Hn). exists b. split; [done|]. intros H. apply (noted_near m w); [apply Hr|auto].
    + destruct a; cbn; try done; unfold setCtx; destruct (ctx w) eqn:Hctx; cbn; auto; rewrite ?Hctx; auto.
    + destruct a; cbn; try done; unfold setCtx; by destruct (ctx w).
    + destruct a; cbn; try done; unfold setCtx; by destruct (ctx w).
    + destruct a; cbn [exec]; try exact Hown; unfold setCtx; by destruct (ctx w).
  - assert (∀ i, marks w ++ [i] ≠ []) as Hm by (intros i; by destruct (marks w)).
    assert (∀ e, ctx (setCtx e w) ≠ None) as Hx by (intros e; unfold setCtx; by destruct (ctx w) eqn:Hctx; cbn; rewrite ?Hctx).
    destruct m, a; cbn; auto; done.
Qed.

Section reliable.
  Context (m : Mode) (cancelScript timerScript : list CallerAct).
  Context (Hcancel : safe m false cancelScript = true) (Htimer : safe m false timerScript = true).

Lemma others_rely w w' : inv m w → others cancelScript timerScript w w' → rely m w w' ∧ inv m w'.
Proof.
  intros Hinv [a Ha]. pose proof Hinv as [Hs Hc Hf He Hi Hown].
  assert (∀ s, s ∈ callers w → ∃ b, safe m b s = true ∧ (b = true → noted m w)) as Hcs by done.
  destruct a as [l| | |code err| |err| | | | | | |i|e]; cbn in Ha.
  - destruct (open_ w) eqn:Ho; [|done]. injection Ha as <-. unchanged. by apply own_write.
  - destruct (open_ w); [|done]. injection Ha as <-. unchanged.
  - destruct (open_ w); [|done]. injection Ha as <-. unchanged. by apply (own_same w).
  - destruct (exit_ w) eqn:Hx; [done|]. injection Ha as <-. unfold heard. unchanged. intros Hcp. by rewrite Hcp.
  - destruct (exit_ w) eqn:Hx; [done|]. destruct (killed w) eqn:Hk; [|done]. injection Ha as <-. unchanged.
  - injection Ha as <-. unfold heard. unchanged. intros Hcp. by rewrite Hcp.
  - injection Ha as <-. unchanged.
  - destruct (reader w) eqn:Hrd; [done| |done..]. destruct (stdout w) as [|c rest] eqn:Hst; [destruct (open_ w); [done|]|]; injection Ha as <-;
      unchanged; try (by rewrite Hrd; split); try (by apply own_end); try (by apply own_read);
      intros [H|H]; discriminate (He (or_introl H)) || discriminate (He (or_intror H)).
  - destruct (reader w) as [| |c|] eqn:Hrd; [done|done| |done]. destruct (chan w) eqn:Hch; [done|]. injection Ha as <-.
    pose proof (own_send c w Hrd Hch Hown) as Hown'. destruct (isEOF c) eqn:Hc'; unchanged; try (by rewrite Hrd; split).
    + intros _. right; left. by rewrite (isEOF_true c Hc').
    + intros [[= ->]|H]; [done|]. discriminate (He (or_intror H)).
  - destruct (reader w) as [| |c|] eqn:Hrd; [done|done| |done]. destruct (ctx w) eqn:Hctx; [|done]. injection Ha as <-.
    unchanged; try (by rewrite Hrd; split); [|by apply (own_quit c)]. intros _. left. by rewrite Hctx.
  - destruct (registered w); [|done]. injection Ha as <-. unchanged. intros s [Hin|Hin]%elem_of_app; [by apply Hcs|].
    apply list_elem_of_singleton in Hin as ->. by exists false.
  - destruct (armed w); [|done]. injection Ha as <-. unchanged. intros s [Hin|Hin]%elem_of_app; [by apply Hcs|].
    apply list_elem_of_singleton in Hin as ->. by exists false.
  - destruct (callers w !! i) as [[|a rest]|] eqn:Hl; [done| |done]. injection Ha as <-.
    destruct (Hcs (a :: rest)) as (b & Hb & Hn); [by eapply list_elem_of_lookup_2|]. cbn [safe] in Hb. apply andb_prop in Hb as [Hk Hb].
    assert (exec a (set_callers (<[i := rest]> (callers w)) w) = set_callers (<[i := rest]> (callers w)) (exec a w)) as ->
      by (destruct a; cbn; try done; unfold setCtx; cbn; by destruct (ctx w)).
    destruct (exec_keeps m a w Hinv) as (Hr & [Hs' Hc' Hf' He' Hi' Hown'] & Hnew); [intros ->; apply Hn; by destruct b|].
    assert (noted m w → noted m (exec a w)) as Hmono by apply (noted_near m w _ (r_near _ _ _ Hr)).
    split; [destruct Hr as [[] ]; by split; [split|..]|]. split; try done.
    intros s [j Hj]%list_elem_of_lookup_1. cbn in Hj. apply list_lookup_insert_Some in Hj as [(-> & -> & _)|[_ Hj]].
    + exists (b || notes m a). split; [done|]. intros [Hb'|Hb']%orb_prop; [by apply Hmono, Hn|by apply Hnew].
    + destruct (Hcs s) as (b' & Hb' & Hn'); [by eapply list_elem_of_lookup_2|]. exists b'. split; [done|]. intros H. by apply Hmono, Hn'.
  - destruct (ctx w) eqn:Hctx; [done|]. injection Ha as <-.
    assert (noted m w → noted m (set_ctx (Some e) w)) as Hmono by (destruct m; cbn; [done..|naive_solver]).
    unchanged. intros s Hin. destruct (Hcs s Hin) as (b & Hb & Hn). exists b. auto.
Qed.
End reliable.

(** *** Rules for what a supervisor does *)

Section rules.
  Context (m : Mode) (Wait : World → Prop).
Let run {A} : prog World A → (A → World → Prop) → World → Prop := wp (inv m) (rely m) Wait.

(** One step of the supervisor between what the others do. *)
Lemma wp_op {A} (f : World → list (A * World)) (Q : A → World → Prop) w :
  (∀ w1, rely m w w1 → inv m w1 → (f w1 = [] → Wait w1) ∧
     ∀ a w2, In (a, w2) (f w1) → near m w1 w2 ∧ inv m w2 ∧
       ∀ w3, near m w w3 → (tame m w2 → tame m w3) → view w3 = view w2 → rely m w2 w3 → inv m w3 → Q a w3) →
  run (Step f) Q w.
Proof.
  intros H. apply wp_step. intros w1 Hr Hi. destruct (H w1 Hr Hi) as [Hw Hf]. split; [done|]. intros a w2 Hin.
  destruct (Hf a w2 Hin) as (Hn & Hi2 & HQ). split; [done|]. intros w3 Hr3 Hi3. apply HQ; try done; try apply Hr3.
  etrans; [apply Hr|]. etrans; [exact Hn|apply Hr3].
Qed.

Lemma wp_OnEvent e (Q : bool → World → Prop) w :
  (∀ ok w', inv m w' → near m w w' → (tame m w → tame m w') → (reader w = NotStarted → reader w' = NotStarted) →
     view w' = (given w ++ [(e, ok)], saved w, eofSeen w, session w) → Q ok w') → run (OnEvent e) Q w.
Proof.
  intros H. apply wp_op. intros w1 Hr Hi. split; [done|]. pose proof (r_view _ _ _ Hr) as Hv. injection Hv as Hg Hs He Hss.
  assert (∀ ok, near m w1 (set_given (given w1 ++ [(e, ok)]) w1) ∧ inv m (set_given (given w1 ++ [(e, ok)]) w1)) as Hok.
  { intros ok. destruct Hi. split; split; cbn; auto; nothing_added. }
  intros ok w2 Hin. assert (w2 = set_given (given w1 ++ [(e, ok)]) w1) as -> by (destruct Hin as [[= <- <-]|[[= <- <-]|[]]]; done).
  destruct (Hok ok). split; [done|]. split; [done|]. intros w3 Hn Ht Hv Hr3 Hi3. apply H; [done..| | |].
  - intros Ht0. apply Ht. pose proof (r_tame _ _ _ Hr Ht0) as Ht1. intros Hk. by apply (noted_near m w1), Ht1.
  - intros Hrd. by apply (r_idle _ _ _ Hr3), (r_idle _ _ _ Hr).
  - rewrite Hv. unfold view; cbn. congruence.
Qed.

(** A step that shows only to the supervisor itself. *)
Lemma wp_quiet (f : World → World) (Q : () → World → Prop) w :
  (∀ w1, view w1 = view w → inv m w1 → near m w1 (f w1) ∧ inv m (f w1) ∧ given (f w1) = given w1 ∧ eofSeen (f w1) = eofSeen w1 ∧ killed (f w1) = killed w1) →
  (∀ w', inv m w' → near m w w' → (tame m w → tame m w') → given w' = given w → eofSeen w' = eofSeen w → Q () w') →
  run (modify f) Q w.
Proof.
  intros Hf H. apply wp_op. intros w1 Hr Hi. split; [done|]. intros [] w2 [[= <-]|[]].
  pose proof (r_view _ _ _ Hr) as Hv. destruct (Hf w1 Hv Hi) as (Hn & Hi2 & Hg & He & Hk). split; [done|]. split; [done|].
  injection Hv as Hg1 Hs1 He1 Hss1. intros w3 Hn3 Ht Hv3 Hr3 Hi3. injection Hv3 as Hg3 Hs3 He3 Hss3. apply H; [done..| |congruence|congruence].
  intros Ht0. apply Ht. intros Hkd. apply (noted_near m w1); [done|]. apply (r_tame _ _ _ Hr Ht0). congruence.
Qed.
Lemma wp_save raw (Q : () → World → Prop) w :
  (∀ w', inv m w' → near m w w' → (tame m w → tame m w') → given w' = given w → eofSeen w' = eofSeen w → Q () w') → run (save raw) Q w.
Proof. intros H. apply wp_quiet; [|done]. intros w1 _ [Hs Hc Hf He Hi Hown]. do 2 (split; [split; cbn; auto; nothing_added|]); done. Qed.
Lemma wp_setSession s (Q : () → World → Prop) w :
  (∀ w', inv m w' → near m w w' → (tame m w → tame m w') → given w' = given w → eofSeen w' = eofSeen w → Q () w') →
  run (modify (λ w, set_session (s (session w)) w)) Q w.
Proof. intros H. apply wp_quiet; [|done]. intros w1 _ [Hs Hc Hf He Hi Hown]. do 2 (split; [split; cbn; auto; nothing_added|]); done. Qed.
Lemma wp_cancelCtx (Q : () → World → Prop) w :
  (∀ w', inv m w' → near m w w' → (tame m w → tame m w') → given w' = given w → eofSeen w' = eofSeen w → Q () w') → run cancelCtx Q w.
Proof.
  intros H. apply wp_quiet; [|done]. intros w1 _ Hi. destruct (exec_keeps m (CancelCtx agent.Canceled) w1 Hi) as (Hr & Hi1 & _); [done|].
  cbn [exec] in *. pose proof (r_view _ _ _ Hr) as Hv. injection Hv as Hg _ He _. split; [apply Hr|]. do 3 (split; [done|]).
  unfold setCtx. by destruct (ctx w1).
Qed.
Lemma wp_unregister (Q : () → World → Prop) w :
  (∀ w', inv m w' → near m w w' → (tame m w → tame m w') → given w' = given w → eofSeen w' = eofSeen w → Q () w') → run unregister Q w.
Proof. intros H. apply wp_quiet; [|done]. intros w1 _ [Hs Hc Hf He Hi Hown]. do 2 (split; [split; cbn; auto; nothing_added|]); done. Qed.
Lemma wp_kill (Q : () → World → Prop) w :
  (∀ w', inv m w' → near m w w' → view w' = view w → killed w' = true → Q () w') → run kill Q w.
Proof.
  intros H. apply wp_op. intros w1 Hr [Hs Hc Hf He Hi Hown]. split; [done|]. intros [] w2 [[= <-]|[]].
  split; [split; cbn; auto; nothing_added|]. split; [split; cbn; auto|].
  intros w3 Hn3 Ht Hv3 Hr3 Hi3. apply H; [done..|rewrite Hv3; apply Hr|]. by apply (n_killed _ _ _ (r_near _ _ _ Hr3)).
Qed.
Lemma wp_goReader (Q : () → World → Prop) w : reader w = NotStarted → eofSeen w = false →
  (∀ w', inv m w' → near m w w' → (tame m w → tame m w') → view w' = view w → reader w' ≠ NotStarted → Q () w') → run goReader Q w.
Proof.
  intros Hn He H. apply wp_op. intros w1 Hr [Hs Hc Hf He1 Hi Hown]. split; [done|]. intros [] w2 [[= <-]|[]].
  pose proof (r_idle _ _ _ Hr Hn) as Hn1. pose proof (r_view _ _ _ Hr) as Hv. injection Hv as Hg1 Hs1 Heq1 Hss1.
  split; [split; cbn; auto; try congruence; nothing_added|].
  split; [split; cbn; auto; try done|].
  - intros [Hch|He2]; [rewrite (Hi Hn1) in Hch; done|congruence].
  - revert Hown. apply own_same; cbn; try done; [|by rewrite Hn1]. unfold flow. cbn. by rewrite Hn1.
  - intros w3 Hn3 Ht Hv3 Hr3 Hi3. apply H; [done..| |rewrite Hv3; by unfold view; cbn; congruence|].
    + intros Ht0. apply Ht. intros Hkd. apply (noted_near m w1); [split; cbn; auto; try congruence; nothing_added|].
      by apply (r_tame _ _ _ Hr Ht0).
    + by apply (n_started _ _ _ (r_near _ _ _ Hr3)).
Qed.
Lemma wp_peek (Q : () → World → Prop) w : (∀ w', rely m w w' → inv m w' → enough w' = false → open_ w' = true → Wait w') →
  (∀ w', rely m w w' → inv m w' → Q () w') → run peek Q w.
Proof.
  intros Hw H. apply wp_op. intros w1 Hr Hi. split.
  - intros Hn. apply Hw; [done..| |]; destruct (enough w1), (open_ w1); done.
  - intros [] w2 Hin. destruct (enough w1 || negb (open_ w1)); [|done]. destruct Hin as [[= <-]|[]]. split; [done|]. split; [done|].
    intros w3 _ _ _ Hr3 Hi3. apply H; [by etrans|done].
Qed.
Lemma wp_get {A} (f : World → A) (Q : A → World → Prop) w :
  (∀ w1, near m w w1 → view w1 = view w → (tame m w → tame m w1) → inv m w1 →
     ∀ w', inv m w' → near m w1 w' → (tame m w1 → tame m w') → view w' = view w → Q (f w1) w') → run (get f) Q w.
Proof.
  intros H. apply wp_op. intros w1 Hr Hi. split; [done|]. intros a w2 [[= <- <-]|[]]. split; [done|]. split; [done|].
  intros w3 Hn3 Ht Hv3 Hr3 Hi3. apply (H w1); try done; try apply Hr; try apply Hr3. rewrite Hv3. apply Hr.
Qed.
Lemma wp_readerDone (Q : () → World → Prop) w :
  (∀ w', rely m w w' → inv m w' → reader w' ≠ Finished → Wait w') →
  (∀ w', inv m w' → near m w w' → (tame m w → tame m w') → view w' = view w → reader w' = Finished → Q () w') → run readerDone Q w.
Proof.
  intros Hw H. apply wp_op. intros w1 Hr Hi. split.
  - intros Hn. apply Hw; [done..|]. by destruct (reader w1).
  - intros [] w2 Hin. destruct (reader w1) eqn:Hrd; try done. destruct Hin as [[= <-]|[]]. split; [done|]. split; [done|].
    intros w3 Hn3 Ht Hv3 Hr3 Hi3. apply H; [done..| |rewrite Hv3; apply Hr|].
    + intros Ht0. by apply Ht, (r_tame _ _ _ Hr).
    + by apply (n_finished _ _ _ (r_near _ _ _ Hr3)).
Qed.
Lemma wp_wait (Q : Z * string → World → Prop) w :
  (∀ w', rely m w w' → inv m w' → exit_ w' = None ∨ copying w' = true → Wait w') →
  (∀ e err w', inv m w' → near m w w' → (tame m w → tame m w') → view w' = view w → exit_ w' = Some e → copying w' = false → stderr w' = err →
     reaped w' = true → Q (exitCode e, err) w') → run wait Q w.
Proof.
  intros Hw H. apply wp_op. intros w1 Hr [Hs Hc Hf He Hi Hown]. split.
  - intros Hn. apply Hw; [done|by split|]. destruct (exit_ w1); [right|by left]. by destruct (copying w1).
  - intros [code err] w2 Hin. destruct (exit_ w1) as [e|] eqn:Hx; [|done]. destruct (copying w1) eqn:Hcp; [done|]. destruct Hin as [[= <- <- <-]|[]].
    assert (near m w1 (set_reaped (set_open false (set_stdout [] w1)))) as Hn1 by (split; cbn; auto; nothing_added).
    split; [done|]. split; [split; cbn; auto; [by rewrite Hx|by apply own_wait]|].
    intros w3 Hn3 Ht Hv3 Hr3 Hi3. pose proof (n_exit _ _ _ (r_near _ _ _ Hr3) e Hx) as Hx3.
    destruct (n_err _ _ _ (r_near _ _ _ Hr3) Hcp) as [Hc3 Hs3]. apply H; [done..| |rewrite Hv3; apply Hr|done|done|done|].
    + intros Ht0. apply Ht. intros Hkd. by apply (noted_near m w1), (r_tame _ _ _ Hr Ht0).
    + by apply (n_reaped _ _ _ (r_near _ _ _ Hr3)).
Qed.
(** A chunk is taken from the channel. *)
Lemma receive_rule w s w' : inv m w → In (s, w') (receive w) →
  ∃ c, s = Received c ∧ c ∈ got w' ∧ near m w w' ∧ inv m w' ∧ view w' = (given w, saved w, eofSeen w || isEOF c, session w) ∧ killed w' = killed w.
Proof.
  intros Hi Hin. unfold receive in Hin. destruct (chan w) as [c|] eqn:Hch; [|done]. destruct Hin as [[= <- <-]|[]]. exists c. split; [done|].
  split; [apply elem_of_app; right; by left|].
  split; [split; cbn; auto; [nothing_added|by eexists]|]. split; [|done]. destruct Hi as [Hs Hcs Hf He Hi Hown]. split; cbn; auto; [..|by apply own_receive].
  - intros Hfin. destruct (Hf Hfin) as [?|[Hx|Hx]]; [by left|right; right|right; right; by rewrite Hx].
    assert (c = EOF) as -> by congruence. by rewrite orb_true_r.
  - intros [?|[Hx|Hx]%orb_prop]; [done|auto|]. apply He. left. by rewrite Hch, (isEOF_true c).
Qed.
Lemma wp_selectCtx (Q : Selected → World → Prop) w :
  (∀ w', rely m w w' → inv m w' → ctx w' = None → chan w' = None → Wait w') →
  (∀ w', inv m w' → near m w w' → (tame m w → tame m w') → view w' = view w → ctx w' ≠ None → Q CtxDone w') →
  (∀ c w', inv m w' → near m w w' → (tame m w → tame m w') → c ∈ got w' →
     view w' = (given w, saved w, eofSeen w || isEOF c, session w) → Q (Received c) w') → run selectCtx Q w.
Proof.
  intros Hw Hd Hc. apply wp_op. intros w1 Hr Hi. split.
  - intros Hn. apply app_eq_nil in Hn as [Hx Hn]. apply Hw; [done|done|by destruct (ctx w1)|]. unfold receive in Hn. by destruct (chan w1).
  - intros s w2 Hin. apply in_app_or in Hin as [Hin|Hin].
    + destruct (ctx w1) eqn:Hx; [|done]. destruct Hin as [[= <- <-]|[]]. split; [done|]. split; [done|].
      intros w3 Hn3 Ht Hv3 Hr3 Hi3. apply Hd; [done..| |rewrite Hv3; apply Hr|].
      * intros Ht0. by apply Ht, (r_tame _ _ _ Hr).
      * by rewrite (n_ctx _ _ _ (r_near _ _ _ Hr3)); rewrite Hx.
    + destruct (receive_rule w1 s w2 Hi Hin) as (c & -> & Hin2 & Hn1 & Hi2 & Hv1 & Hkd). split; [done|]. split; [done|].
      intros w3 Hn3 Ht3 Hv3 Hr3 Hi3. apply Hc; [done..| |by apply (near_got m w2), Hin2; apply Hr3|].
      * intros Ht0. apply Ht3. intros Hk2. apply (noted_near m w1); [done|]. apply (r_tame _ _ _ Hr Ht0). congruence.
      * rewrite Hv3, Hv1. pose proof (r_view _ _ _ Hr) as Hv. unfold view in *. congruence.
Qed.
Lemma wp_mark i (Q : () → World → Prop) w :
  (∀ w', inv m w' → near m w w' → (tame m w → tame m w') → given w' = given w → eofSeen w' = eofSeen w → i ∈ marks w' → Q () w') → run (mark i) Q w.
Proof.
  intros H. apply wp_op. intros w1 Hr Hi. split; [done|]. intros [] w2 [[= <-]|[]].
  destruct (exec_keeps m (Mark i) w1 Hi) as (Hr1 & Hi1 & _); [done|]. cbn [exec] in *. split; [apply Hr1|]. split; [done|].
  intros w3 Hn3 Ht Hv3 Hr3 Hi3. pose proof (r_view _ _ _ Hr) as Hv. injection Hv as Hg _ He _. injection Hv3 as Hg3 _ He3 _. cbn in Hg3, He3.
  apply H; [done..| |congruence|congruence|].
  - intros Ht0. apply Ht. apply (r_tame _ _ _ Hr1), (r_tame _ _ _ Hr), Ht0.
  - destruct (n_marks _ _ _ (r_near _ _ _ Hr3)) as [l ->]. cbn. set_solver.
Qed.
Lemma wp_selectAll (Q : Selected → World → Prop) w :
  (∀ w', rely m w w' → inv m w' → ctx w' = None → fired w' = false → chan w' = None → Wait w') →
  (∀ w', inv m w' → near m w w' → (tame m w → tame m w') → view w' = view w → ctx w' ≠ None → Q CtxDone w') →
  (∀ w', inv m w' → near m w w' → (tame m w → tame m w') → view w' = view w → Q TimerFired w') →
  (∀ c w', inv m w' → near m w w' → (tame m w → tame m w') → c ∈ got w' →
     view w' = (given w, saved w, eofSeen w || isEOF c, session w) → Q (Received c) w') → run selectAll Q w.
Proof.
  intros Hw Hd Ht Hc. apply wp_op. intros w1 Hr Hi. split.
  - intros Hn. apply app_eq_nil in Hn as [Hx Hn]. apply app_eq_nil in Hn as [Hf Hn]. apply Hw; [done|done|by destruct (ctx w1)|by destruct (fired w1)|].
    unfold receive in Hn. by destruct (chan w1).
  - intros s w2 Hin. apply in_app_or in Hin as [Hin|Hin]; [|apply in_app_or in Hin as [Hin|Hin]].
    + destruct (ctx w1) eqn:Hx; [|done]. destruct Hin as [[= <- <-]|[]]. split; [done|]. split; [done|].
      intros w3 Hn3 Ht3 Hv3 Hr3 Hi3. apply Hd; [done..| |rewrite Hv3; apply Hr|].
      * intros Ht0. by apply Ht3, (r_tame _ _ _ Hr).
      * by rewrite (n_ctx _ _ _ (r_near _ _ _ Hr3)); rewrite Hx.
    + destruct (fired w1) eqn:Hf; [|done]. destruct Hin as [[= <- <-]|[]].
      assert (near m w1 (set_timer (armed w1) false w1)) as Hn1 by (split; cbn; auto; nothing_added).
      split; [done|]. split; [destruct Hi; by split|]. intros w3 Hn3 Ht3 Hv3 Hr3 Hi3. apply Ht; [done..| |rewrite Hv3; apply Hr].
      intros Ht0. apply Ht3. intros Hkd. by apply (noted_near m w1), (r_tame _ _ _ Hr).
    + destruct (receive_rule w1 s w2 Hi Hin) as (c & -> & Hin2 & Hn1 & Hi2 & Hv1 & Hkd). split; [done|]. split; [done|].
      intros w3 Hn3 Ht3 Hv3 Hr3 Hi3. apply Hc; [done..| |by apply (near_got m w2), Hin2; apply Hr3|].
      * intros Ht0. apply Ht3. intros Hk2. apply (noted_near m w1); [done|]. apply (r_tame _ _ _ Hr Ht0). congruence.
      * rewrite Hv3, Hv1. pose proof (r_view _ _ _ Hr) as Hv. unfold view in *. congruence.
Qed.
End rules.

(** *** Why the reader does not move *)

Lemma reader_stuck c t w : reader w ≠ NotStarted → reader w ≠ Finished →
  (∃ a, a ∈ [Read; Send; Quit] ∧ is_Some (act c t a w)) ∨
  (reader w = Reading ∧ stdout w = [] ∧ open_ w = true) ∨
  ((∃ x, reader w = Sending x) ∧ chan w ≠ None ∧ ctx w = None).
Proof.
  intros Hn Hf. destruct (reader w) as [| |x|] eqn:Hr; [done| | |done].
  - destruct (stdout w) as [|y l] eqn:Hs.
    + destruct (open_ w) eqn:Ho; [by right; left|]. left. exists Read. split; [set_solver|]. cbn. rewrite Hr, Hs, Ho. eauto.
    + left. exists Read. split; [set_solver|]. cbn. rewrite Hr, Hs. eauto.
  - destruct (chan w) as [y|] eqn:Hc.
    + destruct (ctx w) as [e|] eqn:Hx; [|right; right; split; [by exists x|done]].
      left. exists Quit. split; [set_solver|]. cbn. rewrite Hr, Hx. eauto.
    + left. exists Send. split; [set_solver|]. cbn. rewrite Hr, Hc. eauto.
Qed.

(** *** What a supervisor that runs knows *)

(** It has told the sink [L], has seen the end of the output or not, the reader is
    started, and nobody killed the process for no reason. *)
Record knows (m : Mode) (L : list (protocol.NormalizedEvent * bool)) (eof : bool) (w : World) : Prop := {
  k_given : given w = L;
  k_eof : eofSeen w = eof;
  k_started : reader w ≠ NotStarted;
  k_tame : tame m w }.
Lemma knows_rely m L eof w w' : rely m w w' → knows m L eof w → knows m L eof w'.
Proof.
  intros Hr [Hg He Hs Ht]. pose proof (r_view _ _ _ Hr) as Hv. injection Hv as Hg' Hs' He' Hss'.
  split; [congruence..| |by apply (r_tame _ _ _ Hr)]. by apply (n_started _ _ _ (r_near _ _ _ Hr)).
Qed.

Section knowing.
  Context (m : Mode) (Wait : World → Prop).
Let run {A} : prog World A → (A → World → Prop) → World → Prop := wp (inv m) (rely m) Wait.

Lemma know_bind {A B} (f : A → prog World B) (p : prog World A) Q w : run p (λ a w', run (f a) Q w') w → run (Bind p f) Q w.
Proof. apply (rg_bind (inv m) (rely m) Wait). Qed.
Lemma know_ret {A} (a : A) (Q : A → World → Prop) w : (∀ w', rely m w w' → inv m w' → Q a w') → run (Ret a) Q w.
Proof. apply (rg_ret (inv m) (rely m) Wait). Qed.
Lemma know_OnEvent e (Q : bool → World → Prop) L eof w :
  knows m L eof w → (∀ ok w', inv m w' → near m w w' → knows m (L ++ [(e, ok)]) eof w' → Q ok w') → run (OnEvent e) Q w.
Proof.
  intros [Hg He Hs Ht] H. apply wp_OnEvent. intros ok w' Hi Hn Htame _ Hv. injection Hv as Hg' Hs' He' Hss'. apply H; [done..|].
  split; [congruence..| |auto]. by apply (n_started _ _ _ Hn).
Qed.
Lemma know_save raw (Q : () → World → Prop) L eof w :
  knows m L eof w → (∀ w', inv m w' → near m w w' → knows m L eof w' → Q () w') → run (save raw) Q w.
Proof.
  intros [Hg He Hs Ht] H. apply wp_save. intros w' Hi Hn Htame Hg' He'. apply H; [done..|].
  split; [congruence..| |auto]. by apply (n_started _ _ _ Hn).
Qed.
Lemma know_setSession s (Q : () → World → Prop) L eof w :
  knows m L eof w → (∀ w', inv m w' → near m w w' → knows m L eof w' → Q () w') → run (modify (λ w, set_session (s (session w)) w)) Q w.
Proof.
  intros [Hg He Hs Ht] H. apply wp_setSession. intros w' Hi Hn Htame Hg' He'. apply H; [done..|].
  split; [congruence..| |auto]. by apply (n_started _ _ _ Hn).
Qed.
Lemma know_get {A} (f : World → A) (Q : A → World → Prop) L eof w :
  knows m L eof w → (∀ w1 w', inv m w1 → near m w w1 → knows m L eof w1 → inv m w' → near m w1 w' → knows m L eof w' → Q (f w1) w') → run (get f) Q w.
Proof.
  intros [Hg He Hs Ht] H. apply wp_get. intros w1 Hn1 Hv1 Ht1 Hi1 w' Hi Hn Ht' Hv. injection Hv1 as Hg1 Hs1 He1 Hss1. injection Hv as Hg' Hs' He' Hss'.
  assert (reader w1 ≠ NotStarted) as Hs1' by by apply (n_started _ _ _ Hn1).
  apply (H w1 w'); [done|done| |done|done|]; (split; [congruence|congruence| |auto]); [done|by apply (n_started _ _ _ Hn)].
Qed.
Lemma know_readerDone (Q : () → World → Prop) L eof w :
  knows m L eof w → (∀ w', inv m w' → near m w w' → knows m L eof w' → reader w' ≠ Finished → Wait w') →
  (∀ w', inv m w' → near m w w' → knows m L eof w' → reader w' = Finished → Q () w') → run readerDone Q w.
Proof.
  intros Hk Hw H. pose proof Hk as [Hg He Hs Ht]. apply wp_readerDone.
  - intros w' Hr Hi Hf. apply Hw; [done|apply Hr| |done]. by apply (knows_rely m L eof w).
  - intros w' Hi Hn Htame Hv Hf. injection Hv as Hg' Hs' He' Hss'. apply H; [done..| |done]. split; [congruence..| |auto]. by apply (n_started _ _ _ Hn).
Qed.
Lemma know_wait (Q : Z * string → World → Prop) L eof w :
  knows m L eof w → (∀ w', inv m w' → near m w w' → knows m L eof w' → exit_ w' = None ∨ copying w' = true → Wait w') →
  (∀ e w', inv m w' → near m w w' → knows m L eof w' → exit_ w' = Some e → copying w' = false → reaped w' = true → Q (exitCode e, stderr w') w') →
  run wait Q w.
Proof.
  intros Hk Hw H. pose proof Hk as [Hg He Hs Ht]. apply wp_wait.
  - intros w' Hr Hi Hx. apply Hw; [done|apply Hr| |done]. by apply (knows_rely m L eof w).
  - intros e err w' Hi Hn Htame Hv Hx Hcp <- Hre. injection Hv as Hg' Hs' He' Hss'. apply H; [done..| |done|done|done]. split; [congruence..| |auto]. by apply (n_started _ _ _ Hn).
Qed.
Lemma know_selectCtx (Q : Selected → World → Prop) L w :
  knows m L false w → (∀ w', inv m w' → knows m L false w' → ctx w' = None → chan w' = None → Wait w') →
  (∀ w', inv m w' → near m w w' → knows m L false w' → ctx w' ≠ None → Q CtxDone w') →
  (∀ c w', inv m w' → near m w w' → knows m L (isEOF c) w' → c ∈ got w' → Q (Received c) w') → run selectCtx Q w.
Proof.
  intros Hk Hw Hd Hc. pose proof Hk as [Hg He Hs Ht]. apply wp_selectCtx.
  - intros w' Hr Hi Hx Hch. apply Hw; [done| |done|done]. by apply (knows_rely m L false w).
  - intros w' Hi Hn Htame Hv Hx. injection Hv as Hg' Hs' He' Hss'. apply Hd; [done..| |done]. split; [congruence..| |auto]. by apply (n_started _ _ _ Hn).
  - intros c w' Hi Hn Htame Hin Hv. injection Hv as Hg' Hs' He' Hss'. apply Hc; [done..| |done]. rewrite He in He'. cbn in He'. split; [congruence..| |auto]. by apply (n_started _ _ _ Hn).
Qed.
Lemma know_kill (Q : () → World → Prop) L eof w :
  knows m L eof w → noted m w → (∀ w', inv m w' → near m w w' → knows m L eof w' → killed w' = true → Q () w') → run kill Q w.
Proof.
  intros [Hg He Hs Ht] Hno H. apply wp_kill. intros w' Hi Hn Hv Hkd. injection Hv as Hg' Hs' He' Hss'. apply H; [done..| |done].
  split; [congruence..| |]; [by apply (n_started _ _ _ Hn)|]. intros _. by apply (noted_near m w).
Qed.
Lemma know_mark i (Q : () → World → Prop) L eof w :
  knows m L eof w → (∀ w', inv m w' → near m w w' → knows m L eof w' → i ∈ marks w' → Q () w') → run (mark i) Q w.
Proof.
  intros [Hg He Hs Ht] H. apply wp_mark. intros w' Hi Hn Htame Hg' He' Hin. apply H; [done..| |done].
  split; [congruence..| |auto]. by apply (n_started _ _ _ Hn).
Qed.
Lemma know_selectAll (Q : Selected → World → Prop) L w :
  knows m L false w → (∀ w', inv m w' → knows m L false w' → ctx w' = None → chan w' = None → Wait w') →
  (∀ w', inv m w' → near m w w' → knows m L false w' → ctx w' ≠ None → Q CtxDone w') →
  (∀ w', inv m w' → near m w w' → knows m L false w' → Q TimerFired w') →
  (∀ c w', inv m w' → near m w w' → knows m L (isEOF c) w' → c ∈ got w' → Q (Received c) w') → run selectAll Q w.
Proof.
  intros Hk Hw Hd Hf Hc. pose proof Hk as [Hg He Hs Ht]. apply wp_selectAll.
  - intros w' Hr Hi Hx _ Hch. apply Hw; [done| |done|done]. by apply (knows_rely m L false w).
  - intros w' Hi Hn Htame Hv Hx. injection Hv as Hg' Hs' He' Hss'. apply Hd; [done..| |done]. split; [congruence..| |auto]. by apply (n_started _ _ _ Hn).
  - intros w' Hi Hn Htame Hv. injection Hv as Hg' Hs' He' Hss'. apply Hf; [done..|]. split; [congruence..| |auto]. by apply (n_started _ _ _ Hn).
  - intros c w' Hi Hn Htame Hin Hv. injection Hv as Hg' Hs' He' Hss'. apply Hc; [done..| |done]. rewrite He in He'. cbn in He'. split; [congruence..| |auto]. by apply (n_started _ _ _ Hn).
Qed.
End knowing.

(** *** How a log ends *)

Definition terminal (e : protocol.NormalizedEvent) : bool := agent.IsTerminal (protocol.Type_ e).
(** Everything was taken, and nothing was terminal. *)
Definition open_log (L : list (protocol.NormalizedEvent * bool)) : Prop := Forall (λ p, p.2 = true ∧ terminal p.1 = false) L.
(** The last event was refused by the sink, or it is the one terminal event and there
    is a reason for it. *)
Definition closed_log (reason : protocol.NormalizedEvent → Prop) (L : list (protocol.NormalizedEvent * bool)) : Prop :=
  ∃ pre e ok, L = pre ++ [(e, ok)] ∧ open_log pre ∧ (terminal e = true ∧ reason e ∨ ok = false).
Lemma open_log_snoc L e : open_log L → terminal e = false → open_log (L ++ [(e, true)]).
Proof. intros HL He. apply Forall_app. split; [done|]. by repeat constructor. Qed.
Lemma closed_refused reason L e : open_log L → closed_log reason (L ++ [(e, false)]).
Proof. intros HL. exists L, e, false. auto. Qed.
Lemma log_terminal (reason : protocol.NormalizedEvent → Prop) L e ok : open_log L → terminal e = true → reason e → closed_log reason (L ++ [(e, ok)]).
Proof. intros HL He Hr. exists L, e, ok. auto. Qed.
Lemma closed_weaken (P Q : protocol.NormalizedEvent → Prop) L : (∀ e, P e → Q e) → closed_log P L → closed_log Q L.
Proof. intros H (pre & e & ok & -> & Hpre & He). exists pre, e, ok. naive_solver. Qed.

(** The same where a refused warning does not end the run. *)
Definition calm (L : list (protocol.NormalizedEvent * bool)) : Prop := Forall (λ p, terminal p.1 = false) L.
Definition ended (P : protocol.NormalizedEvent → Prop) (L : list (protocol.NormalizedEvent * bool)) : Prop :=
  ∃ pre e ok, L = pre ++ [(e, ok)] ∧ calm pre ∧ (terminal e = true ∧ P e ∨ terminal e = false ∧ ok = false).
Lemma calm_snoc L e ok : calm L → terminal e = false → calm (L ++ [(e, ok)]).
Proof. intros HL He. apply Forall_app. split; [done|]. by repeat constructor. Qed.
Lemma ended_terminal (P : protocol.NormalizedEvent → Prop) L e ok : calm L → terminal e = true → P e → ended P (L ++ [(e, ok)]).
Proof. intros HL He Hp. exists L, e, ok. auto. Qed.
(** A refused event is the last one. *)
Definition refused (w : World) : Prop := ∃ pre e, given w = pre ++ [(e, false)].

(** A batch of events of which only the last may be terminal. *)
Definition lastOnly (evs : list protocol.NormalizedEvent) : Prop := ∀ pre e post, evs = pre ++ e :: post → terminal e = true → post = [].
Definition taken (f : protocol.NormalizedEvent → protocol.NormalizedEvent) (evs : list protocol.NormalizedEvent) :
  list (protocol.NormalizedEvent * bool) := (λ e, (f e, true)) <$> evs.
Lemma open_taken f L evs : (∀ e, terminal (f e) = terminal e) → open_log L → Forall (λ e, terminal e = false) evs → open_log (L ++ taken f evs).
Proof.
  intros Hf HL He. apply Forall_app. split; [done|]. unfold taken. apply Forall_fmap. eapply Forall_impl; [exact He|]. intros e H. cbn. by rewrite Hf.
Qed.
Lemma lastOnly_before evs pre e post : lastOnly evs → evs = pre ++ e :: post → Forall (λ e, terminal e = false) pre.
Proof.
  intros Hl ->. apply Forall_forall. intros x (a & b & ->)%list_elem_of_split. destruct (terminal x) eqn:Hx; [|done].
  rewrite <-app_assoc in Hl. by destruct (app_cons_not_nil b post e (eq_sym (Hl a x (b ++ e :: post) eq_refl Hx))).
Qed.
(** Such a batch, taken entirely, leaves the log open or closes it. *)
Lemma taken_batch (reason : protocol.NormalizedEvent → Prop) f L evs : (∀ e, terminal (f e) = terminal e) → open_log L → lastOnly evs →
  (∀ e, e ∈ evs → reason (f e)) →
  if existsb terminal evs then closed_log reason (L ++ taken f evs) else open_log (L ++ taken f evs).
Proof.
  intros Hf HL Hl Hr. destruct (existsb terminal evs) eqn:He.
  - apply existsb_exists in He as (e & Hin & Ht). apply list_elem_of_In in Hin as Hin'. pose proof Hin' as (pre & post & Heq)%list_elem_of_split.
    pose proof (Hl pre e post Heq Ht) as ->. subst evs. unfold taken. rewrite fmap_app, app_assoc.
    apply log_terminal; [|by rewrite Hf|by apply Hr]. apply open_taken; [done..|]. by apply (lastOnly_before _ pre e [] Hl).
  - apply open_taken; [done..|]. apply Forall_forall. intros e Hin. destruct (terminal e) eqn:Ht; [|done].
    assert (existsb terminal evs = true) by (apply existsb_exists; exists e; split; [by apply list_elem_of_In|done]). congruence.
Qed.
End live.
