(* ===== verification/Claude.v ===== *)
(** * Claude: the adapter of Claude Code

    Models [internal/adapter/codingagent/claude]: the options and their checks, the
    command line and environment, redaction, detection and health, the translation
    of the stream into events, the classification of failures, and the supervised
    run among its reader, its process, callers of [Cancel] and its timer. *)
From S2P Require Import Prelude Text Agent Json Regex Protocol Live.
From Stdlib Require PrimFloat.
Import json protocol.

Module claude.

(** ** options.go *)

Definition EngineID : string := "claude".
Definition DefaultAdapterVersion : string := "claude-v1".
Definition defaultBinaryName : string := "claude".
Definition PromptStdin : string := "stdin".
Definition PromptPositional : string := "positional".

Record Options := mkOptions {
  BinaryPath : string;
  Bare : bool;
  PermissionMode : string;
  Effort : string;
  AdditionalDirs : list string;
  ExtraArgs : list string;
  Models : option (list ModelDescriptor);
  Opt_AdapterVersion : string;
  PromptStrategy : string }.

Definition forbiddenArgTokens : list string :=
  ["--dangerously-skip-permissions"; "--allow-dangerously-skip-permissions"; "bypassPermissions"; "--permission-mode";
   "--output-format"; "--input-format"; "--verbose"; "--include-partial-messages"; "--max-turns"; "--model"; "--resume";
   "--continue"; "-c"; "-r"; "--session-id"; "--bare"].
Definition forbiddenArg (a : string) : bool :=
  existsb (λ bad, bool_decide (strs.ToLower a = strs.ToLower bad) || strs.HasPrefix (strs.ToLower a) (strs.ToLower bad +:+ "="))
    forbiddenArgTokens.
Definition validateExtraArgs (args : list string) : option string :=
  (λ a, "claude: ExtraArgs may not include " +:+ strs.q a +:+ " (adapter-owned or security-sensitive)") <$> List.find forbiddenArg args.
Definition permissionModes : list string := ["default"; "acceptEdits"; "plan"; "auto"; "dontAsk"; "manual"].
Definition validatePermissionMode (mode : string) : option string :=
  if bool_decide (mode ∈ permissionModes) || bool_decide (mode = "") then None
  else if bool_decide (mode = "bypassPermissions") then
    Some "claude: PermissionMode bypassPermissions is forbidden (security: never enable a dangerous permission bypass)"
  else Some ("claude: unsupported PermissionMode " +:+ strs.q mode).
Definition validateEffort (e : string) : option string :=
  if bool_decide (e ∈ [""; "low"; "medium"; "high"; "xhigh"; "max"]) then None else Some ("claude: unsupported Effort " +:+ strs.q e).

Definition defaultModels : list ModelDescriptor :=
  (λ a, mkModelDescriptor (EngineID +:+ "/" +:+ a) EngineID ModelKindCoding "" 200000 8192 true true) <$> ["sonnet"; "opus"; "haiku"].
Definition orElse (s d : string) : string := if bool_decide (s = "") then d else s.
(** [New]. *)
Definition New (o : Options) : result string Options :=
  let mode := orElse (PermissionMode o) "default" in
  match validatePermissionMode mode, validateExtraArgs (ExtraArgs o), validateEffort (Effort o) with
  | Some e, _, _ | None, Some e, _ | None, None, Some e => Err e
  | None, None, None =>
      Ok (mkOptions (BinaryPath o) (Bare o) mode (Effort o) (AdditionalDirs o) (ExtraArgs o)
            (Some (default defaultModels (Models o))) (orElse (Opt_AdapterVersion o) DefaultAdapterVersion) (orElse (PromptStrategy o) PromptStdin))
  end.
Definition ListModels (o : Options) : list ModelDescriptor := default [] (Models o).

(** ** command.go *)

Definition baselineEnvKeys : list string := ["PATH"; "HOME"; "USER"; "LANG"; "LC_ALL"; "TERM"].
Definition forbiddenEnvTokens : list string :=
  ["forge_daemon_token"; "daemon_token"; "forge_auth_token"; "merge_token"; "vcs_token"; "github_token"; "gitlab_token";
   "bitbucket_token"; "azure_devops_token"; "deploy_token"].
Definition isForbiddenEnvKey (k : string) : bool := existsb (strs.Contains (strs.ToLower k)) forbiddenEnvTokens.
Definition splitEnvEntry (kv : string) : string * option string :=
  match text.cutByte kv "="%char with Some (k, v) => (k, Some v) | None => (kv, None) end.
(** The [add] of [buildEnv]: what is there so far, and the keys seen. *)
Definition add (k v : string) (trusted : bool) (acc : list string * list string) : list string * list string :=
  let '(env, seen) := acc in
  let key := strs.ToUpper k in
  if bool_decide (key ∈ seen) then acc
  else if negb trusted && isForbiddenEnvKey k then acc
  else (env ++ [k +:+ "=" +:+ v], key :: seen).
Section env.
  (** [os.LookupEnv]. *)
  Context (lookupEnv : string → option string).
Definition addBaseline (acc : list string * list string) (k : string) : list string * list string :=
  match lookupEnv k with Some v => add k v true acc | None => acc end.
Definition addAllowed (acc : list string * list string) (kv : string) : list string * list string :=
  match splitEnvEntry kv with
  | (k, Some v) => add k v false acc
  | (k, None) => match lookupEnv k with Some v => add k v false acc | None => acc end
  end.
Definition buildEnv (allowlist : list string) : list string :=
  (foldl addAllowed (foldl addBaseline ([], []) baselineEnvKeys) allowlist).1.
Definition probeEnv : list string := buildEnv [].
End env.

(** What the adapter reads of a request. *)
Record Request := mkRequest {
  Req_RunID : string; Req_Engine : string; Req_Model : string; Req_Workspace : string; Req_Prompt : string; Req_PromptFile : string;
  Req_AllowlistEnv : list string; Req_TurnLimit : Z; Req_Timeout : Z; Req_SessionID : string }.

Definition flag (name value : string) : list string := if bool_decide (value = "") then [] else [name; value].
Definition buildArgv (o : Options) (bin : string) (req : Request) (isResume : bool) : list string :=
  [bin; "-p"; "--output-format"; "stream-json"; "--verbose"]
  ++ (if Bare o then ["--bare"] else [])
  ++ ["--permission-mode"; PermissionMode o]
  ++ flag "--model" (strs.TrimSpace (Req_Model req))
  ++ (if (0 <? Req_TurnLimit req)%Z then ["--max-turns"; pretty (Req_TurnLimit req)] else [])
  ++ flag "--effort" (strs.TrimSpace (Effort o))
  ++ mjoin ((λ d, flag "--add-dir" (strs.TrimSpace d)) <$> AdditionalDirs o)
  ++ (if isResume && negb (bool_decide (strs.TrimSpace (Req_SessionID req) = "")) then ["--resume"; Req_SessionID req] else [])
  ++ ExtraArgs o.
(** [resolvePrompt], with the file system. *)
Definition resolvePrompt (readFile : string → result string string) (req : Request) : result string string :=
  if negb (bool_decide (strs.TrimSpace (Req_Prompt req) = "")) then Ok (Req_Prompt req)
  else if negb (bool_decide (strs.TrimSpace (Req_PromptFile req) = "")) then
    match readFile (strs.TrimSpace (Req_PromptFile req)) with Ok s => Ok s | Err e => Err ("claude: read prompt file: " +:+ e) end
  else Ok "".
Definition useStdin (o : Options) : bool := negb (bool_decide (PromptStrategy o = PromptPositional)).

(** ** secret.go *)

Import regexp.
Definition tokenChar : Z → bool := any [alnum; chr "_"%char; chr "-"%char].
Definition reAnthropicKey : re := seq [lit "sk-ant-"; atLeast 6 tokenChar].
Definition reBearer : re := seq [litI "bearer"; plus space; atLeast 6 (folds (any [alnum; among "._-+"]))].
Definition envChar : Z → bool := folds (any [range "A" "Z"; digit; chr "_"%char]).
Definition reSecretEnv : re :=
  seq [Bound;
       Group 1 (seq [star envChar;
                     alts (litI <$> ["TOKEN"; "SECRET"; "PASSWORD"; "PASSWD"; "CREDENTIAL"; "API_KEY"; "APIKEY"; "AUTH"]);
                     star envChar]);
       lit "=";
       Group 2 (plus (not_ (any [space; chr quote; chr "'"%char])))].
Definition reOpaqueToken : re := seq [Bound; atLeast 40 tokenChar; Bound].
Definition isAllDigits (s : string) : bool := everyByte text.isDigit s && negb (bool_decide (s = "")).
Definition redact (s : string) : string :=
  let s := ReplaceAllString reAnthropicKey "sk-ant-***" s in
  let s := ReplaceAllString reBearer "Bearer ***" s in
  let s := ReplaceAll reSecretEnv (λ _ c, group 1 c +:+ "=***") s in
  ReplaceAll reOpaqueToken (λ m _, if isAllDigits m then m else "***") s.

(** ** detect.go, probes.go, capabilities.go *)

Definition num1 : re := plus digit.
Definition semverRe : re := seq [Group 1 num1; lit "."; Group 2 num1; lit "."; Group 3 num1].
Definition minorRe : re := seq [Group 1 num1; lit "."; Group 2 num1].
Record parsedVersion := mkVersion { Major : Z; Minor : Z; Patch : Z; Full : string }.
(** [strconv.Atoi] with its error dropped: a number out of range is the nearest one. *)
Definition Atoi (s : string) : Z := match digitsZ 0 s with Some n => Z.min n (2 ^ 63 - 1) | None => 0 end.
Definition parseVersion (s : string) : option parsedVersion :=
  match Find semverRe s with
  | Some (f, c) => Some (mkVersion (Atoi (group 1 c)) (Atoi (group 2 c)) (Atoi (group 3 c)) f)
  | None => match Find minorRe s with
            | Some (f, c) => Some (mkVersion (Atoi (group 1 c)) (Atoi (group 2 c)) 0 f)
            | None => None
            end
  end.
Definition parsedFull (v : option parsedVersion) : string := match v with Some v => Full v | None => "" end.
Definition atLeastVersion (v : parsedVersion) (maj min pat : Z) : bool :=
  (if negb (Major v =? maj) then maj <? Major v else if negb (Minor v =? min) then min <? Minor v else pat <=? Patch v)%Z.
Definition versionSuffix (full : string) : string := if bool_decide (full = "") then "" else " (" +:+ full +:+ ")".
Definition capabilities : AgentCapabilities :=
  mkCaps false true true true false true false true true true true false true false.

(** A probe: standard output, standard error and the exit code, or a launch error. *)
Definition Probe : Type := string → list string → result string (string * string * Z).
Section detect.
  Context (lookPath : string → result string string) (probe : Probe) (o : Options).

Definition binary : result string string :=
  let p := strs.TrimSpace (BinaryPath o) in if bool_decide (p = "") then lookPath defaultBinaryName else Ok p.
Definition Detect : DetectionResult :=
  match binary with
  | Err e => mkDetectionResult false "" "" ("claude executable not found on PATH: " +:+ e)
  | Ok bin =>
      match probe bin ["--version"] with
      | Err e => mkDetectionResult false bin "" ("claude resolved but probe failed: " +:+ e)
      | Ok (out, _, code) =>
          if negb (code =? 0)%Z then mkDetectionResult false bin "" ("claude --version exited " +:+ pretty code)
          else let full := parsedFull (parseVersion (strs.TrimSpace out)) in
               mkDetectionResult true bin full ("claude detected" +:+ versionSuffix full)
      end
  end.
(** [Version] runs the probe a second time; it answers the same here. *)
Definition Version : VersionResult :=
  let res engine e := mkVersionResult (Opt_AdapterVersion o) engine ProtocolVersion e in
  match binary with
  | Err e => res "" ("claude not found: " +:+ e)
  | Ok bin =>
      match probe bin ["--version"] with
      | Err e => res "" ("version probe failed: " +:+ e)
      | Ok (out, err, code) =>
          if negb (code =? 0)%Z then res "" ("claude --version exited " +:+ pretty code +:+ ": " +:+ strs.TrimSpace err)
          else res (parsedFull (parseVersion out)) ""
      end
  end.

Record authStatusJSON := mkAuthStatus { LoggedIn : bool; Auth_Account : string; Auth_Mode : string; Auth_Error : string }.
Definition noAuth : authStatusJSON := mkAuthStatus false "" "" "".
Definition dAuth : decoder authStatusJSON := dStruct
  [("loggedIn", at_ LoggedIn (λ x a, mkAuthStatus x (Auth_Account a) (Auth_Mode a) (Auth_Error a)) dBool);
   ("account", at_ Auth_Account (λ x a, mkAuthStatus (LoggedIn a) x (Auth_Mode a) (Auth_Error a)) dString);
   ("mode", at_ Auth_Mode (λ x a, mkAuthStatus (LoggedIn a) (Auth_Account a) x (Auth_Error a)) dString);
   ("error", at_ Auth_Error (λ x a, mkAuthStatus (LoggedIn a) (Auth_Account a) (Auth_Mode a) x) dString)].
Definition parseAuthStatus (stdout : string) : authStatusJSON :=
  match Unmarshal dAuth stdout noAuth with (a, true) => a | (_, false) => noAuth end.
Definition authDetail (a : authStatusJSON) : string :=
  let part name v := if bool_decide (v = "") then [] else [name +:+ "=" +:+ v] in
  match (part "account" (Auth_Account a) ++ part "mode" (Auth_Mode a) ++ part "err" (Auth_Error a))%list with
  | [] => ""
  | parts => " (" +:+ strs.Join parts ", " +:+ ")"
  end.
Definition firstLine (s : string) : string := match text.cutByte s strs.nl with Some (a, _) => strs.TrimSpace a | None => s end.
Definition detailSuffix (stderr : string) : string :=
  let s := strs.TrimSpace stderr in if bool_decide (s = "") then "" else ": " +:+ firstLine s.
Definition authSubcommandMissing (stderr : string) : bool :=
  mentions (strs.ToLower stderr) ["unknown command"; "unknown subcommand"; "not a recognized"; "invalid command"].
Definition Health : HealthResult :=
  match binary with
  | Err e => mkHealthResult HealthDown ("claude not installed: " +:+ e)
  | Ok bin =>
      match probe bin ["auth"; "status"] with
      | Err e => mkHealthResult HealthDown ("auth probe failed: " +:+ e)
      | Ok (out, err, code) =>
          if (code =? 0)%Z then mkHealthResult HealthOK (authDetail (parseAuthStatus out))
          else if (code =? 1)%Z then
            if authSubcommandMissing err then
              mkHealthResult HealthUnknown ("claude auth status unavailable on this CLI version" +:+ detailSuffix err)
            else mkHealthResult HealthDegraded ("not logged in" +:+ detailSuffix err)
          else mkHealthResult HealthUnknown ("auth status exited " +:+ pretty code +:+ detailSuffix err)
      end
  end.
End detect.
Definition InspectQuota : QuotaSnapshot := mkQuotaSnapshot QuotaConfUnknown QuotaStateUnknown
  "claude code exposes no authoritative remaining-quota figure; subscription quota is distinct from API rate-limit".

(** ** stream.go *)

(** [trimCR]. *)
Definition trimCR (b : string) : option string :=
  let b := strs.TrimRight [strs.cr; strs.nl] b in if bool_decide (b = "") then None else Some b.
(** The lines of a finished output as [Next] returns them, a final one without a
    newline included. *)
Definition readLines (out : string) : list live.Chunk := (λ l, live.mkChunk (trimCR l) true) <$> strs.SplitLines out.
Definition stripBOM (out : string) : string := text.TrimPrefix out (byte 239 +:+ byte 187 +:+ byte 191).

Record transCtx := mkTransCtx { tc_runID : string; tc_engine : string; tc_model : string; tc_session : string }.
Definition withSession (s : string) (tc : transCtx) : transCtx :=
  if bool_decide (s = "") then tc else mkTransCtx (tc_runID tc) (tc_engine tc) (tc_model tc) s.

Record claudeUsage := mkClaudeUsage {
  U_Input : Z; U_Output : Z; U_CacheCreation : Z; U_CacheRead : Z }.
Definition zeroClaudeUsage : claudeUsage := mkClaudeUsage 0 0 0 0.
Definition dClaudeUsage : decoder claudeUsage := dStruct
  [("input_tokens", at_ U_Input (λ x u, mkClaudeUsage x (U_Output u) (U_CacheCreation u) (U_CacheRead u)) dInt);
   ("output_tokens", at_ U_Output (λ x u, mkClaudeUsage (U_Input u) x (U_CacheCreation u) (U_CacheRead u)) dInt);
   ("cache_creation_input_tokens", at_ U_CacheCreation (λ x u, mkClaudeUsage (U_Input u) (U_Output u) x (U_CacheRead u)) dInt);
   ("cache_read_input_tokens", at_ U_CacheRead (λ x u, mkClaudeUsage (U_Input u) (U_Output u) (U_CacheCreation u) x) dInt)].

Record claudeResult := mkResult {
  R_Subtype : string; R_SessionID : string; R_IsError : bool; R_NumTurns : Z; R_Result : string; R_TotalCostUSD : PrimFloat.float;
  R_APIErrorStatus : option Z; R_Usage : claudeUsage; R_Errors : list string }.
Definition zeroResult : claudeResult := mkResult "" "" false 0 "" PrimFloat.zero None zeroClaudeUsage [].
Definition dResult : decoder claudeResult := dStruct
  [("subtype", at_ R_Subtype (λ x r, mkResult x (R_SessionID r) (R_IsError r) (R_NumTurns r) (R_Result r) (R_TotalCostUSD r) (R_APIErrorStatus r) (R_Usage r) (R_Errors r)) dString);
   ("session_id", at_ R_SessionID (λ x r, mkResult (R_Subtype r) x (R_IsError r) (R_NumTurns r) (R_Result r) (R_TotalCostUSD r) (R_APIErrorStatus r) (R_Usage r) (R_Errors r)) dString);
   ("is_error", at_ R_IsError (λ x r, mkResult (R_Subtype r) (R_SessionID r) x (R_NumTurns r) (R_Result r) (R_TotalCostUSD r) (R_APIErrorStatus r) (R_Usage r) (R_Errors r)) dBool);
   ("num_turns", at_ R_NumTurns (λ x r, mkResult (R_Subtype r) (R_SessionID r) (R_IsError r) x (R_Result r) (R_TotalCostUSD r) (R_APIErrorStatus r) (R_Usage r) (R_Errors r)) dInt);
   ("result", at_ R_Result (λ x r, mkResult (R_Subtype r) (R_SessionID r) (R_IsError r) (R_NumTurns r) x (R_TotalCostUSD r) (R_APIErrorStatus r) (R_Usage r) (R_Errors r)) dString);
   ("total_cost_usd", at_ R_TotalCostUSD (λ x r, mkResult (R_Subtype r) (R_SessionID r) (R_IsError r) (R_NumTurns r) (R_Result r) x (R_APIErrorStatus r) (R_Usage r) (R_Errors r)) dFloat);
   ("api_error_status", at_ R_APIErrorStatus (λ x r, mkResult (R_Subtype r) (R_SessionID r) (R_IsError r) (R_NumTurns r) (R_Result r) (R_TotalCostUSD r) x (R_Usage r) (R_Errors r)) (dPtr dInt 0%Z));
   ("usage", at_ R_Usage (λ x r, mkResult (R_Subtype r) (R_SessionID r) (R_IsError r) (R_NumTurns r) (R_Result r) (R_TotalCostUSD r) (R_APIErrorStatus r) x (R_Errors r)) dClaudeUsage);
   ("errors", at_ R_Errors (λ x r, mkResult (R_Subtype r) (R_SessionID r) (R_IsError r) (R_NumTurns r) (R_Result r) (R_TotalCostUSD r) (R_APIErrorStatus r) (R_Usage r) x) (dSlice dString ""))].

Record contentBlock := mkBlock { B_Type : string; B_Text : string; B_Name : string; B_ID : string; B_Input : option json }.
Definition dBlock : decoder contentBlock := dStruct
  [("type", at_ B_Type (λ x b, mkBlock x (B_Text b) (B_Name b) (B_ID b) (B_Input b)) dString);
   ("text", at_ B_Text (λ x b, mkBlock (B_Type b) x (B_Name b) (B_ID b) (B_Input b)) dString);
   ("name", at_ B_Name (λ x b, mkBlock (B_Type b) (B_Text b) x (B_ID b) (B_Input b)) dString);
   ("id", at_ B_ID (λ x b, mkBlock (B_Type b) (B_Text b) (B_Name b) x (B_Input b)) dString);
   ("input", at_ B_Input (λ x b, mkBlock (B_Type b) (B_Text b) (B_Name b) (B_ID b) x) dRaw)].
(** Messages: the content and the usage; with the session for the assistant's. *)
Record claudeMsg := mkMsg { M_Content : list contentBlock; M_Usage : option claudeUsage }.
Definition dMsg : decoder claudeMsg := dStruct
  [("content", at_ M_Content (λ x m, mkMsg x (M_Usage m)) (dSlice dBlock (mkBlock "" "" "" "" None)));
   ("usage", at_ M_Usage (λ x m, mkMsg (M_Content m) x) (dPtr dClaudeUsage zeroClaudeUsage))].
Definition dAssistant : decoder (string * claudeMsg) := dStruct
  [("session_id", at_ fst (λ x a, (x, snd a)) dString); ("message", at_ snd (λ x a, (fst a, x)) dMsg)].
Definition dUser : decoder claudeMsg := dStruct [("message", dMsg)].
(** The envelope: type and subtype; the init message: session and model. *)
Definition dEnvelope : decoder (string * string) := dStruct
  [("type", at_ fst (λ x a, (x, snd a)) dString); ("subtype", at_ snd (λ x a, (fst a, x)) dString)].
Definition dSystem : decoder (string * string * string) := dStruct
  [("subtype", at_ (λ a, a.1.1) (λ x a, (x, a.1.2, a.2)) dString); ("session_id", at_ (λ a, a.1.2) (λ x a, (a.1.1, x, a.2)) dString);
   ("model", at_ snd (λ x a, (fst a, x)) dString)].
(** A stream event: its type, the type of its delta, and the text. *)
Definition dStream : decoder (string * (string * string)) :=
  dStruct [("event", dStruct
    [("type", at_ fst (λ x a, (x, snd a)) dString);
     ("delta", at_ snd (λ x a, (fst a, x)) (dStruct [("type", at_ fst (λ x a, (x, snd a)) dString); ("text", at_ snd (λ x a, (fst a, x)) dString)]))])].

Definition warningEvent (code msg raw : string) (tc : transCtx) : NormalizedEvent :=
  set_ids (tc_runID tc) (tc_engine tc) ""
    (set_Raw (Some (Bytes raw)) (set_Warning (Some (mkWarningPayload code msg true)) (event agent.EventWarning))).
Definition terminalFailure (c : agent.FailureClass) (reason : string) (exitCode : Z) : NormalizedEvent :=
  set_Failure (Some (agent.mkFailurePayload c reason exitCode)) (event agent.EventRunFailed).
Definition fixup (tc : transCtx) (e : NormalizedEvent) : NormalizedEvent :=
  set_ids (orElse (RunID e) (tc_runID tc)) (orElse (Engine e) (tc_engine tc)) (orElse (Model e) (tc_model tc)) e.

(** The first group of words that is mentioned. *)
Fixpoint firstMentioned {A} (low : string) (l : list (list string * A)) : option A :=
  match l with [] => None | (words, a) :: l => if mentions low words then Some a else firstMentioned low l end.
Definition classifyResultError (r : claudeResult) (stderr : string) : agent.FailureClass * string :=
  let joined := strs.ToLower (strs.Join (R_Errors r) " " +:+ " " +:+ stderr) in
  default (agent.FailureInternalError, firstLine ("claude run ended with error subtype " +:+ R_Subtype r))
    (firstMentioned joined
      [(["rate_limit"; "429"; "too many requests"], (agent.FailureProviderRateLimit, "provider rate limited"));
       (["billing"; "quota"; "exhausted"; "limit exceeded"], (agent.FailureProviderQuota, "provider subscription quota exhausted"));
       (["authentication_failed"; "auth"; "401"; "unauthorized"], (agent.FailureProviderAuth, "authentication failed"));
       (["model_not_found"; "model not found"], (agent.FailureModelNotAvailable, "model not available"));
       (["overloaded"; "capacity"; "529"], (agent.FailureProviderCapacity, "provider capacity/overloaded"));
       (["invalid_request"], (agent.FailureMalformedOutput, "invalid request / malformed"));
       (["server_error"; "500"], (agent.FailureProviderCapacity, "provider server error"))]).

Section translate.
  Context (jsonError : string → string → string).

Definition malformed (what line : string) (tc : transCtx) : list NormalizedEvent :=
  [warningEvent "malformed.payload" ("failed to decode " +:+ what +:+ " message: " +:+ jsonError what line) line tc].
Definition translateSystem (line : string) (tc : transCtx) : transCtx :=
  let '(_, session, model) := (Unmarshal dSystem line ("", "", "")).1 in
  let tc := withSession session tc in
  mkTransCtx (tc_runID tc) (tc_engine tc) (orElse (tc_model tc) model) (tc_session tc).
Definition assistantBlock (b : contentBlock) : list NormalizedEvent :=
  if bool_decide (B_Type b = "text") then
    if bool_decide (strs.TrimSpace (B_Text b) = "") then []
    else [set_Message (Some (agent.mkMessagePayload "" "" (B_Text b) "assistant")) (event agent.EventMessageCompleted)]
  else if bool_decide (B_Type b = "tool_use") then
    [set_Tool (Some (mkToolPayload (B_ID b) (B_Name b) "started" "" 0)) (event agent.EventToolStarted)]
  else [].
Definition translateAssistant (line : string) (tc : transCtx) : list NormalizedEvent * transCtx :=
  match Unmarshal dAssistant line ("", mkMsg [] None) with
  | (_, false) => (malformed "assistant" line tc, tc)
  | ((session, msg), true) =>
      let tc := withSession session tc in (fixup tc <$> mjoin (assistantBlock <$> M_Content msg), tc)
  end.
Definition userBlock (b : contentBlock) : list NormalizedEvent :=
  if bool_decide (B_Type b = "tool_result") then [set_Tool (Some (mkToolPayload (B_ID b) "" "completed" "" 0)) (event agent.EventToolCompleted)]
  else [].
Definition translateUser (line : string) (tc : transCtx) : list NormalizedEvent :=
  match Unmarshal dUser line (mkMsg [] None) with
  | (_, false) => malformed "user" line tc
  | (msg, true) => fixup tc <$> mjoin (userBlock <$> M_Content msg)
  end.
Definition terminalOf (r : claudeResult) : NormalizedEvent :=
  if bool_decide (R_Subtype r = "success") then event agent.EventRunCompleted
  else if bool_decide (R_Subtype r = "error_max_turns") then
    terminalFailure agent.FailureInternalError "claude: max agentic turns reached" 0
  else if bool_decide (R_Subtype r = "error_max_budget_usd") then
    terminalFailure agent.FailureBudgetExceeded "claude: run budget cap reached" 0
  else let '(c, reason) := classifyResultError r "" in terminalFailure c reason 0.
Definition translateResult (line : string) (tc : transCtx) : list NormalizedEvent * transCtx :=
  match Unmarshal dResult line zeroResult with
  | (_, false) => (malformed "result" line tc, tc)
  | (r, true) =>
      let tc := withSession (R_SessionID r) tc in
      let usage := set_Usage (Some (mkUsagePayload
        (agent.mkUsagePayload (U_Input (R_Usage r)) (U_Output (R_Usage r)) (U_CacheRead (R_Usage r)) (U_CacheCreation (R_Usage r))
           (R_TotalCostUSD r) "USD") QuotaConfProviderReported)) (event agent.EventUsageUpdated) in
      (fixup tc <$> [usage; terminalOf r], tc)
  end.
Definition translateStreamEvent (line : string) (tc : transCtx) : list NormalizedEvent :=
  match Unmarshal dStream line ("", ("", "")) with
  | (_, false) => []
  | ((t, (d, text)), true) =>
      if bool_decide (t = "content_block_delta") && bool_decide (d = "text_delta") && negb (bool_decide (text = ""))
      then [fixup tc (set_Message (Some (agent.mkMessagePayload "" text "" "assistant")) (event agent.EventMessageDelta))]
      else []
  end.
Definition translate (line : string) (tc : transCtx) : list NormalizedEvent * transCtx :=
  if bool_decide (line = "") then ([], tc)
  else
    match Unmarshal dEnvelope line ("", "") with
    | (_, false) =>
        let ev := default (warningEvent "malformed.json" "failed to decode claude line" line tc) (ParseEventLine jsonError line).1 in
        ([fixup tc ev], tc)
    | ((t, _), true) =>
        if bool_decide (t = "system") then ([], translateSystem line tc)
        else if bool_decide (t = "assistant") then translateAssistant line tc
        else if bool_decide (t = "user") then (translateUser line tc, tc)
        else if bool_decide (t = "result") then translateResult line tc
        else if bool_decide (t = "stream_event") then (translateStreamEvent line tc, tc)
        else ([warningEvent "unknown-claude-event" ("unknown claude stream type " +:+ t +:+ "; ignored") line tc], tc)
    end.
End translate.

(** ** classify.go *)

Definition stderrSignal (stderr : string) : option agent.FailureClass :=
  let low := strs.ToLower stderr in
  if mentions low ["rate_limit"; "429"; "too many requests"] then Some agent.FailureProviderRateLimit
  else if mentions low ["billing"; "quota"; "exhausted"; "limit exceeded"] then Some agent.FailureProviderQuota
  else if mentions low ["authentication_failed"; "unauthorized"; "401"; "invalid api key"] then Some agent.FailureProviderAuth
  else if strs.Contains low "model_not_found" || (strs.Contains low "model" && mentions low ["not available"; "not found"])
  then Some agent.FailureModelNotAvailable
  else if mentions low ["overloaded"; "529"; "capacity"] then Some agent.FailureProviderCapacity
  else if strs.Contains low "invalid_request" then Some agent.FailureMalformedOutput
  else None.
Definition classifyClaude (exitCode : Z) (events : list NormalizedEvent) (stderr : string) : agent.FailureClassification :=
  let refine c := if bool_decide (c = agent.FailureInternalError) then default c (stderrSignal stderr) else c in
  match explicitFailure refine exitCode events with
  | Some fc => fc
  | None => match stderrSignal stderr with
            | Some c => withExit (agent.DefaultPolicy c) exitCode
            | None => DefaultClassify exitCode events stderr
            end
  end.
Definition ClassifyFailure (exitCode : Z) (events : list NormalizedEvent) (stderr : string) : agent.FailureClassification :=
  classifyClaude exitCode events (redact stderr).

(** ** run.go *)

Record RunHandle := mkHandle { H_RunID : string; H_Engine : string; H_Model : string; H_SessionID : string }.
(** What a spawned process is given. *)
Record Launch := mkLaunch { L_argv : list string; L_dir : string; L_env : list string; L_stdin : option string }.
(** [Resume] as the request it starts. *)
Definition resumeRequest (req : Request) : Request :=
  mkRequest (Req_RunID req) (Req_Engine req) (Req_Model req) (Req_Workspace req) "" "" (Req_AllowlistEnv req) (Req_TurnLimit req)
    (Req_Timeout req) (Req_SessionID req).

Section start.
  Context (lookPath : string → result string string) (lookupEnv : string → option string) (readFile : string → result string string).
  (** [Spawn] and [proc.Start]: an error, or a process; and a random run id. *)
  Context (spawn : Launch → option string) (newRunID : string).

Definition startRun (o : Options) (req : Request) (isResume : bool) : result string (Launch * RunHandle) :=
  match binary lookPath o with
  | Err _ => Err "claude: engine not installed"
  | Ok bin =>
      match resolvePrompt readFile req with
      | Err e => Err e
      | Ok prompt =>
          let l := mkLaunch (buildArgv o bin req isResume) (Req_Workspace req) (buildEnv lookupEnv (Req_AllowlistEnv req))
                     (if useStdin o then Some prompt else None) in
          match spawn l with
          | Some e => Err ("claude: spawn: " +:+ redact e)
          | None => Ok (l, mkHandle (orElse (Req_RunID req) newRunID) (orElse (Req_Engine req) EngineID) (Req_Model req) (Req_SessionID req))
          end
      end
  end.
Definition Start (o : Options) (req : Request) : result string (Launch * RunHandle) := startRun o req false.
Definition Resume (o : Options) (req : Request) : result string (Launch * RunHandle) := startRun o (resumeRequest req) true.
End start.

(** [markCause] keeps the first intent; [Cancel] and the timer, step by step. *)
Definition currentCause (w : live.World) : option live.Intent := head (live.marks w).
Definition Cancel : list live.CallerAct := [live.Mark live.CancelUser; live.CancelCtx agent.Canceled; live.KillGroup].
Definition timer : list live.CallerAct := [live.Mark live.CancelTimeout; live.CancelCtx agent.Canceled].

Section supervise.
  Import live. Open Scope prog_scope.
  Context (jsonError : string → string → string).
  (** The run's id, engine and model, and whether it resumes a session. *)
  Context (runID engine model : string) (isResume : bool).

Definition mk (t : agent.EventType) : NormalizedEvent := set_ids runID engine model (event t).
Definition mkFailed (t : agent.EventType) (c : agent.FailureClass) (reason : string) (exitCode : Z) : NormalizedEvent :=
  set_Failure (Some (agent.mkFailurePayload c reason exitCode)) (mk t).
Definition mkCancelTerminal : NormalizedEvent := mkFailed agent.EventRunCancelled agent.FailureCancelled "cancelled by caller" 0.
Definition mkTimeoutTerminal : NormalizedEvent :=
  mkFailed agent.EventRunFailed agent.FailureTimeout "claude: run exceeded its wall-clock timeout" 0.
(** The terminal event of a process that ended without one. *)
Definition synthesized (exitCode : Z) (stderr : string) : NormalizedEvent :=
  let fc := classifyClaude exitCode [] (redact stderr) in
  if (exitCode =? 0)%Z && bool_decide (agent.Class_ fc = agent.FailureInternalError) then mk agent.EventRunCompleted
  else mkFailed agent.EventRunFailed (agent.Class_ fc) (agent.Reason fc) exitCode.

Definition fill (e : NormalizedEvent) : NormalizedEvent :=
  set_ids (orElse (RunID e) runID) (orElse (Engine e) engine) (orElse (Model e) model) e.
(** One event of a line: kept when it has raw bytes, and offered to the sink. *)
Definition deliver (e : NormalizedEvent) : prog World bool :=
  _ ← match Raw e with Some raw => save raw | None => Ret () end;
  OnEvent (fill e).
(** [st.setSession]: the first session stays. *)
Definition setSession (id : string) : prog World () := modify (λ w, set_session (orElse (session w) id) w).

(** One turn of the loop: go on, or leave it; [None] returns from the run. *)
Definition selectOnce (tc : transCtx) : prog World (transCtx + option bool) :=
  s ← selectCtx;
  match s with
  | Received (mkChunk None false) => Ret (inr (Some false))
  | Received (mkChunk None true) => Ret (inl tc)
  | Received (mkChunk (Some l) _) =>
      let '(evs, tc) := translate jsonError l tc in
      _ ← (if bool_decide (tc_session tc = "") then Ret () else setSession (tc_session tc));
      ok ← each evs deliver;
      if ok : bool then Ret (if existsb (λ e, agent.IsTerminal (Type_ e)) evs then inr (Some true) else inl tc)
      else _ ← kill; Ret (inr None)
  | _ =>
      _ ← kill;
      cause ← get currentCause;
      _ ← OnEvent (if bool_decide (cause = Some CancelTimeout) then mkTimeoutTerminal else mkCancelTerminal);
      Ret (inr None)
  end.
Definition afterStream (sawTerminal : bool) : prog World () :=
  _ ← readerDone;
  r ← wait;
  if sawTerminal then Ret ()
  else
    cause ← get currentCause;
    _ ← OnEvent match cause with
                | Some CancelTimeout => mkTimeoutTerminal
                | Some CancelUser => mkCancelTerminal
                | None => synthesized r.1 r.2
                end;
    Ret ().
Definition superviseBody : prog World () :=
  ok ← OnEvent (mk (if isResume then agent.EventRunResumed else agent.EventRunStarted));
  if ok : bool then
    _ ← peek;
    _ ← goReader;
    r ← Loop selectOnce (mkTransCtx runID engine model "");
    match r with Some sawTerminal => afterStream sawTerminal | None => Ret () end
  else kill.
(** With its deferred calls. *)
Definition supervise : prog World () := _ ← superviseBody; _ ← cancelCtx; unregister.

(** ** What a run tells its sink *)

(** A context of this run. *)
Definition ours (tc : transCtx) : Prop := tc_runID tc = runID ∧ tc_engine tc = engine.
(** The terminal event is an event of a line that this run has read, in its context, or
    was made for the reason there is. *)
Definition justified (w : World) (t : NormalizedEvent) : Prop :=
  (∃ l b tc e, mkChunk (Some l) b ∈ got w ∧ ours tc ∧ e ∈ (translate jsonError l tc).1 ∧ t = fill e) ∨
  (t = mkTimeoutTerminal ∧ CancelTimeout ∈ marks w) ∨
  (t = mkCancelTerminal ∧ (ctx w ≠ None ∨ CancelUser ∈ marks w)) ∨
  (∃ code, exit_ w = Some (Exited code) ∧ copying w = false ∧ t = synthesized code (stderr w)).
End supervise.

Section supervised.
  Import live. Open Scope prog_scope.
  Context (jsonError : string → string → string).

(** *** Only the last event of a line may be terminal *)

Lemma lastOnly_none evs : Forall (λ e, terminal e = false) evs → lastOnly evs.
Proof. intros Hf pre e post -> He. apply Forall_app in Hf as [_ Hf]. apply Forall_cons in Hf as [Hf _]. congruence. Qed.
Lemma lastOnly_snoc evs e : Forall (λ e, terminal e = false) evs → lastOnly (evs ++ [e]).
Proof.
  intros Hf pre x post Heq Hx. destruct (decide (post = [])) as [|Hp]; [done|]. exfalso.
  destruct (exists_last Hp) as (post' & y & ->). rewrite app_comm_cons, app_assoc in Heq. apply app_inj_tail in Heq as [-> _].
  apply Forall_app in Hf as [_ Hf]. apply Forall_cons in Hf as [Hf _]. congruence.
Qed.
Lemma fixup_calm tc evs : Forall (λ e, terminal e = false) evs → Forall (λ e, terminal e = false) (fixup tc <$> evs).
Proof. intros H. apply Forall_fmap. eapply Forall_impl; [exact H|]. by intros []. Qed.
Lemma blocks_calm (f : contentBlock → list NormalizedEvent) tc l :
  (∀ b, Forall (λ e, terminal e = false) (f b)) → Forall (λ e, terminal e = false) (fixup tc <$> mjoin (f <$> l)).
Proof. intros H. apply fixup_calm. induction l as [|b l IH]; [done|]. apply Forall_app. by split. Qed.
Lemma translate_lastOnly line tc : lastOnly (translate jsonError line tc).1.
Proof.
  assert (∀ e, lastOnly [e]) as Hone by (intros e; by apply (lastOnly_snoc [])).
  unfold translate. case_match; [by apply lastOnly_none|]. destruct (Unmarshal dEnvelope line ("", "")) as [[t s] []]; [|apply Hone].
  repeat case_match; cbn; try apply Hone; try (by apply lastOnly_none).
  - unfold translateAssistant. destruct (Unmarshal dAssistant _ _) as [[session msg] []]; cbn; [|apply Hone].
    apply lastOnly_none, blocks_calm. intros b. unfold assistantBlock. repeat case_match; by repeat constructor.
  - unfold translateUser. destruct (Unmarshal dUser _ _) as [msg []]; [|apply Hone].
    apply lastOnly_none, blocks_calm. intros b. unfold userBlock. repeat case_match; by repeat constructor.
  - unfold translateResult. destruct (Unmarshal dResult _ _) as [r []]; [|apply Hone].
    cbn. apply (lastOnly_snoc [_]). by repeat constructor.
  - unfold translateStreamEvent. destruct (Unmarshal dStream _ _) as [[t' [d x]] []]; [|by apply lastOnly_none].
    case_match; [apply Hone|by apply lastOnly_none].
Qed.
End supervised.

(** A line may give the run its session and its model, and changes nothing else of the
    context. *)
Lemma translate_ids jsonError line tc :
  tc_runID (translate jsonError line tc).2 = tc_runID tc ∧ tc_engine (translate jsonError line tc).2 = tc_engine tc.
Proof.
  assert (∀ s, tc_runID (withSession s tc) = tc_runID tc ∧ tc_engine (withSession s tc) = tc_engine tc) as Hs
    by (intros s; unfold withSession; by case_bool_decide).
  unfold translate, translateSystem, translateAssistant, translateResult. repeat case_match; cbn; done || apply Hs.
Qed.
Section safety.
  Import live. Open Scope prog_scope.
  Context (jsonError : string → string → string) (runID engine model : string) (isResume : bool).
Let first : NormalizedEvent := mk runID engine model (if isResume then agent.EventRunResumed else agent.EventRunStarted).
Let reason (w : World) : NormalizedEvent → Prop := justified jsonError runID engine model w.
Let fill' : NormalizedEvent → NormalizedEvent := fill runID engine model.

Lemma fill_terminal e : terminal (fill' e) = terminal e.
Proof. by destruct e. Qed.
Lemma justified_near m w w' t : near m w w' → reason w t → reason w' t.
Proof.
  intros Hn [(l & b & tc & e & Hl & Htc & He & ->)|[[-> H]|[[-> H]|(code & Hx & Hc & ->)]]]; unfold reason, justified.
  - left. exists l, b, tc, e. split; [by apply (near_got m w)|done].
  - right; left. split; [done|]. destruct (n_marks _ _ _ Hn) as [l ->]. apply elem_of_app. by left.
  - right; right; left. split; [done|]. destruct H as [H|H].
    + left. by rewrite (n_ctx _ _ _ Hn).
    + right. destruct (n_marks _ _ _ Hn) as [l ->]. apply elem_of_app. by left.
  - right; right; right. exists code. pose proof (n_exit _ _ _ Hn _ Hx). destruct (n_err _ _ _ Hn Hc) as [Hc' ->]. done.
Qed.

(** The log begins with the start of the run. *)
Definition begun (L : list (NormalizedEvent * bool)) : Prop := ∃ l ok, L = (first, ok) :: l.
Lemma begun_app L l : begun L → begun (L ++ l).
Proof. intros (l' & ok & ->). by eexists _, _. Qed.
(** The run has told all it will. *)
Definition finished (w : World) : Prop := begun (given w) ∧ closed_log (reason w) (given w).
Lemma finished_rely w w' : rely ByMark w w' → finished w → finished w'.
Proof.
  intros Hr [Hb Hc]. pose proof (r_view _ _ _ Hr) as Hv. injection Hv as Hg _ _ _. unfold finished. rewrite Hg. split; [done|].
  eapply closed_weaken; [|exact Hc]. intros e. apply (justified_near ByMark), Hr.
Qed.
(** Where the supervisor may wait: for the first bytes, for a chunk or the context, for
    the reader when the terminal event is already out, for the process and its pipes. *)
Definition Waits (w : World) : Prop :=
  (reader w = NotStarted ∧ enough w = false ∧ open_ w = true) ∨
  (eofSeen w = false ∧ reader w ≠ NotStarted ∧ ctx w = None ∧ chan w = None) ∨
  (eofSeen w = false ∧ reader w ≠ NotStarted ∧ reader w ≠ Finished ∧ closed_log (reason w) (given w)) ∨
  (reader w = Finished ∧ (exit_ w = None ∨ copying w = true)).
Let run {A} : prog World A → (A → World → Prop) → World → Prop := wp (inv ByMark) (rely ByMark) Waits.

Lemma run_Terminal e (Q : bool → World → Prop) L eof w : knows ByMark L eof w → begun L → open_log L → terminal e = true →
  (∀ w', near ByMark w w' → reason w' e) → (∀ ok w', inv ByMark w' → finished w' → Q ok w') → run (OnEvent e) Q w.
Proof.
  intros Hk Hb Ho Ht Hr HQ. apply (know_OnEvent _ _ _ _ L eof); [done|]. intros ok w' Hi Hn [Hg He Hs Htm]. apply HQ; [done|].
  unfold finished. rewrite Hg. split; [by apply begun_app|]. apply log_terminal; auto.
Qed.
Lemma run_deliver pre e L w (Q : bool → World → Prop) : knows ByMark (L ++ taken fill' pre) false w →
  (∀ ok w', inv ByMark w' → near ByMark w w' → knows ByMark (L ++ taken fill' pre ++ [(fill' e, ok)]) false w' → Q ok w') →
  run (deliver runID engine model e) Q w.
Proof.
  intros Hk HQ. unfold deliver. apply know_bind.
  assert (∀ w0, near ByMark w w0 → knows ByMark (L ++ taken fill' pre) false w0 → run (OnEvent (fill' e)) Q w0) as Hon.
  { intros w0 Hn0 Hk0. apply (know_OnEvent _ _ _ _ _ _ _ Hk0). intros ok w' Hi Hn Hk'. rewrite <-app_assoc in Hk'. apply HQ; [done|by etrans|done]. }
  destruct (Raw e) as [raw|].
  - apply (know_save _ _ _ _ _ _ _ Hk). intros w' _ Hn' Hk'. by apply Hon.
  - apply know_ret. intros w' Hr _. apply Hon; [apply Hr|]. by apply (knows_rely _ _ _ w).
Qed.
Lemma run_batch evs L w0 w (Q : bool → World → Prop) : inv ByMark w → near ByMark w0 w → knows ByMark L false w → lastOnly evs → open_log L →
  (∀ w', inv ByMark w' → near ByMark w0 w' → knows ByMark (L ++ taken fill' evs) false w' → Q true w') →
  (∀ pre e w', inv ByMark w' → open_log (L ++ taken fill' pre) → given w' = L ++ taken fill' pre ++ [(fill' e, false)] → Q false w') →
  run (each evs (deliver runID engine model)) Q w.
Proof.
  intros Hi Hn Hk Hl Ho HQ HF.
  apply (wp_each _ _ _ _ _ (λ rest w', near ByMark w0 w' ∧ ∃ pre, evs = pre ++ rest ∧ knows ByMark (L ++ taken fill' pre) false w'));
    [..|done|by split; [|exists []; rewrite app_nil_r]].
  - intros e rest w1 Hi1 (Hn1 & pre & Heq & Hk1). apply (run_deliver pre e L w1 _ Hk1). intros ok w' Hi' Hn' Hk'. destruct ok.
    + split; [by etrans|]. exists (pre ++ [e]). rewrite <-app_assoc. split; [done|]. unfold taken in *. by rewrite fmap_app.
    + intros w'' Hr Hi''. apply (HF pre e); [done| |exact (k_given _ _ _ _ (knows_rely _ _ _ w' w'' Hr Hk'))].
      apply open_taken; [apply fill_terminal|done|]. by apply (lastOnly_before evs pre e rest).
  - intros w1 _ (Hn1 & pre & -> & Hk1) w' Hr Hi'. apply HQ; [done|etrans; [done|apply Hr]|]. rewrite !app_nil_r in *. by apply (knows_rely _ _ _ w1).
Qed.

(** What a turn of the loop leaves. *)
Definition Stream (L : list (NormalizedEvent * bool)) (w : World) : Prop := begun L ∧ open_log L ∧ knows ByMark L false w.
Definition Streaming (tc : transCtx) (w : World) : Prop := ours runID engine tc ∧ ∃ L, Stream L w.
Definition Streamed (r : option bool) (w : World) : Prop :=
  match r with
  | None => finished w
  | Some true => ∃ L, knows ByMark L false w ∧ begun L ∧ closed_log (reason w) L
  | Some false => ∃ L, knows ByMark L true w ∧ begun L ∧ open_log L
  end.
Lemma Streaming_rely tc w w' : rely ByMark w w' → Streaming tc w → Streaming tc w'.
Proof. intros Hr (Htc & L & Hb & Ho & Hk). split; [done|]. exists L. split; [done|]. split; [done|]. by apply (knows_rely _ _ _ w). Qed.
Lemma Streamed_rely r w w' : rely ByMark w w' → Streamed r w → Streamed r w'.
Proof.
  intros Hr. destruct r as [[]|]; cbn.
  - intros (L & Hk & Hb & Hc). exists L. split; [by apply (knows_rely _ _ _ w)|]. split; [done|].
    eapply closed_weaken; [|exact Hc]. intros e. apply (justified_near ByMark), Hr.
  - intros (L & Hk & Hb & Ho). exists L. split; [by apply (knows_rely _ _ _ w)|done].
  - by apply finished_rely.
Qed.

Lemma run_abort (Q : transCtx + option bool → World → Prop) tc w : Streaming tc w → ctx w ≠ None →
  (∀ w', inv ByMark w' → finished w' → Q (inr None) w') →
  run (_ ← kill; cause ← get currentCause;
       _ ← OnEvent (if bool_decide (cause = Some CancelTimeout) then mkTimeoutTerminal runID engine model else mkCancelTerminal runID engine model);
       Ret (inr None)) Q w.
Proof.
  intros (_ & L & Hb & Ho & [Hg He Hs Ht]) Hx HQ.
  apply know_bind, wp_kill. intros w1 Hi1 Hn1 Hv1 Hkd. injection Hv1 as Hg1 _ _ _.
  apply know_bind, wp_get. intros w2 Hn2 Hv2 Ht2 Hi2 w3 Hi3 Hn3 Ht3 Hv3. injection Hv3 as Hg3 _ _ _.
  apply know_bind, wp_OnEvent. intros ok w4 Hi4 Hn4 Ht4 _ Hv4. injection Hv4 as Hg4 _ _ _.
  assert (near ByMark w w4) as Hnear by (etrans; [exact Hn1|]; etrans; [exact Hn2|]; by etrans).
  assert (ctx w4 ≠ None) as Hx4 by by rewrite (n_ctx _ _ _ Hnear).
  assert (∀ i, currentCause w2 = Some i → i ∈ marks w4) as Hm.
  { intros i Hc. destruct (n_marks _ _ _ Hn3) as [l3 H3], (n_marks _ _ _ Hn4) as [l4 H4]. rewrite H4, H3.
    unfold currentCause in Hc. destruct (marks w2); [done|]. injection Hc as ->. by left. }
  apply know_ret. intros w5 Hr5 Hi5. apply HQ; [done|]. apply (finished_rely w4); [done|]. unfold finished. rewrite Hg4, Hg3, Hg1, Hg.
  split; [by apply begun_app|].
  apply log_terminal; [done|by case_bool_decide|]. case_bool_decide as Hc; [right; left; auto|right; right; left; auto].
Qed.

Lemma run_line l b tc w : inv ByMark w → Streaming tc w → mkChunk (Some l) b ∈ got w →
  run (let '(evs, tc) := translate jsonError l tc in
       _ ← (if bool_decide (tc_session tc = "") then Ret () else setSession (tc_session tc));
       ok ← each evs (deliver runID engine model);
       if ok : bool then Ret (if existsb (λ e, agent.IsTerminal (Type_ e)) evs then inr (Some true) else inl tc)
       else _ ← kill; Ret (inr None))
    (λ r w', match r with inl tc => Streaming tc w' | inr a => Streamed a w' end) w.
Proof.
  intros Hi (Htc & L & Hb & Ho & Hk) Hgot. pose proof (translate_lastOnly jsonError l tc) as Hl. pose proof (translate_ids jsonError l tc) as Hids.
  assert (∀ e, e ∈ (translate jsonError l tc).1 → ∀ w', near ByMark w w' → reason w' (fill' e)) as Hreason.
  { intros e He w' Hn. left. exists l, b, tc, e. split; [by apply (near_got ByMark w)|done]. }
  assert (ours runID engine (translate jsonError l tc).2) as Htc' by (destruct Htc, Hids; split; congruence). clear Hids.
  destruct (translate jsonError l tc) as [evs tc']. cbn in Hl, Hreason, Htc'. apply know_bind.
  assert (∀ w0, inv ByMark w0 → near ByMark w w0 → knows ByMark L false w0 → run (ok ← each evs (deliver runID engine model);
       if ok : bool then Ret (if existsb (λ e, agent.IsTerminal (Type_ e)) evs then inr (Some true) else inl tc')
       else _ ← kill; Ret (inr None)) (λ r w', match r with inl tc => Streaming tc w' | inr a => Streamed a w' end) w0) as Hrest.
  { intros w0 Hi0 Hn0 Hk0. apply know_bind, (run_batch evs L w w0); [done..| |].
    - intros w1 Hi1 Hn1 Hk1. apply know_ret. intros w2 Hr2 Hi2. pose proof (knows_rely _ _ _ _ _ Hr2 Hk1) as Hk2.
      assert (near ByMark w w2) as Hn2 by (etrans; [done|apply Hr2]).
      pose proof (taken_batch (reason w2) fill' L evs fill_terminal Ho Hl (λ e He, Hreason e He w2 Hn2)) as HL. unfold terminal in HL.
      destruct (existsb _ evs); (eexists; split; [|split]; [..|exact HL] || (split; [done|]; exists (L ++ taken fill' evs); repeat split; [by apply begun_app|done|apply Hk2..])).
      + done.
      + by apply begun_app.
    - intros pre e w1 Hi1 Ho1 Hg1. apply know_bind, wp_kill. intros w2 Hi2 Hn2 Hv2 Hkd. injection Hv2 as Hg2 _ _ _.
      apply know_ret. intros w3 Hr3 Hi3. apply (finished_rely w2); [done|]. unfold finished. rewrite Hg2, Hg1, app_assoc.
      split; [by apply begun_app, begun_app|]. by apply closed_refused. }
  case_bool_decide.
  - apply know_ret. intros w1 Hr1 Hi1. apply Hrest; [done|apply Hr1|]. by apply (knows_rely _ _ _ w).
  - apply (know_setSession _ _ (λ x, orElse x (tc_session tc')) _ _ _ _ Hk). intros w1 Hi1 Hn1 Hk1. by apply Hrest.
Qed.

Lemma run_selectOnce tc w : inv ByMark w → Streaming tc w →
  run (selectOnce jsonError runID engine model tc) (λ r w', match r with inl tc => Streaming tc w' | inr a => Streamed a w' end) w.
Proof.
  intros Hi (Htc & L & Hb & Ho & Hk). unfold selectOnce. apply know_bind. apply (know_selectCtx _ _ _ L); [done|..].
  - intros w' _ [_ He Hs _] Hx Hc. by right; left.
  - intros w' Hi' _ Hk' Hx. apply (run_abort _ tc); [by split; [|exists L]|done|done].
  - intros [[l|] more] w' Hi' _ Hk' Hin.
    + apply (run_line l more); [done| |done]. by split; [|exists L].
    + destruct more; apply know_ret; intros w2 Hr2 Hi2.
      * apply (Streaming_rely tc w'); [done|]. by split; [|exists L].
      * apply (Streamed_rely (Some false) w'); [done|]. by exists L.
Qed.

Lemma knows_Waits L w : knows ByMark L false w → reader w ≠ Finished → closed_log (reason w) L → Waits w.
Proof. intros [Hg He Hs _] Hf Hc. right; right; left. by rewrite Hg. Qed.
Lemma run_afterStream saw w : Streamed (Some saw) w → run (afterStream runID engine model saw) (λ _, finished) w.
Proof.
  intros H. unfold afterStream. apply know_bind. destruct saw; cbn in H.
  - destruct H as (L & Hk & Hb & Hc).
    assert (∀ w', near ByMark w w' → closed_log (reason w') L) as Hc' by (intros w' Hn; eapply closed_weaken; [|exact Hc]; intros e; by apply (justified_near ByMark)).
    apply (know_readerDone _ _ _ L false); [done|..].
    + intros w' Hi' Hn' Hk' Hf. apply (knows_Waits L); auto.
    + intros w1 Hi1 Hn1 Hk1 Hf1. apply know_bind, (know_wait _ _ _ L false); [done|by intros w2 _ Hn2 _ Hx; do 3 right; split; [apply (n_finished _ _ _ Hn2)|]|].
      intros e w2 Hi2 Hn2 Hk2 _ _ _. apply know_ret. intros w3 Hr3 Hi3. apply (finished_rely w2); [done|].
      unfold finished. rewrite (k_given _ _ _ _ Hk2). split; [done|]. apply Hc'. by etrans.
  - destruct H as (L & Hk & Hb & Ho). apply (know_readerDone _ _ _ L true); [done|..].
    + intros w' Hi' _ Hk' Hf. destruct Hf. apply (inv_eof _ _ Hi'). right. apply Hk'.
    + intros w1 Hi1 Hn1 Hk1 Hf1. apply know_bind, (know_wait _ _ _ L true); [done|by intros w2 _ Hn2 _ Hx; do 3 right; split; [apply (n_finished _ _ _ Hn2)|]|].
      intros e w2 Hi2 Hn2 Hk2 Hx2 Hc2 _. apply know_bind. apply (know_get _ _ _ _ L true); [done|].
      intros w3 w4 Hi3 Hn3 Hk3 Hi4 Hn4 Hk4. apply know_bind. apply (run_Terminal _ _ L true); [done|done|done| |..].
      * unfold currentCause. destruct (marks w3) as [|[] l]; cbn; try done. unfold synthesized. by case_match.
      * intros w5 Hn5. assert (near ByMark w3 w5) as Hn35 by by etrans.
        assert (near ByMark w2 w5) as Hn25 by by etrans.
        unfold currentCause. destruct (marks w3) as [|i l] eqn:Hm; cbn.
        -- right; right; right. destruct e as [code|].
           ++ exists code. pose proof (n_exit _ _ _ Hn25 _ Hx2). destruct (n_err _ _ _ Hn25 Hc2) as [? ->]. done.
           ++ exfalso. apply (k_tame _ _ _ _ Hk3); [|done]. apply (n_killed _ _ _ Hn3). by apply (inv_signalled _ _ Hi2).
        -- destruct (n_marks _ _ _ Hn35) as [l' Hl']. rewrite Hm in Hl'. assert (i ∈ marks w5) as Hin by (rewrite Hl'; by left).
           destruct i; [right; right; left; auto|right; left; auto].
      * intros ok w5 Hi5 Hfin. apply know_ret. intros w6 Hr6 _. by apply (finished_rely w5).
Qed.
(** *** The whole run *)

Lemma run_deferred w : finished w → run (_ ← cancelCtx; unregister) (λ _, finished) w.
Proof.
  intros [Hb Hc].
  assert (∀ w', near ByMark w w' → given w' = given w → finished w') as Hkeep.
  { intros w' Hn Hg. unfold finished. rewrite Hg. split; [done|]. eapply closed_weaken; [|exact Hc]. intros e. by apply (justified_near ByMark). }
  apply know_bind, wp_cancelCtx. intros w2 _ Hn2 _ Hg2 _. apply wp_unregister. intros w3 _ Hn3 _ Hg3 _.
  apply Hkeep; [by etrans|congruence].
Qed.
Lemma run_loop w : inv ByMark w → Streaming (mkTransCtx runID engine model "") w →
  run (Loop (selectOnce jsonError runID engine model) (mkTransCtx runID engine model "")) Streamed w.
Proof.
  intros Hi Hs. apply (wp_loop _ _ _ _ Streaming); [| |done].
  - intros tc w1 Hi1 Hs1. eapply rg_mono; [|by apply run_selectOnce]. intros [tc'|r] w2 Hi2 H2; [done|].
    intros w3 Hr3 _. by apply (Streamed_rely r w2).
  - intros tc w1 w2 Hr2 _. by apply Streaming_rely.
Qed.
Lemma run_body w : given w = [] → eofSeen w = false → reader w = NotStarted → killed w = false →
  run (superviseBody jsonError runID engine model isResume) (λ _, finished) w.
Proof.
  intros Hg He Hrd Hkd. unfold superviseBody. apply know_bind, wp_OnEvent. intros ok w1 Hi1 Hn1 Ht1 Hid Hv1.
  injection Hv1 as Hg1 _ He1 _. rewrite Hg in Hg1.
  assert (tame ByMark w1) as Htame by (apply Ht1; intros Hx; congruence). destruct ok.
  - apply know_bind, wp_peek; [intros w0 Hr0 _ He0 Ho0; left; by split; [apply (r_idle _ _ _ Hr0), Hid|]|]. intros w0 Hr0 Hi0.
    pose proof (r_view _ _ _ Hr0) as Hv0. injection Hv0 as Hg0 _ He0 _.
    apply know_bind, wp_goReader; [by apply (r_idle _ _ _ Hr0), Hid|congruence|]. intros w2 Hi2 Hn2 Ht2 Hv2 Hs2. injection Hv2 as Hg2 _ He2 _.
    apply know_bind. eapply rg_mono; [|apply run_loop; [done|]].
    + intros [saw|] w3 Hi3 H3; [by apply run_afterStream|]. apply know_ret. intros w4 Hr4 _. by apply (finished_rely w3).
    + split; [done|]. exists [(first, true)]. split; [by eexists _, _|]. split; [|split; [by rewrite Hg2, Hg0, Hg1|congruence|done|by apply Ht2, Hr0]].
      repeat constructor. unfold terminal, first. by destruct isResume.
  - apply wp_kill. intros w2 Hi2 Hn2 Hv2 _. injection Hv2 as Hg2 _ _ _. unfold finished. rewrite Hg2, Hg1.
    split; [by eexists _, _|]. apply (closed_refused _ []). by constructor.
Qed.
Lemma run_supervise w : given w = [] → eofSeen w = false → reader w = NotStarted → killed w = false →
  run (supervise jsonError runID engine model isResume) (λ _, finished) w.
Proof.
  intros Hg He Hrd Hkd. unfold supervise. apply know_bind. eapply rg_mono; [|by apply run_body]. intros [] w1 _ Hf. by apply run_deferred.
Qed.
End safety.

(** Any schedule of a run, from a process just spawned. *)
Definition reaches (jsonError : string → string → string) (runID engine model : string) (isResume timeout : bool)
  (c : live.prog live.World () * live.World) : Prop :=
  rtc (live.sys (live.others Cancel timer)) (supervise jsonError runID engine model isResume, live.fresh timeout) c.
Lemma fresh_holds timeout : live.inv live.ByMark (live.fresh timeout).
Proof. split; cbn; try done; [intros s Hs%elem_of_nil; done|]. by intros [|]. Qed.
Lemma reaches_sound jsonError runID engine model isResume timeout p w : reaches jsonError runID engine model isResume timeout (p, w) →
  live.inv live.ByMark w ∧
  match live.returned p with
  | Some _ => finished jsonError runID engine model isResume w
  | None => live.next p w = [] → Waits jsonError runID engine model w
  end.
Proof.
  apply (live.wp_sound (PreOrder0 := live.rely_preorder _) (live.inv live.ByMark) (live.rely live.ByMark) (Waits jsonError runID engine model) (live.others Cancel timer)
    _ p (λ _, finished jsonError runID engine model isResume)); [|apply fresh_holds|by apply run_supervise].
  intros w1 w2. by apply live.others_rely.
Qed.

(** The reader has nothing to read yet, or can move. *)
Definition readable (w : live.World) : Prop :=
  (live.reader w = live.Reading ∧ live.stdout w = [] ∧ live.open_ w = true) ∨
  ∃ a, a ∈ [live.Read; live.Send; live.Quit] ∧ is_Some (live.act Cancel timer a w).

(** C14: a run of the adapter that is over, whatever the process wrote and when it
    ended, whoever cancelled it and whenever the timer went off, began by telling its
    sink that it started or resumed, told it exactly one terminal event and nothing
    after it, unless the sink refused an event, which ends the run at that event;
    and the terminal event is justified: it is an event of a line the run has read, and
    the lines it has read are the first lines its own process wrote; or it is the
    timeout of a run whose timer went off, or the cancellation of a run that was
    cancelled or whose context ended; or it was made from the exit code and the whole
    standard error of a process that exited by itself. *)
Theorem supervise_exactly_one_terminal jsonError runID engine model isResume timeout w :
  reaches jsonError runID engine model isResume timeout (live.Ret (), w) →
  filter (λ c, live.isEOF c = false) (live.got w) `prefix_of` live.written w ∧
  (∃ rest ok, live.given w = (mk runID engine model (if isResume then agent.EventRunResumed else agent.EventRunStarted), ok) :: rest) ∧
  ∃ pre e ok, live.given w = pre ++ [(e, ok)] ∧ Forall (λ p, p.2 = true ∧ agent.IsTerminal (Type_ p.1) = false) pre ∧
    (agent.IsTerminal (Type_ e) = true ∧ justified jsonError runID engine model w e ∨ ok = false).
Proof. intros H. destruct (reaches_sound _ _ _ _ _ _ _ _ H) as [Hi [Hb Hf]]. split; [apply live.own_received, Hi|done]. Qed.


(** ** The adapter around a run *)

(** An accepted configuration asks for no bypass of the permissions, in its mode or
    its extra arguments. *)
Lemma New_ok o o' : New o = Ok o' → PermissionMode o' ∈ permissionModes ∧ Forall (λ a, forbiddenArg a = false) (ExtraArgs o') ∧ Models o' ≠ None.
Proof.
  unfold New. destruct (validatePermissionMode _) eqn:Hm; [done|]. destruct (validateExtraArgs _) eqn:Ha; [done|].
  destruct (validateEffort _); [done|]. intros [= <-]. cbn. split; [|split; [|done]].
  - unfold validatePermissionMode in Hm. case_bool_decide as Hin; [done|]. unfold orElse in *. repeat case_bool_decide; done.
  - unfold validateExtraArgs in Ha. destruct (List.find forbiddenArg (ExtraArgs o)) eqn:Hf; [done|]. apply Forall_forall. intros a Hin%list_elem_of_In.
    by apply (find_none forbiddenArg _ Hf).
Qed.

(** The environment of an agent has no key twice, in any case, and a key that holds a
    secret of the daemon or of the version control only if it is a baseline key. *)
Definition entry (kv : string * string) : string := kv.1 +:+ "=" +:+ kv.2.
Definition clean (acc : list string * list string) : Prop :=
  ∃ kvs, acc.1 = entry <$> kvs ∧ acc.2 = reverse ((λ kv, strs.ToUpper kv.1) <$> kvs) ∧ NoDup acc.2 ∧
    Forall (λ kv : string * string, kv.1 ∈ baselineEnvKeys ∨ isForbiddenEnvKey kv.1 = false) kvs.
Lemma add_clean k v trusted acc : clean acc → (trusted = true → k ∈ baselineEnvKeys) → clean (add k v trusted acc).
Proof.
  destruct acc as [env seen]. intros (kvs & He & Hs & Hn & Hf) Ht. cbn in He, Hs, Hn. unfold add. case_bool_decide as Hin; [by exists kvs|].
  destruct (negb trusted && isForbiddenEnvKey k) eqn:Hb; [by exists kvs|]. exists (kvs ++ [(k, v)]). cbn.
  rewrite !fmap_app, reverse_app, He, Hs. split; [done|]. split; [done|]. rewrite <-Hs. split; [by constructor|].
  apply Forall_app. split; [done|]. constructor; [|done]. cbn. destruct trusted; [left; auto|right]. exact Hb.
Qed.
Lemma buildEnv_clean lookupEnv allowlist : ∃ kvs, buildEnv lookupEnv allowlist = entry <$> kvs ∧
  NoDup ((λ kv, strs.ToUpper kv.1) <$> kvs) ∧ Forall (λ kv : string * string, kv.1 ∈ baselineEnvKeys ∨ isForbiddenEnvKey kv.1 = false) kvs.
Proof.
  assert (∀ l acc, clean acc → clean (foldl (addAllowed lookupEnv) acc l)) as Hallowed.
  { induction l as [|kv l IH]; intros acc Ha; [done|]. apply IH. unfold addAllowed. destruct (splitEnvEntry kv) as [k [v|]]; [by apply add_clean|].
    destruct (lookupEnv k); [by apply add_clean|done]. }
  assert (∀ l acc, clean acc → (∀ k, k ∈ l → k ∈ baselineEnvKeys) → clean (foldl (addBaseline lookupEnv) acc l)) as Hbase.
  { induction l as [|k l IH]; intros acc Ha Hl; [done|]. apply IH; [|intros; apply Hl; by right]. unfold addBaseline.
    destruct (lookupEnv k); [|done]. apply add_clean; [done|]. intros _. apply Hl. by left. }
  assert (clean ([], [])) as H0 by (exists []; split; [done|]; split; [done|]; split; constructor).
  destruct (Hallowed allowlist _ (Hbase baselineEnvKeys _ H0 ltac:(done))) as (kvs & He & Hs & Hn & Hf).
  exists kvs. split; [done|]. split; [|done]. rewrite Hs, reverse_Permutation in Hn. exact Hn.
Qed.

(** Whatever is classified is retried at most as often as the policy of its class allows. *)
Lemma classifyClaude_bounded exitCode events stderr : bounded exitCode (classifyClaude exitCode events stderr).
Proof.
  unfold classifyClaude. destruct (explicitFailure _ exitCode events) as [fc|] eqn:He; [by eapply bounded_explicit|].
  destruct (stderrSignal stderr); [by apply bounded_policy|apply DefaultClassify_bounded].
Qed.

(** ** Schedules *)

Module Schedules.
Import live. Open Scope prog_scope.
Definition noError (_ _ : string) : string := "error".
Definition run0 (timeout : bool) (l : list (Turn Act)) : option (prog World () * World) :=
  play (act Cancel timer) l (supervise noError "r1" "claude" "opus" false, fresh timeout).
Definition stops (c : option (prog World () * World)) : bool :=
  match c with Some (p, w) => match returned p, next p w with None, [] => true | _, _ => false end | None => false end.
Definition over (c : option (prog World () * World)) : bool := match c with Some (Ret tt, _) => true | _ => false end.
Definition world (c : option (prog World () * World)) : World := match c with Some (_, w) => w | None => fresh false end.
Definition told (c : option (prog World () * World)) : list (agent.EventType * bool) := (λ p, (Type_ p.1, p.2)) <$> given (world c).

Lemma run0_reaches timeout l : over (run0 timeout l) = true → reaches noError "r1" "claude" "opus" false timeout (Ret (), world (run0 timeout l)).
Proof.
  destruct (run0 timeout l) as [[p w]|] eqn:H; [|done]. intros Hp. apply play_sys in H. cbn in Hp |- *. destruct p as [[]| | |]; done.
Qed.
Lemma stops_reaches timeout l : stops (run0 timeout l) = true →
  ∃ p, reaches noError "r1" "claude" "opus" false timeout (p, world (run0 timeout l)) ∧ returned p = None ∧ next p (world (run0 timeout l)) = [].
Proof.
  destruct (run0 timeout l) as [[p w]|] eqn:H; [|done]. intros Hp. apply play_sys in H. cbn in Hp |- *. exists p.
  destruct (returned p); [done|]. by destruct (next p w).
Qed.

Definition field (k v : string) : string := strs.q k +:+ ":" +:+ v.
Definition object (l : list string) : string := "{" +:+ strs.Join l "," +:+ "}".
Definition resultLine : string := object [field "type" (strs.q "result"); field "subtype" (strs.q "success")].
Definition say (s : string) : Turn Act := Other (Write (Some s)).
Definition recv : list (Turn Act) := [Other Read; Other Send].
Definition started : list (Turn Act) := [Go; Own 0; Other Enough; Go].
Definition ends (code : Z) (err : string) : list (Turn Act) := [Other (End code err); Other Close; Other Copied].
(** The usage and the completion, and the sink takes both. *)
Definition took : list (Turn Act) := [Go; Own 0; Go; Own 0; Go].

Definition completes : list (Turn Act) :=
  (started ++ [say resultLine] ++ recv ++ took ++ ends 0 "" ++ recv ++ [Go])%list.
Definition crashes : list (Turn Act) := ([Go; Own 0; Go] ++ ends 1 "429" ++ [Go] ++ recv ++ [Go; Own 0; Go])%list.
Definition times_out : list (Turn Act) := (started ++ [Other Tick; Other (Caller 0); Other (Caller 0); Go; Own 0; Go])%list.
Definition cancelled : list (Turn Act) :=
  (started ++ [Other CallCancel; Other (Caller 0); Other (Caller 0); Other (Caller 0); Other Die] ++ [Go; Own 0; Go])%list.
Lemma runs_end :
  map (λ l, (over (run0 true l), told (run0 true l))) [completes; crashes; times_out; cancelled] =
  [(true, [(agent.EventRunStarted, true); (agent.EventUsageUpdated, true); (agent.EventRunCompleted, true)]);
   (true, [(agent.EventRunStarted, true); (agent.EventRunFailed, true)]);
   (true, [(agent.EventRunStarted, true); (agent.EventRunFailed, true)]);
   (true, [(agent.EventRunStarted, true); (agent.EventRunCancelled, true)])].
Proof. by vm_compute. Qed.

(** An agent that writes one more line after its result, and exits, hangs the run:
    the line fills the channel, the reader waits to send the end of the output, and
    the supervisor, which no longer receives, waits for the reader. *)
Definition trailing : list (Turn Act) :=
  (started ++ [say resultLine; say "bye"] ++ ends 0 "" ++ recv ++ took ++ recv ++ [Other Read; Go])%list.
Lemma trailing_output_hangs :
  let c := run0 false trailing in
  stops c = true ∧ exit_ (world c) = Some (Exited 0) ∧ open_ (world c) = false ∧
  copying (world c) = false ∧
  Forall (λ a, act Cancel timer a (world c) = None) [Read; Send; Quit; Close; Die; Tick] ∧
  told c = [(agent.EventRunStarted, true); (agent.EventUsageUpdated, true); (agent.EventRunCompleted, true)].
Proof. vm_compute. by repeat constructor. Qed.
(** A run that was cancelled or timed out is over with nobody having waited for its
    process. *)
Lemma ended_runs_not_reaped :
  map (λ l, (over (run0 true l), reaped (world (run0 true l)))) [times_out; cancelled] = [(true, false); (true, false)].
Proof. by vm_compute. Qed.
(** A timeout that comes after the result of an agent that does not exit kills nobody:
    the run waits on. *)
Definition lingering : list (Turn Act) :=
  (started ++ [say resultLine] ++ recv ++ took ++ [Other Close] ++ [Other Tick; Other (Caller 0); Other (Caller 0)] ++ [Other Read; Other Quit; Go])%list.
Lemma late_timeout_kills_nobody :
  let c := run0 true lingering in
  stops c = true ∧ ctx (world c) = Some agent.Canceled ∧ armed (world c) = false ∧ killed (world c) = false ∧ exit_ (world c) = None.
Proof. vm_compute. by repeat split. Qed.
(** Before its first three bytes a run has no timeout: the timer goes off and ends the
    context, the supervisor waits on, and the process is not killed. *)
Lemma silent_agent_outlives_timeout :
  let c := run0 true [Go; Own 0; Go; Other Tick; Other (Caller 0); Other (Caller 0); Go] in
  stops c = true ∧ ctx (world c) = Some agent.Canceled ∧ marks (world c) = [CancelTimeout] ∧ armed (world c) = false ∧
  callers (world c) = [[]] ∧ killed (world c) = false ∧ exit_ (world c) = None ∧ told c = [(agent.EventRunStarted, true)].
Proof. vm_compute. by repeat split. Qed.
(** A process that left the group and kept the standard error holds the run, which was
    completed and then cancelled, for as long as it likes. *)
Lemma inherited_stderr_holds :
  let c := run0 true (started ++ [say resultLine] ++ recv ++ took ++ [Other (End 0 ""); Other Close] ++ recv ++
    [Go; Other CallCancel; Other (Caller 0); Other (Caller 0); Other (Caller 0); Other Tick; Other (Caller 1); Other (Caller 1); Go])%list in
  stops c = true ∧ exit_ (world c) = Some (Exited 0) ∧ open_ (world c) = false ∧ killed (world c) = true ∧ ctx (world c) = Some agent.Canceled ∧
  copying (world c) = true ∧ callers (world c) = [[]; []].
Proof. vm_compute. by repeat split. Qed.
End Schedules.
Import Schedules.

Lemma supervise_exactly_one_terminal_witness :
  ∃ w, reaches noError "r1" "claude" "opus" false true (live.Ret (), w) ∧ length (live.given w) = 3 ∧ length (live.written w) = 1 ∧
  filter (λ c, live.isEOF c = false) (live.got w) `prefix_of` live.written w ∧
  (∃ rest ok, live.given w = (mk "r1" "claude" "opus" agent.EventRunStarted, ok) :: rest) ∧
  ∃ pre e ok, live.given w = pre ++ [(e, ok)] ∧ Forall (λ p, p.2 = true ∧ agent.IsTerminal (Type_ p.1) = false) pre ∧
    (agent.IsTerminal (Type_ e) = true ∧ justified noError "r1" "claude" "opus" w e ∨ ok = false).
Proof.
  exists (world (run0 true completes)).
  assert (reaches noError "r1" "claude" "opus" false true (live.Ret (), world (run0 true completes))) as H by (apply run0_reaches; by vm_compute).
  split; [exact H|]. split; [by vm_compute|]. split; [by vm_compute|]. apply (supervise_exactly_one_terminal _ _ _ _ _ _ _ H).
Defined.

(** *** What the adapter gets wrong *)

Definition tc0 : transCtx := mkTransCtx "r1" "claude" "opus" "".
Definition told_of (line : string) : list agent.EventType := Type_ <$> (translate noError line tc0).1.
(** An error reported with the subtype [success] completes the run. *)
Lemma is_error_completes :
  told_of (object [field "type" (strs.q "result"); field "subtype" (strs.q "success"); field "is_error" "true"; field "errors" "[" +:+ strs.q "429" +:+ "]"])
  = [agent.EventUsageUpdated; agent.EventRunCompleted].
Proof. by vm_compute. Qed.
(** The id of a tool result is not the one the stream has it under. *)
Lemma tool_result_loses_id :
  let e := (translate noError (object [field "type" (strs.q "user"); field "message" (object [field "content"
    ("[" +:+ object [field "type" (strs.q "tool_result"); field "tool_use_id" (strs.q "toolu_1")] +:+ "]")])]) tc0).1 in
  Tool <$> e = [Some (mkToolPayload "" "" "completed" "" 0)].
Proof. by vm_compute. Qed.
(** A user message whose content is text is malformed. *)
Lemma text_message_malformed :
  told_of (object [field "type" (strs.q "user"); field "message" (object [field "content" (strs.q "hi")])]) = [agent.EventWarning].
Proof. by vm_compute. Qed.
(** With [PromptPositional] the prompt goes nowhere. *)
Definition bare (dirs : list string) (strategy : string) : Options := mkOptions "/bin/claude" false "" "" dirs [] None "" strategy.
Definition request0 : Request := mkRequest "r1" "" "opus" "/w" "do it" "" [] 0 0 "".
Definition launched (o : Options) (req : Request) (resume : bool) : option Launch :=
  match New o with
  | Ok a => match startRun (λ _, Err "no") (λ _, None) (λ _, Err "no") (λ _, None) "id" a req resume with Ok (l, _) => Some l | Err _ => None end
  | Err _ => None
  end.
Lemma positional_prompt_lost :
  launched (bare [] PromptPositional) request0 false =
  Some (mkLaunch ["/bin/claude"; "-p"; "--output-format"; "stream-json"; "--verbose"; "--permission-mode"; "default"; "--model"; "opus"] "/w" [] None).
Proof. by vm_compute. Qed.
(** A directory to add may be the flag that skips the permissions. *)
Lemma directory_is_flag :
  (λ l, bool_decide ("--dangerously-skip-permissions" ∈ L_argv l)) <$> launched (bare ["--dangerously-skip-permissions"] "") request0 false = Some true.
Proof. by vm_compute. Qed.
(** A resumed run is given an empty prompt. *)
Lemma resume_prompt_empty : L_stdin <$> launched (bare [] "") (resumeRequest request0) true = Some (Some "").
Proof. by vm_compute. Qed.
End claude.
