(* ===== verification/Declarative.v ===== *)
(** * Declarative: coding agents described by a manifest (spec §13.1)

    Models [internal/adapter/codingagent/declarative]: the YAML subset of the
    manifest and its decoding (manifest.go), the substitution of the command
    template, the probes, the environment, and the supervised run of [Live.v] among
    its reader, its process and callers of [Cancel] (adapter.go, linescanner.go).
    Looking up and running programs are arguments. *)
From S2P Require Import Prelude Text Agent Json Protocol Live.
Import json protocol.

Module declarative.

(** ** manifest.go: the YAML subset *)

(** The values a manifest is made of: [nil], [string], [bool], [int], [[]any] and
    [map[string]any]. *)
Inductive yaml :=
| YNil
| YStr (s : string)
| YBool (b : bool)
| YInt (n : Z)
| YSeq (l : list yaml)
| YMap (l : list (string * yaml)).

(** [m[key] = v]. *)
Fixpoint setKey (k : string) (v : yaml) (m : list (string * yaml)) : list (string * yaml) :=
  match m with [] => [(k, v)] | (k', v') :: m => if bool_decide (k' = k) then (k, v) :: m else (k', v') :: setKey k v m end.
Definition getKey (m : list (string * yaml)) (k : string) : option yaml := snd <$> List.find (λ kv, bool_decide (kv.1 = k)) m.

(** Whether single and double quotes are open. *)
Definition dquote : ascii := ascii_of_nat 34.
Definition quotes (c : ascii) (q : bool * bool) : bool * bool :=
  if bool_decide (c = "'"%char) then (if q.2 then q else (negb q.1, q.2))
  else if bool_decide (c = dquote) then (if q.1 then q else (q.1, negb q.2))
  else q.
Definition unquoted (q : bool * bool) : bool := negb q.1 && negb q.2.
(** [atStart]: at the beginning or after a blank. *)
Fixpoint stripFrom (atStart : bool) (q : bool * bool) (s : string) : string :=
  match s with
  | "" => ""
  | String c r =>
      if bool_decide (c = "#"%char) && unquoted q && atStart then ""
      else String c (stripFrom (bool_decide (c = " "%char) || bool_decide (c = strs.tab)) (quotes c q) r)
  end%string.
Definition stripComment : string → string := stripFrom true (false, false).

Record yamlLine := mkLine { indent : nat; content : string }.
Definition normalizeLine (raw : string) : list yamlLine :=
  let trimmed := stripComment raw in
  if bool_decide (strs.TrimSpace trimmed = "") then []
  else [mkLine (String.length trimmed - String.length (strs.TrimLeft [" "%char] trimmed)) (strs.TrimSpace trimmed)].
Definition normalizeYAMLLines (l : list string) : list yamlLine := mjoin (normalizeLine <$> l).

(** [indexUnquoted] with what is before and after. *)
Fixpoint cutUnquoted (target : ascii) (q : bool * bool) (s : string) : option (string * string) :=
  match s with
  | "" => None
  | String c r =>
      if bool_decide (c = target) && unquoted q then Some (""%string, r)
      else match cutUnquoted target (quotes c q) r with Some (a, b) => Some (String c a, b) | None => None end
  end%string.
Definition isMapEntry (s : string) : bool := match cutUnquoted ":" (false, false) s with Some _ => true | None => false end.
(** The key, and the value unless a nested block follows. *)
Definition splitMapEntry (s : string) : result string (string * option string) :=
  match cutUnquoted ":" (false, false) s with
  | None => Err ("yaml: expected mapping entry, got " +:+ strs.q s)
  | Some (k, v) =>
      let rest := strs.TrimSpace (stripComment (strs.TrimSpace v)) in
      Ok (strs.TrimSpace k, if bool_decide (rest = "") then None else Some rest)
  end.

(** [splitFlow]: top-level commas. *)
Fixpoint splitFlow (depth : Z) (q : bool * bool) (s : string) : list string :=
  match s with
  | EmptyString => [EmptyString]
  | String c r =>
      if bool_decide (c = ","%char) && (depth =? 0)%Z && unquoted q then EmptyString :: splitFlow depth q r
      else
        let depth := if negb (unquoted q) then depth
                     else if bool_decide (c = "["%char ∨ c = "{"%char) then (depth + 1)%Z
                     else if bool_decide (c = "]"%char ∨ c = "}"%char) then (depth - 1)%Z else depth in
        match splitFlow depth (quotes c q) r with p :: ps => String c p :: ps | [] => [String c EmptyString] end
  end.
Fixpoint unsnoc (c : ascii) (s : string) : string * ascii :=
  match s with EmptyString => (EmptyString, c) | String d r => let '(i, l) := unsnoc d r in (String c i, l) end.
(** What is between [a] at the start and [b] at the end. *)
Definition enclosed (a b : ascii) (s : string) : option string :=
  match s with
  | String c (String d r) => let '(i, l) := unsnoc d r in if bool_decide (c = a ∧ l = b) then Some i else None
  | _ => None
  end.
Definition flowBody (s : string) : option string := enclosed "[" "]" s.
Definition unquote (s : string) : option string :=
  match enclosed dquote dquote s with Some i => Some i | None => enclosed "'" "'" s end.
Definition plainScalar (s : string) : yaml :=
  let low := strs.ToLower s in
  if bool_decide (low ∈ ["true"; "yes"; "on"]) then YBool true
  else if bool_decide (low ∈ ["false"; "no"; "off"]) then YBool false
  else if bool_decide (low ∈ ["null"; "~"; ""]) then YStr ""
  else match Atoi s with Some n => YInt n | None => YStr s end.
Fixpoint scalar (n : nat) (s : string) : yaml :=
  match n with
  | O => YStr s
  | S n =>
      let s := strs.TrimSpace s in
      match flowBody s with
      | Some body => YSeq (if bool_decide (strs.TrimSpace body = "") then [] else scalar n <$> splitFlow 0 (false, false) body)
      | None => match unquote s with Some i => YStr i | None => plainScalar s end
      end
  end.
(** Flow sequences nest at most as deep as the text is long. *)
Definition parseScalar (s : string) : yaml := scalar (S (String.length s)) s.

(** *** The parser *)

Definition isItem (c : string) : bool := strs.HasPrefix c "- " || bool_decide (c = "-").
(** The further "key: value" lines of an item; a key without a value is dropped. *)
Fixpoint absorb (itemIndent : nat) (m : list (string * yaml)) (ls : list yamlLine) : result string (list (string * yaml) * list yamlLine) :=
  match ls with
  | [] => Ok (m, [])
  | ln :: rest =>
      if bool_decide (indent ln = itemIndent) then
        match splitMapEntry (content ln) with
        | Err e => Err e
        | Ok (k, Some v) => absorb itemIndent (setKey k (parseScalar v) m) rest
        | Ok (_, None) => absorb itemIndent m rest
        end
      else Ok (m, ls)
  end.
(** What a parser answers: nothing when the fuel is out, an error, or a value and the
    lines that are left. *)
Definition parsed (A : Type) : Type := option (result string (A * list yamlLine)).
Definition andThen {A B} (p : parsed A) (k : A → list yamlLine → parsed B) : parsed B :=
  match p with None => None | Some (Err e) => Some (Err e) | Some (Ok (a, ls)) => k a ls end.
Definition deeper (ind : nat) (ls : list yamlLine) : option nat :=
  match ls with next :: _ => if ind <? indent next then Some (indent next) else None | [] => None end.
Definition itemText (ln : yamlLine) : string := strs.TrimSpace (text.TrimPrefix (content ln) "-").
Fixpoint parseBlock (n : nat) (ind : nat) (ls : list yamlLine) {struct n} : parsed yaml :=
  match n, ls with
  | O, _ => None
  | S n, [] => Some (Ok (YNil, []))
  | S n, first :: _ =>
      if indent first <? ind then Some (Ok (YNil, ls))
      else if isItem (content first) then parseSeq n (indent first) [] ls
      else parseMap n (indent first) [] ls
  end
with parseMap (n : nat) (ind : nat) (m : list (string * yaml)) (ls : list yamlLine) {struct n} : parsed yaml :=
  match n, ls with
  | O, _ => None
  | S n, [] => Some (Ok (YMap m, []))
  | S n, ln :: rest =>
      if indent ln <? ind then Some (Ok (YMap m, ls))
      else if ind <? indent ln then Some (Err ("yaml: unexpected indentation at " +:+ strs.q (content ln)))
      else
        match splitMapEntry (content ln) with
        | Err e => Some (Err e)
        | Ok (k, Some v) => parseMap n ind (setKey k (parseScalar v) m) rest
        | Ok (k, None) =>
            match deeper ind rest with
            | Some i => andThen (parseBlock n i rest) (λ child rest, parseMap n ind (setKey k child m) rest)
            | None => parseMap n ind (setKey k YNil m) rest
            end
        end
  end
with parseSeq (n : nat) (ind : nat) (acc : list yaml) (ls : list yamlLine) {struct n} : parsed yaml :=
  match n, ls with
  | O, _ => None
  | S n, [] => Some (Ok (YSeq acc, []))
  | S n, ln :: rest =>
      if negb (bool_decide (indent ln = ind)) || negb (isItem (content ln)) then Some (Ok (YSeq acc, ls))
      else
        let item := itemText ln in
        if bool_decide (item = "") then
          match deeper ind rest with
          | Some i => andThen (parseBlock n i rest) (λ child rest, parseSeq n ind (acc ++ [child]) rest)
          | None => parseSeq n ind acc rest
          end
        else
          match cutUnquoted ":" (false, false) item, splitMapEntry item with
          | Some _, Ok (k, v) =>
              let goOn m rest :=
                match absorb (ind + 2) m rest with
                | Err e => Some (Err e)
                | Ok (m, rest) => parseSeq n ind (acc ++ [YMap m]) rest
                end in
              match v, deeper ind rest with
              | Some v, _ => goOn [(k, parseScalar v)] rest
              | None, Some i => andThen (parseBlock n i rest) (λ child rest, goOn [(k, child)] rest)
              | None, None => goOn [] rest
              end
          | _, _ => parseSeq n ind (acc ++ [parseScalar item]) rest
          end
  end.
Definition parseYAML (s : string) : parsed yaml :=
  let ls := normalizeYAMLLines (text.SplitByte strs.nl s) in parseBlock (2 * length ls + 2) 0 ls.

(** *** Decoding *)

(** [fmt.Sprint]. *)
Fixpoint insertKey (x : string * string) (l : list (string * string)) : list (string * string) :=
  match l with [] => [x] | y :: l' => if bool_decide (String.le x.1 y.1) then x :: l else y :: insertKey x l' end.
Fixpoint Sprint (v : yaml) : string :=
  match v with
  | YNil => "<nil>"
  | YStr s => s
  | YBool b => if b then "true" else "false"
  | YInt n => pretty n
  | YSeq l => "[" +:+ strs.Join (Sprint <$> l) " " +:+ "]"
  | YMap m => "map[" +:+ strs.Join ((λ kv, kv.1 +:+ ":" +:+ kv.2) <$> foldr insertKey [] ((λ kv, (kv.1, Sprint kv.2)) <$> m)) " " +:+ "]"
  end.
(** [%T]. *)
Definition typeName (v : yaml) : string :=
  match v with
  | YNil => "<nil>" | YStr _ => "string" | YBool _ => "bool" | YInt _ => "int"
  | YSeq _ => "[]interface {}" | YMap _ => "map[string]interface {}"
  end.
Definition getString (m : list (string * yaml)) (k : string) : string := match getKey m k with Some v => Sprint v | None => "" end.
Definition ParseBool (s : string) : bool := bool_decide (s ∈ ["1"; "t"; "T"; "true"; "TRUE"; "True"]).
Definition getBool (m : list (string * yaml)) (k : string) : bool :=
  match getKey m k with Some (YBool b) => b | Some (YStr s) => ParseBool s | _ => false end.

Record Manifest := mkManifest {
  APIVersion : string; Kind : string; M_ID : string; M_Detect : list string; M_Run : list string;
  M_Capabilities : AgentCapabilities; Scenario : string }.
Definition decodeCommand (v : yaml) : result string (list string) :=
  match v with
  | YMap m =>
      match getKey m "command" with
      | None => Err ("missing " +:+ strs.q "command")
      | Some (YSeq l) => Ok (Sprint <$> l)
      | Some (YStr s) => Ok [s]
      | Some v => Err ("command must be a list, got " +:+ typeName v)
      end
  | _ => Err ("must be a mapping, got " +:+ typeName v)
  end.
Definition capsOf (m : list (string * yaml)) : AgentCapabilities :=
  let b := getBool m in
  mkCaps (b "interactive_mode") (b "headless_mode") (b "streaming_events") (b "structured_output") (b "image_input") (b "session_resume")
    (b "live_user_messages") (b "model_selection") (b "usage_reporting") (b "cached_usage_reporting") (b "tool_permissions")
    (b "native_sandbox") (b "mcp") (b "acp").
Definition decodeCaps (v : yaml) : result string AgentCapabilities :=
  match v with YMap m => Ok (capsOf m) | _ => Err ("must be a mapping, got " +:+ typeName v) end.
(** An optional part of the manifest, with where an error is. *)
Definition decodePart {A} (name : string) (zero : A) (decode : yaml → result string A) (m : list (string * yaml)) : result string A :=
  match getKey m name with
  | None => Ok zero
  | Some v => match decode v with Ok a => Ok a | Err e => Err (name +:+ ": " +:+ e) end
  end.
Definition decodeManifest (m : list (string * yaml)) : result string Manifest :=
  detect ← decodePart "detect" [] decodeCommand m;
  run ← decodePart "run" [] decodeCommand m;
  caps ← decodePart "capabilities" noCaps decodeCaps m;
  Ok (mkManifest (getString m "api_version") (getString m "kind") (getString m "id") detect run caps (getString m "scenario")).
Definition ParseManifest (data : string) : option (result string Manifest) :=
  match parseYAML data with
  | None => None
  | Some (Err e) => Some (Err e)
  | Some (Ok (YMap m, _)) =>
      Some (man ← decodeManifest m;
            if bool_decide (M_ID man = "") then Err ("declarative: manifest missing required field " +:+ strs.q "id") else Ok man)
  | Some (Ok (v, _)) => Some (Err ("declarative: manifest must be a YAML mapping, got " +:+ typeName v))
  end.

(** *** The parser answers *)

(** A parser that answers leaves no more lines than it was given. *)
Definition answers {A} (ls : list yamlLine) (p : parsed A) : Prop :=
  match p with None => False | Some (Err _) => True | Some (Ok (_, rest)) => length rest ≤ length ls end.
Lemma answers_more {A} ls ls' (p : parsed A) : length ls ≤ length ls' → answers ls p → answers ls' p.
Proof. destruct p as [[[a rest]|e]|]; cbn; [lia|done..]. Qed.
Lemma answers_andThen {A B} ls (p : parsed A) (k : A → list yamlLine → parsed B) :
  answers ls p → (∀ a rest, length rest ≤ length ls → answers ls (k a rest)) → answers ls (andThen p k).
Proof. destruct p as [[[a rest]|e]|]; cbn; auto. Qed.
Lemma absorb_shorter i ls : ∀ m m' rest, absorb i m ls = Ok (m', rest) → length rest ≤ length ls.
Proof.
  induction ls as [|ln ls IH]; intros m m' rest; cbn; [by intros [= _ <-]|]. case_bool_decide; [|by intros [= _ <-]].
  destruct (splitMapEntry _) as [[k [v|]]|e]; [| |done]; intros Ha; apply IH in Ha; lia.
Qed.
Lemma deeper_nonempty i ls j : deeper i ls = Some j → 0 < length ls.
Proof. destruct ls; cbn; [done|lia]. Qed.
(** Every recursive call is on fewer lines, or turns a block into a map or a
    sequence of the same lines. *)
Lemma parse_answers n : ∀ ls ind,
  (2 * length ls + 2 ≤ n → answers ls (parseBlock n ind ls)) ∧
  (2 * length ls + 1 ≤ n → (∀ m, answers ls (parseMap n ind m ls)) ∧ (∀ acc, answers ls (parseSeq n ind acc ls))).
Proof.
  induction n as [|n IH]; intros ls ind; [split; lia|].
  assert (∀ rest i, 2 * length rest + 2 ≤ n → answers rest (parseBlock n i rest)) as HB by (intros; by apply IH).
  assert (∀ rest i, 2 * length rest + 1 ≤ n → ∀ m, answers rest (parseMap n i m rest)) as HM by (intros; by apply IH).
  assert (∀ rest i, 2 * length rest + 1 ≤ n → ∀ acc, answers rest (parseSeq n i acc rest)) as HS by (intros; by apply IH).
  split; [intros Hn|intros Hn; split; intros x].
  - destruct ls as [|first ls]; cbn [parseBlock]; [cbn; lia|]. destruct (indent first <? ind); [cbn; lia|].
    destruct (isItem _); [apply HS|apply HM]; cbn in *; lia.
  - destruct ls as [|ln rest]; cbn [parseMap]; [cbn; lia|]. cbn [length] in Hn. destruct (indent ln <? ind); [cbn; lia|].
    destruct (ind <? indent ln); [done|].
    assert (∀ r m, length r ≤ length rest → answers (ln :: rest) (parseMap n ind m r)) as Hgo.
    { intros r m Hr. apply (answers_more r); [cbn; lia|]. apply HM. lia. }
    destruct (splitMapEntry _) as [[k [v|]]|e]; [by apply Hgo| |done]. destruct (deeper ind rest) as [i|]; [|by apply Hgo].
    apply (answers_more rest); [cbn; lia|]. apply answers_andThen; [apply HB; lia|]. intros child r Hr. apply (answers_more r); [lia|]. apply HM. lia.
  - destruct ls as [|ln rest]; cbn [parseSeq]; [cbn; lia|]. cbn [length] in Hn. destruct (_ || _); [cbn; lia|].
    assert (∀ r acc, length r ≤ length rest → answers (ln :: rest) (parseSeq n ind acc r)) as Hgo.
    { intros r acc Hr. apply (answers_more r); [cbn; lia|]. apply HS. lia. }
    assert (∀ m r, length r ≤ length rest → answers (ln :: rest)
      match absorb (ind + 2) m r with Err e => Some (Err e) | Ok (m, r) => parseSeq n ind (x ++ [YMap m]) r end) as Habs.
    { intros m r Hr. destruct (absorb (ind + 2) m r) as [[m' r']|e] eqn:Ha; [|done]. apply Hgo. apply absorb_shorter in Ha. lia. }
    assert (∀ i (k : yaml → list yamlLine → parsed yaml), (∀ child r, length r ≤ length rest → answers (ln :: rest) (k child r)) →
      answers (ln :: rest) (andThen (parseBlock n i rest) k)) as Hthen.
    { intros i k Hk. pose proof (HB rest i ltac:(lia)) as Hb. destruct (parseBlock n i rest) as [[[a r]|e]|]; cbn in *; auto. }
    case_bool_decide; [destruct (deeper ind rest); auto|].
    destruct (cutUnquoted _ _ _); [|auto]. destruct (splitMapEntry _) as [[k v]|]; [|auto].
    destruct v as [v|]; [auto|]. destruct (deeper ind rest); auto.
Qed.
(** The parser always answers: the fuel is enough for every text. *)
Theorem parseYAML_answers s : ∃ r, parseYAML s = Some r.
Proof.
  unfold parseYAML. set (ls := normalizeYAMLLines _).
  pose proof (proj1 (parse_answers (2 * length ls + 2) ls 0) ltac:(lia)) as H. revert H. destruct (parseBlock _ 0 ls) as [r|]; [by exists r|done].
Qed.
Theorem ParseManifest_answers data : ∃ r, ParseManifest data = Some r.
Proof.
  unfold ParseManifest. destruct (parseYAML_answers data) as [r ->]. destruct r as [[v rest]|e]; [|eauto]. destruct v; eauto.
Qed.
(** A manifest that is accepted has an id. *)
Lemma ParseManifest_id data man : ParseManifest data = Some (Ok man) → M_ID man ≠ "".
Proof.
  unfold ParseManifest. destruct (parseYAML data) as [[[v rest]|e]|]; [|done..]. destruct v as [| | | | |m]; try done.
  destruct (decodeManifest m) as [man'|e]; cbn; [|done]. case_bool_decide; [done|]. by intros [= <-].
Qed.

(** *** Flow sequences are parsed to the end *)

Lemma rev_acc_length s : ∀ acc, String.length (strs.rev_acc s acc) = String.length s + String.length acc.
Proof. induction s as [|c s IH]; intros acc; cbn; [done|]. rewrite IH. cbn. lia. Qed.
Lemma strip_once_length runes s r : strs.strip_once runes s = Some r → String.length r ≤ String.length s.
Proof.
  induction runes as [|x runes IH]; cbn; [done|]. destruct (strs.HasPrefix s x); [|done]. intros [= <-]. rewrite length_drop_bytes. lia.
Qed.
Lemma trim_left_length n runes : ∀ s, String.length (strs.trim_left n runes s) ≤ String.length s.
Proof.
  induction n as [|n IH]; intros s; cbn; [done|]. destruct (strs.strip_once runes s) as [r|] eqn:Hs; [|done].
  apply strip_once_length in Hs. specialize (IH r). lia.
Qed.
Lemma TrimSpace_length s : String.length (strs.TrimSpace s) ≤ String.length s.
Proof.
  unfold strs.TrimSpace, strs.rev. rewrite rev_acc_length. cbn. etrans; [rewrite Nat.add_0_r; apply trim_left_length|].
  rewrite rev_acc_length. cbn. rewrite Nat.add_0_r. apply trim_left_length.
Qed.
Lemma unsnoc_length c s : String.length (unsnoc c s).1 = String.length s.
Proof. revert c. induction s as [|d s IH]; intros c; cbn; [done|]. specialize (IH d). destruct (unsnoc d s). cbn in *. lia. Qed.
Lemma enclosed_length a b s i : enclosed a b s = Some i → String.length i < String.length s.
Proof.
  destruct s as [|c [|d r]]; cbn; [done..|]. pose proof (unsnoc_length d r) as H. destruct (unsnoc d r) as [i' l]. case_bool_decide; [|done].
  intros [= <-]. cbn in H. lia.
Qed.
Lemma splitFlow_length s : ∀ depth q p, p ∈ splitFlow depth q s → String.length p ≤ String.length s.
Proof.
  induction s as [|c s IH]; intros depth q p; cbn [splitFlow].
  - intros ->%list_elem_of_singleton. done.
  - case_match; cbn zeta.
    + intros [->|Hp]%elem_of_cons; [cbn; lia|]. apply IH in Hp. cbn. lia.
    + destruct (splitFlow _ _ s) as [|p0 ps] eqn:Hs; [intros ->%list_elem_of_singleton; cbn; lia|].
      intros [->|Hp]%elem_of_cons; cbn.
      * pose proof (IH _ _ p0 ltac:(rewrite Hs; by left)). lia.
      * pose proof (IH _ _ p ltac:(rewrite Hs; by right)). lia.
Qed.
Lemma scalar_enough n : ∀ m s, String.length s < n → String.length s < m → scalar n s = scalar m s.
Proof.
  induction n as [|n IH]; intros [|m] s Hn Hm; [lia..|]. cbn [scalar]. destruct (flowBody (strs.TrimSpace s)) as [body|] eqn:Hb; [|done].
  apply enclosed_length in Hb. pose proof (TrimSpace_length s). f_equal. case_bool_decide; [done|].
  apply list_fmap_ext. intros i p Hp%list_elem_of_lookup_2. apply splitFlow_length in Hp. apply IH; lia.
Qed.
(** So a flow sequence is the list of the scalars between its commas. *)
Lemma parseScalar_flow s body : flowBody (strs.TrimSpace s) = Some body → strs.TrimSpace body ≠ "" →
  parseScalar s = YSeq (parseScalar <$> splitFlow 0 (false, false) body).
Proof.
  intros Hb He. unfold parseScalar at 1. cbn [scalar]. rewrite Hb, bool_decide_false by done. f_equal.
  apply list_fmap_ext. intros i p Hp%list_elem_of_lookup_2. apply splitFlow_length in Hp. apply enclosed_length in Hb.
  pose proof (TrimSpace_length s). apply scalar_enough; lia.
Qed.

(** ** adapter.go: the command *)

Record templateVars := mkVars { workspace : string; model : string; promptFile : string; runID : string; engine : string }.
Definition repl (tv : templateVars) (p : string) : string :=
  if bool_decide (p = "workspace") then workspace tv
  else if bool_decide (p = "model") then model tv
  else if bool_decide (p = "prompt_file") then promptFile tv
  else if bool_decide (p = "run_id") then runID tv
  else if bool_decide (p = "engine") then engine tv else "".
(** [skip] bytes of a placeholder are still to be passed over. *)
Fixpoint substituteFrom (tv : templateVars) (skip : nat) (s : string) : string :=
  match s with
  | EmptyString => EmptyString
  | String c r =>
      match skip with
      | S skip => substituteFrom tv skip r
      | O =>
          if strs.HasPrefix s "{{" then
            match strs.Cut (strs.drop_bytes 2 s) "}}" with
            | None => EmptyString
            | Some (key, _) => repl tv (strs.TrimSpace key) +:+ substituteFrom tv (String.length key + 3) r
            end
          else String c (substituteFrom tv 0 r)
      end
  end.
Definition substitute (tv : templateVars) (s : string) : string :=
  let out := substituteFrom tv 0 s in if bool_decide (out = "") then s else out.
Definition substituteAll (argv : list string) (tv : templateVars) : list string := substitute tv <$> argv.

(** Text without a placeholder is passed as it is. *)
Lemma substitute_plain tv s : strs.Contains s "{{" = false → substitute tv s = s.
Proof.
  intros Hs. unfold substitute. assert (substituteFrom tv 0 s = s) as ->; [|by case_bool_decide].
  induction s as [|c r IH]; [done|]. cbn [strs.Contains] in Hs. apply orb_false_elim in Hs as [Hp Hr].
  cbn [substituteFrom]. rewrite Hp. f_equal. by apply IH.
Qed.

(** [baseKeys]: the keys that are kept, in the order the map is walked in. *)
Section env.
  Context (lookupEnv : string → option string) (baseKeys : list string).
Definition fromEnv (k : string) : list string := match lookupEnv k with Some v => [k +:+ "=" +:+ v] | None => [] end.
Definition buildEnv (allowlist : list string) : list string :=
  (mjoin (fromEnv <$> baseKeys) ++ mjoin ((λ kv, match text.cutByte kv "="%char with Some _ => [kv] | None => fromEnv kv end) <$> allowlist))%list.
End env.
Definition keep : list string := ["PATH"; "HOME"; "USER"; "LANG"; "LC_ALL"; "TERM"].

(** *** Detection *)

Section detect.
  (** [exec.LookPath], and the combined output of a command that ran, or its error. *)
  Context (lookPath : string → result string string) (output : list string → result string string).
Definition Detect (man : Manifest) : DetectionResult :=
  match M_Detect man with
  | [] => mkDetectionResult true "" "" "no detect command; assumed installed"
  | name :: args =>
      match lookPath name with
      | Err _ => mkDetectionResult false "" "" ("not found: " +:+ name)
      | Ok resolved =>
          match output (name :: args) with
          | Err e => mkDetectionResult false resolved "" ("detect failed: " +:+ e)
          | Ok out => mkDetectionResult true resolved (strs.TrimSpace out) "detect ok"
          end
      end
  end.
Definition Health (man : Manifest) : HealthResult :=
  let d := Detect man in mkHealthResult (if Installed d then HealthOK else HealthDown) (Detail d).
End detect.
Definition Version (man : Manifest) : VersionResult := mkVersionResult "declarative-v1" (M_ID man) ProtocolVersion "".
Definition ListModels (man : Manifest) : list ModelDescriptor :=
  [mkModelDescriptor (M_ID man +:+ "/default") (M_ID man) ModelKindCoding "" 0 0 false false].
Definition InspectQuota : QuotaSnapshot := mkQuotaSnapshot QuotaConfUnknown QuotaStateUnknown "declarative adapters report no quota".

(** *** Start *)

Record Request := mkRequest {
  Req_RunID : string; Req_Model : string; Req_Workspace : string; Req_PromptFile : string; Req_AllowlistEnv : list string;
  Req_Timeout : Z; Req_SessionID : string }.
Record RunHandle := mkHandle { H_RunID : string; H_Engine : string; H_Model : string; H_SessionID : string }.
Record Launch := mkLaunch { L_argv : list string; L_dir : string; L_env : list string }.
Definition resumeRequest (req : Request) : Request :=
  mkRequest (Req_RunID req) (Req_Model req) (Req_Workspace req) "" (Req_AllowlistEnv req) (Req_Timeout req) (Req_SessionID req).
Section start.
  (** Starting the process: an error or none. *)
  Context (lookupEnv : string → option string) (baseKeys : list string) (spawn : Launch → option string).
Definition run (man : Manifest) (req : Request) : result string (Launch * RunHandle) :=
  match M_Run man with
  | [] => Err "declarative: manifest has no run.command"
  | cmdLine =>
      let l := mkLaunch (substituteAll cmdLine (mkVars (Req_Workspace req) (Req_Model req) (Req_PromptFile req) (Req_RunID req) (M_ID man)))
                 (Req_Workspace req) (buildEnv lookupEnv baseKeys (Req_AllowlistEnv req)) in
      match spawn l with
      | Some e => Err ("declarative: start agent: " +:+ e)
      | None => Ok (l, mkHandle (if bool_decide (Req_RunID req = "") then "declarative-run" else Req_RunID req) (M_ID man) (Req_Model req) (Req_SessionID req))
      end
  end.
Definition Start (man : Manifest) (req : Request) : result string (Launch * RunHandle) := run man req.
Definition Resume (man : Manifest) (req : Request) : result string (Launch * RunHandle) := run man (resumeRequest req).
End start.
Definition ClassifyFailure : Z → list NormalizedEvent → string → agent.FailureClassification := DefaultClassify.

(** *** The supervised run *)

(** [Cancel]: it ends the context, then kills the group.  There is no timer. *)
Definition Cancel : list live.CallerAct := [live.CancelCtx agent.Canceled; live.KillGroup].
Definition timer : list live.CallerAct := [].

Section supervise.
Import live. Open Scope prog_scope.
  Context (jsonError : string → string → string).
  (** The run's id and the manifest's. *)
  Context (runID engine : string).

Definition terminalCancel : NormalizedEvent :=
  set_Failure (Some (agent.mkFailurePayload agent.FailureCancelled "cancelled by caller" 0)) (set_ids runID engine "" (event agent.EventRunCancelled)).
Definition synthesized (exitCode : Z) (stderr : string) : NormalizedEvent :=
  let fc := DefaultClassify exitCode [] stderr in
  if (exitCode =? 0)%Z then set_ids runID engine "" (event agent.EventRunCompleted)
  else set_Failure (Some (agent.mkFailurePayload (agent.Class_ fc) (agent.Reason fc) exitCode)) (set_ids runID engine "" (event agent.EventRunFailed)).
Definition orElse (s d : string) : string := if bool_decide (s = "") then d else s.
Definition fill (e : NormalizedEvent) : NormalizedEvent := set_ids (orElse (RunID e) runID) (orElse (Engine e) engine) (Model e) e.

(** One turn of the loop: go on, leave it, or return from the run. *)
Definition selectOnce (_ : ()) : prog World (() + option bool) :=
  s ← selectCtx;
  match s with
  | Received (mkChunk None false) => Ret (inr (Some false))
  | Received (mkChunk None true) => Ret (inl ())
  | Received (mkChunk (Some l) _) =>
      match ParseEventLine jsonError l with
      | (ev, Some _) =>
          _ ← save (Bytes l);
          _ ← match ev with Some e => OnEvent e | None => Ret true end;
          Ret (inl ())
      | (None, None) => Ret (inl ())
      | (Some e, None) =>
          ok ← OnEvent (fill e);
          if ok : bool then Ret (if agent.IsTerminal (Type_ (fill e)) then inr (Some true) else inl ())
          else _ ← kill; _ ← readerDone; Ret (inr None)
      end
  | _ =>
      _ ← kill;
      _ ← readerDone;
      _ ← OnEvent terminalCancel;
      Ret (inr None)
  end.
Definition afterStream (sawTerminal : bool) : prog World () :=
  r ← wait;
  if sawTerminal then Ret () else _ ← OnEvent (synthesized r.1 r.2); Ret ().
Definition superviseBody : prog World () :=
  _ ← goReader;
  r ← Loop selectOnce ();
  match r with Some sawTerminal => afterStream sawTerminal | None => Ret () end.
Definition supervise : prog World () := _ ← superviseBody; unregister.

(** The terminal event is an event of a line the run has read, or was made because the
    context ended, or from the exit of the process. *)
Definition justified (w : World) (t : NormalizedEvent) : Prop :=
  (∃ l b e, mkChunk (Some l) b ∈ got w ∧ ParseEventLine jsonError l = (Some e, None) ∧ t = fill e) ∨
  (t = terminalCancel ∧ ctx w ≠ None) ∨
  (∃ x, exit_ w = Some x ∧ copying w = false ∧ t = synthesized (exitCode x) (stderr w)).
End supervise.

Section safety.
Import live. Open Scope prog_scope.
  Context (jsonError : string → string → string) (runID engine : string).
Let reason (w : World) : NormalizedEvent → Prop := justified jsonError runID engine w.

Lemma error_event_calm l e err : ParseEventLine jsonError l = (Some e, Some err) → terminal e = false.
Proof.
  intros H. pose proof (ParseEventLine_event jsonError l) as Hl. rewrite H in Hl. destruct Hl as (_ & code & msg & ->). done.
Qed.
Lemma decl_justified_near m w w' t : near m w w' → reason w t → reason w' t.
Proof.
  intros Hn [(l & b & e & Hl & He & ->)|[[-> H]|(x & Hx & Hc & ->)]]; unfold reason, justified.
  - left. exists l, b, e. split; [by apply (near_got m w)|done].
  - right; left. split; [done|]. by rewrite (n_ctx _ _ _ Hn).
  - right; right. exists x. pose proof (n_exit _ _ _ Hn _ Hx). destruct (n_err _ _ _ Hn Hc) as [Hc' ->]. done.
Qed.
Lemma ended_near w w' L : near ByCtx w w' → ended (reason w) L → ended (reason w') L.
Proof. intros Hn (pre & e & ok & -> & Hpre & He). exists pre, e, ok. pose proof (decl_justified_near ByCtx w w' e Hn). naive_solver. Qed.
Definition finished (w : World) : Prop := ended (reason w) (given w).
Lemma decl_finished_rely w w' : rely ByCtx w w' → finished w → finished w'.
Proof.
  intros Hr Hf. pose proof (r_view _ _ _ Hr) as Hv. injection Hv as Hg _ _ _. unfold finished. rewrite Hg.
  by apply (ended_near w), Hf; apply Hr.
Qed.
(** Where the supervisor may wait: for a chunk or the context; for the reader, having
killed the process; for the process and whoever holds its standard error. *)
Definition Waits (w : World) : Prop :=
  (eofSeen w = false ∧ reader w ≠ NotStarted ∧ ctx w = None ∧ chan w = None) ∨
  (reader w ≠ NotStarted ∧ reader w ≠ Finished ∧ killed w = true ∧ (ctx w ≠ None ∨ refused w)) ∨
  exit_ w = None ∨ copying w = true.
Let run {A} : prog World A → (A → World → Prop) → World → Prop := wp (inv ByCtx) (rely ByCtx) Waits.

Definition Streaming (w : World) : Prop := ∃ L, calm L ∧ knows ByCtx L false w.
Definition Streamed (r : option bool) (w : World) : Prop :=
  match r with
  | None => finished w
  | Some true => ∃ L, knows ByCtx L false w ∧ ended (reason w) L
  | Some false => ∃ L, knows ByCtx L true w ∧ calm L
  end.
Lemma decl_Streaming_rely w w' : rely ByCtx w w' → Streaming w → Streaming w'.
Proof. intros Hr (L & Hc & Hk). exists L. split; [done|]. by apply (knows_rely _ _ _ w). Qed.
Lemma decl_Streamed_rely r w w' : rely ByCtx w w' → Streamed r w → Streamed r w'.
Proof.
  intros Hr. destruct r as [[]|]; cbn.
  - intros (L & Hk & Hc). exists L. split; [by apply (knows_rely _ _ _ w)|]. apply (ended_near w); [apply Hr|done].
  - intros (L & Hk & Ho). exists L. split; [by apply (knows_rely _ _ _ w)|done].
  - by apply decl_finished_rely.
Qed.

Lemma run_cancelled (Q : () + option bool → World → Prop) w : Streaming w → ctx w ≠ None →
  (∀ w', inv ByCtx w' → finished w' → Q (inr None) w') →
  run (_ ← kill; _ ← readerDone; _ ← OnEvent (terminalCancel runID engine); Ret (inr None)) Q w.
Proof.
  intros (L & Ho & [Hg He Hs Ht]) Hx HQ.
  apply know_bind, wp_kill. intros w1 Hi1 Hn1 Hv1 Hkd. injection Hv1 as Hg1 _ He1 _.
  assert (∀ w2, near ByCtx w1 w2 → ctx w2 ≠ None) as Hx2.
  { intros w2 Hn2. rewrite (n_ctx _ _ _ Hn2), (n_ctx _ _ _ Hn1); [done..|]. by rewrite (n_ctx _ _ _ Hn1). }
  assert (knows ByCtx L false w1) as Hk1.
  { split; [congruence|congruence|by apply (n_started _ _ _ Hn1)|]. intros _. by apply Hx2. }
  apply know_bind, (know_readerDone _ _ _ L false); [done|..].
  - intros w2 Hi2 Hn2 Hk2 Hf2. right; left. split; [apply Hk2|]. split; [done|]. split; [by apply (n_killed _ _ _ Hn2)|]. left. by apply Hx2.
  - intros w2 Hi2 Hn2 Hk2 _. apply know_bind, (know_OnEvent _ _ _ _ L false); [done|]. intros ok w3 Hi3 Hn3 Hk3.
    apply know_ret. intros w4 Hr4 Hi4. apply HQ; [done|]. apply (decl_finished_rely w3); [done|]. unfold finished. rewrite (k_given _ _ _ _ Hk3).
    apply ended_terminal; [done..|]. right; left. split; [done|]. apply Hx2. by etrans.
Qed.
Lemma run_refused (Q : () + option bool → World → Prop) L e w : given w = L ++ [(e, false)] → reader w ≠ NotStarted →
  (∀ w', inv ByCtx w' → near ByCtx w w' → given w' = given w → Q (inr None) w') → run (_ ← kill; _ ← readerDone; Ret (inr None)) Q w.
Proof.
  intros Hg Hs HQ. apply know_bind, wp_kill. intros w1 Hi1 Hn1 Hv1 Hkd. injection Hv1 as Hg1 _ _ _.
  apply know_bind, wp_readerDone.
  - intros w2 Hr2 Hi2 Hf2. right; left. pose proof (r_near _ _ _ Hr2) as Hn2. pose proof (r_view _ _ _ Hr2) as Hv2. injection Hv2 as Hg2 _ _ _.
    split; [by apply (n_started _ _ _ Hn2), (n_started _ _ _ Hn1)|]. split; [done|]. split; [by apply (n_killed _ _ _ Hn2)|].
    right. exists L, e. congruence.
  - intros w2 Hi2 Hn2 Ht2 Hv2 _. injection Hv2 as Hg2 _ _ _. apply know_ret. intros w3 Hr3 Hi3.
    pose proof (r_view _ _ _ Hr3) as Hv3. injection Hv3 as Hg3 _ _ _. apply HQ; [done| |congruence].
    etrans; [exact Hn1|]. etrans; [exact Hn2|apply Hr3].
Qed.

Lemma run_parsed l b w : inv ByCtx w → Streaming w → mkChunk (Some l) b ∈ got w →
  run (match ParseEventLine jsonError l with
       | (ev, Some _) => _ ← save (Bytes l); _ ← match ev with Some e => OnEvent e | None => Ret true end; Ret (inl ())
       | (None, None) => Ret (inl ())
       | (Some e, None) =>
           ok ← OnEvent (fill runID engine e);
           if ok : bool then Ret (if agent.IsTerminal (Type_ (fill runID engine e)) then inr (Some true) else inl ())
           else _ ← kill; _ ← readerDone; Ret (inr None)
       end)
    (λ r w', match r with inl _ => Streaming w' | inr a => Streamed a w' end) w.
Proof.
  intros Hi (L & Ho & Hk) Hgot. pose proof (error_event_calm l) as Hcalm.
  destruct (ParseEventLine jsonError l) as [[e|] [err|]] eqn:Hp.
  - apply know_bind, (know_save _ _ _ _ L false); [done|]. intros w1 Hi1 _ Hk1. apply know_bind, (know_OnEvent _ _ _ _ L false); [done|].
    intros ok w2 Hi2 _ Hk2. apply know_ret. intros w3 Hr3 _. apply (decl_Streaming_rely w2); [done|]. eexists. split; [|exact Hk2].
    apply calm_snoc; [done|]. by apply (Hcalm e err).
  - apply know_bind, (know_OnEvent _ _ _ _ L false); [done|]. intros ok w1 Hi1 Hn1 Hk1. destruct ok.
    + apply know_ret. intros w2 Hr2 _. destruct (agent.IsTerminal (Type_ (fill runID engine e))) eqn:Ht.
      * apply (decl_Streamed_rely (Some true) w1); [done|]. eexists. split; [exact Hk1|]. apply ended_terminal; [done..|].
        left. exists l, b, e. split; [by apply (near_got ByCtx w)|done].
      * apply (decl_Streaming_rely w1); [done|]. eexists. split; [|exact Hk1]. by apply calm_snoc.
    + apply (run_refused _ L (fill runID engine e)); [apply Hk1|apply Hk1|]. intros w2 _ Hn2 Hg2. cbn. unfold finished. rewrite Hg2, (k_given _ _ _ _ Hk1).
      exists L, (fill runID engine e), false. split; [done|]. split; [done|]. destruct (terminal (fill runID engine e)); [left|by right].
      split; [done|]. left. exists l, b, e. split; [by apply (near_got ByCtx w1), (near_got ByCtx w)|done].
  - apply know_bind, (know_save _ _ _ _ L false); [done|]. intros w1 Hi1 _ Hk1. apply know_bind, know_ret. intros w2 Hr2 _.
    apply know_ret. intros w3 Hr3 _. apply (decl_Streaming_rely w2); [done|]. apply (decl_Streaming_rely w1); [done|]. by exists L.
  - apply know_ret. intros w1 Hr1 _. apply (decl_Streaming_rely w); [done|]. by exists L.
Qed.
Lemma decl_run_selectOnce w : inv ByCtx w → Streaming w →
  run (selectOnce jsonError runID engine ()) (λ r w', match r with inl _ => Streaming w' | inr a => Streamed a w' end) w.
Proof.
  intros Hi (L & Ho & Hk). unfold selectOnce. apply know_bind. apply (know_selectCtx _ _ _ L); [done|..].
  - intros w' _ [_ He Hs _] Hx Hc. by left.
  - intros w' Hi' _ Hk' Hx. apply run_cancelled; [by exists L|done|done].
  - intros [[l|] more] w' Hi' _ Hk' Hin.
    + apply (run_parsed l more); [done| |done]. by exists L.
    + destruct more; apply know_ret; intros w2 Hr2 Hi2.
      * apply (decl_Streaming_rely w'); [done|]. by exists L.
      * apply (decl_Streamed_rely (Some false) w'); [done|]. by exists L.
Qed.
Lemma decl_run_afterStream saw w : Streamed (Some saw) w → run (afterStream runID engine saw) (λ _, finished) w.
Proof.
  intros H. unfold afterStream. apply know_bind. destruct saw; cbn in H; destruct H as (L & Hk & Hc).
  - apply (know_wait _ _ _ L false); [done|by intros; right; right|]. intros e w2 Hi2 Hn2 Hk2 _ _ _. apply know_ret. intros w3 Hr3 Hi3.
    apply (decl_finished_rely w2); [done|]. unfold finished. rewrite (k_given _ _ _ _ Hk2). by apply (ended_near w).
  - apply (know_wait _ _ _ L true); [done|by intros; right; right|]. intros e w2 Hi2 Hn2 Hk2 Hx2 Hc2 _.
    apply know_bind, (know_OnEvent _ _ _ _ L true); [done|]. intros ok w3 Hi3 Hn3 Hk3. apply know_ret. intros w4 Hr4 _.
    apply (decl_finished_rely w3); [done|]. unfold finished. rewrite (k_given _ _ _ _ Hk3).
    apply ended_terminal; [done|unfold synthesized; by case_match|]. right; right. exists e. pose proof (n_exit _ _ _ Hn3 _ Hx2). destruct (n_err _ _ _ Hn3 Hc2) as [? ->]. done.
Qed.
Lemma decl_run_loop w : inv ByCtx w → Streaming w → run (Loop (selectOnce jsonError runID engine) ()) Streamed w.
Proof.
  intros Hi Hs. apply (wp_loop _ _ _ _ (λ _, Streaming)); [| |done].
  - intros [] w1 Hi1 Hs1. eapply rg_mono; [|by apply decl_run_selectOnce]. intros [[]|r] w2 Hi2 H2; [done|].
    intros w3 Hr3 _. by apply (decl_Streamed_rely r w2).
  - intros tc w1 w2 Hr2 _. by apply decl_Streaming_rely.
Qed.
Lemma decl_run_supervise w : given w = [] → eofSeen w = false → reader w = NotStarted → killed w = false →
  run (supervise jsonError runID engine) (λ _, finished) w.
Proof.
  intros Hg He Hrd Hkd. unfold supervise, superviseBody. apply know_bind, know_bind, wp_goReader; [done..|].
  intros w2 Hi2 Hn2 Ht2 Hv2 Hs2. injection Hv2 as Hg2 _ He2 _.
  assert (∀ w3, finished w3 → run unregister (λ _, finished) w3) as Hend.
  { intros w3 Hf. apply wp_unregister. intros w4 _ Hn4 _ Hg4 _. unfold finished. rewrite Hg4. by apply (ended_near w3). }
  apply know_bind. eapply rg_mono; [|apply decl_run_loop; [done|]].
  - intros [saw|] w3 Hi3 H3.
    + eapply rg_mono; [|by apply decl_run_afterStream]. intros [] w4 _ Hf. by apply Hend.
    + apply know_ret. intros w4 Hr4 _. apply Hend. by apply (decl_finished_rely w3).
  - exists []. split; [by constructor|]. split; [congruence|congruence|done|]. apply Ht2. intros Hx. congruence.
Qed.
End safety.

(** Any schedule of a run. *)
Definition reaches (jsonError : string → string → string) (runID engine : string) (c : live.prog live.World () * live.World) : Prop :=
  rtc (live.sys (live.others Cancel timer)) (supervise jsonError runID engine, live.fresh false) c.
Lemma reaches_holds jsonError runID engine p w : reaches jsonError runID engine (p, w) →
  live.inv live.ByCtx w ∧
  match live.returned p with
  | Some _ => finished jsonError runID engine w
  | None => live.next p w = [] → Waits w
  end.
Proof.
  apply (live.wp_sound (PreOrder0 := live.rely_preorder _) (live.inv live.ByCtx) (live.rely live.ByCtx) Waits (live.others Cancel timer)
    _ p (λ _, finished jsonError runID engine)); [|split; cbn; try done; [intros s Hs%elem_of_nil; done|by intros [|]]|by apply decl_run_supervise].
  intros w1 w2. by apply live.others_rely.
Qed.

(** A run that is over has told exactly one terminal event, at the end, for a reason,
    unless the sink refused an event of the output. *)
Theorem declarative_one_terminal jsonError runID engine w : reaches jsonError runID engine (live.Ret (), w) →
  ∃ pre e ok, live.given w = pre ++ [(e, ok)] ∧ Forall (λ p, agent.IsTerminal (Type_ p.1) = false) pre ∧
    (agent.IsTerminal (Type_ e) = true ∧ justified jsonError runID engine w e ∨ agent.IsTerminal (Type_ e) = false ∧ ok = false).
Proof. intros H. by destruct (reaches_holds _ _ _ _ _ H) as [_ Hf]. Qed.
(** A supervisor that waits has a process that runs, a standard error that somebody holds, an output that is open or a reader
    that can move; or it hangs: its sink refused an event, and the reader waits to send. *)
Theorem declarative_waits_for jsonError runID engine p w :
  reaches jsonError runID engine (p, w) → live.returned p = None → live.next p w = [] →
  live.exit_ w = None ∨ live.copying w = true ∨
  (live.reader w = live.Reading ∧ live.stdout w = [] ∧ live.open_ w = true) ∨
  (∃ a, a ∈ [live.Read; live.Send; live.Quit] ∧ is_Some (live.act Cancel timer a w)) ∨
  ((∃ c, live.reader w = live.Sending c) ∧ live.chan w ≠ None ∧ live.ctx w = None ∧ live.refused w).
Proof.
  intros H Hp Hn. destruct (reaches_holds _ _ _ _ _ H) as [Hi Hw]. rewrite Hp in Hw.
  destruct (Hw Hn) as [(He & Hs & Hx & Hc)|[(Hs & Hf & _ & Hc)|Hx]]; [| |destruct Hx; auto]; do 2 right.
  - assert (live.reader w ≠ live.Finished) as Hf.
    { intros Hf. destruct (live.inv_finished _ _ Hi Hf) as [?|[?|?]]; congruence. }
    destruct (live.reader_stuck Cancel timer w Hs Hf) as [?|[?|(? & ? & ?)]]; [by right; left|by left|done].
  - destruct (live.reader_stuck Cancel timer w Hs Hf) as [?|[?|(? & ? & ?)]]; [by right; left|by left|right; right].
    destruct Hc as [Hc|Hc]; [done|auto].
Qed.

(** ** Where the code does less than it says *)

Definition text_of (l : list string) : string := strs.Join l (String strs.nl "").
Definition demo : list string :=
  ["api_version: neuroforge/v1"; "kind: command-coding-agent"; "id: shout  # the agent"; "detect:"; "  command: [shout, --version]";
   "run:"; "  command:"; "    - shout"; "    - --model={{ model }}"; "    - 'a: b'"; "capabilities:"; "  headless_mode: yes"; "  mcp: no"].
Lemma demo_manifest :
  ParseManifest (text_of demo) =
  Some (Ok (mkManifest "neuroforge/v1" "command-coding-agent" "shout" ["shout"; "--version"] ["shout"; "--model={{ model }}"; "a: b"]
    (mkCaps false true false false false false false false false false false false false false) "")).
Proof. by vm_compute. Qed.

Definition commandOf (lines : list string) : option (result string (list string)) :=
  match ParseManifest (text_of (["id: x"; "run:"] ++ lines)) with
  | Some (Ok m) => Some (Ok (M_Run m)) | Some (Err e) => Some (Err e) | None => None
  end.
(** An argument with a colon becomes the text of a Go map; numbers and booleans lose
    their spelling. *)
Lemma arguments_rewritten :
  commandOf ["  command:"; "    - curl"; "    - http://x"; "    - 007"; "    - yes"] = Some (Ok ["curl"; "map[http://x]"; "7"; "true"]).
Proof. by vm_compute. Qed.
(** A sequence that is not indented under its key, as YAML allows, is an error. *)
Lemma flat_sequence_refused : commandOf ["  command:"; "  - sh"] = Some (Err ("yaml: expected mapping entry, got " +:+ strs.q "- sh")).
Proof. by vm_compute. Qed.
(** A missing id is refused, an empty one is accepted as "<nil>". *)
Lemma empty_id_accepted : (λ r, match r with Ok m => M_ID m | Err _ => "" end) <$> ParseManifest "id:" = Some "<nil>".
Proof. by vm_compute. Qed.
(** Lines to the left of the first one are dropped without an error. *)
Lemma outdented_lines_dropped :
  (λ r, match r with Ok m => M_Run m | Err _ => ["error"] end) <$> ParseManifest (text_of ["  id: x"; "run:"; "  command: [sh]"]) = Some [].
Proof. by vm_compute. Qed.

Definition noModel : templateVars := mkVars "/w" "" "" "r1" "x".
(** An unset variable that is the whole argument is passed as the placeholder itself;
    a placeholder that is not closed takes the rest of the argument with it. *)
Lemma placeholders_kept_and_lost :
  substituteAll ["{{ model }}"; "--model={{ model }}"; "--in={{ workspace }}/a {{ b"] noModel = ["{{ model }}"; "--model="; "--in=/w/a "].
Proof. by vm_compute. Qed.
(** The daemon's token is passed on when it is asked for. *)
Lemma token_passed :
  buildEnv (λ k, if bool_decide (k = "FORGE_DAEMON_TOKEN") then Some "t" else None) keep ["FORGE_DAEMON_TOKEN"; "MERGE_TOKEN=m"]
  = ["FORGE_DAEMON_TOKEN=t"; "MERGE_TOKEN=m"].
Proof. by vm_compute. Qed.

Module Runs.
Import live. Open Scope prog_scope.
Definition noError (_ _ : string) : string := "error".
Definition run0 (l : list (Turn Act)) : option (prog World () * World) :=
  play (act Cancel timer) l (supervise noError "r1" "x", fresh false).
Definition stops (c : option (prog World () * World)) : bool :=
  match c with Some (p, w) => match returned p, next p w with None, [] => true | _, _ => false end | None => false end.
Definition over (c : option (prog World () * World)) : bool := match c with Some (Ret tt, _) => true | _ => false end.
Definition world (c : option (prog World () * World)) : World := match c with Some (_, w) => w | None => fresh false end.
Definition told (c : option (prog World () * World)) : list (agent.EventType * bool) := (λ p, (Type_ p.1, p.2)) <$> given (world c).
Lemma decl_run0_reaches l : over (run0 l) = true → reaches noError "r1" "x" (Ret (), world (run0 l)).
Proof.
  destruct (run0 l) as [[p w]|] eqn:H; [|done]. intros Hp. apply play_sys in H. cbn in Hp |- *. destruct p as [[]| | |]; done.
Qed.
Lemma decl_stops_reaches l : stops (run0 l) = true → ∃ p, reaches noError "r1" "x" (p, world (run0 l)) ∧ returned p = None ∧ next p (world (run0 l)) = [].
Proof.
  destruct (run0 l) as [[p w]|] eqn:H; [|done]. intros Hp. apply play_sys in H. cbn in Hp |- *. exists p.
  destruct (returned p); [done|]. by destruct (next p w).
Qed.
Definition eventLine (t : string) : string := "{" +:+ strs.q "type" +:+ ":" +:+ strs.q t +:+ "}".
Definition say (s : string) : Turn Act := Other (Write (Some s)).
Definition recv : list (Turn Act) := [Other Read; Other Send].
Definition ends (code : Z) : list (Turn Act) := [Other (End code ""); Other Close; Other Copied].

Definition completes : list (Turn Act) :=
  ([Go; say (eventLine "run.started"); say "{"; say (eventLine "run.completed")] ++ recv ++ [Go; Own 0; Go] ++ recv ++ [Go; Own 0; Go] ++ recv
   ++ [Go; Own 0; Go] ++ ends 0 ++ [Go])%list.
Lemma completes_ends :
  over (run0 completes) = true ∧ told (run0 completes) = [(agent.EventRunStarted, true); (agent.EventWarning, true); (agent.EventRunCompleted, true)] ∧
  saved (world (run0 completes)) = [Bytes "{"].
Proof. vm_compute. by repeat split. Qed.
(** A sink that refuses an event while the agent goes on writing hangs the run, and no
    event of the process or the reader can help: the process is dead. *)
Definition refusing : list (Turn Act) :=
  ([Go; say (eventLine "run.started"); say "a"; say "b"] ++ recv ++ [Go] ++ recv ++ [Other Read; Own 1; Go; Other Die; Other Close; Other Copied])%list.
Lemma refused_run_hangs :
  let c := run0 refusing in
  stops c = true ∧ exit_ (world c) = Some Signalled ∧ open_ (world c) = false ∧
  Forall (λ a, act Cancel timer a (world c) = None) [Read; Send; Quit; Close; Die; Tick] ∧ told c = [(agent.EventRunStarted, false)].
Proof. vm_compute. by repeat constructor. Qed.
(** A cancelled run whose output ends before the context is looked at has failed. *)
Definition cancelled : list (Turn Act) :=
  ([Go; Other CallCancel; Other (Caller 0); Other (Caller 0); Other Die; Other Close; Other Copied] ++ recv ++ [Own 1; Go; Own 0; Go])%list.
Lemma cancelled_run_fails :
  let c := run0 cancelled in over c = true ∧ ctx (world c) = Some agent.Canceled ∧ told c = [(agent.EventRunFailed, true)].
Proof. vm_compute. by repeat split. Qed.
(** A cancelled run that is reported as such is over without anybody having waited for
    the process. *)
Lemma cancelled_run_not_reaped :
  let c := run0 ([Go; Other CallCancel; Other (Caller 0); Other (Caller 0); Other Die; Other Close; Other Copied; Go] ++ [Other Read; Other Quit; Go; Own 0; Go])%list in
  over c = true ∧ told c = [(agent.EventRunCancelled, true)] ∧ reaped (world c) = false.
Proof. vm_compute. by repeat split. Qed.
(** After a run with output behind its terminal event the reader waits for ever. *)
Lemma reader_leaks :
  let c := run0 ([Go; say (eventLine "run.completed"); say "a"; say "b"] ++ recv ++ [Go; Own 0; Go] ++ recv ++ [Other Read] ++ ends 0 ++ [Go])%list in
  over c = true ∧ reader (world c) = Sending (mkChunk (Some "b") true) ∧ ctx (world c) = None ∧ registered (world c) = false ∧
  Forall (λ a, act Cancel timer a (world c) = None) [Read; Send; Quit].
Proof. vm_compute. by repeat constructor. Qed.
End Runs.
Import Runs.
Lemma declarative_one_terminal_witness :
  ∃ w, reaches noError "r1" "x" (live.Ret (), w) ∧ length (live.given w) = 3 ∧
  ∃ pre e ok, live.given w = pre ++ [(e, ok)] ∧ Forall (λ p, agent.IsTerminal (Type_ p.1) = false) pre ∧
    (agent.IsTerminal (Type_ e) = true ∧ justified noError "r1" "x" w e ∨ agent.IsTerminal (Type_ e) = false ∧ ok = false).
Proof.
  exists (world (run0 completes)).
  assert (reaches noError "r1" "x" (live.Ret (), world (run0 completes))) as H by (apply decl_run0_reaches; by vm_compute).
  split; [exact H|]. split; [by vm_compute|]. apply (declarative_one_terminal _ _ _ _ H).
Defined.
Lemma declarative_waits_for_witness :
  let w := world (run0 refusing) in
  live.exit_ w = Some live.Signalled ∧
  (live.exit_ w = None ∨ live.copying w = true ∨
   (live.reader w = live.Reading ∧ live.stdout w = [] ∧ live.open_ w = true) ∨
   (∃ a, a ∈ [live.Read; live.Send; live.Quit] ∧ is_Some (live.act Cancel timer a w)) ∨
   ((∃ c, live.reader w = live.Sending c) ∧ live.chan w ≠ None ∧ live.ctx w = None ∧ live.refused w)).
Proof.
  split; [by vm_compute|].
  destruct (decl_stops_reaches refusing) as (p & H & Hp & Hn); [by vm_compute|]. apply (declarative_waits_for _ _ _ _ _ H Hp Hn).
Defined.
End declarative.
