(* ===== verification/OpenCode.v ===== *)
(** * OpenCode: the adapter of OpenCode

    Models [internal/adapter/codingagent/opencode]: the command line and environment,
    detection with its cache, version-gated capabilities, redaction, the parsing of
    canonical and native lines, the mapping of usage, the annotation of failures, and
    the supervised run of [Live.v] among its reader, its process, its timer and
    callers of [Cancel].  Looking up, probing and starting programs are arguments. *)
From S2P Require Import Prelude Text Agent Json Regex Protocol Live.
From Stdlib Require PrimFloat.
Import json protocol.

Module opencode.

(** ** options.go, detect.go *)

Record Options := mkOptions { Binary : string; Agent : string; ExtraArgs : list string }.
Definition binaryName : string := "opencode".
Definition adapterVersion : string := "opencode-adapter-v1".
Record detection := mkDetection { installed : bool; path : string; version : string; detail : string }.
Definition toResult (d : detection) : DetectionResult := mkDetectionResult (installed d) (path d) (version d) (detail d).

(** *** version.go *)

Import regexp.
Definition num1 : re := plus digit.
Definition versionRe : re := seq [opt (lit "v"); Group 1 num1; lit "."; Group 2 num1; lit "."; Group 3 num1].
Definition parseVersionString (s : string) : string :=
  match Find versionRe s with Some (_, c) => group 1 c +:+ "." +:+ group 2 c +:+ "." +:+ group 3 c | None => "" end.
Record semver := mkSemver { major : Z; minor : Z; patch : Z }.
(** What is before the first [c]. *)
Definition before (c : ascii) (s : string) : string := match text.cutByte s c with Some (a, _) => a | None => s end.
Definition parseSemver (s : string) : option semver :=
  match text.cutByte (text.TrimPrefix (strs.TrimSpace s) "v") "."%char with
  | Some (a, rest) =>
      match text.cutByte rest "."%char with
      | Some (b, c) =>
          match Atoi a, Atoi b, Atoi (before "+" (before "-" c)) with Some x, Some y, Some z => Some (mkSemver x y z) | _, _, _ => None end
      | None => None
      end
  | None => None
  end.
Definition cmpInt (a b : Z) : comparison := if (a <? b)%Z then Lt else if (b <? a)%Z then Gt else Eq.
Definition cmp (s o : option semver) : comparison :=
  match s, o with
  | None, None => Eq
  | None, Some _ => Lt
  | Some _, None => Gt
  | Some s, Some o =>
      if negb (major s =? major o)%Z then cmpInt (major s) (major o)
      else if negb (minor s =? minor o)%Z then cmpInt (minor s) (minor o) else cmpInt (patch s) (patch o)
  end.
Definition atLeast (s : option semver) (floor : string) : bool :=
  match parseSemver floor with None => true | f => match cmp s f with Lt => false | _ => true end end.
Definition minResumeVersion : string := "0.1.0".
Definition minCachedUsageVersion : string := "0.1.0".
Definition capabilitiesForVersion (version : string) : AgentCapabilities :=
  let v := parseSemver version in
  let ok := match v with Some _ => true | None => false end in
  mkCaps false true true true true (atLeast v minResumeVersion && ok) false true true (atLeast v minCachedUsageVersion && ok) true false true true.

(** *** Detection and its cache *)

Section detect.
  (** [exec.LookPath], and the output of [binary --version]. *)
  Context (lookPath : string → result string string) (runProbe : string → result string string).
Definition detectLocked (o : Options) : detection :=
  match (if bool_decide (Binary o = "") then lookPath binaryName else Ok (Binary o)) with
  | Err e => mkDetection false "" "" ("opencode not found on PATH: " +:+ e)
  | Ok bin =>
      match runProbe bin with
      | Err e => mkDetection true bin "" ("OpenCode engine present; version probe failed: " +:+ e)
      | Ok out => let ver := parseVersionString out in mkDetection true bin ver ("OpenCode engine " +:+ ver)
      end
  end.
(** The cache is the last detection. *)
Definition Detect (o : Options) (cache : option detection) : DetectionResult * option detection :=
  let d := detectLocked o in (toResult d, Some d).
Definition rememberDetect (o : Options) (cache : option detection) : detection * option detection :=
  match cache with Some d => (d, cache) | None => let d := detectLocked o in (d, Some d) end.
Definition Version (o : Options) (cache : option detection) : VersionResult * option detection :=
  let '(d, cache) := rememberDetect o cache in
  (mkVersionResult adapterVersion (version d) ProtocolVersion (if installed d then "" else "opencode not detected: " +:+ detail d), cache).
Definition Capabilities (o : Options) (cache : option detection) : AgentCapabilities * option detection :=
  let '(d, cache) := rememberDetect o cache in (capabilitiesForVersion (version d), cache).
Definition Health (o : Options) (cache : option detection) : HealthResult * option detection :=
  let '(d, cache) := rememberDetect o cache in
  (if negb (installed d) then mkHealthResult HealthDown ("opencode not installed: " +:+ detail d)
   else if bool_decide (version d = "") then mkHealthResult HealthDegraded ("opencode present but version unknown: " +:+ detail d)
   else mkHealthResult HealthOK ("opencode " +:+ version d +:+ " ready (headless)"), cache).

(** ** command.go *)

Definition resolvedBinary (o : Options) (cache : option detection) : string :=
  if negb (bool_decide (Binary o = "")) then Binary o
  else
    let cached := match cache with Some d => path d | None => "" end in
    if negb (bool_decide (cached = "")) then cached
    else match lookPath binaryName with Ok p => p | Err _ => binaryName end.
End detect.

Record Request := mkRequest {
  Req_RunID : string; Req_Engine : string; Req_Model : string; Req_Workspace : string; Req_Prompt : string; Req_PromptFile : string;
  Req_AllowlistEnv : list string; Req_Timeout : Z; Req_SessionID : string }.
Definition validateFlagArgument (name value : string) : option string :=
  if strs.HasPrefix (strs.TrimSpace value) "-" then
    Some ("opencode: invalid " +:+ name +:+ " " +:+ strs.q value +:+ ": must not begin with '-'")
  else None.
Definition flag (name value : string) : list string := if bool_decide (value = "") then [] else [name; value].
Definition nonblank (s : string) : bool := negb (bool_decide (strs.TrimSpace s = "")).
Definition promptArgs (req : Request) : list string :=
  if nonblank (Req_Prompt req) then ["--"; Req_Prompt req]
  else if nonblank (Req_PromptFile req) then ["--"; Req_PromptFile req] else [].
Definition buildArgv (o : Options) (bin : string) (req : Request) (isResume : bool) : result string (list string) :=
  match validateFlagArgument "model" (Req_Model req), (if isResume then validateFlagArgument "session" (Req_SessionID req) else None) with
  | Some e, _ | None, Some e => Err e
  | None, None =>
      Ok ([bin; "run"; "--format"; "json"]
          ++ flag "--dir" (strs.TrimSpace (Req_Workspace req))
          ++ flag "--model" (strs.TrimSpace (Req_Model req))
          ++ flag "--agent" (strs.TrimSpace (Agent o))
          ++ (if isResume && nonblank (Req_SessionID req) then ["--session"; Req_SessionID req] else [])
          ++ ExtraArgs o
          ++ promptArgs req)%list
  end.

Definition baseEnvKeys : list string := ["PATH"; "HOME"; "USER"; "LANG"; "LC_ALL"; "TERM"; "TEMP"; "TMP"].
Definition forbiddenCredentialKeyFragments : list string :=
  ["forge_daemon_token"; "merge_token"; "github_token"; "gitlab_token"; "gittoken"; "vcs_token"; "aws_secret"; "stripe_"; "production_secret"].
Definition isForbiddenCredentialKey (key : string) : bool :=
  existsb (strs.Contains (strs.ToLower (strs.TrimSpace key))) forbiddenCredentialKeyFragments.
Section env.
  Context (lookupEnv : string → option string).
Definition appendEnv (key : string) : list string := match lookupEnv key with Some v => [key +:+ "=" +:+ v] | None => [] end.
Definition allowed (kv : string) : list string :=
  match text.cutByte kv "="%char with
  | Some (key, _) => if isForbiddenCredentialKey key then [] else [kv]
  | None => if isForbiddenCredentialKey kv then [] else appendEnv kv
  end.
Definition buildEnv (allowlist : list string) : list string := (mjoin (appendEnv <$> baseEnvKeys) ++ mjoin (allowed <$> allowlist))%list.
End env.

(** ** redact.go *)

Definition tokenish : Z → bool := folds (any [alnum; among "_-./+="]).
Definition keyOf (words : re) : re := seq [words; star space; Rep (any [chr "="%char; chr ":"%char]) 1 (Some 1)].
Definition secretValueRe : re :=
  seq [Group 1 (alts [litI "sk-"; seq [litI "bearer"; plus space];
                      keyOf (seq [litI "api"; Rep (any [chr "_"%char; chr "-"%char]) 0 (Some 1); litI "key"]);
                      keyOf (litI "token"); keyOf (litI "secret"); keyOf (litI "password"); keyOf (litI "passwd");
                      seq [litI "authorization"; star space; lit ":"; star space; litI "bearer"; plus space]]);
       Group 2 (regexp.atLeast 12 tokenish)].
Definition longTokenRe : re := seq [Bound; regexp.atLeast 20 (any [alnum; chr "_"%char; chr "-"%char]); Bound].
Definition redactSecrets (s : string) : string :=
  let s := ReplaceAll secretValueRe (λ m _, match Find secretValueRe m with Some (_, c) => group 1 c +:+ "***" | None => m end) s in
  ReplaceAllString longTokenRe "***" s.
Definition redactRaw (sourceOf : json → string) (r : RawMessage) : RawMessage :=
  match r with Bytes s => Bytes (redactSecrets s) | TextOf v => Bytes (redactSecrets (sourceOf v)) end.

(** ** classify.go *)

Definition providerSignal : list (string * string) :=
  [("anthropic", "anthropic"); ("claude", "anthropic"); ("openai", "openai"); ("google", "google"); ("gemini", "google"); ("azure", "azure");
   ("bedrock", "aws"); ("aws", "aws"); ("vertex", "google"); ("groq", "groq"); ("mistral", "mistral"); ("deepseek", "deepseek");
   ("xai", "xai"); ("grok", "xai")].
Definition detectProvider (stderr reason : string) : string :=
  match List.find (λ s, strs.Contains (strs.ToLower (stderr +:+ " " +:+ reason)) s.1) providerSignal with Some s => s.2 | None => "" end.
Definition annotateProvider (reason stderr : string) : string :=
  let p := detectProvider stderr reason in
  if bool_decide (p = "") then reason
  else if strs.Contains reason "provider=" then reason
  else if bool_decide (reason = "") then "provider=" +:+ p else reason +:+ " (provider=" +:+ p +:+ ")".
Definition ClassifyFailure (exitCode : Z) (events : list NormalizedEvent) (stderr : string) : agent.FailureClassification :=
  let fc := DefaultClassify exitCode events stderr in withReason fc (annotateProvider (agent.Reason fc) stderr).

(** ** native.go, translate.go, parse.go *)

Record NativeTokens := mkTokens { T_Total : Z; T_Input : Z; T_Output : Z; T_Reasoning : Z; T_Write : Z; T_Read : Z }.
Record NativePart := mkPart {
  P_Type : string; P_MessageID : string; P_Text : string; P_Reason : string; P_Tokens : NativeTokens; P_Cost : PrimFloat.float }.
Record NativeEvent := mkNative { N_Type : string; N_Timestamp : Z; N_Part : NativePart }.
Definition zeroTokens : NativeTokens := mkTokens 0 0 0 0 0 0.
Definition zeroNative : NativeEvent := mkNative "" 0 (mkPart "" "" "" "" zeroTokens PrimFloat.zero).
Definition dTokens : decoder NativeTokens := dStruct
  [("total", at_ T_Total (λ x t, mkTokens x (T_Input t) (T_Output t) (T_Reasoning t) (T_Write t) (T_Read t)) dInt);
   ("input", at_ T_Input (λ x t, mkTokens (T_Total t) x (T_Output t) (T_Reasoning t) (T_Write t) (T_Read t)) dInt);
   ("output", at_ T_Output (λ x t, mkTokens (T_Total t) (T_Input t) x (T_Reasoning t) (T_Write t) (T_Read t)) dInt);
   ("reasoning", at_ T_Reasoning (λ x t, mkTokens (T_Total t) (T_Input t) (T_Output t) x (T_Write t) (T_Read t)) dInt);
   ("cache", dStruct
     [("write", at_ T_Write (λ x t, mkTokens (T_Total t) (T_Input t) (T_Output t) (T_Reasoning t) x (T_Read t)) dInt);
      ("read", at_ T_Read (λ x t, mkTokens (T_Total t) (T_Input t) (T_Output t) (T_Reasoning t) (T_Write t) x) dInt)])].
Definition dPart : decoder NativePart := dStruct
  [("type", at_ P_Type (λ x p, mkPart x (P_MessageID p) (P_Text p) (P_Reason p) (P_Tokens p) (P_Cost p)) dString);
   ("messageID", at_ P_MessageID (λ x p, mkPart (P_Type p) x (P_Text p) (P_Reason p) (P_Tokens p) (P_Cost p)) dString);
   ("text", at_ P_Text (λ x p, mkPart (P_Type p) (P_MessageID p) x (P_Reason p) (P_Tokens p) (P_Cost p)) dString);
   ("reason", at_ P_Reason (λ x p, mkPart (P_Type p) (P_MessageID p) (P_Text p) x (P_Tokens p) (P_Cost p)) dString);
   ("tokens", at_ P_Tokens (λ x p, mkPart (P_Type p) (P_MessageID p) (P_Text p) (P_Reason p) x (P_Cost p)) dTokens);
   ("cost", at_ P_Cost (λ x p, mkPart (P_Type p) (P_MessageID p) (P_Text p) (P_Reason p) (P_Tokens p) x) dFloat)].
Definition dNative : decoder NativeEvent := dStruct
  [("type", at_ N_Type (λ x n, mkNative x (N_Timestamp n) (N_Part n)) dString);
   ("timestamp", at_ N_Timestamp (λ x n, mkNative (N_Type n) x (N_Part n)) dInt);
   ("part", at_ N_Part (λ x n, mkNative (N_Type n) (N_Timestamp n) x) dPart)].
Definition trimSpaceAndCR (b : string) : string := strs.TrimRight [strs.nl; strs.cr; " "%char; strs.tab] b.
Definition ParseNativeEvent (line : string) : option NativeEvent :=
  let trimmed := trimSpaceAndCR line in
  if bool_decide (trimmed = "") then None
  else match Unmarshal dNative trimmed zeroNative with (n, true) => Some n | (_, false) => None end.
(** Whether the type is known, and the event there is for it. *)
Definition translateNative (ne : NativeEvent) : option (option NormalizedEvent) :=
  let p := N_Part ne in
  if bool_decide (N_Type ne = "step_start") then Some None
  else if bool_decide (N_Type ne = "text") then
    Some (if bool_decide (P_Text p = "") then None
          else Some (set_Message (Some (agent.mkMessagePayload (P_MessageID p) (P_Text p) "" "assistant")) (event agent.EventMessageDelta)))
  else if bool_decide (N_Type ne = "step_finish") then
    let t := P_Tokens p in
    Some (Some (set_Usage (Some (mkUsagePayload (agent.mkUsagePayload (T_Input t) (T_Output t) (T_Read t) (T_Write t) (P_Cost p) "USD")
                                   QuotaConfProviderReported)) (event agent.EventUsageUpdated)))
  else None.
(** What a line is: nothing to forward, an event, or malformed, with a warning. *)
Inductive Line := NoContent | Content (e : NormalizedEvent) | Malformed (w : option NormalizedEvent).
Definition parseLine (jsonError : string → string → string) (line : string) : Line :=
  let trimmed := trimSpaceAndCR line in
  if bool_decide (trimmed = "") then NoContent
  else
    match ParseEventLine jsonError trimmed with
    | (Some e, None) => Content e
    | (None, None) => NoContent
    | (ev, Some _) =>
        match ParseNativeEvent trimmed with
        | Some ne => match translateNative ne with Some (Some e) => Content e | Some None => NoContent | None => Malformed ev end
        | None => Malformed ev
        end
    end.
(** The lines of an output, of which blank ones and others than text add nothing. *)
Definition ExtractAssistantText (lines : list string) : string :=
  strs.Join ((λ l, match ParseNativeEvent l with Some n => if bool_decide (N_Type n = "text") then P_Text (N_Part n) else "" | None => "" end) <$> lines) "".

(** ** usage.go *)

Definition isKnownUsageConfidence (c : string) : bool :=
  bool_decide (c ∈ [QuotaConfExact; QuotaConfProviderReported; QuotaConfEstimated; QuotaConfInferred; QuotaConfUnknown]).
Definition usageHasFigures (u : UsagePayload) : bool :=
  let t := Tokens u in
  negb (agent.InputTokens t =? 0)%Z || negb (agent.OutputTokens t =? 0)%Z || negb (agent.CacheReadTokens t =? 0)%Z
  || negb (agent.CacheWriteTokens t =? 0)%Z || negb (PrimFloat.eqb (agent.Cost t) PrimFloat.zero).
Definition normaliseUsageConfidence (u : UsagePayload) : string :=
  let reported := if isKnownUsageConfidence (Confidence u) then Confidence u else QuotaConfProviderReported in
  if negb (usageHasFigures u) then QuotaConfUnknown
  else if bool_decide (reported = QuotaConfExact) then QuotaConfProviderReported else reported.
Definition mapUsage (u : UsagePayload) : UsagePayload := mkUsagePayload (Tokens u) (normaliseUsageConfidence u).
Definition InspectQuota : QuotaSnapshot := mkQuotaSnapshot QuotaConfUnknown QuotaStateUnknown
  "opencode headless run exposes no live quota API; usage is reported via usage.updated events".
Definition ListModels : list ModelDescriptor := [].

(** The reported precision is never exact, and unknown without figures. *)
Lemma mapUsage_modest u : Confidence (mapUsage u) ≠ QuotaConfExact ∧ (usageHasFigures u = false → Confidence (mapUsage u) = QuotaConfUnknown) ∧
  Tokens (mapUsage u) = Tokens u ∧ mapUsage (mapUsage u) = mapUsage u.
Proof.
  assert (usageHasFigures (mapUsage u) = usageHasFigures u) as Hf by done.
  assert (∀ c, c = QuotaConfExact → c = QuotaConfUnknown → False) as Hd by (intros ? -> ?; done).
  repeat split.
  - cbn. unfold normaliseUsageConfidence. destruct (negb _); [done|]. by case_bool_decide.
  - cbn. unfold normaliseUsageConfidence. by intros ->.
  - unfold mapUsage at 1 3. f_equal. unfold normaliseUsageConfidence at 1. rewrite Hf.
    unfold mapUsage, normaliseUsageConfidence. cbn [Confidence]. destruct (usageHasFigures u); cbn [negb]; [|done].
    destruct (isKnownUsageConfidence (Confidence u)) eqn:Hk.
    + destruct (decide (Confidence u = QuotaConfExact)) as [->|He]; [by vm_compute|].
      rewrite !(bool_decide_false _ He), Hk. by rewrite bool_decide_false.
    + by vm_compute.
Qed.

(** ** adapter.go, run.go *)

Record RunHandle := mkHandle { H_RunID : string; H_Engine : string; H_Model : string; H_SessionID : string }.
Record Launch := mkLaunch { L_argv : list string; L_dir : string; L_env : list string }.
Definition orElse (s d : string) : string := if bool_decide (s = "") then d else s.
Definition resumeRequest (req : Request) : Request :=
  mkRequest (Req_RunID req) (Req_Engine req) (Req_Model req) (Req_Workspace req) "" "" (Req_AllowlistEnv req) (Req_Timeout req) (Req_SessionID req).
Section start.
  Context (lookPath : string → result string string) (runProbe : string → result string string) (lookupEnv : string → option string).
  (** Starting the process: an error or none. *)
  Context (spawn : Launch → option string).
Definition runCommon (o : Options) (cache : option detection) (req : Request) (isResume : bool) : result string (Launch * RunHandle) :=
  argv ← buildArgv o (resolvedBinary lookPath o cache) req isResume;
  let l := mkLaunch argv (Req_Workspace req) (buildEnv lookupEnv (Req_AllowlistEnv req)) in
  match spawn l with
  | Some e => Err e
  | None => Ok (l, mkHandle (orElse (Req_RunID req) "opencode-run") (orElse (Req_Engine req) "opencode") (Req_Model req) (Req_SessionID req))
  end.
Definition Start (o : Options) (cache : option detection) (req : Request) : result string (Launch * RunHandle) := runCommon o cache req false.
Definition Resume (o : Options) (cache : option detection) (req : Request) : result string (Launch * RunHandle) * option detection :=
  let '(caps, cache) := Capabilities lookPath runProbe o cache in
  (if negb (SessionResume caps) then Err "opencode: session resume unsupported by detected engine version"
   else runCommon o cache (resumeRequest req) true, cache).
End start.

(** [requestCancel]; the timer only makes its channel readable. *)
Definition Cancel : list live.CallerAct := [live.Mark live.CancelUser; live.CancelCtx agent.Canceled; live.KillGroup].
Definition timer : list live.CallerAct := [live.Fire].

Section supervise.
Import live. Open Scope prog_scope.
  Context (jsonError : string → string → string) (sourceOf : json → string).
  (** The run's id, engine and model, and whether it resumes a session. *)
  Context (runID engine model : string) (isResume : bool).

Definition openEvent (t : agent.EventType) : NormalizedEvent := set_ids runID engine model (event t).
Definition withFailure (c : agent.FailureClass) (reason : string) (exitCode : Z) (e : NormalizedEvent) : NormalizedEvent :=
  set_Failure (Some (agent.mkFailurePayload c reason exitCode)) e.
Definition terminalCancel : NormalizedEvent := withFailure agent.FailureCancelled "cancelled by caller" 0 (openEvent agent.EventRunCancelled).
Definition terminalTimeout : NormalizedEvent :=
  withFailure agent.FailureTimeout "run exceeded its wall-clock timeout" 124 (openEvent agent.EventRunFailed).
Definition synthesizeFromExit (exitCode : Z) (stderr : string) : NormalizedEvent :=
  if (exitCode =? 0)%Z then openEvent agent.EventRunCompleted
  else let fc := ClassifyFailure exitCode [] stderr in withFailure (agent.Class_ fc) (agent.Reason fc) exitCode (openEvent agent.EventRunFailed).

(** [redactEvent]. *)
Definition redactEvent (e : NormalizedEvent) : NormalizedEvent :=
  let w := (λ w, mkWarningPayload (Code w) (redactSecrets (Warning_Message w)) (Recoverable w)) <$> Warning e in
  let f := (λ f, agent.mkFailurePayload (agent.Failure_Class f) (redactSecrets (agent.Failure_Reason f)) (agent.Failure_ExitCode f)) <$> Failure e in
  set_Raw (redactRaw sourceOf <$> Raw e) (set_Warning w (set_Failure f e)).
(** What [forward] makes of an event. *)
Definition dressed (e : NormalizedEvent) : NormalizedEvent :=
  redactEvent (set_ids (orElse (RunID e) runID) (orElse (Engine e) engine) (orElse (Model e) model) e).
Definition forward (e : NormalizedEvent) : prog World bool := OnEvent (dressed e).
Definition usageMapped (e : NormalizedEvent) : NormalizedEvent :=
  if bool_decide (Type_ e = agent.EventUsageUpdated) then set_Usage (mapUsage <$> Usage e) e else e.

(** [finalizeTerminal]. *)
Definition finalizeTerminal (sawTerminal : bool) : prog World () :=
  r ← wait;
  if sawTerminal then Ret ()
  else
    intents ← get marks;
    _ ← OnEvent (if bool_decide (CancelTimeout ∈ intents) then terminalTimeout
                 else if bool_decide (CancelUser ∈ intents) then terminalCancel
                 else synthesizeFromExit r.1 (redactSecrets r.2));
    Ret ().
(** One turn of the loop: whether a terminal event is out, or the end of the run. *)
Definition selectOnce (sawTerminal : bool) : prog World (bool + ()) :=
  s ← selectAll;
  match s with
  | CtxDone => _ ← kill; _ ← readerDone; _ ← finalizeTerminal sawTerminal; Ret (inr ())
  | TimerFired => _ ← mark CancelTimeout; _ ← kill; _ ← readerDone; _ ← finalizeTerminal sawTerminal; Ret (inr ())
  | Received (mkChunk None false) => _ ← readerDone; _ ← finalizeTerminal sawTerminal; Ret (inr ())
  | Received (mkChunk None true) => Ret (inl sawTerminal)
  | Received (mkChunk (Some l) _) =>
      match parseLine jsonError l, sawTerminal with
      | NoContent, _ | _, true => Ret (inl sawTerminal)
      | Malformed ev, false =>
          _ ← save (Bytes (redactSecrets l));
          _ ← match ev with Some e => forward e | None => Ret true end;
          Ret (inl false)
      | Content e, false =>
          let e := usageMapped e in
          ok ← forward e;
          if ok : bool then Ret (inl (agent.IsTerminal (Type_ e)))
          else _ ← kill; _ ← readerDone; _ ← wait; Ret (inr ())
      end
  end.
Definition superviseBody : prog World () :=
  ok ← OnEvent (openEvent (if isResume then agent.EventRunResumed else agent.EventRunStarted));
  if ok : bool then _ ← goReader; Loop selectOnce false
  else _ ← kill; _ ← wait; Ret ().
Definition supervise : prog World () := _ ← superviseBody; unregister.

(** The terminal event is an event of a line the run has read, the timeout or the cancellation that was
    recorded, or made from the exit of the process; and a process that ended by a
    signal then was killed because the context ended. *)
Definition justified (w : World) (t : NormalizedEvent) : Prop :=
  (∃ l b e, mkChunk (Some l) b ∈ got w ∧ parseLine jsonError l = Content e ∧ t = dressed (usageMapped e)) ∨
  (t = terminalTimeout ∧ CancelTimeout ∈ marks w) ∨
  (t = terminalCancel ∧ CancelUser ∈ marks w) ∨
  (∃ x, exit_ w = Some x ∧ copying w = false ∧ (x = Signalled → ctx w ≠ None) ∧ t = synthesizeFromExit (exitCode x) (redactSecrets (stderr w))).
End supervise.

(** *** The command and the binary *)

(** A run starts the binary that was detected, whatever the search path has become. *)
Lemma spawns_detected lookPath lookPath' runProbe o cache d : Detect lookPath runProbe o cache = d → Installed d.1 = true →
  Detected_Path d.1 ≠ "" → resolvedBinary lookPath' o d.2 = Detected_Path d.1.
Proof.
  intros <-. unfold Detect, resolvedBinary, toResult, detectLocked. cbn. case_bool_decide as Hb; cbn.
  - destruct (lookPath binaryName); cbn; [|done]. destruct (runProbe _); cbn; intros _ Hp; by rewrite bool_decide_false.
  - by destruct (runProbe _).
Qed.
(** No value of the request is read as a flag: the model and the session do not begin
    with a dash, and the prompt comes behind the end of the options. *)
Lemma buildArgv_ok o bin req isResume argv : buildArgv o bin req isResume = Ok argv →
  strs.HasPrefix (strs.TrimSpace (Req_Model req)) "-" = false ∧
  (isResume = true → strs.HasPrefix (strs.TrimSpace (Req_SessionID req)) "-" = false) ∧
  ∃ opts, argv = (bin :: "run" :: opts ++ promptArgs req)%list ∧
    (promptArgs req = [] ∨ ∃ p, promptArgs req = ["--"; p] ∧ (p = Req_Prompt req ∨ p = Req_PromptFile req)).
Proof.
  unfold buildArgv, validateFlagArgument. destruct (strs.HasPrefix (strs.TrimSpace (Req_Model req)) "-"); [done|].
  intros H. split; [done|]. split.
  - intros ->. by destruct (strs.HasPrefix (strs.TrimSpace (Req_SessionID req)) "-").
  - assert (promptArgs req = [] ∨ ∃ p, promptArgs req = ["--"; p] ∧ (p = Req_Prompt req ∨ p = Req_PromptFile req)) as Hp
      by (unfold promptArgs; repeat case_match; eauto 10).
    destruct (if isResume then _ else None); [done|]. injection H as <-. eexists (["--format"; "json"] ++ _)%list. split; [|done].
    cbn. do 4 f_equal. by rewrite !app_assoc.
Qed.
(** No key of a credential reaches the agent from the allowlist, not even with a value. *)
Lemma allowed_clean lookupEnv kv e : e ∈ allowed lookupEnv kv → isForbiddenCredentialKey (match text.cutByte kv "="%char with Some (k, _) => k | None => kv end) = false.
Proof. unfold allowed. destruct (text.cutByte kv _) as [[k v]|]; destruct (isForbiddenCredentialKey _); by try intros ?%elem_of_nil. Qed.
(** Resuming and cached usage are only claimed for a version that was understood. *)
Lemma capabilities_gated v : parseSemver v = None →
  SessionResume (capabilitiesForVersion v) = false ∧ CachedUsageReporting (capabilitiesForVersion v) = false.
Proof. intros Hv. unfold capabilitiesForVersion. rewrite Hv. cbn. by rewrite !andb_false_r. Qed.
(** Whatever is classified keeps the policy of its class. *)
Lemma classification_bounded exitCode events stderr : bounded exitCode (ClassifyFailure exitCode events stderr).
Proof. apply bounded_reason, DefaultClassify_bounded. Qed.

Section safety.
Import live. Open Scope prog_scope.
  Context (jsonError : string → string → string) (sourceOf : json → string) (runID engine model : string) (isResume : bool).
Let first : NormalizedEvent := openEvent runID engine model (if isResume then agent.EventRunResumed else agent.EventRunStarted).
Let reason (w : World) : NormalizedEvent → Prop := justified jsonError sourceOf runID engine model w.
Let dress (e : NormalizedEvent) : NormalizedEvent := dressed sourceOf runID engine model e.

Lemma dressed_terminal e : terminal (dress e) = terminal e.
Proof. by destruct e. Qed.
Lemma first_calm : terminal first = false.
Proof. unfold terminal, first. by destruct isResume. Qed.
Lemma usageMapped_type e : Type_ (usageMapped e) = Type_ e.
Proof. unfold usageMapped. by case_bool_decide; destruct e. Qed.
Lemma near_marks m w w' i : near m w w' → i ∈ marks w → i ∈ marks w'.
Proof. intros Hn Hi. destruct (n_marks _ _ _ Hn) as [l ->]. apply elem_of_app. by left. Qed.
Lemma oc_justified_near m w w' t : near m w w' → reason w t → reason w' t.
Proof.
  intros Hn [(l & b & e & Hl & He & ->)|[[-> H]|[[-> H]|(x & Hx & Hc & Hs & ->)]]]; unfold reason, justified.
  - left. exists l, b, e. split; [by apply (near_got m w)|done].
  - right; left. split; [done|]. by eapply near_marks.
  - right; right; left. split; [done|]. by eapply near_marks.
  - right; right; right. exists x. pose proof (n_exit _ _ _ Hn _ Hx). destruct (n_err _ _ _ Hn Hc) as [Hc' ->]. do 2 (split; [done|]). split; [|done].
    intros ->. rewrite (n_ctx _ _ _ Hn); auto.
Qed.
(** Warnings are no terminal events. *)
Lemma malformed_calm l ev e : parseLine jsonError l = Malformed ev → ev = Some e → terminal (dress e) = false.
Proof.
  intros H ->. unfold parseLine in H. case_bool_decide; [done|]. pose proof (ParseEventLine_event jsonError (trimSpaceAndCR l)) as Hl.
  rewrite dressed_terminal. destruct (ParseEventLine jsonError (trimSpaceAndCR l)) as [[e'|] [err|]]; try done.
  - destruct Hl as (_ & code & msg & ->). destruct (ParseNativeEvent _) as [n|]; [destruct (translateNative n) as [[]|]|]; try done; by injection H as <-.
  - destruct (ParseNativeEvent _) as [n|]; [destruct (translateNative n) as [[]|]|]; done.
Qed.

Definition begun (L : list (NormalizedEvent * bool)) : Prop := ∃ l ok, L = (first, ok) :: l.
Lemma oc_begun_app L l : begun L → begun (L ++ l).
Proof. intros (l' & ok & ->). by eexists _, _. Qed.
Lemma oc_ended_near w w' L : near ByEither w w' → ended (reason w) L → ended (reason w') L.
Proof. intros Hn (pre & e & ok & -> & Hpre & He). exists pre, e, ok. pose proof (oc_justified_near ByEither w w' e Hn). naive_solver. Qed.
Definition finished (w : World) : Prop := begun (given w) ∧ ended (reason w) (given w).
Lemma oc_finished_near w w' : near ByEither w w' → given w' = given w → finished w → finished w'.
Proof. intros Hn Hg [Hb He]. unfold finished. rewrite Hg. split; [done|]. by apply (oc_ended_near w). Qed.
Lemma oc_finished_rely w w' : rely ByEither w w' → finished w → finished w'.
Proof. intros Hr. pose proof (r_view _ _ _ Hr) as Hv. injection Hv as Hg _ _ _. apply oc_finished_near; [apply Hr|done]. Qed.
(** The supervisor waits for a chunk, the context or the timer; for the reader, having
    killed the process for a reason; for the process and whoever holds its standard error. *)
Definition Waits (w : World) : Prop :=
  (eofSeen w = false ∧ reader w ≠ NotStarted ∧ ctx w = None ∧ chan w = None) ∨
  (reader w ≠ NotStarted ∧ reader w ≠ Finished ∧ killed w = true ∧ (ctx w ≠ None ∨ CancelTimeout ∈ marks w ∨ refused w)) ∨
  exit_ w = None ∨ copying w = true.
Let run {A} : prog World A → (A → World → Prop) → World → Prop := wp (inv ByEither) (rely ByEither) Waits.

(** What has been told, with or without a terminal event. *)
Definition Told (saw : bool) (L : list (NormalizedEvent * bool)) (w : World) : Prop := begun L ∧ (if saw then ended (reason w) L else calm L).
Lemma Told_near saw L w w' : near ByEither w w' → Told saw L w → Told saw L w'.
Proof. intros Hn [Hb H]. split; [done|]. destruct saw; [|done]. by apply (oc_ended_near w). Qed.
Definition Streaming (saw : bool) (w : World) : Prop := ∃ L, Told saw L w ∧ knows ByEither L false w.
Lemma oc_Streaming_rely saw w w' : rely ByEither w w' → Streaming saw w → Streaming saw w'.
Proof. intros Hr (L & Ht & Hk). exists L. split; [by apply (Told_near _ _ w), Ht; apply Hr|by apply (knows_rely _ _ _ w)]. Qed.

(** The terminal event is decided after the process has ended. *)
Lemma run_finalize {A} saw L eof (a : A) (Q : A → World → Prop) w : Told saw L w → knows ByEither L eof w →
  (∀ w', inv ByEither w' → finished w' → Q a w') → run (_ ← finalizeTerminal runID engine model saw; Ret a) Q w.
Proof.
  intros HT Hk HQ. unfold finalizeTerminal. apply know_bind, know_bind, (know_wait _ _ _ L eof); [done|by intros; right; right|].
  intros e w2 Hi2 Hn2 Hk2 Hx2 Hc2 _. apply (Told_near _ _ w w2 Hn2) in HT.
  assert (∀ w', inv ByEither w' → finished w' → run (Ret a) Q w') as Hret.
  { intros w' _ Hf. apply know_ret. intros w'' Hr Hi. apply HQ; [done|]. by apply (oc_finished_rely w'). }
  destruct saw.
  - apply know_ret. intros w3 Hr3 Hi3. apply Hret; [done|]. apply (oc_finished_rely w2); [done|]. unfold finished. rewrite (k_given _ _ _ _ Hk2). exact HT.
  - destruct HT as [Hb Hc]. apply know_bind, (know_get _ _ _ _ L eof); [done|]. intros w3 w4 Hi3 Hn3 Hk3 Hi4 Hn4 Hk4.
    apply know_bind, (know_OnEvent _ _ _ _ L eof); [done|]. intros ok w5 Hi5 Hn5 Hk5. apply know_ret. intros w6 Hr6 Hi6.
    apply Hret; [done|]. apply (oc_finished_rely w5); [done|]. unfold finished. rewrite (k_given _ _ _ _ Hk5). split; [by apply oc_begun_app|].
    assert (near ByEither w3 w5) as Hn35 by by etrans. assert (near ByEither w2 w5) as Hn25 by by etrans.
    apply ended_terminal; [done|unfold synthesizeFromExit; by repeat case_match|].
    case_bool_decide as Ht; [right; left; split; [done|by apply (near_marks ByEither w3 w5)]|].
    case_bool_decide as Hu; [right; right; left; split; [done|by apply (near_marks ByEither w3 w5)]|].
    right; right; right. exists e. pose proof (n_exit _ _ _ Hn25 _ Hx2). destruct (n_err _ _ _ Hn25 Hc2) as [? ->]. do 2 (split; [done|]). split; [|done]. intros ->.
    destruct (k_tame _ _ _ _ Hk3) as [Hm|Hx].
    + apply (n_killed _ _ _ Hn3). by apply (inv_signalled _ _ Hi2).
    + destruct (marks w3) as [|[] l]; [done|destruct Hu; by left|destruct Ht; by left].
    + by rewrite (n_ctx _ _ _ Hn35).
Qed.
(** Having killed the process for a reason that was noted. *)
Lemma run_stop {A} saw L (a : A) (Q : A → World → Prop) w : Told saw L w → knows ByEither L false w → ctx w ≠ None ∨ CancelTimeout ∈ marks w →
  (∀ w', inv ByEither w' → finished w' → Q a w') → run (_ ← kill; _ ← readerDone; _ ← finalizeTerminal runID engine model saw; Ret a) Q w.
Proof.
  intros HT Hk Hwhy HQ. apply know_bind, (know_kill _ _ _ L false); [done|destruct Hwhy as [?|Hin]; [by right|left; by destruct (marks w); [apply elem_of_nil in Hin|]]|].
  intros w1 Hi1 Hn1 Hk1 Hkd. apply know_bind, (know_readerDone _ _ _ L false); [done|..].
  - intros w2 Hi2 Hn2 Hk2 Hf2. right; left. split; [apply Hk2|]. split; [done|]. split; [by apply (n_killed _ _ _ Hn2)|].
    assert (near ByEither w w2) as Hn by by etrans. destruct Hwhy as [Hx|Hin]; [left; by rewrite (n_ctx _ _ _ Hn)|right; left; by apply (near_marks ByEither w)].
  - intros w2 Hi2 Hn2 Hk2 _. apply (run_finalize saw L false); [|done..]. apply (Told_near _ _ w); [by etrans|done].
Qed.
(** The sink has refused an event. *)
Lemma oc_run_refused {A} (a : A) L e (Q : A → World → Prop) w : given w = L ++ [(e, false)] → reader w ≠ NotStarted →
  (∀ w', inv ByEither w' → near ByEither w w' → given w' = given w → Q a w') → run (_ ← kill; _ ← readerDone; _ ← wait; Ret a) Q w.
Proof.
  intros Hg Hs HQ. apply know_bind, wp_kill. intros w1 Hi1 Hn1 Hv1 Hkd. injection Hv1 as Hg1 _ _ _.
  apply know_bind, wp_readerDone.
  - intros w2 Hr2 Hi2 Hf2. right; left. pose proof (r_near _ _ _ Hr2) as Hn2. pose proof (r_view _ _ _ Hr2) as Hv2. injection Hv2 as Hg2 _ _ _.
    split; [by apply (n_started _ _ _ Hn2), (n_started _ _ _ Hn1)|]. split; [done|]. split; [by apply (n_killed _ _ _ Hn2)|].
    right; right. exists L, e. congruence.
  - intros w2 Hi2 Hn2 Ht2 Hv2 _. injection Hv2 as Hg2 _ _ _. apply know_bind, wp_wait; [by intros; right; right|].
    intros x err w3 Hi3 Hn3 Ht3 Hv3 _ _ _ _. injection Hv3 as Hg3 _ _ _. apply know_ret. intros w4 Hr4 Hi4.
    pose proof (r_view _ _ _ Hr4) as Hv4. injection Hv4 as Hg4 _ _ _. apply HQ; [done| |congruence].
    etrans; [exact Hn1|]. etrans; [exact Hn2|]. etrans; [exact Hn3|apply Hr4].
Qed.

Lemma run_received l b saw w : inv ByEither w → Streaming saw w → mkChunk (Some l) b ∈ got w →
  run (match parseLine jsonError l, saw with
       | NoContent, _ | _, true => Ret (inl saw)
       | Malformed ev, false =>
           _ ← save (Bytes (redactSecrets l));
           _ ← match ev with Some e => forward sourceOf runID engine model e | None => Ret true end;
           Ret (inl false)
       | Content e, false =>
           ok ← forward sourceOf runID engine model (usageMapped e);
           if ok : bool then Ret (inl (agent.IsTerminal (Type_ (usageMapped e))))
           else _ ← kill; _ ← readerDone; _ ← wait; Ret (inr ())
       end)
    (λ r w', match r with inl saw => Streaming saw w' | inr () => finished w' end) w.
Proof.
  intros Hi (L & HT & Hk) Hgot.
  assert (∀ w', inv ByEither w' → Streaming saw w' → run (Ret (inl saw)) (λ r w', match r with inl saw => Streaming saw w' | inr () => finished w' end) w') as Hsame.
  { intros w' _ Hs. apply know_ret. intros w2 Hr2 _. by apply (oc_Streaming_rely saw w'). }
  destruct (parseLine jsonError l) as [|e|ev] eqn:Hp; [by apply Hsame; [|exists L]| |].
  - destruct saw; [by apply Hsame; [|exists L]|]. destruct HT as [Hb Hc].
    apply know_bind, (know_OnEvent _ _ _ _ L false); [done|]. intros ok w1 Hi1 Hn1 Hk1. destruct ok.
    + apply know_ret. intros w2 Hr2 _. eapply oc_Streaming_rely; [done|]. eexists. split; [|exact Hk1]. split; [by apply oc_begun_app|].
      destruct (agent.IsTerminal (Type_ (usageMapped e))) eqn:Ht.
      * apply ended_terminal; [done|by rewrite dressed_terminal|].
        left. exists l, b, e. split; [by apply (near_got ByEither w)|done].
      * apply calm_snoc; [done|by rewrite dressed_terminal].
    + apply (oc_run_refused _ L (dress (usageMapped e))); [apply Hk1|apply Hk1|]. intros w2 _ Hn2 Hg2. apply (oc_finished_near w1); [done..|].
      unfold finished. rewrite (k_given _ _ _ _ Hk1). split; [by apply oc_begun_app|].
      exists L, (dress (usageMapped e)), false. split; [done|]. split; [done|]. destruct (terminal (dress (usageMapped e))); [left|by right].
      split; [done|]. left. exists l, b, e. split; [by apply (near_got ByEither w)|done].
  - destruct saw; [by apply Hsame; [|exists L]|]. destruct HT as [Hb Hc].
    apply know_bind, (know_save _ _ _ _ L false); [done|]. intros w1 Hi1 Hn1 Hk1. destruct ev as [e|].
    + apply know_bind, (know_OnEvent _ _ _ _ L false); [done|]. intros ok w2 Hi2 _ Hk2. apply know_ret. intros w3 Hr3 _.
      apply (oc_Streaming_rely false w2); [done|]. eexists. split; [|exact Hk2]. split; [by apply oc_begun_app|].
      apply calm_snoc; [done|]. by apply (malformed_calm l (Some e)).
    + apply know_bind, know_ret. intros w2 Hr2 _. apply know_ret. intros w3 Hr3 _. apply (oc_Streaming_rely false w2); [done|].
      apply (oc_Streaming_rely false w1); [done|]. by exists L.
Qed.
Lemma oc_run_selectOnce saw w : inv ByEither w → Streaming saw w →
  run (selectOnce jsonError sourceOf runID engine model saw) (λ r w', match r with inl saw => Streaming saw w' | inr () => finished w' end) w.
Proof.
  intros Hi (L & HT & Hk). unfold selectOnce. apply know_bind. apply (know_selectAll _ _ _ L); [done|..].
  - intros w' _ [_ He Hs _] Hx Hc. by left.
  - intros w' Hi' Hn' Hk' Hx. apply (run_stop saw L); [by apply (Told_near _ _ w)|done|by left|done].
  - intros w' Hi' Hn' Hk'. apply know_bind, (know_mark _ _ _ _ L false); [done|]. intros w2 Hi2 Hn2 Hk2 Hm.
    apply (run_stop saw L); [apply (Told_near _ _ w); [by etrans|done]|done|by right|done].
  - intros [[l|] more] w' Hi' Hn' Hk' Hin.
    + apply (run_received l more); [done| |done]. exists L. split; [by apply (Told_near _ _ w)|done].
    + destruct more.
      * apply know_ret; intros w2 Hr2 Hi2. apply (oc_Streaming_rely saw w'); [done|]. exists L. split; [by apply (Told_near _ _ w)|done].
      * apply know_bind, (know_readerDone _ _ _ L true); [done|..].
        -- intros w2 Hi2 _ Hk2 Hf. destruct Hf. apply (inv_eof _ _ Hi2). right. apply Hk2.
        -- intros w2 Hi2 Hn2 Hk2 _. apply (run_finalize saw L true); [apply (Told_near _ _ w); [by etrans|done]|done..].
Qed.
Lemma oc_run_supervise w : given w = [] → eofSeen w = false → reader w = NotStarted → killed w = false →
  run (supervise jsonError sourceOf runID engine model isResume) (λ _, finished) w.
Proof.
  intros Hg He Hrd Hkd. unfold supervise.
  assert (∀ w1, finished w1 → run unregister (λ _, finished) w1) as Hend.
  { intros w1 Hf. apply wp_unregister. intros w2 _ Hn2 _ Hg2 _. by apply (oc_finished_near w1). }
  apply know_bind, (rg_mono _ _ _ (λ _, finished)); [intros [] w1 _ Hf; by apply Hend|]. unfold superviseBody.
  apply know_bind, wp_OnEvent. intros ok w1 Hi1 Hn1 Ht1 Hid Hv1. injection Hv1 as Hg1 _ He1 _. rewrite Hg in Hg1.
  destruct ok.
  - apply know_bind, wp_goReader; [by apply Hid|congruence|]. intros w2 Hi2 Hn2 Ht2 Hv2 Hs2. injection Hv2 as Hg2 _ He2 _.
    apply (wp_loop _ _ _ _ Streaming).
    + intros saw w3 Hi3 Hs3. eapply rg_mono; [|by apply oc_run_selectOnce]. intros [saw'|[]] w4 _ H4; [done|].
      intros w5 Hr5 _. by apply (oc_finished_rely w4).
    + intros saw w3 w4 Hr4 _. by apply oc_Streaming_rely.
    + exists [(first, true)]. split; [split; [by eexists _, _|]|].
      * constructor; [exact first_calm|constructor].
      * split; [by rewrite Hg2, Hg1|congruence|done|]. apply Ht2, Ht1. intros Hx. congruence.
  - apply know_bind, wp_kill. intros w2 Hi2 Hn2 Hv2 _. injection Hv2 as Hg2 _ _ _. apply know_bind, wp_wait; [by intros; right; right|].
    intros x err w3 Hi3 Hn3 _ Hv3 _ _ _ _. injection Hv3 as Hg3 _ _ _. apply know_ret. intros w4 Hr4 _. apply (oc_finished_rely w3); [done|].
    unfold finished. rewrite Hg3, Hg2, Hg1. split; [by eexists _, _|]. exists [], first, false. split; [done|]. split; [by constructor|]. right.
    split; [exact first_calm|done].
Qed.
End safety.

(** Any schedule of a run, with or without a timeout. *)
Definition reaches (jsonError : string → string → string) (sourceOf : json → string) (runID engine model : string) (isResume timeout : bool)
  (c : live.prog live.World () * live.World) : Prop :=
  rtc (live.sys (live.others Cancel timer)) (supervise jsonError sourceOf runID engine model isResume, live.fresh timeout) c.
Lemma oc_reaches_holds jsonError sourceOf runID engine model isResume timeout p w :
  reaches jsonError sourceOf runID engine model isResume timeout (p, w) →
  live.inv live.ByEither w ∧
  match live.returned p with
  | Some _ => finished jsonError sourceOf runID engine model isResume w
  | None => live.next p w = [] → Waits w
  end.
Proof.
  apply (live.wp_sound (PreOrder0 := live.rely_preorder _) (live.inv live.ByEither) (live.rely live.ByEither) Waits (live.others Cancel timer)
    _ p (λ _, finished jsonError sourceOf runID engine model isResume));
    [|split; cbn; try done; [intros s Hs%elem_of_nil; done|by intros [|]]|by apply oc_run_supervise].
  intros w1 w2. by apply live.others_rely.
Qed.

(** A run that is over began with its start, and told exactly one terminal event, at the
    end and for a reason, unless the sink refused an event; a process that a recorded
    cancellation or timeout killed is never reported by its exit. *)
Theorem opencode_one_terminal jsonError sourceOf runID engine model isResume timeout w :
  reaches jsonError sourceOf runID engine model isResume timeout (live.Ret (), w) →
  (∃ rest ok, live.given w = (openEvent runID engine model (if isResume then agent.EventRunResumed else agent.EventRunStarted), ok) :: rest) ∧
  ∃ pre e ok, live.given w = pre ++ [(e, ok)] ∧ Forall (λ p, agent.IsTerminal (Type_ p.1) = false) pre ∧
    (agent.IsTerminal (Type_ e) = true ∧ justified jsonError sourceOf runID engine model w e ∨ agent.IsTerminal (Type_ e) = false ∧ ok = false).
Proof. intros H. by destruct (oc_reaches_holds _ _ _ _ _ _ _ _ _ H) as [_ Hf]. Qed.
(** A supervisor that waits has a process that runs, a standard error that somebody holds, an output that is open or a reader
    that can move; or it hangs: its run timed out or its sink refused an event, and the
    reader waits to send. *)
Theorem opencode_waits_for jsonError sourceOf runID engine model isResume timeout p w :
  reaches jsonError sourceOf runID engine model isResume timeout (p, w) → live.returned p = None → live.next p w = [] →
  live.exit_ w = None ∨ live.copying w = true ∨
  (live.reader w = live.Reading ∧ live.stdout w = [] ∧ live.open_ w = true) ∨
  (∃ a, a ∈ [live.Read; live.Send; live.Quit] ∧ is_Some (live.act Cancel timer a w)) ∨
  ((∃ c, live.reader w = live.Sending c) ∧ live.chan w ≠ None ∧ live.ctx w = None ∧ (live.CancelTimeout ∈ live.marks w ∨ live.refused w)).
Proof.
  intros H Hp Hn. destruct (oc_reaches_holds _ _ _ _ _ _ _ _ _ H) as [Hi Hw]. rewrite Hp in Hw.
  destruct (Hw Hn) as [(He & Hs & Hx & Hc)|[(Hs & Hf & _ & Hc)|Hx]]; [| |destruct Hx; auto]; do 2 right.
  - assert (live.reader w ≠ live.Finished) as Hf.
    { intros Hf. destruct (live.inv_finished _ _ Hi Hf) as [?|[?|?]]; congruence. }
    destruct (live.reader_stuck Cancel timer w Hs Hf) as [?|[?|(? & ? & ?)]]; [by right; left|by left|done].
  - destruct (live.reader_stuck Cancel timer w Hs Hf) as [?|[?|(? & ? & ?)]]; [by right; left|by left|right; right].
    destruct Hc as [Hc|Hc]; [done|auto].
Qed.

(** ** Where the code does less than it says *)

Module Runs.
Import live. Open Scope prog_scope.
Definition noError (_ _ : string) : string := "error".
Definition noSource (_ : json) : string := "".
Definition run0 (timeout : bool) (l : list (Turn Act)) : option (prog World () * World) :=
  play (act Cancel timer) l (supervise noError noSource "r1" "opencode" "m" false, fresh timeout).
Definition stops (c : option (prog World () * World)) : bool :=
  match c with Some (p, w) => match returned p, next p w with None, [] => true | _, _ => false end | None => false end.
Definition over (c : option (prog World () * World)) : bool := match c with Some (Ret tt, _) => true | _ => false end.
Definition world (c : option (prog World () * World)) : World := match c with Some (_, w) => w | None => fresh false end.
Definition told (c : option (prog World () * World)) : list (agent.EventType * bool) := (λ p, (Type_ p.1, p.2)) <$> given (world c).
Lemma oc_run0_reaches timeout l : over (run0 timeout l) = true → reaches noError noSource "r1" "opencode" "m" false timeout (Ret (), world (run0 timeout l)).
Proof.
  destruct (run0 timeout l) as [[p w]|] eqn:H; [|done]. intros Hp. apply play_sys in H. cbn in Hp |- *. destruct p as [[]| | |]; done.
Qed.
Lemma oc_stops_reaches timeout l : stops (run0 timeout l) = true →
  ∃ p, reaches noError noSource "r1" "opencode" "m" false timeout (p, world (run0 timeout l)) ∧ returned p = None ∧ next p (world (run0 timeout l)) = [].
Proof.
  destruct (run0 timeout l) as [[p w]|] eqn:H; [|done]. intros Hp. apply play_sys in H. cbn in Hp |- *. exists p.
  destruct (returned p); [done|]. by destruct (next p w).
Qed.
Definition field (k v : string) : string := strs.q k +:+ ":" +:+ v.
Definition object (l : list string) : string := "{" +:+ strs.Join l "," +:+ "}".
Definition textLine : string := object [field "type" (strs.q "text"); field "part" (object [field "text" (strs.q "hi"); field "messageID" (strs.q "m1")])].
Definition stepLine : string := object [field "type" (strs.q "step_start")].
Definition usageLine : string :=
  object [field "type" (strs.q "step_finish"); field "part" (object [field "tokens" (object [field "input" "3"; field "cache" (object [field "read" "2"])])])].
Definition say (s : string) : Turn Act := Other (Write (Some s)).
Definition recv : list (Turn Act) := [Other Read; Other Send; Go].
Definition started : list (Turn Act) := [Go; Own 0; Go].
Definition took : list (Turn Act) := [Own 0; Go].

(** A native stream: text, and usage at the end of a step; the exit completes it. *)
Definition completes : list (Turn Act) :=
  (started ++ [say stepLine; say textLine; say "noise"; say usageLine] ++ recv ++ recv ++ took ++ recv ++ took ++ recv ++ took
   ++ [Other (End 0 ""); Other Close; Other Copied] ++ recv ++ took)%list.
Lemma completes_natively :
  let c := run0 true completes in
  over c = true ∧ saved (world c) = [Bytes "noise"] ∧
  told c = [(agent.EventRunStarted, true); (agent.EventMessageDelta, true); (agent.EventWarning, true); (agent.EventUsageUpdated, true); (agent.EventRunCompleted, true)].
Proof. vm_compute. by repeat split. Qed.
(** Cancelled, the run says so, even when the end of the output is seen first. *)
Definition cancelled : list (Turn Act) :=
  (started ++ [Other CallCancel; Other (Caller 0); Other (Caller 0); Other (Caller 0); Other Die; Other Close; Other Copied; Other Read; Other Send; Own 1; Go] ++ took)%list.
Lemma cancelled_is_cancelled :
  let c := run0 true cancelled in over c = true ∧ exit_ (world c) = Some Signalled ∧ told c = [(agent.EventRunStarted, true); (agent.EventRunCancelled, true)].
Proof. vm_compute. by repeat split. Qed.
(** A timeout while output is waiting hangs the run: the supervisor waits for the reader,
    the reader waits to send, and nobody ends the context. *)
Definition timed_out : list (Turn Act) :=
  (started ++ [say textLine; say textLine; Other Read; Other Send; Other Read; Other Tick; Other (Caller 0); Own 0; Go; Other Die; Other Close; Other Copied])%list.
Lemma timed_out_run_hangs :
  let c := run0 true timed_out in
  stops c = true ∧ exit_ (world c) = Some Signalled ∧ open_ (world c) = false ∧
  Forall (λ a, act Cancel timer a (world c) = None) [Read; Send; Quit; Close; Die; Tick] ∧ told c = [(agent.EventRunStarted, true)].
Proof. vm_compute. by repeat constructor. Qed.
(** So does a sink that refuses an event while output is waiting. *)
Lemma refused_event_hangs :
  let c := run0 false (started ++ [say textLine; say textLine; say textLine; Other Read; Other Send; Go; Other Read; Other Send; Other Read; Own 1; Go; Other Die; Other Close; Other Copied])%list in
  stops c = true ∧ exit_ (world c) = Some Signalled ∧ open_ (world c) = false ∧
  Forall (λ a, act Cancel timer a (world c) = None) [Read; Send; Quit; Close; Die; Tick].
Proof. vm_compute. by repeat constructor. Qed.
(** A run whose caller's context ends has failed, with the exit code of a signal. *)
Lemma parent_cancel_fails :
  let c := run0 false (started ++ [Other (Parent agent.Canceled); Go; Other Die; Other Close; Other Copied; Other Read; Other Quit; Go] ++ took)%list in
  over c = true ∧ told c = [(agent.EventRunStarted, true); (agent.EventRunFailed, true)].
Proof. vm_compute. by repeat split. Qed.
End Runs.
Import Runs.

Lemma opencode_one_terminal_witness :
  ∃ w, reaches noError noSource "r1" "opencode" "m" false true (live.Ret (), w) ∧ length (live.given w) = 5 ∧
  ∃ pre e ok, live.given w = pre ++ [(e, ok)] ∧ Forall (λ p, agent.IsTerminal (Type_ p.1) = false) pre ∧
    (agent.IsTerminal (Type_ e) = true ∧ justified noError noSource "r1" "opencode" "m" w e ∨ agent.IsTerminal (Type_ e) = false ∧ ok = false).
Proof.
  exists (world (run0 true completes)).
  assert (reaches noError noSource "r1" "opencode" "m" false true (live.Ret (), world (run0 true completes))) as H by (apply oc_run0_reaches; by vm_compute).
  split; [exact H|]. split; [by vm_compute|]. apply (opencode_one_terminal _ _ _ _ _ _ _ _ H).
Defined.
Lemma opencode_waits_for_witness :
  let w := world (run0 true timed_out) in
  live.exit_ w = Some live.Signalled ∧
  (live.exit_ w = None ∨ live.copying w = true ∨
   (live.reader w = live.Reading ∧ live.stdout w = [] ∧ live.open_ w = true) ∨
   (∃ a, a ∈ [live.Read; live.Send; live.Quit] ∧ is_Some (live.act Cancel timer a w)) ∨
   ((∃ c, live.reader w = live.Sending c) ∧ live.chan w ≠ None ∧ live.ctx w = None ∧ (live.CancelTimeout ∈ live.marks w ∨ live.refused w))).
Proof.
  split; [by vm_compute|].
  destruct (oc_stops_reaches true timed_out) as (p & H & Hp & Hn); [by vm_compute|]. apply (opencode_waits_for _ _ _ _ _ _ _ _ _ H Hp Hn).
Defined.

(** A binary that is named but does not exist counts as installed. *)
Lemma missing_binary_installed :
  Installed (Detect (λ _, Err "not found") (λ _, Err "no such file") (mkOptions "/nowhere" "" []) None).1 = true.
Proof. done. Qed.
(** Any text with a word such as "flaws" or "draws" names a provider. *)
Lemma flaws_are_aws : annotateProvider "" "two flaws found" = "provider=aws".
Proof. by vm_compute. Qed.
(** The values of an argument list may be flags where they are not checked. *)
Lemma extra_share_passed :
  buildArgv (mkOptions "oc" "--share" ["--share"]) "oc" (mkRequest "" "" "" "--share" "p" "" [] 0 "") false =
  Ok ["oc"; "run"; "--format"; "json"; "--dir"; "--share"; "--agent"; "--share"; "--share"; "--"; "p"].
Proof. by vm_compute. Qed.
(** A resumed run has no prompt at all. *)
Lemma resumed_without_prompt req : promptArgs (resumeRequest req) = [].
Proof. done. Qed.
(** Secrets are taken out; the words around them stay. *)
Lemma redaction_demo : redactSecrets "401 unauthorized: token=abcdefghijklm" = "401 unauthorized: token=***".
Proof. by vm_compute. Qed.
(** A blank between the sign and the value keeps the secret. *)
Lemma spaced_secret_kept : redactSecrets "password: hunter2hunter2" = "password: hunter2hunter2".
Proof. by vm_compute. Qed.
End opencode.
