(* ===== verification/Trace.v ===== *)
(** * Trace: what a program did, in order

    Adapters that drive an external program or service are processes whose
    steps are calls to the outside.  [logged] makes each call leave an event
    with its answer, [sim] says that logging changes nothing else, and [lwp] is
    the logic of [Process] for statements about the log alone: between two
    calls the outside may change in any way.  [life_sound] reads them over
    every life of a program, unfinished ones included. *)
From S2P Require Import Prelude Process.
Create HintDb trace.

Module trace.
Import process.

Section trace.
  Context {W Ev : Type}.

Definition logged {B} (ev : B → Ev) (f : W → B * W) : W * list Ev → B * (W * list Ev) :=
  λ '(w, l), let '(b, w') := f w in (b, (w', l ++ [ev b])).

(** ** Logging is invisible *)

Definition sim {E A} (p : proc W E A) (p' : proc (W * list Ev) E A) : Prop :=
  ∀ w l, (run p' (w, l)).1 = (run p w).1 ∧ (run p' (w, l)).2.1 = (run p w).2.

Lemma sim_ret {E A} (a : A) : sim (E := E) (mret a) (mret a).
Proof. done. Qed.
Lemma sim_throw {E A} (e : E) : sim (A := A) (Throw e) (Throw e).
Proof. done. Qed.
Lemma sim_atomic {E A} (f : W → A * W) ev : sim (E := E) (atomic f) (atomic (logged ev f)).
Proof. intros w l. simpl. by destruct (f w). Qed.
Lemma sim_read {E A} (f : W → A) : sim (E := E) (read f) (read (λ s, f s.1)).
Proof. done. Qed.
Lemma sim_bind {E A B} (p : proc W E A) p' (f : A → proc W E B) f' :
  sim p p' → (∀ a, sim (f a) (f' a)) → sim (p ≫= f) (p' ≫= f').
Proof.
  intros Hp Hf w l. rewrite !run_bind. destruct (Hp w l) as [H1 H2].
  destruct (run p w) as [[a|e] w1], (run p' (w, l)) as [r [w2 l2]]; simpl in *; subst; [apply Hf|done].
Qed.
Lemma sim_catch {E E' A} (p : proc W E A) p' : sim p p' → sim (catch (E' := E') p) (catch p').
Proof. intros Hp w l. rewrite !run_catch. simpl. destruct (Hp w l) as [-> ->]. done. Qed.
Lemma sim_mapErr {E E' A} (g : E → E') (p : proc W E A) p' : sim p p' → sim (mapErr g p) (mapErr g p').
Proof. intros Hp w l. rewrite !run_mapErr. simpl. destruct (Hp w l) as [-> ->]. done. Qed.
Lemma sim_ignore {E E' A} (p : proc W E A) p' : sim p p' → sim (ignore (E' := E') p) (ignore p').
Proof. intros Hp. apply sim_bind; [by apply sim_catch|]. intros a. apply sim_ret. Qed.

(** ** A logic of logs *)

Section logic.
  Context (I : list Ev → Prop).

Definition others (s s' : W * list Ev) : Prop := s.2 = s'.2.
Definition extends (s s' : W * list Ev) : Prop := ∃ l, s'.2 = s.2 ++ l.

#[local] Instance others_preorder : PreOrder others.
Proof. unfold others. split; [done|]. intros x y z. congruence. Qed.

Definition lwp {E A} (p : proc (W * list Ev) E A) (P : result E A → list Ev → Prop) (l : list Ev) : Prop :=
  ∀ w, wp (λ s, I s.2) others extends p (λ r s, P r s.2) (w, l).

Lemma lwp_mono {E A} (p : proc (W * list Ev) E A) (P P' : result E A → list Ev → Prop) l :
  (∀ r l', I l' → P r l' → P' r l') → lwp p P l → lwp p P' l.
Proof. intros HP H w. eapply wp_mono; [|apply H]. intros r s. apply HP. Qed.

Lemma lwp_ret {E A} (a : A) (P : result E A → list Ev → Prop) l : P (Ok a) l → lwp (mret a) P l.
Proof. intros H w s Hs _. unfold others in Hs. simpl in *. by subst. Qed.

Lemma lwp_throw {E A} (e : E) (P : result E A → list Ev → Prop) l : P (Err e) l → lwp (Throw e) P l.
Proof. intros H w s Hs _. unfold others in Hs. simpl in *. by subst. Qed.

Lemma lwp_bind {E A B} (p : proc (W * list Ev) E A) (f : A → proc (W * list Ev) E B) (P : result E B → list Ev → Prop) l :
  I l → lwp p (λ r l', match r with Ok a => lwp (f a) P l' | Err e => P (Err e) l' end) l → lwp (p ≫= f) P l.
Proof.
  intros Hi H w. apply wp_bind; [apply _|done|]. eapply wp_mono; [|apply H]. intros [a|e] [w' l'] _ Hr; [apply Hr|done].
Qed.

Lemma lwp_catch {E E' A} (p : proc (W * list Ev) E A) (P : result E' (result E A) → list Ev → Prop) l :
  lwp p (λ r l', P (Ok r) l') l → lwp (catch p) P l.
Proof. intros H w. apply wp_catch, H. Qed.

Lemma lwp_mapErr {E E' A} (g : E → E') (p : proc (W * list Ev) E A) (P : result E' A → list Ev → Prop) l :
  lwp p (λ r l', P (match r with Ok a => Ok a | Err e => Err (g e) end) l') l → lwp (mapErr g p) P l.
Proof. intros H w. apply wp_mapErr, H. Qed.

Lemma lwp_ignore {E E' A} (p : proc (W * list Ev) E A) (P : result E' () → list Ev → Prop) l :
  I l → lwp p (λ _ l', P (Ok ()) l') l → lwp (ignore p) P l.
Proof.
  intros Hi H. apply lwp_bind; [done|]. apply lwp_catch. eapply lwp_mono; [|exact H]. intros r l' _ Hp. by apply lwp_ret.
Qed.

Lemma lwp_atomic {E A} (f : W → A * W) ev (P : result E A → list Ev → Prop) l :
  (∀ a, I (l ++ [ev a]) ∧ P (Ok a) (l ++ [ev a])) → lwp (atomic (logged ev f)) P l.
Proof.
  intros H w [w' l'] Hs _. unfold others in Hs. simpl in *. subst l'. destruct (f w') as [a w'']. simpl.
  destruct (H a) as [H1 H2]. split; [done|]. split; [by exists [ev a]|]. by apply lwp_ret.
Qed.

Lemma lwp_read {E A} (f : W → A) (P : result E A → list Ev → Prop) l :
  (∀ a, P (Ok a) l) → lwp (read (λ s : W * list Ev, f s.1)) P l.
Proof.
  intros H w [w' l'] Hs Hi. unfold others in Hs. simpl in *. subst l'. split; [done|].
  split; [by exists []; rewrite app_nil_r|]. by apply lwp_ret.
Qed.

(** An early return. *)
Lemma lwp_guard {E A} (bad : bool) e (m : proc (W * list Ev) E A) (P : result E A → list Ev → Prop) l :
  P (Err e) l → (bad = false → lwp m P l) → lwp (if bad then Throw e else m) P l.
Proof. intros He Hm. destruct bad; [by apply lwp_throw|auto]. Qed.

End logic.

(** ** Logs in which each event was allowed when it happened *)

Section ordered.
  Context (ok : list Ev → Ev → Prop).

Definition ordered (l : list Ev) : Prop := ∀ l1 e l2, l = l1 ++ e :: l2 → ok l1 e.

Lemma ordered_empty : ordered [].
Proof. by intros [] ?? [=]. Qed.

Lemma ordered_event l e : ordered l → ok l e → ordered (l ++ [e]).
Proof.
  intros Hl He l1 e' l2 Heq. destruct l2 as [|x l2 _] using rev_ind.
  - by apply app_inj_tail in Heq as [-> ->].
  - rewrite app_comm_cons, app_assoc in Heq. apply app_inj_tail in Heq as [-> _]. by eapply Hl.
Qed.

Lemma lwp_event {E A} (f : W → A * W) ev (P : result E A → list Ev → Prop) l :
  ordered l → (∀ a, ok l (ev a)) → (∀ a, ordered (l ++ [ev a]) → P (Ok a) (l ++ [ev a])) →
  lwp ordered (atomic (logged ev f)) P l.
Proof. intros Hl Ho HP. apply lwp_atomic. intros a. pose proof (ordered_event l (ev a) Hl (Ho a)). auto. Qed.

End ordered.

(** ** Lives *)

(** One program and the log it started from: it moves, or the outside does.
    Where it is cut off is anywhere on the way. *)
Inductive tstep {E A} : proc (W * list Ev) E A * (W * list Ev) → proc (W * list Ev) E A * (W * list Ev) → Prop :=
| t_move B (f : W * list Ev → B * (W * list Ev)) k s : tstep (Call f k, s) (k (f s).1, (f s).2)
| t_other p s s' : others s s' → tstep (p, s) (p, s').

Definition life {E A} (p : proc (W * list Ev) E A) (w : W) (p' : proc (W * list Ev) E A) (l : list Ev) : Prop :=
  ∃ w', rtc tstep (p, (w, [])) (p', (w', l)).

Lemma wp_tstep {E A} (I : list Ev → Prop) (P : result E A → list Ev → Prop) p s p' s' :
  tstep (p, s) (p', s') → I s.2 → wp (λ s, I s.2) others extends p (λ r s, P r s.2) s →
  I s'.2 ∧ wp (λ s, I s.2) others extends p' (λ r s, P r s.2) s'.
Proof.
  inversion_clear 1 as [B f k|? ? ? Ho]; intros Hi Hp.
  - destruct (Hp s) as (Hi' & _ & Hk); done.
  - split; [by rewrite <- Ho|]. eapply wp_rely; [apply others_preorder|done|done].
Qed.

Lemma life_sound {E A} (I : list Ev → Prop) (p : proc (W * list Ev) E A) P w p' l :
  I [] → lwp I p P [] → life p w p' l →
  I l ∧ (∀ a, p' = Ret a → P (Ok a) l) ∧ (∀ e, p' = Throw e → P (Err e) l).
Proof.
  intros Hi Hp [w' Hl].
  assert (∀ c, rtc tstep (p, (w, [])) c → I c.2.2 ∧ wp (λ s, I s.2) others extends c.1 (λ r s, P r s.2) c.2) as H.
  { apply rtc_ind_r; [split; [done|apply Hp]|]. intros [p1 s1] [p2 s2] _ Hs [IH1 IH2]. by eapply wp_tstep. }
  destruct (H _ Hl) as [HI Hw]. simpl in *. split; [done|]. split; intros a ->; by apply (Hw (w', l)).
Qed.

Lemma run_life {E A} (p : proc (W * list Ev) E A) s :
  rtc tstep (p, s) (match (run p s).1 with Ok a => Ret a | Err e => Throw e end, (run p s).2).
Proof.
  revert s. induction p as [a|e|B f k IH]; intros s; simpl; [done|done|].
  eapply rtc_l; [apply t_move|]. destruct (f s) as [b s']. apply IH.
Qed.

End trace.

End trace.

#[export] Hint Resolve trace.sim_ret trace.sim_throw trace.sim_atomic trace.sim_read trace.sim_bind trace.sim_catch trace.sim_mapErr
  trace.sim_ignore : trace.
