(* ===== verification/LocalGit.v ===== *)
(** * LocalGit: the local Git change-request provider

    Models [internal/adapter/vcs/localgit/provider.go]: every operation as a
    process whose steps are the commands it gives to Git and the file it
    writes.  What Git answers is not fixed ([Host]).  The theorems are about
    the commands, in every life of an operation, whatever else changes the
    checkout between two of them. *)
From S2P Require Import Prelude Text Process Vcs Json Trace.

Module localgit.
Import process.

Definition EngineID : vcs.ProviderID := vcs.ProviderLocalGit.

(** [Provider]; its field [Now] is never read. *)
Record Provider := mkProvider { CheckoutPath : string; GitPath : string }.
Definition New (checkoutPath : string) : Provider := mkProvider checkoutPath "git".

(** How [cmd.Output] fails: the process ended with an error, or it did not
    start. *)
Inductive failure := exited (stderr text : string) | notStarted (text : string).

(** Git and the file system. *)
Record Host (W : Type) := mkHost {
  Output : string → list string → W → result failure string * W;
  MkdirAll : string → Z → W → option string * W;
  WriteFile : string → string → Z → W → option string * W }.
Arguments Output {W}. Arguments MkdirAll {W}. Arguments WriteFile {W}.

Definition networkSubs : list string :=
  ["push"; "fetch"; "pull"; "clone"; "ls-remote"; "send-pack"; "fetch-pack"].
Definition isNetworkSub (a : string) : bool := bool_decide (a ∈ networkSubs).

Definition text_ (s : string) : vcs.error := vcs.mkError [] s.
(** [fmt.Errorf("<pre>%w<post>", err)]. *)
Definition around (pre post : string) (e : vcs.error) : vcs.error :=
  vcs.mkError (vcs.chain e) (pre +:+ vcs.Error e +:+ post).

(** [strings.Map]: rune by rune, where an invalid byte is the replacement rune. *)
Definition mapRunes (f : Z → Z) (s : string) : string :=
  strs.Join (json.EncodeRune ∘ f <$> utf8.runes s) "".

Definition backupRef (taskID sha : string) : string :=
  let seg := mapRunes (λ r, if (r =? 47)%Z || (r =? 32)%Z || (r =? 58)%Z then 45%Z else r) taskID in
  let seg := if bool_decide (seg = "") then "x" else seg in
  "refs/forge/backup/" +:+ seg +:+ "-" +:+ strs.take_bytes 8 sha.

Definition Capabilities : vcs.Capabilities :=
  vcs.mkCapabilities false false false false false true true false.

Section localgit.
  Context {W : Type} (h : Host W) (p : Provider).

Definition gitBinary : string := if bool_decide (GitPath p = "") then "git" else GitPath p.

(** On an error the text is what Git wrote to its standard error. *)
Definition run (args : list string) : proc W (string * vcs.error) string :=
  match List.find isNetworkSub args with
  | Some a => Throw ("", vcs.wrap vcs.ErrNetworkLocked ("localgit refuses " +:+ strs.q a))
  | None =>
      r ← atomic (Output h gitBinary (["-C"; CheckoutPath p] ++ args));
      match r with
      | Ok out => mret out
      | Err (exited stderr t) => Throw (stderr, text_ ("git " +:+ strs.Join args " " +:+ ": " +:+ t))
      | Err (notStarted t) => Throw ("", text_ ("git " +:+ strs.Join args " " +:+ ": " +:+ t))
      end
  end.

(** [if _, err := p.run(...); err != nil { return err }], and the form that
    reports what Git printed. *)
Definition plain (args : list string) : proc W vcs.error string := mapErr snd (run args).
Definition told (pre : string) (args : list string) : proc W vcs.error string :=
  mapErr (λ '(out, e), around pre (" [" +:+ out +:+ "]") e) (run args).

Definition revParse (ref : string) : proc W vcs.error string :=
  out ← plain ["rev-parse"; ref]; mret (strs.TrimSpace out).

Definition currentBranch : proc W vcs.error string :=
  out ← plain ["symbolic-ref"; "--short"; "HEAD"]; mret (strs.TrimSpace out).

Definition updateRef (ref sha : string) : proc W vcs.error () :=
  _ ← plain ["update-ref"; ref; sha]; mret ().

Definition hasConflictingChanges : proc W vcs.error bool :=
  out ← plain ["status"; "--porcelain"]; mret (negb (bool_decide (strs.TrimSpace out = ""))).

Definition doMerge (branch msg : string) : proc W vcs.error string :=
  let args := ["merge"; "--no-ff"] ++ (if bool_decide (msg = "") then [] else ["-m"; msg]) ++ [branch] in
  _ ← told ("localgit: merge " +:+ branch +:+ ": ") args;
  revParse "HEAD".

Definition doSquash (branch msg : string) : proc W vcs.error string :=
  let msg := if bool_decide (msg = "") then "Squash merge of " +:+ branch else msg in
  _ ← told ("localgit: squash " +:+ branch +:+ ": ") ["merge"; "--squash"; branch];
  _ ← told "localgit: squash commit: " ["commit"; "-m"; msg];
  revParse "HEAD".

Definition doCherryPick (branch baseBefore : string) : proc W vcs.error string :=
  let range := baseBefore +:+ ".." +:+ branch in
  r ← catch (run ["cherry-pick"; range]);
  match r with
  | Ok _ => revParse "HEAD"
  | Err (out, e) =>
      _ ← ignore (run ["cherry-pick"; "--abort"]);
      Throw (around ("localgit: cherry-pick " +:+ range +:+ ": ") (" [" +:+ out +:+ "]") e)
  end.

Definition writePatchFile (path content : string) : proc W string () :=
  r ← atomic (MkdirAll h (filepath.Dir path) 448);
  match r with
  | Some e => Throw e
  | None =>
      r ← atomic (WriteFile h path content 420);
      match r with Some e => Throw e | None => mret () end
  end.

Definition patchPath : string := filepath.Clean (CheckoutPath p +:+ "/.git/forge-patch.diff").

Definition doPatch (branch baseBefore : string) : proc W vcs.error () :=
  diffOut ← mapErr (λ '(_, e), around "localgit: patch diff: " "" e) (run ["diff"; baseBefore +:+ ".." +:+ branch]);
  if bool_decide (strs.TrimSpace diffOut = "") then Throw (text_ "localgit: patch is empty")
  else
    _ ← mapErr (λ e, text_ ("localgit: write patch: " +:+ e)) (writePatchFile patchPath diffOut);
    _ ← told "localgit: apply patch: " ["apply"; "--3way"; patchPath];
    _ ← told "localgit: patch add: " ["add"; "-A"];
    _ ← told "localgit: patch commit: " ["commit"; "-m"; "Apply patch from " +:+ branch];
    mret ().

Definition doRebase (branch : string) : proc W vcs.error string :=
  _ ← told ("localgit: fast-forward " +:+ branch +:+ ": ") ["merge"; "--ff-only"; branch];
  revParse "HEAD".

(** The switch of [Merge]: the new commit. *)
Definition integrate (req : vcs.MergeRequest) (baseBefore : string) : proc W vcs.error string :=
  match vcs.Merge_Method req with
  | vcs.MergeMethodMerge => doMerge (vcs.Merge_HeadBranch req) (vcs.CommitMessage req)
  | vcs.MergeMethodSquash => doSquash (vcs.Merge_HeadBranch req) (vcs.CommitMessage req)
  | vcs.MergeMethodCherryPick => doCherryPick (vcs.Merge_HeadBranch req) baseBefore
  | vcs.MergeMethodPatch => _ ← doPatch (vcs.Merge_HeadBranch req) baseBefore; revParse "HEAD"
  | vcs.MergeMethodRebase => doRebase (vcs.Merge_HeadBranch req)
  | vcs.MergeMethodOther m => Throw (text_ ("localgit: unsupported merge method " +:+ strs.q m))
  end.

Definition Merge (req : vcs.MergeRequest) : proc W vcs.error vcs.MergeResult :=
  if bool_decide (CheckoutPath p = "") then Throw (text_ "localgit: checkout path is required")
  else if bool_decide (vcs.Merge_HeadBranch req = "") then Throw (text_ "localgit: HeadBranch is required")
  else
    dirty ← hasConflictingChanges;
    if dirty : bool then Throw (text_ "localgit: checkout has uncommitted changes; refusing to merge (§17.5)")
    else
      baseBefore ← revParse "HEAD";
      current ← currentBranch;
      let target := if bool_decide (vcs.Merge_BaseBranch req = "") then current else vcs.Merge_BaseBranch req in
      _ ← mapErr (around "localgit: create backup ref: " "") (updateRef (backupRef (vcs.Merge_TaskID req) baseBefore) baseBefore);
      sha ← integrate req baseBefore;
      mret (vcs.mkMergeResult true (vcs.Merge_Method req) sha target).

Definition Revert (req : vcs.RevertRequest) : proc W vcs.error vcs.RevertResult :=
  if bool_decide (CheckoutPath p = "") then Throw (text_ "localgit: checkout path is required")
  else if bool_decide (vcs.Revert_CommitSHA req = "") then Throw (text_ "localgit: CommitSHA is required")
  else
    dirty ← hasConflictingChanges;
    if dirty : bool then Throw (text_ "localgit: checkout has uncommitted changes; refusing to revert (§17.5)")
    else
      _ ← told ("localgit: revert " +:+ vcs.Revert_CommitSHA req +:+ ": ") ["revert"; "--no-edit"; vcs.Revert_CommitSHA req];
      sha ← revParse "HEAD";
      mret (vcs.mkRevertResult true sha).

(** ** The provider *)

(** A Go call: the zero value beside an error. *)
Definition call {A} (zero : A) (m : proc W vcs.error A) (w : W) : (A * option vcs.error) * W :=
  match process.run m w with
  | (Ok a, w') => ((a, None), w')
  | (Err e, w') => ((zero, Some e), w')
  end.

Definition PushBranch (_ : vcs.PushBranchRequest) : proc W vcs.error vcs.PushResult :=
  Throw (vcs.Unsupported EngineID "PushBranch").
Definition CreateChangeRequest (_ : vcs.CreateChangeRequestRequest) : proc W vcs.error vcs.ChangeRequest :=
  Throw (vcs.Unsupported EngineID "CreateChangeRequest").
Definition UpdateChangeRequest (_ : vcs.UpdateChangeRequestRequest) : proc W vcs.error vcs.ChangeRequest :=
  Throw (vcs.Unsupported EngineID "UpdateChangeRequest").
Definition GetChecks (_ : vcs.GetChecksRequest) : proc W vcs.error vcs.CheckStatus :=
  Throw (vcs.Unsupported EngineID "GetChecks").
Definition EnableAutoMerge (_ : vcs.EnableAutoMergeRequest) : proc W vcs.error () :=
  Throw (vcs.Unsupported EngineID "EnableAutoMerge").

Definition zeroChangeRequest : vcs.ChangeRequest := vcs.mkChangeRequest "" 0 "" "" "" "" "" "" None.
Definition provider : vcs.ChangeRequestProvider W := {|
  vcs.ID := EngineID;
  vcs.Capabilities_ := Capabilities;
  vcs.PushBranch := λ req, call (vcs.mkPushResult "" "" "") (PushBranch req);
  vcs.CreateChangeRequest := λ req, call zeroChangeRequest (CreateChangeRequest req);
  vcs.UpdateChangeRequest := λ req, call zeroChangeRequest (UpdateChangeRequest req);
  vcs.GetChecks := λ req, call (vcs.mkCheckStatus false false false []) (GetChecks req);
  vcs.EnableAutoMerge := λ req w, let '((_, e), w') := call () (EnableAutoMerge req) w in (e, w');
  vcs.Merge := λ req, call (vcs.mkMergeResult false (vcs.MergeMethodOther "") "" "") (Merge req);
  vcs.Revert := λ req, call (vcs.mkRevertResult false "") (Revert req)
|}.
End localgit.

(** ** What is given to Git *)

Inductive event :=
| EGit (bin : string) (argv : list string) (r : result failure string)
| EMkdir (path : string) (r : option string)
| EWrite (path content : string) (r : option string).

Definition traced {W} (h : Host W) : Host (W * list event) := {|
  Output := λ bin argv, trace.logged (EGit bin argv) (Output h bin argv);
  MkdirAll := λ path mode, trace.logged (EMkdir path) (MkdirAll h path mode);
  WriteFile := λ path content mode, trace.logged (EWrite path content) (WriteFile h path content mode)
|}.

(** The event of [run args]. *)
Definition gitEv (p : Provider) (args : list string) (r : result failure string) : event :=
  EGit (gitBinary p) (["-C"; CheckoutPath p] ++ args) r.

(** The commands that change the branch, the index or the files of the checkout. *)
Definition changing : list string := ["merge"; "commit"; "cherry-pick"; "apply"; "add"; "revert"].
Definition writes (e : event) : bool :=
  match e with
  | EGit _ (_ :: _ :: sub :: _) _ => bool_decide (sub ∈ changing)
  | EGit _ _ _ => false
  | EMkdir _ _ | EWrite _ _ _ => true
  end.

(** What an operation may do at all: Git commands in the checkout without a
    network word, references under [refs/forge/backup/], the one patch file. *)
Definition confined (p : Provider) (e : event) : Prop :=
  match e with
  | EGit bin argv _ => bin = gitBinary p ∧ ∃ args, argv = ["-C"; CheckoutPath p] ++ args ∧
      Forall (λ a, a ∉ networkSubs) args ∧
      match args with
      | "update-ref" :: rest => ∃ taskID sha, rest = [backupRef taskID sha; sha]
      | _ => True
      end
  | EMkdir path _ => path = filepath.Dir (patchPath p)
  | EWrite path _ _ => path = patchPath p
  end.

(** Before a merge: a clean checkout was seen, and the commit the branch was at
    was saved under the backup reference of the task. *)
Definition backedUp (p : Provider) (taskID base current : string) (l : list event) : Prop :=
  ∃ st b c u rest,
    l = [gitEv p ["status"; "--porcelain"] (Ok st); gitEv p ["rev-parse"; "HEAD"] (Ok b);
         gitEv p ["symbolic-ref"; "--short"; "HEAD"] (Ok c);
         gitEv p ["update-ref"; backupRef taskID base; base] (Ok u)] ++ rest ∧
    strs.TrimSpace st = "" ∧ base = strs.TrimSpace b ∧ current = strs.TrimSpace c.

(** Before a revert: a clean checkout was seen. *)
Definition seenClean (p : Provider) (l : list event) : Prop :=
  ∃ st rest, l = gitEv p ["status"; "--porcelain"] (Ok st) :: rest ∧ strs.TrimSpace st = "".

(** Every event is confined, and before each writing one [ready] held. *)
Definition guarded (p : Provider) (ready : list event → Prop) : list event → Prop :=
  trace.ordered (λ l1 e, confined p e ∧ (writes e = true → ready l1)).

(** The log ends with a write that succeeded and a look at the new commit. *)
Definition landed (p : Provider) (sha : string) (l : list event) : Prop :=
  ∃ l0 args out head, l = l0 ++ [gitEv p args (Ok out); gitEv p ["rev-parse"; "HEAD"] (Ok head)] ∧
    writes (gitEv p args (Ok out)) = true ∧ sha = strs.TrimSpace head.

Definition answer (args : list string) (r : result failure string) : result (string * vcs.error) string :=
  match r with
  | Ok out => Ok out
  | Err (exited stderr t) => Err (stderr, text_ ("git " +:+ strs.Join args " " +:+ ": " +:+ t))
  | Err (notStarted t) => Err ("", text_ ("git " +:+ strs.Join args " " +:+ ": " +:+ t))
  end.

Lemma find_network args : List.find isNetworkSub args = None → Forall (λ a, a ∉ networkSubs) args.
Proof.
  intros H. apply Forall_forall. intros a Ha. pose proof (List.find_none _ _ H a) as Hn. unfold isNetworkSub in Hn.
  apply list_elem_of_In in Ha. by apply Hn, bool_decide_eq_false in Ha.
Qed.

Section commands.
  Context {W : Type} (h : Host W) (p : Provider) (ready : list event → Prop).

#[local] Abbreviation safe := (guarded p ready).

(** The commands an operation may give when its log is [l]. *)
Definition may (args : list string) (l : list event) : Prop :=
  (∀ r, writes (gitEv p args r) = true → ready l) ∧
  match args with "update-ref" :: rest => ∃ taskID sha, rest = [backupRef taskID sha; sha] | _ => True end.

Lemma lwp_run args (P : result (string * vcs.error) string → list event → Prop) l :
  safe l → may args l → (∀ e, P (Err e) l) → (∀ r, safe (l ++ [gitEv p args r]) → P (answer args r) (l ++ [gitEv p args r])) →
  trace.lwp safe (run (traced h) p args) P l.
Proof.
  intros Hs [Hm1 Hm2] He Hr. unfold run. destruct (List.find isNetworkSub args) eqn:Hf; [by apply trace.lwp_throw|].
  apply trace.lwp_bind; [done|]. apply trace.lwp_event; [done| |].
  - intros r. split; [|by apply Hm1]. split; [done|]. exists args. split; [done|]. split; [by apply find_network|done].
  - intros r Hs'. specialize (Hr r Hs'). unfold gitEv in *.
    destruct r as [out|[se t|t]]; [by apply trace.lwp_ret|by apply trace.lwp_throw..].
Qed.

(** The two forms of a call that gives up on an error. *)
Lemma lwp_step (g : string * vcs.error → vcs.error) args (P : result vcs.error string → list event → Prop) l :
  safe l → may args l → (∀ e l', P (Err e) l') →
  (∀ out, safe (l ++ [gitEv p args (Ok out)]) → P (Ok out) (l ++ [gitEv p args (Ok out)])) →
  trace.lwp safe (mapErr g (run (traced h) p args)) P l.
Proof. intros Hs Hm He Ho. apply trace.lwp_mapErr, lwp_run; [done..|]. intros [out|[se t|t]] Hs'; simpl; auto. Qed.

End commands.

Section merging.
  Context {W : Type} (h : Host W) (p : Provider).

Lemma backedUp_app taskID base current l l' : backedUp p taskID base current l → backedUp p taskID base current (l ++ l').
Proof. intros (st & b & c & u & rest & -> & H). exists st, b, c, u, (rest ++ l'). by rewrite <- app_assoc. Qed.

(** The invariant of a merge, and what an answer without error says. *)
Definition merging (req : vcs.MergeRequest) : list event → Prop :=
  guarded p (λ l, ∃ base current, backedUp p (vcs.Merge_TaskID req) base current l).

#[local] Abbreviation saved req base current l := (backedUp p (vcs.Merge_TaskID req) base current l).

Definition integrated (req : vcs.MergeRequest) (base current : string) (r : result vcs.error string) (l : list event) : Prop :=
  match r with Ok sha => saved req base current l ∧ landed p sha l | Err _ => True end.

Lemma may_write req base current args l :
  saved req base current l → match args with "update-ref" :: _ => False | _ => True end →
  may p (λ l, ∃ base current, saved req base current l) args l.
Proof.
  intros Hb Ha. split; [eauto|]. destruct args as [|a args]; [done|].
  repeat (destruct a as [|[[] [] [] [] [] [] [] []] a]; try done).
Qed.

(** After a write that succeeded: a look at the new commit. *)
Lemma lwp_landing req base current args out l :
  merging req (l ++ [gitEv p args (Ok out)]) → saved req base current l → writes (gitEv p args (Ok out)) = true →
  trace.lwp (merging req) (revParse (traced h) p "HEAD") (integrated req base current) (l ++ [gitEv p args (Ok out)]).
Proof.
  intros Hs Hb Hw. apply trace.lwp_bind; [done|].
  apply lwp_step; [done|by eapply may_write; [apply backedUp_app|]|done|].
  intros head Hs'. apply trace.lwp_ret. split; [by do 2 apply backedUp_app|].
  exists l, args, out, head. by rewrite <- app_assoc.
Qed.

(** One writing command; the commit is looked at at the end. *)
Ltac writing := apply trace.lwp_bind; [done|]; apply lwp_step; [done|by eapply may_write|done|]; intros ? ?;
  lazymatch goal with Hb : backedUp _ _ _ _ ?l |- context [?l ++ [?e]] => pose proof (backedUp_app _ _ _ _ [e] Hb) end.

Lemma lwp_cherryPick req base current l :
  merging req l → saved req base current l →
  trace.lwp (merging req) (doCherryPick (traced h) p (vcs.Merge_HeadBranch req) base) (integrated req base current) l.
Proof.
  intros Hs Hb.
  assert (∀ l e, merging req l → saved req base current l → trace.lwp (merging req)
    (_ ← ignore (run (traced h) p ["cherry-pick"; "--abort"]); Throw e) (integrated req base current) l) as Habort.
  { intros l' e Hs' Hb'. apply trace.lwp_bind; [done|]. apply trace.lwp_ignore; [done|].
    apply lwp_run; [done|by eapply may_write|intros; by apply trace.lwp_throw|intros; by apply trace.lwp_throw]. }
  apply trace.lwp_bind; [done|]. apply trace.lwp_catch.
  apply lwp_run; [done|by eapply may_write|intros []; by apply Habort|].
  intros [out|[se t|t]] Hs'; [by apply lwp_landing|apply Habort; [done|by apply backedUp_app]..].
Qed.

Lemma lwp_file {A} (f : W → A * W) ev req base current (P : result string A → list event → Prop) l :
  merging req l → saved req base current l → (∀ a, confined p (ev a)) →
  (∀ a, merging req (l ++ [ev a]) → P (Ok a) (l ++ [ev a])) → trace.lwp (merging req) (atomic (trace.logged ev f)) P l.
Proof. intros Hs Hb Hc. apply trace.lwp_event; [done|]. intros a. split; [apply Hc|eauto]. Qed.

Lemma lwp_patch req base current l :
  merging req l → saved req base current l →
  trace.lwp (merging req) (_ ← doPatch (traced h) p (vcs.Merge_HeadBranch req) base; revParse (traced h) p "HEAD")
    (integrated req base current) l.
Proof.
  intros Hs Hb. apply trace.lwp_bind; [done|]. unfold doPatch. writing. case_bool_decide; [by apply trace.lwp_throw|].
  apply trace.lwp_bind; [done|]. apply trace.lwp_mapErr. unfold writePatchFile.
  apply trace.lwp_bind; [done|]. eapply lwp_file; [done|done|done|]. intros [e|] Hs1; [by apply trace.lwp_throw|].
  apply trace.lwp_bind; [done|]. eapply lwp_file; [done|by do 2 apply backedUp_app|done|].
  intros [e|] Hs2; [by apply trace.lwp_throw|]. apply trace.lwp_ret.
  match goal with |- trace.lwp _ _ _ ?l' => assert (saved req base current l') as Hb' by (by do 3 apply backedUp_app) end.
  writing. writing. writing. apply trace.lwp_ret. by apply lwp_landing.
Qed.

Lemma lwp_integrate req base current l :
  merging req l → saved req base current l →
  trace.lwp (merging req) (integrate (traced h) p req base) (integrated req base current) l.
Proof.
  intros Hs Hb. unfold integrate. destruct (vcs.Merge_Method req).
  - unfold doMerge. writing. by apply lwp_landing.
  - unfold doSquash. writing. writing. by apply lwp_landing.
  - unfold doRebase. writing. by apply lwp_landing.
  - by apply lwp_cherryPick.
  - by apply lwp_patch.
  - by apply trace.lwp_throw.
Qed.

(** What a merge that answers without error did. *)
Definition merged (req : vcs.MergeRequest) (r : result vcs.error vcs.MergeResult) (l : list event) : Prop :=
  match r with
  | Ok res => ∃ base current,
      integrated req base current (Ok (vcs.CommitSHA res)) l ∧ vcs.Merged res = true ∧ vcs.Method res = vcs.Merge_Method req ∧
      vcs.MergeResult_BaseBranch res = (if bool_decide (vcs.Merge_BaseBranch req = "") then current else vcs.Merge_BaseBranch req)
  | Err _ => True
  end.

(** A command that changes nothing. *)
Ltac asking := apply trace.lwp_bind; [done|]; apply lwp_step; [done|by split|done|]; intros ? ?; apply trace.lwp_ret; cbn [app] in *.

Lemma lwp_Merge req : trace.lwp (merging req) (Merge (traced h) p req) (merged req) [].
Proof.
  unfold Merge. do 2 (case_bool_decide; [by apply trace.lwp_throw|]). assert (merging req []) as Hs by apply trace.ordered_empty.
  apply trace.lwp_bind; [done|]. asking. case_bool_decide; cbn [negb]; [|by apply trace.lwp_throw].
  apply trace.lwp_bind; [done|]. asking. apply trace.lwp_bind; [done|]. asking.
  apply trace.lwp_bind; [done|]. apply trace.lwp_mapErr, trace.lwp_bind; [done|].
  apply lwp_step; [done| |done|].
  { split; [done|]. by do 2 eexists. }
  intros u Hs'. apply trace.lwp_ret. cbn [app] in *. apply trace.lwp_bind; [done|].
  eapply trace.lwp_mono; [|eapply lwp_integrate; [done|by do 5 eexists]].
  intros [sha|e] l' _ Hr; [|done]. apply trace.lwp_ret. by do 2 eexists.
Qed.

Lemma lwp_Revert req :
  trace.lwp (guarded p (seenClean p)) (Revert (traced h) p req)
    (λ r l, ∀ res, r = Ok res → vcs.Reverted res = true ∧ landed p (vcs.RevertSHA res) l) [].
Proof.
  unfold Revert. do 2 (case_bool_decide; [by apply trace.lwp_throw|]).
  assert (guarded p (seenClean p) []) as Hs by apply trace.ordered_empty.
  apply trace.lwp_bind; [done|]. asking. case_bool_decide; cbn [negb]; [|by apply trace.lwp_throw].
  apply trace.lwp_bind; [done|]. apply lwp_step; [done| |done|].
  { split; [|done]. intros _ _. by do 2 eexists. }
  intros r Hs'. cbn [app] in *. apply trace.lwp_bind; [done|]. asking. apply trace.lwp_ret. intros ? [= <-].
  split; [done|]. by exists [gitEv p ["status"; "--porcelain"] (Ok out)], ["revert"; "--no-edit"; vcs.Revert_CommitSHA req], r, out0.
Qed.
End merging.

(** ** Theorems *)

(** Logging does not change an operation. *)
Lemma run_sim {W} (h : Host W) p args : trace.sim (run h p args) (run (traced h) p args).
Proof.
  unfold run. destruct (List.find isNetworkSub args); [apply trace.sim_throw|].
  apply trace.sim_bind; [apply trace.sim_atomic|]. intros [out|[se t|t]]; auto with trace.
Qed.
#[local] Hint Resolve run_sim : trace.

Lemma Merge_sim {W} (h : Host W) p req : trace.sim (Merge h p req) (Merge (traced h) p req).
Proof.
  assert (∀ ref, trace.sim (revParse h p ref) (revParse (traced h) p ref)) as Hrev by (intros; unfold revParse, plain; auto with trace).
  assert (∀ path c, trace.sim (writePatchFile h path c) (writePatchFile (traced h) path c)) as Hfile.
  { intros. unfold writePatchFile. apply trace.sim_bind; [apply trace.sim_atomic|]. intros [e|]; [auto with trace|].
    apply trace.sim_bind; [apply trace.sim_atomic|]. intros [e|]; auto with trace. }
  assert (∀ base, trace.sim (integrate h p req base) (integrate (traced h) p req base)) as Hint.
  { intros base. unfold integrate, doMerge, doSquash, doRebase, doCherryPick, doPatch, told.
    destruct (vcs.Merge_Method req); auto 8 with trace.
    - apply trace.sim_bind; [auto with trace|]. intros [a|[out e]]; auto with trace.
    - apply trace.sim_bind; [|auto]. apply trace.sim_bind; [auto with trace|]. intros diff. case_bool_decide; auto 10 with trace. }
  unfold Merge, hasConflictingChanges, currentBranch, updateRef, plain. do 2 (case_bool_decide; [auto with trace|]).
  apply trace.sim_bind; [auto with trace|]. intros []; auto 10 with trace.
Qed.

(** C29: A merge of the local provider gives Git commands in the checkout only, none
    of them with a network word, and writes no reference but backups and no file
    but the patch; before anything changes it saw a clean checkout and saved the
    commit the branch was at under the task's backup reference; and when it
    answers without error the last write succeeded and the commit it names is
    what HEAD is then.  This holds in every life of the call, whatever Git
    answers, whatever else changes the checkout in between, and wherever the
    call is cut off. *)
Theorem Merge_backed_up {W} (h : Host W) p req w m l :
  trace.life (Merge (traced h) p req) w m l →
  merging p req l ∧ ∀ res, m = Ret res → merged p req (Ok res) l.
Proof.
  intros Hl. destruct (trace.life_sound _ _ _ _ _ _ (trace.ordered_empty _) (lwp_Merge h p req) Hl) as (Hi & Hr & _).
  split; [done|]. intros res ->. by apply Hr.
Qed.

(** The same for a revert, which looks for a clean checkout but saves nothing. *)
Theorem Revert_seen_clean {W} (h : Host W) p req w m l :
  trace.life (Revert (traced h) p req) w m l →
  guarded p (seenClean p) l ∧ ∀ res, m = Ret res → vcs.Reverted res = true ∧ landed p (vcs.RevertSHA res) l.
Proof.
  intros Hl. destruct (trace.life_sound _ _ _ _ _ _ (trace.ordered_empty _) (lwp_Revert h p req) Hl) as (Hi & Hr & _).
  split; [done|]. intros res ->. by apply (Hr _ eq_refl).
Qed.

(** A Git whose branch is a list of commits: writing commands add one, unless
    they are in [bad]; [status] sees [st]. *)
Definition toy (st : string) (bad : list string) : Host nat := {|
  Output := λ _ argv n,
    match argv with
    | _ :: _ :: sub :: _ =>
        if bool_decide (sub ∈ bad) then (Err (exited "conflict" "exit status 1"), n)
        else if bool_decide (sub = "status") then (Ok st, n)
        else if bool_decide (sub = "rev-parse") then (Ok (text.line ("0123456789" +:+ pretty n)), n)
        else if bool_decide (sub = "symbolic-ref") then (Ok (text.line "main"), n)
        else if bool_decide (sub ∈ changing) then (Ok "", S n)
        else (Ok "diff", n)
    | _ => (Ok "", n)
    end;
  MkdirAll := λ _ _ n, (None, n);
  WriteFile := λ _ _ _ n, (None, n)
|}.
Definition request (m : vcs.MergeMethod) (head base : string) : vcs.MergeRequest :=
  vcs.mkMergeRequest "run 1/t" 0 head base "" m "".
Definition toyMerge (h : Host nat) (req : vcs.MergeRequest) : result vcs.error vcs.MergeResult * (nat * list event) :=
  process.run (Merge (traced h) (New "/co") req) (0, []).
(** The commands of a log, and whether they succeeded. *)
Definition commands (l : list event) : list (list string * bool) :=
  omap (λ e, match e with EGit _ argv r => Some (drop 2 argv, is_ok r) | _ => None end) l.

Lemma Merge_backed_up_witness :
  let req := request vcs.MergeMethodPatch "result" "" in
  let s := toyMerge (toy "" []) req in
  let res := vcs.mkMergeResult true vcs.MergeMethodPatch "01234567893" "main" in
  s.1 = Ok res ∧ merging (New "/co") req s.2.2 ∧ merged (New "/co") req (Ok res) s.2.2.
Proof.
  intros req s res. assert (s.1 = Ok res) as Hs by (vm_compute; reflexivity). split; [exact Hs|].
  pose proof (trace.run_life (Merge (traced (toy "" [])) (New "/co") req) (0, [])) as Hl.
  change (process.run _ _) with s in Hl. rewrite Hs in Hl. destruct s as [r [w' l]]. simpl in *.
  destruct (Merge_backed_up (toy "" []) (New "/co") req 0 (Ret res) l (ex_intro _ w' Hl)) as [H1 H2].
  split; [exact H1|exact (H2 res eq_refl)].
Defined.

(** What the provider announces is what it does: the other operations are
    refused as unsupported and touch nothing. *)
Lemma provider_capabilities {W} (h : Host W) p w :
  vcs.Capabilities_ (provider h p) = vcs.mkCapabilities false false false false false true true false ∧
  (∀ req, (vcs.PushBranch (provider h p) req w) = ((vcs.mkPushResult "" "" "", Some (vcs.Unsupported EngineID "PushBranch")), w)) ∧
  (∀ req, (vcs.CreateChangeRequest (provider h p) req w).2 = w ∧
     (vcs.CreateChangeRequest (provider h p) req w).1.2 = Some (vcs.Unsupported EngineID "CreateChangeRequest")) ∧
  (∀ req, (vcs.UpdateChangeRequest (provider h p) req w).2 = w ∧
     (vcs.UpdateChangeRequest (provider h p) req w).1.2 = Some (vcs.Unsupported EngineID "UpdateChangeRequest")) ∧
  (∀ req, (vcs.GetChecks (provider h p) req w).2 = w ∧
     (vcs.GetChecks (provider h p) req w).1.2 = Some (vcs.Unsupported EngineID "GetChecks")) ∧
  (∀ req, vcs.EnableAutoMerge (provider h p) req w = (Some (vcs.Unsupported EngineID "EnableAutoMerge"), w)).
Proof. done. Qed.

Definition dropBase (r : result vcs.error vcs.MergeResult) : result vcs.error (bool * vcs.MergeMethod * string) :=
  match r with Ok x => Ok (vcs.Merged x, vcs.Method x, vcs.CommitSHA x) | Err e => Err e end.

(** The base branch of a request is only reported, never merged into: the same
    commands are given whatever it says. *)
Lemma Merge_ignores_base {W} (h : Host W) p task n head sha m msg b1 b2 w :
  let r1 := process.run (Merge h p (vcs.mkMergeRequest task n head b1 sha m msg)) w in
  let r2 := process.run (Merge h p (vcs.mkMergeRequest task n head b2 sha m msg)) w in
  r1.2 = r2.2 ∧ dropBase r1.1 = dropBase r2.1.
Proof.
  unfold Merge. cbn [vcs.Merge_HeadBranch vcs.Merge_TaskID vcs.Merge_Method vcs.Merge_BaseBranch].
  do 2 (case_bool_decide; [done|]). rewrite !run_bind. destruct (process.run _ w) as [[d|e] w1]; [|done].
  destruct d; [done|]. rewrite !run_bind. destruct (process.run _ w1) as [[base|e] w2]; [|done].
  rewrite !run_bind. destruct (process.run _ w2) as [[cur|e] w3]; [|done].
  rewrite !run_bind. destruct (process.run _ w3) as [[u|e] w4]; [|done]. rewrite !run_bind.
  change (integrate h p (vcs.mkMergeRequest task n head b1 sha m msg) base)
    with (integrate h p (vcs.mkMergeRequest task n head b2 sha m msg) base).
  destruct (process.run _ w4) as [[c|e] w5]; done.
Qed.

(** Of the five methods only the cherry-pick cleans up when Git reports a
    conflict; a failed merge, squash or patch is the last thing done to the
    checkout. *)
Lemma conflict_left_behind :
  let last m sub := list.last (commands (toyMerge (toy "" [sub]) (request m "result" "")).2.2) in
  last vcs.MergeMethodMerge "merge" = Some (["merge"; "--no-ff"; "result"], false) ∧
  last vcs.MergeMethodSquash "merge" = Some (["merge"; "--squash"; "result"], false) ∧
  last vcs.MergeMethodPatch "apply" = Some (["apply"; "--3way"; "/co/.git/forge-patch.diff"], false) ∧
  list.last (commands (toyMerge (toy "" ["cherry-pick"]) (request vcs.MergeMethodCherryPick "result" "")).2.2) =
    Some (["cherry-pick"; "--abort"], false).
Proof. vm_compute. done. Qed.

(** A branch called like a network command cannot be merged: every argument is
    looked at, not the subcommand; the backup reference is already written. *)
Lemma branch_named_push :
  let s := toyMerge (toy "" []) (request vcs.MergeMethodMerge "push" "") in
  match s.1 with Err e => vcs.Is e vcs.ErrNetworkLocked = true | Ok _ => False end ∧
  list.last (commands s.2.2) = Some (["update-ref"; "refs/forge/backup/run-1-t-01234567"; "01234567890"], true).
Proof. vm_compute. done. Qed.

(** A branch whose name starts with a dash is read by Git as an option. *)
Lemma branch_as_option :
  list.last (take 5 (commands (toyMerge (toy "" []) (request vcs.MergeMethodMerge "--abort" "")).2.2)) =
    Some (["merge"; "--no-ff"; "--abort"], true).
Proof. vm_compute. done. Qed.

(** A dirty checkout: one question and nothing else. *)
Lemma dirty_refused :
  let s := toyMerge (toy (text.line " M a.go") []) (request vcs.MergeMethodMerge "result" "") in
  is_ok s.1 = false ∧ commands s.2.2 = [(["status"; "--porcelain"], true)].
Proof. vm_compute. done. Qed.
End localgit.
