(* ===== verification/Forges.v ===== *)
(** * Forges: what the GitHub and GitLab change-request providers share

    [internal/adapter/vcs/github] and [internal/adapter/vcs/gitlab] are modelled
    in [GitHub] and [GitLab]: every operation as a process whose steps are the questions to the injected
    credential resolver, the HTTP requests and the [git push] it makes.  What
    they answer is not fixed ([Host]); response texts are decoded as
    [encoding/json] decodes them (the decoder's own error
    text is left out).  A JSON request body is kept as its map, a
    form is the text [url.Values.Encode] gives; the repository a context
    carries is an argument. *)
From S2P Require Import Prelude Text Process Vcs Json Trace LocalGit.

Module forge.
Import process.

Inductive RequestBody := NoBody | JSONBody (m : list (string * json.json)) | FormBody (s : string).
Record Request := mkRequest {
  Method : string; URL : string; Header : list (string * string); Body_ : RequestBody }.

(** The outside: the credential resolver for a repository [K], the parser of
    request URLs (an error text), the HTTP client (status and body), Git
    ([CombinedOutput] and an error text), the clock in RFC 3339. *)
Record Host (K W : Type) := mkHost {
  Credentials : K → W → option string * W;
  NewRequest : string → string → option string;
  Do : Request → W → result string (Z * string) * W;
  Git : string → list string → W → (string * option string) * W;
  Now : W → string }.
Arguments Credentials {K W}. Arguments NewRequest {K W}. Arguments Do {K W}. Arguments Git {K W}. Arguments Now {K W}.

Definition text_ (s : string) : vcs.error := vcs.mkError [] s.

(** [io.LimitReader(resp.Body, 4<<20)]. *)
Definition limited (s : string) : string :=
  if (Z.of_nat (String.length s) <=? 4194304)%Z then s else strs.take_bytes (Z.to_nat 4194304) s.

Definition alnum (c : ascii) : bool :=
  let n := nat_of_ascii c in
  text.isDigit c || ((65 <=? n) && (n <=? 90)) || ((97 <=? n) && (n <=? 122)).
Definition unreserved (c : ascii) : bool := alnum c || bool_decide (c ∈ ["-"; "_"; "."; "~"]%char).
Definition upperHex (n : nat) : string :=
  match String.get n "0123456789ABCDEF" with Some c => String c "" | None => "" end.
Definition percent (c : ascii) : string :=
  let n := nat_of_ascii c in "%" +:+ upperHex (n / 16) +:+ upperHex (n mod 16).
Fixpoint escape (f : ascii → string) (s : string) : string :=
  match s with EmptyString => "" | String c s' => f c +:+ escape f s' end.

(** [url.PathEscape] and [url.QueryEscape]. *)
Definition PathEscape : string → string :=
  escape (λ c, if unreserved c || bool_decide (c ∈ ["$"; "&"; "+"; ":"; "="; "@"]%char) then String c "" else percent c).
Definition QueryEscape : string → string :=
  escape (λ c, if unreserved c then String c "" else if bool_decide (c = " "%char) then "+" else percent c).

(** [url.Values.Encode] of values set once each: sorted by key. *)
Definition Encode (form : list (string * string)) : string :=
  strs.Join ((λ kv, QueryEscape kv.1 +:+ "=" +:+ QueryEscape kv.2) <$>
               sortStable (λ a b : string * string, String.ltb a.1 b.1) form) "&".

(** [runGitCmd]. *)
Definition runGitCmd {K W} (h : Host K W) (bin : string) (args : list string) : proc W vcs.error () :=
  r ← atomic (Git h bin args);
  match r with
  | (_, None) => mret ()
  | (out, Some e) => Throw (text_ ("git " +:+ default "" (head args) +:+ ": " +:+ e +:+ " [" +:+ out +:+ "]"))
  end.

(** Sending one request. *)
Definition send {K W} (h : Host K W) (build : string) (req : Request) : proc W vcs.error (Z * string) :=
  match NewRequest h (Method req) (URL req) with
  | Some e => Throw (text_ (build +:+ e))
  | None =>
      r ← atomic (Do h req);
      match r with
      | Err e => Throw (text_ e)
      | Ok (status, body) => mret (status, limited body)
      end
  end.

(** The token, or the error of a call without one. *)
Definition token {K W} (h : Host K W) (repo : K) (name : string) : proc W vcs.error string :=
  tok ← atomic (Credentials h repo);
  match tok with
  | None => Throw (vcs.wrap vcs.ErrAuthFailed ("no token for " +:+ name))
  | Some tok => mret tok
  end.

Definition provider {W} (id : vcs.ProviderID) (caps : vcs.Capabilities)
    (push : vcs.PushBranchRequest → proc W vcs.error vcs.PushResult)
    (create : vcs.CreateChangeRequestRequest → proc W vcs.error vcs.ChangeRequest)
    (update : vcs.UpdateChangeRequestRequest → proc W vcs.error vcs.ChangeRequest)
    (checks : vcs.GetChecksRequest → proc W vcs.error vcs.CheckStatus)
    (auto : vcs.EnableAutoMergeRequest → proc W vcs.error ())
    (merge : vcs.MergeRequest → proc W vcs.error vcs.MergeResult)
    (revert : vcs.RevertRequest → proc W vcs.error vcs.RevertResult) : vcs.ChangeRequestProvider W := {|
  vcs.ID := id;
  vcs.Capabilities_ := caps;
  vcs.PushBranch := λ req, localgit.call (vcs.mkPushResult "" "" "") (push req);
  vcs.CreateChangeRequest := λ req, localgit.call localgit.zeroChangeRequest (create req);
  vcs.UpdateChangeRequest := λ req, localgit.call localgit.zeroChangeRequest (update req);
  vcs.GetChecks := λ req, localgit.call (vcs.mkCheckStatus false false false []) (checks req);
  vcs.EnableAutoMerge := λ req w, let '((_, e), w') := localgit.call () (auto req) w in (e, w');
  vcs.Merge := λ req, localgit.call (vcs.mkMergeResult false (vcs.MergeMethodOther "") "" "") (merge req);
  vcs.Revert := λ req, localgit.call (vcs.mkRevertResult false "") (revert req)
|}.

Definition remote : vcs.Capabilities := vcs.mkCapabilities true true true true true true true true.

(** An escaped path is one segment. *)
Lemma PathEscape_segment s : everyByte (λ c, negb (bool_decide (c ∈ ["/"; "?"; "#"]%char))) (PathEscape s) = true.
Proof.
  unfold PathEscape. induction s as [|c s IH]; [done|]. cbn [escape]. rewrite everyByte_app, IH, andb_true_r.
  destruct c as [[] [] [] [] [] [] [] []]; vm_compute; reflexivity.
Qed.

(** ** What is sent *)

Inductive event (K : Type) :=
| ECred (repo : K) (tok : option string)
| EHttp (req : Request) (r : result string (Z * string))
| EGit (bin : string) (argv : list string) (r : string * option string).
Arguments ECred {K}. Arguments EHttp {K}. Arguments EGit {K}.

Definition traced {K W} (h : Host K W) : Host K (W * list (event K)) := {|
  Credentials := λ repo, trace.logged (ECred repo) (Credentials h repo);
  NewRequest := NewRequest h;
  Do := λ req, trace.logged (EHttp req) (Do h req);
  Git := λ bin argv, trace.logged (EGit bin argv) (Git h bin argv);
  Now := λ s, Now h s.1
|}.

Section sending.
  Context {K W : Type} (h : Host K W) (repo : K).
  (** What a request or a push with a token may be. *)
  Context (okHttp : string → Request → Prop) (okGit : string → string → list string → Prop).

(** The resolver is only asked about the one repository, and what goes out was
    made with the token it gave right before. *)
Definition authorised (l : list (event K)) (e : event K) : Prop :=
  match e with
  | ECred k _ => k = repo
  | EHttp req _ => ∃ l0 tok, l = l0 ++ [ECred repo (Some tok)] ∧ okHttp tok req
  | EGit bin argv _ => ∃ l0 tok, l = l0 ++ [ECred repo (Some tok)] ∧ okGit tok bin argv
  end.

#[local] Abbreviation fine := (trace.ordered authorised).

#[local] Abbreviation fails P l := (∀ e l', fine (l ++ l') → P (Err e) (l ++ l')).

Lemma lwp_token name (P : result vcs.error string → list (event K) → Prop) l :
  fine l → fails P l →
  (∀ tok, fine (l ++ [ECred repo (Some tok)]) → P (Ok tok) (l ++ [ECred repo (Some tok)])) →
  trace.lwp fine (token (traced h) repo name) P l.
Proof.
  intros Hl He Ho. apply trace.lwp_bind; [done|]. apply trace.lwp_event; [done|done|].
  intros [tok|] Hl'; [apply trace.lwp_ret; auto|apply trace.lwp_throw; auto].
Qed.

Lemma lwp_send build req tok (P : result vcs.error (Z * string) → list (event K) → Prop) l :
  fine (l ++ [ECred repo (Some tok)]) → okHttp tok req → fails P (l ++ [ECred repo (Some tok)]) →
  (∀ status body, let l' := (l ++ [ECred repo (Some tok)]) ++ [EHttp req (Ok (status, body))] in
     fine l' → P (Ok (status, limited body)) l') →
  trace.lwp fine (send (traced h) build req) P (l ++ [ECred repo (Some tok)]).
Proof.
  intros Hl Hq He Ho. unfold send. destruct (NewRequest _ _ _) as [e|].
  { apply trace.lwp_throw. specialize (He (text_ (build +:+ e)) []). rewrite app_nil_r in He. auto. }
  apply trace.lwp_bind; [done|]. apply trace.lwp_event; [done|intros r; by exists l, tok|].
  intros [[status body]|e] Hl'; [apply trace.lwp_ret; auto|apply trace.lwp_throw; auto].
Qed.

Lemma lwp_git bin args tok (P : result vcs.error () → list (event K) → Prop) l :
  fine (l ++ [ECred repo (Some tok)]) → okGit tok bin args → fails P (l ++ [ECred repo (Some tok)]) →
  (∀ out, let l' := (l ++ [ECred repo (Some tok)]) ++ [EGit bin args (out, None)] in fine l' → P (Ok ()) l') →
  trace.lwp fine (runGitCmd (traced h) bin args) P (l ++ [ECred repo (Some tok)]).
Proof.
  intros Hl Hq He Ho. apply trace.lwp_bind; [done|]. apply trace.lwp_event; [done|intros r; by exists l, tok|].
  intros [out [e|]] Hl'; [apply trace.lwp_throw; auto|apply trace.lwp_ret; by eapply Ho].
Qed.

(** Logging changes nothing else. *)
Lemma token_sim name : trace.sim (token h repo name) (token (traced h) repo name).
Proof. unfold token. apply trace.sim_bind; [apply trace.sim_atomic|]. intros []; auto with trace. Qed.
Lemma send_sim build req : trace.sim (send h build req) (send (traced h) build req).
Proof.
  unfold send. cbn [NewRequest traced]. destruct (NewRequest h _ _); [auto with trace|].
  apply trace.sim_bind; [apply trace.sim_atomic|]. intros [[]|]; auto with trace.
Qed.
Lemma git_sim bin args : trace.sim (runGitCmd h bin args) (runGitCmd (traced h) bin args).
Proof. unfold runGitCmd. apply trace.sim_bind; [apply trace.sim_atomic|]. intros [? []]; auto with trace. Qed.
End sending.
#[export] Hint Resolve token_sim send_sim git_sim : trace.

(** Two programs that make the same calls. *)
Ltac same := repeat first
  [ apply trace.sim_ret | apply trace.sim_throw | apply token_sim | apply send_sim | apply git_sim | apply trace.sim_read
  | apply trace.sim_bind | apply trace.sim_catch | progress intros
  | match goal with
    | |- trace.sim (if ?b then _ else _) _ => destruct b
    | |- trace.sim (match ?x with _ => _ end) _ => destruct x
    end ].

(** An answer of the service with one of these status codes and this text. *)
Definition said {K} (codes : list Z) (body : string) (l : list (event K)) : Prop :=
  ∃ req status text, EHttp req (Ok (status, text)) ∈ l ∧ status ∈ codes ∧ body = limited text.

Lemma said_app {K} codes body (l l' : list (event K)) : said codes body l → said codes body (l ++ l').
Proof. intros (req & st & t & H1 & H2). exists req, st, t. split; [|done]. apply elem_of_app. by left. Qed.

(** The seven operations of a provider, one at a time, and the answer of each. *)
Inductive Op :=
| OPush (req : vcs.PushBranchRequest) | OCreate (req : vcs.CreateChangeRequestRequest)
| OUpdate (req : vcs.UpdateChangeRequestRequest) | OChecks (req : vcs.GetChecksRequest)
| OAutoMerge (req : vcs.EnableAutoMergeRequest) | OMerge (req : vcs.MergeRequest) | ORevert (req : vcs.RevertRequest).
Inductive Answer :=
| APush (r : vcs.PushResult) | AChangeRequest (r : vcs.ChangeRequest) | AChecks (r : vcs.CheckStatus) | ADone
| AMerge (r : vcs.MergeResult) | ARevert (r : vcs.RevertResult).
End forge.
