(* ===== verification/GitLab.v ===== *)
(** * GitLab: the GitLab change-request provider

    Models [internal/adapter/vcs/gitlab/provider.go] over the outside of
    [Forges]. *)
From S2P Require Import Prelude Text Process Vcs Json Trace Forges.

Module gitlab.
Import process json.

Definition EngineID : vcs.ProviderID := vcs.ProviderGitLab.
Definition DefaultBaseURL : string := "https://gitlab.com/api/v4".
Record Project := mkProject { Group : string; ProjectName : string }.
Definition Raw (p : Project) : string := Group p +:+ "/" +:+ ProjectName p.
Definition Project_String (p : Project) : string := forge.PathEscape (Raw p).

Record Options := mkOptions { BaseURL : string; GitBinary : string }.
Definition New (o : Options) : Options :=
  mkOptions (if bool_decide (BaseURL o = "") then DefaultBaseURL else BaseURL o)
    (if bool_decide (GitBinary o = "") then "git" else GitBinary o).

Record mergeRequest := mkMR {
  M_iid : Z; M_title : string; M_description : string; M_source : string; M_target : string;
  M_state : string; M_web_url : string; M_merge_status : string }.
Definition zeroMR : mergeRequest := mkMR 0 "" "" "" "" "" "" "".
Definition updatedFields : list (string * decoder mergeRequest) :=
  [("iid", at_ M_iid (λ x r, mkMR x (M_title r) (M_description r) (M_source r) (M_target r) (M_state r) (M_web_url r) (M_merge_status r)) dInt);
   ("title", at_ M_title (λ x r, mkMR (M_iid r) x (M_description r) (M_source r) (M_target r) (M_state r) (M_web_url r) (M_merge_status r)) dString);
   ("state", at_ M_state (λ x r, mkMR (M_iid r) (M_title r) (M_description r) (M_source r) (M_target r) x (M_web_url r) (M_merge_status r)) dString);
   ("web_url", at_ M_web_url (λ x r, mkMR (M_iid r) (M_title r) (M_description r) (M_source r) (M_target r) (M_state r) x (M_merge_status r)) dString);
   ("source_branch", at_ M_source (λ x r, mkMR (M_iid r) (M_title r) (M_description r) x (M_target r) (M_state r) (M_web_url r) (M_merge_status r)) dString);
   ("target_branch", at_ M_target (λ x r, mkMR (M_iid r) (M_title r) (M_description r) (M_source r) x (M_state r) (M_web_url r) (M_merge_status r)) dString)].
Definition createdFields : list (string * decoder mergeRequest) :=
  updatedFields ++
  [("description", at_ M_description (λ x r, mkMR (M_iid r) (M_title r) x (M_source r) (M_target r) (M_state r) (M_web_url r) (M_merge_status r)) dString);
   ("detailed_merge_status", at_ M_merge_status (λ x r, mkMR (M_iid r) (M_title r) (M_description r) (M_source r) (M_target r) (M_state r) (M_web_url r) x) dString)].

(** One status of a commit. *)
Record commitStatus := mkStatus { S_name : string; S_status : string; S_allow_failure : bool }.
Definition dStatus : decoder commitStatus :=
  dStruct [("name", at_ S_name (λ x r, mkStatus x (S_status r) (S_allow_failure r)) dString);
           ("status", at_ S_status (λ x r, mkStatus (S_name r) x (S_allow_failure r)) dString);
           ("allow_failure", at_ S_allow_failure (λ x r, mkStatus (S_name r) (S_status r) x) dBool)].
Definition dStatuses : decoder (list commitStatus) := dSlice dStatus (mkStatus "" "" false).
(** The answer to a merge: commit and state. *)
Definition dMerge : decoder (string * string) :=
  dStruct [("merge_commit_sha", at_ fst (λ x r, (x, r.2)) dString); ("state", at_ snd (λ x r, (r.1, x)) dString)].

Definition decodeError (status : Z) (body op : string) : vcs.error :=
  let msg := strs.TrimSpace body in
  if (status =? 401)%Z || (status =? 403)%Z then vcs.wrap vcs.ErrAuthFailed ("http " +:+ pretty status +:+ ": " +:+ msg)
  else if (status =? 404)%Z then forge.text_ ("gitlab: " +:+ op +:+ ": not found (http 404): " +:+ msg)
  else if (status =? 409)%Z || (status =? 422)%Z then vcs.wrap vcs.ErrBranchNotCurrent ("http " +:+ pretty status)
  else forge.text_ ("gitlab: " +:+ op +:+ ": http " +:+ pretty status +:+ ": " +:+ msg).

Definition remoteURLFor (proj : Project) (token : string) : string :=
  "https://oauth2:" +:+ token +:+ "@gitlab.com/" +:+ Raw proj +:+ ".git".

(** The loop of [GetChecks] over the statuses, and what it makes of them. *)
Definition addStatus (out : vcs.CheckStatus) (s : commitStatus) : vcs.CheckStatus :=
  let failed := bool_decide (S_status s ∈ ["failed"; "canceled"]) && negb (S_allow_failure s) in
  vcs.mkCheckStatus
    (if failed then false else vcs.AllPassed out)
    (if failed then false else vcs.RequiredPassed out)
    (if bool_decide (S_status s ∈ ["pending"; "running"]) then true else vcs.Pending out)
    (vcs.Checks out ++ [vcs.mkCheckRun (S_name s) "completed" (S_status s) (negb (S_allow_failure s))]).
Definition summarise (statuses : list commitStatus) : vcs.CheckStatus :=
  let out := foldl addStatus (vcs.mkCheckStatus false false false []) statuses in
  if negb (vcs.Pending out) && (0 <? length statuses) then
    let allOK := foldl (λ ok s, if negb (bool_decide (S_status s = "success")) && negb (S_allow_failure s) then false else ok)
                   true statuses in
    vcs.mkCheckStatus allOK allOK (vcs.Pending out) (vcs.Checks out)
  else out.

Section gitlab.
  Context {W : Type} (h : forge.Host Project W) (p : Options) (ctx : option Project).

Definition projectFromContext : proc W vcs.error Project :=
  match ctx with
  | Some r => mret r
  | None => Throw (forge.text_ "gitlab: no project in context (set via WithProject)")
  end.

Definition send (method u tok contentType : string) (body : forge.RequestBody) : proc W vcs.error (Z * string) :=
  forge.send h "gitlab: build request: "
    (forge.mkRequest method u [("PRIVATE-TOKEN", tok); ("Content-Type", contentType)] body).

(** [do] is only used without a body. *)
Definition do (method : string) (proj : Project) (path : string) : proc W vcs.error (Z * string) :=
  tok ← forge.token h proj (Raw proj);
  send method (strs.TrimRight ["/"%char] (BaseURL p) +:+ "/" +:+ path) tok "application/json" forge.NoBody.

Definition doForm (method : string) (proj : Project) (path : string) (form : list (string * string)) :
    proc W vcs.error (Z * string) :=
  tok ← forge.token h proj (Raw proj);
  send method (strs.TrimRight ["/"%char] (BaseURL p) +:+ "/projects/" +:+ Project_String proj +:+ "/" +:+ path) tok
    "application/x-www-form-urlencoded" (forge.FormBody (forge.Encode form)).

(** [realGitPush]. *)
Definition gitPush (proj : Project) (token remoteBranch : string) : proc W vcs.error () :=
  forge.runGitCmd h (GitBinary p) ["push"; remoteURLFor proj token; "HEAD:refs/heads/" +:+ remoteBranch].

Definition PushBranch (req : vcs.PushBranchRequest) : proc W vcs.error vcs.PushResult :=
  proj ← projectFromContext;
  tok ← forge.token h proj (Raw proj);
  _ ← gitPush proj tok (vcs.RemoteBranch req);
  now ← read (forge.Now h);
  mret (vcs.mkPushResult (vcs.RemoteBranch req) (vcs.Push_HeadSHA req) now).

Definition CreateChangeRequest (req : vcs.CreateChangeRequestRequest) : proc W vcs.error vcs.ChangeRequest :=
  proj ← projectFromContext;
  '(status, resp) ← doForm "POST" proj "merge_requests"
    ([("title", vcs.Create_Title req); ("source_branch", vcs.Create_HeadBranch req);
      ("target_branch", vcs.Create_BaseBranch req); ("description", vcs.Create_Body req)] ++
     (if vcs.Draft req then [("draft", "true")] else []));
  if negb (status =? 201)%Z && negb (status =? 200)%Z then Throw (decodeError status resp "create MR")
  else
    let '(mr, ok) := Unmarshal (dStruct createdFields) resp zeroMR in
    if negb ok then Throw (forge.text_ "gitlab: decode MR: ")
    else mret (vcs.mkChangeRequest EngineID (M_iid mr) (M_title mr) (M_description mr) (M_source mr) (M_target mr)
                 (M_state mr) (M_web_url mr) (Some (bool_decide (M_merge_status mr ∈ ["mergeable"; "can_be_merged"])))).

Definition UpdateChangeRequest (req : vcs.UpdateChangeRequestRequest) : proc W vcs.error vcs.ChangeRequest :=
  let given k v := if bool_decide (v = "") then [] else [(k, v)] in
  proj ← projectFromContext;
  '(status, resp) ← doForm "PUT" proj ("merge_requests/" +:+ pretty (vcs.Update_Number req))
    (given "title" (vcs.Update_Title req) ++ given "description" (vcs.Update_Body req) ++
     (if bool_decide (vcs.Update_State req = "closed") then [("state_event", "close")]
      else if bool_decide (vcs.Update_State req = "open") then [("state_event", "reopen")] else []));
  if negb (status =? 200)%Z then Throw (decodeError status resp "update MR")
  else
    let '(mr, ok) := Unmarshal (dStruct updatedFields) resp zeroMR in
    if negb ok then Throw (forge.text_ "gitlab: decode updated MR: ")
    else mret (vcs.mkChangeRequest EngineID (M_iid mr) (M_title mr) "" (M_source mr) (M_target mr) (M_state mr) (M_web_url mr) None).

Definition GetChecks (req : vcs.GetChecksRequest) : proc W vcs.error vcs.CheckStatus :=
  proj ← projectFromContext;
  '(status, resp) ← do "GET" proj
    ("projects/" +:+ forge.PathEscape (Raw proj) +:+ "/repository/commits/" +:+ vcs.Checks_HeadSHA req +:+ "/statuses");
  if negb (status =? 200)%Z then Throw (decodeError status resp "get statuses")
  else
    let '(statuses, ok) := Unmarshal dStatuses resp [] in
    if negb ok then Throw (forge.text_ "gitlab: decode statuses: ") else mret (summarise statuses).

Definition EnableAutoMerge (req : vcs.EnableAutoMergeRequest) : proc W vcs.error () :=
  proj ← projectFromContext;
  '(status, resp) ← doForm "PUT" proj ("merge_requests/" +:+ pretty (vcs.Auto_Number req) +:+ "/merge")
    [("merge_when_pipeline_succeeds", "true")];
  if negb (status =? 200)%Z && negb (status =? 201)%Z then Throw (decodeError status resp "enable auto-merge") else mret ().

Definition Merge (req : vcs.MergeRequest) : proc W vcs.error vcs.MergeResult :=
  proj ← projectFromContext;
  '(status, resp) ← doForm "PUT" proj ("merge_requests/" +:+ pretty (vcs.Merge_Number req) +:+ "/merge")
    [("should_remove_source_branch", "false"); ("sha", vcs.Merge_HeadSHA req)];
  if negb (status =? 200)%Z then
    if (status =? 409)%Z || (status =? 422)%Z then Throw (vcs.wrap vcs.ErrBranchNotCurrent ("http " +:+ pretty status))
    else Throw (decodeError status resp "merge MR")
  else
    let '(sha, state) := (Unmarshal dMerge resp ("", "")).1 in
    mret (vcs.mkMergeResult (bool_decide (state = "merged")) (vcs.Merge_Method req) sha (vcs.Merge_BaseBranch req)).

Definition Revert (req : vcs.RevertRequest) : proc W vcs.error vcs.RevertResult :=
  proj ← projectFromContext;
  '(status, resp) ← doForm "POST" proj ("repository/commits/" +:+ vcs.Revert_CommitSHA req +:+ "/revert")
    [("sha", vcs.Revert_CommitSHA req)];
  if negb (status =? 201)%Z && negb (status =? 200)%Z then Throw (decodeError status resp "revert")
  else mret (vcs.mkRevertResult true (vcs.Revert_CommitSHA req)).

Definition provider : vcs.ChangeRequestProvider W :=
  forge.provider EngineID forge.remote PushBranch CreateChangeRequest UpdateChangeRequest GetChecks EnableAutoMerge Merge Revert.

Definition perform (op : forge.Op) : proc W vcs.error forge.Answer :=
  match op with
  | forge.OPush req => r ← PushBranch req; mret (forge.APush r)
  | forge.OCreate req => r ← CreateChangeRequest req; mret (forge.AChangeRequest r)
  | forge.OUpdate req => r ← UpdateChangeRequest req; mret (forge.AChangeRequest r)
  | forge.OChecks req => r ← GetChecks req; mret (forge.AChecks r)
  | forge.OAutoMerge req => _ ← EnableAutoMerge req; mret forge.ADone
  | forge.OMerge req => r ← Merge req; mret (forge.AMerge r)
  | forge.ORevert req => r ← Revert req; mret (forge.ARevert r)
  end.
End gitlab.

(** ** What GitLab is sent, and what its answers become *)

Definition okHttp (p : Options) (proj : Project) (tok : string) (req : forge.Request) : Prop :=
  (∃ path, forge.URL req = strs.TrimRight ["/"%char] (BaseURL p) +:+ "/projects/" +:+ Project_String proj +:+ "/" +:+ path) ∧
  ∃ contentType, forge.Header req = [("PRIVATE-TOKEN", tok); ("Content-Type", contentType)].
Definition okGit (p : Options) (proj : Project) (tok bin : string) (argv : list string) : Prop :=
  bin = GitBinary p ∧ ∃ branch, argv = ["push"; remoteURLFor proj tok; "HEAD:refs/heads/" +:+ branch].

Definition answered (op : forge.Op) (a : forge.Answer) (l : list (forge.event Project)) : Prop :=
  match op, a with
  | forge.OPush req, forge.APush r =>
      vcs.PushResult_HeadSHA r = vcs.Push_HeadSHA req ∧ ∃ bin argv out, forge.EGit bin argv (out, None) ∈ l
  | forge.OCreate _, forge.AChangeRequest r =>
      ∃ body mr, forge.said [200%Z; 201%Z] body l ∧ Unmarshal (dStruct createdFields) body zeroMR = (mr, true) ∧
        vcs.Number r = M_iid mr ∧ vcs.State r = M_state mr ∧
        vcs.Mergeable r = Some (bool_decide (M_merge_status mr ∈ ["mergeable"; "can_be_merged"]))
  | forge.OUpdate _, forge.AChangeRequest r =>
      ∃ body mr, forge.said [200%Z] body l ∧ Unmarshal (dStruct updatedFields) body zeroMR = (mr, true) ∧
        vcs.Number r = M_iid mr ∧ vcs.State r = M_state mr
  | forge.OChecks _, forge.AChecks r =>
      ∃ body statuses, forge.said [200%Z] body l ∧ Unmarshal dStatuses body [] = (statuses, true) ∧ r = summarise statuses
  | forge.OAutoMerge _, forge.ADone => ∃ body, forge.said [200%Z; 201%Z] body l
  | forge.OMerge req, forge.AMerge r =>
      vcs.Method r = vcs.Merge_Method req ∧
      ∃ body, forge.said [200%Z] body l ∧ vcs.CommitSHA r = (Unmarshal dMerge body ("", "")).1.1 ∧
        vcs.Merged r = bool_decide ((Unmarshal dMerge body ("", "")).1.2 = "merged")
  | forge.ORevert req, forge.ARevert r =>
      vcs.Reverted r = true ∧ vcs.RevertSHA r = vcs.Revert_CommitSHA req ∧ ∃ body, forge.said [200%Z; 201%Z] body l
  | _, _ => False
  end.

Section sent.
  Context {W : Type} (h : forge.Host Project W) (p : Options) (proj : Project).

#[local] Abbreviation fine := (trace.ordered (forge.authorised proj (okHttp p proj) (okGit p proj))).
#[local] Abbreviation H' := (forge.traced h).
#[local] Abbreviation post := (result vcs.error (Z * string) → list (forge.event Project) → Prop).

Lemma gl_send method u tok ct body (P : post) l :
  fine (l ++ [forge.ECred proj (Some tok)]) →
  (∃ path, u = strs.TrimRight ["/"%char] (BaseURL p) +:+ "/projects/" +:+ Project_String proj +:+ "/" +:+ path) →
  (∀ e l', fine (l ++ l') → P (Err e) (l ++ l')) →
  (∀ status resp l', fine (l ++ l') → (∀ codes, status ∈ codes → forge.said codes resp (l ++ l')) → P (Ok (status, resp)) (l ++ l')) →
  trace.lwp fine (send H' method u tok ct body) P (l ++ [forge.ECred proj (Some tok)]).
Proof.
  intros Hl Hu He Ho. apply forge.lwp_send; [done|by split; [|eexists]|intros e l'; rewrite <- app_assoc; apply He|].
  intros status resp l' Hl'. subst l'. rewrite <- app_assoc in *. apply Ho; [done|]. intros codes Hc.
  eexists _, status, resp. split; [|done]. rewrite !elem_of_app. right. right. by apply list_elem_of_singleton.
Qed.

Lemma gl_doForm method path form (P : post) l :
  fine l → (∀ e l', fine (l ++ l') → P (Err e) (l ++ l')) →
  (∀ status resp l', fine (l ++ l') → (∀ codes, status ∈ codes → forge.said codes resp (l ++ l')) → P (Ok (status, resp)) (l ++ l')) →
  trace.lwp fine (doForm H' p method proj path form) P l.
Proof.
  intros Hl He Ho. apply trace.lwp_bind; [done|]. apply forge.lwp_token; [done|done|]. intros tok Hl1.
  apply gl_send; [done|by exists path|done|done].
Qed.

Lemma gl_do method path (P : post) l :
  fine l → (∀ e l', fine (l ++ l') → P (Err e) (l ++ l')) →
  (∀ status resp l', fine (l ++ l') → (∀ codes, status ∈ codes → forge.said codes resp (l ++ l')) → P (Ok (status, resp)) (l ++ l')) →
  trace.lwp fine (do H' p method proj ("projects/" +:+ forge.PathEscape (Raw proj) +:+ "/" +:+ path)) P l.
Proof.
  intros Hl He Ho. apply trace.lwp_bind; [done|]. apply forge.lwp_token; [done|done|]. intros tok Hl1.
  apply gl_send; [done|by exists path|done|done].
Qed.

Ltac request := apply trace.lwp_bind; [done|]; apply trace.lwp_ret; apply trace.lwp_bind; [done|];
  first [apply gl_doForm|apply (gl_do _ ("repository/commits/" +:+ _))]; [done|done|]; intros status resp l' ? Hsaid.
Ltac heard := match goal with Hsaid : (∀ _, _) |- _ => apply Hsaid end; rewrite !elem_of_cons;
  repeat match goal with H : ?b = false |- _ => revert H end; repeat case_match; simpl; lia.

Lemma gl_perform op : trace.lwp fine (perform H' p (Some proj) op) (λ r l, ∀ a, r = Ok a → answered op a l) [].
Proof.
  assert (fine []) as Hl by apply trace.ordered_empty.
  destruct op as [req|req|req|req|req|req|req]; (apply trace.lwp_bind; [done|]).
  - apply trace.lwp_bind; [done|]. apply trace.lwp_ret. apply trace.lwp_bind; [done|].
    apply forge.lwp_token; [done|done|]. intros tok Hl1. apply trace.lwp_bind; [done|].
    apply forge.lwp_git; [done| |done|].
    { split; [done|]. by eexists. }
    intros out l' Hl'. apply trace.lwp_bind; [done|]. apply trace.lwp_read. intros now. apply trace.lwp_ret, trace.lwp_ret.
    intros a [= <-]. split; [done|]. eexists _, _, out. subst l'. apply elem_of_app. right. by apply list_elem_of_singleton.
  - request. apply trace.lwp_guard; [first [done|by auto]|]. intros Hst.
    destruct (Unmarshal _ resp zeroMR) as [mr ok] eqn:Hu. apply trace.lwp_guard; [first [done|by auto]|]. intros Hok.
    apply trace.lwp_ret, trace.lwp_ret. intros a [= <-]. exists resp, mr. split; [heard|]. by destruct ok.
  - request. apply trace.lwp_guard; [first [done|by auto]|]. intros Hst.
    destruct (Unmarshal _ resp zeroMR) as [mr ok] eqn:Hu. apply trace.lwp_guard; [first [done|by auto]|]. intros Hok.
    apply trace.lwp_ret, trace.lwp_ret. intros a [= <-]. exists resp, mr. split; [heard|]. by destruct ok.
  - request. apply trace.lwp_guard; [first [done|by auto]|]. intros Hst.
    destruct (Unmarshal _ resp []) as [statuses ok] eqn:Hu. apply trace.lwp_guard; [first [done|by auto]|]. intros Hok.
    apply trace.lwp_ret, trace.lwp_ret. intros a [= <-]. exists resp, statuses. split; [heard|]. by destruct ok.
  - request. apply trace.lwp_guard; [first [done|by auto]|]. intros Hst. apply trace.lwp_ret, trace.lwp_ret. intros a [= <-]. exists resp. heard.
  - request. destruct (status =? 200)%Z eqn:E; cbn [negb]; [|case_match; by apply trace.lwp_throw].
    destruct ((Unmarshal dMerge resp _).1) as [sha state] eqn:Hu.
    apply trace.lwp_ret, trace.lwp_ret. intros a [= <-]. split; [done|]. exists resp. rewrite Hu. split; [|done].
    apply Hsaid. rewrite list_elem_of_singleton. lia.
  - request. apply trace.lwp_guard; [first [done|by auto]|]. intros Hst. apply trace.lwp_ret, trace.lwp_ret. intros a [= <-].
    do 2 (split; [done|]). exists resp. heard.
Qed.
End sent.

Lemma gitlab_sim {W} (h : forge.Host Project W) p ctx op : trace.sim (perform h p ctx op) (perform (forge.traced h) p ctx op).
Proof.
  unfold perform, PushBranch, CreateChangeRequest, UpdateChangeRequest, GetChecks, EnableAutoMerge, Merge, Revert,
    gitPush, projectFromContext, do, doForm, send.
  forge.same.
Qed.

(** The same of GitLab. *)
Theorem gitlab_sends {W} (h : forge.Host Project W) p ctx op w m l :
  trace.life (perform (forge.traced h) p ctx op) w m l →
  match ctx with
  | None => l = [] ∧ ∀ a, m ≠ Ret a
  | Some proj => trace.ordered (forge.authorised proj (okHttp p proj) (okGit p proj)) l ∧ ∀ a, m = Ret a → answered op a l
  end.
Proof.
  intros Hl. destruct ctx as [proj|].
  - destruct (trace.life_sound _ _ _ _ _ _ (trace.ordered_empty _) (gl_perform h p proj op) Hl) as (Hi & Hr & _).
    split; [done|]. intros a Ha. by apply (Hr a).
  - destruct (trace.life_sound (λ l, l = []) (perform (forge.traced h) p None op) (λ r _, is_ok r = false) w m l)
      as (Hi & Hr & _); [done| |done|].
    + destruct op; by apply trace.lwp_throw.
    + split; [done|]. intros a Ha. by specialize (Hr a Ha).
Qed.

(** ** Checks *)

Definition unfinished (s : commitStatus) : bool := bool_decide (S_status s ∈ ["pending"; "running"]).
Definition acceptable (s : commitStatus) : bool := bool_decide (S_status s = "success") || S_allow_failure s.

Lemma foldl_addStatus l out :
  vcs.AllPassed out = false → vcs.RequiredPassed out = false →
  foldl addStatus out l = vcs.mkCheckStatus false false (vcs.Pending out || existsb unfinished l)
    (vcs.Checks out ++ ((λ s, vcs.mkCheckRun (S_name s) "completed" (S_status s) (negb (S_allow_failure s))) <$> l)).
Proof.
  revert out. induction l as [|s l IH]; intros [a r pe c]; simpl; intros -> ->.
  { by rewrite orb_false_r, app_nil_r. }
  rewrite IH; unfold addStatus; cbn [vcs.AllPassed vcs.RequiredPassed vcs.Pending vcs.Checks]; [|by case_match..].
  rewrite <- app_assoc. f_equal. unfold unfinished at 2. case_bool_decide; by rewrite ?orb_true_r.
Qed.

(** The checks of a head passed exactly when there is a status, none is unfinished
    and every one that counts is a success; required and all are the same, and
    every status is listed. *)
Theorem summarise_spec l :
  let r := summarise l in
  vcs.Pending r = existsb unfinished l ∧
  vcs.AllPassed r = negb (bool_decide (l = [])) && negb (existsb unfinished l) && forallb acceptable l ∧
  vcs.RequiredPassed r = vcs.AllPassed r ∧
  vcs.Checks r = (λ s, vcs.mkCheckRun (S_name s) "completed" (S_status s) (negb (S_allow_failure s))) <$> l.
Proof.
  assert (∀ b, foldl (λ ok s, if negb (bool_decide (S_status s = "success")) && negb (S_allow_failure s) then false else ok) b l =
    b && forallb acceptable l) as Hall.
  { induction l as [|s l IH]; intros b; simpl; [by rewrite andb_true_r|]. rewrite IH. unfold acceptable at 2.
    case_bool_decide; destruct (S_allow_failure s); simpl; by rewrite ?andb_false_r. }
  unfold summarise. rewrite foldl_addStatus by done. cbn [vcs.Pending vcs.Checks orb app]. rewrite Hall.
  destruct l as [|s l]; [done|]. rewrite bool_decide_eq_false_2 by done.
  destruct (existsb unfinished (s :: l)) eqn:E; cbn [negb andb Nat.ltb Nat.leb length]; simpl vcs.AllPassed; done.
Qed.

(** A head without statuses has not passed, a skipped job fails it, a running job
    makes a required success not passed yet. *)
Example checks_corner_cases :
  vcs.AllPassed (summarise []) = false ∧
  vcs.AllPassed (summarise [mkStatus "a" "success" false; mkStatus "b" "skipped" false]) = false ∧
  vcs.AllPassed (summarise [mkStatus "a" "success" false; mkStatus "b" "failed" true]) = true ∧
  vcs.RequiredPassed (summarise [mkStatus "a" "success" false; mkStatus "b" "running" true]) = false.
Proof. done. Qed.

Definition dropMethod {W} (r : result vcs.error vcs.MergeResult * W) : result vcs.error (bool * string * string) * W :=
  (match r.1 with Ok x => Ok (vcs.Merged x, vcs.CommitSHA x, vcs.MergeResult_BaseBranch x) | Err e => Err e end, r.2).

(** Method and message of a merge are not sent; the result repeats the method. *)
Lemma gitlab_merge_ignores_method {W} (h : forge.Host Project W) p ctx task n head base sha m1 m2 msg1 msg2 w :
  dropMethod (run (Merge h p ctx (vcs.mkMergeRequest task n head base sha m1 msg1)) w) =
  dropMethod (run (Merge h p ctx (vcs.mkMergeRequest task n head base sha m2 msg2)) w).
Proof.
  unfold Merge. cbn [vcs.Merge_Number vcs.Merge_HeadSHA vcs.Merge_BaseBranch vcs.Merge_Method].
  rewrite !run_bind. destruct (run (projectFromContext ctx) w) as [[r|e] w1]; [|done].
  rewrite !run_bind. destruct (run (doForm _ _ _ _ _ _) w1) as [[[status resp]|e] w2]; [|done].
  destruct (status =? 200)%Z; [|done]. cbn [negb]. by destruct ((Unmarshal dMerge resp _).1) as [c st].
Qed.
End gitlab.
