(* ===== verification/Bootstrap.v ===== *)
(** * Bootstrap: onboarding, installation and the toolchain lock (spec §7)

    Models [internal/bootstrap] and the commands of [internal/cli/init_cmd.go]
    that drive it: the system scan, the installation plan, the executor behind
    the confirmation gate, the authentication wizard, the toolchain lock with
    its update, rollback, repair and drift.  The detector, the installer, the
    user, the login flows, the guard and the file system are an interface
    ([Host]); a lock file is kept as its entries, where the disk has their JSON.
    Rendering is left out.  Slices that share a backing array are modelled as
    such ([heap]), because the update keeps one to roll back to. *)
From S2P Require Import Prelude Text Process Trace.

Module bootstrap.
Import process.

(** ** Tools, profiles and the scan *)

Inductive ToolCategory :=
| CatVCS | CatCodingAgent | CatImageProvider | CatRuntime | CatMobile | CatContainer | CatPackageManager | CatDaemon.
#[global] Instance ToolCategory_eq_dec : EqDecision ToolCategory.
Proof. solve_decision. Defined.

Record Tool := mkTool { Tool_ID : string; Tool_Category : ToolCategory; VersionCommand : list string }.
Record DetectedTool := mkDetected {
  D_ID : string; D_Category : ToolCategory; Path : string; Version : string; Present : bool }.
Record SystemScan := mkScan {
  OS : string; Arch : string; Shell : string; HomeDir : string; Elevated : bool; PackageManager : string;
  Tools : list DetectedTool }.

Definition Find (s : SystemScan) (id : string) : option DetectedTool :=
  List.find (λ t, bool_decide (D_ID t = id)) (Tools s).
(** [present, _ := scan.Find(id); present.Present]. *)
Definition isPresent (s : SystemScan) (id : string) : bool :=
  match Find s id with Some t => Present t | None => false end.
Definition ToolsByCategory (s : SystemScan) (c : ToolCategory) : list DetectedTool :=
  filter (λ t, D_Category t = c) (Tools s).

Definition DefaultToolSet : list Tool :=
  [mkTool "git" CatVCS ["git"; "--version"]; mkTool "docker" CatContainer ["docker"; "--version"];
   mkTool "podman" CatContainer ["podman"; "--version"]; mkTool "gh" CatVCS ["gh"; "--version"];
   mkTool "glab" CatVCS ["glab"; "--version"]; mkTool "java" CatRuntime ["java"; "-version"];
   mkTool "node" CatRuntime ["node"; "--version"]; mkTool "adb" CatMobile ["adb"; "--version"];
   mkTool "codex" CatCodingAgent ["codex"; "--version"]; mkTool "claude" CatCodingAgent ["claude"; "--version"];
   mkTool "gemini" CatCodingAgent ["gemini"; "--version"]; mkTool "kimi" CatCodingAgent ["kimi"; "--version"];
   mkTool "grok" CatCodingAgent ["grok"; "--version"]; mkTool "opencode" CatCodingAgent ["opencode"; "--version"]].

Definition normaliseVersion (out : string) : string :=
  let out := strs.TrimSpace out in
  if bool_decide (out = "") then ""
  else strs.TrimSpace (match out with
                       | String c _ => if bool_decide (c = strs.nl) then out else strs.CutBefore out strs.nl
                       | EmptyString => out
                       end).

Definition packageManagersFor (goos : string) : list string :=
  if bool_decide (goos = "darwin") then ["brew"]
  else if bool_decide (goos = "linux") then ["apt"; "dnf"; "yum"; "pacman"; "apk"; "zypper"]
  else [].

Definition Profile := string.
Definition ProfileMinimal : Profile := "minimal".
Definition ProfileStandard : Profile := "standard".
Definition ProfileAndroid : Profile := "android".
Definition ProfileWeb : Profile := "web".
Definition ProfileFull : Profile := "full".
Definition ProfileCustom : Profile := "custom".
Definition AllProfiles : list Profile :=
  [ProfileMinimal; ProfileStandard; ProfileAndroid; ProfileWeb; ProfileFull; ProfileCustom].
Definition Profile_IsValid (p : Profile) : bool := bool_decide (p ∈ AllProfiles).

Record ToolRequest := mkRequest {
  R_ID : string; R_Category : ToolCategory; R_NeedsSudo : bool; R_ShellProfileChange : string; R_InstallHint : string }.
#[global] Instance ToolRequest_eq_dec : EqDecision ToolRequest.
Proof. solve_decision. Defined.
Definition mustHave (id : string) (cat : ToolCategory) (hint : string) : ToolRequest := mkRequest id cat false "" hint.
Definition codingAgent (id hint : string) : ToolRequest := mkRequest id CatCodingAgent false "" hint.
Definition runtimeTool (id hint : string) : ToolRequest := mkRequest id CatRuntime false "" hint.
Definition imageProvider (id hint : string) : ToolRequest := mkRequest id CatImageProvider false "" hint.
Definition daemonTool : ToolRequest := mkRequest "neuroforge-daemon" CatDaemon false "" "started as a user service".

(** [ProfileSpecFor], by profile: the larger ones extend the smaller ones. *)
Definition standardTools : list ToolRequest :=
  [mustHave "git" CatVCS "brew install git"; mustHave "gh" CatVCS "brew install gh";
   codingAgent "codex" "npm install -g @openai/codex"; codingAgent "claude" "npm install -g @anthropic-ai/claude-code";
   codingAgent "gemini" "npm install -g @anthropic-ai/gemini-cli"; codingAgent "kimi" "npm install -g @kimi/kimi-code";
   codingAgent "grok" "npm install -g @xai/grok-build"; codingAgent "opencode" "npm install -g opencode"; daemonTool].
Definition androidTools : list ToolRequest :=
  standardTools ++
  [runtimeTool "java" "OpenJDK 17 (sdk install java 17.0.10-tem)";
   mkRequest "android-sdk" CatMobile false ("export ANDROID_HOME=" +:+ strs.q "$HOME/Library/Android/sdk")
     "Android command-line tools + platform-tools"].
Definition ProfileSpecFor (p : Profile) : list ToolRequest :=
  if bool_decide (p = ProfileMinimal) then
    [mustHave "git" CatVCS "brew install git"; codingAgent "codex" "npm install -g @openai/codex"; daemonTool]
  else if bool_decide (p = ProfileStandard) then standardTools
  else if bool_decide (p = ProfileAndroid) then androidTools
  else if bool_decide (p = ProfileWeb) then standardTools ++ [runtimeTool "node" "Node.js LTS (brew install node)"]
  else if bool_decide (p = ProfileFull) then
    androidTools ++
    [runtimeTool "node" "Node.js LTS"; imageProvider "gpt-image" "OpenAI API key (official `codex login`)";
     imageProvider "nano-banana" "Gemini API key (official `gemini login`)";
     mkRequest "docker" CatContainer true "" "Docker Desktop / podman"]
  else [].

Definition SortedTools (l : list ToolRequest) : list ToolRequest := sortStable (λ a b, String.ltb (R_ID a) (R_ID b)) l.

(** ** The plan *)

(** A Go string type; [ActionNone] is its zero value. *)
Inductive StepAction := ActionNone | ActionInstall | ActionSkipHave | ActionSkipGlobal | ActionAuth | ActionStartDaemon.
#[global] Instance StepAction_eq_dec : EqDecision StepAction.
Proof. solve_decision. Defined.

Record InstallStep := mkStep {
  ToolID : string; Category : ToolCategory; Action : StepAction; Reason : string; InstallHint : string;
  NeedsSudo : bool; ShellProfileChange : string }.
#[global] Instance InstallStep_eq_dec : EqDecision InstallStep.
Proof. solve_decision. Defined.
Record InstallPlan := mkPlan {
  Plan_Profile : Profile; WillInstall : list InstallStep; WontInstall : list InstallStep; ShellProfileDiff : string;
  RequiresSudo : bool; RequiresShellProfileChange : bool }.
Record PlanOptions := mkPlanOptions {
  Opt_Profile : Profile; Opt_Scan : SystemScan; CustomSelection : list string; NoGlobal : bool; Offline : bool;
  SkipAgents : bool; ShellProfilePath : string }.

Definition firstNonEmpty (a b : string) : string := if bool_decide (a = "") then b else a.

Definition isGlobalInstall (req : ToolRequest) : bool :=
  bool_decide (R_Category req ∈ [CatCodingAgent; CatRuntime; CatVCS; CatContainer]).

(** The first request of every known tool, and the selected ones by name. *)
Definition knownTools : list ToolRequest :=
  mjoin (ProfileSpecFor <$> [ProfileMinimal; ProfileStandard; ProfileAndroid; ProfileWeb; ProfileFull]).
Definition known (id : string) : option ToolRequest := List.find (λ t, bool_decide (R_ID t = id)) knownTools.
Definition customSpec (selection : list string) : list ToolRequest :=
  omap (λ id, if bool_decide (id ∈ selection) then known id else None)
    (sortStrings (remove_dups (R_ID <$> knownTools))).

Definition renderShellDiff (profilePath : string) (steps : list InstallStep) : string :=
  let additions := filter (λ s, s ≠ "") (ShellProfileChange <$> steps) in
  match additions with
  | [] => ""
  | _ =>
      (if bool_decide (profilePath = "") then ""
       else text.line ("--- " +:+ profilePath +:+ " (current)") +:+ text.line ("+++ " +:+ profilePath +:+ " (proposed)")) +:+
      strs.Join ((λ l, text.line ("+" +:+ l)) <$> sortStrings additions) ""
  end.

Definition withAction (s : InstallStep) (a : StepAction) (reason : string) : InstallStep :=
  mkStep (ToolID s) (Category s) a reason (InstallHint s) (NeedsSudo s) (ShellProfileChange s).

(** One request: the steps that will be taken, and the ones that will not. *)
Definition planTool (opts : PlanOptions) (req : ToolRequest) : list InstallStep * list InstallStep :=
  let step := mkStep (R_ID req) (R_Category req) ActionNone "" (R_InstallHint req) (R_NeedsSudo req) (R_ShellProfileChange req) in
  if isPresent (Opt_Scan opts) (R_ID req) then
    let version := match Find (Opt_Scan opts) (R_ID req) with Some t => Version t | None => "" end in
    ([], [withAction step ActionSkipHave ("already installed (" +:+ firstNonEmpty version "detected" +:+ ")")])
  else if NoGlobal opts && isGlobalInstall req then
    ([], [withAction step ActionSkipGlobal "--no-global: global package install skipped"])
  else if bool_decide (R_Category req ∈ [CatCodingAgent; CatImageProvider]) then
    ([step; withAction step ActionAuth "launch official provider login (no password requested in NeuroForge)"], [])
  else if bool_decide (R_Category req = CatDaemon) then ([withAction step ActionStartDaemon ""], [])
  else ([withAction step ActionInstall "not present"], []).

(** The tools a plan is about. *)
Definition requested (opts : PlanOptions) : list ToolRequest :=
  let spec := if bool_decide (Opt_Profile opts = ProfileCustom) then customSpec (CustomSelection opts)
              else ProfileSpecFor (Opt_Profile opts) in
  SortedTools (if SkipAgents opts then filter (λ t, R_Category t ≠ CatCodingAgent) spec else spec).

Definition ComputePlan (opts : PlanOptions) : result string InstallPlan :=
  if negb (Profile_IsValid (Opt_Profile opts)) then Err ("bootstrap: invalid profile " +:+ strs.q (Opt_Profile opts))
  else
    let parts := planTool opts <$> requested opts in
    let will := mjoin parts.*1 in
    Ok (mkPlan (Opt_Profile opts) will (mjoin parts.*2) (renderShellDiff (ShellProfilePath opts) will)
          (existsb NeedsSudo will) (existsb (λ s, negb (bool_decide (ShellProfileChange s = ""))) will)).

(** ** The gate, the manifest and the lock *)

Record Confirmation := mkConfirmation {
  PlanApproved : bool; SudoApproved : bool; ShellApproved : bool; StepToolID : string }.
Definition ForStep (c : Confirmation) (s : InstallStep) : Confirmation :=
  mkConfirmation (PlanApproved c) (SudoApproved c) (ShellApproved c) (ToolID s).

Record ManifestEntry := mkEntry {
  Installer_ : string; E_ToolID : string; E_Action : StepAction; Outcome : string; Detail : string }.
Record Manifest := mkManifest { M_Profile : Profile; Entries : list ManifestEntry }.

Inductive AuthStatus := AuthConnected | AuthLoginNeeded | AuthConfigure | AuthSkipped | AuthFailed.
Record AuthEntry := mkAuth { A_Provider : string; A_Status : AuthStatus; A_Detail : string }.

Record LockedVersion := mkLocked { L_ID : string; L_Version : string; L_Source : string; L_LockedAt : string }.
#[global] Instance LockedVersion_eq_dec : EqDecision LockedVersion.
Proof. solve_decision. Defined.

Inductive Sentinel :=
| ErrNotConfirmed | ErrShellProfileNotApproved | ErrActiveTask | ErrConformanceFailed | ErrNeedsExecutor
| ErrRepairNeedsConfirmation | ErrOther.
#[global] Instance Sentinel_eq_dec : EqDecision Sentinel.
Proof. solve_decision. Defined.
(** A Go error: the sentinel it wraps and what was added to it. *)
Record error := mkError { Is : Sentinel; Text : string }.
Definition other (s : string) : error := mkError ErrOther s.
Definition wrap (pre : string) (e : error) : error := mkError (Is e) (pre +:+ Text e).

(** What reading the lock file gives: no file, another failure, a text that is
    no lock, or its entries. *)
Inductive ReadResult := Missing | Unreadable (e : string) | Unparsable (e : string) | Contents (l : list LockedVersion).

(** The outside. *)
Record Host (W : Type) := mkHost {
  LookPath : string → W → result string string * W;
  Output : list string → W → result string string * W;
  GOOS : string; GOARCH : string;
  UserShell : W → string; UserHome : W → string; IsElevated : W → bool;
  ConfirmPlan : InstallPlan → W → bool * W;
  ConfirmSudo : InstallStep → W → bool * W;
  ConfirmShellProfile : string → W → bool * W;
  Install : InstallStep → Confirmation → W → result error ManifestEntry * W;
  LaunchOfficialLogin : string → W → result string AuthStatus * W;
  HasActiveTask : W → result string bool * W;
  ConformanceTest : list LockedVersion → W → option string * W;
  ReadLock : W → ReadResult * W;
  MkdirLock : W → option string * W;
  WriteTmp : list LockedVersion → W → option string * W;
  RenameTmp : W → option string * W;
  Now : W → string }.
Arguments LookPath {W}. Arguments Output {W}. Arguments GOOS {W}. Arguments GOARCH {W}. Arguments UserShell {W}.
Arguments UserHome {W}. Arguments IsElevated {W}. Arguments ConfirmPlan {W}. Arguments ConfirmSudo {W}.
Arguments ConfirmShellProfile {W}. Arguments Install {W}. Arguments LaunchOfficialLogin {W}. Arguments HasActiveTask {W}.
Arguments ConformanceTest {W}. Arguments ReadLock {W}. Arguments MkdirLock {W}. Arguments WriteTmp {W}. Arguments RenameTmp {W}.
Arguments Now {W}.

(** ** Slices of lock entries *)

Definition zeroLocked : LockedVersion := mkLocked "" "" "" "".
(** The backing arrays, each as long as its capacity; a slice is a prefix of one. *)
Abbreviation heap := (list (list LockedVersion)).
Record slice := mkSlice { arr : nat; len : nat }.
Definition array (h : heap) (s : slice) : list LockedVersion := default [] (h !! arr s).
Definition elems (h : heap) (s : slice) : list LockedVersion := take (len s) (array h s).
(** A new array of this capacity at least. *)
Definition alloc (h : heap) (l : list LockedVersion) (cap : nat) : slice * heap :=
  (mkSlice (length h) (length l), h ++ [l ++ replicate (cap - length l) zeroLocked]).
Definition setAt (h : heap) (s : slice) (i : nat) (v : LockedVersion) : heap := <[arr s := <[i := v]> (array h s)]> h.
(** [append(s, v)]: in place while there is room. *)
Definition append (grow : nat → nat) (h : heap) (s : slice) (v : LockedVersion) : slice * heap :=
  if len s <? length (array h s) then (mkSlice (arr s) (S (len s)), setAt h s (len s) v)
  else alloc h (elems h s ++ [v]) (grow (len s)).
(** [sort.Slice] by id, in place (entries of one id keep their order here). *)
Definition sortSlice (h : heap) (s : slice) : heap :=
  <[arr s := sortStable (λ a b, String.ltb (L_ID a) (L_ID b)) (elems h s) ++ drop (len s) (array h s)]> h.

Definition LockFromScan (grow : nat → nat) (h : heap) (scan : SystemScan) (ts : string) : slice * heap :=
  foldl (λ '(s, h) t, if Present t then append grow h s (mkLocked (D_ID t) (Version t) "detected" ts) else (s, h))
    (alloc h [] 0) (Tools scan).

Definition MergeInstalled (grow : nat → nat) (h : heap) (lf : slice) (entries : list ManifestEntry) (ts : string) : slice * heap :=
  let byID : gmap string nat := list_to_map (rev (imap (λ i e, (L_ID e, i)) (elems h lf))) in
  (foldl (λ '(lf, h, byID) m,
      if bool_decide (Outcome m ∈ ["failed"; "skipped"]) then (lf, h, byID)
      else
        let v := mkLocked (E_ToolID m) "installed" "installed" ts in
        match byID !! E_ToolID m with
        | Some idx => (lf, setAt h lf idx v, byID)
        | None => let '(lf, h) := append grow h lf v in (lf, h, <[E_ToolID m := len lf - 1]> byID)
        end) (lf, h, byID) entries).1.

Record UpdateResult := mkUpdateResult {
  Applied : bool; NewLock : list LockedVersion; RolledBack : bool; RollbackReason : string }.
Definition zeroUpdate : UpdateResult := mkUpdateResult false [] false "".

(** ** The operations *)

Section operations.
  Context {W : Type} (o : Host W).
  (** How far Go grows a full slice, and how much room decoding leaves. *)
  Context (grow room : nat → nat).

Definition detectTool (tool : Tool) : proc W error DetectedTool :=
  let absent := mkDetected (Tool_ID tool) (Tool_Category tool) "" "" false in
  r ← atomic (LookPath o (Tool_ID tool));
  match r with
  | Err _ => mret absent
  | Ok path =>
      if bool_decide (path = "") then mret absent
      else
        match VersionCommand tool with
        | [] => mret (mkDetected (Tool_ID tool) (Tool_Category tool) path "" true)
        | cmd =>
            out ← atomic (Output o cmd);
            let version := match out with Ok out => normaliseVersion out | Err _ => "" end in
            mret (mkDetected (Tool_ID tool) (Tool_Category tool) path version true)
        end
  end.

Fixpoint detectPackageManager (candidates : list string) : proc W error string :=
  match candidates with
  | [] => mret ""
  | name :: rest =>
      r ← atomic (LookPath o name);
      match r with Ok _ => mret name | Err _ => detectPackageManager rest end
  end.

Fixpoint detectTools (l : list Tool) : proc W error (list DetectedTool) :=
  match l with
  | [] => mret []
  | t :: l => d ← detectTool t; ds ← detectTools l; mret (d :: ds)
  end.

Definition Scan : proc W error SystemScan :=
  shell ← read (UserShell o);
  home ← read (UserHome o);
  elevated ← read (IsElevated o);
  pm ← detectPackageManager (packageManagersFor (GOOS o));
  tools ← detectTools DefaultToolSet;
  mret (mkScan (GOOS o) (GOARCH o) shell home elevated pm tools).

(** The steps of a confirmed plan; an error carries the manifest so far. *)
Fixpoint applySteps (plan : InstallPlan) (steps : list InstallStep) (manifest : list ManifestEntry) :
    proc W (Manifest * error) Manifest :=
  let sofar := mkManifest (Plan_Profile plan) manifest in
  match steps with
  | [] => mret sofar
  | step :: rest =>
      approved ← (if NeedsSudo step then atomic (ConfirmSudo o step) else mret true);
      if negb approved then
        Throw (sofar, mkError ErrNotConfirmed (": sudo step " +:+ strs.q (ToolID step) +:+ " not approved"))
      else
        let conf := ForStep (mkConfirmation true (NeedsSudo step) (RequiresShellProfileChange plan) "") step in
        r ← atomic (Install o step conf);
        match r with
        | Err e => Throw (sofar, wrap ("bootstrap: install " +:+ strs.q (ToolID step) +:+ " failed: ") e)
        | Ok entry => applySteps plan rest (manifest ++ [entry])
        end
  end.

Definition Apply (plan : InstallPlan) : proc W (Manifest * error) Manifest :=
  let nothing := mkManifest "" [] in
  yes ← atomic (ConfirmPlan o plan);
  if negb yes then Throw (nothing, mkError ErrNotConfirmed "")
  else
    shell ← (if RequiresShellProfileChange plan then atomic (ConfirmShellProfile o (ShellProfileDiff plan)) else mret true);
    if negb shell then Throw (nothing, mkError ErrShellProfileNotApproved "")
    else applySteps plan (WillInstall plan) [].

(** [AuthWizard.Run]; [launcher] is whether there is one. *)
Fixpoint authRun (launcher : bool) (steps : list InstallStep) : proc W error (list AuthEntry) :=
  match steps with
  | [] => mret []
  | step :: rest =>
      if negb (bool_decide (Action step = ActionAuth)) then authRun launcher rest
      else
        entry ← (if negb launcher then mret (mkAuth (ToolID step) AuthLoginNeeded "")
                 else
                   r ← atomic (LaunchOfficialLogin o (ToolID step));
                   mret (match r with
                         | Ok st => mkAuth (ToolID step) st ""
                         | Err e => mkAuth (ToolID step) AuthFailed
                                      ("official login failed: " +:+ e +:+ " (no password was collected)")
                         end));
        es ← authRun launcher rest;
        mret (entry :: es)
  end.

(** [ToolchainLock.Load]: the slice the decoder made. *)
Definition Load (hp : heap) : proc W error (slice * heap) :=
  r ← atomic (ReadLock o);
  match r with
  | Missing => mret (alloc hp [] 0)
  | Unreadable e => Throw (other ("bootstrap: read toolchain lock: " +:+ e))
  | Unparsable e => Throw (other ("bootstrap: parse toolchain lock: " +:+ e))
  | Contents l => mret (alloc hp l (room (length l)))
  end.

(** [ToolchainLock.Save]: sorts the caller's slice, then writes and renames. *)
Definition Save (hp : heap) (lf : slice) : proc W error heap :=
  r ← atomic (MkdirLock o);
  match r with
  | Some e => Throw (other ("bootstrap: create lock dir: " +:+ e))
  | None =>
      let hp := sortSlice hp lf in
      r ← atomic (WriteTmp o (elems hp lf));
      match r with
      | Some e => Throw (other ("bootstrap: write toolchain lock: " +:+ e))
      | None =>
          r ← atomic (RenameTmp o);
          match r with Some e => Throw (other e) | None => mret hp end
      end
  end.

(** The guard of §36.19, when there is one. *)
Definition checkActive (guard : bool) : proc W error () :=
  if negb guard then mret ()
  else
    r ← atomic (HasActiveTask o);
    match r with
    | Err e => Throw (other ("bootstrap: active-task check failed: " +:+ e))
    | Ok true => Throw (mkError ErrActiveTask "")
    | Ok false => mret ()
    end.

(** [ToolchainLock.Update] with an update routine. *)
Definition lockUpdate (guard : bool) (updateFn : option (heap → proc W error (slice * heap))) (hp : heap) :
    proc W error (slice * heap) :=
  _ ← checkActive guard;
  match updateFn with
  | None => Load hp
  | Some f => '(nl, hp) ← f hp; hp ← Save hp nl; mret (nl, hp)
  end.

Definition Drift (scan : SystemScan) : proc W error (list string) :=
  r ← catch (Load []);
  match r with
  | Err _ => mret []
  | Ok (lf, hp) =>
      let locked : gmap string string := list_to_map (rev ((λ e, (L_ID e, L_Version e)) <$> elems hp lf)) in
      mret (sortStrings (omap (λ t,
        if negb (Present t) then None
        else match locked !! D_ID t with
             | Some lv => if negb (bool_decide (lv = "")) && negb (bool_decide (lv = Version t)) then Some (D_ID t) else None
             | None => None
             end) (Tools scan)))
  end.

(** [Update]: an error comes with the result so far. *)
Definition Update (guard conformance : bool) (plan : InstallPlan) : proc W (UpdateResult * error) UpdateResult :=
  _ ← mapErr (λ e, (zeroUpdate, e)) (checkActive guard);
  r ← catch (Load []);
  let '(prev, hp) := match r with Ok p => p | Err _ => alloc [] [] 0 end in
  manifest ← mapErr (λ e, (zeroUpdate, wrap "bootstrap: update apply failed: " e.2)) (Apply plan);
  now ← read (Now o);
  let '(candidate, hp) := MergeInstalled grow hp prev (Entries manifest) now in
  hp ← mapErr (λ e, (zeroUpdate, wrap "bootstrap: persist updated lock failed: " e)) (Save hp candidate);
  r ← (if conformance then atomic (ConformanceTest o (elems hp candidate)) else mret None);
  match r with
  | Some e =>
      _ ← ignore (Save hp prev);
      Throw (mkUpdateResult false [] true e, mkError ErrConformanceFailed (": " +:+ e))
  | None => mret (mkUpdateResult true (elems hp candidate) false "")
  end.

(** The plan of [Repair]: the locked tools that are gone, as far as the profile
    knows them. *)
Definition repairPlan (profile : Profile) (scan : SystemScan) (lockFile : list LockedVersion) : InstallPlan :=
  let missing := filter (λ id, isPresent scan id = false) (L_ID <$> lockFile) in
  let steps := omap (λ req, if bool_decide (R_ID req ∈ missing) then
                  Some (mkStep (R_ID req) (R_Category req) ActionInstall "missing (repair)" (R_InstallHint req) (R_NeedsSudo req)
                          (R_ShellProfileChange req)) else None) (ProfileSpecFor profile) in
  mkPlan profile steps [] "" false false.

Definition Repair (exec : bool) (profile : Profile) (scan : SystemScan) (hp : heap) (lockFile : slice) :
    proc W (UpdateResult * error) UpdateResult :=
  if negb exec then Throw (zeroUpdate, mkError ErrRepairNeedsConfirmation "")
  else if forallb (λ e, isPresent scan (L_ID e)) (elems hp lockFile) then mret (mkUpdateResult true [] false "")
  else
    manifest ← mapErr (λ e, (zeroUpdate, wrap "bootstrap: repair apply failed: " e.2))
      (Apply (repairPlan profile scan (elems hp lockFile)));
    now ← read (Now o);
    let '(nl, hp) := MergeInstalled grow hp lockFile (Entries manifest) now in
    mret (mkUpdateResult true (elems hp nl) false "").

(** [Wizard.DryRun] and [Wizard.Run]. *)
Definition DryRun (opts : PlanOptions) : proc W error (SystemScan * InstallPlan) :=
  scan ← Scan;
  match ComputePlan (mkPlanOptions (Opt_Profile opts) scan (CustomSelection opts) (NoGlobal opts) (Offline opts)
          (SkipAgents opts) (ShellProfilePath opts)) with
  | Err e => Throw (other e)
  | Ok plan => mret (scan, plan)
  end.

Record RunResult := mkRunResult {
  Res_Scan : SystemScan; Res_Plan : InstallPlan; Res_Manifest : Manifest; Res_Auth : list AuthEntry;
  Res_Lock : list LockedVersion }.

Definition Run (confirmed launcher hasLockPath : bool) (opts : PlanOptions) : proc W error RunResult :=
  if negb confirmed then Throw (mkError ErrNeedsExecutor "")
  else
    '(scan, plan) ← DryRun opts;
    manifest ← mapErr snd (Apply plan);
    auth ← (if launcher : bool then authRun true (WillInstall plan) else mret []);
    if negb hasLockPath then mret (mkRunResult scan plan manifest auth [])
    else
      now ← read (Now o);
      let '(base, hp) := LockFromScan grow [] scan now in
      now' ← read (Now o);
      let '(merged, hp) := MergeInstalled grow hp base (Entries manifest) now' in
      hp ← Save hp merged;
      mret (mkRunResult scan plan manifest auth (elems hp merged)).

(** ** The commands *)

(** [forge init], [forge init --repair] and [forge update] up to what they print. *)
Definition runInit (dryRun : bool) (opts : PlanOptions) : proc W error (SystemScan * InstallPlan * option RunResult) :=
  if negb (Profile_IsValid (Opt_Profile opts)) then Throw (other ("invalid --profile " +:+ strs.q (Opt_Profile opts)))
  else if dryRun then '(scan, plan) ← DryRun opts; mret (scan, plan, None)
  else res ← Run true false true opts; mret (Res_Scan res, Res_Plan res, Some res).

Definition runInitRepair (profile : Profile) : proc W error UpdateResult :=
  '(lf, hp) ← Load [];
  scan ← Scan;
  mapErr snd (Repair true profile scan hp lf).

Definition runUpdate : proc W error UpdateResult :=
  scan ← Scan;
  match ComputePlan (mkPlanOptions ProfileStandard scan [] false false false "") with
  | Err e => Throw (other e)
  | Ok plan => mapErr snd (Update false false plan)
  end.
End operations.

(** The guided installer of the command line: it prints. *)
Definition guidedInstall (step : InstallStep) (conf : Confirmation) : result error ManifestEntry :=
  if negb (PlanApproved conf) then Err (mkError ErrNotConfirmed "")
  else if NeedsSudo step && negb (SudoApproved conf) then Err (mkError ErrNotConfirmed "")
  else Ok (mkEntry "guided" (ToolID step) (Action step)
    (match Action step with
     | ActionAuth => "authenticated"
     | ActionStartDaemon => "started"
     | ActionSkipHave | ActionSkipGlobal => "skipped"
     | ActionInstall | ActionNone => "installed"
     end) "").
(** What it prints for a step, in a word. *)
Definition guidedPrints (step : InstallStep) : option string :=
  match Action step with
  | ActionAuth => Some "launch official provider login"
  | ActionStartDaemon => Some "starting NeuroForge daemon service"
  | ActionInstall => Some ("installing " +:+ ToolID step +:+ ": " +:+ InstallHint step)
  | ActionNone | ActionSkipHave | ActionSkipGlobal => None
  end.

(** [TTYConfirmer.ask] over the lines that are left: an answer is yes only when it
    says so. *)
Definition ask (input : list string) : bool * list string :=
  match input with
  | [] => (false, [])
  | l :: rest => let l := strs.ToLower (strs.TrimSpace l) in (bool_decide (l ∈ ["y"; "yes"]), rest)
  end.
Definition confirm (yes : bool) (input : list string) : bool * list string := if yes then (true, input) else ask input.

(** ** The plan *)

Lemma known_id id req : known id = Some req → R_ID req = id ∧ req ∈ knownTools.
Proof.
  unfold known. intros H. apply List.find_some in H as [H1 H2]. split; [by apply bool_decide_eq_true in H2|].
  by apply list_elem_of_In.
Qed.

Lemma customSpec_ids sel : NoDup (R_ID <$> customSpec sel).
Proof.
  unfold customSpec.
  assert (NoDup (sortStrings (remove_dups (R_ID <$> knownTools)))) as Hnd.
  { rewrite sortStrings_Permutation. apply NoDup_remove_dups. }
  revert Hnd. generalize (sortStrings (remove_dups (R_ID <$> knownTools))) as l. induction l as [|id l IH]; intros Hnd; [constructor|].
  apply NoDup_cons in Hnd as [Hni Hnd]. simpl. case_bool_decide; [|auto].
  destruct (known id) as [req|] eqn:Hk; [|auto]. apply NoDup_cons. split; [|auto].
  rewrite (proj1 (known_id _ _ Hk)). intros Hin. apply Hni.
  apply list_elem_of_fmap in Hin as (r & -> & Hr). apply list_elem_of_omap in Hr as (id' & Hid & Hr).
  case_bool_decide; [|done]. by rewrite (proj1 (known_id _ _ Hr)).
Qed.

Lemma spec_ids p : NoDup (R_ID <$> ProfileSpecFor p).
Proof. unfold ProfileSpecFor. repeat case_bool_decide; vm_compute; repeat (constructor; [set_solver|]); constructor. Qed.

Lemma NoDup_filter_ids (P : ToolRequest → Prop) `{∀ x, Decision (P x)} l :
  NoDup (R_ID <$> l) → NoDup (R_ID <$> filter P l).
Proof. apply NoDup_fmap_filter. Qed.

(** No tool is requested twice. *)
Lemma requested_ids opts : NoDup (R_ID <$> requested opts).
Proof.
  unfold requested, SortedTools. rewrite sortStable_Permutation.
  assert (∀ l, NoDup (R_ID <$> l) → NoDup (R_ID <$> (if SkipAgents opts then filter (λ t, R_Category t ≠ CatCodingAgent) l else l))) as H.
  { intros l Hl. destruct (SkipAgents opts); [by apply NoDup_filter_ids|done]. }
  apply H. case_bool_decide; [apply customSpec_ids|apply spec_ids].
Qed.

(** The tools that are left alone. *)
Definition leftAlone (opts : PlanOptions) (req : ToolRequest) : bool :=
  isPresent (Opt_Scan opts) (R_ID req) || (NoGlobal opts && isGlobalInstall req).

Lemma planTool_cases opts req :
  (leftAlone opts req = true ∧ ∃ s, planTool opts req = ([], [s]) ∧ ToolID s = R_ID req ∧ Action s ∈ [ActionSkipHave; ActionSkipGlobal]) ∨
  (leftAlone opts req = false ∧ ∃ s steps, planTool opts req = (s :: steps, []) ∧
     Forall (λ s, ToolID s = R_ID req ∧ NeedsSudo s = R_NeedsSudo req ∧ ShellProfileChange s = R_ShellProfileChange req ∧
       Action s ∉ [ActionSkipHave; ActionSkipGlobal]) (s :: steps)).
Proof.
  unfold planTool, leftAlone. destruct (isPresent _ _); [left; split; [done|]; eexists; split; [done|]; simpl; set_solver|].
  destruct (NoGlobal opts && isGlobalInstall req); [left; split; [done|]; eexists; split; [done|]; simpl; set_solver|].
  right. split; [done|]. repeat case_bool_decide; eexists _, _; (split; [done|]); repeat constructor; simpl; set_solver.
Qed.

Lemma planned opts plan : ComputePlan opts = Ok plan →
  WillInstall plan = mjoin (planTool opts <$> requested opts).*1 ∧ WontInstall plan = mjoin (planTool opts <$> requested opts).*2 ∧
  Plan_Profile plan = Opt_Profile opts ∧
  RequiresSudo plan = existsb NeedsSudo (WillInstall plan) ∧
  RequiresShellProfileChange plan = existsb (λ s, negb (bool_decide (ShellProfileChange s = ""))) (WillInstall plan) ∧
  ShellProfileDiff plan = renderShellDiff (ShellProfilePath opts) (WillInstall plan).
Proof. unfold ComputePlan. destruct (Profile_IsValid _); [|done]. by intros [= <-]. Qed.

Lemma elem_of_planned {A} (f : ToolRequest → list A) (x : A) l : x ∈ mjoin (f <$> l) ↔ ∃ req, req ∈ l ∧ x ∈ f req.
Proof.
  rewrite list_elem_of_join. split.
  - intros (y & Hx & Hy). apply list_elem_of_fmap in Hy as (r & -> & Hr). by exists r.
  - intros (r & Hr & Hx). exists (f r). split; [done|]. apply list_elem_of_fmap. by exists r.
Qed.

Lemma Join_elem l x : x ∈ l → ∃ a b, strs.Join l "" = a +:+ x +:+ b.
Proof.
  induction l as [|y l IH]; [by intros ?%not_elem_of_nil|]. intros [->|Hx]%elem_of_cons.
  - destruct l as [|z l]; [exists "", ""; simpl; by rewrite append_nil_r|]. exists "", ("" +:+ strs.Join (z :: l) ""). done.
  - destruct (IH Hx) as (a & b & Hab). destruct l as [|z l]; [by apply not_elem_of_nil in Hx|].
    exists (y +:+ "" +:+ a), b. change (strs.Join (y :: z :: l) "") with (y +:+ "" +:+ strs.Join (z :: l) ""). rewrite Hab. by rewrite !append_assoc.
Qed.

(** Every line a plan adds to the shell profile is in the diff that is shown. *)
Lemma diff_shows path steps s : s ∈ steps → ShellProfileChange s ≠ "" →
  ∃ a b, renderShellDiff path steps = a +:+ text.line ("+" +:+ ShellProfileChange s) +:+ b.
Proof.
  intros Hs Hne. unfold renderShellDiff.
  assert (ShellProfileChange s ∈ filter (λ s, s ≠ "") (ShellProfileChange <$> steps)) as Hin.
  { apply list_elem_of_filter. split; [done|]. apply list_elem_of_fmap. by exists s. }
  destruct (filter _ _) as [|x l] eqn:E; [by apply not_elem_of_nil in Hin|]. rewrite <- E in *. clear E.
  destruct (Join_elem ((λ l, text.line ("+" +:+ l)) <$> sortStrings (filter (λ s, s ≠ "") (ShellProfileChange <$> steps)))
    (text.line ("+" +:+ ShellProfileChange s))) as (a & b & Hab).
  { apply list_elem_of_fmap. eexists. split; [done|]. by apply elem_of_sortStrings. }
  rewrite Hab. eexists (_ +:+ a), b. by rewrite append_assoc.
Qed.

(** The plan is exact.  What is present, or global under [--no-global], is left
    alone and listed as such; every other requested tool gets its steps and
    nothing else does; no tool is on both lists; a step needs what its request
    needs.  The summaries say whether any step needs privileges or changes the
    shell profile, and every such change is in the diff. *)
Theorem ComputePlan_exact opts plan : ComputePlan opts = Ok plan →
  Profile_IsValid (Opt_Profile opts) = true ∧
  (∀ id, (∃ s, s ∈ WillInstall plan ∧ ToolID s = id) ↔ ∃ req, req ∈ requested opts ∧ R_ID req = id ∧ leftAlone opts req = false) ∧
  (∀ id, (∃ s, s ∈ WontInstall plan ∧ ToolID s = id) ↔ ∃ req, req ∈ requested opts ∧ R_ID req = id ∧ leftAlone opts req = true) ∧
  (∀ s s', s ∈ WillInstall plan → s' ∈ WontInstall plan → ToolID s ≠ ToolID s') ∧
  (∀ s, s ∈ WillInstall plan → ∃ req, req ∈ requested opts ∧ ToolID s = R_ID req ∧ NeedsSudo s = R_NeedsSudo req ∧
     ShellProfileChange s = R_ShellProfileChange req) ∧
  (RequiresSudo plan = true ↔ ∃ s, s ∈ WillInstall plan ∧ NeedsSudo s = true) ∧
  (RequiresShellProfileChange plan = true ↔ ∃ s, s ∈ WillInstall plan ∧ ShellProfileChange s ≠ "") ∧
  (∀ s, s ∈ WillInstall plan → ShellProfileChange s ≠ "" →
     ∃ a b, ShellProfileDiff plan = a +:+ text.line ("+" +:+ ShellProfileChange s) +:+ b).
Proof.
  intros H. assert (Profile_IsValid (Opt_Profile opts) = true) as Hv by (unfold ComputePlan in H; by destruct (Profile_IsValid _)).
  apply planned in H as (Hw & Hn & _ & Hsu & Hsh & Hd). rewrite <- !list_fmap_compose in Hw, Hn.
  assert (∀ s, s ∈ WillInstall plan ↔ ∃ req, req ∈ requested opts ∧ s ∈ (planTool opts req).1) as Hwill by (intros; rewrite Hw; apply elem_of_planned).
  assert (∀ s, s ∈ WontInstall plan ↔ ∃ req, req ∈ requested opts ∧ s ∈ (planTool opts req).2) as Hwont by (intros; rewrite Hn; apply elem_of_planned).
  assert (∀ s, s ∈ WillInstall plan → ∃ req, req ∈ requested opts ∧ leftAlone opts req = false ∧ ToolID s = R_ID req ∧
    NeedsSudo s = R_NeedsSudo req ∧ ShellProfileChange s = R_ShellProfileChange req) as Hin.
  { intros s (req & Hr & Hs)%Hwill. destruct (planTool_cases opts req) as [(_ & x & E & _)|(Hl & x & l & E & Hf)]; rewrite E in Hs.
    - by apply not_elem_of_nil in Hs.
    - rewrite Forall_forall in Hf. destruct (Hf s Hs) as (? & ? & ? & ?). by exists req. }
  assert (∀ s, s ∈ WontInstall plan → ∃ req, req ∈ requested opts ∧ leftAlone opts req = true ∧ ToolID s = R_ID req) as Hout.
  { intros s (req & Hr & Hs)%Hwont. destruct (planTool_cases opts req) as [(Hl & x & E & Hid & _)|(_ & x & l & E & _)]; rewrite E in Hs.
    - apply list_elem_of_singleton in Hs as ->. by exists req.
    - by apply not_elem_of_nil in Hs. }
  split; [done|]. split; [|split]; [| |split; [|split; [|split; [|split]]]].
  - intros id. split.
    + intros (s & Hs & <-). destruct (Hin s Hs) as (req & ? & ? & ? & _). by exists req.
    + intros (req & Hr & <- & Hl). destruct (planTool_cases opts req) as [[? _]|(_ & x & l & E & Hf)]; [congruence|].
      apply Forall_cons in Hf as [[Hx _] _]. exists x. split; [|done]. apply Hwill. exists req. rewrite E. split; [done|left].
  - intros id. split.
    + intros (s & Hs & <-). destruct (Hout s Hs) as (req & ? & ? & ?). by exists req.
    + intros (req & Hr & <- & Hl). destruct (planTool_cases opts req) as [(_ & x & E & Hx & _)|[? _]]; [|congruence].
      exists x. split; [|done]. apply Hwont. exists req. rewrite E. split; [done|left].
  - intros s s' Hs Hs' Heq. destruct (Hin s Hs) as (r & Hr & Hl & Hid & _), (Hout s' Hs') as (r' & Hr' & Hl' & Hid').
    assert (r = r') as <-; [|congruence]. apply list_elem_of_lookup in Hr as [i Hi], Hr' as [j Hj].
    assert (i = j) as <-; [|congruence]. apply (NoDup_lookup _ i j (R_ID r) (requested_ids opts)); rewrite list_lookup_fmap.
    + by rewrite Hi. + rewrite Hj. simpl. congruence.
  - intros s Hs. destruct (Hin s Hs) as (req & ? & _ & ? & ? & ?). by exists req.
  - rewrite Hsu. rewrite existsb_elem. done.
  - rewrite Hsh, existsb_elem. split; intros (s & Hs & Hne); exists s; (split; [done|]).
    + by apply negb_true_iff, bool_decide_eq_false in Hne.
    + by apply negb_true_iff, bool_decide_eq_false.
  - intros s Hs Hne. rewrite Hd. by apply diff_shows.
Qed.

(** ** What an operation does to the system *)

Inductive event :=
| ELook (name : string) | EOutput (cmd : list string) | EPlan (plan : InstallPlan) (yes : bool)
| ESudo (step : InstallStep) (yes : bool) | EShell (diff : string) (yes : bool)
| EInstall (step : InstallStep) (conf : Confirmation) (r : result error ManifestEntry)
| ELogin (id : string) | EActive (r : result string bool) | EConform (c : list LockedVersion) (r : option string)
| ERead (r : ReadResult) | EMkdir | EWrite (c : list LockedVersion) (r : option string) | ERename (r : option string).

Definition traced {W} (o : Host W) : Host (W * list event) := {|
  LookPath := λ n, trace.logged (λ _, ELook n) (LookPath o n);
  Output := λ c, trace.logged (λ _, EOutput c) (Output o c);
  GOOS := GOOS o; GOARCH := GOARCH o;
  UserShell := λ s, UserShell o s.1; UserHome := λ s, UserHome o s.1; IsElevated := λ s, IsElevated o s.1;
  ConfirmPlan := λ p, trace.logged (EPlan p) (ConfirmPlan o p);
  ConfirmSudo := λ s, trace.logged (ESudo s) (ConfirmSudo o s);
  ConfirmShellProfile := λ d, trace.logged (EShell d) (ConfirmShellProfile o d);
  Install := λ s c, trace.logged (EInstall s c) (Install o s c);
  LaunchOfficialLogin := λ id, trace.logged (λ _, ELogin id) (LaunchOfficialLogin o id);
  HasActiveTask := trace.logged EActive (HasActiveTask o);
  ConformanceTest := λ c, trace.logged (EConform c) (ConformanceTest o c);
  ReadLock := trace.logged ERead (ReadLock o);
  MkdirLock := trace.logged (λ _, EMkdir) (MkdirLock o);
  WriteTmp := λ c, trace.logged (EWrite c) (WriteTmp o c);
  RenameTmp := trace.logged ERename (RenameTmp o);
  Now := λ s, Now o s.1
|}.

(** The steps the installer was given so far. *)
Definition installs (l : list event) : list InstallStep :=
  omap (λ e, match e with EInstall s _ _ => Some s | _ => None end) l.

(** The installer is only given the next step of a plan the user approved, with
    a token that says what was approved; a privileged step right after the user
    approved that very step; a step of a plan that changes the shell profile
    after the user approved the diff.  The lock is only written when the whole
    plan is done, and replaced right after its new content was written to the
    temporary file.  With a guard there was no active task. *)
Definition allowed (plan : InstallPlan) (guard : bool) (l : list event) (e : event) : Prop :=
  match e with
  | EInstall step conf _ =>
      EPlan plan true ∈ l ∧ WillInstall plan !! length (installs l) = Some step ∧
      conf = mkConfirmation true (NeedsSudo step) (RequiresShellProfileChange plan) (ToolID step) ∧
      (NeedsSudo step = true → last l = Some (ESudo step true)) ∧
      (RequiresShellProfileChange plan = true → EShell (ShellProfileDiff plan) true ∈ l) ∧
      (guard = true → EActive (Ok false) ∈ l)
  | EWrite _ _ => length (installs l) = length (WillInstall plan)
  | ERename _ => length (installs l) = length (WillInstall plan) ∧ ∃ c, last l = Some (EWrite c None)
  | _ => True
  end.

Lemma installs_app l l' : installs (l ++ l') = installs l ++ installs l'.
Proof. apply omap_app. Qed.

Section applying.
  Context {W : Type} (o : Host W) (plan : InstallPlan) (guard : bool).
  (** What the caller of [Apply] promises about its events. *)
  Context (ok : list event → event → Prop).
  Context (Hok : ∀ l e, allowed plan guard l e → ok l e).

#[local] Abbreviation fine := (trace.ordered ok).

(** The user has approved what every step needs. *)
Definition approvedPlan (l : list event) : Prop :=
  EPlan plan true ∈ l ∧ (RequiresShellProfileChange plan = true → EShell (ShellProfileDiff plan) true ∈ l) ∧
  (guard = true → EActive (Ok false) ∈ l).

Lemma approvedPlan_app l l' : approvedPlan l → approvedPlan (l ++ l').
Proof. intros (H1 & H2 & H3). split; [|split]; intros; apply elem_of_app; left; auto. Qed.

Lemma lwp_steps steps manifest l :
  fine l → approvedPlan l → installs l ++ steps = WillInstall plan →
  trace.lwp fine (applySteps (traced o) plan steps manifest)
    (λ r l', ∀ m, r = Ok m → ∃ l2, l' = l ++ l2 ∧ installs l' = WillInstall plan ∧ length (Entries m) = length manifest + length steps) l.
Proof.
  revert manifest l. induction steps as [|step steps IH]; intros manifest l Hl Ha Hi; simpl.
  { apply trace.lwp_ret. intros m [= <-]. exists []. rewrite !app_nil_r in *. simpl. split_and!; [done|done|lia]. }
  assert (∀ l1, fine l1 → approvedPlan l1 → (NeedsSudo step = true → last l1 = Some (ESudo step true)) → (∃ l2, l1 = l ++ l2 ∧ installs l2 = []) →
    trace.lwp fine (r ← atomic (Install (traced o) step (ForStep (mkConfirmation true (NeedsSudo step) (RequiresShellProfileChange plan) "") step));
      match r with
      | Err e => Throw (mkManifest (Plan_Profile plan) manifest, wrap ("bootstrap: install " +:+ strs.q (ToolID step) +:+ " failed: ") e)
      | Ok entry => applySteps (traced o) plan steps (manifest ++ [entry])
      end) (λ r l', ∀ m, r = Ok m → ∃ l2, l' = l ++ l2 ∧ installs l' = WillInstall plan ∧ length (Entries m) = length manifest + S (length steps)) l1)
    as Hinstall.
  { intros l1 Hl1 Ha1 Hs (l2 & -> & Hi2). apply trace.lwp_bind; [done|].
    assert (installs (l ++ l2) = installs l) as Hi1 by (by rewrite installs_app, Hi2, app_nil_r).
    apply trace.lwp_event; [done| |].
    - intros r. apply Hok. split; [apply Ha1|]. split; [rewrite Hi1, <- Hi; by apply list_lookup_middle|].
      split; [done|]. split; [done|]. split; apply Ha1.
    - intros [entry|e] Hl2; [|by apply trace.lwp_throw].
      eapply trace.lwp_mono; [|apply IH; [done|by apply approvedPlan_app|]].
      + intros r l' _ Hr m Hm. destruct (Hr m Hm) as (l3 & -> & H3 & H4). eexists. rewrite <- !app_assoc. split; [done|].
        rewrite <- !app_assoc in H3. split; [done|]. rewrite H4, length_app. simpl. lia.
      + rewrite installs_app, Hi1. simpl. by rewrite <- app_assoc. }
  apply trace.lwp_bind; [done|]. destruct (NeedsSudo step) eqn:Hsudo.
  - apply trace.lwp_event; [done|by intros; apply Hok|]. intros [] Hl1; simpl; [|by apply trace.lwp_throw].
    apply Hinstall; [done|by apply approvedPlan_app|intros _; by rewrite last_snoc|by exists [ESudo step true]].
  - apply trace.lwp_ret. simpl. apply Hinstall; [done|done|done|exists []; by rewrite app_nil_r].
Qed.

Lemma lwp_Apply l :
  fine l → installs l = [] → (guard = true → EActive (Ok false) ∈ l) →
  trace.lwp fine (Apply (traced o) plan)
    (λ r l', ∀ m, r = Ok m → ∃ l2, l' = l ++ l2 ∧ installs l' = WillInstall plan ∧ length (Entries m) = length (WillInstall plan)) l.
Proof.
  intros Hl Hi Hg. apply trace.lwp_bind; [done|]. apply trace.lwp_event; [done|by intros; apply Hok|].
  intros [] Hl1; simpl; [|by apply trace.lwp_throw].
  assert (∀ l1, fine l1 → approvedPlan l1 → (∃ l2, l1 = l ++ l2 ∧ installs l2 = []) →
    trace.lwp fine (applySteps (traced o) plan (WillInstall plan) [])
      (λ r l', ∀ m, r = Ok m → ∃ l2, l' = l ++ l2 ∧ installs l' = WillInstall plan ∧ length (Entries m) = length (WillInstall plan)) l1) as Hsteps.
  { intros l1 Hl1' Ha (l2 & -> & H2). eapply trace.lwp_mono; [|apply lwp_steps; [done|done|by rewrite installs_app, Hi, H2]].
    intros r l' _ Hr m Hm. destruct (Hr m Hm) as (l3 & -> & H3). rewrite <- app_assoc in *. by eexists. }
  apply trace.lwp_bind; [done|]. destruct (RequiresShellProfileChange plan) eqn:Hshell.
  - apply trace.lwp_event; [done|by intros; apply Hok|]. intros [] Hl2; simpl; [|by apply trace.lwp_throw].
    apply Hsteps; [done| |exists [EPlan plan true; EShell (ShellProfileDiff plan) true]; by rewrite <- app_assoc].
    split; [set_solver|]. split; [set_solver|]. intros Hgd. specialize (Hg Hgd). set_solver.
  - apply trace.lwp_ret. apply Hsteps; [done| |by eexists]. split; [set_solver|]. split; [by rewrite Hshell|].
    intros Hgd. specialize (Hg Hgd). set_solver.
Qed.

(** A call that only reads or asks. *)
Definition quiet (e : event) : Prop :=
  match e with EInstall _ _ _ | EWrite _ _ | ERename _ => False | _ => True end.

Lemma lwp_quiet {E A} (f : W → A * W) ev (P : result E A → list event → Prop) l :
  fine l → (∀ a, quiet (ev a)) → (∀ a, fine (l ++ [ev a]) → P (Ok a) (l ++ [ev a])) →
  trace.lwp fine (atomic (trace.logged ev f)) P l.
Proof.
  intros Hl Hq HP. apply trace.lwp_event; [done| |done]. intros a. apply Hok. specialize (Hq a). by destruct (ev a).
Qed.

(** The lock file is replaced by this content: written aside, then renamed. *)
Definition replaced (c : list LockedVersion) : list event := [EWrite c None; ERename None].

Lemma lwp_Save hp lf l (P : result error heap → list event → Prop) :
  fine l → length (installs l) = length (WillInstall plan) → (∀ e l', fine (l ++ l') → installs l' = [] → P (Err e) (l ++ l')) →
  (∀ l' l1, l' = l1 ++ replaced (elems (sortSlice hp lf) lf) → fine (l ++ l') → installs l' = [] → P (Ok (sortSlice hp lf)) (l ++ l')) →
  trace.lwp fine (Save (traced o) hp lf) P l.
Proof.
  intros Hl Hi He Ho. apply trace.lwp_bind; [done|]. apply lwp_quiet; [done|done|].
  intros [e|] Hl1; [by apply trace.lwp_throw, He|]. apply trace.lwp_bind; [done|]. apply trace.lwp_event; [done| |].
  { intros a. apply Hok. simpl. by rewrite installs_app, app_nil_r. }
  intros [e|] Hl2; rewrite <- app_assoc in *; [by apply trace.lwp_throw, He|].
  apply trace.lwp_bind; [done|]. apply trace.lwp_event; [done| |].
  { intros a. apply Hok. simpl. rewrite installs_app, app_nil_r. split; [done|]. eexists. by rewrite last_app. }
  intros [e|] Hl3; rewrite <- app_assoc in *; [by apply trace.lwp_throw, He|]. by apply trace.lwp_ret, (Ho _ [EMkdir]).
Qed.
End applying.

(** Logging changes nothing else. *)
Ltac same := repeat first
  [ apply trace.sim_ret | apply trace.sim_throw | apply trace.sim_atomic | apply trace.sim_read | apply trace.sim_bind
  | apply trace.sim_catch | apply trace.sim_mapErr | progress intros
  | match goal with
    | |- trace.sim (if ?b then _ else _) _ => destruct b
    | |- trace.sim (match ?x with _ => _ end) _ => destruct x
    end ].

Lemma Update_sim {W} (o : Host W) grow room guard conf plan :
  trace.sim (Update o grow room guard conf plan) (Update (traced o) grow room guard conf plan).
Proof.
  assert (∀ steps m, trace.sim (applySteps o plan steps m) (applySteps (traced o) plan steps m)) as Hsteps.
  { induction steps as [|s steps IH]; intros m; cbn [applySteps]; same. apply IH. }
  unfold Update, checkActive, Load, Apply, Save. same. all: try apply Hsteps; same.
Qed.

(** ** Looking only *)

Definition readOnly (e : event) : Prop :=
  match e with ELook _ => True | EOutput cmd => cmd ∈ VersionCommand <$> DefaultToolSet | _ => False end.

Lemma readOnly_installs l : Forall readOnly l → installs l = [].
Proof. induction 1 as [|e l He _ IH]; [done|]. unfold installs in *. simpl. by destruct e. Qed.

Section looking.
  Context {W : Type} (o : Host W) (ok : list event → event → Prop).
  Context (Hok : ∀ l e, readOnly e → ok l e).

#[local] Abbreviation fine := (trace.ordered ok).
(** The log grew by looks only. *)
Definition looked (l l' : list event) : Prop := fine l' ∧ ∃ l2, l' = l ++ l2 ∧ Forall readOnly l2.

Lemma looked_refl l : fine l → looked l l.
Proof. intros H. split; [done|]. exists []. by rewrite app_nil_r. Qed.
Lemma looked_snoc l l' e : fine (l' ++ [e]) → readOnly e → looked l l' → looked l (l' ++ [e]).
Proof.
  intros Hf He (_ & l2 & -> & H2). split; [done|]. exists (l2 ++ [e]). rewrite <- app_assoc. split; [done|].
  apply Forall_app. by split; [|constructor].
Qed.

Lemma lwp_look {E A} (f : W → A * W) ev l0 (P : result E A → list event → Prop) l :
  looked l0 l → (∀ a, readOnly (ev a)) → (∀ a, looked l0 (l ++ [ev a]) → P (Ok a) (l ++ [ev a])) →
  trace.lwp fine (atomic (trace.logged ev f)) P l.
Proof.
  intros Hl He HP. apply trace.lwp_event; [apply Hl|auto|]. intros a Hf. by apply HP, looked_snoc.
Qed.

Lemma lwp_packageManager cs l0 l : looked l0 l → trace.lwp fine (detectPackageManager (traced o) cs) (λ _, looked l0) l.
Proof.
  revert l. induction cs as [|c cs IH]; intros l Hl; cbn [detectPackageManager]; [by apply trace.lwp_ret|].
  apply trace.lwp_bind; [apply Hl|]. eapply lwp_look; [done|done|]. intros [p|e] Hl1; [by apply trace.lwp_ret|auto].
Qed.

Lemma lwp_detectTool t l0 l : t ∈ DefaultToolSet → looked l0 l →
  trace.lwp fine (detectTool (traced o) t) (λ _, looked l0) l.
Proof.
  intros Ht Hl. apply trace.lwp_bind; [apply Hl|]. eapply lwp_look; [done|done|].
  intros [p|e] Hl1; [|by apply trace.lwp_ret]. case_bool_decide; [by apply trace.lwp_ret|].
  destruct (VersionCommand t) eqn:Hc; [by apply trace.lwp_ret|]. apply trace.lwp_bind; [apply Hl1|].
  eapply lwp_look; [done| |].
  - intros _. unfold readOnly. rewrite <- Hc. apply list_elem_of_fmap. by exists t.
  - intros out Hl2. by apply trace.lwp_ret.
Qed.

Lemma lwp_detectTools ts l0 l : (∀ t, t ∈ ts → t ∈ DefaultToolSet) → looked l0 l →
  trace.lwp fine (detectTools (traced o) ts) (λ _, looked l0) l.
Proof.
  revert l. induction ts as [|t ts IH]; intros l Ht Hl; cbn [detectTools]; [by apply trace.lwp_ret|].
  apply trace.lwp_bind; [apply Hl|]. eapply trace.lwp_mono; [|apply lwp_detectTool; [apply Ht; left|exact Hl]].
  intros [d|e] l' _ Hl'; [|done]. apply trace.lwp_bind; [apply Hl'|].
  eapply trace.lwp_mono; [|apply IH; [|exact Hl']]; [|intros; apply Ht; by right].
  intros [ds|e] l'' _ Hl''; [by apply trace.lwp_ret|done].
Qed.

Lemma lwp_Scan l : fine l → trace.lwp fine (Scan (traced o)) (λ _, looked l) l.
Proof.
  intros Hl. apply trace.lwp_bind; [done|]. apply trace.lwp_read. intros shell.
  apply trace.lwp_bind; [done|]. apply trace.lwp_read. intros home.
  apply trace.lwp_bind; [done|]. apply trace.lwp_read. intros el.
  apply trace.lwp_bind; [done|]. eapply trace.lwp_mono; [|apply lwp_packageManager, looked_refl, Hl].
  intros [pm|e] l' _ Hl'; [|done]. apply trace.lwp_bind; [apply Hl'|].
  eapply trace.lwp_mono; [|apply lwp_detectTools; [done|exact Hl']].
  intros [ts|e] l'' _ Hl''; [by apply trace.lwp_ret|done].
Qed.

(** The options with the scan that was made. *)
Definition withScan (opts : PlanOptions) (scan : SystemScan) : PlanOptions :=
  mkPlanOptions (Opt_Profile opts) scan (CustomSelection opts) (NoGlobal opts) (Offline opts) (SkipAgents opts) (ShellProfilePath opts).

Lemma lwp_DryRun opts l : fine l →
  trace.lwp fine (DryRun (traced o) opts)
    (λ r l', looked l l' ∧ ∀ scan plan, r = Ok (scan, plan) → ComputePlan (withScan opts scan) = Ok plan) l.
Proof.
  intros Hl. apply trace.lwp_bind; [done|]. eapply trace.lwp_mono; [|by apply lwp_Scan].
  intros [scan|e] l' _ Hl'; [|done]. fold (withScan opts scan).
  destruct (ComputePlan _) as [plan|e] eqn:Hp; [|by apply trace.lwp_throw].
  apply trace.lwp_ret. split; [done|]. by intros ?? [= <- <-].
Qed.
End looking.

(** A dry run looks for executables and asks the known tools for their versions:
    nothing is installed, confirmed, logged in to or written (AC-25). *)
Theorem DryRun_changes_nothing {W} (o : Host W) opts w m l :
  trace.life (DryRun (traced o) opts) w m l → Forall readOnly l.
Proof.
  intros Hl. destruct (trace.life_sound (trace.ordered (λ _, readOnly)) _ (λ _ _, True) _ _ _ (trace.ordered_empty _)
    (trace.lwp_mono _ _ _ _ _ (λ _ _ _ _, I) (lwp_DryRun o (λ _, readOnly) ltac:(done) opts [] (trace.ordered_empty _))) Hl) as (H & _).
  apply Forall_forall. intros e (l1 & l2 & ->)%list_elem_of_split. by eapply (H l1).
Qed.

(** ** Updating and initialising *)

Section confirmed.
  Context {W : Type} (o : Host W) (grow room : nat → nat).

(** What an update that is over did. *)
Definition updated (plan : InstallPlan) (conf : bool) (r : result (UpdateResult * error) UpdateResult) (l : list event) : Prop :=
  ∀ u, r = Ok u → installs l = WillInstall plan ∧ Applied u = true ∧
    ∃ l1, l = l1 ++ replaced (NewLock u) ++ (if conf then [EConform (NewLock u) None] else []).

Lemma lwp_checkActive guard (P : result error () → list event → Prop) ok plan :
  (∀ l e, allowed plan guard l e → ok l e) → (∀ e l, P (Err e) l) →
  (∀ l, trace.ordered ok l → installs l = [] → (guard = true → EActive (Ok false) ∈ l) → P (Ok ()) l) →
  trace.lwp (trace.ordered ok) (checkActive (traced o) guard) P [].
Proof.
  intros Hok He Ho. pose proof (trace.ordered_empty ok) as Hl. unfold checkActive. destruct guard; cbn [negb].
  - apply trace.lwp_bind; [done|]. eapply lwp_quiet; [done|done|done|].
    intros [[]|e] Hl1; [by apply trace.lwp_throw|apply trace.lwp_ret|by apply trace.lwp_throw].
    apply Ho; [done|done|]. intros _. by left.
  - apply trace.lwp_ret. by apply Ho.
Qed.

Lemma lwp_Load ok plan guard hp l (P : result error (slice * heap) → list event → Prop) :
  (∀ l e, allowed plan guard l e → ok l e) → trace.ordered ok l →
  (∀ r a, trace.ordered ok (l ++ [ERead a]) → P r (l ++ [ERead a])) →
  trace.lwp (trace.ordered ok) (Load (traced o) room hp) P l.
Proof.
  intros Hok Hl HP. apply trace.lwp_bind; [done|]. eapply lwp_quiet; [done|done|done|].
  intros a Hl1. destruct a; first [by apply trace.lwp_ret, HP|by apply trace.lwp_throw, HP].
Qed.

Lemma lwp_Update guard conf plan :
  trace.lwp (trace.ordered (allowed plan guard)) (Update (traced o) grow room guard conf plan) (updated plan conf) [].
Proof.
  apply trace.lwp_bind; [by apply trace.ordered_empty|]. apply trace.lwp_mapErr.
  eapply lwp_checkActive; [done|done|]. intros l Hl Hi Hg.
  apply trace.lwp_bind; [done|]. apply trace.lwp_catch. eapply lwp_Load; [done|done|]. intros r a Hl1.
  destruct (match r with Ok p => p | Err _ => alloc [] [] 0 end) as [prev hp].
  apply trace.lwp_bind; [done|]. apply trace.lwp_mapErr.
  eapply trace.lwp_mono; [|eapply lwp_Apply; [done|done|by rewrite installs_app, Hi|]]; [|intros H; specialize (Hg H); set_solver].
  intros [m|e] l2 Hl2 Hm; [|done]. destruct (Hm m eq_refl) as (_ & _ & Hall & _). clear Hm Hl1 Hl Hi Hg.
  apply trace.lwp_bind; [done|]. apply trace.lwp_read. intros now.
  destruct (MergeInstalled _ _ _ _ _) as [candidate hp1].
  apply trace.lwp_bind; [done|]. apply trace.lwp_mapErr. eapply lwp_Save; [done|done|by rewrite Hall|done|].
  intros l4 l3 El4 Hl4 Hi4. apply trace.lwp_bind; [done|].
  assert (∀ l5, installs l5 = [] → installs ((l2 ++ l4) ++ l5) = WillInstall plan) as Hend.
  { intros l5 H5. by rewrite !installs_app, Hall, Hi4, H5, !app_nil_r. }
  destruct conf.
  - eapply lwp_quiet; [done|done|done|]. intros [e|] Hl5.
    + apply trace.lwp_bind; [done|]. apply trace.lwp_ignore; [done|].
      eapply lwp_Save; [done|done|by rewrite Hend| |]; intros; by apply trace.lwp_throw.
    + apply trace.lwp_ret. intros u [= <-]. cbn [NewLock Applied]. split; [by apply Hend|]. split; [done|].
      exists (l2 ++ l3). by rewrite El4, <- !app_assoc.
  - apply trace.lwp_ret, trace.lwp_ret. intros u [= <-]. cbn [NewLock Applied].
    split; [rewrite <- (app_nil_r (l2 ++ l4)); by apply Hend|]. split; [done|]. exists (l2 ++ l3). by rewrite El4, app_nil_r, <- app_assoc.
Qed.

(** What [Wizard.Run] may do: installs and writes are those of the plan for what
    the scan found, everything else is open. *)
Definition allowedRun (opts : PlanOptions) (l : list event) (e : event) : Prop :=
  quiet e ∨ ∃ scan plan, ComputePlan (withScan opts scan) = Ok plan ∧ allowed plan false l e.

Lemma lwp_auth ok steps l (P : result error (list AuthEntry) → list event → Prop) :
  (∀ l e, quiet e → ok l e) → trace.ordered ok l →
  (∀ r l', trace.ordered ok (l ++ l') → installs l' = [] → P r (l ++ l')) →
  trace.lwp (trace.ordered ok) (authRun (traced o) true steps) P l.
Proof.
  intros Hok. revert l P. induction steps as [|step steps IH]; intros l P Hl HP; cbn [authRun].
  { apply trace.lwp_ret. specialize (HP (Ok []) []). rewrite app_nil_r in HP. auto. }
  case_bool_decide; cbn [negb]; [|by apply IH].
  apply trace.lwp_bind; [done|]. apply trace.lwp_bind; [done|].
  apply trace.lwp_event; [done|by intros; apply Hok|]. intros r Hl1. apply trace.lwp_ret.
  apply trace.lwp_bind; [done|]. apply IH; [done|]. intros [es|e] l' Hl' Hi; rewrite <- app_assoc in *; [apply trace.lwp_ret|]; by apply HP.
Qed.

Lemma lwp_Run launcher hasLock opts :
  trace.lwp (trace.ordered (allowedRun opts)) (Run (traced o) grow true launcher hasLock opts)
    (λ r l, ∀ res, r = Ok res → installs l = WillInstall (Res_Plan res) ∧ ComputePlan (withScan opts (Res_Scan res)) = Ok (Res_Plan res) ∧
       (hasLock = true → replaced (Res_Lock res) `suffix_of` l)) [].
Proof.
  assert (trace.ordered (allowedRun opts) []) as Hl by apply trace.ordered_empty.
  apply trace.lwp_bind; [done|].
  eapply trace.lwp_mono; [|apply lwp_DryRun; [|exact Hl]]; [|intros l e He; left; by destruct e].
  intros [[scan plan]|e] l1 _ [[Hl1 (l2 & -> & Hro)] Hplan]; [|done]. specialize (Hplan _ _ eq_refl).
  assert (∀ l e, allowed plan false l e → allowedRun opts l e) as Hok by (intros; right; eauto).
  assert (∀ l e, quiet e → allowedRun opts l e) as Hquiet by (intros; by left).
  apply trace.lwp_bind; [done|]. apply trace.lwp_mapErr.
  eapply trace.lwp_mono; [|eapply lwp_Apply; [exact Hok|done|by apply readOnly_installs|done]].
  intros [m|e] l3 Hl3 Hm; [|done]. destruct (Hm m eq_refl) as (_ & _ & Hall & _).
  apply trace.lwp_bind; [done|].
  assert (∀ auth l4, trace.ordered (allowedRun opts) (l3 ++ l4) → installs l4 = [] →
    trace.lwp (trace.ordered (allowedRun opts))
      (if negb hasLock then mret (mkRunResult scan plan m auth [])
       else now ← read (Now (traced o));
         let '(base, hp) := LockFromScan grow [] scan now in
         now' ← read (Now (traced o));
         let '(merged, hp) := MergeInstalled grow hp base (Entries m) now' in
         hp ← Save (traced o) hp merged; mret (mkRunResult scan plan m auth (elems hp merged)))
      (λ r l, ∀ res, r = Ok res → installs l = WillInstall (Res_Plan res) ∧ ComputePlan (withScan opts (Res_Scan res)) = Ok (Res_Plan res) ∧
         (hasLock = true → replaced (Res_Lock res) `suffix_of` l)) (l3 ++ l4)) as Hlock.
  { intros auth l4 Hl4 Hi4. assert (installs (l3 ++ l4) = WillInstall plan) as Hi by (by rewrite installs_app, Hi4, app_nil_r).
    destruct hasLock; cbn [negb]; [|by apply trace.lwp_ret; intros res [= <-]].
    apply trace.lwp_bind; [done|]. apply trace.lwp_read. intros now.
    destruct (LockFromScan _ _ _ _) as [base hp]. apply trace.lwp_bind; [done|]. apply trace.lwp_read. intros now'.
    destruct (MergeInstalled _ _ _ _ _) as [merged hp1]. apply trace.lwp_bind; [done|].
    eapply lwp_Save; [exact Hok|done|by rewrite Hi|done|]. intros l5 l6 El5 Hl5 Hi5. apply trace.lwp_ret. intros res [= <-].
    simpl. rewrite (installs_app (l3 ++ l4)), Hi, Hi5, app_nil_r. split_and!; [done|done|]. intros _. exists ((l3 ++ l4) ++ l6).
    by rewrite El5, app_assoc. }
  destruct launcher.
  - eapply lwp_auth; [done|done|]. intros [auth|e] l4 Hl4 Hi4; [by apply Hlock|done].
  - apply trace.lwp_ret. specialize (Hlock [] []). rewrite app_nil_r in Hlock. by apply Hlock.
Qed.
End confirmed.

(** C30: Nothing is installed silently (§36.17 to §36.19).  In every life of an update,
    whatever the user, the installer and the machine answer, the installer is
    given nothing but the steps of the plan, in order, after the user approved
    the plan, for a privileged step right after the user approved that very step,
    for a plan that changes the shell profile after the user approved the diff,
    and with a guard only after the guard, asked once, said that no task is
    active; the lock is neither written nor replaced before all steps are done,
    and only replaced right after its new content was written in full.  An update
    that succeeds did all of them, and the last thing it did was to write the
    lock it reports, to put it in place and, with a conformance suite, to pass it
    with this lock. *)
Theorem Update_confirmed {W} (o : Host W) grow room guard conf plan w m l :
  trace.life (Update (traced o) grow room guard conf plan) w m l →
  trace.ordered (allowed plan guard) l ∧ installs l `prefix_of` WillInstall plan ∧
  ∀ u, m = Ret u → updated plan conf (Ok u) l.
Proof.
  intros Hl. destruct (trace.life_sound _ _ _ _ _ _ (trace.ordered_empty _) (lwp_Update o grow room guard conf plan) Hl) as (Hi & Hr & _).
  split; [done|]. split; [|intros u ->; by apply Hr]. clear Hr Hl.
  induction l as [|e l IH] using rev_ind; [by apply prefix_nil|].
  assert (trace.ordered (allowed plan guard) l) as Hl.
  { intros l1 x l2 ->. apply (Hi l1 x (l2 ++ [e])). by rewrite <- app_assoc. }
  specialize (IH Hl). pose proof (Hi l e [] eq_refl) as He. rewrite installs_app. destruct e; try (by rewrite app_nil_r).
  destruct He as (_ & Hn & _). destruct IH as [k Hk]. exists (drop 1 k). simpl. rewrite Hk in Hn |- *.
  rewrite lookup_app_r, Nat.sub_diag in Hn by lia. destruct k as [|s k]; [done|]. injection Hn as ->. by rewrite <- app_assoc.
Qed.

(** The same for [forge init]: the plan is the one for the scan that was made. *)
Theorem Run_confirmed {W} (o : Host W) grow launcher hasLock opts w m l :
  trace.life (Run (traced o) grow true launcher hasLock opts) w m l →
  trace.ordered (allowedRun opts) l ∧
  ∀ res, m = Ret res → installs l = WillInstall (Res_Plan res) ∧ ComputePlan (withScan opts (Res_Scan res)) = Ok (Res_Plan res) ∧
    (hasLock = true → replaced (Res_Lock res) `suffix_of` l).
Proof.
  intros Hl. destruct (trace.life_sound _ _ _ _ _ _ (trace.ordered_empty _) (lwp_Run o grow launcher hasLock opts) Hl) as (Hi & Hr & _).
  split; [done|]. intros res ->. by apply (Hr res).
Qed.

(** ** The lock *)

(** What merging is on lists. *)
Definition mergeEntry (ts : string) (l : list LockedVersion) (m : ManifestEntry) : list LockedVersion :=
  if bool_decide (Outcome m ∈ ["failed"; "skipped"]) then l
  else
    let v := mkLocked (E_ToolID m) "installed" "installed" ts in
    match list_find (λ e, L_ID e = E_ToolID m) l with
    | Some (i, _) => <[i := v]> l
    | None => l ++ [v]
    end.

Definition valid (h : heap) (s : slice) : Prop := arr s < length h ∧ len s ≤ length (array h s).

Lemma array_insert h s l : arr s < length h → array (<[arr s := l]> h) s = l.
Proof. intros H. unfold array. by rewrite list_lookup_insert_eq. Qed.

Lemma elems_setAt h s i v : valid h s → i < len s → valid (setAt h s i v) s ∧ elems (setAt h s i v) s = <[i := v]> (elems h s).
Proof.
  intros [H1 H2] Hi. unfold valid, elems, setAt. rewrite length_insert, array_insert, length_insert by done.
  split; [done|]. by rewrite take_insert_lt.
Qed.

Lemma elems_append grow h s v : valid h s →
  let '(s', h') := append grow h s v in valid h' s' ∧ elems h' s' = elems h s ++ [v] ∧ len s' = S (len s).
Proof.
  intros [H1 H2]. unfold append. destruct (len s <? length (array h s)) eqn:E.
  - apply Nat.ltb_lt in E. unfold valid, elems, setAt. cbn [arr len]. rewrite length_insert.
    change (array (<[arr s:=?l]> h) (mkSlice (arr s) (S (len s)))) with (array (<[arr s:=l]> h) s).
    rewrite array_insert, length_insert by done. split; [lia|]. split; [|done].
    erewrite take_S_r; [|by apply list_lookup_insert_eq]. by rewrite take_insert_ge.
  - apply Nat.ltb_ge in E. unfold alloc, valid, elems, array. cbn [arr len]. rewrite lookup_app_r, Nat.sub_diag by lia. simpl.
    rewrite !length_app, length_replicate, length_take. simpl.
    split; [unfold array in *; simpl; lia|].
    split; [|unfold array in *; lia]. rewrite take_app_length' by (rewrite length_app, length_take; simpl; unfold array in *; lia). done.
Qed.

(** The index of the loop: where each id is. *)
Definition indexes (byID : gmap string nat) (l : list LockedVersion) : Prop :=
  ∀ id, match byID !! id with
        | Some i => ∃ e, list_find (λ e, L_ID e = id) l = Some (i, e)
        | None => list_find (λ e, L_ID e = id) l = None
        end.

Lemma find_imap id l k :
  (list_to_map (imap (λ i e, (L_ID e, k + i)) l) : gmap string nat) !! id = (λ p, k + p.1) <$> list_find (λ e, L_ID e = id) l.
Proof.
  revert k. induction l as [|e l IH]; intros k; simpl; [by rewrite lookup_empty|].
  rewrite Nat.add_0_r. case_decide as He; simpl.
  - subst. rewrite lookup_insert_eq. simpl. by rewrite Nat.add_0_r.
  - rewrite lookup_insert_ne by done.
    replace (imap _ l) with (imap (λ i e, (L_ID e, S k + i)) l) by (apply imap_ext; intros; simpl; f_equal; lia).
    rewrite IH. destruct (list_find _ l) as [[i x]|]; simpl; f_equal; lia.
Qed.

Lemma byID_indexes l : NoDup (L_ID <$> l) → indexes (list_to_map (rev (imap (λ i e, (L_ID e, i)) l))) l.
Proof.
  intros Hnd id.
  assert ((imap (λ i e, (L_ID e, i)) l).*1 = L_ID <$> l) as Hids.
  { apply list_eq. intros i. rewrite !list_lookup_fmap, list_lookup_imap. by destruct (l !! i). }
  assert ((list_to_map (rev (imap (λ i e, (L_ID e, i)) l)) : gmap string nat) = list_to_map (imap (λ i e, (L_ID e, 0 + i)) l)) as ->.
  { apply list_to_map_proper; [|by rewrite <- Permutation_rev]. rewrite <- Permutation_rev. by rewrite Hids. }
  rewrite find_imap. destruct (list_find _ l) as [[i e]|]; simpl; [by exists e|done].
Qed.

Lemma list_find_insert l i v id : i < length l → (∀ e, l !! i = Some e → L_ID e = L_ID v) →
  fst <$> list_find (λ e, L_ID e = id) (<[i := v]> l) = fst <$> list_find (λ e, L_ID e = id) l.
Proof.
  revert i. induction l as [|x l IH]; intros i Hi Hv; [by simpl in Hi; lia|]. destruct i as [|i]; simpl.
  - rewrite <- (Hv x eq_refl). by case_decide.
  - case_decide; [done|]. rewrite <- !option_fmap_compose. simpl in Hi. specialize (IH i ltac:(lia) Hv).
    destruct (list_find _ (<[i:=v]> l)) as [[]|], (list_find _ l) as [[]|]; simpl in *; congruence.
Qed.

Lemma indexes_insert byID l i v : indexes byID l → i < length l → (∀ e, l !! i = Some e → L_ID e = L_ID v) → indexes byID (<[i := v]> l).
Proof.
  intros H Hi Hv id. specialize (H id). pose proof (list_find_insert l i v id Hi Hv) as Hf.
  destruct (byID !! id) as [j|].
  - destruct H as [e He]. rewrite He in Hf. destruct (list_find _ (<[i:=v]> l)) as [[]|]; [|done]. simpl in Hf. injection Hf as ->. by eexists.
  - rewrite H in Hf. by destruct (list_find _ (<[i:=v]> l)).
Qed.

Lemma indexes_snoc byID l v : indexes byID l → list_find (λ e, L_ID e = L_ID v) l = None → indexes (<[L_ID v := length l]> byID) (l ++ [v]).
Proof.
  intros H Hn id. specialize (H id). destruct (decide (id = L_ID v)) as [->|Hne].
  - rewrite lookup_insert_eq. exists v. rewrite list_find_app_r by done. simpl. rewrite decide_True by done. done.
  - rewrite lookup_insert_ne by done. destruct (byID !! id) as [j|].
    + destruct H as [e He]. exists e. by apply list_find_app_l.
    + rewrite list_find_app_r by done. simpl. by rewrite decide_False.
Qed.

(** [MergeInstalled] puts every tool that was installed into the lock: over its
    old entry where there is one, behind the others where there is none, and
    leaves the entries of the other tools as they were; whatever room the slices
    have. *)
Theorem MergeInstalled_spec grow h lf entries ts : valid h lf → NoDup (L_ID <$> elems h lf) →
  let '(lf', h') := MergeInstalled grow h lf entries ts in
  valid h' lf' ∧ elems h' lf' = foldl (mergeEntry ts) (elems h lf) entries.
Proof.
  intros Hv Hnd. unfold MergeInstalled. pose proof (byID_indexes _ Hnd) as Hix. clear Hnd. revert Hix.
  generalize (list_to_map (rev (imap (λ i e, (L_ID e, i)) (elems h lf))) : gmap string nat) as byID.
  revert h lf Hv. induction entries as [|m entries IH]; intros h lf Hv byID Hix; cbn [foldl]; [done|].
  unfold mergeEntry at 2. case_bool_decide; [by apply IH|]. specialize (Hix (E_ToolID m)) as Hm.
  destruct (byID !! E_ToolID m) as [i|].
  - destruct Hm as [e He]. rewrite He. apply list_find_Some in He as (Hi & Hid & _).
    assert (i < len lf) as Hlt.
    { apply lookup_lt_Some in Hi. unfold elems in Hi. rewrite length_take in Hi. lia. }
    destruct (elems_setAt h lf i (mkLocked (E_ToolID m) "installed" "installed" ts) Hv Hlt) as [Hv' <-].
    apply IH; [done|]. rewrite (proj2 (elems_setAt h lf i _ Hv Hlt)). apply indexes_insert; [done|by eapply lookup_lt_Some|].
    intros e' He'. simpl. congruence.
  - rewrite Hm. pose proof (elems_append grow h lf (mkLocked (E_ToolID m) "installed" "installed" ts) Hv) as Ha.
    destruct (append grow h lf _) as [lf' h'] eqn:E. destruct Ha as (Hv' & <- & Hlen).
    apply IH; [done|]. pose proof (elems_append grow h lf (mkLocked (E_ToolID m) "installed" "installed" ts) Hv) as Ha.
    rewrite E in Ha. destruct Ha as (_ & -> & _). rewrite Hlen. replace (S (len lf) - 1) with (length (elems h lf)).
    + by apply (indexes_snoc byID (elems h lf) (mkLocked (E_ToolID m) "installed" "installed" ts)).
    + destruct Hv as [_ Hv]. unfold elems. rewrite length_take. lia.
Qed.

(** ** On a concrete machine *)

(** A machine with these executables, all of version 1.2.3, a lock file and the
    text of its temporary one; the user approves everything but the privileged
    steps of [refused]; the installer is the guided one. *)
Definition machine : Type := ReadResult * list LockedVersion.
Definition toy (present refused : list string) (active : bool) (conformance : option string) : Host machine := {|
  LookPath := λ n w, (if bool_decide (n ∈ present) then Ok ("/bin/" +:+ n) else Err "not found", w);
  Output := λ _ w, (Ok (text.line "1.2.3"), w);
  GOOS := "linux"; GOARCH := "amd64"; UserShell := λ _, "/bin/sh"; UserHome := λ _, "/h"; IsElevated := λ _, false;
  ConfirmPlan := λ _ w, (true, w);
  ConfirmSudo := λ s w, (negb (bool_decide (ToolID s ∈ refused)), w);
  ConfirmShellProfile := λ _ w, (true, w);
  Install := λ s c w, (guidedInstall s c, w);
  LaunchOfficialLogin := λ _ w, (Ok AuthConnected, w);
  HasActiveTask := λ w, (Ok active, w);
  ConformanceTest := λ _ w, (conformance, w);
  ReadLock := λ w, (w.1, w);
  MkdirLock := λ w, (None, w);
  WriteTmp := λ c w, (None, (w.1, c));
  RenameTmp := λ w, (None, (Contents w.2, w.2));
  Now := λ _, "t"
|}.
Definition allTools : list string := Tool_ID <$> DefaultToolSet.
Definition doubling (n : nat) : nat := 2 * n.
Definition emptyScan : SystemScan := mkScan "linux" "amd64" "/bin/sh" "/h" false "" [].
Definition planOf (p : Profile) : InstallPlan :=
  match ComputePlan (mkPlanOptions p emptyScan [] false false false "/h/.profile") with
  | Ok plan => plan
  | Err _ => mkPlan "" [] [] "" false false
  end.
Definition toyUpdate (o : Host machine) (guard conf : bool) (disk : ReadResult) :=
  process.run (Update (traced o) doubling doubling guard conf (planOf ProfileMinimal)) ((disk, []), []).

Lemma Update_confirmed_witness :
  let s := toyUpdate (toy [] [] false None) true true Missing in
  is_ok s.1 = true ∧ trace.ordered (allowed (planOf ProfileMinimal) true) s.2.2 ∧
  ∀ u, s.1 = Ok u → updated (planOf ProfileMinimal) true (Ok u) s.2.2.
Proof.
  intros s. assert (is_ok s.1 = true) as Hok by (vm_compute; reflexivity). split; [exact Hok|].
  pose proof (trace.run_life (Update (traced (toy [] [] false None)) doubling doubling true true (planOf ProfileMinimal))
    ((Missing, []), [])) as Hl.
  change (process.run _ _) with s in Hl. destruct s as [[u|e] [w' l]]; cbn [fst snd] in *; [|discriminate Hok].
  destruct (Update_confirmed _ doubling doubling true true (planOf ProfileMinimal) (Missing, []) (Ret u) l (ex_intro _ w' Hl))
    as (H1 & _ & H2).
  split; [exact H1|]. intros u' [= <-]. exact (H2 u eq_refl).
Defined.

Definition locked (id version : string) : LockedVersion := mkLocked id version "detected" "t0".
(** Which versions the lock file of a machine has. *)
Definition versions (w : machine) : list (string * string) :=
  match w.1 with Contents l => (λ e, (L_ID e, L_Version e)) <$> l | _ => [] end.

(** The rollback does not restore: the slice that was kept is the one that was
    written to.  A tool that was reinstalled stays at its new entry. *)
Lemma rollback_not_previous :
  let s := toyUpdate (toy [] [] false (Some "suite")) true true (Contents [locked "codex" "1.0"; locked "git" "2.0"]) in
  match s.1 with Err (u, e) => RolledBack u = true ∧ Is e = ErrConformanceFailed | Ok _ => False end ∧
  versions s.2.1 = [("codex", "installed"); ("git", "installed")].
Proof. vm_compute. done. Qed.

(** A lock file that cannot be parsed is overwritten by an update. *)
Lemma broken_lock_overwritten :
  versions (toyUpdate (toy [] [] false None) true false (Unparsable "eof")).2.1 =
    [("codex", "installed"); ("git", "installed"); ("neuroforge-daemon", "installed")].
Proof. vm_compute. done. Qed.

(** The update command has no guard: it goes through while a task is active, where
    [Update] with one refuses. *)
Lemma update_command_unguarded :
  is_ok (process.run (runUpdate (toy [] [] true None) doubling doubling) (Missing, [])).1 = true ∧
  match (toyUpdate (toy [] [] true None) true false Missing).1 with Err (_, e) => Is e = ErrActiveTask | Ok _ => False end.
Proof. vm_compute. done. Qed.

(** The step that installs a coding agent has no action: the guided installer says
    nothing about it and records it as installed. *)
Lemma agents_silently_installed :
  ∀ step, step ∈ WillInstall (planOf ProfileMinimal) → ToolID step = "codex" → Action step ≠ ActionAuth →
  Action step = ActionNone ∧ guidedPrints step = None ∧
  guidedInstall step (mkConfirmation true false false "codex") = Ok (mkEntry "guided" "codex" ActionNone "installed" "").
Proof.
  assert (Forall (λ step, ToolID step = "codex" → Action step ≠ ActionAuth → Action step = ActionNone ∧ guidedPrints step = None ∧
    guidedInstall step (mkConfirmation true false false "codex") = Ok (mkEntry "guided" "codex" ActionNone "installed" ""))
    (WillInstall (planOf ProfileMinimal))) as H; [|by rewrite Forall_forall in H].
  vm_compute. repeat constructor; try done; by intros.
Qed.

(** A repair asks about no shell profile change and shows no diff, whatever its
    steps change; and the tools the profile does not know are not repaired. *)
Lemma repair_hides_shell_change :
  let plan := repairPlan ProfileAndroid emptyScan [locked "android-sdk" "1.0"; locked "frobnicator" "1.0"] in
  RequiresShellProfileChange plan = false ∧ ShellProfileDiff plan = "" ∧
  (λ s, (ToolID s, negb (bool_decide (ShellProfileChange s = "")))) <$> WillInstall plan = [("android-sdk", true)].
Proof. vm_compute. done. Qed.

(** A privileged step that is refused comes after steps that were made, and what
    was made is in no lock. *)
Lemma refusal_after_installs :
  let s := process.run (Run (traced (toy ["git"] ["docker"] false None)) doubling true false true
             (mkPlanOptions ProfileFull emptyScan [] false false false "")) ((Missing, []), []) in
  match s.1 with Err e => Is e = ErrNotConfirmed | Ok _ => False end ∧
  ToolID <$> installs s.2.2 = ["android-sdk"; "claude"; "claude"; "codex"; "codex"] ∧ versions s.2.1 = [].
Proof. vm_compute. done. Qed.

(** On a machine with every tool, right after [forge init]: the daemon is in the
    lock and no scan finds it, so every repair starts it again. *)
Lemma daemon_always_missing :
  let o := toy allTools [] false None in
  let w := (process.run (runInit o doubling false (mkPlanOptions ProfileStandard emptyScan [] false false false "")) (Missing, [])).2 in
  match w.1 with
  | Contents l =>
      match (process.run (Scan o) w).1 with
      | Ok scan => ToolID <$> WillInstall (repairPlan ProfileStandard scan l) = ["neuroforge-daemon"]
      | Err _ => False
      end
  | _ => False
  end.
Proof. vm_compute. done. Qed.

(** A tool that was installed through NeuroForge counts as drifted from then on:
    its locked version is the word installed. *)
Lemma installed_drifts :
  let o := toy ["git"] [] false None in
  match (process.run (Scan o) (Missing, [])).1 with
  | Ok scan => (process.run (Drift o doubling scan) (Contents [mkLocked "git" "installed" "installed" "t"], [])).1 = Ok ["git"]
  | Err _ => False
  end.
Proof. vm_compute. done. Qed.

(** [--offline] changes nothing. *)
Lemma offline_ignored p scan sel g a path b b' :
  ComputePlan (mkPlanOptions p scan sel g b a path) = ComputePlan (mkPlanOptions p scan sel g b' a path).
Proof. done. Qed.

(** Without [--yes] an input that has ended, and every answer but y and yes, is a no. *)
Lemma confirm_needs_yes input :
  (confirm false input).1 = true → ∃ l rest, input = l :: rest ∧ strs.ToLower (strs.TrimSpace l) ∈ ["y"; "yes"].
Proof. destruct input as [|l rest]; [done|]. simpl. intros H%bool_decide_eq_true. eauto. Qed.
End bootstrap.
