(* ===== verification/Lifecycle.v ===== *)
(** * Lifecycle: who is the daemon of a home

    Models the ownership protocol of [internal/daemon]: the runtime files with
    their partial states and the status probe ([runtime.go]), the bind lock
    ([autostart_lock.go]), [Start], [Stop] and [Connect] ([lifecycle.go]) and the
    steps of a daemon process that decide who serves a home ([Run] in [daemon.go]
    with [runtimeFilesReconciler]).  Any number of processes run interleaved on
    one world of files, locks and processes: [claims_exclusive] is about the
    claim under the lock, the section that follows it shows where the code around
    the lock breaks what the lock protects.

    A file write is truncation, content and [chmod]; a process can die between
    any two steps.  A check of a daemon whose listener is bound waits for its
    answer; it is [slow] while the check would time out instead, because it is
    busy or because it has not come to [srv.Serve] yet, which is after it has
    released the bind lock.  Timeouts are numbers of attempts.  Other
    calls of the operating system succeed, and [flock] is available.  The
    contents of a file are the daemon that wrote it: tokens and addresses are
    those of one daemon. *)
From S2P Require Import Prelude Process.

Module lifecycle.
Import process.

(** ** The world *)

Inductive File := PIDFile | TokenFile | AddrFile.
#[global] Instance File_eq_dec : EqDecision File.
Proof. solve_decision. Defined.

(** A file has an identity; its content is empty between truncation and write,
    and then what the daemon with that pid wrote: its pid, its token or its
    address.  Daemon processes are their pids. *)
Record World := mkWorld {
  files : File → option (nat * option nat);
  nextIno : nat;
  bindLock : option nat;
  alive : list nat;
  listening : list nat;
  slow : list nat;
  recovered : list nat;  (** who ran the durable reconcilers *)
  nextPid : nat }.

Definition setFile (f : File) (v : option (nat * option nat)) (w : World) : World :=
  mkWorld (λ g, if decide (g = f) then v else files w g) (nextIno w) (bindLock w) (alive w) (listening w) (slow w)
    (recovered w) (nextPid w).
Definition setLock (l : option nat) (w : World) : World :=
  mkWorld (files w) (nextIno w) l (alive w) (listening w) (slow w) (recovered w) (nextPid w).
Definition setSlow (l : list nat) (w : World) : World :=
  mkWorld (files w) (nextIno w) (bindLock w) (alive w) (listening w) l (recovered w) (nextPid w).
Definition setListening (l : list nat) (w : World) : World :=
  mkWorld (files w) (nextIno w) (bindLock w) (alive w) l (slow w) (recovered w) (nextPid w).

(** The end of a process: its lock and its listener are gone with it. *)
Definition die (p : nat) (w : World) : World :=
  mkWorld (files w) (nextIno w) (if bool_decide (bindLock w = Some p) then None else bindLock w)
    (filter (λ q, q ≠ p) (alive w)) (filter (λ q, q ≠ p) (listening w)) (slow w) (recovered w) (nextPid w).

Abbreviation M := (proc World string).

(** A step of a daemon process happens only while it lives. *)
Definition act {A} (me : nat) (dead : A) (f : World → A * World) : M A :=
  atomic (λ w, if bool_decide (me ∈ alive w) then f w else (dead, w)).

(** [os.WriteFile]: open and truncate, then write to what was opened. *)
Definition openTrunc (f : File) (w : World) : nat * World :=
  match files w f with
  | Some (ino, _) => (ino, setFile f (Some (ino, None)) w)
  | None =>
      let w' := setFile f (Some (nextIno w, None)) w in
      (nextIno w, mkWorld (files w') (S (nextIno w)) (bindLock w) (alive w) (listening w) (slow w) (recovered w) (nextPid w))
  end.
Definition writeIno (f : File) (ino : nat) (v : nat) (w : World) : World :=
  match files w f with
  | Some (i, _) => if bool_decide (i = ino) then setFile f (Some (ino, Some v)) w else w
  | None => w
  end.
(** What a read finds: no file, an empty one, or the content. *)
Definition readFile (f : File) : M (option (option nat)) := read (λ w, match files w f with Some (_, c) => Some c | None => None end).

(** ** The runtime files *)

(** [os.Chmod] is by name: it fails when the file is no longer there. *)
Definition writeFileSecret (me : nat) (f : File) : M () :=
  ino ← act me 0 (openTrunc f);
  _ ← act me () (λ w, ((), writeIno f ino me w));
  there ← act me true (λ w, (bool_decide (is_Some (files w f)), w));
  if there : bool then mret () else Throw "daemon: chmod: no such file or directory".

(** The files are written in the order of a Go map: any. *)
Fixpoint writeRuntimeFiles (me : nat) (order : list File) : M () :=
  match order with
  | [] => mret ()
  | f :: order => _ ← writeFileSecret me f; writeRuntimeFiles me order
  end.

Definition remove (f : File) : M () := atomic (λ w, ((), setFile f None w)).
Definition cleanRuntimeFiles : M () := _ ← remove PIDFile; _ ← remove TokenFile; remove AddrFile.
(** The same by a daemon process, which may be dead. *)
Definition cleanBy (me : nat) : M () :=
  let rm f := act me () (λ w, ((), setFile f None w)) in
  _ ← rm PIDFile; _ ← rm TokenFile; rm AddrFile.

(** [readPID]: an empty file does not parse. *)
Definition readPID : M (result string nat) :=
  r ← readFile PIDFile;
  mret (match r with
        | None => Ok 0
        | Some None => Err "daemon: parse pid"
        | Some (Some n) => Ok n
        end).
Definition processAlive (pid : nat) : M bool := read (λ w, bool_decide (pid ∈ alive w)).

(** [readAddr] and [readToken]: whose they are; a missing or empty file is the
    empty string. *)
Definition readAddr : M (option nat) := r ← readFile AddrFile; mret (match r with Some (Some n) => Some n | _ => None end).
Definition readToken : M (option nat) := r ← readFile TokenFile; mret (match r with Some (Some n) => Some n | _ => None end).

Inductive LifecycleStatus := StatusAbsent | StatusRunning | StatusUnhealthy | StatusStale | StatusCorrupted.
#[global] Instance LifecycleStatus_eq_dec : EqDecision LifecycleStatus.
Proof. solve_decision. Defined.
Record Status := mkStatus { State : LifecycleStatus; PID : nat; Addr : option nat }.

(** A health check of an address with a token. *)
Definition health (addr token : nat) : M bool :=
  read (λ w, bool_decide (addr ∈ listening w) && bool_decide (token = addr) && negb (bool_decide (addr ∈ slow w))).

Definition probeStatus : M Status :=
  r ← readPID;
  match r with
  | Err _ => mret (mkStatus StatusCorrupted 0 None)
  | Ok pid =>
      if bool_decide (pid = 0) then mret (mkStatus StatusAbsent 0 None)
      else
        live ← processAlive pid;
        if negb live then mret (mkStatus StatusStale pid None)
        else
          addr ← readAddr;
          token ← readToken;
          match addr, token with
          | Some addr, Some token =>
              ok ← health addr token;
              mret (mkStatus (if ok : bool then StatusRunning else StatusUnhealthy) pid (Some addr))
          | _, _ => mret (mkStatus StatusCorrupted pid None)
          end
  end.
Definition isReachableAndHealthy : M bool := st ← probeStatus; mret (bool_decide (State st = StatusRunning)).

(** The context is not cancelled. *)
Fixpoint isReachableAndHealthyRetried (tries : nat) : M bool :=
  match tries with
  | 0 => mret false
  | S tries => ok ← isReachableAndHealthy; if ok : bool then mret true else isReachableAndHealthyRetried tries
  end.

Definition reclaimStaleRuntime : M () :=
  r ← readPID;
  match r with
  | Err _ => cleanRuntimeFiles
  | Ok pid =>
      live ← (if bool_decide (pid = 0) then mret false else processAlive pid);
      if live : bool then mret () else cleanRuntimeFiles
  end.

(** ** A daemon process *)

(** [lockFile] on the bind lock: so many attempts before the deadline. *)
Fixpoint lockFile (me : nat) (tries : nat) : M () :=
  match tries with
  | 0 => Throw "lock: timed out waiting for another forge process"
  | S tries =>
      got ← act me false (λ w, match bindLock w with
                               | None => (true, setLock (Some me) w)
                               | Some _ => (false, w)
                               end);
      if got : bool then mret () else lockFile me tries
  end.
Definition unlock (me : nat) : M () :=
  act me () (λ w, ((), if bool_decide (bindLock w = Some me) then setLock None w else w)).

(** [runtimeFilesReconciler]. *)
Definition reconcileFiles (me : nat) : M () :=
  r ← readPID;
  match r with
  | Err _ => cleanBy me
  | Ok pid =>
      if bool_decide (pid = 0) then mret ()
      else
        live ← processAlive pid;
        if live : bool then Throw "daemon: another daemon owns this runtime dir" else cleanBy me
  end.

(** The other reconcilers, which settle what the last daemon left: see [Reconcile]. *)
Definition reconcileDurable (me : nat) : M () :=
  act me () (λ w, ((), mkWorld (files w) (nextIno w) (bindLock w) (alive w) (listening w) (slow w) (me :: recovered w) (nextPid w))).

Definition listen (me : nat) : M () := act me () (λ w, ((), setListening (me :: listening w) w)).
Definition unlisten (me : nat) : M () := act me () (λ w, ((), setListening (filter (λ q, q ≠ me) (listening w)) w)).

Inductive Role := Redundant | Serving.

(** The claim: from the bind lock to its release.  [order] is how the map of the
    runtime files is walked. *)
Definition claim (me : nat) (order : list File) (tries : nat) : M Role :=
  _ ← lockFile me tries;
  healthy ← isReachableAndHealthyRetried 3;
  if healthy : bool then _ ← unlock me; mret Redundant
  else
    _ ← listen me;
    r ← catch (writeRuntimeFiles me order);
    _ ← unlock me;
    match r with
    | Ok _ => mret Serving
    | Err e => _ ← unlisten me; Throw e  (** the process ends, and its listener *)
    end.

(** [Run] up to where it serves, and its end after a shutdown. *)
Definition startup (me : nat) (order : list File) (tries : nat) : M Role :=
  healthy ← isReachableAndHealthyRetried 3;
  if healthy : bool then mret Redundant
  else
    _ ← reconcileFiles me;
    _ ← reconcileDurable me;
    claim me order tries.
Definition Run (me : nat) (order : list File) (tries : nat) : M Role :=
  role ← startup me order tries;
  match role with
  | Redundant => mret Redundant
  | Serving => _ ← unlisten me; _ ← cleanBy me; mret Serving
  end.

(** ** The commands *)

(** [cmd.Start]: a new process. *)
Definition spawn : M nat :=
  atomic (λ w, (nextPid w, mkWorld (files w) (nextIno w) (bindLock w) (nextPid w :: alive w) (listening w) (slow w) (recovered w) (S (nextPid w)))).
Definition kill (pid : nat) : M () := atomic (λ w, ((), die pid w)).

(** So many polls before the deadline. *)
Fixpoint waitForReady (polls : nat) : M bool :=
  match polls with
  | 0 => isReachableAndHealthy
  | S polls => ok ← isReachableAndHealthy; if ok : bool then mret true else waitForReady polls
  end.

Inductive Started := AlreadyRunning | Ready (child : nat) | NotReady (child : nat).

Definition Start (polls : nat) : M Started :=
  healthy ← isReachableAndHealthyRetried 4;
  if healthy : bool then mret AlreadyRunning
  else
    _ ← reclaimStaleRuntime;
    healthy ← isReachableAndHealthyRetried 2;
    if healthy : bool then mret AlreadyRunning
    else
      child ← spawn;
      ok ← waitForReady polls;
      if ok : bool then mret (Ready child) else _ ← kill child; mret (NotReady child).

Fixpoint waitForProcessExit (pid polls : nat) : M bool :=
  live ← processAlive pid;
  if negb live then mret true else match polls with 0 => mret false | S polls => waitForProcessExit pid polls end.

(** A request to stop, by the API or a signal: the process does not have to. *)
Definition Stop (polls : nat) : M (option LifecycleStatus) :=
  st ← probeStatus;
  let finish := _ ← cleanRuntimeFiles; mret None in
  let stopIt :=
    if bool_decide (PID st = 0) then finish
    else
      gone ← waitForProcessExit (PID st) polls;
      if gone : bool then finish
      else
        gone ← waitForProcessExit (PID st) polls;
        if gone : bool then finish
        else _ ← kill (PID st); _ ← waitForProcessExit (PID st) polls; finish in
  match State st with
  | StatusAbsent | StatusStale | StatusCorrupted => _ ← cleanRuntimeFiles; mret (Some (State st))
  | StatusRunning | StatusUnhealthy => stopIt
  end.

Definition Connect : M bool :=
  addr ← readAddr;
  token ← readToken;
  match addr, token with Some addr, Some token => health addr token | _, _ => mret false end.

(** ** Pools of named programs *)

(** Each program belongs to a process of its own: its rely is what the others
    guarantee. *)
Section named.
  Context {E A : Type}.
  Context (job : nat → proc World E A → Prop) (env : World → World → Prop).

Definition Named := (list (nat * proc World E A) * World)%type.
Inductive nstep : Named → Named → Prop :=
| n_start a p ts w : a ∉ ts.*1 → job a p → nstep (ts, w) (ts ++ [(a, p)], w)
| n_move i a B (f : World → B * World) k ts w :
    ts !! i = Some (a, Call f k) → nstep (ts, w) (<[i := (a, k (f w).1)]> ts, (f w).2)
| n_env ts w w' : env w w' → nstep (ts, w) (ts, w').

(** Who moves next. *)
Definition nstepAt (c : Named) (i : nat) : Named :=
  match c.1 !! i with
  | Some (a, Call f k) => let '(b, w) := f c.2 in (<[i := (a, k b)]> c.1, w)
  | _ => c
  end.

Lemma nschedule_steps l c : rtc nstep c (foldl nstepAt c l).
Proof.
  revert c. induction l as [|i l IH]; intros [ts w]; [done|]. simpl. etrans; [|apply IH].
  unfold nstepAt. simpl. destruct (ts !! i) as [[a [x|e|B f k]]|] eqn:Hi; [done..| |done].
  apply rtc_once. pose proof (n_move i a B f k ts w Hi) as Hs. by destruct (f w).
Qed.

Context (I : World → Prop) (R G : nat → World → World → Prop) (Q : nat → result E A → World → Prop).
Context (HR : ∀ a, PreOrder (R a)) (HGR : ∀ a b w w', a ≠ b → G a w w' → I w → R b w w').
Context (Henv : ∀ w w', env w w' → I w → I w' ∧ ∀ a, R a w w').
(** What holds of a process before it begins. *)
Context (fresh : nat → World → Prop) (Hfresh : ∀ a w w', R a w w' → fresh a w → fresh a w').
Context (Hjob : ∀ a p w, job a p → I w → fresh a w → wp I (R a) (G a) p (Q a) w).

Definition running (c : Named) : Prop :=
  I c.2 ∧ NoDup c.1.*1 ∧ Forall (λ t, wp I (R t.1) (G t.1) t.2 (Q t.1) c.2) c.1 ∧ ∀ a, a ∉ c.1.*1 → fresh a c.2.

Lemma nstep_running c c' : nstep c c' → running c → running c'.
Proof.
  intros Hs (Hi & Hnd & Hts & Hf). destruct Hs as [a p ts w Ha Hp|i a B f k ts w Hth|ts w w' He]; unfold running in *; cbn [fst snd] in *.
  - split; [done|]. rewrite fmap_app. split; [|split].
    + apply NoDup_app. split; [done|]. split; [|apply NoDup_singleton]. intros x Hx ->%list_elem_of_singleton. done.
    + apply Forall_app. split; [done|]. constructor; [|constructor]. by apply Hjob; [..|apply Hf].
    + intros b Hb. apply Hf. set_solver.
  - pose proof (Forall_lookup_1 _ _ _ _ Hts Hth) as Hw. simpl in Hw. destruct (Hw w) as (Hi' & HG & Hk); [done|done|].
    assert ((<[i := (a, k (f w).1)]> ts).*1 = ts.*1) as Hids.
    { rewrite list_fmap_insert. simpl. apply list_insert_id. by rewrite list_lookup_fmap, Hth. }
    assert (∀ j b p, ts !! j = Some (b, p) → j ≠ i → b ≠ a) as Hne.
    { intros j b p Hj Hji ->. apply Hji. apply (NoDup_lookup _ j i a Hnd); rewrite list_lookup_fmap; [by rewrite Hj|by rewrite Hth]. }
    split; [done|]. rewrite Hids. split; [done|]. split.
    + apply Forall_lookup. intros j [b p] Hj. destruct (decide (j = i)) as [->|Hji].
      * rewrite list_lookup_insert_eq in Hj by (by eapply lookup_lt_Some). by injection Hj as <- <-.
      * rewrite list_lookup_insert_ne in Hj by done. pose proof (Forall_lookup_1 _ _ _ _ Hts Hj) as Hb. simpl in *.
        eapply wp_rely; [apply HR| |exact Hb]. apply (HGR a); [|done|done]. intros <-. by apply (Hne j a p).
    + intros b Hb. eapply Hfresh; [|by apply Hf]. apply (HGR a); [|done|done].
      intros <-. apply Hb. apply list_elem_of_fmap. exists (a, Call f k). split; [done|]. by eapply list_elem_of_lookup_2.
  - destruct (Henv w w' He Hi) as [Hi' HRa]. split; [done|]. split; [done|]. split.
    + eapply Forall_impl; [exact Hts|]. intros [a p] Hp. eapply wp_rely; [apply HR|apply HRa|exact Hp].
    + intros a Ha. eapply Hfresh; [apply HRa|by apply Hf].
Qed.

Lemma named_sound w c : I w → (∀ a, fresh a w) → rtc nstep ([], w) c → running c.
Proof.
  intros Hi Hf Hs. assert (running ([], w)) as H0 by (split; [done|]; split; [constructor|]; split; [constructor|auto]).
  clear Hf Hi. induction Hs as [c|c c1 c2 Hstep _ IH]; [done|]. apply IH. by eapply nstep_running.
Qed.
End named.

(** ** The claim is exclusive *)

Definition filesOf (a : nat) (w : World) : Prop := ∀ f, ∃ ino, files w f = Some (ino, Some a).

Section late.
(** The daemons a check of which can time out. *)
Context (late : list nat).

(** A listening daemon lives.  Those that always answer in time are at most one,
    and it either still holds the bind lock or has its pid, token and address in
    the files. *)
Record one (w : World) : Prop := mkOne {
  one_slow : ∀ a, a ∈ slow w → a ∈ late;
  one_alive : ∀ a, a ∈ listening w → a ∈ alive w;
  one_lock : ∀ a, bindLock w = Some a → a ∈ alive w;
  one_pid : 0 ∉ listening w;
  one_unique : ∀ a b, a ∈ listening w → b ∈ listening w → a = b ∨ a ∈ late ∨ b ∈ late;
  one_files : ∀ a, a ∈ listening w → a ∈ late ∨ bindLock w = Some a ∨ filesOf a w }.

(** What the others may do to a process [me]: nothing that concerns it while it
    holds the lock, but die. *)
Record rely (me : nat) (w w' : World) : Prop := mkRely {
  rely_alive : ∀ a, a ∈ alive w' → a ∈ alive w;
  rely_lock : me ∈ alive w' → bindLock w = Some me →
    bindLock w' = Some me ∧ files w' = files w ∧ ∀ a, a ∈ listening w' → a ∈ listening w;
  rely_me : me ∈ listening w' → me ∈ listening w }.

Definition step_ (me : nat) (w w' : World) : Prop :=
  alive w' = alive w ∧
  (∀ b, b ≠ me → bindLock w = Some b → bindLock w' = Some b ∧ files w' = files w ∧ listening w' = listening w) ∧
  ∀ b, b ≠ me → b ∈ listening w' → b ∈ listening w.

(** A process dies; the answers of some daemons are late from now on. *)
Definition event (w w' : World) : Prop :=
  (∃ p, w' = die p w) ∨ (∃ l, (∀ a, a ∈ l → a ∈ late) ∧ w' = setSlow l w).

#[local] Instance rely_preorder me : PreOrder (rely me).
Proof.
  split.
  - intros w. by constructor.
  - intros w1 w2 w3 [A1 L1 M1] [A2 L2 M2]. constructor; [auto| |auto].
    intros Hm Hl. destruct (L1 (A2 _ Hm) Hl) as (H1 & F1 & N1). destruct (L2 Hm H1) as (H2 & F2 & N2).
    split_and!; [done|congruence|auto].
Qed.

#[local] Instance step_refl me : Reflexive (step_ me).
Proof. by intros w. Qed.

Lemma step_rely a b w w' : a ≠ b → step_ a w w' → one w → rely b w w'.
Proof.
  intros Hab (Ha & Hl & Hn) Ho. constructor; [by rewrite Ha| |auto].
  intros Hb Hlk. destruct (Hl b) as (H1 & H2 & H3); [done|done|]. split_and!; [done|done|by rewrite H3].
Qed.

Lemma elem_filter_ne (p : nat) (l : list nat) (a : nat) : a ∈ filter (λ q, q ≠ p) l ↔ a ≠ p ∧ a ∈ l.
Proof. by rewrite list_elem_of_filter. Qed.

Lemma die_one p w : one w → one (die p w).
Proof.
  intros [Hs Ha Hl H0 Hu Hf]. constructor; simpl; [done| | |by rewrite elem_filter_ne; intros []| |].
  - intros a. rewrite !elem_filter_ne. intros []; auto.
  - intros a. case_bool_decide; [done|]. intros Hla. rewrite elem_filter_ne. split; [|auto]. intros ->. done.
  - intros a b. rewrite !elem_filter_ne. intros [] []; auto.
  - intros a. rewrite elem_filter_ne. intros [Hne Hin]. destruct (Hf a Hin) as [?|[Hla|Hfa]]; [by left|right; left|by right; right].
    rewrite bool_decide_eq_false_2; [done|]. congruence.
Qed.

Lemma die_rely p a w : rely a w (die p w).
Proof.
  constructor; simpl; [| |by rewrite elem_filter_ne; intros []].
  - intros b. rewrite elem_filter_ne. by intros [].
  - rewrite elem_filter_ne. intros [Hne _] Hla. rewrite bool_decide_eq_false_2 by congruence. split_and!; [done|done|].
    intros b. rewrite elem_filter_ne. by intros [].
Qed.

Lemma event_safe w w' : event w w' → one w → one w' ∧ ∀ a, rely a w w'.
Proof.
  intros [[p ->]|(l & Hl & ->)] Ho; [split; [by apply die_one|intros a; apply die_rely]|].
  destruct Ho as [Hs Ha Hlk H0 Hu Hf]. split; [by constructor|]. intros a. by constructor.
Qed.

Section claiming.
  Context (me : nat) (Hme : me ≠ 0).

#[local] Abbreviation prove := (wp one (rely me) (step_ me)).

(** What the process knows, as long as it lives. *)
Definition knows (P : World → Prop) (w : World) : Prop := me ∉ listening w ∧ (me ∈ alive w → P w).
Definition held (w : World) : Prop := bindLock w = Some me.
(** It holds the lock, and whoever listens and is never late is the one that
    was read. *)
Definition named_by (r : option nat) (w : World) : Prop := held w ∧ ∀ a, a ∈ listening w → a ∈ late ∨ r = Some a.
Definition nobody (w : World) : Prop := held w ∧ ∀ a, a ∈ listening w → a ∈ late.

Lemma knows_stable (P : World → Prop) w w' :
  (∀ w w', rely me w w' → me ∈ alive w' → held w → P w → P w') → (∀ w, P w → held w) → rely me w w' → knows P w → knows P w'.
Proof.
  intros HP Hh HR [H1 H2]. split; [intros H; apply H1; by eapply rely_me|]. intros Ha.
  assert (P w) as Hp by (apply H2; by eapply rely_alive). eapply HP; eauto.
Qed.

Lemma held_stable w w' : rely me w w' → knows held w → knows held w'.
Proof. apply knows_stable; [|done]. intros ?? HR Ha Hh _. by apply (rely_lock me _ _ HR). Qed.
Lemma named_stable r w w' : rely me w w' → knows (named_by r) w → knows (named_by r) w'.
Proof.
  apply knows_stable; [|by intros ? []]. intros ?? HR Ha Hh [_ Hn]. destruct (rely_lock me _ _ HR Ha Hh) as (H1 & _ & H3).
  split; [done|auto].
Qed.
Lemma nobody_stable w w' : rely me w w' → knows nobody w → knows nobody w'.
Proof.
  apply knows_stable; [|by intros ? []]. intros ?? HR Ha Hh [_ Hn]. destruct (rely_lock me _ _ HR Ha Hh) as (H1 & _ & H3).
  split; [done|auto].
Qed.

Lemma named_none w : knows (named_by None) w → knows nobody w.
Proof.
  intros [H1 H2]. split; [done|]. intros Ha. destruct (H2 Ha) as [Hh Hn]. split; [done|]. intros a Hl. by destruct (Hn a Hl).
Qed.

(** Reading: the state stays, the knowledge may grow. *)
Lemma prove_read {A B} (f : World → A) (k : A → M B) (Q : result string B → World → Prop) (K : World → Prop) w :
  (∀ w w', rely me w w' → K w → K w') → K w → (∀ w, one w → K w → prove (k (f w)) Q w) → prove (Call (λ w, (f w, w)) k) Q w.
Proof. intros HK Hw HQ w' HR Hi. split; [done|]. split; [by apply step_refl|]. apply HQ; [done|by eapply HK]. Qed.

(** Under the lock the files of a listening daemon are its own. *)
Lemma held_files f w : one w → knows held w → knows (named_by (match files w f with Some (_, Some n) => Some n | _ => None end)) w.
Proof.
  intros Ho [H1 H2]. split; [done|]. intros Ha. specialize (H2 Ha). split; [done|]. intros a Hl.
  destruct (one_files w Ho a Hl) as [?|[Hla|Hf]]; [by left| |by right; destruct (Hf f) as [ino ->]].
  unfold held in H2. exfalso. apply H1. congruence.
Qed.

Lemma knows_mono (P P' : World → Prop) w : (P w → P' w) → knows P w → knows P' w.
Proof. intros H [H1 H2]. split; auto. Qed.

Lemma knows_and (P P' : World → Prop) w : knows P w → knows P' w → knows (λ w, P w ∧ P' w) w.
Proof. intros [H1 H2] [_ H3]. split; auto. Qed.

Lemma named_nobody r w : (me ∈ alive w → ∀ a, a ∈ listening w → r = Some a → a ∈ late) → knows (named_by r) w → knows nobody w.
Proof.
  intros Hr [H1 H2]. split; [done|]. intros Ha. destruct (H2 Ha) as [Hh Hn]. split; [done|].
  intros a Hl. destruct (Hn a Hl); auto.
Qed.

Lemma nobody_held w : knows nobody w → knows held w.
Proof. apply knows_mono. by intros []. Qed.
Lemma named_held r w : knows (named_by r) w → knows held w.
Proof. apply knows_mono. by intros []. Qed.

(** A finished probe: running, or there is nobody. *)
Definition probed (running : bool) (w : World) : Prop := knows held w ∧ (running = false → knows nobody w).

Lemma probed_stable r w w' : rely me w w' → probed r w → probed r w'.
Proof. intros HR [H1 H2]. split; [by eapply held_stable|]. intros Hs. eapply nobody_stable; [exact HR|auto]. Qed.
Lemma probed_nobody w : knows nobody w → probed false w.
Proof. intros H. split; [by apply nobody_held|done]. Qed.

Lemma and_stable r r' w w' : rely me w w' → knows (named_by r) w ∧ knows (named_by r') w → knows (named_by r) w' ∧ knows (named_by r') w'.
Proof. intros HR [H1 H2]. split; by eapply named_stable. Qed.

(** With no address in its file, whatever the token, nobody listens. *)
Lemma prove_no_addr {B} (k : option (option nat) → M B) (Q : result string B → World → Prop) w :
  knows nobody w → (∀ t w, one w → probed false w → prove (k t) Q w) →
  prove (Call (λ w, (match files w TokenFile with Some (_, c) => Some c | None => None end, w)) k) Q w.
Proof. intros Hk HQ. eapply prove_read; [exact nobody_stable|done|]. intros w' Ho Hk'. apply HQ; [done|by apply probed_nobody]. Qed.

(** What the probe returned. *)
Definition probedR (r : result string bool) (w : World) : Prop := match r with Ok b => probed b w | Err _ => False end.

Lemma prove_probe w : knows held w → prove isReachableAndHealthy probedR w.
Proof.
  intros Hk. assert (∀ r w, one w → probed r w → prove (Ret r) probedR w) as HQ.
  { intros r w1 _ H w2 HR _. by eapply probed_stable. }
  unfold isReachableAndHealthy, probeStatus, readPID, readAddr, readToken, readFile, processAlive, health, read, atomic, mret, proc_ret.
  cbn [mbind proc_bind bind].
  eapply prove_read; [exact held_stable|exact Hk|]. clear w Hk. intros w Ho Hk.
  pose proof (held_files PIDFile w Ho Hk) as Hp.
  destruct (files w PIDFile) as [[i [n|]]|]; cbn [bind].
  2: { apply HQ; [done|]. by apply probed_nobody, named_none. }
  2: { rewrite bool_decide_eq_true_2 by done. apply HQ; [done|]. by apply probed_nobody, named_none. }
  case_bool_decide as Hn.
  { apply HQ; [done|]. apply probed_nobody. eapply named_nobody; [|exact Hp]. intros _ a Ha [= ->]. subst. by destruct (one_pid w Ho). }
  cbn [bind]. eapply prove_read; [intros ??; apply named_stable|exact Hp|]. clear w Ho Hk Hp. intros w Ho Hp.
  case_bool_decide as Hlive; cbn [negb bind].
  2: { apply HQ; [done|]. apply probed_nobody. eapply named_nobody; [|exact Hp]. intros _ a Ha [= ->]. by destruct Hlive; apply (one_alive w Ho). }
  eapply prove_read; [intros ??; apply named_stable|exact Hp|]. clear w Ho Hp Hlive. intros w Ho Hp.
  pose proof (held_files AddrFile w Ho (named_held _ _ Hp)) as Ha.
  destruct (files w AddrFile) as [[ia [addr|]]|]; cbn [bind].
  - eapply prove_read; [intros ??; apply named_stable|exact Ha|]. clear w Ho Hp Ha. intros w Ho Ha.
    pose proof (held_files TokenFile w Ho (named_held _ _ Ha)) as Ht.
    destruct (files w TokenFile) as [[it [token|]]|]; cbn [bind].
    2,3: apply HQ; [done|]; by apply probed_nobody, named_none.
    eapply prove_read; [intros ??; apply (and_stable (Some addr) (Some token))|by split|]. clear w Ho Ha Ht. intros w Ho [Ha Ht].
    destruct (bool_decide (addr ∈ listening w) && bool_decide (token = addr) && negb (bool_decide (addr ∈ slow w))) eqn:Hok; cbn [bind].
    + apply HQ; [done|]. split; [by eapply named_held|done].
    + apply HQ; [done|]. apply probed_nobody. destruct (knows_and _ _ _ Ha Ht) as [H1 H2]. split; [done|]. intros Hal.
      destruct (H2 Hal) as [[Hh Hna] [_ Hnt]]. split; [done|]. intros a Hla.
      destruct (Hna a Hla) as [?|[= ->]]; [done|]. destruct (Hnt a Hla) as [?|[= ->]]; [done|].
      rewrite (bool_decide_eq_true_2 (a ∈ listening w)), (bool_decide_eq_true_2 (a = a)) in Hok by done.
      apply (one_slow w Ho). by apply negb_false_iff, bool_decide_eq_true in Hok.
  - apply prove_no_addr; [by apply named_none|]. intros t w' Ho' Hk'. by destruct t as [[]|]; apply HQ.
  - apply prove_no_addr; [by apply named_none|]. intros t w' Ho' Hk'. by destruct t as [[]|]; apply HQ.
Qed.

Lemma prove_seq {A B} (f : A → M B) (p : M A) (P : result string A → World → Prop) (Q : result string B → World → Prop) w :
  one w → prove p P w → (∀ a w', one w' → P (Ok a) w' → prove (f a) Q w') → (∀ e w', P (Err e) w' → Q (Err e) w') →
  prove (p ≫= f) Q w.
Proof. intros Ho Hp Hf He. apply wp_bind; [apply _|done|]. eapply wp_mono; [|exact Hp]. intros [a|e] w' Ho' HP; auto. Qed.

Lemma prove_retried tries w : one w → knows held w → prove (isReachableAndHealthyRetried (S tries)) probedR w.
Proof.
  revert w. induction tries as [|tries IH]; intros w Ho Hk; (eapply prove_seq; [done|by apply prove_probe| |done]); intros [|] w' Ho' HP.
  1,3: by intros w1 HR _; eapply probed_stable.
  - by intros w1 HR _; eapply probed_stable.
  - apply IH; [done|]. apply HP.
Qed.

(** It is not listening yet. *)
Definition idle (w : World) : Prop := me ∉ listening w.
Definition lockedR (r : result string ()) (w : World) : Prop := match r with Ok _ => knows held w | Err _ => True end.

Lemma prove_lockFile tries w : one w → idle w → prove (lockFile me tries) lockedR w.
Proof.
  revert w. induction tries as [|tries IH]; intros w Ho Hi; [done|]. unfold lockFile, act, atomic; fold lockFile. cbn [mbind proc_bind bind].
  intros w1 HR Ho1. assert (idle w1) as Hi1 by (intros H; by apply Hi, (rely_me _ _ _ HR)).
  case_bool_decide as Hal; [|split; [done|]; split; [apply step_refl|]; by apply IH].
  destruct (bindLock w1) as [b|] eqn:Hl; simpl; [split; [done|]; split; [apply step_refl|]; by apply IH|].
  split; [|split].
  - destruct Ho1 as [Hs Ha Hlk H0 Hu Hf]. constructor; simpl; [done|done| |done|done|].
    + by intros a [= <-].
    + intros a Hin. destruct (Hf a Hin) as [Hx|[Hx|Hx]]; [by left|congruence|by right; right].
  - split; [done|]. split; [|done]. intros b _ Hb. congruence.
  - intros w2 HR2 _. eapply held_stable; [exact HR2|]. by split.
Qed.

(** Under the lock, alone: what the files hold is its own doing. *)
Definition mine (P : (File → option (nat * option nat)) → Prop) (w : World) : Prop :=
  me ∈ alive w → held w ∧ (∀ a, a ∈ listening w → a = me ∨ a ∈ late) ∧ P (files w).

Lemma mine_stable P w w' : rely me w w' → mine P w → mine P w'.
Proof.
  intros HR H Ha. destruct (H (rely_alive _ _ _ HR _ Ha)) as (Hh & Hl & HP).
  destruct (rely_lock _ _ _ HR Ha Hh) as (H1 & H2 & H3). split; [done|]. rewrite H2. auto.
Qed.

(** A step of the holder that concerns the files only. *)
Lemma files_step P (f : World → World) w :
  one w → mine P w → me ∈ alive w →
  slow (f w) = slow w → alive (f w) = alive w → listening (f w) = listening w → bindLock (f w) = bindLock w →
  one (f w) ∧ step_ me w (f w).
Proof.
  intros [Hs Ha Hlk H0 Hu Hf] Hm Hal E1 E2 E3 E4. destruct (Hm Hal) as (Hh & Hl & _). split.
  - constructor; rewrite ?E1, ?E2, ?E3, ?E4; [done..|]. intros a Hin. destruct (Hl a Hin) as [->|?]; [right; by left|by left].
  - split; [done|]. unfold held in Hh. split; [|by rewrite E3]. intros b Hb Hbl. congruence.
Qed.

(** The files in [done] are written. *)
Definition written (done : list File) (fs : File → option (nat * option nat)) : Prop := ∀ f, f ∈ done → ∃ ino, fs f = Some (ino, Some me).
Definition writing (done : list File) (f : File) (ino : nat) (fs : File → option (nat * option nat)) : Prop :=
  (∀ g, g ∈ done → g ≠ f → ∃ i, fs g = Some (i, Some me)) ∧ fs f = Some (ino, None).
Definition mineR {A} (P : A → (File → option (nat * option nat)) → Prop) (r : result string A) (w : World) : Prop :=
  match r with Ok a => mine (P a) w | Err _ => False end.

Lemma mineR_ret {A} P (a : A) w : mine (P a) w → prove (Ret a) (mineR P) w.
Proof. intros H w' HR _. by eapply mine_stable. Qed.

Lemma openTrunc_spec f w :
  slow (openTrunc f w).2 = slow w ∧ alive (openTrunc f w).2 = alive w ∧ listening (openTrunc f w).2 = listening w ∧
  bindLock (openTrunc f w).2 = bindLock w ∧
  files (openTrunc f w).2 f = Some ((openTrunc f w).1, None) ∧ ∀ g, g ≠ f → files (openTrunc f w).2 g = files w g.
Proof.
  unfold openTrunc. destruct (files w f) as [[ino c]|]; simpl; rewrite decide_True by done; split_and!; try done;
    intros g Hg; by rewrite decide_False by congruence.
Qed.

Lemma prove_chmod done f w : mine (written (f :: done)) w →
  prove (there ← act me true (λ w, (bool_decide (is_Some (files w f)), w)); if there : bool then mret () else Throw "daemon: chmod: no such file or directory")
    (mineR (λ _, written (f :: done))) w.
Proof.
  intros Hm w1 HR1 Ho1. apply (mine_stable _ _ _ HR1) in Hm.
  case_bool_decide as Hal; (split; [done|]; split; [apply step_refl|]); cbn [fst snd].
  - destruct (Hm Hal) as (_ & _ & HW). destruct (HW f) as [i Hi]; [left|]. rewrite bool_decide_eq_true_2 by (rewrite Hi; by eexists).
    by apply mineR_ret.
  - apply mineR_ret. by intros ?.
Qed.

Lemma prove_writeFile done f w : one w → mine (written done) w → prove (writeFileSecret me f) (mineR (λ _, written (f :: done))) w.
Proof.
  intros Ho Hm. unfold writeFileSecret, act, atomic. cbn [mbind proc_bind bind].
  intros w1 HR1 Ho1. apply (mine_stable _ _ _ HR1) in Hm.
  assert (∀ ino w, one w → mine (writing done f ino) w →
    prove (_ ← act me () (λ w, ((), writeIno f ino me w)); there ← act me true (λ w, (bool_decide (is_Some (files w f)), w));
      if there : bool then mret () else Throw "daemon: chmod: no such file or directory") (mineR (λ _, written (f :: done))) w) as Hnext.
  { clear w w1 Ho Ho1 HR1 Hm. intros ino w Ho Hm. unfold act, atomic. cbn [mbind proc_bind bind]. intros w1 HR1 Ho1. apply (mine_stable _ _ _ HR1) in Hm. case_bool_decide as Hal; cbn [fst snd].
    - destruct (Hm Hal) as (Hh & Hl & Hg & Hf). unfold writeIno. rewrite Hf, bool_decide_eq_true_2 by done.
      destruct (files_step _ (setFile f (Some (ino, Some me))) _ Ho1 Hm Hal) as [H1 H2]; [done..|]. split; [done|]. split; [done|].
      apply prove_chmod. intros _. split; [done|]. split; [done|]. intros g Hg'. simpl. case_decide as Hgf; [by eexists|].
      apply Hg; [|done]. apply elem_of_cons in Hg' as [->|?]; [|done]. by destruct Hgf.
    - split; [done|]. split; [apply step_refl|]. apply prove_chmod. by intros ?. }
  case_bool_decide as Hal.
  - destruct (openTrunc_spec f w1) as (E1 & E2 & E3 & E4 & E5 & E6).
    destruct (files_step _ (λ w, (openTrunc f w).2) _ Ho1 Hm Hal) as [H1 H2]; [done..|]. split; [done|]. split; [done|].
    apply Hnext; [done|]. intros Hal'. destruct (Hm Hal) as (Hh & Hl & HW). split; [unfold held; by rewrite E4|]. split; [by rewrite E3|].
    split; [|done]. intros g Hg Hgf. rewrite E6 by done. by apply HW.
  - split; [done|]. split; [apply step_refl|]. apply Hnext; [done|]. by intros ?.
Qed.

Lemma prove_writeFiles order done w :
  one w → mine (written done) w → prove (writeRuntimeFiles me order) (mineR (λ _, written (order ++ done))) w.
Proof.
  revert done w. induction order as [|f order IH]; intros done w Ho Hm; [by apply mineR_ret|]. cbn [writeRuntimeFiles].
  eapply prove_seq; [done|by apply prove_writeFile| |done]. intros [] w' Ho' Hm'. eapply wp_mono; [|by apply (IH (f :: done))].
  intros [[]|e] w2 _ H; [|done]. intros Ha. destruct (H Ha) as (H1 & H2 & H3). split; [done|]. split; [done|].
  intros g Hg. apply H3. set_solver.
Qed.

(** The lock is released by its holder. *)
Lemma prove_unlock w :
  (∀ w', rely me w w' → one w' → me ∈ alive w' → held w' ∧ ∀ a, a ∈ listening w' → a ∈ late ∨ filesOf a w') →
  prove (unlock me) (λ _ _, True) w.
Proof.
  intros H w' HR Ho. cbn [fst snd]. case_bool_decide as Hal; [|split; [done|]; split; [apply step_refl|]; done].
  destruct (H w' HR Ho Hal) as [Hh Hf]. unfold held in Hh. cbn [fst snd]. rewrite bool_decide_eq_true_2 by done. split; [|split; [|done]].
  - destruct Ho as [Hs Ha Hlk H0 Hu _]. constructor; simpl; [done..|]. intros a Hin. destruct (Hf a Hin); [by left|by right; right].
  - split; [done|]. split; [|done]. intros b Hb Hbl. congruence.
Qed.

Lemma prove_listen w : one w → knows nobody w → prove (listen me) (mineR (λ _, written [])) w.
Proof.
  intros Ho Hk w1 HR1 Ho1. apply (nobody_stable _ _ HR1) in Hk. cbn [fst snd]. case_bool_decide as Hal; cbn [fst snd].
  - destruct Hk as [_ Hk]. destruct (Hk Hal) as [Hh Hn]. unfold held in Hh. split; [|split].
    + destruct Ho1 as [Hs Ha Hlk H0 Hu Hf]. constructor; simpl; [done|..].
      * intros a [->|?]%elem_of_cons; auto.
      * done.
      * intros [?|?]%elem_of_cons; [done|auto].
      * intros a b [->|Hx]%elem_of_cons [->|Hy]%elem_of_cons; auto.
      * intros a [->|?]%elem_of_cons; auto.
    + split; [done|]. split; [intros b Hb Hbl; congruence|]. intros b Hb. simpl. set_solver.
    + apply mineR_ret. intros _. split; [done|]. simpl. split; [|by intros f ?%not_elem_of_nil]. intros a [->|?]%elem_of_cons; auto.
  - split; [done|]. split; [apply step_refl|]. apply mineR_ret. by intros ?.
Qed.

Lemma prove_claim order tries w :
  order ≡ₚ [PIDFile; TokenFile; AddrFile] → one w → idle w → prove (claim me order tries) (λ _ _, True) w.
Proof.
  intros Hord Ho Hi. unfold claim. eapply prove_seq; [done|by apply prove_lockFile| |done]. clear w Ho Hi. intros [] w Ho Hk.
  eapply prove_seq; [done|by apply prove_retried| |done]. clear w Ho Hk. intros [|] w Ho [Hk Hn].
  - eapply prove_seq; [done|apply prove_unlock|by intros ?????? ?|done].
    intros w' HR Ho' Hal. apply (held_stable _ _ HR) in Hk as [Hnl Hk]. specialize (Hk Hal). split; [done|]. intros a Ha.
    destruct (one_files _ Ho' a Ha) as [?|[Hla|Hfa]]; [by left| |by right]. unfold held in Hk. exfalso. apply Hnl. congruence.
  - eapply prove_seq; [done|apply prove_listen; auto| |done]. clear w Ho Hk Hn. intros [] w Ho Hm.
    eapply (prove_seq _ _ (λ r, match r with Ok r => mineR (λ _, written (order ++ [])) r | Err _ => λ _, False end)); [done| | |done].
    { by apply wp_catch, (prove_writeFiles order []). }
    clear w Ho Hm. intros [[]|e] w Ho Hm; [|done].
    eapply prove_seq; [done|apply prove_unlock|by intros ?????? ?|done].
    intros w' HR Ho' Hal. apply (mine_stable _ _ _ HR) in Hm. destruct (Hm Hal) as (Hh & Hl & HW). split; [done|].
    intros a [->|?]%Hl; [right|by left]. intros f. apply HW. rewrite app_nil_r, Hord. destruct f; set_solver.
Qed.
End claiming.

(** Any number of daemon processes claim a home; any of them can die at any
    moment.  [old]: who listened before. *)
Definition claims (old : list nat) (a : nat) (p : M Role) : Prop :=
  a ≠ 0 ∧ a ∉ old ∧ ∃ order tries, order ≡ₚ [PIDFile; TokenFile; AddrFile] ∧ p = claim a order tries.

Lemma claims_one w c : one w → rtc (nstep (claims (listening w)) event) ([], w) c → one c.2.
Proof.
  intros Ho Hs. assert (running one rely step_ (λ _ _ _, True) (λ a w', a ∉ listening w → a ∉ listening w') c) as [H _]; [|done].
  revert Hs. apply named_sound; [apply _| | | | |done|by intros].
  - intros a b w1 w2 Hab Hg Hi. by eapply step_rely.
  - intros w1 w2 Hd Hi. by apply event_safe.
  - intros a w1 w2 HR Hf Hn H. by apply (Hf Hn), (rely_me _ _ _ HR).
  - intros a p w' (H0 & Hold & order & tries & Hord & ->) Ho' Hf. apply prove_claim; auto. by apply Hf.
Qed.
End late.

(** ** Alone *)

Definition file (f : File) (w : World) : option (option nat) := match files w f with Some (_, c) => Some c | None => None end.

(** The next steps of a program that runs alone. *)
Ltac alone := cbn [mbind proc_bind bind run negb fst snd].

Lemma probe_served a w :
  filesOf a w → a ≠ 0 → a ∈ alive w → a ∈ listening w → a ∉ slow w → run isReachableAndHealthy w = (Ok true, w).
Proof.
  intros Hf H0 Ha Hl Hs. unfold isReachableAndHealthy, probeStatus, readPID, readAddr, readToken, readFile, processAlive, health, read, atomic, mret, proc_ret.
  alone. destruct (Hf PIDFile) as [i ->], (Hf AddrFile) as [i1 E1], (Hf TokenFile) as [i2 E2]. alone.
  rewrite (bool_decide_eq_false_2 (a = 0)) by done. alone. rewrite (bool_decide_eq_true_2 (a ∈ alive w)) by done. alone.
  rewrite E1. alone. rewrite E2. alone.
  by rewrite (bool_decide_eq_true_2 (a ∈ listening w)), (bool_decide_eq_true_2 (a = a)), (bool_decide_eq_false_2 (a ∈ slow w)) by done.
Qed.

Lemma probe_unserved w : listening w = [] → run isReachableAndHealthy w = (Ok false, w).
Proof.
  intros Hl. unfold isReachableAndHealthy, probeStatus, readPID, readAddr, readToken, readFile, processAlive, health, read, atomic, mret, proc_ret.
  alone. destruct (files w PIDFile) as [[i [n|]]|]; alone; [|done|done].
  case_bool_decide; [done|]. alone. case_bool_decide; [|done]. alone.
  destruct (files w AddrFile) as [[i1 [addr|]]|], (files w TokenFile) as [[i2 [token|]]|] eqn:E2; alone; rewrite ?E2; try done.
  alone. by rewrite Hl, (bool_decide_eq_false_2 (addr ∈ [])) by apply not_elem_of_nil.
Qed.

Lemma retried_served tries a w :
  filesOf a w → a ≠ 0 → a ∈ alive w → a ∈ listening w → a ∉ slow w → run (isReachableAndHealthyRetried (S tries)) w = (Ok true, w).
Proof. intros. cbn [isReachableAndHealthyRetried]. rewrite run_bind. by erewrite probe_served. Qed.

Lemma retried_unserved tries w : listening w = [] → run (isReachableAndHealthyRetried tries) w = (Ok false, w).
Proof. intros Hl. induction tries as [|tries IH]; [done|]. cbn [isReachableAndHealthyRetried]. by rewrite run_bind, probe_unserved. Qed.

(** The parts of the world that a daemon's start leaves as they are. *)
Record same (w w' : World) : Prop := mkSame {
  same_alive : alive w' = alive w;
  same_slow : slow w' = slow w;
  same_listening : listening w' = listening w;
  same_lock : bindLock w' = bindLock w }.
#[local] Instance same_preorder : PreOrder same.
Proof. split; [by intros ?|]. intros ??? [] []. constructor; congruence. Qed.

Lemma run_act {A} me (d : A) f w : me ∈ alive w → run (act me d f) w = (Ok (f w).1, (f w).2).
Proof. intros H. unfold act, atomic. alone. rewrite bool_decide_eq_true_2 by done. by destruct (f w). Qed.

Lemma cleanBy_alone me w : me ∈ alive w → total (cleanBy me) (λ _ w', same w w' ∧ ∀ f, files w' f = None) w.
Proof.
  intros Ha. unfold cleanBy.
  do 2 (apply total_bind; eexists _, _; rewrite run_act by done; split; [done|]; cbn [fst snd]).
  eexists _, _. rewrite run_act by done. split; [done|]. cbn [fst snd]. split; [by constructor|]. intros []; done.
Qed.

Lemma clean_alone w : total cleanRuntimeFiles (λ _ w', same w w' ∧ ∀ f, files w' f = None) w.
Proof. eexists _, _. split; [done|]. split; [by constructor|]. intros []; done. Qed.

Lemma writeFile_alone me f w : me ∈ alive w →
  total (writeFileSecret me f) (λ _ w', same w w' ∧ (∃ i, files w' f = Some (i, Some me)) ∧ ∀ g, g ≠ f → files w' g = files w g) w.
Proof.
  intros Ha. destruct (openTrunc_spec f w) as (E1 & E2 & E3 & E4 & E5 & E6).
  unfold writeFileSecret. apply total_bind. eexists _, _. rewrite run_act by done. split; [done|].
  apply total_bind. eexists _, _. rewrite run_act by (by rewrite E2). split; [done|]. cbn [fst snd]. unfold writeIno. rewrite E5, bool_decide_eq_true_2 by done.
  apply total_bind. eexists _, _. rewrite run_act by (by simpl; rewrite E2). split; [done|]. cbn [fst snd].
  rewrite bool_decide_eq_true_2 by (simpl; rewrite decide_True by done; by eexists). apply total_ret.
  split; [by constructor|]. simpl. rewrite decide_True by done. split; [by eexists|]. intros g Hg. rewrite decide_False by done. by apply E6.
Qed.

Lemma writeFiles_alone me order w : me ∈ alive w →
  total (writeRuntimeFiles me order) (λ _ w', same w w' ∧ ∀ f, (f ∈ order → ∃ i, files w' f = Some (i, Some me)) ∧ (f ∉ order → files w' f = files w f)) w.
Proof.
  revert w. induction order as [|f order IH]; intros w Ha; cbn [writeRuntimeFiles].
  - apply total_ret. split; [done|]. intros f. split; [by intros ?%not_elem_of_nil|done].
  - apply total_bind. eapply total_mono; [|by apply writeFile_alone]. intros _ w1 (Hs & Hf & Hg).
    eapply total_mono; [|apply IH; by rewrite (same_alive _ _ Hs)]. intros _ w2 (Hs2 & H2). split; [by etrans|].
    intros g. destruct (decide (g ∈ order)) as [Hin|Hni].
    + split; [intros _; by apply H2|]. intros []. by right.
    + destruct (H2 g) as [_ Hn]. rewrite (Hn Hni). split.
      * by intros [->|?]%elem_of_cons.
      * intros Hnc. apply Hg. intros ->. apply Hnc. left.
Qed.

Lemma Connect_served a w : filesOf a w → a ∈ listening w → a ∉ slow w → run Connect w = (Ok true, w).
Proof.
  intros Hf Hl Hs. unfold Connect, readAddr, readToken, readFile, health, read, atomic, mret, proc_ret. alone.
  destruct (Hf AddrFile) as [i1 E1], (Hf TokenFile) as [i2 E2]. rewrite E1. alone. rewrite E2. alone.
  by rewrite (bool_decide_eq_true_2 (a ∈ listening w)), (bool_decide_eq_true_2 (a = a)), (bool_decide_eq_false_2 (a ∈ slow w)) by done.
Qed.

(** Who serves: it listens, alone, and its files lead to it. *)
Record serves (a : nat) (w : World) : Prop := mkServes {
  serves_listening : listening w = [a];
  serves_files : filesOf a w;
  serves_lock : bindLock w = None }.

Lemma claim_alone me order tries w :
  order ≡ₚ [PIDFile; TokenFile; AddrFile] → me ∈ alive w → listening w = [] → bindLock w = None →
  total (claim me order (S tries)) (λ r w', r = Serving ∧ serves me w' ∧ alive w' = alive w ∧ slow w' = slow w) w.
Proof.
  intros Hord Ha Hl Hk. unfold claim. apply total_bind. cbn [lockFile].
  eexists _, _. rewrite run_bind, run_act, Hk by done. split; [done|]. cbn [fst snd].
  apply total_bind. eexists _, _. rewrite retried_unserved by done. split; [done|].
  apply total_bind. eexists _, _. unfold listen. rewrite run_act by done. split; [done|]. cbn [fst snd].
  destruct (writeFiles_alone me order (setListening (me :: listening (setLock (Some me) w)) (setLock (Some me) w)) Ha) as (u & w1 & Hr & [S1 S2 S3 S4] & HW).
  apply total_bind. eexists _, _. rewrite run_catch, Hr. split; [done|]. cbn [fst snd]. simpl in S1, S2, S3, S4, HW. rewrite Hl in S3.
  apply total_bind. eexists _, _. unfold unlock. rewrite run_act by (by rewrite S1). split; [done|]. cbn [fst snd].
  apply total_ret. rewrite bool_decide_eq_true_2 by done. split; [done|]. split; [|done]. constructor; [done| |done].
  intros f. apply HW. rewrite Hord. destruct f; set_solver.
Qed.

(** The PID file names a process that lives: a daemon, or another process with
    its number. *)
Definition claimed (w : World) : bool :=
  match files w PIDFile with
  | Some (_, Some p) => negb (bool_decide (p = 0)) && bool_decide (p ∈ alive w)
  | _ => false
  end.

Lemma reconcileFiles_alone me w : me ∈ alive w → claimed w = false → total (reconcileFiles me) (λ _ w', same w w') w.
Proof.
  intros Ha Hc. unfold reconcileFiles, readPID, readFile, processAlive, read, atomic, mret, proc_ret, claimed in *. unfold total. alone.
  destruct (files w PIDFile) as [[i [p|]]|]; alone.
  - case_bool_decide; [by eexists _, _|]. alone. simpl in Hc. rewrite Hc. alone.
    destruct (cleanBy_alone me w Ha) as ([] & w' & H1 & H2 & _). by eexists _, _.
  - destruct (cleanBy_alone me w Ha) as ([] & w' & H1 & H2 & _). by eexists _, _.
  - by eexists _, _.
Qed.

Lemma reconcileDurable_alone me w : me ∈ alive w →
  total (reconcileDurable me) (λ _ w', same w w' ∧ files w' = files w ∧ recovered w' = me :: recovered w) w.
Proof. intros Ha. eexists _, _. unfold reconcileDurable. rewrite run_act by done. split; [done|]. split; [by constructor|done]. Qed.

(** Whatever files a dead daemon left, a new one takes the home over. *)
Lemma startup_alone me order tries w :
  order ≡ₚ [PIDFile; TokenFile; AddrFile] → me ∈ alive w → listening w = [] → bindLock w = None → claimed w = false →
  total (startup me order (S tries)) (λ r w', r = Serving ∧ serves me w' ∧ alive w' = alive w ∧ slow w' = slow w) w.
Proof.
  intros Hord Ha Hl Hk Hc. unfold startup. apply total_bind. eexists _, _. rewrite retried_unserved by done. split; [done|].
  apply total_bind. eapply total_mono; [|by apply reconcileFiles_alone]. intros _ w1 [S1 S2 S3 S4].
  apply total_bind. eapply total_mono; [|apply reconcileDurable_alone; by rewrite S1]. intros _ w2 ([T1 T2 T3 T4] & _ & _).
  eapply total_mono; [|apply claim_alone; [done|..]; congruence]. intros r w3 (H1 & H2 & H3 & H4). split_and!; [done|done|congruence..].
Qed.

(** After its shutdown nothing of it is left. *)
Lemma Run_alone me order tries w :
  order ≡ₚ [PIDFile; TokenFile; AddrFile] → me ∈ alive w → listening w = [] → bindLock w = None → claimed w = false →
  total (Run me order (S tries)) (λ r w', r = Serving ∧ listening w' = [] ∧ bindLock w' = None ∧ ∀ f, files w' f = None) w.
Proof.
  intros Hord Ha Hl Hk Hc. unfold Run. apply total_bind. eapply total_mono; [|by apply startup_alone].
  intros r w1 (-> & [H1 H2 H3] & H4 & H5). apply total_bind. eexists _, _. unfold unlisten. rewrite run_act by congruence. split; [done|].
  cbn [fst snd]. apply total_bind. eapply total_mono; [|apply cleanBy_alone; simpl; congruence]. intros _ w2 ([S1 S2 S3 S4] & Hf).
  apply total_ret. split; [done|]. split; [|split; [by rewrite S4|done]]. rewrite S3. simpl. rewrite H1, filter_cons_False by (by intros []). done.
Qed.

(** A home in service: a second daemon, a start and the clients see it, and
    change nothing. *)
Lemma served_kept a w : filesOf a w → a ≠ 0 → a ∈ alive w → a ∈ listening w → a ∉ slow w →
  (∀ me order tries, run (Run me order tries) w = (Ok Redundant, w)) ∧ (∀ polls, run (Start polls) w = (Ok AlreadyRunning, w)) ∧
  run Connect w = (Ok true, w).
Proof.
  intros Hf H0 Ha Hl Hs. split; [|split; [|by apply (Connect_served a)]].
  - intros me order tries. unfold Run, startup. rewrite !run_bind. by rewrite (retried_served 2 a).
  - intros polls. unfold Start. rewrite run_bind. by rewrite (retried_served 3 a).
Qed.

(** A living process in the PID file that does not serve keeps every new daemon
    away. *)
Lemma startup_conflict me order tries w : claimed w = true → listening w = [] →
  run (startup me order tries) w = (Err "daemon: another daemon owns this runtime dir", w).
Proof.
  intros Hc Hl. unfold startup. rewrite run_bind, retried_unserved by done. rewrite run_bind.
  unfold reconcileFiles, readPID, readFile, processAlive, read, atomic, mret, proc_ret, claimed in *. alone.
  destruct (files w PIDFile) as [[i [p|]]|]; [|done|done]. apply andb_true_iff in Hc as [H1 H2]. alone.
  destruct (bool_decide (p = 0)); [done|]. alone. by rewrite H2.
Qed.

(** ** Stopping *)

Lemma probe_alone w : ∃ st, run probeStatus w = (Ok st, w) ∧
  (State st = StatusRunning ∨ State st = StatusUnhealthy → claimed w = true ∧ file PIDFile w = Some (Some (PID st))).
Proof.
  unfold probeStatus, readPID, readAddr, readToken, readFile, processAlive, health, read, atomic, mret, proc_ret, claimed, file. alone.
  destruct (files w PIDFile) as [[i [n|]]|]; alone; [|eexists; split; [done|]; by intros [[=]|[=]]..].
  case_bool_decide; alone; [eexists; split; [done|]; by intros [[=]|[=]]|]. case_bool_decide; alone; [|eexists; split; [done|]; by intros [[=]|[=]]].
  destruct (files w AddrFile) as [[i1 [addr|]]|], (files w TokenFile) as [[i2 [token|]]|] eqn:E2; alone; rewrite ?E2; alone;
    eexists; (split; [done|]); done.
Qed.

Lemma wait_alone pid polls w : run (waitForProcessExit pid polls) w = (Ok (negb (bool_decide (pid ∈ alive w))), w).
Proof.
  induction polls as [|polls IH]; cbn [waitForProcessExit]; unfold processAlive, read, atomic, mret, proc_ret; alone;
    case_bool_decide as Hp; alone; try done.
Qed.

Lemma die_dead p w : p ∉ alive (die p w).
Proof. simpl. rewrite elem_filter_ne. by intros []. Qed.

(** [Stop] leaves no runtime file, and no process with the pid it found: it does
    not ask whose process that is. *)
Lemma Stop_alone polls w :
  total (Stop polls) (λ r w', (∀ f, files w' f = None) ∧
    match r with
    | None => ∃ pid, file PIDFile w = Some (Some pid) ∧ pid ∈ alive w ∧ pid ∉ alive w' ∧ ∀ a, a ≠ pid → a ∈ alive w' ↔ a ∈ alive w
    | Some _ => alive w' = alive w
    end) w.
Proof.
  unfold Stop. apply total_bind. destruct (probe_alone w) as (st & Hr & Hst). eexists _, _. split; [exact Hr|].
  assert (∀ w1, total (_ ← cleanRuntimeFiles; mret None) (λ (r : option LifecycleStatus) w', r = None ∧ (∀ f, files w' f = None) ∧ alive w' = alive w1) w1) as Hfin.
  { intros w1. apply total_bind. eapply total_mono; [|apply clean_alone]. intros _ w2 ([S _ _ _] & Hf). by apply total_ret. }
  destruct (decide (State st = StatusRunning ∨ State st = StatusUnhealthy)) as [Hs|Hs].
  - destruct (Hst Hs) as [Hc Hpid]. unfold claimed, file in *. destruct (files w PIDFile) as [[i c]|]; [|done]. injection Hpid as ->.
    apply andb_true_iff in Hc as [H0 Hal]. apply bool_decide_eq_true in Hal. apply negb_true_iff in H0.
    assert (∀ P : M (option LifecycleStatus), match State st with StatusAbsent | StatusStale | StatusCorrupted => P | _ =>
      (if bool_decide (PID st = 0) then _ ← cleanRuntimeFiles; mret None else
        gone ← waitForProcessExit (PID st) polls;
        if gone : bool then _ ← cleanRuntimeFiles; mret None else
        gone ← waitForProcessExit (PID st) polls;
        if gone : bool then _ ← cleanRuntimeFiles; mret None else
        _ ← kill (PID st); _ ← waitForProcessExit (PID st) polls; _ ← cleanRuntimeFiles; mret None) end =
      gone ← waitForProcessExit (PID st) polls;
        if gone : bool then _ ← cleanRuntimeFiles; mret None else
        gone ← waitForProcessExit (PID st) polls;
        if gone : bool then _ ← cleanRuntimeFiles; mret None else
        _ ← kill (PID st); _ ← waitForProcessExit (PID st) polls; _ ← cleanRuntimeFiles; mret None) as ->.
    { intros P. rewrite H0. by destruct Hs as [->| ->]. }
    do 2 (apply total_bind; eexists _, _; rewrite wait_alone; split; [done|]; rewrite bool_decide_eq_true_2 by done; cbn [negb]).
    apply total_bind. eexists _, _. split; [done|]. apply total_bind. eexists _, _. rewrite wait_alone. split; [done|].
    eapply total_mono; [|apply Hfin]. intros r w' (-> & Hf & Ha). split; [done|]. exists (PID st). rewrite Ha.
    split; [done|]. split; [done|]. split; [apply die_dead|]. intros a Hne. simpl. rewrite elem_filter_ne. naive_solver.
  - assert (total (_ ← cleanRuntimeFiles; mret (Some (State st))) (λ r w', (∀ f, files w' f = None) ∧ is_Some r ∧ alive w' = alive w) w) as Hx.
    { apply total_bind. eapply total_mono; [|apply clean_alone]. intros _ w2 ([S _ _ _] & Hf). by apply total_ret. }
    destruct (State st); try (by destruct Hs; auto); (eapply total_mono; [|exact Hx]); intros r w' (H1 & [s ->] & H2); done.
Qed.

(** ** Starting: no orphans *)

(** Pids are not used again while [Start] runs. *)
Definition forward (w w' : World) : Prop := nextPid w ≤ nextPid w' ∧ ∀ a, a ∈ alive w' → a ∈ alive w ∨ nextPid w ≤ a.
#[local] Instance forward_preorder : PreOrder forward.
Proof.
  split; [by split; auto|]. intros w1 w2 w3 [N1 A1] [N2 A2]. split; [lia|]. intros a [Ha|Ha]%A2; [by apply A1|right; lia].
Qed.

(** A program all of whose steps are of a kind. *)
Fixpoint all_steps {E A} (P : World → World → Prop) (p : proc World E A) : Prop :=
  match p with
  | Call f k => (∀ w, P w (f w).2) ∧ ∀ b, all_steps P (k b)
  | _ => True
  end.

Lemma all_steps_bind {E A B} P (f : A → proc World E B) (p : proc World E A) :
  all_steps P p → (∀ a, all_steps P (f a)) → all_steps P (p ≫= f).
Proof. intros Hp Hf. unfold mbind, proc_bind. induction p as [a|e|B' g k IH]; simpl in *; [done|done|]. destruct Hp. auto. Qed.

Lemma probe_steps : all_steps forward isReachableAndHealthy.
Proof.
  unfold isReachableAndHealthy, probeStatus, readPID, readAddr, readToken, readFile, processAlive, health, read, atomic, mret, proc_ret. alone.
  split; [done|]. intros [[n|]|]; alone; [|done|done]. case_bool_decide; alone; [done|]. split; [done|]. intros [|]; alone; [|done].
  split; [done|]. intros addr. split; [done|]. intros token. destruct addr as [[addr|]|], token as [[token|]|]; alone; done.
Qed.

Lemma waitForReady_steps polls : all_steps forward (waitForReady polls).
Proof. induction polls as [|polls IH]; [apply probe_steps|]. cbn [waitForReady]. apply all_steps_bind; [apply probe_steps|]. by intros [|]. Qed.
Lemma retried_steps tries : all_steps forward (isReachableAndHealthyRetried tries).
Proof. induction tries as [|tries IH]; [done|]. cbn [isReachableAndHealthyRetried]. apply all_steps_bind; [apply probe_steps|]. by intros [|]. Qed.
Lemma clean_steps : all_steps forward cleanRuntimeFiles.
Proof.
  assert (∀ f w, forward w (setFile f None w)) as Hf by (split; auto).
  do 2 (apply all_steps_bind; [by split; [intros w; apply Hf|]|intros _]). by split; [intros w; apply Hf|].
Qed.
Lemma reclaim_steps : all_steps forward reclaimStaleRuntime.
Proof.
  unfold reclaimStaleRuntime, readPID, readFile, processAlive, read, atomic, mret, proc_ret. alone.
  split; [done|]. intros [[n|]|]; alone; [|apply clean_steps|apply clean_steps].
  case_bool_decide; alone; [apply clean_steps|]. split; [done|]. intros [|]; alone; [done|apply clean_steps].
Qed.

#[local] Abbreviation any := (λ _ : World, True).

Lemma wp_steps {A} (p : M A) (K : World → Prop) w :
  (∀ w w', forward w w' → K w → K w') → all_steps forward p → K w → wp any forward forward p (λ _, K) w.
Proof.
  intros HK. revert w. induction p as [a|e|B f k IH]; intros w Hp Hw; simpl in *; [by intros w' HR _; eapply HK..|].
  intros w' HR _. destruct Hp as [Hf Hk]. split; [done|]. split; [done|]. apply IH; [done|]. eapply HK; [apply Hf|]. by eapply HK.
Qed.

(** A start that reports a daemon that did not become ready has ended it. *)
Definition no_orphan (r : result string Started) (w : World) : Prop :=
  match r with Ok (NotReady child) => child < nextPid w ∧ child ∉ alive w | _ => True end.

Lemma dead_stable c w w' : forward w w' → c < nextPid w ∧ c ∉ alive w → c < nextPid w' ∧ c ∉ alive w'.
Proof. intros [H1 H2] [H3 H4]. split; [lia|]. intros [?|?]%H2; [done|lia]. Qed.

Lemma wp_noop {A} (p : M A) w : all_steps forward p → wp any forward forward p (λ _ _, True) w.
Proof. intros H. by apply (wp_steps p any). Qed.

Lemma Start_kept polls w : wp any forward forward (Start polls) no_orphan w.
Proof.
  unfold Start. apply wp_bind; [apply _|done|]. eapply wp_mono; [|apply wp_noop, retried_steps]. intros [[|]|e] w1 _ _; [by intros ?|cbv iota|done].
  apply wp_bind; [apply _|done|]. eapply wp_mono; [|apply wp_noop, reclaim_steps]. intros [[]|e] w2 _ _; [|done].
  apply wp_bind; [apply _|done|]. eapply wp_mono; [|apply wp_noop, retried_steps]. intros [[|]|e] w3 _ _; [by intros ?|cbv iota|done].
  apply wp_bind; [apply _|done|]. unfold spawn, atomic. intros w4 _ _. split; [done|]. split.
  { split; simpl; [lia|]. intros a [->|?]%elem_of_cons; auto. }
  intros w5 HR5 _. apply wp_bind; [apply _|done|]. assert (nextPid w4 < nextPid w5) as Hlt by (destruct HR5; simpl in *; lia).
  eapply wp_mono; [|apply (wp_steps _ (λ w, nextPid w4 < nextPid w)); [|apply waitForReady_steps|exact Hlt]]; [|by intros ?? [] ?; lia].
  intros [[|]|e] w6 _ H6; [by intros ?| |done]. unfold kill, atomic, mret, proc_ret. alone. intros w7 HR7 _. split; [done|]. split.
  { split; simpl; [done|]. intros a. rewrite elem_filter_ne. intros []; auto. }
  intros w8 HR8 _. eapply dead_stable; [exact HR8|]. split; [destruct HR7; simpl; lia|apply die_dead].
Qed.

(** ** The theorem *)


(** ** Where it ends *)

(** A home nobody has used, with two processes. *)
Definition fresh_home : World := mkWorld (λ _, None) 0 None [1; 2; 3] [] [] [] 4.
Definition order1 : list File := [PIDFile; TokenFile; AddrFile].
Definition forget {A} (p : M A) : M () := _ ← p; mret ().
Definition turns (l : list (nat * nat)) : list nat := concat (map (λ '(i, n), replicate n i) l).
Definition after (ps : list (M ())) (l : list (nat * nat)) (w : World) : World := state (schedule (turns l) (mkConfig ps w)).

Lemma fresh_home_one : one [] fresh_home.
Proof. constructor; simpl; [by intros ? ?%not_elem_of_nil|by intros ? ?%not_elem_of_nil|done|by intros ?%not_elem_of_nil|by intros ?? ?%not_elem_of_nil|by intros ? ?%not_elem_of_nil]. Qed.

(** The bind lock is released before the daemon answers: when the checks of the
    next one time out until then, both listen. *)
Definition set_late (l : list nat) : M () := atomic (λ w, ((), setSlow l w)).
Lemma late_start :
  listening (after [forget (Run 1 order1 1); set_late [1]; forget (Run 2 order1 1)] [(2, 4); (0, 20); (1, 1); (2, 28)] fresh_home) = [2; 1].
Proof. vm_compute. reflexivity. Qed.

(** The reconciler of the runtime files runs outside the lock.  Between the
    truncation of the PID file and its content it finds a file that does not
    parse, and removes the three files when they are complete: the first daemon
    serves without them, and the second passes the check under the lock. *)
Lemma two_daemons :
  listening (after [forget (Run 1 order1 1); forget (Run 2 order1 1)] [(1, 3); (0, 11); (1, 1); (0, 9); (1, 19)] fresh_home) = [2; 1].
Proof. vm_compute. reflexivity. Qed.

(** Two daemons: the first writes its files while the second waits for the
    lock, and the second sees it. *)
Definition contest : @Named string Role :=
  foldl nstepAt ([(1, claim 1 order1 1); (2, claim 2 [AddrFile; TokenFile; PIDFile] 5)], fresh_home)
    (turns [(0, 5); (1, 2); (0, 10); (1, 7)]).


(** The reconcilers of the durable state run before the claim: a process that
    turns out redundant has run them while the daemon serves. *)
Lemma recovers_beside_a_daemon :
  let w := after [forget (Run 1 order1 1); forget (Run 2 order1 1)] [(1, 4); (0, 20); (1, 1)] fresh_home in
  listening w = [1] ∧ recovered w = [2; 1] ∧
  listening (after [forget (Run 1 order1 1); forget (Run 2 order1 1)] [(1, 4); (0, 20); (1, 8)] fresh_home) = [1].
Proof. vm_compute. done. Qed.

(** A daemon that shuts down removes the runtime files whosever they are: the
    next daemon serves without files, and a third one starts beside it. *)
Lemma shutdown_takes_the_files :
  let w := after [forget (Run 1 order1 1); forget (Run 2 order1 1)] [(1, 5); (0, 21); (1, 27); (0, 3)] fresh_home in
  listening w = [2] ∧ file PIDFile w = None ∧ (run Connect w).1 = Ok false ∧
  let w' := (run (startup 3 order1 1) w).2 in listening w' = [3; 2].
Proof. vm_compute. done. Qed.

(** [reclaimStaleRuntime] without a PID file removes the token and the address of
    a daemon that has not written its PID yet: it serves, nobody reaches it, and
    no other daemon can start. *)
Lemma reclaim_of_a_start :
  let w := after [forget (Run 1 [TokenFile; AddrFile; PIDFile] 1); reclaimStaleRuntime] [(0, 16); (1, 4); (0, 4)] fresh_home in
  listening w = [1] ∧ (run Connect w).1 = Ok false ∧
  (run (startup 2 order1 1) w).1 = Err "daemon: another daemon owns this runtime dir".
Proof. vm_compute. done. Qed.

(** [Stop] with the files of a daemon that died and whose pid another process
    got: that process is killed. *)
Definition reused : World := mkWorld (λ _, Some (0, Some 2)) 1 None [1; 2] [] [] [] 3.
Lemma Stop_kills_a_stranger : (run (Stop 4) reused).1 = Ok None ∧ alive (run (Stop 4) reused).2 = [1].
Proof. vm_compute. done. Qed.
End lifecycle.
